(* ===== verification/_CoqProject ===== *)
-Q . S2P
Prelude.v
Triple.v
Total.v
Words.v
Bitmap.v
Lists.v
Sync.v
Str.v
Format.v
Layout.v
Cache.v
CacheSpec.v
CacheLog.v
BlockCache.v
CacheAlloc.v
CacheOps.v
Ring.v
Console.v
Pipe.v
Inode.v
InodeSpec.v
InodeWrite.v
InodeDir.v
InodePath.v
File.v
FileSpec.v
InodeRefs.v
FileRefs.v
FileTriple.v
Sysfile.v
SysfileSpec.v
Start.v
StartSpec.v
Mkfs.v
MkfsFile.v
MkfsSpec.v
MkfsImage.v
Rbtree.v
RbtreeSpec.v
RbtreeInsert.v
RbtreeRotate.v
RbtreeErase.v
Mmu.v
KernelPt.v
Mem.v
MemSpec.v
Pt.v
PtSpec.v
Paging.v
PagingSpec.v
Swap.v
Sched.v
SchedSpec.v
Proc.v
ProcSpec.v
Sh.v
ShSpec.v
ShRun.v
User.v
UserSpec.v
Ipc.v
IpcSpec.v
Timer.v
TimerSpec.v
Device.v
Emmc.v
EmmcSpec.v
Sd.v
SdSpec.v
SdSim.v
Trap.v
TrapSpec.v
Exec.v
Image.v
Stack.v
Spaces.v
Segments.v
ExecSpec.v
ExecDemo.v
