(* ===== verification/Prelude.v ===== *)
(** * Verified model of the OS-2022Fall-Fudan teaching kernel

    The program is a small monolithic kernel for the Raspberry Pi 3 with a Unix-like system
    call interface, its user programs and the tool that builds its disk image.  This library
    translates its C code, function by function, into definitions that run inside Rocq, and
    proves what makes each part correct.

    ** Parts of the program and the files that model them

    Every definition has the name of the C function, structure or macro it translates (with a
    suffix where one C function is split into its loops); paths are relative to [src/src/].
    A file [X.v] holds the model of a part, files [XSpec.v] and the like what is proved of it.

    Common routines
    - [Words]: integer types, rounding, little-endian bytes ([common/defines.h]).
    - [Bitmap]: [common/bitmap.h]; a bit changes, the others stay.
    - [Lists]: [common/list.c] on a heap of nodes; the pointer operations compute operations
      on sequences, and the queue is a first-in first-out queue.
    - [Sync]: [common/spinlock.c], [sem.c], [rc.c]; as a system of threads, a semaphore
      initialised with 1 admits one thread, and posting all wakes every sleeper.
    - [Str]: [common/string.c]; overlapping moves are right, comparisons agree with the
      lexicographic order on bytes.
    - [Format]: [common/format.c], [kernel/printk.c]; [printk] prints what a reference
      formatter over the list of directives gives.
    - [Ring]: the ring arithmetic shared by [Console] and [Pipe].
    - [Rbtree]: [common/rbtree.c] with its packed parent-and-colour words; [RbtreeSpec] relates
      memory to trees, [RbtreeInsert], [RbtreeRotate] and [RbtreeErase] prove insertion,
      search and removal.
    - [Ipc], [IpcSpec]: [common/ipc.c], message queues as mailboxes.

    File system, bottom up
    - [Layout]: the on-disk structures of [fs/defines.h], coded and decoded.
    - [Cache]: [fs/cache.c].  [CacheSpec] (what the cache shows its clients), [CacheLog]
      (commit and recovery are atomic, whatever write a crash interrupts), [CacheAlloc] (the
      bitmap allocator), [CacheOps] (opening and closing operations).
    - [BlockCache]: the interface, as classes of operations and laws that mirror
      [struct BlockCache]; [CacheAlloc] and [CacheOps] are the instances, and everything from
      [InodeSpec] up is proved against the laws only.
    - [Inode]: [fs/inode.c].  [InodeSpec] reads files, [InodeWrite] grows and writes them,
      [InodeDir] is about directories, [InodePath] about paths, [InodeRefs] about the
      references to inodes and their locks.
    - [Pipe]: [fs/pipe.c].  [File]: [fs/file.c] and the two functions of [fs/pipe.c] that use
      the table of open files.  [FileSpec]: writing in pieces that fit the log; [FileRefs]:
      reference counts of files and the life of pipes; [FileTriple]: both together.
    - [Sysfile], [SysfileSpec]: [kernel/sysfile.c], every file system call, and that none
      loses or invents a reference, errors included.
    - [Start], [StartSpec]: [fs/fs.c] and the working directory of the first process: from any
      sound disk, one with a committed log included, to the state the theorems above assume.
    - [Mkfs]: [user/mkfs/main.c].  [MkfsFile], [MkfsSpec] and [MkfsImage] show that the image it
      builds reads back as the files it was given, by the definitions of the kernel.

    Devices
    - [Console]: [kernel/console.c], the line discipline.  [Timer] and [TimerSpec]:
      [kernel/cpu.c], [driver/clock.c], timers over the red-black tree.
    - [Device]: [driver/base.h], [uart.c], [mbox.c] over an interface [device], the bus: what a
      load of a register answers and what a store does to the machine is not the kernel's
      code, and every theorem holds for each bus that obeys the laws it names.
    - [Emmc]: [driver/sddef.h], the command set and the start-up of the SD host controller.
      [EmmcSpec]: the clock divider never exceeds the frequency asked for, the capacity is read
      as the card's register defines it, and start-up ends whatever the card answers.
    - [Sd]: [driver/sd.c] and [fs/block_device.c], the queue of buffers that the interrupt
      handler works off.  [SdSpec]: against an interface [sd_controller], a simulation by
      the queue of requests and the bytes of the card; [SdSim]: a simulated controller with
      those laws, on which the theorems run.

    Memory
    - [Mmu]: [aarch64/mmu.h]; [KernelPt]: the static tables of [aarch64/kernel_pt.c].
    - [Mem], [MemSpec]: [kernel/mem.c], pages and the heap; allocations are disjoint.
    - [Pt], [PtSpec]: [kernel/pt.c]; [vmmap] maps one page and leaves every other translation
      alone, as the page table walk of the processor sees it.
    - [Paging]: [kernel/paging.c].  [PagingSpec]: what page faults and [sbrk] do to the bytes a
      process reads; [Swap]: swapping out and in again changes none of them.

    Exceptions: [Trap] ([aarch64/trap.c], [driver/interrupt.c], [kernel/syscall.c] and
    [kernel/sysproc.c]) over the state of the parts it calls; [TrapSpec]: which
    handlers an interrupt runs, and what the checks of user memory answer.

    Program loading: [Exec] ([kernel/exec.c]) over memory, page tables, inodes and the trap
    frame.  [Image] relates the bytes the kernel reads and writes at user addresses to the
    tables of an address space under construction; [Segments] loads the segments into it,
    [Stack] builds the stack of arguments and environment, [Spaces] makes and frees address
    spaces.  [ExecSpec] puts them together: [execve] of an executable, and of what is none;
    [ExecDemo] has a process and a file on which the theorems run.

    Processes
    - [Sched], [SchedSpec]: [kernel/sched.c]; nobody starves in the root container.
    - [Proc], [ProcSpec]: [kernel/proc.c], [kernel/container.c]; pids in use are distinct.
    - [Sh], [ShSpec], [ShRun]: [user/sh/main.c]; its parser is total, and running a command
      line starts the pipeline it describes.
    - [User], [UserSpec]: [user/cat], [user/echo], [user/ls], [user/mkdir] over a class of the
      calls they make; what [cat], [echo] and [ls] print.

    ** How the code is modelled

    C code that changes state is a computation of the monad [M] below: state in, outcome and
    state out, where the outcome tells a normal return from a [PANIC], undefined behaviour,
    sleeping for ever and spinning for ever.  A structure is a record; memory that is reached
    through pointers is a finite map from addresses, and what one component points to in
    another is an address of the other's map, so aliasing is as in the C code.  Integers are
    [Z] with the wrap-around of their C type written out ([u8] ... [u64]).  Spinlocks and
    semaphores keep their state (a lock taken twice spins), but one call runs at a time unless
    a file says otherwise: [Sync] interleaves threads step by step, [CacheLog] interrupts at
    every disk write, [SchedSpec] and [IpcSpec] run arbitrary sequences of calls.

    Loops run on fuel.  The fuel is computed from the state in the definition that starts the
    loop (the length of what is scanned, the number of list nodes, [S (length p)] for the bytes
    left to write) and the theorems show a result [Ok], so it never runs out: termination is
    part of what they state.  The exceptions are loops that wait for another party (sleeping
    on a semaphore, the idle loop), whose outcome is [Sleep].

    [Triple] has Hoare triples for the monad, used where a property is an invariant of many
    operations ([InodeRefs], [FileTriple], [SysfileSpec], [TimerSpec]), and [Total] triples that
    also state the return, used for the drivers; elsewhere proofs run the code symbolically by
    equations ([bind_Ok] and the lemmas called [_run]).

    ** Bounds

    [small_sb] of [CacheOps] and [mkfs_sb] of [Mkfs] are two concrete geometries; the witnesses
    use the first, because [mkfs]'s log overlaps its inode blocks by one block.  Sizes are those of
    the C code (512-byte blocks, 140 blocks a file, 63 blocks of log, 4 KiB pages).

    ** Not modelled

    What a register of a device or of the processor answers (a parameter, see [Device]);
    inline assembly ([aarch64/intrinsic.h] beyond register access, [entry.S], [swtch.S],
    [trap.S]); [kernel_entry] beyond [Start], which calls the initialisers of the parts in turn.  The
    tests under [test/], [sd_test], [user/init] and [user/usertests].  Weak memory order, caches
    and TLBs. *)

From Stdlib Require Import ZArith Lia.
From stdpp Require Export prelude gmap.

#[global] Open Scope Z_scope.
#[global] Set Default Goal Selector "!".
#[global] Unset Program Cases.

(** ** Outcomes of kernel code *)

(** What running a piece of kernel code from a state can lead to.
    - [Ok a]    it returned [a];
    - [Panic]   it reached [PANIC()] or a failing [ASSERT];
    - [Fault]   it did something undefined in C (null or dangling pointer, index
                out of the array);
    - [Sleep]   the only thread that runs went to sleep on a semaphore nobody
                can post;
    - [Spin]    it spins for ever on a spinlock it holds already;
    - [NoFuel]  the bound given to a loop ran out. *)
Inductive res (A : Type) : Type :=
  | Ok (a : A)
  | Panic
  | Fault
  | Sleep
  | Spin
  | NoFuel.
Arguments Ok {A} a.
Arguments Panic {A}.
Arguments Fault {A}.
Arguments Sleep {A}.
Arguments Spin {A}.
Arguments NoFuel {A}.

(** ** The kernel monad: explicit state, outcomes as above *)

Definition M (S A : Type) : Type := S → res (A * S).

#[global] Instance M_ret S : MRet (M S) := λ A a s, Ok (a, s).
#[global] Instance M_bind S : MBind (M S) := λ A B k m s,
  match m s with
  | Ok (a, s') => k a s'
  | Panic => Panic
  | Fault => Fault
  | Sleep => Sleep
  | Spin => Spin
  | NoFuel => NoFuel
  end.

Definition panic {S A} : M S A := λ _, Panic.
Definition fault {S A} : M S A := λ _, Fault.
Definition sleeping {S A} : M S A := λ _, Sleep.
Definition spin {S A} : M S A := λ _, Spin.
Definition nofuel {S A} : M S A := λ _, NoFuel.
Definition gets {S A} (f : S → A) : M S A := λ s, Ok (f s, s).
Definition modify {S} (f : S → S) : M S unit := λ s, Ok (tt, f s).
Definition when {S} (b : bool) (m : M S unit) : M S unit := if b then m else mret tt.
(** [ASSERT(b)] *)
Definition assert {S} (b : bool) : M S unit := if b then mret tt else panic.
(** a partial read: [Fault] where the C read would be undefined *)
Definition getopt {S A} (f : S → option A) : M S A := λ s,
  match f s with Some a => Ok (a, s) | None => Fault end.

(** Run the code of a component on the part of the state that belongs to it. *)
Definition on {S T A} (get : S → T) (put : T → S → S) (m : M T A) : M S A := λ s,
  match m (get s) with
  | Ok (a, t) => Ok (a, put t s)
  | Panic => Panic
  | Fault => Fault
  | Sleep => Sleep
  | Spin => Spin
  | NoFuel => NoFuel
  end.

(** A [for] loop over the elements of [l]. *)
Fixpoint for_each {S A} (l : list A) (body : A → M S unit) : M S unit :=
  match l with
  | [] => mret tt
  | x :: l => body x;; for_each l body
  end.

(** [i .. i+n-1] as the loop counters of [for (i = ..; ..; i++)]. *)
Fixpoint zseq (i : Z) (n : nat) : list Z :=
  match n with
  | O => []
  | Datatypes.S n => i :: zseq (i + 1) n
  end.

(** ** Symbolic execution of monadic code *)

Section monad_lemmas.
Context {S : Type}.
Implicit Types (s : S).

Lemma bind_Ok {A B} (m : M S A) (k : A → M S B) s a s' :
m s = Ok (a, s') → (m ≫= k) s = k a s'.
Proof. intros E. unfold mbind, M_bind. by rewrite E. Qed.

Lemma bind_Panic {A B} (m : M S A) (k : A → M S B) s :
m s = Panic → (m ≫= k) s = Panic.
Proof. intros E. unfold mbind, M_bind. by rewrite E. Qed.

Lemma bind_Sleep {A B} (m : M S A) (k : A → M S B) s :
m s = Sleep → (m ≫= k) s = Sleep.
Proof. intros E. unfold mbind, M_bind. by rewrite E. Qed.

Lemma bind_inv {A B} (m : M S A) (k : A → M S B) s b s' :
(m ≫= k) s = Ok (b, s') → ∃ a s1, m s = Ok (a, s1) ∧ k a s1 = Ok (b, s').
Proof.
unfold mbind, M_bind. destruct (m s) as [[a s1]| | | | |]; try discriminate. eauto.
Qed.

Lemma bind_assoc {A B C} (m : M S A) (k : A → M S B) (l : B → M S C) s :
((m ≫= k) ≫= l) s = (m ≫= λ a, k a ≫= l) s.
Proof. unfold mbind, M_bind. by destruct (m s) as [[a s1]| | | | |]. Qed.

Lemma gets_run {A} (f : S → A) s : gets f s = Ok (f s, s).
Proof. done. Qed.
Lemma modify_run (f : S → S) s : modify f s = Ok (tt, f s).
Proof. done. Qed.
Lemma mret_run {A} (a : A) s : (mret a : M S A) s = Ok (a, s).
Proof. done. Qed.
Lemma when_false_run (m : M S unit) s : when false m s = Ok (tt, s).
Proof. done. Qed.
Lemma getopt_run {A} (f : S → option A) s a : f s = Some a → getopt f s = Ok (a, s).
Proof. intros E. unfold getopt. by rewrite E. Qed.
Lemma on_run {T A} (get : S → T) (put : T → S → S) (m : M T A) s a t :
m (get s) = Ok (a, t) → on get put m s = Ok (a, put t s).
Proof. intros E. unfold on. by rewrite E. Qed.
Lemma assert_run b s : b = true → assert (S:=S) b s = Ok (tt, s).
Proof. by intros ->. Qed.
Lemma assert_fail b s : b = false → assert (S:=S) b s = Panic.
Proof. by intros ->. Qed.
End monad_lemmas.

(** One step of symbolic execution of the monadic program under evaluation. *)
Ltac mstep :=
  first
  [ rewrite bind_assoc
  | erewrite bind_Ok; [|first [apply gets_run | apply modify_run | apply mret_run
                              | apply getopt_run; eassumption | apply assert_run; eassumption
                              | eassumption]] ].

(** Turn a successful run of a sequence into the successful runs of its parts. *)
Ltac minv H :=
  let a := fresh "v" in let s := fresh "s" in let H1 := fresh "R" in let H2 := fresh "R" in
  apply bind_inv in H; destruct H as (a & s & H1 & H2).

(** Evaluate the monadic plumbing, keeping the program's own definitions folded. *)
Ltac mred := unfold mbind, M_bind, mret, M_ret, gets, modify, getopt, when, assert, panic, fault,
  sleeping, spin, nofuel.

(** Prove a decidable closed proposition by running its decision procedure. *)
Ltac by_decision := apply (bool_decide_unpack _); vm_compute; exact I.

(** ** Generic lemmas on loops, lists and options *)

Lemma for_each_app {S A} (l1 l2 : list A) (body : A → M S unit) (s : S) :
  for_each (l1 ++ l2) body s = (for_each l1 body;; for_each l2 body) s.
Proof.
  revert s. induction l1 as [|x l1 IH]; intros s; [done|]. simpl.
  rewrite bind_assoc. unfold mbind, M_bind in *.
  destruct (body x s) as [[[] s1]| | | | |]; auto.
Qed.

(** A loop whose body always succeeds succeeds, and an invariant of the body that is
    indexed by the iterations already done holds at the end. *)
Lemma for_each_invariant {S A} (I : list A → S → Prop) (body : A → M S unit) l :
  (∀ done x todo s, l = done ++ x :: todo → I done s →
     ∃ s', body x s = Ok (tt, s') ∧ I (done ++ [x]) s') →
  ∀ s, I [] s → ∃ s', for_each l body s = Ok (tt, s') ∧ I l s'.
Proof.
  intros Hbody.
  cut (∀ todo done s, l = done ++ todo → I done s →
         ∃ s', for_each todo body s = Ok (tt, s') ∧ I l s').
  { intros H s Hs. by apply (H l [] s). }
  induction todo as [|x todo IH]; intros done s Hl HI; simpl.
  - exists s. rewrite app_nil_r in Hl. by subst done.
  - destruct (Hbody done x todo s Hl HI) as (s1 & E & HI1).
    unfold mbind, M_bind. rewrite E. apply (IH (done ++ [x])); [|done].
    by rewrite Hl, <-app_assoc.
Qed.

Lemma length_zseq i n : length (zseq i n) = n.
Proof. revert i; induction n; intros; simpl; auto. Qed.

Lemma zseq_app i n m : zseq i (n + m) = zseq i n ++ zseq (i + Z.of_nat n) m.
Proof.
  revert i; induction n as [|n IH]; intros i; simpl.
  - by rewrite Z.add_0_r.
  - rewrite IH. do 3 f_equal. lia.
Qed.

Lemma elem_of_zseq i n x : x ∈ zseq i n ↔ i ≤ x < i + Z.of_nat n.
Proof.
  revert i; induction n as [|n IH]; intros i; simpl.
  - split; [by intros ?%elem_of_nil|lia].
  - rewrite elem_of_cons, IH. lia.
Qed.

Lemma lookup_zseq i n k : (k < n)%nat → zseq i n !! k = Some (i + Z.of_nat k).
Proof.
  revert i k; induction n as [|n IH]; intros i [|k] Hk; simpl; try lia.
  - f_equal; lia.
  - rewrite IH by lia. f_equal; lia.
Qed.

(** Splitting an enumeration at one of its elements. *)
Lemma zseq_split i n done x todo :
  zseq i n = done ++ x :: todo →
  done = zseq i (length done) ∧ x = i + Z.of_nat (length done) ∧
  (length done < n)%nat.
Proof.
  intros E. pose proof (f_equal length E) as El.
  rewrite length_app, length_zseq in El. simpl in El.
  replace n with (length done + (n - length done))%nat in E by lia.
  rewrite zseq_app in E.
  apply app_inj_1 in E as [E1 E2]; [|by rewrite length_zseq].
  replace (n - length done)%nat with (Datatypes.S (n - length done - 1)) in E2 by lia.
  simpl in E2. injection E2 as E2 _. split; [done|]. split; [done|lia].
Qed.

Lemma filter_all {A} (P : A → Prop) `{∀ x, Decision (P x)} (l : list A) :
  (∀ x, x ∈ l → P x) → filter P l = l.
Proof.
  induction l as [|x l IH]; intros HP; [done|].
  rewrite filter_cons_True by (apply HP; left). by rewrite IH by (intros; apply HP; by right).
Qed.

Create Rewrite HintDb kernel.
#[export] Hint Rewrite length_zseq @length_insert @length_app @length_replicate : kernel.
