(* ===== verification/Triple.v ===== *)
(** * Partial-correctness triples for kernel code

    [triple P m Q]: whenever [m] returns from a state in which [P] holds, [Q] holds of its
    result and of the state it leaves.  Nothing is said about the code that panics, sleeps or
    faults: that is what the theorems that give the outcome are for.  [keeps P m] is the
    special case of an invariant. *)

From Stdlib Require Import ZArith Lia.
From S2P Require Import Prelude.

Definition triple {S A} (P : S → Prop) (m : M S A) (Q : A → S → Prop) : Prop :=
  ∀ s a s', P s → m s = Ok (a, s') → Q a s'.

Definition keeps {S A} (P : S → Prop) (m : M S A) : Prop := triple P m (λ _, P).

Section rules.
Context {S : Type}.
Implicit Types (P : S → Prop).

Lemma triple_pre {A} (P P' : S → Prop) (m : M S A) Q :
  (∀ s, P' s → P s) → triple P m Q → triple P' m Q.
Proof. unfold triple. eauto. Qed.
Lemma triple_post {A} P (m : M S A) (Q Q' : A → S → Prop) :
  triple P m Q → (∀ a s, Q a s → Q' a s) → triple P m Q'.
Proof. unfold triple. eauto. Qed.
Lemma triple_bind {A B} P (m : M S A) (k : A → M S B) R Q :
  triple P m R → (∀ a, triple (R a) (k a) Q) → triple P (m ≫= k) Q.
Proof. intros H1 H2 s b s' HP E. minv E. eapply H2; [|done]. by eapply H1. Qed.
Lemma triple_ret {A} P (a : A) (Q : A → S → Prop) : (∀ s, P s → Q a s) → triple P (mret a) Q.
Proof. intros H s a' s' HP [= <- <-]. auto. Qed.
(** the state is known to be one of those with a fact about it *)
Lemma triple_fact {A} (φ : Prop) P (m : M S A) Q :
  (φ → triple P m Q) → triple (λ s, φ ∧ P s) m Q.
Proof. intros H s a s' [Hφ HP] E. by eapply H. Qed.
Lemma triple_and_l {A} P (φ : S → Prop) (m : M S A) Q :
  triple P m Q → triple (λ s, P s ∧ φ s) m Q.
Proof. intros H s a s' [HP _]. by apply H. Qed.
Lemma triple_or {A} P1 P2 (m : M S A) Q :
  triple P1 m Q → triple P2 m Q → triple (λ s, P1 s ∨ P2 s) m Q.
Proof. intros H1 H2 s a s' [HP|HP]; [by apply H1|by apply H2]. Qed.
(** an invariant beside the assertion *)
Lemma triple_frame {A} P (φ : S → Prop) (m : M S A) Q :
  keeps φ m → triple P m Q → triple (λ s, P s ∧ φ s) m (λ a s, Q a s ∧ φ s).
Proof. intros H1 H2 s a s' [HP Hφ] E. split; [by eapply H2|by eapply H1]. Qed.
Lemma triple_false {A} P (m : M S A) Q : (∀ s, P s → False) → triple P m Q.
Proof. intros H s a s' HP. by destruct (H s). Qed.
Lemma triple_gets {A} P (f : S → A) : triple P (gets f) (λ a s, a = f s ∧ P s).
Proof. intros s a s' HP [= <- <-]. done. Qed.
Lemma triple_getopt {A} P (f : S → option A) : triple P (getopt f) (λ a s, f s = Some a ∧ P s).
Proof. intros s a s' HP. unfold getopt. destruct (f s) eqn:E; [|done]. by intros [= <- <-]. Qed.
Lemma triple_modify P (f : S → S) (Q : unit → S → Prop) :
  (∀ s, P s → Q tt (f s)) → triple P (modify f) Q.
Proof. intros H s [] s' HP [= <-]. auto. Qed.
Lemma triple_assert P b : triple P (assert b) (λ _ s, b = true ∧ P s).
Proof. intros s [] s' HP. destruct b; [|done]. by intros [= <-]. Qed.

Lemma keeps_bind {A B} P (m : M S A) (k : A → M S B) :
  keeps P m → (∀ a, keeps P (k a)) → keeps P (m ≫= k).
Proof. intros. by eapply triple_bind. Qed.
Lemma keeps_ret {A} P (a : A) : keeps P (mret a).
Proof. by apply triple_ret. Qed.
Lemma keeps_gets {A} P (f : S → A) : keeps P (gets f).
Proof. by intros s a s' HP [= <- <-]. Qed.
Lemma keeps_getopt {A} P (f : S → option A) : keeps P (getopt f).
Proof. intros s a s' HP E. by destruct (triple_getopt P f s a s' HP E). Qed.
Lemma keeps_modify P (f : S → S) : (∀ s, P s → P (f s)) → keeps P (modify f).
Proof. intros. by apply triple_modify. Qed.
Lemma keeps_assert P b : keeps P (assert b).
Proof. intros s a s' HP E. by destruct (triple_assert P b s a s' HP E). Qed.
Lemma keeps_when P b (m : M S unit) : keeps P m → keeps P (when b m).
Proof. intros. destruct b; [done|apply keeps_ret]. Qed.
Lemma keeps_panic {A} P : keeps P (panic : M S A).
Proof. by intros s a s' _ [=]. Qed.
Lemma keeps_nofuel {A} P : keeps P (nofuel : M S A).
Proof. by intros s a s' _ [=]. Qed.
Lemma keeps_for_each {A} P (l : list A) (body : A → M S unit) :
  (∀ x, keeps P (body x)) → keeps P (for_each l body).
Proof. intros H. induction l; simpl; [apply keeps_ret|by apply keeps_bind]. Qed.

(** code of a component keeps what does not depend on the state of the component *)
Lemma keeps_on {T A} (get : S → T) (put : T → S → S) (m : M T A) P :
  (∀ s t, P s → P (put t s)) → keeps P (on get put m).
Proof.
  intros H s a s' HP. unfold on. destruct (m (get s)) as [[x t]| | | | |]; try done.
  intros [= <- <-]. auto.
Qed.
Lemma triple_on {T A} (get : S → T) (put : T → S → S) (m : M T A)
    (P : S → Prop) (P' : T → Prop) (Q' : A → T → Prop) (Q : A → S → Prop) :
  (∀ s, P s → P' (get s)) → triple P' m Q' → (∀ s a t, P s → Q' a t → Q a (put t s)) →
  triple P (on get put m) Q.
Proof.
  intros H1 H2 H3 s a s' HP. unfold on. destruct (m (get s)) as [[x t]| | | | |] eqn:E; try done.
  intros [= <- <-]. eauto.
Qed.
End rules.

Create HintDb keeps discriminated.
#[export] Hint Resolve keeps_ret keeps_gets keeps_getopt keeps_assert keeps_panic keeps_nofuel : keeps.

(** Decompose a program that keeps an invariant; the database [keeps] knows the parts. *)
Ltac keep :=
  repeat match goal with
  | |- ∀ _, _ => intro
  | |- keeps _ _ => solve [auto with keeps]
  | |- keeps _ (mbind _ _) => apply keeps_bind
  | |- keeps _ (when _ _) => apply keeps_when
  | |- keeps _ (for_each _ _) => apply keeps_for_each
  | |- keeps _ (match ?x with _ => _ end) => destruct x
  end.
