(* ===== verification/Total.v ===== *)
(** * Total-correctness triples for kernel code

    [returns P m Q]: from a state in which [P] holds, [m] returns, and [Q] holds of its result and
    of the state it leaves.  Unlike [triple] it excludes every other outcome. *)

From Stdlib Require Import ZArith Lia.
From S2P Require Import Prelude.

Definition returns {S A} (P : S → Prop) (m : M S A) (Q : A → S → Prop) : Prop :=
  ∀ s, P s → ∃ a s', m s = Ok (a, s') ∧ Q a s'.

(** [m] returns and keeps [P] *)
Notation stable P m := (returns P m (λ _, P)).

Section rules.
Context {S : Type}.
Implicit Types (P : S → Prop).

Lemma returns_pre {A} (P P' : S → Prop) (m : M S A) Q :
  (∀ s, P' s → P s) → returns P m Q → returns P' m Q.
Proof. unfold returns. eauto. Qed.
Lemma returns_post {A} P (m : M S A) (Q Q' : A → S → Prop) :
  returns P m Q → (∀ a s, Q a s → Q' a s) → returns P m Q'.
Proof. intros H HQ s HP. destruct (H s HP) as (a & s' & E & Ha). eauto. Qed.
Lemma returns_bind {A B} P (m : M S A) (k : A → M S B) R Q :
  returns P m R → (∀ a, returns (R a) (k a) Q) → returns P (m ≫= k) Q.
Proof.
  intros H1 H2 s HP. destruct (H1 s HP) as (a & s1 & E1 & HR). destruct (H2 a s1 HR) as (b & s2 & E2 & HQ).
  exists b, s2. by rewrite (bind_Ok _ _ _ _ _ E1).
Qed.
Lemma returns_ret {A} P (a : A) (Q : A → S → Prop) : (∀ s, P s → Q a s) → returns P (mret a) Q.
Proof. intros H s HP. exists a, s. auto. Qed.
Lemma returns_gets {A} P (f : S → A) : returns P (gets f) (λ a s, a = f s ∧ P s).
Proof. intros s HP. by exists (f s), s. Qed.
Lemma returns_modify P (f : S → S) (Q : unit → S → Prop) :
  (∀ s, P s → Q tt (f s)) → returns P (modify f) Q.
Proof. intros H s HP. exists tt, (f s). auto. Qed.
Lemma returns_getopt {A} P (f : S → option A) (Q : A → S → Prop) :
  (∀ s, P s → ∃ a, f s = Some a ∧ Q a s) → returns P (getopt f) Q.
Proof. intros H s HP. destruct (H s HP) as (a & E & HQ). exists a, s. split; [by apply getopt_run|done]. Qed.
Lemma returns_fact {A} (φ : Prop) P (m : M S A) Q :
  (φ → returns P m Q) → returns (λ s, φ ∧ P s) m Q.
Proof. intros H s [Hφ HP]. by apply H. Qed.

Lemma stable_bind {A B} P (m : M S A) (k : A → M S B) :
  stable P m → (∀ a, stable P (k a)) → stable P (m ≫= k).
Proof. intros. by eapply returns_bind. Qed.
Lemma stable_ret {A} P (a : A) : stable P (mret a).
Proof. by apply returns_ret. Qed.
Lemma stable_gets {A} P (f : S → A) : stable P (gets f).
Proof. eapply returns_post; [apply returns_gets|]. by intros a s [_ H]. Qed.
Lemma stable_modify P (f : S → S) : (∀ s, P s → P (f s)) → stable P (modify f).
Proof. intros. by apply returns_modify. Qed.
Lemma stable_when P b (m : M S unit) : stable P m → stable P (when b m).
Proof. intros. destruct b; [done|apply stable_ret]. Qed.
Lemma stable_for_each {A} P (l : list A) (body : A → M S unit) :
  (∀ x, stable P (body x)) → stable P (for_each l body).
Proof. intros H. induction l; simpl; [apply stable_ret|by apply stable_bind]. Qed.
Lemma stable_on {T A} (get : S → T) (put : T → S → S) (m : M T A) P :
  (∀ t, ∃ a t', m t = Ok (a, t')) → (∀ s t, P s → P (put t s)) → stable P (on get put m).
Proof.
  intros Hm HP s Hs. destruct (Hm (get s)) as (a & t & E). exists a, (put t s).
  split; [by apply on_run|by apply HP].
Qed.
End rules.

Create HintDb stable discriminated.
#[export] Hint Resolve stable_ret stable_gets : stable.

(** Decompose a program that returns and keeps an invariant; the database knows the parts. *)
Ltac stay :=
  repeat match goal with
  | |- ∀ _, _ => intro
  | |- stable _ _ => solve [auto with stable]
  | |- returns _ (mbind _ _) _ => apply stable_bind
  | |- returns _ (when _ _) _ => apply stable_when
  | |- returns _ (for_each _ _) _ => apply stable_for_each
  | |- returns _ (match ?x with _ => _ end) _ => destruct x
  end.

(** A loop over [i .. i+n-1], with what holds before each round. *)
Lemma returns_for_zseq {S} (P : Z → S → Prop) (body : Z → M S unit) n : ∀ i,
  (∀ k, i ≤ k < i + Z.of_nat n → returns (P k) (body k) (λ _, P (k + 1))) →
  returns (P i) (for_each (zseq i n) body) (λ _, P (i + Z.of_nat n)).
Proof.
  induction n as [|n IH]; intros i Hb; cbn [zseq for_each].
  - apply returns_ret. intros s. by rewrite Z.add_0_r.
  - eapply returns_bind; [apply Hb; lia|]. intros [].
    replace (i + Z.of_nat (Datatypes.S n)) with (i + 1 + Z.of_nat n) by lia. apply IH. intros k Hk. apply Hb. lia.
Qed.
