(* ===== verification/Words.v ===== *)
(** * Machine words and bytes

    The fixed-width integer types of [common/defines.h], little-endian encodings (the
    CPU is little-endian AArch64), and the two byte-array accesses every on-disk and
    in-memory structure is built from: reading a window of an array ([sub]) and
    overwriting one ([splice]). *)

From Stdlib Require Import ZArith Lia.
From S2P Require Import Prelude.

(** ** [typedef]s of [common/defines.h] *)

Definition u8 (z : Z) : Z := z mod 2 ^ 8.
Definition u16 (z : Z) : Z := z mod 2 ^ 16.
Definition u32 (z : Z) : Z := z mod 2 ^ 32.
Definition u64 (z : Z) : Z := z mod 2 ^ 64.
Definition i8 (z : Z) : Z := (z + 2 ^ 7) mod 2 ^ 8 - 2 ^ 7.
Definition i32 (z : Z) : Z := (z + 2 ^ 31) mod 2 ^ 32 - 2 ^ 31.
Definition i64 (z : Z) : Z := (z + 2 ^ 63) mod 2 ^ 64 - 2 ^ 63.

(** [MIN] and [MAX] of [common/defines.h] *)
Definition MIN (a b : Z) : Z := if a <=? b then a else b.
Definition MAX (a b : Z) : Z := if a >=? b then a else b.

(** [BIT(i)] *)
Definition BIT (i : Z) : Z := u64 (Z.shiftl 1 i).

(** [round_down] and [round_up] on [u64] *)
Definition round_down (a b : Z) : Z := u64 (a - a mod b).
Definition round_up (a b : Z) : Z := round_down (u64 (u64 (a + b) - 1)) b.

Ltac zmod := Z.div_mod_to_equations; lia.

Lemma u8_range z : 0 ≤ u8 z < 256.
Proof. unfold u8. change (2 ^ 8) with 256. zmod. Qed.
Lemma u16_range z : 0 ≤ u16 z < 2 ^ 16.
Proof. unfold u16. apply Z.mod_pos_bound. lia. Qed.
Lemma u32_range z : 0 ≤ u32 z < 2 ^ 32.
Proof. unfold u32. apply Z.mod_pos_bound. lia. Qed.
Lemma u64_range z : 0 ≤ u64 z < 2 ^ 64.
Proof. unfold u64. apply Z.mod_pos_bound. lia. Qed.
Lemma u8_id z : 0 ≤ z < 256 → u8 z = z.
Proof. intros. unfold u8. by rewrite Z.mod_small. Qed.
Lemma u16_id z : 0 ≤ z < 2 ^ 16 → u16 z = z.
Proof. intros. unfold u16. by rewrite Z.mod_small. Qed.
Lemma u32_id z : 0 ≤ z < 2 ^ 32 → u32 z = z.
Proof. intros. unfold u32. by rewrite Z.mod_small. Qed.
Lemma u64_id z : 0 ≤ z < 2 ^ 64 → u64 z = z.
Proof. intros. unfold u64. by rewrite Z.mod_small. Qed.
Lemma i32_id z : - 2 ^ 31 ≤ z < 2 ^ 31 → i32 z = z.
Proof. intros. unfold i32. rewrite Z.mod_small; lia. Qed.
Lemma i64_id z : - 2 ^ 63 ≤ z < 2 ^ 63 → i64 z = z.
Proof. intros. unfold i64. rewrite Z.mod_small; lia. Qed.
Lemma MIN_min a b : MIN a b = a `min` b.
Proof. unfold MIN. destruct (Z.leb_spec a b); lia. Qed.
Lemma MAX_max a b : MAX a b = a `max` b.
Proof. unfold MAX. rewrite Z.geb_leb. destruct (Z.leb_spec b a); lia. Qed.

Lemma u32_add_mod a b : u32 (u32 a + b) = u32 (a + b).
Proof. unfold u32. by rewrite Zplus_mod_idemp_l. Qed.
Lemma u64_add_mod a b : u64 (u64 a + b) = u64 (a + b).
Proof. unfold u64. by rewrite Zplus_mod_idemp_l. Qed.
Lemma u64_sub_mod a b : u64 (u64 a - b) = u64 (a - b).
Proof. unfold u64. by rewrite Zminus_mod_idemp_l. Qed.

(** ** Bytes *)

Definition is_byte (b : Z) : Prop := 0 ≤ b < 256.
Definition bytes (l : list Z) : Prop := Forall is_byte l.

#[global] Instance is_byte_dec b : Decision (is_byte b).
Proof. unfold is_byte. apply _. Defined.

Lemma bytes_lookup l i b : bytes l → l !! i = Some b → is_byte b.
Proof. intros H E. by eapply Forall_lookup_1 in E. Qed.
Lemma bytes_app l1 l2 : bytes (l1 ++ l2) ↔ bytes l1 ∧ bytes l2.
Proof. apply Forall_app. Qed.
Lemma bytes_take n l : bytes l → bytes (take n l).
Proof. apply Forall_take. Qed.
Lemma bytes_drop n l : bytes l → bytes (drop n l).
Proof. apply Forall_drop. Qed.
Lemma bytes_replicate n b : is_byte b → bytes (replicate n b).
Proof. intros. by apply Forall_replicate. Qed.

(** Little-endian encoding of an [n]-byte word. *)
Fixpoint le_enc (n : nat) (z : Z) : list Z :=
  match n with
  | O => []
  | S n => z mod 256 :: le_enc n (z / 256)
  end.

Fixpoint le_dec (l : list Z) : Z :=
  match l with
  | [] => 0
  | b :: l => b + 256 * le_dec l
  end.

Lemma length_le_enc n z : length (le_enc n z) = n.
Proof. revert z; induction n; intros; simpl; auto. Qed.

Lemma bytes_le_enc n z : bytes (le_enc n z).
Proof.
  revert z; induction n as [|n IH]; intros z; simpl; constructor; [|apply IH].
  unfold is_byte. apply Z.mod_pos_bound. lia.
Qed.

Lemma le_dec_range l : bytes l → 0 ≤ le_dec l < 256 ^ Z.of_nat (length l).
Proof.
  induction 1 as [|b l Hb Hl IH]; simpl; [lia|]. unfold is_byte in Hb.
  replace (Z.of_nat (S (length l))) with (Z.succ (Z.of_nat (length l))) by lia.
  rewrite Z.pow_succ_r by lia. nia.
Qed.

Lemma le_dec_enc n z : 0 ≤ z < 256 ^ Z.of_nat n → le_dec (le_enc n z) = z.
Proof.
  revert z; induction n as [|n IH]; intros z Hz; [simpl in *; lia|].
  rewrite Nat2Z.inj_succ, Z.pow_succ_r in Hz by lia.
  cbn [le_enc le_dec]. rewrite IH.
  - zmod.
  - split; [zmod|]. apply Z.div_lt_upper_bound; lia.
Qed.

Lemma le_enc_dec l : bytes l → le_enc (length l) (le_dec l) = l.
Proof.
  induction 1 as [|b l Hb Hl IH]; simpl; [done|]. unfold is_byte in Hb.
  replace ((b + 256 * le_dec l) mod 256) with b by zmod.
  replace ((b + 256 * le_dec l) / 256) with (le_dec l) by zmod. by rewrite IH.
Qed.

#[export] Hint Rewrite length_le_enc : kernel.

(** ** Windows of byte arrays *)

(** the [n] bytes at [off] *)
Definition sub {A} (off n : nat) (l : list A) : list A := take n (drop off l).
(** [l] with the bytes from [off] on overwritten by [new] *)
Definition splice {A} (off : nat) (new l : list A) : list A :=
  take off l ++ new ++ drop (off + length new) l.

Section windows.
Context {A : Type}.
Implicit Types l new : list A.

Lemma length_sub off n l : (off + n ≤ length l)%nat → length (sub off n l) = n.
Proof. intros. unfold sub. rewrite length_take, length_drop. lia. Qed.

Lemma length_splice off new l :
(off + length new ≤ length l)%nat → length (splice off new l) = length l.
Proof. intros. unfold splice. rewrite !length_app, length_take, length_drop. lia. Qed.

Lemma lookup_sub off n l i : (i < n)%nat → sub off n l !! i = l !! (off + i)%nat.
Proof. intros. unfold sub. rewrite lookup_take_lt by done. by rewrite lookup_drop. Qed.

Lemma lookup_splice off new l i :
(off + length new ≤ length l)%nat →
splice off new l !! i =
  if decide (off ≤ i < off + length new)%nat then new !! (i - off)%nat else l !! i.
Proof.
intros Hl. unfold splice. destruct (decide (i < off)%nat).
- rewrite decide_False by lia. rewrite lookup_app_l by (rewrite length_take; lia).
  by rewrite lookup_take_lt.
- rewrite lookup_app_r by (rewrite length_take; lia).
  rewrite length_take_le by lia.
  destruct (decide (i < off + length new)%nat).
  + rewrite decide_True by lia. by rewrite lookup_app_l by lia.
  + rewrite decide_False by lia. rewrite lookup_app_r by lia.
    rewrite lookup_drop. f_equal. lia.
Qed.

Lemma list_eq_length l1 l2 :
length l1 = length l2 → (∀ i, (i < length l1)%nat → l1 !! i = l2 !! i) → l1 = l2.
Proof.
intros E H. apply list_eq. intros i. destruct (decide (i < length l1)%nat); [auto|].
rewrite !lookup_ge_None_2 by lia. done.
Qed.

Lemma sub_splice_eq off new l :
(off + length new ≤ length l)%nat → sub off (length new) (splice off new l) = new.
Proof.
intros Hl. apply list_eq_length.
- apply length_sub. by rewrite length_splice.
- intros i Hi. rewrite length_sub in Hi by (rewrite length_splice; lia).
  rewrite lookup_sub by done. rewrite lookup_splice by done.
  rewrite decide_True by lia. f_equal. lia.
Qed.

Lemma sub_splice_ne off n off' new l :
(off + n ≤ length l)%nat → (off' + length new ≤ length l)%nat →
(off + n ≤ off' ∨ off' + length new ≤ off)%nat →
sub off n (splice off' new l) = sub off n l.
Proof.
intros H1 H2 Hd. apply list_eq_length.
- rewrite !length_sub; [done|done|by rewrite length_splice].
- intros i Hi. rewrite length_sub in Hi by (rewrite length_splice; lia).
  rewrite !lookup_sub by done. rewrite lookup_splice by done.
  rewrite decide_False by lia. done.
Qed.

Lemma splice_sub off n l :
(off + n ≤ length l)%nat → splice off (sub off n l) l = l.
Proof.
intros Hl. pose proof (length_sub off n l Hl) as Hs.
apply list_eq_length; [apply length_splice; lia|].
intros i Hi. rewrite lookup_splice by lia. destruct (decide _) as [Hd|]; [|done].
rewrite lookup_sub by lia. f_equal. lia.
Qed.

Lemma splice_insert off x l :
(off < length l)%nat → splice off [x] l = <[off := x]> l.
Proof.
intros Hl. apply list_eq_length.
- rewrite length_insert, length_splice; simpl; [done|lia].
- intros i Hi. rewrite lookup_splice by (simpl; lia). simpl.
  destruct (decide (i = off)) as [->|Hne].
  + rewrite decide_True by lia. rewrite list_lookup_insert_eq by done.
    by rewrite Nat.sub_diag.
  + rewrite decide_False by lia. by rewrite list_lookup_insert_ne.
Qed.

Lemma take_splice off new l :
(off + length new ≤ length l)%nat →
take (off + length new) (splice off new l) = take off l ++ new.
Proof.
intros Hl. unfold splice. rewrite app_assoc.
apply take_app_length'. rewrite length_app, length_take. lia.
Qed.
End windows.

Lemma bytes_splice off new l : bytes new → bytes l → bytes (splice off new l).
Proof.
  intros. unfold splice. rewrite !bytes_app.
  split; [by apply bytes_take|]. split; [done|by apply bytes_drop].
Qed.
Lemma bytes_sub off n l : bytes l → bytes (sub off n l).
Proof. intros. by apply bytes_take, bytes_drop. Qed.

(** ** Arrays of words *)

(** [xs] as consecutive [w]-byte words *)
Fixpoint enc_words (w : nat) (xs : list Z) : list Z :=
  match xs with
  | [] => []
  | x :: xs => le_enc w x ++ enc_words w xs
  end.
(** the first [k] [w]-byte words of [l] *)
Fixpoint dec_words (w k : nat) (l : list Z) : list Z :=
  match k with
  | O => []
  | S k => le_dec (take w l) :: dec_words w k (drop w l)
  end.

Definition word_ok (w : nat) (z : Z) : Prop := 0 ≤ z < 256 ^ Z.of_nat w.

#[global] Instance word_ok_dec w z : Decision (word_ok w z).
Proof. unfold word_ok. apply _. Defined.

Lemma length_enc_words w xs : length (enc_words w xs) = (w * length xs)%nat.
Proof.
  induction xs as [|x xs IH]; simpl; [lia|].
  rewrite length_app, length_le_enc, IH. lia.
Qed.
Lemma bytes_enc_words w xs : bytes (enc_words w xs).
Proof.
  induction xs as [|x xs IH]; simpl; [constructor|].
  apply bytes_app. split; [apply bytes_le_enc|apply IH].
Qed.
Lemma length_dec_words w k l : length (dec_words w k l) = k.
Proof. revert l; induction k; intros; simpl; auto. Qed.

Lemma dec_enc_words w xs rest :
  Forall (word_ok w) xs → dec_words w (length xs) (enc_words w xs ++ rest) = xs.
Proof.
  induction 1 as [|x xs Hx Hxs IH]; [done|].
  cbn [length dec_words enc_words].
  rewrite <-app_assoc, take_app_length', drop_app_length' by (by rewrite length_le_enc).
  rewrite le_dec_enc by done. by rewrite IH.
Qed.

Lemma dec_words_ok w k l :
  bytes l → length l = (w * k)%nat → Forall (word_ok w) (dec_words w k l).
Proof.
  revert l; induction k as [|k IH]; intros l Hb Hl; simpl; constructor.
  - pose proof (le_dec_range (take w l) (bytes_take w l Hb)) as H.
    rewrite length_take_le in H by lia. done.
  - apply IH; [by apply bytes_drop|]. rewrite length_drop. lia.
Qed.

Lemma enc_dec_words w k l :
  bytes l → length l = (w * k)%nat → enc_words w (dec_words w k l) = l.
Proof.
  revert l; induction k as [|k IH]; intros l Hb Hl.
  - destruct l; [done|simpl in Hl; lia].
  - cbn [dec_words enc_words].
    rewrite IH; [|by apply bytes_drop|rewrite length_drop; lia].
    rewrite <-(length_take_le l w) at 1 by lia.
    rewrite le_enc_dec by (by apply bytes_take).
    apply take_drop.
Qed.

Lemma lookup_enc_words_sub w xs i x :
  xs !! i = Some x → sub (w * i) w (enc_words w xs) = le_enc w x.
Proof.
  revert i; induction xs as [|y xs IH]; intros [|i]; simpl; intros E.
  - done.
  - done.
  - simplify_eq. rewrite Nat.mul_0_r. unfold sub. rewrite drop_0.
    apply take_app_length'. by rewrite length_le_enc.
  - rewrite <-(IH i E). unfold sub. f_equal.
    replace (w * S i)%nat with (length (le_enc w y) + w * i)%nat
      by (rewrite length_le_enc; lia).
    by rewrite <-drop_drop, drop_app_length.
Qed.

Lemma lookup_dec_words w k l i :
  (i < k)%nat → length l = (w * k)%nat → dec_words w k l !! i = Some (le_dec (sub (w * i) w l)).
Proof.
  revert l i; induction k as [|k IH]; intros l [|i] Hi Hl; simpl; [lia|lia| |].
  - unfold sub. rewrite Nat.mul_0_r. by rewrite drop_0.
  - rewrite IH by (rewrite ?length_drop; lia). do 2 f_equal. unfold sub. rewrite drop_drop.
    do 2 f_equal. lia.
Qed.

Lemma dec_words_splice w k l i v :
  (i < k)%nat → length l = (w * k)%nat → word_ok w v →
  dec_words w k (splice (w * i) (le_enc w v) l) = <[i := v]> (dec_words w k l).
Proof.
  intros Hi Hl Hv. assert (w * i + w ≤ w * k)%nat by nia.
  assert (length (splice (w * i) (le_enc w v) l) = w * k)%nat as Hl'.
  { rewrite length_splice; rewrite ?length_le_enc; lia. }
  apply list_eq_length; [by rewrite length_insert, !length_dec_words|].
  rewrite length_dec_words. intros j Hj. rewrite lookup_dec_words by done.
  destruct (decide (j = i)) as [->|Hne].
  - rewrite list_lookup_insert_eq by (by rewrite length_dec_words). f_equal.
    pose proof (sub_splice_eq (w * i) (le_enc w v) l) as E. rewrite length_le_enc in E.
    rewrite E by lia. by apply le_dec_enc.
  - rewrite list_lookup_insert_ne by done. rewrite lookup_dec_words by done. do 2 f_equal.
    apply sub_splice_ne; rewrite ?length_le_enc; nia.
Qed.
