(* ===== verification/Bitmap.v ===== *)
(** * [common/bitmap.h]: bitmaps in arrays of 64-bit cells

    [None] is an access out of the array. *)

From Stdlib Require Import ZArith Lia.
From S2P Require Import Prelude Words.

Definition BITMAP_BITS_PER_CELL : Z := 8 * 8.
Definition BITMAP_TO_NUM_CELLS (size : Z) : Z := (size + BITMAP_BITS_PER_CELL - 1) / BITMAP_BITS_PER_CELL.
(** the cell and the bit in it *)
Definition BITMAP_PARSE_INDEX (index : Z) : nat * Z :=
  (Z.to_nat (index / BITMAP_BITS_PER_CELL), index mod BITMAP_BITS_PER_CELL).

(** [Bitmap(name, size)], cleared *)
Definition Bitmap (size : Z) : list Z := replicate (Z.to_nat (BITMAP_TO_NUM_CELLS size)) 0.

Definition bitmap_get (bitmap : list Z) (index : Z) : option bool :=
  let '(idx, offset) := BITMAP_PARSE_INDEX index in
  cell ← bitmap !! idx; Some (negb (Z.land (Z.shiftr cell offset) 1 =? 0)).
Definition bitmap_set (bitmap : list Z) (index : Z) : option (list Z) :=
  let '(idx, offset) := BITMAP_PARSE_INDEX index in
  cell ← bitmap !! idx; Some (<[idx := Z.lor cell (BIT offset)]> bitmap).
Definition bitmap_clear (bitmap : list Z) (index : Z) : option (list Z) :=
  let '(idx, offset) := BITMAP_PARSE_INDEX index in
  cell ← bitmap !! idx; Some (<[idx := Z.land cell (u64 (Z.lnot (BIT offset)))]> bitmap).

(** ** A bitmap is the sequence of its bits *)

Definition cells_ok (bitmap : list Z) : Prop := Forall (λ c, 0 ≤ c < 2 ^ 64) bitmap.

Lemma get_testbit bitmap i : bitmap_get bitmap i =
  (λ c, Z.testbit c (i mod 64)) <$> bitmap !! Z.to_nat (i / 64).
Proof.
  unfold bitmap_get, BITMAP_PARSE_INDEX. change BITMAP_BITS_PER_CELL with 64.
  destruct (bitmap !! _) as [c|]; [|done]. cbn [mbind option_bind fmap option_fmap option_map]. f_equal.
  assert (0 ≤ i mod 64) as Hm by (apply Z.mod_pos_bound; lia).
  change 1 with (Z.ones 1). rewrite Z.land_ones by lia. change (2 ^ 1) with 2.
  rewrite <-Z.bit0_mod, Z.shiftr_spec, Z.add_0_l by lia. by destruct (Z.testbit c (i mod 64)).
Qed.

Lemma same_bit i j : 0 ≤ i → 0 ≤ j → (Z.to_nat (i / 64) = Z.to_nat (j / 64) ∧ i mod 64 = j mod 64) ↔ i = j.
Proof. intros. split; [intros [? ?]; zmod|by intros ->]. Qed.

Lemma testbit_BIT o k : 0 ≤ o < 64 → Z.testbit (BIT o) k = bool_decide (o = k).
Proof.
  intros Ho. assert (BIT o = 2 ^ o) as ->.
  { unfold BIT. rewrite Z.shiftl_1_l. apply u64_id. split; [lia|]. apply Z.pow_lt_mono_r; lia. }
  rewrite Z.pow2_bits_eqb by lia. by destruct (Z.eqb_spec o k); [rewrite bool_decide_true|rewrite bool_decide_false].
Qed.

Lemma testbit_not_BIT o k : 0 ≤ o < 64 → 0 ≤ k < 64 → Z.testbit (u64 (Z.lnot (BIT o))) k = negb (bool_decide (o = k)).
Proof.
  intros Ho Hk. unfold u64. rewrite Z.mod_pow2_bits_low by lia. by rewrite Z.lnot_spec, testbit_BIT by lia.
Qed.

Lemma lor_u64 a b : 0 ≤ a < 2 ^ 64 → 0 ≤ b < 2 ^ 64 → 0 ≤ Z.lor a b < 2 ^ 64.
Proof.
  intros Ha Hb. assert (Z.lor a b = u64 (Z.lor a b)) as ->; [|apply u64_range].
  unfold u64. by rewrite <-Z.land_ones, Z.land_lor_distr_l, !Z.land_ones, !Z.mod_small by done.
Qed.

Lemma land_u64 a b : 0 ≤ a < 2 ^ 64 → 0 ≤ Z.land a b < 2 ^ 64.
Proof.
  intros Ha. assert (Z.land a b = u64 (Z.land a b)) as ->; [|apply u64_range].
  unfold u64. rewrite <-Z.land_ones, <-Z.land_assoc, (Z.land_comm b), Z.land_assoc, Z.land_ones by done. by rewrite Z.mod_small.
Qed.

(** storing a cell that differs in one bit changes that bit *)
Lemma get_update bitmap i j c c' b : 0 ≤ i → 0 ≤ j → bitmap !! Z.to_nat (i / 64) = Some c →
  (∀ k, 0 ≤ k < 64 → Z.testbit c' k = if decide (i mod 64 = k) then b else Z.testbit c k) →
  bitmap_get (<[Z.to_nat (i / 64) := c']> bitmap) j = if decide (i = j) then Some b else bitmap_get bitmap j.
Proof.
  intros Hi Hj Hc Hb. rewrite !get_testbit. assert (0 ≤ j mod 64 < 64) as Hm by (apply Z.mod_pos_bound; lia).
  destruct (decide (Z.to_nat (i / 64) = Z.to_nat (j / 64))) as [E|Hne].
  - rewrite <-E, list_lookup_insert_eq, Hc by by eapply lookup_lt_Some. cbn [fmap option_fmap option_map].
    rewrite Hb by done. destruct (decide (i = j)) as [->|Hn]; [by rewrite decide_True|]. rewrite decide_False; [done|].
    intros Em. by apply Hn, same_bit.
  - rewrite list_lookup_insert_ne by done. rewrite decide_False; [done|]. by intros ->.
Qed.

(** Setting or clearing a bit within the bitmap changes what [bitmap_get] answers for that bit
    only; outside of it both fail, and they keep the cells within 64 bits. *)
Theorem bitmap_correct bitmap i : cells_ok bitmap → 0 ≤ i →
  if i <? 64 * Z.of_nat (length bitmap) then
    ∃ on off, bitmap_set bitmap i = Some on ∧ bitmap_clear bitmap i = Some off ∧ cells_ok on ∧ cells_ok off ∧
      length on = length bitmap ∧ length off = length bitmap ∧
      ∀ j, 0 ≤ j → bitmap_get on j = (if decide (i = j) then Some true else bitmap_get bitmap j) ∧
        bitmap_get off j = (if decide (i = j) then Some false else bitmap_get bitmap j)
  else bitmap_get bitmap i = None ∧ bitmap_set bitmap i = None ∧ bitmap_clear bitmap i = None.
Proof.
  intros Hok Hi. unfold bitmap_set, bitmap_clear, BITMAP_PARSE_INDEX. change BITMAP_BITS_PER_CELL with 64.
  assert (0 ≤ i mod 64 < 64) as Hm by (apply Z.mod_pos_bound; lia).
  destruct (Z.ltb_spec i (64 * Z.of_nat (length bitmap))) as [Hlt|Hge].
  - destruct (lookup_lt_is_Some_2 bitmap (Z.to_nat (i / 64))) as [c Hc]; [zmod|]. rewrite Hc. cbn [mbind option_bind].
    pose proof (Forall_lookup_1 _ _ _ _ Hok Hc) as Hcb. simpl in Hcb. do 2 eexists. split; [done|]. split; [done|]. split_and!.
    + apply Forall_insert; [done|]. apply lor_u64; [done|apply u64_range].
    + apply Forall_insert; [done|]. by apply land_u64.
    + apply length_insert.
    + apply length_insert.
    + intros j Hj. split; (eapply get_update; [done|done|done|]); intros k Hk.
      * rewrite Z.lor_spec, testbit_BIT by done. destruct (decide (i mod 64 = k)); [rewrite bool_decide_true by done; apply orb_true_r|].
        rewrite bool_decide_false by done. apply orb_false_r.
      * rewrite Z.land_spec, testbit_not_BIT by done. destruct (decide (i mod 64 = k)); [rewrite bool_decide_true by done; apply andb_false_r|].
        rewrite bool_decide_false by done. apply andb_true_r.
  - rewrite get_testbit, lookup_ge_None_2 by zmod. done.
Qed.

Lemma bitmap_correct_witness :
  ∃ on, bitmap_set (Bitmap 100) 70 = Some on ∧ bitmap_get on 70 = Some true ∧ bitmap_get on 6 = Some false.
Proof.
  destruct (bitmap_correct (Bitmap 100) 70 ltac:(by_decision) ltac:(lia)) as (on & off & E & _ & _ & _ & _ & _ & Hg).
  exists on. split; [exact E|]. split; [apply (Hg 70); lia|apply (Hg 6); lia].
Defined.
