(* ===== verification/Lists.v ===== *)
(** * [common/list.c]: circular doubly-linked lists, queues, lock-free stacks

    The pointer level: a heap maps addresses to nodes, [NULL] is address 0, and every
    operation is the sequence of reads and writes of the C code.  [ring h l] says the
    nodes of [l], in this order, form one circular list; the operations are proved to
    splice rings, so the other components may use plain lists for their list heads. *)

From Stdlib Require Import ZArith Lia.
From S2P Require Import Prelude.

(** ** Heaps of list nodes *)

Record ListNode := mkListNode { prev : Z; next : Z }.

#[global] Instance ListNode_eq_dec : EqDecision ListNode.
Proof. solve_decision. Defined.

Abbreviation heap := (gmap Z ListNode).

Definition load (a : Z) : M heap ListNode := getopt (λ h, h !! a).
Definition set_prev (a p : Z) : M heap unit :=
  n ← load a; modify (λ h, <[a := mkListNode p (next n)]> h).
Definition set_next (a x : Z) : M heap unit :=
  n ← load a; modify (λ h, <[a := mkListNode (prev n) x]> h).

(** ** The operations *)

(** The node is raw memory before, so this is what puts it into the heap. *)
Definition init_list_node (node : Z) : M heap unit :=
  if decide (node = 0) then fault
  else modify (λ h, <[node := mkListNode node node]> h).

Definition merge_list (node1 node2 : Z) : M heap Z :=
  if decide (node1 = 0) then mret node2
  else if decide (node2 = 0) then mret node1
  else
    n1 ← load node1; let node3 := next n1 in
    n2 ← load node2; let node4 := prev n2 in
    set_next node1 node2;;
    set_prev node2 node1;;
    set_next node4 node3;;
    set_prev node3 node4;;
    mret node1.

(** the macro [_insert_into_list(list, node)] *)
Definition insert_into_list (list node : Z) : M heap Z :=
  init_list_node node;; merge_list list node.

Definition detach_from_list (node : Z) : M heap Z :=
  n ← load node; let p := prev n in
  n ← load node; set_next (prev n) (next n);;
  n ← load node; set_prev (next n) (prev n);;
  init_list_node node;;
  mret (if decide (p = node) then 0 else p).

(** the macro [_empty_list(list)] *)
Definition empty_list (list : Z) : M heap bool :=
  n ← load list; mret (bool_decide (next n = list)).

(** The nodes the macro [_for_in_list(valptr, list)] binds [valptr] to, in order; the
    list head itself comes last, which is why its users test for it. *)
Fixpoint for_in_list (fuel : nat) (flag valptr : Z) : M heap (list Z) :=
  match fuel with
  | O => nofuel
  | S fuel =>
      if decide (valptr = 0) then mret []
      else
        nextptr ← (if decide (valptr = flag) then mret 0
                   else n ← load valptr; mret (next n));
        rest ← for_in_list fuel flag nextptr;
        mret (valptr :: rest)
  end.

(** ** Rings *)

Create HintDb ring.

(** [b] follows [a]: the next pointer of [a] and the previous pointer of [b] agree. *)
Definition linked (h : heap) (a b : Z) : Prop :=
  (∃ n, h !! a = Some n ∧ next n = b) ∧ (∃ n, h !! b = Some n ∧ prev n = a).

Fixpoint path (h : heap) (a : Z) (l : list Z) (b : Z) : Prop :=
  match l with
  | [] => linked h a b
  | x :: l => linked h a x ∧ path h x l b
  end.

Definition ring (h : heap) (l : list Z) : Prop :=
  match l with
  | [] => False
  | x :: l => 0 ∉ x :: l ∧ NoDup (x :: l) ∧ path h x l x
  end.

(** Only the nodes of [l] have changed. *)
Definition frame (l : list Z) (h h' : heap) : Prop := ∀ a, a ∉ l → h' !! a = h !! a.

Section rings.
Implicit Types (h : heap) (l : list Z).

Lemma path_app h a l1 x l2 b :
path h a (l1 ++ x :: l2) b ↔ path h a l1 x ∧ path h x l2 b.
Proof.
revert a; induction l1 as [|y l1 IH]; intros a; simpl; [done|].
rewrite IH. tauto.
Qed.

(** A ring may be entered at any of its nodes. *)
Lemma ring_rotate h l1 x l2 : ring h (l1 ++ x :: l2) → ring h (x :: l2 ++ l1).
Proof.
destruct l1 as [|y l1]; simpl; [by rewrite app_nil_r|].
intros (H0 & Hn & Hp). apply path_app in Hp as [Hp1 Hp2].
split; [set_solver|]. split.
- by rewrite (app_comm_cons l2), Permutation_app_comm.
- by apply path_app.
Qed.

Lemma path_lookup_start h a l b : path h a l b → is_Some (h !! a).
Proof. destruct l; [intros [(n & E & _) _]|intros [[(n & E & _) _] _]]; eauto. Qed.

Lemma path_lookup_end h a l b : path h a l b → is_Some (h !! b).
Proof.
revert a; induction l as [|x l IH]; simpl; intros a.
- intros [_ (n & E & _)]; eauto.
- intros [_ H]. eauto.
Qed.

(** The last node of a path starting at [a]. *)
Definition last_of (a : Z) (l : list Z) : Z := default a (last l).

Lemma last_of_cons a x l : last_of a (x :: l) = last_of x l.
Proof.
unfold last_of. rewrite last_cons. by destruct (last l).
Qed.

Lemma last_of_elem a l : last_of a l ∈ a :: l.
Proof.
revert a; induction l as [|x l IH]; intros a.
- set_solver.
- rewrite last_of_cons. specialize (IH x). set_solver.
Qed.

Lemma path_first h a l b :
path h a l b → ∃ n, h !! a = Some n ∧ next n = default b (head l).
Proof. destruct l; simpl; [intros [? _]|intros [[? _] _]]; done. Qed.

Lemma path_last h a l b :
path h a l b → ∃ n, h !! b = Some n ∧ prev n = last_of a l.
Proof.
revert a; induction l as [|x l IH]; intros a; simpl.
- by intros [_ ?].
- intros [_ H]. rewrite last_of_cons. auto.
Qed.

(** Paths depend only on the next pointers of all nodes but the end and on the
  previous pointers of all but the start. *)
Lemma path_ext h h' a l b :
(∀ x n, x ∈ a :: l → h !! x = Some n → ∃ n', h' !! x = Some n' ∧ next n' = next n) →
(∀ x n, x ∈ l ++ [b] → h !! x = Some n → ∃ n', h' !! x = Some n' ∧ prev n' = prev n) →
path h a l b → path h' a l b.
Proof.
assert (Hlink : ∀ a b,
  (∀ n, h !! a = Some n → ∃ n', h' !! a = Some n' ∧ next n' = next n) →
  (∀ n, h !! b = Some n → ∃ n', h' !! b = Some n' ∧ prev n' = prev n) →
  linked h a b → linked h' a b).
{ intros a' b' Ha Hb [(n & E & En) (m & E' & Em)].
  destruct (Ha _ E) as (n' & ? & ?), (Hb _ E') as (m' & ? & ?).
  split; eexists; split; eauto; congruence. }
revert a; induction l as [|x l IH]; intros a Hn Hp; simpl.
- apply Hlink; intros n; [apply Hn|apply Hp]; set_solver.
- intros [H1 H2]. split.
  + revert H1. apply Hlink; intros n; [apply Hn|apply Hp]; set_solver.
  + apply IH; [| |done]; intros y n Hy; [apply Hn|apply Hp]; set_solver.
Qed.

Lemma linked_ne h h' a b :
h' !! a = h !! a → h' !! b = h !! b → linked h a b → linked h' a b.
Proof. unfold linked. by intros -> ->. Qed.
End rings.

(** ** Field updates *)

Lemma set_next_run a x h :
  is_Some (h !! a) → set_next a x h = Ok (tt, alter (λ n, mkListNode (prev n) x) a h).
Proof.
  intros [n E]. unfold set_next, load. mred. rewrite E. by rewrite (alter_alt_Some _ _ _ n).
Qed.

Lemma set_prev_run a p h :
  is_Some (h !! a) → set_prev a p h = Ok (tt, alter (λ n, mkListNode p (next n)) a h).
Proof.
  intros [n E]. unfold set_prev, load. mred. rewrite E. by rewrite (alter_alt_Some _ _ _ n).
Qed.

(** The heap after the two stores [a->next = b; b->prev = a]. *)
Definition set_link (a b : Z) (h : heap) : heap :=
  alter (λ n, mkListNode a (next n)) b (alter (λ n, mkListNode (prev n) b) a h).

Lemma lookup_set_link a b h x :
  set_link a b h !! x =
    (λ n, mkListNode (if decide (x = b) then a else prev n)
                     (if decide (x = a) then b else next n)) <$> h !! x.
Proof.
  unfold set_link. rewrite !lookup_alter.
  destruct (decide (b = x)) as [->|], (decide (a = x)) as [->|];
    repeat (case_decide; try congruence); destruct (h !! x) as [[]|]; done.
Qed.

Lemma set_link_run {B} (k : M heap B) a b h :
  is_Some (h !! a) → is_Some (h !! b) →
  (set_next a b;; set_prev b a;; k) h = k (set_link a b h).
Proof.
  intros Ha Hb. rewrite (bind_Ok _ _ _ _ _ (set_next_run a b h Ha)).
  rewrite (bind_Ok _ _ _ _ _ (set_prev_run b a _ ltac:(by apply lookup_alter_is_Some))).
  done.
Qed.

Lemma set_link_is_Some a b h x : is_Some (set_link a b h !! x) ↔ is_Some (h !! x).
Proof. rewrite lookup_set_link. apply fmap_is_Some. Qed.

Lemma set_link_frame a b h x : x ≠ a → x ≠ b → set_link a b h !! x = h !! x.
Proof.
  intros. rewrite lookup_set_link. destruct (h !! x) as [[p n]|]; [|done]. simpl.
  by rewrite !decide_False.
Qed.

Lemma linked_set_link a b h : is_Some (h !! a) → is_Some (h !! b) → linked (set_link a b h) a b.
Proof.
  intros [n Ha] [m Hb]. split; rewrite lookup_set_link, ?Ha, ?Hb; simpl;
    eexists; (split; [done|]); simpl; by rewrite decide_True.
Qed.

Lemma path_set_link c d h a l b :
  c ∉ a :: l → d ∉ l ++ [b] → path h a l b → path (set_link c d h) a l b.
Proof.
  intros Hc Hd. apply path_ext; intros x n Hx E; rewrite lookup_set_link, E; simpl;
    (eexists; split; [done|]; simpl; apply decide_False; set_solver).
Qed.

Lemma path_frame h h' a l b :
  (∀ x, x ∈ a :: l ++ [b] → h' !! x = h !! x) → path h a l b → path h' a l b.
Proof.
  intros Hf. apply path_ext; intros x n Hx E; exists n; rewrite Hf; set_solver.
Qed.

Lemma ring_frame h h' l : (∀ x, x ∈ l → h' !! x = h !! x) → ring h l → ring h' l.
Proof.
  destruct l as [|x l]; [done|]. intros Hf (? & ? & Hp). split_and!; [done..|].
  revert Hp. apply path_frame. intros y. set_solver.
Qed.

Lemma ring_last h x l : ring h (x :: l) → ∃ n, h !! x = Some n ∧ prev n = last_of x l.
Proof. intros (_ & _ & Hp). by eapply path_last. Qed.

Lemma ring_is_Some h l x : ring h l → x ∈ l → is_Some (h !! x).
Proof.
  intros H (l1 & l2 & ->)%list_elem_of_split. apply ring_rotate in H as (_ & _ & H).
  by apply path_lookup_start in H.
Qed.

(** The node before [x] in a ring that starts at [x]. *)
Lemma last_of_split x l : ∃ l', x :: l = l' ++ [last_of x l].
Proof.
  destruct l as [|y l _] using rev_ind; [by exists []|].
  exists (x :: l). unfold last_of. by rewrite last_snoc.
Qed.

(** ** Correctness of the list operations *)

(** [init_list_node] makes a ring of one node. *)
Lemma init_list_node_spec node h :
  node ≠ 0 →
  ∃ h', init_list_node node h = Ok (tt, h') ∧ ring h' [node] ∧ frame [node] h h'.
Proof.
  intros Hn. unfold init_list_node. rewrite decide_False by done.
  exists (<[node := mkListNode node node]> h). split; [done|]. split.
  - split_and!; [set_solver|apply NoDup_singleton|].
    split; eexists; rewrite lookup_insert_eq; done.
  - intros a Ha. apply lookup_insert_ne. set_solver.
Qed.

Lemma merge_list_run node1 node2 h n1 n2 :
  node1 ≠ 0 → node2 ≠ 0 → h !! node1 = Some n1 → h !! node2 = Some n2 →
  is_Some (h !! next n1) → is_Some (h !! prev n2) →
  merge_list node1 node2 h =
    Ok (node1, set_link (prev n2) (next n1) (set_link node1 node2 h)).
Proof.
  intros H1 H2 E1 E2 I1 I2. unfold merge_list. rewrite !decide_False by done.
  rewrite (bind_Ok _ _ _ n1 h) by (by apply getopt_run).
  rewrite (bind_Ok _ _ _ n2 h) by (by apply getopt_run).
  rewrite set_link_run by eauto. rewrite set_link_run by (by apply set_link_is_Some).
  done.
Qed.

(** ** Chains: a path without its last link *)

Fixpoint inner (h : heap) (a : Z) (l : list Z) : Prop :=
  match l with
  | [] => True
  | x :: l => linked h a x ∧ inner h x l
  end.

Lemma path_inner h a l b : path h a l b ↔ inner h a l ∧ linked h (last_of a l) b.
Proof.
  revert a; induction l as [|x l IH]; intros a; simpl; [tauto|].
  rewrite IH, last_of_cons. tauto.
Qed.

Lemma inner_app h a l1 x l2 :
  inner h a (l1 ++ x :: l2) ↔ inner h a l1 ∧ linked h (last_of a l1) x ∧ inner h x l2.
Proof.
  revert a; induction l1 as [|y l1 IH]; intros a; simpl; [tauto|].
  rewrite IH, last_of_cons. tauto.
Qed.

Lemma linked_set_link_ne c d h a b :
  a ≠ c → b ≠ d → linked h a b → linked (set_link c d h) a b.
Proof.
  intros. change (path (set_link c d h) a [] b).
  apply path_set_link; [set_solver|set_solver|done].
Qed.

Lemma inner_set_link c d h a l :
  NoDup (a :: l) → (c = last_of a l ∨ c ∉ a :: l) → d ∉ l →
  inner h a l → inner (set_link c d h) a l.
Proof.
  revert a; induction l as [|x l IH]; intros a Hn Hc Hd; [done|].
  intros [H1 H2]. rewrite last_of_cons in Hc.
  pose proof (last_of_elem x l). apply NoDup_cons in Hn as [Ha Hn]. split.
  - apply linked_set_link_ne; set_solver.
  - apply IH; set_solver.
Qed.

(** The last node of a chain may be one end of the splice, see [inner_set_link]. *)
#[export] Hint Resolve inner_set_link linked_set_link_ne linked_set_link : ring.

(** The ring of the second node is spliced in right behind the first node. *)
Lemma merge_list_ring node1 l1 node2 l2 h :
  ring h (node1 :: l1) → ring h (node2 :: l2) → (node1 :: l1) ## (node2 :: l2) →
  ∃ h', merge_list node1 node2 h = Ok (node1, h') ∧
        ring h' (node1 :: (node2 :: l2) ++ l1) ∧
        frame (node1 :: l1 ++ node2 :: l2) h h'.
Proof.
  intros R1 R2 Hd. pose proof (last_of_elem node2 l2) as Hlast.
  assert (Hhead : default node1 (head l1) ∈ node1 :: l1) by (destruct l1; set_solver).
  pose proof (ring_is_Some _ _ _ R1 Hhead) as I1.
  pose proof (ring_is_Some _ _ _ R2 Hlast) as I2.
  pose proof (ring_is_Some _ _ node1 R1 ltac:(set_solver)) as J1.
  pose proof (ring_is_Some _ _ node2 R2 ltac:(set_solver)) as J2.
  destruct R1 as (Z1 & N1 & P1), R2 as (Z2 & N2 & P2).
  destruct (path_first _ _ _ _ P1) as (n1 & E1 & F1), (path_last _ _ _ _ P2) as (n2 & E2 & F2).
  rewrite (merge_list_run _ _ _ n1 n2) by (congruence || set_solver).
  rewrite F1, F2. eexists; split; [done|]. split.
  2: { intros a Ha. rewrite !set_link_frame by set_solver. done. }
  pose proof N2 as [H2 N2']%NoDup_cons. pose proof N1 as [H1 N1']%NoDup_cons.
  split_and!; [set_solver| |].
  { apply NoDup_cons; split; [set_solver|]. apply NoDup_app. set_solver. }
  apply path_inner in P1 as [P1 L1], P2 as [P2 L2].
  destruct l1 as [|x l1]; simpl in *; rewrite ?app_nil_r.
  - split; [apply linked_set_link_ne; [set_solver..|by apply linked_set_link]|].
    apply path_inner. split; [|by apply linked_set_link; rewrite set_link_is_Some].
    apply inner_set_link; [done|by left|set_solver|].
    apply inner_set_link; [done|right; set_solver|done|done].
  - rewrite last_of_cons in L1. pose proof (last_of_elem x l1). destruct P1 as [P1 P1'].
    pose proof N1' as [N1x N1'']%NoDup_cons.
    split; [apply linked_set_link_ne; [set_solver..|by apply linked_set_link]|].
    apply path_app. rewrite !path_inner. clear E1 E2 F1 F2 Z1 Z2. split; split.
    + apply inner_set_link; [done|by left|set_solver|].
      apply inner_set_link; [done|right; set_solver|done|done].
    + by apply linked_set_link; rewrite set_link_is_Some.
    + apply inner_set_link; [done|right; set_solver|done|].
      apply inner_set_link; [done|right; set_solver|set_solver|done].
    + assert (Hne : ∀ y z, y ∈ node1 :: x :: l1 → z ∈ node2 :: l2 → y ≠ z)
        by (intros y z ?? ->; by eapply Hd).
      apply linked_set_link_ne; [apply Hne; set_solver|set_solver|].
      apply linked_set_link_ne; [set_solver|apply Hne; set_solver|done].
Qed.

(** Inserting a node into a list puts it right behind the list head. *)
Lemma insert_into_list_ring list l node h :
  ring h (list :: l) → node ≠ 0 → node ∉ list :: l →
  ∃ h', insert_into_list list node h = Ok (list, h') ∧
        ring h' (list :: node :: l) ∧ frame (node :: list :: l) h h'.
Proof.
  intros R Hn Hni. destruct (init_list_node_spec node h Hn) as (h1 & E1 & R1 & F1).
  assert (R' : ring h1 (list :: l)).
  { apply (ring_frame h); [|done]. intros x Hx. apply F1. set_solver. }
  destruct (merge_list_ring list l node [] h1 R' R1) as (h2 & E2 & R2 & F2); [set_solver|].
  exists h2. unfold insert_into_list. rewrite (bind_Ok _ _ _ _ _ E1). split; [done|].
  split; [done|]. intros a Ha. rewrite F2 by set_solver. apply F1. set_solver.
Qed.

(** Detaching a node leaves it alone in its ring and closes the gap; the result is the
    previous node, or [NULL] when the node was alone before. *)
Lemma detach_from_list_ring node l h :
  ring h (node :: l) →
  ∃ h', detach_from_list node h = Ok (match l with [] => 0 | _ => last_of node l end, h') ∧
        ring h' [node] ∧ (l ≠ [] → ring h' l) ∧ frame (node :: l) h h'.
Proof.
  intros R. pose proof R as (Hz & N & P).
  destruct (path_last _ _ _ _ P) as (n & E & Ep), (path_first _ _ _ _ P) as (n' & E' & En).
  rewrite E in E'. injection E' as <-.
  assert (Hx : default node (head l) ∈ node :: l) by (destruct l; set_solver).
  pose proof (last_of_elem node l) as Hp.
  pose proof (ring_is_Some _ _ _ R Hx) as Ix. pose proof (ring_is_Some _ _ _ R Hp) as Ip.
  assert (Hnz : node ≠ 0) by (intros ->; apply Hz; by left).
  set (h1 := set_link (last_of node l) (default node (head l)) h).
  assert (E1 : (alter (λ n, mkListNode (prev n) (next n)) node h) !! node = Some n) by
    (rewrite lookup_alter_eq, E; by destruct n).
  assert (Hrun : detach_from_list node h =
    Ok (if decide (prev n = node) then 0 else prev n, <[node := mkListNode node node]> h1)).
  { unfold detach_from_list, load.
    rewrite (bind_Ok _ _ _ n h) by (by apply getopt_run).
    rewrite (bind_Ok _ _ _ n h) by (by apply getopt_run).
    rewrite Ep, En. rewrite (bind_Ok _ _ _ _ _ (set_next_run _ _ _ Ip)).
    assert (∃ m, alter (λ n0, mkListNode (prev n0) (default node (head l))) (last_of node l) h
                   !! node = Some m ∧ next m = default node (head l) ∧ prev m = last_of node l)
      as (m & Em & Fm & Gm).
    { rewrite lookup_alter. case_decide as Hd; rewrite ?Hd, E; simpl;
        eexists; (split; [reflexivity|]); simpl; by rewrite ?Hd in *. }
    rewrite (bind_Ok _ _ _ m _) by (by apply getopt_run). rewrite Fm, Gm.
    rewrite (bind_Ok _ _ _ _ _ (set_prev_run (default node (head l)) _ _
      ltac:(by apply lookup_alter_is_Some))).
    unfold init_list_node. by rewrite (decide_False (P := node = 0)) by done. }
  rewrite Hrun, ?Ep. clear Hrun E1. eexists. split; [|split; [|split]].
  - destruct l as [|x l]; [by rewrite (decide_True (P := last_of node [] = node))|].
    rewrite (decide_False (P := last_of node (x :: l) = node)); [done|].
    rewrite last_of_cons. pose proof (last_of_elem x l) as Hin.
    intros Heq. rewrite Heq in Hin. by apply NoDup_cons in N as [N _].
  - split_and!; [set_solver|apply NoDup_singleton|].
    split; eexists; rewrite lookup_insert_eq; done.
  - destruct l as [|x l]; [done|]. intros _. simpl in *. unfold h1 in *.
    rewrite last_of_cons in *. apply NoDup_cons in N as [Nn N].
    pose proof N as [Nx _]%NoDup_cons. destruct P as [_ P]. apply path_inner in P as [P _].
    split_and!; [set_solver|done|].
    assert (path (set_link (last_of x l) x h) x l x) as Hp1.
    { apply path_inner. split; [|by apply linked_set_link].
      apply inner_set_link; [done|by left|done|done]. }
    revert Hp1. apply path_frame. intros y Hy. apply lookup_insert_ne. set_solver.
  - intros a Ha. rewrite lookup_insert_ne by set_solver. unfold h1.
    apply set_link_frame; set_solver.
Qed.

(** Walking through a list visits the nodes behind the head in order, then the head. *)
Lemma for_in_list_ring list l h :
  ring h (list :: l) →
  ∀ n0, h !! list = Some n0 →
  ∀ fuel, (length l + 2 ≤ fuel)%nat →
  for_in_list fuel list (next n0) h = Ok (l ++ [list], h).
Proof.
  intros (Hz & N & P) n0 E0 fuel Hf.
  destruct (path_first _ _ _ _ P) as (n0' & E0' & Hn). rewrite E0 in E0'. injection E0' as <-.
  rewrite Hn. clear E0 Hn n0.
  assert (Hloop : ∀ l a fuel, 0 ∉ l → list ≠ 0 → list ∉ l → path h a l list →
            (length l + 2 ≤ fuel)%nat →
            for_in_list fuel list (default list (head l)) h = Ok (l ++ [list], h)).
  { clear. induction l as [|x l IH]; intros a fuel Hz Hz' N P Hf.
    - destruct fuel as [|[|fuel]]; simpl in *; [lia..|].
      rewrite decide_False by done. rewrite decide_True by done. done.
    - destruct fuel as [|fuel]; simpl in *; [lia|].
      rewrite decide_False by set_solver. rewrite decide_False by set_solver.
      destruct P as [_ P]. destruct (path_first _ _ _ _ P) as (n & E & Hn).
      rewrite bind_assoc. unfold load at 1.
      rewrite (bind_Ok _ _ _ n h) by (by apply getopt_run).
      rewrite (bind_Ok _ _ _ _ _ (mret_run _ _)), Hn.
      rewrite (bind_Ok _ _ _ _ _ (IH x fuel ltac:(set_solver) Hz' ltac:(set_solver) P ltac:(lia))).
      done. }
  apply NoDup_cons in N as [N _]. eapply Hloop; [set_solver..|done|lia].
Qed.

(** ** [Queue]: a FIFO over a ring *)

Record Queue := mkQueue { begin : Z; end_ : Z; sz : Z; lk : bool }.
Record qmem := mkQmem { qheap : heap; queue : Queue }.

Definition lift_heap {A} (m : M heap A) : M qmem A := λ s,
  match m (qheap s) with
  | Ok (a, h) => Ok (a, mkQmem h (queue s))
  | Panic => Panic | Fault => Fault | Sleep => Sleep | Spin => Spin | NoFuel => NoFuel
  end.
Definition set_queue (f : Queue → Queue) : M qmem unit :=
  modify (λ s, mkQmem (qheap s) (f (queue s))).

Definition queue_init : M qmem unit := set_queue (λ _, mkQueue 0 0 0 false).

Definition queue_push (item : Z) : M qmem unit :=
  lift_heap (init_list_node item);;
  x ← gets queue;
  (if decide (sz x = 0) then set_queue (λ q, mkQueue item item (sz q) (lk q))
   else lift_heap (merge_list (end_ x) item);;
        set_queue (λ q, mkQueue (begin q) item (sz q) (lk q)));;
  set_queue (λ q, mkQueue (begin q) (end_ q) (sz q + 1) (lk q)).

Definition queue_pop : M qmem unit :=
  x ← gets queue;
  when (bool_decide (sz x = 0)) panic;;
  (if decide (sz x = 1) then set_queue (λ q, mkQueue 0 0 (sz q) (lk q))
   else let t := begin x in
        n ← lift_heap (load t);
        set_queue (λ q, mkQueue (next n) (end_ q) (sz q) (lk q));;
        lift_heap (detach_from_list t);; mret tt);;
  set_queue (λ q, mkQueue (begin q) (end_ q) (sz q - 1) (lk q)).

Definition queue_front : M qmem Z :=
  x ← gets queue; if decide (begin x = 0) then panic else mret (begin x).

Definition queue_empty : M qmem bool := x ← gets queue; mret (bool_decide (sz x = 0)).

(** The abstract value of a queue: its items, oldest first. *)
Definition queue_rep (s : qmem) (xs : list Z) : Prop :=
  sz (queue s) = Z.of_nat (length xs) ∧
  match xs with
  | [] => begin (queue s) = 0
  | x :: l => ring (qheap s) (x :: l) ∧ begin (queue s) = x ∧ end_ (queue s) = last_of x l
  end.

Lemma queue_push_spec s xs item :
  queue_rep s xs → item ≠ 0 → item ∉ xs →
  ∃ s', queue_push item s = Ok (tt, s') ∧ queue_rep s' (xs ++ [item]).
Proof.
  destruct s as [h [b e n l]]. intros [Hsz Hrep] Hn Hi. simpl in *.
  destruct (init_list_node_spec item h Hn) as (h1 & E1 & R1 & F1).
  unfold queue_push, set_queue, lift_heap. mred. simpl. rewrite E1. simpl.
  destruct xs as [|x l']; simpl in *.
  - rewrite decide_True by done. eexists; split; [done|].
    split; simpl; [lia|done].
  - destruct Hrep as (R & -> & ->). rewrite decide_False by lia.
    assert (R' : ring h1 (x :: l')).
    { apply (ring_frame h); [|done]. intros y Hy. apply F1. set_solver. }
    destruct (last_of_split x l') as [l0 El0].
    pose proof R' as R''. rewrite El0 in R''. apply ring_rotate in R''. simpl in R''.
    destruct (merge_list_ring _ l0 item [] h1 R'' R1) as (h2 & E2 & R2 & F2).
    { assert (item ∉ l0 ++ [last_of x l']) by (rewrite <-El0; set_solver). set_solver. }
    simpl. rewrite E2. simpl.
    eexists; split; [done|]. split; simpl; [rewrite length_app; simpl; lia|].
    split; [|split; [done|]].
    + change (ring h2 ([last_of x l'; item] ++ l0)) in R2.
      destruct l0 as [|y l0].
      * simpl in El0. injection El0 as E0 ->. unfold last_of in R2. simpl in R2. done.
      * simpl in El0. injection El0 as <- El0. simpl in R2.
        apply (ring_rotate _ [last_of x l'; item] x l0) in R2.
        rewrite El0. by rewrite <-app_assoc.
    + unfold last_of. by rewrite last_snoc.
Qed.

Lemma queue_pop_spec s x xs :
  queue_rep s (x :: xs) → ∃ s', queue_pop s = Ok (tt, s') ∧ queue_rep s' xs.
Proof.
  destruct s as [h [b e n l]]. intros (Hsz & R & Hb & He). simpl in *. subst n b e.
  unfold queue_pop, set_queue, lift_heap, load. mred. simpl.
  destruct xs as [|y xs]; simpl.
  - eexists; split; [done|]. split; simpl; [lia|done].
  - destruct (detach_from_list_ring _ _ _ R) as (h' & E & _ & R' & _).
    destruct R as (_ & _ & P). destruct (path_first _ _ _ _ P) as (n & En & Hn).
    rewrite ?bool_decide_false, ?decide_False by lia. simpl. rewrite En. simpl. rewrite E, Hn. simpl.
    eexists; split; [done|]. split; simpl; [lia|].
    split; [by apply R'|]. rewrite last_of_cons. done.
Qed.

(** The queue as its clients see it: a first-in first-out list. *)
Inductive qop := Push (item : Z) | Pop.

Definition qop_spec (op : qop) (xs : list Z) : option (list Z) :=
  match op, xs with
  | Push i, xs => if decide (i = 0 ∨ i ∈ xs) then None else Some (xs ++ [i])
  | Pop, [] => None
  | Pop, _ :: xs => Some xs
  end.

Fixpoint qops_spec (ops : list qop) (xs : list Z) : option (list Z) :=
  match ops with
  | [] => Some xs
  | op :: ops => qop_spec op xs ≫= qops_spec ops
  end.

Definition qop_run (op : qop) : M qmem unit :=
  match op with Push i => queue_push i | Pop => queue_pop end.

(** ** [QueueNode]: the lock-free stack behind the page allocator

    Each constructor is one point between two accesses to shared memory. *)

Record shared := mkShared { nexts : gmap Z Z; qhead : Z }.

Inductive pc :=
  | AddLoad (node : Z)        (* about to do [node->next = *head] *)
  | AddCas (node : Z)         (* about to compare-and-swap [head] to [node] *)
  | FetchLoad                 (* about to read [*head] *)
  | FetchNext (node : Z)      (* about to read [node->next] *)
  | FetchCas (node nx : Z)    (* about to compare-and-swap [head] from [node] to [nx] *)
  | Done (node : Z).          (* returned [node] *)

Definition add_to_queue (p : pc) (sh : shared) : option (pc * shared) :=
  match p with
  | AddLoad n => Some (AddCas n, mkShared (<[n := qhead sh]> (nexts sh)) (qhead sh))
  | AddCas n =>
      expected ← nexts sh !! n;
      if decide (qhead sh = expected) then Some (Done n, mkShared (nexts sh) n)
      else Some (AddLoad n, mkShared (<[n := qhead sh]> (nexts sh)) (qhead sh))
  | _ => None
  end.

Definition fetch_from_queue (p : pc) (sh : shared) : option (pc * shared) :=
  match p with
  | FetchLoad => Some (if decide (qhead sh = 0) then Done 0 else FetchNext (qhead sh), sh)
  | FetchNext n => nx ← nexts sh !! n; Some (FetchCas n nx, sh)
  | FetchCas n nx =>
      if decide (qhead sh = n) then Some (Done n, mkShared (nexts sh) nx)
      else Some (FetchLoad, sh)
  | _ => None
  end.

(** [fetch_all_from_queue] is one atomic exchange. *)
Definition fetch_all_from_queue (sh : shared) : Z * shared := (qhead sh, mkShared (nexts sh) 0).

Definition thread_step (p : pc) (sh : shared) : option (pc * shared) :=
  match p with
  | AddLoad _ | AddCas _ => add_to_queue p sh
  | FetchLoad | FetchNext _ | FetchCas _ _ => fetch_from_queue p sh
  | Done _ => None
  end.

(** Thread [i] of the system takes a step. *)
Inductive sys_step : list pc * shared → list pc * shared → Prop :=
  | sys_step_thread i ps sh p p' sh' :
      ps !! i = Some p → thread_step p sh = Some (p', sh') →
      sys_step (ps, sh) (<[i := p']> ps, sh').

(** The stack [xs], top first. *)
Fixpoint stack_rep (nx : gmap Z Z) (top : Z) (xs : list Z) : Prop :=
  match xs with
  | [] => top = 0
  | x :: xs => top = x ∧ x ≠ 0 ∧ ∃ y, nx !! x = Some y ∧ stack_rep nx y xs
  end.

(** A thread that nobody interrupts. *)
Fixpoint run_alone (fuel : nat) (p : pc) (sh : shared) : option (Z * shared) :=
  match p, fuel with
  | Done n, _ => Some (n, sh)
  | _, O => None
  | _, S fuel => '(p', sh') ← thread_step p sh; run_alone fuel p' sh'
  end.

Lemma stack_rep_insert nx top xs n y :
  n ∉ xs → stack_rep nx top xs → stack_rep (<[n := y]> nx) top xs.
Proof.
  revert top; induction xs as [|x xs IH]; intros top Hn; simpl; [done|].
  intros (-> & Hx & z & E & H). split; [done|]. split; [done|]. exists z.
  rewrite lookup_insert_ne by set_solver. split; [done|]. apply IH; [set_solver|done].
Qed.

(** ** Properties *)

Definition walk (fuel : nat) (hd : Z) : M heap (list Z) :=
  n ← load hd; for_in_list fuel hd (next n).

Lemma walk_ring list l h fuel :
  ring h (list :: l) → (length l + 2 ≤ fuel)%nat → walk fuel list h = Ok (l ++ [list], h).
Proof.
  intros R Hf. destruct (ring_is_Some _ _ list R ltac:(set_solver)) as [n E].
  unfold walk, load. rewrite (bind_Ok _ _ _ n h) by (by apply getopt_run).
  by eapply for_in_list_ring.
Qed.

(** A circular list behaves as the sequence its rings spell out: walking it visits the
    members in order and then the head, inserting at the head adds a member in front, and
    detaching any member removes exactly this one. *)
Theorem list_is_sequence list l h fuel :
  ring h (list :: l) → (length l + 3 ≤ fuel)%nat →
  walk fuel list h = Ok (l ++ [list], h) ∧
  (∀ node, node ≠ 0 → node ∉ list :: l →
     ∃ h', insert_into_list list node h = Ok (list, h') ∧
           walk fuel list h' = Ok (node :: l ++ [list], h')) ∧
  (∀ l1 x l2, l = l1 ++ x :: l2 →
     ∃ r h', detach_from_list x h = Ok (r, h') ∧
             walk fuel list h' = Ok (l1 ++ l2 ++ [list], h')).
Proof.
  intros R Hf. split; [apply walk_ring; [done|lia]|]. split.
  - intros node Hn Hi. destruct (insert_into_list_ring _ _ _ _ R Hn Hi) as (h' & E & R' & _).
    exists h'. split; [done|]. rewrite (walk_ring _ _ _ _ R'); [done|simpl; lia].
  - intros l1 x l2 ->. rewrite length_app in Hf. simpl in Hf.
    rewrite app_comm_cons in R. apply ring_rotate in R.
    destruct (detach_from_list_ring _ _ _ R) as (h' & E & _ & R' & _).
    eexists _, h'. split; [done|].
    assert (R2 : ring h' (l2 ++ list :: l1)) by (apply R'; by destruct l2).
    apply ring_rotate in R2. rewrite (walk_ring _ _ _ _ R2) by (rewrite length_app; lia).
    by rewrite <-app_assoc.
Qed.

Definition ex_heap : heap :=
  match (init_list_node 8;; insert_into_list 8 16;; insert_into_list 8 24) ∅ with
  | Ok (_, h) => h
  | _ => ∅
  end.

Lemma ex_heap_ring : ring ex_heap [8; 24; 16].
Proof.
  split; [set_solver|]. split; [repeat constructor; set_solver|].
  repeat split; eexists; vm_compute; split; reflexivity.
Qed.

Lemma list_is_sequence_witness :
  walk 5 8 ex_heap = Ok ([24; 16; 8], ex_heap) ∧
  ∃ r h', detach_from_list 24 ex_heap = Ok (r, h') ∧ walk 5 8 h' = Ok ([16; 8], h').
Proof.
  destruct (list_is_sequence 8 [24; 16] ex_heap 5 ex_heap_ring ltac:(simpl; lia))
    as (H1 & _ & H3).
  split; [exact H1|]. exact (H3 [] 24 [16] eq_refl).
Defined.

(** C19: [Queue] implements a first-in first-out list of distinct items: every sequence of
    pushes and pops the abstract list allows runs without a fault and ends in a queue that
    stands for the abstract result, and the front of the queue is its oldest item. *)
Theorem queue_refines_fifo ops s xs ys :
  queue_rep s xs → qops_spec ops xs = Some ys →
  ∃ s', for_each ops qop_run s = Ok (tt, s') ∧ queue_rep s' ys ∧
        queue_empty s' = Ok (bool_decide (ys = []), s') ∧
        queue_front s' = match ys with [] => Panic | y :: _ => Ok (y, s') end.
Proof.
  revert s xs. induction ops as [|op ops IH]; intros s xs Hrep Hspec; simpl in *.
  - injection Hspec as <-. exists s. split; [done|]. split; [done|].
    destruct Hrep as [Hsz Hrep]. split.
    + unfold queue_empty. mred. do 2 f_equal. apply bool_decide_ext. rewrite Hsz.
      destruct xs; simpl; split; (done || lia).
    + unfold queue_front. mred. destruct xs as [|x xs].
      * by rewrite Hrep.
      * destruct Hrep as (R & -> & _). destruct R as [Hz _].
        rewrite decide_False by set_solver. done.
  - apply bind_Some in Hspec as (zs & E1 & E2).
    assert (∃ s1, qop_run op s = Ok (tt, s1) ∧ queue_rep s1 zs) as (s1 & R1 & Hrep1).
    { destruct op as [i|]; simpl in E1.
      - case_decide as Hd; [done|]. injection E1 as <-.
        apply queue_push_spec; [done|tauto|tauto].
      - destruct xs as [|x xs]; [done|]. injection E1 as ->.
        by apply (queue_pop_spec s x). }
    destruct (IH s1 zs Hrep1 E2) as (s' & R' & H'). exists s'.
    unfold mbind, M_bind. rewrite R1. done.
Qed.

Lemma queue_refines_fifo_witness :
  ∃ s', for_each [Push 8; Push 16; Pop; Push 24; Push 32; Pop] qop_run
          (mkQmem ∅ (mkQueue 0 0 0 false)) = Ok (tt, s') ∧
        queue_rep s' [24; 32] ∧ queue_empty s' = Ok (bool_decide ([24; 32] = []), s') ∧
        queue_front s' = Ok (24, s').
Proof.
  apply (queue_refines_fifo _ _ [] [24; 32]).
  - split; reflexivity.
  - vm_compute. reflexivity.
Defined.

(** Run by one thread at a time, the lock-free "queue" is a stack: a node added comes out
    first, and fetching from the empty stack gives [NULL]. *)
Theorem lockfree_stack_sequential sh xs :
  stack_rep (nexts sh) (qhead sh) xs →
  (∀ n, n ≠ 0 → n ∉ xs →
     ∃ sh', run_alone 2 (AddLoad n) sh = Some (n, sh') ∧
            stack_rep (nexts sh') (qhead sh') (n :: xs)) ∧
  (∃ sh', run_alone 3 FetchLoad sh = Some (default 0 (head xs), sh') ∧
          stack_rep (nexts sh') (qhead sh') (tail xs)).
Proof.
  intros H. split.
  - intros n Hn Hi. simpl. rewrite lookup_insert_eq. simpl.
    rewrite decide_True by done. simpl. eexists; split; [done|]. simpl.
    split; [done|]. split; [done|]. exists (qhead sh). rewrite lookup_insert_eq.
    split; [done|]. by apply stack_rep_insert.
  - destruct xs as [|x xs]; simpl in *.
    + rewrite (decide_True (P := qhead sh = 0)) by done. simpl. eauto.
    + destruct H as (Hh & Hx & y & E & H). rewrite Hh.
      rewrite (decide_False (P := x = 0)) by done. simpl. rewrite E. simpl.
      rewrite Hh, (decide_True (P := x = x)) by done. simpl. eauto.
Qed.

Lemma lockfree_stack_sequential_witness :
  ∃ sh', run_alone 3 FetchLoad (mkShared {[1 := 2; 2 := 0]} 1) = Some (1, sh') ∧
         stack_rep (nexts sh') (qhead sh') [2].
Proof.
  apply (lockfree_stack_sequential (mkShared {[1 := 2; 2 := 0]} 1) [1; 2]).
  simpl. repeat (split; [done|]). exists 2. split; [reflexivity|].
  repeat (split; [done|]). exists 0. split; reflexivity.
Defined.

(** With several threads [fetch_from_queue] suffers from the ABA problem: from a stack of the
    two nodes 1 and 2 there is an interleaving in which node 2 is handed out twice although
    it was never put back (thread 0 sleeps between reading [node->next] and its
    compare-and-swap while the others fetch 1, fetch 2 and add 1 again). *)
Theorem fetch_from_queue_aba :
  ∃ sh', rtc sys_step
    ([FetchLoad; FetchLoad; FetchLoad; AddLoad 1; FetchLoad],
     mkShared {[1 := 2; 2 := 0]} 1)
    ([Done 1; Done 1; Done 2; Done 1; Done 2], sh').
Proof.
  eexists.
  do 2 (eapply rtc_l; [eapply (sys_step_thread 0); vm_compute; reflexivity|]).
  do 3 (eapply rtc_l; [eapply (sys_step_thread 1); vm_compute; reflexivity|]).
  do 3 (eapply rtc_l; [eapply (sys_step_thread 2); vm_compute; reflexivity|]).
  do 2 (eapply rtc_l; [eapply (sys_step_thread 3); vm_compute; reflexivity|]).
  do 1 (eapply rtc_l; [eapply (sys_step_thread 0); vm_compute; reflexivity|]).
  do 3 (eapply rtc_l; [eapply (sys_step_thread 4); vm_compute; reflexivity|]).
  apply rtc_refl.
Qed.
