(* ===== verification/Sync.v ===== *)
(** * [common/spinlock.c], [common/sem.c], [common/rc.c]: synchronisation

    Spinlocks are one flag; [Semaphore] is a counter with a list of sleepers.  The first
    part gives the operations one by one, the second runs them for any number of threads:
    between two accesses under the semaphore's spinlock any other thread may step. *)

From Stdlib Require Import ZArith Lia.
From S2P Require Import Prelude Words.

(** ** Spinlocks *)

(** Where a component's state keeps one of its spinlocks. *)
Record SpinLock (S : Type) := mkSpinLock {
  locked : S → bool;
  set_locked : bool → S → S }.
Arguments mkSpinLock {S} _ _.
Arguments locked {S} _ _.
Arguments set_locked {S} _ _ _.

Section spinlock.
Context {S : Type}.
Implicit Types (l : SpinLock S).

Definition init_spinlock l : M S unit := modify (set_locked l false).

Definition try_acquire_spinlock l : M S bool :=
b ← gets (locked l);
if (b : bool) then mret false else modify (set_locked l true);; mret true.

(** Nobody else runs while this code does, so spinning on a taken lock never ends. *)
Definition acquire_spinlock l : M S unit :=
b ← try_acquire_spinlock l; if (b : bool) then mret tt else spin.

Definition release_spinlock l : M S unit := modify (set_locked l false).

Lemma acquire_spinlock_run l s :
locked l s = false → acquire_spinlock l s = Ok (tt, set_locked l true s).
Proof. intros E. unfold acquire_spinlock, try_acquire_spinlock. mred. by rewrite E. Qed.

Lemma acquire_spinlock_spin l s : locked l s = true → acquire_spinlock l s = Spin.
Proof. intros E. unfold acquire_spinlock, try_acquire_spinlock. mred. by rewrite E. Qed.

Lemma release_spinlock_run l s : release_spinlock l s = Ok (tt, set_locked l false s).
Proof. done. Qed.
End spinlock.

(** ** Reference counts *)

Definition init_rc (_ : Z) : Z := 0.
Definition increment_rc (count : Z) : Z := i64 (count + 1).
(** the new count, and whether it is zero or below *)
Definition decrement_rc (count : Z) : bool * Z :=
  let r := i64 (count - 1) in (r <=? 0, r).

(** ** Semaphores *)

(** [slnode]s are named by the address of their [WaitData]; the list has the most
    recent sleeper first, as [_insert_into_list] puts it right behind the list head. *)
Record WaitData := mkWaitData { up : bool; proc : Z }.
Record Semaphore := mkSem { val : Z; sleeplist : list Z }.

(** A semaphore, the [WaitData] its sleepers have allocated, and the processes
    [activate_proc] was called for, the latest first. *)
Record semst := mkSemst { sem : Semaphore; waits : gmap Z WaitData; activated : list Z }.

Definition set_sem (f : Semaphore → Semaphore) : M semst unit :=
  modify (λ s, mkSemst (f (sem s)) (waits s) (activated s)).
Definition set_waits (f : gmap Z WaitData → gmap Z WaitData) : M semst unit :=
  modify (λ s, mkSemst (sem s) (f (waits s)) (activated s)).
Definition activate_proc (p : Z) : M semst unit :=
  modify (λ s, mkSemst (sem s) (waits s) (p :: activated s)).

Definition init_sem (v : Z) : Semaphore := mkSem v [].

Definition get_sem : M semst bool :=
  s ← gets sem;
  if decide (val s > 0) then set_sem (λ s, mkSem (val s - 1) (sleeplist s));; mret true
  else mret false.

Definition query_sem : M semst Z := s ← gets sem; mret (val s).

Definition get_all_sem : M semst Z :=
  s ← gets sem;
  if decide (val s > 0) then
    set_sem (λ s, mkSem 0 (sleeplist s));; mret (val s)
  else mret 0.

(** [_detach_from_list(&wait->slnode)] *)
Definition detach (w : Z) (l : list Z) : list Z := filter (λ x, x ≠ w) l.

Definition post_sem : M semst unit :=
  set_sem (λ s, mkSem (val s + 1) (sleeplist s));;
  s ← gets sem;
  if decide (val s ≤ 0) then
    match last (sleeplist s) with
    | None => panic
    | Some w =>
        wd ← getopt (λ s, waits s !! w);
        set_waits (<[w := mkWaitData true (proc wd)]>);;
        set_sem (λ s, mkSem (val s) (detach w (sleeplist s)));;
        activate_proc (proc wd)
    end
  else mret tt.

(** [do _post_sem(sem), ret++; while (!_get_sem(sem));] *)
Fixpoint post_all_loop (fuel : nat) (ret : Z) : M semst Z :=
  match fuel with
  | O => nofuel
  | S fuel =>
      post_sem;;
      b ← get_sem;
      if (b : bool) then mret (ret + 1) else post_all_loop fuel (ret + 1)
  end.
Definition post_all_sem (fuel : nat) : M semst Z := post_all_loop fuel (-1).

(** [_wait_sem] up to the call of [sched]: [true] when the semaphore was free.  [w] is the
    address [kalloc] gives for the [WaitData], [me] is [thisproc()]. *)
Definition wait_sem_begin (w me : Z) : M semst bool :=
  set_sem (λ s, mkSem (val s - 1) (sleeplist s));;
  s ← gets sem;
  if decide (0 ≤ val s) then mret true
  else
    set_waits (<[w := mkWaitData false me]>);;
    set_sem (λ s, mkSem (val s) (w :: sleeplist s));;
    mret false.

(** [_wait_sem] after [sched] has returned, whoever woke the process up. *)
Definition wait_sem_end (w : Z) : M semst bool :=
  wd ← getopt (λ s, waits s !! w);
  (if up wd then mret tt
   else set_sem (λ s, mkSem (val s + 1) (sleeplist s));;
        s ← gets sem;
        assert (bool_decide (val s ≤ 0));;
        set_sem (λ s, mkSem (val s) (detach w (sleeplist s))));;
  wd ← getopt (λ s, waits s !! w);
  set_waits (delete w);;
  mret (up wd).

(** ** Semaphores inside a component's state *)

(** [wait_sem] when no other thread runs: going to sleep is for ever. *)
Definition wait_sem : M semst bool :=
  b ← wait_sem_begin 0 0; if (b : bool) then mret true else sleeping.

(** An operation on a semaphore [x] nobody sleeps on, and the semaphore afterwards. *)
Definition run_sem {S A} (m : M semst A) (x : Semaphore) : M S (A * Semaphore) := λ s,
  match m (mkSemst x ∅ []) with
  | Ok (a, s') => Ok ((a, sem s'), s)
  | Panic => Panic | Fault => Fault | Sleep => Sleep | Spin => Spin | NoFuel => NoFuel
  end.

Lemma run_wait_free {S} v (s : S) :
  0 < v → run_sem wait_sem (mkSem v []) s = Ok ((true, mkSem (v - 1) []), s).
Proof.
  intros. unfold run_sem, wait_sem, wait_sem_begin, set_sem, set_waits. mred. simpl.
  by rewrite decide_True by lia.
Qed.
Lemma run_wait_taken {S} v (s : S) :
  v ≤ 0 → run_sem wait_sem (mkSem v []) s = Sleep.
Proof.
  intros. unfold run_sem, wait_sem, wait_sem_begin, set_sem, set_waits. mred. simpl.
  by rewrite decide_False by lia.
Qed.
Lemma run_post {S} v (s : S) :
  0 ≤ v → run_sem post_sem (mkSem v []) s = Ok ((tt, mkSem (v + 1) []), s).
Proof.
  intros. unfold run_sem, post_sem, set_sem. mred. simpl. by rewrite decide_False by lia.
Qed.
Lemma run_post_all {S} fuel v (s : S) :
  0 ≤ v → run_sem (post_all_sem (Datatypes.S fuel)) (mkSem v []) s =
  Ok ((0, mkSem v []), s).
Proof.
  intros. unfold run_sem, post_all_sem. cbn [post_all_loop].
  unfold post_sem, get_sem, set_sem. mred. simpl. rewrite decide_False by lia. simpl.
  rewrite decide_True by lia. simpl.
  do 4 f_equal. lia.
Qed.

(** ** Threads that use one semaphore *)

Inductive thread := Idle | Asleep | Holding.

#[global] Instance thread_eq_dec : EqDecision thread.
Proof. solve_decision. Defined.

(** The address of the [WaitData] thread [i] allocates when it goes to sleep. *)
Definition wdata (i : nat) : Z := Z.of_nat i + 1.
Arguments wdata : simpl never.

Record config := mkConfig { cs : semst; threads : list thread; extra : Z }.

Inductive sem_step : config → config → Prop :=
  | step_wait i s ts e s' b :
      ts !! i = Some Idle → wait_sem_begin (wdata i) (Z.of_nat i) s = Ok (b, s') →
      sem_step (mkConfig s ts e)
               (mkConfig s' (<[i := if (b : bool) then Holding else Asleep]> ts) e)
  | step_resume i s ts e s' b :
      ts !! i = Some Asleep → wait_sem_end (wdata i) s = Ok (b, s') →
      sem_step (mkConfig s ts e)
               (mkConfig s' (<[i := if (b : bool) then Holding else Idle]> ts) e)
  | step_release i s ts e s' :
      ts !! i = Some Holding → post_sem s = Ok (tt, s') →
      sem_step (mkConfig s ts e) (mkConfig s' (<[i := Idle]> ts) e)
  | step_post i s ts e s' :
      (* a permit is added by a thread that does not hold one *)
      ts !! i = Some Idle → post_sem s = Ok (tt, s') →
      sem_step (mkConfig s ts e) (mkConfig s' ts (e + 1)).

(** All threads idle, the semaphore initialised with [v]. *)
Definition sem_init (v : Z) (n : nat) : config :=
  mkConfig (mkSemst (init_sem v) ∅ []) (replicate n Idle) 0.

Definition holders (ts : list thread) : Z :=
  Z.of_nat (length (filter (λ t, t = Holding) ts)).

(** ** Sums over the threads *)

Fixpoint total {A} (f : nat → A → Z) (l : list A) : Z :=
  match l with
  | [] => 0
  | x :: l => f 0%nat x + total (λ i, f (S i)) l
  end.

Lemma total_ext {A} (f g : nat → A → Z) l :
  (∀ i x, l !! i = Some x → f i x = g i x) → total f l = total g l.
Proof.
  revert f g; induction l as [|x l IH]; intros f g H; simpl; [done|].
  rewrite (H 0%nat x) by done. f_equal. apply IH. intros i y E. by apply H.
Qed.

Lemma total_update {A} (f g : nat → A → Z) l i x x' :
  l !! i = Some x → (∀ j y, j ≠ i → l !! j = Some y → g j y = f j y) →
  total g (<[i := x']> l) = total f l - f i x + g i x'.
Proof.
  revert f g i; induction l as [|y l IH]; intros f g [|i] E H; simpl in *; [done|done| |].
  - injection E as ->. rewrite (total_ext (λ i, g (S i)) (λ i, f (S i)) l); [lia|].
    intros j z Ej. by apply (H (S j)).
  - rewrite (IH (λ i, f (S i)) (λ i, g (S i)) i E).
    + rewrite (H 0%nat y) by done. lia.
    + intros j z Hj Ej. apply (H (S j)); [lia|done].
Qed.

Lemma total_ge {A} (f g : nat → A → Z) l :
  (∀ i x, f i x ≤ g i x) → total f l ≤ total g l.
Proof.
  revert f g; induction l as [|x l IH]; intros f g H; simpl; [lia|].
  specialize (IH (λ i, f (S i)) (λ i, g (S i)) (λ i, H (S i))). specialize (H 0%nat x). lia.
Qed.

Lemma total_replicate {A} (f : nat → A → Z) n x :
  (∀ i, f i x = 0) → total f (replicate n x) = 0.
Proof.
  intros H. revert f H; induction n as [|n IH]; intros f H; simpl; [done|].
  rewrite H, IH; [done|]. intros i. apply H.
Qed.

(** ** The invariant of a semaphore *)

(** The permits thread [i] owns, whether or not it has noticed yet. *)
Definition permits (s : semst) (i : nat) (t : thread) : Z :=
  match t with
  | Idle => 0
  | Holding => 1
  | Asleep => match waits s !! wdata i with Some wd => if up wd then 1 else 0 | None => 0 end
  end.

Definition asleep_on (c : config) (w : Z) : Prop :=
  ∃ i wd, w = wdata i ∧ threads c !! i = Some Asleep ∧
          waits (cs c) !! w = Some wd ∧ up wd = false.

Record sem_inv (v : Z) (c : config) : Prop := {
  inv_nodup : NoDup (sleeplist (sem (cs c)));
  inv_list : ∀ w, w ∈ sleeplist (sem (cs c)) ↔ asleep_on c w;
  inv_waits : ∀ i, threads c !! i = Some Asleep → is_Some (waits (cs c) !! wdata i);
  inv_len : Z.of_nat (length (sleeplist (sem (cs c)))) = 0 `max` - val (sem (cs c));
  inv_permits :
    val (sem (cs c)) + Z.of_nat (length (sleeplist (sem (cs c)))) +
      total (permits (cs c)) (threads c) = v + extra c }.

Lemma wdata_inj i j : wdata i = wdata j → i = j.
Proof. unfold wdata. lia. Qed.

Lemma sem_inv_init v n : 0 ≤ v → sem_inv v (sem_init v n).
Proof.
  intros Hv. split; simpl.
  - constructor.
  - intros w. split; [by intros ?%elem_of_nil|].
    intros (i & wd & _ & _ & E & _). simpl in E. by rewrite lookup_empty in E.
  - intros i E. apply lookup_replicate_1 in E as [E _]. done.
  - lia.
  - rewrite total_replicate by done. lia.
Qed.

Lemma length_detach w l :
  NoDup l → w ∈ l → Z.of_nat (length (detach w l)) = Z.of_nat (length l) - 1.
Proof.
  intros Hn (l1 & l2 & ->)%list_elem_of_split. unfold detach.
  rewrite filter_app, filter_cons_False by auto.
  apply NoDup_app in Hn as (_ & Hd & Hn%NoDup_cons). destruct Hn as [Hw _].
  rewrite !filter_all.
  - rewrite !length_app. simpl. lia.
  - intros x Hx ->. done.
  - intros x Hx ->. apply (Hd w Hx). by left.
Qed.

Lemma elem_of_detach w x l : x ∈ detach w l ↔ x ∈ l ∧ x ≠ w.
Proof. unfold detach. rewrite list_elem_of_filter. tauto. Qed.

Lemma NoDup_detach w l : NoDup l → NoDup (detach w l).
Proof. apply NoDup_filter. Qed.

(** ** The operations on a semaphore that satisfies the invariant *)

Lemma post_sem_free s :
  0 ≤ val (sem s) →
  post_sem s = Ok (tt, mkSemst (mkSem (val (sem s) + 1) (sleeplist (sem s))) (waits s) (activated s)).
Proof. intros H. unfold post_sem, set_sem. mred. simpl. rewrite decide_False by lia. done. Qed.

Lemma post_sem_wake s l w wd :
  val (sem s) < 0 → sleeplist (sem s) = l ++ [w] → waits s !! w = Some wd →
  post_sem s = Ok (tt, mkSemst (mkSem (val (sem s) + 1) (detach w (l ++ [w])))
    (<[w := mkWaitData true (proc wd)]> (waits s)) (proc wd :: activated s)).
Proof.
  intros Hv Hl Hw. unfold post_sem, set_sem, set_waits, activate_proc. mred. simpl.
  rewrite decide_True by lia. rewrite Hl, last_snoc. simpl. by rewrite Hw.
Qed.

Lemma sem_inv_last v c :
  sem_inv v c → val (sem (cs c)) < 0 →
  ∃ l i wd, sleeplist (sem (cs c)) = l ++ [wdata i] ∧ threads c !! i = Some Asleep ∧
            waits (cs c) !! wdata i = Some wd ∧ up wd = false.
Proof.
  intros Hinv Hv. pose proof (inv_len _ _ Hinv) as Hlen.
  destruct (sleeplist (sem (cs c))) as [|w l _] eqn:El using rev_ind; [simpl in Hlen; lia|].
  assert (Hw : w ∈ sleeplist (sem (cs c))) by (rewrite El; set_solver).
  apply (inv_list _ _ Hinv) in Hw as (i & wd & -> & ? & ? & ?). eauto 10.
Qed.

(** What the rest of the invariant looks at when the semaphore wakes thread [i]. *)
Lemma sem_inv_post v c s' :
  sem_inv v c → post_sem (cs c) = Ok (tt, s') →
  sem_inv (v + 1) (mkConfig s' (threads c) (extra c)).
Proof.
  intros Hinv Hrun. destruct (decide (0 ≤ val (sem (cs c)))) as [Hv|Hv].
  - rewrite post_sem_free in Hrun by done. injection Hrun as <-.
    destruct Hinv as [H1 H2 H3 H4 H5]. split; simpl; [done|done|done|lia|].
    assert (total (permits (mkSemst (mkSem (val (sem (cs c)) + 1) (sleeplist (sem (cs c))))
      (waits (cs c)) (activated (cs c)))) (threads c) = total (permits (cs c)) (threads c))
      as -> by (by apply total_ext). lia.
  - destruct (sem_inv_last v c Hinv ltac:(lia)) as (l & i & wd & El & Ei & Ew & Eup).
    rewrite (post_sem_wake _ l (wdata i) wd) in Hrun by (done || lia). injection Hrun as <-.
    destruct Hinv as [H1 H2 H3 H4 H5]. rewrite El in *.
    assert (Hin : wdata i ∈ l ++ [wdata i]) by set_solver.
    assert (Hothers : ∀ j, threads c !! j = Some Asleep → wdata j ≠ wdata i →
      <[wdata i := mkWaitData true (proc wd)]> (waits (cs c)) !! wdata j
        = waits (cs c) !! wdata j) by (intros; by apply lookup_insert_ne).
    split; simpl.
    + by apply NoDup_detach.
    + intros w. rewrite elem_of_detach, H2. unfold asleep_on. simpl. split.
      * intros [(j & wd' & -> & Ej & Ew' & Eup') Hne]. exists j, wd'.
        by rewrite lookup_insert_ne.
      * intros (j & wd' & -> & Ej & Ew' & Eup').
        destruct (decide (wdata i = wdata j)) as [Heq|Hne].
        { rewrite Heq, lookup_insert_eq in Ew'. by injection Ew' as <-. }
        rewrite lookup_insert_ne in Ew' by done. split; [eauto 10|done].
    + intros j Ej. destruct (H3 j Ej) as [wd' Ew'].
      destruct (decide (wdata i = wdata j)) as [->|Hne];
        [rewrite lookup_insert_eq; eauto|rewrite lookup_insert_ne; eauto].
    + rewrite length_detach by done. lia.
    + rewrite length_detach by done.
      rewrite <-(list_insert_id (threads c) i Asleep) at 1 by done.
      rewrite (total_update (permits (cs c)) _ _ i Asleep) by
        (done || (intros j [] Hj Ej; simpl; try done; rewrite lookup_insert_ne; [done|];
                  intros Heq%wdata_inj; done)).
      simpl. rewrite Ew, Eup, lookup_insert_eq. simpl. lia.
Qed.

(** Thread [i] changes from [t] to [t'], where neither is asleep. *)
Lemma sem_inv_thread v c i t t' e' :
  sem_inv v c → threads c !! i = Some t → t ≠ Asleep → t' ≠ Asleep →
  v + extra c + permits (cs c) i t' = v + e' + permits (cs c) i t →
  sem_inv v (mkConfig (cs c) (<[i := t']> (threads c)) e').
Proof.
  intros [H1 H2 H3 H4 H5] Ei Ht Ht' He. split; simpl; [done| | |done|].
  - intros w. rewrite H2. unfold asleep_on. simpl.
    split; intros (j & wd & -> & Ej & ? & ?); exists j, wd; (split; [done|]); (split; [|done]).
    + rewrite list_lookup_insert_ne; [done|]. intros ->. congruence.
    + apply list_lookup_insert_Some in Ej as [(-> & -> & _)|[? ?]]; done.
  - intros j Ej. apply list_lookup_insert_Some in Ej as [(-> & -> & _)|[? ?]]; [done|auto].
  - rewrite (total_update (permits (cs c)) _ _ i t) by done. lia.
Qed.

Lemma sem_inv_wait v c i b s' :
  sem_inv v c → threads c !! i = Some Idle →
  wait_sem_begin (wdata i) (Z.of_nat i) (cs c) = Ok (b, s') →
  sem_inv v (mkConfig s' (<[i := if b then Holding else Asleep]> (threads c)) (extra c)).
Proof.
  intros [H1 H2 H3 H4 H5] Ei Hrun. unfold wait_sem_begin, set_sem, set_waits in Hrun.
  revert Hrun. mred. simpl. case_decide as Hv; simpl; intros [= <- <-].
  - split; simpl; [done| | |lia|].
    + intros w. rewrite H2. unfold asleep_on. simpl.
      split; intros (j & wd & -> & Ej & ? & ?); exists j, wd; (split; [done|]); (split; [|done]).
      * rewrite list_lookup_insert_ne; [done|]. intros ->. congruence.
      * apply list_lookup_insert_Some in Ej as [(-> & ? & _)|[? ?]]; done.
    + intros j Ej. apply list_lookup_insert_Some in Ej as [(-> & ? & _)|[? ?]]; [done|auto].
    + rewrite (total_update (permits (cs c)) _ _ i Idle); [simpl; lia|done|].
      by intros j [] ??.
  - set (ws := <[wdata i := mkWaitData false (Z.of_nat i)]> (waits (cs c))).
    assert (Hne : ∀ j, j ≠ i → ws !! wdata j = waits (cs c) !! wdata j).
    { intros j Hj. apply lookup_insert_ne. intros ?%wdata_inj. done. }
    assert (Heq : ws !! wdata i = Some (mkWaitData false (Z.of_nat i)))
      by apply lookup_insert_eq.
    assert (Hni : wdata i ∉ sleeplist (sem (cs c))).
    { rewrite H2. intros (j & wd & ->%wdata_inj & Ej & _). congruence. }
    split; simpl.
    + by apply NoDup_cons.
    + intros w. rewrite elem_of_cons, H2. unfold asleep_on. simpl. split.
      * intros [->|(j & wd & -> & Ej & Ew & Eup)].
        { exists i, (mkWaitData false (Z.of_nat i)).
          rewrite list_lookup_insert_eq by (by eapply lookup_lt_Some). done. }
        assert (j ≠ i) by (intros ->; congruence). exists j, wd.
        rewrite list_lookup_insert_ne, Hne by done. done.
      * intros (j & wd & -> & Ej & Ew & Eup). destruct (decide (j = i)) as [->|Hj]; [by left|].
        right. exists j, wd. rewrite list_lookup_insert_ne in Ej by done.
        rewrite Hne in Ew by done. done.
    + intros j Ej. destruct (decide (j = i)) as [->|Hj]; [by rewrite Heq|].
      rewrite list_lookup_insert_ne in Ej by done. rewrite Hne by done. auto.
    + lia.
    + rewrite (total_update (permits (cs c)) _ _ i Idle); [|done|].
      * simpl. fold ws. rewrite Heq. simpl. lia.
      * intros j [] ? Ej; try done. simpl. fold ws. by rewrite Hne.
Qed.

(** Leaving the semaphore after a wake-up, by [post] or by an alert. *)
Lemma wait_sem_end_run v c i :
  sem_inv v c → threads c !! i = Some Asleep →
  ∃ wd, waits (cs c) !! wdata i = Some wd ∧
    wait_sem_end (wdata i) (cs c) = Ok (up wd,
      mkSemst (if up wd then sem (cs c)
               else mkSem (val (sem (cs c)) + 1) (detach (wdata i) (sleeplist (sem (cs c)))))
        (delete (wdata i) (waits (cs c))) (activated (cs c))).
Proof.
  intros [H1 H2 H3 H4 H5] Ei. destruct (H3 i Ei) as [wd Ew]. exists wd. split; [done|].
  unfold wait_sem_end, set_sem, set_waits. mred. rewrite Ew.
  destruct (up wd) eqn:Eup; simpl; [by rewrite Ew, Eup; destruct (cs c) as [[] ? ?]|].
  assert (Hin : wdata i ∈ sleeplist (sem (cs c))) by (apply H2; exists i, wd; done).
  rewrite bool_decide_true; simpl; [by rewrite Ew, Eup|].
  destruct (sleeplist (sem (cs c))); [by apply elem_of_nil in Hin|simpl in H4; lia].
Qed.

Lemma sem_inv_resume v c i b s' :
  sem_inv v c → threads c !! i = Some Asleep →
  wait_sem_end (wdata i) (cs c) = Ok (b, s') →
  sem_inv v (mkConfig s' (<[i := if b then Holding else Idle]> (threads c)) (extra c)).
Proof.
  intros Hinv Ei Hrun. destruct (wait_sem_end_run v c i Hinv Ei) as (wd & Ew & Hrun').
  rewrite Hrun' in Hrun. injection Hrun as <- <-. clear Hrun'.
  destruct Hinv as [H1 H2 H3 H4 H5].
  assert (Hne : ∀ j, j ≠ i → delete (wdata i) (waits (cs c)) !! wdata j
                               = waits (cs c) !! wdata j).
  { intros j Hj. apply lookup_delete_ne. intros ?%wdata_inj. done. }
  assert (Hwaits : ∀ t j, t ≠ Asleep → <[i := t]> (threads c) !! j = Some Asleep →
            is_Some (delete (wdata i) (waits (cs c)) !! wdata j)).
  { intros t j Ht Ej. apply list_lookup_insert_Some in Ej as [(-> & ? & _)|[Hj Ej]]; [done|].
    rewrite Hne by done. auto. }
  assert (Hasleep : ∀ t e w sm, t ≠ Asleep → asleep_on (mkConfig (mkSemst sm
            (delete (wdata i) (waits (cs c))) (activated (cs c))) (<[i := t]> (threads c)) e) w
            ↔ asleep_on c w ∧ w ≠ wdata i).
  { intros t e w sm Ht. unfold asleep_on. simpl. split.
    - intros (j & wd' & -> & Ej & Ew' & Eup).
      apply list_lookup_insert_Some in Ej as [(-> & ? & _)|[Hj Ej]]; [done|].
      rewrite Hne in Ew' by done. split; [eauto 10|]. intros ?%wdata_inj. done.
    - intros [(j & wd' & -> & Ej & Ew' & Eup) Hj]. exists j, wd'.
      assert (j ≠ i) by (by intros ->). rewrite list_lookup_insert_ne, Hne by done. done. }
  assert (Hsum : ∀ sm t, t ≠ Asleep → total (permits (mkSemst sm
            (delete (wdata i) (waits (cs c))) (activated (cs c)))) (<[i := t]> (threads c))
            = total (permits (cs c)) (threads c) - permits (cs c) i Asleep
              + permits (cs c) i t).
  { intros sm t Ht. rewrite (total_update (permits (cs c)) _ _ i Asleep); [by destruct t|done|].
    intros j [] ??; try done. simpl. by rewrite Hne. }
  destruct (up wd) eqn:Eup; (split; simpl; [..|rewrite Hsum by done; simpl]);
    try done; try (by intros j; apply Hwaits).
  - intros w. rewrite Hasleep by done. rewrite H2. split; [|tauto]. intros Hw. split; [done|].
    intros ->. destruct Hw as (j & wd' & ->%wdata_inj & _ & Ew' & Eup'). congruence.
  - rewrite Ew, Eup. lia.
  - by apply NoDup_detach.
  - intros w. rewrite Hasleep by done. by rewrite elem_of_detach, H2.
  - rewrite length_detach; [|done|apply H2; exists i, wd; done].
    assert (Hin : wdata i ∈ sleeplist (sem (cs c))) by (apply H2; exists i, wd; done).
    destruct (sleeplist (sem (cs c))); [by apply elem_of_nil in Hin|simpl in *; lia].
  - rewrite length_detach; [|done|apply H2; exists i, wd; done]. rewrite Ew, Eup. lia.
Qed.

Lemma sem_inv_step v c c' : sem_inv v c → sem_step c c' → sem_inv v c'.
Proof.
  intros Hinv Hstep. destruct Hstep as [i s ts e s' b Ei R|i s ts e s' b Ei R
    |i s ts e s' Ei R|i s ts e s' Ei R].
  - by apply (sem_inv_wait v (mkConfig s ts e)).
  - by apply (sem_inv_resume v (mkConfig s ts e)).
  - pose proof (sem_inv_post v (mkConfig s ts e) s' Hinv R) as H.
    apply (sem_inv_thread _ _ i Holding Idle (e - 1)) in H; [|done..|simpl; lia].
    destruct H as [? ? ? ? H]. split; [done..|]. simpl in *. lia.
  - destruct (sem_inv_post v (mkConfig s ts e) s' Hinv R) as [? ? ? ? H].
    split; [done..|]. simpl in *. lia.
Qed.

Lemma sem_reachable_inv v n c : 0 ≤ v → rtc sem_step (sem_init v n) c → sem_inv v c.
Proof.
  intros Hv Hr. pose proof (sem_inv_init v n Hv) as Hinv.
  induction Hr; eauto using sem_inv_step.
Qed.

Lemma holders_total s ts : holders ts ≤ total (permits s) ts.
Proof.
  trans (total (λ _ t, if decide (t = Holding) then 1 else 0) ts).
  - unfold holders. induction ts as [|t ts IH]; [done|].
    rewrite filter_cons. simpl. case_decide; simpl in *; lia.
  - apply total_ge. intros i t. destruct t; simpl; repeat case_match; done || lia.
Qed.

Lemma sem_inv_holders v c : sem_inv v c → holders (threads c) ≤ v + extra c.
Proof.
  intros [_ _ _ H4 H5]. pose proof (holders_total (cs c) (threads c)). lia.
Qed.

(** ** Properties *)

(** C18: a semaphore initialised with [v] permits never lets more than [v] threads through,
    plus one for every permit added from outside ([extra]): whatever the interleaving of
    waits, posts, wake-ups and alerts, and for a [SleepLock] ([v = 1], only holders post)
    this is mutual exclusion. *)
Theorem sem_mutual_exclusion v n c :
  0 ≤ v → rtc sem_step (sem_init v n) c → holders (threads c) ≤ v + extra c.
Proof. intros Hv Hr. by apply sem_inv_holders, (sem_reachable_inv v n). Qed.

Lemma sem_step_example :
  rtc sem_step (sem_init 1 2)
    (mkConfig (mkSemst (mkSem 0 []) ∅ [1]) [Idle; Holding] 0).
Proof.
  eapply rtc_l. { eapply (step_wait 0); vm_compute; reflexivity. }
  eapply rtc_l. { eapply (step_wait 1); vm_compute; reflexivity. }
  eapply rtc_l. { eapply (step_release 0); vm_compute; reflexivity. }
  eapply rtc_l. { eapply (step_resume 1); vm_compute; reflexivity. }
  apply rtc_refl.
Qed.

Lemma sem_mutual_exclusion_witness :
  holders [Idle; Holding] ≤ 1 + 0.
Proof.
  exact (sem_mutual_exclusion 1 2 _ ltac:(lia) sem_step_example).
Defined.

(** No interleaving makes a semaphore operation panic or touch freed memory: posting never
    finds the sleep list empty when it has to wake somebody, and a thread that wakes up for
    another reason passes its assertion and leaves the sleep list. *)
Theorem sem_operations_safe v n c i t :
  0 ≤ v → rtc sem_step (sem_init v n) c → threads c !! i = Some t →
  (t = Asleep → ∃ b s', wait_sem_end (wdata i) (cs c) = Ok (b, s') ∧
                        wdata i ∉ sleeplist (sem s')) ∧
  (t ≠ Asleep → ∃ s', post_sem (cs c) = Ok (tt, s')) ∧
  (t = Idle → ∃ b s', wait_sem_begin (wdata i) (Z.of_nat i) (cs c) = Ok (b, s') ∧
                      (b = false ↔ val (sem (cs c)) ≤ 0)).
Proof.
  intros Hv Hr Ei. pose proof (sem_reachable_inv v n c Hv Hr) as Hinv. split_and!.
  - intros ->. destruct (wait_sem_end_run v c i Hinv Ei) as (wd & Ew & ->).
    eexists _, _. split; [done|]. simpl. destruct (up wd) eqn:Eup.
    + rewrite (inv_list _ _ Hinv). intros (j & wd' & ->%wdata_inj & _ & Ew' & ?). congruence.
    + simpl. rewrite elem_of_detach. tauto.
  - intros _. destruct (decide (0 ≤ val (sem (cs c)))) as [Hval|Hval].
    + rewrite post_sem_free by done. eauto.
    + destruct (sem_inv_last v c Hinv ltac:(lia)) as (l & j & wd & El & _ & Ew & _).
      rewrite (post_sem_wake _ l (wdata j) wd) by (done || lia). eauto.
  - intros ->. unfold wait_sem_begin, set_sem, set_waits. mred. simpl.
    case_decide; eexists _, _; (split; [done|]); split; intros; (done || lia).
Qed.

Lemma sem_operations_safe_witness :
  ∃ s', post_sem (mkSemst (mkSem 0 []) ∅ [1]) = Ok (tt, s').
Proof.
  exact (proj1 (proj2 (sem_operations_safe 1 2 _ 1 Holding ltac:(lia) sem_step_example eq_refl))
    ltac:(discriminate)).
Defined.

(** [post_all_sem] wakes every sleeper and returns how many there were. *)
Lemma post_all_loop_run v c k ret fuel :
  sem_inv v c → - val (sem (cs c)) = Z.of_nat k → (k < fuel)%nat →
  ∃ s', post_all_loop fuel ret (cs c) = Ok (ret + Z.of_nat k + 1, s') ∧
        sleeplist (sem s') = [] ∧ val (sem s') = 0.
Proof.
  revert c v ret fuel. induction k as [|k IH]; intros c v ret [|fuel] Hinv Hk Hf; try lia.
  - simpl. rewrite (bind_Ok _ _ _ _ _ (post_sem_free (cs c) ltac:(lia))).
    unfold get_sem, set_sem. mred. simpl. rewrite decide_True by lia. simpl.
    eexists; split; [f_equal; f_equal; lia|]. simpl. split; [|lia].
    pose proof (inv_len _ _ Hinv). destruct (sleeplist _); [done|simpl in *; lia].
  - simpl. destruct (sem_inv_last v c Hinv ltac:(lia)) as (l & j & wd & El & _ & Ew & _).
    pose proof (post_sem_wake (cs c) l (wdata j) wd ltac:(lia) El Ew) as R.
    rewrite (bind_Ok _ _ _ _ _ R). apply (sem_inv_post v) in R; [|done].
    unfold get_sem, set_sem. mred. simpl. rewrite decide_False by lia.
    destruct (IH _ _ (ret + 1) fuel R) as (s' & E & H'); [simpl; lia|lia|].
    simpl in E. rewrite E. exists s'. split; [f_equal; f_equal; lia|done].
Qed.

Lemma post_all_loop_free s ret fuel :
  0 ≤ val (sem s) → (0 < fuel)%nat →
  ∃ s', post_all_loop fuel ret s = Ok (ret + 1, s') ∧ sem s' = sem s.
Proof.
  intros Hv Hf. destruct fuel as [|fuel]; [lia|]. simpl.
  rewrite (bind_Ok _ _ _ _ _ (post_sem_free s Hv)).
  unfold get_sem, set_sem. mred. simpl. rewrite decide_True by lia. simpl.
  eexists; split; [done|]. simpl. destruct s as [[v l] w a]. simpl. f_equal. lia.
Qed.

(** In every reachable state [post_all_sem] terminates, wakes all the sleepers, returns
    their number and leaves no permit behind that was not there before. *)
Theorem post_all_sem_wakes_all v n c fuel :
  0 ≤ v → rtc sem_step (sem_init v n) c →
  (length (sleeplist (sem (cs c))) < fuel)%nat →
  ∃ s', post_all_sem fuel (cs c) = Ok (Z.of_nat (length (sleeplist (sem (cs c)))), s') ∧
        sleeplist (sem s') = [] ∧ val (sem s') = 0 `max` val (sem (cs c)).
Proof.
  intros Hv Hr Hf. pose proof (sem_reachable_inv v n c Hv Hr) as Hinv.
  pose proof (inv_len _ _ Hinv) as Hlen. unfold post_all_sem.
  destruct (decide (0 < val (sem (cs c)))) as [Hval|Hval].
  - destruct (post_all_loop_free (cs c) (-1) fuel) as (s' & -> & Es); [lia|lia|].
    assert (sleeplist (sem (cs c)) = []) as En by
      (destruct (sleeplist (sem (cs c))); [done|simpl in *; lia]).
    rewrite En. eexists; split; [done|]. rewrite Es. split; [done|lia].
  - destruct (post_all_loop_run v c (length (sleeplist (sem (cs c)))) (-1) fuel)
      as (s' & -> & ? & ?); [done|lia|done|].
    eexists; split; [f_equal; f_equal; lia|]. split; [done|lia].
Qed.

Lemma post_all_sem_wakes_all_witness :
  ∃ s', post_all_sem 3 (mkSemst (mkSem 0 []) ∅ [1]) = Ok (0, s') ∧
        sleeplist (sem s') = [] ∧ val (sem s') = 0 `max` 0.
Proof.
  exact (post_all_sem_wakes_all 1 2 _ 3 ltac:(lia) sem_step_example ltac:(simpl; lia)).
Defined.
