(* ===== verification/Str.v ===== *)
(** * [common/string.c]: memory and string routines

    A flat memory is a list of bytes; pointers are offsets into it, and an access outside
    it is a [Fault].  [char] is unsigned, as it is on AArch64. *)

From Stdlib Require Import ZArith Lia.
From S2P Require Import Prelude Words.

Notation mem := (list Z) (only parsing).
Implicit Types (m : mem).

Definition load (p : nat) : M mem Z := getopt (λ m, m !! p).
Definition store (p : nat) (v : Z) : M mem unit := λ m,
  if decide (p < length m)%nat then Ok (tt, <[p := v]> m) else Fault.

(** ** The routines *)

(** [for (i = 0; i < n; i++) s[i] = c & 0xff;] *)
Fixpoint memset (s : nat) (c : Z) (n : nat) : M mem unit :=
  match n with
  | O => mret tt
  | S n => store s (u8 (Z.land c 255));; memset (S s) c n
  end.

(** [for (i = 0; i < n; i++) dest[i] = src[i];] *)
Fixpoint memcpy (dest src n : nat) : M mem unit :=
  match n with
  | O => mret tt
  | S n => v ← load src; store dest v;; memcpy (S dest) (S src) n
  end.

Fixpoint memcmp (s1 s2 n : nat) : M mem Z :=
  match n with
  | O => mret 0
  | S n =>
      c1 ← load s1;
      c2 ← load s2;
      if decide (c1 ≠ c2) then mret (c1 - c2) else memcmp (S s1) (S s2) n
  end.

(** [s += n; d += n; while (n-- > 0) *--d = *--s;] *)
Fixpoint copy_backward (dest src n : nat) : M mem unit :=
  match n with
  | O => mret tt
  | S n => v ← load (src + n); store (dest + n) v;; copy_backward dest src n
  end.
Definition memmove (dest src n : nat) : M mem unit :=
  if decide (src < dest ∧ dest - src < n)%nat then copy_backward dest src n
  else memcpy dest src n.

(** the second loop of [strncpy] *)
Fixpoint fill_nul (dest n : nat) : M mem unit :=
  match n with
  | O => mret tt
  | S n => store dest 0;; fill_nul (S dest) n
  end.
Fixpoint strncpy (dest src n : nat) : M mem unit :=
  match n with
  | O => mret tt
  | S n' =>
      v ← load src;
      if decide (v ≠ 0) then store dest v;; strncpy (S dest) (S src) n'
      else fill_nul dest n
  end.

Fixpoint strncpy_fast (dest src n : nat) : M mem unit :=
  match n with
  | O => mret tt
  | S n =>
      v ← load src;
      if decide (v ≠ 0) then store dest v;; strncpy_fast (S dest) (S src) n
      else store dest 0
  end.

Fixpoint strncmp (s1 s2 n : nat) : M mem Z :=
  match n with
  | O => mret 0
  | S n =>
      c1 ← load s1;
      c2 ← load s2;
      if decide (c1 ≠ c2) then mret (c1 - c2)
      else if decide (c1 = 0 ∨ c2 = 0) then mret 0
      else strncmp (S s1) (S s2) n
  end.

(** [while (s[i] != 0) i++]: the scan ends at the latest where the memory does, [fuel]
    is the size of the memory. *)
Fixpoint strlen_loop (fuel s i : nat) : M mem nat :=
  match fuel with
  | O => fault
  | S fuel =>
      v ← load (s + i);
      if decide (v ≠ 0) then strlen_loop fuel s (S i) else mret i
  end.
Definition strlen (s : nat) : M mem nat := λ m, strlen_loop (S (length m)) s 0 m.

(** ** Specifications *)

(** the bytes of [l] up to the first NUL *)
Fixpoint cstr (l : list Z) : list Z :=
  match l with
  | [] => []
  | c :: l => if decide (c = 0) then [] else c :: cstr l
  end.

(** the bytes of [l] up to and including the first NUL *)
Fixpoint cstrz (l : list Z) : list Z :=
  match l with
  | [] => []
  | c :: l => if decide (c = 0) then [c] else c :: cstrz l
  end.

(** comparison of byte sequences by their first difference *)
Fixpoint first_diff (l1 l2 : list Z) : Z :=
  match l1, l2 with
  | c1 :: l1, c2 :: l2 => if decide (c1 = c2) then first_diff l1 l2 else c1 - c2
  | _, _ => 0
  end.

(** what [strncpy] leaves in a buffer of [n] bytes *)
Definition padded (n : nat) (l : list Z) : list Z :=
  let s := cstr (take n l) in s ++ replicate (n - length s) 0.

(** ** Lemmas *)

Lemma load_run p m v : m !! p = Some v → load p m = Ok (v, m).
Proof. apply getopt_run. Qed.
Lemma store_run p v m : (p < length m)%nat → store p v m = Ok (tt, <[p := v]> m).
Proof. intros. unfold store. by rewrite decide_True. Qed.

Lemma sub_S {A} (l : list A) p n x :
  l !! p = Some x → sub p (S n) l = x :: sub (S p) n l.
Proof.
  intros E. unfold sub. by rewrite (drop_S _ _ _ E).
Qed.

Lemma sub_0 {A} (l : list A) p : sub p 0 l = [].
Proof. done. Qed.

Lemma sub_insert_ne {A} (l : list A) p n q x :
  (q < p ∨ p + n ≤ q)%nat → sub p n (<[q := x]> l) = sub p n l.
Proof.
  intros H. apply list_eq. intros i. destruct (decide (i < n)%nat).
  - rewrite !lookup_sub by done. rewrite list_lookup_insert_ne by lia. done.
  - unfold sub. rewrite !lookup_take_ge by lia. done.
Qed.

Lemma splice_nil {A} (l : list A) p : splice p [] l = l.
Proof. unfold splice. simpl. rewrite Nat.add_0_r. apply take_drop. Qed.

Lemma splice_cons {A} (l new : list A) p x :
  (p + S (length new) ≤ length l)%nat →
  splice (S p) new (<[p := x]> l) = splice p (x :: new) l.
Proof.
  intros Hl. apply list_eq_length.
  - rewrite !length_splice; rewrite ?length_insert; simpl; lia.
  - intros i Hi. rewrite !lookup_splice by (rewrite ?length_insert; simpl; lia). simpl.
    destruct (decide (i = p)) as [->|Hne].
    + rewrite decide_False by lia. rewrite decide_True by lia.
      rewrite list_lookup_insert_eq by lia. by rewrite Nat.sub_diag.
    + rewrite list_lookup_insert_ne by done.
      destruct (decide (S p ≤ i < S (p + length new))%nat).
      * rewrite decide_True by lia. replace (i - p)%nat with (S (i - S p)) by lia. done.
      * rewrite decide_False by lia. done.
Qed.

Lemma splice_snoc {A} (l new : list A) p x :
  (p + S (length new) ≤ length l)%nat →
  splice p new (<[p + length new := x]> l)%nat = splice p (new ++ [x]) l.
Proof.
  intros Hl. apply list_eq_length.
  - rewrite !length_splice; rewrite ?length_insert, ?length_app; simpl; lia.
  - intros i Hi.
    rewrite !lookup_splice by (rewrite ?length_insert, ?length_app; simpl; lia).
    rewrite length_app. simpl. destruct (decide (i = p + length new)%nat) as [->|Hne].
    + rewrite decide_False by lia. rewrite decide_True by lia.
      rewrite list_lookup_insert_eq by lia.
      rewrite lookup_app_r by lia. by replace (_ - _ - _)%nat with 0%nat by lia.
    + rewrite list_lookup_insert_ne by done.
      destruct (decide (p ≤ i < p + length new)%nat).
      * rewrite decide_True by lia. by rewrite lookup_app_l by lia.
      * rewrite decide_False by lia. done.
Qed.

Lemma lookup_in_range {A} (l : list A) i : (i < length l)%nat → ∃ x, l !! i = Some x.
Proof. intros H. by apply lookup_lt_is_Some in H. Qed.

Lemma memset_run n s c m :
  (s + n ≤ length m)%nat →
  memset s c n m = Ok (tt, splice s (replicate n (u8 (Z.land c 255))) m).
Proof.
  revert s m. induction n as [|n IH]; intros s m H; simpl.
  - by rewrite splice_nil.
  - erewrite bind_Ok by (apply store_run; lia).
    rewrite IH by (rewrite ?length_insert; lia).
    rewrite splice_cons by (rewrite length_replicate; lia). done.
Qed.

Lemma memcpy_run n dest src m :
  (dest + n ≤ length m)%nat → (src + n ≤ length m)%nat →
  (dest ≤ src ∨ src + n ≤ dest)%nat →
  memcpy dest src n m = Ok (tt, splice dest (sub src n m) m).
Proof.
  revert dest src m. induction n as [|n IH]; intros dest src m Hd Hs Ho; simpl.
  - by rewrite sub_0, splice_nil.
  - destruct (lookup_in_range m src ltac:(lia)) as (v & Ev).
    rewrite (bind_Ok _ _ _ _ _ (load_run _ _ _ Ev)).
    erewrite bind_Ok by (apply store_run; lia).
    rewrite IH by (rewrite ?length_insert; lia).
    rewrite sub_insert_ne by lia.
    rewrite splice_cons by (rewrite length_sub; lia).
    by rewrite (sub_S _ _ _ _ Ev).
Qed.

Lemma copy_backward_run n dest src m :
  (dest + n ≤ length m)%nat → (src + n ≤ length m)%nat → (src ≤ dest)%nat →
  copy_backward dest src n m = Ok (tt, splice dest (sub src n m) m).
Proof.
  revert m. induction n as [|n IH]; intros m Hd Hs Ho; simpl.
  - by rewrite sub_0, splice_nil.
  - destruct (lookup_in_range m (src + n)%nat ltac:(lia)) as (v & Ev).
    rewrite (bind_Ok _ _ _ _ _ (load_run _ _ _ Ev)).
    erewrite bind_Ok by (apply store_run; lia).
    rewrite IH by (rewrite ?length_insert; lia).
    rewrite sub_insert_ne by lia.
    pose proof (length_sub src n m ltac:(lia)) as Hl.
    rewrite <-Hl at 2. rewrite splice_snoc by lia. do 3 f_equal.
    apply list_eq_length.
    { rewrite length_app, !length_sub; simpl; lia. }
    rewrite length_app, Hl. simpl. intros i Hi. rewrite lookup_sub by lia.
    destruct (decide (i = n)) as [->|].
    + rewrite lookup_app_r by lia. by rewrite Hl, Nat.sub_diag.
    + rewrite lookup_app_l by lia. apply lookup_sub. lia.
Qed.

Lemma fill_nul_run n dest m :
  (dest + n ≤ length m)%nat → fill_nul dest n m = Ok (tt, splice dest (replicate n 0) m).
Proof.
  revert dest m. induction n as [|n IH]; intros dest m H; simpl.
  - by rewrite splice_nil.
  - erewrite bind_Ok by (apply store_run; lia).
    rewrite IH by (rewrite ?length_insert; lia).
    rewrite splice_cons by (rewrite length_replicate; lia). done.
Qed.

Lemma length_cstr l : (length (cstr l) ≤ length l)%nat.
Proof. induction l as [|c l IH]; simpl; [done|]. case_decide; simpl; lia. Qed.

Lemma padded_S n c l : c ≠ 0 → padded (S n) (c :: l) = c :: padded n l.
Proof. intros H. unfold padded. simpl. by rewrite decide_False. Qed.
Lemma padded_nul n l : padded n (0 :: l) = replicate n 0.
Proof. unfold padded. destruct n; simpl; [done|]. done. Qed.
Lemma length_padded n l : length (padded n l) = n.
Proof.
  unfold padded. rewrite length_app, length_replicate.
  pose proof (length_cstr (take n l)). rewrite length_take in H. lia.
Qed.

Lemma padded_take n l l' : take n l = take n l' → padded n l = padded n l'.
Proof. unfold padded. by intros ->. Qed.

(** ** Properties *)

(** [memmove] copies correctly whatever the overlap of the two areas: the [n] bytes at
    [dest] become what the [n] bytes at [src] were before, and nothing else changes. *)
Theorem memmove_correct dest src n m :
  (dest + n ≤ length m)%nat → (src + n ≤ length m)%nat →
  memmove dest src n m = Ok (tt, splice dest (sub src n m) m).
Proof.
  intros Hd Hs. unfold memmove. destruct (decide _).
  - apply copy_backward_run; lia.
  - apply memcpy_run; lia.
Qed.

Lemma memmove_correct_witness :
  memmove 1 0 3 [1; 2; 3; 4; 5] = Ok (tt, [1; 1; 2; 3; 5]).
Proof. exact (memmove_correct 1 0 3 [1; 2; 3; 4; 5] ltac:(simpl; lia) ltac:(simpl; lia)). Defined.

(** [memcpy] on overlapping areas may differ from [memmove]. *)
Example memcpy_overlap : memcpy 1 0 3 [1; 2; 3; 4; 5] = Ok (tt, [1; 1; 1; 1; 5]).
Proof. reflexivity. Qed.

Lemma memcmp_run n s1 s2 m :
  (s1 + n ≤ length m)%nat → (s2 + n ≤ length m)%nat →
  memcmp s1 s2 n m = Ok (first_diff (sub s1 n m) (sub s2 n m), m).
Proof.
  revert s1 s2. induction n as [|n IH]; intros s1 s2 H1 H2; simpl.
  - done.
  - destruct (lookup_in_range m s1 ltac:(lia)) as (c1 & E1).
    destruct (lookup_in_range m s2 ltac:(lia)) as (c2 & E2).
    rewrite (bind_Ok _ _ _ _ _ (load_run _ _ _ E1)).
    rewrite (bind_Ok _ _ _ _ _ (load_run _ _ _ E2)).
    rewrite (sub_S _ _ _ _ E1), (sub_S _ _ _ _ E2). simpl.
    destruct (decide (c1 = c2)) as [->|Hne].
    + rewrite decide_False by tauto. apply IH; lia.
    + by rewrite decide_True.
Qed.

Lemma first_diff_zero l1 l2 :
  length l1 = length l2 → first_diff l1 l2 = 0 ↔ l1 = l2.
Proof.
  revert l2. induction l1 as [|c1 l1 IH]; intros [|c2 l2] Hl; simpl in *; try done.
  case_decide as Hc.
  - subst. rewrite IH by lia. split; [by intros ->|by intros [= ->]].
  - split; [lia|congruence].
Qed.

Lemma strncmp_run n s1 s2 m :
  (s1 + n ≤ length m)%nat → (s2 + n ≤ length m)%nat →
  strncmp s1 s2 n m = Ok (first_diff (cstrz (sub s1 n m)) (cstrz (sub s2 n m)), m).
Proof.
  revert s1 s2. induction n as [|n IH]; intros s1 s2 H1 H2; simpl.
  - done.
  - destruct (lookup_in_range m s1 ltac:(lia)) as (c1 & E1).
    destruct (lookup_in_range m s2 ltac:(lia)) as (c2 & E2).
    rewrite (bind_Ok _ _ _ _ _ (load_run _ _ _ E1)).
    rewrite (bind_Ok _ _ _ _ _ (load_run _ _ _ E2)).
    rewrite (sub_S _ _ _ _ E1), (sub_S _ _ _ _ E2). simpl.
    destruct (decide (c1 = c2)) as [->|Hne].
    + rewrite decide_False by tauto. destruct (decide (c2 = 0)) as [->|H0].
      * by rewrite decide_True by tauto.
      * rewrite decide_False by tauto. simpl. rewrite decide_True by done.
        apply IH; lia.
    + rewrite decide_True by done.
      repeat case_decide; simpl; by rewrite decide_False.
Qed.

Lemma first_diff_cstrz l1 l2 :
  length l1 = length l2 → first_diff (cstrz l1) (cstrz l2) = 0 ↔ cstr l1 = cstr l2.
Proof.
  revert l2. induction l1 as [|c1 l1 IH]; intros [|c2 l2] Hl; simpl in *; try done.
  destruct (decide (c1 = 0)) as [->|]; destruct (decide (c2 = 0)) as [->|]; simpl.
  - done.
  - rewrite decide_False by congruence. split; [lia|done].
  - rewrite decide_False by congruence. split; [lia|done].
  - destruct (decide (c1 = c2)) as [->|].
    + rewrite IH by lia. split; [by intros ->|by intros [= ->]].
    + split; [lia|congruence].
Qed.

(** [memcmp] returns 0 exactly when the two areas hold the same bytes, and [strncmp]
    exactly when the two strings, cut at [n] characters, are the same; otherwise the
    result has the sign of the first difference. Neither changes the memory. *)
Theorem comparisons_correct s1 s2 n m :
  (s1 + n ≤ length m)%nat → (s2 + n ≤ length m)%nat →
  ∃ r1 r2, memcmp s1 s2 n m = Ok (r1, m) ∧ strncmp s1 s2 n m = Ok (r2, m) ∧
    (r1 = 0 ↔ sub s1 n m = sub s2 n m) ∧
    (r2 = 0 ↔ cstr (sub s1 n m) = cstr (sub s2 n m)) ∧
    r1 = first_diff (sub s1 n m) (sub s2 n m) ∧
    r2 = first_diff (cstrz (sub s1 n m)) (cstrz (sub s2 n m)).
Proof.
  intros H1 H2. eexists _, _. split; [by apply memcmp_run|].
  split; [by apply strncmp_run|]. split_and!; [| |done|done].
  - apply first_diff_zero. by rewrite !length_sub.
  - apply first_diff_cstrz. by rewrite !length_sub.
Qed.

Lemma comparisons_correct_witness :
  ∃ r1 r2, memcmp 0 4 4 [97; 0; 1; 9; 97; 0; 2; 9] = Ok (r1, [97; 0; 1; 9; 97; 0; 2; 9]) ∧
    strncmp 0 4 4 [97; 0; 1; 9; 97; 0; 2; 9] = Ok (r2, [97; 0; 1; 9; 97; 0; 2; 9]) ∧
    (r1 = 0 ↔ [97; 0; 1; 9] = [97; 0; 2; 9]) ∧ (r2 = 0 ↔ [97] = [97]) ∧ r1 = -1 ∧ r2 = 0.
Proof.
  exact (comparisons_correct 0 4 4 [97; 0; 1; 9; 97; 0; 2; 9]
    ltac:(simpl; lia) ltac:(simpl; lia)).
Defined.

Lemma strncpy_run n dest src m :
  (dest + n ≤ length m)%nat → (src + n ≤ length m)%nat →
  (dest + n ≤ src ∨ src + n ≤ dest)%nat →
  strncpy dest src n m = Ok (tt, splice dest (padded n (sub src n m)) m).
Proof.
  revert dest src m. induction n as [|n IH]; intros dest src m Hd Hs Ho; simpl.
  - unfold padded. simpl. by rewrite splice_nil.
  - destruct (lookup_in_range m src ltac:(lia)) as (v & Ev).
    rewrite (bind_Ok _ _ _ _ _ (load_run _ _ _ Ev)).
    rewrite (sub_S _ _ _ _ Ev). destruct (decide (v = 0)) as [->|Hv].
    + rewrite decide_False by tauto. rewrite padded_nul.
      exact (fill_nul_run (S n) dest m Hd).
    + rewrite decide_True by done.
      erewrite bind_Ok by (apply store_run; lia).
      rewrite IH by (rewrite ?length_insert; lia).
      rewrite sub_insert_ne by lia.
      rewrite splice_cons by (rewrite length_padded; lia). by rewrite padded_S.
Qed.

Lemma strlen_loop_run s m k fuel i :
  (s + i + length k < length m)%nat → (length k < fuel)%nat →
  sub (s + i) (length k) m = k → 0 ∉ k → m !! (s + i + length k)%nat = Some 0 →
  strlen_loop fuel s i m = Ok ((i + length k)%nat, m).
Proof.
  revert fuel i. induction k as [|c k IH]; intros [|fuel] i Hl Hf Hsub Hnul Hend;
    simpl in *; try lia.
  - rewrite Nat.add_0_r in *. rewrite (bind_Ok _ _ _ _ _ (load_run _ _ _ Hend)).
    by rewrite decide_False by tauto.
  - destruct (lookup_in_range m (s + i)%nat ltac:(lia)) as (v & Ev).
    rewrite (sub_S _ _ _ _ Ev) in Hsub. injection Hsub as -> Hsub.
    rewrite (bind_Ok _ _ _ _ _ (load_run _ _ _ Ev)).
    apply not_elem_of_cons in Hnul as [Hc Hnul].
    rewrite decide_True by congruence. rewrite (IH fuel (S i)).
    + do 2 f_equal. lia.
    + lia.
    + lia.
    + by replace (s + S i)%nat with (S (s + i)) by lia.
    + done.
    + by replace (s + S i + length k)%nat with (s + i + S (length k))%nat by lia.
Qed.

Lemma cstr_no_nul l : 0 ∉ cstr l.
Proof.
  induction l as [|c l IH]; simpl; [apply not_elem_of_nil|].
  case_decide; [apply not_elem_of_nil|]. apply not_elem_of_cons. split; [congruence|done].
Qed.

Lemma cstr_prefix l : cstr l = take (length (cstr l)) l.
Proof.
  induction l as [|c l IH]; simpl; [done|]. case_decide; simpl; [done|]. by f_equal.
Qed.

(** Copying a string that fits with [strncpy] into a buffer of [n] bytes leaves exactly
    the string followed by NULs up to the end of the buffer (so no byte of what was there
    before survives), changes nothing else, and [strlen] of the copy is the length of the
    string. *)
Theorem strncpy_strlen_roundtrip dest src n m :
  (dest + n ≤ length m)%nat → (src + n ≤ length m)%nat →
  (dest + n ≤ src ∨ src + n ≤ dest)%nat →
  (length (cstr (sub src n m)) < n)%nat →
  ∃ m', strncpy dest src n m = Ok (tt, m') ∧
    m' = splice dest (padded n (sub src n m)) m ∧
    strlen dest m' = Ok (length (cstr (sub src n m)), m').
Proof.
  intros Hd Hs Ho Hfit. eexists. split; [by apply strncpy_run|]. split; [done|].
  set (s := cstr (sub src n m)) in *. set (m' := splice _ _ _).
  assert (Hm' : length m' = length m).
  { apply length_splice. rewrite length_padded. lia. }
  assert (Hp : padded n (sub src n m) = s ++ replicate (n - length s) 0).
  { unfold padded, s. unfold sub at 1. rewrite take_take, Nat.min_id. fold (sub src n m).
    do 3 f_equal. unfold sub. by rewrite take_take, Nat.min_id. }
  unfold strlen. rewrite (strlen_loop_run dest m' s) with (i := 0%nat); [done| | | | |].
  - rewrite Hm'. lia.
  - rewrite Hm'. lia.
  - rewrite Nat.add_0_r. apply list_eq_length; [rewrite length_sub; lia|].
    rewrite length_sub by lia. intros i Hi. rewrite lookup_sub by done. unfold m'.
    rewrite lookup_splice by (rewrite length_padded; lia). rewrite length_padded.
    rewrite decide_True by lia. rewrite Hp, lookup_app_l by lia. f_equal. lia.
  - apply cstr_no_nul.
  - unfold m'. rewrite lookup_splice by (rewrite length_padded; lia).
    rewrite length_padded. rewrite decide_True by lia.
    rewrite Hp, lookup_app_r by lia. apply lookup_replicate_2. lia.
Qed.

Lemma strncpy_strlen_roundtrip_witness :
  ∃ m', strncpy 4 0 4 [104; 105; 0; 7; 9; 9; 9; 9] = Ok (tt, m') ∧
    m' = [104; 105; 0; 7; 104; 105; 0; 0] ∧ strlen 4 m' = Ok (2%nat, m').
Proof.
  exact (strncpy_strlen_roundtrip 4 0 4 [104; 105; 0; 7; 9; 9; 9; 9]
    ltac:(simpl; lia) ltac:(simpl; lia) ltac:(lia) ltac:(vm_compute; lia)).
Defined.
