(* ===== verification/Format.v ===== *)
(** * [common/format.c], [kernel/printk.c]: formatted output

    The state is what [va_arg] has left to hand out and the characters given to
    [put_char] so far.  A format string is the list of its characters before the NUL. *)

From Stdlib Require Import ZArith Lia.
From stdpp Require Import strings.
From S2P Require Import Prelude Words Sync.

(** the characters of a string literal *)
Fixpoint chars (s : string) : list Z :=
  match s with
  | EmptyString => []
  | String c s => Z.of_N (Ascii.N_of_ascii c) :: chars s
  end.

(** One variadic argument: an integer or a pointer to a string (which may be null). *)
Inductive va := VInt (z : Z) | VStr (s : option (list Z)).

Record fmtst := mkFmt { va_args : list va; out : list Z }.

Definition put_char (c : Z) : M fmtst unit :=
  modify (λ s, mkFmt (va_args s) (out s ++ [c])).
Definition next_arg : M fmtst va :=
  s ← gets id;
  match va_args s with
  | [] => fault
  | a :: args => modify (λ s, mkFmt args (out s));; mret a
  end.
Definition va_int : M fmtst Z :=
  a ← next_arg; match a with VInt z => mret z | VStr _ => fault end.
Definition va_str : M fmtst (option (list Z)) :=
  a ← next_arg; match a with VStr s => mret s | VInt _ => fault end.

Definition digit : list Z := chars "0123456789abcdef".

(** [do { *pos++ = digit[v % base]; } while (v /= base);] with [room] bytes left in [buf]:
    the digits, the least significant first. *)
Fixpoint int_digits (room : nat) (v base : Z) : M fmtst (list Z) :=
  match room with
  | O => fault
  | S room =>
      d ← getopt (λ _, digit !! Z.to_nat (v mod base));
      if decide (v / base ≠ 0) then
        ds ← int_digits room (v / base) base; mret (d :: ds)
      else mret [d]
  end.

Definition print_int (u : Z) (base : Z) (is_signed : bool) : M fmtst unit :=
  v ← (if is_signed && (u <? 0)
       then put_char 45;; mret (u64 (- u64 u))
       else mret (u64 u));
  buf ← int_digits 64 v base;
  for_each (rev buf) put_char.

(** The [_INT_CASE] lines, in their order. *)
Record int_case := mkCase { ident : list Z; conv : Z → Z; cbase : Z; csign : bool }.
Definition int_cases : list int_case :=
  [ mkCase (chars "u") u32 10 false;
    mkCase (chars "llu") u64 10 false;
    mkCase (chars "d") i32 10 true;
    mkCase (chars "lld") i64 10 true;
    mkCase (chars "x") u32 16 false;
    mkCase (chars "llx") u64 16 false;
    mkCase (chars "p") u64 16 false;
    mkCase (chars "zu") u64 10 false;
    mkCase (chars "zd") i64 10 true ].

(** [strncmp(pos, ident, sizeof(ident) - 1) == 0] *)
Fixpoint starts_with (id pos : list Z) : bool :=
  match id, pos with
  | [], _ => true
  | a :: id, b :: pos => (a =? b) && starts_with id pos
  | _, [] => false
  end.
Definition matching_case (pos : list Z) : option int_case :=
  List.find (λ c, starts_with (ident c) pos) int_cases.

Fixpoint vformat (fuel : nat) (fmt : list Z) : M fmtst unit :=
  match fuel with
  | O => nofuel
  | S fuel =>
      match fmt with
      | [] => mret tt
      | c :: pos =>
          if decide (c = 37) then
            if decide (pos !! 0%nat = Some 37) then put_char 37;; vformat fuel (drop 1 pos)
            else if decide (pos !! 0%nat = Some 99) then
              a ← va_int; put_char (u8 a);; vformat fuel (drop 1 pos)
            else if decide (pos !! 0%nat = Some 115) then
              s ← va_str;
              for_each (default (chars "(null)") s) put_char;;
              vformat fuel (drop 1 pos)
            else
              match matching_case pos with
              | Some k =>
                  a ← va_int;
                  print_int (i64 (conv k a)) (cbase k) (csign k);;
                  vformat fuel (drop (length (ident k)) pos)
              | None => put_char c;; vformat fuel pos
              end
          else put_char c;; vformat fuel pos
      end
  end.

(** [format] collects the arguments and calls [vformat]; each round of the loop consumes at
    least one character. *)
Definition format (fmt : list Z) : M fmtst unit := vformat (S (length fmt)) fmt.

(** ** [printk]: the same under [printk_lock] *)

Record printkst := mkPrintk { printk_locked : bool; console_out : list Z }.

Definition printk_lock : SpinLock printkst :=
  mkSpinLock printk_locked (λ b s, mkPrintk b (console_out s)).

Definition printk_init : M printkst unit := init_spinlock printk_lock.

Definition vprintf (fmt : list Z) (args : list va) : M printkst unit :=
  acquire_spinlock printk_lock;;
  s ← gets id;
  match format fmt (mkFmt args (console_out s)) with
  | Ok (_, f) => modify (λ s, mkPrintk (printk_locked s) (out f))
  | Panic => panic | Fault => fault | Sleep => sleeping | Spin => spin | NoFuel => nofuel
  end;;
  release_spinlock printk_lock.
Definition printk (fmt : list Z) (args : list va) : M printkst unit := vprintf fmt args.

(** ** Reading numbers back *)

Definition digit_val (c : Z) : Z := if c <? 58 then c - 48 else c - 87.

Definition parse_digits (base : Z) (s : list Z) : Z :=
  fold_left (λ acc c, acc * base + digit_val c) s 0.

Definition parse_int (base : Z) (s : list Z) : Z :=
  match s with
  | c :: s' => if c =? 45 then - parse_digits base s' else parse_digits base s
  | [] => 0
  end.

(** ** Lemmas on numbers *)

(** the value of digit characters, the least significant first *)
Fixpoint digits_value (base : Z) (ds : list Z) : Z :=
  match ds with
  | [] => 0
  | d :: ds => digit_val d + base * digits_value base ds
  end.

Lemma parse_digits_app base l d :
  parse_digits base (l ++ [d]) = parse_digits base l * base + digit_val d.
Proof. unfold parse_digits. by rewrite fold_left_app. Qed.

Lemma parse_digits_rev base ds : parse_digits base (rev ds) = digits_value base ds.
Proof.
  induction ds as [|d ds IH]; [done|]. simpl rev. rewrite parse_digits_app, IH. simpl. lia.
Qed.

Lemma digit_lookup k :
  0 ≤ k < 16 → ∃ c, digit !! Z.to_nat k = Some c ∧ digit_val c = k ∧ 48 ≤ c.
Proof.
  intros Hk. assert (k ∈ zseq 0 16) as Hin by (apply elem_of_zseq; lia).
  revert k Hk Hin. cut (Forall (λ k, ∃ c, digit !! Z.to_nat k = Some c ∧
    digit_val c = k ∧ 48 ≤ c) (zseq 0 16)).
  { intros H k _ Hin. rewrite Forall_forall in H. by apply H. }
  simpl. repeat first [apply Forall_nil_2 | apply Forall_cons_2;
    [eexists; split; [reflexivity|]; split; [reflexivity|vm_compute; discriminate]|]].
Qed.

Lemma int_digits_run s base room v :
  2 ≤ base ≤ 16 → 0 ≤ v < base ^ Z.of_nat room → (0 < room)%nat →
  ∃ ds, int_digits room v base s = Ok (ds, s) ∧ digits_value base ds = v ∧
    (0 < length ds ≤ room)%nat ∧ Forall (λ c, 48 ≤ c) ds ∧
    (last (map digit_val ds) = Some 0 → length ds = 1%nat).
Proof.
  intros Hb. revert v. induction room as [|room IH]; intros v Hv Hr; [lia|]. simpl.
  pose proof (Z.mod_pos_bound v base ltac:(lia)). pose proof (Z.div_mod v base ltac:(lia)).
  destruct (digit_lookup (v mod base)) as (c & Ec & Hc & Hc'); [lia|].
  erewrite bind_Ok by (apply getopt_run; exact Ec).
  destruct (decide (v / base ≠ 0)) as [Hne|Heq].
  - assert (v / base < base ^ Z.of_nat room) as Hlt.
    { apply Z.div_lt_upper_bound; [lia|].
      rewrite <-Z.pow_succ_r by lia. rewrite <-Nat2Z.inj_succ. lia. }
    destruct (IH (v / base)) as (ds & E & Hval & Hlen & Hall & Hlast).
    { split; [|done]. apply Z.div_pos; lia. }
    { destruct room; [|lia]. simpl in Hlt.
      assert (0 ≤ v / base) by (apply Z.div_pos; lia). lia. }
    rewrite (bind_Ok _ _ _ _ _ E). eexists; split; [done|]. simpl.
    split; [rewrite Hval, Hc; lia|]. split; [lia|]. split; [by constructor|].
    destruct ds as [|d ds]; [simpl in Hlen; lia|]. intros Hl0.
    change (last (map digit_val (d :: ds)) = Some 0) in Hl0. specialize (Hlast Hl0).
    destruct ds; [|done]. simpl in *. injection Hl0 as Hl0. lia.
  - eexists; split; [done|]. simpl. split; [|split; [lia|split; [by repeat constructor|done]]].
    rewrite Hc. assert (v / base = 0) as H1 by lia. rewrite H1 in *. lia.
Qed.

Lemma put_char_run c s : put_char c s = Ok (tt, mkFmt (va_args s) (out s ++ [c])).
Proof. done. Qed.

Lemma put_chars_run l s :
  for_each l put_char s = Ok (tt, mkFmt (va_args s) (out s ++ l)).
Proof.
  revert s. induction l as [|c l IH]; intros s; simpl.
  - rewrite app_nil_r. by destruct s.
  - rewrite (bind_Ok _ _ _ _ _ (put_char_run _ _)). rewrite IH. simpl.
    by rewrite <-app_assoc.
Qed.

(** the number [print_int] shows *)
Definition shown (u : Z) (is_signed : bool) : Z := if is_signed then u else u64 u.

Lemma print_int_run u base sg s :
  2 ≤ base ≤ 16 → - 2 ^ 63 ≤ u < 2 ^ 63 →
  ∃ t, print_int u base sg s = Ok (tt, mkFmt (va_args s) (out s ++ t)) ∧
    parse_int base t = shown u sg ∧ (0 < length t ≤ 65)%nat.
Proof.
  intros Hb Hu. unfold print_int.
  assert (∀ v s, 0 ≤ v < 2 ^ 64 → ∃ ds, int_digits 64 v base s = Ok (ds, s) ∧
    digits_value base ds = v ∧ (0 < length ds ≤ 64)%nat ∧ Forall (λ c, 48 ≤ c) ds) as Hd.
  { intros v s' Hv. destruct (int_digits_run s' base 64 v) as (ds & ? & ? & ? & ? & _);
      [lia| |lia|eauto 6].
    split; [lia|]. eapply Z.lt_le_trans; [apply Hv|].
    change (Z.of_nat 64) with 64. apply Z.pow_le_mono_l. lia. }
  destruct (sg && (u <? 0)) eqn:Es.
  - apply andb_prop in Es as [-> Hneg%Z.ltb_lt].
    assert (u64 (- u64 u) = - u) as Habs.
    { unfold u64. change (2 ^ 64) with 18446744073709551616.
      change (2 ^ 63) with 9223372036854775808 in *. zmod. }
    rewrite bind_assoc. rewrite (bind_Ok _ _ _ _ _ (put_char_run _ _)).
    rewrite (bind_Ok _ _ _ _ _ (mret_run _ _)). rewrite Habs.
    edestruct (Hd (- u)) as (ds & E & Hv & Hl & Hf); [lia|].
    rewrite (bind_Ok _ _ _ _ _ E), put_chars_run. simpl.
    exists (45 :: rev ds). split; [by rewrite <-app_assoc|]. simpl.
    rewrite parse_digits_rev, Hv, length_rev. split; [lia|lia].
  - rewrite (bind_Ok _ _ _ _ _ (mret_run _ _)).
    edestruct (Hd (u64 u) s (u64_range u)) as (ds & E & Hv & Hl & Hf).
    rewrite (bind_Ok _ _ _ _ _ E), put_chars_run.
    exists (rev ds). split; [done|]. rewrite length_rev. split; [|lia].
    transitivity (parse_digits base (rev ds)).
    { destruct (rev ds) as [|c t] eqn:Er; [done|]. simpl.
      destruct (Z.eqb_spec c 45); [|done]. rewrite Forall_forall in Hf.
      assert (c ∈ ds) as Hc by (rewrite list_elem_of_In, in_rev, Er; by left).
      specialize (Hf c Hc). simpl in Hf. lia. }
    rewrite parse_digits_rev, Hv. unfold shown. destruct sg; [|done].
    simpl in Es. apply Z.ltb_ge in Es. rewrite u64_id; [done|lia].
Qed.

(** ** A format string as a sequence of directives *)

Inductive piece :=
  | PChar (c : Z)                    (* an ordinary character *)
  | PPercent
  | PArgChar (c : Z)
  | PArgStr (s : option (list Z))
  | PArgInt (k : int_case) (z : Z).

Definition piece_ok (p : piece) : Prop :=
  match p with
  | PChar c => c ≠ 37
  | PArgInt k _ => k ∈ int_cases
  | _ => True
  end.

Definition piece_fmt (p : piece) : list Z :=
  match p with
  | PChar c => [c]
  | PPercent => chars "%%"
  | PArgChar _ => chars "%c"
  | PArgStr _ => chars "%s"
  | PArgInt k _ => 37 :: ident k
  end.

Definition piece_args (p : piece) : list va :=
  match p with
  | PArgChar c => [VInt c]
  | PArgStr s => [VStr s]
  | PArgInt _ z => [VInt z]
  | _ => []
  end.

(** what a directive prints *)
Definition piece_shows (p : piece) (t : list Z) : Prop :=
  match p with
  | PChar c => t = [c]
  | PPercent => t = [37]
  | PArgChar c => t = [u8 c]
  | PArgStr s => t = default (chars "(null)") s
  | PArgInt k z => parse_int (cbase k) t = shown (i64 (conv k z)) (csign k) ∧
                   (0 < length t ≤ 65)%nat
  end.

Lemma matching_case_ident k rest : k ∈ int_cases →
  matching_case (ident k ++ rest) = Some k ∧
  (ident k ++ rest) !! 0%nat ≠ Some 37 ∧ (ident k ++ rest) !! 0%nat ≠ Some 99 ∧
  (ident k ++ rest) !! 0%nat ≠ Some 115 ∧ (cbase k = 10 ∨ cbase k = 16).
Proof.
  intros Hk. unfold int_cases in Hk.
  repeat (apply elem_of_cons in Hk as [->|Hk];
    [simpl; split_and!; first [reflexivity | discriminate | by left | by right]|]).
  by apply elem_of_nil in Hk.
Qed.

Lemma i64_range z : - 2 ^ 63 ≤ i64 z < 2 ^ 63.
Proof.
  unfold i64. pose proof (Z.mod_pos_bound (z + 2 ^ 63) (2 ^ 64) ltac:(lia)). lia.
Qed.

Lemma vformat_piece p fuel rest args o :
  piece_ok p →
  ∃ t, vformat (S fuel) (piece_fmt p ++ rest) (mkFmt (piece_args p ++ args) o) =
       vformat fuel rest (mkFmt args (o ++ t)) ∧ piece_shows p t.
Proof.
  intros Hp. destruct p as [c| |c|s|k z]; cbn [piece_fmt piece_args piece_shows].
  - simpl in Hp. simpl. rewrite decide_False by done. by eexists.
  - by exists [37].
  - by exists [u8 c].
  - simpl. exists (default (chars "(null)") s). split; [|done].
    unfold va_str, next_arg. mred. simpl. by rewrite put_chars_run.
  - destruct (matching_case_ident k rest Hp) as (Hm & H1 & H2 & H3 & Hbase).
    cbn [vformat app]. rewrite decide_True by done.
    do 3 rewrite decide_False by done. rewrite Hm.
    unfold va_int, next_arg. rewrite bind_assoc.
    edestruct (print_int_run (i64 (conv k z)) (cbase k) (csign k) (mkFmt args o))
      as (t & E & Ht & Hl); [lia|apply i64_range|].
    exists t. split; [|done]. mred. simpl. rewrite E. simpl.
    by rewrite drop_app_length.
Qed.

Lemma vformat_pieces ps fuel args o :
  Forall piece_ok ps → (length ps < fuel)%nat →
  ∃ ts, Forall2 piece_shows ps ts ∧
    vformat fuel (ps ≫= piece_fmt) (mkFmt ((ps ≫= piece_args) ++ args) o) =
      Ok (tt, mkFmt args (o ++ concat ts)).
Proof.
  intros Hps. revert fuel o. induction Hps as [|p ps Hp Hps IH]; intros fuel o Hf.
  - exists []. split; [constructor|]. destruct fuel; [simpl in Hf; lia|]. simpl.
    by rewrite app_nil_r.
  - destruct fuel as [|fuel]; [lia|]. simpl in Hf.
    edestruct (vformat_piece p fuel (ps ≫= piece_fmt) ((ps ≫= piece_args) ++ args) o Hp)
      as (t & E & Ht).
    destruct (IH fuel (o ++ t) ltac:(lia)) as (ts & Hts & E').
    exists (t :: ts). split; [by constructor|].
    rewrite !bind_cons, <-app_assoc, E, E'. simpl. by rewrite <-app_assoc.
Qed.

Lemma length_piece_fmts ps : (length ps ≤ length (ps ≫= piece_fmt))%nat.
Proof.
  induction ps as [|p ps IH]; [done|]. rewrite bind_cons, length_app. simpl.
  destruct p; simpl; lia.
Qed.

(** ** Properties *)

(** [_print_int] never overruns its 64-byte buffer, and the text it prints, read back as
    a number of the same base, is the number it was given: the signed value when
    [is_signed], the 64-bit unsigned one otherwise (the most negative number included). *)
Theorem print_int_roundtrip u base sg s :
  2 ≤ base ≤ 16 → - 2 ^ 63 ≤ u < 2 ^ 63 →
  ∃ t, print_int u base sg s = Ok (tt, mkFmt (va_args s) (out s ++ t)) ∧
    parse_int base t = (if sg then u else u64 u) ∧ (0 < length t ≤ 65)%nat.
Proof. apply print_int_run. Qed.

Lemma print_int_roundtrip_witness :
  ∃ t, print_int (- 2 ^ 63) 10 true (mkFmt [] []) = Ok (tt, mkFmt [] t) ∧
    parse_int 10 t = - 2 ^ 63 ∧ (0 < length t ≤ 65)%nat.
Proof.
  exact (print_int_roundtrip (- 2 ^ 63) 10 true (mkFmt [] []) ltac:(lia) ltac:(lia)).
Defined.

(** C20: [printk] with a format string made of ordinary characters and directives, and the
    arguments the directives ask for, terminates, prints the concatenation of what each
    directive stands for, in order, and leaves [printk_lock] released. *)
Theorem printk_correct ps s :
  Forall piece_ok ps → printk_locked s = false →
  ∃ ts, Forall2 piece_shows ps ts ∧
    printk (ps ≫= piece_fmt) (ps ≫= piece_args) s =
      Ok (tt, mkPrintk false (console_out s ++ concat ts)).
Proof.
  intros Hps Hl.
  destruct (vformat_pieces ps (S (length (ps ≫= piece_fmt))) [] (console_out s) Hps)
    as (ts & Hts & E).
  { pose proof (length_piece_fmts ps). lia. }
  rewrite app_nil_r in E. exists ts. split; [done|]. unfold printk, vprintf.
  rewrite (bind_Ok _ _ _ _ _ (acquire_spinlock_run printk_lock s Hl)).
  rewrite (bind_Ok _ _ _ _ _ (gets_run _ _)). unfold format. simpl console_out.
  change (console_out (id _)) with (console_out s). rewrite E. done.
Qed.

Lemma printk_correct_witness :
  ∃ ts, Forall2 piece_shows [PChar 97; PArgInt (mkCase (chars "d") i32 10 true) (-7)] ts ∧
    printk (chars "a%d") [VInt (-7)] (mkPrintk false []) =
      Ok (tt, mkPrintk false (concat ts)).
Proof.
  refine (printk_correct [PChar 97; PArgInt (mkCase (chars "d") i32 10 true) (-7)]
    (mkPrintk false []) _ eq_refl).
  constructor; [discriminate|]. constructor; [|constructor].
  unfold piece_ok, int_cases. do 2 right. left.
Defined.
