(* ===== verification/Layout.v ===== *)
(** * [fs/defines.h]: on-disk structures

    The structures of the file system with their fields as numbers, and how they lie in the
    bytes of a block (little endian, no padding is needed). *)

From Stdlib Require Import ZArith Lia.
From S2P Require Import Prelude Words.

Definition BLOCK_SIZE : Z := 512.
Definition LOG_MAX_SIZE : Z := (BLOCK_SIZE - 8) / 8.
Definition INODE_NUM_DIRECT : Z := 12.
Definition INODE_NUM_INDIRECT : Z := BLOCK_SIZE / 4.
Definition INODE_PER_BLOCK : Z := BLOCK_SIZE / 64.
Definition INODE_MAX_BLOCKS : Z := INODE_NUM_DIRECT + INODE_NUM_INDIRECT.
Definition INODE_MAX_BYTES : Z := INODE_MAX_BLOCKS * BLOCK_SIZE.
Definition FILE_NAME_MAX_LENGTH : Z := 14.
Definition INODE_INVALID : Z := 0.
Definition INODE_DIRECTORY : Z := 1.
Definition INODE_REGULAR : Z := 2.
Definition INODE_DEVICE : Z := 3.
Definition ROOT_INODE_NO : Z := 1.
Definition BIT_PER_BLOCK : Z := BLOCK_SIZE * 8.
Definition FSSIZE : Z := 1000.

Record SuperBlock := mkSuper {
  sb_num_blocks : Z;
  sb_num_data_blocks : Z;
  sb_num_inodes : Z;
  sb_num_log_blocks : Z;
  sb_log_start : Z;
  sb_inode_start : Z;
  sb_bitmap_start : Z }.

Record InodeEntry := mkInodeEntry {
  type : Z;
  major : Z;
  minor : Z;
  num_links : Z;
  num_bytes : Z;
  addrs : list Z;
  indirect : Z }.

Record DirEntry := mkDirEntry { inode_no : Z; name : list Z }.

Record LogHeader := mkLogHeader { lh_num_blocks : Z; lh_block_no : list Z }.

(** An [IndirectBlock] is its array [addrs]. *)
Definition IndirectBlock := list Z.

(** ** Bytes *)

Definition enc_super (sb : SuperBlock) : list Z :=
  enc_words 4 [sb_num_blocks sb; sb_num_data_blocks sb; sb_num_inodes sb;
    sb_num_log_blocks sb; sb_log_start sb; sb_inode_start sb; sb_bitmap_start sb].
Definition dec_super (b : list Z) : SuperBlock :=
  match dec_words 4 7 b with
  | [a1; a2; a3; a4; a5; a6; a7] => mkSuper a1 a2 a3 a4 a5 a6 a7
  | _ => mkSuper 0 0 0 0 0 0 0
  end.

Definition enc_inode (e : InodeEntry) : list Z :=
  enc_words 2 [type e; major e; minor e; num_links e] ++
  enc_words 4 (num_bytes e :: addrs e ++ [indirect e]).
Definition dec_inode (b : list Z) : InodeEntry :=
  match dec_words 2 4 b, dec_words 4 14 (drop 8 b) with
  | [t; mj; mi; nl], nb :: rest =>
      mkInodeEntry t mj mi nl nb (take 12 rest) (nth 12 rest 0)
  | _, _ => mkInodeEntry 0 0 0 0 0 [] 0
  end.

Definition enc_dirent (d : DirEntry) : list Z := le_enc 2 (inode_no d) ++ name d.
Definition dec_dirent (b : list Z) : DirEntry :=
  mkDirEntry (le_dec (take 2 b)) (take 14 (drop 2 b)).

Definition enc_header (h : LogHeader) : list Z := enc_words 8 (lh_num_blocks h :: lh_block_no h).
Definition dec_header (b : list Z) : LogHeader :=
  match dec_words 8 64 b with
  | n :: l => mkLogHeader n l
  | [] => mkLogHeader 0 []
  end.

Definition enc_indirect (a : IndirectBlock) : list Z := enc_words 4 a.
Definition dec_indirect (b : list Z) : IndirectBlock := dec_words 4 128 b.

(** ** Well-formed structures: every field fits its width *)

Record wf_super (sb : SuperBlock) : Prop := {
  wf_sb : Forall (word_ok 4) [sb_num_blocks sb; sb_num_data_blocks sb; sb_num_inodes sb;
    sb_num_log_blocks sb; sb_log_start sb; sb_inode_start sb; sb_bitmap_start sb] }.

Record wf_inode (e : InodeEntry) : Prop := {
  wf_small : Forall (word_ok 2) [type e; major e; minor e; num_links e];
  wf_bytes : word_ok 4 (num_bytes e);
  wf_addrs : Forall (word_ok 4) (addrs e);
  wf_addrs_len : length (addrs e) = 12%nat;
  wf_indirect : word_ok 4 (indirect e) }.

Record wf_dirent (d : DirEntry) : Prop := {
  wf_ino : word_ok 2 (inode_no d);
  wf_name : bytes (name d);
  wf_name_len : length (name d) = 14%nat }.

Record wf_header (h : LogHeader) : Prop := {
  wf_lh_num : word_ok 8 (lh_num_blocks h);
  wf_lh_blocks : Forall (word_ok 8) (lh_block_no h);
  wf_lh_len : length (lh_block_no h) = 63%nat }.

(** a whole block *)
Definition block_ok (b : list Z) : Prop := bytes b ∧ length b = 512%nat.

#[global] Instance block_ok_dec b : Decision (block_ok b).
Proof. unfold block_ok, bytes. apply _. Defined.

(** ** Lemmas *)

Lemma length_enc_inode e : length (addrs e) = 12%nat → length (enc_inode e) = 64%nat.
Proof.
  intros H. unfold enc_inode. rewrite length_app, !length_enc_words. simpl.
  rewrite length_app. simpl. lia.
Qed.

Lemma bytes_enc_inode e : bytes (enc_inode e).
Proof. unfold enc_inode. apply bytes_app. split; apply bytes_enc_words. Qed.

Lemma dec_enc_inode_app e rest : wf_inode e → dec_inode (enc_inode e ++ rest) = e.
Proof.
  intros [H1 H2 H3 H4 H5]. unfold dec_inode, enc_inode. rewrite <-app_assoc.
  pose proof (dec_enc_words 2 [type e; major e; minor e; num_links e]
    (enc_words 4 (num_bytes e :: addrs e ++ [indirect e]) ++ rest) H1) as E1.
  cbn [length] in E1. rewrite E1.
  rewrite drop_app_length' by (by rewrite length_enc_words).
  pose proof (dec_enc_words 4 (num_bytes e :: addrs e ++ [indirect e]) rest) as E2.
  cbn [length] in E2. rewrite length_app, H4 in E2. cbn [length Nat.add] in E2.
  rewrite E2.
  - rewrite take_app_length' by done.
    rewrite app_nth2, H4 by lia. simpl. by destruct e.
  - constructor; [done|]. apply Forall_app. split; [done|]. by constructor.
Qed.

Lemma dec_enc_inode e : wf_inode e → dec_inode (enc_inode e) = e.
Proof. intros H. rewrite <-(app_nil_r (enc_inode e)). by apply dec_enc_inode_app. Qed.

Lemma dec_inode_wf b : bytes b → length b = 64%nat → wf_inode (dec_inode b).
Proof.
  intros Hb Hl. unfold dec_inode.
  pose proof (dec_words_ok 2 4 (take 8 b) (bytes_take _ _ Hb)
    ltac:(rewrite length_take; lia)) as H1.
  pose proof (dec_words_ok 4 14 (drop 8 b) (bytes_drop _ _ Hb)
    ltac:(rewrite length_drop; lia)) as H2.
  assert (dec_words 2 4 (take 8 b) = dec_words 2 4 b) as E.
  { simpl. unfold drop at 1. do 64 (destruct b as [|? b]; [simpl in Hl; lia|]). done. }
  rewrite E in H1. clear E. simpl (dec_words 2 4 b) in *.
  pose proof (length_dec_words 4 14 (drop 8 b)) as Hlen.
  destruct (dec_words 4 14 (drop 8 b)) as [|nb rest]; [done|].
  inversion H2 as [|? ? Hnb Hrest]; subst. simpl in Hlen. split; simpl.
  - done.
  - done.
  - by apply Forall_take.
  - rewrite length_take. lia.
  - rewrite Forall_lookup in Hrest. apply (Hrest 12%nat).
    destruct (nth_lookup_or_length rest 12 0); [done|lia].
Qed.

Lemma enc_dec_inode b : bytes b → length b = 64%nat → enc_inode (dec_inode b) = b.
Proof.
  intros Hb Hl. unfold dec_inode.
  pose proof (enc_dec_words 2 4 (take 8 b) (bytes_take _ _ Hb)
    ltac:(rewrite length_take; lia)) as E1.
  pose proof (enc_dec_words 4 14 (drop 8 b) (bytes_drop _ _ Hb)
    ltac:(rewrite length_drop; lia)) as E2.
  assert (dec_words 2 4 (take 8 b) = dec_words 2 4 b) as E.
  { simpl. do 64 (destruct b as [|? b]; [simpl in Hl; lia|]). done. }
  rewrite E in E1. simpl (dec_words 2 4 b) in *.
  pose proof (length_dec_words 4 14 (drop 8 b)) as Hlen.
  destruct (dec_words 4 14 (drop 8 b)) as [|nb rest]; [done|]. simpl in Hlen.
  unfold enc_inode. cbn [type major minor num_links num_bytes addrs indirect].
  rewrite E1. replace (take 12 rest ++ [nth 12 rest 0]) with rest.
  { rewrite E2. apply take_drop. }
  rewrite <-(take_drop 12 rest) at 1. f_equal.
  assert (length (drop 12 rest) = 1%nat) as H1 by (rewrite length_drop; lia).
  destruct (drop 12 rest) as [|x [|? ?]] eqn:Ed; try done. f_equal.
  rewrite <-(take_drop 12 rest), Ed, app_nth2; rewrite length_take; [|lia].
  by replace (12 - 12 `min` length rest)%nat with 0%nat by lia.
Qed.

Lemma length_enc_dirent d : length (name d) = 14%nat → length (enc_dirent d) = 16%nat.
Proof. intros H. unfold enc_dirent. by rewrite length_app, length_le_enc, H. Qed.

Lemma dec_enc_dirent d : wf_dirent d → dec_dirent (enc_dirent d) = d.
Proof.
  intros [H1 H2 H3]. unfold dec_dirent, enc_dirent.
  rewrite take_app_length', drop_app_length' by (by rewrite length_le_enc).
  rewrite le_dec_enc by done. rewrite take_ge by lia. by destruct d.
Qed.

Lemma dec_dirent_wf b : bytes b → length b = 16%nat → wf_dirent (dec_dirent b).
Proof.
  intros Hb Hl. split; simpl.
  - pose proof (le_dec_range (take 2 b) (bytes_take _ _ Hb)) as H.
    by rewrite length_take_le in H by lia.
  - by apply bytes_take, bytes_drop.
  - rewrite length_take, length_drop. lia.
Qed.

Lemma enc_dec_dirent b : bytes b → length b = 16%nat → enc_dirent (dec_dirent b) = b.
Proof.
  intros Hb Hl. unfold enc_dirent, dec_dirent. cbn [inode_no name].
  pose proof (le_enc_dec (take 2 b) (bytes_take _ _ Hb)) as E.
  rewrite length_take_le in E by lia. rewrite E. rewrite (take_ge (drop 2 b)) by (rewrite length_drop; lia). apply take_drop.
Qed.

Lemma length_enc_header h : length (lh_block_no h) = 63%nat → length (enc_header h) = 512%nat.
Proof. intros H. unfold enc_header. rewrite length_enc_words. simpl. lia. Qed.

Lemma block_ok_enc_header h : length (lh_block_no h) = 63%nat → block_ok (enc_header h).
Proof. split; [apply bytes_enc_words|by apply length_enc_header]. Qed.

Lemma dec_enc_header h : wf_header h → dec_header (enc_header h) = h.
Proof.
  intros [H1 H2 H3]. unfold dec_header, enc_header.
  pose proof (dec_enc_words 8 (lh_num_blocks h :: lh_block_no h) []
    ltac:(by constructor)) as E.
  rewrite app_nil_r in E. cbn [length] in E. rewrite H3 in E. rewrite E. by destruct h.
Qed.

Lemma dec_header_wf b : block_ok b → wf_header (dec_header b).
Proof.
  intros [Hb Hl]. unfold dec_header.
  pose proof (dec_words_ok 8 64 b Hb ltac:(lia)) as H.
  pose proof (length_dec_words 8 64 b) as Hlen.
  destruct (dec_words 8 64 b) as [|n l]; [done|]. inversion H; subst.
  split; simpl; [done|done|]. simpl in Hlen. lia.
Qed.

Lemma enc_dec_header b : block_ok b → enc_header (dec_header b) = b.
Proof.
  intros [Hb Hl]. unfold dec_header, enc_header.
  pose proof (enc_dec_words 8 64 b Hb ltac:(lia)) as H.
  pose proof (length_dec_words 8 64 b) as Hlen.
  by destruct (dec_words 8 64 b) as [|n l].
Qed.

Lemma dec_enc_super sb rest : wf_super sb → dec_super (enc_super sb ++ rest) = sb.
Proof.
  intros [H]. unfold dec_super, enc_super.
  pose proof (dec_enc_words 4 _ rest H) as E. cbn [length] in E. rewrite E. by destruct sb.
Qed.

Lemma dec_enc_indirect a :
  Forall (word_ok 4) a → length a = 128%nat → dec_indirect (enc_indirect a) = a.
Proof.
  intros H Hl. unfold dec_indirect, enc_indirect.
  pose proof (dec_enc_words 4 a [] H) as E. by rewrite app_nil_r, Hl in E.
Qed.

Lemma enc_dec_indirect b : block_ok b → enc_indirect (dec_indirect b) = b.
Proof. intros [Hb Hl]. by apply enc_dec_words. Qed.

(** ** Properties *)

(** What the kernel and [mkfs] store in a structure is what they read back from the bytes
    on disk, and every well-sized piece of disk is the encoding of the structure read from
    it: for inode entries (64 bytes), directory entries (16), log headers and indirect
    blocks (512); the super block survives the padding of its block. *)
Theorem ondisk_roundtrip e d h a sb pad b64 b16 b512 :
  wf_inode e → wf_dirent d → wf_header h →
  Forall (word_ok 4) a → length a = 128%nat → wf_super sb →
  bytes b64 → length b64 = 64%nat → bytes b16 → length b16 = 16%nat → block_ok b512 →
  dec_inode (enc_inode e) = e ∧ enc_inode (dec_inode b64) = b64 ∧
  dec_dirent (enc_dirent d) = d ∧ enc_dirent (dec_dirent b16) = b16 ∧
  dec_header (enc_header h) = h ∧ enc_header (dec_header b512) = b512 ∧
  dec_indirect (enc_indirect a) = a ∧ enc_indirect (dec_indirect b512) = b512 ∧
  dec_super (enc_super sb ++ pad) = sb.
Proof.
  intros. split_and!; auto using dec_enc_inode, enc_dec_inode, dec_enc_dirent,
    enc_dec_dirent, dec_enc_header, enc_dec_header, dec_enc_indirect, enc_dec_indirect,
    dec_enc_super.
Qed.

Lemma ondisk_roundtrip_witness :
  dec_inode (enc_inode (mkInodeEntry 2 0 0 1 700 (zseq 100 12) 112)) =
    mkInodeEntry 2 0 0 1 700 (zseq 100 12) 112.
Proof.
  refine (proj1 (ondisk_roundtrip (mkInodeEntry 2 0 0 1 700 (zseq 100 12) 112)
    (mkDirEntry 1 (replicate 14 0)) (mkLogHeader 1 (zseq 0 63)) (zseq 0 128)
    (mkSuper 1000 1 2 63 2 65 90) [] (replicate 64 1) (replicate 16 1) (replicate 512 1)
    _ _ _ _ _ _ _ _ _ _ _)).
  all: first [reflexivity | by_decision | split; first [reflexivity | by_decision]].
Defined.
