(* ===== verification/Cache.v ===== *)
(** * [fs/cache.c]: the block cache, the log and the block bitmap

    The state is the cache's static variables, the [Block]s it has allocated (named by
    address), the [OpContext]s of its callers and the disk behind [BlockDevice], with every
    write the device was given. No other thread runs during one of the calls below;
    several operations may be between their [begin_op] and [end_op], [outstanding] counts
    them. *)

From Stdlib Require Import ZArith Lia.
From S2P Require Import Prelude Words Sync Layout.

Definition OP_MAX_NUM_BLOCKS : Z := 10.
Definition EVICTION_THRESHOLD : Z := 20.
Definition SWAP_START : Z := 800.
Definition SWAP_END : Z := 1000.

(** ** State *)

Record Block := mkBlock {
  block_no : Z;
  acquired : bool;
  pinned : bool;
  block_lock : Semaphore;
  valid : bool;
  data : list Z }.

(** [head] lists the addresses of the cached blocks, most recently used first; [next] is the
    address [kalloc] hands out next; [ctxs] holds [rm] of every live [OpContext]. *)
Record cachest := mkCache {
  lock : bool;
  loglock : bool;
  bitmaplock : bool;
  blocks : gmap Z Block;
  head : list Z;
  next : Z;
  blocknum : Z;
  header : LogHeader;
  iscommit : bool;
  outstanding : Z;
  logsem : Semaphore;
  check : Semaphore;
  ctxs : gmap Z Z;
  inuse : list bool;
  disk : gmap Z (list Z);
  writes : list (Z * list Z) }.

Definition upd_lock (f : bool → bool) (s : cachest) : cachest :=
  mkCache (f (lock s)) (loglock s) (bitmaplock s) (blocks s) (head s) (next s) (blocknum s)
    (header s) (iscommit s) (outstanding s) (logsem s) (check s) (ctxs s) (inuse s) (disk s)
    (writes s).
Definition upd_loglock (f : bool → bool) (s : cachest) : cachest :=
  mkCache (lock s) (f (loglock s)) (bitmaplock s) (blocks s) (head s) (next s) (blocknum s)
    (header s) (iscommit s) (outstanding s) (logsem s) (check s) (ctxs s) (inuse s) (disk s)
    (writes s).
Definition upd_bitmaplock (f : bool → bool) (s : cachest) : cachest :=
  mkCache (lock s) (loglock s) (f (bitmaplock s)) (blocks s) (head s) (next s) (blocknum s)
    (header s) (iscommit s) (outstanding s) (logsem s) (check s) (ctxs s) (inuse s) (disk s)
    (writes s).
Definition upd_blocks (f : gmap Z Block → gmap Z Block) (s : cachest) : cachest :=
  mkCache (lock s) (loglock s) (bitmaplock s) (f (blocks s)) (head s) (next s) (blocknum s)
    (header s) (iscommit s) (outstanding s) (logsem s) (check s) (ctxs s) (inuse s) (disk s)
    (writes s).
Definition upd_head (f : list Z → list Z) (s : cachest) : cachest :=
  mkCache (lock s) (loglock s) (bitmaplock s) (blocks s) (f (head s)) (next s) (blocknum s)
    (header s) (iscommit s) (outstanding s) (logsem s) (check s) (ctxs s) (inuse s) (disk s)
    (writes s).
Definition upd_next (f : Z → Z) (s : cachest) : cachest :=
  mkCache (lock s) (loglock s) (bitmaplock s) (blocks s) (head s) (f (next s)) (blocknum s)
    (header s) (iscommit s) (outstanding s) (logsem s) (check s) (ctxs s) (inuse s) (disk s)
    (writes s).
Definition upd_blocknum (f : Z → Z) (s : cachest) : cachest :=
  mkCache (lock s) (loglock s) (bitmaplock s) (blocks s) (head s) (next s) (f (blocknum s))
    (header s) (iscommit s) (outstanding s) (logsem s) (check s) (ctxs s) (inuse s) (disk s)
    (writes s).
Definition upd_header (f : LogHeader → LogHeader) (s : cachest) : cachest :=
  mkCache (lock s) (loglock s) (bitmaplock s) (blocks s) (head s) (next s) (blocknum s) (f
    (header s)) (iscommit s) (outstanding s) (logsem s) (check s) (ctxs s) (inuse s) (disk
    s) (writes s).
Definition upd_iscommit (f : bool → bool) (s : cachest) : cachest :=
  mkCache (lock s) (loglock s) (bitmaplock s) (blocks s) (head s) (next s) (blocknum s)
    (header s) (f (iscommit s)) (outstanding s) (logsem s) (check s) (ctxs s) (inuse s)
    (disk s) (writes s).
Definition upd_outstanding (f : Z → Z) (s : cachest) : cachest :=
  mkCache (lock s) (loglock s) (bitmaplock s) (blocks s) (head s) (next s) (blocknum s)
    (header s) (iscommit s) (f (outstanding s)) (logsem s) (check s) (ctxs s) (inuse s)
    (disk s) (writes s).
Definition upd_logsem (f : Semaphore → Semaphore) (s : cachest) : cachest :=
  mkCache (lock s) (loglock s) (bitmaplock s) (blocks s) (head s) (next s) (blocknum s)
    (header s) (iscommit s) (outstanding s) (f (logsem s)) (check s) (ctxs s) (inuse s)
    (disk s) (writes s).
Definition upd_check (f : Semaphore → Semaphore) (s : cachest) : cachest :=
  mkCache (lock s) (loglock s) (bitmaplock s) (blocks s) (head s) (next s) (blocknum s)
    (header s) (iscommit s) (outstanding s) (logsem s) (f (check s)) (ctxs s) (inuse s)
    (disk s) (writes s).
Definition upd_ctxs (f : gmap Z Z → gmap Z Z) (s : cachest) : cachest :=
  mkCache (lock s) (loglock s) (bitmaplock s) (blocks s) (head s) (next s) (blocknum s)
    (header s) (iscommit s) (outstanding s) (logsem s) (check s) (f (ctxs s)) (inuse s)
    (disk s) (writes s).
Definition upd_inuse (f : list bool → list bool) (s : cachest) : cachest :=
  mkCache (lock s) (loglock s) (bitmaplock s) (blocks s) (head s) (next s) (blocknum s)
    (header s) (iscommit s) (outstanding s) (logsem s) (check s) (ctxs s) (f (inuse s))
    (disk s) (writes s).
Definition upd_disk (f : gmap Z (list Z) → gmap Z (list Z)) (s : cachest) : cachest :=
  mkCache (lock s) (loglock s) (bitmaplock s) (blocks s) (head s) (next s) (blocknum s)
    (header s) (iscommit s) (outstanding s) (logsem s) (check s) (ctxs s) (inuse s) (f (disk
    s)) (writes s).
Definition upd_writes (f : list (Z * list Z) → list (Z * list Z)) (s : cachest) : cachest :=
  mkCache (lock s) (loglock s) (bitmaplock s) (blocks s) (head s) (next s) (blocknum s)
    (header s) (iscommit s) (outstanding s) (logsem s) (check s) (ctxs s) (inuse s) (disk s)
    (f (writes s)).

Definition set_acquired (v : bool) (b : Block) : Block :=
  mkBlock (block_no b) v (pinned b) (block_lock b) (valid b) (data b).
Definition set_pinned (v : bool) (b : Block) : Block :=
  mkBlock (block_no b) (acquired b) v (block_lock b) (valid b) (data b).
Definition set_block_lock (v : Semaphore) (b : Block) : Block :=
  mkBlock (block_no b) (acquired b) (pinned b) v (valid b) (data b).
Definition set_data (v : list Z) (b : Block) : Block :=
  mkBlock (block_no b) (acquired b) (pinned b) (block_lock b) (valid b) v.

Definition lock_ : SpinLock cachest := mkSpinLock lock (λ b, upd_lock (λ _, b)).
Definition loglock_ : SpinLock cachest := mkSpinLock loglock (λ b, upd_loglock (λ _, b)).
Definition bitmaplock_ : SpinLock cachest :=
  mkSpinLock bitmaplock (λ b, upd_bitmaplock (λ _, b)).

(** a pointer to a [Block] dereferenced: [Fault] when it dangles *)
Definition blk (a : Z) : M cachest Block := getopt (λ s, blocks s !! a).
Definition set_blk (a : Z) (f : Block → Block) : M cachest unit :=
  b ← blk a; modify (upd_blocks <[a := f b]>).

(** what the disk holds at a block nobody has written yet *)
Definition blank : list Z := replicate 512 0.
Definition dread (d : gmap Z (list Z)) (b : Z) : list Z := default blank (d !! b).

Section cache.
Context (sblock : SuperBlock).

(** ** Operations *)

Definition movetohead (p : Z) : M cachest unit :=
modify (upd_head (λ l, p :: detach p l)).

Definition device_write_raw (b : Z) (v : list Z) : M cachest unit :=
modify (λ s, upd_writes (λ w, w ++ [(b, v)]) (upd_disk <[b := v]> s)).

Definition device_read (a : Z) : M cachest unit :=
b ← blk a; d ← gets disk; set_blk a (set_data (dread d (block_no b))).
Definition device_write (a : Z) : M cachest unit :=
b ← blk a; device_write_raw (block_no b) (data b).

Definition read_header : M cachest unit :=
d ← gets disk; modify (upd_header (λ _, dec_header (dread d (sb_log_start sblock)))).
Definition write_header : M cachest unit :=
h ← gets header; device_write_raw (sb_log_start sblock) (enc_header h).

(** [kalloc(sizeof(Block))] with [init_block] *)
Definition init_block : Block := mkBlock 0 false false (init_sem 1) false blank.
Definition alloc_block : M cachest Z :=
a ← gets next;
modify (upd_next (λ n, n + 1));;
modify (upd_blocks <[a := init_block]>);;
mret a.

Definition get_num_cached_blocks : M cachest Z := gets blocknum.

(** [wait_sem(&block->lock)], [post_sem(&block->lock)] *)
Definition block_wait (a : Z) : M cachest bool :=
b ← blk a;
'(r, x) ← run_sem wait_sem (block_lock b);
set_blk a (set_block_lock x);; mret r.
Definition block_post (a : Z) : M cachest unit :=
b ← blk a;
'(_, x) ← run_sem post_sem (block_lock b);
set_blk a (set_block_lock x).

(** the [_for_in_list] loop of [cache_acquire] *)
Fixpoint scan_list (l : list Z) (bno : Z) : M cachest (option Z) :=
match l with
| [] => mret None
| p :: l =>
    now ← blk p;
    if block_no now =? bno then mret (Some p) else scan_list l bno
end.

(** the eviction loop: [l] is the rest of the list from its tail on *)
Fixpoint evict_loop (l : list Z) : M cachest unit :=
match l with
| [] => mret tt
| p :: q =>
    n ← gets blocknum;
    if n <? EVICTION_THRESHOLD then mret tt
    else
      now ← blk p;
      when (negb (acquired now) && negb (pinned now))
        (modify (upd_head (detach p));;
         modify (upd_blocknum (λ n, n - 1));;
         modify (upd_blocks (delete p)));;
      evict_loop q
end.

Definition cache_acquire (bno : Z) : M cachest Z :=
acquire_spinlock lock_;;
l ← gets head;
ans ← scan_list l bno;
match ans with
| Some a =>
    set_blk a (set_acquired true);;
    release_spinlock lock_;;
    f ← block_wait a;
    assert f;;
    acquire_spinlock lock_;;
    movetohead a;;
    release_spinlock lock_;;
    mret a
| None =>
    n ← gets blocknum;
    when (EVICTION_THRESHOLD <=? n) (l ← gets head; evict_loop (reverse l));;
    a ← alloc_block;
    f ← block_wait a;
    assert f;;
    modify (upd_blocknum (λ n, n + 1));;
    set_blk a (λ b, mkBlock bno true (pinned b) (block_lock b) true (data b));;
    release_spinlock lock_;;
    device_read a;;
    acquire_spinlock lock_;;
    modify (upd_head (λ l, a :: l));;
    release_spinlock lock_;;
    mret a
end.

Definition cache_release (a : Z) : M cachest unit :=
acquire_spinlock lock_;;
set_blk a (set_acquired false);;
block_post a;;
release_spinlock lock_.

(** the loop over [header.block_no] of [cache_sync] *)
Definition in_header (h : LogHeader) (bno : Z) : bool :=
bool_decide (bno ∈ take (Z.to_nat (lh_num_blocks h)) (lh_block_no h)).

Definition cache_sync (ctx : option Z) (a : Z) : M cachest unit :=
match ctx with
| None => device_write a
| Some c =>
    acquire_spinlock loglock_;;
    set_blk a (set_pinned true);;
    b ← blk a;
    h ← gets header;
    if in_header h (block_no b) then release_spinlock loglock_
    else
      rm ← getopt (λ s, ctxs s !! c);
      assert (negb ((OP_MAX_NUM_BLOCKS <=? rm) || (LOG_MAX_SIZE <=? lh_num_blocks h)));;
      modify (upd_header (λ h, mkLogHeader (lh_num_blocks h + 1)
        (<[Z.to_nat (lh_num_blocks h) := block_no b]> (lh_block_no h))));;
      modify (upd_ctxs <[c := rm + 1]>);;
      release_spinlock loglock_
end.

Definition copyblockdata (fromblockno toblockno : Z) : M cachest unit :=
from ← cache_acquire fromblockno;
to ← cache_acquire toblockno;
f ← blk from;
set_blk to (set_data (data f));;
cache_sync None to;;
cache_release from;;
cache_release to.

(** [memset(header.block_no, 0, LOG_MAX_SIZE)] clears that many bytes, not words. *)
Definition clear_block_no (l : list Z) : list Z :=
dec_words 8 63 (splice 0 (replicate (Z.to_nat LOG_MAX_SIZE) 0) (enc_words 8 l)).

Definition init_bcache : M cachest unit :=
modify (upd_lock (λ _, false));;
modify (upd_loglock (λ _, false));;
modify (upd_bitmaplock (λ _, false));;
modify (upd_head (λ _, []));;
modify (upd_blocknum (λ _, 0));;
modify (upd_header (λ h, mkLogHeader 0 (lh_block_no h)));;
modify (upd_iscommit (λ _, false));;
modify (upd_outstanding (λ _, 0));;
modify (upd_logsem (λ _, init_sem 0));;
modify (upd_check (λ _, init_sem 0));;
read_header;;
h ← gets header;
for_each (zseq 0 (Z.to_nat (lh_num_blocks h)))
  (λ i, b ← getopt (λ s, lh_block_no (header s) !! Z.to_nat i);
        copyblockdata (sb_log_start sblock + i + 1) b);;
modify (upd_header (λ h, mkLogHeader 0 (clear_block_no (lh_block_no h))));;
write_header.

(** the loop of [cache_begin_op]; alone, a thread that waits with no permit sleeps for ever,
  so [fuel] only has to exceed the permits of [logsem] *)
Fixpoint begin_loop (fuel : nat) : M cachest unit :=
match fuel with
| O => nofuel
| S fuel =>
    s ← gets id;
    if iscommit s || (LOG_MAX_SIZE <? lh_num_blocks (header s) +
                        (outstanding s + 1) * OP_MAX_NUM_BLOCKS) then
      release_spinlock loglock_;;
      '(f, x) ← run_sem wait_sem (logsem s);
      modify (upd_logsem (λ _, x));;
      assert f;;
      acquire_spinlock loglock_;;
      begin_loop fuel
    else mret tt
end.

Definition cache_begin_op (ctx : Z) : M cachest unit :=
acquire_spinlock loglock_;;
modify (upd_ctxs <[ctx := 0]>);;
s ← gets id;
begin_loop (S (Z.to_nat (val (logsem s) + 1)));;
modify (upd_outstanding (λ n, n + 1));;
release_spinlock loglock_.

Definition wake_all (get : cachest → Semaphore) (set : Semaphore → cachest → cachest)
  : M cachest unit :=
x ← gets get;
'(_, x') ← run_sem (post_all_sem (S (length (sleeplist x)))) x;
modify (set x').

Definition cache_end_op (ctx : Z) : M cachest unit :=
acquire_spinlock loglock_;;
c ← gets iscommit;
assert (negb c);;
modify (upd_outstanding (λ n, n - 1));;
o ← gets outstanding;
if 0 <? o then
  x ← gets logsem;
  '(_, x') ← run_sem post_sem x;
  modify (upd_logsem (λ _, x'));;
  release_spinlock loglock_;;
  y ← gets check;
  '(_, y') ← run_sem wait_sem y;
  modify (upd_check (λ _, y'))
else
  modify (upd_iscommit (λ _, true));;
  h ← gets header;
  for_each (zseq 0 (Z.to_nat (lh_num_blocks h)))
    (λ i, release_spinlock loglock_;;
          b ← getopt (λ s, lh_block_no (header s) !! Z.to_nat i);
          copyblockdata b (sb_log_start sblock + i + 1);;
          acquire_spinlock loglock_);;
  release_spinlock loglock_;;
  write_header;;
  acquire_spinlock loglock_;;
  for_each (zseq 0 (Z.to_nat (lh_num_blocks h)))
    (λ i, b ← getopt (λ s, lh_block_no (header s) !! Z.to_nat i);
          now ← cache_acquire b;
          cache_sync None now;;
          set_blk now (set_pinned false);;
          cache_release now);;
  modify (upd_header (λ h, mkLogHeader 0 (lh_block_no h)));;
  release_spinlock loglock_;;
  write_header;;
  acquire_spinlock loglock_;;
  modify (upd_iscommit (λ _, false));;
  wake_all logsem (λ x, upd_logsem (λ _, x));;
  wake_all check (λ x, upd_check (λ _, x));;
  release_spinlock loglock_.

(** ** The bitmap *)

(** the innermost loop of [cache_alloc] over the bits of one byte, from bit [i] on *)
Fixpoint scan_bits (n : nat) (i base temp : Z) : option Z :=
match n with
| O => None
| S n =>
    if base + i <? sb_num_blocks sblock then
      if Z.land temp (Z.shiftl 1 i) =? 0 then Some i else scan_bits n (i + 1) base temp
    else None
end.
(** the loop over the bytes of one bitmap block *)
Fixpoint scan_bytes (n : nat) (add blockstart : Z) (d : list Z) : option (Z * Z) :=
match n with
| O => None
| S n =>
    if blockstart + add * 8 <? sb_num_blocks sblock then
      match d !! Z.to_nat add with
      | None => None
      | Some temp =>
          match scan_bits 8 0 (blockstart + add * 8) temp with
          | Some i => Some (add, i)
          | None => scan_bytes n (add + 1) blockstart d
          end
      end
    else None
end.

(** [mp->data[add] |= (1 << i)] *)
Definition set_bit (add i : Z) (d : list Z) : list Z :=
match d !! Z.to_nat add with
| Some v => <[Z.to_nat add := u8 (Z.lor v (Z.shiftl 1 i))]> d
| None => d
end.

(** the outer loop, [n] bitmap blocks from [blockstart] on *)
Fixpoint alloc_loop (n : nat) (ctx : option Z) (blockstart : Z) : M cachest Z :=
match n with
| O => release_spinlock bitmaplock_;; panic
| S n =>
    if blockstart <? sb_num_blocks sblock then
      mp ← cache_acquire (sb_bitmap_start sblock + blockstart / (BLOCK_SIZE * 8));
      b ← blk mp;
      match scan_bytes 512 0 blockstart (data b) with
      | Some (add, i) =>
          set_blk mp (λ b, set_data (set_bit add i (data b)) b);;
          cache_sync ctx mp;;
          cache_release mp;;
          ans ← cache_acquire (blockstart + add * 8 + i);
          set_blk ans (set_data blank);;
          cache_sync ctx ans;;
          cache_release ans;;
          release_spinlock bitmaplock_;;
          mret (blockstart + add * 8 + i)
      | None => cache_release mp;; alloc_loop n ctx (blockstart + BLOCK_SIZE * 8)
      end
    else release_spinlock bitmaplock_;; panic
end.

Definition cache_alloc (ctx : option Z) : M cachest Z :=
acquire_spinlock bitmaplock_;;
alloc_loop (S (Z.to_nat (sb_num_blocks sblock / (BLOCK_SIZE * 8)))) ctx 0.

Definition cache_free (ctx : option Z) (bno : Z) : M cachest unit :=
acquire_spinlock bitmaplock_;;
mp ← cache_acquire (sb_bitmap_start sblock + bno / (8 * BLOCK_SIZE));
let idx := bno mod (8 * BLOCK_SIZE) in
b ← blk mp;
v ← getopt (λ _, data b !! Z.to_nat (idx / 8));
set_blk mp (set_data (<[Z.to_nat (idx / 8) := u8 (v - Z.shiftl 1 (idx mod 8))]> (data b)));;
cache_sync ctx mp;;
cache_release mp;;
release_spinlock bitmaplock_.

(** ** Swap space *)

Definition free8 (l : list bool) (i : Z) : bool :=
forallb (λ j, negb (nth (Z.to_nat (i + j)) l true)) (zseq 0 8).
Definition mark8 (v : bool) (l : list bool) (i : Z) : list bool :=
fold_left (λ l j, <[Z.to_nat (i + j) := v]> l) (zseq 0 8) l.

Definition find_and_set_8_blocks : M cachest Z :=
l ← gets inuse;
match List.find (free8 l) (zseq 0 (Z.to_nat (SWAP_END - SWAP_START - 8))) with
| Some i => modify (upd_inuse (λ l, mark8 true l i));; mret (SWAP_START + i)
| None => panic
end.

Definition release_8_blocks (bno : Z) : M cachest unit :=
modify (upd_inuse (λ l, mark8 false l (u32 (bno - SWAP_START)))).

End cache.
