(* ===== verification/CacheSpec.v ===== *)
(** * What the block cache promises, and that [fs/cache.c] keeps it

    [crep V H P s]: in state [s] the cache shows its clients the block contents [V] (what a
    block was when last synchronised), the blocks at the addresses in [H] are locked by
    clients and hold the given data, and the blocks numbered in [P] are pinned by the log.
    Every operation on a single block is proved against this view, evictions included. *)

From Stdlib Require Import ZArith Lia.
From S2P Require Import Prelude Words Sync Layout Cache.

(** a total map with one entry changed *)
Definition fupd {A} (V : Z → A) (b : Z) (d : A) : Z → A := λ x, if decide (x = b) then d else V x.

Lemma fupd_eq {A} (V : Z → A) b d : fupd V b d b = d.
Proof. unfold fupd. by rewrite decide_True. Qed.
Lemma fupd_ne {A} (V : Z → A) b d x : x ≠ b → fupd V b d x = V x.
Proof. intros. unfold fupd. by rewrite decide_False. Qed.

Section cachespec.
(** the one block that never goes through the cache: the log header *)
Context (hd : Z).

Record ccore (V : Z → list Z) (H : gmap Z (Z * list Z)) (P : gset Z) (s : cachest) : Prop := {
cr_head : NoDup (head s);
cr_dom : ∀ a, a ∈ head s ↔ is_Some (blocks s !! a);
cr_num : blocknum s = Z.of_nat (length (head s));
cr_fresh : ∀ a, next s ≤ a → blocks s !! a = None;
cr_inj : ∀ a1 a2 b1 b2, blocks s !! a1 = Some b1 → blocks s !! a2 = Some b2 →
  block_no b1 = block_no b2 → a1 = a2;
cr_ok : ∀ a b, blocks s !! a = Some b →
  valid b = true ∧ block_lock b = mkSem (if acquired b then 0 else 1) [] ∧
  (pinned b = true ↔ block_no b ∈ P) ∧
  (if acquired b then H !! a = Some (block_no b, data b)
   else H !! a = None ∧ data b = V (block_no b));
cr_held : ∀ a, is_Some (H !! a) → is_Some (blocks s !! a);
cr_clean : ∀ bno, bno ∉ P → V bno = dread (disk s) bno;
cr_pin : ∀ bno, bno ∈ P → ∃ a b, blocks s !! a = Some b ∧ block_no b = bno;
cr_hidden : ∀ a b, blocks s !! a = Some b → block_no b ≠ hd }.

(** the cache at rest: its spinlock is free *)
Definition crep V H P s : Prop := ccore V H P s ∧ lock s = false.

Lemma ccore_lock V H P s v : ccore V H P s → ccore V H P (upd_lock (λ _, v) s).
Proof. by intros []. Qed.

(** the part of the state [acquire] and [release] leave alone *)
Definition ctl (s : cachest) :=
(loglock s, bitmaplock s, header s, iscommit s, outstanding s, logsem s, check s, ctxs s,
 inuse s, (disk s, writes s)).

Lemma ctl_eq s s' : ctl s' = ctl s →
loglock s' = loglock s ∧ bitmaplock s' = bitmaplock s ∧ header s' = header s ∧
iscommit s' = iscommit s ∧ outstanding s' = outstanding s ∧ logsem s' = logsem s ∧
check s' = check s ∧ ctxs s' = ctxs s ∧ inuse s' = inuse s ∧ disk s' = disk s ∧
writes s' = writes s.
Proof. unfold ctl. intros E. by injection E as -> -> -> -> -> -> -> -> -> -> ->. Qed.

Lemma ctl_intro s s' :
loglock s' = loglock s → bitmaplock s' = bitmaplock s → header s' = header s →
iscommit s' = iscommit s → outstanding s' = outstanding s → logsem s' = logsem s →
check s' = check s → ctxs s' = ctxs s → inuse s' = inuse s → disk s' = disk s →
writes s' = writes s → ctl s' = ctl s.
Proof. unfold ctl. by intros -> -> -> -> -> -> -> -> -> -> ->. Qed.

Lemma ctl_loglock s s' : ctl s' = ctl s → loglock s' = loglock s.
Proof. intros E%ctl_eq. tauto. Qed.
Lemma ctl_bitmaplock s s' : ctl s' = ctl s → bitmaplock s' = bitmaplock s.
Proof. intros E%ctl_eq. tauto. Qed.
Lemma ctl_header s s' : ctl s' = ctl s → header s' = header s.
Proof. intros E%ctl_eq. tauto. Qed.
Lemma ctl_iscommit s s' : ctl s' = ctl s → iscommit s' = iscommit s.
Proof. intros E%ctl_eq. tauto. Qed.
Lemma ctl_outstanding s s' : ctl s' = ctl s → outstanding s' = outstanding s.
Proof. intros E%ctl_eq. tauto. Qed.
Lemma ctl_logsem s s' : ctl s' = ctl s → logsem s' = logsem s.
Proof. intros E%ctl_eq. tauto. Qed.
Lemma ctl_check s s' : ctl s' = ctl s → check s' = check s.
Proof. intros E%ctl_eq. tauto. Qed.
Lemma ctl_ctxs s s' : ctl s' = ctl s → ctxs s' = ctxs s.
Proof. intros E%ctl_eq. tauto. Qed.
Lemma ctl_disk s s' : ctl s' = ctl s → disk s' = disk s.
Proof. intros E%ctl_eq. tauto. Qed.
Lemma ctl_writes s s' : ctl s' = ctl s → writes s' = writes s.
Proof. intros E%ctl_eq. tauto. Qed.

(** Two states are equal when they agree field by field. *)
Lemma cachest_ext s s' : ctl s = ctl s' → lock s = lock s' → blocks s = blocks s' →
head s = head s' → next s = next s' → blocknum s = blocknum s' → s = s'.
Proof.
intros E%ctl_eq ? ? ? ? ?. destruct s, s'; simpl in *. by destruct_and!; subst.
Qed.

(** ** Symbolic execution *)

Lemma blk_run a b s : blocks s !! a = Some b → blk a s = Ok (b, s).
Proof. exact (getopt_run (λ s, blocks s !! a) s b). Qed.
Lemma set_blk_run a f b s :
blocks s !! a = Some b → set_blk a f s = Ok (tt, upd_blocks <[a := f b]> s).
Proof. intros E. unfold set_blk. by rewrite (bind_Ok _ _ _ _ _ (blk_run _ _ _ E)). Qed.

Lemma block_wait_run a b s :
blocks s !! a = Some b → block_lock b = mkSem 1 [] →
block_wait a s = Ok (true, upd_blocks <[a := set_block_lock (mkSem 0 []) b]> s).
Proof.
intros E El. unfold block_wait. rewrite (bind_Ok _ _ _ _ _ (blk_run _ _ _ E)), El.
rewrite (bind_Ok _ _ _ _ _ (run_wait_free 1 s ltac:(lia))).
by rewrite (bind_Ok _ _ _ _ _ (set_blk_run _ _ _ _ E)).
Qed.

Lemma block_wait_sleep a b s :
blocks s !! a = Some b → block_lock b = mkSem 0 [] → block_wait a s = Sleep.
Proof.
intros E El. unfold block_wait. rewrite (bind_Ok _ _ _ _ _ (blk_run _ _ _ E)), El.
unfold mbind, M_bind. by rewrite (run_wait_taken 0) by lia.
Qed.

Lemma block_post_run a b s :
blocks s !! a = Some b → block_lock b = mkSem 0 [] →
block_post a s = Ok (tt, upd_blocks <[a := set_block_lock (mkSem 1 []) b]> s).
Proof.
intros E El. unfold block_post. rewrite (bind_Ok _ _ _ _ _ (blk_run _ _ _ E)), El.
rewrite (bind_Ok _ _ _ _ _ (run_post 0 s ltac:(lia))).
by rewrite (set_blk_run _ _ _ _ E).
Qed.

(** ** Searching the list *)

Section spec.
Context (V : Z → list Z) (P : gset Z).
Implicit Types (H : gmap Z (Z * list Z)) (s : cachest).

Lemma scan_list_found s a b l bno :
(∀ p, p ∈ l → is_Some (blocks s !! p)) → a ∈ l → blocks s !! a = Some b → block_no b = bno →
(∀ a1 a2 b1 b2, blocks s !! a1 = Some b1 → blocks s !! a2 = Some b2 →
   block_no b1 = block_no b2 → a1 = a2) →
scan_list l bno s = Ok (Some a, s).
Proof.
intros Hl Ha Eb Hb Hinj. induction l as [|p l IH]; [by apply elem_of_nil in Ha|].
simpl. destruct (Hl p) as (bp & Ep); [left|].
rewrite (bind_Ok _ _ _ _ _ (blk_run _ _ _ Ep)). destruct (Z.eqb_spec (block_no bp) bno).
- rewrite mret_run. repeat f_equal. apply (Hinj p a bp b); congruence.
- apply IH; [intros; apply Hl; by right|].
  apply elem_of_cons in Ha as [->|]; [congruence|done].
Qed.

Lemma scan_list_none s l bno :
(∀ p, p ∈ l → ∃ b, blocks s !! p = Some b ∧ block_no b ≠ bno) →
scan_list l bno s = Ok (None, s).
Proof.
induction l as [|p l IH]; intros Hl; [done|]. simpl.
destruct (Hl p) as (bp & Ep & Hne); [left|].
rewrite (bind_Ok _ _ _ _ _ (blk_run _ _ _ Ep)).
destruct (Z.eqb_spec (block_no bp) bno); [done|]. apply IH. intros; apply Hl; by right.
Qed.

(** either a block is cached at one address, or it is not cached at all *)
Lemma cached_dec s bno :
(∃ a b, blocks s !! a = Some b ∧ block_no b = bno) ∨
(∀ a b, blocks s !! a = Some b → block_no b ≠ bno).
Proof.
destruct (decide (map_Forall (λ _ b, block_no b ≠ bno) (blocks s))) as [Hn|Hn].
- right. intros a b E. by apply (Hn a b).
- left. apply map_not_Forall in Hn; [|intros; apply _]. destruct Hn as (a & b & E & Hb).
  exists a, b. split; [done|].
  destruct (decide (block_no b = bno)) as [|n]; [done|by destruct (Hb n)].
Qed.

(** ** Eviction *)

Lemma detach_length a l : NoDup l → a ∈ l → S (length (detach a l)) = length l.
Proof.
intros Hnd Ha. unfold detach. induction Hnd as [|x l Hx Hnd IH]; [by apply elem_of_nil in Ha|].
destruct (decide (x = a)) as [->|Hne].
- rewrite filter_cons_False by tauto. rewrite filter_all; [done|]. intros y Hy ->. done.
- rewrite filter_cons_True by done. simpl. rewrite IH; [done|].
  apply elem_of_cons in Ha as [->|]; done.
Qed.

Definition evicted p s : cachest :=
upd_blocks (delete p) (upd_blocknum (λ n, n - 1) (upd_head (detach p) s)).

Lemma ccore_evicted H s p b :
ccore V H P s → blocks s !! p = Some b → acquired b = false → pinned b = false →
ccore V H P (evicted p s).
Proof.
intros R Ep Ha Hpin. destruct (cr_ok _ _ _ _ R p b Ep) as (_ & _ & Hp & Hd).
rewrite Ha in Hd. destruct Hd as [HHp Hd].
assert (p ∈ head s) as Hin by (apply (cr_dom _ _ _ _ R); eauto).
split; simpl.
- apply NoDup_filter, R.
- intros a. rewrite elem_of_detach, (cr_dom _ _ _ _ R).
  rewrite lookup_delete_is_Some. naive_solver.
- rewrite (cr_num _ _ _ _ R). pose proof (detach_length p _ (cr_head _ _ _ _ R) Hin). lia.
- intros a Hn. rewrite lookup_delete_None. right. by apply R.
- intros a1 a2 b1 b2 [_ E1]%lookup_delete_Some [_ E2]%lookup_delete_Some. by apply R.
- intros a b' [_ E]%lookup_delete_Some. by apply R.
- intros a Ha'. rewrite lookup_delete_is_Some. split; [|by apply (cr_held _ _ _ _ R)].
  intros <-. rewrite HHp in Ha'. by apply is_Some_None in Ha'.
- apply R.
- intros bno Hb. destruct (cr_pin _ _ _ _ R bno Hb) as (a & b' & E & Hb').
  exists a, b'. split; [|done]. rewrite lookup_delete_ne; [done|]. intros <-.
  assert (b' = b) as -> by congruence. rewrite Hb' in Hp. destruct Hp as [_ Hp].
  rewrite Hp in Hpin; done.
- intros a b' [_ E]%lookup_delete_Some. by apply (cr_hidden _ _ _ _ R a).
Qed.

Lemma evict_loop_run H l s :
ccore V H P s → NoDup l → (∀ p, p ∈ l → p ∈ head s) →
∃ s', evict_loop l s = Ok (tt, s') ∧ ccore V H P s' ∧ ctl s' = ctl s ∧ lock s' = lock s ∧ next s' = next s ∧
  (∀ a, blocks s !! a = None → blocks s' !! a = None) ∧
  (∀ a b, blocks s' !! a = Some b → blocks s !! a = Some b).
Proof.
intros R Hnd. revert s R. induction Hnd as [|p l Hp Hnd IH]; intros s R Hl; simpl.
- exists s. eauto 10.
- rewrite (bind_Ok _ _ _ _ _ (gets_run _ _)).
  destruct (blocknum s <? EVICTION_THRESHOLD); [exists s; eauto 10|].
  destruct (proj1 (cr_dom _ _ _ _ R p) (Hl p ltac:(left))) as (b & Ep).
  rewrite (bind_Ok _ _ _ _ _ (blk_run _ _ _ Ep)).
  destruct (negb (acquired b) && negb (pinned b)) eqn:Ee.
  + apply andb_prop in Ee as [Ea%negb_true_iff Epn%negb_true_iff].
    change ((when true _;; evict_loop l) s) with (evict_loop l (evicted p s)).
    destruct (IH (evicted p s)) as (s' & E & R' & Hc & Hlk & Hn & Hno & Hsub).
    * by eapply ccore_evicted.
    * intros q Hq. simpl. apply elem_of_detach. split; [apply Hl; by right|congruence].
    * exists s'. split_and!; [done|done|done|done|done| |].
      -- intros a Ha. apply Hno. simpl. apply lookup_delete_None. by right.
      -- intros a b' E'. specialize (Hsub a b' E'). simpl in Hsub.
         by apply lookup_delete_Some in Hsub as [_ ?].
  + erewrite bind_Ok by apply when_false_run. apply IH; [done|].
    intros q Hq. apply Hl. by right.
Qed.

(** ** Acquire *)

(** a locked copy of [b] *)
Definition lock_block (b : Block) : Block := set_block_lock (mkSem 0 []) (set_acquired true b).

Definition found_state a b s : cachest :=
upd_lock (λ _, false) (upd_head (λ l, a :: detach a l) (upd_blocks <[a := lock_block b]> s)).

Lemma acquire_found H s a b :
crep V H P s → blocks s !! a = Some b → acquired b = false →
cache_acquire (block_no b) s = Ok (a, found_state a b s).
Proof.
intros [R Hlk] Ea Hacq.
destruct (cr_ok _ _ _ _ R a b Ea) as (_ & Hlock & _ & _). rewrite Hacq in Hlock.
unfold cache_acquire. rewrite (bind_Ok _ _ _ _ _ (acquire_spinlock_run lock_ s Hlk)).
rewrite (bind_Ok _ _ _ _ _ (gets_run _ _)).
erewrite bind_Ok.
2: { apply (scan_list_found _ a b); simpl; [|by apply R; eauto|done|done|apply R].
     intros p Hp. by apply R. }
cbn beta iota. erewrite bind_Ok by (apply set_blk_run; exact Ea).
erewrite bind_Ok by apply release_spinlock_run.
erewrite bind_Ok.
2: { apply block_wait_run with (b := set_acquired true b); [|done].
     simpl. apply lookup_insert_eq. }
erewrite bind_Ok by by apply assert_run.
erewrite bind_Ok by by apply acquire_spinlock_run.
unfold movetohead. erewrite bind_Ok by apply modify_run.
erewrite bind_Ok by apply release_spinlock_run.
rewrite mret_run. do 2 f_equal. apply cachest_ext; try done. simpl.
by rewrite insert_insert_eq.
Qed.

Lemma ccore_found H s a b :
ccore V H P s → blocks s !! a = Some b → acquired b = false →
ccore V (<[a := (block_no b, V (block_no b))]> H) P (found_state a b s).
Proof.
intros R Ea Hacq. destruct (cr_ok _ _ _ _ R a b Ea) as (Hv & Hlock & Hpin & Hd).
rewrite Hacq in Hd. destruct Hd as [HHa Hd].
assert (a ∈ head s) as Hin by (apply (cr_dom _ _ _ _ R); eauto).
assert (∀ x, is_Some (<[a := lock_block b]> (blocks s) !! x) ↔ is_Some (blocks s !! x))
  as Hdom.
{ intros x. rewrite lookup_insert_is_Some. destruct (decide (a = x)) as [<-|]; naive_solver. }
split; simpl.
- constructor; [rewrite elem_of_detach; tauto|]. apply NoDup_filter, R.
- intros x. rewrite Hdom, <-(cr_dom _ _ _ _ R), elem_of_cons, elem_of_detach.
  destruct (decide (x = a)) as [->|]; tauto.
- rewrite (cr_num _ _ _ _ R), <-(detach_length a (head s)); [done|apply R|done].
- intros x Hx. rewrite lookup_insert_None. split; [by apply R|].
  intros <-. rewrite (cr_fresh _ _ _ _ R a Hx) in Ea. done.
- intros a1 a2 b1 b2 E1 E2 Hno.
  rewrite lookup_insert_Some in E1, E2. destruct E1 as [[<- <-]|[Hn1 E1]];
    destruct E2 as [[<- <-]|[Hn2 E2]]; try done; simpl in Hno;
    by eapply (cr_inj _ _ _ _ R).
- intros x y E. rewrite lookup_insert_Some in E. destruct E as [[<- <-]|[Hne E]]; simpl.
  + rewrite lookup_insert_eq. split_and!; [done|done|done|by rewrite Hd].
  + rewrite lookup_insert_ne by done. by apply (cr_ok _ _ _ _ R).
- intros x Hx. rewrite Hdom. destruct (decide (x = a)) as [->|]; [eauto|].
  rewrite lookup_insert_ne in Hx by done. by apply (cr_held _ _ _ _ R).
- apply R.
- intros bno Hb. destruct (cr_pin _ _ _ _ R bno Hb) as (x & y & E & Hy).
  destruct (decide (x = a)) as [->|Hne].
  + exists a, (lock_block b). rewrite lookup_insert_eq. split; [done|]. simpl. congruence.
  + exists x, y. by rewrite lookup_insert_ne.
- intros x y E. rewrite lookup_insert_Some in E. destruct E as [[<- <-]|[Hne E]];
    [exact (cr_hidden _ _ _ _ R a b Ea)|by apply (cr_hidden _ _ _ _ R x)].
Qed.

Definition fresh_block (bno : Z) (d : list Z) : Block :=
mkBlock bno true false (mkSem 0 []) true d.
Definition fresh_state bno s : cachest :=
upd_lock (λ _, false) (upd_head (λ l, next s :: l) (upd_blocknum (λ n, n + 1)
  (upd_blocks <[next s := fresh_block bno (dread (disk s) bno)]> (upd_next (λ n, n + 1) s)))).

Lemma ccore_fresh H s bno :
bno ≠ hd → ccore V H P s → (∀ a b, blocks s !! a = Some b → block_no b ≠ bno) →
ccore V (<[next s := (bno, V bno)]> H) P (fresh_state bno s).
Proof.
intros Hhd R Hno. pose proof (cr_fresh _ _ _ _ R (next s) ltac:(lia)) as En.
assert (bno ∉ P) as HP.
{ intros Hb. destruct (cr_pin _ _ _ _ R bno Hb) as (a & b & E & Hb'). by apply (Hno a b). }
assert (H !! next s = None) as EH.
{ destruct (H !! next s) eqn:E; [|done].
  destruct (cr_held _ _ _ _ R (next s)) as [? ?]; [eauto|congruence]. }
split; simpl.
- constructor; [|apply R]. rewrite (cr_dom _ _ _ _ R), En. by intros [].
- intros x. rewrite lookup_insert_is_Some, elem_of_cons, (cr_dom _ _ _ _ R).
  destruct (decide (x = next s)) as [->|]; naive_solver.
- rewrite (cr_num _ _ _ _ R). lia.
- intros x Hx. rewrite lookup_insert_None. split; [apply R; lia|lia].
- intros a1 a2 b1 b2 E1 E2 Heq.
  rewrite lookup_insert_Some in E1, E2. destruct E1 as [[<- <-]|[Hn1 E1]];
    destruct E2 as [[<- <-]|[Hn2 E2]]; simpl in Heq.
  + done.
  + by destruct (Hno _ _ E2).
  + by destruct (Hno _ _ E1).
  + by eapply (cr_inj _ _ _ _ R).
- intros x y E. rewrite lookup_insert_Some in E. destruct E as [[<- <-]|[Hne E]]; simpl.
  + rewrite lookup_insert_eq. rewrite <-(cr_clean _ _ _ _ R bno HP). done.
  + rewrite lookup_insert_ne by done. by apply (cr_ok _ _ _ _ R).
- intros x Hx. rewrite lookup_insert_is_Some.
  destruct (decide (next s = x)) as [->|]; [by left|]. right. split; [done|].
  rewrite lookup_insert_ne in Hx by done. by apply (cr_held _ _ _ _ R).
- apply R.
- intros b' Hb. destruct (cr_pin _ _ _ _ R b' Hb) as (x & y & E & Hy).
  exists x, y. rewrite lookup_insert_ne; [done|]. intros <-. congruence.
- intros x y E. rewrite lookup_insert_Some in E. destruct E as [[<- <-]|[Hne E]];
    [done|by apply (cr_hidden _ _ _ _ R x)].
Qed.

(** [cache_acquire] when the block has to be read from disk: [s1] is the state after eviction *)
Lemma acquire_fresh H s bno :
crep V H P s → (∀ a b, blocks s !! a = Some b → block_no b ≠ bno) →
∃ s1, ccore V H P s1 ∧ ctl s1 = ctl s ∧ (∀ a b, blocks s1 !! a = Some b → block_no b ≠ bno) ∧
  cache_acquire bno s = Ok (next s1, fresh_state bno s1).
Proof.
intros [R Hlk] Hno.
unfold cache_acquire. rewrite (bind_Ok _ _ _ _ _ (acquire_spinlock_run lock_ s Hlk)).
rewrite (bind_Ok _ _ _ _ _ (gets_run _ _)).
erewrite bind_Ok.
2: { apply scan_list_none. intros p Hp. apply (cr_dom _ _ _ _ R) in Hp as (b & Ep).
     exists b. split; [done|by apply (Hno p)]. }
cbn beta iota. rewrite (bind_Ok _ _ _ _ _ (gets_run _ _)).
apply (ccore_lock _ _ _ _ true) in R. change (set_locked lock_ true s) with (upd_lock (λ _, true) s).
set (sl := upd_lock (λ _, true) s) in *.
assert (∃ s1, when (EVICTION_THRESHOLD <=? blocknum sl) (l ← gets head; evict_loop (reverse l)) sl
    = Ok (tt, s1) ∧ ccore V H P s1 ∧ ctl s1 = ctl sl ∧ lock s1 = lock sl ∧ next s1 = next sl ∧
    (∀ a, blocks sl !! a = None → blocks s1 !! a = None) ∧
    (∀ a b, blocks s1 !! a = Some b → blocks sl !! a = Some b))
  as (s1 & Ew & R1 & Hc & Hl1 & Hn & Hb & Hsub).
{ destruct (EVICTION_THRESHOLD <=? blocknum sl); unfold when; [|by exists sl; eauto 10].
  rewrite (bind_Ok _ _ _ _ _ (gets_run _ _)). apply evict_loop_run; [done| |].
  - rewrite reverse_Permutation. exact (cr_head _ _ _ _ R).
  - intros p. by rewrite elem_of_reverse. }
rewrite (bind_Ok _ _ _ _ _ Ew).
assert (∀ a b, blocks s1 !! a = Some b → block_no b ≠ bno) as Hno1.
{ intros a b E. by apply (Hno a b), Hsub. }
exists s1. split; [done|]. split; [by rewrite Hc|]. split; [done|].
unfold alloc_block. rewrite !bind_assoc. rewrite (bind_Ok _ _ _ _ _ (gets_run _ _)).
rewrite !bind_assoc. rewrite (bind_Ok _ _ _ _ _ (modify_run _ _)).
rewrite !bind_assoc. rewrite (bind_Ok _ _ _ _ _ (modify_run _ _)).
rewrite (bind_Ok _ _ _ _ _ (mret_run _ _)).
erewrite bind_Ok by (apply block_wait_run; [simpl; apply lookup_insert_eq|done]).
erewrite bind_Ok by by apply assert_run.
erewrite bind_Ok by apply modify_run.
erewrite bind_Ok by (apply set_blk_run; simpl; apply lookup_insert_eq).
erewrite bind_Ok by apply release_spinlock_run.
unfold device_read. rewrite bind_assoc.
erewrite bind_Ok by (apply blk_run; simpl; apply lookup_insert_eq).
rewrite bind_assoc. erewrite bind_Ok by apply gets_run.
erewrite bind_Ok by (apply set_blk_run; simpl; apply lookup_insert_eq).
erewrite bind_Ok by by apply acquire_spinlock_run.
erewrite bind_Ok by apply modify_run.
erewrite bind_Ok by apply release_spinlock_run.
rewrite mret_run. do 2 f_equal. apply cachest_ext; try done. simpl.
by rewrite !insert_insert_eq.
Qed.

(** [cache_acquire] locks the block and hands out its current content. *)
Lemma cache_acquire_spec H s bno :
bno ≠ hd → crep V H P s → (∀ a d, H !! a ≠ Some (bno, d)) →
∃ a s', cache_acquire bno s = Ok (a, s') ∧ H !! a = None ∧
  crep V (<[a := (bno, V bno)]> H) P s' ∧ ctl s' = ctl s.
Proof.
intros Hhd R Hh. destruct (cached_dec s bno) as [(a & b & Ea & <-)|Hno].
- destruct (cr_ok _ _ _ _ (proj1 R) a b Ea) as (_ & _ & _ & Hd).
  destruct (acquired b) eqn:Hacq; [by destruct (Hh a (data b))|].
  exists a, (found_state a b s). split; [by eapply acquire_found|]. split; [tauto|].
  split; [|done]. split; [|done]. by apply ccore_found; [apply R|..].
- destruct (acquire_fresh H s bno R Hno) as (s1 & R1 & Hc & Hno1 & E).
  exists (next s1), (fresh_state bno s1). split; [done|]. split.
  { destruct (H !! next s1) eqn:EH; [|done].
    destruct (cr_held _ _ _ _ R1 (next s1)) as (? & E'); [eauto|].
    rewrite (cr_fresh _ _ _ _ R1) in E' by lia. done. }
  split; [|by rewrite <-Hc]. split; [|done]. by apply ccore_fresh.
Qed.

(** A thread that acquires a block it holds already sleeps for ever. *)
Lemma cache_acquire_deadlock H s a bno d :
crep V H P s → H !! a = Some (bno, d) → cache_acquire bno s = Sleep.
Proof.
intros [R Hlk] Ha. destruct (cr_held _ _ _ _ R a) as (b & Ea); [eauto|].
destruct (cr_ok _ _ _ _ R a b Ea) as (_ & Hlock & _ & Hd).
destruct (acquired b) eqn:Hacq; [|naive_solver].
rewrite Ha in Hd. injection Hd as -> ->.
unfold cache_acquire. rewrite (bind_Ok _ _ _ _ _ (acquire_spinlock_run lock_ s Hlk)).
rewrite (bind_Ok _ _ _ _ _ (gets_run _ _)).
erewrite bind_Ok.
2: { apply (scan_list_found _ a b); simpl; [|by apply R; eauto|done|done|apply R].
     intros p Hp. by apply R. }
cbn beta iota. erewrite bind_Ok by (apply set_blk_run; exact Ea).
erewrite bind_Ok by apply release_spinlock_run.
unfold mbind, M_bind at 1. erewrite block_wait_sleep; [done| |].
- apply lookup_insert_eq.
- done.
Qed.
End spec.

(** ** Locked blocks *)

Lemma crep_held V H P s a bno d :
ccore V H P s → H !! a = Some (bno, d) →
∃ b, blocks s !! a = Some b ∧ block_no b = bno ∧ data b = d ∧ acquired b = true ∧
  valid b = true ∧ block_lock b = mkSem 0 [] ∧ (pinned b = true ↔ bno ∈ P).
Proof.
intros R Ha. destruct (cr_held _ _ _ _ R a) as (b & Ea); [eauto|].
destruct (cr_ok _ _ _ _ R a b Ea) as (Hv & Hlock & Hpin & Hd).
destruct (acquired b) eqn:Hacq; [|naive_solver].
rewrite Ha in Hd. injection Hd as -> ->. exists b. naive_solver.
Qed.

(** Changing a locked block, what is shown of it, or its pin. *)
Lemma ccore_update V V' H P P' s s' a b b' :
ccore V H P s → blocks s !! a = Some b → acquired b = true →
blocks s' = <[a := b']> (blocks s) → head s' = head s → next s' = next s →
blocknum s' = blocknum s →
block_no b' = block_no b → acquired b' = true → valid b' = true →
block_lock b' = mkSem 0 [] → (pinned b' = true ↔ block_no b ∈ P') →
(∀ x, x ≠ block_no b → V' x = V x ∧ (x ∈ P' ↔ x ∈ P)) →
(∀ x, x ∉ P' → V' x = dread (disk s') x) →
ccore V' (<[a := (block_no b, data b')]> H) P' s'.
Proof.
intros R Ea Hacq Eb Eh En Enum Hno Hacq' Hv Hl Hp Hother Hclean.
assert (∀ x, is_Some (<[a := b']> (blocks s) !! x) ↔ is_Some (blocks s !! x)) as Hdom.
{ intros x. rewrite lookup_insert_is_Some. destruct (decide (a = x)) as [<-|]; naive_solver. }
split; rewrite ?Eb, ?Eh, ?En, ?Enum.
- apply R.
- intros x. rewrite Hdom. apply R.
- apply R.
- intros x Hx. rewrite lookup_insert_None. split; [by apply R|].
  intros <-. rewrite (cr_fresh _ _ _ _ R a Hx) in Ea. done.
- intros a1 a2 b1 b2 E1 E2 Heq.
  rewrite lookup_insert_Some in E1, E2. destruct E1 as [[<- <-]|[Hn1 E1]];
    destruct E2 as [[<- <-]|[Hn2 E2]]; try done; rewrite ?Hno in Heq;
    by eapply (cr_inj _ _ _ _ R).
- intros x y E. rewrite lookup_insert_Some in E. destruct E as [[<- <-]|[Hne E]].
  + rewrite Hacq', Hno, lookup_insert_eq. done.
  + rewrite lookup_insert_ne by done. destruct (cr_ok _ _ _ _ R x y E) as (? & ? & Hpy & Hd).
    destruct (Hother (block_no y)) as [-> ->]; [|done].
    intros Heq. apply Hne. by eapply (cr_inj _ _ _ _ R).
- intros x Hx. rewrite Hdom. rewrite lookup_insert_is_Some in Hx.
  destruct Hx as [<-|[_ Hx]]; [eauto|by apply (cr_held _ _ _ _ R)].
- done.
- intros x Hx. destruct (decide (x = block_no b)) as [->|Hne].
  + exists a, b'. by rewrite lookup_insert_eq.
  + destruct (Hother x Hne) as [_ Hiff]. apply Hiff in Hx.
    destruct (cr_pin _ _ _ _ R x Hx) as (c & y & E & Hy). exists c, y.
    rewrite lookup_insert_ne; [done|]. intros <-. congruence.
- intros x y E. rewrite lookup_insert_Some in E. destruct E as [[<- <-]|[Hne E]];
    [rewrite Hno; exact (cr_hidden _ _ _ _ R a b Ea)|by apply (cr_hidden _ _ _ _ R x)].
Qed.

Lemma blk_spec V H P s a bno d :
crep V H P s → H !! a = Some (bno, d) →
∃ b, blk a s = Ok (b, s) ∧ data b = d ∧ block_no b = bno.
Proof.
intros [R _] Ha. destruct (crep_held _ _ _ _ _ _ _ R Ha) as (b & Ea & ? & ? & _).
exists b. by rewrite (blk_run _ _ _ Ea).
Qed.

(** Writing to [block->data]. *)
Lemma set_data_spec V H P s a bno d f :
crep V H P s → H !! a = Some (bno, d) →
∃ s', set_blk a (λ b, set_data (f (data b)) b) s = Ok (tt, s') ∧
  crep V (<[a := (bno, f d)]> H) P s' ∧ ctl s' = ctl s.
Proof.
intros [R Hlk] Ha.
destruct (crep_held _ _ _ _ _ _ _ R Ha) as (b & Ea & <- & <- & Hacq & Hv & Hl & Hp).
rewrite (set_blk_run _ _ _ _ Ea). eexists. split; [done|]. split; [|done].
split; [|done]. eapply (ccore_update _ _ _ _ _ _ _ _ _
  (set_data (f (data b)) b)) in R; try done. apply R.
Qed.

(** The disk with one more write. *)
Definition written (bno : Z) (d : list Z) (s : cachest) : cachest :=
upd_writes (λ w, w ++ [(bno, d)]) (upd_disk <[bno := d]> s).

Lemma dread_insert b d (m : gmap Z (list Z)) x :
dread (<[b := d]> m) x = if decide (x = b) then d else dread m x.
Proof.
unfold dread. destruct (decide (x = b)) as [->|].
- by rewrite lookup_insert_eq.
- by rewrite lookup_insert_ne.
Qed.

(** [cache_sync(NULL, block)] writes the block through to the disk. *)
Lemma sync_null_spec V H P s a bno d :
crep V H P s → H !! a = Some (bno, d) →
cache_sync None a s = Ok (tt, written bno d s) ∧
crep (fupd V bno d) H P (written bno d s).
Proof.
intros [R Hlk] Ha.
destruct (crep_held _ _ _ _ _ _ _ R Ha) as (b & Ea & <- & <- & Hacq & Hv & Hl & Hp).
split.
- unfold cache_sync, device_write. by rewrite (bind_Ok _ _ _ _ _ (blk_run _ _ _ Ea)).
- split; [|done]. rewrite <-(insert_id H a _ Ha).
  eapply (ccore_update _ (fupd V (block_no b) (data b)) H P P s (written _ _ s) a b b);
    try done; simpl.
  + by rewrite insert_id.
  + intros x Hx. by rewrite fupd_ne.
  + intros x Hx. rewrite dread_insert. unfold fupd. case_decide; [done|by apply R].
Qed.

(** The in-memory log header and the [rm] of operation [c] after [block_no] was logged. *)
Definition logged (c rm bno : Z) (s : cachest) : cachest :=
upd_ctxs <[c := rm + 1]> (upd_header (λ h, mkLogHeader (lh_num_blocks h + 1)
  (<[Z.to_nat (lh_num_blocks h) := bno]> (lh_block_no h))) s).

Definition pinned_state a b s : cachest := upd_blocks <[a := set_pinned true b]> s.

(** [cache_sync(ctx, block)] pins the block and absorbs it when it is logged already. *)
Lemma sync_pins V H P s a bno d :
ccore V H P s → H !! a = Some (bno, d) →
∃ b, blocks s !! a = Some b ∧ block_no b = bno ∧
  ccore (fupd V bno d) H ({[bno]} ∪ P) (pinned_state a b s).
Proof.
intros R Ha.
destruct (crep_held _ _ _ _ _ _ _ R Ha) as (b & Ea & <- & <- & Hacq & Hv & Hl & Hp).
exists b. split; [done|]. split; [done|]. rewrite <-(insert_id H a _ Ha).
eapply (ccore_update _ _ _ _ _ s (pinned_state a b s) a b (set_pinned true b)); try done.
- simpl. set_solver.
- intros x Hx. rewrite fupd_ne by done. set_solver.
- intros x Hx. rewrite fupd_ne by set_solver. apply R. set_solver.
Qed.

Lemma ccore_ctl V H P s s' :
ccore V H P s → blocks s' = blocks s → head s' = head s → next s' = next s →
blocknum s' = blocknum s → disk s' = disk s → ccore V H P s'.
Proof.
intros [] E1 E2 E3 E4 E5. split; rewrite ?E1, ?E2, ?E3, ?E4, ?E5; done.
Qed.

Lemma sync_absorb V H P s a bno d c :
crep V H P s → H !! a = Some (bno, d) → loglock s = false →
in_header (header s) bno = true →
∃ s', cache_sync (Some c) a s = Ok (tt, s') ∧
  crep (fupd V bno d) H ({[bno]} ∪ P) s' ∧ ctl s' = ctl s.
Proof.
intros [R Hlk] Ha Hll Hin. destruct (sync_pins _ _ _ _ _ _ _ R Ha) as (b & Ea & Hb & R').
unfold cache_sync. rewrite (bind_Ok _ _ _ _ _ (acquire_spinlock_run loglock_ s Hll)).
erewrite bind_Ok by (apply set_blk_run; exact Ea).
erewrite bind_Ok by (apply blk_run; simpl; apply lookup_insert_eq).
erewrite bind_Ok by apply gets_run. simpl. rewrite Hb, Hin.
eexists. split; [done|]. split.
- split; [|done]. by eapply ccore_ctl.
- unfold ctl. simpl. by rewrite Hll.
Qed.

Lemma sync_logs V H P s a bno d c rm :
crep V H P s → H !! a = Some (bno, d) → loglock s = false →
in_header (header s) bno = false → ctxs s !! c = Some rm → rm < OP_MAX_NUM_BLOCKS →
lh_num_blocks (header s) < LOG_MAX_SIZE →
∃ s', cache_sync (Some c) a s = Ok (tt, s') ∧
  crep (fupd V bno d) H ({[bno]} ∪ P) s' ∧ ctl s' = ctl (logged c rm bno s).
Proof.
intros [R Hlk] Ha Hll Hin Hc Hrm Hn.
destruct (sync_pins _ _ _ _ _ _ _ R Ha) as (b & Ea & Hb & R').
unfold cache_sync. rewrite (bind_Ok _ _ _ _ _ (acquire_spinlock_run loglock_ s Hll)).
erewrite bind_Ok by (apply set_blk_run; exact Ea).
erewrite bind_Ok by (apply blk_run; simpl; apply lookup_insert_eq).
erewrite bind_Ok by apply gets_run. simpl. rewrite Hb, Hin.
erewrite bind_Ok by (apply getopt_run; simpl; exact Hc).
erewrite bind_Ok.
2: { apply assert_run. apply negb_true_iff, orb_false_iff.
     split; [by apply Z.leb_gt|by apply Z.leb_gt]. }
eexists. split; [done|]. split.
- split; [|done]. by eapply ccore_ctl.
- unfold ctl, logged. simpl. by rewrite Hll.
Qed.

(** Too many blocks for the operation or for the log: [cache_sync] panics. *)
Lemma sync_full V H P s a bno d c rm :
crep V H P s → H !! a = Some (bno, d) → loglock s = false →
in_header (header s) bno = false → ctxs s !! c = Some rm →
OP_MAX_NUM_BLOCKS ≤ rm ∨ LOG_MAX_SIZE ≤ lh_num_blocks (header s) →
cache_sync (Some c) a s = Panic.
Proof.
intros [R Hlk] Ha Hll Hin Hc Hfull.
destruct (sync_pins _ _ _ _ _ _ _ R Ha) as (b & Ea & Hb & R').
unfold cache_sync. rewrite (bind_Ok _ _ _ _ _ (acquire_spinlock_run loglock_ s Hll)).
erewrite bind_Ok by (apply set_blk_run; exact Ea).
erewrite bind_Ok by (apply blk_run; simpl; apply lookup_insert_eq).
erewrite bind_Ok by apply gets_run. simpl. rewrite Hb, Hin.
erewrite bind_Ok by (apply getopt_run; simpl; exact Hc).
apply bind_Panic, assert_fail. apply negb_false_iff, orb_true_iff.
destruct Hfull; [left|right]; by apply Z.leb_le.
Qed.

(** Taking the pin away once the block is on disk. *)
Lemma unpin_spec V H P s a bno d :
crep V H P s → H !! a = Some (bno, d) → V bno = dread (disk s) bno →
∃ s', set_blk a (set_pinned false) s = Ok (tt, s') ∧
  crep V H (P ∖ {[bno]}) s' ∧ ctl s' = ctl s.
Proof.
intros [R Hlk] Ha Hd.
destruct (crep_held _ _ _ _ _ _ _ R Ha) as (b & Ea & <- & <- & Hacq & Hv & Hl & Hp).
rewrite (set_blk_run _ _ _ _ Ea). eexists. split; [done|]. split; [|done].
split; [|done]. rewrite <-(insert_id H a _ Ha).
eapply (ccore_update _ _ _ _ _ s _ a b (set_pinned false b)); try done; simpl.
- set_solver.
- intros x Hx. split; [done|]. set_solver.
- intros x Hx. destruct (decide (x = block_no b)) as [->|]; [done|]. apply R. set_solver.
Qed.

(** [cache_release] of a block whose last change was synchronised. *)
Lemma cache_release_spec V H P s a bno :
crep V H P s → H !! a = Some (bno, V bno) →
∃ s', cache_release a s = Ok (tt, s') ∧ crep V (delete a H) P s' ∧ ctl s' = ctl s.
Proof.
intros [R Hlk] Ha.
destruct (crep_held _ _ _ _ _ _ _ R Ha) as (b & Ea & Hb & Hd & Hacq & Hv & Hl & Hp).
unfold cache_release. rewrite (bind_Ok _ _ _ _ _ (acquire_spinlock_run lock_ s Hlk)).
erewrite bind_Ok by (apply set_blk_run; exact Ea).
erewrite bind_Ok by (apply block_post_run; [simpl; apply lookup_insert_eq|done]).
rewrite release_spinlock_run. eexists. split; [done|]. split; [|done].
split; [|done]. simpl. set (b' := set_block_lock (mkSem 1 []) (set_acquired false b)).
assert (∀ x, is_Some (<[a := b']> (blocks s) !! x) ↔ is_Some (blocks s !! x)) as Hdom.
{ intros x. rewrite lookup_insert_is_Some. destruct (decide (a = x)) as [<-|]; naive_solver. }
split; simpl; rewrite ?insert_insert_eq.
- apply R.
- intros x. rewrite Hdom. apply R.
- apply R.
- intros x Hx. rewrite lookup_insert_None. split; [by apply R|].
  intros <-. rewrite (cr_fresh _ _ _ _ R a Hx) in Ea. done.
- intros a1 a2 b1 b2 E1 E2 Heq.
  rewrite lookup_insert_Some in E1, E2. destruct E1 as [[<- <-]|[Hn1 E1]];
    destruct E2 as [[<- <-]|[Hn2 E2]]; try done; by eapply (cr_inj _ _ _ _ R).
- intros x y E. rewrite lookup_insert_Some in E. destruct E as [[<- <-]|[Hne E]].
  + simpl. rewrite lookup_delete_eq, Hb. done.
  + rewrite lookup_delete_ne by done. by apply (cr_ok _ _ _ _ R).
- intros x Hx. rewrite Hdom. rewrite lookup_delete_is_Some in Hx.
  apply (cr_held _ _ _ _ R). tauto.
- apply R.
- intros x Hx. destruct (cr_pin _ _ _ _ R x Hx) as (c & y & E & Hy).
  destruct (decide (c = a)) as [->|].
  + exists a, b'. rewrite lookup_insert_eq. split; [done|]. simpl. congruence.
  + exists c, y. by rewrite lookup_insert_ne.
- intros x y E. rewrite lookup_insert_Some in E. destruct E as [[<- <-]|[Hne E]];
    [exact (cr_hidden _ _ _ _ R a b Ea)|by apply (cr_hidden _ _ _ _ R x)].
Qed.

(** The header block is written behind the cache's back. *)
Lemma write_hidden_spec V H P s v :
crep V H P s → device_write_raw hd v s = Ok (tt, written hd v s) ∧
  crep (fupd V hd v) H P (written hd v s).
Proof.
intros [[] Hlk]. split; [done|]. split; [|done]. split; simpl; try done.
- intros a b E. rewrite fupd_ne by naive_solver. naive_solver.
- intros x Hx. rewrite dread_insert. unfold fupd. case_decide; [done|naive_solver].
Qed.

(** The blocks on disk after [cache_sync(NULL, ..)] or a header write. *)
Lemma ctl_written s s' b d : ctl s' = ctl s → ctl (written b d s') = ctl (written b d s).
Proof. intros E%ctl_eq. destruct_and!. unfold ctl. simpl. congruence. Qed.

(** Copying one block onto another, through the cache, with nothing else locked. *)
Lemma copyblockdata_spec V P s from to :
from ≠ hd → to ≠ hd → from ≠ to → crep V ∅ P s →
∃ s', copyblockdata from to s = Ok (tt, s') ∧ crep (fupd V to (V from)) ∅ P s' ∧
  ctl s' = ctl (written to (V from) s).
Proof.
intros Hf Ht Hne R. unfold copyblockdata.
destruct (cache_acquire_spec V P ∅ s from Hf R) as (a1 & s1 & E1 & _ & R1 & C1); [done|].
rewrite (bind_Ok _ _ _ _ _ E1).
destruct (cache_acquire_spec V P _ s1 to Ht R1) as (a2 & s2 & E2 & Hn & R2 & C2).
{ intros a d [[_ [=]]|[_ [=]]]%lookup_insert_Some. congruence. }
rewrite (bind_Ok _ _ _ _ _ E2).
assert (a1 ≠ a2) as Ha by (intros <-; by rewrite lookup_insert_eq in Hn).
destruct (blk_spec _ _ _ _ a1 from (V from) R2) as (b & E3 & Hb & _).
{ by rewrite lookup_insert_ne, lookup_insert_eq. }
rewrite (bind_Ok _ _ _ _ _ E3), Hb.
destruct (set_data_spec _ _ _ _ a2 to (V to) (λ _, V from) R2) as (s3 & E4 & R3 & C3).
{ by rewrite lookup_insert_eq. }
change (set_blk a2 (set_data (V from)) s2 = Ok (tt, s3)) in E4.
rewrite (bind_Ok _ _ _ _ _ E4). rewrite insert_insert_eq in R3.
destruct (sync_null_spec _ _ _ _ a2 to (V from) R3) as [E5 R4]; [by rewrite lookup_insert_eq|].
rewrite (bind_Ok _ _ _ _ _ E5).
destruct (cache_release_spec _ _ _ _ a1 from R4) as (s5 & E6 & R5 & C5).
{ rewrite lookup_insert_ne, lookup_insert_eq by done. by rewrite fupd_ne. }
rewrite (bind_Ok _ _ _ _ _ E6).
destruct (cache_release_spec _ _ _ _ a2 to R5) as (s6 & E7 & R6 & C6).
{ rewrite lookup_delete_ne, lookup_insert_eq by done. by rewrite fupd_eq. }
exists s6. split; [done|]. split.
- replace ∅ with (delete a2 (delete a1 (<[a2:=(to, V from)]>
    (<[a1:=(from, V from)]> (∅ : gmap Z (Z * list Z)))))); [done|].
  apply map_eq. intros i. destruct (decide (i = a2)) as [->|]; [by simplify_map_eq|].
  destruct (decide (i = a1)) as [->|]; by simplify_map_eq.
- rewrite C6, C5. apply ctl_written. congruence.
Qed.
End cachespec.
