(* ===== verification/CacheLog.v ===== *)
(** * The log of [fs/cache.c]: commit, recovery and crash safety

    [cache_end_op] is run to its end and the writes it gives the disk are computed; then
    [init_bcache] is run on the disk left by any prefix of them. *)

From Stdlib Require Import ZArith Lia.
From S2P Require Import Prelude Words Sync Layout Cache CacheSpec.

(** ** Sequences of disk writes *)

Definition write_list := list (Z * list Z).

Definition apply_writes (ws : write_list) (d : gmap Z (list Z)) : gmap Z (list Z) :=
  fold_left (λ d w, <[w.1 := w.2]> d) ws d.
Definition vwrites (ws : write_list) (V : Z → list Z) : Z → list Z :=
  fold_left (λ V w, fupd V w.1 w.2) ws V.
Definition all_written (ws : write_list) (s : cachest) : cachest :=
  upd_writes (λ w, w ++ ws) (upd_disk (apply_writes ws) s).

Lemma apply_writes_snoc ws b v d :
  apply_writes (ws ++ [(b, v)]) d = <[b := v]> (apply_writes ws d).
Proof. unfold apply_writes. by rewrite fold_left_app. Qed.
Lemma apply_writes_app w1 w2 d : apply_writes (w1 ++ w2) d = apply_writes w2 (apply_writes w1 d).
Proof. apply fold_left_app. Qed.
Lemma vwrites_snoc ws b v V : vwrites (ws ++ [(b, v)]) V = fupd (vwrites ws V) b v.
Proof. unfold vwrites. by rewrite fold_left_app. Qed.

Lemma vwrites_notin ws V x : x ∉ ws.*1 → vwrites ws V x = V x.
Proof.
  induction ws as [|[b v] ws IH] using rev_ind; [done|]. rewrite vwrites_snoc, fmap_app.
  simpl. intros [Hx Hb%not_elem_of_cons]%not_elem_of_app.
  rewrite fupd_ne by tauto. by apply IH.
Qed.

(** Writing what is there already changes nothing. *)
Lemma vwrites_same ws V x : (∀ b v, (b, v) ∈ ws → v = V b) → vwrites ws V x = V x.
Proof.
  induction ws as [|[b v] ws IH] using rev_ind; [done|]. intros Hw.
  rewrite vwrites_snoc. unfold fupd. case_decide as Hx.
  - subst. apply Hw, elem_of_app. right. left.
  - apply IH. intros. apply Hw, elem_of_app. by left.
Qed.

Lemma dread_apply_notin ws d x : x ∉ ws.*1 → dread (apply_writes ws d) x = dread d x.
Proof.
  induction ws as [|[b v] ws IH] using rev_ind; [done|].
  rewrite apply_writes_snoc, fmap_app.
  simpl. intros [Hx Hb%not_elem_of_cons]%not_elem_of_app. rewrite dread_insert.
  rewrite decide_False by tauto. by apply IH.
Qed.

Lemma dread_apply_in ws d x v :
  NoDup ws.*1 → (x, v) ∈ ws → dread (apply_writes ws d) x = v.
Proof.
  induction ws as [|[b w] ws IH] using rev_ind; [by intros _ ?%elem_of_nil|].
  rewrite apply_writes_snoc, fmap_app. intros (Hnd & Hdis & _)%NoDup_app.
  intros [Hin|Hin]%elem_of_app; rewrite dread_insert.
  - rewrite decide_False; [by apply IH|]. intros ->.
    apply (Hdis b); [|left]. apply list_elem_of_fmap. by exists (b, v).
  - apply list_elem_of_singleton in Hin. injection Hin as -> ->. by rewrite decide_True.
Qed.

Lemma ctl_all_written s s' ws b v :
  ctl s' = ctl (all_written ws s) → ctl (written b v s') = ctl (all_written (ws ++ [(b, v)]) s).
Proof.
  intros E%ctl_eq. destruct_and!. unfold ctl. simpl in *.
  rewrite apply_writes_snoc, app_assoc. congruence.
Qed.

Lemma ctl_all_written_nil s : ctl (all_written [] s) = ctl s.
Proof. unfold ctl. simpl. by rewrite app_nil_r. Qed.

Lemma ctl_upd_loglock f s s' : ctl s' = ctl s → ctl (upd_loglock f s') = ctl (upd_loglock f s).
Proof. intros E%ctl_eq. destruct_and!. unfold ctl. simpl. congruence. Qed.

(** taking [loglock] again after a write made without it *)
Lemma ctl_relock b d s : loglock s = true →
  ctl (upd_loglock (λ _, true) (written b d (upd_loglock (λ _, false) s))) = ctl (written b d s).
Proof. intros E. unfold ctl. simpl. by rewrite E. Qed.

Section log.
Context (sblock : SuperBlock).
Local Notation start := (sb_log_start sblock).

(** ** The log area and the invariant of the log *)

(** the blocks logged by a header *)
Definition logged_blocks (h : LogHeader) : list Z :=
take (Z.to_nat (lh_num_blocks h)) (lh_block_no h).

(** the header block and the copies of the first [n] logged blocks *)
Definition in_log (n x : Z) : Prop := start ≤ x ≤ start + n.

(** A header whose blocks can be installed: distinct, and none of them in the part of the
  log area it uses itself. *)
Record header_ok (h : LogHeader) : Prop := {
ho_num : 0 ≤ lh_num_blocks h ≤ LOG_MAX_SIZE;
ho_len : length (lh_block_no h) = 63%nat;
ho_word : Forall (word_ok 8) (lh_block_no h);
ho_nodup : NoDup (logged_blocks h);
ho_out : ∀ x, x ∈ logged_blocks h → ¬ in_log (lh_num_blocks h) x }.

Lemma header_ok_length h :
header_ok h → length (logged_blocks h) = Z.to_nat (lh_num_blocks h).
Proof.
intros []. unfold logged_blocks. rewrite length_take.
change LOG_MAX_SIZE with 63 in *. lia.
Qed.

Lemma logged_lookup h i b :
logged_blocks h !! i = Some b → lh_block_no h !! i = Some b ∧ (i < Z.to_nat (lh_num_blocks h))%nat.
Proof. unfold logged_blocks. rewrite lookup_take_Some. tauto. Qed.

(** [i] of the loops [for (i = 0; i < header.num_blocks; i++)] *)
Lemma log_index h i done todo :
header_ok h → zseq 0 (Z.to_nat (lh_num_blocks h)) = done ++ i :: todo →
∃ b, i = Z.of_nat (length done) ∧ logged_blocks h !! length done = Some b ∧
  lh_block_no h !! Z.to_nat i = Some b ∧ b ∈ logged_blocks h ∧ ¬ in_log (lh_num_blocks h) b ∧
  Z.of_nat (length done) < lh_num_blocks h.
Proof.
intros Hh (_ & Hi & Hlt)%zseq_split.
destruct (lookup_lt_is_Some_2 (logged_blocks h) (length done)) as (b & Eb).
{ by rewrite header_ok_length. }
exists b. subst i. rewrite Z.add_0_l, Nat2Z.id.
assert (b ∈ logged_blocks h) by by eapply list_elem_of_lookup_2.
pose proof (logged_lookup _ _ _ Eb). destruct Hh.
split_and!; [done|done|tauto|done|by auto|lia].
Qed.

(** the writes of the two loops of [cache_end_op] *)
Definition log_copy (bl : list Z) (V : Z → list Z) : write_list :=
imap (λ i b, (start + Z.of_nat i + 1, V b)) bl.
Definition home_copy (bl : list Z) (V : Z → list Z) : write_list := map (λ b, (b, V b)) bl.

Definition cleared (h : LogHeader) : LogHeader := mkLogHeader 0 (lh_block_no h).

(** everything a commit writes, in order *)
Definition commit_writes (h : LogHeader) (V : Z → list Z) : write_list :=
log_copy (logged_blocks h) V ++ [(start, enc_header h)] ++
home_copy (logged_blocks h) V ++ [(start, enc_header (cleared h))].

Lemma log_copy_take_S bl V i b :
bl !! i = Some b →
take (S i) (log_copy bl V) = take i (log_copy bl V) ++ [(start + Z.of_nat i + 1, V b)].
Proof.
intros E. apply take_S_r. unfold log_copy. by rewrite list_lookup_imap, E.
Qed.
Lemma home_copy_take_S bl V i b :
bl !! i = Some b → take (S i) (home_copy bl V) = take i (home_copy bl V) ++ [(b, V b)].
Proof.
intros E. apply take_S_r. unfold home_copy.
change (map ?f bl) with (f <$> bl). by rewrite list_lookup_fmap, E.
Qed.

Lemma log_copy_elem bl V b v :
(b, v) ∈ log_copy bl V → ∃ i x, bl !! i = Some x ∧ b = start + Z.of_nat i + 1 ∧ v = V x.
Proof.
unfold log_copy. rewrite elem_of_lookup_imap. intros (i & x & [= -> ->] & E). eauto 6.
Qed.
Lemma home_copy_elem bl V b v : (b, v) ∈ home_copy bl V → b ∈ bl ∧ v = V b.
Proof.
unfold home_copy. intros H. apply list_elem_of_In, in_map_iff in H.
destruct H as (x & [= -> ->] & Hx). split; [by apply list_elem_of_In|done].
Qed.

Lemma log_copy_fst bl V x :
x ∈ (log_copy bl V).*1 → start < x ≤ start + Z.of_nat (length bl).
Proof.
intros ([b v] & -> & (i & y & E & -> & _)%log_copy_elem)%list_elem_of_fmap. simpl.
apply lookup_lt_Some in E. lia.
Qed.
Lemma home_copy_fst bl V : (home_copy bl V).*1 = bl.
Proof. induction bl as [|b bl IH]; [done|]. simpl. by rewrite <-IH at 2. Qed.
Lemma log_copy_nodup bl V : NoDup (log_copy bl V).*1.
Proof.
apply NoDup_alt. intros i j x. rewrite !list_lookup_fmap. unfold log_copy.
rewrite !list_lookup_imap.
destruct (bl !! i), (bl !! j); simpl; [|done..]. intros [= <-] [= E]. lia.
Qed.

Lemma elem_of_take_fst (ws : write_list) i x : x ∈ (take i ws).*1 → x ∈ ws.*1.
Proof. intros H. rewrite <-(take_drop i ws), fmap_app, elem_of_app. by left. Qed.

(** ** Commit *)

Implicit Types (s : cachest) (V : Z → list Z) (P : gset Z).

Lemma write_header_run s :
write_header sblock s = Ok (tt, written start (enc_header (header s)) s).
Proof. done. Qed.

(** the first loop of [cache_end_op] *)
Lemma commit_log_loop V P s h :
crep start V ∅ P s → header_ok h → header s = h → loglock s = true →
∃ s', for_each (zseq 0 (Z.to_nat (lh_num_blocks h)))
    (λ i, release_spinlock loglock_;;
          b ← getopt (λ s, lh_block_no (header s) !! Z.to_nat i);
          copyblockdata b (start + i + 1);;
          acquire_spinlock loglock_) s = Ok (tt, s') ∧
  crep start (vwrites (log_copy (logged_blocks h) V) V) ∅ P s' ∧
  ctl s' = ctl (all_written (log_copy (logged_blocks h) V) s).
Proof.
intros R Hh Eh Hll. set (L := log_copy (logged_blocks h) V).
destruct (for_each_invariant (λ done s', crep start (vwrites (take (length done) L) V) ∅ P s' ∧
    ctl s' = ctl (all_written (take (length done) L) s))
  (λ i, release_spinlock loglock_;;
          b ← getopt (λ s, lh_block_no (header s) !! Z.to_nat i);
          copyblockdata b (start + i + 1);;
          acquire_spinlock loglock_)
  (zseq 0 (Z.to_nat (lh_num_blocks h)))) with (s := s) as (s' & E & Hs').
- intros dn i todo s1 Hi [R1 C1].
  destruct (log_index h i dn todo Hh Hi) as (b & -> & Eb & Eno & Hb & Hout & Hlt).
  pose proof (ctl_header _ _ C1) as H1. pose proof (ctl_loglock _ _ C1) as H2.
  erewrite bind_Ok by apply release_spinlock_run.
  erewrite bind_Ok by (apply getopt_run; simpl; rewrite H1; simpl; rewrite Eh; exact Eno).
  set (s2 := set_locked loglock_ false s1).
  assert (crep start (vwrites (take (length dn) L) V) ∅ P s2) as R2.
  { destruct R1 as [R1 ?]. split; [|done]. by eapply ccore_ctl. }
  unfold in_log in Hout.
  destruct (copyblockdata_spec start (vwrites (take (length dn) L) V) P s2 b (start + Z.of_nat (length dn) + 1))
    as (s3 & E3 & R3 & C3); [lia|lia|lia|done|].
  rewrite (bind_Ok _ _ _ _ _ E3).
  pose proof (ctl_loglock _ _ C3) as H3.
  rewrite acquire_spinlock_run by done. eexists. split; [done|].
  rewrite length_app, Nat.add_1_r.
  pose proof (log_copy_take_S _ V _ b Eb) as HS. fold L in HS. rewrite HS, vwrites_snoc.
  assert (vwrites (take (length dn) L) V b = V b) as Hvb.
  { apply vwrites_notin. intros Hx%elem_of_take_fst%log_copy_fst.
    rewrite header_ok_length in Hx by done. destruct Hh. lia. }
  rewrite Hvb in R3, C3. split.
  + destruct R3 as [R3 ?]. split; [|done]. by eapply ccore_ctl.
  + rewrite <-(ctl_all_written s s1) by done.
    change (set_locked loglock_ true s3) with (upd_loglock (λ _, true) s3).
    rewrite (ctl_upd_loglock _ _ _ C3). apply ctl_relock. by rewrite H2.
- simpl. split; [done|]. by rewrite ctl_all_written_nil.
- exists s'. split; [done|]. rewrite length_zseq in Hs'.
  rewrite take_ge in Hs'; [done|]. unfold L, log_copy.
  rewrite length_imap, header_ok_length by done. done.
Qed.

(** the second loop of [cache_end_op] *)
Lemma commit_home_loop V P s h :
crep start V ∅ P s → header_ok h → header s = h → (∀ x, x ∈ logged_blocks h → x ≠ start) →
∃ s', for_each (zseq 0 (Z.to_nat (lh_num_blocks h)))
    (λ i, b ← getopt (λ s, lh_block_no (header s) !! Z.to_nat i);
          now ← cache_acquire b;
          cache_sync None now;;
          set_blk now (set_pinned false);;
          cache_release now) s = Ok (tt, s') ∧
  crep start (vwrites (home_copy (logged_blocks h) V) V) ∅
    (P ∖ list_to_set (logged_blocks h)) s' ∧
  ctl s' = ctl (all_written (home_copy (logged_blocks h) V) s).
Proof.
intros R Hh Eh Hst. set (L := home_copy (logged_blocks h) V).
set (body := λ i, b ← getopt (λ s, lh_block_no (header s) !! Z.to_nat i);
          now ← cache_acquire b;
          cache_sync None now;;
          set_blk now (set_pinned false);;
          cache_release now).
destruct (for_each_invariant (λ done s', crep start (vwrites (take (length done) L) V) ∅
      (P ∖ list_to_set (take (length done) (logged_blocks h))) s' ∧
    ctl s' = ctl (all_written (take (length done) L) s)) body
  (zseq 0 (Z.to_nat (lh_num_blocks h)))) with (s := s) as (s' & E & Hs').
- intros dn i todo s1 Hi [R1 C1].
  destruct (log_index h i dn todo Hh Hi) as (b & -> & Eb & Eno & Hb & Hout & Hlt).
  pose proof (ctl_header _ _ C1) as H1. unfold body.
  erewrite bind_Ok by (apply getopt_run; rewrite H1; simpl; rewrite Eh; exact Eno).
  destruct (cache_acquire_spec start _ _ ∅ s1 b (Hst b Hb) R1) as (a & s2 & E2 & _ & R2 & C2);
    [done|].
  rewrite (bind_Ok _ _ _ _ _ E2).
  assert (vwrites (take (length dn) L) V b = V b) as Hvb.
  { apply vwrites_same. intros b' v Hin. apply (home_copy_elem (logged_blocks h)).
    rewrite <-(take_drop (length dn) (home_copy _ _)). apply elem_of_app. by left. }
  rewrite Hvb in R2.
  destruct (sync_null_spec start _ _ _ s2 a b (V b) R2) as [E3 R3]; [by rewrite lookup_insert_eq|].
  rewrite (bind_Ok _ _ _ _ _ E3).
  destruct (unpin_spec start _ _ _ _ a b (V b) R3) as (s4 & E4 & R4 & C4).
  { by rewrite lookup_insert_eq. }
  { simpl. rewrite dread_insert, fupd_eq. by rewrite decide_True. }
  rewrite (bind_Ok _ _ _ _ _ E4).
  destruct (cache_release_spec start _ _ _ s4 a b R4) as (s5 & E5 & R5 & C5).
  { rewrite lookup_insert_eq. by rewrite fupd_eq. }
  exists s5. split; [done|]. rewrite length_app, Nat.add_1_r.
  pose proof (home_copy_take_S _ V _ b Eb) as HS. fold L in HS. rewrite HS, vwrites_snoc. split.
  + rewrite delete_insert_id in R5 by done.
    erewrite (take_S_r (logged_blocks h)) by done.
    replace (P ∖ list_to_set (take (length dn) (logged_blocks h) ++ [b]))
      with ((P ∖ list_to_set (take (length dn) (logged_blocks h))) ∖ {[b]}); [done|].
    set_solver.
  + rewrite C5, C4. rewrite <-(ctl_all_written s s1) by done. by apply ctl_written.
- simpl. rewrite ctl_all_written_nil. split; [|done].
  by replace (P ∖ ∅) with P by set_solver.
- exists s'. split; [done|]. rewrite length_zseq in Hs'.
  assert (length L = Z.to_nat (lh_num_blocks h)) as HL.
  { unfold L, home_copy. rewrite length_map. by apply header_ok_length. }
  rewrite (take_ge L) in Hs' by lia.
  rewrite (take_ge (logged_blocks h)) in Hs' by (rewrite header_ok_length; [lia|done]).
  done.
Qed.

(** a semaphore nobody sleeps on *)
Definition sem_free (x : Semaphore) : Prop := ∃ v, 0 ≤ v ∧ x = mkSem v [].

Lemma wake_all_run get set x s :
get s = x → sem_free x → wake_all get set s = Ok (tt, set x s).
Proof.
intros Ex (v & Hv & ->). unfold wake_all. erewrite bind_Ok by apply gets_run. rewrite Ex.
simpl. rewrite (bind_Ok _ _ _ _ _ (run_post_all 0 v s Hv)). done.
Qed.

(** The log between operations: the header lists the pinned blocks, and on disk no
  transaction is waiting to be installed. *)
Record log_rep (P : gset Z) (s : cachest) : Prop := {
lr_header : header_ok (header s);
lr_pinned : P = list_to_set (logged_blocks (header s));
lr_disk : lh_num_blocks (dec_header (dread (disk s) start)) = 0;
lr_disk_ok : block_ok (dread (disk s) start);
lr_logsem : sem_free (logsem s);
lr_check : sem_free (check s);
lr_loglock : loglock s = false;
lr_commit : iscommit s = false }.

(** what is left of the state once the last outstanding operation has been committed *)
Definition after_commit (V : Z → list Z) (s : cachest) : cachest :=
upd_header cleared (upd_outstanding (λ n, n - 1)
  (all_written (commit_writes (header s) V) s)).

Lemma cleared_cleared h : cleared (cleared h) = cleared h.
Proof. done. Qed.

(** The last outstanding [cache_end_op] runs to its end; what it writes is
  [commit_writes]. *)
Lemma end_op_commit V P s c :
crep start V ∅ P s → log_rep P s → outstanding s = 1 →
∃ s' V', cache_end_op sblock c s = Ok (tt, s') ∧ crep start V' ∅ ∅ s' ∧
  (∀ x, ¬ in_log (lh_num_blocks (header s)) x → V' x = V x) ∧
  ctl s' = ctl (after_commit V s).
Proof.
intros R [Hh HP Hd _ Hs1 Hs2 Hll Hcm] Ho. set (h := header s) in *.
assert (∀ x, x ∈ logged_blocks h → x ≠ start) as Hst.
{ intros x Hx ->. apply (ho_out _ Hh start Hx). unfold in_log. destruct Hh. lia. }
unfold cache_end_op. rewrite (bind_Ok _ _ _ _ _ (acquire_spinlock_run loglock_ s Hll)).
erewrite bind_Ok by apply gets_run.
erewrite bind_Ok by (apply assert_run; simpl; by rewrite Hcm).
erewrite bind_Ok by apply modify_run. erewrite bind_Ok by apply gets_run.
cbn [outstanding upd_outstanding set_locked loglock_ upd_loglock]. rewrite Ho.
change (0 <? 1 - 1) with false. cbn iota.
erewrite bind_Ok by apply modify_run. erewrite bind_Ok by apply gets_run.
set (s1 := upd_iscommit (λ _, true) _).
change (header s1) with h.
destruct (commit_log_loop V P s1 h) as (s2 & E2 & R2 & C2); [|done|done|done|].
{ destruct R as [R Hlk]. split; [|done]. by eapply ccore_ctl. }
rewrite (bind_Ok _ _ _ _ _ E2).
erewrite bind_Ok by apply release_spinlock_run.
erewrite bind_Ok by apply write_header_run.
set (s3 := set_locked loglock_ false s2) in *.
set (V3 := vwrites (log_copy (logged_blocks h) V) V) in *.
assert (header s3 = h) as H3 by (change (header s2 = header s1); by rewrite (ctl_header _ _ C2)).
assert (crep start V3 ∅ P s3) as R3.
{ destruct R2 as [R2 ?]. split; [|done]. by eapply ccore_ctl. }
rewrite H3. apply (write_hidden_spec start _ _ _ _ (enc_header h)) in R3 as [_ R3].
set (s4 := written start (enc_header h) s3) in *.
set (V4 := fupd V3 start (enc_header h)) in *.
erewrite bind_Ok by by apply acquire_spinlock_run.
set (s5 := set_locked loglock_ true s4).
assert (crep start V4 ∅ P s5) as R5.
{ destruct R3 as [R3 ?]. split; [|done]. by eapply ccore_ctl. }
destruct (commit_home_loop V4 P s5 h R5 Hh H3 Hst) as (s6 & E6 & R6 & C6).
rewrite (bind_Ok _ _ _ _ _ E6).
replace (P ∖ list_to_set (logged_blocks h)) with (∅ : gset Z) in R6 by set_solver.
assert (home_copy (logged_blocks h) V4 = home_copy (logged_blocks h) V) as Ehome.
{ apply map_ext_in. intros x Hx%list_elem_of_In. f_equal. unfold V4, V3.
  rewrite fupd_ne by auto. apply vwrites_notin. intros Hy%log_copy_fst.
  destruct (ho_out _ Hh x Hx). unfold in_log. rewrite header_ok_length in Hy by done.
  destruct Hh. lia. }
rewrite Ehome in R6, C6.
erewrite bind_Ok by apply modify_run. erewrite bind_Ok by apply release_spinlock_run.
erewrite bind_Ok by apply write_header_run.
set (s7 := set_locked loglock_ false _).
assert (header s7 = cleared h) as H7.
{ change (header s7) with (cleared (header s6)). rewrite (ctl_header _ _ C6).
  change (cleared (header s3) = cleared h). by rewrite H3. }
rewrite H7. set (V6 := vwrites _ V4) in *.
assert (crep start V6 ∅ ∅ s7) as R7.
{ destruct R6 as [R6 ?]. split; [|done]. by eapply ccore_ctl. }
apply (write_hidden_spec start _ _ _ _ (enc_header (cleared h))) in R7 as [_ R7].
set (s8 := written start _ s7) in *.
erewrite bind_Ok by by apply acquire_spinlock_run.
erewrite bind_Ok by apply modify_run. set (s9 := upd_iscommit (λ _, false) _).
assert (logsem s9 = logsem s) as Els.
{ change (logsem s6 = logsem s). rewrite (ctl_logsem _ _ C6).
  change (logsem s2 = logsem s). by rewrite (ctl_logsem _ _ C2). }
assert (check s9 = check s) as Eck.
{ change (check s6 = check s).
  rewrite (ctl_check _ _ C6). change (check s2 = check s). by rewrite (ctl_check _ _ C2). }
rewrite (bind_Ok _ _ _ _ _ (wake_all_run logsem _ (logsem s) s9 Els Hs1)).
erewrite bind_Ok by by apply (wake_all_run check _ (check s)).
rewrite release_spinlock_run. eexists _, (fupd V6 start (enc_header (cleared h))).
split; [done|]. split_and!.
- destruct R7 as [R7 ?]. split; [|done]. by eapply ccore_ctl.
- intros x Hx. unfold in_log in Hx. assert (x ≠ start) as Hxs by (destruct Hh; lia).
  rewrite fupd_ne by done. unfold V6, V4.
  assert (V3 x = V x) as Hv3.
  { apply vwrites_notin. intros Hy%log_copy_fst.
    rewrite header_ok_length in Hy by done. destruct Hh. lia. }
  rewrite <-Hv3. rewrite <-(fupd_ne V3 start (enc_header h) x Hxs).
  rewrite <-Ehome. apply vwrites_same. by intros ? ? [_ ?]%home_copy_elem.
- apply ctl_eq in C2, C6. destruct_and!. unfold after_commit, commit_writes.
  apply ctl_intro; simpl in *; fold h; try congruence.
  + rewrite apply_writes_app. simpl. rewrite apply_writes_app. simpl. congruence.
  + repeat match goal with H : writes _ = _ |- _ => rewrite H; clear H end.
    by rewrite <-!app_assoc.
Qed.

(** ** Recovery *)

(** the memory at reset, the disk as it was left *)
Definition boot (d : gmap Z (list Z)) : cachest :=
mkCache false false false ∅ [] 1 0 (mkLogHeader 0 (replicate 63 0)) false 0
  (init_sem 0) (init_sem 0) ∅ (replicate 200 false) d [].

(** what recovery copies home *)
Definition install (bl : list Z) (d : gmap Z (list Z)) : write_list :=
imap (λ i b, (b, dread d (start + Z.of_nat i + 1))) bl.

Definition recovered_header (h : LogHeader) : LogHeader :=
mkLogHeader 0 (clear_block_no (lh_block_no h)).

Lemma install_take_S bl d i b :
bl !! i = Some b →
take (S i) (install bl d) = take i (install bl d) ++ [(b, dread d (start + Z.of_nat i + 1))].
Proof. intros E. apply take_S_r. unfold install. by rewrite list_lookup_imap, E. Qed.
Lemma install_fst bl d : (install bl d).*1 = bl.
Proof.
unfold install. apply list_eq. intros i. rewrite list_lookup_fmap, list_lookup_imap.
by destruct (bl !! i).
Qed.

Lemma clear_block_no_ok l :
length l = 63%nat →
length (clear_block_no l) = 63%nat ∧ Forall (word_ok 8) (clear_block_no l).
Proof.
intros Hl. unfold clear_block_no. split; [apply length_dec_words|]. apply dec_words_ok.
- apply bytes_splice; [apply bytes_replicate; unfold is_byte; lia|apply bytes_enc_words].
- rewrite length_splice; rewrite ?length_replicate, length_enc_words; [lia|].
  change (Z.to_nat LOG_MAX_SIZE) with 63%nat. lia.
Qed.

Lemma boot_crep d : crep start (dread d) ∅ ∅ (boot d).
Proof.
split; [|done]. split; simpl.
- constructor.
- intros a. rewrite elem_of_nil, lookup_empty. split; [done|by intros [? ?]].
- done.
- intros a _. apply lookup_empty.
- by intros a1 a2 b1 b2 E%lookup_empty_Some.
- by intros a b E%lookup_empty_Some.
- intros a [x E%lookup_empty_Some]. done.
- done.
- intros x Hx. by apply not_elem_of_empty in Hx.
- by intros a b E%lookup_empty_Some.
Qed.

Lemma recover_loop d h s :
crep start (dread d) ∅ ∅ s → header_ok h → header s = h → disk s = d →
∃ s', for_each (zseq 0 (Z.to_nat (lh_num_blocks h)))
    (λ i, b ← getopt (λ s, lh_block_no (header s) !! Z.to_nat i);
          copyblockdata (start + i + 1) b) s = Ok (tt, s') ∧
  crep start (vwrites (install (logged_blocks h) d) (dread d)) ∅ ∅ s' ∧
  ctl s' = ctl (all_written (install (logged_blocks h) d) s).
Proof.
intros R Hh Eh Ed. set (L := install (logged_blocks h) d).
set (body := λ i, b ← getopt (λ s, lh_block_no (header s) !! Z.to_nat i);
          copyblockdata (start + i + 1) b).
destruct (for_each_invariant (λ done s',
    crep start (vwrites (take (length done) L) (dread d)) ∅ ∅ s' ∧
    ctl s' = ctl (all_written (take (length done) L) s)) body
  (zseq 0 (Z.to_nat (lh_num_blocks h)))) with (s := s) as (s' & E & Hs').
- intros dn i todo s1 Hi [R1 C1].
  destruct (log_index h i dn todo Hh Hi) as (b & -> & Eb & Eno & Hb & Hout & Hlt).
  pose proof (ctl_header _ _ C1) as H1. unfold body.
  erewrite bind_Ok by (apply getopt_run; rewrite H1; simpl; rewrite Eh; exact Eno).
  unfold in_log in Hout.
  destruct (copyblockdata_spec start (vwrites (take (length dn) L) (dread d)) ∅ s1
    (start + Z.of_nat (length dn) + 1) b) as (s3 & E3 & R3 & C3); [lia|lia|lia|done|].
  assert (vwrites (take (length dn) L) (dread d) (start + Z.of_nat (length dn) + 1) =
    dread d (start + Z.of_nat (length dn) + 1)) as Hv.
  { apply vwrites_notin. intros Hx%elem_of_take_fst. unfold L in Hx.
    rewrite install_fst in Hx. apply (ho_out _ Hh _ Hx). unfold in_log. lia. }
  rewrite Hv in R3, C3.
  exists s3. split; [done|]. rewrite length_app, Nat.add_1_r.
  pose proof (install_take_S _ d _ b Eb) as HS. fold L in HS. rewrite HS, vwrites_snoc.
  split; [done|]. rewrite <-(ctl_all_written s s1) by done. done.
- simpl. by rewrite ctl_all_written_nil.
- exists s'. split; [done|]. rewrite length_zseq in Hs'.
  rewrite take_ge in Hs'; [done|]. unfold L, install.
  rewrite length_imap, header_ok_length by done. done.
Qed.

(** [init_bcache] on a disk whose header is [h]: every logged block gets its copy, the other
  blocks outside the header keep their contents, and the log is empty again. *)
Lemma init_bcache_spec d h :
dec_header (dread d start) = h → header_ok h →
∃ s V, init_bcache sblock (boot d) = Ok (tt, s) ∧ crep start V ∅ ∅ s ∧ log_rep ∅ s ∧
  (outstanding s = 0 ∧ bitmaplock s = false) ∧
  writes s = install (logged_blocks h) d ++ [(start, enc_header (recovered_header h))] ∧
  disk s = apply_writes (writes s) d.
Proof.
intros Ehd Hh. unfold init_bcache.
do 10 erewrite bind_Ok by apply modify_run.
unfold read_header. rewrite bind_assoc. erewrite bind_Ok by apply gets_run.
erewrite bind_Ok by apply modify_run. erewrite bind_Ok by apply gets_run.
set (s1 := upd_header _ _). assert (header s1 = h) as H1 by done. rewrite H1.
destruct (recover_loop d h s1) as (s2 & E2 & R2 & C2); [|done|done|done|].
{ destruct (boot_crep d) as [R ?]. split; [|done]. by eapply ccore_ctl. }
rewrite (bind_Ok _ _ _ _ _ E2). erewrite bind_Ok by apply modify_run.
rewrite write_header_run. set (s3 := upd_header _ s2).
assert (header s3 = recovered_header h) as H3.
{ change (recovered_header (header s2) = recovered_header h).
  by rewrite (ctl_header _ _ C2), <-H1. }
rewrite H3. set (hv := enc_header (recovered_header h)).
pose proof (clear_block_no_ok (lh_block_no h) (ho_len _ Hh)) as [Hc1 Hc2].
assert (wf_header (recovered_header h)) as Hwf.
{ split; simpl; [unfold word_ok; simpl; lia|done|done]. }
assert (writes (written start hv s3) =
  install (logged_blocks h) d ++ [(start, hv)]) as Hw.
{ simpl. by rewrite (ctl_writes _ _ C2). }
eexists _, _. split; [done|]. split_and!.
- apply write_hidden_spec. destruct R2 as [R2 ?]. split; [|done]. by eapply ccore_ctl.
- assert (dread (disk (written start hv s3)) start = hv) as Hdisk.
  { change (disk (written start hv s3)) with (<[start := hv]> (disk s3)).
    by rewrite dread_insert, decide_True. }
  split; rewrite ?Hdisk.
  + change (header_ok (header s3)). rewrite H3.
    split; [simpl; change LOG_MAX_SIZE with 63; lia|done|done|..].
    * constructor.
    * by intros x ?%elem_of_nil.
  + change (header (written start hv s3)) with (header s3). by rewrite H3.
  + unfold hv. by rewrite dec_enc_header.
  + by apply block_ok_enc_header.
  + change (sem_free (logsem s2)). rewrite (ctl_logsem _ _ C2). by exists 0.
  + change (sem_free (check s2)). rewrite (ctl_check _ _ C2). by exists 0.
  + change (loglock s2 = false). by rewrite (ctl_loglock _ _ C2).
  + change (iscommit s2 = false). by rewrite (ctl_iscommit _ _ C2).
- simpl. apply ctl_eq in C2. by destruct_and!.
- simpl. apply ctl_eq in C2. by destruct_and!.
- done.
- rewrite Hw, apply_writes_app. simpl. by rewrite (ctl_disk _ _ C2).
Qed.

(** The contents after recovery. *)
Lemma recover_disk d h :
dec_header (dread d start) = h → header_ok h →
∃ s V, init_bcache sblock (boot d) = Ok (tt, s) ∧ crep start V ∅ ∅ s ∧ log_rep ∅ s ∧
  (∀ i b, logged_blocks h !! i = Some b →
     dread (disk s) b = dread d (start + Z.of_nat i + 1)) ∧
  (∀ x, x ≠ start → x ∉ logged_blocks h → dread (disk s) x = dread d x).
Proof.
intros Ehd Hh. destruct (init_bcache_spec d h Ehd Hh) as (s & V & E & R & L & _ & Ew & Ed).
exists s, V. split_and!; [done|done|done| |].
- intros i b Eb. rewrite Ed, Ew, apply_writes_snoc, dread_insert.
  rewrite decide_False.
  + apply dread_apply_in; [rewrite install_fst; apply Hh|].
    unfold install. apply elem_of_lookup_imap. eauto.
  + intros ->. apply (ho_out _ Hh start); [by eapply list_elem_of_lookup_2|].
    unfold in_log. destruct Hh. lia.
- intros x Hx Hn. rewrite Ed, Ew, apply_writes_snoc, dread_insert.
  rewrite decide_False by done. apply dread_apply_notin. by rewrite install_fst.
Qed.

Lemma header_ok_wf h : header_ok h → wf_header h.
Proof. intros []. split; [|done|done]. unfold word_ok. change LOG_MAX_SIZE with 63 in *. simpl. lia. Qed.
Lemma header_ok_cleared h : header_ok h → header_ok (cleared h).
Proof.
intros []. split; simpl; [change LOG_MAX_SIZE with 63; lia|done|done|constructor|].
by intros x ?%elem_of_nil.
Qed.
Lemma header_ok_empty b :
block_ok b → lh_num_blocks (dec_header b) = 0 → header_ok (dec_header b).
Proof.
intros Hb Hn. destruct (dec_header_wf b Hb). split; [|done|done|..].
- rewrite Hn. change LOG_MAX_SIZE with 63. lia.
- unfold logged_blocks. rewrite Hn. constructor.
- unfold logged_blocks. rewrite Hn. by intros x ?%elem_of_nil.
Qed.

Lemma home_copy_nodup h V : header_ok h → NoDup (home_copy (logged_blocks h) V).*1.
Proof. intros Hh. rewrite home_copy_fst. apply Hh. Qed.

(** the three kinds of prefixes of a commit *)
Lemma commit_prefix h V k :
header_ok h →
(∃ j, take k (commit_writes h V) = take j (log_copy (logged_blocks h) V) ∧
      (k < length (commit_writes h V))%nat) ∨
(∃ j, take k (commit_writes h V) = log_copy (logged_blocks h) V ++ [(start, enc_header h)] ++
      take j (home_copy (logged_blocks h) V) ∧ (k < length (commit_writes h V))%nat) ∨
take k (commit_writes h V) = commit_writes h V ∧ (length (commit_writes h V) ≤ k)%nat.
Proof.
intros Hh. unfold commit_writes. set (A := log_copy _ _). set (B := home_copy _ _).
destruct (decide (k ≤ length A)%nat).
{ left. exists k. rewrite take_app_le by done. split; [done|]. rewrite length_app. simpl. lia. }
right. destruct (decide (k ≤ length A + 1 + length B)%nat).
- left. exists (k - length A - 1)%nat. split.
  + rewrite take_app_ge by lia. set (m := (k - length A - 1)%nat).
    replace (k - length A)%nat with (S m) by lia. cbn [take app].
    by rewrite take_app_le by lia.
  + rewrite length_app. simpl. rewrite length_app. simpl. lia.
- right. assert (length (A ++ [(start, enc_header h)] ++ B ++ [(start, enc_header (cleared h))])
    ≤ k)%nat as Hk by (rewrite length_app; simpl; rewrite length_app; simpl; lia).
  split; [by apply take_ge|done].
Qed.

Lemma in_log_start n : 0 ≤ n → in_log n start.
Proof. unfold in_log. lia. Qed.

Lemma dread_log_prefix h V d j x :
header_ok h → ¬ in_log (lh_num_blocks h) x ∨ x = start →
dread (apply_writes (take j (log_copy (logged_blocks h) V)) d) x = dread d x.
Proof.
intros Hh Hx. apply dread_apply_notin. intros Hy%elem_of_take_fst%log_copy_fst.
rewrite header_ok_length in Hy by done. destruct Hh. unfold in_log in Hx. lia.
Qed.

Lemma dread_home_prefix h V d j x :
x ∉ logged_blocks h → dread (apply_writes (take j (home_copy (logged_blocks h) V)) d) x = dread d x.
Proof.
intros Hx. apply dread_apply_notin. intros Hy%elem_of_take_fst. by rewrite home_copy_fst in Hy.
Qed.

Lemma start_not_logged h : header_ok h → start ∉ logged_blocks h.
Proof. intros Hh Hx. apply (ho_out _ Hh _ Hx), in_log_start. apply Hh. Qed.

(** After a crash between any two writes of a commit, recovery installs all of it or
  nothing. *)
Lemma crash_recovers h V d k :
header_ok h → (∀ x, x ∉ logged_blocks h → V x = dread d x) →
block_ok (dread d start) → lh_num_blocks (dec_header (dread d start)) = 0 →
∃ s' V', init_bcache sblock (boot (apply_writes (take k (commit_writes h V)) d)) = Ok (tt, s') ∧
  crep start V' ∅ ∅ s' ∧ log_rep ∅ s' ∧
  ((k < length (commit_writes h V))%nat ∧
     (∀ x, ¬ in_log (lh_num_blocks h) x → dread (disk s') x = dread d x) ∨
   (∀ x, ¬ in_log (lh_num_blocks h) x → dread (disk s') x = V x)).
Proof.
intros Hh Hclean Hok Hnum.
assert (∀ x, ¬ in_log (lh_num_blocks h) x → x ≠ start) as Hst.
{ intros x Hx ->. apply Hx, in_log_start, Hh. }
destruct (commit_prefix h V k Hh) as [(j & -> & Hk)|[(j & -> & Hk)|[-> Hk]]].
- destruct (recover_disk (apply_writes (take j (log_copy (logged_blocks h) V)) d)
    (dec_header (dread d start))) as (s' & V' & E & R & L & _ & Hoth).
  { by rewrite dread_log_prefix by auto. }
  { by apply header_ok_empty. }
  exists s', V'. split_and!; [done|done|done|]. left. split; [done|]. intros x Hx.
  rewrite Hoth; [|by apply Hst|unfold logged_blocks; rewrite Hnum; apply not_elem_of_nil].
  apply dread_log_prefix; auto.
- set (d' := apply_writes _ d).
  assert (∀ x, dread d' x = if decide (x ∈ logged_blocks h) then dread d' x
    else if decide (x = start) then enc_header h
    else dread (apply_writes (log_copy (logged_blocks h) V) d) x) as Hd'.
  { intros x. case_decide as Hx; [done|]. unfold d'. rewrite !apply_writes_app.
    rewrite dread_home_prefix by done. simpl. by rewrite dread_insert. }
  destruct (recover_disk d' h) as (s' & V' & E & R & L & Hin & Hoth).
  { rewrite Hd', decide_False, decide_True by (done || by apply start_not_logged).
    by apply dec_enc_header, header_ok_wf. }
  { done. }
  exists s', V'. split_and!; [done|done|done|]. right. intros x Hx.
  destruct (decide (x ∈ logged_blocks h)) as [Hxl|Hxl].
  + apply list_elem_of_lookup_1 in Hxl as (i & Ei). rewrite (Hin i x Ei).
    pose proof (proj2 (logged_lookup _ _ _ Ei)) as Hi.
    assert (in_log (lh_num_blocks h) (start + Z.of_nat i + 1)) as Hil.
    { unfold in_log. destruct Hh. lia. }
    rewrite Hd', !decide_False.
    * apply dread_apply_in; [apply log_copy_nodup|]. apply elem_of_lookup_imap. eauto.
    * lia.
    * intros Hx'. by apply (ho_out _ Hh _ Hx').
  + rewrite Hoth by auto. rewrite Hd', !decide_False by auto.
    rewrite Hclean by done. rewrite <-(take_ge (log_copy _ V) (length (log_copy (logged_blocks h) V))) by done.
    apply dread_log_prefix; auto.
- set (d' := apply_writes _ d).
  assert (dread d' start = enc_header (cleared h)) as Hds.
  { unfold d', commit_writes. rewrite !app_assoc, apply_writes_snoc, dread_insert.
    by rewrite decide_True. }
  destruct (recover_disk d' (cleared h)) as (s' & V' & E & R & L & _ & Hoth).
  { rewrite Hds. by apply dec_enc_header, header_ok_wf, header_ok_cleared. }
  { by apply header_ok_cleared. }
  exists s', V'. split_and!; [done|done|done|]. right. intros x Hx.
  rewrite Hoth; [|by apply Hst|apply not_elem_of_nil].
  unfold d', commit_writes. rewrite !app_assoc, apply_writes_snoc, dread_insert.
  rewrite decide_False by auto. rewrite apply_writes_app.
  destruct (decide (x ∈ logged_blocks h)) as [Hxl|Hxl].
  + apply dread_apply_in; [by apply home_copy_nodup|].
    unfold home_copy. change (map ?f ?l) with (f <$> l). apply list_elem_of_fmap. eauto.
  + rewrite dread_apply_notin by by rewrite home_copy_fst.
    rewrite apply_writes_snoc, dread_insert, decide_False by auto.
    rewrite Hclean by done.
    rewrite <-(take_ge (log_copy _ V) (length (log_copy (logged_blocks h) V))) by done.
    apply dread_log_prefix; auto.
Qed.
End log.

(** ** Properties *)

(** C2: the end of the last outstanding operation runs to completion, writes every block the log
    holds to its place on disk without changing what any block outside the log area shows,
    unpins them all and leaves the log empty, in memory and on disk. *)
Theorem end_op_commits sb V P s c :
  crep (sb_log_start sb) V ∅ P s → log_rep sb P s → outstanding s = 1 →
  ∃ s' V', cache_end_op sb c s = Ok (tt, s') ∧ crep (sb_log_start sb) V' ∅ ∅ s' ∧
    log_rep sb ∅ s' ∧ outstanding s' = 0 ∧
    (∀ x, ¬ in_log sb (lh_num_blocks (header s)) x → V' x = V x ∧ dread (disk s') x = V x).
Proof.
  intros R L Ho. destruct (end_op_commit sb V P s c R L Ho) as (s' & V' & E & R' & Hv & C).
  exists s', V'. split; [done|]. split; [done|]. pose proof L as [Hh _ _ _ ? ? ? ?].
  assert (dread (disk s') (sb_log_start sb) = enc_header (cleared (header s))) as Hds.
  { rewrite (ctl_disk _ _ C). simpl. unfold commit_writes.
    by rewrite !app_assoc, apply_writes_snoc, dread_insert, decide_True. }
  split_and!.
  - assert (header s' = cleared (header s)) as Eh by by rewrite (ctl_header _ _ C).
    split; rewrite ?Eh, ?Hds.
    + by apply header_ok_cleared.
    + done.
    + rewrite dec_enc_header; [done|]. eapply header_ok_wf, header_ok_cleared, Hh.
    + apply block_ok_enc_header, Hh.
    + by rewrite (ctl_logsem _ _ C).
    + by rewrite (ctl_check _ _ C).
    + by rewrite (ctl_loglock _ _ C).
    + by rewrite (ctl_iscommit _ _ C).
  - apply ctl_eq in C. destruct_and!. simpl in *. lia.
  - intros x Hx. split; [by apply Hv|]. rewrite <-(Hv x Hx). symmetry. by apply R'.
Qed.

(** C1: a crash between any two of the disk writes of a commit is atomic: whatever prefix of them
    has reached the disk, [init_bcache] at the next boot succeeds, and every block outside
    the log area then has its content from before the operations or, for all blocks at once,
    the new one; once all the writes are done it is the new one. *)
Theorem commit_crash_atomic sb V P s c k :
  crep (sb_log_start sb) V ∅ P s → log_rep sb P s → outstanding s = 1 →
  ∃ s' ws, cache_end_op sb c s = Ok (tt, s') ∧ writes s' = writes s ++ ws ∧
  ∃ s'', init_bcache sb (boot (apply_writes (take k ws) (disk s))) = Ok (tt, s'') ∧
    ((k < length ws)%nat ∧
     (∀ x, ¬ in_log sb (lh_num_blocks (header s)) x → dread (disk s'') x = dread (disk s) x) ∨
     (∀ x, ¬ in_log sb (lh_num_blocks (header s)) x → dread (disk s'') x = V x)).
Proof.
  intros R L Ho. destruct (end_op_commit sb V P s c R L Ho) as (s' & V' & E & _ & _ & C).
  exists s', (commit_writes sb (header s) V). split; [done|].
  split; [by rewrite (ctl_writes _ _ C)|]. destruct L as [Hh HP Hnum Hok _ _ _ _].
  destruct (crash_recovers sb (header s) V (disk s) k Hh) as (s'' & V'' & E' & _ & _ & Hor).
  - intros x Hx. apply R. rewrite HP. by rewrite elem_of_list_to_set.
  - done.
  - done.
  - by exists s''.
Qed.

(** C3: recovery may itself be cut short: after a crash between any two of the writes of
    [init_bcache], running it again leaves every block outside the log area as an
    undisturbed recovery would have. *)
Theorem recovery_crash_idempotent sb d h k :
  dec_header (dread d (sb_log_start sb)) = h → header_ok sb h →
  ∃ s1 s2, init_bcache sb (boot d) = Ok (tt, s1) ∧
    init_bcache sb (boot (apply_writes (take k (writes s1)) d)) = Ok (tt, s2) ∧
    ∀ x, ¬ in_log sb (lh_num_blocks h) x → dread (disk s2) x = dread (disk s1) x.
Proof.
  intros Ehd Hh. destruct (init_bcache_spec sb d h Ehd Hh) as (s1 & V1 & E1 & R1 & L1 & _ & Ew & Ed).
  exists s1.
  destruct (recover_disk sb d h Ehd Hh) as (s1' & V1' & E1' & _ & _ & Hin & Hoth).
  assert (s1' = s1) as -> by congruence. clear E1' V1'.
  assert (∀ x, ¬ in_log sb (lh_num_blocks h) x → x ≠ sb_log_start sb) as Hst.
  { intros x Hx ->. apply Hx, in_log_start, Hh. }
  set (L := install sb (logged_blocks h) d) in *.
  destruct (decide (k ≤ length L)%nat) as [Hk|Hk].
  - rewrite Ew, take_app_le by done. set (d' := apply_writes (take k L) d).
    assert (∀ x, x ∉ logged_blocks h → dread d' x = dread d x) as Hd'.
    { intros x Hx. apply dread_apply_notin. intros Hy%elem_of_take_fst.
      unfold L in Hy. by rewrite install_fst in Hy. }
    destruct (recover_disk sb d' h) as (s2 & V2 & E2 & _ & _ & Hin2 & Hoth2).
    { by rewrite Hd' by by apply start_not_logged. }
    { done. }
    exists s2. split; [done|]. split; [done|]. intros x Hx.
    destruct (decide (x ∈ logged_blocks h)) as [Hxl|Hxl].
    + apply list_elem_of_lookup_1 in Hxl as (i & Ei). rewrite (Hin i x Ei), (Hin2 i x Ei).
      apply Hd'. intros Hx'. apply (ho_out _ _ Hh _ Hx'). unfold in_log.
      pose proof (proj2 (logged_lookup _ _ _ Ei)) as Hi. destruct Hh. lia.
    + rewrite Hoth, Hoth2 by auto. by apply Hd'.
  - rewrite take_ge, <-Ed.
    2: { rewrite Ew, length_app. simpl. lia. }
    destruct L1 as [_ _ Hn Hok _ _ _ _].
    destruct (recover_disk sb (disk s1) (dec_header (dread (disk s1) (sb_log_start sb))))
      as (s2 & V2 & E2 & _ & _ & _ & Hoth2); [done|by apply header_ok_empty|].
    exists s2. split; [done|]. split; [done|]. intros x Hx. apply Hoth2; [by apply Hst|].
    unfold logged_blocks. rewrite Hn. apply not_elem_of_nil.
Qed.

(** ** A concrete state: block 100 modified by an operation that is about to end *)

Definition example_sb : SuperBlock := mkSuper 1000 1 64 63 2 66 80.
Definition example_new : list Z := replicate 512 7.
Definition example_header : LogHeader := mkLogHeader 1 (100 :: replicate 62 0).
Definition example_state : cachest :=
  mkCache false false false {[1 := mkBlock 100 false true (mkSem 1 []) true example_new]} [1] 2 1
    example_header false 1 (mkSem 0 []) (mkSem 0 []) {[7 := 1]} (replicate 200 false) ∅ [].
Definition example_view : Z → list Z := fupd (dread ∅) 100 example_new.

Lemma example_crep : crep 2 example_view ∅ {[100]} example_state.
Proof.
  split; [|done]. split; cbn [blocks head next blocknum disk example_state].
  - constructor; [apply not_elem_of_nil|constructor].
  - intros a. rewrite list_elem_of_singleton, lookup_singleton_is_Some. naive_solver.
  - done.
  - intros a Ha. apply lookup_singleton_None. lia.
  - intros a1 a2 b1 b2 [<- _]%lookup_singleton_Some [<- _]%lookup_singleton_Some. done.
  - intros a b [<- <-]%lookup_singleton_Some. simpl. unfold example_view.
    rewrite fupd_eq, lookup_empty. set_solver.
  - intros a. rewrite lookup_empty. by intros [? ?].
  - intros x Hx. unfold example_view. rewrite fupd_ne; [done|set_solver].
  - intros x ->%elem_of_singleton. exists 1. rewrite lookup_singleton_eq. eauto.
  - intros a b [<- <-]%lookup_singleton_Some. done.
Qed.

Lemma example_header_ok : header_ok example_sb example_header.
Proof.
  split; [done|done|by_decision|by_decision|].
  change (logged_blocks example_header) with [100].
  intros x ->%list_elem_of_singleton. unfold in_log. simpl. lia.
Qed.

Lemma example_log_rep : log_rep example_sb {[100]} example_state.
Proof.
  split; [apply example_header_ok| |done| |by exists 0|by exists 0|done|done].
  - change (logged_blocks (header example_state)) with [100]. simpl. set_solver.
  - change (dread (disk example_state) _) with blank. by_decision.
Qed.

Lemma end_op_commits_witness :
  ∃ s' V', cache_end_op example_sb 7 example_state = Ok (tt, s') ∧ crep 2 V' ∅ ∅ s' ∧
    log_rep example_sb ∅ s' ∧ outstanding s' = 0 ∧
    (∀ x, ¬ in_log example_sb 1 x → V' x = example_view x ∧ dread (disk s') x = example_view x).
Proof.
  exact (end_op_commits example_sb example_view {[100]} example_state 7
    example_crep example_log_rep eq_refl).
Defined.

Lemma commit_crash_atomic_witness :
  ∃ s' ws, cache_end_op example_sb 7 example_state = Ok (tt, s') ∧ writes s' = [] ++ ws ∧
  ∃ s'', init_bcache example_sb (boot (apply_writes (take 2 ws) ∅)) = Ok (tt, s'') ∧
    ((2 < length ws)%nat ∧
     (∀ x, ¬ in_log example_sb 1 x → dread (disk s'') x = dread ∅ x) ∨
     (∀ x, ¬ in_log example_sb 1 x → dread (disk s'') x = example_view x)).
Proof.
  exact (commit_crash_atomic example_sb example_view {[100]} example_state 7 2
    example_crep example_log_rep eq_refl).
Defined.

(** a disk on which a committed transaction is waiting *)
Definition example_disk : gmap Z (list Z) :=
  {[2 := enc_header example_header; 3 := example_new]}.

Lemma recovery_crash_idempotent_witness :
  ∃ s1 s2, init_bcache example_sb (boot example_disk) = Ok (tt, s1) ∧
    init_bcache example_sb (boot (apply_writes (take 1 (writes s1)) example_disk)) = Ok (tt, s2) ∧
    ∀ x, ¬ in_log example_sb 1 x → dread (disk s2) x = dread (disk s1) x.
Proof.
  refine (recovery_crash_idempotent example_sb example_disk example_header 1 _
    example_header_ok).
  vm_compute. reflexivity.
Defined.
