(* ===== verification/BlockCache.v ===== *)
(** * The interface of the block cache

    [BlockCache] is the table of operations [struct BlockCache] of [fs/cache.h] offers to the
    inode layer; [BlockCacheLaws] is what the inode layer may rely on.  Its theorems are
    proved against these laws, and [CacheAlloc] discharges them for [fs/cache.c]. *)

From Stdlib Require Import ZArith Lia.
From S2P Require Import Prelude Words Layout CacheSpec.

(** [bc_data] and [bc_update] read and write [block->data] of a locked block. *)
Class BlockCache (C : Type) := {
  bc_acquire : Z → M C Z;
  bc_release : Z → M C unit;
  bc_data : Z → M C (list Z);
  bc_update : Z → (list Z → list Z) → M C unit;
  bc_sync : option Z → Z → M C unit;
  bc_alloc : option Z → M C Z;
  bc_free : option Z → Z → M C unit }.

(** [bc_rep V H s]: the cache shows the contents [V]; the blocks locked by the client are
    those at the addresses of [H], with their number and current data.
    [bc_block b]: [b] may be used by clients.  [bc_bitmap b]: [b] belongs to the bitmap.
    [bc_isfree V b]: the bitmap says [b] is free.  [bc_room s ctx X k]: the operation [ctx] can
    still synchronise all the blocks of [X], any number of times, and [k] more. *)
Class BlockCacheLaws (C : Type) `{BlockCache C} := {
  bc_rep : (Z → list Z) → gmap Z (Z * list Z) → C → Prop;
  bc_block : Z → Prop;
  bc_bitmap : Z → Prop;
  bc_isfree : (Z → list Z) → Z → Prop;
  bc_room : C → option Z → gset Z → nat → Prop;

  bc_acquire_ok V H s bno :
    bc_rep V H s → bc_block bno → (∀ a d, H !! a ≠ Some (bno, d)) →
    ∃ a s', bc_acquire bno s = Ok (a, s') ∧ H !! a = None ∧
      bc_rep V (<[a := (bno, V bno)]> H) s' ∧
      (∀ ctx X k, bc_room s ctx X k → bc_room s' ctx X k);
  bc_acquire_held V H s a bno d :
    bc_rep V H s → H !! a = Some (bno, d) → bc_acquire bno s = Sleep;
  bc_release_ok V H s a bno :
    bc_rep V H s → H !! a = Some (bno, V bno) →
    ∃ s', bc_release a s = Ok (tt, s') ∧ bc_rep V (delete a H) s' ∧
      (∀ ctx X k, bc_room s ctx X k → bc_room s' ctx X k);
  bc_data_ok V H s a bno d :
    bc_rep V H s → H !! a = Some (bno, d) → bc_data a s = Ok (d, s);
  bc_update_ok V H s a bno d f :
    bc_rep V H s → H !! a = Some (bno, d) →
    ∃ s', bc_update a f s = Ok (tt, s') ∧ bc_rep V (<[a := (bno, f d)]> H) s' ∧
      (∀ ctx X k, bc_room s ctx X k → bc_room s' ctx X k);
  bc_sync_ok V H s a bno d ctx X k :
    bc_rep V H s → H !! a = Some (bno, d) → bc_block bno → ¬ bc_bitmap bno →
    block_ok d → bno ∈ X → bc_room s ctx X k →
    ∃ s', bc_sync ctx a s = Ok (tt, s') ∧ bc_rep (fupd V bno d) H s' ∧ bc_room s' ctx X k;
  bc_alloc_ok V H s ctx X k :
    bc_rep V H s → (∃ b, bc_isfree V b) → (∀ x, bc_bitmap x → x ∈ X) →
    bc_room s ctx X (S k) →
    (∀ a x d, H !! a = Some (x, d) → ¬ bc_bitmap x ∧ ¬ bc_isfree V x) →
    ∃ b s' V', bc_alloc ctx s = Ok (b, s') ∧ bc_rep V' H s' ∧
      bc_room s' ctx ({[b]} ∪ X) k ∧ bc_isfree V b ∧ bc_block b ∧ ¬ bc_bitmap b ∧ V' b = replicate 512 0 ∧
      (∀ x, x ≠ b → ¬ bc_bitmap x → V' x = V x) ∧
      (∀ x, bc_isfree V' x ↔ bc_isfree V x ∧ x ≠ b);
  bc_free_ok V H s ctx X k b :
    bc_rep V H s → bc_block b → ¬ bc_bitmap b → ¬ bc_isfree V b →
    (∀ x, bc_bitmap x → x ∈ X) → bc_room s ctx X k →
    (∀ a x d, H !! a = Some (x, d) → ¬ bc_bitmap x) →
    ∃ s' V', bc_free ctx b s = Ok (tt, s') ∧ bc_rep V' H s' ∧ bc_room s' ctx X k ∧
      (∀ x, ¬ bc_bitmap x → V' x = V x) ∧
      (∀ x, bc_isfree V' x ↔ bc_isfree V x ∨ x = b);
  bc_room_le s ctx X X' k k' : bc_room s ctx X k → X' ⊆ X → (k' ≤ k)%nat → bc_room s ctx X' k';
  bc_room_add s ctx X k b : bc_room s ctx X (S k) → bc_room s ctx ({[b]} ∪ X) k;
  bc_isfree_ext V V' x : (∀ b, bc_bitmap b → V' b = V b) → bc_isfree V' x ↔ bc_isfree V x;
  bc_block_pos b : bc_block b → 0 < b < 2 ^ 32;
  bc_rep_data V H s bno : bc_rep V H s → block_ok (V bno) }.

(** The operations on the log: an operation [ctx] is bracketed by [bl_begin] and [bl_end]. *)
Class BlockLog (C : Type) := {
  bl_begin : Z → M C unit;
  bl_end : Z → M C unit }.

(** the blocks one operation may modify *)
Definition bl_room : nat := 10.

(** [bl_idle s]: no operation is under way.  [bl_disk s b]: what would be found in block [b]
    after a crash.  The end of an operation may rewrite blocks its clients cannot see. *)
Class BlockLogLaws (C : Type) `{BlockCacheLaws C} `{BlockLog C} := {
  bl_idle : C → Prop;
  bl_disk : C → Z → list Z;

  bl_begin_ok V s ctx :
    bc_rep V ∅ s → bl_idle s →
    ∃ s', bl_begin ctx s = Ok (tt, s') ∧ bc_rep V ∅ s' ∧
      (∀ X k, (size X + k ≤ bl_room)%nat → bc_room s' (Some ctx) X k);
  bl_end_ok V s ctx X k :
    bc_rep V ∅ s → bc_room s (Some ctx) X k →
    ∃ s' V', bl_end ctx s = Ok (tt, s') ∧ bc_rep V' ∅ s' ∧ bl_idle s' ∧
      (∀ b, bc_block b → V' b = V b ∧ bl_disk s' b = V b);
  bl_bitmap_block V s b : bc_rep V ∅ s → bc_bitmap b → bc_block b }.
