(* ===== verification/CacheAlloc.v ===== *)
(** * Allocation of blocks, and [fs/cache.c] as an implementation of [BlockCache]

    [cache_alloc] and [cache_free] against the set of free blocks the bitmap denotes, the
    instance of the interface the inode layer is proved against, and the swap space map. *)

From Stdlib Require Import ZArith Lia.
From S2P Require Import Prelude Words Sync Layout Cache CacheSpec CacheLog BlockCache.

(** ** Bits of bytes *)

Lemma land_shiftl1 v i : 0 ≤ i → (Z.land v (Z.shiftl 1 i) =? 0) = negb (Z.testbit v i).
Proof.
  intros Hi. rewrite Z.shiftl_1_l. destruct (Z.testbit v i) eqn:E; simpl.
  - apply Z.eqb_neq. intros H. apply (f_equal (λ z, Z.testbit z i)) in H.
    rewrite Z.land_spec, Z.pow2_bits_true, E, Z.bits_0 in H by done. done.
  - apply Z.eqb_eq. apply Z.bits_inj'. intros n Hn.
    rewrite Z.land_spec, Z.bits_0. destruct (decide (i = n)) as [->|Hne].
    + by rewrite E.
    + by rewrite Z.pow2_bits_false, andb_false_r.
Qed.

Lemma u8_testbit v i : 0 ≤ i < 8 → Z.testbit (u8 v) i = Z.testbit v i.
Proof. intros Hi. unfold u8. by rewrite Z.mod_pow2_bits_low by lia. Qed.

Lemma testbit_set v i j : 0 ≤ i → 0 ≤ j < 8 →
  Z.testbit (u8 (Z.lor v (Z.shiftl 1 i))) j = (i =? j) || Z.testbit v j.
Proof.
  intros Hi Hj. rewrite u8_testbit by done. rewrite Z.lor_spec, Z.shiftl_1_l.
  destruct (Z.eqb_spec i j) as [->|Hne].
  - by rewrite Z.pow2_bits_true, orb_true_r.
  - rewrite Z.pow2_bits_false by done. by rewrite orb_false_r.
Qed.

Lemma testbit_sub v i j : 0 ≤ i < 8 → 0 ≤ j < 8 → Z.testbit v i = true →
  Z.testbit (u8 (v - Z.shiftl 1 i)) j = negb (i =? j) && Z.testbit v j.
Proof.
  intros Hi Hj Hv. rewrite u8_testbit by done. rewrite Z.shiftl_1_l.
  assert (Z.ldiff (2 ^ i) v = 0) as Hd.
  { apply Z.bits_inj'. intros n Hn. rewrite Z.ldiff_spec, Z.bits_0.
    destruct (decide (i = n)) as [->|Hne]; [by rewrite Hv, andb_false_r|].
    by rewrite Z.pow2_bits_false. }
  rewrite Z.sub_nocarry_ldiff by done. rewrite Z.ldiff_spec.
  destruct (Z.eqb_spec i j) as [->|Hne]; simpl.
  - by rewrite Z.pow2_bits_true, andb_false_r by lia.
  - rewrite Z.pow2_bits_false by done. by rewrite andb_true_r.
Qed.

Section alloc.
Context (sblock : SuperBlock).
Local Notation start := (sb_log_start sblock).
Local Notation nb := (sb_num_blocks sblock).

(** bit [k] of a bitmap block *)
Definition bit_of (d : list Z) (k : Z) : bool := Z.testbit (nth (Z.to_nat (k / 8)) d 0) (k mod 8).

(** the bitmap block with the bit of block [b] *)
Definition bitmap_block (b : Z) : Z := sb_bitmap_start sblock + b / BIT_PER_BLOCK.

Definition used (V : Z → list Z) (b : Z) : bool := bit_of (V (bitmap_block b)) (b mod BIT_PER_BLOCK).
Definition is_free (V : Z → list Z) (b : Z) : Prop := 0 ≤ b < nb ∧ used V b = false.
Definition is_bitmap (x : Z) : Prop := ∃ b, 0 ≤ b < nb ∧ x = bitmap_block b.

(** ** Scanning for a clear bit *)

Lemma scan_bits_spec n i base temp :
0 ≤ i →
match scan_bits sblock n i base temp with
| Some j => i ≤ j < i + Z.of_nat n ∧ base + j < nb ∧ Z.testbit temp j = false ∧
    (∀ j', i ≤ j' < j → Z.testbit temp j' = true)
| None => ∀ j, i ≤ j < i + Z.of_nat n → base + j < nb → Z.testbit temp j = true
end.
Proof.
revert i. induction n as [|n IH]; intros i Hi; simpl; [lia|].
destruct (Z.ltb_spec (base + i) nb); [|intros; lia].
rewrite land_shiftl1 by done. destruct (Z.testbit temp i) eqn:Et; simpl.
- specialize (IH (i + 1) ltac:(lia)). destruct (scan_bits _ _ _ _ _) as [j|].
  + destruct IH as (? & ? & ? & Hlow). split; [lia|]. split; [lia|]. split; [done|].
    intros j' Hj'. destruct (decide (j' = i)) as [->|]; [done|]. apply Hlow. lia.
  + intros j Hj Hb. destruct (decide (j = i)) as [->|]; [done|]. apply IH; lia.
- split; [lia|]. split; [lia|]. split; [done|]. intros; lia.
Qed.

Lemma bit_of_byte d add i v :
0 ≤ add → 0 ≤ i < 8 → d !! Z.to_nat add = Some v → bit_of d (add * 8 + i) = Z.testbit v i.
Proof.
intros Ha Hi Ed. unfold bit_of.
replace ((add * 8 + i) / 8) with add by zmod. replace ((add * 8 + i) mod 8) with i by zmod.
f_equal. by apply nth_lookup_Some.
Qed.

Lemma scan_bytes_spec n add blockstart d :
0 ≤ add → length d = 512%nat → add + Z.of_nat n = 512 →
match scan_bytes sblock n add blockstart d with
| Some (a, i) => 0 ≤ i < 8 ∧ add ≤ a < 512 ∧ blockstart + a * 8 + i < nb ∧
    bit_of d (a * 8 + i) = false ∧
    (∀ k, add * 8 ≤ k < a * 8 + i → bit_of d k = true)
| None => ∀ k, add * 8 ≤ k < 4096 → blockstart + k < nb → bit_of d k = true
end.
Proof.
revert add. induction n as [|n IH]; intros add Ha Hl Hn; cbn [scan_bytes]; [lia|].
destruct (Z.ltb_spec (blockstart + add * 8) nb); [|intros; lia].
destruct (lookup_lt_is_Some_2 d (Z.to_nat add)) as (v & Ev); [lia|]. rewrite Ev.
pose proof (scan_bits_spec 8 0 (blockstart + add * 8) v ltac:(lia)) as Hs.
destruct (scan_bits _ _ _ _ _) as [i|].
- destruct Hs as (Hi & Hb & Ht & Hlow). split; [lia|]. split; [lia|]. split; [lia|]. split.
  + by rewrite (bit_of_byte _ _ _ v) by (done || lia).
  + intros k Hk. replace k with (add * 8 + (k - add * 8)) by lia.
    rewrite (bit_of_byte _ _ _ v) by (done || lia). apply Hlow. lia.
- assert (∀ k, add * 8 ≤ k < (add + 1) * 8 → blockstart + k < nb → bit_of d k = true) as Hbyte.
  { intros k Hk Hb. replace k with (add * 8 + (k - add * 8)) by lia.
    rewrite (bit_of_byte _ _ _ v) by (done || lia). apply Hs; lia. }
  specialize (IH (add + 1) ltac:(lia) Hl ltac:(lia)).
  destruct (scan_bytes _ _ _ _ _) as [[a i]|].
  + destruct IH as (? & ? & ? & ? & Hlow). split; [lia|]. split; [lia|]. split; [lia|].
    split; [done|].
    intros k Hk. destruct (decide (k < (add + 1) * 8)); [apply Hbyte; lia|apply Hlow; lia].
  + intros k Hk Hb. destruct (decide (k < (add + 1) * 8)); [apply Hbyte; lia|apply IH; lia].
Qed.

Lemma bit_of_insert d k k' v w :
length d = 512%nat → 0 ≤ k < 4096 → 0 ≤ k' < 4096 → d !! Z.to_nat (k / 8) = Some v →
bit_of (<[Z.to_nat (k / 8) := w]> d) k' =
  if decide (k' / 8 = k / 8) then Z.testbit w (k' mod 8) else bit_of d k'.
Proof.
intros Hl Hk Hk' Ev. unfold bit_of. case_decide as He.
- rewrite He. f_equal. apply nth_lookup_Some, list_lookup_insert_eq.
  by eapply lookup_lt_Some.
- f_equal. apply nth_lookup_Some. rewrite list_lookup_insert_ne.
  + destruct (lookup_lt_is_Some_2 d (Z.to_nat (k' / 8))) as (x & Ex).
    { rewrite Hl. zmod. }
    rewrite Ex. f_equal. symmetry. by apply nth_lookup_Some.
  + intros Heq. apply He. apply Z2Nat.inj in Heq; [done|zmod|zmod].
Qed.

Lemma set_bit_spec d add i :
length d = 512%nat → 0 ≤ add < 512 → 0 ≤ i < 8 →
length (set_bit add i d) = 512%nat ∧
∀ k, 0 ≤ k < 4096 → bit_of (set_bit add i d) k = (k =? add * 8 + i) || bit_of d k.
Proof.
intros Hl Ha Hi. unfold set_bit.
destruct (lookup_lt_is_Some_2 d (Z.to_nat add)) as (v & Ev); [lia|]. rewrite Ev.
split; [by rewrite length_insert|]. intros k Hk.
replace add with ((add * 8 + i) / 8) at 1 by zmod.
rewrite (bit_of_insert _ _ _ v); [|done|lia|done|].
2: { replace ((add * 8 + i) / 8) with add by zmod. done. }
replace ((add * 8 + i) / 8) with add by zmod. case_decide as He.
- rewrite testbit_set by zmod. f_equal.
  + destruct (Z.eqb_spec i (k mod 8)), (Z.eqb_spec k (add * 8 + i)); try done; zmod.
  + rewrite <-(bit_of_byte d add (k mod 8) v) by (done || zmod). f_equal. zmod.
- destruct (Z.eqb_spec k (add * 8 + i)); [zmod|done].
Qed.

Lemma bytes_insert l i v : bytes l → is_byte v → bytes (<[i := v]> l).
Proof. intros. by apply Forall_insert. Qed.

Lemma set_bit_bytes add i d : bytes d → bytes (set_bit add i d).
Proof.
intros Hd. unfold set_bit. destruct (d !! _) eqn:E; [|done].
apply bytes_insert; [done|]. apply u8_range.
Qed.

(** ** The cache between calls of its clients *)

Definition client_block (b : Z) : Prop := 0 < b < nb ∧ b < 2 ^ 32 ∧ ¬ in_log sblock LOG_MAX_SIZE b.

Record log_ok (P : gset Z) (s : cachest) : Prop := {
lo_num : 0 ≤ lh_num_blocks (header s) ≤ LOG_MAX_SIZE;
lo_len : length (lh_block_no (header s)) = 63%nat;
lo_word : Forall (word_ok 8) (lh_block_no (header s));
lo_nodup : NoDup (logged_blocks (header s));
lo_client : ∀ x, x ∈ logged_blocks (header s) → client_block x;
lo_pinned : P = list_to_set (logged_blocks (header s));
lo_loglock : loglock s = false }.

Record cache_rep (V : Z → list Z) (H : gmap Z (Z * list Z)) (s : cachest) : Prop := {
br_core : ∃ P, crep start V H P s ∧ log_ok P s;
br_blocks : ∀ b, block_ok (V b);
br_free : ∀ b, is_free V b → client_block b ∧ ¬ is_bitmap b;
br_bitmap : ∀ b, is_bitmap b → client_block b }.

(** the log outside a commit, with [n] operations under way *)
Record log_quiet (n : Z) (s : cachest) : Prop := {
lq_disk : lh_num_blocks (dec_header (dread (disk s) start)) = 0;
lq_disk_ok : block_ok (dread (disk s) start);
lq_logsem : sem_free (logsem s);
lq_check : sem_free (check s);
lq_commit : iscommit s = false;
lq_outstanding : outstanding s = n }.

(** [ctx] is the only operation under way; it can still log the blocks of [X] that are not
    logged yet and [k] more *)
Definition cache_room (s : cachest) (ctx : option Z) (X : gset Z) (k : nat) : Prop :=
match ctx with
| None => True
| Some c => ∃ rm, ctxs s !! c = Some rm ∧
    rm + Z.of_nat (size (X ∖ list_to_set (logged_blocks (header s))) + k) ≤ OP_MAX_NUM_BLOCKS ∧
    lh_num_blocks (header s) +
      Z.of_nat (size (X ∖ list_to_set (logged_blocks (header s))) + k) ≤ LOG_MAX_SIZE ∧
    log_quiet 1 s
end.

Lemma log_quiet_ctl n s s' : ctl s' = ctl s → log_quiet n s → log_quiet n s'.
Proof.
intros C%ctl_eq []. destruct_and!. split; congruence.
Qed.

Lemma cache_room_ctl s s' ctx X k :
  ctl s' = ctl s → cache_room s ctx X k → cache_room s' ctx X k.
Proof.
intros C. unfold cache_room. destruct ctx; [|done].
rewrite (ctl_ctxs _ _ C), (ctl_header _ _ C). pose proof (log_quiet_ctl 1 s s' C). naive_solver.
Qed.

Lemma cache_room_bitmaplock s v ctx X k :
  cache_room s ctx X k → cache_room (set_locked bitmaplock_ v s) ctx X k.
Proof. destruct ctx; [|done]. intros (rm & ? & ? & ? & []). by exists rm. Qed.

Lemma log_ok_ctl P s s' : ctl s' = ctl s → log_ok P s → log_ok P s'.
Proof.
intros C []. split;
  by rewrite ?(ctl_header _ _ C), ?(ctl_loglock _ _ C).
Qed.

Lemma client_not_start b : client_block b → b ≠ start.
Proof. intros (_ & _ & Hn) ->. apply Hn. unfold in_log. change LOG_MAX_SIZE with 63. lia. Qed.

Lemma acquire_ok V H s bno :
cache_rep V H s → client_block bno → (∀ a d, H !! a ≠ Some (bno, d)) →
∃ a s', cache_acquire bno s = Ok (a, s') ∧ H !! a = None ∧
  cache_rep V (<[a := (bno, V bno)]> H) s' ∧ ctl s' = ctl s.
Proof.
intros [(P & R & L) Hb Hf Hm] Hc Hh.
destruct (cache_acquire_spec start V P H s bno (client_not_start _ Hc) R Hh)
  as (a & s' & E & Hn & R' & C).
exists a, s'. split_and!; [done|done| |done]. split; [|done..].
exists P. split; [done|]. by eapply log_ok_ctl.
Qed.

Lemma release_ok V H s a bno :
cache_rep V H s → H !! a = Some (bno, V bno) →
∃ s', cache_release a s = Ok (tt, s') ∧ cache_rep V (delete a H) s' ∧ ctl s' = ctl s.
Proof.
intros [(P & R & L) Hb Hf Hm] Ha.
destruct (cache_release_spec start V H P s a bno R Ha) as (s' & E & R' & C).
exists s'. split_and!; [done| |done]. split; [|done..]. exists P. split; [done|].
by eapply log_ok_ctl.
Qed.

Lemma update_ok V H s a bno d f :
cache_rep V H s → H !! a = Some (bno, d) →
∃ s', set_blk a (λ b, set_data (f (data b)) b) s = Ok (tt, s') ∧
  cache_rep V (<[a := (bno, f d)]> H) s' ∧ ctl s' = ctl s.
Proof.
intros [(P & R & L) Hb Hf Hm] Ha.
destruct (set_data_spec start V H P s a bno d f R Ha) as (s' & E & R' & C).
exists s'. split_and!; [done| |done]. split; [|done..]. exists P. split; [done|].
by eapply log_ok_ctl.
Qed.

Lemma logged_blocks_snoc h b :
0 ≤ lh_num_blocks h < 63 → length (lh_block_no h) = 63%nat →
logged_blocks (mkLogHeader (lh_num_blocks h + 1)
  (<[Z.to_nat (lh_num_blocks h) := b]> (lh_block_no h))) = logged_blocks h ++ [b].
Proof.
intros Hn Hl. unfold logged_blocks. simpl.
replace (Z.to_nat (lh_num_blocks h + 1)) with (S (Z.to_nat (lh_num_blocks h))) by lia.
rewrite (take_S_r _ _ b) by (apply list_lookup_insert_eq; lia).
by rewrite take_insert_ge by lia.
Qed.

Lemma size_minus_elem (X Y : gset Z) b :
  b ∈ X → b ∉ Y → (size (X ∖ Y) = S (size (X ∖ ({[b]} ∪ Y))))%nat.
Proof.
  intros HX HY. replace (X ∖ Y) with ({[b]} ∪ X ∖ ({[b]} ∪ Y)).
  - rewrite size_union by set_solver. by rewrite size_singleton.
  - apply set_eq. intros x. destruct (decide (x = b)); set_solver.
Qed.

Lemma cache_room_le s ctx X X' k k' :
  cache_room s ctx X k → X' ⊆ X → (k' ≤ k)%nat → cache_room s ctx X' k'.
Proof.
  destruct ctx as [c|]; [|done]. intros (rm & Ec & H1 & H2 & HQ) HX Hk. exists rm. split; [done|].
  assert (size (X' ∖ list_to_set (logged_blocks (header s))) ≤
    size (X ∖ list_to_set (logged_blocks (header s))))%nat by (apply subseteq_size; set_solver).
  split_and!; [lia|lia|done].
Qed.

Lemma cache_room_add s ctx X k b : cache_room s ctx X (S k) → cache_room s ctx ({[b]} ∪ X) k.
Proof.
  destruct ctx as [c|]; [|done]. intros (rm & Ec & H1 & H2 & HQ). exists rm. split; [done|].
  set (Y := list_to_set (logged_blocks (header s))) in *.
  assert (size (({[b]} ∪ X) ∖ Y) ≤ S (size (X ∖ Y)))%nat; [|split_and!; [lia|lia|done]].
  transitivity (size ({[b]} ∪ X ∖ Y)); [apply subseteq_size; set_solver|].
  destruct (decide (b ∈ X ∖ Y)) as [Hin|Hin].
  - replace ({[b]} ∪ X ∖ Y) with (X ∖ Y) by set_solver. lia.
  - rewrite size_union by set_solver. rewrite size_singleton. lia.
Qed.

(** a synchronisation that may change the bitmap *)
Lemma sync_any V H s a bno d ctx X k :
  cache_rep V H s → H !! a = Some (bno, d) → client_block bno → block_ok d →
  (∀ b, is_free (fupd V bno d) b → client_block b ∧ ¬ is_bitmap b) →
  bno ∈ X → cache_room s ctx X k →
  ∃ s', cache_sync ctx a s = Ok (tt, s') ∧ cache_rep (fupd V bno d) H s' ∧
    cache_room s' ctx X k ∧ bitmaplock s' = bitmaplock s.
Proof.
  intros [(P & R & L) Hb Hf Hm] Ha Hc Hd Hfree HX Hroom.
  assert (∀ b, block_ok (fupd V bno d b)) as Hb'.
  { intros b. unfold fupd. case_decide; [done|apply Hb]. }
  destruct ctx as [c|].
  2: { destruct (sync_null_spec start V H P s a bno d R Ha) as [E R'].
       eexists. split; [done|]. split_and!; [|done|done]. split; [|done..].
       exists P. split; [done|]. by destruct L. }
  pose proof Hroom as (rm & Ec & Hrm & Hn & HQ). pose proof L as [? ? ? ? ? HP Hll].
  destruct (in_header (header s) bno) eqn:Ein.
  - destruct (sync_absorb start V H P s a bno d c R Ha Hll Ein) as (s' & E & R' & C).
    apply bool_decide_eq_true in Ein.
    replace ({[bno]} ∪ P) with P in R'.
    2: { rewrite HP. apply set_eq. intros x. rewrite elem_of_union, elem_of_singleton,
         !elem_of_list_to_set. unfold logged_blocks. naive_solver. }
    exists s'. split_and!; [done| | |].
    + split; [|done..]. exists P. split; [done|]. by eapply log_ok_ctl.
    + by apply (cache_room_ctl s s').
    + apply ctl_eq in C. tauto.
  - apply bool_decide_eq_false in Ein as Hnin. change (bno ∉ logged_blocks (header s)) in Hnin.
    pose proof (size_minus_elem X (list_to_set (logged_blocks (header s))) bno HX
      ltac:(by rewrite elem_of_list_to_set)) as Hsz. rewrite Hsz in Hrm, Hn.
    destruct (sync_logs start V H P s a bno d c rm R Ha Hll Ein Ec) as (s' & E & R' & C);
      [lia|lia|].
    change LOG_MAX_SIZE with 63 in *.
    pose proof (logged_blocks_snoc (header s) bno ltac:(lia) ltac:(done)) as Hsn.
    assert (header s' = header (logged c rm bno s)) as Eh by by rewrite (ctl_header _ _ C).
    exists s'. split_and!; [done| | |].
    + split; [|done..]. exists ({[bno]} ∪ P). split; [done|]. split; rewrite ?Eh.
      * simpl. change LOG_MAX_SIZE with 63. lia.
      * simpl. by rewrite length_insert.
      * simpl. apply Forall_insert; [done|]. destruct Hc as (Hc & ? & _).
        unfold word_ok. simpl. lia.
      * simpl. rewrite Hsn. apply NoDup_app. split; [done|].
        split; [|repeat constructor; set_solver].
        intros x Hx ->%list_elem_of_singleton. done.
      * simpl. rewrite Hsn. intros x [Hx| ->%list_elem_of_singleton]%elem_of_app; auto.
      * simpl. rewrite Hsn, HP, list_to_set_app_L. simpl. set_solver.
      * rewrite (ctl_loglock _ _ C). done.
    + unfold cache_room. rewrite Eh, (ctl_ctxs _ _ C). simpl. rewrite Hsn.
      exists (rm + 1). rewrite lookup_insert_eq. change LOG_MAX_SIZE with 63.
      replace (list_to_set (logged_blocks (header s) ++ [bno]) : gset Z)
        with ({[bno]} ∪ list_to_set (logged_blocks (header s)) : gset Z)
        by (rewrite list_to_set_app_L; simpl; set_solver).
      split_and!; [done|lia|lia|]. eapply log_quiet_ctl; [exact C|]. by destruct HQ.
    + rewrite (ctl_bitmaplock _ _ C). done.
Qed.

Lemma data_ok V H s a bno d :
cache_rep V H s → H !! a = Some (bno, d) → ∃ b, blk a s = Ok (b, s) ∧ data b = d.
Proof.
intros [(P & R & L) _ _ _] Ha. destruct (blk_spec start V H P s a bno d R Ha) as (b & ? & ? & _).
eauto.
Qed.

Lemma cache_rep_ctl V H s f :
cache_rep V H s → cache_rep V H (upd_bitmaplock f s).
Proof.
intros [(P & [R ?] & L) ? ? ?]. split; [|done..]. exists P. split.
- split; [|done]. by eapply ccore_ctl.
- by destruct L.
Qed.

(** ** The effect of setting and clearing a bit *)

Lemma bitmap_block_pos_eq b b' :
bitmap_block b = bitmap_block b' → b / BIT_PER_BLOCK = b' / BIT_PER_BLOCK.
Proof. unfold bitmap_block. lia. Qed.

Lemma used_ext V V' b : 0 ≤ b < nb → (∀ x, is_bitmap x → V' x = V x) → used V' b = used V b.
Proof. intros Hb H. unfold used. rewrite H; [done|]. by exists b. Qed.

Lemma is_free_ext V V' b : (∀ x, is_bitmap x → V' x = V x) → is_free V' b ↔ is_free V b.
Proof.
intros H. unfold is_free. split; intros [? Hu]; (split; [done|]).
- by rewrite <-(used_ext V V').
- by rewrite (used_ext V V').
Qed.

(** [f] changes exactly bit [b mod 4096] of the bitmap block of [b], to [v] *)
Definition sets_bit (f : list Z → list Z) (b : Z) (v : bool) (d : list Z) : Prop :=
∀ k, 0 ≤ k < 4096 → bit_of (f d) k = if k =? b mod BIT_PER_BLOCK then v else bit_of d k.

Lemma used_update V f b v x :
0 ≤ b → 0 ≤ x → sets_bit f b v (V (bitmap_block b)) →
used (fupd V (bitmap_block b) (f (V (bitmap_block b)))) x =
  if decide (x = b) then v else used V x.
Proof.
intros Hb Hx Hf. unfold used. change BIT_PER_BLOCK with 4096 in *.
unfold fupd. destruct (decide (bitmap_block x = bitmap_block b)) as [He|Hne].
- rewrite (Hf (x mod 4096)) by zmod. change BIT_PER_BLOCK with 4096.
  apply bitmap_block_pos_eq in He as Hq. change BIT_PER_BLOCK with 4096 in Hq.
  destruct (Z.eqb_spec (x mod 4096) (b mod 4096)); case_decide.
  + done.
  + zmod.
  + subst. done.
  + by rewrite He.
- rewrite decide_False; [done|]. by intros ->.
Qed.

Lemma least_free V b : is_free V b →
∃ b0, is_free V b0 ∧ ∀ b', 0 ≤ b' < b0 → used V b' = true.
Proof.
intros Hb. assert (0 ≤ b) as Hpos by apply Hb. revert Hb.
induction b as [b IH] using (well_founded_induction (Z.lt_wf 0)). intros Hb.
destruct (decide (Exists (λ b', used V b' = false) (zseq 0 (Z.to_nat b)))) as [He|Hn].
- apply Exists_exists in He as (b' & Hin & Hu). apply elem_of_zseq in Hin.
  apply (IH b'); [lia|lia|]. destruct Hb. split; [lia|done].
- exists b. split; [done|]. intros b' Hb'. destruct (used V b') eqn:E; [done|].
  destruct Hn. apply Exists_exists. exists b'. split; [|done]. apply elem_of_zseq. lia.
Qed.

(** ** [cache_alloc] *)

Lemma set_bit_sets a i d b :
length d = 512%nat → 0 ≤ a < 512 → 0 ≤ i < 8 → b mod BIT_PER_BLOCK = a * 8 + i →
sets_bit (set_bit a i) b true d.
Proof.
intros Hl Ha Hi Hb k Hk. rewrite Hb. destruct (set_bit_spec d a i Hl Ha Hi) as [_ ->]; [|done].
by destruct (k =? a * 8 + i).
Qed.

(** what [alloc] leaves: [b] taken and zeroed *)
Record allocated (V V' : Z → list Z) (b : Z) : Prop := {
al_free : is_free V b;
al_zero : V' b = blank;
al_rest : ∀ x, x ≠ b → ¬ is_bitmap x → V' x = V x;
al_isfree : ∀ x, is_free V' x ↔ is_free V x ∧ x ≠ b }.

Lemma alloc_found V H s ctx X k blockstart mp a i b :
cache_rep V (<[mp := (bitmap_block b, V (bitmap_block b))]> H) s → H !! mp = None →
is_free V b → b = blockstart + a * 8 + i → 0 ≤ i < 8 → 0 ≤ a < 512 →
blockstart mod 4096 = 0 → 0 ≤ blockstart →
  (∀ x, is_bitmap x → x ∈ X) → cache_room s ctx X (S k) →
(∀ a x d, H !! a = Some (x, d) → ¬ is_bitmap x ∧ ¬ is_free V x) →
∃ s' V', (set_blk mp (λ b, set_data (set_bit a i (data b)) b);;
    cache_sync ctx mp;;
    cache_release mp;;
    ans ← cache_acquire (blockstart + a * 8 + i);
    set_blk ans (set_data blank);;
    cache_sync ctx ans;;
    cache_release ans;;
    release_spinlock bitmaplock_;;
    mret (blockstart + a * 8 + i)) s = Ok (b, s') ∧
  cache_rep V' H s' ∧ bitmaplock s' = false ∧ cache_room s' ctx ({[b]} ∪ X) k ∧
    allocated V V' b.
Proof.
intros R Hmp Hfr Hbk Hi Ha Hm Hbs HX Hroom Hh.
set (bm := bitmap_block b) in *. set (d := set_bit a i (V bm)).
destruct (br_free _ _ _ R b Hfr) as [Hcb Hnbm].
assert (0 ≤ b) as Hb0 by apply Hfr.
assert (is_bitmap bm) as Hbm by (exists b; split; [apply Hfr|done]).
pose proof (br_bitmap _ _ _ R bm Hbm) as Hcbm.
destruct (br_blocks _ _ _ R bm) as [Hby Hlen].
assert (sets_bit (set_bit a i) b true (V bm)) as Hsets.
{ apply set_bit_sets; try done. change BIT_PER_BLOCK with 4096. zmod. }
assert (∀ x, is_free (fupd V bm d) x ↔ is_free V x ∧ x ≠ b) as Hfree1.
{ intros x. unfold is_free. split.
  - intros [Hx Hu]. unfold d, bm in Hu. rewrite (used_update V _ b true) in Hu by (done || lia).
    case_decide; [done|tauto].
  - intros [[Hx Hu] Hne]. split; [done|]. unfold d, bm.
    rewrite (used_update V _ b true) by (done || lia). by rewrite decide_False. }
destruct (update_ok V _ s mp bm (V bm) (set_bit a i) R) as (s1 & E1 & R1 & C1).
{ apply lookup_insert_eq. }
rewrite (bind_Ok _ _ _ _ _ E1). rewrite insert_insert_eq in R1.
destruct (sync_any V _ s1 mp bm d ctx X (S k) R1) as (s2 & E2 & R2 & Hr2 & B2).
{ apply lookup_insert_eq. } { done. }
{ split; [by apply set_bit_bytes|]. by apply (set_bit_spec (V bm) a i). }
{ intros x Hx. apply (br_free _ _ _ R). apply Hfree1 in Hx. tauto. }
{ by apply HX. } { by eapply cache_room_ctl. }
rewrite (bind_Ok _ _ _ _ _ E2).
destruct (release_ok (fupd V bm d) _ s2 mp bm R2) as (s3 & E3 & R3 & C3).
{ rewrite lookup_insert_eq. by rewrite fupd_eq. }
rewrite (bind_Ok _ _ _ _ _ E3). rewrite delete_insert_id in R3 by done.
destruct (acquire_ok (fupd V bm d) H s3 b R3 Hcb) as (an & s4 & E4 & Hn4 & R4 & C4).
{ intros a' d' E. destruct (Hh _ _ _ E) as [_ ?]. done. }
rewrite <-Hbk. rewrite (bind_Ok _ _ _ _ _ E4).
destruct (update_ok _ _ s4 an b (fupd V bm d b) (λ _, blank) R4) as (s5 & E5 & R5 & C5).
{ apply lookup_insert_eq. }
change (set_blk an (set_data blank) s4 = Ok (tt, s5)) in E5.
rewrite (bind_Ok _ _ _ _ _ E5). rewrite insert_insert_eq in R5.
assert (∀ x, is_free (fupd (fupd V bm d) b blank) x ↔ is_free V x ∧ x ≠ b) as Hfree2.
{ intros x. rewrite <-Hfree1. apply is_free_ext. intros y Hy. rewrite fupd_ne; [done|].
  by intros ->. }
destruct (sync_any _ _ s5 an b blank ctx ({[b]} ∪ X) k R5) as (s6 & E6 & R6 & Hr6 & B6).
{ apply lookup_insert_eq. } { done. }
{ split; [|done]. apply bytes_replicate. unfold is_byte. lia. }
{ intros x Hx. apply (br_free _ _ _ R). apply Hfree2 in Hx. tauto. }
{ set_solver. }
{ eapply cache_room_ctl; [exact C5|]. eapply cache_room_ctl; [exact C4|].
  eapply cache_room_ctl; [exact C3|]. by apply cache_room_add. }
rewrite (bind_Ok _ _ _ _ _ E6).
destruct (release_ok _ _ s6 an b R6) as (s7 & E7 & R7 & C7).
{ rewrite lookup_insert_eq. by rewrite fupd_eq. }
rewrite (bind_Ok _ _ _ _ _ E7). rewrite delete_insert_id in R7 by done.
erewrite bind_Ok by apply release_spinlock_run. rewrite mret_run.
eexists _, _. split; [done|]. split_and!.
- by apply cache_rep_ctl.
- done.
- apply cache_room_bitmaplock. by eapply cache_room_ctl.
- split; [done|by rewrite fupd_eq| |done]. intros x Hx Hnx.
  rewrite !fupd_ne; [done|congruence|done].
Qed.

Lemma bitmap_block_start b j : 0 ≤ j → b / 4096 = j → bitmap_block b = sb_bitmap_start sblock + j * 4096 / (BLOCK_SIZE * 8).
Proof.
intros Hj E. unfold bitmap_block. change BIT_PER_BLOCK with 4096. rewrite E.
change (BLOCK_SIZE * 8) with 4096. by rewrite Z.div_mul.
Qed.

Lemma alloc_loop_ok V H s ctx X k n j b :
cache_rep V H s → is_free V b → (∀ b', 0 ≤ b' < b → used V b' = true) →
0 ≤ j → j * 4096 ≤ b → b / 4096 < j + Z.of_nat n →
  (∀ x, is_bitmap x → x ∈ X) → cache_room s ctx X (S k) →
(∀ a x d, H !! a = Some (x, d) → ¬ is_bitmap x ∧ ¬ is_free V x) →
∃ s' V', alloc_loop sblock n ctx (j * 4096) s = Ok (b, s') ∧
  cache_rep V' H s' ∧ bitmaplock s' = false ∧ cache_room s' ctx ({[b]} ∪ X) k ∧
    allocated V V' b.
Proof.
intros R Hfr Hleast. revert j s R.
induction n as [|n IH]; intros j s R Hj Hle Hn HX Hroom Hh; [zmod|].
cbn [alloc_loop]. destruct (Z.ltb_spec (j * 4096) nb); [|destruct Hfr; lia].
set (bm := sb_bitmap_start sblock + j * 4096 / (BLOCK_SIZE * 8)).
assert (bm = bitmap_block (j * 4096)) as Ebm by (symmetry; apply bitmap_block_start; zmod).
assert (is_bitmap bm) as Hbm by (exists (j * 4096); split; [lia|done]).
destruct (acquire_ok V H s bm R (br_bitmap _ _ _ R bm Hbm)) as (mp & s1 & E1 & Hn1 & R1 & C1).
{ intros a d E. destruct (Hh _ _ _ E) as [? _]. done. }
rewrite (bind_Ok _ _ _ _ _ E1).
destruct (data_ok V _ s1 mp bm (V bm) R1) as (bk & E2 & Hbk); [apply lookup_insert_eq|].
rewrite (bind_Ok _ _ _ _ _ E2), Hbk.
destruct (br_blocks _ _ _ R bm) as [Hby Hlen].
pose proof (scan_bytes_spec 512 0 (j * 4096) (V bm) ltac:(lia) Hlen ltac:(lia)) as Hs.
assert (∀ x, x / 4096 = j → used V x = bit_of (V bm) (x - j * 4096)) as Hused.
{ intros x Hx. unfold used. rewrite (bitmap_block_start x j) by lia. fold bm.
  change BIT_PER_BLOCK with 4096. f_equal. zmod. }
destruct (scan_bytes _ _ _ _ _) as [[a i]|].
- destruct Hs as (Hi & Ha & Hx & Hbit & Hlow).
  assert (b = j * 4096 + a * 8 + i) as Hb.
  { destruct (Z.lt_trichotomy b (j * 4096 + a * 8 + i)) as [Hlt|[Heq|Hgt]]; [|done|].
    - destruct Hfr as [_ Hu]. rewrite Hused in Hu by zmod.
      rewrite Hlow in Hu by lia. done.
    - specialize (Hleast (j * 4096 + a * 8 + i) ltac:(lia)).
      rewrite Hused in Hleast by zmod.
      replace (j * 4096 + a * 8 + i - j * 4096) with (a * 8 + i) in Hleast by lia.
      congruence. }
  assert (bm = bitmap_block b) as Ebm2 by (symmetry; apply bitmap_block_start; zmod).
  rewrite Ebm2 in R1.
  apply (alloc_found V H s1 ctx X k (j * 4096) mp a i b); try done; [zmod|lia|].
  by eapply cache_room_ctl.
- destruct (release_ok V _ s1 mp bm R1) as (s2 & E3 & R2 & C2); [apply lookup_insert_eq|].
  rewrite (bind_Ok _ _ _ _ _ E3). rewrite delete_insert_id in R2 by done.
  change (BLOCK_SIZE * 8) with 4096. replace (j * 4096 + 4096) with ((j + 1) * 4096) by lia.
  destruct (decide (b / 4096 = j)) as [Hq|Hq].
  + destruct Hfr as [Hr Hu]. rewrite Hused in Hu by done.
    rewrite Hs in Hu; [done|zmod|zmod].
  + apply IH; [done|lia|zmod|lia|done| |done].
    eapply cache_room_ctl; [exact C2|]. by eapply cache_room_ctl.
Qed.

Lemma cache_alloc_ok V H s ctx X k :
cache_rep V H s → bitmaplock s = false → (∃ b, is_free V b) →
(∀ x, is_bitmap x → x ∈ X) → cache_room s ctx X (S k) →
(∀ a x d, H !! a = Some (x, d) → ¬ is_bitmap x ∧ ¬ is_free V x) →
∃ b s' V', cache_alloc sblock ctx s = Ok (b, s') ∧ cache_rep V' H s' ∧
  bitmaplock s' = false ∧ cache_room s' ctx ({[b]} ∪ X) k ∧ allocated V V' b ∧
  (∀ b', 0 ≤ b' < b → used V b' = true).
Proof.
intros R Hbl [b0 Hb0] HX Hroom Hh. destruct (least_free V b0 Hb0) as (b & Hb & Hleast).
unfold cache_alloc. rewrite (bind_Ok _ _ _ _ _ (acquire_spinlock_run bitmaplock_ s Hbl)).
set (s1 := set_locked bitmaplock_ true s).
destruct (alloc_loop_ok V H s1 ctx X k (S (Z.to_nat (nb / (BLOCK_SIZE * 8)))) 0 b)
  as (s' & V' & E & R' & B' & Hr' & Hal); try done.
- by apply cache_rep_ctl.
- by destruct Hb; lia.
- change (BLOCK_SIZE * 8) with 4096. destruct Hb. zmod.
- by apply cache_room_bitmaplock.
- exists b, s', V'. done.
Qed.

(** With no free block [cache_alloc] panics. *)
Lemma alloc_loop_full V H s ctx n j :
cache_rep V H s → (∀ b, ¬ is_free V b) → 0 ≤ j →
(∀ a x d, H !! a = Some (x, d) → ¬ is_bitmap x) →
alloc_loop sblock n ctx (j * 4096) s = Panic.
Proof.
intros R Hfull Hj Hh. revert j s R Hj. induction n as [|n IH]; intros j s R Hj; [done|].
cbn [alloc_loop]. destruct (Z.ltb_spec (j * 4096) nb); [|done].
set (bm := sb_bitmap_start sblock + j * 4096 / (BLOCK_SIZE * 8)).
assert (bm = bitmap_block (j * 4096)) as Ebm by (symmetry; apply bitmap_block_start; zmod).
assert (is_bitmap bm) as Hbm by (exists (j * 4096); split; [lia|done]).
destruct (acquire_ok V H s bm R (br_bitmap _ _ _ R bm Hbm)) as (mp & s1 & E1 & Hn1 & R1 & C1).
{ intros a d E. by destruct (Hh _ _ _ E). }
rewrite (bind_Ok _ _ _ _ _ E1).
destruct (data_ok V _ s1 mp bm (V bm) R1) as (bk & E2 & Hbk); [apply lookup_insert_eq|].
rewrite (bind_Ok _ _ _ _ _ E2), Hbk.
destruct (br_blocks _ _ _ R bm) as [Hby Hlen].
pose proof (scan_bytes_spec 512 0 (j * 4096) (V bm) ltac:(lia) Hlen ltac:(lia)) as Hs.
destruct (scan_bytes _ _ _ _ _) as [[a i]|].
- destruct Hs as (Hi & Ha & Hx & Hbit & Hlow). exfalso.
  apply (Hfull (j * 4096 + a * 8 + i)). split; [lia|]. unfold used.
  rewrite (bitmap_block_start _ j) by zmod. fold bm. change BIT_PER_BLOCK with 4096.
  rewrite <-Hbit. f_equal. zmod.
- destruct (release_ok V _ s1 mp bm R1) as (s2 & E3 & R2 & C2); [apply lookup_insert_eq|].
  rewrite (bind_Ok _ _ _ _ _ E3). rewrite delete_insert_id in R2 by done.
  change (BLOCK_SIZE * 8) with 4096. replace (j * 4096 + 4096) with ((j + 1) * 4096) by lia.
  apply IH; [done|lia].
Qed.

(** ** [cache_free] *)

Lemma clear_bit_sets d b v :
length d = 512%nat → 0 ≤ b → d !! Z.to_nat (b mod 4096 / 8) = Some v →
bit_of d (b mod 4096) = true →
sets_bit (λ d, <[Z.to_nat (b mod 4096 / 8) := u8 (v - Z.shiftl 1 (b mod 4096 mod 8))]> d) b false d.
Proof.
intros Hl Hb Ev Hbit k Hk. change BIT_PER_BLOCK with 4096.
rewrite (bit_of_insert _ _ _ v) by (done || zmod).
assert (bit_of d (b mod 4096) = Z.testbit v (b mod 4096 mod 8)) as Hv.
{ unfold bit_of. f_equal. by apply nth_lookup_Some. }
case_decide as He.
- rewrite testbit_sub by (try zmod; congruence).
  destruct (Z.eqb_spec k (b mod 4096)) as [->|Hne].
  + by rewrite Z.eqb_refl.
  + destruct (Z.eqb_spec (b mod 4096 mod 8) (k mod 8)); [zmod|]. simpl.
    unfold bit_of. rewrite He. f_equal. symmetry. by apply nth_lookup_Some.
- destruct (Z.eqb_spec k (b mod 4096)); [by subst|done].
Qed.

Lemma cache_free_ok V H s ctx X k b :
cache_rep V H s → bitmaplock s = false → client_block b → ¬ is_bitmap b → ¬ is_free V b →
(∀ x, is_bitmap x → x ∈ X) → cache_room s ctx X k →
(∀ a x d, H !! a = Some (x, d) → ¬ is_bitmap x) →
∃ s' V', cache_free sblock ctx b s = Ok (tt, s') ∧ cache_rep V' H s' ∧
  bitmaplock s' = false ∧ cache_room s' ctx X k ∧ (∀ x, ¬ is_bitmap x → V' x = V x) ∧
  (∀ x, is_free V' x ↔ is_free V x ∨ x = b).
Proof.
intros R Hbl Hcb Hnb Hused HX Hroom Hh. destruct Hcb as (Hb & Hb32 & Hout).
assert (used V b = true) as Hu.
{ destruct (used V b) eqn:E; [done|]. destruct Hused. split; [lia|done]. }
unfold cache_free. rewrite (bind_Ok _ _ _ _ _ (acquire_spinlock_run bitmaplock_ s Hbl)).
change (8 * BLOCK_SIZE) with 4096.
change (sb_bitmap_start sblock + b / 4096) with (bitmap_block b).
set (s0 := set_locked bitmaplock_ true s). set (bm := bitmap_block b).
assert (cache_rep V H s0) as R0 by by apply cache_rep_ctl.
assert (is_bitmap bm) as Hbm by (exists b; split; [lia|done]).
pose proof (br_bitmap _ _ _ R bm Hbm) as Hcbm.
destruct (acquire_ok V H s0 bm R0 Hcbm) as (mp & s1 & E1 & Hn1 & R1 & C1).
{ intros a d E. by destruct (Hh _ _ _ E). }
rewrite (bind_Ok _ _ _ _ _ E1).
destruct (data_ok V _ s1 mp bm (V bm) R1) as (bk & E2 & Hbk); [apply lookup_insert_eq|].
rewrite (bind_Ok _ _ _ _ _ E2), Hbk.
destruct (br_blocks _ _ _ R bm) as [Hby Hlen].
destruct (lookup_lt_is_Some_2 (V bm) (Z.to_nat (b mod 4096 / 8))) as (v & Ev).
{ rewrite Hlen. zmod. }
erewrite bind_Ok by (apply getopt_run; exact Ev).
set (f := λ d : list Z, <[Z.to_nat (b mod 4096 / 8) := u8 (v - Z.shiftl 1 (b mod 4096 mod 8))]> d).
assert (sets_bit f b false (V bm)) as Hsets by (apply clear_bit_sets; [done|lia|done|exact Hu]).
destruct (update_ok V _ s1 mp bm (V bm) (λ _, f (V bm)) R1) as (s2 & E3 & R2 & C2).
{ apply lookup_insert_eq. }
change (set_blk mp (set_data (f (V bm))) s1 = Ok (tt, s2)) in E3.
rewrite (bind_Ok _ _ _ _ _ E3). rewrite insert_insert_eq in R2.
assert (∀ x, is_free (fupd V bm (f (V bm))) x ↔ is_free V x ∨ x = b) as Hfree.
{ intros x. unfold is_free. split.
  - intros [Hx Hxu]. unfold bm in Hxu. rewrite (used_update V f b false) in Hxu by (done || lia).
    case_decide; tauto.
  - intros Hor. assert (0 ≤ x < nb) as Hx by (destruct Hor as [?| ->]; lia).
    split; [done|]. unfold bm. rewrite (used_update V f b false) by (done || lia).
    case_decide; [done|]. tauto. }
destruct (sync_any V _ s2 mp bm (f (V bm)) ctx X k R2) as (s3 & E4 & R3 & Hr3 & B3).
{ apply lookup_insert_eq. } { done. }
{ split; [apply bytes_insert; [done|apply u8_range]|]. unfold f. by rewrite length_insert. }
{ intros x [Hx| ->]%Hfree; [by apply (br_free _ _ _ R)|done]. }
{ by apply HX. }
{ eapply cache_room_ctl; [exact C2|]. eapply cache_room_ctl; [exact C1|].
  by apply cache_room_bitmaplock. }
rewrite (bind_Ok _ _ _ _ _ E4).
destruct (release_ok _ _ s3 mp bm R3) as (s4 & E5 & R4 & C4).
{ rewrite lookup_insert_eq. by rewrite fupd_eq. }
rewrite (bind_Ok _ _ _ _ _ E5). rewrite delete_insert_id in R4 by done.
rewrite release_spinlock_run. eexists _, _. split; [done|]. split_and!.
- by apply cache_rep_ctl.
- done.
- apply cache_room_bitmaplock. by eapply cache_room_ctl.
- intros x Hx. apply fupd_ne. by intros ->.
- done.
Qed.
End alloc.

(** ** [fs/cache.c] implements [BlockCache] *)

Definition cache_ops (sb : SuperBlock) : BlockCache cachest := {|
  bc_acquire := cache_acquire;
  bc_release := cache_release;
  bc_data a := b ← blk a; mret (data b);
  bc_update a f := set_blk a (λ b, set_data (f (data b)) b);
  bc_sync := cache_sync;
  bc_alloc := cache_alloc sb;
  bc_free := cache_free sb |}.

#[refine] Definition cache_laws (sb : SuperBlock) : @BlockCacheLaws cachest (cache_ops sb) := {|
  bc_rep V H s := cache_rep sb V H s ∧ bitmaplock s = false;
  bc_block := client_block sb;
  bc_bitmap := is_bitmap sb;
  bc_isfree := is_free sb;
  bc_room := cache_room sb |}.
Proof.
  all: simpl.
  - intros V H s bno [R B] Hc Hh.
    destruct (acquire_ok sb V H s bno R Hc Hh) as (a & s' & E & Hn & R' & C).
    exists a, s'. split_and!; [done|done|done|by rewrite (ctl_bitmaplock _ _ C)|].
    intros ctx X k. by apply cache_room_ctl.
  - intros V H s a bno d [[(P & R & L) _ _ _] B] Ha.
    exact (cache_acquire_deadlock (sb_log_start sb) V P H s a bno d R Ha).
  - intros V H s a bno [R B] Ha.
    destruct (release_ok sb V H s a bno R Ha) as (s' & E & R' & C).
    exists s'. split_and!; [done|done|by rewrite (ctl_bitmaplock _ _ C)|].
    intros ctx X k. by apply cache_room_ctl.
  - intros V H s a bno d [R B] Ha.
    destruct (data_ok sb V H s a bno d R Ha) as (b & E & <-). by rewrite (bind_Ok _ _ _ _ _ E).
  - intros V H s a bno d f [R B] Ha.
    destruct (update_ok sb V H s a bno d f R Ha) as (s' & E & R' & C).
    exists s'. split_and!; [done|done|by rewrite (ctl_bitmaplock _ _ C)|].
    intros ctx X k. by apply cache_room_ctl.
  - intros V H s a bno d ctx X k [R B] Ha Hc Hb Hd HX Hr.
    destruct (sync_any sb V H s a bno d ctx X k R Ha Hc Hd) as (s' & E & R' & Hr' & B').
    { intros x Hx. apply (br_free _ _ _ _ R).
      revert Hx. apply is_free_ext. intros y Hy. rewrite fupd_ne; [done|]. by intros ->. }
    { done. } { done. }
    exists s'. split_and!; [done|done|by rewrite B'|done].
  - intros V H s ctx X k [R B] Hf HX Hr Hh.
    destruct (cache_alloc_ok sb V H s ctx X k R B Hf HX Hr Hh)
      as (b & s' & V' & E & R' & B' & Hr' & [] & _).
    destruct (br_free _ _ _ _ R b) as [? ?]; [done|]. eauto 20.
  - intros V H s ctx X k b [R B] Hc Hnb Hnf HX Hr Hh.
    destruct (cache_free_ok sb V H s ctx X k b R B Hc Hnb Hnf HX Hr Hh)
      as (s' & V' & E & R' & B' & Hr' & Hx & Hi). eauto 10.
  - intros s ctx X X' k k'. apply cache_room_le.
  - intros s ctx X k b. apply cache_room_add.
  - intros V V' x. apply is_free_ext.
  - intros b (? & ? & _). lia.
  - intros V H s bno [R _]. apply R.
Defined.

(** ** Swap space *)

Lemma mark_lookup (v : bool) (l : list bool) i n k (j : nat) : 0 ≤ i + k →
  fold_left (λ (l : list bool) j, <[Z.to_nat (i + j) := v]> l) (zseq k n) l !! j =
    if decide (i + k ≤ Z.of_nat j < i + k + Z.of_nat n ∧ (j < length l)%nat) then Some v
    else l !! j.
Proof.
  revert l k. induction n as [|n IH]; intros l k Hk; simpl.
  - rewrite decide_False by lia. done.
  - rewrite IH, length_insert by lia. destruct (decide (j = Z.to_nat (i + k))) as [Hj|Hj].
    + rewrite decide_False by lia. destruct (decide (j < length l)%nat).
      * rewrite decide_True by lia. rewrite Hj. apply list_lookup_insert_eq. lia.
      * rewrite decide_False by lia. rewrite !lookup_ge_None_2; [done|lia|].
        rewrite length_insert. lia.
    + rewrite list_lookup_insert_ne by lia. repeat case_decide; try done; lia.
Qed.

Lemma free8_spec l i :
  0 ≤ i → i + 8 ≤ Z.of_nat (length l) →
  free8 l i = true ↔ ∀ j, i ≤ Z.of_nat j < i + 8 → l !! j = Some false.
Proof.
  intros Hi Hl. unfold free8. rewrite forallb_forall. split.
  - intros H j Hj. specialize (H (Z.of_nat j - i)).
    destruct (lookup_lt_is_Some_2 l j) as (b & Eb); [lia|].
    rewrite <-list_elem_of_In, elem_of_zseq in H. specialize (H ltac:(lia)).
    replace (Z.to_nat (i + (Z.of_nat j - i))) with j in H by lia.
    rewrite (nth_lookup_Some _ _ _ _ Eb) in H. destruct b; [done|done].
  - intros H x Hx. rewrite <-list_elem_of_In, elem_of_zseq in Hx.
    by rewrite (nth_lookup_Some _ _ _ false) by (apply H; lia).
Qed.

Definition swap_free (l : list bool) (i : Z) : Prop := 0 ≤ i < 192 ∧ free8 l i = true.

Lemma find_free8 l :
  (∃ i, swap_free l i) → ∃ i, List.find (free8 l) (zseq 0 192) = Some i ∧ swap_free l i.
Proof.
  intros (i & Hi & Hf). destruct (List.find (free8 l) (zseq 0 192)) as [j|] eqn:E.
  - apply List.find_some in E as [Hj Hfj]. exists j. split; [done|].
    rewrite <-list_elem_of_In, elem_of_zseq in Hj. split; [lia|done].
  - exfalso. rewrite (List.find_none _ _ E i) in Hf; [done|].
    apply list_elem_of_In, elem_of_zseq. lia.
Qed.

(** ** Properties *)


(** [cache_free] of an allocated block marks exactly that block as free, and frees again what
    [cache_alloc] took: the set of free blocks after the pair is the one from before. *)
Theorem cache_alloc_free_roundtrip sb V H s ctx X :
  cache_rep sb V H s → bitmaplock s = false → (∃ b, is_free sb V b) →
  (∀ x, is_bitmap sb x → x ∈ X) → cache_room sb s ctx X 1 →
  (∀ a x d, H !! a = Some (x, d) → ¬ is_bitmap sb x ∧ ¬ is_free sb V x) →
  ∃ b s1 s2 V2, cache_alloc sb ctx s = Ok (b, s1) ∧ cache_free sb ctx b s1 = Ok (tt, s2) ∧
    cache_rep sb V2 H s2 ∧ (∀ x, is_free sb V2 x ↔ is_free sb V x).
Proof.
  intros R B Hf HX Hr Hh. destruct (cache_alloc_ok sb V H s ctx X 0 R B Hf HX Hr Hh)
    as (b & s1 & V1 & E1 & R1 & B1 & Hr1 & [Hb Hz Ho Hi] & _).
  destruct (br_free _ _ _ _ R b Hb) as [Hc Hnb].
  destruct (cache_free_ok sb V1 H s1 ctx ({[b]} ∪ X) 0 b R1 B1 Hc Hnb)
    as (s2 & V2 & E2 & R2 & _ & _ & _ & Hi2).
  - rewrite Hi. tauto.
  - intros x Hx. apply elem_of_union_r. by apply HX.
  - done.
  - intros a x d E. by destruct (Hh a x d E).
  - exists b, s1, s2, V2. split_and!; [done|done|done|]. intros x. rewrite Hi2, Hi.
    destruct (decide (x = b)) as [->|]; tauto.
Qed.

(** As long as eight adjacent swap slots are free (and do not end at the very last one),
    [find_and_set_8_blocks] returns eight free slots of the swap area, marks exactly them,
    and [release_8_blocks] gives them back. *)
Theorem swap_slots_roundtrip s :
  length (inuse s) = 200%nat → (∃ i, swap_free (inuse s) i) →
  ∃ i s1 s2, find_and_set_8_blocks s = Ok (SWAP_START + i, s1) ∧ swap_free (inuse s) i ∧
    (∀ j, inuse s1 !! j = if decide (i ≤ Z.of_nat j < i + 8) then Some true else inuse s !! j) ∧
    release_8_blocks (SWAP_START + i) s1 = Ok (tt, s2) ∧ inuse s2 = inuse s.
Proof.
  intros Hl Hex. destruct (find_free8 _ Hex) as (i & Ei & Hi & Hf).
  unfold find_and_set_8_blocks. rewrite (bind_Ok _ _ _ _ _ (gets_run _ _)).
  change (Z.to_nat (SWAP_END - SWAP_START - 8)) with 192%nat. rewrite Ei.
  erewrite bind_Ok by apply modify_run.
  assert (∀ v l j, length l = 200%nat → mark8 v l i !! j =
    if decide (i ≤ Z.of_nat j < i + 8) then Some v else l !! j) as Hm.
  { intros v l j Hl'. unfold mark8. rewrite mark_lookup by lia.
    repeat case_decide; try done; lia. }
  eexists i, _, _. split; [done|]. split; [done|]. split; [|split; [done|]].
  - intros j. by apply Hm.
  - change (mark8 false (mark8 true (inuse s) i) (u32 (SWAP_START + i - SWAP_START)) = inuse s).
    rewrite (u32_id (SWAP_START + i - SWAP_START)) by (unfold SWAP_START; lia).
    replace (SWAP_START + i - SWAP_START) with i by lia.
    apply list_eq. intros j. rewrite Hm.
    + rewrite Hm by done. case_decide as Hj; [|done].
      symmetry. refine (proj1 (free8_spec (inuse s) i _ _) Hf j Hj); lia.
    + assert (∀ n k l, length (fold_left (λ (l : list bool) j, <[Z.to_nat (i + j) := true]> l) (zseq k n) l)
        = length l) as Hlen.
      { induction n as [|n IH]; intros k l; simpl; [done|]. by rewrite IH, length_insert. }
      unfold mark8. by rewrite Hlen.
Qed.

(** The last eight slots are never found: the loop of [find_and_set_8_blocks] stops one
    position too early, so a swap area with only them left panics. *)
Example swap_last_slots_lost :
  find_and_set_8_blocks (upd_inuse (λ _, replicate 192 true ++ replicate 8 false) (boot ∅)) = Panic
  ∧ free8 (replicate 192 true ++ replicate 8 false) 192 = true.
Proof. split; reflexivity. Qed.

Lemma swap_slots_roundtrip_witness :
  ∃ i s1 s2, find_and_set_8_blocks (boot ∅) = Ok (SWAP_START + i, s1) ∧
    swap_free (replicate 200 false) i ∧
    (∀ j, inuse s1 !! j =
       if decide (i ≤ Z.of_nat j < i + 8) then Some true else replicate 200 false !! j) ∧
    release_8_blocks (SWAP_START + i) s1 = Ok (tt, s2) ∧ inuse s2 = replicate 200 false.
Proof.
  refine (swap_slots_roundtrip (boot ∅) eq_refl _).
  exists 0. split; [lia|reflexivity].
Defined.

(** ** A concrete disk: 100 blocks, all in use but block 90 *)

Definition small_sb : SuperBlock := mkSuper 100 10 16 63 2 66 80.
Definition small_bitmap : list Z := replicate 11 255 ++ [251; 255] ++ replicate 499 0.
Definition small_disk : gmap Z (list Z) := {[80 := small_bitmap]}.

Lemma small_bitmap_block b : is_bitmap small_sb b → b = 80.
Proof.
  intros (x & Hx & ->). unfold bitmap_block. simpl in *. change BIT_PER_BLOCK with 4096.
  rewrite Z.div_small by lia. done.
Qed.

Lemma small_free b : is_free small_sb (dread small_disk) b → b = 90.
Proof.
  intros [Hb Hu]. assert (b ∈ zseq 0 100) as Hin by (apply elem_of_zseq; simpl in *; lia).
  revert b Hin Hb Hu.
  cut (Forall (λ b, used small_sb (dread small_disk) b = false → b = 90) (zseq 0 100)).
  { rewrite Forall_forall. auto. }
  by_decision.
Qed.

Lemma small_client b : b = 80 ∨ b = 90 → client_block small_sb b.
Proof. intros [-> | ->]; unfold client_block, in_log; simpl; change LOG_MAX_SIZE with 63; lia. Qed.

Lemma small_rep : cache_rep small_sb (dread small_disk) ∅ (boot small_disk).
Proof.
  split.
  - exists ∅. split; [apply boot_crep|]. split; first [done | by_decision | idtac].
    intros x Hx. by apply elem_of_nil in Hx.
  - intros b. unfold dread, small_disk. destruct (decide (b = 80)) as [->|Hne].
    + rewrite lookup_singleton_eq. by_decision.
    + rewrite lookup_singleton_ne by done. by_decision.
  - intros b ->%small_free. split; [by apply small_client; right|].
    by intros ?%small_bitmap_block.
  - intros b ->%small_bitmap_block. apply small_client. by left.
Qed.

Lemma small_bitmap_in x : is_bitmap small_sb x → x ∈ ({[80]} : gset Z).
Proof. intros ->%small_bitmap_block. set_solver. Qed.

Lemma small_has_free : ∃ b, is_free small_sb (dread small_disk) b.
Proof. exists 90. split; [done|reflexivity]. Qed.


Lemma cache_alloc_free_roundtrip_witness :
  ∃ b s1 s2 V2, cache_alloc small_sb None (boot small_disk) = Ok (b, s1) ∧
    cache_free small_sb None b s1 = Ok (tt, s2) ∧ cache_rep small_sb V2 ∅ s2 ∧
    (∀ x, is_free small_sb V2 x ↔ is_free small_sb (dread small_disk) x).
Proof.
  exact (cache_alloc_free_roundtrip small_sb (dread small_disk) ∅ (boot small_disk) None {[80]}
    small_rep eq_refl small_has_free small_bitmap_in I ltac:(intros ? ? ? [=])).
Defined.

(** Freeing a block that is free already corrupts the bitmap: here [cache_free] of the free
    block 90 turns the byte [251] into [247], which takes block 90 and frees block 91. *)
Example cache_double_free :
  ∃ s, cache_free small_sb None 90 (boot small_disk) = Ok (tt, s) ∧
    used small_sb (dread (disk s)) 90 = true ∧ used small_sb (dread (disk s)) 91 = false.
Proof.
  destruct (cache_free small_sb None 90 (boot small_disk)) as [[[] s]| | | | |] eqn:E;
    [|vm_compute in E; discriminate..].
  exists s. split; [done|].
  assert (disk s = <[80 := replicate 11 255 ++ [247; 255] ++ replicate 499 0]> small_disk) as ->.
  { vm_compute in E. injection E as <-. vm_compute. reflexivity. }
  split; vm_compute; reflexivity.
Qed.
