(* ===== verification/CacheOps.v ===== *)
(** * [fs/cache.c] implements the operations on the log

    [cache_begin_op] on an idle log opens an operation with room for [OP_MAX_NUM_BLOCKS]
    blocks, and [cache_end_op] makes everything it has written durable. *)

From Stdlib Require Import ZArith Lia.
From S2P Require Import Prelude Words Sync Layout Cache CacheSpec CacheLog BlockCache CacheAlloc.

Section ops.
Context (sb : SuperBlock).
Local Notation start := (sb_log_start sb).
Implicit Types (V : Z → list Z) (s : cachest).

(** no operation is under way and the log is empty *)
Definition log_idle (s : cachest) : Prop := log_quiet sb 0 s ∧ lh_num_blocks (header s) = 0.

(** the cache between calls of its clients, as [cache_laws] has it *)
Local Notation rep V s := (cache_rep sb V ∅ s ∧ bitmaplock s = false).

Lemma begin_op_run V s c :
  rep V s → log_idle s →
  ∃ s', cache_begin_op c s = Ok (tt, s') ∧ rep V s' ∧
    ∀ X k, (size X + k ≤ bl_room)%nat → cache_room sb s' (Some c) X k.
Proof.
  intros [[(P & R & L) Hb Hf Hm] B] [[Q1 Q2 Q3 Q4 Q5 Q6] Hn]. pose proof L as [? ? ? ? ? HP Hll].
  unfold cache_begin_op. rewrite (bind_Ok _ _ _ _ _ (acquire_spinlock_run loglock_ s Hll)).
  erewrite bind_Ok by apply modify_run. erewrite bind_Ok by apply gets_run.
  cbn [begin_loop]. rewrite bind_assoc. erewrite bind_Ok by apply gets_run.
  unfold id. simpl. rewrite Q5, Q6, Hn. change (LOG_MAX_SIZE <? _) with false. simpl.
  erewrite bind_Ok by apply mret_run. erewrite bind_Ok by apply modify_run.
  rewrite release_spinlock_run. eexists. split; [done|]. split.
  - split; [|done]. split; [|done..]. exists P. destruct R as [[] ?]. split; [|by destruct L].
    by split.
  - intros X k HX. exists 0. simpl. rewrite lookup_insert_eq. unfold bl_room in HX.
    unfold logged_blocks. rewrite Hn. simpl.
    replace (X ∖ ∅) with X by set_solver. change OP_MAX_NUM_BLOCKS with 10.
    change LOG_MAX_SIZE with 63. split_and!; [done|lia|lia|].
    split; simpl; (done || lia).
Qed.

(** Every block the disk holds after some writes is one of them or was there before. *)
Lemma dread_apply_cases ws d x :
  x ∉ ws.*1 ∧ dread (apply_writes ws d) x = dread d x ∨
  ∃ v, (x, v) ∈ ws ∧ dread (apply_writes ws d) x = v.
Proof.
  induction ws as [|[b v] ws IH] using rev_ind; [by left; split; [apply not_elem_of_nil|]|].
  rewrite apply_writes_snoc, dread_insert, fmap_app. case_decide as Hx.
  - right. exists v. subst. split; [|done]. apply elem_of_app. right. left.
  - destruct IH as [[Hn E]|(w & Hw & E)].
    + left. split; [|done]. apply not_elem_of_app. split; [done|].
      simpl. apply not_elem_of_cons. split; [done|apply not_elem_of_nil].
    + right. exists w. split; [|done]. apply elem_of_app. by left.
Qed.

Lemma header_ok_of P s : log_ok sb P s → header_ok sb (header s).
Proof.
  intros [? ? ? ? Hc ? ?]. split; try done. intros x Hx Hi. destruct (Hc x Hx) as (_ & _ & Hn).
  apply Hn. unfold in_log in *. lia.
Qed.

(** what a commit leaves on disk consists of proper blocks *)
Lemma commit_blocks_ok V P s :
  crep start V ∅ P s → log_ok sb P s → (∀ b, block_ok (V b)) → log_quiet sb 1 s →
  ∀ x, block_ok (dread (apply_writes (commit_writes sb (header s) V) (disk s)) x).
Proof.
  intros [[] _] L Hb Q x. pose proof (header_ok_of P s L) as Hh.
  destruct (dread_apply_cases (commit_writes sb (header s) V) (disk s) x) as [[Hn ->]|(v & Hv & ->)].
  - rewrite <-cr_clean; [done|]. rewrite (lo_pinned _ _ _ L), elem_of_list_to_set. intros Hx.
    apply Hn. unfold commit_writes. rewrite !fmap_app, home_copy_fst, !elem_of_app. tauto.
  - unfold commit_writes in Hv. rewrite !elem_of_app, !list_elem_of_singleton in Hv.
    destruct Hv as [(i & b & _ & _ & ->)%log_copy_elem|[[= _ ->]|[[_ ->]%home_copy_elem|[= _ ->]]]];
      try done.
    + apply block_ok_enc_header, Hh.
    + apply block_ok_enc_header, Hh.
Qed.

Lemma end_op_run V s c X k :
  rep V s → cache_room sb s (Some c) X k →
  ∃ s' V', cache_end_op sb c s = Ok (tt, s') ∧ rep V' s' ∧ log_idle s' ∧
    ∀ b, client_block sb b → V' b = V b ∧ dread (disk s') b = V b.
Proof.
  intros [[(P & R & L) Hb Hf Hm] B] (rm & _ & _ & _ & Q). pose proof (header_ok_of P s L) as Hh.
  pose proof Q as [Q1 Q2 Q3 Q4 Q5 Q6].
  assert (log_rep sb P s) as LR by (destruct L; by split).
  destruct (end_op_commit sb V P s c R LR Q6) as (s' & V' & E & R' & Hv & C).
  assert (∀ x, V' x = dread (disk s') x) as Hd by (intros; by apply R').
  assert (∀ b, client_block sb b → V' b = V b) as Hcl.
  { intros b (_ & _ & Hn). apply Hv. intros Hi. apply Hn. destruct Hh. unfold in_log in *. lia. }
  assert (header s' = cleared (header s)) as Eh by by rewrite (ctl_header _ _ C).
  assert (dread (disk s') start = enc_header (cleared (header s))) as Hds.
  { rewrite (ctl_disk _ _ C). simpl. unfold commit_writes.
    by rewrite !app_assoc, apply_writes_snoc, dread_insert, decide_True. }
  assert (∀ x, is_free sb V' x ↔ is_free sb V x) as Hfr.
  { intros x. apply is_free_ext. intros b Hbm. apply Hcl. auto. }
  exists s', V'. split; [done|]. split_and!.
  - split; [| |by intros b ?%Hfr; apply Hf|done].
    + exists ∅. split; [done|]. destruct Hh. split; rewrite ?Eh; try done.
      * simpl. constructor.
      * intros x Hx. by apply elem_of_nil in Hx.
      * rewrite (ctl_loglock _ _ C). apply L.
    + intros b. rewrite Hd, (ctl_disk _ _ C). simpl. by apply (commit_blocks_ok V P s).
  - by rewrite (ctl_bitmaplock _ _ C).
  - split; [split; rewrite ?Hds|by rewrite Eh].
    + rewrite dec_enc_header; [done|]. eapply header_ok_wf, header_ok_cleared, Hh.
    + apply block_ok_enc_header, Hh.
    + by rewrite (ctl_logsem _ _ C).
    + by rewrite (ctl_check _ _ C).
    + by rewrite (ctl_iscommit _ _ C).
    + apply ctl_eq in C. destruct_and!. simpl in *. lia.
  - intros b Hc. rewrite <-Hd. split; by apply Hcl.
Qed.
End ops.

(** ** The instance *)

Definition log_ops (sb : SuperBlock) : BlockLog cachest := {|
  bl_begin := cache_begin_op;
  bl_end := cache_end_op sb |}.

#[refine] Definition log_laws (sb : SuperBlock) :
    @BlockLogLaws cachest (cache_ops sb) (cache_laws sb) (log_ops sb) := {|
  bl_idle := log_idle sb;
  bl_disk s b := dread (disk s) b |}.
Proof.
  - intros V s c. apply begin_op_run.
  - intros V s c X k R Hr. destruct (end_op_run sb V s c X k R Hr) as (s' & V' & ? & ? & ? & ?).
    by exists s', V'.
  - intros V s b [R _]. apply R.
Defined.
