(* ===== verification/Ring.v ===== *)
(** * Ring buffers

    Both the console and the pipes keep a sequence of characters in an array used as a ring;
    [ring size b start l] says that the array [b] holds [l] from index [start] on. *)

From Stdlib Require Import ZArith Lia.
From S2P Require Import Prelude Words.

Record ring (size : Z) (b : list Z) (start : Z) (l : list Z) : Prop := {
  ring_length : Z.of_nat (length b) = size;
  ring_fits : Z.of_nat (length l) ≤ size;
  ring_start : 0 ≤ start;
  ring_elems : ∀ i x, l !! i = Some x →
    b !! Z.to_nat ((start + Z.of_nat i) mod size) = Some x }.

Section ring.
Context (size : Z) (Hsize : 0 < size).
Implicit Types (b l : list Z).

Lemma ring_nil b start : Z.of_nat (length b) = size → 0 ≤ start → ring size b start [].
Proof using Hsize. intros. split; simpl; [done|lia|done|intros i x E; by rewrite lookup_nil in E]. Qed.

Lemma ring_head b start x l :
  ring size b start (x :: l) → b !! Z.to_nat (start mod size) = Some x.
Proof. intros [_ _ _ H]. specialize (H 0%nat x eq_refl). by rewrite Z.add_0_r in H. Qed.

Lemma ring_tail b start x l : ring size b start (x :: l) → ring size b (start + 1) l.
Proof.
  intros [H1 H2 H3 H4]. split; [done|simpl in H2; lia|lia|].
  intros i y E. rewrite <-(H4 (Datatypes.S i) y E). do 3 f_equal. lia.
Qed.

Lemma ring_buf_last b start l x :
  ring size b start (l ++ [x]) →
  b !! Z.to_nat ((start + Z.of_nat (length l)) mod size) = Some x.
Proof. intros [_ _ _ H]. apply H. rewrite lookup_app_r by lia. by rewrite Nat.sub_diag. Qed.

Lemma ring_app_l b start l l' : ring size b start (l ++ l') → ring size b start l.
Proof.
  intros [H1 H2 H3 H4]. rewrite length_app in H2. split; [done|lia|done|].
  intros i x E. apply H4. by apply lookup_app_l_Some.
Qed.

Lemma mod_ne a c : 0 ≤ a → a < c < a + size → a mod size ≠ c mod size.
Proof using Hsize.
  intros Ha Hc E. pose proof (Z.div_mod a size ltac:(lia)).
  pose proof (Z.div_mod c size ltac:(lia)).
  assert (c - a = size * (c / size - a / size)) as Hd by lia.
  assert (0 < c / size - a / size < 1) by nia. lia.
Qed.

(** storing one more character behind the last one *)
Lemma ring_snoc b start l x :
  ring size b start l → Z.of_nat (length l) < size →
  ring size (<[Z.to_nat ((start + Z.of_nat (length l)) mod size) := x]> b) start (l ++ [x]).
Proof using Hsize.
  intros [H1 H2 H3 H4] Hl.
  assert (Z.to_nat ((start + Z.of_nat (length l)) mod size) < length b)%nat as Hin.
  { pose proof (Z.mod_pos_bound (start + Z.of_nat (length l)) size ltac:(lia)). lia. }
  split; [by rewrite length_insert|rewrite length_app; simpl; lia|done|].
  intros i y E. destruct (decide (i = length l)) as [->|Hne].
  - rewrite list_lookup_insert_eq by done. rewrite lookup_app_r in E by lia.
    by rewrite Nat.sub_diag in E.
  - assert (i < length l)%nat as Hi.
    { apply lookup_lt_Some in E. rewrite length_app in E. simpl in E. lia. }
    rewrite lookup_app_l in E by done. rewrite list_lookup_insert_ne; [by apply H4|].
    intros Heq. apply Z2Nat.inj in Heq; [|apply Z.mod_pos_bound; lia..].
    symmetry in Heq. by apply mod_ne in Heq; [|lia|lia].
Qed.
End ring.
