(* ===== verification/Console.v ===== *)
(** * [kernel/console.c]: the console line discipline

    The input buffer is a ring of 128 characters with three indices: what lies between [r]
    and [w] can be read, what lies between [w] and [e] is the line being edited.  The
    functions are written for any state that holds a console: [get_cons] and [upd_cons] say
    where, and [unlock_ip], [lock_ip], [killed] and [kill_self] stand for the calls into the
    inode and process layers. *)

From Stdlib Require Import ZArith Lia.
From S2P Require Import Prelude Words Sync Ring.

Definition INPUT_BUF : Z := 128.
Definition BACKSPACE : Z := 256.
(** [C(x)], control-x *)
Definition C (x : Z) : Z := x - 64.
Definition CTRL_C : Z := C 67.
Definition CTRL_D : Z := C 68.
Definition CTRL_U : Z := C 85.

(** [input], [conslock], [conssem] and what was sent to the UART *)
Record console := mkConsole {
  buf : list Z;
  r : Z;
  w : Z;
  e : Z;
  conslock : bool;
  conssem : Semaphore;
  uart_out : list Z }.

Definition set_input (b : list Z) (r' w' e' : Z) (c : console) : console :=
  mkConsole b r' w' e' (conslock c) (conssem c) (uart_out c).
Definition set_conslock (v : bool) (c : console) : console :=
  mkConsole (buf c) (r c) (w c) (e c) v (conssem c) (uart_out c).
Definition set_conssem (v : Semaphore) (c : console) : console :=
  mkConsole (buf c) (r c) (w c) (e c) (conslock c) v (uart_out c).
Definition uart_put (l : list Z) (c : console) : console :=
  mkConsole (buf c) (r c) (w c) (e c) (conslock c) (conssem c) (uart_out c ++ l).

Section console.
Context {S : Type} (get_cons : S → console) (upd_cons : (console → console) → S → S).
Context (unlock_ip lock_ip : M S unit) (killed : M S bool) (kill_self : M S Z).

Definition cons_lock : SpinLock S :=
  mkSpinLock (λ s, conslock (get_cons s)) (λ b, upd_cons (set_conslock b)).

Definition console_init : M S unit :=
  init_spinlock cons_lock;; modify (upd_cons (set_conssem (init_sem 0))).

(** [putc]: a backspace erases the character on the screen *)
Definition putc (c : Z) : M S unit :=
  if c =? BACKSPACE then modify (upd_cons (uart_put [8; 32; 8]))
  else modify (upd_cons (uart_put [u8 c])).

Definition console_write (s : list Z) (n : Z) : M S Z :=
  unlock_ip;;
  acquire_spinlock cons_lock;;
  for_each (zseq 0 (Z.to_nat n)) (λ i, c ← getopt (λ _, s !! Z.to_nat i); putc c);;
  release_spinlock cons_lock;;
  lock_ip;;
  mret n.

(** [while (input.r == input.w)]: the result says whether the process was killed; after
    [unalertable_wait_sem] the spinlock is not taken again.  Every round takes a permit. *)
Fixpoint wait_input (fuel : nat) : M S bool :=
  match fuel with
  | O => nofuel
  | Datatypes.S fuel =>
      c ← gets get_cons;
      if r c =? w c then
        k ← killed;
        if (k : bool) then mret true
        else
          release_spinlock cons_lock;;
          x ← gets (λ s, conssem (get_cons s));
          '(f, x') ← run_sem wait_sem x;
          modify (upd_cons (set_conssem x'));;
          assert f;;
          wait_input fuel
      else mret false
  end.

(** what one round of the outer loop of [console_read] ends with *)
Inductive read_step := Continue (c : Z) | Last (c : Z) | Stop | Killed.

Definition read_char (n m : Z) : M S read_step :=
  s ← gets get_cons;
  k ← wait_input (Datatypes.S (Z.to_nat (val (conssem s) + 1)));
  if (k : bool) then mret Killed
  else
    s ← gets get_cons;
    c ← getopt (λ _, buf s !! Z.to_nat (r s mod INPUT_BUF));
    modify (upd_cons (set_input (buf s) (u64 (r s + 1)) (w s) (e s)));;
    if c =? CTRL_D then
      when (n <? m)
        (s ← gets get_cons;
         modify (upd_cons (set_input (buf s) (u64 (r s - 1)) (w s) (e s))));;
      mret Stop
    else if c =? 10 then mret (Last c) else mret (Continue c).

(** the outer loop with [n] characters left of the [m] asked for: the characters stored
    at [dst] (none and the flag [true] when the process was killed) *)
Fixpoint read_loop (n : nat) (m : Z) : M S (list Z * bool) :=
  match n with
  | O => mret ([], false)
  | Datatypes.S n' =>
      x ← read_char (Z.of_nat n) m;
      match x with
      | Killed => mret ([], true)
      | Stop => mret ([], false)
      | Last c => mret ([c], false)
      | Continue c => '(l, k) ← read_loop n' m; mret (c :: l, k)
      end
  end.

(** what was stored at [dst], and the value returned *)
Definition console_read (n : Z) : M S (list Z * Z) :=
  unlock_ip;;
  acquire_spinlock cons_lock;;
  '(l, k) ← read_loop (Z.to_nat n) n;
  release_spinlock cons_lock;;
  lock_ip;;
  if (k : bool) then mret (l, -1) else mret (l, Z.of_nat (length l)).

(** the loop of control-U; the line being edited is at most as long as the buffer *)
Fixpoint kill_line (fuel : nat) : M S unit :=
  match fuel with
  | O => nofuel
  | Datatypes.S fuel =>
      s ← gets get_cons;
      if e s =? w s then mret tt
      else
        c ← getopt (λ _, buf s !! Z.to_nat (u64 (e s - 1) mod INPUT_BUF));
        if c =? 10 then mret tt
        else
          modify (upd_cons (set_input (buf s) (r s) (w s) (u64 (e s - 1))));;
          putc BACKSPACE;;
          kill_line fuel
  end.

(** one round of the loop of [console_intr] *)
Definition intr_char (c : Z) : M S unit :=
  s ← gets get_cons;
  if c =? CTRL_C then k ← kill_self; assert (k =? 0)
  else if c =? CTRL_U then kill_line (Datatypes.S (Z.to_nat INPUT_BUF))
  else if c =? 127 then
    when (negb (e s =? w s))
      (modify (upd_cons (set_input (buf s) (r s) (w s) (u64 (e s - 1))));; putc BACKSPACE)
  else
    when (negb (c =? 0) && (u64 (e s - r s) <? INPUT_BUF))
      (let c := if c =? 13 then 10 else c in
       modify (upd_cons (set_input (<[Z.to_nat (e s mod INPUT_BUF) := c]> (buf s))
         (r s) (w s) (u64 (e s + 1))));;
       putc c;;
       s ← gets get_cons;
       when ((c =? 10) || (c =? CTRL_D) || (e s =? u64 (r s + INPUT_BUF)))
         (modify (upd_cons (set_input (buf s) (r s) (e s) (e s)));;
          '(_, x') ← run_sem post_sem (conssem s);
          modify (upd_cons (set_conssem x')))).

(** [getc] yields the characters of [cs], then a negative number *)
Fixpoint intr_loop (cs : list Z) : M S unit :=
  match cs with
  | [] => mret tt
  | c :: cs => if i8 c <? 0 then mret tt else intr_char (i8 c);; intr_loop cs
  end.

Definition console_intr (cs : list Z) : M S unit :=
  acquire_spinlock cons_lock;;
  intr_loop cs;;
  release_spinlock cons_lock.

End console.

(** ** The abstract line discipline *)

(** What can be read, and the line being edited. *)
Record line := mkLine { ready : list Z; edit : list Z }.

Definition feed (c : Z) (l : line) : line :=
  if c =? CTRL_C then l
  else if c =? CTRL_U then mkLine (ready l) []
  else if c =? 127 then mkLine (ready l) (removelast (edit l))
  else if (c =? 0) || (128 <=? Z.of_nat (length (ready l) + length (edit l))) then l
  else
    let c := if c =? 13 then 10 else c in
    if (c =? 10) || (c =? CTRL_D) || (127 =? Z.of_nat (length (ready l) + length (edit l)))
    then mkLine (ready l ++ edit l ++ [c]) []
    else mkLine (ready l) (edit l ++ [c]).

(** what a read of [n] characters takes from [ready], and what stays *)
Fixpoint take_line (first : bool) (n : nat) (l : list Z) : list Z * list Z :=
  match n, l with
  | Datatypes.S n, c :: l =>
      if c =? CTRL_D then ([], if first then l else c :: l)
      else if c =? 10 then ([c], l)
      else let '(t, rest) := take_line false n l in (c :: t, rest)
  | _, _ => ([], l)
  end.

(** ** Proofs, for a console on its own *)

Section proofs.
(** the hooks of a console that is not shared with an inode, read by a living process *)
Local Notation unlock := (mret tt : M console unit).
Local Notation alive := (mret false : M console bool).
Local Notation kill_ok := (mret 0 : M console Z).
Local Notation upd := (λ (f : console → console) (s : console), f s).

Record cons_rep (l : line) (c : console) : Prop := {
  cs_ring : ring 128 (buf c) (r c) (ready l ++ edit l);
  cs_w : w c = r c + Z.of_nat (length (ready l));
  cs_e : e c = w c + Z.of_nat (length (edit l));
  cs_edit : 10 ∉ edit l;
  cs_sem : ∃ v, 0 ≤ v ∧ conssem c = mkSem v [];
  cs_lt : e c < 2 ^ 64 }.

Lemma putc_run c s : putc (S := console) upd c s =
  Ok (tt, uart_put (if c =? BACKSPACE then [8; 32; 8] else [u8 c]) s).
Proof. unfold putc. by destruct (c =? BACKSPACE). Qed.

Lemma cons_rep_uart l c o : cons_rep l c → cons_rep l (uart_put o c).
Proof. intros []. by split. Qed.

Lemma edit_snoc (l : list Z) : l ≠ [] → ∃ x l', l = l' ++ [x].
Proof. intros H. destruct (exists_last H) as (l' & x & ->). eauto. Qed.

Lemma cons_rep_erase l c x ed :
  cons_rep (mkLine (ready l) (ed ++ [x])) c →
  u64 (e c - 1) = e c - 1 ∧ e c ≠ w c ∧
  buf c !! Z.to_nat ((e c - 1) mod 128) = Some x ∧ x ≠ 10 ∧
  cons_rep (mkLine (ready l) ed) (set_input (buf c) (r c) (w c) (e c - 1) c).
Proof.
  intros [H1 H2 H3 H4 H5 H6]. simpl in *. pose proof (ring_start _ _ _ _ H1).
  rewrite app_assoc in H1. rewrite length_app in H3. simpl in H3.
  split; [apply u64_id; lia|]. split; [lia|]. split.
  - rewrite <-(ring_buf_last _ _ _ _ _ H1). rewrite length_app. do 3 f_equal. lia.
  - split; [set_solver|]. split; simpl; [by eapply ring_app_l|done|lia|set_solver|done|lia].
Qed.

Lemma kill_line_run l c fuel :
  cons_rep l c → (length (edit l) < fuel)%nat →
  ∃ c', kill_line id upd fuel c = Ok (tt, c') ∧ cons_rep (mkLine (ready l) []) c' ∧
    conslock c' = conslock c ∧ e c' ≤ e c.
Proof.
  destruct l as [rd ed]. simpl. revert c fuel.
  induction ed as [|x ed IH] using rev_ind; intros c fuel R Hf;
    (destruct fuel as [|fuel]; [lia|]); cbn [kill_line].
  - erewrite bind_Ok by apply gets_run. pose proof (cs_e _ _ R) as He. simpl in He.
    unfold id. destruct (Z.eqb_spec (e c) (w c)); [|lia]. exists c. split_and!; [done|done|done|lia].
  - erewrite bind_Ok by apply gets_run. unfold id.
    destruct (cons_rep_erase (mkLine rd []) c x ed R) as (E1 & Hne & Eb & Hx & R').
    destruct (Z.eqb_spec (e c) (w c)); [done|]. rewrite E1.
    erewrite bind_Ok by (apply getopt_run; exact Eb).
    destruct (Z.eqb_spec x 10); [done|].
    erewrite bind_Ok by apply modify_run. erewrite bind_Ok by apply putc_run.
    rewrite length_app in Hf. simpl in Hf.
    destruct (IH _ fuel (cons_rep_uart _ _ [8; 32; 8] R'))
      as (c' & E & R'' & Hl & He); [lia|].
    exists c'. split; [exact E|]. split; [done|]. simpl in *. split; [done|lia].
Qed.

Lemma intr_char_run l c ch :
  cons_rep l c → 0 ≤ ch < 128 → e c + 128 < 2 ^ 64 →
  ∃ c', intr_char id upd kill_ok ch c = Ok (tt, c') ∧ cons_rep (feed ch l) c' ∧
    conslock c' = conslock c ∧ e c' ≤ e c + 1.
Proof.
  intros R Hch Hlt. unfold intr_char, feed. erewrite bind_Ok by apply gets_run. unfold id.
  destruct (ch =? CTRL_C).
  { exists c. split; [done|]. split; [done|]. split; [done|lia]. }
  destruct (ch =? CTRL_U).
  { destruct (kill_line_run l c (Datatypes.S (Z.to_nat INPUT_BUF)) R) as (c' & E & R' & Hl & He).
    { pose proof (ring_fits _ _ _ _ (cs_ring _ _ R)). rewrite length_app in *.
      change INPUT_BUF with 128. lia. }
    exists c'. split; [done|]. split; [done|]. split; [done|lia]. }
  destruct (ch =? 127).
  { destruct l as [rd ed]. simpl. destruct (decide (ed = [])) as [->|Hed].
    - pose proof (cs_e _ _ R) as He. simpl in He. destruct (Z.eqb_spec (e c) (w c)); [|lia].
      exists c. split; [done|]. split; [done|]. split; [done|lia].
    - destruct (edit_snoc ed Hed) as (x & ed' & ->).
      destruct (cons_rep_erase (mkLine rd []) c x ed' R) as (E1 & Hne & _ & _ & R').
      destruct (Z.eqb_spec (e c) (w c)); [done|]. rewrite E1. simpl when.
      erewrite bind_Ok by apply modify_run. rewrite putc_run. rewrite removelast_last.
      eexists. split; [done|]. split; [by apply cons_rep_uart|]. simpl. split; [done|lia]. }
  pose proof R as [H1 H2 H3 H4 (v & Hv & H5) H6]. pose proof (ring_start _ _ _ _ H1) as Hr.
  pose proof (ring_fits _ _ _ _ H1) as Hfit. rewrite length_app in Hfit.
  assert (u64 (e c - r c) = Z.of_nat (length (ready l) + length (edit l))) as Ec.
  { rewrite u64_id; lia. }
  rewrite Ec. destruct (ch =? 0); simpl orb; simpl andb.
  { exists c. split; [done|]. split; [done|]. split; [done|lia]. }
  change INPUT_BUF with 128.
  destruct (Z.leb_spec 128 (Z.of_nat (length (ready l) + length (edit l)))) as [Hfull|Hroom].
  { destruct (Z.ltb_spec (Z.of_nat (length (ready l) + length (edit l))) 128); [lia|].
    exists c. split; [done|]. split; [done|]. split; [done|lia]. }
  destruct (Z.ltb_spec (Z.of_nat (length (ready l) + length (edit l))) 128); [|lia].
  cbn zeta. unfold when at 1. set (ch' := if ch =? 13 then 10 else ch).
  erewrite bind_Ok by apply modify_run. erewrite bind_Ok by apply putc_run.
  erewrite bind_Ok by apply gets_run. cbn [e r set_input uart_put].
  rewrite (u64_id (e c + 1)) by lia. rewrite (u64_id (r c + 128)) by lia.
  assert (ring 128 (<[Z.to_nat (e c mod 128) := ch']> (buf c)) (r c)
    ((ready l ++ edit l) ++ [ch'])) as Hring.
  { replace (e c) with (r c + Z.of_nat (length (ready l ++ edit l))) by (rewrite length_app; lia).
    apply ring_snoc; [lia|done|rewrite length_app; lia]. }
  replace (e c + 1 =? r c + 128) with (127 =? Z.of_nat (length (ready l) + length (edit l))).
  2: { destruct (Z.eqb_spec (e c + 1) (r c + 128)), (Z.eqb_spec 127
        (Z.of_nat (length (ready l) + length (edit l)))); try done; lia. }
  destruct ((ch' =? 10) || (ch' =? CTRL_D) || _) eqn:Ecommit; unfold when.
  - erewrite bind_Ok by apply modify_run. cbn [conssem set_input uart_put].
    rewrite H5. erewrite bind_Ok by by apply run_post.
    eexists. split; [done|]. split; [|simpl; split; [done|lia]].
    split; simpl; [|rewrite !length_app; simpl; lia|lia|set_solver|eexists; split; [|done]; lia|lia].
    by rewrite app_nil_r, app_assoc.
  - eexists. split; [done|]. split; [|simpl; split; [done|lia]].
    apply orb_false_iff in Ecommit as [[Hnl _]%orb_false_iff _]. apply Z.eqb_neq in Hnl.
    split; simpl; [by rewrite app_assoc|done|rewrite length_app; simpl; lia|set_solver| |lia].
    eexists; split; [|done]. done.
Qed.

Lemma intr_loop_run cs l c :
  cons_rep l c → Forall (λ ch, 0 ≤ ch < 128) cs → e c + Z.of_nat (length cs) + 128 < 2 ^ 64 →
  ∃ c', intr_loop id upd kill_ok cs c = Ok (tt, c') ∧
    cons_rep (fold_left (λ l ch, feed ch l) cs l) c' ∧ conslock c' = conslock c.
Proof.
  intros R Hcs. revert l c R. induction Hcs as [|ch cs Hch Hcs IH]; intros l c R Hlt; simpl.
  - by exists c.
  - simpl in Hlt. assert (i8 ch = ch) as Ei.
    { unfold i8. change (2 ^ 7) with 128. change (2 ^ 8) with 256. zmod. }
    rewrite Ei. destruct (Z.ltb_spec ch 0); [lia|].
    destruct (intr_char_run l c ch R Hch ltac:(lia)) as (c1 & E & R1 & Hl & He).
    rewrite (bind_Ok _ _ _ _ _ E). rewrite <-Hl. apply IH; [done|lia].
Qed.

(** ** Reading *)

(** the read can be served without waiting *)
Fixpoint available (n : nat) (l : list Z) : Prop :=
  match n, l with
  | O, _ => True
  | Datatypes.S n, [] => False
  | Datatypes.S n, c :: l => c = CTRL_D ∨ c = 10 ∨ available n l
  end.

Lemma cons_rep_read l c x rd :
  cons_rep l c → ready l = x :: rd →
  r c ≠ w c ∧ buf c !! Z.to_nat (r c mod INPUT_BUF) = Some x ∧ u64 (r c + 1) = r c + 1 ∧
  cons_rep (mkLine rd (edit l)) (set_input (buf c) (r c + 1) (w c) (e c) c).
Proof.
  intros [H1 H2 H3 H4 H5 H6] Er. rewrite Er in *. simpl in *.
  pose proof (ring_start _ _ _ _ H1). split; [lia|].
  split; [by apply ring_head in H1|]. split; [apply u64_id; lia|].
  split; simpl; [by apply ring_tail in H1|lia|done|done|done|done].
Qed.

Lemma read_char_run l c x rd n m :
  cons_rep l c → ready l = x :: rd →
  ∃ st c', read_char id upd alive n m c = Ok (st, c') ∧ conslock c' = conslock c ∧
    if x =? CTRL_D then st = Stop ∧ cons_rep (mkLine (if n <? m then x :: rd else rd) (edit l)) c'
    else st = (if x =? 10 then Last x else Continue x) ∧ cons_rep (mkLine rd (edit l)) c'.
Proof.
  intros R Er. destruct (cons_rep_read l c x rd R Er) as (Hne & Eb & Eu & R').
  unfold read_char. erewrite bind_Ok by apply gets_run. unfold id. cbn [wait_input].
  rewrite bind_assoc. erewrite bind_Ok by apply gets_run. cbv beta.
  destruct (Z.eqb_spec (r c) (w c)); [done|]. erewrite bind_Ok by apply mret_run. cbv iota beta.
  erewrite bind_Ok by apply gets_run. cbv beta. erewrite bind_Ok by (apply getopt_run; exact Eb).
  rewrite Eu. erewrite bind_Ok by apply modify_run.
  destruct (x =? CTRL_D).
  - destruct (n <? m); unfold when.
    + rewrite bind_assoc. erewrite bind_Ok by apply gets_run.
      erewrite bind_Ok by apply modify_run. rewrite mret_run. eexists _, _. split; [done|].
      split; [done|]. split; [done|]. pose proof (ring_start _ _ _ _ (cs_ring _ _ R)).
      cbn [r set_input buf w e]. rewrite u64_id.
      * replace (r c + 1 - 1) with (r c) by lia. rewrite <-Er. destruct R. by split.
      * destruct R. lia.
    + erewrite bind_Ok by apply mret_run. rewrite mret_run. by eexists _, _.
  - destruct (x =? 10); rewrite mret_run; by eexists _, _.
Qed.

Lemma read_loop_run n m l c :
  cons_rep l c → available n (ready l) → Z.of_nat n ≤ m →
  ∃ c', read_loop id upd alive n m c =
      Ok ((fst (take_line (Z.of_nat n =? m) n (ready l)), false), c') ∧
    conslock c' = conslock c ∧
    cons_rep (mkLine (snd (take_line (Z.of_nat n =? m) n (ready l))) (edit l)) c'.
Proof.
  revert l c. induction n as [|n IH]; intros l c R Hav Hm.
  - exists c. by destruct l.
  - destruct l as [[|x rd] ed]; [done|]. cbn [ready edit] in *. cbn [read_loop].
    destruct (read_char_run (mkLine (x :: rd) ed) c x rd (Z.of_nat (Datatypes.S n)) m R eq_refl)
      as (st & c1 & E & Hl & Hst).
    rewrite (bind_Ok _ _ _ _ _ E). cbn [take_line].
    destruct (Z.eqb_spec x CTRL_D) as [->|Hd].
    + destruct Hst as [-> R1]. exists c1. split; [done|]. split; [done|]. cbn [fst snd].
      replace (Z.of_nat (Datatypes.S n) =? m) with (negb (Z.of_nat (Datatypes.S n) <? m)).
      * by destruct (Z.of_nat (Datatypes.S n) <? m).
      * destruct (Z.ltb_spec (Z.of_nat (Datatypes.S n)) m), (Z.eqb_spec (Z.of_nat (Datatypes.S n)) m);
          try done; lia.
    + destruct (Z.eqb_spec x 10) as [->|Hnl].
      * destruct Hst as [-> R1]. by exists c1.
      * destruct Hst as [-> R1]. destruct Hav as [?|[?|Hav]]; [done|done|].
        destruct (IH (mkLine rd ed) c1 R1 Hav ltac:(lia)) as (c2 & E2 & Hl2 & R2).
        cbn [ready edit] in *. rewrite (bind_Ok _ _ _ _ _ E2). rewrite mret_run.
        destruct (Z.eqb_spec (Z.of_nat n) m); [lia|].
        destruct (take_line false n rd) as [t rest]. exists c2. split; [done|].
        split; [congruence|done].
Qed.

(** ** Properties *)

(** C21: feeding keyboard characters to [console_intr] refines the abstract line discipline: the
    ring buffer always holds the committed characters followed by the line being edited,
    erasing never goes back past what is committed, nothing is lost or overwritten when the
    buffer is full, and the spinlock is free again. *)
Theorem console_intr_refines cs l c :
  cons_rep l c → conslock c = false → Forall (λ ch, 0 ≤ ch < 128) cs →
  e c + Z.of_nat (length cs) + 128 < 2 ^ 64 →
  ∃ c', console_intr id upd kill_ok cs c = Ok (tt, c') ∧
    cons_rep (fold_left (λ l ch, feed ch l) cs l) c' ∧ conslock c' = false.
Proof.
  intros R Hl Hcs Hlt. unfold console_intr.
  rewrite (bind_Ok _ _ _ _ _ (acquire_spinlock_run (cons_lock id upd) c Hl)).
  destruct (intr_loop_run cs l (set_conslock true c)) as (c' & E & R' & Hl'); [by destruct R|done|done|].
  rewrite (bind_Ok _ _ _ _ _ E). rewrite release_spinlock_run.
  eexists. split; [done|]. split; [by destruct R'|done].
Qed.

(** A read that can be served from the committed characters returns them in order up to and
    including the first newline (up to and excluding a control-D, which ends the file and is
    kept for the next read unless it comes first), and leaves exactly the rest. *)
Theorem console_read_refines n l c :
  cons_rep l c → conslock c = false → available n (ready l) →
  ∃ c', console_read id upd unlock unlock alive (Z.of_nat n) c =
      Ok ((fst (take_line true n (ready l)), Z.of_nat (length (fst (take_line true n (ready l))))), c') ∧
    cons_rep (mkLine (snd (take_line true n (ready l))) (edit l)) c' ∧ conslock c' = false.
Proof.
  intros R Hl Hav. unfold console_read. erewrite bind_Ok by apply mret_run.
  rewrite (bind_Ok _ _ _ _ _ (acquire_spinlock_run (cons_lock id upd) c Hl)). rewrite Nat2Z.id.
  destruct (read_loop_run n (Z.of_nat n) l (set_conslock true c)) as (c' & E & Hl' & R');
    [by destruct R|done|lia|].
  rewrite Z.eqb_refl in *. rewrite (bind_Ok _ _ _ _ _ E).
  erewrite bind_Ok by apply release_spinlock_run. erewrite bind_Ok by apply mret_run.
  rewrite mret_run. eexists. split; [done|]. split; [by destruct R'|done].
Qed.
End proofs.

(** ** Concrete consoles *)

Definition blank_console : console :=
  mkConsole (replicate 128 0) 0 0 0 false (mkSem 0 []) [].
Definition hi_console : console :=
  mkConsole ([104; 105; 10] ++ replicate 125 0) 0 3 3 false (mkSem 1 []) [].

Lemma blank_console_rep : cons_rep (mkLine [] []) blank_console.
Proof.
  split; simpl; [by apply ring_nil|done|done|set_solver|by exists 0|done].
Qed.

Lemma hi_console_rep : cons_rep (mkLine [104; 105; 10] []) hi_console.
Proof.
  split; simpl; [|done|done|set_solver|by exists 1|done].
  split; simpl; [done|lia|lia|].
  intros [|[|[|i]]] x; simpl; [by intros [= <-]..|]. by rewrite lookup_nil.
Qed.

Lemma console_intr_refines_witness :
  ∃ c', console_intr id (λ f s, f s) (mret 0) [104; 120; 127; 105; 13] blank_console = Ok (tt, c') ∧
    cons_rep (mkLine [104; 105; 10] []) c' ∧ conslock c' = false.
Proof.
  exact (console_intr_refines [104; 120; 127; 105; 13] (mkLine [] []) blank_console
    blank_console_rep eq_refl ltac:(by_decision) ltac:(simpl; lia)).
Defined.

Lemma console_read_refines_witness :
  ∃ c', console_read id (λ f s, f s) (mret tt) (mret tt) (mret false) 10 hi_console =
      Ok (([104; 105; 10], 3), c') ∧
    cons_rep (mkLine [] []) c' ∧ conslock c' = false.
Proof.
  exact (console_read_refines 10 (mkLine [104; 105; 10] []) hi_console
    hi_console_rep eq_refl ltac:(right; right; right; right; right; by left)).
Defined.
