(* ===== verification/Pipe.v ===== *)
(** * [fs/pipe.c]: reading and writing a pipe

    One pipe; [nread] and [nwrite] are 32-bit counters that wrap around, the data is a ring
    of 512 bytes.  [killed] is [thisproc()->killed].  ([pipeAlloc] and all of
    [pipeClose] handle files and are in [File].) *)

From Stdlib Require Import ZArith Lia.
From S2P Require Import Prelude Words Sync Ring.

Definition PIPESIZE : Z := 512.

Record Pipe := mkPipe {
  lock : bool;
  wlock : Semaphore;
  rlock : Semaphore;
  data : list Z;
  nread : Z;
  nwrite : Z;
  readopen : bool;
  writeopen : bool }.

Definition set_lock (v : bool) (p : Pipe) : Pipe :=
  mkPipe v (wlock p) (rlock p) (data p) (nread p) (nwrite p) (readopen p) (writeopen p).
Definition set_wlock (v : Semaphore) (p : Pipe) : Pipe :=
  mkPipe (lock p) v (rlock p) (data p) (nread p) (nwrite p) (readopen p) (writeopen p).
Definition set_rlock (v : Semaphore) (p : Pipe) : Pipe :=
  mkPipe (lock p) (wlock p) v (data p) (nread p) (nwrite p) (readopen p) (writeopen p).
Definition set_buf (d : list Z) (nr nw : Z) (p : Pipe) : Pipe :=
  mkPipe (lock p) (wlock p) (rlock p) d nr nw (readopen p) (writeopen p).
Definition set_readopen (v : bool) (p : Pipe) : Pipe :=
  mkPipe (lock p) (wlock p) (rlock p) (data p) (nread p) (nwrite p) v (writeopen p).
Definition set_writeopen (v : bool) (p : Pipe) : Pipe :=
  mkPipe (lock p) (wlock p) (rlock p) (data p) (nread p) (nwrite p) (readopen p) v.

(** the fields [pipeAlloc] sets in a new pipe; [data] is whatever the memory held *)
Definition new_pipe (d : list Z) : Pipe :=
  mkPipe false (init_sem 0) (init_sem 0) d 0 0 true true.

Definition pipe_lock : SpinLock Pipe := mkSpinLock lock set_lock.

(** [post_sem] and [unalertable_wait_sem] on [wlock] and [rlock] *)
Definition post_wlock : M Pipe unit :=
  x ← gets wlock; '(_, x') ← run_sem post_sem x; modify (set_wlock x').
Definition post_rlock : M Pipe unit :=
  x ← gets rlock; '(_, x') ← run_sem post_sem x; modify (set_rlock x').
Definition wait_wlock : M Pipe unit :=
  x ← gets wlock; '(f, x') ← run_sem wait_sem x; modify (set_wlock x');; assert f.
Definition wait_rlock : M Pipe unit :=
  x ← gets rlock; '(f, x') ← run_sem wait_sem x; modify (set_rlock x');; assert f.

(** [pipeClose] up to [kfree]: the result says whether the pipe is to be freed *)
Definition pipe_close (writable : bool) : M Pipe bool :=
  acquire_spinlock pipe_lock;;
  (if writable then modify (set_writeopen false);; post_rlock
   else modify (set_readopen false);; post_wlock);;
  p ← gets id;
  release_spinlock pipe_lock;;
  mret (negb (readopen p) && negb (writeopen p)).

Section pipe.
Context (killed : bool).

(** the loop on a full pipe; [true] when the write is given up.  The spinlock is not taken
    again after the wait.  Every round takes a permit of [wlock]. *)
Fixpoint wait_room (fuel : nat) : M Pipe bool :=
  match fuel with
  | O => nofuel
  | S fuel =>
      p ← gets id;
      if nwrite p =? u32 (nread p + PIPESIZE) then
        if negb (readopen p) || killed then release_spinlock pipe_lock;; mret true
        else
          post_rlock;;
          release_spinlock pipe_lock;;
          wait_wlock;;
          wait_room fuel
      else mret false
  end.

(** the [for] loop over the bytes to write; [false] when it was given up *)
Fixpoint write_bytes (l : list Z) : M Pipe bool :=
  match l with
  | [] => mret true
  | c :: l =>
      p ← gets id;
      stop ← wait_room (S (Z.to_nat (val (wlock p) + 1)));
      if (stop : bool) then mret false
      else
        p ← gets id;
        modify (set_buf (<[Z.to_nat (nwrite p mod PIPESIZE) := c]> (data p))
          (nread p) (u32 (nwrite p + 1)));;
        write_bytes l
  end.

(** [addr] points to the bytes [l], [n] is their number *)
Definition pipeWrite (l : list Z) : M Pipe Z :=
  acquire_spinlock pipe_lock;;
  ok ← write_bytes l;
  if (ok : bool) then
    post_rlock;;
    release_spinlock pipe_lock;;
    mret (Z.of_nat (length l))
  else mret (-1).

(** the loop on an empty pipe *)
Fixpoint wait_data (fuel : nat) : M Pipe bool :=
  match fuel with
  | O => nofuel
  | S fuel =>
      p ← gets id;
      if (nread p =? nwrite p) && writeopen p then
        if killed then release_spinlock pipe_lock;; mret true
        else
          release_spinlock pipe_lock;;
          wait_rlock;;
          wait_data fuel
      else mret false
  end.

Fixpoint read_bytes (n : nat) : M Pipe (list Z) :=
  match n with
  | O => mret []
  | S n =>
      p ← gets id;
      if nread p =? nwrite p then mret []
      else
        c ← getopt (λ p, data p !! Z.to_nat (nread p mod PIPESIZE));
        modify (set_buf (data p) (u32 (nread p + 1)) (nwrite p));;
        l ← read_bytes n;
        mret (c :: l)
  end.

(** the bytes stored at [addr], and the value returned *)
Definition pipeRead (n : Z) : M Pipe (list Z * Z) :=
  acquire_spinlock pipe_lock;;
  p ← gets id;
  stop ← wait_data (S (Z.to_nat (val (rlock p) + 1)));
  if (stop : bool) then mret ([], -1)
  else
    l ← read_bytes (Z.to_nat n);
    post_wlock;;
    release_spinlock pipe_lock;;
    mret (l, Z.of_nat (length l)).

(** ** The pipe as a queue of bytes *)

Record pipe_core (q : list Z) (p : Pipe) : Prop := {
  pc_ring : ring PIPESIZE (data p) (nread p) q;
  pc_nread : 0 ≤ nread p < 2 ^ 32;
  pc_nwrite : nwrite p = u32 (nread p + Z.of_nat (length q));
  pc_wlock : ∃ v, 0 ≤ v ∧ wlock p = mkSem v [];
  pc_rlock : ∃ v, 0 ≤ v ∧ rlock p = mkSem v [] }.

Definition pipe_rep (q : list Z) (p : Pipe) : Prop := pipe_core q p ∧ lock p = false.

(** whether the two ends are open *)
Definition ends (p : Pipe) : bool * bool := (readopen p, writeopen p).

Lemma post_rlock_run q p : pipe_core q p →
  ∃ p', post_rlock p = Ok (tt, p') ∧ pipe_core q p' ∧ lock p' = lock p ∧ ends p' = ends p.
Proof.
  intros [H1 H2 H3 H4 (v & Hv & E)]. unfold post_rlock. erewrite bind_Ok by apply gets_run.
  rewrite E. erewrite bind_Ok by by apply run_post. cbv beta iota. rewrite modify_run.
  eexists. split; [done|]. split; [|done]. split; simpl; try done.
  eexists; split; [|done]. lia.
Qed.

Lemma post_wlock_run q p : pipe_core q p →
  ∃ p', post_wlock p = Ok (tt, p') ∧ pipe_core q p' ∧ lock p' = lock p ∧ ends p' = ends p.
Proof.
  intros [H1 H2 H3 (v & Hv & E) H5]. unfold post_wlock. erewrite bind_Ok by apply gets_run.
  rewrite E. erewrite bind_Ok by by apply run_post. cbv beta iota. rewrite modify_run.
  eexists. split; [done|]. split; [|done]. split; simpl; try done.
  eexists; split; [|done]. lia.
Qed.

Lemma u32_eq_iff a b : 0 ≤ b - a < 2 ^ 32 → u32 a = u32 b ↔ a = b.
Proof.
  intros H. unfold u32. split; [|by intros ->]. intros E. change (2 ^ 32) with 4294967296 in *.
  zmod.
Qed.

(** the counters tell an empty pipe from a full one *)
Lemma pipe_empty q p : pipe_core q p → (nread p =? nwrite p) = bool_decide (q = []).
Proof.
  intros [[_ Hf _ _] H2 -> _ _]. rewrite <-(u32_id (nread p)) at 1 by done.
  change PIPESIZE with 512 in Hf. case_bool_decide as Hq.
  - subst q. simpl. rewrite Z.add_0_r. apply Z.eqb_refl.
  - apply Z.eqb_neq. rewrite u32_eq_iff by (change (2 ^ 32) with 4294967296; lia).
    destruct q; [done|simpl; lia].
Qed.

Lemma pipe_full q p :
  pipe_core q p → (nwrite p =? u32 (nread p + PIPESIZE)) = bool_decide (Z.of_nat (length q) = 512).
Proof.
  intros [[_ Hf _ _] H2 -> _ _]. change PIPESIZE with 512 in *. case_bool_decide as Hq.
  - rewrite Hq. apply Z.eqb_refl.
  - apply Z.eqb_neq. rewrite u32_eq_iff by (change (2 ^ 32) with 4294967296; lia). lia.
Qed.

Lemma u32_mod_512 a : u32 a mod 512 = a mod 512.
Proof. unfold u32. change (2 ^ 32) with (512 * 8388608). zmod. Qed.

Lemma ring_u32 b start q : ring 512 b start q → ring 512 b (u32 start) q.
Proof.
  intros [H1 H2 H3 H4]. split; [done|done|apply u32_range|]. intros i x E.
  rewrite <-(H4 i x E). do 2 f_equal. rewrite <-Zplus_mod_idemp_l, u32_mod_512.
  by rewrite Zplus_mod_idemp_l.
Qed.

Lemma pipe_push q p c :
  pipe_core q p → Z.of_nat (length q) < 512 →
  pipe_core (q ++ [c]) (set_buf (<[Z.to_nat (nwrite p mod PIPESIZE) := c]> (data p))
    (nread p) (u32 (nwrite p + 1)) p).
Proof.
  intros [H1 H2 H3 H4 H5] Hl. split; simpl; [|done| |done|done].
  - rewrite H3. change PIPESIZE with 512 in *. rewrite u32_mod_512. by apply ring_snoc.
  - rewrite H3, u32_add_mod, length_app. simpl. f_equal. lia.
Qed.

Lemma pipe_pop c q p :
  pipe_core (c :: q) p →
  data p !! Z.to_nat (nread p mod PIPESIZE) = Some c ∧
  pipe_core q (set_buf (data p) (u32 (nread p + 1)) (nwrite p) p).
Proof.
  intros [H1 H2 H3 H4 H5]. split; [by apply ring_head in H1|].
  split; simpl; [|apply u32_range| |done|done].
  - apply ring_tail in H1. by apply ring_u32.
  - rewrite H3, u32_add_mod. simpl. f_equal. lia.
Qed.

Lemma write_bytes_run q p l :
  pipe_core q p → Z.of_nat (length q + length l) ≤ 512 →
  ∃ p', write_bytes l p = Ok (true, p') ∧ pipe_core (q ++ l) p' ∧ lock p' = lock p ∧
    ends p' = ends p.
Proof.
  revert q p. induction l as [|c l IH]; intros q p R Hl.
  - exists p. by rewrite app_nil_r.
  - simpl in Hl. cbn [write_bytes]. erewrite bind_Ok by apply gets_run. cbn [wait_room].
    rewrite bind_assoc. erewrite bind_Ok by apply gets_run. unfold id.
    rewrite (pipe_full q p R), bool_decide_eq_false_2 by lia.
    erewrite bind_Ok by apply mret_run. cbv iota. erewrite bind_Ok by apply gets_run.
    erewrite bind_Ok by apply modify_run.
    destruct (IH (q ++ [c]) _ (pipe_push q p c R ltac:(lia))) as (p' & -> & R' & Hl' & He).
    { rewrite length_app. simpl. lia. }
    exists p'. rewrite <-app_assoc in R'. done.
Qed.

Lemma read_bytes_run q p n :
  pipe_core q p →
  ∃ p', read_bytes n p = Ok (take n q, p') ∧ pipe_core (drop n q) p' ∧ lock p' = lock p ∧
    ends p' = ends p.
Proof.
  revert q p. induction n as [|n IH]; intros q p R; [by exists p|].
  cbn [read_bytes]. erewrite bind_Ok by apply gets_run. unfold id.
  rewrite (pipe_empty q p R). destruct q as [|c q].
  - rewrite bool_decide_eq_true_2 by done. by exists p.
  - rewrite bool_decide_eq_false_2 by done. destruct (pipe_pop c q p R) as [Ec R1].
    erewrite bind_Ok by (apply getopt_run; exact Ec). erewrite bind_Ok by apply modify_run.
    destruct (IH q _ R1) as (p' & E & R' & Hl & He). rewrite (bind_Ok _ _ _ _ _ E).
    by exists p'.
Qed.
End pipe.

(** ** Properties *)


(** a pipe whose counters are about to wrap around *)
Definition example_pipe : Pipe :=
  mkPipe false (mkSem 0 []) (mkSem 0 []) (<[511%nat := 65]> (<[0%nat := 66]> (replicate 512 0)))
    (2 ^ 32 - 1) 1 true true.

Lemma example_pipe_rep : pipe_rep [65; 66] example_pipe.
Proof.
  split; [|done]. split; [|vm_compute; split; [discriminate|reflexivity]|reflexivity|by exists 0|by exists 0].
  split; [reflexivity|vm_compute; discriminate|vm_compute; discriminate|].
  intros [|[|i]] x; [intros [= <-]; reflexivity..|]. simpl. by rewrite lookup_nil.
Qed.

