(* ===== verification/Inode.v ===== *)
(** * [fs/inode.c]: inodes, directories and paths

    The state is the list [head] of in-memory inodes with their memory, the console behind
    device inodes, [thisproc()->killed], and the state [C] of the block cache, which is used through the interface
    [BlockCache] only.  A null [Inode] pointer is the address 0. *)

From Stdlib Require Import ZArith Lia.
From S2P Require Import Prelude Words Sync Layout CacheSpec BlockCache Console.

(** [struct Inode] *)
Record Inode := mkInode {
  lock : Semaphore;
  rc : Z;
  inode_no_ : Z;
  valid : bool;
  entry : InodeEntry }.

Definition set_ilock (v : Semaphore) (i : Inode) : Inode :=
  mkInode v (rc i) (inode_no_ i) (valid i) (entry i).
Definition set_rc (v : Z) (i : Inode) : Inode :=
  mkInode (lock i) v (inode_no_ i) (valid i) (entry i).
Definition set_entry (v : InodeEntry) (i : Inode) : Inode :=
  mkInode (lock i) (rc i) (inode_no_ i) (valid i) v.

Definition set_type (v : Z) (e : InodeEntry) : InodeEntry :=
  mkInodeEntry v (major e) (minor e) (num_links e) (num_bytes e) (addrs e) (indirect e).
Definition set_num_bytes (v : Z) (e : InodeEntry) : InodeEntry :=
  mkInodeEntry (type e) (major e) (minor e) (num_links e) v (addrs e) (indirect e).
Definition set_num_links (v : Z) (e : InodeEntry) : InodeEntry :=
  mkInodeEntry (type e) (major e) (minor e) v (num_bytes e) (addrs e) (indirect e).
Definition set_addr (i : nat) (v : Z) (e : InodeEntry) : InodeEntry :=
  mkInodeEntry (type e) (major e) (minor e) (num_links e) (num_bytes e) (<[i := v]> (addrs e))
    (indirect e).
Definition set_indirect (v : Z) (e : InodeEntry) : InodeEntry :=
  mkInodeEntry (type e) (major e) (minor e) (num_links e) (num_bytes e) (addrs e) v.

(** ** Strings in buffers *)

(** [strlen] of the string in a buffer: [None] when it runs past the end of the buffer *)
Fixpoint str_len (l : list Z) : option nat :=
  match l with
  | [] => None
  | c :: l => if c =? 0 then Some O else n ← str_len l; Some (S n)
  end.

(** [memcmp]: [None] when it reads past the end of a buffer *)
Fixpoint mem_cmp (n : nat) (l1 l2 : list Z) : option Z :=
  match n with
  | O => Some 0
  | S n =>
      match l1, l2 with
      | c1 :: l1, c2 :: l2 => if c1 =? c2 then mem_cmp n l1 l2 else Some (c1 - c2)
      | _, _ => None
      end
  end.

Definition memcmp2 (s1 s2 : list Z) : option Z :=
  n1 ← str_len s1;
  n2 ← str_len s2;
  mem_cmp (n1 `max` n2) s1 s2.

(** [strncpy(dst, src, n)]: [src] is the string in a buffer *)
Fixpoint str_ncpy (n : nat) (src : list Z) : option (list Z) :=
  match n with
  | O => Some []
  | S n' =>
      match src with
      | [] => None
      | c :: src => if c =? 0 then Some (replicate n 0) else l ← str_ncpy n' src; Some (c :: l)
      end
  end.

(** ** [skipelem]: paths are lists of characters, their end is the NUL *)

Definition SLASH : Z := 47.

Fixpoint drop_slashes (path : list Z) : list Z :=
  match path with
  | c :: p => if c =? SLASH then drop_slashes p else path
  | [] => []
  end.
Fixpoint take_elem (path : list Z) : list Z * list Z :=
  match path with
  | c :: p => if c =? SLASH then ([], path) else let '(a, b) := take_elem p in (c :: a, b)
  | [] => ([], [])
  end.

(** the rest of the path and the new content of the 14 bytes at [name] *)
Definition skipelem (path name : list Z) : option (list Z * list Z) :=
  match drop_slashes path with
  | [] => None
  | p =>
      let '(s, p) := take_elem p in
      let len := Z.of_nat (length s) in
      let name :=
        if FILE_NAME_MAX_LENGTH <=? len then take 14 s
        else splice 0 (s ++ [0]) name in
      Some (drop_slashes p, name)
  end.

(** [struct stat] as [stati] fills it *)
Record stat := mkStat { st_dev : Z; st_ino : Z; st_nlink : Z; st_size : Z; st_mode : Z }.
Definition S_IFREG : Z := 32768.
Definition S_IFDIR : Z := 16384.

(** ** State *)

Record itree {C : Type} := mkTree {
  ilock : bool;
  ihead : list Z;
  imem : gmap Z Inode;
  inext : Z;
  iroot : Z;
  cons : console;
  killed : bool;
  cst : C }.
Arguments itree C : clear implicits.
Arguments mkTree {C} _ _ _ _ _ _ _ _.

Section inode.
Context {C : Type} `{BlockCache C} (sblock : SuperBlock).
Notation st := (itree C).

Definition upd_ilock (f : bool → bool) (s : st) : st :=
  mkTree (f (ilock s)) (ihead s) (imem s) (inext s) (iroot s) (cons s) (killed s) (cst s).
Definition upd_ihead (f : list Z → list Z) (s : st) : st :=
  mkTree (ilock s) (f (ihead s)) (imem s) (inext s) (iroot s) (cons s) (killed s) (cst s).
Definition upd_imem (f : gmap Z Inode → gmap Z Inode) (s : st) : st :=
  mkTree (ilock s) (ihead s) (f (imem s)) (inext s) (iroot s) (cons s) (killed s) (cst s).
Definition upd_inext (f : Z → Z) (s : st) : st :=
  mkTree (ilock s) (ihead s) (imem s) (f (inext s)) (iroot s) (cons s) (killed s) (cst s).
Definition upd_iroot (f : Z → Z) (s : st) : st :=
  mkTree (ilock s) (ihead s) (imem s) (inext s) (f (iroot s)) (cons s) (killed s) (cst s).
Definition upd_cons (f : console → console) (s : st) : st :=
  mkTree (ilock s) (ihead s) (imem s) (inext s) (iroot s) (f (cons s)) (killed s) (cst s).
Definition upd_killed (f : bool → bool) (s : st) : st :=
  mkTree (ilock s) (ihead s) (imem s) (inext s) (iroot s) (cons s) (f (killed s)) (cst s).
Definition upd_cst (f : C → C) (s : st) : st :=
  mkTree (ilock s) (ihead s) (imem s) (inext s) (iroot s) (cons s) (killed s) (f (cst s)).

Definition tree_lock : SpinLock st := mkSpinLock ilock (λ b, upd_ilock (λ _, b)).

(** an operation of the block cache *)
Definition lift {A} (m : M C A) : M st A := λ s,
  match m (cst s) with
  | Ok (a, c) => Ok (a, upd_cst (λ _, c) s)
  | Panic => Panic | Fault => Fault | Sleep => Sleep | Spin => Spin | NoFuel => NoFuel
  end.

(** an [Inode] pointer dereferenced *)
Definition ip (a : Z) : M st Inode := getopt (λ s, imem s !! a).
Definition set_ip (a : Z) (f : Inode → Inode) : M st unit :=
  i ← ip a; modify (upd_imem <[a := f i]>).
Definition set_ientry (a : Z) (f : InodeEntry → InodeEntry) : M st unit :=
  set_ip a (λ i, set_entry (f (entry i)) i).

Definition to_block_no (ino : Z) : Z := sb_inode_start sblock + ino / INODE_PER_BLOCK.

(** [get_entry]: where the entry of inode [ino] starts in its block *)
Definition entry_off (ino : Z) : nat := Z.to_nat (ino mod INODE_PER_BLOCK * 64).
Definition get_entry (d : list Z) (ino : Z) : InodeEntry := dec_inode (sub (entry_off ino) 64 d).
Definition put_entry (ino : Z) (e : InodeEntry) (d : list Z) : list Z :=
  splice (entry_off ino) (enc_inode e) d.

(** [get_addrs(block)[i]] *)
Definition get_addr (d : list Z) (i : Z) : option Z := dec_indirect d !! Z.to_nat i.
Definition put_addr (i v : Z) (d : list Z) : list Z := splice (Z.to_nat (4 * i)) (le_enc 4 v) d.

Definition init_inode : Inode :=
  mkInode (init_sem 1) 0 0 false (mkInodeEntry 0 0 0 0 0 (replicate 12 0) 0).

(** ** Locking *)

Definition sem_wait (a : Z) : M st unit :=
  i ← ip a;
  '(f, x) ← run_sem wait_sem (lock i);
  set_ip a (set_ilock x);;
  assert f.
Definition sem_post (a : Z) : M st unit :=
  i ← ip a;
  '(_, x) ← run_sem post_sem (lock i);
  set_ip a (set_ilock x).

Definition inode_lock (a : Z) : M st unit :=
  i ← ip a; assert (0 <? rc i);; sem_wait a.
Definition inode_unlock (a : Z) : M st unit :=
  i ← ip a; assert (0 <? rc i);; sem_post a.

(** ** Inodes on disk and in memory *)

(** the loop of [inode_alloc] from [ino] on *)
Fixpoint alloc_scan (n : nat) (ctx : option Z) (type : Z) (ino : Z) : M st Z :=
  match n with
  | O => panic
  | S n =>
      let bno := to_block_no ino in
      b ← lift (bc_acquire bno);
      d ← lift (bc_data b);
      if Layout.type (get_entry d ino) =? INODE_INVALID then
        lift (bc_update b (put_entry ino
          (mkInodeEntry type 0 0 0 0 (replicate 12 0) 0)));;
        lift (bc_sync ctx b);;
        lift (bc_release b);;
        mret ino
      else
        lift (bc_release b);;
        alloc_scan n ctx type (ino + 1)
  end.
Definition inode_alloc (ctx : option Z) (type : Z) : M st Z :=
  assert (negb (type =? INODE_INVALID));;
  alloc_scan (Z.to_nat (sb_num_inodes sblock - 1)) ctx type 1.

Definition inode_sync (ctx : option Z) (a : Z) (do_write : bool) : M st unit :=
  i ← ip a;
  when (valid i && do_write)
    (b ← lift (bc_acquire (to_block_no (inode_no_ i)));
     i ← ip a;
     lift (bc_update b (put_entry (inode_no_ i) (entry i)));;
     lift (bc_sync ctx b);;
     lift (bc_release b));;
  i ← ip a;
  when (negb (valid i))
    (b ← lift (bc_acquire (to_block_no (inode_no_ i)));
     d ← lift (bc_data b);
     set_ip a (λ i, mkInode (lock i) (rc i) (inode_no_ i) true (get_entry d (inode_no_ i)));;
     lift (bc_release b)).

(** the loop over the list of [inode_get] *)
Fixpoint find_inode (l : list Z) (ino : Z) : M st (option Z) :=
  match l with
  | [] => mret None
  | p :: l =>
      i ← ip p;
      if inode_no_ i =? ino then mret (Some p) else find_inode l ino
  end.

Definition inode_get (ino : Z) : M st Z :=
  if ino =? 0 then mret 0
  else
    assert (ino <? sb_num_inodes sblock);;
    acquire_spinlock tree_lock;;
    l ← gets ihead;
    found ← find_inode l ino;
    match found with
    | Some a =>
        set_ip a (λ i, set_rc (increment_rc (rc i)) i);;
        release_spinlock tree_lock;;
        mret a
    | None =>
        a ← gets inext;
        modify (upd_inext (λ n, n + 1));;
        modify (upd_imem <[a := init_inode]>);;
        set_ip a (λ i, mkInode (lock i) (rc i) ino (valid i) (entry i));;
        set_ip a (λ i, set_rc (increment_rc (rc i)) i);;
        inode_lock a;;
        inode_sync None a false;;
        inode_unlock a;;
        modify (upd_ihead (λ l, a :: l));;
        release_spinlock tree_lock;;
        mret a
    end.

Definition init_inodes : M st unit :=
  init_spinlock tree_lock;;
  modify (upd_ihead (λ _, []));;
  if ROOT_INODE_NO <? sb_num_inodes sblock then
    a ← inode_get ROOT_INODE_NO; modify (upd_iroot (λ _, a))
  else mret tt.

Definition inode_clear (ctx : option Z) (a : Z) : M st unit :=
  i ← ip a;
  when (negb (indirect (entry i) =? 0))
    (b ← lift (bc_acquire (indirect (entry i)));
     for_each (zseq 0 (Z.to_nat INODE_NUM_INDIRECT))
       (λ k, d ← lift (bc_data b);
             v ← getopt (λ _, get_addr d k);
             when (negb (v =? 0)) (lift (bc_free ctx v)));;
     lift (bc_release b);;
     i ← ip a;
     lift (bc_free ctx (indirect (entry i)));;
     set_ientry a (set_indirect 0));;
  for_each (zseq 0 (Z.to_nat INODE_NUM_DIRECT))
    (λ k, i ← ip a;
          v ← getopt (λ _, addrs (entry i) !! Z.to_nat k);
          when (negb (v =? 0))
            (lift (bc_free ctx v);;
             set_ientry a (set_addr (Z.to_nat k) 0)));;
  set_ientry a (set_num_bytes 0);;
  inode_sync ctx a true.

Definition inode_share (a : Z) : M st Z :=
  set_ip a (λ i, set_rc (increment_rc (rc i)) i);; mret a.

Definition inode_put (ctx : option Z) (a : Z) : M st unit :=
  sem_wait a;;
  set_ip a (λ i, set_rc (snd (decrement_rc (rc i))) i);;
  i ← ip a;
  if (rc i =? 0) && (num_links (entry i) =? 0) then
    set_ientry a (set_type INODE_INVALID);;
    inode_clear ctx a;;
    inode_sync ctx a true;;
    acquire_spinlock tree_lock;;
    modify (upd_ihead (detach a));;
    release_spinlock tree_lock;;
    sem_post a;;
    modify (upd_imem (delete a))
  else sem_post a.

(** ** File contents *)

(** the number of the block and the value of [*modified] *)
Definition inode_map (ctx : option Z) (a : Z) (offset : Z) : M st (Z * bool) :=
  let numblock := i32 offset in
  i ← ip a;
  if numblock <? INODE_NUM_DIRECT then
    v ← getopt (λ _, addrs (entry i) !! Z.to_nat numblock);
    modified ←
      (if v =? 0 then
         b ← lift (bc_alloc ctx);
         set_ientry a (set_addr (Z.to_nat numblock) b);;
         inode_sync ctx a true;;
         mret true
       else mret false);
    i ← ip a;
    v ← getopt (λ _, addrs (entry i) !! Z.to_nat numblock);
    mret (v, modified)
  else
    let numblock := numblock - INODE_NUM_DIRECT in
    when (indirect (entry i) =? 0)
      (b ← lift (bc_alloc ctx);
       set_ientry a (set_indirect b);;
       inode_sync ctx a true);;
    i ← ip a;
    b ← lift (bc_acquire (indirect (entry i)));
    d ← lift (bc_data b);
    v ← getopt (λ _, get_addr d numblock);
    modified ←
      (if v =? 0 then
         n ← lift (bc_alloc ctx);
         lift (bc_update b (put_addr numblock n));;
         lift (bc_sync ctx b);;
         mret true
       else mret false);
    d ← lift (bc_data b);
    v ← getopt (λ _, get_addr d numblock);
    lift (bc_release b);;
    mret (v, modified).

(** [i = (i / BLOCK_SIZE + 1) * BLOCK_SIZE] *)
Definition next_block (i : Z) : Z := u64 ((i / BLOCK_SIZE + 1) * BLOCK_SIZE).
Definition chunk (i end_ : Z) : Z := MIN (BLOCK_SIZE - i mod BLOCK_SIZE) (end_ - i).

(** the rounds the loops of [inode_read] and [inode_write] can take *)
Definition rounds (offset end_ : Z) : nat := S (Z.to_nat (end_ / BLOCK_SIZE - offset / BLOCK_SIZE + 1)).

(** the loop of [inode_read] from [i] on: the bytes stored at [dest] *)
Fixpoint read_blocks (fuel : nat) (a i end_ : Z) : M st (list Z) :=
  match fuel with
  | O => nofuel
  | S fuel =>
      if i <? end_ then
        '(bno, _) ← inode_map None a (i / BLOCK_SIZE);
        b ← lift (bc_acquire bno);
        d ← lift (bc_data b);
        let piece := sub (Z.to_nat (i mod BLOCK_SIZE)) (Z.to_nat (chunk i end_)) d in
        lift (bc_release b);;
        rest ← read_blocks fuel a (next_block i) end_;
        mret (piece ++ rest)
      else mret []
  end.

Definition on_cons (f : console → console) (s : st) : st := upd_cons f s.
Definition proc_killed : M st bool := gets killed.

(** the bytes stored at [dest] and the count returned *)
Definition inode_read (a offset count : Z) : M st (list Z * Z) :=
  i ← ip a;
  if type (entry i) =? INODE_DEVICE then
    assert (major (entry i) =? 1);;
    console_read cons on_cons (inode_unlock a) (inode_lock a) proc_killed count
  else
    let nb := num_bytes (entry i) in
    let count := if nb <? u64 (count + offset) then u64 (nb - offset) else count in
    let end_ := u64 (offset + count) in
    assert (offset <=? nb);;
    assert (end_ <=? nb);;
    assert (offset <=? end_);;
    l ← read_blocks (rounds offset end_) a offset end_;
    mret (l, count).

(** the loop of [inode_write] from [i] on, with the bytes [src] left to write *)
Fixpoint write_blocks (fuel : nat) (ctx : option Z) (a : Z) (src : list Z) (i end_ : Z) : M st unit :=
  match fuel with
  | O => nofuel
  | S fuel =>
      if i <? end_ then
        '(bno, _) ← inode_map ctx a (i / BLOCK_SIZE);
        b ← lift (bc_acquire bno);
        let len := Z.to_nat (chunk i end_) in
        lift (bc_update b (splice (Z.to_nat (i mod BLOCK_SIZE)) (take len src)));;
        lift (bc_sync ctx b);;
        lift (bc_release b);;
        write_blocks fuel ctx a (drop len src) (next_block i) end_
      else mret tt
  end.

(** [src] points to at least [count] bytes, the list *)
Definition inode_write (ctx : option Z) (a : Z) (src : list Z) (offset count : Z) : M st Z :=
  i ← ip a;
  let end_ := u64 (offset + count) in
  if type (entry i) =? INODE_DEVICE then
    assert (major (entry i) =? 1);;
    console_write cons on_cons (inode_unlock a) (inode_lock a) src count
  else
    assert (offset <=? num_bytes (entry i));;
    assert (end_ <=? INODE_MAX_BYTES);;
    assert (offset <=? end_);;
    when (num_bytes (entry i) <? end_)
      (set_ientry a (set_num_bytes end_);;
       inode_sync ctx a true);;
    write_blocks (rounds offset end_) ctx a src offset end_;;
    mret count.

(** ** Directories *)

(** the loop of [inode_lookup] from [i] on: the inode number and the value of [*index] *)
Fixpoint lookup_loop (fuel : nat) (a : Z) (name : list Z) (i : Z) : M st (option (Z * Z)) :=
  match fuel with
  | O => nofuel
  | S fuel =>
      x ← ip a;
      if i <? num_bytes (entry x) then
        '(l, _) ← inode_read a i 16;
        let now := dec_dirent l in
        if negb (inode_no now =? 0) then
          c ← getopt (λ _, memcmp2 name (Layout.name now));
          if c =? 0 then mret (Some (inode_no now, i))
          else lookup_loop fuel a name (u32 (i + 16))
        else lookup_loop fuel a name (u32 (i + 16))
      else mret None
  end.

Definition dir_fuel (e : InodeEntry) : nat := S (Z.to_nat (num_bytes e / 16 + 1)).

(** the inode number (0 when there is none), and the value of [*index] when it is set *)
Definition inode_lookup (a : Z) (name : list Z) : M st (Z * option Z) :=
  x ← ip a;
  assert (type (entry x) =? INODE_DIRECTORY);;
  r ← lookup_loop (dir_fuel (entry x)) a name 0;
  match r with
  | Some (ino, i) => mret (ino, Some i)
  | None => mret (0, None)
  end.

(** the loop of [inode_lookup2], which remembers the first free entry in [*index] *)
Fixpoint lookup2_loop (fuel : nat) (a : Z) (name : list Z) (index i : Z) : M st (Z * Z) :=
  match fuel with
  | O => nofuel
  | S fuel =>
      x ← ip a;
      if i <? num_bytes (entry x) then
        '(l, _) ← inode_read a i 16;
        let now := dec_dirent l in
        let index :=
          if (inode_no now =? 0) && (index =? INODE_MAX_BYTES) then i else index in
        if negb (inode_no now =? 0) then
          c ← getopt (λ _, memcmp2 name (Layout.name now));
          if c =? 0 then mret (inode_no now, i)
          else lookup2_loop fuel a name index (u32 (i + 16))
        else lookup2_loop fuel a name index (u32 (i + 16))
      else
        mret (0, if index =? INODE_MAX_BYTES then num_bytes (entry x) else index)
  end.
Definition inode_lookup2 (a : Z) (name : list Z) : M st (Z * Z) :=
  x ← ip a;
  assert (type (entry x) =? INODE_DIRECTORY);;
  lookup2_loop (dir_fuel (entry x)) a name INODE_MAX_BYTES 0.

Definition inode_insert (ctx : option Z) (a : Z) (name : list Z) (ino : Z) : M st Z :=
  x ← ip a;
  assert (type (entry x) =? INODE_DIRECTORY);;
  '(found, offset) ← inode_lookup2 a name;
  if negb (found =? 0) then mret (u64 (-1))
  else
    nm ← getopt (λ _, str_ncpy 14 name);
    inode_write ctx a (enc_dirent (mkDirEntry (u16 ino) nm)) offset 16;;
    mret offset.

Definition inode_remove (ctx : option Z) (a : Z) (index : Z) : M st unit :=
  '(l, _) ← inode_read a index 16;
  inode_write ctx a (enc_dirent (mkDirEntry 0 (Layout.name (dec_dirent l)))) index 16;;
  mret tt.

(** ** Paths *)

(** the loop of [namex] at the inode [ans]: the inode found (0 for none) and the last
    element copied to [name] *)
Fixpoint namex_loop (fuel : nat) (ctx : option Z) (nameiparent : bool) (ans : Z)
    (path name : list Z) : M st (Z * list Z) :=
  match fuel with
  | O => nofuel
  | S fuel =>
      match skipelem path name with
      | None =>
          if nameiparent then inode_put ctx ans;; mret (0, name) else mret (ans, name)
      | Some (path, name) =>
          inode_lock ans;;
          i ← ip ans;
          if negb (type (entry i) =? INODE_DIRECTORY) then
            inode_unlock ans;; inode_put ctx ans;; mret (0, name)
          else if nameiparent && bool_decide (path = []) then
            inode_unlock ans;; mret (ans, name)
          else
            '(ino, _) ← inode_lookup ans name;
            next ← inode_get ino;
            if next =? 0 then
              inode_unlock ans;; inode_put ctx ans;; mret (0, name)
            else
              inode_unlock ans;;
              inode_put ctx ans;;
              namex_loop fuel ctx nameiparent next path name
      end
  end.

(** [cwd] is [thisproc()->cwd] *)
Definition namex (cwd : Z) (path : list Z) (nameiparent : bool) (name : list Z)
    (ctx : option Z) : M st (Z * list Z) :=
  ans ← (if bool_decide (path !! 0%nat = Some SLASH) then inode_get ROOT_INODE_NO
         else inode_share cwd);
  namex_loop (S (length path)) ctx nameiparent ans path name.

Definition namei (cwd : Z) (path : list Z) (ctx : option Z) : M st Z :=
  '(a, _) ← namex cwd path false (replicate 14 0) ctx; mret a.
Definition nameiparent (cwd : Z) (path name : list Z) (ctx : option Z) : M st (Z * list Z) :=
  namex cwd path true name ctx.

Definition stati (a : Z) : M st stat :=
  i ← ip a;
  mode ←
    (if type (entry i) =? INODE_REGULAR then mret S_IFREG
     else if type (entry i) =? INODE_DIRECTORY then mret S_IFDIR
     else if type (entry i) =? INODE_DEVICE then mret 0
     else panic);
  mret (mkStat 1 (inode_no_ i) (num_links (entry i)) (num_bytes (entry i)) mode).

End inode.
