(* ===== verification/InodeSpec.v ===== *)
(** * What the inode layer promises

    [file_byte V e o] is byte [o] of the file with entry [e] when the blocks have the
    contents [V].  Against the laws of [BlockCacheLaws], whatever cache implements them,
    [inode_map] finds the block of an offset and reading returns these bytes. *)

From Stdlib Require Import ZArith Lia.
From S2P Require Import Prelude Words Sync Layout Cache CacheSpec CacheLog BlockCache CacheAlloc.
From S2P Require Import Console Inode.

(** the number of the block that holds block [k] of the file, 0 for a hole *)
Definition block_of (V : Z → list Z) (e : InodeEntry) (k : Z) : Z :=
  if k <? INODE_NUM_DIRECT then nth (Z.to_nat k) (addrs e) 0
  else if indirect e =? 0 then 0
  else nth (Z.to_nat (k - INODE_NUM_DIRECT)) (dec_indirect (V (indirect e))) 0.

Definition file_byte (V : Z → list Z) (e : InodeEntry) (o : Z) : Z :=
  nth (Z.to_nat (o mod BLOCK_SIZE)) (V (block_of V e (o / BLOCK_SIZE))) 0.
Definition file_bytes (V : Z → list Z) (e : InodeEntry) (o : Z) (n : nat) : list Z :=
  map (file_byte V e) (zseq o n).

Lemma length_file_bytes V e o n : length (file_bytes V e o n) = n.
Proof. unfold file_bytes. by rewrite length_map, length_zseq. Qed.

Lemma file_bytes_app V e o n m :
  file_bytes V e o (n + m) = file_bytes V e o n ++ file_bytes V e (o + Z.of_nat n) m.
Proof. unfold file_bytes. by rewrite zseq_app, map_app. Qed.

Section spec.
Context {C : Type} `{BlockCacheLaws C} (sblock : SuperBlock).
Local Notation st := (itree C).
Implicit Types (s : st) (V : Z → list Z) (e : InodeEntry).

(** an entry whose first [n] blocks are all there *)
Record mapped V e (n : Z) : Prop := {
  mp_len : length (addrs e) = 12%nat;
  mp_max : n ≤ INODE_MAX_BLOCKS;
  mp_blocks : ∀ k, 0 ≤ k < n → bc_block (block_of V e k);
  mp_indirect : INODE_NUM_DIRECT < n → indirect e ≠ 0 ∧ bc_block (indirect e) }.

(** the same state but for the block cache *)
Definition with_cache (c : C) s : st := upd_cst (λ _, c) s.

Lemma with_cache_cst s : with_cache (cst s) s = s.
Proof. by destruct s. Qed.
Lemma with_cache_twice c c' s : with_cache c (with_cache c' s) = with_cache c s.
Proof. done. Qed.

Lemma lift_run {A} (m : M C A) s x c :
  m (cst s) = Ok (x, c) → lift m s = Ok (x, with_cache c s).
Proof. intros E. unfold lift. by rewrite E. Qed.

Lemma ip_run a i s : imem s !! a = Some i → ip a s = Ok (i, s).
Proof. exact (getopt_run (λ s, imem s !! a) s i). Qed.
Lemma set_ip_run a f i s :
  imem s !! a = Some i → set_ip a f s = Ok (tt, upd_imem <[a := f i]> s).
Proof. intros E. unfold set_ip. by rewrite (bind_Ok _ _ _ _ _ (ip_run _ _ _ E)). Qed.

(** Acquiring a block, looking at its data and releasing it. *)
Lemma lift_acquire V s bno :
  bc_rep V ∅ (cst s) → bc_block bno →
  ∃ b c, lift (bc_acquire bno) s = Ok (b, with_cache c s) ∧
    bc_rep V {[b := (bno, V bno)]} c ∧
    (∀ ctx X k, bc_room (cst s) ctx X k → bc_room c ctx X k).
Proof.
  intros R Hb. destruct (bc_acquire_ok V ∅ (cst s) bno R Hb) as (b & c & E & _ & R' & Hr).
  { intros a d. by rewrite lookup_empty. }
  exists b, c. split; [by apply lift_run|]. done.
Qed.

Lemma lift_data V s b bno d :
  bc_rep V {[b := (bno, d)]} (cst s) → lift (bc_data b) s = Ok (d, s).
Proof.
  intros R. rewrite (lift_run _ _ d (cst s)); [by rewrite with_cache_cst|].
  eapply bc_data_ok; [done|]. by rewrite lookup_singleton_eq.
Qed.

Lemma lift_release V s b bno :
  bc_rep V {[b := (bno, V bno)]} (cst s) →
  ∃ c, lift (bc_release b) s = Ok (tt, with_cache c s) ∧ bc_rep V ∅ c ∧
    (∀ ctx X k, bc_room (cst s) ctx X k → bc_room c ctx X k).
Proof.
  intros R. destruct (bc_release_ok V _ (cst s) b bno R) as (c & E & R' & Hr).
  { by rewrite lookup_singleton_eq. }
  exists c. split; [by apply lift_run|]. split; [|done].
  by rewrite delete_singleton_eq in R'.
Qed.

Lemma i32_small k : 0 ≤ k < 2 ^ 31 → i32 k = k.
Proof. intros. apply i32_id. lia. Qed.

(** [inode_map] on a block that is there already. *)
Lemma inode_map_mapped V s a i ctx k n :
  bc_rep V ∅ (cst s) → imem s !! a = Some i → mapped V (entry i) n → 0 ≤ k < n →
  ∃ c, inode_map sblock ctx a k s = Ok ((block_of V (entry i) k, false), with_cache c s) ∧
    bc_rep V ∅ c ∧ (∀ ctx X k, bc_room (cst s) ctx X k → bc_room c ctx X k).
Proof.
  intros R Ei [Hlen Hmax Hblk Hind] Hk. change INODE_MAX_BLOCKS with 140 in *.
  specialize (Hblk k Hk). pose proof (bc_block_pos _ Hblk) as Hpos.
  unfold inode_map, block_of in *. change INODE_NUM_DIRECT with 12 in *.
  rewrite i32_small by (change (2 ^ 31) with 2147483648; lia).
  erewrite bind_Ok by (apply ip_run; exact Ei). destruct (Z.ltb_spec k 12) as [Hd|Hd].
  - destruct (lookup_lt_is_Some_2 (addrs (entry i)) (Z.to_nat k)) as (v & Ev); [lia|].
    rewrite (nth_lookup_Some _ _ _ _ Ev) in *.
    erewrite bind_Ok by (apply getopt_run; exact Ev).
    destruct (Z.eqb_spec v 0); [lia|].
    erewrite bind_Ok by apply mret_run. erewrite bind_Ok by (apply ip_run; exact Ei).
    erewrite bind_Ok by (apply getopt_run; exact Ev). rewrite mret_run.
    exists (cst s). by rewrite with_cache_cst.
  - destruct Hind as [Hind Hbind]; [lia|].
    destruct (Z.eqb_spec (indirect (entry i)) 0); [done|].
    erewrite bind_Ok by apply when_false_run. erewrite bind_Ok by (apply ip_run; exact Ei).
    destruct (lift_acquire V s _ R Hbind) as (b & c1 & E1 & R1 & Hr1).
    rewrite (bind_Ok _ _ _ _ _ E1).
    erewrite bind_Ok by (eapply (lift_data V); exact R1).
    set (d := V (indirect (entry i))) in *.
    destruct (lookup_lt_is_Some_2 (dec_indirect d) (Z.to_nat (k - 12))) as (v & Ev).
    { unfold dec_indirect. rewrite length_dec_words. lia. }
    rewrite (nth_lookup_Some _ _ _ _ Ev) in *.
    erewrite bind_Ok by (apply getopt_run; exact Ev).
    destruct (Z.eqb_spec v 0); [lia|].
    erewrite bind_Ok by apply mret_run.
    erewrite bind_Ok by (eapply (lift_data V); exact R1).
    erewrite bind_Ok by (apply getopt_run; exact Ev).
    destruct (lift_release V (with_cache c1 s) b _ R1) as (c2 & E2 & R2 & Hr2).
    rewrite (bind_Ok _ _ _ _ _ E2), mret_run. exists c2. split; [done|]. split; [done|].
    intros. apply Hr2. by apply Hr1.
Qed.

(** a piece of one block *)
Lemma file_bytes_block V e i n :
  0 ≤ i → i mod BLOCK_SIZE + Z.of_nat n ≤ BLOCK_SIZE →
  length (V (block_of V e (i / BLOCK_SIZE))) = 512%nat →
  sub (Z.to_nat (i mod BLOCK_SIZE)) n (V (block_of V e (i / BLOCK_SIZE))) = file_bytes V e i n.
Proof.
  intros Hi Hn Hl. change BLOCK_SIZE with 512 in *.
  apply list_eq_length.
  - rewrite length_file_bytes. apply length_sub. rewrite Hl. zmod.
  - rewrite length_sub by (rewrite Hl; zmod). intros j Hj.
    rewrite lookup_sub by done. unfold file_bytes.
    change (map ?f ?l) with (f <$> l). rewrite list_lookup_fmap, lookup_zseq by done. simpl.
    unfold file_byte. change BLOCK_SIZE with 512.
    replace ((i + Z.of_nat j) / 512) with (i / 512) by zmod.
    replace ((i + Z.of_nat j) mod 512) with (i mod 512 + Z.of_nat j) by zmod.
    destruct (lookup_lt_is_Some_2 (V (block_of V e (i / 512)))
      (Z.to_nat (i mod 512) + j)%nat) as (x & Ex); [rewrite Hl; zmod|].
    rewrite Ex. f_equal. symmetry. apply nth_lookup_Some.
    replace (Z.to_nat (i mod 512 + Z.of_nat j)) with (Z.to_nat (i mod 512) + j)%nat by zmod. done.
Qed.

Lemma chunk_spec i end_ :
  0 ≤ i < end_ →
  chunk i end_ = Z.min (512 - i mod 512) (end_ - i) ∧ 0 < chunk i end_ ∧
  i mod 512 + chunk i end_ ≤ 512 ∧ i + chunk i end_ = Z.min ((i / 512 + 1) * 512) end_.
Proof. intros Hi. unfold chunk. rewrite MIN_min. change BLOCK_SIZE with 512. zmod. Qed.

Lemma next_block_spec i : 0 ≤ i < 2 ^ 32 → next_block i = (i / 512 + 1) * 512.
Proof.
  intros Hi. unfold next_block. change BLOCK_SIZE with 512. apply u64_id.
  change (2 ^ 32) with 4294967296 in *. change (2 ^ 64) with 18446744073709551616. zmod.
Qed.

(** The loop of [inode_read]. *)
Lemma read_blocks_run V s a i0 i end_ n fuel :
  bc_rep V ∅ (cst s) → imem s !! a = Some i0 → mapped V (entry i0) n →
  0 ≤ i ≤ end_ → end_ ≤ n * 512 → end_ / 512 - i / 512 + 1 < Z.of_nat fuel →
  ∃ c, read_blocks sblock fuel a i end_ s =
      Ok (file_bytes V (entry i0) i (Z.to_nat (end_ - i)), with_cache c s) ∧
    bc_rep V ∅ c ∧ (∀ ctx X k, bc_room (cst s) ctx X k → bc_room c ctx X k).
Proof.
  intros R Ei Hm. pose proof (mp_max _ _ _ Hm) as Hn. change INODE_MAX_BLOCKS with 140 in Hn.
  revert s R Ei i. induction fuel as [|fuel IH]; intros s R Ei i Hi Hend Hf; [zmod|].
  cbn [read_blocks]. destruct (Z.ltb_spec i end_) as [Hlt|Hge].
  - destruct (inode_map_mapped V s a i0 None (i / BLOCK_SIZE) n R Ei Hm) as (c1 & E1 & R1 & Hr1).
    { change BLOCK_SIZE with 512. zmod. }
    rewrite (bind_Ok _ _ _ _ _ E1). set (bno := block_of V (entry i0) (i / BLOCK_SIZE)).
    assert (bc_block bno) as Hb by (apply Hm; change BLOCK_SIZE with 512; zmod).
    destruct (lift_acquire V (with_cache c1 s) bno R1 Hb) as (b & c2 & E2 & R2 & Hr2).
    rewrite (bind_Ok _ _ _ _ _ E2).
    erewrite bind_Ok by (eapply (lift_data V); exact R2).
    destruct (lift_release V (with_cache c2 (with_cache c1 s)) b bno R2) as (c3 & E3 & R3 & Hr3).
    rewrite (bind_Ok _ _ _ _ _ E3). rewrite !with_cache_twice.
    destruct (chunk_spec i end_ ltac:(lia)) as (Ec & Hc1 & Hc2 & Hc3).
    assert (length (V bno) = 512%nat) as Hlen.
    { destruct (bc_rep_data V _ _ bno R3) as [_ ?]. done. }
    unfold bno. rewrite file_bytes_block; [|lia|change BLOCK_SIZE with 512; lia|done].
    rewrite (next_block_spec i) by (change (2 ^ 32) with 4294967296; lia).
    destruct (Z.ltb_spec ((i / 512 + 1) * 512) end_) as [Hmore|Hlast].
    + destruct (IH (with_cache c3 s) R3 Ei ((i / 512 + 1) * 512)) as (c4 & E4 & R4 & Hr4);
        [zmod|done|zmod|].
      rewrite (bind_Ok _ _ _ _ _ E4), mret_run, with_cache_twice. exists c4. split; [|split; [done|auto]].
      assert ((i / 512 + 1) * 512 = i + chunk i end_) as Enext by lia. rewrite Enext.
      replace (Z.to_nat (end_ - i)) with
        (Z.to_nat (chunk i end_) + Z.to_nat (end_ - (i + chunk i end_)))%nat by lia.
      by rewrite file_bytes_app, Z2Nat.id by lia.
    + assert (i + chunk i end_ = end_) as He by lia. destruct fuel as [|fuel]; [zmod|].
      cbn [read_blocks]. destruct (Z.ltb_spec ((i / 512 + 1) * 512) end_); [lia|].
      erewrite bind_Ok by apply mret_run. rewrite mret_run, app_nil_r. exists c3.
      split; [|split; [done|auto]]. do 3 f_equal. lia.
  - rewrite mret_run. exists (cst s). rewrite with_cache_cst.
    replace (Z.to_nat (end_ - i)) with 0%nat by lia. done.
Qed.

(** The blocks the file needs are there. *)
Definition covered V e : Prop := 0 ≤ num_bytes e ∧ mapped V e ((num_bytes e + 511) / 512).

Lemma inode_read_run V s a i offset count :
  bc_rep V ∅ (cst s) → imem s !! a = Some i → type (entry i) ≠ INODE_DEVICE →
  covered V (entry i) → 0 ≤ offset < 2 ^ 32 → 0 ≤ count < 2 ^ 32 →
  let n := Z.min count (num_bytes (entry i) - offset) in
  (offset ≤ num_bytes (entry i) →
   ∃ c, inode_read sblock a offset count s =
       Ok ((file_bytes V (entry i) offset (Z.to_nat n), n), with_cache c s) ∧
     bc_rep V ∅ c ∧ (∀ ctx X k, bc_room (cst s) ctx X k → bc_room c ctx X k)) ∧
  (num_bytes (entry i) < offset → inode_read sblock a offset count s = Panic).
Proof.
  intros R Ei Ht [Hnb Hm] Hoff Hcount n. pose proof (mp_max _ _ _ Hm) as Hmax.
  change INODE_MAX_BLOCKS with 140 in Hmax.
  assert (num_bytes (entry i) ≤ 71680) as Hle by zmod.
  change (2 ^ 32) with 4294967296 in *. unfold inode_read.
  assert (∀ z, 0 ≤ z < 18446744073709551616 → u64 z = z) as Hu by (intros; by apply u64_id).
  erewrite bind_Ok by (apply ip_run; exact Ei). rewrite (proj2 (Z.eqb_neq _ _) Ht).
  rewrite (Hu (count + offset)) by lia. split; intros Ho.
  - set (cnt := if num_bytes (entry i) <? count + offset then _ else count).
    assert (cnt = n) as ->.
    { unfold cnt, n. destruct (Z.ltb_spec (num_bytes (entry i)) (count + offset)); [|lia].
      rewrite Hu; lia. }
    rewrite (Hu (offset + n)) by lia.
    erewrite bind_Ok by (apply assert_run, Z.leb_le; lia).
    erewrite bind_Ok by (apply assert_run, Z.leb_le; lia).
    erewrite bind_Ok by (apply assert_run, Z.leb_le; lia).
    destruct (read_blocks_run V s a i offset (offset + n) _ (rounds offset (offset + n)) R Ei Hm)
      as (c & E & R' & Hr); [lia|zmod|unfold rounds; change BLOCK_SIZE with 512; zmod|].
    rewrite (bind_Ok _ _ _ _ _ E), mret_run. replace (offset + n - offset) with n by lia. eauto.
  - erewrite bind_Panic; [done|]. apply assert_fail, Z.leb_gt. lia.
Qed.

(** C14: on a regular file or directory [inode_read] returns the bytes of the file from [offset]
    on, [count] of them or as many as there are before the end of the file, and their
    number; the disk and the rest of the state stay as they are.  Beyond the end of the file
    it panics. *)
Theorem inode_read_correct V s a i offset count :
  bc_rep V ∅ (cst s) → imem s !! a = Some i → type (entry i) ≠ INODE_DEVICE →
  covered V (entry i) → 0 ≤ offset < 2 ^ 32 → 0 ≤ count < 2 ^ 32 →
  let n := Z.min count (num_bytes (entry i) - offset) in
  (offset ≤ num_bytes (entry i) →
   ∃ c, inode_read sblock a offset count s =
       Ok ((file_bytes V (entry i) offset (Z.to_nat n), n), with_cache c s) ∧
     bc_rep V ∅ c ∧ (∀ ctx X k, bc_room (cst s) ctx X k → bc_room c ctx X k)) ∧
  (num_bytes (entry i) < offset → inode_read sblock a offset count s = Panic).
Proof. apply inode_read_run. Qed.
End spec.

(** ** Concrete files: inode 1 with one block, 85; blocks 90 to 94 are free *)

Definition one_entry (t nb : Z) : InodeEntry := mkInodeEntry t 0 0 1 nb (85 :: replicate 11 0) 0.
Definition one_bitmap : list Z := replicate 11 255 ++ [131; 255] ++ replicate 499 0.
Definition one_disk (t nb : Z) (d : list Z) : gmap Z (list Z) := {[
  66 := replicate 64 0 ++ enc_inode (one_entry t nb) ++ replicate 384 0;
  80 := one_bitmap;
  85 := d ]}.
Definition one_V t nb d : Z → list Z := dread (one_disk t nb d).
Definition one_inode t nb : Inode := mkInode (init_sem 1) 1 1 true (one_entry t nb).
Definition one_tree t nb d : itree cachest :=
  mkTree false [1] {[1 := one_inode t nb]} 2 0 blank_console false (boot (one_disk t nb d)).

Lemma one_free t nb d b : is_free small_sb (one_V t nb d) b ↔ 90 ≤ b ≤ 94.
Proof.
  assert (∀ b, 0 ≤ b < 100 → used small_sb (one_V t nb d) b = bit_of one_bitmap b) as Hu.
  { intros x Hx. unfold used, bitmap_block. change BIT_PER_BLOCK with 4096.
    rewrite Z.div_small, Z.mod_small by lia. done. }
  unfold is_free. change (sb_num_blocks small_sb) with 100. split.
  - intros [Hb Hub]. rewrite Hu in Hub by done.
    assert (b ∈ zseq 0 100) as Hin by (apply elem_of_zseq; lia). clear Hb. revert b Hin Hub.
    cut (Forall (λ b, bit_of one_bitmap b = false → 90 ≤ b ≤ 94) (zseq 0 100)).
    { rewrite Forall_forall. auto. }
    by_decision.
  - intros Hb. rewrite Hu by lia. split; [lia|].
    assert (b ∈ zseq 90 5) as Hin by (apply elem_of_zseq; lia). revert b Hin Hb.
    cut (Forall (λ b, bit_of one_bitmap b = false) (zseq 90 5)); [rewrite Forall_forall; auto|].
    by_decision.
Qed.

Lemma one_client b : b = 66 ∨ b = 80 ∨ b = 85 ∨ 90 ≤ b ≤ 94 → client_block small_sb b.
Proof.
  unfold client_block, in_log. simpl. change LOG_MAX_SIZE with 63. lia.
Qed.

Lemma one_rep t nb d :
  0 ≤ t < 2 ^ 16 → 0 ≤ nb < 2 ^ 32 → block_ok d →
  cache_rep small_sb (one_V t nb d) ∅ (boot (one_disk t nb d)).
Proof.
  intros Ht Hnb Hd. split.
  - exists ∅. split; [apply boot_crep|]. split; first [done | by_decision | idtac].
    intros x Hx. by apply elem_of_nil in Hx.
  - intros b. unfold one_V, dread. destruct (one_disk t nb d !! b) as [l|] eqn:E; [|by_decision].
    revert b l E. apply map_Forall_insert_2; [|apply map_Forall_insert_2].
    + split; [|done]. apply bytes_app. split; [by_decision|]. apply bytes_app.
      split; [apply bytes_enc_inode|by_decision].
    + by_decision.
    + by apply map_Forall_singleton.
  - intros b Hb%one_free. split; [apply one_client; tauto|].
    intros ->%small_bitmap_block. lia.
  - intros b ->%small_bitmap_block. apply one_client. tauto.
Qed.

Lemma one_covered t nb d :
  0 ≤ nb ≤ 512 →
  @covered _ (cache_ops small_sb) (cache_laws small_sb) (one_V t nb d) (one_entry t nb).
Proof.
  intros Hnb. split; [apply Hnb|]. simpl. split; [done|change INODE_MAX_BLOCKS with 140; zmod| |].
  - intros k Hk. replace k with 0 by zmod.
    change (client_block small_sb 85). apply one_client. tauto.
  - change INODE_NUM_DIRECT with 12. intros. zmod.
Qed.

Definition hello_block : list Z := [104; 101; 108; 108; 111] ++ replicate 507 0.

Lemma inode_read_correct_witness :
  let V := one_V INODE_REGULAR 5 hello_block in
  let tree := one_tree INODE_REGULAR 5 hello_block in
  let e := one_entry INODE_REGULAR 5 in
  ∃ c, @inode_read _ (cache_ops small_sb) small_sb 1 1 100 tree =
    Ok ((file_bytes V e 1 4, 4), with_cache c tree) ∧ file_bytes V e 1 4 = [101; 108; 108; 111].
Proof.
  intros V tree e.
  pose proof (proj1 (@inode_read_correct _ (cache_ops small_sb) (cache_laws small_sb) small_sb
    V tree 1 (one_inode INODE_REGULAR 5) 1 100
    (conj (one_rep INODE_REGULAR 5 hello_block ltac:(done) ltac:(done) ltac:(by_decision)) eq_refl)
    ltac:(reflexivity) ltac:(done) (one_covered _ 5 _ ltac:(done)) ltac:(done) ltac:(done))
    ltac:(done)) as (c & E & _).
  exists c. split; [exact E|vm_compute; reflexivity].
Defined.
