(* ===== verification/InodeWrite.v ===== *)
(** * Writing files

    Growing and writing a file against the laws of the block cache: which blocks a file
    owns, what [inode_map] does when it has to allocate, and the contents after
    [inode_write].  The log space an operation needs is counted: a block for every block of
    the file touched and one more for the indirect block. *)

From Stdlib Require Import ZArith Lia.
From S2P Require Import Prelude Words Sync Layout Cache CacheSpec CacheLog BlockCache CacheAlloc.
From S2P Require Import Console Inode InodeSpec.

(** the block numbers a file holds: 12 direct ones, the indirect block and its 128 entries *)
Definition slots (V : Z → list Z) (e : InodeEntry) : list Z :=
  addrs e ++ indirect e ::
    (if indirect e =? 0 then replicate 128 0 else dec_indirect (V (indirect e))).
(** the place of block [k] of the file among them *)
Definition slot (k : Z) : nat := Z.to_nat (if k <? 12 then k else k + 1).

Lemma nth_zeros n m : nth n (replicate m 0) 0 = 0.
Proof. revert n; induction m as [|m IH]; intros [|n]; simpl; auto. Qed.

Lemma length_slots V e : length (addrs e) = 12%nat → length (slots V e) = 141%nat.
Proof.
  intros H. unfold slots. rewrite length_app, H. simpl. case_match; [done|].
  unfold dec_indirect. by rewrite length_dec_words.
Qed.

Lemma block_of_slot V e k :
  length (addrs e) = 12%nat → 0 ≤ k < 140 → block_of V e k = nth (slot k) (slots V e) 0.
Proof.
  intros Hl Hk. unfold block_of, slot, slots. change INODE_NUM_DIRECT with 12.
  destruct (Z.ltb_spec k 12).
  - by rewrite app_nth1 by lia.
  - rewrite app_nth2 by lia. rewrite Hl.
    replace (Z.to_nat (k + 1) - 12)%nat with (S (Z.to_nat (k - 12))) by lia. cbn [nth].
    case_match; [|done]. by rewrite nth_zeros.
Qed.

Lemma slot_range k : 0 ≤ k < 140 → (slot k < 141)%nat ∧ slot k ≠ 12%nat.
Proof. unfold slot. destruct (Z.ltb_spec k 12); lia. Qed.
Lemma slot_inj j k : 0 ≤ j < 140 → 0 ≤ k < 140 → slot j = slot k → j = k.
Proof. unfold slot. destruct (Z.ltb_spec k 12), (Z.ltb_spec j 12); lia. Qed.

Section write.
Context {C : Type} `{BlockCacheLaws C} (sblock : SuperBlock).
Context (s0 : itree C) (a : Z) (i0 : Inode) (ctx : option Z).
Hypothesis Hip : imem s0 !! a = Some i0.
Hypothesis Hvalid : valid i0 = true.
Local Notation ino := (inode_no_ i0).
Local Notation ib := (to_block_no sblock ino).
Hypothesis Hib : bc_block ib ∧ ¬ bc_bitmap ib.
Implicit Types (V : Z → list Z) (e : InodeEntry) (c : C) (L : list Z) (X : gset Z).

(** the states on the way differ from the first one in the cache and in the inode's entry *)
Definition st_at c e : itree C := with_cache c (upd_imem <[a := set_entry e i0]> s0).

Lemma ip_at c e : ip a (st_at c e) = Ok (set_entry e i0, st_at c e).
Proof. apply ip_run. apply lookup_insert_eq. Qed.

Lemma with_cache_at c c' e : with_cache c' (st_at c e) = st_at c' e.
Proof. done. Qed.

Lemma set_ientry_at f c e : set_ientry a f (st_at c e) = Ok (tt, st_at c (f e)).
Proof.
  unfold set_ientry. erewrite set_ip_run by apply lookup_insert_eq.
  unfold st_at, with_cache, upd_imem, upd_cst. simpl. by rewrite insert_insert_eq.
Qed.

Lemma st_at_start : st_at (cst s0) (entry i0) = s0.
Proof.
  unfold st_at, with_cache, upd_imem, upd_cst. destruct s0; simpl in *. f_equal.
  rewrite insert_id; [done|]. rewrite Hip. by destruct i0.
Qed.

(** ** Ownership *)

Definition usable V (x : Z) : Prop :=
  bc_block x ∧ ¬ bc_bitmap x ∧ ¬ bc_isfree V x ∧ x ≠ ib.

Record own L V : Prop := {
  own_usable : ∀ j x, L !! j = Some x → x ≠ 0 → usable V x;
  own_inj : ∀ j j' x, L !! j = Some x → L !! j' = Some x → x ≠ 0 → j = j' }.

Lemma own_ext L V V' :
  (∀ b, bc_bitmap b → V' b = V b) → own L V → own L V'.
Proof.
  intros E [H1 H2]. split; [|done]. intros j x Hj Hx.
  destruct (H1 j x Hj Hx) as (? & ? & Hf & ?). split_and!; try done.
  by rewrite (bc_isfree_ext V V' x E).
Qed.

Lemma own_insert L V V' j b :
  own L V → bc_block b → ¬ bc_bitmap b → b ≠ ib → bc_isfree V b →
  (∀ x, bc_isfree V' x ↔ bc_isfree V x ∧ x ≠ b) → own (<[j := b]> L) V'.
Proof.
  intros [H1 H2] Hb Hm Hi Hf HV. split.
  - intros k x. rewrite list_lookup_insert_Some.
    intros [(-> & -> & ?)|[? Hk]] Hx.
    + split_and!; try done. rewrite HV. tauto.
    + destruct (H1 k x Hk Hx) as (? & ? & ? & ?). split_and!; try done. rewrite HV. tauto.
  - assert (∀ k, L !! k ≠ Some b) as Hn.
    { intros k Hk. destruct (H1 k b Hk) as (_ & _ & Hn & _); [|done].
      pose proof (bc_block_pos b Hb). lia. }
    intros k k' x. rewrite !list_lookup_insert_Some. intros [(-> & -> & ?)|[? Hk]].
    + intros [(-> & ? & ?)|[? Hk']]; [done|]. by destruct (Hn k').
    + intros [(-> & -> & ?)|[? Hk']]; [by destruct (Hn k)|]. eauto.
Qed.

(** [n] blocks are free *)
Definition has_free V (n : nat) : Prop :=
  ∃ l, NoDup l ∧ length l = n ∧ ∀ b, b ∈ l → bc_isfree V b.

Lemma has_free_alloc V V' n b :
  has_free V (S n) → (∀ x, bc_isfree V' x ↔ bc_isfree V x ∧ x ≠ b) → has_free V' n.
Proof.
  intros (l & Hnd & Hl & Hf) HV. destruct (decide (b ∈ l)) as [Hb|Hb].
  - apply list_elem_of_lookup in Hb as [k Hk].
    exists (delete k l). split_and!.
    + eapply sublist_NoDup; [done|apply sublist_delete].
    + rewrite length_delete by eauto. lia.
    + intros x Hx. apply HV. split.
      * apply Hf. eapply elem_of_sublist; [exact Hx|apply sublist_delete].
      * intros ->. apply delete_Permutation in Hk. rewrite Hk in Hnd.
        by apply NoDup_cons in Hnd as [? _].
  - destruct l as [|x l]; [done|]. apply NoDup_cons in Hnd as [_ Hnd].
    exists l. split_and!; [done|simpl in Hl; lia|]. intros y Hy. apply HV.
    split; [apply Hf; by right|]. intros ->. apply Hb. by right.
Qed.

Lemma has_free_ext V V' n : (∀ b, bc_bitmap b → V' b = V b) → has_free V n → has_free V' n.
Proof.
  intros E (l & ? & ? & Hf). exists l. split_and!; [done..|].
  intros b Hb. rewrite (bc_isfree_ext V V' b E). auto.
Qed.

Lemma has_free_le V n m : has_free V n → (m ≤ n)%nat → has_free V m.
Proof.
  intros (l & Hnd & Hl & Hf) Hm. exists (take m l). split_and!.
  - eapply sublist_NoDup; [done|apply sublist_take].
  - rewrite length_take. lia.
  - intros b Hb. apply Hf. eapply elem_of_sublist; [exact Hb|apply sublist_take].
Qed.

(** ** What stays the same *)

(** blocks in use that are not the file's, nor the one its entry is in *)
Definition other V e (x : Z) : Prop :=
  ¬ bc_bitmap x ∧ x ≠ ib ∧ ¬ bc_isfree V x ∧ x ∉ slots V e.

Record frame V e V' e' : Prop := {
  fr_other : ∀ x, other V e x → V' x = V x ∧ other V' e' x;
  fr_inodes : ∀ n, n mod 8 ≠ ino mod 8 → get_entry (V' ib) n = get_entry (V ib) n;
  fr_blocks : ∀ k, 0 ≤ k < 140 → block_of V e k ≠ 0 → block_of V' e' k = block_of V e k }.

Lemma frame_refl V e : frame V e V e.
Proof. by split. Qed.

Lemma frame_trans V1 e1 V2 e2 V3 e3 : frame V1 e1 V2 e2 → frame V2 e2 V3 e3 → frame V1 e1 V3 e3.
Proof.
  intros [A1 A2 A3] [B1 B2 B3]. split.
  - intros x Hx. destruct (A1 x Hx) as [E Hx']. destruct (B1 x Hx') as [E' ?].
    split; [congruence|done].
  - intros n Hn. by rewrite B2, A2.
  - intros k Hk Hb. rewrite B3; [by apply A3|done|by rewrite A3].
Qed.

(** a block freshly allocated *)
Record fresh V V' b : Prop := {
  fs_free : bc_isfree V b;
  fs_block : bc_block b;
  fs_data : ¬ bc_bitmap b;
  fs_zero : V' b = replicate 512 0;
  fs_rest : ∀ x, x ≠ b → ¬ bc_bitmap x → V' x = V x;
  fs_isfree : ∀ x, bc_isfree V' x ↔ bc_isfree V x ∧ x ≠ b }.

Lemma slots_ext V V' e :
  (indirect e ≠ 0 → V' (indirect e) = V (indirect e)) → slots V' e = slots V e.
Proof.
  intros E. unfold slots. destruct (Z.eqb_spec (indirect e) 0); [done|]. by rewrite E.
Qed.

Lemma slot_12 V e : length (addrs e) = 12%nat → slots V e !! 12%nat = Some (indirect e).
Proof. intros Hl. unfold slots. rewrite lookup_app_r by lia. by rewrite Hl. Qed.

Record core V c e : Prop := {
  co_rep : bc_rep V ∅ c;
  co_wf : wf_inode e;
  co_own : own (slots V e) V;
  co_ib : ¬ bc_isfree V ib }.

Lemma core_indirect V c e : core V c e → indirect e ≠ 0 → usable V (indirect e).
Proof.
  intros [_ Hwf [Hu _] _] Hi. apply (Hu 12%nat); [|done]. apply slot_12, Hwf.
Qed.

Lemma core_block V c e k :
  core V c e → 0 ≤ k < 140 → block_of V e k ≠ 0 → usable V (block_of V e k).
Proof.
  intros [_ Hwf [Hu _] _] Hk. rewrite block_of_slot by (done || apply Hwf). intros Hb.
  apply (Hu (slot k)); [|done].
  destruct (slot_range k Hk) as [Hs _].
  destruct (lookup_lt_is_Some_2 (slots V e) (slot k)) as (x & Ex).
  { rewrite length_slots by apply Hwf. done. }
  by rewrite (nth_lookup_Some _ _ _ _ Ex).
Qed.

Lemma slots_fresh V V' c e b : core V c e → fresh V V' b → slots V' e = slots V e.
Proof.
  intros Hc Hf. apply slots_ext. intros Hi.
  destruct (core_indirect _ _ _ Hc Hi) as (_ & ? & Hnf & _). apply (fs_rest _ _ _ Hf); [|done].
  intros E. apply Hnf. rewrite E. apply Hf.
Qed.

Lemma frame_insert V e V' e' j b :
  length (addrs e) = 12%nat → length (addrs e') = 12%nat →
  slots V e !! j = Some 0 → slots V' e' = <[j := b]> (slots V e) → bc_isfree V b →
  (∀ x, bc_isfree V' x ↔ bc_isfree V x ∧ x ≠ b) →
  (∀ x, other V e x → V' x = V x) →
  (∀ n, n mod 8 ≠ ino mod 8 → get_entry (V' ib) n = get_entry (V ib) n) → frame V e V' e'.
Proof.
  intros Hl Hl' Hj Hs Hb Hf Ho Hi. split; [|done|].
  - intros x Hx. split; [by apply Ho|]. destruct Hx as (? & ? & Hnf & Hx).
    split_and!; [done|done|rewrite Hf; tauto|]. rewrite Hs.
    intros Hin%list_elem_of_lookup. destruct Hin as [k Hk].
    apply list_lookup_insert_Some in Hk as [(_ & <- & _)|[_ Hk]]; [done|].
    apply Hx. by eapply list_elem_of_lookup_2.
  - intros k Hk. rewrite !block_of_slot by done. rewrite Hs. intros Hn.
    destruct (decide (slot k = j)) as [<-|Hne].
    + by rewrite (nth_lookup_Some _ _ _ _ Hj) in Hn.
    + rewrite !nth_lookup. by rewrite list_lookup_insert_ne.
Qed.

(** ** The entry on disk *)

Lemma entry_off_range n : (entry_off n + 64 ≤ 512)%nat.
Proof. unfold entry_off. change INODE_PER_BLOCK with 8. zmod. Qed.

Lemma get_put_entry_eq e d : wf_inode e → length d = 512%nat → get_entry (put_entry ino e d) ino = e.
Proof.
  intros He Hd. unfold get_entry, put_entry. pose proof (entry_off_range ino).
  pose proof (length_enc_inode e (wf_addrs_len _ He)) as Hl.
  pose proof (sub_splice_eq (entry_off ino) (enc_inode e) d) as E. rewrite Hl in E.
  rewrite E by lia. by apply dec_enc_inode.
Qed.

Lemma get_put_entry_ne e d n :
  wf_inode e → length d = 512%nat → n mod 8 ≠ ino mod 8 →
  get_entry (put_entry ino e d) n = get_entry d n.
Proof.
  intros He Hd Hn. unfold get_entry, put_entry. f_equal.
  pose proof (entry_off_range ino). pose proof (entry_off_range n).
  pose proof (length_enc_inode e (wf_addrs_len _ He)) as Hl.
  apply sub_splice_ne; rewrite ?Hl; try lia. unfold entry_off. change INODE_PER_BLOCK with 8. zmod.
Qed.

Lemma put_entry_ok e d : wf_inode e → block_ok d → block_ok (put_entry ino e d).
Proof.
  intros He [Hb Hl]. unfold put_entry. split.
  - apply bytes_splice; [apply bytes_enc_inode|done].
  - rewrite length_splice; [done|]. rewrite length_enc_inode by apply He.
    rewrite Hl. apply entry_off_range.
Qed.

(** ** Steps on the cache *)

(** One round on a block: acquire, change its data, synchronise and release it. *)
Lemma modify_block V c e bno f X k :
  bc_rep V ∅ c → bc_block bno → ¬ bc_bitmap bno → block_ok (f (V bno)) →
  bno ∈ X → bc_room c ctx X k →
  ∃ c', (b ← lift (bc_acquire bno); lift (bc_update b f);; lift (bc_sync ctx b);;
         lift (bc_release b)) (st_at c e) = Ok (tt, st_at c' e) ∧
    bc_rep (fupd V bno (f (V bno))) ∅ c' ∧ bc_room c' ctx X k.
Proof.
  intros R Hb Hm Hok HX Hr.
  destruct (bc_acquire_ok V ∅ c bno R Hb) as (b & c1 & E1 & _ & R1 & Hr1).
  { intros x d. by rewrite lookup_empty. }
  erewrite bind_Ok by (apply lift_run; exact E1). rewrite with_cache_at.
  destruct (bc_update_ok V _ c1 b bno (V bno) f R1) as (c2 & E2 & R2 & Hr2).
  { apply lookup_insert_eq. }
  erewrite bind_Ok by (apply lift_run; exact E2). rewrite with_cache_at, insert_insert_eq in *.
  destruct (bc_sync_ok V _ c2 b bno (f (V bno)) ctx X k R2) as (c3 & E3 & R3 & Hr3); try done.
  { apply lookup_insert_eq. } { by apply Hr2, Hr1. }
  erewrite bind_Ok by (apply lift_run; exact E3). rewrite with_cache_at.
  destruct (bc_release_ok (fupd V bno (f (V bno))) _ c3 b bno R3) as (c4 & E4 & R4 & Hr4).
  { rewrite lookup_insert_eq. by rewrite fupd_eq. }
  exists c4. split_and!; [exact (lift_run _ (st_at c3 e) _ _ E4)| |by apply Hr4].
  by rewrite delete_insert_id in R4.
Qed.

Lemma sync_entry V c e X k :
  core V c e → ib ∈ X → bc_room c ctx X k →
  ∃ c', inode_sync sblock ctx a true (st_at c e) = Ok (tt, st_at c' e) ∧
    core (fupd V ib (put_entry ino e (V ib))) c' e ∧ bc_room c' ctx X k.
Proof.
  intros [R Hwf Ho Hi] HX Hr. unfold inode_sync. destruct Hib as [Hb Hm].
  erewrite bind_Ok by apply ip_at. cbn [valid set_entry inode_no_]. rewrite Hvalid.
  change (true && true) with true. cbn [negb when].
  destruct (modify_block V c e ib (put_entry ino e) X k R Hb Hm) as (c' & E & R' & Hr').
  { apply put_entry_ok; [done|]. by eapply bc_rep_data. } { done. } { done. }
  assert (∀ x, x ≠ ib → fupd V ib (put_entry ino e (V ib)) x = V x) as HV.
  { intros. by apply fupd_ne. }
  exists c'. split_and!; [| |done].
  - erewrite bind_Ok; [|refine (eq_trans _ E)].
    + erewrite bind_Ok by apply ip_at. cbn [valid set_entry]. by rewrite Hvalid.
    + destruct (lift (bc_acquire ib) (st_at c e)) as [[b s1]| | | | |] eqn:Ea;
        unfold mbind, M_bind in *; rewrite Ea in *; try done.
      assert (s1 = st_at (cst s1) e) as ->.
      { unfold lift in Ea. destruct (bc_acquire ib (cst (st_at c e))) as [[]| | | | |]; naive_solver. }
      by rewrite ip_at.
  - assert (∀ b, bc_bitmap b → fupd V ib (put_entry ino e (V ib)) b = V b) as Hbm.
    { intros b Hbb. apply HV. by intros ->. }
    split; [done|done| |by rewrite (bc_isfree_ext V _ ib Hbm)].
    apply (own_ext _ V); [done|]. rewrite (slots_ext V); [done|]. intros Hn. apply HV.
    apply (core_indirect V c e); [by split|done].
Qed.

(** [cache->alloc] with the blocks of [H] locked *)
Lemma alloc_run V H1 c e X n k :
  bc_rep V H1 c → (∀ x, bc_bitmap x → x ∈ X) → bc_room c ctx X (S k) → has_free V (S n) →
  (∀ p x d, H1 !! p = Some (x, d) → ¬ bc_bitmap x ∧ ¬ bc_isfree V x) →
  ∃ b V' c', lift (bc_alloc ctx) (st_at c e) = Ok (b, st_at c' e) ∧ bc_rep V' H1 c' ∧
    bc_room c' ctx ({[b]} ∪ X) k ∧ fresh V V' b ∧ has_free V' n.
Proof.
  intros R HX Hr Hf Hh. pose proof Hf as (l & _ & Hl & Hfl).
  destruct (bc_alloc_ok V H1 c ctx X k R) as (b & c' & V' & E & R' & Hr' & ? & ? & ? & ? & ? & ?); try done.
  { destruct l as [|x l]; [done|]. exists x. apply Hfl. by left. }
  exists b, V', c'. split_and!; [exact (lift_run _ (st_at c e) _ _ E)|done|done|by split|].
  by eapply has_free_alloc.
Qed.

(** ** The log space and the free blocks left *)

(** the free blocks the operation is not meant to take *)
Context (spare : nat).

Definition extra e X : nat := if bool_decide (indirect e ≠ 0 ∧ indirect e ∈ X) then 0%nat else 1%nat.

(** enough for [n] more blocks of the file, the blocks of [X] being logged or paid for, with
    [spare] blocks left over *)
Record budget V c e X (n : nat) : Prop := {
  bu_bitmap : ∀ x, bc_bitmap x → x ∈ X;
  bu_ib : ib ∈ X;
  bu_room : bc_room c ctx X (n + extra e X);
  bu_free : has_free V (n + (spare + if indirect e =? 0 then 1 else 0)) }.

Lemma extra_mono e X X' : X ⊆ X' → (extra e X' ≤ extra e X)%nat.
Proof. intros HX. unfold extra. repeat case_bool_decide; try lia. set_solver. Qed.

Lemma budget_add V c e X n b : budget V c e X (S n) → budget V c e ({[b]} ∪ X) n.
Proof.
  intros [H1 H2 H3 H4]. split; [set_solver|set_solver| |].
  - apply (bc_room_le _ _ ({[b]} ∪ X) _ (n + extra e X)); [by apply bc_room_add|done|].
    pose proof (extra_mono e X ({[b]} ∪ X) ltac:(set_solver)). lia.
  - eapply has_free_le; [done|lia].
Qed.

Lemma budget_le V c e X n m : budget V c e X n → (m ≤ n)%nat → budget V c e X m.
Proof.
  intros [H1 H2 H3 H4] Hm. split; [done|done| |].
  - eapply bc_room_le; [exact H3|done|lia].
  - eapply has_free_le; [done|lia].
Qed.

Lemma budget_indirect V c e X n :
  indirect e ≠ 0 → budget V c e X n → budget V c e ({[indirect e]} ∪ X) n.
Proof.
  intros Hi [H1 H2 H3 H4]. split; [set_solver|set_solver| |done].
  unfold extra in *. rewrite (bool_decide_eq_true_2 (_ ∧ _)) by set_solver.
  rewrite Nat.add_0_r. case_bool_decide as Hb.
  - eapply bc_room_le; [exact H3|set_solver|lia].
  - apply bc_room_add. replace (S n) with (n + 1)%nat by lia. done.
Qed.

Lemma budget_cache V c c' e X n :
  (∀ X k, bc_room c ctx X k → bc_room c' ctx X k) → budget V c e X n → budget V c' e X n.
Proof. intros Hr []. split; auto. Qed.

(** ** [inode_map] *)

(** what stays of an entry when blocks are added *)
Definition meta e := (type e, major e, minor e, num_links e, num_bytes e).

Record map_post V e V' c' e' X' (n : nat) : Prop := {
  mo_core : core V' c' e';
  mo_budget : budget V' c' e' X' n;
  mo_frame : frame V e V' e';
  mo_meta : meta e' = meta e;
  mo_same : ∀ j, 0 ≤ j < 140 → block_of V e j ≠ 0 → V' (block_of V e j) = V (block_of V e j);
  mo_synced : get_entry (V' ib) ino = e' ∨ V' ib = V ib ∧ e' = e }.

Lemma same_fresh V V' c e b :
  core V c e → fresh V V' b → ∀ j, 0 ≤ j < 140 → block_of V e j ≠ 0 →
  V' (block_of V e j) = V (block_of V e j).
Proof.
  intros Hc Hf j Hj Hn. destruct (core_block _ _ _ j Hc Hj Hn) as (_ & ? & Hu & _).
  apply Hf; [|done]. intros E. apply Hu. rewrite E. apply Hf.
Qed.

(** Putting a fresh block into the entry and synchronising it. *)
Lemma alloc_sync V V1 c c1 e e1 X k j b :
  core V c e → fresh V V1 b → bc_rep V1 ∅ c1 → bc_room c1 ctx ({[b]} ∪ X) k → ib ∈ X →
  wf_inode e1 → slots V e !! j = Some 0 → slots V1 e1 = <[j := b]> (slots V e) →
  ∃ V2 c2, inode_sync sblock ctx a true (st_at c1 e1) = Ok (tt, st_at c2 e1) ∧
    core V2 c2 e1 ∧ bc_room c2 ctx ({[b]} ∪ X) k ∧ frame V e V2 e1 ∧
    (∀ j, 0 ≤ j < 140 → block_of V e j ≠ 0 → V2 (block_of V e j) = V (block_of V e j)) ∧
    get_entry (V2 ib) ino = e1 ∧ (∀ x, x ≠ ib → V2 x = V1 x) ∧
    (∀ x, bc_isfree V2 x ↔ bc_isfree V1 x).
Proof.
  intros Hc Hf R1 Hr HX Hwf Hj Hs. pose proof Hc as [_ Hwf0 Ho Hi].
  assert (b ≠ ib) as Hbi by (intros ->; apply Hi, Hf).
  assert (core V1 c1 e1) as Hc1.
  { split; [done|done| |].
    - rewrite Hs. eapply own_insert; try done; apply Hf.
    - rewrite (fs_isfree _ _ _ Hf). tauto. }
  destruct (sync_entry V1 c1 e1 ({[b]} ∪ X) k Hc1) as (c2 & E & Hc2 & Hr2); [set_solver|done|].
  set (V2 := fupd V1 ib (put_entry ino e1 (V1 ib))) in *.
  assert (∀ x, x ≠ ib → V2 x = V1 x) as HV2 by (intros; by apply fupd_ne).
  assert (∀ x, bc_isfree V2 x ↔ bc_isfree V1 x) as Hfr2.
  { intros x. apply bc_isfree_ext. intros y Hy. apply HV2. intros ->. by destruct Hib. }
  assert (V1 ib = V ib) as Eib by (apply Hf; [done|apply Hib]).
  assert (length (V1 ib) = 512%nat) as Hlen by apply (bc_rep_data _ _ _ ib R1).
  assert (get_entry (V2 ib) ino = e1) as Hsync.
  { unfold V2. rewrite fupd_eq. by apply get_put_entry_eq. }
  exists V2, c2. split_and!; try done.
  - eapply frame_insert; try done; [apply Hwf0|apply Hwf| |apply Hf| | |].
    + rewrite (slots_ext V1); [done|]. intros Hn. apply HV2. by apply (core_indirect V1 c1 e1).
    + intros x. rewrite Hfr2. apply Hf.
    + intros x (Hx1 & Hx2 & Hx3 & _). rewrite HV2 by done. apply Hf; [|done].
      intros ->. apply Hx3, Hf.
    + intros n Hn. unfold V2. rewrite fupd_eq, get_put_entry_ne by done. by rewrite Eib.
  - intros k' Hk' Hn. rewrite HV2 by by apply (core_block V c e). by eapply same_fresh.
Qed.
Lemma lookup_nth (l : list Z) n : (n < length l)%nat → l !! n = Some (nth n l 0).
Proof.
  intros Hn. destruct (lookup_lt_is_Some_2 l n Hn) as (x & E).
  by rewrite E, (nth_lookup_Some _ _ _ _ E).
Qed.

(** the fresh block can be put at a direct slot or become the indirect block *)
Lemma slots_set_addr V e j b :
  length (addrs e) = 12%nat → (j < 12)%nat → slots V (set_addr j b e) = <[j := b]> (slots V e).
Proof. intros Hl Hj. unfold slots. simpl. by rewrite insert_app_l by lia. Qed.

Lemma slots_set_indirect V e b :
  length (addrs e) = 12%nat → indirect e = 0 → b ≠ 0 → V b = replicate 512 0 →
  slots V (set_indirect b e) = <[12%nat := b]> (slots V e).
Proof.
  intros Hl Hi Hb HV. unfold slots. simpl. rewrite Hi, HV.
  rewrite insert_app_r_alt by lia. rewrite Hl. destruct (Z.eqb_spec b 0); [done|]. done.
Qed.

Lemma wf_set_addr e j b : wf_inode e → 0 < b < 2 ^ 32 → wf_inode (set_addr j b e).
Proof.
  intros [] Hb. split; simpl; try done.
  - apply Forall_insert; [done|]. unfold word_ok. simpl. lia.
  - by rewrite length_insert.
Qed.
Lemma wf_set_indirect e b : wf_inode e → 0 < b < 2 ^ 32 → wf_inode (set_indirect b e).
Proof. intros [] Hb. split; simpl; try done. unfold word_ok. simpl. lia. Qed.

Lemma slot_lookup V e k :
  length (addrs e) = 12%nat → 0 ≤ k < 140 →
  slots V e !! slot k = Some (block_of V e k).
Proof.
  intros Hl Hk. destruct (slot_range k Hk) as [Hs _].
  destruct (lookup_lt_is_Some_2 (slots V e) (slot k)) as (x & Ex); [by rewrite length_slots|].
  by rewrite block_of_slot, (nth_lookup_Some _ _ _ _ Ex).
Qed.

Lemma map_post_mapped V c c' e X n k :
  core V c e → budget V c e X (S n) → 0 ≤ k < 140 → block_of V e k ≠ 0 →
  bc_rep V ∅ c' → (∀ X k, bc_room c ctx X k → bc_room c' ctx X k) →
  map_post V e V c' e ({[block_of V e k]} ∪ X) n.
Proof.
  intros [R Hwf Ho Hi] Hbu Hk Hb R' Hr. split; try done.
  - eapply budget_cache; [exact Hr|]. by apply budget_add.
  - by right.
Qed.

(** [inode_map] on a direct block. *)
Lemma map_direct V c e X n k :
  core V c e → budget V c e X (S n) → 0 ≤ k < 12 →
  ∃ m V' c' e' X', inode_map sblock ctx a k (st_at c e) = Ok ((block_of V' e' k, m), st_at c' e') ∧
    map_post V e V' c' e' X' n ∧ block_of V' e' k ≠ 0 ∧ block_of V' e' k ∈ X'.
Proof.
  intros Hc Hbu Hk. pose proof Hc as [R Hwf Ho Hi]. pose proof (wf_addrs_len _ Hwf) as Hl.
  unfold inode_map. rewrite i32_small by (change (2 ^ 31) with 2147483648; lia).
  change INODE_NUM_DIRECT with 12. erewrite bind_Ok by apply ip_at. cbn [entry set_entry].
  destruct (Z.ltb_spec k 12); [|lia].
  destruct (lookup_lt_is_Some_2 (addrs e) (Z.to_nat k)) as (v & Ev); [lia|].
  assert (block_of V e k = v) as Ebk.
  { unfold block_of. change INODE_NUM_DIRECT with 12. destruct (Z.ltb_spec k 12); [|lia].
    by apply nth_lookup_Some. }
  erewrite bind_Ok by (apply getopt_run; exact Ev). destruct (Z.eqb_spec v 0) as [->|Hv].
  - pose proof Hbu as [B1 B2 B3 B4].
    destruct (alloc_run V ∅ c e X (n + (spare + if indirect e =? 0 then 1 else 0)) (n + extra e X) R B1 B3 B4)
      as (b & V1 & c1 & E1 & R1 & Hr1 & Hf & Hf1); [by intros ??? ?%lookup_empty_Some|].
    pose proof (bc_block_pos b (fs_block _ _ _ Hf)) as Hpos.
    pose proof (slots_set_addr V1 e (Z.to_nat k) b Hl ltac:(lia)) as Hs.
    rewrite (slots_fresh V V1 c e b Hc Hf) in Hs.
    assert (slots V e !! Z.to_nat k = Some 0) as Hz.
    { rewrite <-Ebk. replace (Z.to_nat k) with (slot k); [apply slot_lookup; lia || done|].
      unfold slot. destruct (Z.ltb_spec k 12); lia. }
    destruct (alloc_sync V V1 c c1 e (set_addr (Z.to_nat k) b e) X (n + extra e X)
      (Z.to_nat k) b Hc Hf R1 Hr1 B2) as (V2 & c2 & E2 & Hc2 & Hr2 & Hfr & Hsame & Hsy & HV2 & Hfr2);
      [by apply wf_set_addr|done|done|].
    assert (block_of V2 (set_addr (Z.to_nat k) b e) k = b) as Ebk2.
    { unfold block_of. change INODE_NUM_DIRECT with 12. destruct (Z.ltb_spec k 12); [|lia].
      apply nth_lookup_Some. simpl. apply list_lookup_insert_eq. lia. }
    erewrite bind_Ok.
    2: { rewrite (bind_Ok _ _ _ _ _ E1). erewrite bind_Ok by apply set_ientry_at.
         rewrite (bind_Ok _ _ _ _ _ E2). apply mret_run. }
    erewrite bind_Ok by apply ip_at. cbn [entry set_entry].
    erewrite bind_Ok.
    2: { apply getopt_run. simpl. apply list_lookup_insert_eq. lia. }
    rewrite mret_run. exists true, V2, c2, (set_addr (Z.to_nat k) b e), ({[b]} ∪ X).
    rewrite Ebk2. split; [done|]. split; [|split; [lia|set_solver]].
    split; try done; [|by left]. split; [set_solver|set_solver| |].
    + eapply bc_room_le; [exact Hr2|done|].
      assert (extra (set_addr (Z.to_nat k) b e) ({[b]} ∪ X) ≤ extra e X)%nat; [|lia].
      exact (extra_mono e X ({[b]} ∪ X) ltac:(set_solver)).
    + destruct Hf1 as (l & ? & ? & Hl1). exists l. split_and!; [done|done|].
      intros x Hx. by apply Hfr2, Hl1.
  - erewrite bind_Ok by apply mret_run. erewrite bind_Ok by apply ip_at. cbn [entry set_entry].
    erewrite bind_Ok by (apply getopt_run; exact Ev). rewrite mret_run.
    exists false, V, c, e, ({[block_of V e k]} ∪ X). rewrite Ebk. split; [done|].
    split; [|split; [done|set_solver]]. rewrite <-Ebk. apply (map_post_mapped V c); try done; [lia|congruence].
Qed.
(** the part of [inode_map] that works on the indirect block *)
Definition map_entry (k : Z) : M (itree C) (Z * bool) :=
  i ← ip a;
  b ← lift (bc_acquire (indirect (entry i)));
  d ← lift (bc_data b);
  v ← getopt (λ _, get_addr d k);
  modified ←
    (if v =? 0 then
       n ← lift (bc_alloc ctx);
       lift (bc_update b (put_addr k n));;
       lift (bc_sync ctx b);;
       mret true
     else mret false);
  d ← lift (bc_data b);
  v ← getopt (λ _, get_addr d k);
  lift (bc_release b);;
  mret (v, modified).

Lemma put_addr_ok k v d :
  block_ok d → 0 ≤ k < 128 → 0 ≤ v < 2 ^ 32 →
  block_ok (put_addr k v d) ∧ dec_indirect (put_addr k v d) = <[Z.to_nat k := v]> (dec_indirect d).
Proof.
  intros [Hb Hl] Hk Hv. unfold put_addr, dec_indirect.
  replace (Z.to_nat (4 * k)) with (4 * Z.to_nat k)%nat by lia. split.
  - split; [apply bytes_splice; [apply bytes_le_enc|done]|].
    rewrite length_splice; rewrite ?length_le_enc; lia.
  - apply dec_words_splice; [lia|lia|]. unfold word_ok. simpl. lia.
Qed.

Lemma lift_held V c e b bno d k v :
  bc_rep V {[b := (bno, d)]} c → get_addr d k = Some v →
  (d ← lift (bc_data b); v ← getopt (λ _, get_addr d k); mret v) (st_at c e) = Ok (v, st_at c e).
Proof.
  intros R Hv. erewrite bind_Ok by (eapply lift_data; exact R).
  by erewrite bind_Ok by (apply getopt_run; exact Hv).
Qed.

Lemma map_entry_mapped V c e X n k :
  core V c e → budget V c e X (S n) → 12 ≤ k < 140 → indirect e ≠ 0 → block_of V e k ≠ 0 →
  ∃ c', map_entry (k - 12) (st_at c e) = Ok ((block_of V e k, false), st_at c' e) ∧
    map_post V e V c' e ({[block_of V e k]} ∪ X) n.
Proof.
  intros Hc Hbu Hk Hi Hn. pose proof Hc as [R Hwf Ho Hib']. pose proof (core_indirect _ _ _ Hc Hi) as (Hb & _).
  unfold map_entry. erewrite bind_Ok by apply ip_at. cbn [entry set_entry].
  destruct (lift_acquire V (st_at c e) _ R Hb) as (b & c1 & E1 & R1 & Hr1).
  rewrite (bind_Ok _ _ _ _ _ E1). rewrite with_cache_at in *.
  erewrite bind_Ok by (eapply (lift_data V); exact R1).
  assert (get_addr (V (indirect e)) (k - 12) = Some (block_of V e k)) as Ev.
  { unfold get_addr, block_of. change INODE_NUM_DIRECT with 12.
    destruct (Z.ltb_spec k 12); [lia|]. destruct (Z.eqb_spec (indirect e) 0); [done|].
    apply lookup_nth. unfold dec_indirect. rewrite length_dec_words. lia. }
  erewrite bind_Ok by (apply getopt_run; exact Ev).
  destruct (Z.eqb_spec (block_of V e k) 0); [done|]. erewrite bind_Ok by apply mret_run.
  erewrite bind_Ok by (eapply (lift_data V); exact R1).
  erewrite bind_Ok by (apply getopt_run; exact Ev).
  destruct (lift_release V (st_at c1 e) b _ R1) as (c2 & E2 & R2 & Hr2).
  rewrite (bind_Ok _ _ _ _ _ E2), mret_run. exists c2. split; [done|].
  apply (map_post_mapped V c); try done; [lia|]. intros. apply Hr2. by apply Hr1.
Qed.

Lemma slots_put_addr V V2 e k b :
  length (addrs e) = 12%nat → 12 ≤ k < 140 → indirect e ≠ 0 →
  dec_indirect (V2 (indirect e)) = <[Z.to_nat (k - 12) := b]> (dec_indirect (V (indirect e))) →
  slots V2 e = <[slot k := b]> (slots V e).
Proof.
  intros Hl Hk Hi E. unfold slots. destruct (Z.eqb_spec (indirect e) 0); [done|].
  rewrite E. rewrite insert_app_r_alt by (unfold slot; destruct (Z.ltb_spec k 12); lia).
  rewrite Hl. replace (slot k - 12)%nat with (S (Z.to_nat (k - 12))); [done|].
  unfold slot. destruct (Z.ltb_spec k 12); lia.
Qed.
Lemma map_entry_alloc V c e X n k :
  core V c e → budget V c e X (S n) → 12 ≤ k < 140 → indirect e ≠ 0 → block_of V e k = 0 →
  ∃ V' c' X', map_entry (k - 12) (st_at c e) = Ok ((block_of V' e k, true), st_at c' e) ∧
    map_post V e V' c' e X' n ∧ block_of V' e k ≠ 0 ∧ block_of V' e k ∈ X'.
Proof.
  intros Hc Hbu Hk Hi Hz. pose proof Hc as [R Hwf Ho Hfib].
  pose proof (wf_addrs_len _ Hwf) as Hl.
  destruct (core_indirect _ _ _ Hc Hi) as (Hb & Hnb & Hnf & Hne). set (ind := indirect e) in *.
  apply budget_indirect in Hbu; [|done]. destruct Hbu as [B1 B2 B3 B4]. fold ind in B1, B2, B3, B4.
  set (X1 := {[ind]} ∪ X) in *.
  unfold map_entry. erewrite bind_Ok by apply ip_at. cbn [entry set_entry]. fold ind.
  destruct (lift_acquire V (st_at c e) ind R Hb) as (b & c1 & E1 & R1 & Hr1).
  rewrite (bind_Ok _ _ _ _ _ E1). rewrite with_cache_at.
  erewrite bind_Ok by (eapply (lift_data V); exact R1).
  assert (block_ok (V ind)) as Hok by by eapply bc_rep_data.
  assert (get_addr (V ind) (k - 12) = Some 0) as Ev.
  { rewrite <-Hz. unfold get_addr, block_of. change INODE_NUM_DIRECT with 12.
    destruct (Z.ltb_spec k 12); [lia|]. fold ind. destruct (Z.eqb_spec ind 0); [done|].
    apply lookup_nth. unfold dec_indirect. rewrite length_dec_words. lia. }
  erewrite bind_Ok by (apply getopt_run; exact Ev). change (0 =? 0) with true. cbv iota.
  destruct (alloc_run V _ c1 e X1 (n + (spare + if ind =? 0 then 1 else 0)) (n + extra e X1) R1 B1 (Hr1 _ _ _ B3) B4)
    as (v & V1 & c2 & E2 & R2 & Hr2 & Hf & Hf1).
  { intros p x d Hp. apply lookup_singleton_Some in Hp as [_ [= -> _]]. done. }
  pose proof (bc_block_pos v (fs_block _ _ _ Hf)) as Hpos.
  assert (V1 ind = V ind) as Eind.
  { apply Hf; [|done]. intros E. apply Hnf. rewrite E. apply Hf. }
  assert (block_ok (V1 ind)) as Hok1 by (by rewrite Eind).
  destruct (put_addr_ok (k - 12) v (V ind) Hok ltac:(lia) ltac:(lia)) as [Hokp Hdec].
  destruct (bc_update_ok V1 _ c2 b ind (V ind) (put_addr (k - 12) v) R2) as (c3 & E3 & R3 & Hr3).
  { apply lookup_singleton_eq. }
  rewrite insert_singleton_eq in R3.
  destruct (bc_sync_ok V1 _ c3 b ind (put_addr (k - 12) v (V ind)) ctx ({[v]} ∪ X1) (n + extra e X1) R3)
    as (c4 & E4 & R4 & Hr4);
    [apply lookup_singleton_eq|done|done|done|set_solver|by apply Hr3|].
  set (V2 := fupd V1 ind (put_addr (k - 12) v (V ind))) in *.
  erewrite bind_Ok.
  2: { rewrite (bind_Ok _ _ _ _ _ E2).
       erewrite bind_Ok by exact (lift_run _ (st_at c2 e) _ _ E3). rewrite with_cache_at.
       erewrite bind_Ok by exact (lift_run _ (st_at c3 e) _ _ E4). rewrite with_cache_at.
       apply mret_run. }
  assert (V2 ind = put_addr (k - 12) v (V ind)) as Eind2 by apply fupd_eq.
  rewrite <-Eind2 in R4.
  erewrite bind_Ok by (eapply (lift_data V2); exact R4).
  erewrite bind_Ok.
  2: { apply getopt_run. unfold get_addr. rewrite Eind2, Hdec. apply list_lookup_insert_eq.
       unfold dec_indirect. rewrite length_dec_words. lia. }
  destruct (lift_release V2 (st_at c4 e) b ind R4) as (c5 & E5 & R5 & Hr5).
  rewrite (bind_Ok _ _ _ _ _ E5), mret_run, with_cache_at.
  assert (∀ x, x ≠ ind → V2 x = V1 x) as HV2 by (intros; by apply fupd_ne).
  assert (∀ x, bc_isfree V2 x ↔ bc_isfree V x ∧ x ≠ v) as Hfr2.
  { intros x. rewrite <-(fs_isfree _ _ _ Hf). apply bc_isfree_ext.
    intros y Hy. apply HV2. intros ->. done. }
  assert (slots V2 e = <[slot k := v]> (slots V e)) as Hs.
  { apply slots_put_addr; try done. fold ind. by rewrite Eind2. }
  assert (slots V e !! slot k = Some 0) as Hsk by (rewrite <-Hz; apply slot_lookup; [done|lia]).
  assert (v ≠ ib) as Hvi by (intros ->; apply Hfib, Hf).
  assert (block_of V2 e k = v) as Ebk.
  { rewrite block_of_slot by (done || lia). rewrite Hs. apply nth_lookup_Some.
    apply list_lookup_insert_eq. rewrite length_slots by done. apply slot_range. lia. }
  assert (V2 ib = V ib) as Eib by (rewrite HV2 by done; apply Hf; [done|apply Hib]).
  exists V2, c5, ({[v]} ∪ X1). rewrite Ebk. split; [done|].
  split; [|split; [lia|set_solver]].
  split.
  - split; [done|done| |rewrite Hfr2; tauto]. apply (own_ext _ V1).
    { intros y Hy. apply HV2. by intros ->. }
    rewrite Hs. eapply own_insert; try done; apply Hf.
  - split; [set_solver|set_solver| |].
    + eapply bc_room_le; [apply Hr5; exact Hr4|done|].
      pose proof (extra_mono e X1 ({[v]} ∪ X1) ltac:(set_solver)). lia.
    + apply (has_free_ext V1); [|done]. intros y Hy. apply HV2. by intros ->.
  - eapply frame_insert; try done; [apply Hf| |].
    + intros x (Hx1 & Hx2 & Hx3 & Hx4). rewrite HV2.
      * apply Hf; [|done]. intros ->. apply Hx3, Hf.
      * intros ->. apply Hx4. apply (list_elem_of_lookup_2 _ 12%nat). by apply slot_12.
    + intros m Hm. by rewrite Eib.
  - done.
  - intros j Hj Hn. rewrite HV2; [by eapply same_fresh|]. intros E.
    destruct (slot_range j Hj) as [? Hs12]. apply Hs12.
    apply (own_inj _ _ Ho _ _ ind); [rewrite <-E; by apply slot_lookup|by apply slot_12|done].
  - by right.
Qed.

Lemma map_post_trans V e V1 c1 e1 X1 n1 V2 c2 e2 X2 n2 :
  map_post V e V1 c1 e1 X1 n1 → map_post V1 e1 V2 c2 e2 X2 n2 → map_post V e V2 c2 e2 X2 n2.
Proof.
  intros [A1 A2 A3 A4 A5 A6] [B1 B2 B3 B4 B5 B6]. split; try done.
  - by eapply frame_trans.
  - congruence.
  - intros j Hj Hn. rewrite <-(A5 j Hj Hn).
    pose proof (fr_blocks _ _ _ _ A3 j Hj Hn) as E. rewrite <-E. apply B5; [done|]. by rewrite E.
  - destruct B6 as [?|[E ->]]; [by left|]. rewrite E. destruct A6 as [?|[-> ->]]; [by left|by right].
Qed.

Lemma map_entry_run V c e X n k :
  core V c e → budget V c e X (S n) → 12 ≤ k < 140 → indirect e ≠ 0 →
  ∃ m V' c' e' X', map_entry (k - 12) (st_at c e) = Ok ((block_of V' e' k, m), st_at c' e') ∧
    map_post V e V' c' e' X' n ∧ block_of V' e' k ≠ 0 ∧ block_of V' e' k ∈ X'.
Proof.
  intros Hc Hbu Hk Hi. destruct (decide (block_of V e k = 0)) as [Hz|Hn].
  - destruct (map_entry_alloc V c e X n k Hc Hbu Hk Hi Hz) as (V' & c' & X' & ? & ? & ? & ?).
    by exists true, V', c', e, X'.
  - destruct (map_entry_mapped V c e X n k Hc Hbu Hk Hi Hn) as (c' & ? & ?).
    exists false, V, c', e, ({[block_of V e k]} ∪ X). split_and!; try done. set_solver.
Qed.

(** [inode_map] on any block of the file, there or not. *)
Lemma inode_map_run V c e X n k :
  core V c e → budget V c e X (S n) → 0 ≤ k < 140 →
  ∃ m V' c' e' X', inode_map sblock ctx a k (st_at c e) = Ok ((block_of V' e' k, m), st_at c' e') ∧
    map_post V e V' c' e' X' n ∧ block_of V' e' k ≠ 0 ∧ block_of V' e' k ∈ X'.
Proof.
  intros Hc Hbu Hk. destruct (Z.ltb_spec k 12); [apply (map_direct V c e X n k); try done; lia|].
  pose proof Hc as [R Hwf Ho Hi]. pose proof (wf_addrs_len _ Hwf) as Hl.
  unfold inode_map. rewrite i32_small by (change (2 ^ 31) with 2147483648; lia).
  change INODE_NUM_DIRECT with 12. erewrite bind_Ok by apply ip_at. cbn [entry set_entry].
  destruct (Z.ltb_spec k 12); [lia|]. destruct (Z.eqb_spec (indirect e) 0) as [Hz|Hn].
  - pose proof Hbu as [B1 B2 B3 B4]. unfold extra in B3.
    rewrite bool_decide_eq_false_2 in B3 by tauto. rewrite Hz in B4. cbn [Z.eqb] in B4.
    rewrite Nat.add_comm in B3.
    replace (S n + (spare + 1))%nat with (S (S n + (spare + 0))) in B4 by lia.
    destruct (alloc_run V ∅ c e X _ (S n) R B1 B3 B4)
      as (b & V1 & c1 & E1 & R1 & Hr1 & Hf & Hf1); [by intros ??? ?%lookup_empty_Some|].
    pose proof (bc_block_pos b (fs_block _ _ _ Hf)) as Hpos.
    assert (slots V e !! 12%nat = Some 0) as H12 by (rewrite <-Hz; by apply slot_12).
    pose proof (slots_set_indirect V1 e b Hl Hz ltac:(lia) (fs_zero _ _ _ Hf)) as Hs.
    rewrite (slots_fresh V V1 c e b Hc Hf) in Hs.
    destruct (alloc_sync V V1 c c1 e (set_indirect b e) X (S n) 12 b Hc Hf R1 Hr1 B2)
      as (V2 & c2 & E2 & Hc2 & Hr2 & Hfr & Hsame & Hsy & HV2 & Hfr2);
      [by apply wf_set_indirect|done|done|].
    assert (map_post V e V2 c2 (set_indirect b e) ({[b]} ∪ X) (S n)) as Hp1.
    { split; try done; [|by left]. split; [set_solver|set_solver| |].
      - unfold extra. rewrite bool_decide_eq_true_2; [by rewrite Nat.add_0_r|].
        simpl. split; [lia|set_solver].
      - simpl. destruct (Z.eqb_spec b 0); [lia|].
        destruct Hf1 as (l & ? & ? & Hl1). exists l. split_and!; [done|done|].
        intros x Hx. by apply Hfr2, Hl1. }
    destruct (map_entry_run V2 c2 (set_indirect b e) ({[b]} ∪ X) n k Hc2 (mo_budget _ _ _ _ _ _ _ Hp1))
      as (m & V3 & c3 & e3 & X3 & E3 & Hp2 & ? & ?); [lia|simpl; lia|].
    exists m, V3, c3, e3, X3. split_and!; [|by eapply map_post_trans|done|done].
    rewrite <-E3. erewrite bind_Ok; [done|]. cbn [when]. rewrite (bind_Ok _ _ _ _ _ E1).
    erewrite bind_Ok by apply set_ientry_at. exact E2.
  - erewrite bind_Ok by apply when_false_run. apply (map_entry_run V c e X n k); try done. lia.
Qed.
(** ** The loop of [inode_write] *)

Lemma modify_then {A} bno f (K : M (itree C) A) s :
  (b ← lift (bc_acquire bno); lift (bc_update b f);; lift (bc_sync ctx b);;
   lift (bc_release b);; K) s =
  ((b ← lift (bc_acquire bno); lift (bc_update b f);; lift (bc_sync ctx b);;
    lift (bc_release b));; K) s.
Proof.
  rewrite bind_assoc. unfold mbind, M_bind.
  destruct (lift (bc_acquire bno) s) as [[b s1]| | | | |]; try done.
  destruct (lift (bc_update b f) s1) as [[[] s2]| | | | |]; try done.
  by destruct (lift (bc_sync ctx b) s2) as [[[] s3]| | | | |].
Qed.

Lemma block_of_ext V V' e k :
  (indirect e ≠ 0 → V' (indirect e) = V (indirect e)) → block_of V' e k = block_of V e k.
Proof.
  intros E. unfold block_of. case_match; [done|]. destruct (Z.eqb_spec (indirect e) 0); [done|].
  by rewrite E.
Qed.

Lemma data_not_indirect V c e k :
  core V c e → 0 ≤ k < 140 → block_of V e k ≠ 0 → block_of V e k ≠ indirect e.
Proof.
  intros [_ Hwf Ho _] Hk Hn E. destruct (slot_range k Hk) as [_ Hs]. apply Hs.
  pose proof (wf_addrs_len _ Hwf) as Hl.
  apply (own_inj _ _ Ho _ _ (block_of V e k)); [by apply slot_lookup|rewrite E; by apply slot_12|done].
Qed.

Lemma data_inj V c e j k :
  core V c e → 0 ≤ j < 140 → 0 ≤ k < 140 → block_of V e k ≠ 0 →
  block_of V e j = block_of V e k → j = k.
Proof.
  intros [_ Hwf Ho _] Hj Hk Hn E. pose proof (wf_addrs_len _ Hwf) as Hl. apply slot_inj; [done|done|].
  apply (own_inj _ _ Ho _ _ (block_of V e k)); [rewrite <-E; by apply slot_lookup|by apply slot_lookup|done].
Qed.

(** Writing to a data block of the file. *)
Lemma data_step V c c' e X n k d :
  core V c e → 0 ≤ k < 140 → block_of V e k ≠ 0 →
  bc_rep (fupd V (block_of V e k) d) ∅ c' → bc_room c' ctx X (n + extra e X) →
  budget V c e X n →
  let V' := fupd V (block_of V e k) d in
  core V' c' e ∧ budget V' c' e X n ∧ frame V e V' e ∧ V' ib = V ib ∧
  (∀ j, block_of V' e j = block_of V e j).
Proof.
  intros Hc Hk Hn R' Hr [B1 B2 B3 B4] V'. pose proof Hc as [R Hwf Ho Hi].
  destruct (core_block V c e k Hc Hk Hn) as (Hb & Hnb & Hnf & Hne).
  pose proof (data_not_indirect V c e k Hc Hk Hn) as Hind.
  assert (∀ x, x ≠ block_of V e k → V' x = V x) as HV by (intros; by apply fupd_ne).
  assert (∀ b, bc_bitmap b → V' b = V b) as Hbm by (intros b Hbb; apply HV; by intros ->).
  assert (slots V' e = slots V e) as Hs by (apply slots_ext; intros _; by apply HV).
  assert (∀ j, block_of V' e j = block_of V e j) as Hbk
    by (intros j; apply block_of_ext; intros _; by apply HV).
  split_and!; [| | |by apply HV|done].
  - split; [done|done|rewrite Hs; by apply (own_ext _ V)|by rewrite (bc_isfree_ext V V' ib Hbm)].
  - split; [done|done|done|by apply (has_free_ext V)].
  - split; [|intros; by rewrite HV|done].
    intros x (Hx1 & Hx2 & Hx3 & Hx4). split.
    + apply HV. intros ->. apply Hx4. apply (list_elem_of_lookup_2 _ (slot k)).
      apply slot_lookup; [apply Hwf|done].
    + split_and!; [done|done|by rewrite (bc_isfree_ext V V' x Hbm)|by rewrite Hs].
Qed.

Record write_post V e V' c' e' (src : list Z) (i end_ : Z) : Prop := {
  wp_core : core V' c' e';
  wp_frame : frame V e V' e';
  wp_meta : meta e' = meta e;
  wp_synced : get_entry (V' ib) ino = e' ∨ V' ib = V ib ∧ e' = e;
  wp_new : ∀ o, i ≤ o < end_ → block_of V' e' (o / 512) ≠ 0 ∧
    file_byte V' e' o = nth (Z.to_nat (o - i)) src 0;
  wp_old : ∀ o, 0 ≤ o < 71680 → ¬ (i ≤ o < end_) → block_of V e (o / 512) ≠ 0 →
    file_byte V' e' o = file_byte V e o }.

(** the number of blocks of the file between two offsets *)
Definition touched (i end_ : Z) : nat :=
  if i <? end_ then Z.to_nat ((end_ - 1) / 512 - i / 512 + 1) else 0.
Lemma write_post_trans V e V1 c1 e1 V2 c2 e2 src i m end_ :
  0 ≤ i ≤ m → m ≤ end_ → end_ ≤ 71680 →
  write_post V e V1 c1 e1 src i m → write_post V1 e1 V2 c2 e2 (drop (Z.to_nat (m - i)) src) m end_ →
  write_post V e V2 c2 e2 src i end_.
Proof.
  intros Hi Hm Hend [A1 A2 A3 A4 A5 A6] [B1 B2 B3 B4 B5 B6]. split; try done.
  - by eapply frame_trans.
  - congruence.
  - destruct B4 as [?|[E ->]]; [by left|]. rewrite E. destruct A4 as [?|[-> ->]]; [by left|by right].
  - intros o Ho. destruct (Z.ltb_spec o m) as [Hlt|Hge].
    + destruct (A5 o) as [Hn E]; [lia|]. rewrite B6; [|lia|lia|done].
      split; [|done]. by rewrite (fr_blocks _ _ _ _ B2) by (zmod || done).
    + destruct (B5 o) as [Hn E]; [lia|]. split; [done|]. rewrite E, !nth_lookup, lookup_drop.
      do 2 f_equal. lia.
  - intros o Ho Hout Hn. rewrite B6; [apply A6; (lia || done)|done|lia|].
    by rewrite (fr_blocks _ _ _ _ A2) by (zmod || done).
Qed.

Lemma write_round {A} (K : M (itree C) A) V c e X n src i end_ :
  core V c e → budget V c e X (S n) → 0 ≤ i < end_ → end_ ≤ 71680 →
  end_ - i ≤ Z.of_nat (length src) → bytes src →
  let len := Z.to_nat (chunk i end_) in
  ∃ V' c' e' X',
    ('(bno, _) ← inode_map sblock ctx a (i / BLOCK_SIZE);
     b ← lift (bc_acquire bno);
     lift (bc_update b (splice (Z.to_nat (i mod BLOCK_SIZE)) (take len src)));;
     lift (bc_sync ctx b);;
     lift (bc_release b);;
     K) (st_at c e) = K (st_at c' e') ∧
    write_post V e V' c' e' src i (i + chunk i end_) ∧ budget V' c' e' X' n.
Proof.
  intros Hc Hbu Hi Hend Hlen Hsrc len. change BLOCK_SIZE with 512.
  destruct (chunk_spec i end_ ltac:(lia)) as (Ech & Hc1 & Hc2 & Hc3).
  set (k := i / 512). assert (0 ≤ k < 140) as Hk by (unfold k; zmod).
  destruct (inode_map_run V c e X n k Hc Hbu Hk)
    as (md & V1 & c1 & e1 & X1 & E1 & [Hc' Hbu' Hfr1 Hme1 Hsame1 Hsy1] & Hn & HX1).
  rewrite (bind_Ok _ _ _ _ _ E1). cbv beta iota. set (bno := block_of V1 e1 k) in *.
  destruct (core_block V1 c1 e1 k Hc' Hk Hn) as (Hb & Hnb & _ & _).
  pose proof (co_rep _ _ _ Hc') as R1.
  destruct (bc_rep_data V1 _ _ bno R1) as [Hbytes Hl].
  assert (length (take len src) = len) as Hlt by (rewrite length_take; lia).
  set (f := splice (Z.to_nat (i mod 512)) (take len src)).
  assert (Z.to_nat (i mod 512) + length (take len src) ≤ length (V1 bno))%nat as Hfit
    by (rewrite Hlt, Hl; unfold len; zmod).
  destruct (modify_block V1 c1 e1 bno f X1 (n + extra e1 X1) R1 Hb Hnb) as (c2 & E2 & R2 & Hr2).
  { split; [apply bytes_splice; [by apply bytes_take|done]|]. unfold f. by rewrite length_splice. }
  { done. } { apply Hbu'. }
  rewrite modify_then, (bind_Ok _ _ _ _ _ E2).
  destruct (data_step V1 c1 c2 e1 X1 n k (f (V1 bno)) Hc' Hk Hn R2 Hr2 Hbu')
    as (Hc2' & Hbu2 & Hfr2 & Hib2 & Hbk). set (V2 := fupd V1 bno (f (V1 bno))) in *.
  change (V2 ib = V1 ib) in Hib2.
  exists V2, c2, e1, X1. split; [done|]. split; [|done].
  assert (∀ o, file_byte V2 e1 o = nth (Z.to_nat (o mod 512)) (V2 (block_of V1 e1 (o / 512))) 0) as Hfb.
  { intros o. unfold file_byte. by rewrite Hbk. }
  split; [done|by eapply frame_trans|done|by rewrite Hib2| |].
  - intros o Ho. assert (o / 512 = k) as Eo by (unfold k; zmod).
    rewrite Hfb, Hbk, Eo. split; [done|]. fold bno. unfold V2. rewrite fupd_eq.
    unfold f. rewrite !nth_lookup, lookup_splice by done. rewrite Hlt.
    rewrite decide_True by (unfold len; zmod). rewrite lookup_take_lt by (unfold len; zmod).
    do 2 f_equal. unfold k in Eo. zmod.
  - intros o Hor Hout Hno. rewrite Hfb.
    assert (0 ≤ o / 512 < 140) as Hok by zmod.
    rewrite (fr_blocks _ _ _ _ Hfr1 _ Hok Hno).
    unfold file_byte. change BLOCK_SIZE with 512. rewrite <-(Hsame1 _ Hok Hno).
    destruct (decide (o / 512 = k)) as [Eo|Hne].
    + assert (block_of V e (o / 512) = bno) as ->.
      { unfold bno. rewrite <-Eo. by rewrite (fr_blocks _ _ _ _ Hfr1 _ Hok Hno). }
      unfold V2. rewrite fupd_eq. unfold f. rewrite !nth_lookup, lookup_splice by done.
      rewrite decide_False; [done|]. rewrite Hlt. unfold k in Eo. unfold len. zmod.
    + unfold V2. rewrite fupd_ne; [done|]. intros E. apply Hne.
      rewrite <-(fr_blocks _ _ _ _ Hfr1 _ Hok Hno) in E. eapply data_inj; try exact E; done.
Qed.
Lemma write_post_nil V c e src i end_ : core V c e → end_ ≤ i → write_post V e V c e src i end_.
Proof. intros Hc Hi. split; try done; [by right|lia]. Qed.

Lemma write_blocks_run fuel V c e X n src i end_ :
  core V c e → budget V c e X n → 0 ≤ i → end_ ≤ 71680 →
  end_ - i ≤ Z.of_nat (length src) → bytes src → (touched i end_ ≤ n)%nat →
  (touched i end_ < fuel)%nat →
  ∃ V' c' e' X', write_blocks sblock fuel ctx a src i end_ (st_at c e) = Ok (tt, st_at c' e') ∧
    write_post V e V' c' e' src i end_ ∧ budget V' c' e' X' 0.
Proof.
  revert V c e X n src i. induction fuel as [|fuel IH];
    intros V c e X n src i Hc Hbu Hi Hend Hlen Hsrc Hn Hf; [lia|].
  cbn [write_blocks]. unfold touched in Hn, Hf. destruct (Z.ltb_spec i end_) as [Hlt|Hge].
  2: { exists V, c, e, X. split_and!; [done|by apply write_post_nil|]. eapply budget_le; [done|lia]. }
  destruct n as [|n]; [zmod|].
  destruct (chunk_spec i end_ ltac:(lia)) as (Ech & Hc1 & Hc2 & Hc3).
  destruct (write_round (write_blocks sblock fuel ctx a
      (drop (Z.to_nat (chunk i end_)) src) (next_block i) end_) V c e X n src i end_)
    as (V1 & c1 & e1 & X1 & E1 & Hp & Hbu1); try done.
  rewrite E1. rewrite (next_block_spec i) by (change (2 ^ 32) with 4294967296; lia).
  destruct (Z.ltb_spec ((i / 512 + 1) * 512) end_) as [Hmore|Hlast].
  - assert ((i / 512 + 1) * 512 = i + chunk i end_) as Enext by lia.
    destruct (IH V1 c1 e1 X1 n (drop (Z.to_nat (chunk i end_)) src) ((i / 512 + 1) * 512))
      as (V2 & c2 & e2 & X2 & E2 & Hp2 & Hbu2); try done.
    + apply Hp.
    + zmod.
    + rewrite length_drop. lia.
    + by apply bytes_drop.
    + unfold touched. destruct (Z.ltb_spec ((i / 512 + 1) * 512) end_); zmod.
    + unfold touched. destruct (Z.ltb_spec ((i / 512 + 1) * 512) end_); zmod.
    + exists V2, c2, e2, X2. split_and!; [done| |done]. rewrite Enext in Hp2.
      apply (write_post_trans V e V1 c1 e1 V2 c2 e2 src i (i + chunk i end_)); try done; try lia.
      by replace (i + chunk i end_ - i) with (chunk i end_) by lia.
  - assert (i + chunk i end_ = end_) as Ee by lia. rewrite Ee in Hp.
    destruct fuel as [|fuel]; [zmod|]. cbn [write_blocks].
    destruct (Z.ltb_spec ((i / 512 + 1) * 512) end_); [lia|]. exists V1, c1, e1, X1.
    split_and!; [done|done|]. eapply budget_le; [done|lia].
Qed.

Lemma core_mapped V c e n :
  core V c e → n ≤ 140 → (∀ k, 0 ≤ k < n → block_of V e k ≠ 0) → mapped V e n.
Proof.
  intros Hc Hn Hb. pose proof Hc as [R Hwf Ho Hi]. split; [apply Hwf|done| |].
  - intros k Hk. apply (core_block V c e k Hc); [lia|auto].
  - change INODE_NUM_DIRECT with 12. intros H12. assert (indirect e ≠ 0) as Hind.
    { intros E. apply (Hb 12); [lia|]. unfold block_of. change INODE_NUM_DIRECT with 12.
      change (12 <? 12) with false. by rewrite E. }
    split; [done|]. by apply (core_indirect V c e).
Qed.

(** Setting the size. *)
Lemma resize_run V c e X n end_ :
  core V c e → budget V c e X n → get_entry (V ib) ino = e → 0 ≤ end_ ≤ 71680 →
  ∃ V' c', when (num_bytes e <? end_)
      (set_ientry a (set_num_bytes end_);; inode_sync sblock ctx a true) (st_at c e) =
      Ok (tt, st_at c' (set_num_bytes (Z.max (num_bytes e) end_) e)) ∧
    let e' := set_num_bytes (Z.max (num_bytes e) end_) e in
    core V' c' e' ∧ budget V' c' e' X n ∧ frame V e V' e' ∧ get_entry (V' ib) ino = e' ∧
    (∀ x, x ≠ ib → V' x = V x).
Proof.
  intros Hc Hbu Hsy Hend. destruct (Z.ltb_spec (num_bytes e) end_) as [Hlt|Hge].
  - rewrite Z.max_r by lia. set (e' := set_num_bytes end_ e).
    pose proof Hc as [R Hwf Ho Hi]. pose proof Hbu as [B1 B2 B3 B4].
    assert (core V c e') as Hc'.
    { split; try done. destruct Hwf. split; try done. unfold word_ok. simpl. lia. }
    destruct (sync_entry V c e' X _ Hc' B2 B3) as (c' & E & Hc2 & Hr2).
    set (V' := fupd V ib (put_entry ino e' (V ib))) in *.
    assert (∀ x, x ≠ ib → V' x = V x) as HV by (intros; by apply fupd_ne).
    assert (length (V ib) = 512%nat) as Hl by apply (bc_rep_data _ _ _ ib R).
    assert (indirect e ≠ 0 → V' (indirect e) = V (indirect e)) as Hind.
    { intros Hn. apply HV. by apply (core_indirect V c e). }
    assert (slots V' e' = slots V e) as Hs by exact (slots_ext V V' e Hind).
    assert (∀ b, bc_bitmap b → V' b = V b) as Hbm.
    { intros b Hb. apply HV. intros ->. by destruct Hib. }
    exists V', c'. cbv zeta. split_and!; [|done| | |unfold V'; rewrite fupd_eq; apply get_put_entry_eq; [apply Hc2|done]|done].
    + cbn [when]. by erewrite bind_Ok by apply set_ientry_at.
    + split; [done|done|exact Hr2|by apply (has_free_ext V)].
    + split.
      * intros x (? & ? & ? & ?). split; [by apply HV|]. split_and!; [done|done| |by rewrite Hs].
        by rewrite (bc_isfree_ext V V' x Hbm).
      * intros m Hm. unfold V'. rewrite fupd_eq, get_put_entry_ne; [done|apply Hc2|done|done].
      * intros k _ _. exact (block_of_ext V V' e k Hind).
  - rewrite Z.max_l by lia. replace (set_num_bytes (num_bytes e) e) with e by by destruct e.
    exists V, c. cbv zeta. by split_and!.
Qed.
Lemma inode_write_run V X n src offset :
  core V (cst s0) (entry i0) → budget V (cst s0) (entry i0) X n → covered V (entry i0) →
  get_entry (V ib) ino = entry i0 → type (entry i0) ≠ INODE_DEVICE → bytes src →
  0 ≤ offset < 2 ^ 32 → Z.of_nat (length src) < 2 ^ 32 →
  let e := entry i0 in
  let count := Z.of_nat (length src) in
  (touched offset (offset + count) ≤ n)%nat →
  offset ≤ num_bytes e → offset + count ≤ INODE_MAX_BYTES →
  ∃ V' c' e', inode_write sblock ctx a src offset count s0 = Ok (count, st_at c' e') ∧
    core V' c' e' ∧ frame V e V' e' ∧ covered V' e' ∧
    meta e' = meta (set_num_bytes (Z.max (num_bytes e) (offset + count)) e) ∧
    get_entry (V' ib) ino = e' ∧ (∃ X' k, bc_room c' ctx X' k) ∧
    has_free V' (spare + if indirect e' =? 0 then 1 else 0) ∧
    ∀ o, 0 ≤ o < num_bytes e' → file_byte V' e' o =
      if (offset <=? o) && (o <? offset + count) then nth (Z.to_nat (o - offset)) src 0
      else file_byte V e o.
Proof.
  intros Hc Hbu [Hnb Hm] Hsy Ht Hsrc Hoff Hlen e count Hn.
  assert (num_bytes e ≤ 71680) as Hmax.
  { pose proof (mp_max _ _ _ Hm) as Hm'. change INODE_MAX_BLOCKS with 140 in Hm'. fold e in Hm'. zmod. }
  change INODE_MAX_BYTES with 71680. change (2 ^ 32) with 4294967296 in *.
  unfold inode_write. erewrite bind_Ok by (apply ip_run; exact Hip).
  rewrite (proj2 (Z.eqb_neq _ _) Ht). rewrite u64_id by (change (2 ^ 64) with 18446744073709551616; lia).
  change INODE_MAX_BYTES with 71680. fold e.
  intros Ho He. erewrite bind_Ok by (apply assert_run, Z.leb_le; done).
  erewrite bind_Ok by (apply assert_run, Z.leb_le; done).
  erewrite bind_Ok by (apply assert_run, Z.leb_le; lia).
  rewrite <-st_at_start. fold e.
  destruct (resize_run V (cst s0) e X n (offset + count) Hc Hbu Hsy)
    as (V1 & c1 & E1 & Hc1 & Hbu1 & Hfr1 & Hsy1 & HV1); [lia|].
  rewrite (bind_Ok _ _ _ _ _ E1). set (e1 := set_num_bytes (Z.max (num_bytes e) (offset + count)) e) in *.
  destruct (write_blocks_run (rounds offset (offset + count)) V1 c1 e1 X n src offset (offset + count))
    as (V2 & c2 & e2 & X2 & E2 & [Hc2 Hfr2 Hme2 Hsy2 Hnew Hold] & [_ _ Hr2 Hf2]); try done; [lia|lia| |].
  { unfold touched, rounds. change BLOCK_SIZE with 512. case_match; zmod. }
  rewrite (bind_Ok _ _ _ _ _ E2), mret_run.
  assert (num_bytes e2 = Z.max (num_bytes e) (offset + count)) as Enb.
  { unfold meta in Hme2. injection Hme2 as _ _ _ _ ->. done. }
  assert (∀ k, 0 ≤ k < (num_bytes e + 511) / 512 → block_of V1 e1 k = block_of V e k ∧
      block_of V e k ≠ 0) as Hcov.
  { intros k Hk. pose proof (bc_block_pos _ (mp_blocks _ _ _ Hm k Hk)) as Hp. fold e in Hp.
    assert (block_of V e k ≠ 0) as Hnz by lia. split; [|done].
    apply Hfr1; [zmod|done]. }
  exists V2, c2, e2. split_and!; [done|done|by eapply frame_trans| |done| |by exists X2, (0 + extra e2 X2)%nat|done|].
  + split; [lia|]. rewrite Enb. apply (core_mapped V2 c2); [done|zmod|].
    intros k Hk. destruct (Z.ltb_spec (k * 512) (num_bytes e)) as [Hin|Hout].
    * destruct (Hcov k) as [E Hnz]; [zmod|].
      rewrite (fr_blocks _ _ _ _ Hfr2); [by rewrite E|zmod|by rewrite E].
    * destruct (Hnew (k * 512)) as [Hnz _]; [zmod|]. by rewrite Z.div_mul in Hnz.
  + destruct Hsy2 as [?|[E ->]]; [done|]. by rewrite E.
  + intros o Hor. rewrite Enb in Hor.
    destruct ((offset <=? o) && (o <? offset + count)) eqn:Ein.
    * apply andb_true_iff in Ein as [?%Z.leb_le ?%Z.ltb_lt]. by apply Hnew.
    * apply andb_false_iff in Ein. rewrite Z.leb_gt, Z.ltb_ge in Ein.
      destruct (Hcov (o / 512)) as [E Hnz]; [zmod|].
      rewrite Hold; [|lia|lia|by rewrite E]. unfold file_byte. change BLOCK_SIZE with 512.
      rewrite E, HV1; [done|]. apply (core_block V (cst s0) e (o / 512)); [done|zmod|done].
Qed.

Lemma inode_write_panic V X n src offset :
  core V (cst s0) (entry i0) → budget V (cst s0) (entry i0) X n → covered V (entry i0) →
  get_entry (V ib) ino = entry i0 → type (entry i0) ≠ INODE_DEVICE → bytes src →
  0 ≤ offset < 2 ^ 32 → Z.of_nat (length src) < 2 ^ 32 →
  let e := entry i0 in
  let count := Z.of_nat (length src) in
  (touched offset (offset + count) ≤ n)%nat →
  num_bytes e < offset ∨ INODE_MAX_BYTES < offset + count →
   inode_write sblock ctx a src offset count s0 = Panic.
Proof.
  intros Hc Hbu [Hnb Hm] Hsy Ht Hsrc Hoff Hlen e count Hn.
  assert (num_bytes e ≤ 71680) as Hmax.
  { pose proof (mp_max _ _ _ Hm) as Hm'. change INODE_MAX_BLOCKS with 140 in Hm'. fold e in Hm'. zmod. }
  change INODE_MAX_BYTES with 71680. change (2 ^ 32) with 4294967296 in *.
  unfold inode_write. erewrite bind_Ok by (apply ip_run; exact Hip).
  rewrite (proj2 (Z.eqb_neq _ _) Ht). rewrite u64_id by (change (2 ^ 64) with 18446744073709551616; lia).
  change INODE_MAX_BYTES with 71680. fold e.
  intros [Hbad|Hbad].
  + erewrite bind_Panic; [done|]. apply assert_fail, Z.leb_gt. done.
  + destruct (Z.leb_spec offset (num_bytes e)).
    * erewrite bind_Ok by (apply assert_run; done).
      erewrite bind_Panic; [done|]. apply assert_fail, Z.leb_gt. done.
    * erewrite bind_Panic; [done|]. done.
Qed.

(** C12: writing to a regular file or a directory.  If the write starts inside the file or at its
    end and does not make it too large, [inode_write] returns the count, and afterwards
    the file consists of its old bytes with the new ones at [offset], its size has grown
    to the end of what was written, its entry on disk is up to date, the blocks of all
    other files, the other inodes in the same block and the links of the inode are as
    before, and no block belongs to the file twice.  This takes free blocks and log space
    for one block more than the write touches; [spare] blocks more that were free still
    are.  Any other write panics. *)
Theorem inode_write_correct V X n src offset :
  core V (cst s0) (entry i0) → budget V (cst s0) (entry i0) X n → covered V (entry i0) →
  get_entry (V ib) ino = entry i0 → type (entry i0) ≠ INODE_DEVICE → bytes src →
  0 ≤ offset < 2 ^ 32 → Z.of_nat (length src) < 2 ^ 32 →
  let e := entry i0 in
  let count := Z.of_nat (length src) in
  (touched offset (offset + count) ≤ n)%nat →
  (offset ≤ num_bytes e → offset + count ≤ INODE_MAX_BYTES →
   ∃ V' c' e', inode_write sblock ctx a src offset count s0 = Ok (count, st_at c' e') ∧
     core V' c' e' ∧ frame V e V' e' ∧ covered V' e' ∧
     meta e' = meta (set_num_bytes (Z.max (num_bytes e) (offset + count)) e) ∧
     get_entry (V' ib) ino = e' ∧ (∃ X' k, bc_room c' ctx X' k) ∧
     has_free V' (spare + if indirect e' =? 0 then 1 else 0) ∧
     ∀ o, 0 ≤ o < num_bytes e' → file_byte V' e' o =
       if (offset <=? o) && (o <? offset + count) then nth (Z.to_nat (o - offset)) src 0
       else file_byte V e o) ∧
  (num_bytes e < offset ∨ INODE_MAX_BYTES < offset + count →
   inode_write sblock ctx a src offset count s0 = Panic).
Proof.
  intros. split; intros; [by eapply inode_write_run|by eapply inode_write_panic].
Qed.
End write.

(** ** The concrete files of [InodeSpec] *)

Lemma one_ib : client_block small_sb 66 ∧ ¬ is_bitmap small_sb 66.
Proof. split; [apply one_client; tauto|by intros ?%small_bitmap_block]. Qed.

Section one.
Context (t nb : Z) (d : list Z).
Hypothesis Ht : 0 ≤ t < 2 ^ 16.
Hypothesis Hnb : 0 ≤ nb ≤ 512.
Hypothesis Hd : block_ok d.

Lemma one_small : 0 ≤ nb < 2 ^ 32.
Proof. change (2 ^ 32) with 4294967296. lia. Qed.

Lemma one_wf : wf_inode (one_entry t nb).
Proof.
  change (2 ^ 16) with 65536 in *. pose proof one_small as Hs. change (2 ^ 32) with 4294967296 in Hs.
  split; [|unfold word_ok; simpl; lia|by_decision|done|by_decision].
  repeat constructor; simpl; lia.
Qed.

Lemma one_core :
  @core _ (cache_ops small_sb) (cache_laws small_sb) small_sb (one_inode t nb) (one_V t nb d)
    (boot (one_disk t nb d)) (one_entry t nb).
Proof.
  split; [split; [by apply one_rep, Hd; [|apply one_small]|done]|apply one_wf| |].
  - assert (slots (one_V t nb d) (one_entry t nb) = 85 :: replicate 140 0) as E by reflexivity.
    assert (∀ j x, slots (one_V t nb d) (one_entry t nb) !! j = Some x → x ≠ 0 →
      j = 0%nat ∧ x = 85) as Hs.
    { intros j x Hj Hx. rewrite E in Hj. destruct j as [|j]; [by injection Hj as <-|].
      exfalso. by apply (lookup_replicate 140 0 x j) in Hj as [-> _]. }
    split.
    + intros j x Hj Hx. destruct (Hs j x Hj Hx) as [_ ->]. split_and!; [| | |done].
      * apply one_client. tauto.
      * by intros ?%small_bitmap_block.
      * intros ?%one_free; lia.
    + intros j j' x Hj Hj' Hx. destruct (Hs j x Hj Hx), (Hs j' x Hj' Hx). congruence.
  - intros Hf%one_free. change (90 ≤ 66 ≤ 94) in Hf. lia.
Qed.

Lemma one_budget :
  @budget _ (cache_ops small_sb) (cache_laws small_sb) small_sb (one_inode t nb) None 0 (one_V t nb d)
    (boot (one_disk t nb d)) (one_entry t nb) {[66; 80]} 1.
Proof.
  split; [|by_decision|done|].
  - intros x ->%small_bitmap_block. by_decision.
  - exists [90; 91]. split_and!; [by_decision|done|]. intros b Hb. apply one_free.
    rewrite elem_of_cons, list_elem_of_singleton in Hb. lia.
Qed.

Lemma one_synced : get_entry (one_V t nb d 66) 1 = one_entry t nb.
Proof.
  assert (one_V t nb d 66 = put_entry 1 (one_entry t nb) (replicate 512 0)) as E by reflexivity.
  rewrite E. apply (get_put_entry_eq (one_inode t nb)); [apply one_wf|done].
Qed.
End one.

Lemma inode_write_correct_witness :
  let V := one_V INODE_REGULAR 5 hello_block in
  let tree := one_tree INODE_REGULAR 5 hello_block in
  let e := one_entry INODE_REGULAR 5 in
  ∃ V' c' e', @inode_write _ (cache_ops small_sb) small_sb None 1 [120; 121; 122] 4 3 tree
      = Ok (3, st_at tree 1 (one_inode INODE_REGULAR 5) c' e') ∧ num_bytes e' = 7 ∧
    ∀ o, 0 ≤ o < num_bytes e' → file_byte V' e' o =
      if (4 <=? o) && (o <? 4 + 3) then nth (Z.to_nat (o - 4)) [120; 121; 122] 0
      else file_byte V e o.
Proof.
  intros V tree e.
  assert (0 ≤ INODE_REGULAR < 2 ^ 16) as Ht by done. assert (0 ≤ 5 ≤ 512) as Hnb by done.
  assert (block_ok hello_block) as Hd by by_decision.
  destruct (proj1 (@inode_write_correct _ (cache_ops small_sb) (cache_laws small_sb) small_sb
    tree 1 (one_inode INODE_REGULAR 5) None ltac:(reflexivity) ltac:(reflexivity)
    one_ib 0%nat V {[66; 80]} 1%nat [120; 121; 122] 4 (one_core _ _ _ Ht Hnb Hd) (one_budget _ _ _)
    (one_covered _ _ _ Hnb) (one_synced _ _ _ Ht Hnb)
    ltac:(done) ltac:(by_decision) ltac:(done) ltac:(done) ltac:(vm_compute; lia))
    ltac:(done) ltac:(done)) as (V' & c' & e' & E & _ & _ & _ & Hm & _ & _ & _ & Hb).
  exists V', c', e'. split; [exact E|]. split; [|exact Hb].
  unfold meta in Hm. by injection Hm.
Defined.
