(* ===== verification/InodeDir.v ===== *)
(** * Directories

    A directory is the list of its 16-byte entries.  [inode_lookup] finds the first used entry
    with a name, [inode_insert] puts a new entry into the first free place, or at the end, and
    [inode_remove] frees the place of an entry.  Names are strings in buffers of 14 bytes. *)

From Stdlib Require Import ZArith Lia.
From S2P Require Import Prelude Words Sync Layout Cache CacheSpec CacheLog BlockCache CacheAlloc.
From S2P Require Import Console Inode InodeSpec InodeWrite.

(** ** Names *)

(** the string in a buffer *)
Fixpoint cname (l : list Z) : list Z :=
  match l with
  | [] => []
  | c :: l => if c =? 0 then [] else c :: cname l
  end.
Definition terminated (l : list Z) : Prop := is_Some (str_len l).

#[global] Instance terminated_dec l : Decision (terminated l).
Proof. unfold terminated. apply _. Defined.

Lemma str_len_cons c l n : str_len (c :: l) = Some n →
  (c = 0 ∧ n = O) ∨ (c ≠ 0 ∧ ∃ m, n = S m ∧ str_len l = Some m).
Proof.
  simpl. destruct (Z.eqb_spec c 0); [intros [= <-]; by left|]. right. split; [done|].
  destruct (str_len l) as [m|]; [|done]. simpl in *. exists m. by simplify_eq.
Qed.

Lemma str_len_cname l n : str_len l = Some n → length (cname l) = n.
Proof.
  revert n; induction l as [|c l IH]; intros n Hn; [done|].
  destruct (str_len_cons _ _ _ Hn) as [[-> ->]|(Hc & m & -> & Hm)]; [done|].
  simpl. destruct (Z.eqb_spec c 0); [done|]. simpl. by rewrite (IH m).
Qed.

Lemma mem_cmp_spec l1 l2 n1 n2 :
  str_len l1 = Some n1 → str_len l2 = Some n2 →
  ∃ c, mem_cmp (n1 `max` n2) l1 l2 = Some c ∧ (c = 0 ↔ cname l1 = cname l2).
Proof.
  revert l2 n1 n2. induction l1 as [|c1 l1 IH]; intros [|c2 l2] n1 n2 H1 H2; try done.
  destruct (str_len_cons _ _ _ H1) as [[-> ->]|(Hc1 & m1 & -> & Hm1)];
    destruct (str_len_cons _ _ _ H2) as [[-> ->]|(Hc2 & m2 & -> & Hm2)]; simpl.
  - by exists 0.
  - destruct c2 as [|p|p]; [done| |]; (eexists; split; [reflexivity|]); split; discriminate.
  - destruct (Z.eqb_spec c1 0); [done|]. exists c1. rewrite Z.sub_0_r. split; [done|].
    split; [done|discriminate].
  - destruct (Z.eqb_spec c1 c2) as [->|Hne].
    + destruct (IH l2 m1 m2 Hm1 Hm2) as (c & E & Hc). exists c. split; [done|].
      destruct (Z.eqb_spec c2 0); [done|]. rewrite Hc. split; [by intros -> | by intros [= ->]].
    + exists (c1 - c2). split; [done|]. destruct (Z.eqb_spec c1 0), (Z.eqb_spec c2 0); try done.
      split; [lia|]. by intros [= ? _].
Qed.

Lemma memcmp2_spec l1 l2 :
  terminated l1 → terminated l2 →
  ∃ c, memcmp2 l1 l2 = Some c ∧ (c =? 0) = bool_decide (cname l1 = cname l2).
Proof.
  intros [n1 H1] [n2 H2]. unfold memcmp2. rewrite H1, H2. simpl.
  destruct (mem_cmp_spec l1 l2 n1 n2 H1 H2) as (c & E & Hc). exists c. split; [done|].
  case_bool_decide as Hb; [apply Z.eqb_eq|apply Z.eqb_neq]; tauto.
Qed.

Lemma str_ncpy_spec n l :
  terminated l → (length (cname l) ≤ n)%nat →
  str_ncpy n l = Some (cname l ++ replicate (n - length (cname l)) 0).
Proof.
  intros [k Hk]. revert l k Hk. induction n as [|n IH]; intros [|c l] k Hk Hl; try done.
  - simpl in *. destruct (c =? 0); [done|simpl in Hl; lia].
  - destruct (str_len_cons _ _ _ Hk) as [[-> ->]|(Hc & m & -> & Hm)]; [done|].
    simpl in *. destruct (Z.eqb_spec c 0); [done|]. simpl in Hl. by rewrite (IH l m Hm) by lia.
Qed.

Lemma cname_padded l m : Forall (λ c, c ≠ 0) l → (0 < m)%nat →
  cname (l ++ replicate m 0) = l ∧ terminated (l ++ replicate m 0).
Proof.
  intros Hl Hm. destruct m as [|m]; [lia|]. induction Hl as [|c l Hc Hl [IH1 [k IH2]]].
  - split; [done|]. by exists O.
  - split; simpl; destruct (Z.eqb_spec c 0); try done; [by f_equal|].
    unfold terminated. simpl in *. destruct (Z.eqb_spec c 0); [done|]. rewrite IH2. by eexists.
Qed.

Lemma cname_nonzero l : Forall (λ c, c ≠ 0) (cname l).
Proof.
  induction l as [|c l IH]; simpl; [constructor|]. destruct (Z.eqb_spec c 0); by constructor.
Qed.

Lemma cname_bytes l : bytes l → bytes (cname l).
Proof. induction 1 as [|c l Hc Hl IH]; simpl; [constructor|]. destruct (c =? 0); by constructor. Qed.

(** ** Directories as lists of entries *)

Definition entry_at (V : Z → list Z) (e : InodeEntry) (k : Z) : DirEntry :=
  dec_dirent (file_bytes V e (16 * k) 16).
Definition entries V e : list DirEntry := map (entry_at V e) (zseq 0 (Z.to_nat (num_bytes e / 16))).

Definition used_as (nm : list Z) (d : DirEntry) : bool :=
  negb (inode_no d =? 0) && bool_decide (cname nm = cname (Layout.name d)).
(** the inode number and the offset of the first entry with a name, from offset [i] on *)
Fixpoint dir_find (nm : list Z) (i : Z) (l : list DirEntry) : option (Z * Z) :=
  match l with
  | [] => None
  | d :: l => if used_as nm d then Some (inode_no d, i) else dir_find nm (i + 16) l
  end.
(** the offset of the first free entry, or of the end *)
Fixpoint dir_slot (i : Z) (l : list DirEntry) : Z :=
  match l with
  | [] => i
  | d :: l => if inode_no d =? 0 then i else dir_slot (i + 16) l
  end.

Section dir.
Context {C : Type} `{BlockCacheLaws C} (sblock : SuperBlock) (a : Z).
Implicit Types (s : itree C) (V : Z → list Z) (e : InodeEntry).

Record dir_ok V e : Prop := {
  do_type : type e = INODE_DIRECTORY;
  do_covered : covered V e;
  do_size : num_bytes e mod 16 = 0;
  do_names : Forall (λ d, inode_no d ≠ 0 → terminated (Layout.name d)) (entries V e) }.

(** the same contents and log space behind another cache *)
Definition same_room (c c' : C) : Prop := ∀ ctx X k, bc_room c ctx X k → bc_room c' ctx X k.

Lemma covered_max V e : covered V e → 0 ≤ num_bytes e ≤ 71680.
Proof.
  intros [Hnb Hm]. pose proof (mp_max _ _ _ Hm) as Hmax. change INODE_MAX_BLOCKS with 140 in Hmax.
  zmod.
Qed.

Lemma read_entry V s i k :
  bc_rep V ∅ (cst s) → imem s !! a = Some i → dir_ok V (entry i) → 0 ≤ k < num_bytes (entry i) / 16 →
  ∃ c, inode_read sblock a (16 * k) 16 s = Ok ((file_bytes V (entry i) (16 * k) 16, 16), with_cache c s) ∧
    bc_rep V ∅ c ∧ same_room (cst s) c.
Proof.
  intros R Ei [Ht Hc Hsz _] Hk. pose proof (covered_max _ _ Hc) as Hnb.
  destruct (inode_read_run sblock V s a i (16 * k) 16 R Ei) as [Hr _]; try done.
  - by rewrite Ht.
  - change (2 ^ 32) with 4294967296. zmod.
  - destruct Hr as (c & E & R' & Hr); [zmod|].
    rewrite Z.min_l in E by zmod. by exists c.
Qed.

Lemma entry_terminated V e k :
  dir_ok V e → 0 ≤ k < num_bytes e / 16 → inode_no (entry_at V e k) ≠ 0 →
  terminated (Layout.name (entry_at V e k)).
Proof.
  intros [_ _ _ Hn] Hk. rewrite Forall_forall in Hn. apply Hn. unfold entries.
  change (map ?f ?l) with (f <$> l). apply list_elem_of_fmap. exists k. split; [done|].
  apply elem_of_zseq. lia.
Qed.

Lemma used_as_run {A} V e k nm (K : Z → M (itree C) A) s :
  terminated nm → dir_ok V e → 0 ≤ k < num_bytes e / 16 → inode_no (entry_at V e k) ≠ 0 →
  (c ← getopt (λ _, memcmp2 nm (Layout.name (entry_at V e k))); K c) s =
    K (default 0 (memcmp2 nm (Layout.name (entry_at V e k)))) s ∧
  (default 0 (memcmp2 nm (Layout.name (entry_at V e k))) =? 0) = used_as nm (entry_at V e k).
Proof.
  intros Hnm Hd Hk Hn. pose proof (entry_terminated V e k Hd Hk Hn) as Ht.
  destruct (memcmp2_spec nm _ Hnm Ht) as (c & E & Hc). split.
  - erewrite bind_Ok by (apply getopt_run; exact E). by rewrite E.
  - rewrite E. simpl. rewrite Hc. unfold used_as. by rewrite (proj2 (Z.eqb_neq _ _) Hn).
Qed.

Lemma lookup_loop_run V s i nm k m fuel :
  bc_rep V ∅ (cst s) → imem s !! a = Some i → dir_ok V (entry i) → terminated nm →
  0 ≤ k → k + Z.of_nat m = num_bytes (entry i) / 16 → (m < fuel)%nat →
  ∃ c, lookup_loop sblock fuel a nm (16 * k) s =
      Ok (dir_find nm (16 * k) (map (entry_at V (entry i)) (zseq k m)), with_cache c s) ∧
    bc_rep V ∅ c ∧ same_room (cst s) c.
Proof.
  intros R Ei Hd Hnm. pose proof (covered_max _ _ (do_covered _ _ Hd)) as Hnb.
  pose proof (do_size _ _ Hd) as Hsz.
  revert s R Ei k m. induction fuel as [|fuel IH]; intros s R Ei k m Hk Hm Hf; [lia|].
  cbn [lookup_loop]. erewrite bind_Ok by (apply ip_run; exact Ei). destruct m as [|m].
  - destruct (Z.ltb_spec (16 * k) (num_bytes (entry i))); [zmod|].
    exists (cst s). rewrite with_cache_cst. split_and!; [done|done|by intros ???].
  - destruct (Z.ltb_spec (16 * k) (num_bytes (entry i))); [|zmod].
    destruct (read_entry V s i k R Ei Hd) as (c1 & E1 & R1 & Hr1); [lia|].
    rewrite (bind_Ok _ _ _ _ _ E1). cbv beta iota. cbn [zseq map dir_find].
    fold (entry_at V (entry i) k).
    rewrite (u32_id (16 * k + 16)) by (change (2 ^ 32) with 4294967296; zmod).
    replace (16 * k + 16) with (16 * (k + 1)) by lia.
    assert (∃ c, lookup_loop sblock fuel a nm (16 * (k + 1)) (with_cache c1 s) =
      Ok (dir_find nm (16 * (k + 1)) (map (entry_at V (entry i)) (zseq (k + 1) m)), with_cache c s) ∧
      bc_rep V ∅ c ∧ same_room (cst s) c) as Hrec.
    { destruct (IH (with_cache c1 s) R1 Ei (k + 1) m) as (c & E & R' & Hr); [lia|lia|lia|].
      exists c. split; [exact E|]. split; [done|]. intros ???. by intros ?%Hr1%Hr. }
    destruct (Z.eqb_spec (inode_no (entry_at V (entry i) k)) 0) as [Hz|Hn]; cbn [negb].
    + unfold used_as at 1. rewrite Hz. exact Hrec.
    + rewrite (proj1 (used_as_run V (entry i) k nm _ _ Hnm Hd ltac:(lia) Hn)).
      rewrite (proj2 (used_as_run V (entry i) k nm (λ _, mret tt) s Hnm Hd ltac:(lia) Hn)).
      destruct (used_as nm _); [|exact Hrec]. by exists c1.
Qed.

Lemma inode_lookup_run V s i nm :
  bc_rep V ∅ (cst s) → imem s !! a = Some i → dir_ok V (entry i) → terminated nm →
  ∃ c, inode_lookup sblock a nm s =
      Ok (match dir_find nm 0 (entries V (entry i)) with
          | Some (ino, off) => (ino, Some off) | None => (0, None) end, with_cache c s) ∧
    bc_rep V ∅ c ∧ same_room (cst s) c.
Proof.
  intros R Ei Hd Hnm. pose proof (covered_max _ _ (do_covered _ _ Hd)) as Hnb.
  unfold inode_lookup. erewrite bind_Ok by (apply ip_run; exact Ei).
  erewrite bind_Ok by (apply assert_run, Z.eqb_eq, Hd).
  destruct (lookup_loop_run V s i nm 0 (Z.to_nat (num_bytes (entry i) / 16))
    (dir_fuel (entry i)) R Ei Hd Hnm) as (c & E & R' & Hr); [lia|zmod|unfold dir_fuel; zmod|].
  change (16 * 0) with 0 in E. rewrite (bind_Ok _ _ _ _ _ E). unfold entries.
  exists c. destruct (dir_find nm 0 _) as [[ino off]|]; done.
Qed.

(** ** Finding the place for a new entry *)

Definition slot_from (index i : Z) (l : list DirEntry) : Z :=
  if index =? INODE_MAX_BYTES then dir_slot i l else index.

Lemma lookup2_loop_run V s i nm index k m fuel :
  bc_rep V ∅ (cst s) → imem s !! a = Some i → dir_ok V (entry i) → terminated nm →
  0 ≤ k → k + Z.of_nat m = num_bytes (entry i) / 16 → (m < fuel)%nat →
  let l := map (entry_at V (entry i)) (zseq k m) in
  ∃ c, lookup2_loop sblock fuel a nm index (16 * k) s =
      Ok (match dir_find nm (16 * k) l with
          | Some r => r | None => (0, slot_from index (16 * k) l) end, with_cache c s) ∧
    bc_rep V ∅ c ∧ same_room (cst s) c.
Proof.
  intros R Ei Hd Hnm. pose proof (covered_max _ _ (do_covered _ _ Hd)) as Hnb.
  pose proof (do_size _ _ Hd) as Hsz.
  revert s R Ei index k m. induction fuel as [|fuel IH]; intros s R Ei index k m Hk Hm Hf; [lia|].
  cbn [lookup2_loop]. cbv zeta. erewrite bind_Ok by (apply ip_run; exact Ei). destruct m as [|m].
  - destruct (Z.ltb_spec (16 * k) (num_bytes (entry i))); [zmod|].
    exists (cst s). rewrite with_cache_cst. split_and!; [|done|by intros ???].
    unfold slot_from. simpl. replace (num_bytes (entry i)) with (16 * k) by zmod.
    by destruct (index =? INODE_MAX_BYTES).
  - destruct (Z.ltb_spec (16 * k) (num_bytes (entry i))); [|zmod].
    destruct (read_entry V s i k R Ei Hd) as (c1 & E1 & R1 & Hr1); [lia|].
    rewrite (bind_Ok _ _ _ _ _ E1). cbv beta iota. cbn [zseq map dir_find dir_slot].
    fold (entry_at V (entry i) k).
    rewrite (u32_id (16 * k + 16)) by (change (2 ^ 32) with 4294967296; zmod).
    replace (16 * k + 16) with (16 * (k + 1)) by lia. set (l := map _ (zseq (k + 1) m)).
    assert (∀ index, ∃ c, lookup2_loop sblock fuel a nm index (16 * (k + 1)) (with_cache c1 s) =
      Ok (match dir_find nm (16 * (k + 1)) l with
          | Some r => r | None => (0, slot_from index (16 * (k + 1)) l) end, with_cache c s) ∧
      bc_rep V ∅ c ∧ same_room (cst s) c) as Hrec.
    { intros index'. destruct (IH (with_cache c1 s) R1 Ei index' (k + 1) m)
        as (c & E & R' & Hr); [lia|lia|lia|].
      exists c. split; [exact E|]. split; [done|]. intros ???. by intros ?%Hr1%Hr. }
    unfold slot_from in *. cbn [dir_slot]. replace (16 * k + 16) with (16 * (k + 1)) by lia.
    destruct (Z.eqb_spec (inode_no (entry_at V (entry i) k)) 0) as [Hz|Hn]; cbn [negb andb].
    + unfold used_as at 1. rewrite Hz. cbn [Z.eqb negb andb].
      destruct (Hrec (if index =? INODE_MAX_BYTES then 16 * k else index)) as (c & E & ? & ?).
      exists c. split; [|done]. rewrite E. do 2 f_equal. destruct (dir_find nm _ l); [done|].
      f_equal. change INODE_MAX_BYTES with 71680.
      destruct (Z.eqb_spec index 71680) as [->|]; [|by rewrite (proj2 (Z.eqb_neq index _))].
      rewrite (proj2 (Z.eqb_neq (16 * k) 71680)) by zmod. done.
    + rewrite (proj1 (used_as_run V (entry i) k nm _ _ Hnm Hd ltac:(lia) Hn)).
      rewrite (proj2 (used_as_run V (entry i) k nm (λ _, mret tt) s Hnm Hd ltac:(lia) Hn)).
      destruct (used_as nm _); [by exists c1|]. exact (Hrec index).
Qed.

Lemma inode_lookup2_run V s i nm :
  bc_rep V ∅ (cst s) → imem s !! a = Some i → dir_ok V (entry i) → terminated nm →
  ∃ c, inode_lookup2 sblock a nm s =
      Ok (match dir_find nm 0 (entries V (entry i)) with
          | Some r => r | None => (0, dir_slot 0 (entries V (entry i))) end, with_cache c s) ∧
    bc_rep V ∅ c ∧ same_room (cst s) c.
Proof.
  intros R Ei Hd Hnm. pose proof (covered_max _ _ (do_covered _ _ Hd)) as Hnb.
  unfold inode_lookup2. erewrite bind_Ok by (apply ip_run; exact Ei).
  erewrite bind_Ok by (apply assert_run, Z.eqb_eq, Hd).
  apply (lookup2_loop_run V s i nm INODE_MAX_BYTES 0 (Z.to_nat (num_bytes (entry i) / 16))
    (dir_fuel (entry i)) R Ei Hd Hnm); [lia|zmod|unfold dir_fuel; zmod].
Qed.
End dir.

(** ** Replacing or appending an entry *)

Lemma length_entries V e : length (entries V e) = Z.to_nat (num_bytes e / 16).
Proof. unfold entries. by rewrite length_map, length_zseq. Qed.

Lemma lookup_entries V e j :
  (j < Z.to_nat (num_bytes e / 16))%nat → entries V e !! j = Some (entry_at V e (Z.of_nat j)).
Proof.
  intros Hj. unfold entries. change (map ?f ?l) with (f <$> l).
  by rewrite list_lookup_fmap, lookup_zseq.
Qed.

Lemma entries_written V e V' e' k d :
  0 ≤ num_bytes e → num_bytes e mod 16 = 0 → 0 ≤ k ≤ num_bytes e / 16 → wf_dirent d →
  num_bytes e' = Z.max (num_bytes e) (16 * k + 16) →
  (∀ o, 0 ≤ o < num_bytes e' → file_byte V' e' o =
     if (16 * k <=? o) && (o <? 16 * k + 16) then nth (Z.to_nat (o - 16 * k)) (enc_dirent d) 0
     else file_byte V e o) →
  entries V' e' = take (Z.to_nat k) (entries V e) ++ d :: drop (S (Z.to_nat k)) (entries V e).
Proof.
  intros Hnb Hsz Hk Hwf Enb Hb.
  pose proof (length_enc_dirent d (wf_name_len _ Hwf)) as Hld.
  assert (∀ j, 0 ≤ j < num_bytes e' / 16 →
    entry_at V' e' j = if decide (j = k) then d else entry_at V e j) as Hent.
  { intros j Hj. unfold entry_at. case_decide as Hd.
    - subst j. rewrite <-(dec_enc_dirent d Hwf). f_equal. apply list_eq_length.
      { by rewrite length_file_bytes. }
      rewrite length_file_bytes. intros x Hx. unfold file_bytes. change (map ?f ?l) with (f <$> l).
      rewrite list_lookup_fmap, lookup_zseq by done. cbn [fmap option_fmap option_map].
      rewrite Hb by zmod.
      rewrite (proj2 (Z.leb_le _ _)), (proj2 (Z.ltb_lt _ _)) by lia. cbn [andb].
      replace (16 * k + Z.of_nat x - 16 * k) with (Z.of_nat x) by lia. rewrite Nat2Z.id.
      by rewrite (lookup_nth (enc_dirent d) x) by (rewrite Hld; exact Hx).
    - f_equal. unfold file_bytes. apply map_ext_in. intros o Ho%list_elem_of_In%elem_of_zseq.
      rewrite Hb by zmod. destruct (Z.leb_spec (16 * k) o), (Z.ltb_spec o (16 * k + 16)); try done. lia. }
  assert (num_bytes e' / 16 = Z.max (num_bytes e / 16) (k + 1)) as En by zmod.
  apply list_eq_length.
  - rewrite length_app, length_take. simpl. rewrite length_drop, !length_entries. lia.
  - rewrite length_entries. intros j Hj. rewrite lookup_entries, Hent by (done || lia).
    destruct (Nat.lt_trichotomy j (Z.to_nat k)) as [Hlt|[->|Hgt]].
    + rewrite decide_False by lia.
      rewrite lookup_app_l by (rewrite length_take, length_entries; lia).
      rewrite lookup_take_lt by done. by rewrite lookup_entries by lia.
    + rewrite decide_True by lia. rewrite list_lookup_middle; [done|].
      rewrite length_take, length_entries. lia.
    + rewrite decide_False by lia. rewrite lookup_app_r by (rewrite length_take, length_entries; lia).
      rewrite length_take, length_entries. rewrite Nat.min_l by lia.
      replace (j - Z.to_nat k)%nat with (S (j - S (Z.to_nat k))) by lia. simpl.
      rewrite lookup_drop. replace (S (Z.to_nat k) + (j - S (Z.to_nat k)))%nat with j by lia.
      by rewrite lookup_entries by lia.
Qed.

Lemma dir_slot_spec i l :
  ∃ k, dir_slot i l = i + 16 * Z.of_nat k ∧ (k ≤ length l)%nat.
Proof.
  revert i; induction l as [|d l IH]; intros i; simpl.
  - exists O. split; [lia|done].
  - destruct (inode_no d =? 0); [exists O; split; lia|].
    destruct (IH (i + 16)) as (k & E & ?). exists (S k). split; lia.
Qed.

Lemma dir_find_none nm i l : dir_find nm i l = None → ∀ d, d ∈ l → used_as nm d = false.
Proof.
  revert i; induction l as [|d l IH]; intros i; simpl; [by intros _ ? ?%elem_of_nil|].
  destruct (used_as nm d) eqn:E; [done|]. intros Hn x [->|Hx]%elem_of_cons; [done|]. by eapply IH.
Qed.

Lemma dir_find_app nm i l1 d l2 :
  (∀ x, x ∈ l1 → used_as nm x = false) → used_as nm d = true →
  dir_find nm i (l1 ++ d :: l2) = Some (inode_no d, i + 16 * Z.of_nat (length l1)).
Proof.
  revert i; induction l1 as [|x l1 IH]; intros i Hl Hd; simpl.
  - rewrite Hd. do 2 f_equal. lia.
  - rewrite (Hl x) by left. rewrite IH; [|intros; apply Hl; by right|done]. do 2 f_equal. lia.
Qed.

Lemma bytes_enc_dirent d : bytes (Layout.name d) → bytes (enc_dirent d).
Proof. intros Hn. apply bytes_app. split; [apply bytes_le_enc|done]. Qed.

(** the entry [inode_insert] writes *)
Definition new_entry (nm : list Z) (n : Z) : DirEntry :=
  mkDirEntry (u16 n) (cname nm ++ replicate (14 - length (cname nm)) 0).

Lemma new_entry_ok nm n :
  bytes nm → (length (cname nm) < 14)%nat → 0 < n < 2 ^ 16 →
  wf_dirent (new_entry nm n) ∧ used_as nm (new_entry nm n) = true ∧
  terminated (Layout.name (new_entry nm n)) ∧ inode_no (new_entry nm n) = n.
Proof.
  intros Hb Hl Hn. destruct (cname_padded (cname nm) (14 - length (cname nm))
    (cname_nonzero nm) ltac:(lia)) as [Hc Ht]. split_and!; [|  |done|by apply u16_id; lia].
  - split; simpl.
    + pose proof (u16_range n). unfold word_ok. simpl. change (2 ^ 16) with 65536 in *. lia.
    + apply bytes_app. split; [by apply cname_bytes|]. apply bytes_replicate. unfold is_byte. lia.
    + rewrite length_app, length_replicate. lia.
  - unfold used_as. simpl. rewrite u16_id by lia. rewrite (proj2 (Z.eqb_neq n 0)) by lia.
    simpl. apply bool_decide_eq_true. by rewrite Hc.
Qed.

Section dirops.
Context {C : Type} `{BlockCacheLaws C} (sblock : SuperBlock).
Context (s0 : itree C) (a : Z) (i0 : Inode) (ctx : option Z).
Hypothesis Hip : imem s0 !! a = Some i0.
Hypothesis Hvalid : valid i0 = true.
Local Notation ino := (inode_no_ i0).
Local Notation ib := (to_block_no sblock ino).
Hypothesis Hib : bc_block ib ∧ ¬ bc_bitmap ib.
Implicit Types (V : Z → list Z) (e : InodeEntry) (X : gset Z) (c : C).
Local Notation st_at := (st_at s0 a i0).
Local Notation core := (core sblock i0).
Local Notation budget := (budget sblock i0 ctx 0).
Local Notation frame := (frame sblock i0).

(** a directory that can be changed *)
Record dir_ready V c e X : Prop := {
  dr_core : core V c e;
  dr_budget : budget V c e X 1;
  dr_dir : dir_ok V e;
  dr_synced : get_entry (V ib) ino = e }.

Lemma dir_ready_cache V c c' e X :
  dir_ready V c e X → bc_rep V ∅ c' → same_room c c' → dir_ready V c' e X.
Proof.
  intros [[? ? ? ?] B ? ?] R' Hr. split; [by split| |done|done].
  eapply budget_cache; [exact (Hr ctx)|done].
Qed.

(** Writing one entry of a directory. *)
Lemma write_entry V c X k d :
  dir_ready V c (entry i0) X → wf_dirent d → (inode_no d ≠ 0 → terminated (Layout.name d)) →
  let e := entry i0 in
  0 ≤ k ≤ num_bytes e / 16 → 16 * k + 16 ≤ INODE_MAX_BYTES →
  ∃ V' c' e', inode_write sblock ctx a (enc_dirent d) (16 * k) 16 (with_cache c s0) =
      Ok (16, st_at c' e') ∧ core V' c' e' ∧ frame V e V' e' ∧ dir_ok V' e' ∧
    get_entry (V' ib) ino = e' ∧
    entries V' e' = take (Z.to_nat k) (entries V e) ++ d :: drop (S (Z.to_nat k)) (entries V e).
Proof.
  intros [Hc Hbu [Ht Hcov Hsz Hnm] Hsy] Hwf Hd e Hk Hmax.
  pose proof (covered_max _ _ Hcov) as Hnb. fold e in Hnb, Hsz, Hsy, Ht, Hcov, Hnm.
  pose proof (length_enc_dirent d (wf_name_len _ Hwf)) as Hl.
  change INODE_MAX_BYTES with 71680 in Hmax.
  destruct (inode_write_run sblock (with_cache c s0) a i0 ctx Hip Hvalid Hib 0%nat V X 1%nat
    (enc_dirent d) (16 * k)) as (V' & c' & e' & E & Hc' & Hfr & Hcov' & Hme & Hsy' & _ & _ & Hb);
    try rewrite Hl; try done.
  - fold e. by rewrite Ht.
  - apply bytes_enc_dirent, Hwf.
  - change (2 ^ 32) with 4294967296. zmod.
  - unfold touched. case_match; zmod.
  - fold e. zmod.
  - rewrite Hl in *. fold e in Hfr, Hme, Hb. change (Z.of_nat 16) with 16 in *.
    unfold meta in Hme. simpl in Hme. injection Hme as Ht' _ _ _ Hnb'.
    pose proof (entries_written V e V' e' k d ltac:(lia) Hsz Hk Hwf Hnb' Hb) as Hent.
    exists V', c', e'. split_and!; try done. split; [congruence|done|rewrite Hnb'; zmod|].
    rewrite Hent. apply Forall_app. split; [by apply Forall_take|].
    constructor; [done|by apply Forall_drop].
Qed.

(** [inode_lookup] in a directory returns the inode number and the offset of the first used
    entry with the name, and 0 when there is none; the disk stays as it is. *)
Theorem inode_lookup_correct V s i nm :
  bc_rep V ∅ (cst s) → imem s !! a = Some i → dir_ok V (entry i) → terminated nm →
  ∃ c, bc_rep V ∅ c ∧
    match dir_find nm 0 (entries V (entry i)) with
    | Some (n, off) => inode_lookup sblock a nm s = Ok ((n, Some off), with_cache c s)
    | None => inode_lookup sblock a nm s = Ok ((0, None), with_cache c s) ∧
        ∀ d, d ∈ entries V (entry i) → inode_no d ≠ 0 → cname (Layout.name d) ≠ cname nm
    end.
Proof.
  intros R Ei Hd Hnm. destruct (inode_lookup_run sblock a V s i nm R Ei Hd Hnm) as (c & E & R' & _).
  exists c. split; [done|]. destruct (dir_find nm 0 _) as [[n off]|] eqn:Ef; [done|].
  split; [done|]. intros d Hin Hn Heq. pose proof (dir_find_none _ _ _ Ef d Hin) as Hu.
  unfold used_as in Hu. rewrite (proj2 (Z.eqb_neq _ _) Hn), bool_decide_eq_true_2 in Hu; done.
Qed.

(** C15: [inode_insert] of a name that is in the directory returns -1 and changes nothing on disk.
    Otherwise, with room for an entry, the entry is put into the first free place or at the
    end, all other entries stay, the offset of the new one is returned, and
    [inode_lookup] of the name then finds the inode number there. *)
Theorem inode_insert_correct V X nm n :
  let e := entry i0 in
  dir_ready V (cst s0) e X → terminated nm → bytes nm → (length (cname nm) < 14)%nat →
  0 < n < 2 ^ 16 →
  match dir_find nm 0 (entries V e) with
  | Some (m, _) => m ≠ 0 ∧ ∃ c, inode_insert sblock ctx a nm n s0 = Ok (u64 (-1), with_cache c s0) ∧
      bc_rep V ∅ c
  | None =>
      let off := dir_slot 0 (entries V e) in
      off + 16 ≤ INODE_MAX_BYTES →
      ∃ V' c' e', inode_insert sblock ctx a nm n s0 = Ok (off, st_at c' e') ∧
        core V' c' e' ∧ frame V e V' e' ∧ dir_ok V' e' ∧ get_entry (V' ib) ino = e' ∧
        entries V' e' = take (Z.to_nat (off / 16)) (entries V e) ++ new_entry nm n ::
          drop (S (Z.to_nat (off / 16))) (entries V e) ∧
        ∃ c'', inode_lookup sblock a nm (st_at c' e') = Ok ((n, Some off), st_at c'' e')
  end.
Proof.
  intros e Hdr Hnm Hb Hlen Hn. unfold inode_insert.
  erewrite bind_Ok by (apply ip_run; exact Hip).
  erewrite bind_Ok by (apply assert_run, Z.eqb_eq, Hdr).
  destruct (inode_lookup2_run sblock a V s0 i0 nm (co_rep _ _ _ _ _ (dr_core _ _ _ _ Hdr)) Hip
    (dr_dir _ _ _ _ Hdr) Hnm) as (c & E & R & Hr).
  rewrite (bind_Ok _ _ _ _ _ E). fold e. destruct (dir_find nm 0 (entries V e)) as [[m off]|] eqn:Ef.
  - assert (m ≠ 0) as Hm.
    { revert Ef. generalize 0 at 1. induction (entries V e) as [|d l IH]; intros i; [done|].
      simpl. destruct (used_as nm d) eqn:Eu; [|by apply IH].
      intros [= <- _]. unfold used_as in Eu. by destruct (Z.eqb_spec (inode_no d) 0). }
    split; [done|]. rewrite (proj2 (Z.eqb_neq m 0) Hm). cbn [negb]. rewrite mret_run. by exists c.
  - set (off := dir_slot 0 (entries V e)). intros Hmax. change (0 =? 0) with true. cbn [negb].
    pose proof (str_ncpy_spec 14 nm Hnm ltac:(lia)) as Ecpy.
    erewrite bind_Ok by (apply getopt_run; exact Ecpy).
    destruct (dir_slot_spec 0 (entries V e)) as (k & Ek & Hk). rewrite length_entries in Hk.
    destruct (new_entry_ok nm n Hb Hlen Hn) as (Hwf & Hu & Ht & Ei).
    pose proof (dir_ready_cache _ _ c _ _ Hdr R Hr) as Hdr'. fold off in Ek.
    replace off with (16 * Z.of_nat k) in * by lia. clear Ek off.
    pose proof (covered_max _ _ (do_covered _ _ (dr_dir _ _ _ _ Hdr))) as Hnb. fold e in Hnb.
    destruct (write_entry V c X (Z.of_nat k) (new_entry nm n) Hdr' Hwf ltac:(done))
      as (V' & c' & e' & Ew & Hc' & Hfr & Hd' & Hsy & Hent); [fold e; zmod|done|].
    fold (new_entry nm n). rewrite (bind_Ok _ _ _ _ _ Ew), mret_run.
    exists V', c', e'. split; [done|]. split; [done|]. split; [done|]. split; [done|]. split; [done|].
    replace (16 * Z.of_nat k / 16) with (Z.of_nat k) by zmod. split; [done|].
    destruct (inode_lookup_run sblock a V' (st_at c' e') (set_entry e' i0) nm) as (c2 & E2 & _);
      [apply Hc'|apply lookup_insert_eq|done|done|].
    cbn [entry set_entry] in E2. rewrite Hent in E2. rewrite dir_find_app in E2; [|..|exact Hu].
    + exists c2. rewrite E2, Ei, length_take, length_entries, Nat2Z.id, Nat.min_l by done.
      by rewrite Z.add_0_l.
    + intros x Hx. eapply (dir_find_none _ _ _ Ef). eapply elem_of_sublist; [exact Hx|apply sublist_take].
Qed.

(** C17: [inode_remove] frees the place of one entry of a directory: its inode number becomes 0,
    its name and all other entries stay, and so do all other files. *)
Theorem inode_remove_correct V X k d :
  let e := entry i0 in
  dir_ready V (cst s0) e X → entries V e !! Z.to_nat k = Some d → 0 ≤ k →
  ∃ V' c' e', inode_remove sblock ctx a (16 * k) s0 = Ok (tt, st_at c' e') ∧
    core V' c' e' ∧ frame V e V' e' ∧ dir_ok V' e' ∧ get_entry (V' ib) ino = e' ∧
    entries V' e' = <[Z.to_nat k := mkDirEntry 0 (Layout.name d)]> (entries V e).
Proof.
  intros e Hdr Hd Hk. pose proof (lookup_lt_Some _ _ _ Hd) as Hlt. rewrite length_entries in Hlt.
  pose proof (covered_max _ _ (do_covered _ _ (dr_dir _ _ _ _ Hdr))) as Hnb. fold e in Hnb.
  pose proof (co_rep _ _ _ _ _ (dr_core _ _ _ _ Hdr)) as R.
  destruct (read_entry sblock a V s0 i0 k R Hip (dr_dir _ _ _ _ Hdr)) as (c & E & R' & Hr); [fold e; lia|].
  unfold inode_remove. rewrite (bind_Ok _ _ _ _ _ E). fold e. cbv beta iota.
  rewrite lookup_entries in Hd by done. rewrite Z2Nat.id in Hd by done. injection Hd as <-.
  fold (entry_at V e k).
  assert (wf_dirent (entry_at V e k)) as [_ Hb2 Hl2].
  { apply dec_dirent_wf; [|by rewrite length_file_bytes]. apply Forall_forall.
    intros x Hx. unfold file_bytes in Hx. change (map ?f ?l) with (f <$> l) in Hx.
    apply list_elem_of_fmap in Hx as (o & -> & _). unfold file_byte.
    destruct (bc_rep_data V _ _ (block_of V e (o / BLOCK_SIZE)) R) as [Hby Hl]. rewrite nth_lookup.
    destruct (V _ !! _) eqn:Ex; [by eapply bytes_lookup|]. simpl. unfold is_byte. lia. }
  pose proof (dir_ready_cache _ _ c _ _ Hdr R' Hr) as Hdr'.
  destruct (write_entry V c X k (mkDirEntry 0 (Layout.name (entry_at V e k))) Hdr')
    as (V' & c' & e' & Ew & Hc' & Hfr & Hd' & Hsy & Hent); try done.
  - fold e. lia.
  - change INODE_MAX_BYTES with 71680. zmod.
  - rewrite (bind_Ok _ _ _ _ _ Ew), mret_run. exists V', c', e'. split_and!; try done.
    rewrite Hent. symmetry. apply insert_take_drop. by rewrite length_entries.
Qed.
End dirops.

(** ** A concrete directory, with the entries "." and "a" *)

Definition dirent_of (n : Z) (nm : list Z) : DirEntry := mkDirEntry n (nm ++ replicate (14 - length nm) 0).
Definition dir_block : list Z :=
  enc_dirent (dirent_of 1 [46]) ++ enc_dirent (dirent_of 5 [97]) ++ replicate 480 0.
Definition dir_V : Z → list Z := one_V INODE_DIRECTORY 32 dir_block.
Definition dir_tree : itree cachest := one_tree INODE_DIRECTORY 32 dir_block.
Definition dir_entry : InodeEntry := one_entry INODE_DIRECTORY 32.
Definition dir_inode : Inode := one_inode INODE_DIRECTORY 32.

Lemma dir_entries : entries dir_V dir_entry = [dirent_of 1 [46]; dirent_of 5 [97]].
Proof. vm_compute. reflexivity. Qed.

Lemma dir_block_ok : block_ok dir_block.
Proof. by_decision. Qed.

Lemma dir_dir_ok : @dir_ok _ (cache_ops small_sb) (cache_laws small_sb) dir_V dir_entry.
Proof.
  split; [done|by apply one_covered|done|]. rewrite dir_entries. by_decision.
Qed.

Lemma dir_dir_ready :
  @dir_ready _ (cache_ops small_sb) (cache_laws small_sb) small_sb dir_inode None dir_V
    (boot (one_disk INODE_DIRECTORY 32 dir_block)) dir_entry {[66; 80]}.
Proof.
  split; [by apply one_core, dir_block_ok|apply one_budget|apply dir_dir_ok|by apply one_synced].
Qed.

Lemma inode_lookup_correct_witness :
  ∃ c, @inode_lookup _ (cache_ops small_sb) small_sb 1 [97; 0] dir_tree =
    Ok ((5, Some 16), with_cache c dir_tree).
Proof.
  destruct (@inode_lookup_correct _ (cache_ops small_sb) (cache_laws small_sb) small_sb 1 dir_V dir_tree
    dir_inode [97; 0] (conj (one_rep INODE_DIRECTORY 32 dir_block ltac:(done) ltac:(done) dir_block_ok) eq_refl)
    ltac:(reflexivity) dir_dir_ok ltac:(by_decision)) as (c & _ & E).
  exists c. change (entry dir_inode) with dir_entry in E. rewrite dir_entries in E. exact E.
Defined.

Lemma inode_insert_correct_witness :
  ∃ V' c' e', @inode_insert _ (cache_ops small_sb) small_sb None 1 [98; 0] 7 dir_tree =
      Ok (32, st_at dir_tree 1 dir_inode c' e') ∧
    entries V' e' = [dirent_of 1 [46]; dirent_of 5 [97]; dirent_of 7 [98]] ∧
    ∃ c'', @inode_lookup _ (cache_ops small_sb) small_sb 1 [98; 0] (st_at dir_tree 1 dir_inode c' e') =
      Ok ((7, Some 32), st_at dir_tree 1 dir_inode c'' e').
Proof.
  pose proof (@inode_insert_correct _ (cache_ops small_sb) (cache_laws small_sb) small_sb dir_tree 1
    dir_inode None ltac:(reflexivity) ltac:(reflexivity) one_ib dir_V {[66; 80]} [98; 0] 7
    dir_dir_ready ltac:(by_decision) ltac:(by_decision) ltac:(vm_compute; lia) ltac:(done)) as H.
  cbv zeta in H. change (entry dir_inode) with dir_entry in H. rewrite dir_entries in H.
  destruct (H ltac:(done)) as (V' & c' & e' & E & _ & _ & _ & _ & Hent & c'' & E2).
  exists V', c', e'. split; [exact E|]. split; [exact Hent|]. exists c''. exact E2.
Defined.

Lemma inode_remove_correct_witness :
  ∃ V' c' e', @inode_remove _ (cache_ops small_sb) small_sb None 1 16 dir_tree =
      Ok (tt, st_at dir_tree 1 dir_inode c' e') ∧
    entries V' e' = [dirent_of 1 [46]; mkDirEntry 0 (Layout.name (dirent_of 5 [97]))].
Proof.
  destruct (@inode_remove_correct _ (cache_ops small_sb) (cache_laws small_sb) small_sb dir_tree 1
    dir_inode None ltac:(reflexivity) ltac:(reflexivity) one_ib dir_V {[66; 80]} 1 (dirent_of 5 [97])
    dir_dir_ready ltac:(change (entry dir_inode) with dir_entry; rewrite dir_entries; reflexivity)
    ltac:(done)) as (V' & c' & e' & E & _ & _ & _ & _ & Hent).
  exists V', c', e'. split; [exact E|]. rewrite Hent.
  change (entry dir_inode) with dir_entry. by rewrite dir_entries.
Defined.
