(* ===== verification/InodePath.v ===== *)
(** * Paths

    [skipelem] cuts a path at its slashes: taking elements off until none is left gives
    the non-empty pieces between slashes, in order, each cut to 14 characters. *)

From Stdlib Require Import ZArith Lia.
From S2P Require Import Prelude Words Sync Layout CacheSpec BlockCache Console Inode InodeSpec InodeWrite InodeDir.

(** the pieces of a path between slashes *)
Fixpoint split_slash (path : list Z) : list (list Z) :=
  match path with
  | [] => [[]]
  | c :: p =>
      if c =? SLASH then [] :: split_slash p
      else match split_slash p with
           | x :: l => (c :: x) :: l
           | [] => [[c]]
           end
  end.
Definition elements (path : list Z) : list (list Z) := filter (λ x, x ≠ []) (split_slash path).

(** the elements [namex] sees: it calls [skipelem] until it returns 0 *)
Fixpoint skip_all (fuel : nat) (path name : list Z) : option (list (list Z)) :=
  match fuel with
  | O => None
  | S fuel =>
      match skipelem path name with
      | None => Some []
      | Some (path, name) => l ← skip_all fuel path name; Some (name :: l)
      end
  end.

Lemma split_slash_ne p : split_slash p ≠ [].
Proof. destruct p as [|c p]; simpl; [done|]. repeat case_match; done. Qed.

Lemma elements_slash p : elements (SLASH :: p) = elements p.
Proof. done. Qed.

Lemma elements_drop p : elements (drop_slashes p) = elements p.
Proof.
  induction p as [|c p IH]; [done|]. simpl. destruct (Z.eqb_spec c SLASH) as [->|]; [|done].
  by rewrite elements_slash.
Qed.

Lemma drop_slashes_head p c q : drop_slashes p = c :: q → c ≠ SLASH.
Proof.
  induction p as [|x p IH]; simpl; [done|]. destruct (Z.eqb_spec x SLASH); [done|]. by intros [= -> _].
Qed.

Lemma drop_slashes_length p : (length (drop_slashes p) ≤ length p)%nat.
Proof. induction p as [|c p IH]; simpl; [done|]. destruct (c =? SLASH); simpl; lia. Qed.

Lemma take_elem_spec p s q :
  take_elem p = (s, q) → p = s ++ q ∧ hd [] (split_slash p) = s ∧
    tl (split_slash p) = (match q with [] => [] | _ :: q' => split_slash q' end) ∧
    (∀ c q', q = c :: q' → c = SLASH).
Proof.
  revert s; induction p as [|c p IH]; intros s; simpl; [by intros [= <- <-]|].
  destruct (Z.eqb_spec c SLASH) as [->|Hc].
  - intros [= <- <-]. split_and!; try done. by intros ? ? [= <- _].
  - destruct (take_elem p) as [a b] eqn:E. intros [= <- <-].
    destruct (IH a eq_refl) as (-> & Hh & Ht & Hq). pose proof (split_slash_ne (a ++ b)) as Hne.
    destruct (split_slash (a ++ b)) as [|x l]; [done|]. simpl in *. by subst.
Qed.

Lemma elements_elem p s q :
  take_elem p = (s, q) → s ≠ [] → elements p = s :: elements q.
Proof.
  intros E Hs. destruct (take_elem_spec p s q E) as (_ & Hh & Ht & Hq). unfold elements.
  pose proof (split_slash_ne p) as Hne. destruct (split_slash p) as [|x l]; [done|].
  simpl in Hh, Ht. subst x l. rewrite filter_cons_True by done. f_equal.
  destruct q as [|c q']; [done|]. by rewrite (Hq c q' eq_refl).
Qed.

Lemma drop_slashes_forall (P : Z → Prop) p : Forall P p → Forall P (drop_slashes p).
Proof. induction 1 as [|c p Hc Hp IH]; simpl; [constructor|]. destruct (c =? SLASH); by auto. Qed.

Lemma cname_cut x name :
  length name = 14%nat → Forall (λ c, c ≠ 0) x →
  let name' := if FILE_NAME_MAX_LENGTH <=? Z.of_nat (length x) then take 14 x
               else splice 0 (x ++ [0]) name in
  length name' = 14%nat ∧ cname name' = take 14 x ∧ (terminated name' ↔ (length x < 14)%nat).
Proof.
  intros Hl Hx. change FILE_NAME_MAX_LENGTH with 14. cbv zeta.
  assert (∀ l, Forall (λ c, c ≠ 0) l → cname l = l ∧ str_len l = None) as Hnz.
  { induction 1 as [|c l Hc Hf [IH1 IH2]]; [done|]. simpl. destruct (Z.eqb_spec c 0); [done|].
    by rewrite IH1, IH2. }
  destruct (Z.leb_spec 14 (Z.of_nat (length x))).
  - destruct (Hnz (take 14 x)) as [H1 H2]; [by apply Forall_take|].
    split_and!; [rewrite length_take; lia|done|]. unfold terminated. rewrite H2.
    split; [by intros [? ?]|lia].
  - rewrite length_splice by (rewrite length_app; simpl; lia).
    rewrite take_ge by lia. unfold splice. rewrite take_0, app_nil_l, <-app_assoc.
    set (r := drop _ name). clearbody r. split; [done|]. clear -Hx H.
    assert (cname (x ++ [0] ++ r) = x ∧ terminated (x ++ [0] ++ r)) as [H1 H2]; [|by split; [|split; [lia|]]].
    induction Hx as [|c l Hc Hf IH]; [split; [done|by exists O]|]. simpl in H.
    destruct IH as [IH1 [n IH2]]; [lia|]. unfold terminated. simpl in *.
    destruct (Z.eqb_spec c 0); [done|]. rewrite IH1, IH2. split; [done|by eexists].
Qed.

Lemma skipelem_spec path name :
  length name = 14%nat → Forall (λ c, c ≠ 0) path →
  match elements path with
  | [] => skipelem path name = None
  | x :: l => ∃ rest name', skipelem path name = Some (rest, name') ∧ elements rest = l ∧
      (∀ c q, rest = c :: q → c ≠ SLASH) ∧ length name' = 14%nat ∧
      cname name' = take 14 x ∧ (terminated name' ↔ (length x < 14)%nat) ∧
      (length rest < length path)%nat ∧ Forall (λ c, c ≠ 0) rest
  end.
Proof.
  intros Hl Hp. rewrite <-elements_drop. unfold skipelem.
  pose proof (drop_slashes_length path) as Hdl. pose proof (drop_slashes_forall _ _ Hp) as Hf.
  destruct (drop_slashes path) as [|c p] eqn:Ed; [done|].
  pose proof (drop_slashes_head _ _ _ Ed) as Hc.
  destruct (take_elem (c :: p)) as [x q] eqn:Et.
  assert (x ≠ []) as Hx.
  { simpl in Et. rewrite (proj2 (Z.eqb_neq _ _) Hc) in Et. destruct (take_elem p). by injection Et as <- _. }
  destruct (take_elem_spec _ _ _ Et) as (Epq & _ & _ & _).
  rewrite (elements_elem _ _ _ Et Hx). rewrite Epq in Hf, Hdl. apply Forall_app in Hf as [Hf1 Hf2].
  destruct (cname_cut x name Hl Hf1) as (H1 & H2 & H3).
  eexists _, _. split; [reflexivity|]. split_and!; try done.
  - apply elements_drop.
  - apply drop_slashes_head.
  - pose proof (drop_slashes_length q). rewrite length_app in Hdl. destruct x; [done|]. simpl in Hdl. lia.
  - by apply drop_slashes_forall.
Qed.

(** [skipelem] fails exactly on paths without an element.  Otherwise it takes off the first
    element and leaves a path with the other elements and no leading slash; the element is
    found in [name], as a string when it is shorter than 14 characters and without its NUL
    when it is cut to 14.  Called again and again it runs through all elements and stops. *)
Theorem skipelem_elements path name :
  length name = 14%nat → Forall (λ c, c ≠ 0) path →
  match elements path with
  | [] => skipelem path name = None
  | x :: l => ∃ rest name', skipelem path name = Some (rest, name') ∧ elements rest = l ∧
      (∀ c q, rest = c :: q → c ≠ SLASH) ∧ length name' = 14%nat ∧
      cname name' = take 14 x ∧ (terminated name' ↔ (length x < 14)%nat) ∧
      (length rest < length path)%nat
  end ∧
  ∃ names, skip_all (S (length path)) path name = Some names ∧
    map cname names = map (take 14) (elements path).
Proof.
  intros Hl Hp. split.
  - pose proof (skipelem_spec path name Hl Hp) as H. destruct (elements path); [done|].
    destruct H as (rest & name' & ? & ? & ? & ? & ? & ? & ? & _). by exists rest, name'.
  - cut (∀ n, (length path < n)%nat → ∃ names, skip_all n path name = Some names ∧
      map cname names = map (take 14) (elements path)).
    { intros H. apply H. lia. }
    intros n. revert path name Hl Hp. induction n as [|n IH]; intros path name Hl Hp Hn; [lia|].
    pose proof (skipelem_spec path name Hl Hp) as H. cbn [skip_all].
    destruct (elements path) as [|x l]; [rewrite H; by exists []|].
    destruct H as (rest & name' & -> & <- & _ & Hl' & Hc & _ & Hlt & Hf).
    destruct (IH rest name' Hl' Hf) as (names & -> & E); [lia|].
    exists (name' :: names). split; [done|]. simpl. by rewrite Hc, E.
Qed.

Lemma skipelem_elements_witness :
  elements [47; 97; 47; 47; 98] = [[97]; [98]] ∧
  ∃ names, skip_all 6 [47; 97; 47; 47; 98] (replicate 14 0) = Some names ∧
    map cname names = [[97]; [98]].
Proof.
  split; [reflexivity|].
  exact (proj2 (skipelem_elements [47; 97; 47; 47; 98] (replicate 14 0) eq_refl ltac:(by_decision))).
Defined.
