(* ===== verification/File.v ===== *)
(** * [fs/file.c], and [pipeAlloc] and [pipeClose] of [fs/pipe.c]: open files

    The global table of open files with its reference counts, the pipes in memory, and below
    them the inode layer with the block cache and its log.  A [File*] is 0 (the null pointer)
    or one more than the index in [ftable.filelist].  [ctx_addr] is the address of the
    [OpContext] on the stack of the caller; [kalloc n live] is the address the [n]-th
    allocation of a [Pipe] gives when those of [live] are in use (0 when there is no memory),
    and [junk a] the 512 bytes the memory at [a] happens to hold. *)

From Stdlib Require Import ZArith Lia.
From S2P Require Import Prelude Words Sync Layout Cache CacheSpec BlockCache Console Pipe Inode.

Definition NFILE : Z := 65536.
Definition NOFILE : Z := 16.

Inductive filetype := FD_NONE | FD_PIPE | FD_INODE.
#[export] Instance filetype_eq_dec : EqDecision filetype.
Proof. solve_decision. Defined.

Record File := mkFile {
  ftype : filetype;
  ref : Z;
  readable : bool;
  writable : bool;
  fpipe : Z;
  fip : Z;
  off : Z }.

Definition set_ftype (v : filetype) (f : File) : File :=
  mkFile v (ref f) (readable f) (writable f) (fpipe f) (fip f) (off f).
Definition set_ref (v : Z) (f : File) : File :=
  mkFile (ftype f) v (readable f) (writable f) (fpipe f) (fip f) (off f).
Definition set_off (v : Z) (f : File) : File :=
  mkFile (ftype f) (ref f) (readable f) (writable f) (fpipe f) (fip f) v.

(** a [File] of the [.bss] section *)
Definition zero_file : File := mkFile FD_NONE 0 false false 0 0 0.

(** [struct oftable]: the pointers of a process to its open files *)
Definition oftable := list Z.
Definition init_oftable : oftable := replicate (Z.to_nat NOFILE) 0.

Record fstate {C : Type} := mkFs {
  ftlock : bool;
  filelist : list File;
  pipes : gmap Z Pipe;
  npipes : nat;
  fs : itree C }.
Arguments fstate C : clear implicits.
Arguments mkFs {C} _ _ _ _ _.

Section file.
Context {C : Type} `{BlockCache C} `{BlockLog C} (sblock : SuperBlock).
Context (ctx_addr : Z) (kalloc : nat → gset Z → Z) (junk : Z → list Z).
Notation st := (fstate C).

Definition upd_ftlock (f : bool → bool) (s : st) : st :=
  mkFs (f (ftlock s)) (filelist s) (pipes s) (npipes s) (fs s).
Definition upd_filelist (f : list File → list File) (s : st) : st :=
  mkFs (ftlock s) (f (filelist s)) (pipes s) (npipes s) (fs s).
Definition upd_pipes (f : gmap Z Pipe → gmap Z Pipe) (s : st) : st :=
  mkFs (ftlock s) (filelist s) (f (pipes s)) (npipes s) (fs s).
Definition upd_npipes (f : nat → nat) (s : st) : st :=
  mkFs (ftlock s) (filelist s) (pipes s) (f (npipes s)) (fs s).
Definition upd_fs (f : itree C → itree C) (s : st) : st :=
  mkFs (ftlock s) (filelist s) (pipes s) (npipes s) (f (fs s)).

Definition ftable_lock : SpinLock st := mkSpinLock ftlock (λ b, upd_ftlock (λ _, b)).

(** code of the inode layer, of the block cache's log, and of the pipe at [p] *)
Definition on_fs {A} (m : M (itree C) A) : M st A := on fs (λ i, upd_fs (λ _, i)) m.
Definition begin_op : M st unit := on_fs (lift (bl_begin ctx_addr)).
Definition end_op : M st unit := on_fs (lift (bl_end ctx_addr)).
Definition on_pipe {A} (p : Z) (m : M Pipe A) : M st A :=
  x ← getopt (λ s, pipes s !! p);
  on (λ _, x) (λ x, upd_pipes <[p := x]>) m.

(** a [File*] dereferenced *)
Definition file (f : Z) : M st File :=
  getopt (λ s, if f =? 0 then None else filelist s !! Z.to_nat (f - 1)).
Definition set_file (f : Z) (g : File → File) : M st unit :=
  x ← file f; modify (upd_filelist <[Z.to_nat (f - 1) := g x]>).

(** ** Opening and closing *)

Definition init_ftable : M st unit := init_spinlock ftable_lock.

(** the loop of [filealloc] from index [i] on *)
Fixpoint alloc_loop (n : nat) (i : Z) : M st Z :=
  match n with
  | O => release_spinlock ftable_lock;; mret 0
  | S n =>
      x ← file (i + 1);
      if ref x =? 0 then
        set_file (i + 1) (set_ref 1);;
        release_spinlock ftable_lock;;
        mret (i + 1)
      else alloc_loop n (i + 1)
  end.
Definition filealloc : M st Z :=
  acquire_spinlock ftable_lock;; alloc_loop (Z.to_nat NFILE) 0.

Definition filedup (f : Z) : M st Z :=
  acquire_spinlock ftable_lock;;
  x ← file f;
  assert (1 <=? ref x);;
  set_file f (λ x, set_ref (i32 (ref x + 1)) x);;
  release_spinlock ftable_lock;;
  mret f.

Definition pipeClose (p : Z) (writable : bool) : M st unit :=
  free ← on_pipe p (pipe_close writable);
  when free (modify (upd_pipes (delete p))).

Definition fileclose (f : Z) : M st unit :=
  acquire_spinlock ftable_lock;;
  x ← file f;
  assert (1 <=? ref x);;
  set_file f (λ x, set_ref (i32 (ref x - 1)) x);;
  now ← file f;
  if 0 <? ref now then release_spinlock ftable_lock
  else
    set_file f (set_ftype FD_NONE);;
    release_spinlock ftable_lock;;
    match ftype now with
    | FD_PIPE => pipeClose (fpipe now) (writable now)
    | FD_INODE =>
        begin_op;;
        on_fs (inode_put sblock (Some ctx_addr) (fip now));;
        end_op
    | FD_NONE => mret tt
    end.

(** [kalloc(sizeof(Pipe))] *)
Definition alloc_pipe : M st Z :=
  s ← gets id;
  modify (upd_npipes S);;
  mret (kalloc (npipes s) (dom (pipes s))).

(** the end of [pipeAlloc] at the label [bad] *)
Definition alloc_bad (f0 f1 p : Z) : M st (Z * Z * Z) :=
  when (negb (p =? 0)) (modify (upd_pipes (delete p)));;
  when (negb (f0 =? 0)) (fileclose f0);;
  when (negb (f1 =? 0)) (fileclose f1);;
  mret (f0, f1, -1).

(** the pointers stored at [f0] and [f1], and the result *)
Definition pipeAlloc : M st (Z * Z * Z) :=
  f0 ← filealloc;
  if f0 =? 0 then alloc_bad 0 0 0
  else
    f1 ← filealloc;
    if f1 =? 0 then alloc_bad f0 0 0
    else
      p ← alloc_pipe;
      if p =? 0 then alloc_bad f0 f1 0
      else
        modify (upd_pipes <[p := new_pipe (junk p)]>);;
        set_file f0 (λ x, mkFile FD_PIPE (ref x) true false p (fip x) (off x));;
        set_file f1 (λ x, mkFile FD_PIPE (ref x) false true p (fip x) (off x));;
        mret (f0, f1, 0).

(** ** Reading and writing *)

(** what is stored at [st], and the result *)
Definition filestat (f : Z) : M st (option stat * Z) :=
  x ← file f;
  match ftype x with
  | FD_INODE =>
      on_fs (inode_lock (fip x));;
      v ← on_fs (stati (fip x));
      on_fs (inode_unlock (fip x));;
      mret (Some v, 0)
  | _ => mret (None, -1)
  end.

(** the bytes stored at [addr], and the result *)
Definition fileread (f n : Z) : M st (list Z * Z) :=
  x ← file f;
  if negb (readable x) then mret ([], -1)
  else
    match ftype x with
    | FD_PIPE =>
        s ← gets id;
        on_pipe (fpipe x) (pipeRead (killed (fs s)) (i32 n))
    | FD_INODE =>
        on_fs (inode_lock (fip x));;
        '(l, ans) ← on_fs (inode_read sblock (fip x) (off x) (u64 n));
        let ans := i64 ans in
        when (0 <? ans) (set_file f (λ x, set_off (u64 (off x + ans)) x));;
        on_fs (inode_unlock (fip x));;
        mret (l, ans)
    | FD_NONE => panic
    end.

Definition maxbytes : Z := (OP_MAX_NUM_BLOCKS - 4) / 2 * BLOCK_SIZE.

(** one round of the loop of [filewrite]: the [len] bytes [src] in an operation of their own *)
Definition write_op (f : Z) (src : list Z) (len : Z) : M st Z :=
  begin_op;;
  x ← file f;
  on_fs (inode_lock (fip x));;
  x ← file f;
  r ← on_fs (inode_write sblock (Some ctx_addr) (fip x) src (off x) (u64 len));
  let reallen := i64 r in
  when (0 <? reallen) (set_file f (λ x, set_off (u64 (off x + reallen)) x));;
  x ← file f;
  on_fs (inode_unlock (fip x));;
  end_op;;
  mret reallen.

(** the loop of [filewrite] from [idx] on: where it ends.  [l] are the [n] bytes at [addr]. *)
Fixpoint write_loop (fuel : nat) (f : Z) (l : list Z) (n idx : Z) : M st Z :=
  match fuel with
  | O => nofuel
  | S fuel =>
      if idx <? n then
        let len := MIN (n - idx) maxbytes in
        reallen ← write_op f (sub (Z.to_nat idx) (Z.to_nat len) l) len;
        if reallen <? 0 then mret idx
        else
          assert (reallen =? len);;
          write_loop fuel f l n (idx + reallen)
      else mret idx
  end.

(** every round of the loop goes [maxbytes] further, or to the end *)
Definition filewrite (f : Z) (l : list Z) (n : Z) : M st Z :=
  x ← file f;
  if negb (writable x) then mret (-1)
  else
    match ftype x with
    | FD_PIPE =>
        s ← gets id;
        on_pipe (fpipe x) (pipeWrite (killed (fs s)) (take (Z.to_nat (i32 n)) l))
    | FD_INODE =>
        idx ← write_loop (S (S (Z.to_nat (n / maxbytes)))) f l n 0;
        if idx =? n then mret n else mret (-1)
    | FD_NONE => mret 0
    end.
End file.
