(* ===== verification/FileSpec.v ===== *)
(** * Writing open files

    [filewrite] cuts what it writes into pieces that fit one operation of the log.  Against
    the laws of the block cache and its log, whatever implements them, the pieces together
    are one write, and what they wrote is on disk when it returns. *)

From Stdlib Require Import ZArith Lia.
From S2P Require Import Prelude Words Sync Layout Cache CacheSpec CacheLog BlockCache CacheAlloc CacheOps.
From S2P Require Import Console Pipe Inode InodeSpec InodeWrite File.

Section filespec.
Context {C : Type} `{BlockLogLaws C} (sblock : SuperBlock).
Context (ctx_addr : Z).
Implicit Types (V : Z → list Z) (e : InodeEntry) (c : C).

(** ** Locking an inode *)

Lemma inode_lock_run a i (s : itree C) :
  imem s !! a = Some i → 0 < rc i → lock i = mkSem 1 [] →
  inode_lock a s = Ok (tt, upd_imem <[a := set_ilock (mkSem 0 []) i]> s).
Proof.
  intros Ei Hr El. unfold inode_lock, sem_wait. rewrite (bind_Ok _ _ _ _ _ (ip_run _ _ _ Ei)).
  erewrite bind_Ok by (apply assert_run, Z.ltb_lt; done).
  rewrite (bind_Ok _ _ _ _ _ (ip_run _ _ _ Ei)), El.
  rewrite (bind_Ok _ _ _ _ _ (run_wait_free 1 s ltac:(lia))). cbv beta iota.
  by rewrite (bind_Ok _ _ _ _ _ (set_ip_run _ _ _ _ Ei)).
Qed.

Lemma inode_unlock_run a i (s : itree C) :
  imem s !! a = Some i → 0 < rc i → lock i = mkSem 0 [] →
  inode_unlock a s = Ok (tt, upd_imem <[a := set_ilock (mkSem 1 []) i]> s).
Proof.
  intros Ei Hr El. unfold inode_unlock, sem_post. rewrite (bind_Ok _ _ _ _ _ (ip_run _ _ _ Ei)).
  erewrite bind_Ok by (apply assert_run, Z.ltb_lt; done).
  rewrite (bind_Ok _ _ _ _ _ (ip_run _ _ _ Ei)), El.
  rewrite (bind_Ok _ _ _ _ _ (run_post 0 s ltac:(lia))). cbv beta iota.
  by rewrite (set_ip_run _ _ _ _ Ei).
Qed.

(** ** An open file *)

Section write.
Context (s0 : fstate C) (f : Z) (x0 : File) (a : Z) (i0 : Inode).
Hypothesis Hf : f ≠ 0.
Hypothesis Hx : filelist s0 !! Z.to_nat (f - 1) = Some x0.
Hypothesis Hfip : fip x0 = a.
Hypothesis Hi : imem (fs s0) !! a = Some i0.
Hypothesis Hvalid : valid i0 = true.
Hypothesis Hrc : 0 < rc i0.
Hypothesis Hlock : lock i0 = mkSem 1 [].
Hypothesis Htype : Layout.type (entry i0) ≠ INODE_DEVICE.
Local Notation ino := (inode_no_ i0).
Local Notation ib := (to_block_no sblock ino).
Hypothesis Hib : bc_block ib ∧ ¬ bc_bitmap ib.
Context (B : gset Z).
Hypothesis HB : ∀ b, bc_bitmap b → b ∈ B.
Hypothesis HBsize : (size B ≤ 4)%nat.

(** the states on the way: the inode (locked or not), the cache, its entry and the offset *)
Definition at_ (i : Inode) (c : C) (e : InodeEntry) (o : Z) : fstate C :=
  upd_filelist <[Z.to_nat (f - 1) := set_off o x0]>
    (upd_fs (λ t, st_at t a i c e) s0).

Lemma file_at i c e o : file f (at_ i c e o) = Ok (set_off o x0, at_ i c e o).
Proof.
  unfold file. apply (getopt_run (λ s, if f =? 0 then None else filelist s !! Z.to_nat (f - 1))).
  rewrite (proj2 (Z.eqb_neq _ _) Hf). simpl. apply list_lookup_insert_eq.
  by eapply lookup_lt_Some.
Qed.

Lemma set_off_at i c e o o' :
  set_file f (set_off o') (at_ i c e o) = Ok (tt, at_ i c e o').
Proof.
  unfold set_file. rewrite (bind_Ok _ _ _ _ _ (file_at i c e o)), modify_run.
  unfold at_, upd_filelist. simpl. by rewrite list_insert_insert_eq.
Qed.

Lemma on_fs_at {A} (m : M (itree C) A) i c e i' c' e' o v :
  m (st_at (fs s0) a i c e) = Ok (v, st_at (fs s0) a i' c' e') →
  on_fs m (at_ i c e o) = Ok (v, at_ i' c' e' o).
Proof. intros E. exact (on_run fs (λ i, upd_fs (λ _, i)) m (at_ i c e o) v _ E). Qed.

Lemma st_at_twice i i' c c' e e' :
  set_entry e' i = set_entry e' i' → st_at (st_at (fs s0) a i c e) a i' c' e' = st_at (fs s0) a i c' e'.
Proof.
  intros E. unfold st_at, with_cache, upd_imem, upd_cst. simpl. by rewrite insert_insert_eq, E.
Qed.

Notation locked_i := (set_ilock (mkSem 0 []) i0).

Lemma lock_at c e : inode_lock a (st_at (fs s0) a i0 c e) = Ok (tt, st_at (fs s0) a locked_i c e).
Proof.
  erewrite inode_lock_run; [|apply lookup_insert_eq|done|done].
  unfold st_at, with_cache, upd_imem, upd_cst. simpl. by rewrite insert_insert_eq.
Qed.

Lemma unlock_at c e : inode_unlock a (st_at (fs s0) a locked_i c e) = Ok (tt, st_at (fs s0) a i0 c e).
Proof.
  erewrite inode_unlock_run; [|apply lookup_insert_eq|done|done].
  unfold st_at, with_cache, upd_imem, upd_cst. simpl. rewrite insert_insert_eq. do 4 f_equal.
  unfold set_entry. simpl. by rewrite Hlock.
Qed.

(** ** One operation *)

(** the file between two operations *)
Record at_rest V c e : Prop := {
  ar_core : core sblock i0 V c e;
  ar_covered : covered V e;
  ar_synced : get_entry (V ib) ino = e;
  ar_idle : bl_idle c }.

(** what a write leaves alone: the blocks of other files and the other inodes *)
Record elsewhere V e V' e' : Prop := {
  el_other : ∀ b, bc_block b → other sblock i0 V e b → V' b = V b ∧ other sblock i0 V' e' b;
  el_inodes : ∀ n, n mod 8 ≠ ino mod 8 → get_entry (V' ib) n = get_entry (V ib) n }.

Definition durable V c : Prop := ∀ b, bc_block b → bl_disk c b = V b.

(** the file after [src] is written at [o] *)
Definition written V e V' e' (src : list Z) (o : Z) : Prop :=
  let end_ := o + Z.of_nat (length src) in
  meta e' = meta (set_num_bytes (Z.max (num_bytes e) end_) e) ∧
  ∀ k, 0 ≤ k < num_bytes e' → file_byte V' e' k =
    if (o <=? k) && (k <? end_) then nth (Z.to_nat (k - o)) src 0 else file_byte V e k.

Lemma elsewhere_trans V1 e1 V2 e2 V3 e3 :
  elsewhere V1 e1 V2 e2 → elsewhere V2 e2 V3 e3 → elsewhere V1 e1 V3 e3.
Proof.
  intros [A1 A2] [B1 B2]. split.
  - intros b Hb Ho. destruct (A1 b Hb Ho) as [E Ho']. destruct (B1 b Hb Ho') as [E' ?].
    split; [congruence|done].
  - intros n Hn. by rewrite B2, A2.
Qed.

Lemma meta_num_bytes e e' : meta e' = meta e → num_bytes e' = num_bytes e.
Proof. unfold meta. by intros [= _ _ _ _ ->]. Qed.

Lemma written_app V e V1 e1 V2 e2 src1 src2 o :
  0 ≤ o ≤ num_bytes e → written V e V1 e1 src1 o →
  written V1 e1 V2 e2 src2 (o + Z.of_nat (length src1)) → written V e V2 e2 (src1 ++ src2) o.
Proof.
  intros Ho [M1 F1] [M2 F2]. pose proof (meta_num_bytes _ _ M1) as N1.
  pose proof (meta_num_bytes _ _ M2) as N2. simpl in N1, N2.
  split.
  - rewrite length_app. unfold meta in *. simpl in *. rewrite M2. injection M1 as -> -> -> -> ->.
    f_equal. lia.
  - intros k Hk. rewrite length_app, F2 by done.
    destruct (Z.leb_spec (o + Z.of_nat (length src1)) k) as [Hge|Hlt]; simpl.
    + rewrite (proj2 (Z.leb_le o k)) by lia. simpl.
      replace (o + Z.of_nat (length src1 + length src2)) with
        (o + Z.of_nat (length src1) + Z.of_nat (length src2)) by lia.
      destruct (Z.ltb_spec k (o + Z.of_nat (length src1) + Z.of_nat (length src2))) as [Hin|Hout].
      * rewrite app_nth2 by lia. f_equal. lia.
      * rewrite F1 by lia. rewrite (proj2 (Z.ltb_ge k (o + Z.of_nat (length src1)))) by lia.
        by rewrite andb_false_r.
    + rewrite F1 by lia. destruct (Z.leb_spec o k) as [Hok|Hok]; simpl; [|done].
      rewrite (proj2 (Z.ltb_lt _ _)), (proj2 (Z.ltb_lt _ _)) by lia.
      by rewrite app_nth1 by lia.
Qed.

(** the end of an operation rewrites no block the file layer sees *)
Lemma rest_ext V c e V' c' :
  core sblock i0 V c e → covered V e → get_entry (V ib) ino = e →
  bc_rep V' ∅ c' → (∀ b, bc_block b → V' b = V b) →
  core sblock i0 V' c' e ∧ covered V' e ∧ get_entry (V' ib) ino = e ∧ elsewhere V e V' e ∧
  (∀ k, 0 ≤ k < num_bytes e → file_byte V' e k = file_byte V e k) ∧
  (∀ n, has_free V n → has_free V' n).
Proof.
  intros Hc [Hnb Hm] Hsy R' HV. pose proof Hc as [R Hwf Ho Hfi].
  assert (∀ b, bc_bitmap b → V' b = V b) as Hbm by (intros; apply HV; by eapply bl_bitmap_block).
  assert (indirect e ≠ 0 → V' (indirect e) = V (indirect e)) as Hind.
  { intros Hn. by apply HV, (core_indirect sblock i0 V c e Hc Hn). }
  pose proof (slots_ext V V' e Hind) as Hs.
  assert (∀ k, block_of V' e k = block_of V e k) as Hbk by (intros; by apply block_of_ext).
  assert (∀ k, 0 ≤ k < num_bytes e → bc_block (block_of V e (k / 512))) as Hblk.
  { intros k Hk. apply (mp_blocks _ _ _ Hm). zmod. }
  split_and!.
  - split; [done|done|rewrite Hs; by apply (own_ext sblock i0 _ V)|by rewrite (bc_isfree_ext V V' ib Hbm)].
  - split; [done|]. destruct Hm as [M1 M2 M3 M4]. split; [done|done|intros; rewrite Hbk; auto|done].
  - rewrite HV; [done|]. apply Hib.
  - split; [|intros; by rewrite HV by apply Hib].
    intros b Hb (? & ? & ? & ?). split; [by apply HV|]. split_and!; [done|done| |by rewrite Hs].
    by rewrite (bc_isfree_ext V V' b Hbm).
  - intros k Hk. unfold file_byte. change BLOCK_SIZE with 512. rewrite Hbk, HV; [done|auto].
  - intros n. by apply has_free_ext.
Qed.

(** the blocks a piece of at most [maxbytes] bytes touches *)
Lemma touched_piece o n : 0 ≤ o → 0 < n ≤ 1536 → (touched o (o + n) ≤ 4)%nat.
Proof. intros. unfold touched. case_match; zmod. Qed.

Lemma begin_room V c :
  at_rest V c (entry i0) ∨ bc_rep V ∅ c ∧ bl_idle c →
  ∃ c', bl_begin ctx_addr c = Ok (tt, c') ∧ bc_rep V ∅ c' ∧
    bc_room c' (Some ctx_addr) ({[ib]} ∪ B) 5.
Proof.
  intros Hor. assert (bc_rep V ∅ c ∧ bl_idle c) as [R Hid].
  { destruct Hor as [[[R _ _ _] _ _ ?]|?]; done. }
  destruct (bl_begin_ok V c ctx_addr R Hid) as (c' & E & R' & Hr).
  exists c'. split_and!; [done|done|]. apply Hr. unfold bl_room.
  pose proof (size_union_alt {[ib]} B) as Hs. rewrite size_singleton in Hs.
  assert (size (B ∖ {[ib]}) ≤ size B)%nat by (apply subseteq_size; set_solver). lia.
Qed.

(** what is said of an inode's file depends on its number only *)
Lemma core_inode i i' V c e :
  inode_no_ i' = inode_no_ i → core sblock i V c e → core sblock i' V c e.
Proof.
  intros E [A1 A2 [A3 A4] A5]. split; [done|done| |by rewrite E]. split; [|done].
  intros j x Hj Hn. destruct (A3 j x Hj Hn) as (? & ? & ? & ?). split_and!; try done. by rewrite E.
Qed.

(** One round of the loop of [filewrite]: from one state at rest to the next. *)
Lemma write_op_run V c e src o spare :
  at_rest V c e → Layout.type e ≠ INODE_DEVICE → bytes src → (0 < length src)%nat →
  Z.of_nat (length src) ≤ 1536 → 0 ≤ o ≤ num_bytes e → o + Z.of_nat (length src) ≤ INODE_MAX_BYTES →
  has_free V (4 + (spare + if indirect e =? 0 then 1 else 0)) →
  let len := Z.of_nat (length src) in
  ∃ V' c' e', write_op sblock ctx_addr f src len (at_ i0 c e o) = Ok (len, at_ i0 c' e' (o + len)) ∧
    at_rest V' c' e' ∧ elsewhere V e V' e' ∧ written V e V' e' src o ∧ durable V' c' ∧
    has_free V' (spare + if indirect e' =? 0 then 1 else 0).
Proof.
  intros Hr Ht Hsrc Hpos Hmax Ho Hend Hfree len. change INODE_MAX_BYTES with 71680 in Hend.
  destruct Hr as [Hc Hcov Hsy Hid]. pose proof Hc as [R Hwf Hown Hfi].
  destruct (begin_room V c ltac:(by right)) as (c1 & E1 & R1 & Hroom).
  unfold write_op, begin_op.
  erewrite bind_Ok by (apply (on_fs_at _ i0 c e i0 c1 e); exact (lift_run _ (st_at _ _ _ _ _) _ _ E1)).
  erewrite bind_Ok by apply file_at. cbn [fip set_off]. rewrite Hfip.
  erewrite bind_Ok by (apply on_fs_at, lock_at).
  erewrite bind_Ok by apply file_at. cbn [fip set_off off]. rewrite Hfip.
  assert (core sblock i0 V c1 e) as Hc1 by by split.
  destruct (inode_write_run sblock (st_at (fs s0) a locked_i c1 e) a (set_entry e locked_i) (Some ctx_addr)
    ltac:(apply lookup_insert_eq) Hvalid Hib spare V ({[ib]} ∪ B) 4 src o)
    as (V2 & c2 & e2 & E2 & Hc2 & Hfr2 & Hcov2 & Hme2 & Hsy2 & (X2 & k2 & Hr2) & Hf2 & Hb2).
  all: cbn [entry set_entry] in *; try fold len; try done.
  { by apply (core_inode i0). }
  { split; [set_solver|set_solver| |done]. apply (bc_room_le c1 _ ({[ib]} ∪ B) _ 5); [exact Hroom|done|].
    unfold extra. case_bool_decide; lia. }
  { change (2 ^ 32) with 4294967296. lia. }
  { change (2 ^ 32) with 4294967296. lia. }
  { apply touched_piece; lia. }
  { lia. }
  apply (core_inode _ i0) in Hc2; [|done].
  fold len in E2, Hme2, Hb2.
  rewrite u64_id by (change (2 ^ 64) with 18446744073709551616; lia).
  rewrite (st_at_twice locked_i (set_entry e locked_i) c1 c2 e e2 eq_refl) in E2.
  erewrite bind_Ok by (apply on_fs_at; exact E2). cbv zeta.
  assert (i64 len = len) as -> by (apply i64_id; change (2 ^ 63) with 9223372036854775808; lia).
  rewrite (proj2 (Z.ltb_lt 0 len)) by lia. cbn [when].
  erewrite bind_Ok.
  2: { unfold set_file. rewrite (bind_Ok _ _ _ _ _ (file_at locked_i c2 e2 o)), modify_run.
       cbn [off set_off]. rewrite u64_id by (change (2 ^ 64) with 18446744073709551616; lia).
       reflexivity. }
  replace (upd_filelist _ (at_ locked_i c2 e2 o)) with (at_ locked_i c2 e2 (o + len)).
  2: { unfold at_, upd_filelist. simpl. by rewrite list_insert_insert_eq. }
  erewrite bind_Ok by apply file_at. cbn [fip set_off]. rewrite Hfip.
  erewrite bind_Ok by (apply on_fs_at, unlock_at).
  destruct (bl_end_ok V2 c2 ctx_addr X2 k2 (co_rep _ _ _ _ _ Hc2) Hr2)
    as (c3 & V3 & E3 & R3 & Hid3 & HV3).
  erewrite bind_Ok by (apply (on_fs_at _ i0 c2 e2 i0 c3 e2); exact (lift_run _ (st_at _ _ _ _ _) _ _ E3)).
  rewrite mret_run.
  destruct (rest_ext V2 c2 e2 V3 c3 Hc2 Hcov2 Hsy2 R3) as (Hc3 & Hcov3 & Hsy3 & Hel3 & Hb3 & Hf3);
    [by apply HV3|].
  exists V3, c3, e2. split_and!; [done|by split| | | |by apply Hf3].
  - eapply elsewhere_trans; [|exact Hel3]. destruct Hfr2 as [Hfo Hfn _]. split; [|exact Hfn].
    intros b _. exact (Hfo b).
  - split; [done|]. fold len. intros k Hk. rewrite Hb3 by done. by apply Hb2.
  - intros b Hb. destruct (HV3 b Hb) as [-> ->]. done.
Qed.

(** the free blocks a write of [m] bytes may take: four for each piece, one of them possibly
    shared with the next *)
Definition need (m : Z) : nat := 4 * Z.to_nat ((m + 1535) / 1536).

Lemma need_piece m : 0 < m → need m = (4 + need (m - Z.min m 1536))%nat.
Proof. intros. unfold need. destruct (Z.min_spec m 1536) as [[? ->]|[? ->]]; zmod. Qed.

Lemma written_type V e V' e' src o : written V e V' e' src o → Layout.type e' = Layout.type e.
Proof. intros [Hm _]. unfold meta in Hm. simpl in Hm. by injection Hm. Qed.

Lemma written_nil V e o : 0 ≤ o ≤ num_bytes e → written V e V e [] o.
Proof.
  intros Ho. split.
  - unfold meta. simpl. f_equal. lia.
  - intros k Hk. cbn [length]. rewrite Z.add_0_r.
    destruct (Z.leb_spec o k), (Z.ltb_spec k o); try done. lia.
Qed.

Lemma write_loop_run fuel V c e l o idx spare :
  at_rest V c e → Layout.type e ≠ INODE_DEVICE → bytes l →
  let n := Z.of_nat (length l) in
  0 ≤ idx ≤ n → 0 ≤ o ≤ num_bytes e → o + (n - idx) ≤ INODE_MAX_BYTES →
  has_free V (need (n - idx) + (spare + if indirect e =? 0 then 1 else 0)) →
  (Z.to_nat ((n - idx + 1535) / 1536) < fuel)%nat →
  ∃ V' c' e', write_loop sblock ctx_addr fuel f l n idx (at_ i0 c e o) =
      Ok (n, at_ i0 c' e' (o + (n - idx))) ∧
    at_rest V' c' e' ∧ elsewhere V e V' e' ∧ written V e V' e' (drop (Z.to_nat idx) l) o ∧
    (durable V c ∨ idx < n → durable V' c') ∧
    has_free V' (spare + if indirect e' =? 0 then 1 else 0).
Proof.
  revert V c e o idx. induction fuel as [|fuel IH];
    intros V c e o idx Hr Ht Hl n Hidx Ho Hmax Hfree Hfuel; [lia|].
  cbn [write_loop]. destruct (Z.ltb_spec idx n) as [Hlt|Hge].
  - change maxbytes with 1536. set (len := MIN (n - idx) 1536).
    assert (len = Z.min (n - idx) 1536) as Elen.
    { unfold len, MIN. destruct (Z.leb_spec (n - idx) 1536); lia. }
    set (src := sub (Z.to_nat idx) (Z.to_nat len) l).
    assert (Z.of_nat (length src) = len) as Hsl.
    { unfold src, sub. rewrite length_take, length_drop. lia. }
    change INODE_MAX_BYTES with 71680 in *.
    rewrite need_piece in Hfree by lia. rewrite <-Elen in Hfree.
    destruct (write_op_run V c e src o (need (n - idx - len) + spare) Hr Ht)
      as (V1 & c1 & e1 & E1 & Hr1 & Hel1 & Hw1 & Hd1 & Hf1); rewrite ?Hsl; try lia.
    { by apply bytes_take, bytes_drop. }
    { change INODE_MAX_BYTES with 71680. lia. }
    { eapply has_free_le; [exact Hfree|lia]. }
    rewrite Hsl in E1. rewrite (bind_Ok _ _ _ _ _ E1).
    rewrite (proj2 (Z.ltb_ge len 0)) by lia.
    erewrite bind_Ok by apply assert_run, Z.eqb_refl.
    pose proof (meta_num_bytes _ _ (proj1 Hw1)) as N1. simpl in N1. rewrite Hsl in N1.
    destruct (IH V1 c1 e1 (o + len) (idx + len)) as (V2 & c2 & e2 & E2 & Hr2 & Hel2 & Hw2 & Hd2 & Hf2).
    { done. } { by rewrite (written_type _ _ _ _ _ _ Hw1). } { done. } { lia. } { lia. }
    { lia. } { fold n. replace (n - (idx + len)) with (n - idx - len) by lia.
      eapply has_free_le; [exact Hf1|lia]. }
    { fold n. unfold need in *. zmod. }
    fold n in E2, Hd2. exists V2, c2, e2. rewrite E2.
    replace (o + len + (n - (idx + len))) with (o + (n - idx)) by lia.
    split_and!; [done|done|by eapply elsewhere_trans| |by auto|done].
    replace (drop (Z.to_nat idx) l) with (src ++ drop (Z.to_nat (idx + len)) l).
    { apply (written_app V e V1 e1 V2 e2); [done|done|]. by rewrite Hsl. }
    unfold src, sub. rewrite <-(take_drop (Z.to_nat len) (drop (Z.to_nat idx) l)) at 2.
    rewrite drop_drop. do 2 f_equal. lia.
  - assert (idx = n) as -> by lia. exists V, c, e. replace (n - n) with 0 by lia.
    rewrite Z.add_0_r, mret_run. rewrite drop_ge by lia.
    split_and!; [done|done|by split|by apply written_nil|intros [?|?]; [done|lia]|].
    eapply has_free_le; [exact Hfree|lia].
Qed.

Lemma at_start : at_ i0 (cst (fs s0)) (entry i0) (off x0) = s0.
Proof.
  unfold at_. destruct s0 as [l fl p np t] eqn:E. unfold upd_filelist, upd_fs in *. simpl in *.
  f_equal.
  - apply list_insert_id. rewrite Hx. by destruct x0.
  - by apply (st_at_start sblock).
Qed.

Lemma filewrite_run V l spare :
  writable x0 = true → ftype x0 = FD_INODE →
  at_rest V (cst (fs s0)) (entry i0) → bytes l → l ≠ [] → 0 ≤ off x0 ≤ num_bytes (entry i0) →
  let n := Z.of_nat (length l) in
  off x0 + n ≤ INODE_MAX_BYTES → has_free V (need n + 1 + spare) →
  ∃ V' c' e', filewrite sblock ctx_addr f l n s0 = Ok (n, at_ i0 c' e' (off x0 + n)) ∧
    at_rest V' c' e' ∧ elsewhere V (entry i0) V' e' ∧ written V (entry i0) V' e' l (off x0) ∧
    durable V' c' ∧ has_free V' spare.
Proof.
  intros Hw Hft Hr Hl Hne Ho n Hmax Hfree.
  destruct (write_loop_run (S (S (Z.to_nat (n / 1536)))) V (cst (fs s0)) (entry i0) l (off x0) 0 spare)
    as (V' & c' & e' & E & Hr' & Hel & Hwr & Hd & Hf'); fold n; try done; try lia.
  { rewrite Z.sub_0_r. eapply has_free_le; [exact Hfree|]. case_match; lia. }
  { zmod. }
  fold n in E. rewrite at_start, Z.sub_0_r in E. rewrite drop_0 in Hwr.
  exists V', c', e'. unfold filewrite. rewrite <-at_start at 1. erewrite bind_Ok by apply file_at.
  rewrite at_start. cbn [writable ftype set_off]. rewrite Hw, Hft. cbn [negb].
  change maxbytes with 1536. rewrite (bind_Ok _ _ _ _ _ E), Z.eqb_refl.
  split_and!; try done.
  - apply Hd. right. unfold n. destruct l; [done|]. simpl. lia.
  - eapply has_free_le; [exact Hf'|lia].
Qed.
End write.

(** a file opened for writing on an inode that is in memory, unlocked, and no device *)
Record opened (s : fstate C) (f : Z) (x : File) (i : Inode) : Prop := {
  op_null : f ≠ 0;
  op_file : filelist s !! Z.to_nat (f - 1) = Some x;
  op_type : ftype x = FD_INODE;
  op_writable : writable x = true;
  op_inode : imem (fs s) !! fip x = Some i;
  op_valid : valid i = true;
  op_rc : 0 < rc i;
  op_lock : lock i = mkSem 1 [];
  op_kind : Layout.type (entry i) ≠ INODE_DEVICE;
  op_block : let ib := to_block_no sblock (inode_no_ i) in bc_block ib ∧ ¬ bc_bitmap ib }.
End filespec.

(** ** Properties *)

(** C16: writing [n] bytes to an open regular file, in as many operations of the log as it takes.
    If the file does not become too large and there are free blocks (four for every 1536
    bytes begun, and one), [filewrite] returns [n]; the offset of the open file has moved by
    [n]; the file consists of its old bytes with the new ones at the old offset, and has
    grown if they went beyond its end; every block of another file and every other inode is
    as before; the block cache is at rest and everything is on disk.  No operation of the log
    runs out of room, as long as the bitmap has at most four blocks. *)
Theorem filewrite_correct {C} `{BlockLogLaws C} sblock ctx_addr
    (s : fstate C) f x i V (B : gset Z) l :
  opened sblock s f x i → (∀ b, bc_bitmap b → b ∈ B) → (size B ≤ 4)%nat →
  at_rest sblock i V (cst (fs s)) (entry i) → bytes l → l ≠ [] →
  0 ≤ off x ≤ num_bytes (entry i) →
  let n := Z.of_nat (length l) in
  off x + n ≤ INODE_MAX_BYTES → has_free V (need n + 1) →
  ∃ V' c' e', filewrite sblock ctx_addr f l n s =
      Ok (n, upd_filelist <[Z.to_nat (f - 1) := set_off (off x + n) x]>
               (upd_fs (λ t, with_cache c' (upd_imem <[fip x := set_entry e' i]> t)) s)) ∧
    at_rest sblock i V' c' e' ∧ elsewhere sblock i V (entry i) V' e' ∧
    written V (entry i) V' e' l (off x) ∧ durable V' c'.
Proof.
  intros [] HB HBs Hr Hl Hne Ho n Hmax Hfree.
  destruct (filewrite_run sblock ctx_addr s f x (fip x) i op_null0 op_file0 eq_refl op_inode0
    op_valid0 op_rc0 op_lock0 op_kind0 op_block0 B HB HBs V l 0) as (V' & c' & e' & E & ? & ? & ? & ? & _);
    try done; [|by exists V', c', e'].
  by rewrite Nat.add_0_r.
Qed.

(** ** A concrete open file, 5 bytes long, with the offset at 4 *)

Definition one_file : File := mkFile FD_INODE 1 true true 0 1 4.
Definition one_files : fstate cachest :=
  mkFs false (one_file :: replicate 65535 zero_file) ∅ 0
    (one_tree INODE_REGULAR 5 hello_block).

Lemma one_at_rest :
  @at_rest _ (cache_ops small_sb) (cache_laws small_sb) (log_ops small_sb) (log_laws small_sb) small_sb
    (one_inode INODE_REGULAR 5) (one_V INODE_REGULAR 5 hello_block)
    (boot (one_disk INODE_REGULAR 5 hello_block)) (one_entry INODE_REGULAR 5).
Proof.
  assert (0 ≤ INODE_REGULAR < 2 ^ 16) as Ht by done. assert (0 ≤ 5 ≤ 512) as Hnb by done.
  assert (block_ok hello_block) as Hd by by_decision.
  split; [by apply one_core|by apply one_covered|by apply one_synced|].
  split; [|done]. split; first [done | by_decision | by exists 0].
Qed.

Lemma filewrite_correct_witness :
  ∃ V' c' e', @filewrite _ (cache_ops small_sb) (log_ops small_sb) small_sb 7 1 [120; 121; 122] 3 one_files =
      Ok (3, upd_filelist <[0%nat := set_off 7 one_file]> (upd_fs (λ t, with_cache c'
        (upd_imem <[1 := set_entry e' (one_inode INODE_REGULAR 5)]> t)) one_files)) ∧
    num_bytes e' = 7 ∧
    ∀ b, client_block small_sb b → dread (disk c') b = V' b.
Proof.
  destruct (@filewrite_correct _ (cache_ops small_sb) (cache_laws small_sb) (log_ops small_sb)
    (log_laws small_sb) small_sb 7 one_files 1 one_file (one_inode INODE_REGULAR 5)
    (one_V INODE_REGULAR 5 hello_block) {[80]} [120; 121; 122])
    as (V' & c' & e' & E & _ & _ & [Hm _] & Hd).
  - split; try done. apply one_ib.
  - apply small_bitmap_in.
  - rewrite size_singleton. lia.
  - exact one_at_rest.
  - by_decision.
  - done.
  - done.
  - done.
  - exists [90; 91; 92; 93; 94]. split_and!; [by_decision|done|]. intros b Hb. apply one_free.
    rewrite !elem_of_cons in Hb. pose proof (not_elem_of_nil b). naive_solver lia.
  - exists V', c', e'. split; [exact E|]. split; [|exact Hd]. unfold meta in Hm. by injection Hm.
Defined.
