(* ===== verification/InodeRefs.v ===== *)
(** * References to inodes and locks of inodes

    [ledger R L s]: the count of every inode in memory is the number of its references in
    [R], and the inodes whose lock is taken are those of [L].  Every operation of the inode
    layer that returns accounts for what it takes and gives back, on whatever path. *)

From Stdlib Require Import ZArith Lia.
From stdpp Require Import gmultiset.
From S2P Require Import Prelude Triple Words Sync Layout CacheSpec BlockCache Console Inode.

(** ** Multisets *)

Lemma mult_pos (f : Z) (R : gmultiset Z) : f ∈ R → (0 < multiplicity f R)%nat.
Proof. apply elem_of_multiplicity. Qed.
Lemma multiplicity_le_size (f : Z) (R : gmultiset Z) : (multiplicity f R ≤ size R)%nat.
Proof.
  transitivity (size (multiplicity f R *: ({[+ f +]} : gmultiset Z))).
  - rewrite gmultiset_size_scalar_mul, gmultiset_size_singleton. lia.
  - apply gmultiset_subseteq_size. intros y. rewrite multiplicity_scalar_mul, multiplicity_singleton.
    case_decide; subst; lia.
Qed.

Record ledger {C} (R : gmultiset Z) (L : gset Z) (s : itree C) : Prop := {
  lg_inode : ∀ a i, imem s !! a = Some i →
    rc i = i64 (Z.of_nat (multiplicity a R)) ∧ lock i = mkSem (if decide (a ∈ L) then 0 else 1) [];
  lg_ref : ∀ a, a ∈ R → is_Some (imem s !! a);
  lg_lock : ∀ a, a ∈ L → is_Some (imem s !! a);
  lg_addr : ∀ a, is_Some (imem s !! a) → 0 < a < inext s;
  lg_next : 0 < inext s }.

Section ledger.
Context {C : Type} `{BlockCache C} (sblock : SuperBlock).
Notation st := (itree C).
Notation led := (@ledger C).
Implicit Types (s : st) (R : gmultiset Z) (L : gset Z).

(** ** Changes the ledger does not see *)

Lemma ledger_mem R L s s' :
  imem s' = imem s → inext s' = inext s → ledger R L s → ledger R L s'.
Proof. intros E1 E2 [H1 H2 H3 H4 H5]. split; rewrite ?E1, ?E2; auto. Qed.

(** an inode keeps its count and its lock *)
Definition same_hold (f : Inode → Inode) : Prop := ∀ i, rc (f i) = rc i ∧ lock (f i) = lock i.

Lemma set_ip_ok (P Q : st → Prop) a f :
  (∀ s i, P s → imem s !! a = Some i → Q (upd_imem <[a := f i]> s)) →
  triple P (set_ip a f) (λ _, Q).
Proof.
  intros Hf. unfold set_ip. eapply triple_bind; [apply triple_getopt|]. intros i.
  apply triple_modify. intros s [Ei HP]. auto.
Qed.

(** one inode in memory changed *)
Lemma ledger_update R R' L L' s a i i' :
  led R L s → imem s !! a = Some i →
  rc i' = i64 (Z.of_nat (multiplicity a R')) → lock i' = mkSem (if decide (a ∈ L') then 0 else 1) [] →
  (∀ b, b ≠ a → multiplicity b R' = multiplicity b R) → (∀ b, b ≠ a → b ∈ L' ↔ b ∈ L) →
  led R' L' (upd_imem <[a := i']> s).
Proof.
  intros [H1 H2 H3 H4 H5] Ei Er El HR HL. split; simpl; [| | | |done].
  - intros b j. rewrite lookup_insert_Some. intros [[<- <-]|[Hne Hb]]; [done|].
    rewrite HR by done. destruct (H1 b j Hb) as [-> ->]. split; [done|].
    by rewrite (decide_ext _ _ _ _ (HL b (not_eq_sym Hne))).
  - intros b Hb%elem_of_multiplicity. rewrite lookup_insert_is_Some.
    destruct (decide (a = b)); [by left|right]. split; [done|]. apply H2, elem_of_multiplicity.
    by rewrite <-HR.
  - intros b Hb. rewrite lookup_insert_is_Some.
    destruct (decide (a = b)); [by left|right]. split; [done|]. apply H3. by apply HL.
  - intros b [<-|[_ Hb]]%lookup_insert_is_Some; eauto.
Qed.

Lemma keeps_set_ip R L a f : same_hold f → keeps (led R L) (set_ip a f).
Proof.
  intros Hf. apply set_ip_ok. intros s i HL Ei. destruct (Hf i) as [Er El].
  destruct (lg_inode _ _ _ HL a i Ei) as [H1 H2].
  eapply ledger_update; [done|done| | |done|done]; congruence.
Qed.

Lemma keeps_lift {A} R L (m : M C A) : keeps (led R L) (lift m).
Proof.
  intros s v s' HL. unfold lift. destruct (m (cst s)) as [[x c]| | | | |]; try done.
  intros [= <- <-]. by apply (ledger_mem R L s).
Qed.
Lemma keeps_ip R L a : keeps (led R L) (ip a).
Proof. apply keeps_getopt. Qed.
Lemma keeps_set_ientry R L a f : keeps (led R L) (set_ientry a f).
Proof. by apply keeps_set_ip. Qed.
Lemma keeps_tree_lock R L : keeps (led R L) (acquire_spinlock tree_lock).
Proof.
  unfold acquire_spinlock, try_acquire_spinlock. intros s v s' HL. mred.
  destruct (locked tree_lock s); [done|]. intros [= <- <-]. by apply (ledger_mem R L s).
Qed.
Lemma keeps_tree_unlock R L : keeps (led R L) (release_spinlock tree_lock).
Proof. apply keeps_modify. intros s. by apply ledger_mem. Qed.
Lemma keeps_ihead R L f : keeps (led R L) (modify (upd_ihead f)).
Proof. apply keeps_modify. intros s. by apply ledger_mem. Qed.
Hint Resolve keeps_lift keeps_ip keeps_set_ientry keeps_tree_lock keeps_tree_unlock keeps_ihead : keeps.

(** ** Operations that take and give back nothing *)

Lemma keeps_inode_sync R L ctx a b : keeps (led R L) (inode_sync sblock ctx a b).
Proof. unfold inode_sync. keep; by apply keeps_set_ip. Qed.
Hint Resolve keeps_inode_sync : keeps.

Lemma keeps_alloc_scan R L ctx ty n ino : keeps (led R L) (alloc_scan sblock n ctx ty ino).
Proof. revert ino. induction n; intros; cbn [alloc_scan]; keep. Qed.
Hint Resolve keeps_alloc_scan : keeps.
Lemma keeps_inode_alloc R L ctx ty : keeps (led R L) (inode_alloc sblock ctx ty).
Proof. unfold inode_alloc. keep. Qed.
Lemma keeps_find_inode R L l ino : keeps (led R L) (find_inode l ino).
Proof. induction l; cbn [find_inode]; keep. Qed.
Lemma keeps_inode_clear R L ctx a : keeps (led R L) (inode_clear sblock ctx a).
Proof. unfold inode_clear. keep. Qed.
Lemma keeps_inode_map R L ctx a o : keeps (led R L) (inode_map sblock ctx a o).
Proof. unfold inode_map. keep. Qed.
Hint Resolve keeps_inode_alloc keeps_find_inode keeps_inode_clear keeps_inode_map : keeps.
Lemma keeps_read_blocks R L n a i e : keeps (led R L) (read_blocks sblock n a i e).
Proof. revert i. induction n; intros; cbn [read_blocks]; keep. Qed.
Lemma keeps_write_blocks R L n ctx a src i e :
  keeps (led R L) (write_blocks sblock n ctx a src i e).
Proof. revert src i. induction n; intros; cbn [write_blocks]; keep. Qed.
Lemma keeps_stati R L a : keeps (led R L) (stati a).
Proof. unfold stati. keep. Qed.
Hint Resolve keeps_read_blocks keeps_write_blocks keeps_stati : keeps.

(** ** Locks *)

(** an access to an inode that is not there faults *)
Lemma ip_inv {A} a (k : Inode → M st A) s r :
  (ip a ≫= k) s = Ok r → ∃ i, imem s !! a = Some i ∧ k i s = Ok r.
Proof.
  unfold ip, getopt, mbind, M_bind. destruct (imem s !! a) as [i|]; [eauto|done].
Qed.
Lemma set_ip_eq a f s i : imem s !! a = Some i → set_ip a f s = Ok (tt, upd_imem <[a := f i]> s).
Proof. intros Ei. unfold set_ip, ip. by rewrite (bind_Ok _ _ _ i s) by by apply getopt_run. Qed.

Lemma triple_sem_wait R L a :
  triple (led R L) (sem_wait a) (λ _ s, a ∉ L ∧ led R ({[a]} ∪ L) s).
Proof.
  intros s [] s' HL E. unfold sem_wait in E. apply ip_inv in E as (i & Ei & E).
  destruct (lg_inode _ _ _ HL a i Ei) as [_ El]. rewrite El in E. destruct (decide (a ∈ L)) as [Ha|Ha].
  { by rewrite (bind_Sleep _ _ _ (run_wait_taken 0 s ltac:(done))) in E. }
  rewrite (bind_Ok _ _ _ _ _ (run_wait_free 1 s ltac:(done))) in E. cbv beta iota in E.
  rewrite (bind_Ok _ _ _ _ _ (set_ip_eq a _ s i Ei)) in E. injection E as <-. split; [done|].
  eapply ledger_update; [done|done| | |done|set_solver].
  - by apply (lg_inode _ _ _ HL a i).
  - simpl. by rewrite decide_True by set_solver.
Qed.

Lemma triple_sem_post R L a :
  a ∈ L → triple (led R L) (sem_post a) (λ _, led R (L ∖ {[a]})).
Proof.
  intros Ha s [] s' HL E. unfold sem_post in E. apply ip_inv in E as (i & Ei & E).
  destruct (lg_inode _ _ _ HL a i Ei) as [_ El]. rewrite El, decide_True in E by done.
  rewrite (bind_Ok _ _ _ _ _ (run_post 0 s ltac:(done))) in E. cbv beta iota in E.
  rewrite (set_ip_eq a _ s i Ei) in E. injection E as <-. eapply ledger_update; [done|done| | |done|set_solver].
  - by apply (lg_inode _ _ _ HL a i).
  - simpl. by rewrite decide_False by set_solver.
Qed.

(** posting what was waited for before *)
Lemma triple_sem_post' R L a :
  a ∉ L → triple (led R ({[a]} ∪ L)) (sem_post a) (λ _, led R L).
Proof.
  intros Ha. eapply triple_post; [apply triple_sem_post; set_solver|]. intros [] s.
  by replace (({[a]} ∪ L) ∖ {[a]}) with L by set_solver.
Qed.

Lemma triple_inode_lock R L a :
  triple (led R L) (inode_lock a) (λ _ s, a ∉ L ∧ led R ({[a]} ∪ L) s).
Proof.
  unfold inode_lock. eapply triple_bind; [apply keeps_ip|]. intros i.
  eapply triple_bind; [apply keeps_assert|]. intros []. apply triple_sem_wait.
Qed.
Lemma triple_inode_unlock R L a :
  a ∈ L → triple (led R L) (inode_unlock a) (λ _, led R (L ∖ {[a]})).
Proof.
  intros Ha. unfold inode_unlock. eapply triple_bind; [apply keeps_ip|]. intros i.
  eapply triple_bind; [apply keeps_assert|]. intros []. by apply triple_sem_post.
Qed.

(** unlocking what was locked before *)
Lemma triple_inode_unlock' R L a :
  a ∉ L → triple (led R ({[a]} ∪ L)) (inode_unlock a) (λ _, led R L).
Proof.
  intros Ha. eapply triple_post; [apply triple_inode_unlock; set_solver|]. intros [] s.
  by replace (({[a]} ∪ L) ∖ {[a]}) with L by set_solver.
Qed.

(** ** Reading and writing: a device inode is unlocked while the console is waited for *)

Lemma keeps_cons R L f : keeps (led R L) (modify (on_cons f)).
Proof. apply keeps_modify. intros s. by apply ledger_mem. Qed.
Lemma keeps_cons_lock R L : keeps (led R L) (acquire_spinlock (cons_lock cons on_cons)).
Proof.
  unfold acquire_spinlock, try_acquire_spinlock. intros s v s0 HL. mred.
  destruct (locked _ s); [done|]. intros [= <- <-]. by apply (ledger_mem R L s).
Qed.
Lemma keeps_cons_unlock R L : keeps (led R L) (release_spinlock (cons_lock cons on_cons)).
Proof. apply keeps_modify. intros s. by apply ledger_mem. Qed.
Lemma keeps_run_sem {A} R L (m : M semst A) x : keeps (led R L) (run_sem m x).
Proof.
  intros s v s' HL. unfold run_sem. destruct (m _) as [[y z]| | | | |]; try done. by intros [= <- <-].
Qed.
Hint Resolve keeps_cons keeps_cons_lock keeps_cons_unlock keeps_run_sem : keeps.
Lemma keeps_proc_killed R L : keeps (led R L) proc_killed.
Proof. apply keeps_gets. Qed.
Hint Resolve keeps_proc_killed : keeps.
Lemma keeps_wait_input R L n : keeps (led R L) (wait_input cons on_cons proc_killed n).
Proof. induction n; cbn [wait_input]; keep. Qed.
Hint Resolve keeps_wait_input : keeps.
Lemma keeps_read_char R L n m : keeps (led R L) (read_char cons on_cons proc_killed n m).
Proof. unfold read_char. keep. Qed.
Hint Resolve keeps_read_char : keeps.
Lemma keeps_read_loop R L n m : keeps (led R L) (read_loop cons on_cons proc_killed n m).
Proof. induction n; cbn [read_loop]; keep. Qed.
Lemma keeps_putc R L c : keeps (led R L) (putc on_cons c).
Proof. unfold putc. keep. Qed.
Hint Resolve keeps_read_loop keeps_putc : keeps.

Lemma triple_relock {A} R L a (m : M st A) (Q : A → st → Prop) :
  a ∈ L → triple (led R (L ∖ {[a]})) m (λ v, Q v) →
  triple (led R L) (inode_unlock a;; m) Q.
Proof. intros Ha Hm. eapply triple_bind; [by apply triple_inode_unlock|]. done. Qed.
Lemma triple_lock_again R L a :
  a ∈ L → triple (led R (L ∖ {[a]})) (inode_lock a) (λ _, led R L).
Proof.
  intros Ha. eapply triple_post; [apply triple_inode_lock|]. intros [] s [_ HL].
  by rewrite <-union_difference_singleton_L in HL.
Qed.

Lemma keeps_console_read R L a n :
  a ∈ L → keeps (led R L) (console_read cons on_cons (inode_unlock a) (inode_lock a) proc_killed n).
Proof.
  intros Ha. apply triple_relock; [done|].
  eapply triple_bind; [apply keeps_cons_lock|]. intros [].
  eapply triple_bind; [apply keeps_read_loop|]. intros [l k].
  eapply triple_bind; [apply keeps_cons_unlock|]. intros [].
  eapply triple_bind; [by apply triple_lock_again|]. intros []. destruct k; apply keeps_ret.
Qed.
Lemma keeps_console_write R L a src n :
  a ∈ L → keeps (led R L) (console_write cons on_cons (inode_unlock a) (inode_lock a) src n).
Proof.
  intros Ha. apply triple_relock; [done|].
  eapply triple_bind; [apply keeps_cons_lock|]. intros [].
  eapply triple_bind; [apply (keeps_for_each (led R (L ∖ {[a]}))); keep|]. intros [].
  eapply triple_bind; [apply keeps_cons_unlock|]. intros [].
  eapply triple_bind; [by apply triple_lock_again|]. intros []. apply keeps_ret.
Qed.
Hint Resolve keeps_console_read keeps_console_write : keeps.

Lemma keeps_inode_read R L a o n : a ∈ L → keeps (led R L) (inode_read sblock a o n).
Proof. intros Ha. unfold inode_read. keep. Qed.
Lemma keeps_inode_write R L ctx a src o n :
  a ∈ L → keeps (led R L) (inode_write sblock ctx a src o n).
Proof. intros Ha. unfold inode_write. keep. Qed.
Hint Resolve keeps_inode_read keeps_inode_write : keeps.

Lemma keeps_lookup_loop R L n a name i :
  a ∈ L → keeps (led R L) (lookup_loop sblock n a name i).
Proof. intros Ha. revert i. induction n; intros; cbn [lookup_loop]; keep. Qed.
Lemma keeps_lookup2_loop R L n a name x i :
  a ∈ L → keeps (led R L) (lookup2_loop sblock n a name x i).
Proof. intros Ha. revert x i. induction n; intros; cbn [lookup2_loop]; keep. Qed.
Hint Resolve keeps_lookup_loop keeps_lookup2_loop : keeps.
Lemma keeps_inode_lookup R L a name : a ∈ L → keeps (led R L) (inode_lookup sblock a name).
Proof. intros Ha. unfold inode_lookup. keep. Qed.
Lemma keeps_inode_lookup2 R L a name : a ∈ L → keeps (led R L) (inode_lookup2 sblock a name).
Proof. intros Ha. unfold inode_lookup2. keep. Qed.
Hint Resolve keeps_inode_lookup keeps_inode_lookup2 : keeps.
Lemma keeps_inode_insert R L ctx a name ino :
  a ∈ L → keeps (led R L) (inode_insert sblock ctx a name ino).
Proof. intros Ha. unfold inode_insert. keep. Qed.
Hint Resolve keeps_inode_insert : keeps.

(** ** References *)

(** the reference [a], unless it is null *)
Definition held (a : Z) R : gmultiset Z := if a =? 0 then R else {[+ a +]} ⊎ R.

Lemma i64_succ x : i64 (i64 x + 1) = i64 (x + 1).
Proof. unfold i64. change (2 ^ 64) with 18446744073709551616. change (2 ^ 63) with 9223372036854775808. zmod. Qed.

Lemma triple_count R L a :
  triple (led R L) (set_ip a (λ i, set_rc (increment_rc (rc i)) i)) (λ _, led ({[+ a +]} ⊎ R) L).
Proof.
  apply set_ip_ok. intros s i HL Ei. destruct (lg_inode _ _ _ HL a i Ei) as [Hr Hl].
  eapply ledger_update; [done|done| |done| |done].
  - simpl. unfold increment_rc. rewrite Hr, i64_succ.
    rewrite multiplicity_disj_union, multiplicity_singleton_eq. f_equal. lia.
  - intros b Hb. by rewrite multiplicity_disj_union, multiplicity_singleton_ne.
Qed.

Lemma ref_pos R L s a : led R L s → a ∈ R → a ≠ 0.
Proof. intros HL Ha. pose proof (lg_addr _ _ _ HL a (lg_ref _ _ _ HL a Ha)). lia. Qed.

(** [kalloc] of an inode, and [init_inode] *)
Lemma ledger_new R L s :
  led R L s → led R L (upd_imem <[inext s := init_inode]> (upd_inext (λ n, n + 1) s)).
Proof.
  intros HL. pose proof HL as [H1 H2 H3 H4 H5].
  assert (imem s !! inext s = None) as Hn.
  { apply eq_None_not_Some. intros Hs%H4. lia. }
  assert (∀ a, is_Some (imem s !! a) → is_Some (<[inext s := init_inode]> (imem s) !! a)) as Hs.
  { intros a Ha. rewrite lookup_insert_is_Some. destruct (decide (inext s = a)); auto. }
  split; simpl; [|by auto|by auto| |lia].
  - intros b j. rewrite lookup_insert_Some. intros [[<- <-]|[Hne Hb]]; [|by apply H1].
    rewrite decide_False by by intros [? ?]%H3; congruence.
    split; [|done]. assert (multiplicity (inext s) R = 0%nat) as ->; [|done].
    destruct (multiplicity (inext s) R) eqn:E; [done|]. exfalso.
    destruct (H2 (inext s)); [|congruence]. apply elem_of_multiplicity. lia.
  - intros b [<-|[_ Hb]]%lookup_insert_is_Some; [lia|]. apply H4 in Hb. lia.
Qed.

Lemma triple_inode_get_ref R L ino :
  ino ≠ 0 → triple (led R L) (inode_get sblock ino) (λ a, led ({[+ a +]} ⊎ R) L).
Proof.
  intros Hi. unfold inode_get. rewrite (proj2 (Z.eqb_neq ino 0)) by done.
  eapply triple_bind; [apply keeps_assert|]. intros [].
  eapply triple_bind; [apply keeps_tree_lock|]. intros [].
  eapply triple_bind; [apply keeps_gets|]. intros l.
  eapply triple_bind; [apply keeps_find_inode|]. intros [a|].
  - eapply triple_bind; [apply triple_count|]. intros [].
    eapply triple_bind; [apply keeps_tree_unlock|]. intros [].
    by apply triple_ret.
  - eapply triple_bind; [apply triple_gets|]. intros a.
    eapply (triple_bind _ _ _ (λ _ s, led R L (upd_imem <[a := init_inode]> s))).
    { apply triple_modify. intros s [-> HL]. by apply ledger_new. }
    intros []. eapply (triple_bind _ _ _ (λ _, led R L)); [by apply triple_modify|]. intros [].
    eapply triple_bind; [by apply keeps_set_ip|]. intros [].
    eapply triple_bind; [apply triple_count|]. intros [].
    eapply triple_bind; [apply triple_inode_lock|]. intros []. apply triple_fact. intros Ha.
    eapply triple_bind; [apply keeps_inode_sync|]. intros [].
    eapply triple_bind; [by apply triple_inode_unlock'|]. intros [].
    eapply triple_bind; [apply keeps_ihead|]. intros [].
    eapply triple_bind; [apply keeps_tree_unlock|]. intros [].
    by apply triple_ret.
Qed.

Lemma held_ref R L s a : led ({[+ a +]} ⊎ R) L s → led (held a R) L s.
Proof.
  intros HL. unfold held. rewrite (proj2 (Z.eqb_neq a 0)); [done|].
  eapply ref_pos; [done|]. multiset_solver.
Qed.
Lemma triple_inode_get R L ino :
  triple (led R L) (inode_get sblock ino) (λ a, led (held a R) L).
Proof.
  destruct (decide (ino = 0)) as [->|Hi]; [by apply triple_ret|].
  eapply triple_post; [by apply triple_inode_get_ref|]. intros a s. apply held_ref.
Qed.

Lemma triple_inode_share R L a :
  triple (led R L) (inode_share a) (λ b, led ({[+ b +]} ⊎ R) L).
Proof.
  unfold inode_share. eapply triple_bind; [apply triple_count|]. intros []. by apply triple_ret.
Qed.

Lemma i64_pred x : i64 (i64 x - 1) = i64 (x - 1).
Proof. unfold i64. change (2 ^ 64) with 18446744073709551616. change (2 ^ 63) with 9223372036854775808. zmod. Qed.

Lemma triple_uncount R L a :
  triple (led ({[+ a +]} ⊎ R) L) (set_ip a (λ i, set_rc (snd (decrement_rc (rc i))) i)) (λ _, led R L).
Proof.
  apply set_ip_ok. intros s i HL Ei. destruct (lg_inode _ _ _ HL a i Ei) as [Hr Hl].
  eapply ledger_update; [done|done| |done| |done].
  - simpl. rewrite Hr, i64_pred.
    rewrite multiplicity_disj_union, multiplicity_singleton_eq. f_equal. lia.
  - intros b Hb. by rewrite multiplicity_disj_union, multiplicity_singleton_ne.
Qed.

Lemma ledger_delete R L s a :
  multiplicity a R = 0%nat → a ∉ L → led R L s → led R L (upd_imem (delete a) s).
Proof.
  intros Hm Ha [H1 H2 H3 H4 H5]. split; simpl; [| | | |done].
  - intros b j. rewrite lookup_delete_Some. intros [_ Hb]. by apply H1.
  - intros b Hb. rewrite lookup_delete_is_Some. split; [|by apply H2].
    intros <-. apply mult_pos in Hb. lia.
  - intros b Hb. rewrite lookup_delete_is_Some. split; [by intros ->|by apply H3].
  - intros b Hb. apply H4. rewrite lookup_delete_is_Some in Hb. by destruct Hb.
Qed.

(** the references one can hold without a count overflowing *)
Definition few_inodes R : Prop := Z.of_nat (size R) < 2 ^ 62.

Lemma mult_small a R : few_inodes R → i64 (Z.of_nat (multiplicity a R)) = 0 → multiplicity a R = 0%nat.
Proof.
  unfold few_inodes. intros HR. pose proof (multiplicity_le_size a R) as Hle.
  rewrite i64_id; [lia|]. change (2 ^ 63) with 9223372036854775808.
  change (2 ^ 62) with 4611686018427387904 in HR. lia.
Qed.

Lemma triple_inode_put R L ctx a :
  few_inodes R → triple (led ({[+ a +]} ⊎ R) L) (inode_put sblock ctx a) (λ _, led R L).
Proof.
  intros HR. unfold inode_put.
  eapply triple_bind; [apply triple_sem_wait|]. intros []. apply triple_fact. intros Ha.
  eapply triple_bind; [apply triple_uncount|]. intros [].
  eapply triple_bind; [apply triple_getopt|]. intros i.
  apply (triple_pre (λ s, (rc i = 0 → multiplicity a R = 0%nat) ∧ led R ({[a]} ∪ L) s)).
  { intros s [Ei HL]. split; [|done]. intros Hz. apply mult_small; [done|]. rewrite <-Hz.
    symmetry. by apply (lg_inode _ _ _ HL a i). }
  apply triple_fact. intros Hz. assert (a ∈ {[a]} ∪ L) as Hin by set_solver.
  destruct (Z.eqb_spec (rc i) 0) as [Hrc|]; [|by apply triple_sem_post'].
  destruct (num_links (entry i) =? 0); [|by apply triple_sem_post']. simpl.
  eapply triple_bind; [apply keeps_set_ientry|]. intros [].
  eapply triple_bind; [apply keeps_inode_clear|]. intros [].
  eapply triple_bind; [apply keeps_inode_sync|]. intros [].
  eapply triple_bind; [apply keeps_tree_lock|]. intros [].
  eapply triple_bind; [apply keeps_ihead|]. intros [].
  eapply triple_bind; [apply keeps_tree_unlock|]. intros [].
  eapply triple_bind; [by apply triple_sem_post'|]. intros [].
  apply triple_modify. intros s. apply ledger_delete; auto.
Qed.

(** ** Paths *)

Lemma few_add a R : Z.of_nat (size R) + 1 < 2 ^ 62 → few_inodes ({[+ a +]} ⊎ R).
Proof. unfold few_inodes. rewrite gmultiset_size_disj_union, gmultiset_size_singleton. lia. Qed.

Lemma triple_unlock_put R L ctx a :
  few_inodes R → a ∉ L →
  triple (led ({[+ a +]} ⊎ R) ({[a]} ∪ L)) (inode_unlock a;; inode_put sblock ctx a) (λ _, led R L).
Proof.
  intros HR Ha. eapply triple_bind; [by apply triple_inode_unlock'|]. intros [].
  by apply triple_inode_put.
Qed.

Lemma triple_namex_loop R L n ctx np ans path name :
  Z.of_nat (size R) + 1 < 2 ^ 62 →
  triple (led ({[+ ans +]} ⊎ R) L) (namex_loop sblock n ctx np ans path name)
    (λ r, led (held (fst r) R) L).
Proof.
  intros HR. assert (few_inodes R) as HR1 by (unfold few_inodes; lia).
  revert ans path name. induction n as [|n IH]; intros ans path name; cbn [namex_loop]; [by intros ????|].
  destruct (skipelem path name) as [[path' name']|].
  2: { destruct np.
    - eapply triple_bind; [by apply triple_inode_put|]. intros []. by apply triple_ret.
    - apply triple_ret. intros s. apply held_ref. }
  eapply triple_bind; [apply triple_inode_lock|]. intros []. apply triple_fact. intros Ha.
  eapply triple_bind; [apply keeps_ip|]. intros i.
  assert (ans ∈ {[ans]} ∪ L) as Hin by set_solver.
  destruct (negb _).
  { eapply triple_bind; [by apply triple_inode_unlock'|]. intros [].
    eapply triple_bind; [by apply triple_inode_put|]. intros []. by apply triple_ret. }
  destruct (np && _).
  { eapply triple_bind; [by apply triple_inode_unlock'|]. intros [].
    apply triple_ret. intros s. apply held_ref. }
  eapply triple_bind; [by apply keeps_inode_lookup|]. intros [ino o].
  eapply triple_bind; [apply triple_inode_get|]. intros next. unfold held.
  destruct (next =? 0).
  { eapply triple_bind; [by apply triple_inode_unlock'|]. intros [].
    eapply triple_bind; [by apply triple_inode_put|]. intros []. by apply triple_ret. }
  eapply triple_bind; [by apply triple_inode_unlock'|]. intros [].
  apply (triple_pre (led ({[+ ans +]} ⊎ ({[+ next +]} ⊎ R)) L)).
  { intros s. by rewrite !(assoc_L (⊎)), (comm_L (⊎) {[+ ans +]}). }
  eapply triple_bind; [apply triple_inode_put; by apply few_add|]. intros []. apply IH.
Qed.

Lemma triple_namex R L cwd path np name ctx :
  Z.of_nat (size R) + 1 < 2 ^ 62 →
  triple (led R L) (namex sblock cwd path np name ctx) (λ r, led (held (fst r) R) L).
Proof.
  intros HR. unfold namex. eapply (triple_bind _ _ _ (λ a, led ({[+ a +]} ⊎ R) L)).
  - case_bool_decide; [by apply triple_inode_get_ref|apply triple_inode_share].
  - intros a. by apply triple_namex_loop.
Qed.
Lemma triple_namei R L cwd path ctx :
  Z.of_nat (size R) + 1 < 2 ^ 62 →
  triple (led R L) (namei sblock cwd path ctx) (λ a, led (held a R) L).
Proof.
  intros HR. unfold namei. eapply triple_bind; [by apply triple_namex|]. intros [a n]. by apply triple_ret.
Qed.
End ledger.

#[export] Hint Resolve keeps_lift keeps_ip keeps_set_ientry keeps_inode_sync keeps_inode_alloc
  keeps_inode_clear keeps_inode_map keeps_stati keeps_inode_read keeps_inode_write
  keeps_inode_lookup keeps_inode_insert : keeps.
#[export] Hint Extern 1 (_ ∈ _) => set_solver : keeps.
