(* ===== verification/FileRefs.v ===== *)
(** * Reference counts of open files and the life of pipes

    Whatever sequence of [filealloc], [filedup], [fileclose] and [pipeAlloc] the table of open
    files goes through, with reading and writing in between, its counts are the numbers of
    references handed out, and a pipe is in memory exactly as long as there is a reference to
    one of its ends. *)

From Stdlib Require Import ZArith Lia.
From stdpp Require Import gmultiset.
From S2P Require Import Prelude Words Sync Layout Cache CacheSpec CacheLog BlockCache CacheAlloc CacheOps.
From S2P Require Import Console Pipe Inode InodeSpec InodeRefs File.

(** ** The invariant *)

(** slot [i] of the table is one end of the pipe at [p]: the writing end or the reading end *)
Definition is_end (fl : list File) (p : Z) (w : bool) (i : nat) : Prop :=
  ∃ x, fl !! i = Some x ∧ ftype x = FD_PIPE ∧ fpipe x = p ∧ writable x = w.

(** whether an end of a pipe is open *)
Definition end_open (y : Pipe) (w : bool) : bool := if w then writeopen y else readopen y.

(** a pipe nobody is at work on *)
Record pipe_idle (y : Pipe) : Prop := {
  pi_lock : Pipe.lock y = false;
  pi_wlock : ∃ v, 0 ≤ v ∧ wlock y = mkSem v [];
  pi_rlock : ∃ v, 0 ≤ v ∧ rlock y = mkSem v [] }.

Record pipes_ok (fl : list File) (ps : gmap Z Pipe) : Prop := {
  po_pipe : ∀ p y, ps !! p = Some y → p ≠ 0 ∧ pipe_idle y ∧ ∃ w, end_open y w = true;
  po_open : ∀ p y w, ps !! p = Some y → end_open y w = true ↔ ∃ i, is_end fl p w i;
  po_there : ∀ p w i, is_end fl p w i → is_Some (ps !! p);
  po_one : ∀ p w i j, is_end fl p w i → is_end fl p w j → i = j }.

Record refs_ok (R : gmultiset Z) (fl : list File) : Prop := {
  ro_len : length fl = Z.to_nat NFILE;
  ro_ref : ∀ i x, fl !! i = Some x → ref x = Z.of_nat (multiplicity (Z.of_nat i + 1) R);
  ro_free : ∀ i x, fl !! i = Some x → ref x = 0 → ftype x = FD_NONE;
  ro_dom : ∀ f, f ∈ R → 1 ≤ f ≤ NFILE }.

(** ** Lists of files with one slot changed *)

(** what [is_end] looks at *)
Definition end_of (x : File) := (ftype x, fpipe x, writable x).

Lemma is_end_same fl i x x' p w j :
  fl !! i = Some x → end_of x' = end_of x → is_end (<[i := x']> fl) p w j ↔ is_end fl p w j.
Proof.
  intros Ex E. unfold end_of in E. injection E as E1 E2 E3. unfold is_end. split.
  - intros (y & Hy & ?). apply list_lookup_insert_Some in Hy as [(<- & <- & ?)|[? ?]].
    + exists x. by rewrite <-E1, <-E2, <-E3.
    + by exists y.
  - intros (y & Hy & ?). destruct (decide (i = j)) as [<-|Hne].
    + exists x'. rewrite list_lookup_insert_eq by by eapply lookup_lt_Some.
      assert (y = x) as -> by congruence. by rewrite E1, E2, E3.
    + exists y. by rewrite list_lookup_insert_ne.
Qed.

Lemma pipes_ok_same fl ps i x x' :
  fl !! i = Some x → end_of x' = end_of x → pipes_ok fl ps → pipes_ok (<[i := x']> fl) ps.
Proof.
  intros Ex E [H1 H2 H3 H4]. assert (∀ p w j, is_end (<[i := x']> fl) p w j ↔ is_end fl p w j) as Hs
    by (intros; by eapply is_end_same).
  split; [done| | |].
  - intros p y w Hp. rewrite (H2 p y w Hp). by setoid_rewrite Hs.
  - intros p w j. rewrite Hs. apply H3.
  - intros p w j k. rewrite !Hs. apply H4.
Qed.

(** the slot [i] is no end of a pipe any more *)
Lemma is_end_drop fl i x p w j :
  fl !! i = Some x → is_end (<[i := set_ftype FD_NONE (set_ref 0 x)]> fl) p w j ↔ is_end fl p w j ∧ j ≠ i.
Proof.
  intros Ex. unfold is_end. split.
  - intros (y & Hy & Ht & ?). apply list_lookup_insert_Some in Hy as [(<- & <- & ?)|[? ?]].
    + done.
    + split; [by exists y|done].
  - intros [(y & Hy & ?) Hne]. exists y. by rewrite list_lookup_insert_ne.
Qed.

Lemma refs_ok_insert R R' fl i x x' :
  fl !! i = Some x → refs_ok R fl →
  ref x' = Z.of_nat (multiplicity (Z.of_nat i + 1) R') → (ref x' = 0 → ftype x' = FD_NONE) →
  (∀ f, f ≠ Z.of_nat i + 1 → multiplicity f R' = multiplicity f R) →
  refs_ok R' (<[i := x']> fl).
Proof.
  intros Ex [H1 H2 H3 H4] Hr Hz Hm. split.
  - by rewrite length_insert.
  - intros j y Hj. apply list_lookup_insert_Some in Hj as [(<- & <- & ?)|[? Hj]]; [done|].
    rewrite Hm by lia. auto.
  - intros j y Hj. apply list_lookup_insert_Some in Hj as [(<- & <- & ?)|[? Hj]]; eauto.
  - intros f Hf. destruct (decide (f = Z.of_nat i + 1)) as [->|Hne].
    + apply lookup_lt_Some in Ex. rewrite H1 in Ex. change NFILE with 65536 in *. lia.
    + apply H4. apply elem_of_multiplicity. rewrite <-Hm by done. by apply elem_of_multiplicity.
Qed.

(** ** Closing one end of a pipe *)

Lemma pipe_close_run y w :
  pipe_idle y →
  ∃ y', pipe_close w y = Ok (negb (end_open y (negb w)), y') ∧ pipe_idle y' ∧
    end_open y' w = false ∧ end_open y' (negb w) = end_open y (negb w).
Proof.
  intros [Hl (v & Hv & Ew) (u & Hu & Er)]. unfold pipe_close.
  rewrite (bind_Ok _ _ _ _ _ (acquire_spinlock_run pipe_lock y Hl)).
  destruct w; cbv iota; rewrite bind_assoc; erewrite bind_Ok by apply modify_run.
  - unfold post_rlock. rewrite bind_assoc. erewrite bind_Ok by apply gets_run. simpl. rewrite Er.
    rewrite bind_assoc, (bind_Ok _ _ _ _ _ (run_post u _ Hu)). cbv beta iota.
    rewrite <-(andb_true_r (negb (readopen y))).
    eexists. split; [reflexivity|]. split; [|done].
    split; simpl; eauto. exists (u + 1). split; [lia|done].
  - unfold post_wlock. rewrite bind_assoc. erewrite bind_Ok by apply gets_run. simpl. rewrite Ew.
    rewrite bind_assoc, (bind_Ok _ _ _ _ _ (run_post v _ Hv)). cbv beta iota.
    eexists. split; [reflexivity|]. split; [|done].
    split; simpl; eauto. exists (v + 1). split; [lia|done].
Qed.

(** The pipe after one of its ends is closed: gone if the other end was closed already. *)
Lemma pipes_ok_close fl ps i x y y' :
  pipes_ok fl ps → fl !! i = Some x → ftype x = FD_PIPE → ps !! fpipe x = Some y →
  pipe_idle y' → end_open y' (writable x) = false →
  end_open y' (negb (writable x)) = end_open y (negb (writable x)) →
  pipes_ok (<[i := set_ftype FD_NONE (set_ref 0 x)]> fl)
    (if end_open y (negb (writable x)) then <[fpipe x := y']> ps
     else delete (fpipe x) (<[fpipe x := y']> ps)).
Proof.
  intros [H1 H2 H3 H4] Ex Ht Ey Hi' Hw Hn. set (p := fpipe x) in *. set (w := writable x) in *.
  assert (is_end fl p w i) as Hend by by exists x.
  assert (∀ q v j, is_end (<[i := set_ftype FD_NONE (set_ref 0 x)]> fl) q v j ↔
    is_end fl q v j ∧ ¬ (q = p ∧ v = w)) as Hd.
  { intros q v j. rewrite is_end_drop by done. split.
    - intros [Hj Hne]. split; [done|]. intros [-> ->]. apply Hne. by eapply H4.
    - intros [Hj Hne]. split; [done|]. intros ->. apply Hne.
      destruct Hj as (x' & Ex' & _ & <- & <-). by replace x' with x by congruence. }
  assert (∀ v, v = w ∨ v = negb w) as Hbool by (intros [] ; destruct w; auto).
  destruct (end_open y (negb w)) eqn:Eo.
  - split.
    + intros q z. rewrite lookup_insert_Some. intros [[<- <-]|[? Hq]]; [|by eapply H1].
      split; [by eapply H1|]. split; [done|]. eauto.
    + intros q z v. rewrite lookup_insert_Some. setoid_rewrite Hd. intros [[<- <-]|[Hne Hq]].
      * destruct (Hbool v) as [-> | ->].
        -- rewrite Hw. split; [done|]. naive_solver.
        -- rewrite Hn. split; [|done]. intros _. destruct (proj1 (H2 p y (negb w) Ey) Eo) as [j Hj].
           exists j. split; [done|]. intros [_ E]. by destruct w.
      * rewrite (H2 q z v Hq). naive_solver.
    + intros q v j [Hj _]%Hd. destruct (decide (q = p)) as [->|Hne].
      * rewrite lookup_insert_eq. eauto.
      * rewrite lookup_insert_ne by done. by eapply H3.
    + intros q v j k [Hj _]%Hd [Hk _]%Hd. by eapply H4.
  - rewrite delete_insert_eq. split.
    + intros q z. rewrite lookup_delete_Some. intros [? Hq]. by eapply H1.
    + intros q z v. rewrite lookup_delete_Some. setoid_rewrite Hd. intros [Hne Hq].
      rewrite (H2 q z v Hq). naive_solver.
    + intros q v j [Hj Hnw]%Hd. destruct (decide (q = p)) as [->|Hne].
      * exfalso. destruct (Hbool v) as [-> | ->]; [by apply Hnw|].
        assert (end_open y (negb w) = true); [|congruence]. apply (H2 p y _ Ey). eauto.
      * rewrite lookup_delete_ne by done. by eapply H3.
    + intros q v j k [Hj _]%Hd [Hk _]%Hd. by eapply H4.
Qed.

Section refs.
Context {C : Type} `{BlockCache C} `{BlockLog C} (sblock : SuperBlock).
Context (ctx_addr : Z) (kalloc : nat → gset Z → Z) (junk : Z → list Z).
(** the allocator gives memory nobody uses, or none *)
Hypothesis kalloc_fresh : ∀ n live, kalloc n live ∉ live.
Implicit Types (s : fstate C) (R : gmultiset Z).

Record table_ok R s : Prop := {
  to_lock : ftlock s = false;
  to_refs : refs_ok R (filelist s);
  to_pipes : pipes_ok (filelist s) (pipes s) }.

(** ** The operations on the table *)

Lemma file_run s i x : filelist s !! i = Some x → file (Z.of_nat i + 1) s = Ok (x, s).
Proof.
  intros Ex. unfold file. apply (getopt_run (λ s, if _ =? 0 then None else filelist s !! _)).
  rewrite (proj2 (Z.eqb_neq _ _)) by lia. by replace (Z.to_nat (Z.of_nat i + 1 - 1)) with i by lia.
Qed.

Lemma set_file_run s i x g :
  filelist s !! i = Some x →
  set_file (Z.of_nat i + 1) g s = Ok (tt, upd_filelist <[i := g x]> s).
Proof.
  intros Ex. unfold set_file. rewrite (bind_Ok _ _ _ _ _ (file_run s i x Ex)), modify_run.
  by replace (Z.to_nat (Z.of_nat i + 1 - 1)) with i by lia.
Qed.

(** the slot of a reference *)
Lemma slot_of R s f : table_ok R s → f ∈ R → ∃ i x, f = Z.of_nat i + 1 ∧ filelist s !! i = Some x ∧
  ref x = Z.of_nat (multiplicity f R) ∧ 1 ≤ ref x.
Proof.
  intros [_ [H1 H2 H3 H4] _] Hf. pose proof (H4 f Hf) as Hr. change NFILE with 65536 in *.
  destruct (lookup_lt_is_Some_2 (filelist s) (Z.to_nat (f - 1))) as (x & Ex); [lia|].
  exists (Z.to_nat (f - 1)), x. pose proof (H2 _ _ Ex) as Hx.
  assert (Z.of_nat (Z.to_nat (f - 1)) + 1 = f) as Ef by lia. rewrite Ef in Hx |- *.
  pose proof (mult_pos f R Hf).
  split_and!; [done|done|done|]. rewrite Hx. lia.
Qed.

(** the state with the table's lock taken *)
Local Notation locked s := (set_locked ftable_lock true s).

Lemma unlock_lock s g : ftlock s = false →
  set_locked ftable_lock false (upd_filelist g (locked s)) = upd_filelist g s.
Proof. destruct s; simpl. intros ->. done. Qed.

Lemma unlock_id s : ftlock s = false → set_locked ftable_lock false (locked s) = s.
Proof. destruct s; simpl. by intros ->. Qed.

Lemma alloc_loop_run s n i :
  Z.of_nat n + i = Z.of_nat (length (filelist s)) → 0 ≤ i →
  (∃ j x, alloc_loop n i s = Ok (Z.of_nat j + 1, set_locked ftable_lock false (upd_filelist <[j := set_ref 1 x]> s)) ∧
    filelist s !! j = Some x ∧ ref x = 0) ∨
  alloc_loop n i s = Ok (0, set_locked ftable_lock false s) ∧
  (∀ j x, i ≤ Z.of_nat j → filelist s !! j = Some x → ref x ≠ 0).
Proof.
  revert i. induction n as [|n IH]; intros i Hn Hi.
  - right. split; [done|]. intros j x Hj Ex. apply lookup_lt_Some in Ex. lia.
  - cbn [alloc_loop]. destruct (lookup_lt_is_Some_2 (filelist s) (Z.to_nat i)) as (x & Ex); [lia|].
    pose proof (file_run s _ x Ex) as Ef. replace (Z.of_nat (Z.to_nat i) + 1) with (i + 1) in Ef by lia.
    rewrite (bind_Ok _ _ _ _ _ Ef). destruct (Z.eqb_spec (ref x) 0) as [Hz|Hnz].
    + left. exists (Z.to_nat i), x. split; [|done].
      pose proof (set_file_run s _ x (set_ref 1) Ex) as Es.
      replace (Z.of_nat (Z.to_nat i) + 1) with (i + 1) in Es |- * by lia.
      by rewrite (bind_Ok _ _ _ _ _ Es).
    + destruct (IH (i + 1)) as [?|[E Hall]]; [lia|lia|by left|right]. split; [done|].
      intros j y Hj Ey. destruct (decide (j = Z.to_nat i)) as [->|Hne]; [congruence|].
      apply (Hall j); [lia|done].
Qed.

(** [filealloc] finds a slot with no reference, or there is none. *)
Lemma filealloc_run R s : table_ok R s →
  (∃ i x, filealloc s = Ok (Z.of_nat i + 1, upd_filelist <[i := set_ref 1 x]> s) ∧
    filelist s !! i = Some x ∧ ref x = 0) ∨
  filealloc s = Ok (0, s) ∧ ∀ f, 1 ≤ f ≤ NFILE → f ∈ R.
Proof.
  intros [Hl [H1 H2 H3 H4] Hp]. unfold filealloc.
  rewrite (bind_Ok _ _ _ _ _ (acquire_spinlock_run ftable_lock s Hl)).
  destruct (alloc_loop_run (locked s) (Z.to_nat NFILE) 0) as [(i & x & E & Ex & Hz)|[E Hall]].
  - change (filelist (locked s)) with (filelist s). change NFILE with 65536 in *. lia.
  - lia.
  - left. exists i, x. rewrite E, unlock_lock by done. done.
  - right. rewrite E. split; [by rewrite unlock_id|]. change NFILE with 65536 in *.
    intros f Hf. destruct (lookup_lt_is_Some_2 (filelist s) (Z.to_nat (f - 1))) as (x & Ex); [lia|].
    pose proof (H2 _ _ Ex) as Hx. apply elem_of_multiplicity.
    specialize (Hall _ _ ltac:(lia) Ex). replace (Z.of_nat (Z.to_nat (f - 1)) + 1) with f in Hx by lia.
    lia.
Qed.

Lemma filealloc_ok R s i x :
  table_ok R s → filelist s !! i = Some x → ref x = 0 →
  table_ok ({[+ Z.of_nat i + 1 +]} ⊎ R) (upd_filelist <[i := set_ref 1 x]> s).
Proof.
  intros [Hl Hr Hp] Ex Hz. pose proof (ro_ref _ _ Hr _ _ Ex) as Hm.
  split; [done| |].
  - eapply refs_ok_insert; [done|done| |done|].
    + rewrite multiplicity_disj_union, multiplicity_singleton_eq. simpl. lia.
    + intros f Hf. rewrite multiplicity_disj_union, multiplicity_singleton_ne by done. lia.
  - by eapply pipes_ok_same.
Qed.

(** [filedup] adds a reference. *)
Lemma filedup_run R s f :
  table_ok R s → f ∈ R → Z.of_nat (size R) < 2 ^ 31 - 1 →
  ∃ s', filedup f s = Ok (f, s') ∧ table_ok ({[+ f +]} ⊎ R) s'.
Proof.
  intros T Hf Hsz. destruct (slot_of R s f T Hf) as (i & x & -> & Ex & Hm & Hr1).
  destruct T as [Hl Hr Hp]. unfold filedup.
  rewrite (bind_Ok _ _ _ _ _ (acquire_spinlock_run ftable_lock s Hl)).
  rewrite (bind_Ok _ _ _ _ _ (file_run (locked s) i x Ex)).
  erewrite bind_Ok by (apply assert_run, Z.leb_le; done).
  rewrite (bind_Ok _ _ _ _ _ (set_file_run (locked s) i x _ Ex)).
  erewrite bind_Ok by apply release_spinlock_run. rewrite mret_run, unlock_lock by done.
  eexists. split; [done|].
  pose proof (multiplicity_le_size (Z.of_nat i + 1) R) as Hle.
  split; [done| |by eapply pipes_ok_same].
  eapply refs_ok_insert; [done|done| | |].
  - simpl. rewrite i32_id, multiplicity_disj_union, multiplicity_singleton_eq; [lia|].
    change (2 ^ 31) with 2147483648 in *. lia.
  - simpl. rewrite i32_id by (change (2 ^ 31) with 2147483648 in *; lia). lia.
  - intros g Hg. rewrite multiplicity_disj_union, multiplicity_singleton_ne by done. lia.
Qed.
(** what [fileclose] still does when the last reference to an inode file is gone *)
Definition put_inode (a : Z) : M (fstate C) unit :=
  begin_op ctx_addr;; on_fs (inode_put sblock (Some ctx_addr) a);; end_op ctx_addr.

Lemma on_fs_inv {A} (m : M (itree C) A) s v s' :
  on_fs m s = Ok (v, s') → ∃ t, s' = upd_fs (λ _, t) s.
Proof. unfold on_fs, on. destruct (m (fs s)) as [[? t]| | | | |]; naive_solver. Qed.

Lemma table_ok_fs R s t : table_ok R s → table_ok R (upd_fs (λ _, t) s).
Proof. by intros []. Qed.

Lemma put_inode_ok R a s s' : table_ok R s → put_inode a s = Ok (tt, s') → table_ok R s'.
Proof.
  intros T E. unfold put_inode in E. minv E. minv R1.
  apply on_fs_inv in R0 as [? ->]. apply on_fs_inv in R2 as [? ->]. apply on_fs_inv in R3 as [? ->].
  by do 3 apply table_ok_fs.
Qed.

(** one reference less *)
Lemma refs_ok_close R fl i x g :
  refs_ok R fl → fl !! i = Some x → Z.of_nat i + 1 ∈ R →
  ref (g x) = ref x - 1 → (ref (g x) = 0 → ftype (g x) = FD_NONE) →
  refs_ok (R ∖ {[+ Z.of_nat i + 1 +]}) (<[i := g x]> fl).
Proof.
  intros Hr Ex Hf Hg Hz. pose proof (ro_ref _ _ Hr _ _ Ex) as Hm.
  pose proof (mult_pos _ R Hf).
  eapply refs_ok_insert; [done|done| |done|].
  - rewrite multiplicity_difference, multiplicity_singleton_eq, Hg, Hm. lia.
  - intros f Hne. rewrite multiplicity_difference, multiplicity_singleton_ne by done. lia.
Qed.

Lemma pipeClose_run s p y w :
  pipes s !! p = Some y → pipe_idle y →
  ∃ y', pipeClose p w s = Ok (tt, upd_pipes (λ ps, if end_open y (negb w) then <[p := y']> ps
      else delete p (<[p := y']> ps)) s) ∧
    pipe_idle y' ∧ end_open y' w = false ∧ end_open y' (negb w) = end_open y (negb w).
Proof.
  intros Ey Hi. destruct (pipe_close_run y w Hi) as (y' & E & ?). exists y'. split; [|done].
  unfold pipeClose, on_pipe. rewrite bind_assoc.
  erewrite bind_Ok by (apply (getopt_run (λ s, pipes s !! p)); exact Ey).
  rewrite (bind_Ok _ _ _ _ _ (on_run _ _ _ s _ _ E)). by destruct (end_open y (negb w)).
Qed.

(** [fileclose] gives up one reference; with the last one to an end of a pipe that end is
    closed, and with the second end the pipe goes. *)
Lemma fileclose_run R s f :
  table_ok R s → f ∈ R → Z.of_nat (size R) < 2 ^ 31 →
  ∃ s', table_ok (R ∖ {[+ f +]}) s' ∧
    (∀ k, Z.of_nat k + 1 ≠ f → filelist s' !! k = filelist s !! k) ∧
    (fileclose sblock ctx_addr f s = Ok (tt, s') ∨
     ∃ x, file f s = Ok (x, s) ∧ ftype x = FD_INODE ∧ multiplicity f R = 1%nat ∧
       fileclose sblock ctx_addr f s = put_inode (fip x) s').
Proof.
  intros T Hf Hsz. destruct (slot_of R s f T Hf) as (i & x & -> & Ex & Hm & Hr1).
  pose proof (multiplicity_le_size (Z.of_nat i + 1) R) as Hle.
  pose proof T as [Hl Hr Hp]. unfold fileclose.
  rewrite (bind_Ok _ _ _ _ _ (acquire_spinlock_run ftable_lock s Hl)).
  rewrite (bind_Ok _ _ _ _ _ (file_run (locked s) i x Ex)).
  erewrite bind_Ok by (apply assert_run, Z.leb_le; done).
  rewrite (bind_Ok _ _ _ _ _ (set_file_run (locked s) i x _ Ex)).
  set (x1 := set_ref _ x). set (s1 := upd_filelist _ (locked s)).
  assert (filelist s1 !! i = Some x1) as Ex1 by (apply list_lookup_insert_eq; by eapply lookup_lt_Some).
  assert (ref x1 = ref x - 1) as Er1.
  { simpl. apply i32_id. change (2 ^ 31) with 2147483648 in *. lia. }
  rewrite (bind_Ok _ _ _ _ _ (file_run s1 i x1 Ex1)).
  destruct (Z.ltb_spec 0 (ref x1)) as [Hpos|Hz].
  - rewrite release_spinlock_run. unfold s1. rewrite unlock_lock by done.
    eexists. split; [|split; [|by left]].
    + split; [done| |by eapply pipes_ok_same].
      apply (refs_ok_close _ _ _ x (λ _, x1)); [done|done|done|done|lia].
    + intros k Hk. apply list_lookup_insert_ne. lia.
  - rewrite (bind_Ok _ _ _ _ _ (set_file_run s1 i x1 _ Ex1)).
    erewrite bind_Ok by apply release_spinlock_run.
    assert (set_ftype FD_NONE x1 = set_ftype FD_NONE (set_ref 0 x)) as ->.
    { unfold x1, set_ftype in *. simpl in *. f_equal. lia. }
    set (s2 := set_locked ftable_lock false _).
    assert (s2 = upd_filelist <[i := set_ftype FD_NONE (set_ref 0 x)]> s) as ->.
    { unfold s2, s1. destruct s; simpl in *. subst. unfold upd_filelist. simpl.
      by rewrite list_insert_insert_eq. }
    set (s3 := upd_filelist _ s).
    assert (refs_ok (R ∖ {[+ Z.of_nat i + 1 +]}) (filelist s3)) as Hr3.
    { apply (refs_ok_close _ _ _ x (λ x, set_ftype FD_NONE (set_ref 0 x))); simpl; (done || lia). }
    assert (∀ k, Z.of_nat k + 1 ≠ Z.of_nat i + 1 → filelist s3 !! k = filelist s !! k) as Hoth.
    { intros k Hk. apply list_lookup_insert_ne. lia. }
    change (ftype x1) with (ftype x). change (fpipe x1) with (fpipe x).
    change (writable x1) with (writable x). change (fip x1) with (fip x).
    destruct (ftype x) eqn:Et.
    + exists s3. split; [|split; [done|by left]]. split; [done|done|].
      eapply pipes_ok_same; [done| |done]. unfold end_of. simpl. by rewrite Et.
    + destruct (po_there _ _ Hp (fpipe x) (writable x) i) as [y Ey]; [by exists x|].
      destruct (po_pipe _ _ Hp _ _ Ey) as (_ & Hidle & _).
      destruct (pipeClose_run s3 (fpipe x) y (writable x) Ey Hidle) as (y' & E & ? & ? & ?).
      rewrite E. eexists. split; [|split; [|by left]]; [|exact Hoth]. split; [done|done|]. simpl. by apply pipes_ok_close.
    + exists s3. split_and!; [|done|].
      * split; [done|done|]. destruct Hp as [P1 P2 P3 P4].
        assert (∀ p w j, is_end (filelist s3) p w j ↔ is_end (filelist s) p w j) as Hs.
        { intros p w j. unfold s3. simpl. rewrite is_end_drop by done. split; [tauto|].
          intros Hj. split; [done|]. intros ->. destruct Hj as (x' & Ex' & Ht & _). congruence. }
        split; [done| | |].
        -- intros p y w Hy. rewrite (P2 p y w Hy). by setoid_rewrite Hs.
        -- intros p w j. rewrite Hs. apply P3.
        -- intros p w j k. rewrite !Hs. apply P4.
      * right. exists x. split; [by apply file_run|]. split; [done|]. split; [lia|]. done.
Qed.
(** ** [pipeAlloc] *)

(** two free slots become the ends of a new pipe *)
Lemma pipes_ok_new fl ps i j x y a b p n :
  pipes_ok fl ps → i ≠ j → fl !! i = Some x → fl !! j = Some y →
  ftype x = FD_NONE → ftype y = FD_NONE → ps !! p = None → p ≠ 0 → pipe_idle n →
  end_of a = (FD_PIPE, p, false) → end_of b = (FD_PIPE, p, true) → (∀ w, end_open n w = true) →
  pipes_ok (<[j := b]> (<[i := a]> fl)) (<[p := n]> ps).
Proof.
  intros [P1 P2 P3 P4] Hij Ex Ey Htx Hty Hp Hp0 Hn Ea Eb Ho.
  unfold end_of in Ea, Eb. injection Ea as Ea1 Ea2 Ea3. injection Eb as Eb1 Eb2 Eb3.
  pose proof (lookup_lt_Some _ _ _ Ex). pose proof (lookup_lt_Some _ _ _ Ey).
  assert (∀ q w k, is_end fl q w k → q ≠ p ∧ k ≠ i ∧ k ≠ j) as Hold.
  { intros q w k He. split_and!.
    - intros ->. destruct (P3 p w k He). congruence.
    - intros ->. destruct He as (z & Ez & Ht & _). congruence.
    - intros ->. destruct He as (z & Ez & Ht & _). congruence. }
  assert (∀ q w k, is_end (<[j := b]> (<[i := a]> fl)) q w k ↔
    is_end fl q w k ∨ q = p ∧ k = if w then j else i) as Hs.
  { intros q w k. split.
    - intros (z & Hz & Ht & <- & <-).
      apply list_lookup_insert_Some in Hz as [(<- & <- & _)|[Hkj Hz]].
      + right. by rewrite Eb2, Eb3.
      + apply list_lookup_insert_Some in Hz as [(<- & <- & _)|[Hki Hz]].
        * right. by rewrite Ea2, Ea3.
        * left. by exists z.
    - intros [He|[-> ->]].
      + destruct (Hold q w k He) as (_ & ? & ?). destruct He as (z & Hz & ?).
        exists z. by rewrite !list_lookup_insert_ne.
      + destruct w.
        * exists b. by rewrite list_lookup_insert_eq by by rewrite length_insert.
        * exists a. by rewrite list_lookup_insert_ne, list_lookup_insert_eq. }
  split.
  - intros q z. rewrite lookup_insert_Some. intros [[<- <-]|[? Hq]]; [|by eapply P1].
    split_and!; [done|done|by exists true].
  - intros q z w. setoid_rewrite Hs. rewrite lookup_insert_Some. intros [[<- <-]|[Hne Hq]].
    + rewrite Ho. split; [eauto|done].
    + rewrite (P2 q z w Hq). naive_solver.
  - intros q w k [He|[-> _]]%Hs; [|by rewrite lookup_insert_eq].
    destruct (Hold q w k He) as [? _]. rewrite lookup_insert_ne by done. by eapply P3.
  - intros q w k k' [He|[-> ->]]%Hs [He'|[E ->]]%Hs.
    + by eapply P4.
    + by destruct (Hold q w k He) as [? _].
    + by destruct (Hold p w k' He') as [? _].
    + done.
Qed.

Lemma new_pipe_idle d : pipe_idle (new_pipe d).
Proof. split; [done|by exists 0|by exists 0]. Qed.

Lemma table_ok_npipes R s g : table_ok R s → table_ok R (upd_npipes g s).
Proof. by intros []. Qed.

(** closing the files [pipeAlloc] has got before something failed *)
Lemma close_fresh R s f :
  table_ok ({[+ f +]} ⊎ R) s → f ∉ R → (∀ x, file f s = Ok (x, s) → ftype x = FD_NONE) →
  Z.of_nat (size R) < 2 ^ 31 - 1 →
  ∃ s', fileclose sblock ctx_addr f s = Ok (tt, s') ∧ table_ok R s' ∧
    (∀ k, Z.of_nat k + 1 ≠ f → filelist s' !! k = filelist s !! k).
Proof.
  intros T Hf Ht Hsz.
  destruct (fileclose_run _ s f T) as (s' & T' & Ho & [E|(x & Ex & Hi & _)]).
  - multiset_solver.
  - rewrite gmultiset_size_disj_union, gmultiset_size_singleton. lia.
  - exists s'. split; [done|]. split; [|done]. by replace R with (({[+ f +]} ⊎ R) ∖ {[+ f +]}) by multiset_solver.
  - rewrite (Ht x Ex) in Hi. done.
Qed.
Lemma not_ref R s i x : table_ok R s → filelist s !! i = Some x → ref x = 0 → Z.of_nat i + 1 ∉ R.
Proof.
  intros T Ex Hz Hf%mult_pos. pose proof (ro_ref _ _ (to_refs _ _ T) _ _ Ex). lia.
Qed.

Lemma slot_type R s i x f :
  table_ok R s → filelist s !! i = Some x → ref x = 0 → f = Z.of_nat i + 1 →
  ∀ s' y, filelist s' !! i = Some (set_ref 1 x) → file f s' = Ok (y, s') → ftype y = FD_NONE.
Proof.
  intros T Ex Hz -> s' y Ey E. rewrite (file_run _ _ _ Ey) in E. injection E as <-.
  by apply (ro_free _ _ (to_refs _ _ T) i x).
Qed.

Lemma pipeAlloc_run R s :
  table_ok R s → Z.of_nat (size R) < 2 ^ 31 - 2 →
  ∃ f0 f1 s',
    (pipeAlloc sblock ctx_addr kalloc junk s = Ok (f0, f1, 0, s') ∧
      f0 ∉ R ∧ f1 ∉ R ∧ f0 ≠ f1 ∧ table_ok ({[+ f1 +]} ⊎ ({[+ f0 +]} ⊎ R)) s') ∨
    (pipeAlloc sblock ctx_addr kalloc junk s = Ok (f0, f1, -1, s') ∧ table_ok R s').
Proof.
  intros T Hsz. unfold pipeAlloc.
  destruct (filealloc_run R s T) as [(i & x & E1 & Ex & Hx)|[E1 _]].
  2: { rewrite (bind_Ok _ _ _ _ _ E1). exists 0, 0, s. by right. }
  rewrite (bind_Ok _ _ _ _ _ E1). set (f0 := Z.of_nat i + 1) in *.
  rewrite (proj2 (Z.eqb_neq f0 0)) by lia.
  pose proof (filealloc_ok R s i x T Ex Hx) as T1. fold f0 in T1.
  pose proof (not_ref R s i x T Ex Hx) as Hn0. fold f0 in Hn0.
  set (s1 := upd_filelist _ s) in *.
  assert (filelist s1 !! i = Some (set_ref 1 x)) as Ex1
    by (apply list_lookup_insert_eq; by eapply lookup_lt_Some).
  destruct (filealloc_run _ s1 T1) as [(j & y & E2 & Ey & Hy)|[E2 _]].
  2: { rewrite (bind_Ok _ _ _ _ _ E2). simpl. unfold alloc_bad. simpl.
    erewrite bind_Ok by apply mret_run.
    rewrite (proj2 (Z.eqb_neq f0 0)) by lia. simpl.
    destruct (close_fresh R s1 f0 T1 Hn0) as (s2 & E3 & T2 & _); [|lia|].
    { intros z. by apply (slot_type R s i x f0 T Ex Hx eq_refl). }
    rewrite (bind_Ok _ _ _ _ _ E3). exists f0, 0, s2. by right. }
  rewrite (bind_Ok _ _ _ _ _ E2). set (f1 := Z.of_nat j + 1) in *.
  rewrite (proj2 (Z.eqb_neq f1 0)) by lia.
  pose proof (filealloc_ok _ s1 j y T1 Ey Hy) as T2. fold f1 in T2.
  pose proof (not_ref _ s1 j y T1 Ey Hy) as Hn1. fold f1 in Hn1.
  assert (i ≠ j) as Hij.
  { intros <-. rewrite Ex1 in Ey. by injection Ey as <-. }
  assert (filelist s !! j = Some y) as Eyj by (simpl in Ey; by rewrite list_lookup_insert_ne in Ey).
  set (s2 := upd_filelist _ s1) in *.
  assert (filelist s2 !! j = Some (set_ref 1 y)) as Ey2
    by (apply list_lookup_insert_eq; by eapply lookup_lt_Some).
  assert (filelist s2 !! i = Some (set_ref 1 x)) as Ex2.
  { unfold s2. simpl. rewrite list_lookup_insert_ne by done. exact Ex1. }
  unfold alloc_pipe. rewrite bind_assoc. erewrite bind_Ok by apply gets_run.
  rewrite bind_assoc. erewrite bind_Ok by apply modify_run. erewrite bind_Ok by apply mret_run.
  change (id s2) with s2.
  pose proof (kalloc_fresh (npipes s2) (dom (pipes s2))) as Hfresh.
  set (p := kalloc _ _) in *. apply (table_ok_npipes _ _ S) in T2.
  set (s3 := upd_npipes S s2) in *.
  destruct (Z.eqb_spec p 0) as [Hp0|Hp0].
  - unfold alloc_bad. change (negb (0 =? 0)) with false.
    erewrite bind_Ok by reflexivity.
    rewrite (proj2 (Z.eqb_neq f0 0)), (proj2 (Z.eqb_neq f1 0)) by lia. simpl.
    destruct (close_fresh ({[+ f1 +]} ⊎ R) s3 f0) as (s4 & E4 & T4 & Ho4).
    { by replace ({[+ f0 +]} ⊎ ({[+ f1 +]} ⊎ R)) with ({[+ f1 +]} ⊎ ({[+ f0 +]} ⊎ R))
        by multiset_solver. }
    { multiset_solver. }
    { intros z. by apply (slot_type R s i x f0 T Ex Hx eq_refl). }
    { rewrite gmultiset_size_disj_union, gmultiset_size_singleton. lia. }
    rewrite (bind_Ok _ _ _ _ _ E4).
    destruct (close_fresh R s4 f1 T4) as (s5 & E5 & T5 & _); [multiset_solver| |lia|].
    { intros z. apply (slot_type _ s1 j y f1 T1 Ey Hy eq_refl). rewrite Ho4 by lia. exact Ey2. }
    rewrite (bind_Ok _ _ _ _ _ E5). exists f0, f1, s5. by right.
  - erewrite bind_Ok by apply modify_run.
    set (s4 := upd_pipes _ s3).
    assert (filelist s4 !! i = Some (set_ref 1 x)) as Ex4 by exact Ex2.
    rewrite (bind_Ok _ _ _ _ _ (set_file_run s4 i _ _ Ex4)).
    set (s5 := upd_filelist _ s4).
    assert (filelist s5 !! j = Some (set_ref 1 y)) as Ey5.
    { unfold s5. simpl. rewrite list_lookup_insert_ne by done. exact Ey2. }
    rewrite (bind_Ok _ _ _ _ _ (set_file_run s5 j _ _ Ey5)), mret_run.
    exists f0, f1. eexists. left. split; [done|]. split; [done|]. split; [multiset_solver|].
    split; [lia|]. destruct T2 as [Hl2 Hr2 Hp2]. split; [done| |].
    + pose proof (ro_ref _ _ Hr2 i _ Ex2) as Hri. pose proof (ro_ref _ _ Hr2 j _ Ey2) as Hrj.
      apply (refs_ok_insert ({[+ f1 +]} ⊎ ({[+ f0 +]} ⊎ R)) _ _ _ _ _ Ey5); [|done|done|done].
      apply (refs_ok_insert ({[+ f1 +]} ⊎ ({[+ f0 +]} ⊎ R)) _ _ _ _ _ Ex4); done.
    + simpl. apply (pipes_ok_new (filelist s2) _ i j (set_ref 1 x) (set_ref 1 y)); try done.
      * by apply (ro_free _ _ (to_refs _ _ T) i x).
      * by apply (ro_free _ _ (to_refs _ _ T) j y).
      * by apply not_elem_of_dom.
      * apply new_pipe_idle.
      * by intros [].
Qed.
(** ** Runs *)

(** What reading and writing do to the table: an offset moves, the contents of a pipe or of
    the file system change. *)
Inductive io_step : fstate C → fstate C → Prop :=
  | io_off s i x o : filelist s !! i = Some x → io_step s (upd_filelist <[i := set_off o x]> s)
  | io_pipe s p y y' : pipes s !! p = Some y → pipe_idle y' → ends y' = ends y →
      io_step s (upd_pipes <[p := y']> s)
  | io_fs s t : io_step s (upd_fs (λ _, t) s).

(** the references one can hold without the counts overflowing *)
Definition few R : Prop := Z.of_nat (size R) < 2 ^ 31 - 2.

(** [reach R s]: the table can come to [s] with the references [R] handed out and not given
    back.  [reach_open] is what [openat] does to a file it has allocated. *)
Inductive reach : gmultiset Z → fstate C → Prop :=
  | reach_init s0 s : filelist s0 = replicate (Z.to_nat NFILE) zero_file → pipes s0 = ∅ →
      init_ftable s0 = Ok (tt, s) → reach ∅ s
  | reach_alloc R s f s' : reach R s → filealloc s = Ok (f, s') → f ≠ 0 → reach ({[+ f +]} ⊎ R) s'
  | reach_dup R s f f' s' : reach R s → f ∈ R → few R → filedup f s = Ok (f', s') →
      reach ({[+ f +]} ⊎ R) s'
  | reach_close R s f s' : reach R s → f ∈ R → few R → fileclose sblock ctx_addr f s = Ok (tt, s') →
      reach (R ∖ {[+ f +]}) s'
  | reach_pipe R s f0 f1 s' : reach R s → few R →
      pipeAlloc sblock ctx_addr kalloc junk s = Ok (f0, f1, 0, s') →
      reach ({[+ f1 +]} ⊎ ({[+ f0 +]} ⊎ R)) s'
  | reach_nopipe R s f0 f1 s' : reach R s → few R →
      pipeAlloc sblock ctx_addr kalloc junk s = Ok (f0, f1, -1, s') → reach R s'
  | reach_open R s f x a rd wr s' : reach R s → f ∈ R → file f s = Ok (x, s) → ftype x = FD_NONE →
      set_file f (λ x, mkFile FD_INODE (ref x) rd wr (fpipe x) a 0) s = Ok (tt, s') → reach R s'
  | reach_io R s s' : reach R s → io_step s s' → reach R s'.

Lemma init_ok s0 s :
  filelist s0 = replicate (Z.to_nat NFILE) zero_file → pipes s0 = ∅ →
  init_ftable s0 = Ok (tt, s) → table_ok ∅ s.
Proof.
  intros Hf Hp [= <-]. split; [done| |]; simpl; rewrite ?Hf, ?Hp.
  - split.
    + apply length_replicate.
    + intros i x [-> _]%lookup_replicate. by rewrite multiplicity_empty.
    + by intros i x [-> _]%lookup_replicate.
    + intros f Hf'%mult_pos. rewrite multiplicity_empty in Hf'. lia.
  - assert (∀ p w i, ¬ is_end (replicate (Z.to_nat NFILE) zero_file) p w i) as Hn.
    { intros p w i (x & [-> _]%lookup_replicate & Ht & _). done. }
    split; [by intros p y ?%lookup_empty_Some|by intros p y w ?%lookup_empty_Some| |].
    + by intros p w i ?%Hn.
    + by intros p w i j ?%Hn.
Qed.

(** [openat] turns a file of no kind into an inode file *)
Lemma open_ok R s f x a rd wr s' :
  table_ok R s → f ∈ R → file f s = Ok (x, s) → ftype x = FD_NONE →
  set_file f (λ x, mkFile FD_INODE (ref x) rd wr (fpipe x) a 0) s = Ok (tt, s') → table_ok R s'.
Proof.
  intros T Hf Ef Ht E. destruct (slot_of R s f T Hf) as (i & x' & -> & Ex & Hm & Hr1).
  rewrite (file_run s i x' Ex) in Ef. injection Ef as ->.
  rewrite (set_file_run s i x _ Ex) in E. injection E as <-. destruct T as [Hl Hr Hp].
  split; [done| |].
  - apply (refs_ok_insert R _ _ _ _ _ Ex); [done|done|simpl; lia|done].
  - simpl. assert (∀ p w j, is_end (<[i := mkFile FD_INODE (ref x) rd wr (fpipe x) a 0]> (filelist s)) p w j ↔
      is_end (filelist s) p w j) as Hs.
    { intros p w j. unfold is_end. setoid_rewrite list_lookup_insert_Some. split.
      - intros (y & [(<- & <- & _)|[? ?]] & ? & ?); [done|by exists y].
      - intros (y & Hy & Hty & ?). exists y. split; [|done]. right. split; [|done].
        intros <-. congruence. }
    destruct Hp as [P1 P2 P3 P4]. split; [done| | |].
    + intros p y w Hy. rewrite (P2 p y w Hy). by setoid_rewrite Hs.
    + intros p w j. rewrite Hs. apply P3.
    + intros p w j k. rewrite !Hs. apply P4.
Qed.

Lemma io_ok R s s' : table_ok R s → io_step s s' → table_ok R s'.
Proof.
  intros [Hl Hr Hp] E. destruct E as [s i x o Ex|s p y y' Ey Hi He|s t]; [| |done].
  - split; [done| |by eapply pipes_ok_same].
    apply (refs_ok_insert R _ _ _ _ _ Ex); [done| | |done].
    + exact (ro_ref _ _ Hr i x Ex).
    + exact (ro_free _ _ Hr i x Ex).
  - assert (∀ w, end_open y' w = end_open y w) as Ho.
    { unfold ends in He. injection He as E1 E2. by intros []. }
    split; [done|done|]. destruct Hp as [P1 P2 P3 P4]. simpl. split; [| | |done].
    + intros q z. rewrite lookup_insert_Some. intros [[<- <-]|[? Hq]]; [|by eapply P1].
      destruct (P1 _ _ Ey) as (? & _ & w & Hw). split_and!; [done|done|]. exists w. by rewrite Ho.
    + intros q z w. rewrite lookup_insert_Some. intros [[<- <-]|[? Hq]]; [|by eapply P2].
      rewrite Ho. by apply P2.
    + intros q w i Hq%P3. destruct (decide (q = p)) as [->|]; [rewrite lookup_insert_eq; eauto|].
      by rewrite lookup_insert_ne.
Qed.
Lemma reach_ok R s : reach R s → table_ok R s.
Proof.
  induction 1 as [s0 s Hf Hp E|R s f s' _ T E Hf|R s f f' s' _ T Hf Hs E|R s f s' _ T Hf Hs E
    |R s f0 f1 s' _ T Hs E|R s f0 f1 s' _ T Hs E|R s f x a rd wr s' _ T Hf Ef Ht E|R s s' _ T E].
  - by eapply init_ok.
  - destruct (filealloc_run R s T) as [(i & x & E' & Ex & Hz)|[E' _]]; [|congruence].
    rewrite E in E'. injection E' as -> ->. by apply filealloc_ok.
  - destruct (filedup_run R s f T Hf) as (s2 & E' & T'); [unfold few in Hs; lia|].
    rewrite E in E'. by injection E' as _ ->.
  - destruct (fileclose_run R s f T Hf) as (s2 & T' & _ & [E'|(x & _ & _ & _ & E')]);
      [unfold few in Hs; lia| |].
    + rewrite E in E'. by injection E' as ->.
    + rewrite E in E'. by eapply put_inode_ok.
  - destruct (pipeAlloc_run R s T Hs) as (g0 & g1 & s2 & [(E' & _ & _ & _ & T')|[E' T']]); [|congruence].
    rewrite E in E'. by injection E' as -> -> ->.
  - destruct (pipeAlloc_run R s T Hs) as (g0 & g1 & s2 & [(E' & _)|[E' T']]); [congruence|].
    rewrite E in E'. by injection E' as -> -> ->.
  - by eapply open_ok.
  - by eapply io_ok.
Qed.

(** a reference to an end of the pipe at [p] *)
Definition refers R s (p : Z) (w : bool) (f : Z) : Prop :=
  f ∈ R ∧ ∃ x, file f s = Ok (x, s) ∧ ftype x = FD_PIPE ∧ fpipe x = p ∧ writable x = w.

Lemma refers_end R s p w : table_ok R s → (∃ f, refers R s p w f) ↔ ∃ i, is_end (filelist s) p w i.
Proof.
  intros T. split.
  - intros (f & Hf & x & Ef & ?). destruct (slot_of R s f T Hf) as (i & y & -> & Ey & _).
    rewrite (file_run s i y Ey) in Ef. injection Ef as ->. exists i. by exists x.
  - intros (i & x & Ex & Ht & ?). exists (Z.of_nat i + 1). split.
    + apply elem_of_multiplicity. pose proof (ro_ref _ _ (to_refs _ _ T) i x Ex) as Hr.
      destruct (decide (ref x = 0)) as [Hz|Hz]; [|lia].
      by rewrite (ro_free _ _ (to_refs _ _ T) i x Ex Hz) in Ht.
    + exists x. split; [by apply file_run|done].
Qed.
End refs.

(** ** Properties *)

(** Reference counts of open files.  Whatever the table of open files has gone through
    (files allocated, duplicated, closed, opened, pipes made, reading and writing in
    between), in any order: the count of each file is the number of references handed out and
    not given back; a pipe is in memory exactly as long as there is a reference to one of its
    ends, and an end is marked open exactly as long as there is a reference to it (so that the
    memory of a pipe is given back once, with the last reference, and never before);
    duplicating a reference succeeds, giving one up succeeds (the last one to an inode file
    excepted, which depends on the file system), and [filealloc] returns a new reference or,
    when every file is in use, the null pointer. *)
Theorem file_references {C} `{BlockCache C} `{BlockLog C} sblock ctx_addr kalloc junk R (s : fstate C) :
  (∀ n live, kalloc n live ∉ live) → reach sblock ctx_addr kalloc junk R s → few R →
  (∀ f, 1 ≤ f ≤ NFILE → ∃ x, file f s = Ok (x, s) ∧ ref x = Z.of_nat (multiplicity f R)) ∧
  (∀ p, is_Some (pipes s !! p) ↔ ∃ w f, refers R s p w f) ∧
  (∀ p y w, pipes s !! p = Some y → end_open y w = true ↔ ∃ f, refers R s p w f) ∧
  (∀ f, f ∈ R → ∃ s', filedup f s = Ok (f, s')) ∧
  (∀ f x, f ∈ R → file f s = Ok (x, s) → ftype x ≠ FD_INODE ∨ multiplicity f R ≠ 1%nat →
     ∃ s', fileclose sblock ctx_addr f s = Ok (tt, s')) ∧
  (∃ f s', filealloc s = Ok (f, s') ∧ (f ≠ 0 ∧ f ∉ R ∨ f = 0 ∧ ∀ g, 1 ≤ g ≤ NFILE → g ∈ R)).
Proof.
  intros Hk T%reach_ok Hs; [|done]. pose proof T as [Hl Hr [P1 P2 P3 P4]]. unfold few in Hs.
  split_and!.
  - intros f Hf. destruct (lookup_lt_is_Some_2 (filelist s) (Z.to_nat (f - 1))) as (x & Ex).
    { rewrite (ro_len _ _ Hr). lia. }
    pose proof (file_run s _ x Ex) as Ef. pose proof (ro_ref _ _ Hr _ _ Ex) as Hx.
    replace (Z.of_nat (Z.to_nat (f - 1)) + 1) with f in Ef, Hx by lia. by exists x.
  - intros p. split.
    + intros [y Ey]. destruct (P1 _ _ Ey) as (_ & _ & w & Hw). exists w.
      apply (refers_end R s p w T). by apply (P2 p y w Ey).
    + intros (w & Hf%(refers_end R s p w T)). destruct Hf as [i Hi]. by eapply P3.
  - intros p y w Ey. rewrite (P2 p y w Ey). symmetry. by apply refers_end.
  - intros f Hf. destruct (filedup_run R s f T Hf) as (s' & E & _); [lia|eauto].
  - intros f x Hf Ef Hor.
    destruct (fileclose_run sblock ctx_addr junk R s f T Hf) as (s' & _ & _ & [E|(y & Ey & Ht & Hm & _)]);
      [lia|eauto|].
    rewrite Ef in Ey. injection Ey as <-. by destruct Hor.
  - destruct (filealloc_run R s T) as [(i & x & E & Ex & Hz)|[E Hall]].
    + eexists _, _. split; [exact E|]. left. split; [lia|]. by eapply not_ref.
    + exists 0, s. split; [done|]. by right.
Qed.

(** ** A run: a file is allocated and its reference duplicated *)

(** an allocator that always finds memory *)
Definition fresh_alloc (n : nat) (live : gset Z) : Z := fresh live.

Definition first_files : fstate cachest :=
  mkFs false (replicate (Z.to_nat NFILE) zero_file) ∅ 0 (one_tree INODE_REGULAR 5 hello_block).

Lemma file_references_witness :
  ∃ f s x s', @reach _ (cache_ops small_sb) (log_ops small_sb) small_sb 7 fresh_alloc (λ _, replicate 512 0)
      ({[+ f +]} ⊎ ({[+ f +]} ⊎ ∅)) s ∧ 1 ≤ f ≤ NFILE ∧
    file f s = Ok (x, s) ∧ ref x = 2 ∧ filedup f s = Ok (f, s').
Proof.
  set (rch := @reach _ (cache_ops small_sb) (log_ops small_sb) small_sb 7 fresh_alloc
    (λ _, replicate 512 0)).
  assert (rch ∅ first_files) as H0 by by eapply (reach_init _ _ _ _ first_files).
  pose proof (reach_ok _ _ _ _ (λ n live, is_fresh live) _ _ H0) as T0.
  destruct (filealloc_run ∅ first_files T0) as [(i & x & E & _)|[_ Hall]].
  2: { exfalso. specialize (Hall 1 ltac:(done)). apply mult_pos in Hall.
       rewrite multiplicity_empty in Hall. lia. }
  set (f := Z.of_nat i + 1) in *.
  assert (rch ({[+ f +]} ⊎ ∅) (upd_filelist <[i := set_ref 1 x]> first_files)) as H1.
  { eapply reach_alloc; [exact H0|exact E|lia]. }
  pose proof (reach_ok _ _ _ _ (λ n live, is_fresh live) _ _ H1) as T1.
  assert (f ∈ ({[+ f +]} ⊎ ∅ : gmultiset Z)) as Hf by multiset_solver.
  assert (few ({[+ f +]} ⊎ ∅)) as Hfew.
  { unfold few. rewrite gmultiset_disj_union_right_id, gmultiset_size_singleton. done. }
  destruct (filedup_run _ _ f T1 Hf) as (s2 & E2 & _).
  { unfold few in Hfew. lia. }
  assert (rch ({[+ f +]} ⊎ ({[+ f +]} ⊎ ∅)) s2) as H2 by (eapply reach_dup; [exact H1|done..|exact E2]).
  destruct (file_references small_sb 7 fresh_alloc (λ _, replicate 512 0) _ s2
    (λ n live, is_fresh live) H2) as (Hx & _ & _ & Hd & _).
  { unfold few. rewrite gmultiset_disj_union_right_id, gmultiset_size_disj_union,
      gmultiset_size_singleton. done. }
  assert (1 ≤ f ≤ NFILE) as Hr by by apply (ro_dom _ _ (to_refs _ _ T1)).
  destruct (Hx f Hr) as (y & Ey & Hy). destruct (Hd f) as (s' & E'); [multiset_solver|].
  exists f, s2, y, s'. split_and!; [exact H2|apply Hr|apply Hr|done| |done].
  rewrite Hy, !multiplicity_disj_union, multiplicity_singleton_eq, multiplicity_empty. done.
Defined.
