(* ===== verification/FileTriple.v ===== *)
(** * Open files and inodes together

    The triples of the operations of [File]: what they do to the references of the table of
    open files (by [FileRefs]) and to those of the inodes below it (by [InodeRefs]).  A file
    of the kind [FD_INODE] holds one reference to its inode. *)

From Stdlib Require Import ZArith Lia.
From stdpp Require Import gmultiset.
From S2P Require Import Prelude Triple Words Sync Layout Cache CacheSpec BlockCache.
From S2P Require Import Console Pipe Inode InodeRefs File FileRefs.

(** ** A pipe after a read or a write *)

(** the semaphores of a pipe nobody sleeps on, and its ends *)
Definition pipe_still (e : bool * bool) (y : Pipe) : Prop :=
  (∃ v, 0 ≤ v ∧ wlock y = mkSem v []) ∧ (∃ v, 0 ≤ v ∧ rlock y = mkSem v []) ∧ ends y = e.

Section pipe.
Context (e : bool * bool).
Notation still := (pipe_still e).

Lemma still_lock : keeps still (acquire_spinlock pipe_lock).
Proof.
  unfold acquire_spinlock, try_acquire_spinlock. intros y v y' Hy. mred.
  destruct (locked pipe_lock y); [done|]. by intros [= <- <-].
Qed.
Lemma still_unlock : triple still (release_spinlock pipe_lock) (λ _ y, still y ∧ Pipe.lock y = false).
Proof. by apply triple_modify. Qed.
Lemma still_set_buf d r w : keeps still (modify (set_buf d r w)).
Proof. by apply keeps_modify. Qed.

Lemma still_post_rlock : keeps still post_rlock.
Proof.
  intros y [] y' (Hw & (v & Hv & Er) & He). unfold post_rlock. erewrite bind_Ok by apply gets_run.
  rewrite Er, (bind_Ok _ _ _ _ _ (run_post v _ Hv)). intros [= <-]. split_and!; [done| |done].
  exists (v + 1). split; [lia|done].
Qed.
Lemma still_post_wlock : keeps still post_wlock.
Proof.
  intros y [] y' ((v & Hv & Er) & Hr & He). unfold post_wlock. erewrite bind_Ok by apply gets_run.
  rewrite Er, (bind_Ok _ _ _ _ _ (run_post v _ Hv)). intros [= <-]. split_and!; [|done|done].
  exists (v + 1). split; [lia|done].
Qed.
Lemma still_wait_wlock : keeps still wait_wlock.
Proof.
  intros y [] y' ((v & Hv & Er) & Hr & He). unfold wait_wlock. erewrite bind_Ok by apply gets_run.
  rewrite Er. destruct (decide (0 < v)).
  - rewrite (bind_Ok _ _ _ _ _ (run_wait_free v _ ltac:(lia))). intros [= <-].
    split_and!; [|done|done]. exists (v - 1). split; [lia|done].
  - by rewrite (bind_Sleep _ _ _ (run_wait_taken v y ltac:(lia))).
Qed.
Lemma still_wait_rlock : keeps still wait_rlock.
Proof.
  intros y [] y' (Hw & (v & Hv & Er) & He). unfold wait_rlock. erewrite bind_Ok by apply gets_run.
  rewrite Er. destruct (decide (0 < v)).
  - rewrite (bind_Ok _ _ _ _ _ (run_wait_free v _ ltac:(lia))). intros [= <-].
    split_and!; [done| |done]. exists (v - 1). split; [lia|done].
  - by rewrite (bind_Sleep _ _ _ (run_wait_taken v y ltac:(lia))).
Qed.

(** giving up leaves the lock free *)
Definition gave_up (b : bool) (y : Pipe) : Prop := still y ∧ (b = true → Pipe.lock y = false).

Lemma wait_room_still k n : triple still (wait_room k n) gave_up.
Proof.
  induction n as [|n IH]; cbn [wait_room]; [by intros ????|].
  eapply triple_bind; [apply keeps_gets|]. intros p. destruct (_ =? _); [|by apply triple_ret].
  destruct (_ || _).
  - eapply triple_bind; [apply still_unlock|]. intros []. apply triple_ret. intros y []. by split.
  - eapply triple_bind; [apply still_post_rlock|]. intros [].
    eapply triple_bind; [apply still_unlock|]. intros []. apply triple_and_l.
    eapply triple_bind; [apply still_wait_wlock|]. intros []. exact IH.
Qed.
Lemma wait_data_still k n : triple still (wait_data k n) gave_up.
Proof.
  induction n as [|n IH]; cbn [wait_data]; [by intros ????|].
  eapply triple_bind; [apply keeps_gets|]. intros p. destruct (_ && _); [|by apply triple_ret].
  destruct k.
  - eapply triple_bind; [apply still_unlock|]. intros []. apply triple_ret. intros y []. by split.
  - eapply triple_bind; [apply still_unlock|]. intros []. apply triple_and_l.
    eapply triple_bind; [apply still_wait_rlock|]. intros []. exact IH.
Qed.

Lemma write_bytes_still k l : triple still (write_bytes k l) (λ ok, gave_up (negb ok)).
Proof.
  induction l as [|c l IH]; cbn [write_bytes]; [by apply triple_ret|].
  eapply triple_bind; [apply keeps_gets|]. intros p.
  eapply triple_bind; [apply wait_room_still|]. intros [].
  - apply triple_ret. intros y [Hy Hl]. by split.
  - apply triple_and_l. eapply triple_bind; [apply keeps_gets|]. intros q.
    eapply triple_bind; [apply still_set_buf|]. intros []. exact IH.
Qed.
Lemma read_bytes_still n : keeps still (read_bytes n).
Proof.
  induction n as [|n IH]; cbn [read_bytes]; [apply keeps_ret|].
  apply keeps_bind; [apply keeps_gets|]. intros p. destruct (_ =? _); [apply keeps_ret|].
  apply keeps_bind; [apply keeps_getopt|]. intros c.
  apply keeps_bind; [apply still_set_buf|]. intros _. apply keeps_bind; [done|]. intros l. apply keeps_ret.
Qed.

Lemma pipeWrite_still k l : triple still (pipeWrite k l) (λ _ y, still y ∧ Pipe.lock y = false).
Proof.
  unfold pipeWrite. eapply triple_bind; [apply still_lock|]. intros [].
  eapply triple_bind; [apply write_bytes_still|]. intros [].
  - apply triple_and_l. eapply triple_bind; [apply still_post_rlock|]. intros [].
    eapply triple_bind; [apply still_unlock|]. intros []. by apply triple_ret.
  - apply triple_ret. intros y [Hy Hl]. auto.
Qed.
Lemma pipeRead_still k n : triple still (pipeRead k n) (λ _ y, still y ∧ Pipe.lock y = false).
Proof.
  unfold pipeRead. eapply triple_bind; [apply still_lock|]. intros [].
  eapply triple_bind; [apply keeps_gets|]. intros p.
  eapply triple_bind; [apply wait_data_still|]. intros [].
  - apply triple_ret. intros y [Hy Hl]. auto.
  - apply triple_and_l. eapply triple_bind; [apply read_bytes_still|]. intros l.
    eapply triple_bind; [apply still_post_wlock|]. intros [].
    eapply triple_bind; [apply still_unlock|]. intros []. by apply triple_ret.
Qed.
End pipe.

(** ** The references the open files hold *)

Definition inode_of (x : File) : option Z := if decide (ftype x = FD_INODE) then Some (fip x) else None.
Definition file_inodes (fl : list File) : gmultiset Z := list_to_set_disj (omap inode_of fl).

(** what one slot adds *)
Definition adds (x : File) : gmultiset Z := match inode_of x with Some a => {[+ a +]} | None => ∅ end.

Lemma file_inodes_cons x fl : file_inodes (x :: fl) = adds x ⊎ file_inodes fl.
Proof. unfold file_inodes, adds. simpl. destruct (inode_of x); simpl; multiset_solver. Qed.

Lemma file_inodes_insert fl i x x' :
  fl !! i = Some x → adds x ⊎ file_inodes (<[i := x']> fl) = adds x' ⊎ file_inodes fl.
Proof.
  revert i. induction fl as [|y fl IH]; intros [|i] Ex; simpl in *; [done..| |].
  - injection Ex as ->. rewrite !file_inodes_cons. multiset_solver.
  - rewrite !file_inodes_cons. specialize (IH i Ex). multiset_solver.
Qed.

Lemma file_inodes_same fl i x x' :
  fl !! i = Some x → inode_of x' = inode_of x → file_inodes (<[i := x']> fl) = file_inodes fl.
Proof.
  intros Ex E. pose proof (file_inodes_insert fl i x x' Ex) as Hi. unfold adds in Hi. rewrite E in Hi.
  destruct (inode_of x); multiset_solver.
Qed.

Lemma file_inodes_size fl : (size (file_inodes fl) ≤ length fl)%nat.
Proof.
  induction fl as [|x fl IH]; [done|]. rewrite file_inodes_cons, gmultiset_size_disj_union. simpl.
  unfold adds. destruct (inode_of x); rewrite ?gmultiset_size_singleton, ?gmultiset_size_empty; lia.
Qed.

Section files.
Context {C : Type} `{BlockCache C} `{BlockLog C} (sblock : SuperBlock).
Context (ctx_addr : Z) (kalloc : nat → gset Z → Z) (junk : Z → list Z).
Hypothesis kalloc_fresh : ∀ n live, kalloc n live ∉ live.
Notation st := (fstate C).
Implicit Types (s : st) (D J R : gmultiset Z) (L : gset Z) (fl : list File).
Notation led := (@ledger C).
Notation reach := (reach sblock ctx_addr kalloc junk).

(** ** Code that does not touch the inodes *)

(** the inodes and the references to them; the files of [G] are no inode files *)
Record calm (R : gmultiset Z) (t : itree C) (G : gset Z) s : Prop := {
  ca_refs : file_inodes (filelist s) = R;
  ca_fs : fs s = t;
  ca_len : length (filelist s) = Z.to_nat NFILE;
  ca_not : ∀ f x, f ∈ G → filelist s !! Z.to_nat (f - 1) = Some x → inode_of x = None }.
(** a slot with no reference is of no kind *)
Definition blank s : Prop := ∀ x, x ∈ filelist s → ref x = 0 → ftype x = FD_NONE.

Lemma triple_file P f : triple P (file f) (λ x s, filelist s !! Z.to_nat (f - 1) = Some x ∧ P s).
Proof.
  eapply triple_post; [apply triple_getopt|]. intros x s. simpl. destruct (f =? 0); [by intros [? _]|done].
Qed.

Lemma triple_set_file P Q f g :
  (∀ s x, P s → filelist s !! Z.to_nat (f - 1) = Some x → Q (upd_filelist <[Z.to_nat (f - 1) := g x]> s)) →
  triple P (set_file f g) (λ _, Q).
Proof.
  intros HQ. unfold set_file. eapply triple_bind; [apply triple_file|]. intros x.
  apply triple_modify. intros s [Ex HP]. auto.
Qed.

Lemma calm_files R t G s s' : filelist s' = filelist s → fs s' = fs s → calm R t G s → calm R t G s'.
Proof. intros E1 E2 [H1 H2 Hlen H3]. split; rewrite ?E1, ?E2; auto. Qed.

(** a file changed to one of no inode, or one with the same *)
Lemma calm_set_file R t G f g :
  (∀ x, (f ∈ G → inode_of x = None) → inode_of (g x) = inode_of x) →
  keeps (calm R t G) (set_file f g).
Proof.
  intros Hg. apply triple_set_file. intros s x [H1 H2 Hlen H3] Ex.
  assert (inode_of (g x) = inode_of x) as E by (apply Hg; eauto).
  split; simpl; [by rewrite (file_inodes_same _ _ x)|done|by rewrite length_insert|].
  intros f' y Hf' Hy. apply list_lookup_insert_Some in Hy as [(Ef & <- & _)|[? Hy]]; [|by eapply H3].
  rewrite E. apply (H3 f' x); [done|]. by rewrite <-Ef.
Qed.

Lemma calm_lock R t G : keeps (calm R t G) (acquire_spinlock ftable_lock).
Proof.
  unfold acquire_spinlock, try_acquire_spinlock. intros s v s0 HL. mred.
  destruct (locked ftable_lock s); [done|]. intros [= <- <-]. by apply (calm_files _ _ _ s).
Qed.
Lemma calm_unlock R t G : keeps (calm R t G) (release_spinlock ftable_lock).
Proof. apply keeps_modify. intros s. by apply calm_files. Qed.
Lemma calm_pipes R t G f : keeps (calm R t G) (modify (upd_pipes f)).
Proof. apply keeps_modify. intros s. by apply calm_files. Qed.
Lemma calm_npipes R t G f : keeps (calm R t G) (modify (upd_npipes f)).
Proof. apply keeps_modify. intros s. by apply calm_files. Qed.
Lemma calm_file R t G f : keeps (calm R t G) (file f).
Proof. apply keeps_getopt. Qed.
Hint Resolve calm_lock calm_unlock calm_pipes calm_npipes calm_file : keeps.
Lemma calm_on_pipe {A} R t G p (m : M Pipe A) : keeps (calm R t G) (on_pipe p m).
Proof.
  unfold on_pipe. keep. apply keeps_on. intros s y. by apply calm_files.
Qed.
Hint Resolve calm_on_pipe : keeps.
Lemma calm_pipeClose R t G p w : keeps (calm R t G) (pipeClose p w).
Proof. unfold pipeClose. keep. Qed.
Lemma calm_alloc_pipe R t G : keeps (calm R t G) (alloc_pipe kalloc).
Proof. unfold alloc_pipe. keep. Qed.
Hint Resolve calm_pipeClose calm_alloc_pipe : keeps.

Lemma calm_filealloc R t G :
  triple (λ s, calm R t G s ∧ blank s) filealloc
    (λ f s, calm R t (if f =? 0 then G else {[f]} ∪ G) s ∧ blank s).
Proof.
  unfold filealloc. eapply (triple_bind _ _ _ (λ _ s, calm R t G s ∧ blank s)).
  { intros s v s' [Hc Hb] E. split; [by eapply calm_lock|]. revert E.
    unfold acquire_spinlock, try_acquire_spinlock. mred. destruct (locked _ s); [done|].
    by intros [= <- <-]. }
  intros []. generalize (Z.to_nat NFILE). intros n. cut (∀ i, 0 ≤ i →
    triple (λ s, calm R t G s ∧ blank s) (alloc_loop n i)
      (λ f s, calm R t (if f =? 0 then G else {[f]} ∪ G) s ∧ blank s)); [intros Hn; by apply Hn|].
  induction n as [|n IH]; intros i Hi; cbn [alloc_loop].
  - eapply (triple_bind _ _ _ (λ _ s, calm R t G s ∧ blank s)).
    { apply triple_modify. intros s [Hc Hb]. split; [by apply (calm_files _ _ _ s)|done]. }
    intros []. by apply triple_ret.
  - eapply triple_bind; [apply triple_file|]. intros x. destruct (Z.eqb_spec (ref x) 0) as [Hz|].
    2: { eapply triple_pre; [|apply IH; lia]. by intros s [_ ?]. }
    eapply (triple_bind _ _ _ (λ _ s, calm R t ({[i + 1]} ∪ G) s ∧ blank s)).
    { apply triple_set_file. intros s y (Ex & Hc & Hb) Ey. assert (y = x) as -> by congruence.
      assert (ftype x = FD_NONE) as Ht by (eapply Hb; [by eapply list_elem_of_lookup_2|done]).
      split.
      - destruct Hc as [H1 H2 Hlen H3].
        split; simpl; [by rewrite (file_inodes_same _ _ x)|done|by rewrite length_insert|].
        intros f z Hf Hz'. apply list_lookup_insert_Some in Hz' as [(E & <- & _)|[Hne Hz']].
        + unfold inode_of. simpl. by rewrite Ht.
        + apply elem_of_union in Hf as [->%elem_of_singleton|Hf]; [done|by apply (H3 f)].
      - intros z Hz' Hr. simpl in Hz'. apply list_elem_of_lookup in Hz' as [k Hk].
        apply list_lookup_insert_Some in Hk as [(E & <- & _)|[Hne Hk]]; [done|].
        apply (Hb z); [by eapply list_elem_of_lookup_2|done]. }
    intros []. eapply (triple_bind _ _ _ (λ _ s, calm R t ({[i + 1]} ∪ G) s ∧ blank s)).
    { apply triple_modify. intros s [Hc Hb]. split; [by apply (calm_files _ _ _ s)|done]. }
    intros []. apply triple_ret. intros s. by rewrite (proj2 (Z.eqb_neq (i + 1) 0)) by lia.
Qed.

(** closing a file that is no inode file *)
Lemma calm_fileclose R t G f : f ∈ G → keeps (calm R t G) (fileclose sblock ctx_addr f).
Proof.
  intros Hf. assert (∀ v, keeps (calm R t G) (set_file f (set_ref v))) as Hs.
  { intros v. by apply calm_set_file. }
  assert (keeps (calm R t G) (set_file f (set_ftype FD_NONE))) as Ht.
  { apply calm_set_file. intros x E. unfold inode_of at 1. simpl. by rewrite E. }
  unfold fileclose. apply keeps_bind; [apply calm_lock|]. intros [].
  apply keeps_bind; [apply calm_file|]. intros x.
  apply keeps_bind; [apply keeps_assert|]. intros [].
  apply keeps_bind; [by apply calm_set_file|]. intros [].
  eapply triple_bind; [apply triple_file|]. intros now.
  eapply (triple_pre (λ s, inode_of now = None ∧ calm R t G s)).
  { intros s [Ex Hc]. split; [by eapply (ca_not _ _ _ _ Hc)|done]. }
  apply triple_fact. intros Hn. change (keeps (calm R t G)
    (if 0 <? ref now then release_spinlock ftable_lock else
     set_file f (set_ftype FD_NONE);; release_spinlock ftable_lock;;
     match ftype now with
     | FD_PIPE => pipeClose (fpipe now) (writable now)
     | FD_INODE => begin_op ctx_addr;; on_fs (inode_put sblock (Some ctx_addr) (fip now));; end_op ctx_addr
     | FD_NONE => mret tt end)).
  destruct (0 <? ref now); [apply calm_unlock|].
  apply keeps_bind; [done|]. intros []. apply keeps_bind; [apply calm_unlock|]. intros [].
  unfold inode_of in Hn. destruct (ftype now); [apply keeps_ret|apply calm_pipeClose|done].
Qed.

Lemma calm_pipeAlloc R t G :
  triple (λ s, calm R t G s ∧ blank s) (pipeAlloc sblock ctx_addr kalloc junk) (λ _, calm R t G).
Proof.
  assert (∀ G' f0 f1 p, (f0 ≠ 0 → f0 ∈ G') → (f1 ≠ 0 → f1 ∈ G') → G ⊆ G' →
    triple (calm R t G') (alloc_bad sblock ctx_addr f0 f1 p) (λ _, calm R t G)) as Hbad.
  { intros G' f0 f1 p Hn0 Hn1 HG. unfold alloc_bad.
    eapply (triple_post _ _ (λ _, calm R t G')).
    - apply keeps_bind; [keep|]. intros [].
      apply keeps_bind; [|intros []; apply keeps_bind; [|intros []; apply keeps_ret]].
      + destruct (Z.eqb_spec f0 0); [apply keeps_ret|]. apply calm_fileclose; auto.
      + destruct (Z.eqb_spec f1 0); [apply keeps_ret|]. apply calm_fileclose; auto.
    - intros v s [H2 H3 Hlen H4]. split; [done|done|done|]. intros f x Hf. by apply H4, HG. }
  unfold pipeAlloc. eapply triple_bind; [apply calm_filealloc|]. intros f0. cbv beta.
  destruct (Z.eqb_spec f0 0) as [|Hf0].
  { apply triple_and_l. apply (Hbad G); set_solver. }
  eapply triple_bind; [apply calm_filealloc|]. intros f1. cbv beta. apply triple_and_l.
  destruct (Z.eqb_spec f1 0) as [|Hf1].
  { apply (Hbad ({[f0]} ∪ G)); set_solver. }
  eapply triple_bind; [apply calm_alloc_pipe|]. intros p.
  destruct (p =? 0); [apply (Hbad ({[f1]} ∪ ({[f0]} ∪ G))); set_solver|].
  eapply triple_bind; [apply calm_pipes|]. intros [].
  eapply (triple_bind _ _ _ (λ _, calm R t ({[f1]} ∪ ({[f0]} ∪ G)))).
  { apply calm_set_file. intros x E. rewrite E by set_solver. done. }
  intros []. eapply (triple_bind _ _ _ (λ _, calm R t ({[f1]} ∪ ({[f0]} ∪ G)))).
  { apply calm_set_file. intros x E. rewrite E by set_solver. done. }
  intros []. apply triple_ret. intros s [H2 H3 Hlen H4]. split; [done|done|done|]. intros f x Hf.
  apply H4. set_solver.
Qed.

(** ** The references to the inodes, those of the open files included *)

Record lsys J L s : Prop := {
  ls_len : length (filelist s) = Z.to_nat NFILE;
  ls_led : led (J ⊎ file_inodes (filelist s)) L (fs s) }.

(** what is calm for files of no inode changes no reference *)
Lemma lsys_calm J L s : lsys J L s → calm (file_inodes (filelist s)) (fs s) ∅ s.
Proof. intros [H1 _]. split; [done..|]. by intros f x ?%elem_of_empty. Qed.
Lemma calm_lsys' J L s s' :
  lsys J L s → calm (file_inodes (filelist s)) (fs s) ∅ s' → lsys J L s'.
Proof. intros [H1 H2] [Ef Et Hl _]. split; [done|]. by rewrite Ef, Et. Qed.
Lemma calm_lsys {A} J L (m : M st A) : (∀ R t, keeps (calm R t ∅) m) → keeps (lsys J L) m.
Proof.
  intros Hm s a s' HL E. eapply calm_lsys'; [done|]. eapply Hm; [|exact E]. by eapply lsys_calm.
Qed.

Lemma lsys_size J L s : lsys J L s → (size (file_inodes (filelist s)) ≤ Z.to_nat NFILE)%nat.
Proof. intros [H1 _]. rewrite <-H1. apply file_inodes_size. Qed.

Lemma lsys_on_fs {A} J L (m : M (itree C) A) (φ : A → Prop)
    (J' : A → gmultiset Z) (L' : A → gset Z) :
  (∀ F, (size F ≤ Z.to_nat NFILE)%nat →
     triple (led (J ⊎ F) L) m (λ a t, φ a ∧ led (J' a ⊎ F) (L' a) t)) →
  triple (lsys J L) (on_fs m) (λ a s, φ a ∧ lsys (J' a) (L' a) s).
Proof.
  intros Hm s a s' HL E. pose proof (lsys_size J L s HL) as Hsz. destruct HL as [H1 H2].
  unfold on_fs, on in E. destruct (m (fs s)) as [[b t]| | | | |] eqn:Em; try done.
  injection E as <- <-. destruct (Hm _ Hsz _ _ _ H2 Em) as [Hφ Ht]. split; [done|]. by split.
Qed.

(** inodes with few references besides those of the open files *)
Definition few_held J : Prop := Z.of_nat (size J) + 65540 < 2 ^ 62.

Lemma few_held_inodes J F : few_held J → (size F ≤ Z.to_nat NFILE)%nat → few_inodes (J ⊎ F).
Proof.
  unfold few_held, few_inodes. change (Z.to_nat NFILE) with (Z.to_nat 65536). intros HJ HF.
  rewrite gmultiset_size_disj_union. lia.
Qed.

(** ** Both accounts: the references to open files [D], and those to inodes *)

(** [J]: the references to inodes other than those of the open files *)
Definition fsys D J L s : Prop := reach D s ∧ lsys J L s.

Lemma fsys_table D J L s : fsys D J L s → table_ok D s.
Proof. intros [Hr _]. by eapply reach_ok. Qed.
Lemma fsys_blank D J L s : fsys D J L s → blank s.
Proof.
  intros T%fsys_table x Hx Hz. apply list_elem_of_lookup in Hx as [i Ei].
  by apply (ro_free _ _ (to_refs _ _ T) i x).
Qed.

(** code of the inode layer; the files stay *)
Lemma fsys_on_fs {A} Φ D J L (m : M (itree C) A) (φ : A → Prop)
    (J' : A → gmultiset Z) (L' : A → gset Z) :
  (∀ F, (size F ≤ Z.to_nat NFILE)%nat →
     triple (led (J ⊎ F) L) m (λ a t, φ a ∧ led (J' a ⊎ F) (L' a) t)) →
  triple (λ s, fsys D J L s ∧ Φ (filelist s)) (on_fs m)
    (λ a s, φ a ∧ fsys D (J' a) (L' a) s ∧ Φ (filelist s)).
Proof.
  intros Hm s a s' [[Hr HL] HΦ] E. assert (∃ t, s' = upd_fs (λ _, t) s) as [t ->].
  { revert E. unfold on_fs, on. destruct (m (fs s)) as [[? t]| | | | |]; naive_solver. }
  destruct (lsys_on_fs J L m φ J' L' Hm s a _ HL E) as [Hφ HL'].
  split; [done|]. split; [|done]. split; [|done]. eapply reach_io; [done|]. constructor.
Qed.

(** with nothing to say about the files or the result *)
Lemma fsys_fs {A} D J L (m : M (itree C) A) (J' : A → gmultiset Z) (L' : A → gset Z) :
  (∀ F, (size F ≤ Z.to_nat NFILE)%nat →
     triple (led (J ⊎ F) L) m (λ a, led (J' a ⊎ F) (L' a))) →
  triple (fsys D J L) (on_fs m) (λ a, fsys D (J' a) (L' a)).
Proof.
  intros Hm s a s' Hs E.
  destruct (fsys_on_fs (λ _, True) D J L m (λ _, True) J' L') with s a s' as (_ & ? & _); [|done..].
  intros F HF. eapply triple_post; [by apply Hm|done].
Qed.
Lemma fsys_keeps {A} D J L (m : M (itree C) A) :
  (∀ R, keeps (led R L) m) → keeps (fsys D J L) (on_fs m).
Proof. intros Hm. apply (fsys_fs D J L m (λ _, J) (λ _, L)). intros F _. apply Hm. Qed.

Lemma fsys_lock D J L a :
  triple (fsys D J L) (on_fs (inode_lock a)) (λ _ s, a ∉ L ∧ fsys D J ({[a]} ∪ L) s).
Proof.
  intros s v s' Hs E.
  destruct (fsys_on_fs (λ _, True) D J L (inode_lock a) (λ _, a ∉ L) (λ _, J) (λ _, {[a]} ∪ L))
    with s v s' as (? & ? & _); [|done..]. intros F _. apply triple_inode_lock.
Qed.
Lemma fsys_unlock D J L a :
  a ∉ L → triple (fsys D J ({[a]} ∪ L)) (on_fs (inode_unlock a)) (λ _, fsys D J L).
Proof.
  intros Ha. apply (fsys_fs D J _ _ (λ _, J) (λ _, L)). intros F _. by apply triple_inode_unlock'.
Qed.
Lemma fsys_put D J L ctx a :
  few_held J → triple (fsys D ({[+ a +]} ⊎ J) L) (on_fs (inode_put sblock ctx a)) (λ _, fsys D J L).
Proof.
  intros HJ. apply (fsys_fs D _ L _ (λ _, J) (λ _, L)). intros F HF.
  rewrite <-(assoc_L (⊎)). apply triple_inode_put. by apply few_held_inodes.
Qed.
Lemma fsys_lift {A} D J L (m : M C A) : keeps (fsys D J L) (on_fs (lift m)).
Proof. apply fsys_keeps. intros R. apply keeps_lift. Qed.

(** what is calm, by what it does to the references to files *)
Lemma calm_fsys {A} D D' J L (m : M st A) s a s' :
  (∀ R t, keeps (calm R t ∅) m) → fsys D J L s → m s = Ok (a, s') → reach D' s' → fsys D' J L s'.
Proof. intros Hm [Hr HL] E Hr'. split; [done|]. by eapply (calm_lsys J L m Hm). Qed.

(** ** Opening and closing *)

(** the file at [f] is of no kind *)
Definition unused (f : Z) (fl : list File) : Prop :=
  ∃ x, fl !! Z.to_nat (f - 1) = Some x ∧ ftype x = FD_NONE.

Lemma fsys_filealloc D J L :
  triple (fsys D J L) filealloc (λ f s,
    if f =? 0 then fsys D J L s else fsys ({[+ f +]} ⊎ D) J L s ∧ unused f (filelist s)).
Proof.
  intros s f s' Hs E. pose proof Hs as T%fsys_table. destruct Hs as [Hr HL].
  assert (lsys J L s') as HL'.
  { pose proof (calm_filealloc (file_inodes (filelist s)) (fs s) ∅ s f s') as Hc.
    destruct Hc as [[H1 H2 H3 H4] _]; [split; [by eapply lsys_calm|by eapply fsys_blank]|done|].
    eapply calm_lsys'; [done|]. split; [done..|]. by intros ? ? ?%elem_of_empty. }
  destruct (Z.eqb_spec f 0) as [->|Hf].
  - destruct (filealloc_run D s T) as [(i & x & E' & _)|[E' _]]; rewrite E in E'.
    + injection E' as E' _. lia.
    + by injection E' as ->.
  - split; [split; [by eapply reach_alloc|done]|].
    destruct (filealloc_run D s T) as [(i & x & E' & Ex & Hz)|[E' _]]; rewrite E in E'; [|congruence].
    injection E' as -> ->. exists (set_ref 1 x). replace (Z.to_nat (Z.of_nat i + 1 - 1)) with i by lia.
    split; [apply list_lookup_insert_eq; by eapply lookup_lt_Some|].
    by apply (ro_free _ _ (to_refs _ _ T) i x).
Qed.

Lemma calm_filedup R t G f : keeps (calm R t G) (filedup f).
Proof. unfold filedup. keep. by apply calm_set_file. Qed.
Lemma fsys_filedup D J L f :
  f ∈ D → few D → triple (fsys D J L) (filedup f) (λ _, fsys ({[+ f +]} ⊎ D) J L).
Proof.
  intros Hf HD s f' s' Hs E. eapply calm_fsys; [|done|exact E|].
  - intros R t. apply calm_filedup.
  - destruct Hs. by eapply reach_dup.
Qed.

Lemma fsys_pipeAlloc D J L :
  few D → triple (fsys D J L) (pipeAlloc sblock ctx_addr kalloc junk) (λ r s,
    let '(f0, f1, v) := r in
    v = 0 ∧ fsys ({[+ f1 +]} ⊎ ({[+ f0 +]} ⊎ D)) J L s ∨ v = -1 ∧ fsys D J L s).
Proof.
  intros HD s [[f0 f1] v] s' Hs E. pose proof Hs as T%fsys_table. pose proof Hs as [Hr HL].
  assert (lsys J L s') as HL'.
  { eapply calm_lsys'; [done|]. eapply calm_pipeAlloc; [|exact E].
    split; [by eapply lsys_calm|by eapply fsys_blank]. }
  destruct (pipeAlloc_run sblock ctx_addr kalloc junk kalloc_fresh D s T HD)
    as (g0 & g1 & s2 & [(E' & _)|(E' & _)]); rewrite E in E'; injection E' as -> -> -> ->.
  - left. split; [done|]. split; [by eapply reach_pipe|done].
  - right. split; [done|]. split; [by eapply reach_nopipe|done].
Qed.

(** a file that is not of the kind [FD_INODE] any more gives its reference back *)
Lemma lsys_drop J L f now :
  triple (λ s, filelist s !! Z.to_nat (f - 1) = Some now ∧ lsys J L s) (set_file f (set_ftype FD_NONE))
    (λ _, lsys (adds now ⊎ J) L).
Proof.
  apply triple_set_file. intros s x [Ex [H1 H2]] Ex'. assert (x = now) as -> by congruence.
  split; simpl; [by rewrite length_insert|].
  pose proof (file_inodes_insert _ _ now (set_ftype FD_NONE now) Ex) as E.
  change (adds (set_ftype FD_NONE now)) with (∅ : gmultiset Z) in E. rewrite (left_id_L ∅ (⊎)) in E.
  by rewrite <-(assoc_L (⊎)), (comm_L (⊎) J), (assoc_L (⊎)), E, (comm_L (⊎) _ J).
Qed.

Lemma lsys_put J L a :
  few_held J →
  triple (lsys ({[+ a +]} ⊎ J) L) (put_inode sblock ctx_addr a) (λ _, lsys J L).
Proof.
  intros HJ. assert (∀ J (m : M C unit), keeps (lsys J L) (on_fs (lift m))) as Hlift.
  { intros J' m. eapply triple_post;
      [apply (lsys_on_fs J' L (lift m) (λ _, True) (λ _, J') (λ _, L))|by intros ? ? [_ ?]].
    intros F _. eapply triple_post; [apply keeps_lift|done]. }
  unfold put_inode. eapply triple_bind; [apply Hlift|]. intros [].
  eapply (triple_bind _ _ _ (λ _, lsys J L)); [|intros []; apply Hlift].
  eapply triple_post; [apply (lsys_on_fs _ L _ (λ _, True) (λ _, J) (λ _, L))|by intros ? ? [_ ?]].
  intros F HF. eapply (triple_post _ _ (λ _, led (J ⊎ F) L)); [|by split].
  rewrite <-(assoc_L (⊎)). apply triple_inode_put. by apply few_held_inodes.
Qed.

Lemma lsys_fileclose J L f :
  few_held J → keeps (lsys J L) (fileclose sblock ctx_addr f).
Proof.
  intros HJ. unfold fileclose. apply keeps_bind; [apply calm_lsys; intros; apply calm_lock|]. intros [].
  apply keeps_bind; [apply keeps_getopt|]. intros x.
  apply keeps_bind; [apply keeps_assert|]. intros [].
  apply keeps_bind; [apply calm_lsys; intros; by apply calm_set_file|]. intros [].
  eapply triple_bind; [apply triple_file|]. intros now. destruct (0 <? ref now).
  { eapply triple_pre; [|apply calm_lsys; intros; apply calm_unlock]. by intros s [_ ?]. }
  eapply triple_bind; [apply lsys_drop|]. intros [].
  eapply triple_bind; [apply calm_lsys; intros; apply calm_unlock|]. intros [].
  unfold adds, inode_of. destruct (ftype now); simpl; rewrite ?(left_id_L ∅ (⊎)).
  - apply keeps_ret.
  - apply calm_lsys. intros. apply calm_pipeClose.
  - by apply lsys_put.
Qed.

Lemma fsys_fileclose D J L f :
  f ∈ D → few D → few_held J →
  triple (fsys D J L) (fileclose sblock ctx_addr f) (λ _, fsys (D ∖ {[+ f +]}) J L).
Proof.
  intros Hf HD HJ s [] s' [Hr HL] E. split; [by eapply reach_close|].
  by eapply lsys_fileclose.
Qed.

(** [openat] makes the file at [f] one of the inode [a]; it takes over the reference *)
Lemma fsys_open D J L f a rd wr :
  f ∈ D →
  triple (λ s, fsys D ({[+ a +]} ⊎ J) L s ∧ unused f (filelist s))
    (set_file f (λ x, mkFile FD_INODE (ref x) rd wr (fpipe x) a 0)) (λ _, fsys D J L).
Proof.
  intros Hf s [] s' [[Hr [H1 H2]] (x & Ex & Ht)] E.
  assert (file f s = Ok (x, s)) as Ef.
  { unfold file. apply getopt_run. pose proof (reach_ok _ _ _ _ kalloc_fresh _ _ Hr) as T.
    pose proof (ro_dom _ _ (to_refs _ _ T) f Hf). by rewrite (proj2 (Z.eqb_neq f 0)) by lia. }
  split; [by eapply reach_open|]. unfold set_file in E. rewrite (bind_Ok _ _ _ _ _ Ef) in E.
  injection E as <-. split; simpl; [by rewrite length_insert|].
  set (x' := mkFile FD_INODE (ref x) rd wr (fpipe x) a 0).
  pose proof (file_inodes_insert _ _ x x' Ex) as Ei. unfold adds at 1, inode_of in Ei.
  rewrite Ht in Ei. simpl in Ei. rewrite (left_id_L ∅ (⊎)) in Ei. rewrite Ei.
  change (adds x') with ({[+ a +]} : gmultiset Z).
  by rewrite (assoc_L (⊎)), (comm_L (⊎) J).
Qed.

(** ** Reading and writing *)

Lemma fsys_filestat D J L f : keeps (fsys D J L) (filestat f).
Proof.
  unfold filestat. apply keeps_bind; [apply keeps_getopt|]. intros x.
  destruct (ftype x); [apply keeps_ret..|].
  eapply triple_bind; [apply fsys_lock|]. intros []. apply triple_fact. intros Ha.
  eapply triple_bind; [apply fsys_keeps; intros; apply keeps_stati|]. intros v.
  eapply triple_bind; [by apply fsys_unlock|]. intros []. apply keeps_ret.
Qed.

Lemma fsys_set_off D J L f g : keeps (fsys D J L) (set_file f (λ x, set_off (g x) x)).
Proof.
  apply triple_set_file. intros s x [Hr HL] Ex. split.
  - eapply reach_io; [done|]. by apply io_off.
  - eapply calm_lsys'; [done|].
    pose proof (calm_set_file (file_inodes (filelist s)) (fs s) ∅ f (λ x, set_off (g x) x)) as Hc.
    pose proof (lsys_calm J L s HL) as [H1 H2 H3 H4].
    split; simpl; [by rewrite (file_inodes_same _ _ x)|done|by rewrite length_insert|].
    by intros ? ? ?%elem_of_empty.
Qed.

Lemma fsys_on_pipe {A} D J L p (m : M Pipe A) :
  (∀ e, triple (pipe_still e) m (λ _ y, pipe_still e y ∧ Pipe.lock y = false)) →
  keeps (fsys D J L) (on_pipe p m).
Proof.
  intros Hm s a s' Hs E. pose proof Hs as T%fsys_table. destruct Hs as [Hr HL].
  assert (lsys J L s') as HL'.
  { eapply (calm_lsys J L (on_pipe p m)); [|done..]. intros. apply calm_on_pipe. }
  split; [|done]. unfold on_pipe in E. minv E.
  destruct (triple_getopt (λ _, True) _ _ _ _ I R) as [Ey _].
  assert (s0 = s) as -> by (unfold getopt in R; destruct (pipes s !! p); naive_solver).
  unfold on in R0. destruct (m v) as [[b y']| | | | |] eqn:Em; try done. injection R0 as <- <-.
  destruct (po_pipe _ _ (to_pipes _ _ T) _ _ Ey) as (_ & [Hl Hw Hrl] & _).
  destruct (Hm (ends v) v b y') as [(Hw' & Hr' & He) Hl']; [by split_and!|done|].
  eapply reach_io; [done|]. by eapply io_pipe.
Qed.

Lemma fsys_fileread D J L f n : keeps (fsys D J L) (fileread sblock f n).
Proof.
  unfold fileread. apply keeps_bind; [apply keeps_getopt|]. intros x.
  destruct (negb (readable x)); [apply keeps_ret|]. destruct (ftype x); [apply keeps_panic| |].
  - apply keeps_bind; [apply keeps_gets|]. intros s. apply fsys_on_pipe. intros e. apply pipeRead_still.
  - eapply triple_bind; [apply fsys_lock|]. intros []. apply triple_fact. intros Ha.
    eapply triple_bind; [apply fsys_keeps; intros; apply keeps_inode_read; set_solver|]. intros [l r].
    eapply triple_bind; [apply (keeps_when (fsys D J ({[fip x]} ∪ L))), fsys_set_off|]. intros [].
    eapply triple_bind; [by apply fsys_unlock|]. intros []. apply keeps_ret.
Qed.

(** the file at [f] is one of the inode [a] *)
Definition of_inode (f a : Z) (fl : list File) : Prop :=
  ∃ x, fl !! Z.to_nat (f - 1) = Some x ∧ fip x = a.
Definition fsys_of D J L f a s : Prop := fsys D J L s ∧ of_inode f a (filelist s).

Lemma of_file D J L f a :
  triple (fsys_of D J L f a) (file f) (λ x s, fip x = a ∧ fsys_of D J L f a s).
Proof.
  eapply triple_post; [apply triple_file|]. intros x s (Ex & Hs & y & Ey & Hy).
  split; [congruence|]. split; [done|]. by exists y.
Qed.
Lemma of_keeps {A} D J L f a (m : M (itree C) A) :
  (∀ R, keeps (led R L) m) → keeps (fsys_of D J L f a) (on_fs m).
Proof.
  intros Hm. eapply triple_post;
    [apply (fsys_on_fs (of_inode f a) D J L m (λ _, True) (λ _, J) (λ _, L))|by intros v s [_ ?]].
  intros F _. eapply triple_post; [apply Hm|by split].
Qed.
Lemma of_set_off D J L f a g : keeps (fsys_of D J L f a) (set_file f (λ x, set_off (g x) x)).
Proof.
  intros s [] s' [Hs Ho] E. split; [by eapply fsys_set_off|]. destruct Ho as (y & Ey & Hy).
  revert E. apply (triple_set_file (λ s, filelist s !! Z.to_nat (f - 1) = Some y)
    (λ s, of_inode f a (filelist s))); [|done].
  intros t x Ex Ex'. assert (x = y) as -> by congruence. eexists.
  split; [apply list_lookup_insert_eq; by eapply lookup_lt_Some|done].
Qed.

Lemma fsys_write_op D J L f src len : keeps (fsys D J L) (write_op sblock ctx_addr f src len).
Proof.
  unfold write_op. apply keeps_bind; [apply fsys_lift|]. intros [].
  eapply triple_bind; [apply triple_file|]. intros x.
  eapply (triple_bind _ _ _ (λ _ s, fip x ∉ L ∧ fsys_of D J ({[fip x]} ∪ L) f (fip x) s)).
  { eapply triple_pre; [|eapply (fsys_on_fs (of_inode f (fip x)) D J L _ (λ _, fip x ∉ L) (λ _, J)
      (λ _, {[fip x]} ∪ L))].
    - intros s [Ex Hs]. split; [done|]. by exists x.
    - intros F _. apply triple_inode_lock. }
  intros []. apply triple_fact. intros Ha.
  eapply triple_bind; [apply of_file|]. intros x2. apply triple_fact. intros ->.
  eapply triple_bind; [apply of_keeps; intros; apply keeps_inode_write; set_solver|]. intros r.
  eapply triple_bind; [apply (keeps_when (fsys_of D J ({[fip x]} ∪ L) f (fip x))), of_set_off|]. intros [].
  eapply triple_bind; [apply of_file|]. intros x3. apply triple_fact. intros ->. apply triple_and_l.
  eapply triple_bind; [by apply fsys_unlock|]. intros [].
  apply keeps_bind; [apply fsys_lift|]. intros []. apply keeps_ret.
Qed.

Lemma fsys_write_loop D J L n f l k i : keeps (fsys D J L) (write_loop sblock ctx_addr n f l k i).
Proof.
  revert i. induction n as [|n IH]; intros i; cbn [write_loop]; [apply keeps_nofuel|].
  destruct (i <? k); [|apply keeps_ret].
  apply keeps_bind; [apply fsys_write_op|]. intros r. destruct (r <? 0); [apply keeps_ret|].
  apply keeps_bind; [apply keeps_assert|]. intros []. apply IH.
Qed.
Lemma fsys_filewrite D J L f l n : keeps (fsys D J L) (filewrite sblock ctx_addr f l n).
Proof.
  unfold filewrite. apply keeps_bind; [apply keeps_getopt|]. intros x.
  destruct (negb (writable x)); [apply keeps_ret|]. destruct (ftype x); [apply keeps_ret| |].
  - apply keeps_bind; [apply keeps_gets|]. intros s. apply fsys_on_pipe. intros e. apply pipeWrite_still.
  - apply keeps_bind; [apply fsys_write_loop|]. intros i. destruct (i =? n); apply keeps_ret.
Qed.
End files.
