(* ===== verification/Sysfile.v ===== *)
(** * [kernel/sysfile.c]: file system calls

    The state is the open files with everything below them, and of the calling process its
    table of open files and its current directory.  What the process passes by pointer is given
    as the bytes at the pointer; what a call stores there is part of its result.  The result
    itself is a [u64], so that -1 is [2^64 - 1].  Messages to the console are left out.

    [user_writeable a n] is what the function of that name in [kernel/syscall.c] answers for
    the addresses from [a]; [user_readable] is always true there.  [O_CREAT] and the like are
    the constants of the C library's [fcntl.h]; [stack14] is what a [name] buffer on the stack
    holds before it is filled. *)

From Stdlib Require Import ZArith Lia.
From S2P Require Import Prelude Words Sync Layout Cache CacheSpec BlockCache Console Pipe Inode File.

Definition sizeof_stat : Z := 128.

(** [user_strlen(str, maxlen)]: the length with the NUL, 0 when there is none among the first
    [maxlen] characters; [None] when it reads past what is there *)
Fixpoint strlen_from (n : nat) (i : Z) (l : list Z) : option Z :=
  match n with
  | O => Some 0
  | S n =>
      match l with
      | [] => None
      | c :: l => if c =? 0 then Some (i + 1) else strlen_from n (i + 1) l
      end
  end.
Definition user_strlen (l : list Z) (maxlen : nat) : option Z := strlen_from maxlen 0 l.

(** [strncmp] on strings in buffers *)
Fixpoint str_ncmp (n : nat) (l1 l2 : list Z) : option Z :=
  match n with
  | O => Some 0
  | S n =>
      match l1, l2 with
      | c1 :: l1, c2 :: l2 =>
          if negb (c1 =? c2) then Some (c1 - c2)
          else if (c1 =? 0) || (c2 =? 0) then Some 0
          else str_ncmp n l1 l2
      | _, _ => None
      end
  end.

(** the path in a buffer: the characters before the NUL *)
Fixpoint path_of (l : list Z) : list Z :=
  match l with
  | [] => []
  | c :: l => if c =? 0 then [] else c :: path_of l
  end.

(** a [short] *)
Definition i16 (z : Z) : Z := (z + 2 ^ 15) mod 2 ^ 16 - 2 ^ 15.

Record ustate {C : Type} := mkUs {
  files : fstate C;
  oft : oftable;
  cwd : Z }.
Arguments ustate C : clear implicits.
Arguments mkUs {C} _ _ _.

Section sysfile.
Context {C : Type} `{BlockCache C} `{BlockLog C} (sblock : SuperBlock).
Context (ctx_addr : Z) (kalloc : nat → gset Z → Z) (junk : Z → list Z).
Context (user_writeable : Z → Z → bool) (stack14 : list Z).
Context (AT_FDCWD O_WRONLY O_RDWR O_CREAT : Z).
Notation st := (ustate C).

Definition upd_files (f : fstate C → fstate C) (s : st) : st := mkUs (f (files s)) (oft s) (cwd s).
Definition upd_oft (f : oftable → oftable) (s : st) : st := mkUs (files s) (f (oft s)) (cwd s).
Definition set_cwd (v : Z) (s : st) : st := mkUs (files s) (oft s) v.

(** code of the file layer, and of the inode layer below it *)
Definition infiles {A} (m : M (fstate C) A) : M st A := on files (λ x, upd_files (λ _, x)) m.
Definition infs {A} (m : M (itree C) A) : M st A := infiles (on_fs m).
Definition begin : M st unit := infiles (begin_op ctx_addr).
Definition finish : M st unit := infiles (end_op ctx_addr).
Notation ctx := (Some ctx_addr).

Definition ret (v : Z) : M st Z := mret (u64 v).

(** ** Descriptors *)

Definition fd2file (fd : Z) : M st Z :=
  if (fd <? 0) || (NOFILE <=? fd) then mret 0
  else getopt (λ s, oft s !! Z.to_nat fd).

(** [openfile[fd] = f]: undefined when [fd] is out of range *)
Definition set_fd (fd f : Z) : M st unit :=
  _ ← getopt (λ s, if fd <? 0 then None else oft s !! Z.to_nat fd);
  modify (upd_oft <[Z.to_nat fd := f]>).

(** the loop of [fdalloc] from [fd] on *)
Fixpoint fdalloc_loop (n : nat) (f fd : Z) : M st Z :=
  match n with
  | O => mret (-1)
  | S n =>
      x ← getopt (λ s, oft s !! Z.to_nat fd);
      if x =? 0 then set_fd fd f;; mret fd else fdalloc_loop n f (fd + 1)
  end.
Definition fdalloc (f : Z) : M st Z := fdalloc_loop (Z.to_nat NOFILE) f 0.

Definition sys_ioctl (fd request : Z) : M st Z := assert (request =? 0x5413);; ret 0.
Definition sys_mmap (addr length prot flags fd offset : Z) : M st Z := ret 0.
Definition sys_munmap (addr length : Z) : M st Z := ret (addr + length).

Definition sys_dup (fd : Z) : M st Z :=
  f ← fd2file fd;
  if f =? 0 then ret (-1)
  else
    fd ← fdalloc f;
    if fd <? 0 then ret (-1)
    else infiles (filedup f);; ret fd.

(** the bytes stored at [buffer], and the result *)
Definition sys_read (fd buffer size : Z) : M st (list Z * Z) :=
  f ← fd2file fd;
  if (f =? 0) || (size <=? 0) || negb (user_writeable buffer size) then
    r ← ret (-1); mret ([], r)
  else
    '(l, r) ← infiles (fileread sblock f size);
    mret (l, u64 r).

(** [l] are the [size] bytes at [buffer] *)
Definition sys_write (fd : Z) (l : list Z) (size : Z) : M st Z :=
  f ← fd2file fd;
  if (f =? 0) || (size <=? 0) then ret (-1)
  else r ← infiles (filewrite sblock ctx_addr f l size); ret r.

(** the loop of [writev] over the [iovec]s, each the bytes it points to *)
Fixpoint writev_loop (f : Z) (iov : list (list Z)) (tot : Z) : M st Z :=
  match iov with
  | [] => mret tot
  | l :: iov =>
      r ← infiles (filewrite sblock ctx_addr f l (i64 (Z.of_nat (length l))));
      writev_loop f iov (u64 (tot + r))
  end.
Definition sys_writev (fd : Z) (iov : list (list Z)) (iovcnt : Z) : M st Z :=
  f ← fd2file fd;
  if (f =? 0) || (iovcnt <=? 0) then ret (-1)
  else writev_loop f (take (Z.to_nat iovcnt) iov) 0.

Definition sys_close (fd : Z) : M st Z :=
  f ← fd2file fd;
  set_fd fd 0;;
  infiles (fileclose sblock ctx_addr f);;
  ret 0.

(** ** Files by descriptor and by path *)

(** what is stored at the buffer [buf], and the result *)
Definition sys_fstat (fd buf : Z) : M st (option stat * Z) :=
  f ← fd2file fd;
  if (f =? 0) || negb (user_writeable buf sizeof_stat) then r ← ret (-1); mret (None, r)
  else '(v, r) ← infiles (filestat f); mret (v, u64 r).

(** [namei] and [nameiparent] of the calling process *)
Definition namei_ (path : list Z) : M st Z :=
  s ← gets id; infs (namei sblock (cwd s) (path_of path) ctx).
Definition nameiparent_ (path : list Z) : M st (Z * list Z) :=
  s ← gets id; infs (nameiparent sblock (cwd s) (path_of path) stack14 ctx).

Definition sys_newfstatat (dirfd : Z) (path : list Z) (buf flags : Z) : M st (option stat * Z) :=
  n ← getopt (λ _, user_strlen path 256);
  if (n =? 0) || negb (user_writeable buf sizeof_stat) then r ← ret (-1); mret (None, r)
  else if negb (dirfd =? AT_FDCWD) then r ← ret (-1); mret (None, r)
  else if negb (flags =? 0) then r ← ret (-1); mret (None, r)
  else
    begin;;
    ip ← namei_ path;
    if ip =? 0 then finish;; r ← ret (-1); mret (None, r)
    else
      infs (inode_lock ip);;
      v ← infs (stati ip);
      infs (inode_unlock ip);;
      infs (inode_put sblock ctx ip);;
      finish;;
      r ← ret 0; mret (Some v, r).

(** the loop of [isdirempty] from offset [off] on *)
Fixpoint empty_loop (fuel : nat) (dp off : Z) : M st Z :=
  match fuel with
  | O => nofuel
  | S fuel =>
      x ← infs (Inode.ip dp);
      if off <? num_bytes (entry x) then
        '(l, n) ← infs (inode_read sblock dp off 16);
        assert (n =? 16);;
        if negb (inode_no (dec_dirent l) =? 0) then mret 0
        else empty_loop fuel dp (u64 (off + 16))
      else mret 1
  end.
Definition isdirempty (dp : Z) : M st Z :=
  x ← infs (Inode.ip dp);
  empty_loop (S (Z.to_nat (num_bytes (entry x) / 16 + 1))) dp 32.

(** the label [bad] of [unlinkat] *)
Definition unlink_bad (dp : Z) : M st Z :=
  infs (inode_unlock dp);;
  infs (inode_put sblock ctx dp);;
  finish;;
  ret (-1).

(** [unlinkat] from the entry found at [off] on: [dp] is the directory, [ip] the inode *)
Definition unlink_found (dp ip off : Z) : M st Z :=
  infs (inode_lock ip);;
  i ← infs (Inode.ip ip);
  assert (negb (i16 (num_links (entry i)) <? 1));;
  keep ← (if type (entry i) =? INODE_DIRECTORY then e ← isdirempty ip; mret (e =? 0)
          else mret false);
  if (keep : bool) then
    infs (inode_unlock ip);;
    infs (inode_put sblock ctx ip);;
    unlink_bad dp
  else
    n ← infs (inode_write sblock ctx dp (replicate 16 0) off 16);
    assert (n =? 16);;
    i ← infs (Inode.ip ip);
    when (type (entry i) =? INODE_DIRECTORY)
      (infs (set_ientry dp (λ e, set_num_links (u16 (num_links e - 1)) e));;
       infs (inode_sync sblock ctx dp true));;
    infs (inode_unlock dp);;
    infs (inode_put sblock ctx dp);;
    infs (set_ientry ip (λ e, set_num_links (u16 (num_links e - 1)) e));;
    infs (inode_sync sblock ctx ip true);;
    infs (inode_unlock ip);;
    infs (inode_put sblock ctx ip);;
    finish;;
    ret 0.

Definition sys_unlinkat (fd : Z) (path : list Z) (flag : Z) : M st Z :=
  assert ((fd =? AT_FDCWD) && (flag =? 0));;
  n ← getopt (λ _, user_strlen path 256);
  if n =? 0 then ret (-1)
  else
    begin;;
    '(dp, name) ← nameiparent_ path;
    if dp =? 0 then finish;; ret (-1)
    else
      infs (inode_lock dp);;
      dot ← getopt (λ _, str_ncmp 14 name [46; 0]);
      dotdot ← (if dot =? 0 then mret 1 else getopt (λ _, str_ncmp 14 name [46; 46; 0]));
      if (dot =? 0) || (dotdot =? 0) then unlink_bad dp
      else
        '(inumber, off) ← infs (inode_lookup sblock dp name);
        if inumber =? 0 then unlink_bad dp
        else
          off ← getopt (λ _, off);
          ip ← infs (inode_get sblock inumber);
          unlink_found dp ip off.

(** the inode made, locked; 0 when there is none *)
Definition create (path : list Z) (type major minor : Z) : M st Z :=
  '(dir, name) ← nameiparent_ path;
  if dir =? 0 then mret 0
  else
    infs (inode_lock dir);;
    '(ino, _) ← infs (inode_lookup sblock dir name);
    ip ← infs (inode_get sblock ino);
    if negb (ip =? 0) then
      infs (inode_unlock dir);;
      infs (inode_put sblock ctx dir);;
      infs (inode_lock ip);;
      i ← infs (Inode.ip ip);
      if (type =? INODE_REGULAR) && (Layout.type (entry i) =? INODE_REGULAR) then mret ip
      else
        infs (inode_unlock ip);;
        infs (inode_put sblock ctx ip);;
        mret 0
    else
      ino ← infs (inode_alloc sblock ctx type);
      ip ← infs (inode_get sblock ino);
      assert (negb (ip =? 0));;
      infs (inode_lock ip);;
      infs (set_ientry ip (λ e, mkInodeEntry (Layout.type e) (u16 major) (u16 minor) 1
        (num_bytes e) (addrs e) (indirect e)));;
      infs (inode_sync sblock ctx ip true);;
      when (type =? INODE_DIRECTORY)
        (infs (set_ientry dir (λ e, set_num_links (u16 (num_links e + 1)) e));;
         infs (inode_sync sblock ctx dir true);;
         i ← infs (Inode.ip ip);
         infs (inode_insert sblock ctx ip [46; 0] (inode_no_ i));;
         d ← infs (Inode.ip dir);
         infs (inode_insert sblock ctx ip [46; 46; 0] (inode_no_ d));;
         mret tt);;
      i ← infs (Inode.ip ip);
      infs (inode_insert sblock ctx dir name (inode_no_ i));;
      infs (inode_unlock dir);;
      infs (inode_put sblock ctx dir);;
      mret ip.

(** ** Opening and making files *)

(** leaving a call that fails with [ip] locked *)
Definition leave (ip v : Z) : M st Z :=
  infs (inode_unlock ip);;
  infs (inode_put sblock ctx ip);;
  finish;;
  ret v.

(** [openat] from the locked inode [ip] on *)
Definition open_inode (ip omode : Z) : M st Z :=
  f ← infiles filealloc;
  fd ← (if f =? 0 then mret (-1) else fdalloc f);
  if fd <? 0 then
    when (negb (f =? 0)) (infiles (fileclose sblock ctx_addr f));;
    leave ip (-1)
  else
    infs (inode_unlock ip);;
    finish;;
    let wronly := negb (Z.land omode O_WRONLY =? 0) in
    infiles (set_file f (λ x, mkFile FD_INODE (ref x) (negb wronly)
      (wronly || negb (Z.land omode O_RDWR =? 0)) (fpipe x) ip 0));;
    ret fd.

Definition sys_openat (dirfd : Z) (path : list Z) (omode : Z) : M st Z :=
  n ← getopt (λ _, user_strlen path 256);
  if n =? 0 then ret (-1)
  else if negb (dirfd =? AT_FDCWD) then ret (-1)
  else
    begin;;
    ip ← (if negb (Z.land omode O_CREAT =? 0) then create path INODE_REGULAR 0 0
          else
            ip ← namei_ path;
            when (negb (ip =? 0)) (infs (inode_lock ip));;
            mret ip);
    if ip =? 0 then finish;; ret (-1)
    else open_inode ip omode.

Definition sys_mkdirat (dirfd : Z) (path : list Z) (mode : Z) : M st Z :=
  n ← getopt (λ _, user_strlen path 256);
  if n =? 0 then ret (-1)
  else if negb (dirfd =? AT_FDCWD) then ret (-1)
  else if negb (mode =? 0) then ret (-1)
  else
    begin;;
    ip ← create path INODE_DIRECTORY 0 0;
    if ip =? 0 then finish;; ret (-1)
    else leave ip 0.

(** [major] and [minor] are passed to [create] as [short]s *)
Definition sys_mknodat (dirfd : Z) (path : list Z) (major minor : Z) : M st Z :=
  n ← getopt (λ _, user_strlen path 256);
  if n =? 0 then ret (-1)
  else if negb (dirfd =? AT_FDCWD) then ret (-1)
  else
    begin;;
    ip ← create path INODE_DEVICE (i16 major) (i16 minor);
    if ip =? 0 then finish;; ret (-1)
    else leave ip 0.

Definition sys_chdir (path : list Z) : M st Z :=
  begin;;
  ip ← namei_ path;
  if ip =? 0 then finish;; ret (-1)
  else
    infs (inode_lock ip);;
    i ← infs (Inode.ip ip);
    if negb (type (entry i) =? INODE_DIRECTORY) then leave ip (-1)
    else
      infs (inode_unlock ip);;
      s ← gets id;
      infs (inode_put sblock ctx (cwd s));;
      finish;;
      modify (set_cwd ip);;
      ret 0.

(** the two descriptors stored at [fd], and the result *)
Definition sys_pipe2 (flags : Z) : M st (option (Z * Z) * Z) :=
  if negb (flags =? 0) then r ← ret (-1); mret (None, r)
  else
    '(rf, wf, r) ← infiles (pipeAlloc sblock ctx_addr kalloc junk);
    if r <? 0 then r ← ret (-1); mret (None, r)
    else
      fd0 ← fdalloc rf;
      fd1 ← fdalloc wf;
      if (fd0 <? 0) || (fd1 <? 0) then
        when (0 <=? fd0) (set_fd fd0 0);;
        infiles (fileclose sblock ctx_addr rf);;
        infiles (fileclose sblock ctx_addr wf);;
        r ← ret (-1); mret (None, r)
      else r ← ret 0; mret (Some (fd0, fd1), r).
End sysfile.
