(* ===== verification/SysfileSpec.v ===== *)
(** * File system calls account for every reference

    The table of open files of a process, its current directory, the table of all open files,
    the inodes in memory and their locks: whatever a file system call does, and on whatever
    path it returns, an error included, every reference it took is either one the process can
    name afterwards or was given back, and every lock of an inode it took is free again. *)

From Stdlib Require Import ZArith Lia.
From stdpp Require Import gmultiset.
From S2P Require Import Prelude Triple Words Sync Layout Cache CacheSpec CacheLog BlockCache.
From S2P Require Import CacheAlloc CacheOps.
From S2P Require Import Console Pipe Inode InodeSpec InodeRefs File FileRefs FileTriple Sysfile.

(** the references in the table of open files of a process *)
Definition fds (o : list Z) : gmultiset Z := list_to_set_disj (filter (λ f, f ≠ 0) o).

Lemma fds_cons f (o : list Z) : fds (f :: o) = (if decide (f = 0) then ∅ else {[+ f +]}) ⊎ fds o.
Proof.
  unfold fds. rewrite filter_cons. destruct (decide (f ≠ 0)), (decide (f = 0)); try done; simpl;
    multiset_solver.
Qed.

Lemma disj_union_swap (X Y Z : gmultiset Z) : X ⊎ (Y ⊎ Z) = Y ⊎ (X ⊎ Z).
Proof. multiset_solver. Qed.

Lemma fds_insert (o : list Z) i f f' :
  o !! i = Some f → (if decide (f = 0) then ∅ else {[+ f +]}) ⊎ fds (<[i := f']> o) =
    (if decide (f' = 0) then ∅ else {[+ f' +]}) ⊎ fds o.
Proof.
  revert i. induction o as [|g o IH]; intros [|i] Ef; simpl in *; [done..| |].
  - injection Ef as ->. rewrite !fds_cons. apply disj_union_swap.
  - by rewrite !fds_cons, disj_union_swap, (IH i Ef), disj_union_swap.
Qed.

(** a reference put into a free slot, and one taken out of its slot *)
Lemma fds_put (o : list Z) i f : o !! i = Some 0 → f ≠ 0 → fds (<[i := f]> o) = {[+ f +]} ⊎ fds o.
Proof.
  intros Ef Hf. pose proof (fds_insert o i 0 f Ef) as E.
  rewrite decide_True, decide_False in E by done. by rewrite (left_id_L ∅ (⊎)) in E.
Qed.
Lemma fds_clear (o : list Z) i f : o !! i = Some f → f ≠ 0 → fds o = {[+ f +]} ⊎ fds (<[i := 0]> o).
Proof.
  intros Ef Hf. pose proof (fds_insert o i f 0 Ef) as E.
  rewrite decide_False, decide_True in E by done. by rewrite (left_id_L ∅ (⊎)) in E.
Qed.
Lemma fds_elem (o : list Z) i f : o !! i = Some f → f ≠ 0 → f ∈ fds o.
Proof. intros Ef Hf. rewrite (fds_clear o i f) by done. multiset_solver. Qed.
Lemma fds_size (o : list Z) : (size (fds o) ≤ length o)%nat.
Proof.
  induction o as [|f o IH]; [done|]. rewrite fds_cons, gmultiset_size_disj_union. simpl.
  case_decide; rewrite ?gmultiset_size_singleton, ?gmultiset_size_empty; lia.
Qed.

(** sizes of sets of references *)
Ltac few_refs :=
  rewrite ?gmultiset_size_disj_union, ?gmultiset_size_singleton in *; lia.

Section calls.
Context {C : Type} `{BlockCache C} `{BlockLog C} (sblock : SuperBlock).
Context (ctx_addr : Z) (kalloc : nat → gset Z → Z) (junk : Z → list Z).
Context (user_writeable : Z → Z → bool) (stack14 : list Z).
Context (AT_FDCWD O_WRONLY O_RDWR O_CREAT : Z).
Hypothesis kalloc_fresh : ∀ n live, kalloc n live ∉ live.
Notation st := (ustate C).
Implicit Types (s : st) (D J R : gmultiset Z) (L : gset Z) (o : list Z) (c : Z).
Notation fsys := (@fsys C _ _ sblock ctx_addr kalloc junk).
Notation led := (@ledger C).

(** [D], [J] and [L] as in [fsys]; [o] and [c] the table and the directory of the process *)
Definition usys D J L o c s : Prop := fsys D J L (files s) ∧ oft s = o ∧ cwd s = c.

(** ** Rules for the layers below *)

Lemma u_files {A} D J L o c (m : M (fstate C) A) (Q : A → fstate C → Prop) :
  triple (fsys D J L) m Q →
  triple (usys D J L o c) (infiles m) (λ a s, Q a (files s) ∧ oft s = o ∧ cwd s = c).
Proof.
  intros Hm. apply (triple_on _ _ _ _ (fsys D J L) Q); [by intros s []|done|].
  by intros s a t (_ & ? & ?) HQ.
Qed.
Lemma u_to {A} D D' J J' L L' o c (m : M (fstate C) A) :
  triple (fsys D J L) m (λ _, fsys D' J' L') → triple (usys D J L o c) (infiles m) (λ _, usys D' J' L' o c).
Proof. apply u_files. Qed.
Lemma u_fact {A} D D' J L o c (m : M (fstate C) A) (φ : A → Prop)
    (J' : A → gmultiset Z) (L' : A → gset Z) :
  triple (fsys D J L) m (λ a t, φ a ∧ fsys D' (J' a) (L' a) t) →
  triple (usys D J L o c) (infiles m) (λ a s, φ a ∧ usys D' (J' a) (L' a) o c s).
Proof.
  intros Hm. eapply triple_post; [by apply u_files|]. intros a s [[? ?] ?]. by split.
Qed.
Lemma u_keep {A} D J L o c (m : M (fstate C) A) :
  keeps (fsys D J L) m → keeps (usys D J L o c) (infiles m).
Proof. apply u_to. Qed.

Lemma u_lock D J L o c a :
  triple (usys D J L o c) (infs (inode_lock a)) (λ _ s, a ∉ L ∧ usys D J ({[a]} ∪ L) o c s).
Proof. apply (u_fact D D J L o c _ (λ _, a ∉ L) (λ _, J) (λ _, {[a]} ∪ L)), fsys_lock. Qed.
Lemma u_unlock D J L o c a :
  a ∉ L → triple (usys D J ({[a]} ∪ L) o c) (infs (inode_unlock a)) (λ _, usys D J L o c).
Proof. intros. by apply u_to, fsys_unlock. Qed.
Lemma u_put D J L o c a :
  few_held J →
  triple (usys D ({[+ a +]} ⊎ J) L o c) (infs (inode_put sblock (Some ctx_addr) a)) (λ _, usys D J L o c).
Proof. intros. by apply u_to, fsys_put. Qed.
Lemma u_inodes {A} D J L o c (m : M (itree C) A) :
  (∀ R, keeps (led R L) m) → keeps (usys D J L o c) (infs m).
Proof. intros. by apply u_keep, fsys_keeps. Qed.
Lemma u_begin D J L o c : keeps (usys D J L o c) (begin ctx_addr).
Proof. apply u_keep, fsys_lift. Qed.
Lemma u_finish D J L o c : keeps (usys D J L o c) (finish ctx_addr).
Proof. apply u_keep, fsys_lift. Qed.
Lemma u_ip D J L o c a : keeps (usys D J L o c) (infs (ip a)).
Proof. apply u_inodes. intros. apply keeps_ip. Qed.

Lemma held_union a J F : held a (J ⊎ F) = held a J ⊎ F.
Proof. unfold held. destruct (a =? 0); [done|]. by rewrite (assoc_L (⊎)). Qed.

(** few references, those of the open files left aside, with room for [k] more *)
Definition spare_refs (k : Z) J : Prop := Z.of_nat (size J) + k + 65540 < 2 ^ 62.
Lemma spare_inodes k J F :
  0 ≤ k → spare_refs k J → (size F ≤ Z.to_nat NFILE)%nat → Z.of_nat (size (J ⊎ F)) + 1 < 2 ^ 62.
Proof.
  unfold spare_refs. change (Z.to_nat NFILE) with (Z.to_nat 65536).
  rewrite gmultiset_size_disj_union. lia.
Qed.

Lemma u_held {A} D J L o c (m : M (itree C) A) (get : A → Z) :
  (∀ F, (size F ≤ Z.to_nat NFILE)%nat → triple (led (J ⊎ F) L) m (λ a, led (held (get a) (J ⊎ F)) L)) →
  triple (usys D J L o c) (infs m) (λ a, usys D (held (get a) J) L o c).
Proof.
  intros Hm. eapply triple_post; [apply (u_files _ _ _ _ _ _ (λ a, fsys D (held (get a) J) L))|done].
  apply (fsys_fs _ _ _ _ D J L m (λ a, held (get a) J) (λ _, L)). intros F HF.
  eapply triple_post; [by apply Hm|]. intros a s. cbv beta. by rewrite held_union.
Qed.
Lemma u_get D J L o c ino :
  triple (usys D J L o c) (infs (inode_get sblock ino)) (λ a, usys D (held a J) L o c).
Proof. apply (u_held _ _ _ _ _ _ id). intros F _. apply triple_inode_get. Qed.
Lemma u_get_ref D J L o c ino :
  ino ≠ 0 →
  triple (usys D J L o c) (infs (inode_get sblock ino)) (λ a, usys D ({[+ a +]} ⊎ J) L o c).
Proof.
  intros Hi. eapply triple_post; [apply (u_files _ _ _ _ _ _ (λ a, fsys D ({[+ a +]} ⊎ J) L))|done].
  apply (fsys_fs _ _ _ _ D J L _ (λ a, {[+ a +]} ⊎ J) (λ _, L)). intros F HF.
  eapply triple_post; [by apply triple_inode_get_ref|]. intros a s. cbv beta. by rewrite (assoc_L (⊎)).
Qed.
Lemma u_namei D J L o c path :
  spare_refs 0 J →
  triple (usys D J L o c) (namei_ sblock ctx_addr path) (λ a, usys D (held a J) L o c).
Proof.
  intros HJ. unfold namei_. eapply triple_bind; [apply keeps_gets|]. intros s.
  apply (u_held _ _ _ _ _ _ id). intros F HF. apply triple_namei. by eapply spare_inodes.
Qed.
Lemma u_parent D J L o c path :
  spare_refs 0 J →
  triple (usys D J L o c) (nameiparent_ sblock ctx_addr stack14 path)
    (λ r, usys D (held (fst r) J) L o c).
Proof.
  intros HJ. unfold nameiparent_. eapply triple_bind; [apply keeps_gets|]. intros s.
  apply (u_held _ _ _ _ _ _ fst). intros F HF. apply triple_namex. by eapply spare_inodes.
Qed.

(** ** Descriptors *)

Lemma u_fd2file D J L o c fd :
  triple (usys D J L o c) (fd2file fd)
    (λ f s, (f ≠ 0 → f ∈ fds o ∧ o !! Z.to_nat fd = Some f) ∧ usys D J L o c s).
Proof.
  unfold fd2file. destruct (_ || _); [by apply triple_ret|].
  eapply triple_post; [apply triple_getopt|]. intros f s (Ef & Hs & <- & Hc).
  split; [|done]. intros Hf. split; [by eapply fds_elem|done].
Qed.

Lemma u_set_fd D J L o c fd f :
  triple (usys D J L o c) (set_fd fd f)
    (λ _ s, (0 ≤ fd ∧ is_Some (o !! Z.to_nat fd)) ∧ usys D J L (<[Z.to_nat fd := f]> o) c s).
Proof.
  unfold set_fd. eapply triple_bind; [apply triple_getopt|]. intros x.
  apply triple_modify. intros s (Ex & Hs & Ho & Hc). destruct (Z.ltb_spec fd 0); [done|].
  split; [|by rewrite <-Ho].
  split; [done|]. exists x. by rewrite <-Ho.
Qed.

(** [fdalloc] takes the first free slot, if there is one *)
Definition fd_taken o c f D J L (fd : Z) s : Prop :=
  fd = -1 ∧ (∀ i, o !! i ≠ Some 0) ∧ usys D J L o c s ∨
  0 ≤ fd ∧ o !! Z.to_nat fd = Some 0 ∧ (∀ i, (i < Z.to_nat fd)%nat → o !! i ≠ Some 0) ∧
    usys D J L (<[Z.to_nat fd := f]> o) c s.

Lemma u_fdalloc D J L o c f :
  length o = Z.to_nat NOFILE →
  triple (usys D J L o c) (fdalloc f) (fd_taken o c f D J L).
Proof.
  intros Hlen. unfold fdalloc.
  cut (∀ n fd, Z.of_nat n + fd = NOFILE → 0 ≤ fd →
    (∀ i, (i < Z.to_nat fd)%nat → o !! i ≠ Some 0) →
    triple (usys D J L o c) (fdalloc_loop n f fd) (fd_taken o c f D J L)).
  { intros Hl. apply Hl; [done|done|lia]. }
  induction n as [|n IH]; intros fd Hn Hfd Hlow; cbn [fdalloc_loop].
  - apply triple_ret. intros s Hs. left. split_and!; [done| |done]. intros i Hi. apply (Hlow i); [|done].
    apply lookup_lt_Some in Hi. change NOFILE with 16 in *. lia.
  - eapply triple_bind; [apply triple_getopt|]. intros x. destruct (Z.eqb_spec x 0) as [->|Hx].
    + apply (triple_pre (λ s, o !! Z.to_nat fd = Some 0 ∧ usys D J L o c s)).
      { by intros s (Ex & Hs & <- & ?). }
      apply triple_fact. intros Ex.
      eapply triple_bind; [apply u_set_fd|]. intros []. apply triple_fact. intros _.
      apply triple_ret. intros s Hs. by right.
    + apply (triple_pre (λ s, o !! Z.to_nat fd = Some x ∧ usys D J L o c s)).
      { by intros s (Ex & Hs & <- & ?). }
      apply triple_fact. intros Ex. apply IH; [lia|lia|]. intros i Hi Hz.
      destruct (decide (i = Z.to_nat fd)) as [->|]; [congruence|]. apply (Hlow i); [lia|done].
Qed.

Ltac spare := unfold spare_refs, few_held in *; few_refs.

(** code of the inode layer that takes and gives back nothing *)
Ltac ukeep := eapply triple_bind; [apply u_inodes; intros; auto with keeps|]; intros ?.
(** a step with a fact about its result *)
Ltac ufact H := apply triple_fact; intros H.

(** ** Directories *)

Lemma u_isdirempty D J L o c a : a ∈ L → keeps (usys D J L o c) (isdirempty sblock a).
Proof.
  intros Ha. unfold isdirempty. ukeep. generalize 32 (S (Z.to_nat (num_bytes (entry a0) / 16 + 1))).
  intros i n. revert i. induction n as [|n IH]; intros i; cbn [empty_loop]; [apply keeps_nofuel|].
  ukeep. destruct (i <? _); [|apply keeps_ret]. ukeep. destruct a2 as [l k].
  apply keeps_bind; [apply keeps_assert|]. intros []. destruct (negb _); [apply keeps_ret|apply IH].
Qed.

Lemma u_leave D J L o c a v :
  spare_refs 0 J → a ∉ L →
  triple (usys D ({[+ a +]} ⊎ J) ({[a]} ∪ L) o c) (leave sblock ctx_addr a v) (λ _, usys D J L o c).
Proof.
  intros HJ Ha. unfold leave. eapply triple_bind; [by apply u_unlock|]. intros [].
  eapply triple_bind; [apply u_put; spare|]. intros [].
  eapply triple_bind; [apply u_finish|]. intros []. apply keeps_ret.
Qed.
Lemma u_unlink_bad D J L o c a :
  spare_refs 0 J → a ∉ L →
  triple (usys D ({[+ a +]} ⊎ J) ({[a]} ∪ L) o c) (unlink_bad sblock ctx_addr a) (λ _, usys D J L o c).
Proof. apply u_leave. Qed.

(** the locks and the references of two inodes, the other way round *)
Lemma usys_swap D J L o c a b s :
  usys D ({[+ a +]} ⊎ ({[+ b +]} ⊎ J)) ({[a]} ∪ ({[b]} ∪ L)) o c s →
  usys D ({[+ b +]} ⊎ ({[+ a +]} ⊎ J)) ({[b]} ∪ ({[a]} ∪ L)) o c s.
Proof.
  rewrite disj_union_swap. by replace ({[a]} ∪ ({[b]} ∪ L)) with ({[b]} ∪ ({[a]} ∪ L)) by set_solver.
Qed.
Lemma usys_swap_refs D J L o c a b s :
  usys D ({[+ a +]} ⊎ ({[+ b +]} ⊎ J)) L o c s → usys D ({[+ b +]} ⊎ ({[+ a +]} ⊎ J)) L o c s.
Proof. by rewrite disj_union_swap. Qed.

(** a new reference to an inode that is locked, or the null pointer *)
Definition opened D J L o c (a : Z) s : Prop :=
  if a =? 0 then usys D J L o c s else a ∉ L ∧ usys D ({[+ a +]} ⊎ J) ({[a]} ∪ L) o c s.

Lemma u_create D J L o c path ty ma mi :
  spare_refs 2 J →
  triple (usys D J L o c) (create sblock ctx_addr stack14 path ty ma mi)
    (opened D J L o c).
Proof.
  intros HJ. unfold create. eapply triple_bind; [apply u_parent; spare|].
  intros [dir name]. unfold held at 1. simpl. destruct (Z.eqb_spec dir 0) as [|Hdir]; [by apply triple_ret|].
  eapply triple_bind; [apply u_lock|]. intros []. ufact Hd. ukeep. destruct a as [ino off].
  eapply triple_bind; [apply u_get|]. intros a. unfold held. destruct (Z.eqb_spec a 0) as [|Ha]; simpl.
  - ukeep. eapply triple_bind; [apply u_get|]. intros b. unfold held.
    destruct (Z.eqb_spec b 0) as [|Hb]; simpl; [by intros ????|].
    eapply triple_bind; [apply keeps_ret|]. intros []. eapply triple_bind; [apply u_lock|]. intros []. ufact Hn.
    ukeep. ukeep. eapply triple_bind.
    { apply (keeps_when (usys D ({[+ b +]} ⊎ ({[+ dir +]} ⊎ J)) ({[b]} ∪ ({[dir]} ∪ L)) o c)).
      ukeep. ukeep. ukeep. ukeep. ukeep. ukeep. apply keeps_ret. }
    intros []. ukeep. ukeep. eapply triple_bind.
    { eapply triple_pre; [intros s; apply usys_swap|]. apply u_unlock. set_solver. }
    intros []. eapply triple_bind; [apply u_put; spare|].
    intros []. apply triple_ret. intros s Hs. unfold opened. rewrite (proj2 (Z.eqb_neq b 0)) by done.
    split; [set_solver|done].
  - eapply triple_bind.
    { eapply triple_pre; [intros s; apply usys_swap_refs|]. by apply u_unlock. }
    intros []. eapply triple_bind; [apply u_put; spare|].
    intros []. eapply triple_bind; [apply u_lock|]. intros []. ufact Hn. ukeep.
    destruct (_ && _).
    + apply triple_ret. intros s Hs. unfold opened. by rewrite (proj2 (Z.eqb_neq a 0)).
    + eapply triple_bind; [by apply u_unlock|]. intros [].
      eapply triple_bind; [apply u_put; spare|]. intros []. by apply triple_ret.
Qed.

(** ** Opening *)

(** whatever [fdalloc] answers *)
Lemma fd_taken_bind {A} o c f D J L (φ : st → Prop) (m : Z → M st A) Q :
  ((∀ i, o !! i ≠ Some 0) → triple (λ s, usys D J L o c s ∧ φ s) (m (-1)) Q) →
  (∀ fd, 0 ≤ fd → o !! Z.to_nat fd = Some 0 →
     (∀ i, (i < Z.to_nat fd)%nat → o !! i ≠ Some 0) →
     triple (λ s, usys D J L (<[Z.to_nat fd := f]> o) c s ∧ φ s) (m fd) Q) →
  ∀ fd, triple (λ s, fd_taken o c f D J L fd s ∧ φ s) (m fd) Q.
Proof.
  intros Hm1 Hm2 fd s a s' [[(-> & Hall & Hs)|(Hfd & Hz & Hlow & Hs)] Hφ] E; [by eapply Hm1|by eapply Hm2].
Qed.

Lemma fd_taken_bind' {A} o c f D J L (m : Z → M st A) Q :
  ((∀ i, o !! i ≠ Some 0) → triple (usys D J L o c) (m (-1)) Q) →
  (∀ fd, 0 ≤ fd → o !! Z.to_nat fd = Some 0 →
     (∀ i, (i < Z.to_nat fd)%nat → o !! i ≠ Some 0) →
     triple (usys D J L (<[Z.to_nat fd := f]> o) c) (m fd) Q) →
  ∀ fd, triple (fd_taken o c f D J L fd) (m fd) Q.
Proof.
  intros Hm1 Hm2 fd s a s' [(-> & Hall & Hs)|(Hfd & Hz & Hlow & Hs)] E; [by eapply Hm1|by eapply Hm2].
Qed.

Lemma u_fileclose D J L o c f :
  f ∈ D → few D → spare_refs 0 J →
  triple (usys D J L o c) (infiles (fileclose sblock ctx_addr f)) (λ _, usys (D ∖ {[+ f +]}) J L o c).
Proof. intros. apply u_to. apply fsys_fileclose; [done..|spare]. Qed.

(** the state of the process, and a file nothing was done with *)
Definition uopen f D J L o c s : Prop := usys D J L o c s ∧ unused f (filelist (files s)).

Lemma unused_infs {A} f (m : M (itree C) A) : keeps (λ s, unused f (filelist (files s))) (infs m).
Proof.
  intros s a s' Hs. unfold infs, infiles, on, on_fs, on. simpl. destruct (m _) as [[b t]| | | | |]; try done.
  by intros [= <- <-].
Qed.
Lemma unused_fdalloc f g : keeps (λ s, unused f (filelist (files s))) (fdalloc g).
Proof.
  unfold fdalloc. generalize (Z.to_nat NOFILE) 0. intros n. induction n as [|n IH]; intros fd; cbn [fdalloc_loop].
  - apply keeps_ret.
  - apply keeps_bind; [apply keeps_getopt|]. intros x. destruct (x =? 0); [|apply IH].
    unfold set_fd. apply keeps_bind; [|intros []; apply keeps_ret].
    apply keeps_bind; [apply keeps_getopt|]. intros y. by apply keeps_modify.
Qed.

Lemma few_of k o R : length o = Z.to_nat NOFILE → Z.of_nat (size R) < 2 ^ 30 → 0 ≤ k < 1000 →
  Z.of_nat (size (fds o ⊎ R)) + k < 2 ^ 31 - 2.
Proof.
  intros Hl HR Hk. pose proof (fds_size o) as Hf. rewrite Hl in Hf. change (Z.to_nat NOFILE) with 16%nat in Hf.
  rewrite gmultiset_size_disj_union. change (2 ^ 31) with 2147483648. change (2 ^ 30) with 1073741824 in *. lia.
Qed.

(** the calls leave the process with the references its table and its directory name; [R] and
    [I] are the references others have *)
Definition proc_ok R I L s : Prop :=
  length (oft s) = Z.to_nat NOFILE ∧ fsys (fds (oft s) ⊎ R) ({[+ cwd s +]} ⊎ I) L (files s).

Lemma proc_ok_of R I L o c s :
  length o = Z.to_nat NOFILE → usys (fds o ⊎ R) ({[+ c +]} ⊎ I) L o c s → proc_ok R I L s.
Proof. by intros Hl (Hs & <- & <-). Qed.

Lemma u_open_inode R I L o c a omode :
  length o = Z.to_nat NOFILE → Z.of_nat (size R) < 2 ^ 30 → spare_refs 2 ({[+ c +]} ⊎ I) → a ∉ L →
  triple (usys (fds o ⊎ R) ({[+ a +]} ⊎ ({[+ c +]} ⊎ I)) ({[a]} ∪ L) o c)
    (open_inode sblock ctx_addr O_WRONLY O_RDWR a omode) (λ _, proc_ok R I L).
Proof.
  intros Hl HR HI Ha. unfold open_inode. set (D := fds o ⊎ R). set (J := {[+ c +]} ⊎ I) in *.
  pose proof (few_of 2 o R Hl HR ltac:(done)) as HD. fold D in HD.
  eapply triple_bind; [by eapply u_files, fsys_filealloc|]. intros f. cbv beta.
  destruct (Z.eqb_spec f 0) as [|Hf].
  { eapply (triple_bind _ _ _ (λ fd s, fd = -1 ∧ usys D ({[+ a +]} ⊎ J) ({[a]} ∪ L) o c s)).
    { by apply triple_ret. }
    intros fd. apply triple_fact. intros ->. simpl. eapply triple_bind; [apply keeps_ret|]. intros [].
    eapply triple_post; [apply u_leave; [spare|done]|]. intros v s. by apply proc_ok_of. }
  apply (triple_pre (uopen f ({[+ f +]} ⊎ D) ({[+ a +]} ⊎ J) ({[a]} ∪ L) o c)).
  { by intros s [[Hs Hu] [Ho Hc]]. }
  eapply triple_bind; [apply triple_frame; [apply unused_fdalloc|by apply u_fdalloc]|].
  apply fd_taken_bind; [intros Hall|intros fd Hfd Hz Hlow].
  - apply triple_and_l. simpl.
    eapply triple_bind; [apply u_fileclose; [multiset_solver| |spare]|].
    { unfold few. rewrite gmultiset_size_disj_union, gmultiset_size_singleton. lia. }
    intros []. replace (({[+ f +]} ⊎ D) ∖ {[+ f +]}) with D by multiset_solver.
    eapply triple_post; [apply u_leave; [spare|done]|]. intros v s. by apply proc_ok_of.
  - rewrite (proj2 (Z.ltb_ge fd 0)) by done.
    eapply triple_bind; [apply triple_frame; [apply unused_infs|by apply u_unlock]|]. intros [].
    eapply triple_bind; [apply triple_frame; [|apply u_finish]|].
    { unfold finish, end_op. apply (unused_infs f (lift (bl_end ctx_addr))). }
    intros []. eapply (triple_bind _ _ _ (λ _, usys ({[+ f +]} ⊎ D) J L (<[Z.to_nat fd := f]> o) c)).
    { eapply triple_pre; [|eapply (triple_on _ _ _
        (λ s, usys ({[+ f +]} ⊎ D) ({[+ a +]} ⊎ J) L (<[Z.to_nat fd := f]> o) c s ∧ unused f (filelist (files s))));
        [|apply (fsys_open sblock ctx_addr kalloc junk kalloc_fresh ({[+ f +]} ⊎ D) J L f a); multiset_solver|]].
      - done.
      - by intros s [(? & ?) ?].
      - by intros s ? t [(? & ? & ?) ?] ?. }
    intros []. apply triple_ret. intros s Hs. eapply proc_ok_of; [by rewrite length_insert|].
    rewrite fds_put by done. by rewrite <-(assoc_L (⊎)).
Qed.

(** ** The calls *)

(** a call that changes neither the table nor the directory *)
Lemma proc_keeps {A} R I L (m : M st A) :
  (∀ D J o c, few_held J → keeps (usys D J L o c) m) → few_held ({[+ 0 +]} ⊎ I) →
  keeps (proc_ok R I L) m.
Proof.
  intros Hm HI s a s' [Hl Hs] E. assert (few_held ({[+ cwd s +]} ⊎ I)) as HI' by spare.
  eapply proc_ok_of; [done|]. by eapply (Hm _ _ _ _ HI').
Qed.
(** a call from the state its table and its directory describe *)
Lemma proc_start {A} R I L (m : M st A) :
  (∀ o c, length o = Z.to_nat NOFILE →
     triple (usys (fds o ⊎ R) ({[+ c +]} ⊎ I) L o c) m (λ _, proc_ok R I L)) →
  keeps (proc_ok R I L) m.
Proof. intros Hm s a s' [Hl Hs] E. eapply (Hm _ _ Hl); [|exact E]. done. Qed.
(** what has come back to the start *)
Lemma proc_end {A} R I L o c (m : M st A) :
  length o = Z.to_nat NOFILE → keeps (usys (fds o ⊎ R) ({[+ c +]} ⊎ I) L o c) m →
  triple (usys (fds o ⊎ R) ({[+ c +]} ⊎ I) L o c) m (λ _, proc_ok R I L).
Proof. intros Hl Hm. eapply triple_post; [done|]. intros a s. by apply proc_ok_of. Qed.

Lemma keeps_answer {A} P v (k : Z → A) : @keeps st A P (r ← ret v; mret (k r)).
Proof. apply keeps_bind; [apply keeps_ret|]. intros r. apply keeps_ret. Qed.

Section with_others.
Context (R I : gmultiset Z) (L : gset Z).
Hypothesis R_few : Z.of_nat (size R) < 2 ^ 30.
Hypothesis I_few : spare_refs 10 ({[+ 0 +]} ⊎ I).

Lemma p_dup fd : keeps (proc_ok R I L) (sys_dup fd).
Proof.
  apply proc_start. intros o c Hl. unfold sys_dup.
  eapply triple_bind; [apply u_fd2file|]. intros f. ufact Hf.
  destruct (Z.eqb_spec f 0) as [|Hf0]; [by apply proc_end, keeps_ret|].
  destruct (Hf Hf0) as [Hin Ef].
  eapply triple_bind; [by apply u_fdalloc|].
  apply fd_taken_bind'; [intros Hall; by apply proc_end, keeps_ret|intros k Hk Hz Hlow].
  rewrite (proj2 (Z.ltb_ge k 0)) by done. pose proof (few_of 2 o R Hl R_few ltac:(done)).
  eapply triple_bind; [apply u_to, fsys_filedup; [multiset_solver|unfold few; lia]|]. intros ?.
  apply triple_ret. intros s Hs. eapply proc_ok_of; [by rewrite length_insert|].
  rewrite fds_put by done. by rewrite <-(assoc_L (⊎)).
Qed.

Lemma p_read fd buffer size : keeps (proc_ok R I L) (sys_read sblock user_writeable fd buffer size).
Proof.
  apply proc_keeps; [|spare]. intros D J o c _. unfold sys_read.
  eapply triple_bind; [apply u_fd2file|]. intros f. ufact Hf.
  destruct (_ || _); [apply keeps_answer|].
  apply keeps_bind; [by apply u_keep, fsys_fileread|]. intros [l r]. apply keeps_ret.
Qed.
Lemma p_write fd l size : keeps (proc_ok R I L) (sys_write sblock ctx_addr fd l size).
Proof.
  apply proc_keeps; [|spare]. intros D J o c _. unfold sys_write.
  eapply triple_bind; [apply u_fd2file|]. intros f. ufact Hf. destruct (_ || _); [apply keeps_ret|].
  apply keeps_bind; [by apply u_keep, fsys_filewrite|]. intros r. apply keeps_ret.
Qed.
Lemma p_writev fd iov n : keeps (proc_ok R I L) (sys_writev sblock ctx_addr fd iov n).
Proof.
  apply proc_keeps; [|spare]. intros D J o c _. unfold sys_writev.
  eapply triple_bind; [apply u_fd2file|]. intros f. ufact Hf. destruct (_ || _); [apply keeps_ret|].
  generalize 0. induction (take (Z.to_nat n) iov) as [|l iov' IH]; intros tot; cbn [writev_loop].
  - apply keeps_ret.
  - apply keeps_bind; [by apply u_keep, fsys_filewrite|]. intros r. apply IH.
Qed.

(** closing the null pointer faults *)
Lemma fileclose_null (P : fstate C → Prop) Q : triple P (fileclose sblock ctx_addr 0) Q.
Proof.
  unfold fileclose. eapply (triple_bind _ _ _ (λ _ _, True)); [by intros ????|]. intros [].
  eapply (triple_bind _ _ _ (λ _ _, False)); [|intros; by apply triple_false].
  by intros ????.
Qed.

Lemma p_close fd : keeps (proc_ok R I L) (sys_close sblock ctx_addr fd).
Proof.
  apply proc_start. intros o c Hl. unfold sys_close.
  eapply triple_bind; [apply u_fd2file|]. intros f. ufact Hf.
  eapply triple_bind; [apply u_set_fd|]. intros []. ufact Hfd.
  eapply (triple_bind _ _ _ (λ _, usys (fds (<[Z.to_nat fd := 0]> o) ⊎ R) ({[+ c +]} ⊎ I) L
    (<[Z.to_nat fd := 0]> o) c)).
  - destruct (decide (f = 0)) as [->|Hf0].
    { apply u_to, fileclose_null. }
    destruct (Hf Hf0) as [Hin Ef]. rewrite (fds_clear o _ f Ef Hf0).
    replace (fds (<[Z.to_nat fd := 0]> o) ⊎ R)
      with ((({[+ f +]} ⊎ fds (<[Z.to_nat fd := 0]> o)) ⊎ R) ∖ {[+ f +]}) by multiset_solver.
    apply u_fileclose; [multiset_solver| |spare].
    rewrite <-(fds_clear o _ f Ef Hf0). pose proof (few_of 0 o R Hl R_few ltac:(done)). unfold few. lia.
  - intros []. apply triple_ret. intros s. apply proc_ok_of. by rewrite length_insert.
Qed.
Lemma p_fstat fd buf : keeps (proc_ok R I L) (sys_fstat user_writeable fd buf).
Proof.
  apply proc_keeps; [|spare]. intros D J o c _. unfold sys_fstat.
  eapply triple_bind; [apply u_fd2file|]. intros f. ufact Hf.
  destruct (_ || _); [apply keeps_answer|].
  apply keeps_bind; [by apply u_keep, fsys_filestat|]. intros [v r]. apply keeps_ret.
Qed.

Lemma p_newfstatat dirfd path buf flags :
  keeps (proc_ok R I L) (sys_newfstatat sblock ctx_addr user_writeable AT_FDCWD dirfd path buf flags).
Proof.
  apply proc_start. intros o c Hl. assert (spare_refs 10 ({[+ c +]} ⊎ I)) as HI by spare.
  unfold sys_newfstatat. apply proc_end; [done|]. apply keeps_bind; [apply keeps_getopt|]. intros n.
  destruct (_ || _); [apply keeps_answer|]. destruct (negb _); [apply keeps_answer|].
  destruct (negb _); [apply keeps_answer|].
  apply keeps_bind; [apply u_begin|]. intros [].
  eapply triple_bind; [apply u_namei; spare|]. intros a. unfold held. destruct (a =? 0).
  { apply keeps_bind; [apply u_finish|]. intros []. apply keeps_answer. }
  eapply triple_bind; [apply u_lock|]. intros []. ufact Ha. ukeep.
  eapply triple_bind; [by apply u_unlock|]. intros [].
  eapply triple_bind; [apply u_put; spare|]. intros [].
  eapply triple_bind; [apply u_finish|]. intros []. apply keeps_answer.
Qed.

(** [unlinkat] once the entry is found *)
Lemma u_unlink_found D J o c dp ip off :
  spare_refs 2 J → dp ∉ L →
  triple (usys D ({[+ ip +]} ⊎ ({[+ dp +]} ⊎ J)) ({[dp]} ∪ L) o c)
    (unlink_found sblock ctx_addr dp ip off) (λ _, usys D J L o c).
Proof.
  intros HJ Hd. unfold unlink_found. eapply triple_bind; [apply u_lock|]. intros []. ufact Hi. ukeep.
  eapply triple_bind; [apply keeps_assert|]. intros [].
  eapply (triple_bind _ _ _ (λ _, usys D ({[+ ip +]} ⊎ ({[+ dp +]} ⊎ J)) ({[ip]} ∪ ({[dp]} ∪ L)) o c)).
  { destruct (_ =? INODE_DIRECTORY); [|apply keeps_ret].
    apply keeps_bind; [apply u_isdirempty; set_solver|]. intros e. apply keeps_ret. }
  intros []; cbv beta iota.
  - eapply triple_bind; [by apply u_unlock|]. intros [].
    eapply triple_bind; [apply u_put; spare|]. intros []. apply u_unlink_bad; [spare|done].
  - ukeep. eapply triple_bind; [apply keeps_assert|]. intros []. ukeep.
    eapply triple_bind; [apply (keeps_when (usys D ({[+ ip +]} ⊎ ({[+ dp +]} ⊎ J))
      ({[ip]} ∪ ({[dp]} ∪ L)) o c)); ukeep; apply u_inodes; intros; auto with keeps|]. intros [].
    eapply triple_bind.
    { eapply triple_pre; [intros s; apply usys_swap|]. apply u_unlock. set_solver. }
    intros []. eapply triple_bind; [apply u_put; spare|]. intros []. ukeep. ukeep.
    assert (ip ∉ L) as Hi' by set_solver.
    eapply triple_bind; [by apply u_unlock|]. intros [].
    eapply triple_bind; [apply u_put; spare|]. intros [].
    eapply triple_bind; [apply u_finish|]. intros []. apply keeps_ret.
Qed.

Lemma p_unlinkat fd path flag :
  keeps (proc_ok R I L) (sys_unlinkat sblock ctx_addr stack14 AT_FDCWD fd path flag).
Proof.
  apply proc_start. intros o c Hl. assert (spare_refs 10 ({[+ c +]} ⊎ I)) as HI by spare.
  unfold sys_unlinkat. apply proc_end; [done|]. apply keeps_bind; [apply keeps_assert|]. intros [].
  apply keeps_bind; [apply keeps_getopt|]. intros n. destruct (n =? 0); [apply keeps_ret|].
  apply keeps_bind; [apply u_begin|]. intros [].
  eapply triple_bind; [apply u_parent; spare|]. intros [dp name]. unfold held. simpl.
  destruct (dp =? 0).
  { apply keeps_bind; [apply u_finish|]. intros []. apply keeps_ret. }
  eapply triple_bind; [apply u_lock|]. intros []. ufact Hd.
  eapply triple_bind; [apply keeps_getopt|]. intros dot.
  eapply (triple_bind _ _ _ (λ _, usys (fds o ⊎ R) ({[+ dp +]} ⊎ ({[+ c +]} ⊎ I)) ({[dp]} ∪ L) o c)).
  { destruct (dot =? 0); [apply keeps_ret|apply keeps_getopt]. }
  intros dotdot. destruct (_ || _); [apply u_unlink_bad; [spare|done]|].
  ukeep. destruct a as [ino off]. destruct (ino =? 0) eqn:Eino; [apply u_unlink_bad; [spare|done]|].
  eapply triple_bind; [apply keeps_getopt|]. intros off'.
  eapply triple_bind; [apply u_get_ref; by apply Z.eqb_neq|]. intros ip.
  apply u_unlink_found; [spare|done].
Qed.

Lemma p_openat dirfd path omode :
  keeps (proc_ok R I L)
    (sys_openat sblock ctx_addr stack14 AT_FDCWD O_WRONLY O_RDWR O_CREAT dirfd path omode).
Proof.
  apply proc_start. intros o c Hl. assert (spare_refs 10 ({[+ c +]} ⊎ I)) as HI by spare.
  unfold sys_openat. eapply triple_bind; [apply keeps_getopt|]. intros n.
  destruct (n =? 0); [by apply proc_end, keeps_ret|].
  destruct (negb _); [by apply proc_end, keeps_ret|].
  eapply triple_bind; [apply u_begin|]. intros [].
  eapply triple_bind; [instantiate (1 := opened _ _ L o c); destruct (negb _)|].
  - apply u_create. spare.
  - eapply triple_bind; [apply u_namei; spare|]. intros a. unfold held, opened.
    destruct (Z.eqb_spec a 0) as [->|Ha]; simpl.
    + eapply triple_bind; [apply keeps_ret|]. intros []. by apply triple_ret.
    + eapply triple_bind; [apply u_lock|]. intros []. apply triple_ret. intros s Hs.
      by rewrite (proj2 (Z.eqb_neq a 0)).
  - intros a. unfold opened. destruct (a =? 0).
    + eapply triple_bind; [apply u_finish|]. intros []. by apply proc_end, keeps_ret.
    + ufact Ha. apply u_open_inode; [done|done|spare|done].
Qed.

(** the end of [mkdirat] and [mknodat] *)
Lemma p_made o c (m : M st Z) :
  length o = Z.to_nat NOFILE →
  triple (usys (fds o ⊎ R) ({[+ c +]} ⊎ I) L o c) m (opened (fds o ⊎ R) ({[+ c +]} ⊎ I) L o c) →
  triple (usys (fds o ⊎ R) ({[+ c +]} ⊎ I) L o c)
    (begin ctx_addr;; ip ← m; if ip =? 0 then finish ctx_addr;; ret (-1) else leave sblock ctx_addr ip 0)
    (λ _, proc_ok R I L).
Proof.
  intros Hl Hm. assert (spare_refs 10 ({[+ c +]} ⊎ I)) as HI by spare.
  eapply triple_bind; [apply u_begin|]. intros []. apply proc_end; [done|].
  eapply triple_bind; [exact Hm|]. intros a. unfold opened. destruct (a =? 0).
  - eapply triple_bind; [apply u_finish|]. intros []. apply keeps_ret.
  - ufact Ha. apply u_leave; [spare|done].
Qed.

Lemma p_mkdirat dirfd path mode :
  keeps (proc_ok R I L) (sys_mkdirat sblock ctx_addr stack14 AT_FDCWD dirfd path mode).
Proof.
  apply proc_start. intros o c Hl. assert (spare_refs 10 ({[+ c +]} ⊎ I)) as HI by spare.
  unfold sys_mkdirat. eapply triple_bind; [apply keeps_getopt|]. intros n.
  destruct (n =? 0); [by apply proc_end, keeps_ret|].
  destruct (negb _); [by apply proc_end, keeps_ret|].
  destruct (negb _); [by apply proc_end, keeps_ret|].
  apply p_made; [done|]. apply u_create. spare.
Qed.
Lemma p_mknodat dirfd path ma mi :
  keeps (proc_ok R I L) (sys_mknodat sblock ctx_addr stack14 AT_FDCWD dirfd path ma mi).
Proof.
  apply proc_start. intros o c Hl. assert (spare_refs 10 ({[+ c +]} ⊎ I)) as HI by spare.
  unfold sys_mknodat. eapply triple_bind; [apply keeps_getopt|]. intros n.
  destruct (n =? 0); [by apply proc_end, keeps_ret|].
  destruct (negb _); [by apply proc_end, keeps_ret|].
  apply p_made; [done|]. apply u_create. spare.
Qed.

Lemma p_chdir path : keeps (proc_ok R I L) (sys_chdir sblock ctx_addr path).
Proof.
  apply proc_start. intros o c Hl. assert (spare_refs 10 ({[+ c +]} ⊎ I)) as HI by spare.
  unfold sys_chdir. eapply triple_bind; [apply u_begin|]. intros [].
  eapply triple_bind; [apply u_namei; spare|]. intros a. unfold held. destruct (a =? 0).
  { eapply triple_bind; [apply u_finish|]. intros []. by apply proc_end, keeps_ret. }
  eapply triple_bind; [apply u_lock|]. intros []. ufact Ha. ukeep.
  destruct (negb _).
  { eapply triple_post; [apply u_leave; [spare|done]|]. intros v s. by apply proc_ok_of. }
  eapply triple_bind; [by apply u_unlock|]. intros [].
  eapply triple_bind; [apply triple_gets|]. intros s0.
  apply (triple_pre (λ s, cwd s0 = c ∧ usys (fds o ⊎ R) ({[+ a +]} ⊎ ({[+ c +]} ⊎ I)) L o c s)).
  { by intros s (-> & Hs & Ho & Hc). }
  ufact Hc. rewrite Hc.
  eapply triple_bind.
  { eapply triple_pre; [intros s; apply usys_swap_refs|]. apply u_put. spare. }
  intros []. eapply triple_bind; [apply u_finish|]. intros [].
  eapply (triple_bind _ _ _ (λ _, usys (fds o ⊎ R) ({[+ a +]} ⊎ I) L o a)).
  { apply triple_modify. by intros s (Hs & Ho & _). }
  intros []. apply triple_ret. intros s. by apply proc_ok_of.
Qed.
(** closing both ends of a new pipe *)
Lemma p_pipe_undo o c f0 f1 :
  length o = Z.to_nat NOFILE →
  triple (usys ({[+ f1 +]} ⊎ ({[+ f0 +]} ⊎ (fds o ⊎ R))) ({[+ c +]} ⊎ I) L o c)
    (infiles (fileclose sblock ctx_addr f0);; infiles (fileclose sblock ctx_addr f1);;
     r ← ret (-1); mret (None, r) : M st (option (Z * Z) * Z)) (λ _, proc_ok R I L).
Proof.
  intros Hl. pose proof (few_of 2 o R Hl R_few ltac:(done)) as HD. set (D := fds o ⊎ R) in *.
  eapply triple_bind; [apply u_fileclose; [multiset_solver| |spare]|].
  { unfold few. few_refs. }
  intros []. replace (({[+ f1 +]} ⊎ ({[+ f0 +]} ⊎ D)) ∖ {[+ f0 +]}) with ({[+ f1 +]} ⊎ D) by multiset_solver.
  eapply triple_bind; [apply u_fileclose; [multiset_solver| |spare]|].
  { unfold few. few_refs. }
  intros []. replace (({[+ f1 +]} ⊎ D) ∖ {[+ f1 +]}) with D by multiset_solver.
  apply proc_end; [done|]. apply keeps_answer.
Qed.

Lemma ref_not_null D J c o s f : usys D J L o c s → f ∈ D → f ≠ 0.
Proof.
  intros (Hs & _) Hf. pose proof (fsys_table _ _ _ _ kalloc_fresh _ _ _ _ Hs) as T.
  pose proof (ro_dom _ _ (to_refs _ _ T) f Hf). lia.
Qed.

Lemma p_pipe_fds o c f0 f1 :
  length o = Z.to_nat NOFILE → f0 ≠ 0 → f1 ≠ 0 →
  triple (usys ({[+ f1 +]} ⊎ ({[+ f0 +]} ⊎ (fds o ⊎ R))) ({[+ c +]} ⊎ I) L o c)
    (fd0 ← fdalloc f0; fd1 ← fdalloc f1;
     if (fd0 <? 0) || (fd1 <? 0) then
       when (0 <=? fd0) (set_fd fd0 0);;
       infiles (fileclose sblock ctx_addr f0);; infiles (fileclose sblock ctx_addr f1);;
       r ← ret (-1); mret (None, r)
     else r ← ret 0; mret (Some (fd0, fd1), r)) (λ _, proc_ok R I L).
Proof.
  intros Hl H0' H1'. eapply triple_bind; [by apply u_fdalloc|].
  apply fd_taken_bind'; [intros Hall|intros fd0 Hfd0 Hz0 Hlow0].
  - eapply triple_bind; [by apply u_fdalloc|].
    apply fd_taken_bind'; [intros _|intros fd1 _ Hz1 _; by destruct (Hall (Z.to_nat fd1))].
    simpl. eapply triple_bind; [apply keeps_ret|]. intros []. by apply p_pipe_undo.
  - eapply triple_bind; [apply u_fdalloc; by rewrite length_insert|].
    rewrite (proj2 (Z.ltb_ge fd0 0)) by done. simpl.
    apply fd_taken_bind'; [intros Hall|intros fd1 Hfd1 Hz1 Hlow1].
    + simpl. rewrite (proj2 (Z.leb_le 0 fd0)) by done. simpl.
      eapply triple_bind; [apply u_set_fd|]. intros []. ufact Hi.
      rewrite list_insert_insert_eq, list_insert_id by done. by apply p_pipe_undo.
    + rewrite (proj2 (Z.ltb_ge fd1 0)) by done. eapply triple_post; [apply keeps_answer|].
      intros v s Hs. eapply proc_ok_of; [|rewrite (fds_put _ _ f1), (fds_put _ _ f0) by done;
        rewrite <-!(assoc_L (⊎)); exact Hs]. by rewrite !length_insert.
Qed.

Lemma p_pipe2 flags : keeps (proc_ok R I L) (sys_pipe2 sblock ctx_addr kalloc junk flags).
Proof.
  apply proc_start. intros o c Hl. pose proof (few_of 2 o R Hl R_few ltac:(done)) as HD.
  unfold sys_pipe2. destruct (negb _); [apply proc_end; [done|apply keeps_answer]|].
  eapply triple_bind; [eapply u_files, fsys_pipeAlloc; [done|unfold few; lia]|].
  intros [[f0 f1] v] s a s' [[[-> Hf]|[-> Hf]] Hoc] E.
  - assert (usys ({[+ f1 +]} ⊎ ({[+ f0 +]} ⊎ (fds o ⊎ R))) ({[+ c +]} ⊎ I) L o c s) as Hs by done.
    eapply (p_pipe_fds o c f0 f1); [done| | |exact Hs|exact E]; (eapply ref_not_null; [exact Hs|]);
      multiset_solver.
  - eapply (proc_end R I L o c); [done|apply keeps_answer| |exact E]. done.
Qed.
End with_others.

(** ** All the calls *)

(** a file system call with its arguments *)
Inductive fcall :=
  | Ioctl (fd request : Z)
  | Mmap (addr length prot flags fd offset : Z)
  | Munmap (addr length : Z)
  | Dup (fd : Z)
  | Read (fd buffer size : Z)
  | Write (fd : Z) (l : list Z) (size : Z)
  | Writev (fd : Z) (iov : list (list Z)) (iovcnt : Z)
  | Close (fd : Z)
  | Fstat (fd buf : Z)
  | Newfstatat (dirfd : Z) (path : list Z) (buf flags : Z)
  | Unlinkat (fd : Z) (path : list Z) (flag : Z)
  | Openat (dirfd : Z) (path : list Z) (omode : Z)
  | Mkdirat (dirfd : Z) (path : list Z) (mode : Z)
  | Mknodat (dirfd : Z) (path : list Z) (major minor : Z)
  | Chdir (path : list Z)
  | Pipe2 (flags : Z).

Definition do_call (x : fcall) : M st Z :=
  match x with
  | Ioctl fd r => sys_ioctl fd r
  | Mmap a l p g fd o => sys_mmap a l p g fd o
  | Munmap a l => sys_munmap a l
  | Dup fd => sys_dup fd
  | Read fd b n => '(_, r) ← sys_read sblock user_writeable fd b n; mret r
  | Write fd l n => sys_write sblock ctx_addr fd l n
  | Writev fd iov n => sys_writev sblock ctx_addr fd iov n
  | Close fd => sys_close sblock ctx_addr fd
  | Fstat fd b => '(_, r) ← sys_fstat user_writeable fd b; mret r
  | Newfstatat d p b g =>
      '(_, r) ← sys_newfstatat sblock ctx_addr user_writeable AT_FDCWD d p b g; mret r
  | Unlinkat fd p g => sys_unlinkat sblock ctx_addr stack14 AT_FDCWD fd p g
  | Openat d p m => sys_openat sblock ctx_addr stack14 AT_FDCWD O_WRONLY O_RDWR O_CREAT d p m
  | Mkdirat d p m => sys_mkdirat sblock ctx_addr stack14 AT_FDCWD d p m
  | Mknodat d p ma mi => sys_mknodat sblock ctx_addr stack14 AT_FDCWD d p ma mi
  | Chdir p => sys_chdir sblock ctx_addr p
  | Pipe2 g => '(_, r) ← sys_pipe2 sblock ctx_addr kalloc junk g; mret r
  end.

Lemma do_call_keeps R I L x :
  Z.of_nat (size R) < 2 ^ 30 → Z.of_nat (size I) < 2 ^ 61 → keeps (proc_ok R I L) (do_call x).
Proof.
  intros HR HI. assert (spare_refs 10 ({[+ 0 +]} ⊎ I)) as HI'.
  { unfold spare_refs. rewrite gmultiset_size_disj_union, gmultiset_size_singleton.
    change (2 ^ 61) with 2305843009213693952 in HI. change (2 ^ 62) with 4611686018427387904. lia. }
  destruct x; simpl.
  - apply keeps_bind; [apply keeps_assert|]. intros []. apply keeps_ret.
  - apply keeps_ret.
  - apply keeps_ret.
  - by apply p_dup.
  - apply keeps_bind; [by apply p_read|]. intros []. apply keeps_ret.
  - by apply p_write.
  - by apply p_writev.
  - by apply p_close.
  - apply keeps_bind; [by apply p_fstat|]. intros []. apply keeps_ret.
  - apply keeps_bind; [by apply p_newfstatat|]. intros []. apply keeps_ret.
  - by apply p_unlinkat.
  - by apply p_openat.
  - by apply p_mkdirat.
  - by apply p_mknodat.
  - by apply p_chdir.
  - apply keeps_bind; [by apply p_pipe2|]. intros []. apply keeps_ret.
Qed.
End calls.

(** ** Properties *)


(** ** A process that makes a pipe *)

(** an allocator that always finds memory, and never at the null pointer *)
Definition some_memory (n : nat) (live : gset Z) : Z := fresh ({[0]} ∪ live).
Lemma some_memory_fresh n live : some_memory n live ∉ live.
Proof. unfold some_memory. pose proof (is_fresh ({[0]} ∪ live : gset Z)). set_solver. Qed.

Definition first_process : ustate cachest := mkUs first_files init_oftable 1.

Definition is_zero {S} (r : res (Z * S)) : bool := match r with Ok (v, _) => v =? 0 | _ => false end.

Lemma file_inodes_blank n : file_inodes (replicate n zero_file) = ∅.
Proof. induction n as [|n IH]; [done|]. simpl. by rewrite file_inodes_cons, IH. Qed.

Lemma first_process_ok :
  @proc_ok _ (cache_ops small_sb) (log_ops small_sb) small_sb 7 some_memory (λ _, replicate 512 0)
    ∅ ∅ ∅ first_process.
Proof.
  split; [done|]. split.
  - assert (fds (oft first_process) = ∅) as -> by by_decision. rewrite (left_id_L ∅ (⊎)).
    by eapply (reach_init _ _ _ _ first_files).
  - change (filelist (files first_process)) with (replicate (Z.to_nat NFILE) zero_file).
    split; [apply length_replicate|].
    change (filelist (files first_process)) with (replicate (Z.to_nat NFILE) zero_file).
    rewrite file_inodes_blank, !(right_id_L ∅ (⊎)). simpl.
    assert (∀ a i, imem (fs first_files) !! a = Some i → a = 1 ∧ i = one_inode INODE_REGULAR 5) as H1.
    { intros a i Hi. change (({[1 := one_inode INODE_REGULAR 5]} : gmap Z Inode) !! a = Some i) in Hi.
      by apply lookup_singleton_Some in Hi as [<- <-]. }
    split.
    + intros a i [-> ->]%H1. by rewrite multiplicity_singleton_eq.
    + intros a ->%gmultiset_elem_of_singleton. by eexists.
    + by intros a ?%elem_of_empty.
    + intros a [i [-> _]%H1]. done.
    + done.
Qed.

