(* ===== verification/Start.v ===== *)
(** * Starting the file system: [fs/fs.c], and the directory of the first process

    [init_block_device] ([Sd]) has set the card up; from here on the disk is the map of its
    blocks, whose block 1 is the super block.  The geometry that [fs/inode.c] keeps in
    [sblock] is an argument of the inode layer's operations.  [kernel_entry] gives the first
    process its working directory in an operation of its own. *)

From Stdlib Require Import ZArith Lia.
From S2P Require Import Prelude Words Sync Layout Cache CacheSpec CacheLog CacheAlloc CacheOps BlockCache.
From S2P Require Import Console Pipe Inode File.

(** the kernel's memory before anything runs *)
Definition power_on (d : gmap Z (list Z)) : fstate cachest :=
  mkFs false (replicate (Z.to_nat NFILE) zero_file) ∅ 0 (mkTree false [] ∅ 1 0 blank_console false (boot d)).

(** [sblock_data], which [init_block_device] has read from block 1 *)
Definition get_super_block (s : fstate cachest) : SuperBlock := dec_super (dread (disk (cst (fs s))) 1).

(** without [init_block_device], for which see [Sd.init_block_device] *)
Definition init_filesystem : M (fstate cachest) SuperBlock :=
  sblock ← gets get_super_block;
  on_fs (lift (init_bcache sblock));;
  on_fs (@init_inodes _ (cache_ops sblock) sblock);;
  init_ftable;;
  mret sblock.

(** [p->cwd = namei("/", &ctx)], with its operation *)
Definition first_cwd (sblock : SuperBlock) (ctx_addr : Z) : M (fstate cachest) Z :=
  @begin_op _ (log_ops sblock) ctx_addr;;
  p ← on_fs (@namei _ (cache_ops sblock) sblock 0 [SLASH] (Some ctx_addr));
  @end_op _ (log_ops sblock) ctx_addr;;
  mret p.
