(* ===== verification/StartSpec.v ===== *)
(** * Starting the file system: recovery, the root inode, no file open *)

From Stdlib Require Import ZArith Lia.
From stdpp Require Import gmultiset.
From S2P Require Import Prelude Words Sync Layout Cache CacheSpec CacheLog CacheAlloc CacheOps BlockCache.
From S2P Require Import Console Pipe Inode InodeSpec InodePath File FileSpec InodeRefs FileRefs FileTriple Sysfile SysfileSpec Start.

(** ** The disk *)

(** the contents once the blocks in the log are where they belong *)
Definition recovered (sb : SuperBlock) (d : gmap Z (list Z)) : Z → list Z :=
  dread (apply_writes (install sb (logged_blocks (dec_header (dread d (sb_log_start sb)))) d) d).

(** A disk the kernel can start from.  Its log may hold an operation that was committed. *)
Record sound_disk (sb : SuperBlock) (d : gmap Z (list Z)) : Prop := {
  sd_super : dec_super (dread d 1) = sb;
  sd_blocks : ∀ b, block_ok (dread d b);
  sd_header : header_ok sb (dec_header (dread d (sb_log_start sb)));
  sd_bitmap : ∀ b, is_bitmap sb b → client_block sb b;
  sd_free : ∀ b, is_free sb (recovered sb d) b → client_block sb b ∧ ¬ is_bitmap sb b;
  sd_root : 1 < sb_num_inodes sb ∧ client_block sb (to_block_no sb 1) }.

Section start.
Context (sb : SuperBlock).
Notation rep V s := (cache_rep sb V ∅ s ∧ bitmaplock s = false).
Notation bc := (cache_ops sb).

(** ** The block cache *)

Lemma log_idle_ctl s s' : ctl s' = ctl s → log_idle sb s → log_idle sb s'.
Proof. intros C [Q Hn]. split; [by eapply log_quiet_ctl|by rewrite (ctl_header _ _ C)]. Qed.

Lemma recovery_run d : sound_disk sb d →
  ∃ s V, init_bcache sb (boot d) = Ok (tt, s) ∧ rep V s ∧ log_idle sb s ∧
    ∀ x, x ≠ sb_log_start sb → V x = recovered sb d x.
Proof.
  intros [_ Hb Hh Hbm Hf _]. set (h := dec_header _) in *.
  destruct (init_bcache_spec sb d h eq_refl Hh) as (s & V & E & R & L & [Ho Hbl] & Ew & Ed).
  assert (∀ x, V x = dread (disk s) x) as Hd by (intros; by apply R).
  assert (∀ x, x ≠ sb_log_start sb → V x = recovered sb d x) as Hrec.
  { intros x Hx. rewrite Hd, Ed, Ew, apply_writes_snoc, dread_insert, decide_False by done. done. }
  assert (∀ b, block_ok (recovered sb d b)) as Hrok.
  { intros b. unfold recovered. fold h. destruct (dread_apply_cases (install sb (logged_blocks h) d) d b) as [[_ ->]|(v & Hv & ->)]; [done|].
    unfold install in Hv. apply elem_of_lookup_imap in Hv as (i & y & [= -> ->] & _). done. }
  assert (lh_num_blocks (header s) = 0) as Hn.
  { destruct L as [[Hnum Hlen _ _ _] HP _ _ _ _ _ _]. unfold logged_blocks in HP.
    destruct (decide (lh_num_blocks (header s) = 0)) as [|Hne]; [done|]. exfalso.
    destruct (lh_block_no (header s)) as [|y l]; [done|]. destruct (Z.to_nat (lh_num_blocks (header s))) as [|k] eqn:Ek; [lia|].
    simpl in HP. set_solver. }
  assert (∀ x, is_free sb V x ↔ is_free sb (recovered sb d) x) as Hfr.
  { intros x. apply is_free_ext. intros y Hy. apply Hrec. intros ->. by apply (client_not_start sb _ (Hbm _ Hy)). }
  exists s, V. split; [done|]. split; [split; [split|done]|split; [|done]].
  - exists ∅. split; [done|]. destruct L as [[H1 H2 H3 H4 H5] HP _ _ _ _ Hl _]. split; try done.
    intros x Hx. unfold logged_blocks in Hx. rewrite Hn in Hx. by apply elem_of_nil in Hx.
  - intros b. destruct (decide (b = sb_log_start sb)) as [->|Hne]; [rewrite Hd; apply L|by rewrite Hrec].
  - intros b Hb'%Hfr. by apply Hf.
  - done.
  - split; [|done]. destruct L. by split.
Qed.

(** ** The root inode *)

(** a block read and given back *)
Lemma look_run V s bno : rep V s → client_block sb bno →
  ∃ b s1 s2, cache_acquire bno s = Ok (b, s1) ∧ @bc_data _ bc b s1 = Ok (V bno, s1) ∧
    cache_release b s1 = Ok (tt, s2) ∧ rep V s2 ∧ ctl s2 = ctl s.
Proof.
  intros [R Hbl] Hc. destruct (acquire_ok sb V ∅ s bno R Hc) as (b & s1 & E1 & _ & R1 & C1); [by intros a d|].
  assert (bitmaplock s1 = false) as Hbl1 by by rewrite (ctl_bitmaplock _ _ C1).
  destruct (release_ok sb V {[b := (bno, V bno)]} s1 b bno R1 (lookup_singleton_eq _ _)) as (s2 & E2 & R2 & C2).
  exists b, s1, s2. split; [done|]. split.
  { apply (@bc_data_ok _ bc (cache_laws sb) V {[b := (bno, V bno)]} s1 b bno (V bno)); [by split|apply lookup_singleton_eq]. }
  split; [done|]. rewrite delete_singleton_eq in R2. split; [|by rewrite C2]. split; [done|]. by rewrite (ctl_bitmaplock _ _ C2).
Qed.

Definition root_inode (V : Z → list Z) (n : Z) : Inode := mkInode (mkSem 1 []) n 1 true (get_entry (V (to_block_no sb 1)) 1).

(** [init_inodes] *)
Lemma init_inodes_run V (t : itree cachest) : rep V (cst t) → 1 < sb_num_inodes sb → client_block sb (to_block_no sb 1) →
  0 < inext t → imem t !! inext t = None →
  ∃ c, @init_inodes _ bc sb t = Ok (tt, mkTree false [inext t] (<[inext t := root_inode V 1]> (imem t)) (inext t + 1) (inext t)
      (cons t) (killed t) c) ∧ rep V c ∧ ctl c = ctl (cst t).
Proof.
  intros R Hn Hc Ha Hfresh. set (a := inext t).
  destruct (look_run V (cst t) (to_block_no sb 1) R Hc) as (b & s1 & s2 & E1 & E2 & E3 & R2 & C2).
  set (T := λ (k : bool) (hd : list Z) (i : Inode) (c : cachest), mkTree k hd (<[a := i]> (imem t)) (inext t + 1) (iroot t) (cons t) (killed t) c).
  assert (∀ f k hd i c, set_ip a f (T k hd i c) = Ok (tt, T k hd (f i) c)) as Eset.
  { intros f k hd i c. rewrite (set_ip_run a f i) by apply lookup_insert_eq. unfold T, upd_imem. simpl. by rewrite insert_insert_eq. }
  assert (∀ k hd i c, imem (T k hd i c) !! a = Some i) as Eip by (intros; apply lookup_insert_eq).
  exists s2. split; [|done]. unfold init_inodes. erewrite bind_Ok by reflexivity. erewrite bind_Ok by apply modify_run.
  change (ROOT_INODE_NO <? sb_num_inodes sb) with (1 <? sb_num_inodes sb). rewrite (proj2 (Z.ltb_lt _ _)) by done.
  unfold inode_get. change (ROOT_INODE_NO =? 0) with false. cbv iota. rewrite !bind_assoc.
  erewrite bind_Ok by (apply assert_run, Z.ltb_lt; done). rewrite !bind_assoc.
  erewrite bind_Ok by (apply acquire_spinlock_run; done). rewrite bind_assoc. erewrite bind_Ok by apply gets_run. rewrite bind_assoc.
  erewrite bind_Ok by reflexivity. cbv iota. rewrite bind_assoc. erewrite bind_Ok by apply gets_run. rewrite bind_assoc.
  erewrite bind_Ok by apply modify_run. rewrite bind_assoc. erewrite bind_Ok by apply modify_run.
  change (upd_imem _ _) with (T true [] init_inode (cst t)). change (inext _) with a.
  do 2 (rewrite bind_assoc; erewrite bind_Ok by apply Eset). set (i1 := mkInode (mkSem 1 []) 1 1 false (entry init_inode)).
  match goal with |- context [T true [] ?i] => change i with i1 end.
  assert (inode_lock a (T true [] i1 (cst t)) = Ok (tt, T true [] (set_ilock (mkSem 0 []) i1) (cst t))) as El.
  { rewrite (inode_lock_run a i1) by (try done; apply Eip). unfold T, upd_imem. simpl. by rewrite insert_insert_eq. }
  set (i2 := set_ilock (mkSem 0 []) i1) in *. rewrite bind_assoc, (bind_Ok _ _ _ _ _ El).
  set (i3 := mkInode (lock i2) (rc i2) 1 true (get_entry (V (to_block_no sb 1)) 1)).
  assert (@inode_sync _ bc sb None a false (T true [] i2 (cst t)) = Ok (tt, T true [] i3 s2)) as Es.
  { unfold inode_sync. erewrite bind_Ok by (apply ip_run, Eip). erewrite bind_Ok by reflexivity.
    erewrite bind_Ok by (apply ip_run, Eip). cbn [valid i2 i1 set_ilock set_rc init_inode negb when inode_no_].
    erewrite bind_Ok by (apply lift_run; exact E1). erewrite bind_Ok by (apply lift_run; exact E2).
    change (with_cache s1 (with_cache s1 (T true [] i2 (cst t)))) with (T true [] i2 s1). erewrite bind_Ok by apply Eset.
    erewrite lift_run by exact E3. done. }
  rewrite bind_assoc, (bind_Ok _ _ _ _ _ Es).
  assert (inode_unlock a (T true [] i3 s2) = Ok (tt, T true [] (root_inode V 1) s2)) as Eu.
  { rewrite (inode_unlock_run a i3) by (try done; apply Eip). unfold T, upd_imem. simpl. by rewrite insert_insert_eq. }
  rewrite bind_assoc, (bind_Ok _ _ _ _ _ Eu). done.
Qed.

(** ** The working directory of the first process *)

Lemma root_again_run V (t : itree cachest) a : ilock t = false → ihead t = [a] → imem t !! a = Some (root_inode V 1) →
  1 < sb_num_inodes sb →
  ∀ ctx, @namei _ bc sb 0 [SLASH] (Some ctx) t = Ok (a, upd_ilock (λ _, false) (upd_imem <[a := root_inode V 2]> t)).
Proof.
  intros Hl Hh Ei Hn ctx. unfold namei, namex. rewrite bind_assoc. rewrite bool_decide_true by done.
  set (t1 := upd_ilock (λ _, false) (upd_imem <[a := root_inode V 2]> t)).
  assert (@inode_get _ bc sb ROOT_INODE_NO t = Ok (a, t1)) as E.
  { unfold inode_get. change (ROOT_INODE_NO =? 0) with false. cbv iota. erewrite bind_Ok by (apply assert_run, Z.ltb_lt; done).
    erewrite bind_Ok by (apply acquire_spinlock_run; done). erewrite bind_Ok by apply gets_run.
    change (ihead _) with (ihead t). rewrite Hh. cbn [find_inode]. rewrite bind_assoc. erewrite bind_Ok by (apply ip_run; exact Ei).
    erewrite bind_Ok by reflexivity. cbv iota. erewrite bind_Ok by (apply set_ip_run; exact Ei).
    by erewrite bind_Ok by apply release_spinlock_run. }
  rewrite (bind_Ok _ _ _ _ _ E). reflexivity.
Qed.

Lemma first_cwd_run V (s : fstate cachest) a ctx : rep V (cst (fs s)) → log_idle sb (cst (fs s)) →
  ilock (fs s) = false → ihead (fs s) = [a] → imem (fs s) !! a = Some (root_inode V 1) → 1 < sb_num_inodes sb →
  ∃ c V', first_cwd sb ctx s = Ok (a, upd_fs (λ _, with_cache c (upd_ilock (λ _, false) (upd_imem <[a := root_inode V 2]> (fs s)))) s) ∧
    rep V' c ∧ log_idle sb c ∧ ∀ b, client_block sb b → V' b = V b ∧ dread (disk c) b = V b.
Proof.
  intros R Hi Hl Hh Ei Hn. destruct (begin_op_run sb V (cst (fs s)) ctx R Hi) as (c1 & E1 & R1 & Hroom).
  destruct (end_op_run sb V c1 ctx ∅ 0 R1 (Hroom ∅ 0%nat ltac:(rewrite size_empty; lia))) as (c2 & V' & E2 & R2 & Hi2 & HV).
  exists c2, V'. split; [|done]. unfold first_cwd.
  assert (∀ A (m : M (itree cachest) A) x t s0, m (fs s0) = Ok (x, t) → on_fs m s0 = Ok (x, upd_fs (λ _, t) s0)) as Eon.
  { intros A m x t s0 E. unfold on_fs, on. by rewrite E. }
  erewrite bind_Ok by (apply Eon, lift_run; exact E1). set (s1 := upd_fs _ s).
  erewrite bind_Ok by (apply Eon; apply (root_again_run V (fs s1) a); done).
  erewrite bind_Ok by (apply Eon, lift_run; exact E2). done.
Qed.

(** ** Start-up *)

Lemma init_filesystem_run d : sound_disk sb d →
  ∃ c V, init_filesystem (power_on d) =
      Ok (sb, upd_fs (λ _, mkTree false [1] {[1 := root_inode V 1]} 2 1 blank_console false c) (power_on d)) ∧
    rep V c ∧ log_idle sb c ∧ ∀ x, x ≠ sb_log_start sb → V x = recovered sb d x.
Proof.
  intros Hd. destruct (recovery_run d Hd) as (c1 & V & E1 & R1 & Hi1 & HV). pose proof Hd as [Hsb _ _ _ _ [Hn Hc]].
  set (t1 := mkTree false [] ∅ 1 0 blank_console false c1 : itree cachest).
  destruct (init_inodes_run V t1 R1 Hn Hc) as (c & E2 & R2 & C2); [done|done|].
  exists c, V. split; [|split; [done|split; [by eapply log_idle_ctl|done]]]. unfold init_filesystem. erewrite bind_Ok by apply gets_run.
  assert (get_super_block (power_on d) = sb) as -> by exact Hsb.
  rewrite (bind_Ok _ _ _ tt (upd_fs (λ _, t1) (power_on d))).
  - rewrite (bind_Ok _ _ _ tt (upd_fs (λ _, mkTree false [1] {[1 := root_inode V 1]} 2 1 blank_console false c) (power_on d))); [done|].
    unfold on_fs, on. change (fs (upd_fs (λ _, t1) (power_on d))) with t1. by rewrite E2.
  - unfold on_fs, on. change (fs (power_on d)) with (mkTree false [] ∅ 1 0 blank_console false (boot d) : itree cachest).
    rewrite (lift_run _ _ tt c1); [done|]. exact E1.
Qed.

(** C5: the kernel starts its file system on every sound disk, whatever operation a crash left
    in the log, and gets to the state the other theorems about the file system start from:
    the committed blocks are where they belong and every block a client can see, in the cache
    and on the disk, is as recovery leaves it; no operation is under way; the root inode is in
    memory as the disk has it, the only one, unlocked, with the reference of the inode layer
    and that of the first process; no file is open; and the references of the first process,
    with its empty table of files and its working directory, account for all there are. *)
Theorem startup_correct d ctx kalloc junk : sound_disk sb d →
  ∃ s V, (sblock ← init_filesystem; first_cwd sblock ctx) (power_on d) = Ok (1, s) ∧
    rep V (cst (fs s)) ∧ log_idle sb (cst (fs s)) ∧
    (∀ b, client_block sb b → V b = recovered sb d b ∧ dread (disk (cst (fs s))) b = recovered sb d b) ∧
    imem (fs s) = {[1 := mkInode (mkSem 1 []) 2 1 true (get_entry (recovered sb d (to_block_no sb 1)) 1)]} ∧
    (∀ f, 1 ≤ f ≤ NFILE → file f s = Ok (zero_file, s)) ∧
    @proc_ok _ bc (log_ops sb) sb ctx kalloc junk ∅ {[+ 1 +]} ∅ (mkUs s init_oftable 1).
Proof.
  intros Hd. destruct (init_filesystem_run d Hd) as (c1 & V & E1 & R1 & Hi1 & HV). pose proof Hd as [_ _ _ _ _ [Hn Hc]].
  set (s1 := upd_fs _ _) in E1.
  destruct (first_cwd_run V s1 1 ctx R1 Hi1) as (c & V' & E2 & R2 & Hi2 & HV'); [done|done|apply lookup_singleton_eq|done|].
  rewrite (bind_Ok _ _ _ _ _ E1). set (s := upd_fs _ s1) in *. exists s, V'. split; [exact E2|].
  assert (∀ b, client_block sb b → b ≠ sb_log_start sb) as Hst by (intros b Hb; by apply client_not_start).
  assert (imem (fs s) = {[1 := mkInode (mkSem 1 []) 2 1 true (get_entry (recovered sb d (to_block_no sb 1)) 1)]}) as Em.
  { change (imem (fs s)) with (<[1 := root_inode V 2]> ({[1 := root_inode V 1]} : gmap Z Inode)). rewrite insert_singleton_eq.
    unfold root_inode. by rewrite HV by by apply Hst. }
  split; [done|]. split; [done|]. split.
  { intros b Hb. change (cst (fs s)) with c. destruct (HV' b Hb) as [-> ->]. by rewrite HV by by apply Hst. }
  split; [exact Em|]. split; [|split; [done|split]].
  - intros f Hf. replace f with (Z.of_nat (Z.to_nat (f - 1)) + 1) by lia. apply file_run.
    change (filelist s) with (replicate (Z.to_nat NFILE) zero_file). apply lookup_replicate. split; [done|lia].
  - assert (fds (oft (mkUs s init_oftable 1)) = ∅) as -> by by_decision. rewrite (left_id_L ∅ (⊎)).
    by eapply (reach_init _ _ _ _ s).
  - change (filelist (files _)) with (replicate (Z.to_nat NFILE) zero_file).
    split; [apply length_replicate|]. change (filelist _) with (replicate (Z.to_nat NFILE) zero_file).
    rewrite file_inodes_blank, (right_id_L ∅ (⊎)).
    assert (∀ a i, imem (fs s) !! a = Some i → a = 1 ∧ rc i = 2 ∧ lock i = mkSem 1 []) as H1.
    { intros a i. rewrite Em. by intros [<- <-]%lookup_singleton_Some. }
    assert (is_Some (imem (fs s) !! 1)) as H2 by (rewrite Em, lookup_singleton_eq; by eexists).
    split.
    + intros a i (-> & -> & ->)%H1. by rewrite multiplicity_disj_union, !multiplicity_singleton_eq.
    + intros a Ha. change (cwd _) with 1 in Ha. apply gmultiset_elem_of_disj_union in Ha.
      by destruct Ha as [->%gmultiset_elem_of_singleton| ->%gmultiset_elem_of_singleton].
    + by intros a ?%elem_of_empty.
    + intros a [i (-> & _)%H1]. done.
    + done.
Qed.
End start.

(** ** A disk with a committed operation in its log

    Block 1 is the super block; the log says that block 3 belongs at 85, the first block of
    the root directory. *)

Definition crash_header : LogHeader := mkLogHeader 1 (85 :: replicate 62 0).
Definition crash_disk : gmap Z (list Z) :=
  <[1 := enc_super small_sb ++ replicate 484 0]> (<[2 := enc_header crash_header]> (<[3 := hello_block]>
    (one_disk INODE_DIRECTORY 32 (replicate 512 7)))).

Lemma crash_sound : sound_disk small_sb crash_disk.
Proof.
  assert (∀ b, block_ok (dread crash_disk b)) as Hb.
  { intros b. unfold dread. destruct (crash_disk !! b) as [l|] eqn:E; [|by_decision].
    revert b l E. unfold crash_disk, one_disk. repeat (apply map_Forall_insert_2; [by_decision|]).
    by_decision. }
  split.
  - vm_compute. reflexivity.
  - exact Hb.
  - assert (dec_header (dread crash_disk (sb_log_start small_sb)) = crash_header) as -> by (vm_compute; reflexivity).
    split; try by_decision. intros x Hx. change (logged_blocks crash_header) with [85] in Hx.
    apply list_elem_of_singleton in Hx as ->. unfold in_log. simpl. lia.
  - intros b ->%small_bitmap_block. apply one_client. tauto.
  - intros b Hf. assert (is_free small_sb (one_V INODE_DIRECTORY 32 (replicate 512 7)) b) as Hf'.
    { revert Hf. apply is_free_ext. intros x ->%small_bitmap_block. vm_compute. reflexivity. }
    apply one_free in Hf'. split; [apply one_client; tauto|]. intros ->%small_bitmap_block. lia.
  - split; [done|]. change (to_block_no small_sb 1) with 66. apply one_client. tauto.
Qed.

Lemma startup_correct_witness :
  ∃ s V, (sblock ← init_filesystem; first_cwd sblock 7) (power_on crash_disk) = Ok (1, s) ∧
    V 85 = hello_block ∧ dread crash_disk 85 = replicate 512 7 ∧ dread (disk (cst (fs s))) 85 = hello_block.
Proof.
  destruct (startup_correct small_sb crash_disk 7 some_memory (λ _, replicate 512 0) crash_sound)
    as (s & V & E & _ & _ & HV & _). exists s, V. split; [exact E|].
  destruct (HV 85 ltac:(apply one_client; tauto)) as [-> ->]. split_and!; vm_compute; reflexivity.
Defined.
