(* ===== verification/Mkfs.v ===== *)
(** * [user/mkfs/main.c]: building the file system image

    The state is the image file as its sectors, and the counters [freeinode] and [freeblock].
    The program runs on a little-endian host, so that the byte swapping of [xshort] and
    [xint] only cuts their argument to its width.  [exit(1)] and a failing [assert] both are
    [Panic].  A file to put into the image is its path, a string, and its content, or [None]
    when it cannot be opened; [read] gives 512 bytes of it at a time, and then what is left. *)

From Stdlib Require Import ZArith Lia.
From S2P Require Import Prelude Words Layout Inode.

Definition NINODES : Z := 200.
Definition nbitmap : Z := FSSIZE / (BLOCK_SIZE * 8) + 1.
Definition ninodeblocks : Z := NINODES / INODE_PER_BLOCK + 1.
Definition num_log_blocks : Z := LOG_MAX_SIZE.
Definition nmeta : Z := 2 + num_log_blocks + ninodeblocks + nbitmap.
Definition num_data_blocks : Z := FSSIZE - nmeta.

Definition xshort (x : Z) : Z := u16 x.
Definition xint (x : Z) : Z := u32 x.

(** [sb] as [main] fills it *)
Definition mkfs_sb : SuperBlock :=
  mkSuper (xint FSSIZE) (xint num_data_blocks) (xint NINODES) (xint num_log_blocks)
    (xint 2) (xint (2 + num_log_blocks)) (xint (2 + num_log_blocks + ninodeblocks)).

Record mkst := mkMk { img : gmap Z (list Z); freeinode : Z; freeblock : Z }.

Definition upd_img (f : gmap Z (list Z) → gmap Z (list Z)) (s : mkst) : mkst :=
  mkMk (f (img s)) (freeinode s) (freeblock s).
Definition set_freeinode (v : Z) (s : mkst) : mkst := mkMk (img s) v (freeblock s).
Definition set_freeblock (v : Z) (s : mkst) : mkst := mkMk (img s) (freeinode s) v.

(** ** Sectors and inodes *)

Definition wsect (sec : Z) (buf : list Z) : M mkst unit := modify (upd_img <[sec := buf]>).
(** a sector that was never written cannot be read *)
Definition rsect (sec : Z) : M mkst (list Z) :=
  s ← gets id; match img s !! sec with Some d => mret d | None => panic end.

Definition IBLOCK (i : Z) : Z := i / INODE_PER_BLOCK + sb_inode_start mkfs_sb.

Definition winode (inum : Z) (e : InodeEntry) : M mkst unit :=
  let bn := IBLOCK inum in
  buf ← rsect bn;
  wsect bn (splice (entry_off inum) (enc_inode e) buf).
Definition rinode (inum : Z) : M mkst InodeEntry :=
  buf ← rsect (IBLOCK inum); mret (dec_inode (sub (entry_off inum) 64 buf)).

Definition ialloc (type : Z) : M mkst Z :=
  s ← gets id;
  let inum := freeinode s in
  modify (set_freeinode (u32 (inum + 1)));;
  winode inum (mkInodeEntry (xshort type) 0 0 (xshort 1) (xint 0) (replicate 12 0) 0);;
  mret inum.

(** [buf[i / 8] | (0x1 << (i % 8))] for all [i < used] *)
Definition mark_used (used : Z) (buf : list Z) : list Z :=
  foldl (λ buf i, alter (λ v, u8 (Z.lor v (Z.shiftl 1 (i mod 8)))) (Z.to_nat (i / 8)) buf) buf
    (zseq 0 (Z.to_nat used)).
Definition balloc (used : Z) : M mkst unit :=
  assert (used <? BLOCK_SIZE * 8);;
  wsect (sb_bitmap_start mkfs_sb) (mark_used used (replicate 512 0)).

(** ** Appending to a file *)

(** [xint(freeblock++)] *)
Definition next_free : M mkst Z :=
  s ← gets id; modify (set_freeblock (u32 (freeblock s + 1)));; mret (xint (freeblock s)).

(** the block [x] for [fbn] out of the indirect block *)
Definition indirect_block (din : InodeEntry) (fbn : Z) : M mkst Z :=
  buf ← rsect (xint (indirect din));
  let ind := dec_indirect buf in
  a ← getopt (λ _, ind !! Z.to_nat (fbn - INODE_NUM_DIRECT));
  if a =? 0 then
    b ← next_free;
    wsect (xint (indirect din)) (enc_indirect (<[Z.to_nat (fbn - INODE_NUM_DIRECT) := b]> ind));;
    mret (xint b)
  else mret (xint a).

(** the block [x] for [fbn], and the entry with what was added to it *)
Definition append_block (din : InodeEntry) (fbn : Z) : M mkst (InodeEntry * Z) :=
  if fbn <? INODE_NUM_DIRECT then
    a ← getopt (λ _, addrs din !! Z.to_nat fbn);
    if xint a =? 0 then
      b ← next_free; mret (set_addr (Z.to_nat fbn) b din, xint b)
    else mret (din, xint a)
  else
    din ← (if xint (indirect din) =? 0 then b ← next_free; mret (set_indirect b din) else mret din);
    x ← indirect_block din fbn;
    mret (din, x).

(** the loop of [iappend] with the bytes [p] left to append at [off]; every round appends
    at least one *)
Fixpoint append_loop (fuel : nat) (din : InodeEntry) (off : Z) (p : list Z) : M mkst (InodeEntry * Z) :=
  match fuel with
  | O => nofuel
  | S fuel =>
      if 0 <? Z.of_nat (length p) then
        let fbn := off / BLOCK_SIZE in
        assert (fbn <? INODE_MAX_BLOCKS);;
        '(din, x) ← append_block din fbn;
        let n1 := MIN (Z.of_nat (length p)) ((fbn + 1) * BLOCK_SIZE - off) in
        buf ← rsect x;
        wsect x (splice (Z.to_nat (off - fbn * BLOCK_SIZE)) (take (Z.to_nat n1) p) buf);;
        append_loop fuel din (u32 (off + n1)) (drop (Z.to_nat n1) p)
      else mret (din, off)
  end.

Definition iappend (inum : Z) (p : list Z) : M mkst unit :=
  din ← rinode inum;
  '(din, off) ← append_loop (S (length p)) din (xint (num_bytes din)) p;
  winode inum (set_num_bytes (xint off) din).

(** ** The program *)

(** the length [j] of what follows the last slash *)
Fixpoint last_elem (j : Z) (path : list Z) : Z :=
  match path with
  | [] => j
  | c :: path => last_elem ((if c =? SLASH then -1 else j) + 1) path
  end.
Definition basename (path : list Z) : list Z :=
  drop (Z.to_nat (Z.of_nat (length path) - last_elem 0 path)) path.

Definition UNDERSCORE : Z := 95.
Definition skip_underscore (l : list Z) : list Z :=
  match l with c :: r => if c =? UNDERSCORE then r else l | [] => [] end.

(** [strncpy(de.name, name, DIRSIZ)] into zeros *)
Definition dir_name (name : list Z) : list Z :=
  take 14 name ++ replicate (14 - length (take 14 name)) 0.

Definition rootino : Z := ROOT_INODE_NO.

(** [while ((cc = read(fd, buf, sizeof(buf))) > 0) iappend(inum, buf, cc)] *)
Fixpoint copy_file (fuel : nat) (inum : Z) (content : list Z) : M mkst unit :=
  match fuel with
  | O => nofuel
  | S fuel =>
      let buf := take 512 content in
      if 0 <? Z.of_nat (length buf) then
        iappend inum buf;; copy_file fuel inum (drop 512 content)
      else mret tt
  end.

(** the body of the loop over the files *)
Definition add_file (f : list Z * option (list Z)) : M mkst unit :=
  let '(path, content) := f in
  let name := basename path in
  assert (bool_decide (SLASH ∉ name));;
  match content with
  | None => panic
  | Some content =>
      let name := skip_underscore name in
      inum ← ialloc INODE_REGULAR;
      iappend rootino (enc_dirent (mkDirEntry (xshort inum) (dir_name name)));;
      copy_file (S (length content)) inum content
  end.

Definition main (files : list (list Z * option (list Z))) : M mkst unit :=
  modify (λ s, mkMk ∅ 1 nmeta);;
  for_each (zseq 0 (Z.to_nat FSSIZE)) (λ i, wsect i (replicate 512 0));;
  wsect 1 (splice 0 (enc_super mkfs_sb) (replicate 512 0));;
  root ← ialloc INODE_DIRECTORY;
  assert (root =? ROOT_INODE_NO);;
  iappend root (enc_dirent (mkDirEntry (xshort root) (dir_name [46])));;
  iappend root (enc_dirent (mkDirEntry (xshort root) (dir_name [46; 46])));;
  for_each files add_file;;
  din ← rinode root;
  let off := xint (num_bytes din) in
  let off := u32 ((off / BLOCK_SIZE + 1) * BLOCK_SIZE) in
  winode root (set_num_bytes (xint off) din);;
  s ← gets id;
  balloc (freeblock s).
