(* ===== verification/MkfsFile.v ===== *)
(** * Files in the image: what [iappend] does to one file and to the others

    [file_ok V fb e n c]: with the sectors [V], the entry [e] maps [n] blocks below [fb] that
    hold the bytes [c], and zeros behind them. *)

From Stdlib Require Import ZArith Lia.
From S2P Require Import Prelude Words Sync Layout Cache CacheSpec Inode InodeSpec Mkfs.

#[local] Arguments dec_indirect : simpl never.
#[local] Arguments enc_indirect : simpl never.

Definition blank512 : list Z := replicate 512 0.

(** the blocks that belong to a file *)
Definition owned (V : Z → list Z) (e : InodeEntry) (n : Z) (x : Z) : Prop :=
  (∃ k, 0 ≤ k < n ∧ x = block_of V e k) ∨ indirect e ≠ 0 ∧ x = indirect e.

Record file_ok (V : Z → list Z) (fb : Z) (e : InodeEntry) (n : Z) (c : list Z) : Prop := {
  fo_wf : wf_inode e;
  fo_blocks : 0 ≤ n ≤ 140;
  fo_cap : Z.of_nat (length c) ≤ 512 * n;
  fo_some : ∀ k, 0 ≤ k < n → nmeta ≤ block_of V e k < fb;
  fo_none : ∀ k, n ≤ k < 140 → block_of V e k = 0;
  fo_ind : indirect e = 0 ∧ n ≤ 12 ∨ nmeta ≤ indirect e < fb;
  fo_inj : ∀ k k', 0 ≤ k < n → 0 ≤ k' < n → block_of V e k = block_of V e k' → k = k';
  fo_ind_ne : ∀ k, 0 ≤ k < n → block_of V e k ≠ indirect e;
  fo_byte : ∀ o, 0 ≤ o < 512 * n → file_byte V e o = nth (Z.to_nat o) c 0 }.

Lemma nmeta_pos : nmeta = 92.
Proof. done. Qed.

Lemma block_of_same V V' e k :
  (indirect e ≠ 0 → V' (indirect e) = V (indirect e)) → block_of V' e k = block_of V e k.
Proof.
  intros E. unfold block_of. destruct (k <? _); [done|]. destruct (Z.eqb_spec (indirect e) 0); [done|].
  by rewrite E.
Qed.

(** a file does not notice changes of blocks that are not its own *)
Lemma file_ok_frame V V' fb fb' e n c :
  file_ok V fb e n c → fb ≤ fb' → (∀ x, owned V e n x → V' x = V x) → file_ok V' fb' e n c.
Proof.
  intros [H1 H2 H3 H4 H5 H6 H7 H8 H9] Hfb HV.
  assert (∀ k, block_of V' e k = block_of V e k) as Hb.
  { intros k. apply block_of_same. intros Hi. apply HV. by right. }
  split; [done|done|done| | | | | |].
  - intros k Hk. rewrite Hb. specialize (H4 k Hk). lia.
  - intros k Hk. rewrite Hb. auto.
  - destruct H6; [by left|right; lia].
  - intros k k'. rewrite !Hb. auto.
  - intros k. rewrite Hb. auto.
  - intros o Ho. rewrite <-H9 by done. unfold file_byte. rewrite Hb, HV; [done|].
    left. exists (o / 512). split; [zmod|done].
Qed.

Lemma owned_frame V V' e n x :
  (indirect e ≠ 0 → V' (indirect e) = V (indirect e)) → owned V' e n x → owned V e n x.
Proof.
  intros E [(k & Hk & ->)|?]; [|by right]. left. exists k. by rewrite (block_of_same V V') by done.
Qed.

(** blocks a file owns are data blocks in use *)
Lemma owned_range V fb e n c x : file_ok V fb e n c → owned V e n x → nmeta ≤ x < fb.
Proof.
  intros F [(k & Hk & ->)|[Hi ->]]; [by apply (fo_some _ _ _ _ _ F)|].
  destruct (fo_ind _ _ _ _ _ F) as [[? _]|?]; done.
Qed.

(** ** A block more *)

Lemma nth_insert_eq (l : list Z) i v : (i < length l)%nat → nth i (<[i := v]> l) 0 = v.
Proof. intros Hi. apply nth_lookup_Some. by apply list_lookup_insert_eq. Qed.
Lemma nth_insert_ne (l : list Z) i j v : i ≠ j → nth j (<[i := v]> l) 0 = nth j l 0.
Proof. intros Hi. rewrite !nth_lookup. by rewrite list_lookup_insert_ne. Qed.

Lemma wf_with_addr e i v : wf_inode e → word_ok 4 v → wf_inode (set_addr i v e).
Proof.
  intros [H1 H2 H3 H4 H5] Hv. split; simpl; [done|done| |by rewrite length_insert|done].
  by apply Forall_insert.
Qed.
Lemma wf_with_indirect e v : wf_inode e → word_ok 4 v → wf_inode (set_indirect v e).
Proof. intros [H1 H2 H3 H4 H5] Hv. by split. Qed.

Lemma nth_zero_list i m : nth i (replicate m 0) 0 = 0.
Proof. revert i. induction m; intros [|i]; simpl; auto. Qed.
Lemma dec_blank : dec_indirect blank512 = replicate 128 0.
Proof. vm_compute. reflexivity. Qed.

(** the file with block [fb] as block [n], wherever its number is recorded *)
Lemma file_ok_grow V V' fb e e' n c :
  file_ok V fb e n c → n < 140 → wf_inode e' → nmeta ≤ fb → V' fb = blank512 →
  indirect e' = indirect e → (12 ≤ n → indirect e ≠ 0) →
  (∀ k, 0 ≤ k < 140 → k ≠ n → block_of V' e' k = block_of V e k) → block_of V' e' n = fb →
  (∀ k, 0 ≤ k < n → V' (block_of V e k) = V (block_of V e k)) →
  file_ok V' (fb + 1) e' (n + 1) c.
Proof.
  intros F Hn Hwf Hfb Hz Hi Hi12 Hb Hbn HV. pose proof F as [H1 H2 H3 H4 H5 H6 H7 H8 H9].
  assert (∀ k, 0 ≤ k < n + 1 → k = n ∧ block_of V' e' k = fb ∨ 0 ≤ k < n ∧ block_of V' e' k = block_of V e k) as Hc.
  { intros k Hk. destruct (decide (k = n)) as [->|Hne]; [by left|right]. split; [lia|]. apply Hb; lia. }
  split; [done|lia|lia| | | | | |].
  - intros k Hk. destruct (Hc k Hk) as [[-> ->]|[Hk' ->]]; [lia|]. specialize (H4 k Hk'). lia.
  - intros k Hk. rewrite Hb by lia. apply H5. lia.
  - rewrite Hi. destruct H6 as [[E ?]|?]; [|right; lia]. left. split; [done|].
    destruct (decide (12 ≤ n)); [by destruct Hi12|lia].
  - intros k k' Hk Hk'. destruct (Hc k Hk) as [[-> ->]|[Hk1 ->]], (Hc k' Hk') as [[-> ->]|[Hk2 ->]].
    + done.
    + intros E. specialize (H4 k' Hk2). lia.
    + intros E. specialize (H4 k Hk1). lia.
    + by apply H7.
  - intros k Hk. rewrite Hi. destruct (Hc k Hk) as [[-> ->]|[Hk1 ->]]; [|by apply H8].
    rewrite nmeta_pos in *. destruct H6 as [[-> _]|?]; lia.
  - intros o Ho. unfold file_byte. change BLOCK_SIZE with 512.
    destruct (Hc (o / 512)) as [[Eo ->]|[Hk ->]]; [zmod| |].
    + rewrite Hz. unfold blank512. rewrite (nth_overflow c) by zmod.
      apply nth_zero_list.
    + rewrite HV by done. change 512 with BLOCK_SIZE. apply H9. change BLOCK_SIZE with 512 in *. zmod.
Qed.

Lemma file_ok_direct V fb e n c :
  file_ok V fb e n c → n < 12 → nmeta ≤ fb < 2 ^ 32 → V fb = blank512 → 
  file_ok V (fb + 1) (set_addr (Z.to_nat n) fb e) (n + 1) c.
Proof.
  intros F Hn Hfb Hz. pose proof (fo_blocks _ _ _ _ _ F). pose proof (fo_wf _ _ _ _ _ F) as Hwf.
  assert (∀ k, 0 ≤ k → block_of V (set_addr (Z.to_nat n) fb e) k =
    if decide (k = n) then fb else block_of V e k) as Hb.
  { intros k Hk. unfold block_of. change INODE_NUM_DIRECT with 12. simpl. case_decide as Hkn.
    - subst k. rewrite (proj2 (Z.ltb_lt n 12)) by done. apply nth_insert_eq.
      rewrite (wf_addrs_len _ Hwf). lia.
    - destruct (k <? 12); [|done]. apply nth_insert_ne. lia. }
  eapply file_ok_grow; try done; try lia.
  - apply wf_with_addr; [done|]. rewrite nmeta_pos in Hfb. unfold word_ok. simpl.
    change (2 ^ 32) with 4294967296 in *. change (256 ^ 4) with 4294967296. lia.
  - intros k Hk Hne. rewrite Hb, decide_False by lia. done.
  - rewrite Hb, decide_True by lia. done.
Qed.

Lemma length_dec_indirect d : length (dec_indirect d) = 128%nat.
Proof. apply length_dec_words. Qed.

(** an indirect block for a file that had none *)
Lemma file_ok_indirect V fb e c :
  file_ok V fb e 12 c → indirect e = 0 → nmeta ≤ fb < 2 ^ 32 → V fb = blank512 →
  file_ok V (fb + 1) (set_indirect fb e) 12 c.
Proof.
  intros F Hi Hfb Hz. pose proof F as [H1 H2 H3 H4 H5 H6 H7 H8 H9]. rewrite nmeta_pos in *.
  assert (∀ k, 0 ≤ k < 12 → block_of V (set_indirect fb e) k = block_of V e k) as Hb.
  { intros k Hk. unfold block_of. change INODE_NUM_DIRECT with 12. cbn [set_indirect indirect addrs].
    by rewrite (proj2 (Z.ltb_lt k 12)) by lia. }
  split; [|done|done| | | | | |]; rewrite ?nmeta_pos; cbn [set_indirect indirect].
  - apply wf_with_indirect; [done|]. unfold word_ok. simpl.
    change (2 ^ 32) with 4294967296 in *. change (256 ^ 4) with 4294967296. lia.
  - intros k Hk. rewrite Hb by done. specialize (H4 k Hk). lia.
  - intros k Hk. unfold block_of. change INODE_NUM_DIRECT with 12. cbn [set_indirect indirect addrs].
    rewrite (proj2 (Z.ltb_ge k 12)) by lia. rewrite (proj2 (Z.eqb_neq fb 0)) by lia. rewrite Hz.
    by rewrite dec_blank, nth_zero_list.
  - right. lia.
  - intros k k' Hk Hk'. rewrite !Hb by done. by apply H7.
  - intros k Hk. rewrite Hb by done. specialize (H4 k Hk). lia.
  - intros o Ho. unfold file_byte. rewrite Hb by (change BLOCK_SIZE with 512; zmod). by apply H9.
Qed.

Lemma word_ok_block fb : nmeta ≤ fb < 2 ^ 32 → word_ok 4 fb.
Proof.
  rewrite nmeta_pos. unfold word_ok. simpl. change (2 ^ 32) with 4294967296.
  change (256 ^ 4) with 4294967296. lia.
Qed.

(** a block more in the indirect block *)
Lemma file_ok_through V fb e n c :
  file_ok V fb e n c → 12 ≤ n < 140 → indirect e ≠ 0 → nmeta ≤ fb < 2 ^ 32 → V fb = blank512 →
  block_ok (V (indirect e)) →
  file_ok (fupd V (indirect e) (enc_indirect (<[Z.to_nat (n - 12) := fb]> (dec_indirect (V (indirect e))))))
    (fb + 1) e (n + 1) c.
Proof.
  intros F Hn Hi Hfb Hz Hbl. set (l := <[_ := fb]> _). set (V' := fupd V (indirect e) (enc_indirect l)).
  pose proof F as [H1 H2 H3 H4 H5 H6 H7 H8 H9]. assert (nmeta ≤ indirect e < fb) as Hir by (destruct H6; lia).
  assert (dec_indirect (V' (indirect e)) = l) as Hl.
  { unfold V'. rewrite fupd_eq. apply dec_enc_indirect.
    - apply Forall_insert; [apply dec_words_ok; apply Hbl|by apply word_ok_block].
    - etransitivity; [apply length_insert|apply length_dec_indirect]. }
  assert (∀ k, 0 ≤ k < 140 → block_of V' e k = if decide (k = n) then fb else block_of V e k) as Hb.
  { intros k Hk. unfold block_of. rewrite Hl. change INODE_NUM_DIRECT with 12.
    destruct (Z.ltb_spec k 12) as [Hk12|Hk12].
    - by rewrite decide_False by lia.
    - rewrite (proj2 (Z.eqb_neq (indirect e) 0)) by done. unfold l. case_decide as Hkn.
      + subst k. apply nth_insert_eq. rewrite length_dec_indirect. lia.
      + apply nth_insert_ne. lia. }
  eapply (file_ok_grow V V' fb e e n c); try done; try lia.
  - unfold V'. rewrite fupd_ne by lia. done.
  - intros k Hk Hne. rewrite Hb, decide_False by lia. done.
  - rewrite Hb, decide_True by lia. done.
  - intros k Hk. unfold V'. apply fupd_ne. by apply H8.
Qed.

(** ** Bytes more *)

Lemma file_ok_write V fb e n c p :
  let o := Z.of_nat (length c) in
  let x := block_of V e (o / 512) in
  file_ok V fb e n c → o / 512 < n → o mod 512 + Z.of_nat (length p) ≤ 512 → length (V x) = 512%nat →
  file_ok (fupd V x (splice (Z.to_nat (o mod 512)) p (V x))) fb e n (c ++ p).
Proof.
  intros o x F Ho Hp Hx. set (V' := fupd V x _). pose proof F as [H1 H2 H3 H4 H5 H6 H7 H8 H9].
  assert (0 ≤ o / 512 < n) as Hon by (unfold o in *; zmod).
  assert (∀ k, block_of V' e k = block_of V e k) as Hb.
  { intros k. apply block_of_same. intros _. apply fupd_ne. intros E. by apply (H8 (o / 512)). }
  assert (x ≠ indirect e) as Hxi by by apply H8.
  split; [done|done| | | | | | |].
  - rewrite length_app. fold o in H3 |- *. unfold o in *. zmod.
  - intros k Hk. rewrite Hb. auto.
  - intros k Hk. rewrite Hb. auto.
  - done.
  - intros k k'. rewrite !Hb. auto.
  - intros k. rewrite Hb. auto.
  - intros i Hi. unfold file_byte. rewrite Hb. change BLOCK_SIZE with 512.
    specialize (H9 i Hi). unfold file_byte in H9. change BLOCK_SIZE with 512 in H9.
    destruct (decide (i / 512 = o / 512)) as [E|E].
    + rewrite E in H9 |- *. fold x in H9 |- *. unfold V'. rewrite fupd_eq.
      rewrite nth_lookup, lookup_splice by (rewrite Hx; unfold o in *; zmod).
      rewrite nth_lookup in H9. case_decide as Hd.
      * rewrite (nth_lookup (c ++ p)), lookup_app_r by (unfold o in *; zmod). do 2 f_equal. unfold o in *. zmod.
      * rewrite H9. rewrite !nth_lookup. destruct (decide (i < o)).
        -- by rewrite lookup_app_l by (unfold o in *; lia).
        -- rewrite !lookup_ge_None_2; [done| |]; rewrite ?length_app; unfold o in *; zmod.
    + assert (block_of V e (i / 512) ≠ x) as Hne.
      { intros Ex. apply E, H7; [zmod|done|done]. }
      unfold V'. rewrite fupd_ne by done. rewrite H9, !nth_lookup. destruct (decide (i < o)).
      * by rewrite lookup_app_l by (unfold o in *; lia).
      * rewrite !lookup_ge_None_2; [done| |]; rewrite ?length_app; unfold o in *; zmod.
Qed.

(** ** The sectors of the image *)

Local Notation V s := (dread (img s)).

(** all sectors can be read, those from [freeblock] on are zero *)
Record image_ok (s : mkst) : Prop := {
  io_sect : ∀ b, 0 ≤ b < FSSIZE → ∃ d, img s !! b = Some d ∧ block_ok d;
  io_free : ∀ b, freeblock s ≤ b < FSSIZE → V s b = blank512;
  io_next : nmeta ≤ freeblock s }.

Lemma rsect_run s b : image_ok s → 0 ≤ b < FSSIZE → rsect b s = Ok (V s b, s) ∧ block_ok (V s b).
Proof.
  intros I Hb. destruct (io_sect _ I b Hb) as (d & Ed & Hd).
  unfold rsect. erewrite bind_Ok by apply gets_run. unfold id, dread. by rewrite Ed.
Qed.

(** reading a sector a file owns *)
Lemma rsect_owned s e n c x :
  image_ok s → file_ok (V s) (freeblock s) e n c → freeblock s ≤ FSSIZE → owned (V s) e n x →
  rsect x s = Ok (V s x, s) ∧ block_ok (V s x).
Proof.
  intros I F Hfb Ho. apply rsect_run; [done|]. pose proof (owned_range _ _ _ _ _ _ F Ho).
  rewrite nmeta_pos in *. lia.
Qed.

Lemma xint_id x : 0 ≤ x < 2 ^ 32 → xint x = x.
Proof. apply u32_id. Qed.

Lemma next_free_run s :
  image_ok s → freeblock s < FSSIZE →
  next_free s = Ok (freeblock s, set_freeblock (freeblock s + 1) s).
Proof.
  intros [_ _ Hm] Hlt. unfold next_free. erewrite bind_Ok by apply gets_run. unfold id.
  erewrite bind_Ok by apply modify_run. rewrite mret_run, nmeta_pos in *. change FSSIZE with 1000 in *.
  rewrite xint_id by (change (2 ^ 32) with 4294967296; lia). unfold u32.
  rewrite Z.mod_small by (change (2 ^ 32) with 4294967296; lia). done.
Qed.

Lemma image_ok_next s : image_ok s → image_ok (set_freeblock (freeblock s + 1) s).
Proof. intros [H1 H2 H3]. split; simpl; [done| |lia]. intros b Hb. apply H2. lia. Qed.

Lemma wsect_run b d s : wsect b d s = Ok (tt, upd_img <[b := d]> s).
Proof. done. Qed.
Lemma dread_write b d s x : V (upd_img <[b := d]> s) x = fupd (V s) b d x.
Proof. simpl. rewrite dread_insert. unfold fupd. by repeat case_decide. Qed.

Lemma image_ok_write b d s : image_ok s → block_ok d → b < freeblock s → image_ok (upd_img <[b := d]> s).
Proof.
  intros [H1 H2 H3] Hd Hb. split; [| |done].
  - intros x Hx. simpl. destruct (decide (b = x)) as [<-|Hne].
    + exists d. by rewrite lookup_insert_eq.
    + rewrite lookup_insert_ne by done. auto.
  - intros x Hx. rewrite dread_write. simpl in Hx. rewrite fupd_ne by lia. auto.
Qed.

(** what appending to the file [e] of [n] blocks leaves alone, and what becomes of it *)
Record ext (s : mkst) (e : InodeEntry) (n : Z) (s' : mkst) (e' : InodeEntry) (n' : Z) : Prop := {
  ex_image : image_ok s';
  ex_ino : freeinode s' = freeinode s;
  ex_le : freeblock s ≤ freeblock s';
  ex_same : ∀ x, ¬ owned (V s) e n x → (x < freeblock s ∨ freeblock s' ≤ x) → V s' x = V s x;
  ex_own : ∀ x, owned (V s') e' n' x → owned (V s) e n x ∨ freeblock s ≤ x < freeblock s';
  ex_meta : (type e', major e', minor e', num_links e') = (type e, major e, minor e, num_links e) }.

Lemma ext_refl s e n : image_ok s → ext s e n s e n.
Proof. intros I. split; auto. lia. Qed.

Lemma ext_trans s1 e1 n1 s2 e2 n2 s3 e3 n3 :
  ext s1 e1 n1 s2 e2 n2 → ext s2 e2 n2 s3 e3 n3 → ext s1 e1 n1 s3 e3 n3.
Proof.
  intros [A1 A2 A3 A4 A5 A6] [B1 B2 B3 B4 B5 B6]. split; [done|congruence|lia| | |congruence].
  - intros x Hx Hr. rewrite B4, A4; [done|done|lia| |lia].
    intros [?|?]%A5; [done|lia].
  - intros x [Hx|?]%B5; [|right; lia]. destruct (A5 x Hx); [by left|right; lia].
Qed.

(** the blocks a file needs, its indirect block included *)
Definition cost (n : Z) : Z := if 12 <? n then n + 1 else n.
(** the entry has an indirect block only if it needs one *)
Definition tight (e : InodeEntry) (n : Z) : Prop := indirect e = 0 ↔ n ≤ 12.

Definition grown (s : mkst) (e : InodeEntry) (n : Z) (c : list Z) (s' : mkst) (e' : InodeEntry) (n' : Z)
    (c' : list Z) : Prop :=
  ext s e n s' e' n' ∧ file_ok (V s') (freeblock s') e' n' c' ∧ tight e' n' ∧
  freeblock s' = freeblock s + cost n' - cost n.

Lemma wf_addr e k a : wf_inode e → addrs e !! k = Some a → xint a = a.
Proof.
  intros Hwf Ea. apply xint_id. pose proof (wf_addrs _ Hwf) as Hf.
  pose proof (Forall_lookup_1 _ _ _ _ Hf Ea) as Hw. unfold word_ok in Hw. simpl in Hw.
  change (256 ^ 4) with 4294967296 in Hw. change (2 ^ 32) with 4294967296. lia.
Qed.
Lemma wf_ind e : wf_inode e → xint (indirect e) = indirect e.
Proof.
  intros Hwf. apply xint_id. pose proof (wf_indirect _ Hwf) as Hw. unfold word_ok in Hw. simpl in Hw.
  change (256 ^ 4) with 4294967296 in Hw. change (2 ^ 32) with 4294967296. lia.
Qed.

Lemma append_direct s e n c :
  image_ok s → file_ok (V s) (freeblock s) e n c → tight e n → n < 12 → freeblock s < FSSIZE →
  ∃ s' e', append_block e n s = Ok ((e', block_of (V s') e' n), s') ∧ grown s e n c s' e' (n + 1) c.
Proof.
  intros I F T Hn Hlt. pose proof F as [Hwf H2 H3 H4 H5 H6 H7 H8 H9]. pose proof (io_next _ I) as Hm.
  unfold append_block. change INODE_NUM_DIRECT with 12. rewrite (proj2 (Z.ltb_lt n 12)) by done.
  destruct (lookup_lt_is_Some_2 (addrs e) (Z.to_nat n)) as [a Ea]; [rewrite (wf_addrs_len _ Hwf); lia|].
  erewrite bind_Ok by (apply getopt_run; exact Ea). rewrite (wf_addr _ _ _ Hwf Ea).
  assert (block_of (V s) e n = a) as Eb.
  { unfold block_of. change INODE_NUM_DIRECT with 12. rewrite (proj2 (Z.ltb_lt n 12)) by done.
    by apply nth_lookup_Some. }
  rewrite H5 in Eb by lia. subst a. change (0 =? 0) with true. cbv iota.
  rewrite (bind_Ok _ _ _ _ _ (next_free_run s I Hlt)), mret_run.
  assert (nmeta ≤ freeblock s < 2 ^ 32) as Hfb.
  { change FSSIZE with 1000 in Hlt. change (2 ^ 32) with 4294967296. lia. }
  pose proof (file_ok_direct _ _ _ _ _ F Hn Hfb (io_free _ I (freeblock s) ltac:(lia))) as F'.
  assert (block_of (V s) (set_addr (Z.to_nat n) (freeblock s) e) n = freeblock s) as Ebn.
  { unfold block_of. change INODE_NUM_DIRECT with 12. rewrite (proj2 (Z.ltb_lt n 12)) by done.
    apply nth_insert_eq. rewrite (wf_addrs_len _ Hwf). lia. }
  exists (set_freeblock (freeblock s + 1) s), (set_addr (Z.to_nat n) (freeblock s) e).
  assert (0 ≤ freeblock s < 2 ^ 32) as Hw by (rewrite nmeta_pos in Hfb; lia).
  split. { simpl. by rewrite Ebn, xint_id. }
  split; [|split; [done|split]].
  - split; simpl; [by apply image_ok_next|done|lia|done| |done].
    intros x [(k & Hk & ->)|[Hi ->]]; [|left; by right].
    destruct (decide (k = n)) as [->|Hkn]; [right; rewrite Ebn; lia|]. left. left. exists k.
    split; [lia|]. unfold block_of. simpl. change INODE_NUM_DIRECT with 12.
    rewrite (proj2 (Z.ltb_lt k 12)) by lia. apply nth_insert_ne. lia.
  - unfold tight in *. simpl. lia.
  - simpl. unfold cost. rewrite (proj2 (Z.ltb_ge 12 n)), (proj2 (Z.ltb_ge 12 (n + 1))) by lia. lia.
Qed.

Lemma block_ok_enc_indirect l : length l = 128%nat → block_ok (enc_indirect l).
Proof. intros Hl. split; [apply bytes_enc_words|]. unfold enc_indirect. by rewrite length_enc_words, Hl. Qed.

Lemma indirect_block_run s e n c :
  image_ok s → file_ok (V s) (freeblock s) e n c → 12 ≤ n < 140 → indirect e ≠ 0 →
  freeblock s < FSSIZE →
  ∃ s', indirect_block e n s = Ok (block_of (V s') e n, s') ∧ ext s e n s' e (n + 1) ∧
    file_ok (V s') (freeblock s') e (n + 1) c ∧ freeblock s' = freeblock s + 1.
Proof.
  intros I F Hn Hi Hlt. pose proof F as [Hwf H2 H3 H4 H5 H6 H7 H8 H9]. pose proof (io_next _ I) as Hm.
  assert (nmeta ≤ freeblock s < 2 ^ 32) as Hfb.
  { change FSSIZE with 1000 in Hlt. change (2 ^ 32) with 4294967296. lia. }
  assert (0 ≤ freeblock s < 2 ^ 32) as Hw by (rewrite nmeta_pos in Hfb; lia).
  destruct (rsect_owned s e n c (indirect e) I F) as [Er Hbl]; [lia|by right|].
  unfold indirect_block. rewrite (wf_ind _ Hwf), (bind_Ok _ _ _ _ _ Er). set (ind := dec_indirect _).
  change INODE_NUM_DIRECT with 12.
  destruct (lookup_lt_is_Some_2 ind (Z.to_nat (n - 12))) as [a Ea].
  { unfold ind. rewrite length_dec_indirect. lia. }
  erewrite bind_Ok by (apply getopt_run; exact Ea).
  assert (block_of (V s) e n = a) as Eb.
  { unfold block_of. change INODE_NUM_DIRECT with 12. rewrite (proj2 (Z.ltb_ge n 12)) by lia.
    rewrite (proj2 (Z.eqb_neq (indirect e) 0)) by done. by apply nth_lookup_Some. }
  rewrite H5 in Eb by lia. subst a. change (0 =? 0) with true. cbv iota.
  rewrite (bind_Ok _ _ _ _ _ (next_free_run s I Hlt)).
  erewrite bind_Ok by apply wsect_run. rewrite mret_run, xint_id by done.
  set (d := enc_indirect _). set (s' := upd_img _ _).
  pose proof (file_ok_through _ _ _ _ _ F Hn Hi Hfb (io_free _ I (freeblock s) ltac:(lia)) Hbl) as F'.
  change (enc_indirect _) with d in F'. assert (∀ x, V s' x = fupd (V s) (indirect e) d x) as HV.
  { intros x. unfold s'. by rewrite dread_write. }
  assert (file_ok (V s') (freeblock s') e (n + 1) c) as F''.
  { eapply file_ok_frame; [exact F'|done|]. intros x _. apply HV. }
  assert (∀ k, 0 ≤ k < 140 → k ≠ n → block_of (V s') e k = block_of (V s) e k) as Hk'.
  { intros k Hk Hne. rewrite (block_of_same (fupd (V s) (indirect e) d) (V s')) by (intros; apply HV).
    unfold block_of. destruct (k <? INODE_NUM_DIRECT) eqn:Ek; [done|]. rewrite fupd_eq.
    apply Z.ltb_ge in Ek. change INODE_NUM_DIRECT with 12 in *.
    rewrite (proj2 (Z.eqb_neq (indirect e) 0)) by done. unfold d. rewrite dec_enc_indirect.
    - apply nth_insert_ne. lia.
    - apply Forall_insert; [apply dec_words_ok; apply Hbl|by apply word_ok_block].
    - etransitivity; [apply length_insert|apply length_dec_indirect]. }
  assert (block_of (V s') e n = freeblock s) as Ebn.
  { rewrite (block_of_same (fupd (V s) (indirect e) d) (V s')) by (intros; apply HV).
    unfold block_of. change INODE_NUM_DIRECT with 12. rewrite (proj2 (Z.ltb_ge n 12)) by lia. rewrite fupd_eq.
    rewrite (proj2 (Z.eqb_neq (indirect e) 0)) by done. unfold d. rewrite dec_enc_indirect.
    - apply nth_insert_eq. unfold ind. rewrite length_dec_indirect. lia.
    - apply Forall_insert; [apply dec_words_ok; apply Hbl|by apply word_ok_block].
    - etransitivity; [apply length_insert|apply length_dec_indirect]. }
  exists s'. split; [by rewrite Ebn|]. split; [|done]. pose proof (owned_range _ _ _ _ _ (indirect e) F) as Hir.
  split.
  - apply image_ok_write; [by apply image_ok_next| |simpl; specialize (Hir ltac:(by right)); lia].
    apply block_ok_enc_indirect. etransitivity; [apply length_insert|apply length_dec_indirect].
  - done.
  - simpl. lia.
  - intros x Hx _. rewrite HV. apply fupd_ne. intros ->. apply Hx. by right.
  - intros x [(k & Hk & ->)|Hx]; [|left; by right]. change (freeblock s') with (freeblock s + 1).
    destruct (decide (k = n)) as [->|Hkn]; [right; rewrite Ebn; lia|]. left. left. exists k.
    split; [lia|]. apply Hk'; lia.
  - done.
Qed.

(** a block for the end of the file *)
Lemma append_fresh s e n c :
  image_ok s → file_ok (V s) (freeblock s) e n c → tight e n → n < 140 →
  freeblock s + cost (n + 1) - cost n ≤ FSSIZE →
  ∃ s' e', append_block e n s = Ok ((e', block_of (V s') e' n), s') ∧ grown s e n c s' e' (n + 1) c.
Proof.
  intros I F T Hn Hfb. destruct (decide (n < 12)) as [Hlt|Hge].
  { apply append_direct; try done. unfold cost in Hfb.
    rewrite (proj2 (Z.ltb_ge 12 n)), (proj2 (Z.ltb_ge 12 (n + 1))) in Hfb by lia. lia. }
  unfold append_block. change INODE_NUM_DIRECT with 12. rewrite (proj2 (Z.ltb_ge n 12)) by lia.
  pose proof (fo_wf _ _ _ _ _ F) as Hwf. rewrite (wf_ind _ Hwf). unfold tight in T.
  unfold cost in Hfb. rewrite (proj2 (Z.ltb_lt 12 (n + 1))) in Hfb by lia.
  destruct (Z.eqb_spec (indirect e) 0) as [Hi|Hi].
  - assert (n = 12) as -> by (apply T in Hi; lia). change (12 <? 12) with false in Hfb.
    rewrite bind_assoc, (bind_Ok _ _ _ _ _ (next_free_run s I ltac:(lia))).
    pose proof (io_next _ I) as Hm. erewrite bind_Ok by apply mret_run.
    set (s1 := set_freeblock _ s). set (e1 := set_indirect _ e).
    assert (nmeta ≤ freeblock s < 2 ^ 32) as Hw.
    { change FSSIZE with 1000 in Hfb. change (2 ^ 32) with 4294967296. lia. }
    pose proof (file_ok_indirect _ _ _ _ F Hi Hw (io_free _ I (freeblock s) ltac:(lia))) as F1.
    destruct (indirect_block_run s1 e1 12 c) as (s' & E & X & F' & Efb).
    + by apply image_ok_next.
    + exact F1.
    + lia.
    + simpl. rewrite nmeta_pos in Hw. lia.
    + simpl. lia.
    + rewrite (bind_Ok _ _ _ _ _ E), mret_run. exists s', e1. split; [done|].
      split; [|split; [done|split]].
      * eapply ext_trans; [|exact X]. split; simpl; [by apply image_ok_next|done|lia|done| |done].
        intros x [(k & Hk & ->)|[_ ->]]; [|right; simpl; lia]. left. left. exists k.
        split; [done|]. unfold block_of. change INODE_NUM_DIRECT with 12.
        by rewrite (proj2 (Z.ltb_lt k 12)) by lia.
      * unfold tight. simpl. rewrite nmeta_pos in Hw. lia.
      * rewrite Efb. simpl. unfold cost. simpl. lia.
  - erewrite bind_Ok by apply mret_run. assert (12 < n) as Hn12 by lia.
    rewrite (proj2 (Z.ltb_lt 12 n)) in Hfb by done.
    destruct (indirect_block_run s e n c) as (s' & E & X & F' & Efb); [done|done|lia|done|lia|].
    rewrite (bind_Ok _ _ _ _ _ E), mret_run. exists s', e. split; [done|].
    split; [done|]. split; [done|]. split; [unfold tight; lia|].
    rewrite Efb. unfold cost. rewrite (proj2 (Z.ltb_lt 12 n)), (proj2 (Z.ltb_lt 12 (n + 1))) by lia. lia.
Qed.

(** a block that is there already *)
Lemma append_old s e n c k :
  image_ok s → file_ok (V s) (freeblock s) e n c → freeblock s ≤ FSSIZE → 0 ≤ k < n →
  append_block e k s = Ok ((e, block_of (V s) e k), s).
Proof.
  intros I F Hfb Hk. pose proof F as [Hwf H2 H3 H4 H5 H6 H7 H8 H9]. specialize (H4 k Hk).
  rewrite nmeta_pos in *. assert (xint (block_of (V s) e k) = block_of (V s) e k) as Ex.
  { apply xint_id. change FSSIZE with 1000 in Hfb. change (2 ^ 32) with 4294967296. lia. }
  unfold append_block. change INODE_NUM_DIRECT with 12.
  destruct (Z.ltb_spec k 12) as [Hk12|Hk12].
  - destruct (lookup_lt_is_Some_2 (addrs e) (Z.to_nat k)) as [a Ea]; [rewrite (wf_addrs_len _ Hwf); lia|].
    erewrite bind_Ok by (apply getopt_run; exact Ea).
    assert (block_of (V s) e k = a) as Eb.
    { unfold block_of. change INODE_NUM_DIRECT with 12. rewrite (proj2 (Z.ltb_lt k 12)) by done.
      by apply nth_lookup_Some. }
    rewrite Eb in *. rewrite Ex. by rewrite (proj2 (Z.eqb_neq a 0)) by lia.
  - destruct (decide (indirect e = 0)) as [Hi|Hi]; [destruct H6 as [[_ ?]|?]; lia|].
    rewrite (wf_ind _ Hwf), (proj2 (Z.eqb_neq _ _) Hi). erewrite bind_Ok by apply mret_run.
    destruct (rsect_owned s e n c (indirect e) I F Hfb ltac:(by right)) as [Er Hbl].
    unfold indirect_block. rewrite (wf_ind _ Hwf), bind_assoc, (bind_Ok _ _ _ _ _ Er).
    set (ind := dec_indirect _). change INODE_NUM_DIRECT with 12.
    destruct (lookup_lt_is_Some_2 ind (Z.to_nat (k - 12))) as [a Ea].
    { unfold ind. rewrite length_dec_indirect. lia. }
    rewrite bind_assoc. erewrite bind_Ok by (apply getopt_run; exact Ea).
    assert (block_of (V s) e k = a) as Eb.
    { unfold block_of. change INODE_NUM_DIRECT with 12. rewrite (proj2 (Z.ltb_ge k 12)) by lia.
      rewrite (proj2 (Z.eqb_neq (indirect e) 0)) by done. by apply nth_lookup_Some. }
    rewrite Eb in *. rewrite (proj2 (Z.eqb_neq a 0)) by lia.
    erewrite bind_Ok by apply mret_run. by rewrite Ex.
Qed.

Definition nblocks (c : list Z) : Z := (Z.of_nat (length c) + 511) / 512.

(** one round of the loop of [iappend] fills the block at the end of the file *)
Lemma append_round s e c p :
  image_ok s → file_ok (V s) (freeblock s) e (nblocks c) c → tight e (nblocks c) →
  let o := Z.of_nat (length c) in
  o < 71680 → 0 < Z.of_nat (length p) → Z.of_nat (length p) ≤ 512 - o mod 512 → bytes p →
  freeblock s + cost (nblocks (c ++ p)) - cost (nblocks c) ≤ FSSIZE →
  ∃ s' e' x d, append_block e (o / 512) s = Ok ((e', x), s') ∧
    rsect x s' = Ok (d, s') ∧
    grown s e (nblocks c) c (upd_img <[x := splice (Z.to_nat (o mod 512)) p d]> s') e' (nblocks (c ++ p)) (c ++ p).
Proof.
  intros I F T o Ho Hp0 Hp Hbp Hfb. set (n := nblocks c) in *.
  assert (n = if decide (o mod 512 = 0) then o / 512 else o / 512 + 1) as En.
  { unfold n, nblocks. fold o. case_decide; zmod. }
  assert (nblocks (c ++ p) = o / 512 + 1) as En'.
  { unfold nblocks. rewrite length_app, Nat2Z.inj_add. fold o. zmod. }
  rewrite En' in *. assert (0 ≤ o) as Ho0 by (unfold o; lia).
  (* the block is found or allocated *)
  assert (∃ s' e', append_block e (o / 512) s = Ok ((e', block_of (V s') e' (o / 512)), s') ∧
    grown s e n c s' e' (o / 512 + 1) c) as (s' & e' & E & X & F' & T' & Efb).
  { destruct (decide (o mod 512 = 0)) as [Hz|Hz].
    - rewrite En in *. apply append_fresh; [done|done|done|zmod|done].
    - exists s, e. rewrite En in *. split; [eapply append_old; try done; zmod|].
      split; [by apply ext_refl|]. split; [done|]. split; [done|lia]. }
  set (x := block_of (V s') e' (o / 512)) in *.
  assert (owned (V s') e' (o / 512 + 1) x) as Hx by (left; exists (o / 512); split; [zmod|done]).
  destruct (rsect_owned s' e' _ c x (ex_image _ _ _ _ _ _ X) F') as [Er Hbl]; [lia|done|].
  exists s', e', x, (V s' x). split; [done|]. split; [done|]. set (d := splice _ p _).
  assert (length d = 512%nat) as Hld.
  { unfold d. rewrite length_splice; [apply Hbl|]. destruct Hbl as [_ ->]. zmod. }
  pose proof (owned_range _ _ _ _ _ _ F' Hx) as Hxr.
  pose proof (file_ok_write _ _ _ _ _ p F' ltac:(fold o; lia) ltac:(fold o; lia) (proj2 Hbl)) as F2.
  fold o x d in F2.
  assert (∀ y, V (upd_img <[x := d]> s') y = fupd (V s') x d y) as HV by (intros; apply dread_write).
  split; [|split; [|done]].
  - eapply ext_trans; [exact X|]. split; try done.
    + apply image_ok_write; [apply X| |lia]. split; [|done].
      unfold d. apply bytes_splice; [done|apply Hbl].
    + intros y Hy _. rewrite HV. apply fupd_ne. by intros ->.
    + intros y Hy. left. eapply owned_frame; [|exact Hy]. intros Hi. rewrite HV. apply fupd_ne.
      intros E'. apply (fo_ind_ne _ _ _ _ _ F' (o / 512)); [zmod|done].
  - eapply file_ok_frame; [exact F2|done|]. intros y _. apply HV.
Qed.

Lemma cost_mono n m : n ≤ m → cost n ≤ cost m.
Proof. unfold cost. intros. destruct (Z.ltb_spec 12 n), (Z.ltb_spec 12 m); lia. Qed.
Lemma nblocks_app c p : nblocks c ≤ nblocks (c ++ p).
Proof. unfold nblocks. rewrite length_app. zmod. Qed.

Lemma grown_refl s e n c :
  image_ok s → file_ok (V s) (freeblock s) e n c → tight e n → grown s e n c s e n c.
Proof. intros I F T. split; [by apply ext_refl|]. split; [done|]. split; [done|lia]. Qed.
Lemma grown_trans s1 e1 n1 c1 s2 e2 n2 c2 s3 e3 n3 c3 :
  grown s1 e1 n1 c1 s2 e2 n2 c2 → grown s2 e2 n2 c2 s3 e3 n3 c3 → grown s1 e1 n1 c1 s3 e3 n3 c3.
Proof.
  intros (X1 & _ & _ & E1) (X2 & F & T & E2). split; [by eapply ext_trans|]. split; [done|]. split; [done|lia].
Qed.

Lemma append_loop_run fuel s e c p :
  image_ok s → file_ok (V s) (freeblock s) e (nblocks c) c → tight e (nblocks c) → bytes p →
  Z.of_nat (length (c ++ p)) ≤ 71680 →
  freeblock s + cost (nblocks (c ++ p)) - cost (nblocks c) ≤ FSSIZE → (length p < fuel)%nat →
  ∃ s' e', append_loop fuel e (Z.of_nat (length c)) p s = Ok ((e', Z.of_nat (length (c ++ p))), s') ∧
    grown s e (nblocks c) c s' e' (nblocks (c ++ p)) (c ++ p).
Proof.
  revert s e c p. induction fuel as [|fuel IH]; intros s e c p I F T Hb Hmax Hfb Hf; [lia|].
  cbn [append_loop]. set (o := Z.of_nat (length c)). rewrite length_app, Nat2Z.inj_add in Hmax. fold o in Hmax.
  destruct (Z.ltb_spec 0 (Z.of_nat (length p))) as [Hp|Hp].
  2: { destruct p; [|simpl in Hp; lia]. rewrite app_nil_r in *. exists s, e. split; [done|]. by apply grown_refl. }
  change BLOCK_SIZE with 512. change INODE_MAX_BLOCKS with 140.
  assert (0 ≤ o) as Ho by (unfold o; lia).
  erewrite bind_Ok by (apply assert_run, Z.ltb_lt; zmod).
  set (n1 := MIN _ _). assert (n1 = Z.min (Z.of_nat (length p)) (512 - o mod 512)) as En1.
  { unfold n1. rewrite MIN_min. f_equal. zmod. }
  set (p1 := take (Z.to_nat n1) p). set (p2 := drop (Z.to_nat n1) p).
  assert (Z.of_nat (length p1) = n1) as Hp1 by (unfold p1; rewrite length_take; zmod).
  assert (p1 ++ p2 = p) as Ep by apply take_drop.
  assert (c ++ p = (c ++ p1) ++ p2) as Ecp by by rewrite <-app_assoc, Ep.
  pose proof (nblocks_app (c ++ p1) p2) as Hm2. rewrite <-Ecp in Hm2. apply cost_mono in Hm2.
  destruct (append_round s e c p1) as (s1 & e1 & x & d & E1 & Er & G1); [done|done|done| | | | |lia|].
  { fold o. zmod. }
  { zmod. }
  { fold o. lia. }
  { by apply Forall_take. }
  fold o in E1, G1. rewrite (bind_Ok _ _ _ _ _ E1), (bind_Ok _ _ _ _ _ Er).
  replace (o - o / 512 * 512) with (o mod 512) by zmod. fold p1. erewrite bind_Ok by apply wsect_run.
  set (s2 := upd_img _ s1) in *. destruct G1 as (X1 & F1 & T1 & Efb1).
  assert (u32 (o + n1) = Z.of_nat (length (c ++ p1))) as ->.
  { rewrite length_app, Nat2Z.inj_add, Hp1. fold o. apply u32_id. change (2 ^ 32) with 4294967296. lia. }
  destruct (IH s2 e1 (c ++ p1) p2) as (s3 & e3 & E3 & G3).
  - apply X1.
  - done.
  - done.
  - by apply Forall_drop.
  - rewrite <-Ecp, length_app, Nat2Z.inj_add. fold o. lia.
  - rewrite <-Ecp. lia.
  - unfold p2. rewrite length_drop. zmod.
  - fold p2. rewrite E3, <-Ecp. exists s3, e3. split; [done|]. rewrite Ecp.
    eapply grown_trans; [|exact G3]. split; [done|]. done.
Qed.
