(* ===== verification/MkfsSpec.v ===== *)
(** * The image [mkfs] builds holds the files it was given

    [built fl s]: the inodes from 1 on are the files [fl], each a type with its bytes; no two
    of them share a block, and the blocks from [freeblock] on belong to none. *)

From Stdlib Require Import ZArith Lia.
From S2P Require Import Prelude Words Sync Layout Cache CacheSpec CacheLog BlockCache CacheAlloc.
From S2P Require Import Inode InodeSpec InodeDir Mkfs MkfsFile.

Local Notation V s := (dread (img s)).

(** ** Inodes *)

Definition entry_of (V : Z → list Z) (ino : Z) : InodeEntry := get_entry (V (to_block_no mkfs_sb ino)) ino.

Lemma iblock_range ino : 0 ≤ ino < NINODES → 65 ≤ to_block_no mkfs_sb ino < 91.
Proof.
  unfold to_block_no. change NINODES with 200. change (sb_inode_start mkfs_sb) with 65.
  change INODE_PER_BLOCK with 8. intros. zmod.
Qed.
Lemma entry_off_le ino : (entry_off ino + 64 ≤ 512)%nat.
Proof. unfold entry_off. change INODE_PER_BLOCK with 8. zmod. Qed.

Lemma rinode_run s ino :
  image_ok s → 0 ≤ ino < NINODES → rinode ino s = Ok (entry_of (V s) ino, s).
Proof.
  intros I Hi. pose proof (iblock_range ino Hi) as Hb. unfold rinode.
  replace (IBLOCK ino) with (to_block_no mkfs_sb ino) by (unfold to_block_no, IBLOCK; lia).
  destruct (rsect_run s (to_block_no mkfs_sb ino) I) as [E _]; [change FSSIZE with 1000; lia|].
  by rewrite (bind_Ok _ _ _ _ _ E).
Qed.

Lemma splice_entry_other d ino j e :
  length d = 512%nat → length (enc_inode e) = 64%nat → j ≠ ino →
  j / INODE_PER_BLOCK = ino / INODE_PER_BLOCK →
  get_entry (splice (entry_off ino) (enc_inode e) d) j = get_entry d j.
Proof.
  intros Hd He Hne Hdiv. unfold get_entry. f_equal. pose proof (entry_off_le ino).
  pose proof (entry_off_le j).
  apply sub_splice_ne; rewrite ?Hd, ?He; [lia|lia|].
  unfold entry_off in *. change INODE_PER_BLOCK with 8 in *. zmod.
Qed.

Lemma winode_run s ino e :
  image_ok s → 0 ≤ ino < NINODES → wf_inode e →
  ∃ s', winode ino e s = Ok (tt, s') ∧ image_ok s' ∧ entry_of (V s') ino = e ∧
    (∀ j, 0 ≤ j < NINODES → j ≠ ino → entry_of (V s') j = entry_of (V s) j) ∧
    (∀ x, x < 65 ∨ 91 ≤ x → V s' x = V s x) ∧
    freeblock s' = freeblock s ∧ freeinode s' = freeinode s.
Proof.
  intros I Hi Hwf. pose proof (iblock_range ino Hi) as Hb. pose proof (entry_off_le ino) as Hoff.
  pose proof (length_enc_inode e (wf_addrs_len _ Hwf)) as Hle. unfold winode.
  replace (IBLOCK ino) with (to_block_no mkfs_sb ino) by (unfold to_block_no, IBLOCK; lia).
  set (bn := to_block_no mkfs_sb ino) in *.
  destruct (rsect_run s bn I) as [E Hbl]; [change FSSIZE with 1000; lia|]. destruct Hbl as [Hby Hlen].
  rewrite (bind_Ok _ _ _ _ _ E), wsect_run. set (d := splice _ _ _).
  assert (length d = 512%nat) as Hd by (unfold d; rewrite length_splice; rewrite ?Hlen, ?Hle; lia).
  assert (∀ x, V (upd_img <[bn := d]> s) x = fupd (V s) bn d x) as HV by (intros; apply dread_write).
  eexists. split; [done|]. split; [|split; [|split; [|split; [|done]]]].
  - apply image_ok_write; [done| |pose proof (io_next _ I); rewrite nmeta_pos in *; lia].
    split; [|done]. unfold d. apply bytes_splice; [apply bytes_enc_inode|done].
  - unfold entry_of. fold bn. rewrite HV, fupd_eq. unfold d, get_entry.
    replace 64%nat with (length (enc_inode e)) by done. rewrite sub_splice_eq by (rewrite Hlen, Hle; lia).
    by apply dec_enc_inode.
  - intros j Hj Hne. unfold entry_of. rewrite HV. unfold fupd. case_decide as Hjb; [|done].
    rewrite Hjb. unfold d. apply splice_entry_other; [done|done|done|].
    unfold bn, to_block_no in Hjb. lia.
  - intros x Hx. rewrite HV. apply fupd_ne. lia.
Qed.

(** ** Files *)

Record holds (V : Z → list Z) (fb : Z) (e : InodeEntry) (t : Z) (c : list Z) : Prop := {
  ho_file : file_ok V fb e (nblocks c) c;
  ho_tight : tight e (nblocks c);
  ho_meta : (type e, major e, minor e, num_links e) = (t, 0, 0, 1);
  ho_size : num_bytes e = Z.of_nat (length c) }.

Local Notation file := (Z * list Z)%type.
Definition total (fl : list file) : Z := foldr (λ f, Z.add (cost (nblocks (snd f)))) 0 fl.

Definition apart (V : Z → list Z) (fl : list file) : Prop :=
  ∀ i j f g x, i ≠ j → fl !! i = Some f → fl !! j = Some g →
    owned V (entry_of V (Z.of_nat i + 1)) (nblocks (snd f)) x →
    ¬ owned V (entry_of V (Z.of_nat j + 1)) (nblocks (snd g)) x.

(** what is in front of the inodes *)
Definition super_sector : list Z := splice 0 (enc_super mkfs_sb) blank512.
Definition boot_area (x : Z) : list Z := if x =? 1 then super_sector else blank512.

Record built (fl : list file) (s : mkst) : Prop := {
  bu_low : ∀ x, x < 65 → V s x = boot_area x;
  bu_image : image_ok s;
  bu_ino : freeinode s = Z.of_nat (length fl) + 1;
  bu_few : Z.of_nat (length fl) < NINODES;
  bu_next : freeblock s = nmeta + total fl;
  bu_files : ∀ i t c, fl !! i = Some (t, c) → holds (V s) (freeblock s) (entry_of (V s) (Z.of_nat i + 1)) t c;
  bu_apart : apart (V s) fl }.

Lemma cost_nonneg c : 0 ≤ cost (nblocks c).
Proof. unfold cost, nblocks. destruct (12 <? _); zmod. Qed.
Lemma total_insert fl i f f' :
  fl !! i = Some f → total (<[i := f']> fl) = total fl - cost (nblocks (snd f)) + cost (nblocks (snd f')).
Proof.
  revert i. induction fl as [|g fl IH]; intros [|i] Ef; simpl in *; [done..| |].
  - injection Ef as ->. lia.
  - rewrite (IH i Ef). lia.
Qed.
Lemma total_app fl fl' : total (fl ++ fl') = total fl + total fl'.
Proof. induction fl as [|f fl IH]; simpl; [done|]. rewrite IH. lia. Qed.

Lemma file_ok_num_bytes V fb e n c v :
  file_ok V fb e n c → word_ok 4 v → file_ok V fb (set_num_bytes v e) n c.
Proof. intros [[] H2 H3 H4 H5 H6 H7 H8 H9] Hv. by split. Qed.

Lemma word_small v : 0 ≤ v < 2 ^ 32 → word_ok 4 v.
Proof.
  unfold word_ok. simpl. change (2 ^ 32) with 4294967296. change (256 ^ 4) with 4294967296. done.
Qed.

(** appending to one of the files *)
Lemma iappend_run fl s i t c p :
  built fl s → fl !! i = Some (t, c) → bytes p → Z.of_nat (length (c ++ p)) ≤ 71680 →
  nmeta + total (<[i := (t, c ++ p)]> fl) ≤ FSSIZE →
  ∃ s', iappend (Z.of_nat i + 1) p s = Ok (tt, s') ∧ built (<[i := (t, c ++ p)]> fl) s'.
Proof.
  intros [Hboot I Hino Hfew Hnext Hfiles Hapart] Ei Hp Hmax Htot. set (ino := Z.of_nat i + 1).
  pose proof (lookup_lt_Some _ _ _ Ei) as Hlt. assert (0 ≤ ino < NINODES) as Hi by lia.
  destruct (Hfiles i t c Ei) as [F T Hmeta Hsize]. fold ino in F, T, Hmeta, Hsize.
  set (e := entry_of (V s) ino) in *. set (n := nblocks c) in *. rewrite (total_insert _ _ _ _ Ei) in Htot.
  simpl in Htot. fold n in Htot. unfold iappend. rewrite (bind_Ok _ _ _ _ _ (rinode_run s ino I Hi)). fold e.
  rewrite length_app, Nat2Z.inj_add in Hmax.
  rewrite Hsize, xint_id by (change (2 ^ 32) with 4294967296; lia).
  destruct (append_loop_run (S (length p)) s e c p) as (s1 & e1 & E1 & X & F1 & T1 & Efb); try done.
  { rewrite length_app. lia. }
  { fold n. lia. }
  { lia. }
  rewrite (bind_Ok _ _ _ _ _ E1). rewrite length_app, Nat2Z.inj_add in E1 |- *.
  rewrite xint_id by (change (2 ^ 32) with 4294967296; lia).
  assert (Z.of_nat (length c) + Z.of_nat (length p) = Z.of_nat (length (c ++ p))) as Elen
    by (rewrite length_app; lia).
  rewrite Elen. set (e2 := set_num_bytes _ e1).
  assert (word_ok 4 (Z.of_nat (length (c ++ p)))) as Hw.
  { apply word_small. change (2 ^ 32) with 4294967296. lia. }
  pose proof (file_ok_num_bytes _ _ _ _ _ _ F1 Hw) as F2. fold e2 in F2.
  destruct (winode_run s1 ino e2 (ex_image _ _ _ _ _ _ X) Hi (fo_wf _ _ _ _ _ F2))
    as (s2 & E2 & I2 & Een & Eoth & HV2 & Efb2 & Eino2).
  rewrite E2. exists s2. split; [done|].
  (* sectors of no data do not change, nor do those of the other files *)
  assert (∀ x, x < nmeta → V s1 x = V s x) as Hlow.
  { intros x Hx. apply (ex_same _ _ _ _ _ _ X).
    - intros Ho. pose proof (owned_range _ _ _ _ _ _ F Ho). lia.
    - left. rewrite Hnext. assert (0 ≤ total fl); [|lia].
      clear. induction fl as [|f fl IH]; simpl; [done|]. pose proof (cost_nonneg (snd f)). lia. }
  assert (∀ j, 0 ≤ j < NINODES → j ≠ ino → entry_of (V s2) j = entry_of (V s) j) as Hent.
  { intros j Hj Hne. rewrite Eoth by done. unfold entry_of. rewrite Hlow; [done|].
    pose proof (iblock_range j Hj). rewrite nmeta_pos. lia. }
  assert (∀ j g x, j ≠ i → fl !! j = Some g →
    owned (V s) (entry_of (V s) (Z.of_nat j + 1)) (nblocks (snd g)) x → V s2 x = V s x) as Hother.
  { intros j [t' c'] x Hne Ej Ho. destruct (Hfiles j t' c' Ej) as [Fj _ _ _].
    pose proof (owned_range _ _ _ _ _ _ Fj Ho) as Hr. rewrite HV2 by (right; rewrite nmeta_pos in Hr; lia).
    apply (ex_same _ _ _ _ _ _ X); [|by left; lia]. apply (Hapart j i (t', c') (t, c)); [done|done|done|done]. }
  assert (∀ x, nmeta ≤ x → V s2 x = V s1 x) as Hdata.
  { intros x Hx. apply HV2. right. rewrite nmeta_pos in Hx. lia. }
  assert (∀ x, owned (V s2) e2 (nblocks (c ++ p)) x → owned (V s) e n x ∨ freeblock s ≤ x < freeblock s1) as Hown.
  { intros x Ho. apply (ex_own _ _ _ _ _ _ X). eapply (owned_frame (V s1) (V s2)) in Ho; [exact Ho|].
    intros Hi0. apply Hdata. pose proof (owned_range _ _ _ _ _ (indirect e2) F2 ltac:(by right)). lia. }
  assert (∀ j g x, j ≠ i → fl !! j = Some g →
    owned (V s2) (entry_of (V s2) (Z.of_nat j + 1)) (nblocks (snd g)) x →
    owned (V s) (entry_of (V s) (Z.of_nat j + 1)) (nblocks (snd g)) x ∧ x < freeblock s) as Hback.
  { intros j [t' c'] x Hne Ej Ho. pose proof (lookup_lt_Some _ _ _ Ej). rewrite Hent in Ho by lia.
    apply (owned_frame (V s)) in Ho; [|intros Hi0; apply (Hother j (t', c')); [done|done|by right]].
    split; [done|]. destruct (Hfiles j t' c' Ej) as [Fj _ _ _]. apply (owned_range _ _ _ _ _ _ Fj Ho). }
  assert (file_ok (V s2) (freeblock s2) e2 (nblocks (c ++ p)) (c ++ p)) as F3.
  { eapply file_ok_frame; [exact F2|lia|]. intros x Hx. apply Hdata.
    pose proof (owned_range _ _ _ _ _ _ F2 Hx). lia. }
  split.
  - intros x Hx. rewrite HV2, Hlow by (rewrite ?nmeta_pos; lia). auto.
  - done.
  - rewrite length_insert. by rewrite Eino2, (ex_ino _ _ _ _ _ _ X).
  - by rewrite length_insert.
  - rewrite (total_insert _ _ _ _ Ei). simpl. unfold n in *. lia.
  - intros j t' c' Ej. apply list_lookup_insert_Some in Ej as [(<- & [= <- <-] & _)|[Hne Ej]].
    + fold ino. rewrite Een. split; [done|done| |done]. rewrite <-Hmeta. apply (ex_meta _ _ _ _ _ _ X).
    + pose proof (lookup_lt_Some _ _ _ Ej). rewrite Hent by lia. destruct (Hfiles j t' c' Ej) as [Fj Tj Mj Sj].
      split; [|done|done|done]. eapply file_ok_frame; [exact Fj|rewrite Efb2; apply (ex_le _ _ _ _ _ _ X)|].
      intros x Hx. by apply (Hother j (t', c')).
  - intros j k f g x Hjk Ej Ek Hoj Hok.
    apply list_lookup_insert_Some in Ej as [(<- & <- & _)|[Hnj Ej]];
      apply list_lookup_insert_Some in Ek as [(<- & <- & _)|[Hnk Ek]]; [done| | |].
    + apply Hback in Hok as [Hok Hlt']; [|done..]. simpl in Hoj. fold ino in Hoj. rewrite Een in Hoj.
      apply Hown in Hoj as [Hoj|?]; [|lia]. by apply (Hapart i k (t, c) g x).
    + apply Hback in Hoj as [Hoj Hlt']; [|done..]. simpl in Hok. fold ino in Hok. rewrite Een in Hok.
      apply Hown in Hok as [Hok|?]; [|lia]. by apply (Hapart j i f (t, c) x).
    + apply Hback in Hoj as [Hoj _]; [|done..]. apply Hback in Hok as [Hok _]; [|done..].
      by apply (Hapart j k f g x).
Qed.

(** a new inode *)
Lemma ialloc_run fl s t :
  built fl s → Z.of_nat (length fl) + 1 < NINODES → 0 ≤ t < 2 ^ 16 → freeblock s ≤ FSSIZE →
  ∃ s', ialloc t s = Ok (Z.of_nat (length fl) + 1, s') ∧ built (fl ++ [(t, [])]) s'.
Proof.
  intros [Hboot I Hino Hfew Hnext Hfiles Hapart] Hn Ht Hfb. unfold ialloc.
  erewrite bind_Ok by apply gets_run. unfold id. erewrite bind_Ok by apply modify_run. rewrite Hino.
  set (ino := Z.of_nat (length fl) + 1) in *. change NINODES with 200 in *.
  rewrite (u32_id (ino + 1)) by (change (2 ^ 32) with 4294967296; lia).
  set (s1 := set_freeinode _ s). set (e := mkInodeEntry _ _ _ _ _ _ _).
  assert (image_ok s1) as I1 by (destruct I; by split).
  assert (xshort t = t) as Et by by apply u16_id.
  assert (wf_inode e) as Hwf.
  { split; simpl; [|done| |done|done].
    - rewrite Et. change (2 ^ 16) with 65536 in Ht. repeat constructor; unfold word_ok; simpl; try lia; done.
    - repeat constructor; done. }
  destruct (winode_run s1 ino e I1 ltac:(change NINODES with 200; lia) Hwf)
    as (s2 & E2 & I2 & Een & Eoth & HV & Efb & Eino).
  rewrite (bind_Ok _ _ _ _ _ E2), mret_run. exists s2. split; [done|].
  assert (∀ j g, fl !! j = Some g → entry_of (V s2) (Z.of_nat j + 1) = entry_of (V s) (Z.of_nat j + 1)) as Hent.
  { intros j g Ej. pose proof (lookup_lt_Some _ _ _ Ej). rewrite Eoth; [done|change NINODES with 200; lia|lia]. }
  assert (∀ x, nmeta ≤ x → V s2 x = V s x) as Hdata.
  { intros x Hx. rewrite HV; [done|]. rewrite nmeta_pos in Hx. lia. }
  assert (∀ x, ¬ owned (V s2) e 0 x) as Hnone.
  { intros x [(k & Hk & _)|[Hi _]]; [lia|by apply Hi]. }
  assert (∀ j g x, fl !! j = Some g →
    owned (V s2) (entry_of (V s2) (Z.of_nat j + 1)) (nblocks (snd g)) x →
    owned (V s) (entry_of (V s) (Z.of_nat j + 1)) (nblocks (snd g)) x) as Hback.
  { intros j [t' c'] x Ej. rewrite (Hent _ _ Ej). apply owned_frame. intros Hi. apply Hdata.
    destruct (Hfiles j t' c' Ej) as [Fj _ _ _]. pose proof (owned_range _ _ _ _ _ (indirect _) Fj ltac:(by right)). lia. }
  assert (∀ f, (fl ++ [(t, [])]) !! length fl = Some f → f = (t, [])) as Hlast.
  { intros f. rewrite lookup_app_r, Nat.sub_diag by done. by intros [= <-]. }
  split.
  - intros x Hx. rewrite HV by lia. auto.
  - done.
  - rewrite length_app. simpl. rewrite Eino. simpl. lia.
  - rewrite length_app. simpl. change NINODES with 200. lia.
  - rewrite total_app, Efb. simpl. change (cost (nblocks [])) with 0. lia.
  - intros j t' c' Ej. apply lookup_app_Some in Ej as [Ej|[Hge Ej]].
    + rewrite (Hent _ _ Ej), Efb. destruct (Hfiles j t' c' Ej) as [Fj Tj Mj Sj]. split; [|done|done|done].
      eapply file_ok_frame; [exact Fj|done|]. intros x Hx. apply Hdata.
      pose proof (owned_range _ _ _ _ _ _ Fj Hx). lia.
    + assert (j = length fl) as ->.
      { apply lookup_lt_Some in Ej. simpl in Ej. lia. }
      rewrite Nat.sub_diag in Ej. injection Ej as <- <-. fold ino. rewrite Een.
      split; [|unfold tight; change (nblocks []) with 0; simpl; lia|simpl; by rewrite Et|done].
      change (nblocks []) with 0.
      split; [done|lia|simpl; lia|intros; lia| |by left|intros; lia|intros; lia|intros; lia].
      intros k Hk. unfold block_of. change (addrs e) with (replicate 12 0).
      destruct (k <? _); [apply nth_zero_list|done].
  - intros j k f g x Hjk Ej Ek Hoj Hok.
    destruct (decide (j = length fl)) as [->|Hj].
    { rewrite (Hlast f Ej) in Hoj. fold ino in Hoj. rewrite Een in Hoj. by apply Hnone in Hoj. }
    destruct (decide (k = length fl)) as [->|Hk].
    { rewrite (Hlast g Ek) in Hok. fold ino in Hok. rewrite Een in Hok. by apply Hnone in Hok. }
    assert (fl !! j = Some f) as Ej' by (apply lookup_app_Some in Ej as [?|[? Ej]]; [done|];
      apply lookup_lt_Some in Ej; simpl in Ej; lia).
    assert (fl !! k = Some g) as Ek' by (apply lookup_app_Some in Ek as [?|[? Ek]]; [done|];
      apply lookup_lt_Some in Ek; simpl in Ek; lia).
    apply Hback in Hoj; [|done]. apply Hback in Hok; [|done]. by apply (Hapart j k f g x).
Qed.

(** ** Copying a file in, 512 bytes at a time *)

Lemma total_longer fl i t c p f :
  fl !! i = Some f → total (<[i := (t, c)]> fl) ≤ total (<[i := (t, c ++ p)]> fl).
Proof.
  intros Ei. rewrite !(total_insert _ _ _ _ Ei). simpl. pose proof (cost_mono _ _ (nblocks_app c p)). lia.
Qed.

Lemma copy_file_run fuel fl s i t c l :
  built fl s → fl !! i = Some (t, c) → bytes l → Z.of_nat (length (c ++ l)) ≤ 71680 →
  nmeta + total (<[i := (t, c ++ l)]> fl) ≤ FSSIZE → (length l < fuel)%nat →
  ∃ s', copy_file fuel (Z.of_nat i + 1) l s = Ok (tt, s') ∧ built (<[i := (t, c ++ l)]> fl) s'.
Proof.
  revert fl s c l. induction fuel as [|fuel IH]; intros fl s c l B Ei Hl Hmax Htot Hf; [lia|].
  cbn [copy_file]. destruct (Z.ltb_spec 0 (Z.of_nat (length (take 512 l)))) as [Hpos|Hz].
  - set (p := take 512 l) in *. assert (p ++ drop 512 l = l) as El by apply take_drop.
    assert (c ++ l = (c ++ p) ++ drop 512 l) as Ecl by by rewrite <-app_assoc, El.
    pose proof (lookup_lt_Some _ _ _ Ei) as Hi.
    destruct (iappend_run fl s i t c p) as (s1 & E1 & B1); [done|done|by apply Forall_take| | |].
    { rewrite length_app in Hmax |- *. unfold p. rewrite length_take. lia. }
    { pose proof (total_longer fl i t (c ++ p) (drop 512 l) _ Ei). rewrite <-Ecl in *. lia. }
    rewrite (bind_Ok _ _ _ _ _ E1).
    destruct (IH (<[i := (t, c ++ p)]> fl) s1 (c ++ p) (drop 512 l)) as (s2 & E2 & B2); [done| | | | | |].
    + by apply list_lookup_insert_eq.
    + by apply Forall_drop.
    + by rewrite <-Ecl.
    + by rewrite list_insert_insert_eq, <-Ecl.
    + unfold p in Hpos. rewrite length_take in Hpos. rewrite length_drop. lia.
    + rewrite list_insert_insert_eq, <-Ecl in B2. by exists s2.
  - rewrite length_take in Hz. destruct l; [|simpl in Hz; lia]. rewrite app_nil_r in *.
    exists s. split; [done|]. by rewrite list_insert_id.
Qed.

(** ** The name of a file in the image *)

Lemma last_elem_spec path j :
  0 ≤ j → ∃ pre suf, path = pre ++ suf ∧ SLASH ∉ suf ∧
    (pre = [] ∧ last_elem j path = j + Z.of_nat (length suf) ∨
     (∃ pre', pre = pre' ++ [SLASH]) ∧ last_elem j path = Z.of_nat (length suf)).
Proof.
  revert j. induction path as [|c path IH]; intros j Hj.
  - exists [], []. split; [done|]. split; [apply not_elem_of_nil|]. left. simpl. split; [done|lia].
  - cbn [last_elem]. destruct (Z.eqb_spec c SLASH) as [->|Hc]; [change (-1 + 1) with 0|].
    + destruct (IH 0 ltac:(lia)) as (pre & suf & -> & Hs & [[-> E]|[(pre' & ->) E]]).
      * exists [SLASH], suf. split; [done|]. split; [done|]. right. split; [by exists []|]. lia.
      * exists (SLASH :: pre' ++ [SLASH]), suf. split; [done|]. split; [done|]. right.
        split; [by exists (SLASH :: pre')|done].
    + destruct (IH (j + 1) ltac:(lia)) as (pre & suf & -> & Hs & [[-> E]|[(pre' & ->) E]]).
      * exists [], (c :: suf). split; [done|]. split; [by apply not_elem_of_cons|]. left.
        split; [done|]. simpl in *. lia.
      * exists (c :: pre' ++ [SLASH]), suf. split; [done|]. split; [done|]. right.
        split; [by exists (c :: pre')|done].
Qed.

(** [basename] is what follows the last slash *)
Lemma basename_spec path :
  SLASH ∉ basename path ∧
  (path = basename path ∨ ∃ pre, path = pre ++ [SLASH] ++ basename path).
Proof.
  destruct (last_elem_spec path 0 ltac:(lia)) as (pre & suf & E & Hs & Hor).
  assert (last_elem 0 path = Z.of_nat (length suf)) as El by (destruct Hor as [[_ ->]|[_ ->]]; lia).
  assert (basename path = suf) as ->.
  { unfold basename. rewrite El, E, length_app.
    replace (Z.to_nat _) with (length pre) by lia. apply drop_app_length. }
  split; [done|]. destruct Hor as [[-> _]|[(pre' & ->) _]]; [by left|].
  right. exists pre'. by rewrite E, <-app_assoc.
Qed.

(** the name a file gets in the root directory *)
Definition image_name (path : list Z) : list Z := skip_underscore (basename path).
(** a line of the root directory *)
Definition dir_line (ino : Z) (nm : list Z) : list Z := enc_dirent (mkDirEntry ino (dir_name nm)).

Lemma length_dir_name nm : length (dir_name nm) = 14%nat.
Proof. unfold dir_name. rewrite length_app, length_replicate, length_take. lia. Qed.
Lemma bytes_dir_name nm : bytes nm → bytes (dir_name nm).
Proof.
  intros Hn. apply bytes_app. split; [by apply Forall_take|]. apply bytes_replicate. unfold is_byte. lia.
Qed.
Lemma length_dir_line ino nm : length (dir_line ino nm) = 16%nat.
Proof. apply length_enc_dirent, length_dir_name. Qed.
Lemma bytes_dir_line ino nm : bytes nm → bytes (dir_line ino nm).
Proof. intros Hn. by apply bytes_enc_dirent, bytes_dir_name. Qed.
Lemma bytes_image_name path : bytes path → bytes (image_name path).
Proof.
  intros Hp. unfold image_name, basename. assert (bytes (drop (Z.to_nat (Z.of_nat (length path) - last_elem 0 path)) path))
    as Hb by by apply Forall_drop.
  destruct (drop _ path) as [|c l]; [done|]. simpl. destruct (c =? UNDERSCORE); [by inversion Hb|done].
Qed.

(** ** Adding one file *)

Lemma add_file_run rc rest s path l :
  built ((INODE_DIRECTORY, rc) :: rest) s → bytes path → bytes l → Z.of_nat (length l) ≤ 71680 →
  Z.of_nat (length rest) + 2 < NINODES → Z.of_nat (length rc) + 16 ≤ 71680 →
  let ino := Z.of_nat (length rest) + 2 in
  let fl := (INODE_DIRECTORY, rc ++ dir_line ino (image_name path)) :: rest ++ [(INODE_REGULAR, l)] in
  nmeta + total fl ≤ FSSIZE →
  ∃ s', add_file (path, Some l) s = Ok (tt, s') ∧ built fl s'.
Proof.
  intros B Hpath Hl Hmax Hn Hrc ino fl Htot. destruct (basename_spec path) as [Hslash _].
  set (line := dir_line ino (image_name path)) in *. change NINODES with 200 in Hn.
  assert (total fl = cost (nblocks (rc ++ line)) + (total rest + cost (nblocks l))) as Et.
  { unfold fl. simpl. rewrite total_app. simpl. lia. }
  unfold add_file. erewrite bind_Ok by by apply assert_run, bool_decide_eq_true.
  destruct (ialloc_run _ s INODE_REGULAR B) as (s1 & E1 & B1).
  { simpl. change NINODES with 200. lia. }
  { done. }
  { rewrite (bu_next _ _ B). simpl. pose proof (cost_mono _ _ (nblocks_app rc line)).
    pose proof (cost_nonneg l). lia. }
  simpl in E1. replace (Z.of_nat (S (length rest)) + 1) with ino in E1 by lia.
  rewrite (bind_Ok _ _ _ _ _ E1). simpl in B1.
  assert (xshort ino = ino) as -> by (apply u16_id; change (2 ^ 16) with 65536; lia).
  change (enc_dirent (mkDirEntry ino (dir_name (skip_underscore (basename path))))) with line.
  destruct (iappend_run _ s1 0 INODE_DIRECTORY rc line B1) as (s2 & E2 & B2).
  - done.
  - by apply bytes_dir_line, bytes_image_name.
  - rewrite length_app. unfold line. rewrite length_dir_line. lia.
  - simpl. rewrite total_app. simpl. change (cost (nblocks [])) with 0. pose proof (cost_nonneg l). lia.
  - change (Z.of_nat 0 + 1) with rootino in E2. rewrite (bind_Ok _ _ _ _ _ E2). simpl in B2.
    destruct (copy_file_run (S (length l)) _ s2 (S (length rest)) INODE_REGULAR [] l B2) as (s3 & E3 & B3).
    + simpl. by rewrite lookup_app_r, Nat.sub_diag.
    + done.
    + simpl. lia.
    + simpl. rewrite insert_app_r_alt, Nat.sub_diag by done. simpl. rewrite total_app. simpl. lia.
    + lia.
    + replace (Z.of_nat (S (length rest)) + 1) with ino in E3 by lia. exists s3. split; [done|].
      simpl in B3. rewrite insert_app_r_alt, Nat.sub_diag in B3 by done. done.
Qed.
