(* ===== verification/MkfsImage.v ===== *)
(** * The program [mkfs]: from the files to the image

    What [main] leaves in the image file, in the terms in which the kernel's file system
    reads it: the super block, an empty log, the root directory, the files and the bitmap. *)

From Stdlib Require Import ZArith Lia.
From S2P Require Import Prelude Words Sync Layout Cache CacheSpec CacheLog BlockCache CacheAlloc.
From S2P Require Import Inode InodeSpec Mkfs MkfsFile MkfsSpec.

Local Notation V s := (dread (img s)).

(** ** The bitmap *)

Lemma mark_used_app n buf :
  mark_used (Z.of_nat (S n)) buf =
  alter (λ v, u8 (Z.lor v (Z.shiftl 1 (Z.of_nat n mod 8)))) (Z.to_nat (Z.of_nat n / 8)) (mark_used (Z.of_nat n) buf).
Proof.
  unfold mark_used. rewrite !Nat2Z.id. replace (S n) with (n + 1)%nat by lia.
  by rewrite zseq_app, foldl_app.
Qed.

Lemma alter_insert {A} (f : A → A) (i : nat) (l : list A) x : l !! i = Some x → alter f i l = <[i := f x]> l.
Proof. revert i. induction l as [|y l IH]; intros [|i] E; simpl in *; simplify_eq; [done|]. by f_equal; apply IH. Qed.

Lemma is_byte_u8 v : is_byte (u8 v).
Proof. unfold is_byte, u8. change (2 ^ 8) with 256. zmod. Qed.

Lemma mark_used_spec n :
  (n ≤ 4096)%nat → length (mark_used (Z.of_nat n) blank512) = 512%nat ∧
  bytes (mark_used (Z.of_nat n) blank512) ∧
  ∀ k, 0 ≤ k < 4096 → bit_of (mark_used (Z.of_nat n) blank512) k = (k <? Z.of_nat n).
Proof.
  induction n as [|n IH]; intros Hn.
  - split; [done|]. split; [by apply bytes_replicate; unfold is_byte|]. intros k Hk. change (mark_used _ _) with blank512.
    unfold bit_of, blank512. rewrite nth_zero_list, Z.bits_0. symmetry. apply Z.ltb_ge. lia.
  - destruct (IH ltac:(lia)) as (Hl & Hb & Hbit). rewrite mark_used_app. set (d := mark_used (Z.of_nat n) blank512) in *.
    destruct (lookup_lt_is_Some_2 d (Z.to_nat (Z.of_nat n / 8))) as [v Ev]; [rewrite Hl; zmod|].
    rewrite (alter_insert _ _ _ v Ev). split; [by rewrite length_insert|]. split.
    { apply Forall_insert; [done|]. apply is_byte_u8. }
    intros k Hk. rewrite (bit_of_insert d (Z.of_nat n) k v) by (done || lia). case_decide as He.
    + rewrite testbit_set by zmod. rewrite <-(bit_of_byte d (k / 8) (k mod 8) v); [|zmod|zmod|by rewrite He].
      replace (k / 8 * 8 + k mod 8) with k by zmod. rewrite Hbit by done.
      destruct (Z.eqb_spec (Z.of_nat n mod 8) (k mod 8)), (Z.ltb_spec k (Z.of_nat n)),
        (Z.ltb_spec k (Z.of_nat (S n))); try done; zmod.
    + rewrite Hbit by done. destruct (Z.ltb_spec k (Z.of_nat n)), (Z.ltb_spec k (Z.of_nat (S n))); try done; [lia|].
      exfalso. apply He. f_equal. lia.
Qed.

(** ** The empty image *)

Lemma zero_run :
  ∃ s, for_each (zseq 0 (Z.to_nat FSSIZE)) (λ i, wsect i blank512) (mkMk ∅ 1 nmeta) = Ok (tt, s) ∧
    (∀ b, img s !! b = if decide (0 ≤ b < FSSIZE) then Some blank512 else None) ∧
    freeinode s = 1 ∧ freeblock s = nmeta.
Proof.
  destruct (for_each_invariant (λ done s,
    (∀ b, img s !! b = if decide (0 ≤ b < Z.of_nat (length done)) then Some blank512 else None) ∧
    freeinode s = 1 ∧ freeblock s = nmeta) (λ i, wsect i blank512) (zseq 0 (Z.to_nat FSSIZE))) with (s := mkMk ∅ 1 nmeta)
    as (s & E & Hs & ? & ?).
  - intros pre x todo s El (Hs & Hi & Hb). apply zseq_split in El as (_ & -> & _). simpl.
    eexists. split; [apply wsect_run|]. split; [|done]. intros b. simpl. rewrite length_app. simpl.
    destruct (decide (b = Z.of_nat (length pre))) as [->|Hne].
    + by rewrite lookup_insert_eq, decide_True by lia.
    + rewrite lookup_insert_ne, Hs by done. repeat case_decide; try done; lia.
  - split; [|done]. intros b. rewrite decide_False by (simpl; lia). apply lookup_empty.
  - exists s. split; [done|]. rewrite length_zseq in Hs. by rewrite Z2Nat.id in Hs.
Qed.

Lemma dec_super_sector : dec_super super_sector = mkfs_sb.
Proof. vm_compute. reflexivity. Qed.

Lemma super_sector_ok : block_ok super_sector.
Proof. split; [|done]. apply bytes_splice; [apply bytes_enc_words|apply bytes_replicate; by unfold is_byte]. Qed.

Lemma empty_run :
  ∃ s, for_each (zseq 0 (Z.to_nat FSSIZE)) (λ i, wsect i blank512) (mkMk ∅ 1 nmeta) = Ok (tt, s) ∧
    built [] (upd_img <[1 := super_sector]> s).
Proof.
  destruct zero_run as (s & E & Hs & Hi & Hb). exists s. split; [done|].
  assert (∀ x, V (upd_img <[1 := super_sector]> s) x = boot_area x) as HV.
  { intros x. rewrite dread_write. unfold fupd, boot_area. case_decide as Hx; [by subst|].
    rewrite (proj2 (Z.eqb_neq x 1)) by done. unfold dread. rewrite Hs. by case_decide. }
  split; [by intros|split| | | | |].
  - intros b Hr. simpl. destruct (decide (b = 1)) as [->|Hne].
    + rewrite lookup_insert_eq. eexists. split; [done|]. apply super_sector_ok.
    + rewrite lookup_insert_ne, Hs, decide_True by done. eexists. split; [done|].
      split; [|done]. apply bytes_replicate. by unfold is_byte.
  - intros b Hr. rewrite HV. unfold boot_area. simpl in Hr. rewrite Hb, nmeta_pos in Hr.
    by rewrite (proj2 (Z.eqb_neq b 1)) by lia.
  - simpl. lia.
  - simpl. by rewrite Hi.
  - done.
  - simpl. by rewrite Hb.
  - done.
  - intros i j f g x _ Ei. done.
Qed.

(** ** The files of the image *)

Local Notation infile := (list Z * list Z)%type.

(** the entries of the root directory *)
Definition dir_lines (files : list infile) : list (list Z) :=
  dir_line 1 [46] :: dir_line 1 [46; 46] ::
  imap (λ k f, dir_line (Z.of_nat k + 2) (image_name (fst f))) files.
(** inode 1 is the root directory, inode [k + 2] the [k]-th file *)
Definition image_files (files : list infile) : list (Z * list Z) :=
  (INODE_DIRECTORY, concat (dir_lines files)) :: map (λ f, (INODE_REGULAR, snd f)) files.

Lemma dir_lines_snoc files f :
  concat (dir_lines (files ++ [f])) =
  concat (dir_lines files) ++ dir_line (Z.of_nat (length files) + 2) (image_name (fst f)).
Proof.
  unfold dir_lines. rewrite imap_app. cbn [imap]. rewrite Nat.add_0_r. cbn [concat app].
  rewrite concat_app. cbn [concat]. by rewrite app_nil_r, !app_assoc.
Qed.

Lemma image_files_snoc files path l :
  image_files (files ++ [(path, l)]) =
  (INODE_DIRECTORY, concat (dir_lines files) ++ dir_line (Z.of_nat (length files) + 2) (image_name path))
    :: map (λ f, (INODE_REGULAR, snd f)) files ++ [(INODE_REGULAR, l)].
Proof. unfold image_files. by rewrite dir_lines_snoc, map_app. Qed.

Lemma dir_lines_16 files : Forall (λ l, length l = 16%nat) (dir_lines files).
Proof.
  apply Forall_forall. intros l Hl. apply list_elem_of_lookup in Hl as [[|[|k]] Hl]; simpl in Hl.
  1-2: injection Hl as <-; apply length_dir_line.
  rewrite list_lookup_imap in Hl. destruct (files !! k); [|done]. injection Hl as <-. apply length_dir_line.
Qed.

Lemma length_dir_lines files : Z.of_nat (length (concat (dir_lines files))) = 16 * (2 + Z.of_nat (length files)).
Proof.
  assert (∀ ls, Forall (λ l : list Z, length l = 16%nat) ls → Z.of_nat (length (concat ls)) = 16 * Z.of_nat (length ls)) as H.
  { induction 1 as [|l ls Hl _ IH]; simpl; [done|]. rewrite length_app, Hl. lia. }
  rewrite H by apply dir_lines_16. unfold dir_lines. simpl. rewrite length_imap. lia.
Qed.

Lemma total_image_snoc files f : total (image_files files) ≤ total (image_files (files ++ [f])).
Proof.
  destruct f as [path l]. rewrite image_files_snoc. simpl. rewrite total_app. simpl.
  pose proof (cost_nonneg l).
  pose proof (cost_mono _ _ (nblocks_app (concat (dir_lines files)) (dir_line (Z.of_nat (length files) + 2) (image_name path)))).
  fold (dir_lines files) in *. unfold dir_lines in *. simpl in *. lia.
Qed.

Lemma total_image_prefix files rest : total (image_files files) ≤ total (image_files (files ++ rest)).
Proof.
  revert files. induction rest as [|f rest IH]; intros files; [by rewrite app_nil_r|].
  etransitivity; [apply (total_image_snoc files f)|]. specialize (IH (files ++ [f])). by rewrite <-app_assoc in IH.
Qed.

Definition fits (files : list infile) : Prop :=
  Forall (λ f, bytes (fst f) ∧ bytes (snd f) ∧ Z.of_nat (length (snd f)) ≤ INODE_MAX_BYTES) files ∧
  Z.of_nat (length files) + 2 ≤ NINODES ∧ nmeta + total (image_files files) ≤ FSSIZE.

(** the loop over the files *)
Lemma add_files_run files s :
  fits files → built (image_files []) s →
  ∃ s', for_each (map (λ f, (fst f, Some (snd f))) files) add_file s = Ok (tt, s') ∧
    built (image_files files) s'.
Proof.
  intros (Hf & Hn & Htot) B. change NINODES with 200 in Hn.
  assert (∀ todo pre s, files = pre ++ todo → built (image_files pre) s →
    ∃ s', for_each (map (λ f, (fst f, Some (snd f))) todo) add_file s = Ok (tt, s') ∧ built (image_files files) s') as IH.
  { induction todo as [|[path l] todo IH]; intros pre s1 E B1.
    { rewrite app_nil_r in E. subst pre. by exists s1. }
    assert (files = (pre ++ [(path, l)]) ++ todo) as E' by by rewrite <-app_assoc.
    destruct (proj1 (Forall_forall _ _) Hf (path, l)) as (Hp & Hl & Hmax).
    { rewrite E. apply elem_of_app. right. left. }
    assert (length files = (length pre + S (length todo))%nat) as El by by rewrite E, length_app.
    pose proof (length_dir_lines pre) as Hd. change INODE_MAX_BYTES with 71680 in Hmax.
    destruct (add_file_run _ _ s1 path l B1 Hp Hl Hmax) as (s2 & E2 & B2).
    - rewrite length_map. change NINODES with 200. lia.
    - rewrite Hd. lia.
    - rewrite length_map, <-image_files_snoc.
      pose proof (total_image_prefix (pre ++ [(path, l)]) todo) as Hm. rewrite <-E' in Hm. lia.
    - rewrite length_map, <-image_files_snoc in B2. cbn [map for_each]. simpl fst. simpl snd.
      rewrite (bind_Ok _ _ _ _ _ E2). by apply (IH (pre ++ [(path, l)])). }
  by apply (IH files []).
Qed.

(** the root directory with its first two entries *)
Lemma root_run s :
  built [] s →
  ∃ s1 s2 s', ialloc INODE_DIRECTORY s = Ok (1, s1) ∧
    iappend 1 (dir_line 1 [46]) s1 = Ok (tt, s2) ∧
    iappend 1 (dir_line 1 [46; 46]) s2 = Ok (tt, s') ∧ built (image_files []) s'.
Proof.
  intros B. destruct (ialloc_run _ s INODE_DIRECTORY B) as (s1 & E1 & B1); [done|done| |].
  { rewrite (bu_next _ _ B). done. }
  destruct (iappend_run _ s1 0 INODE_DIRECTORY [] (dir_line 1 [46]) B1) as (s2 & E2 & B2);
    [done|by apply bytes_dir_line; repeat constructor|done|done|].
  destruct (iappend_run _ s2 0 INODE_DIRECTORY (dir_line 1 [46]) (dir_line 1 [46; 46]) B2) as (s3 & E3 & B3);
    [done|by apply bytes_dir_line; repeat constructor|done|done|].
  by exists s1, s2, s3.
Qed.

(** ** The finished image *)

#[local] Instance mkfs_cache : BlockCache cachest := cache_ops mkfs_sb.

(** a file of the image can be read *)
Lemma file_reads W fb e n c :
  file_ok W fb e n c → fb ≤ FSSIZE → 0 ≤ num_bytes e → num_bytes e ≤ 512 * n →
  @covered _ _ (cache_laws mkfs_sb) W e.
Proof.
  intros F Hfb Hnb Hn. pose proof F as [H1 H2 H3 H4 H5 H6 H7 H8 H9]. rewrite nmeta_pos in *.
  change FSSIZE with 1000 in *.
  assert (∀ b, 92 ≤ b < fb → client_block mkfs_sb b) as Hc.
  { intros b Hb. unfold client_block, in_log. change (sb_num_blocks mkfs_sb) with 1000.
    change (sb_log_start mkfs_sb) with 2. change LOG_MAX_SIZE with 63. change (2 ^ 32) with 4294967296. lia. }
  split; [done|]. split.
  - apply (wf_addrs_len _ H1).
  - change INODE_MAX_BLOCKS with 140. zmod.
  - intros k Hk. apply Hc, H4. zmod.
  - change INODE_NUM_DIRECT with 12. intros Hk. assert (12 < n) by zmod.
    destruct H6 as [[_ ?]|Hi]; [lia|]. split; [lia|by apply Hc].
Qed.

Lemma file_bytes_all W fb e n c :
  file_ok W fb e n c → file_bytes W e 0 (length c) = c.
Proof.
  intros F. apply (list_eq_same_length _ _ (length c)); [done|by rewrite length_file_bytes|].
  intros i x y Hi Ex Ey. unfold file_bytes in Ex. rewrite list_lookup_fmap, lookup_zseq, Z.add_0_l in Ex by done.
  assert (file_byte W e (Z.of_nat i) = x) as <- by (by injection Ex). rewrite (fo_byte _ _ _ _ _ F).
  - rewrite Nat2Z.id. by apply nth_lookup_Some.
  - pose proof (fo_cap _ _ _ _ _ F). lia.
Qed.

(** rounding up the size of the root directory, and the bitmap *)
Lemma finish_run fl rc s :
  built ((INODE_DIRECTORY, rc) :: fl) s → nmeta + total ((INODE_DIRECTORY, rc) :: fl) ≤ FSSIZE →
  Z.of_nat (length rc) < 71680 →
  ∃ s', (din ← rinode rootino;
    let off := xint (num_bytes din) in
    let off := u32 ((off / BLOCK_SIZE + 1) * BLOCK_SIZE) in
    winode rootino (set_num_bytes (xint off) din);;
    s ← gets id;
    balloc (freeblock s)) s = Ok (tt, s') ∧
    (∀ x, x < 65 → V s' x = boot_area x) ∧
    V s' 91 = mark_used (freeblock s) blank512 ∧
    (∀ x, nmeta ≤ x → V s' x = V s x) ∧
    entry_of (V s') 1 = set_num_bytes ((Z.of_nat (length rc) / 512 + 1) * 512) (entry_of (V s) 1) ∧
    ∀ j, 0 ≤ j < NINODES → j ≠ 1 → entry_of (V s') j = entry_of (V s) j.
Proof.
  intros B Htot Hlen. destruct (bu_files _ _ B 0 INODE_DIRECTORY rc eq_refl) as [F T Hm Hs].
  change (Z.of_nat 0 + 1) with 1 in *. unfold rootino. change ROOT_INODE_NO with 1.
  rewrite (bind_Ok _ _ _ _ _ (rinode_run s 1 (bu_image _ _ B) ltac:(done))). cbv zeta. rewrite Hs.
  change BLOCK_SIZE with 512. set (n := Z.of_nat (length rc)) in *.
  assert (0 ≤ n) by (unfold n; lia). assert ((n / 512 + 1) * 512 ≤ 71680) as Hoff by zmod.
  rewrite (xint_id n), (u32_id ((n / 512 + 1) * 512)), xint_id by (change (2 ^ 32) with 4294967296; zmod).
  set (e := set_num_bytes _ _).
  assert (wf_inode e) as Hwf.
  { apply (fo_wf _ _ _ _ _ (file_ok_num_bytes _ _ _ _ _ ((n / 512 + 1) * 512) F
      ltac:(apply word_small; change (2 ^ 32) with 4294967296; zmod))). }
  destruct (winode_run s 1 e (bu_image _ _ B) ltac:(done) Hwf) as (s1 & E1 & I1 & Een & Eoth & HV & Efb & Ein).
  rewrite (bind_Ok _ _ _ _ _ E1). erewrite bind_Ok by apply gets_run. unfold id, balloc. rewrite Efb.
  assert (freeblock s ≤ 1000) as Hfb by (rewrite (bu_next _ _ B); exact Htot).
  erewrite bind_Ok by (apply assert_run, Z.ltb_lt; change (BLOCK_SIZE * 8) with 4096; lia).
  change (sb_bitmap_start mkfs_sb) with 91. rewrite wsect_run. set (d := mark_used _ _).
  exists (upd_img <[91 := d]> s1). split; [done|].
  assert (∀ x, V (upd_img <[91 := d]> s1) x = fupd (V s1) 91 d x) as HW by (intros; apply dread_write).
  assert (∀ j, 0 ≤ j < NINODES → entry_of (V (upd_img <[91 := d]> s1)) j = entry_of (V s1) j) as Hent.
  { intros j Hj. unfold entry_of. rewrite HW, fupd_ne; [done|]. pose proof (iblock_range j Hj). lia. }
  rewrite nmeta_pos. split_and!.
  - intros x Hx. rewrite HW, fupd_ne, HV by lia. by apply (bu_low _ _ B).
  - by rewrite HW, fupd_eq.
  - intros x Hx. rewrite HW, fupd_ne, HV by lia. done.
  - by rewrite Hent.
  - intros j Hj Hne. rewrite Hent by done. by apply Eoth.
Qed.

(** what the kernel finds on a disk with the sectors [W] *)
Record image_of (files : list infile) (W : Z → list Z) : Prop := {
  im_super : dec_super (W 1) = mkfs_sb;
  im_log : lh_num_blocks (dec_header (W (sb_log_start mkfs_sb))) = 0;
  im_bitmap : ∀ b, 0 ≤ b < FSSIZE → used mkfs_sb W b = (b <? nmeta + total (image_files files));
  im_file : ∀ k path c, files !! k = Some (path, c) → let e := entry_of W (Z.of_nat k + 2) in
    type e = INODE_REGULAR ∧ num_links e = 1 ∧ num_bytes e = Z.of_nat (length c) ∧
    @covered _ _ (cache_laws mkfs_sb) W e ∧ file_bytes W e 0 (length c) = c;
  im_entry : ∀ k path c, files !! k = Some (path, c) →
    dec_dirent (file_bytes W (entry_of W ROOT_INODE_NO) (16 * (Z.of_nat k + 2)) 16) =
    mkDirEntry (Z.of_nat k + 2) (dir_name (image_name path));
  im_root : let e := entry_of W ROOT_INODE_NO in let n := 16 * (Z.of_nat (length files) + 2) in
    type e = INODE_DIRECTORY ∧ num_links e = 1 ∧ num_bytes e = (n / 512 + 1) * 512 ∧
    (∀ o, n ≤ o < num_bytes e → file_byte W e o = 0) ∧
    (if decide (n mod 512 = 0) then block_of W e (n / 512) = 0
     else @covered _ _ (cache_laws mkfs_sb) W e) }.

(** the lines of a directory *)
Lemma sub_concat_16 (ls : list (list Z)) k l :
  Forall (λ l, length l = 16%nat) ls → ls !! k = Some l → sub (16 * k) 16 (concat ls) = l.
Proof.
  intros Hls. revert k. induction Hls as [|l0 ls Hl0 Hls IH]; intros [|k] E; simpl in *; try done.
  - injection E as ->. unfold sub. rewrite drop_0. by apply take_app_length'.
  - rewrite <-(IH k E). unfold sub. rewrite drop_app_ge by lia. f_equal. f_equal. lia.
Qed.

Lemma file_bytes_sub W fb e n c o m :
  file_ok W fb e n c → (o + m ≤ length c)%nat → file_bytes W e (Z.of_nat o) m = sub o m c.
Proof.
  intros F Hm. pose proof (fo_cap _ _ _ _ _ F).
  apply (list_eq_same_length _ _ m); [by rewrite length_sub|by rewrite length_file_bytes|].
  intros i x y Hi Ex Ey. unfold file_bytes in Ex. rewrite list_lookup_fmap, lookup_zseq in Ex by done.
  assert (file_byte W e (Z.of_nat o + Z.of_nat i) = x) as <- by (by injection Ex).
  rewrite (fo_byte _ _ _ _ _ F) by lia. rewrite lookup_sub in Ey by done.
  apply nth_lookup_Some. rewrite <-Ey. f_equal. lia.
Qed.

Lemma dec_dir_line ino nm :
  0 ≤ ino < 2 ^ 16 → bytes nm → dec_dirent (dir_line ino nm) = mkDirEntry ino (dir_name nm).
Proof.
  intros Hi Hn. apply dec_enc_dirent. split; [done|by apply bytes_dir_name|apply length_dir_name].
Qed.

Lemma lookup_dir_lines files k path c :
  files !! k = Some (path, c) →
  dir_lines files !! S (S k) = Some (dir_line (Z.of_nat k + 2) (image_name path)).
Proof. intros E. simpl. by rewrite list_lookup_imap, E. Qed.

(** everything the image holds, from what the last steps of [main] leave *)
Lemma image_of_built files s W :
  fits files → built (image_files files) s →
  (∀ x, x < 65 → W x = boot_area x) → W 91 = mark_used (freeblock s) blank512 →
  (∀ x, nmeta ≤ x → W x = V s x) →
  entry_of W 1 = set_num_bytes ((Z.of_nat (length (concat (dir_lines files))) / 512 + 1) * 512) (entry_of (V s) 1) →
  (∀ j, 0 ≤ j < NINODES → j ≠ 1 → entry_of W j = entry_of (V s) j) → image_of files W.
Proof.
  intros (Hf & Hn & Htot) B Hlow H91 Hdata Hroot Hoth. change NINODES with 200 in *.
  pose proof (bu_next _ _ B) as Hfb. rewrite length_dir_lines in Hroot.
  set (n := 16 * (2 + Z.of_nat (length files))) in *.
  assert (0 ≤ freeblock s) as Hfb0 by (pose proof (io_next _ (bu_image _ _ B)); rewrite nmeta_pos in *; lia).
  change FSSIZE with 1000 in *.
  assert (∀ e c, file_ok (V s) (freeblock s) e (nblocks c) c → file_ok W (freeblock s) e (nblocks c) c) as Hfr.
  { intros e c F. eapply file_ok_frame; [exact F|done|]. intros x Hx. apply Hdata.
    by apply (owned_range _ _ _ _ _ _ F). }
  destruct (bu_files _ _ B 0 INODE_DIRECTORY _ eq_refl) as [F T Hm Hs]. change (Z.of_nat 0 + 1) with 1 in *.
  pose proof (length_dir_lines files) as Hlen. fold n in Hlen. rewrite Hlen in Hs.
  set (c0 := concat (dir_lines files)) in *. set (e0 := entry_of (V s) 1) in *.
  set (sz := (n / 512 + 1) * 512) in *.
  assert (file_ok W (freeblock s) (entry_of W 1) (nblocks c0) c0) as F1.
  { rewrite Hroot. apply file_ok_num_bytes; [by apply Hfr|]. apply word_small.
    change (2 ^ 32) with 4294967296. unfold sz, n. zmod. }
  assert (nblocks c0 = (n + 511) / 512) as Hnb by (unfold nblocks; by rewrite Hlen).
  split.
  - rewrite Hlow by done. apply dec_super_sector.
  - rewrite Hlow by done. vm_compute. reflexivity.
  - intros b Hb. change FSSIZE with 1000 in Hb. unfold used, bitmap_block. change (sb_bitmap_start mkfs_sb) with 91. change BIT_PER_BLOCK with 4096.
    rewrite Z.div_small, Z.mod_small by lia. change (91 + 0) with 91. rewrite H91, <-Hfb.
    rewrite <-(Z2Nat.id (freeblock s)) by done. apply mark_used_spec; lia.
  - intros k path c Ek. cbv zeta. pose proof (lookup_lt_Some _ _ _ Ek) as Hk.
    destruct (bu_files _ _ B (S k) INODE_REGULAR c) as [Fk Tk Mk Sk]; [by simpl; rewrite list_lookup_fmap, Ek|].
    replace (Z.of_nat (S k) + 1) with (Z.of_nat k + 2) in * by lia. rewrite Hoth by lia.
    injection Mk as Mt _ _ Ml. split; [done|]. split; [done|]. split; [done|]. apply Hfr in Fk.
    split; [|by eapply file_bytes_all]. pose proof (fo_cap _ _ _ _ _ Fk).
    eapply file_reads; [exact Fk|change FSSIZE with 1000; lia|lia|lia].
  - intros k path c Ek. pose proof (lookup_lt_Some _ _ _ Ek) as Hk. change ROOT_INODE_NO with 1.
    replace (16 * (Z.of_nat k + 2)) with (Z.of_nat (16 * S (S k))) by lia.
    rewrite (file_bytes_sub _ _ _ _ _ _ _ F1) by lia. unfold c0.
    rewrite (sub_concat_16 _ _ _ (dir_lines_16 files) (lookup_dir_lines _ _ _ _ Ek)).
    apply dec_dir_line; [change (2 ^ 16) with 65536; lia|].
    apply bytes_image_name. apply (proj1 (Forall_forall _ _) Hf (path, c)). by eapply list_elem_of_lookup_2.
  - cbv zeta. change ROOT_INODE_NO with 1. replace (16 * (Z.of_nat (length files) + 2)) with n by lia. fold sz.
    assert (num_bytes (entry_of W 1) = sz) as Hsz by by rewrite Hroot.
    injection Hm as Mt _ _ Ml. split; [by rewrite Hroot|]. split; [by rewrite Hroot|]. split; [done|]. split.
    + intros o Ho. rewrite Hsz in Ho. destruct (decide (o < 512 * nblocks c0)) as [Hlt|Hge].
      * rewrite (fo_byte _ _ _ _ _ F1) by lia. apply nth_overflow. lia.
      * unfold file_byte. change BLOCK_SIZE with 512. rewrite (fo_none _ _ _ _ _ F1) by (unfold sz, n in *; zmod).
        rewrite Hlow by done. apply nth_zero_list.
    + case_decide as Hz.
      * apply (fo_none _ _ _ _ _ F1). unfold n in *. zmod.
      * eapply file_reads; [exact F1|change FSSIZE with 1000; lia|unfold sz, n in *; zmod|].
        rewrite Hsz, Hnb. unfold sz. zmod.
Qed.

(** C6: Running [mkfs] on files that fit (at most 140 blocks each, at most 198 of them, and
    room for all their blocks) succeeds, and the image is a file system of the kernel's: its
    super block decodes to the geometry, the log is empty, inode [k + 2] is a regular file
    with one link and the [k]-th file's bytes, readable block by block, the root directory
    names it by the last element of its path less a leading underscore, cut to 14 bytes, and
    the bitmap marks the blocks in use and no other.  The root's size is rounded up by a
    whole block when its entries fill their last one exactly: that block is a hole. *)
Theorem mkfs_image files s0 :
  fits files →
  ∃ s, main (map (λ f, (fst f, Some (snd f))) files) s0 = Ok (tt, s) ∧ image_of files (dread (img s)).
Proof.
  intros Hfit. pose proof Hfit as (_ & Hn & Htot). change NINODES with 200 in Hn.
  unfold main. erewrite bind_Ok by apply modify_run.
  destruct empty_run as (s1 & E1 & B1). fold blank512. rewrite (bind_Ok _ _ _ _ _ E1).
  erewrite bind_Ok by apply wsect_run.
  destruct (root_run _ B1) as (sa & sb & s2 & Ea & Eb & E2 & B2). rewrite (bind_Ok _ _ _ _ _ Ea).
  erewrite bind_Ok by by apply assert_run. change (xshort 1) with 1.
  rewrite (bind_Ok _ _ _ _ _ Eb), (bind_Ok _ _ _ _ _ E2).
  destruct (add_files_run files s2 Hfit B2) as (s3 & E3 & B3). rewrite (bind_Ok _ _ _ _ _ E3).
  destruct (finish_run _ _ s3 B3 Htot) as (s4 & E4 & Hlow & H91 & Hdata & Hroot & Hoth).
  { rewrite length_dir_lines. lia. }
  exists s4. split; [exact E4|]. by eapply image_of_built.
Qed.

(** [../user/_sh] with 600 bytes, and the empty file [init] *)
Definition two_files : list infile :=
  [([46; 46; 47; 117; 115; 101; 114; 47; 95; 115; 104], replicate 600 7); ([105; 110; 105; 116], [])].

Lemma two_files_fit : fits two_files.
Proof. unfold fits, bytes. by_decision. Qed.

Lemma mkfs_image_witness :
  ∃ s, main (map (λ f, (fst f, Some (snd f))) two_files) (mkMk ∅ 0 0) = Ok (tt, s) ∧
    file_bytes (dread (img s)) (entry_of (dread (img s)) 2) 0 600 = replicate 600 7 ∧
    dec_dirent (file_bytes (dread (img s)) (entry_of (dread (img s)) 1) 32 16) = mkDirEntry 2 (dir_name [115; 104]).
Proof.
  destruct (mkfs_image two_files (mkMk ∅ 0 0) two_files_fit) as (s & E & I). exists s. split; [done|]. split.
  - by destruct (im_file _ _ I 0%nat _ _ eq_refl) as (_ & _ & _ & _ & H).
  - apply (im_entry _ _ I 0%nat _ _ eq_refl).
Defined.
