(* ===== verification/Rbtree.v ===== *)
(** * [common/rbtree.c]: red-black trees with parent pointers

    The nodes are in a memory of three-word structures.  [__rb_parent_color] is one word: the
    address of the parent, a multiple of 4, with the colour in bit 0.  The null pointer is the
    address 0.  [cmp] compares the structures around two nodes, which the tree never looks
    into. *)

From Stdlib Require Import ZArith Lia.
From S2P Require Import Prelude Words.

Record rb_node_ := mkNode { rb_parent_color_ : Z; rb_right_ : Z; rb_left_ : Z }.

(** the memory of the nodes, and the field [rb_node] of the root *)
Record rbtree := mkTree { rmem : gmap Z rb_node_; rroot : Z }.

Definition RB_RED : Z := 0.
Definition RB_BLACK : Z := 1.
(** [__rb_parent] and [__rb_color] of a word *)
Definition rb_parent_of (pc : Z) : Z := Z.land pc (Z.lnot 3).
Definition rb_color_of (pc : Z) : Z := Z.land pc 1.

Notation T := (M rbtree).

Definition node_at (p : Z) : T rb_node_ := getopt (λ s, rmem s !! p).
Definition set_node (p : Z) (f : rb_node_ → rb_node_) : T unit :=
  n ← node_at p; modify (λ s, mkTree (<[p := f n]> (rmem s)) (rroot s)).
Definition rb_left (p : Z) : T Z := n ← node_at p; mret (rb_left_ n).
Definition rb_right (p : Z) : T Z := n ← node_at p; mret (rb_right_ n).
Definition rb_pc (p : Z) : T Z := n ← node_at p; mret (rb_parent_color_ n).
Definition set_left (p v : Z) : T unit :=
  set_node p (λ n, mkNode (rb_parent_color_ n) (rb_right_ n) v).
Definition set_right (p v : Z) : T unit :=
  set_node p (λ n, mkNode (rb_parent_color_ n) v (rb_left_ n)).
Definition set_pc (p v : Z) : T unit :=
  set_node p (λ n, mkNode v (rb_right_ n) (rb_left_ n)).
Definition set_root (v : Z) : T unit := modify (λ s, mkTree (rmem s) v).

Definition rb_parent (r : Z) : T Z := pc ← rb_pc r; mret (rb_parent_of pc).
Definition rb_color (r : Z) : T Z := pc ← rb_pc r; mret (rb_color_of pc).
Definition rb_is_red (r : Z) : T bool := c ← rb_color r; mret (c =? 0).
Definition rb_is_black (r : Z) : T bool := c ← rb_color r; mret (negb (c =? 0)).

Definition rb_set_black (rb : Z) : T unit := pc ← rb_pc rb; set_pc rb (Z.lor pc RB_BLACK).
Definition rb_red_parent (red : Z) : T Z := rb_pc red.
Definition rb_set_parent (rb p : Z) : T unit := c ← rb_color rb; set_pc rb (Z.lor c p).
Definition rb_set_parent_color (rb p color : Z) : T unit := set_pc rb (Z.lor p color).

Definition rb_change_child (old new parent : Z) : T unit :=
  if negb (parent =? 0) then
    l ← rb_left parent;
    if l =? old then set_left parent new else set_right parent new
  else set_root new.

Definition rb_rotate_set_parents (old new color : Z) : T unit :=
  parent ← rb_parent old;
  pc ← rb_pc old;
  set_pc new pc;;
  rb_set_parent_color old new color;;
  rb_change_child old new parent.

(** [p && rb_is_red(p)] and [!p || rb_is_black(p)] *)
Definition and_red (p : Z) : T bool := if p =? 0 then mret false else rb_is_red p.
Definition none_or_black (p : Z) : T bool := if p =? 0 then mret true else rb_is_black p.
(** [if (p) m] *)
Definition when_ptr (p : Z) (m : T unit) : T unit := when (negb (p =? 0)) m.

(** ** Insertion *)

(** the part of [__rb_insert_fix] below case 1, for a parent that is a left child *)
Definition insert_rotate_left (node parent gparent : Z) : T unit :=
  tmp ← rb_right parent;
  '(parent, tmp) ←
    (if node =? tmp then
       tmp ← rb_left node;
       set_right parent tmp;;
       when_ptr tmp (rb_set_parent_color tmp parent RB_BLACK);;
       set_left node parent;;
       rb_set_parent_color parent node RB_RED;;
       tmp ← rb_right node;
       mret (node, tmp)
     else mret (parent, tmp));
  set_left gparent tmp;;
  when_ptr tmp (rb_set_parent_color tmp gparent RB_BLACK);;
  set_right parent gparent;;
  rb_rotate_set_parents gparent parent RB_RED.

Definition insert_rotate_right (node parent gparent : Z) : T unit :=
  tmp ← rb_left parent;
  '(parent, tmp) ←
    (if node =? tmp then
       tmp ← rb_right node;
       set_left parent tmp;;
       when_ptr tmp (rb_set_parent_color tmp parent RB_BLACK);;
       set_right node parent;;
       rb_set_parent_color parent node RB_RED;;
       tmp ← rb_left node;
       mret (node, tmp)
     else mret (parent, tmp));
  set_right gparent tmp;;
  when_ptr tmp (rb_set_parent_color tmp gparent RB_BLACK);;
  set_left parent gparent;;
  rb_rotate_set_parents gparent parent RB_RED.

(** case 1: the uncle [tmp] is red; the new [node] and [parent] *)
Definition insert_recolor (parent gparent tmp : Z) : T (Z * Z) :=
  rb_set_parent_color tmp gparent RB_BLACK;;
  rb_set_parent_color parent gparent RB_BLACK;;
  p ← rb_parent gparent;
  rb_set_parent_color gparent p RB_RED;;
  mret (gparent, p).

Fixpoint insert_fix_loop (fuel : nat) (node parent : Z) : T unit :=
  match fuel with
  | O => nofuel
  | S fuel =>
      if parent =? 0 then
        rb_set_parent_color node 0 RB_BLACK;;
        set_root node
      else
        b ← rb_is_black parent;
        if (b : bool) then mret tt
        else
          gparent ← rb_red_parent parent;
          tmp ← rb_right gparent;
          if negb (parent =? tmp) then
            red ← and_red tmp;
            if (red : bool) then
              '(node, parent) ← insert_recolor parent gparent tmp;
              insert_fix_loop fuel node parent
            else insert_rotate_left node parent gparent
          else
            tmp ← rb_left gparent;
            red ← and_red tmp;
            if (red : bool) then
              '(node, parent) ← insert_recolor parent gparent tmp;
              insert_fix_loop fuel node parent
            else insert_rotate_right node parent gparent
  end.
(** a loop that follows the tree makes at most a round for each node *)
Definition with_fuel {A} (f : nat → T A) : T A := λ s, f (S (size (rmem s))) s.

Definition rb_insert_fix (node : Z) : T unit :=
  parent ← rb_red_parent node;
  with_fuel (λ n, insert_fix_loop n node parent).

Section cmp.
Context (cmp : Z → Z → bool).

(** the loop of [_rb_insert]: [false] when an equal node is there *)
Fixpoint insert_descend (fuel : nat) (node nw : Z) : T bool :=
  match fuel with
  | O => nofuel
  | S fuel =>
      if nw =? 0 then mret true
      else
        let parent := nw in
        if cmp node nw then
          nw ← rb_left nw;
          when (nw =? 0) (set_left parent node;; set_pc node parent);;
          insert_descend fuel node nw
        else if cmp nw node then
          nw ← rb_right nw;
          when (nw =? 0) (set_right parent node;; set_pc node parent);;
          insert_descend fuel node nw
        else mret false
  end.

Definition rb_insert (node : Z) : T Z :=
  nw ← gets rroot;
  set_left node 0;;
  set_right node 0;;
  set_pc node 0;;
  ok ← with_fuel (λ n, insert_descend n node nw);
  if (ok : bool) then rb_insert_fix node;; mret 0 else mret (-1).

Fixpoint lookup_loop (fuel : nat) (node nw : Z) : T Z :=
  match fuel with
  | O => nofuel
  | S fuel =>
      if nw =? 0 then mret 0
      else if cmp node nw then nw ← rb_left nw; lookup_loop fuel node nw
      else if cmp nw node then nw ← rb_right nw; lookup_loop fuel node nw
      else mret nw
  end.
Definition rb_lookup (node : Z) : T Z :=
  nw ← gets rroot; with_fuel (λ n, lookup_loop n node nw).
End cmp.

Fixpoint first_loop (fuel : nat) (n : Z) : T Z :=
  match fuel with
  | O => nofuel
  | S fuel => l ← rb_left n; if l =? 0 then mret n else first_loop fuel l
  end.
Definition rb_first : T Z :=
  n ← gets rroot;
  if n =? 0 then mret 0 else with_fuel (λ k, first_loop k n).

(** ** Removal *)

(** the [do] loop to the successor: [parent] and [successor] at its end *)
Fixpoint successor_loop (fuel : nat) (successor tmp : Z) : T (Z * Z) :=
  match fuel with
  | O => nofuel
  | S fuel =>
      let parent := successor in
      let successor := tmp in
      tmp ← rb_left tmp;
      if tmp =? 0 then mret (parent, successor) else successor_loop fuel successor tmp
  end.

(** the successor of a node with the right child [child], taken out of its place: its parent,
    itself and its right child *)
Definition erase_successor (child : Z) : T (Z * Z * Z) :=
  let successor := child in
  tmp ← rb_left child;
  if tmp =? 0 then
    child2 ← rb_right successor;
    mret (successor, successor, child2)
  else
    '(parent, successor) ← with_fuel (λ n, successor_loop n successor tmp);
    child2 ← rb_right successor;
    set_left parent child2;;
    set_right successor child;;
    rb_set_parent child successor;;
    mret (parent, successor, child2).

Definition erase_two_children (node child : Z) : T Z :=
  '(parent, successor, child2) ← erase_successor child;
  tmp ← rb_left node;
  set_left successor tmp;;
  rb_set_parent tmp successor;;
  pc ← rb_pc node;
  rb_change_child node successor (rb_parent_of pc);;
  if negb (child2 =? 0) then
    set_pc successor pc;;
    rb_set_parent_color child2 parent RB_BLACK;;
    mret 0
  else
    pc2 ← rb_pc successor;
    set_pc successor pc;;
    mret (if rb_color_of pc2 =? 0 then 0 else parent).

(** [__rb_erase]: the node to rebalance from, or 0 *)
Definition rb_erase_node (node : Z) : T Z :=
  child ← rb_right node;
  tmp ← rb_left node;
  if tmp =? 0 then
    pc ← rb_pc node;
    let parent := rb_parent_of pc in
    rb_change_child node child parent;;
    if negb (child =? 0) then set_pc child pc;; mret 0
    else mret (if rb_color_of pc =? 0 then 0 else parent)
  else if child =? 0 then
    pc ← rb_pc node;
    set_pc tmp pc;;
    rb_change_child node tmp (rb_parent_of pc);;
    mret 0
  else erase_two_children node child.

(** case 2 of [__rb_erase_fix]: where to go on from, or 0 *)
Definition erase_recolor (parent sibling : Z) : T Z :=
  rb_set_parent_color sibling parent RB_RED;;
  red ← rb_is_red parent;
  if (red : bool) then rb_set_black parent;; mret 0
  else rb_parent parent.

(** case 1 for a node that is a left child: its red sibling becomes the grandparent; the new
    sibling *)
Definition erase_red_left (parent sibling : Z) : T Z :=
  red ← rb_is_red sibling;
  if (red : bool) then
    tmp1 ← rb_left sibling;
    set_right parent tmp1;;
    rb_set_parent_color tmp1 parent RB_BLACK;;
    set_left sibling parent;;
    rb_rotate_set_parents parent sibling RB_RED;;
    mret tmp1
  else mret sibling.
Definition erase_red_right (parent sibling : Z) : T Z :=
  red ← rb_is_red sibling;
  if (red : bool) then
    tmp1 ← rb_right sibling;
    set_left parent tmp1;;
    rb_set_parent_color tmp1 parent RB_BLACK;;
    set_right sibling parent;;
    rb_rotate_set_parents parent sibling RB_RED;;
    mret tmp1
  else mret sibling.

(** case 3: the outer nephew is black, the inner one, [tmp2], red; the new [sibling] and [tmp1] *)
Definition erase_inner_left (parent sibling tmp2 : Z) : T (Z * Z) :=
  tmp1 ← rb_right tmp2;
  set_left sibling tmp1;;
  when_ptr tmp1 (rb_set_parent_color tmp1 sibling RB_BLACK);;
  set_right tmp2 sibling;;
  set_right parent tmp2;;
  mret (tmp2, sibling).
Definition erase_inner_right (parent sibling tmp2 : Z) : T (Z * Z) :=
  tmp1 ← rb_left tmp2;
  set_right sibling tmp1;;
  when_ptr tmp1 (rb_set_parent_color tmp1 sibling RB_BLACK);;
  set_left tmp2 sibling;;
  set_left parent tmp2;;
  mret (tmp2, sibling).

(** case 4: the outer nephew, [tmp1], is red *)
Definition erase_outer_left (parent sibling tmp1 : Z) : T unit :=
  tmp2 ← rb_left sibling;
  set_right parent tmp2;;
  when_ptr tmp2 (rb_set_parent tmp2 parent);;
  set_left sibling parent;;
  rb_set_parent_color tmp1 sibling RB_BLACK;;
  rb_rotate_set_parents parent sibling RB_BLACK.
Definition erase_outer_right (parent sibling tmp1 : Z) : T unit :=
  tmp2 ← rb_right sibling;
  set_left parent tmp2;;
  when_ptr tmp2 (rb_set_parent tmp2 parent);;
  set_right sibling parent;;
  rb_set_parent_color tmp1 sibling RB_BLACK;;
  rb_rotate_set_parents parent sibling RB_BLACK.

Fixpoint erase_fix_loop (fuel : nat) (node parent : Z) : T unit :=
  match fuel with
  | O => nofuel
  | S fuel =>
      sibling ← rb_right parent;
      if negb (node =? sibling) then
        sibling ← erase_red_left parent sibling;
        tmp1 ← rb_right sibling;
        black1 ← none_or_black tmp1;
        tmp2 ← rb_left sibling;
        black2 ← (if (black1 : bool) then none_or_black tmp2 else mret false);
        if (black2 : bool) then
          next ← erase_recolor parent sibling;
          if next =? 0 then mret tt else erase_fix_loop fuel parent next
        else
          '(sibling, tmp1) ←
            (if (black1 : bool) then erase_inner_left parent sibling tmp2 else mret (sibling, tmp1));
          erase_outer_left parent sibling tmp1
      else
        sibling ← rb_left parent;
        sibling ← erase_red_right parent sibling;
        tmp1 ← rb_left sibling;
        black1 ← none_or_black tmp1;
        tmp2 ← rb_right sibling;
        black2 ← (if (black1 : bool) then none_or_black tmp2 else mret false);
        if (black2 : bool) then
          next ← erase_recolor parent sibling;
          if next =? 0 then mret tt else erase_fix_loop fuel parent next
        else
          '(sibling, tmp1) ←
            (if (black1 : bool) then erase_inner_right parent sibling tmp2 else mret (sibling, tmp1));
          erase_outer_right parent sibling tmp1
  end.

Definition rb_erase (node : Z) : T unit :=
  rebalance ← rb_erase_node node;
  if negb (rebalance =? 0) then with_fuel (λ n, erase_fix_loop n 0 rebalance) else mret tt.
