(* ===== verification/RbtreeSpec.v ===== *)
(** * Red-black trees: what the pointers stand for, and insertion

    [rep m t par]: the memory [m] holds the tree [t] under the parent [par].  A position in a
    tree is a [zipper], a list of frames from the hole up to the root.  Insertion keeps the
    order, the red-black invariants and the pointers. *)

From Stdlib Require Import ZArith Lia Sorted.
From S2P Require Import Prelude Words Rbtree.

(** trees of node addresses; [true] is black *)
Inductive tree :=
  | E
  | N (a : Z) (black : bool) (l r : tree).

#[global] Instance tree_eq_dec : EqDecision tree.
Proof. solve_decision. Defined.

Definition addr (t : tree) : Z := match t with E => 0 | N a _ _ _ => a end.
Fixpoint inorder (t : tree) : list Z :=
  match t with E => [] | N a _ l r => inorder l ++ a :: inorder r end.
Definition cz (b : bool) : Z := if b then RB_BLACK else RB_RED.

Fixpoint rep (m : gmap Z rb_node_) (t : tree) (par : Z) : Prop :=
  match t with
  | E => True
  | N a b l r => m !! a = Some (mkNode (Z.lor par (cz b)) (addr r) (addr l)) ∧ rep m l a ∧ rep m r a
  end.

(** [Lf a b s]: the hole is the left child of [a], whose right child is [s] *)
Inductive frame :=
  | Lf (a : Z) (black : bool) (s : tree)
  | Rf (a : Z) (black : bool) (s : tree).
Definition zipper := list frame.

Definition fill (f : frame) (t : tree) : tree :=
  match f with Lf a b s => N a b t s | Rf a b s => N a b s t end.
Fixpoint plug (z : zipper) (t : tree) : tree :=
  match z with [] => t | f :: z => plug z (fill f t) end.
Definition faddr (f : frame) : Z := match f with Lf a _ _ | Rf a _ _ => a end.
Definition fblack (f : frame) : bool := match f with Lf _ b _ | Rf _ b _ => b end.
Definition fsib (f : frame) : tree := match f with Lf _ _ s | Rf _ _ s => s end.
Definition zaddr (z : zipper) : Z := match z with [] => 0 | f :: _ => faddr f end.

Fixpoint repz (m : gmap Z rb_node_) (z : zipper) (hole : Z) : Prop :=
  match z with
  | [] => True
  | f :: z =>
      m !! faddr f = Some (mkNode (Z.lor (zaddr z) (cz (fblack f)))
        (match f with Lf _ _ s => addr s | Rf _ _ _ => hole end)
        (match f with Lf _ _ _ => hole | Rf _ _ s => addr s end)) ∧
      rep m (fsib f) (faddr f) ∧ repz m z (faddr f)
  end.

(** the address at the root when the hole has the address [hole] *)
Fixpoint zroot (z : zipper) (hole : Z) : Z :=
  match z with [] => hole | f :: z => zroot z (faddr f) end.

Lemma addr_plug z t : addr (plug z t) = zroot z (addr t).
Proof. revert t; induction z as [|[] z IH]; intros t; simpl; [done|by rewrite IH..]. Qed.

Lemma rep_plug m z t : rep m (plug z t) 0 ↔ repz m z (addr t) ∧ rep m t (zaddr z).
Proof.
  revert t; induction z as [|[a b s|a b s] z IH]; intros t; simpl; [tauto|..];
    rewrite IH; simpl; tauto.
Qed.

Fixpoint zaddrs (z : zipper) : list Z :=
  match z with [] => [] | f :: z => faddr f :: inorder (fsib f) ++ zaddrs z end.

Lemma inorder_plug z t : inorder (plug z t) ≡ₚ zaddrs z ++ inorder t.
Proof.
  revert t; induction z as [|[a b s|a b s] z IH]; intros t; simpl; [done|..]; rewrite IH; simpl;
    solve_Permutation.
Qed.

(** Writing outside a tree or a zipper. *)
Lemma rep_insert m t par x n : x ∉ inorder t → rep m t par → rep (<[x := n]> m) t par.
Proof.
  revert par; induction t as [|a b l IHl r IHr]; intros par; simpl; [done|].
  rewrite elem_of_app, elem_of_cons. intros Hx (E & Hl & Hr).
  split_and!; [rewrite lookup_insert_ne; [done|]; intros ->; tauto|apply IHl; tauto|apply IHr; tauto].
Qed.

Lemma repz_insert m z h x n : x ∉ zaddrs z → repz m z h → repz (<[x := n]> m) z h.
Proof.
  revert h; induction z as [|f z IH]; intros h; simpl; [done|].
  rewrite elem_of_cons, elem_of_app. intros Hx (E & Hs & Hz).
  split_and!; [rewrite lookup_insert_ne; [done|]; intros ->; tauto|apply rep_insert; tauto|apply IH; tauto].
Qed.

(** the memory when the root of [t] has got a new parent and colour *)
Definition reparent (t : tree) (par : Z) (b : bool) (m : gmap Z rb_node_) : gmap Z rb_node_ :=
  match t with
  | E => m
  | N a _ l r => <[a := mkNode (Z.lor par (cz b)) (addr r) (addr l)]> m
  end.
Definition black_root (t : tree) : Prop := match t with E => True | N _ b _ _ => b = true end.

Lemma rep_reparent m t par par' :
  NoDup (inorder t) → black_root t → rep m t par → rep (reparent t par' true m) t par'.
Proof.
  destruct t as [|a b l r]; simpl; [done|]. intros Hn -> (E & Hl & Hr).
  apply NoDup_app in Hn as (Hnl & Hd & Hnr). apply NoDup_cons in Hnr as [Ha Hnr].
  split; [by rewrite lookup_insert_eq|].
  split; apply rep_insert; try done. intros Hin. apply (Hd _ Hin). by left.
Qed.

Lemma rep_reparent_ne m t t' par par' b :
  (∀ x, x ∈ inorder t → x ∉ inorder t') → rep m t par → rep (reparent t' par' b m) t par.
Proof.
  destruct t' as [|a b' l r]; simpl; [done|]. intros Hd. apply rep_insert. intros Hin.
  apply (Hd _ Hin). rewrite elem_of_app, elem_of_cons. tauto.
Qed.
Lemma repz_reparent_ne m z h t' par' b :
  (∀ x, x ∈ inorder t' → x ∉ zaddrs z) → repz m z h → repz (reparent t' par' b m) z h.
Proof.
  destruct t' as [|a b' l r]; simpl; [done|]. intros Hd. apply repz_insert. apply Hd.
  rewrite elem_of_app, elem_of_cons. tauto.
Qed.
Lemma lookup_reparent_ne m t par b x : x ∉ inorder t → reparent t par b m !! x = m !! x.
Proof.
  destruct t as [|a b' l r]; simpl; [done|]. intros Hx. apply lookup_insert_ne. intros ->.
  apply Hx. rewrite elem_of_app, elem_of_cons. tauto.
Qed.

(** ** Words *)

(** a pointer, null or not *)
Definition ptr (a : Z) : Prop := 0 ≤ a ∧ a mod 4 = 0.

Lemma rb_color_of_lor p b : ptr p → rb_color_of (Z.lor p (cz b)) = cz b.
Proof.
  intros [_ Hp]. unfold rb_color_of. rewrite Z.land_lor_distr_l.
  assert (Z.land p 1 = 0) as ->.
  { change 1 with (Z.ones 1). rewrite Z.land_ones by done. change (2 ^ 1) with 2. zmod. }
  by destruct b.
Qed.

Lemma rb_parent_of_lor p b : ptr p → rb_parent_of (Z.lor p (cz b)) = p.
Proof.
  intros [_ Hp]. unfold rb_parent_of. rewrite Z.land_lor_distr_l.
  assert (Z.land p (Z.lnot 3) = p) as ->.
  { rewrite <-Z.ldiff_land. change 3 with (Z.ones 2). rewrite Z.ldiff_ones_r by done.
    rewrite Z.shiftl_mul_pow2, Z.shiftr_div_pow2 by done. change (2 ^ 2) with 4. zmod. }
  by destruct b; rewrite ?Z.lor_0_r.
Qed.

Lemma ptr_zaddr z h t : Forall ptr (inorder (plug z t)) → ptr h → ptr (zaddr z).
Proof.
  rewrite inorder_plug. destruct z as [|f z]; simpl; [by split|].
  rewrite Forall_cons. tauto.
Qed.

(** ** Running the accessors *)

Section runs.
Implicit Types (m : gmap Z rb_node_) (p v r : Z) (n : rb_node_).

Lemma rb_left_run m r p n : m !! p = Some n → rb_left p (mkTree m r) = Ok (rb_left_ n, mkTree m r).
Proof. intros E. unfold rb_left, node_at. by erewrite bind_Ok by (apply getopt_run; exact E). Qed.
Lemma rb_right_run m r p n : m !! p = Some n → rb_right p (mkTree m r) = Ok (rb_right_ n, mkTree m r).
Proof. intros E. unfold rb_right, node_at. by erewrite bind_Ok by (apply getopt_run; exact E). Qed.
Lemma rb_pc_run m r p n : m !! p = Some n → rb_pc p (mkTree m r) = Ok (rb_parent_color_ n, mkTree m r).
Proof. intros E. unfold rb_pc, node_at. by erewrite bind_Ok by (apply getopt_run; exact E). Qed.
Lemma set_left_run m r p n v : m !! p = Some n → set_left p v (mkTree m r) =
  Ok (tt, mkTree (<[p := mkNode (rb_parent_color_ n) (rb_right_ n) v]> m) r).
Proof. intros E. unfold set_left, set_node, node_at. by erewrite bind_Ok by (apply getopt_run; exact E). Qed.
Lemma set_right_run m r p n v : m !! p = Some n → set_right p v (mkTree m r) =
  Ok (tt, mkTree (<[p := mkNode (rb_parent_color_ n) v (rb_left_ n)]> m) r).
Proof. intros E. unfold set_right, set_node, node_at. by erewrite bind_Ok by (apply getopt_run; exact E). Qed.
Lemma set_pc_run m r p n v : m !! p = Some n → set_pc p v (mkTree m r) =
  Ok (tt, mkTree (<[p := mkNode v (rb_right_ n) (rb_left_ n)]> m) r).
Proof. intros E. unfold set_pc, set_node, node_at. by erewrite bind_Ok by (apply getopt_run; exact E). Qed.

Lemma rb_parent_run m r p q b x y : m !! p = Some (mkNode (Z.lor q (cz b)) x y) → ptr q →
  rb_parent p (mkTree m r) = Ok (q, mkTree m r).
Proof.
  intros E Hq. unfold rb_parent. rewrite (bind_Ok _ _ _ _ _ (rb_pc_run _ _ _ _ E)). simpl.
  by rewrite mret_run, rb_parent_of_lor.
Qed.
Lemma rb_is_red_run m r p q b x y : m !! p = Some (mkNode (Z.lor q (cz b)) x y) → ptr q →
  rb_is_red p (mkTree m r) = Ok (negb b, mkTree m r).
Proof.
  intros E Hq. unfold rb_is_red, rb_color. rewrite bind_assoc.
  rewrite (bind_Ok _ _ _ _ _ (rb_pc_run _ _ _ _ E)). simpl. rewrite rb_color_of_lor by done.
  by destruct b.
Qed.
Lemma rb_is_black_run m r p q b x y : m !! p = Some (mkNode (Z.lor q (cz b)) x y) → ptr q →
  rb_is_black p (mkTree m r) = Ok (b, mkTree m r).
Proof.
  intros E Hq. unfold rb_is_black, rb_color. rewrite bind_assoc.
  rewrite (bind_Ok _ _ _ _ _ (rb_pc_run _ _ _ _ E)). simpl. rewrite rb_color_of_lor by done.
  by destruct b.
Qed.
Lemma set_pc_black m r p q b x y v : m !! p = Some (mkNode (Z.lor q (cz b)) x y) →
  rb_set_parent_color p v RB_BLACK (mkTree m r) =
  Ok (tt, mkTree (<[p := mkNode (Z.lor v (cz true)) x y]> m) r).
Proof. intros E. unfold rb_set_parent_color. by rewrite (set_pc_run _ _ _ _ _ E). Qed.

Lemma set_pc_red m r p n v : m !! p = Some n →
  rb_set_parent_color p v RB_RED (mkTree m r) =
  Ok (tt, mkTree (<[p := mkNode (Z.lor v (cz false)) (rb_right_ n) (rb_left_ n)]> m) r).
Proof. intros E. unfold rb_set_parent_color. by rewrite (set_pc_run _ _ _ _ _ E). Qed.

(** [if (tmp) rb_set_parent_color(tmp, p, RB_BLACK)] on the root of a subtree *)
Lemma reparent_run m r t par v :
  rep m t par → (addr t = 0 → t = E) →
  when_ptr (addr t) (rb_set_parent_color (addr t) v RB_BLACK) (mkTree m r) =
  Ok (tt, mkTree (reparent t v true m) r).
Proof.
  destruct t as [|a b l rt]; simpl; intros R Ht; [done|].
  unfold when_ptr. destruct (Z.eqb_spec a 0) as [Ha|Ha]; [by specialize (Ht Ha)|]. simpl.
  destruct R as (E & _). by rewrite (set_pc_black _ _ _ _ _ _ _ v E).
Qed.

(** [__rb_change_child] where the hole of [z] holds [old] *)
Lemma change_child_run m r z old new :
  repz m z old → (z = [] → r = old) → old ≠ 0 → (z = [] ∨ zaddr z ≠ 0) → NoDup (zaddrs z) →
  old ∉ zaddrs z → (∀ f z', z = f :: z' → addr (fsib f) ≠ old) →
  ∃ m', rb_change_child old new (zaddr z) (mkTree m r) =
      Ok (tt, mkTree m' (match z with [] => new | _ => r end)) ∧ repz m' z new ∧
    (∀ x, z = [] ∨ x ≠ zaddr z → m' !! x = m !! x).
Proof.
  intros Rz Hr Ho Hz Hnd Hin Hs. unfold rb_change_child. destruct z as [|f z]; simpl.
  { exists m. done. }
  destruct Hz as [?|Hz]; [done|]. simpl in Hz. rewrite (proj2 (Z.eqb_neq _ _) Hz). simpl.
  destruct Rz as (E & Rs & Rz). simpl in Hnd. apply NoDup_cons in Hnd as [Hf Hnd].
  rewrite elem_of_app in Hf.
  rewrite (bind_Ok _ _ _ _ _ (rb_left_run _ _ _ _ E)). simpl.
  pose proof (Hs f z eq_refl) as Hs'. destruct f as [a b s|a b s]; simpl in *.
  - rewrite Z.eqb_refl. rewrite (set_left_run _ _ _ _ _ E). simpl. eexists. split; [done|].
    split; [|intros x [?|?]; [done|by rewrite lookup_insert_ne]].
    split_and!; [by rewrite lookup_insert_eq|apply rep_insert; tauto|apply repz_insert; tauto].
  - rewrite (proj2 (Z.eqb_neq _ _) Hs'). rewrite (set_right_run _ _ _ _ _ E). simpl.
    eexists. split; [done|]. split; [|intros x [?|?]; [done|by rewrite lookup_insert_ne]].
    split_and!; [by rewrite lookup_insert_eq|apply rep_insert; tauto|apply repz_insert; tauto].
Qed.
End runs.

(** ** A tree in memory, seen from a position in it *)

Record at_zip (m : gmap Z rb_node_) (r : Z) (z : zipper) (t : tree) : Prop := {
  az_ctx : repz m z (addr t);
  az_rep : rep m t (zaddr z);
  az_root : r = zroot z (addr t);
  az_nodup : NoDup (zaddrs z ++ inorder t);
  az_ptr : Forall (λ x, ptr x ∧ x ≠ 0) (zaddrs z ++ inorder t) }.

Lemma rep_agree m m' t par : (∀ x, x ∈ inorder t → m' !! x = m !! x) → rep m t par → rep m' t par.
Proof.
  revert par; induction t as [|a b l IHl r IHr]; intros par Hm; simpl; [done|]. intros (E & Hl & Hr).
  split_and!; [rewrite Hm; [done|set_solver]|apply IHl; [set_solver|done]|apply IHr; [set_solver|done]].
Qed.

Lemma at_zip_zaddr m r z t : at_zip m r z t → ptr (zaddr z) ∧ (z = [] ∨ zaddr z ≠ 0).
Proof.
  intros [_ _ _ _ Hp]. destruct z as [|f z]; simpl in *; [by split; [split|left]|].
  apply Forall_cons in Hp as [[??] _]. split; [done|by right].
Qed.

Lemma at_zip_sib m r z t f z' :
  at_zip m r z t → t ≠ E → z = f :: z' → addr (fsib f) ≠ addr t.
Proof.
  intros [_ _ _ Hn Hp] Ht ->. destruct t as [|a b l rt]; [done|]. simpl in *.
  destruct (fsib f) as [|a' b' l' r'] eqn:E; simpl.
  - rewrite Forall_cons, !Forall_app, Forall_cons in Hp. naive_solver.
  - simpl in Hn. intros ->.
    apply NoDup_cons in Hn as [_ Hn]. apply NoDup_app in Hn as (_ & Hd & _).
    apply (Hd a); set_solver.
Qed.

Lemma addr_E m r z t t' :
  at_zip m r z t → (∀ x, x ∈ inorder t' → x ∈ inorder t) → addr t' = 0 → t' = E.
Proof.
  intros [_ _ _ _ Hp] Hin. destruct t' as [|a b l rt]; [done|]. simpl. intros ->. exfalso.
  rewrite Forall_forall in Hp. destruct (Hp 0) as [_ ?]; [|done].
  apply elem_of_app. right. apply Hin. set_solver.
Qed.

(** [__rb_rotate_set_parents] below the position [z]. *)
Lemma rotate_run m r z old new c b ox oy nc nx ny :
  m !! old = Some (mkNode (Z.lor (zaddr z) (cz b)) ox oy) → m !! new = Some (mkNode nc nx ny) →
  old ≠ new → repz m z old → r = zroot z old → old ≠ 0 → ptr (zaddr z) → (z = [] ∨ zaddr z ≠ 0) →
  NoDup (zaddrs z) → old ∉ zaddrs z → new ∉ zaddrs z →
  (∀ f z', z = f :: z' → addr (fsib f) ≠ old) →
  ∃ m', rb_rotate_set_parents old new c (mkTree m r) = Ok (tt, mkTree m' (zroot z new)) ∧
    repz m' z new ∧ m' !! new = Some (mkNode (Z.lor (zaddr z) (cz b)) nx ny) ∧
    m' !! old = Some (mkNode (Z.lor new c) ox oy) ∧
    (∀ x, x ≠ old → x ≠ new → x ∉ zaddrs z → m' !! x = m !! x).
Proof.
  intros Eo En Hne Rz Hr Ho Hp Hz Hnd Hoz Hnz Hs. unfold rb_rotate_set_parents.
  rewrite (bind_Ok _ _ _ _ _ (rb_parent_run _ _ _ _ _ _ _ Eo Hp)).
  rewrite (bind_Ok _ _ _ _ _ (rb_pc_run _ _ _ _ Eo)). simpl.
  rewrite (bind_Ok _ _ _ _ _ (set_pc_run _ _ _ _ _ En)). simpl. unfold rb_set_parent_color.
  set (m1 := <[new := _]> m).
  assert (m1 !! old = Some (mkNode (Z.lor (zaddr z) (cz b)) ox oy)) as Eo1.
  { unfold m1. by rewrite lookup_insert_ne. }
  rewrite (bind_Ok _ _ _ _ _ (set_pc_run _ _ _ _ _ Eo1)). simpl. set (m2 := <[old := _]> m1).
  destruct (change_child_run m2 r z old new) as (m' & E & Rz' & Hm); try done.
  - by repeat apply repz_insert.
  - by intros ->.
  - assert (∀ x, x ∉ zaddrs z → m' !! x = m2 !! x) as Hm'.
    { intros x Hx. apply Hm. destruct z as [|f z]; [by left|right]. intros ->. apply Hx. by left. }
    exists m'. split; [rewrite E; do 3 f_equal; destruct z; done|]. split; [done|].
    rewrite !Hm' by done. unfold m2, m1. split; [by rewrite lookup_insert_ne, lookup_insert_eq|].
    split; [by rewrite lookup_insert_eq|]. intros x ???. rewrite Hm' by done.
    unfold m2, m1. by rewrite !lookup_insert_ne.
Qed.

(** ** Disjointness of the parts of a tree *)

Definition disj (l1 l2 : list Z) : Prop := ∀ x, x ∈ l1 → x ∉ l2.

Lemma disj_app_l l1 l2 l : disj (l1 ++ l2) l ↔ disj l1 l ∧ disj l2 l.
Proof. unfold disj. setoid_rewrite elem_of_app. naive_solver. Qed.
Lemma disj_app_r l l1 l2 : disj l (l1 ++ l2) ↔ disj l l1 ∧ disj l l2.
Proof. unfold disj. setoid_rewrite elem_of_app. naive_solver. Qed.
Lemma disj_cons_l x l1 l : disj (x :: l1) l ↔ x ∉ l ∧ disj l1 l.
Proof. unfold disj. setoid_rewrite elem_of_cons. naive_solver. Qed.
Lemma disj_cons_r x l l2 : disj l (x :: l2) ↔ x ∉ l ∧ disj l l2.
Proof. unfold disj. setoid_rewrite elem_of_cons. naive_solver. Qed.
Lemma NoDup_app_disj (l1 l2 : list Z) : NoDup (l1 ++ l2) ↔ NoDup l1 ∧ disj l1 l2 ∧ NoDup l2.
Proof. apply NoDup_app. Qed.
Lemma not_in_app (x : Z) l1 l2 : x ∉ l1 ++ l2 ↔ x ∉ l1 ∧ x ∉ l2.
Proof. rewrite elem_of_app. tauto. Qed.
Lemma not_in_cons (x y : Z) l : x ∉ y :: l ↔ x ≠ y ∧ x ∉ l.
Proof. rewrite elem_of_cons. tauto. Qed.

(** Turn [NoDup] of a list of known shape into facts about its parts. *)
Ltac nodups H :=
  simpl in H;
  repeat progress rewrite ?NoDup_app_disj, ?NoDup_cons, ?disj_app_l, ?disj_app_r, ?disj_cons_l, ?disj_cons_r, ?not_in_app, ?not_in_cons in H;
  repeat match goal with
  | H : _ ∧ _ |- _ => destruct H
  end.
(** Close a goal that two addresses differ or that one is not in a part of the tree. *)
Ltac sep := solve
  [ assumption | congruence | tauto
  | intros ->; contradiction
  | match goal with
    | H : ?x ∈ _, D : disj _ _ |- ?x ∉ _ => let Hy := fresh in
        intros Hy; first [exact (D _ H Hy) | exact (D _ Hy H)]
    end
  | let x := fresh in let H1 := fresh in let H2 := fresh in intros x H1 H2;
    match goal with D : disj _ _ |- _ => first [exact (D _ H1 H2) | exact (D _ H2 H1)] end
  | repeat split; first [assumption|congruence] ].

Lemma addr_ne t t' :
  t ≠ E → (addr t = 0 → t = E) → (∀ x, x ∈ inorder t → x ∉ inorder t') → addr t ≠ addr t'.
Proof.
  intros Hn HE Hd Heq. destruct t' as [|x b l r]; simpl in Heq; [by apply Hn, HE|].
  destruct t as [|y b' l' r']; [done|]. simpl in *. subst. apply (Hd x); set_solver.
Qed.

Lemma insert_rotate_left_outer m r z g p n c u :
  at_zip m r z (N g true (N p false n c) u) → n ≠ E → black_root c →
  ∃ m', insert_rotate_left (addr n) p g (mkTree m r) = Ok (tt, mkTree m' (zroot z p)) ∧
    at_zip m' (zroot z p) z (N p true n (N g false c u)).
Proof.
  intros Hat Hn Hc. pose proof (at_zip_zaddr _ _ _ _ Hat) as [Hzp Hz0].
  pose proof (λ f z', at_zip_sib _ _ _ _ f z' Hat ltac:(done)) as Hsib.
  pose proof (addr_E _ _ _ _ c Hat ltac:(set_solver)) as HcE.
  pose proof (addr_E _ _ _ _ n Hat ltac:(set_solver)) as HnE.
  destruct Hat as [Rz (Eg & (Ep & Rn & Rc) & Ru) Hr Hnd Hptr].
  assert (zaddrs z ++ inorder (N p true n (N g false c u)) ≡ₚ
    zaddrs z ++ inorder (N g true (N p false n c) u)) as Hperm.
  { simpl. solve_Permutation. }
  assert (NoDup (zaddrs z ++ inorder (N p true n (N g false c u)))) as Hnd' by by rewrite Hperm.
  assert (Forall (λ x, ptr x ∧ x ≠ 0) (zaddrs z ++ inorder (N p true n (N g false c u))))
    as Hptr' by by rewrite Hperm.
  assert (ptr g ∧ g ≠ 0 ∧ ptr p ∧ p ≠ 0) as (Hg & Hg0 & Hp & Hp0).
  { rewrite Forall_forall in Hptr. destruct (Hptr g), (Hptr p); try done; set_solver. }
  nodups Hnd. assert (g ≠ p) as Hgp by sep.
  assert (g ∉ inorder n ∧ g ∉ inorder c ∧ p ∉ inorder n ∧ p ∉ inorder c ∧ p ∉ inorder u) as Hnin by sep.
  assert (g ∉ zaddrs z ∧ p ∉ zaddrs z) as [Hgz Hpz] by sep.
  assert (addr n ≠ addr c) as Hnc by (apply addr_ne; [done|done|sep]).
  unfold insert_rotate_left. rewrite (bind_Ok _ _ _ _ _ (rb_right_run _ _ _ _ Ep)).
  cbn [rb_right_]. rewrite (proj2 (Z.eqb_neq _ _) Hnc). erewrite bind_Ok by apply mret_run.
  cbv beta iota. rewrite (bind_Ok _ _ _ _ _ (set_left_run _ _ _ _ _ Eg)).
  cbn [rb_parent_color_ rb_right_]. set (m1 := <[g := _]> m).
  assert (rep m1 c p) as Rc1 by (apply rep_insert; tauto).
  rewrite (bind_Ok _ _ _ _ _ (reparent_run m1 r c p g Rc1 HcE)). set (m2 := reparent c g true m1).
  assert (m2 !! p = Some (mkNode (Z.lor g (cz false)) (addr c) (addr n))) as Ep2.
  { unfold m2, m1. rewrite lookup_reparent_ne by tauto. by rewrite lookup_insert_ne. }
  rewrite (bind_Ok _ _ _ _ _ (set_right_run _ _ _ _ _ Ep2)).
  cbn [rb_parent_color_ rb_left_]. set (m3 := <[p := _]> m2).
  assert (m3 !! g = Some (mkNode (Z.lor (zaddr z) (cz true)) (addr u) (addr c))) as Eg3.
  { unfold m3, m2, m1. rewrite lookup_insert_ne by done.
    rewrite lookup_reparent_ne by tauto. by rewrite lookup_insert_eq. }
  assert (m3 !! p = Some (mkNode (Z.lor g (cz false)) g (addr n))) as Ep3.
  { unfold m3. by rewrite lookup_insert_eq. }
  assert (repz m3 z g) as Rz3.
  { apply repz_insert; [done|]. apply repz_reparent_ne; [sep|]. by apply repz_insert. }
  destruct (rotate_run m3 r z g p RB_RED true _ _ _ _ _ Eg3 Ep3) as (m4 & E4 & Rz4 & Ep4 & Eg4 & Hm4);
    try done.
  exists m4. rewrite E4. split; [done|]. split; [done| |done|done|done].
  assert (∀ x, x ≠ g → x ≠ p → x ∉ inorder c → x ∉ zaddrs z → m4 !! x = m !! x) as Hm.
  { intros x ????. rewrite Hm4 by done. unfold m3, m2, m1.
    rewrite lookup_insert_ne, lookup_reparent_ne, lookup_insert_ne by done. done. }
  cbn [rep]. split_and!; [exact Ep4| |exact Eg4| |].
  - apply (rep_agree m); [|done]. intros x Hx. apply Hm; sep.
  - apply (rep_agree m2).
    + intros x Hx. rewrite Hm4 by sep. unfold m3. rewrite lookup_insert_ne by sep. done.
    + by apply (rep_reparent m1 c p g).
  - apply (rep_agree m); [|done]. intros x Hx. apply Hm; sep.
Qed.

Lemma insert_rotate_left_inner m r z g p a n b c u :
  at_zip m r z (N g true (N p false a (N n false b c)) u) → black_root b → black_root c →
  ∃ m', insert_rotate_left n p g (mkTree m r) = Ok (tt, mkTree m' (zroot z n)) ∧
    at_zip m' (zroot z n) z (N n true (N p false a b) (N g false c u)).
Proof.
  intros Hat Hb Hc. pose proof (at_zip_zaddr _ _ _ _ Hat) as [Hzp Hz0].
  pose proof (λ f z', at_zip_sib _ _ _ _ f z' Hat ltac:(done)) as Hsib.
  pose proof (addr_E _ _ _ _ c Hat ltac:(set_solver)) as HcE.
  pose proof (addr_E _ _ _ _ b Hat ltac:(set_solver)) as HbE.
  destruct Hat as [Rz (Eg & (Ep & Ra & En & Rb & Rc) & Ru) Hr Hnd Hptr].
  assert (zaddrs z ++ inorder (N n true (N p false a b) (N g false c u)) ≡ₚ
    zaddrs z ++ inorder (N g true (N p false a (N n false b c)) u)) as Hperm.
  { simpl. solve_Permutation. }
  assert (NoDup (zaddrs z ++ inorder (N n true (N p false a b) (N g false c u)))) as Hnd'
    by by rewrite Hperm.
  assert (Forall (λ x, ptr x ∧ x ≠ 0) (zaddrs z ++ inorder (N n true (N p false a b) (N g false c u))))
    as Hptr' by by rewrite Hperm.
  assert (ptr g ∧ g ≠ 0) as (Hg & Hg0).
  { rewrite Forall_forall in Hptr. apply Hptr. set_solver. }
  nodups Hnd. assert (g ≠ p ∧ n ≠ p ∧ n ≠ g) as (Hgp & Hnp & Hng) by sep.
  assert (g ∉ inorder b ∧ g ∉ inorder c ∧ p ∉ inorder b ∧ p ∉ inorder c ∧ n ∉ inorder b ∧
    n ∉ inorder c) as Hnin by sep.
  assert (g ∉ zaddrs z ∧ p ∉ zaddrs z ∧ n ∉ zaddrs z) as (Hgz & Hpz & Hnz) by sep.
  unfold insert_rotate_left. rewrite (bind_Ok _ _ _ _ _ (rb_right_run _ _ _ _ Ep)).
  cbn [rb_right_ addr]. rewrite Z.eqb_refl. rewrite !bind_assoc.
  rewrite (bind_Ok _ _ _ _ _ (rb_left_run _ _ _ _ En)). cbn [rb_left_].
  rewrite bind_assoc, (bind_Ok _ _ _ _ _ (set_right_run _ _ _ _ _ Ep)).
  cbn [rb_parent_color_ rb_left_]. set (m1 := <[p := _]> m).
  assert (rep m1 b n) as Rb1 by (apply rep_insert; tauto).
  rewrite bind_assoc, (bind_Ok _ _ _ _ _ (reparent_run m1 r b n p Rb1 HbE)).
  set (m2 := reparent b p true m1).
  assert (m2 !! n = Some (mkNode (Z.lor p (cz false)) (addr c) (addr b))) as En2.
  { unfold m2, m1. rewrite lookup_reparent_ne by tauto. by rewrite lookup_insert_ne. }
  rewrite bind_assoc, (bind_Ok _ _ _ _ _ (set_left_run _ _ _ _ _ En2)).
  cbn [rb_parent_color_ rb_right_]. set (m3 := <[n := _]> m2).
  assert (m3 !! p = Some (mkNode (Z.lor g (cz false)) (addr b) (addr a))) as Ep3.
  { unfold m3, m2, m1. rewrite lookup_insert_ne by done. rewrite lookup_reparent_ne by tauto.
    by rewrite lookup_insert_eq. }
  rewrite bind_assoc, (bind_Ok _ _ _ _ _ (set_pc_red _ _ _ _ n Ep3)).
  cbn [rb_left_ rb_right_]. set (m4 := <[p := _]> m3).
  assert (m4 !! n = Some (mkNode (Z.lor p (cz false)) (addr c) p)) as En4.
  { unfold m4, m3. rewrite lookup_insert_ne by done. by rewrite lookup_insert_eq. }
  rewrite bind_assoc, (bind_Ok _ _ _ _ _ (rb_right_run _ _ _ _ En4)). cbn [rb_right_].
  erewrite bind_Ok by apply mret_run. cbv beta iota.
  assert (m4 !! g = Some (mkNode (Z.lor (zaddr z) (cz true)) (addr u) p)) as Eg4.
  { unfold m4, m3, m2, m1. rewrite !lookup_insert_ne by done. rewrite lookup_reparent_ne by tauto.
    by rewrite lookup_insert_ne. }
  rewrite (bind_Ok _ _ _ _ _ (set_left_run _ _ _ _ _ Eg4)).
  cbn [rb_parent_color_ rb_right_]. set (m5 := <[g := _]> m4).
  assert (rep m5 c n) as Rc5.
  { repeat (apply rep_insert; [tauto|]). apply rep_reparent_ne; [sep|].
    apply rep_insert; [tauto|done]. }
  rewrite (bind_Ok _ _ _ _ _ (reparent_run m5 r c n g Rc5 HcE)). set (m6 := reparent c g true m5).
  assert (m6 !! n = Some (mkNode (Z.lor p (cz false)) (addr c) p)) as En6.
  { unfold m6, m5. rewrite lookup_reparent_ne by tauto. by rewrite lookup_insert_ne. }
  rewrite (bind_Ok _ _ _ _ _ (set_right_run _ _ _ _ _ En6)).
  cbn [rb_parent_color_ rb_left_]. set (m7 := <[n := _]> m6).
  assert (m7 !! g = Some (mkNode (Z.lor (zaddr z) (cz true)) (addr u) (addr c))) as Eg7.
  { unfold m7, m6, m5. rewrite lookup_insert_ne by done.
    rewrite lookup_reparent_ne by tauto. by rewrite lookup_insert_eq. }
  assert (m7 !! n = Some (mkNode (Z.lor p (cz false)) g p)) as En7.
  { unfold m7. by rewrite lookup_insert_eq. }
  assert (repz m7 z g) as Rz7.
  { apply repz_insert; [done|]. apply repz_reparent_ne; [sep|]. do 3 (apply repz_insert; [done|]).
    apply repz_reparent_ne; [sep|]. by apply repz_insert. }
  destruct (rotate_run m7 r z g n RB_RED true _ _ _ _ _ Eg7 En7) as (m8 & E8 & Rz8 & En8 & Eg8 & Hm8);
    try done.
  exists m8. rewrite E8. split; [done|]. split; [done| |done|done|done].
  assert (∀ x, x ≠ g → x ≠ p → x ≠ n → x ∉ inorder b → x ∉ inorder c → x ∉ zaddrs z →
    m8 !! x = m !! x) as Hm.
  { intros x ??????. rewrite Hm8 by done. unfold m7, m6, m5, m4, m3, m2, m1.
    rewrite lookup_insert_ne, lookup_reparent_ne, !lookup_insert_ne by done.
    rewrite lookup_reparent_ne by done. by rewrite lookup_insert_ne. }
  cbn [rep]. split_and!; [exact En8| | | |exact Eg8| |].
  - rewrite Hm8 by done. unfold m7, m6, m5, m4. rewrite lookup_insert_ne by done.
    rewrite lookup_reparent_ne by tauto. rewrite lookup_insert_ne by done. by rewrite lookup_insert_eq.
  - apply (rep_agree m); [|done]. intros x Hx. apply Hm; sep.
  - apply (rep_agree m2); [|by apply (rep_reparent m1 b n p)].
    intros x Hx. rewrite Hm8 by sep. unfold m7, m6, m5, m4, m3.
    rewrite lookup_insert_ne, lookup_reparent_ne, !lookup_insert_ne by sep. done.
  - apply (rep_agree m6); [|by apply (rep_reparent m5 c n g)].
    intros x Hx. rewrite Hm8 by sep. unfold m7. by rewrite lookup_insert_ne by sep.
  - apply (rep_agree m); [|done]. intros x Hx. apply Hm; sep.
Qed.

Lemma insert_rotate_right_outer m r z g p n c u :
  at_zip m r z (N g true u (N p false c n)) → n ≠ E → black_root c →
  ∃ m', insert_rotate_right (addr n) p g (mkTree m r) = Ok (tt, mkTree m' (zroot z p)) ∧
    at_zip m' (zroot z p) z (N p true (N g false u c) n).
Proof.
  intros Hat Hn Hc. pose proof (at_zip_zaddr _ _ _ _ Hat) as [Hzp Hz0].
  pose proof (λ f z', at_zip_sib _ _ _ _ f z' Hat ltac:(done)) as Hsib.
  pose proof (addr_E _ _ _ _ c Hat ltac:(set_solver)) as HcE.
  pose proof (addr_E _ _ _ _ n Hat ltac:(set_solver)) as HnE.
  destruct Hat as [Rz (Eg & Ru & (Ep & Rc & Rn)) Hr Hnd Hptr].
  assert (zaddrs z ++ inorder (N p true (N g false u c) n) ≡ₚ
    zaddrs z ++ inorder (N g true u (N p false c n))) as Hperm.
  { simpl. solve_Permutation. }
  assert (NoDup (zaddrs z ++ inorder (N p true (N g false u c) n))) as Hnd' by by rewrite Hperm.
  assert (Forall (λ x, ptr x ∧ x ≠ 0) (zaddrs z ++ inorder (N p true (N g false u c) n)))
    as Hptr' by by rewrite Hperm.
  assert (ptr g ∧ g ≠ 0 ∧ ptr p ∧ p ≠ 0) as (Hg & Hg0 & Hp & Hp0).
  { rewrite Forall_forall in Hptr. destruct (Hptr g), (Hptr p); try done; set_solver. }
  nodups Hnd. assert (g ≠ p) as Hgp by sep.
  assert (g ∉ inorder n ∧ g ∉ inorder c ∧ p ∉ inorder n ∧ p ∉ inorder c ∧ p ∉ inorder u) as Hnin by sep.
  assert (g ∉ zaddrs z ∧ p ∉ zaddrs z) as [Hgz Hpz] by sep.
  assert (addr n ≠ addr c) as Hnc by (apply addr_ne; [done|done|sep]).
  unfold insert_rotate_right. rewrite (bind_Ok _ _ _ _ _ (rb_left_run _ _ _ _ Ep)).
  cbn [rb_left_]. rewrite (proj2 (Z.eqb_neq _ _) Hnc). erewrite bind_Ok by apply mret_run.
  cbv beta iota. rewrite (bind_Ok _ _ _ _ _ (set_right_run _ _ _ _ _ Eg)).
  cbn [rb_parent_color_ rb_left_]. set (m1 := <[g := _]> m).
  assert (rep m1 c p) as Rc1 by (apply rep_insert; tauto).
  rewrite (bind_Ok _ _ _ _ _ (reparent_run m1 r c p g Rc1 HcE)). set (m2 := reparent c g true m1).
  assert (m2 !! p = Some (mkNode (Z.lor g (cz false)) (addr n) (addr c))) as Ep2.
  { unfold m2, m1. rewrite lookup_reparent_ne by tauto. by rewrite lookup_insert_ne. }
  rewrite (bind_Ok _ _ _ _ _ (set_left_run _ _ _ _ _ Ep2)).
  cbn [rb_parent_color_ rb_right_]. set (m3 := <[p := _]> m2).
  assert (m3 !! g = Some (mkNode (Z.lor (zaddr z) (cz true)) (addr c) (addr u))) as Eg3.
  { unfold m3, m2, m1. rewrite lookup_insert_ne by done.
    rewrite lookup_reparent_ne by tauto. by rewrite lookup_insert_eq. }
  assert (m3 !! p = Some (mkNode (Z.lor g (cz false)) (addr n) g)) as Ep3.
  { unfold m3. by rewrite lookup_insert_eq. }
  assert (repz m3 z g) as Rz3.
  { apply repz_insert; [done|]. apply repz_reparent_ne; [sep|]. by apply repz_insert. }
  destruct (rotate_run m3 r z g p RB_RED true _ _ _ _ _ Eg3 Ep3) as (m4 & E4 & Rz4 & Ep4 & Eg4 & Hm4);
    try done.
  exists m4. rewrite E4. split; [done|]. split; [done| |done|done|done].
  assert (∀ x, x ≠ g → x ≠ p → x ∉ inorder c → x ∉ zaddrs z → m4 !! x = m !! x) as Hm.
  { intros x ????. rewrite Hm4 by done. unfold m3, m2, m1.
    rewrite lookup_insert_ne, lookup_reparent_ne, lookup_insert_ne by done. done. }
  cbn [rep]. split_and!; [exact Ep4|exact Eg4| | |].
  - apply (rep_agree m); [|done]. intros x Hx. apply Hm; sep.
  - apply (rep_agree m2).
    + intros x Hx. rewrite Hm4 by sep. unfold m3. rewrite lookup_insert_ne by sep. done.
    + by apply (rep_reparent m1 c p g).
  - apply (rep_agree m); [|done]. intros x Hx. apply Hm; sep.
Qed.

Lemma insert_rotate_right_inner m r z g p a n b c u :
  at_zip m r z (N g true u (N p false (N n false c b) a)) → black_root b → black_root c →
  ∃ m', insert_rotate_right n p g (mkTree m r) = Ok (tt, mkTree m' (zroot z n)) ∧
    at_zip m' (zroot z n) z (N n true (N g false u c) (N p false b a)).
Proof.
  intros Hat Hb Hc. pose proof (at_zip_zaddr _ _ _ _ Hat) as [Hzp Hz0].
  pose proof (λ f z', at_zip_sib _ _ _ _ f z' Hat ltac:(done)) as Hsib.
  pose proof (addr_E _ _ _ _ c Hat ltac:(set_solver)) as HcE.
  pose proof (addr_E _ _ _ _ b Hat ltac:(set_solver)) as HbE.
  destruct Hat as [Rz (Eg & Ru & (Ep & (En & Rc & Rb) & Ra)) Hr Hnd Hptr].
  assert (zaddrs z ++ inorder (N n true (N g false u c) (N p false b a)) ≡ₚ
    zaddrs z ++ inorder (N g true u (N p false (N n false c b) a))) as Hperm.
  { simpl. solve_Permutation. }
  assert (NoDup (zaddrs z ++ inorder (N n true (N g false u c) (N p false b a)))) as Hnd'
    by by rewrite Hperm.
  assert (Forall (λ x, ptr x ∧ x ≠ 0) (zaddrs z ++ inorder (N n true (N g false u c) (N p false b a))))
    as Hptr' by by rewrite Hperm.
  assert (ptr g ∧ g ≠ 0) as (Hg & Hg0).
  { rewrite Forall_forall in Hptr. apply Hptr. set_solver. }
  nodups Hnd. assert (g ≠ p ∧ n ≠ p ∧ n ≠ g) as (Hgp & Hnp & Hng) by sep.
  assert (g ∉ inorder b ∧ g ∉ inorder c ∧ p ∉ inorder b ∧ p ∉ inorder c ∧ n ∉ inorder b ∧
    n ∉ inorder c) as Hnin by sep.
  assert (g ∉ zaddrs z ∧ p ∉ zaddrs z ∧ n ∉ zaddrs z) as (Hgz & Hpz & Hnz) by sep.
  unfold insert_rotate_right. rewrite (bind_Ok _ _ _ _ _ (rb_left_run _ _ _ _ Ep)).
  cbn [rb_left_ addr]. rewrite Z.eqb_refl. rewrite !bind_assoc.
  rewrite (bind_Ok _ _ _ _ _ (rb_right_run _ _ _ _ En)). cbn [rb_right_].
  rewrite bind_assoc, (bind_Ok _ _ _ _ _ (set_left_run _ _ _ _ _ Ep)).
  cbn [rb_parent_color_ rb_right_]. set (m1 := <[p := _]> m).
  assert (rep m1 b n) as Rb1 by (apply rep_insert; tauto).
  rewrite bind_assoc, (bind_Ok _ _ _ _ _ (reparent_run m1 r b n p Rb1 HbE)).
  set (m2 := reparent b p true m1).
  assert (m2 !! n = Some (mkNode (Z.lor p (cz false)) (addr b) (addr c))) as En2.
  { unfold m2, m1. rewrite lookup_reparent_ne by tauto. by rewrite lookup_insert_ne. }
  rewrite bind_assoc, (bind_Ok _ _ _ _ _ (set_right_run _ _ _ _ _ En2)).
  cbn [rb_parent_color_ rb_left_]. set (m3 := <[n := _]> m2).
  assert (m3 !! p = Some (mkNode (Z.lor g (cz false)) (addr a) (addr b))) as Ep3.
  { unfold m3, m2, m1. rewrite lookup_insert_ne by done. rewrite lookup_reparent_ne by tauto.
    by rewrite lookup_insert_eq. }
  rewrite bind_assoc, (bind_Ok _ _ _ _ _ (set_pc_red _ _ _ _ n Ep3)).
  cbn [rb_right_ rb_left_]. set (m4 := <[p := _]> m3).
  assert (m4 !! n = Some (mkNode (Z.lor p (cz false)) p (addr c))) as En4.
  { unfold m4, m3. rewrite lookup_insert_ne by done. by rewrite lookup_insert_eq. }
  rewrite bind_assoc, (bind_Ok _ _ _ _ _ (rb_left_run _ _ _ _ En4)). cbn [rb_left_].
  erewrite bind_Ok by apply mret_run. cbv beta iota.
  assert (m4 !! g = Some (mkNode (Z.lor (zaddr z) (cz true)) p (addr u))) as Eg4.
  { unfold m4, m3, m2, m1. rewrite !lookup_insert_ne by done. rewrite lookup_reparent_ne by tauto.
    by rewrite lookup_insert_ne. }
  rewrite (bind_Ok _ _ _ _ _ (set_right_run _ _ _ _ _ Eg4)).
  cbn [rb_parent_color_ rb_left_]. set (m5 := <[g := _]> m4).
  assert (rep m5 c n) as Rc5.
  { repeat (apply rep_insert; [tauto|]). apply rep_reparent_ne; [sep|].
    apply rep_insert; [tauto|done]. }
  rewrite (bind_Ok _ _ _ _ _ (reparent_run m5 r c n g Rc5 HcE)). set (m6 := reparent c g true m5).
  assert (m6 !! n = Some (mkNode (Z.lor p (cz false)) p (addr c))) as En6.
  { unfold m6, m5. rewrite lookup_reparent_ne by tauto. by rewrite lookup_insert_ne. }
  rewrite (bind_Ok _ _ _ _ _ (set_left_run _ _ _ _ _ En6)).
  cbn [rb_parent_color_ rb_right_]. set (m7 := <[n := _]> m6).
  assert (m7 !! g = Some (mkNode (Z.lor (zaddr z) (cz true)) (addr c) (addr u))) as Eg7.
  { unfold m7, m6, m5. rewrite lookup_insert_ne by done.
    rewrite lookup_reparent_ne by tauto. by rewrite lookup_insert_eq. }
  assert (m7 !! n = Some (mkNode (Z.lor p (cz false)) p g)) as En7.
  { unfold m7. by rewrite lookup_insert_eq. }
  assert (repz m7 z g) as Rz7.
  { apply repz_insert; [done|]. apply repz_reparent_ne; [sep|]. do 3 (apply repz_insert; [done|]).
    apply repz_reparent_ne; [sep|]. by apply repz_insert. }
  destruct (rotate_run m7 r z g n RB_RED true _ _ _ _ _ Eg7 En7) as (m8 & E8 & Rz8 & En8 & Eg8 & Hm8);
    try done.
  exists m8. rewrite E8. split; [done|]. split; [done| |done|done|done].
  assert (∀ x, x ≠ g → x ≠ p → x ≠ n → x ∉ inorder b → x ∉ inorder c → x ∉ zaddrs z →
    m8 !! x = m !! x) as Hm.
  { intros x ??????. rewrite Hm8 by done. unfold m7, m6, m5, m4, m3, m2, m1.
    rewrite lookup_insert_ne, lookup_reparent_ne, !lookup_insert_ne by done.
    rewrite lookup_reparent_ne by done. by rewrite lookup_insert_ne. }
  cbn [rep]. split_and!; [exact En8|exact Eg8| | | | |].
  - apply (rep_agree m); [|done]. intros x Hx. apply Hm; sep.
  - apply (rep_agree m6); [|by apply (rep_reparent m5 c n g)].
    intros x Hx. rewrite Hm8 by sep. unfold m7. by rewrite lookup_insert_ne by sep.
  - rewrite Hm8 by done. unfold m7, m6, m5, m4. rewrite lookup_insert_ne by done.
    rewrite lookup_reparent_ne by tauto. rewrite lookup_insert_ne by done. by rewrite lookup_insert_eq.
  - apply (rep_agree m2); [|by apply (rep_reparent m1 b n p)].
    intros x Hx. rewrite Hm8 by sep. unfold m7, m6, m5, m4, m3.
    rewrite lookup_insert_ne, lookup_reparent_ne, !lookup_insert_ne by sep. done.
  - apply (rep_agree m); [|done]. intros x Hx. apply Hm; sep.
Qed.

(** ** Moving up and the red-black invariants *)

Lemma at_zip_fill m r f z t : at_zip m r (f :: z) t ↔ at_zip m r z (fill f t).
Proof.
  assert (zaddrs (f :: z) ++ inorder t ≡ₚ zaddrs z ++ inorder (fill f t)) as Hp.
  { destruct f; simpl; solve_Permutation. }
  split; intros [H1 H2 H3 H4 H5].
  - split; [| |destruct f; done|by rewrite <-Hp|by rewrite <-Hp]; destruct f; simpl in *; tauto.
  - rewrite <-Hp in H4, H5. split; [| |destruct f; done|done|done]; destruct f; simpl in *; tauto.
Qed.

Lemma at_zip_plug m r z t : at_zip m r z t ↔ at_zip m r [] (plug z t).
Proof.
  revert t; induction z as [|f z IH]; intros t; [done|]. rewrite at_zip_fill. by rewrite IH.
Qed.

Lemma inorder_plug_eq z t t' : inorder t = inorder t' → inorder (plug z t) = inorder (plug z t').
Proof.
  revert t t'; induction z as [|[] z IH]; intros t t' E; simpl; [done|..]; apply IH; simpl; by rewrite E.
Qed.

(** no red node has a red child, and all paths have [n] black nodes *)
Inductive rbal : tree → nat → Prop :=
  | rbal_E : rbal E 0
  | rbal_black a l r n : rbal l n → rbal r n → rbal (N a true l r) (S n)
  | rbal_red a l r n :
      rbal l n → rbal r n → black_root l → black_root r → rbal (N a false l r) n.

Definition zblack (z : zipper) : Prop := match z with [] => False | f :: _ => fblack f = true end.

(** a zipper whose hole wants a tree with [n] black nodes on its paths *)
Inductive zbal : zipper → nat → Prop :=
  | zbal_nil n : zbal [] n
  | zbal_black f z n : fblack f = true → rbal (fsib f) n → zbal z (S n) → zbal (f :: z) n
  | zbal_red f z n :
      fblack f = false → rbal (fsib f) n → black_root (fsib f) → zblack z → zbal z n → zbal (f :: z) n.

Lemma fill_black f t n : fblack f = true → rbal (fsib f) n → rbal t n → rbal (fill f t) (S n).
Proof. destruct f; simpl; intros ->; by constructor. Qed.
Lemma fill_red f t n :
  fblack f = false → rbal (fsib f) n → black_root (fsib f) → rbal t n → black_root t → rbal (fill f t) n.
Proof. destruct f; simpl; intros ->; by constructor. Qed.

Lemma plug_rbal z t n :
  zbal z n → rbal t n → black_root t ∨ zblack z → ∃ n', rbal (plug z t) n' ∧ black_root (plug z t).
Proof.
  intros Hz. revert t. induction Hz as [n|f z n Hf Hs Hz IH|f z n Hf Hs Hb Hzb Hz IH];
    intros t Ht Hor; simpl.
  - destruct Hor as [?|[]]. by exists n.
  - apply IH; [by apply fill_black|]. left. by destruct f; simpl in *.
  - apply IH; [|by right]. destruct Hor as [?|Hor]; [by apply fill_red|]. simpl in Hor. congruence.
Qed.

(** Case 1 of the insertion. *)
Lemma insert_recolor_run m r z g p x1 x2 u y1 y2 p' u' :
  at_zip m r z (N g true (N p false x1 x2) (N u false y1 y2)) → (p', u') = (p, u) ∨ (p', u') = (u, p) →
  ∃ m', insert_recolor p' g u' (mkTree m r) = Ok ((g, zaddr z), mkTree m' r) ∧
    at_zip m' r z (N g false (N p true x1 x2) (N u true y1 y2)).
Proof.
  intros Hat Hor. pose proof (at_zip_zaddr _ _ _ _ Hat) as [Hzp Hz0].
  destruct Hat as [Rz (Eg & (Ep & R1 & R2) & (Eu & R3 & R4)) Hr Hnd Hptr].
  pose proof Hnd as Hnd'. nodups Hnd.
  assert (∃ m', insert_recolor p' g u' (mkTree m r) = Ok ((g, zaddr z), mkTree m' r) ∧
    m' !! g = Some (mkNode (Z.lor (zaddr z) (cz false)) u p) ∧
    m' !! p = Some (mkNode (Z.lor g (cz true)) (addr x2) (addr x1)) ∧
    m' !! u = Some (mkNode (Z.lor g (cz true)) (addr y2) (addr y1)) ∧
    (∀ x, x ≠ g → x ≠ p → x ≠ u → m' !! x = m !! x)) as (m' & E & Eg' & Ep' & Eu' & Hm).
  { unfold insert_recolor. destruct Hor as [[= -> ->]|[= -> ->]].
    - rewrite (bind_Ok _ _ _ _ _ (set_pc_black _ _ _ _ _ _ _ g Eu)). set (m1 := <[u := _]> m).
      assert (m1 !! p = m !! p) as E1 by by apply lookup_insert_ne. rewrite Ep in E1.
      rewrite (bind_Ok _ _ _ _ _ (set_pc_black _ _ _ _ _ _ _ g E1)). set (m2 := <[p := _]> m1).
      assert (m2 !! g = m !! g) as E2 by (unfold m2, m1; by rewrite !lookup_insert_ne).
      rewrite Eg in E2. rewrite (bind_Ok _ _ _ _ _ (rb_parent_run _ _ _ _ _ _ _ E2 Hzp)).
      rewrite (bind_Ok _ _ _ _ _ (set_pc_red _ _ _ _ (zaddr z) E2)), mret_run.
      eexists. split; [done|]. cbn [rb_right_ rb_left_]. unfold m2, m1.
      split_and!; [| | |intros; by rewrite !lookup_insert_ne];
        rewrite ?lookup_insert_ne by done; by rewrite lookup_insert_eq.
    - rewrite (bind_Ok _ _ _ _ _ (set_pc_black _ _ _ _ _ _ _ g Ep)). set (m1 := <[p := _]> m).
      assert (m1 !! u = m !! u) as E1 by by apply lookup_insert_ne. rewrite Eu in E1.
      rewrite (bind_Ok _ _ _ _ _ (set_pc_black _ _ _ _ _ _ _ g E1)). set (m2 := <[u := _]> m1).
      assert (m2 !! g = m !! g) as E2 by (unfold m2, m1; by rewrite !lookup_insert_ne).
      rewrite Eg in E2. rewrite (bind_Ok _ _ _ _ _ (rb_parent_run _ _ _ _ _ _ _ E2 Hzp)).
      rewrite (bind_Ok _ _ _ _ _ (set_pc_red _ _ _ _ (zaddr z) E2)), mret_run.
      eexists. split; [done|]. cbn [rb_right_ rb_left_]. unfold m2, m1.
      split_and!; [| | |intros; by rewrite !lookup_insert_ne];
        rewrite ?lookup_insert_ne by done; by rewrite lookup_insert_eq. }
  exists m'. split; [done|]. split; [| |done|done|done].
  - assert (∀ z' h, g ∉ zaddrs z' → p ∉ zaddrs z' → u ∉ zaddrs z' → repz m z' h → repz m' z' h) as Hrz.
    { induction z' as [|f z' IH]; intros h; simpl; [done|]. rewrite !elem_of_cons, !elem_of_app.
      intros ??? (Ef & Hs & Hz'). split_and!; [rewrite Hm; [done|intros Hx; subst; tauto..]| |apply IH; tauto].
      apply (rep_agree m); [|done]. intros x Hx. apply Hm; intros ->; tauto. }
    by apply Hrz.
  - cbn [rep]. split_and!; try done; (eapply rep_agree; [|done]); intros x Hx; apply Hm; sep.
Qed.

(** a red-black tree in memory *)
Record rb_tree (s : rbtree) (t : tree) : Prop := {
  rt_at : at_zip (rmem s) (rroot s) [] t;
  rt_bal : ∃ n, rbal t n;
  rt_black : black_root t }.

Lemma rb_tree_plug m r z t n :
  at_zip m r z t → zbal z n → rbal t n → black_root t ∨ zblack z → rb_tree (mkTree m r) (plug z t).
Proof.
  intros Hat Hz Ht Hb. destruct (plug_rbal z t n Hz Ht Hb) as (n' & ? & ?).
  split; [by apply at_zip_plug in Hat|by exists n'|done].
Qed.

(** what the fix-up of a red node must end with *)
Definition fixed (z : zipper) (t : tree) (res : res (unit * rbtree)) : Prop :=
  ∃ s' t', res = Ok (tt, s') ∧ rb_tree s' t' ∧ inorder t' = inorder (plug z t).

Lemma fixed_intro z t t' m' r' n :
  at_zip m' r' z t' → zbal z n → rbal t' n → black_root t' → inorder t' = inorder t →
  fixed z t (Ok (tt, mkTree m' r')).
Proof.
  intros Hat Hz Ht Hb Hi. exists (mkTree m' r'), (plug z t'). split; [done|].
  split; [eapply rb_tree_plug; try done; by left|by apply inorder_plug_eq].
Qed.

(** equality of two nestings of the same concatenation *)
Ltac app_order := simpl; repeat (progress rewrite <-?app_assoc; simpl); reflexivity.

Section fix_step.
Context (m : gmap Z rb_node_) (r : Z) (z : zipper) (g p n : Z) (a b s u : tree) (k : nat).
Hypothesis (Hz : zbal z (S k)) (Ha : rbal a k) (Hb : rbal b k) (Hs : rbal s k) (Hu : rbal u k).
Hypothesis (Hba : black_root a) (Hbb : black_root b) (Hbs : black_root s) (Hbu : black_root u).
Local Notation node := (N n false a b).

(** the four rotations *)
Lemma rotate_ll :
  at_zip m r z (N g true (N p false node s) u) →
  fixed z (N g true (N p false node s) u) (insert_rotate_left n p g (mkTree m r)).
Proof.
  intros Hat. destruct (insert_rotate_left_outer _ _ _ _ _ _ _ _ Hat ltac:(done) Hbs) as (m' & E & Hat').
  change (addr node) with n in E. rewrite E. eapply fixed_intro; [exact Hat'|exact Hz| |done|].
  - by repeat constructor.
  - app_order.
Qed.
Lemma rotate_lr :
  at_zip m r z (N g true (N p false s node) u) →
  fixed z (N g true (N p false s node) u) (insert_rotate_left n p g (mkTree m r)).
Proof.
  intros Hat. destruct (insert_rotate_left_inner _ _ _ _ _ _ _ _ _ _ Hat Hba Hbb) as (m' & E & Hat').
  rewrite E. eapply fixed_intro; [exact Hat'|exact Hz| |done|].
  - by repeat constructor.
  - app_order.
Qed.
Lemma rotate_rr :
  at_zip m r z (N g true u (N p false s node)) →
  fixed z (N g true u (N p false s node)) (insert_rotate_right n p g (mkTree m r)).
Proof.
  intros Hat. destruct (insert_rotate_right_outer _ _ _ _ _ _ _ _ Hat ltac:(done) Hbs) as (m' & E & Hat').
  change (addr node) with n in E. rewrite E. eapply fixed_intro; [exact Hat'|exact Hz| |done|].
  - by repeat constructor.
  - app_order.
Qed.
Lemma rotate_rl :
  at_zip m r z (N g true u (N p false node s)) →
  fixed z (N g true u (N p false node s)) (insert_rotate_right n p g (mkTree m r)).
Proof.
  intros Hat. destruct (insert_rotate_right_inner _ _ _ _ _ _ _ _ _ _ Hat Hbb Hba) as (m' & E & Hat').
  rewrite E. eapply fixed_intro; [exact Hat'|exact Hz| |done|].
  - by repeat constructor.
  - app_order.
Qed.
End fix_step.

Lemma and_red_run m r t par :
  rep m t par → ptr par → (addr t = 0 → t = E) →
  and_red (addr t) (mkTree m r) = Ok (match t with N _ false _ _ => true | _ => false end, mkTree m r).
Proof.
  destruct t as [|a b l rt]; [done|]. simpl. intros (Ea & _) Hp Ha. unfold and_red.
  destruct (Z.eqb_spec a 0) as [Hz|]; [by specialize (Ha Hz)|].
  rewrite (rb_is_red_run _ _ _ _ _ _ _ Ea Hp). by destruct b.
Qed.

Lemma rbal_red_inv a l r n : rbal (N a false l r) n → rbal l n ∧ rbal r n ∧ black_root l ∧ black_root r.
Proof. inversion 1; subst; done. Qed.

Lemma insert_fix_run fuel m r z n a b k :
  at_zip m r z (N n false a b) → zbal z k → rbal a k → rbal b k → black_root a → black_root b →
  (length z < fuel)%nat →
  fixed z (N n false a b) (insert_fix_loop fuel n (zaddr z) (mkTree m r)).
Proof.
  revert m r z n a b k. induction fuel as [|fuel IH]; intros m r z n a b k Hat Hz Ha Hb Hba Hbb Hf; [lia|].
  cbn [insert_fix_loop]. pose proof (at_zip_zaddr _ _ _ _ Hat) as [Hzp Hz0].
  destruct z as [|f z].
  { simpl. destruct Hat as [_ (En & R1 & R2) Hr Hnd Hptr].
    rewrite (bind_Ok _ _ _ _ _ (set_pc_black _ _ _ _ _ _ _ 0 En)).
    apply (fixed_intro [] _ (N n true a b)
      (<[n := mkNode (Z.lor 0 (cz true)) (addr b) (addr a)]> m) n (S k));
      [|constructor|by constructor|done|done].
    simpl in Hnd. pose proof Hnd as Hnd'. nodups Hnd. split; [done| |done|done|done].
    cbn [rep]. split; [by rewrite lookup_insert_eq|]. split; by apply rep_insert. }
  destruct Hz0 as [?|Hz0]; [done|]. simpl in Hz0. change (zaddr (f :: z)) with (faddr f).
  rewrite (proj2 (Z.eqb_neq _ _) Hz0).
  pose proof Hat as [(Ep & Rs & Rz) _ _ _ Hptr].
  assert (ptr (zaddr z)) as Hzp'.
  { apply at_zip_fill in Hat. apply (at_zip_zaddr _ _ _ _ Hat). }
  rewrite (bind_Ok _ _ _ _ _ (rb_is_black_run _ _ _ _ _ _ _ Ep Hzp')).
  inversion Hz as [|? ? ? Hfb Hs Hz'|? ? ? Hfb Hs Hbs Hzb Hz']; subst; rewrite Hfb.
  { rewrite mret_run. exists (mkTree m r), (plug (f :: z) (N n false a b)). split; [done|].
    split; [|done]. eapply rb_tree_plug; try done; [by constructor|by right]. }
  destruct z as [|g z]; [done|]. simpl in Hzb.
  inversion Hz' as [|? ? ? Hgb Hu Hz''|? ? ? Hgb]; subst; [|congruence].
  unfold rb_red_parent. rewrite (bind_Ok _ _ _ _ _ (rb_pc_run _ _ _ _ Ep)).
  cbn [rb_parent_color_]. rewrite Hfb, Z.lor_0_r. change (zaddr (g :: z)) with (faddr g) in *.
  simpl in Rz. destruct Rz as (Eg & Ru & Rz).
  assert (faddr g ≠ 0 ∧ ptr (faddr g)) as [Hg0 Hgp].
  { simpl in Hptr. rewrite !Forall_cons, !Forall_app, Forall_cons in Hptr. tauto. }
  rewrite (bind_Ok _ _ _ _ _ (rb_right_run _ _ _ _ Eg)). cbn [rb_right_].
  assert (addr (fsib g) = 0 → fsib g = E) as HuE.
  { intros Hz1. destruct (fsib g) as [|x ? ? ?] eqn:Eu; [done|]. simpl in Hz1. subst x.
    exfalso. simpl in Hptr. rewrite Eu in Hptr. simpl in Hptr.
    rewrite !Forall_cons, !Forall_app, Forall_cons, !Forall_app, Forall_cons in Hptr. naive_solver. }
  pose proof (and_red_run m r (fsib g) (faddr g) Ru Hgp HuE) as Hred.
  pose proof Hat as Hat2. rewrite !at_zip_fill in Hat2.
  assert (addr (fsib g) ≠ faddr f) as Hne.
  { apply at_zip_fill in Hat. pose proof (at_zip_sib _ _ _ _ g z Hat) as Hsib.
    destruct f; simpl in *; apply Hsib; done. }
  (* the recursive call *)
  assert (∀ x1 x2 u y1 y2 p' m', at_zip m' r z (N (faddr g) false (N p' true x1 x2) (N u true y1 y2)) →
    rbal x1 k → rbal x2 k → rbal y1 k → rbal y2 k →
    inorder (N (faddr g) false (N p' true x1 x2) (N u true y1 y2)) = inorder (fill g (fill f (N n false a b))) →
    fixed (f :: g :: z) (N n false a b) (insert_fix_loop fuel (faddr g) (zaddr z) (mkTree m' r))) as Hrec.
  { intros x1 x2 u y1 y2 p' m' Hat' ???? Hi.
    destruct (IH m' r z (faddr g) (N p' true x1 x2) (N u true y1 y2) (S k) Hat' Hz'')
      as (s' & t' & E & Ht & Hi'); [by constructor|by constructor|done|done|simpl in Hf; lia|].
    exists s', t'. split; [done|]. split; [done|]. rewrite Hi'.
    by apply (inorder_plug_eq z _ (fill g (fill f (N n false a b)))). }
  destruct g as [g bg u|g bg u]; simpl in Hgb, Hu, Hne, Hred, Hat2, Eg, Hrec; subst bg;
    cbn [faddr] in *.
  - rewrite (proj2 (Z.eqb_neq (faddr f) (addr u))) by congruence. cbn [negb].
    rewrite (bind_Ok _ _ _ _ _ Hred).
    destruct u as [|u [] y1 y2]; [|..|apply rbal_red_inv in Hu as (? & ? & ? & ?)];
      destruct f as [p bp s|p bp s]; simpl in Hfb, Hs, Hbs; subst bp; cbn [faddr].
    all: try (apply (rotate_ll m r z g p n a b s _ k); done).
    all: try (apply (rotate_lr m r z g p n a b s _ k); done).
    all: destruct (insert_recolor_run _ _ _ _ _ _ _ _ _ _ p u Hat2 ltac:(by left)) as (m' & E & Hat').
    all: rewrite (bind_Ok _ _ _ _ _ E); eapply Hrec; [exact Hat'|..]; first [done|by constructor|app_order].
  - rewrite Z.eqb_refl. cbn [negb]. rewrite (bind_Ok _ _ _ _ _ (rb_left_run _ _ _ _ Eg)).
    cbn [rb_left_]. rewrite (bind_Ok _ _ _ _ _ Hred).
    destruct u as [|u [] y1 y2]; [|..|apply rbal_red_inv in Hu as (? & ? & ? & ?)];
      destruct f as [p bp s|p bp s]; simpl in Hfb, Hs, Hbs; subst bp; cbn [faddr].
    all: try (apply (rotate_rl m r z g p n a b s _ k); done).
    all: try (apply (rotate_rr m r z g p n a b s _ k); done).
    all: destruct (insert_recolor_run _ _ _ _ _ _ _ _ _ _ p u Hat2 ltac:(by right)) as (m' & E & Hat').
    all: rewrite (bind_Ok _ _ _ _ _ E); eapply Hrec; [exact Hat'|..]; first [done|by constructor|app_order].
Qed.
