(* ===== verification/RbtreeInsert.v ===== *)
(** * Red-black trees: insertion, lookup and first node

    The operations of [common/rbtree.c] against the sequence of the nodes in order. *)

From Stdlib Require Import ZArith Lia Sorted.
From S2P Require Import Prelude Words Rbtree RbtreeSpec.

(** ** Fuel and balance *)

Fixpoint depth (t : tree) : nat :=
  match t with E => O | N _ _ l r => S (depth l `max` depth r) end.

Lemma depth_inorder t : (depth t ≤ length (inorder t))%nat.
Proof. induction t; simpl; [lia|]. rewrite length_app. simpl. lia. Qed.

Lemma rep_dom m t par x : rep m t par → x ∈ inorder t → is_Some (m !! x).
Proof.
  revert par; induction t as [|a b l IHl r IHr]; intros par; simpl; [by intros _ ?%elem_of_nil|].
  intros (E & Hl & Hr) [?|[->|?]%elem_of_cons]%elem_of_app; eauto.
Qed.

Lemma rep_size m t par : rep m t par → NoDup (inorder t) → (length (inorder t) ≤ size m)%nat.
Proof.
  intros R Hnd. rewrite <-size_dom, <-(size_list_to_set (C := gset Z) _ Hnd).
  apply subseteq_size. intros x Hx%elem_of_list_to_set. apply elem_of_dom. by eapply rep_dom.
Qed.

Lemma at_zip_depth m r t : at_zip m r [] t → (depth t ≤ size m)%nat.
Proof.
  intros [_ R _ Hnd _]. pose proof (depth_inorder t). pose proof (rep_size m t _ R Hnd). lia.
Qed.

Fixpoint black_height (t : tree) : nat :=
  match t with E => O | N _ b l _ => (if b then 1 else 0) + black_height l end.

Lemma rbal_depth t n :
  rbal t n → (2 ^ n ≤ S (length (inorder t)))%nat ∧
    (depth t ≤ 2 * n + match t with N _ false _ _ => 1 | _ => 0 end)%nat.
Proof.
  induction 1 as [|a l r n Hl [IH1 IH2] Hr [IH3 IH4]|a l r n Hl [IH1 IH2] Hr [IH3 IH4] Bl Br].
  - simpl. lia.
  - cbn [inorder depth]. rewrite length_app, Nat.pow_succ_r'. cbn [length]. split; [lia|].
    assert (depth l ≤ 2 * n + 1 ∧ depth r ≤ 2 * n + 1)%nat; [|lia].
    split; [clear -IH2|clear -IH4]; repeat case_match; lia.
  - cbn [inorder depth]. rewrite length_app. cbn [length]. split; [lia|].
    assert (depth l ≤ 2 * n ∧ depth r ≤ 2 * n)%nat; [|lia].
    split; [destruct l as [|? []]|destruct r as [|? []]]; simpl in *; (done || lia).
Qed.

Lemma first_loop_run m r t par fuel :
  rep m t par → t ≠ E → Forall (λ x, x ≠ 0) (inorder t) → (depth t < fuel)%nat →
  ∃ x l, inorder t = x :: l ∧ first_loop fuel (addr t) (mkTree m r) = Ok (x, mkTree m r).
Proof.
  revert t par. induction fuel as [|fuel IH]; intros t par R Ht Hp Hf; [lia|].
  destruct t as [|a b l rt]; [done|]. cbn [first_loop addr]. destruct R as (Ea & Rl & Rr).
  rewrite (bind_Ok _ _ _ _ _ (rb_left_run _ _ _ _ Ea)). cbn [rb_left_].
  cbn [inorder depth] in *. apply Forall_app in Hp as [Hpl _].
  destruct l as [|x b' l' r'].
  - by exists a, (inorder rt).
  - cbn [addr]. destruct (IH (N x b' l' r') a Rl ltac:(done) Hpl) as (y & q & Eq & E); [lia|].
    assert (x ≠ 0) as Hx.
    { rewrite Forall_forall in Hpl. apply Hpl. simpl. set_solver. }
    rewrite (proj2 (Z.eqb_neq _ _) Hx). exists y, (q ++ a :: inorder rt). by rewrite Eq.
Qed.

(** ** Order *)

Section order.
Context (cmp : Z → Z → bool).
Hypothesis cmp_trans : ∀ x y z, cmp x y = true → cmp y z = true → cmp x z = true.

Definition ordered : list Z → Prop := StronglySorted (λ x y, cmp x y = true).

Lemma ordered_app l1 l2 :
  ordered (l1 ++ l2) ↔ ordered l1 ∧ ordered l2 ∧ ∀ x y, x ∈ l1 → y ∈ l2 → cmp x y = true.
Proof.
  induction l1 as [|a l1 IH]; simpl.
  - split; [|tauto]. intros H. split_and!; [constructor|done|by intros ? ? ?%elem_of_nil].
  - split.
    + intros H. inversion H as [|? ? H1 H2]; subst. apply IH in H1 as (? & ? & Hc).
      rewrite List.Forall_app, !Forall_forall in H2. destruct H2 as [H2 H3].
      split_and!; [constructor; [done|by apply Forall_forall]|done|].
      intros x y [->|Hx]%elem_of_cons Hy; auto.
    + intros (H1 & H2 & Hc). inversion H1 as [|? ? H3 H4]; subst. constructor.
      * apply IH. split_and!; [done|done|]. intros; apply Hc; [by right|done].
      * apply List.Forall_app. split; [done|]. apply Forall_forall. intros; apply Hc; [by left|done].
Qed.

(** nodes the comparison does not tell apart *)
Definition same (x y : Z) : Prop := cmp x y = false ∧ cmp y x = false.

(** the nodes before and after a hole *)
Fixpoint zl (z : zipper) : list Z :=
  match z with
  | [] => [] | Lf _ _ _ :: z => zl z | Rf a _ s :: z => zl z ++ inorder s ++ [a]
  end.
Fixpoint zr (z : zipper) : list Z :=
  match z with
  | [] => [] | Lf a _ s :: z => a :: inorder s ++ zr z | Rf _ _ _ :: z => zr z
  end.

Lemma inorder_zip z t : inorder (plug z t) = zl z ++ inorder t ++ zr z.
Proof.
  revert t; induction z as [|[a b s|a b s] z IH]; intros t; simpl; [by rewrite app_nil_r|..];
    rewrite IH; app_order.
Qed.

Lemma ordered_node a b l r :
  ordered (inorder (N a b l r)) →
  ordered (inorder l) ∧ ordered (inorder r) ∧ (∀ x, x ∈ inorder l → cmp x a = true) ∧
  (∀ x, x ∈ inorder r → cmp a x = true).
Proof.
  simpl. intros (H1 & H2 & H3)%ordered_app. inversion H2 as [|? ? H4 H5]; subst.
  rewrite Forall_forall in H5. split_and!; try done. intros x Hx. apply H3; [done|by left].
Qed.

(** ** Lookup and first *)

Lemma same_left node a y : cmp node a = true → cmp a y = true → ¬ same node y.
Proof. intros H1 H2 [H3 _]. rewrite (cmp_trans _ _ _ H1 H2) in H3. done. Qed.
Lemma same_right node a y : cmp a node = true → cmp y a = true → ¬ same node y.
Proof. intros H1 H2 [_ H3]. rewrite (cmp_trans _ _ _ H2 H1) in H3. done. Qed.

Lemma rb_lookup_loop_run m r t par node fuel :
  rep m t par → Forall (λ x, x ≠ 0) (inorder t) → ordered (inorder t) → (depth t < fuel)%nat →
  ∃ x, lookup_loop cmp fuel node (addr t) (mkTree m r) = Ok (x, mkTree m r) ∧
    ((x ∈ inorder t ∧ same node x) ∨ (x = 0 ∧ ∀ y, y ∈ inorder t → ¬ same node y)).
Proof.
  revert t par. induction fuel as [|fuel IH]; intros t par R Hp Ho Hf; [lia|].
  cbn [lookup_loop]. destruct t as [|a b l rt].
  { exists 0. split; [done|]. right. split; [done|]. by intros ? ?%elem_of_nil. }
  cbn [addr]. pose proof (ordered_node _ _ _ _ Ho) as (Hol & Hor & Hl & Hr).
  destruct R as (Ea & Rl & Rr). cbn [inorder] in *. rewrite Forall_app, Forall_cons in Hp.
  destruct Hp as (Hpl & Ha & Hpr). rewrite (proj2 (Z.eqb_neq _ _) Ha). cbn [depth] in Hf.
  destruct (cmp node a) eqn:E1; [|destruct (cmp a node) eqn:E2].
  - rewrite (bind_Ok _ _ _ _ _ (rb_left_run _ _ _ _ Ea)). cbn [rb_left_].
    destruct (IH l a Rl Hpl Hol) as (x & E & [[Hx Hs]|[-> Hs]]); [lia|..]; exists x || exists 0.
    + split; [done|]. left. split; [set_solver|done].
    + split; [done|]. right. split; [done|].
      intros y [Hy|[->|Hy]%elem_of_cons]%elem_of_app; [by apply Hs| |].
      * intros [H _]. congruence.
      * eapply same_left; [done|by apply Hr].
  - rewrite (bind_Ok _ _ _ _ _ (rb_right_run _ _ _ _ Ea)). cbn [rb_right_].
    destruct (IH rt a Rr Hpr Hor) as (x & E & [[Hx Hs]|[-> Hs]]); [lia|..]; exists x || exists 0.
    + split; [done|]. left. split; [set_solver|done].
    + split; [done|]. right. split; [done|].
      intros y [Hy|[->|Hy]%elem_of_cons]%elem_of_app; [|  |by apply Hs].
      * eapply same_right; [done|by apply Hl].
      * intros [_ H]. congruence.
  - exists a. split; [done|]. left. split; [set_solver|done].
Qed.

(** ** Insertion *)

(** [node] belongs into the hole of [z] *)
Record belongs (z : zipper) (node : Z) : Prop := {
  be_left : ∀ x, x ∈ zl z → cmp x node = true;
  be_right : ∀ x, x ∈ zr z → cmp node x = true }.

Lemma link_left (m : gmap Z rb_node_) r z a b rt node :
  at_zip m r z (N a b E rt) → m !! node = Some (mkNode 0 0 0) → ptr node → node ≠ 0 →
  node ∉ zaddrs z ++ inorder (N a b E rt) →
  ∃ m', (set_left a node;; set_pc node a) (mkTree m r) = Ok (tt, mkTree m' r) ∧
    at_zip m' r (Lf a b rt :: z) (N node false E E).
Proof.
  intros Hat En Hp H0 Hnin. destruct Hat as [Rz (Ea & _ & Rr) Hr Hnd Hptr].
  pose proof Hnd as Hnd'. nodups Hnd. simpl in Hnin. rewrite not_in_app, not_in_cons in Hnin.
  destruct Hnin as (Hnz & Hna & Hnr).
  rewrite (bind_Ok _ _ _ _ _ (set_left_run _ _ _ _ _ Ea)). cbn [rb_parent_color_ rb_right_].
  set (m1 := <[a := _]> m). assert (m1 !! node = Some (mkNode 0 0 0)) as En1.
  { unfold m1. by rewrite lookup_insert_ne. }
  rewrite (set_pc_run _ _ _ _ _ En1). cbn [rb_right_ rb_left_]. eexists. split; [done|].
  rewrite at_zip_fill. cbn [fill]. split.
  - simpl. apply repz_insert; [done|]. by apply repz_insert.
  - cbn [rep addr]. unfold m1. rewrite lookup_insert_ne, !lookup_insert_eq by done.
    split_and!; try done; [by rewrite Z.lor_0_r|]. by repeat apply rep_insert.
  - done.
  - assert (zaddrs z ++ inorder (N a b (N node false E E) rt) ≡ₚ
      node :: zaddrs z ++ inorder (N a b E rt)) as -> by (simpl; solve_Permutation).
    constructor; [|done]. simpl. by rewrite not_in_app, not_in_cons.
  - revert Hptr. simpl. rewrite !Forall_app, !Forall_cons. tauto.
Qed.

Lemma link_right (m : gmap Z rb_node_) r z a b l node :
  at_zip m r z (N a b l E) → m !! node = Some (mkNode 0 0 0) → ptr node → node ≠ 0 →
  node ∉ zaddrs z ++ inorder (N a b l E) →
  ∃ m', (set_right a node;; set_pc node a) (mkTree m r) = Ok (tt, mkTree m' r) ∧
    at_zip m' r (Rf a b l :: z) (N node false E E).
Proof.
  intros Hat En Hp H0 Hnin. destruct Hat as [Rz (Ea & Rl & _) Hr Hnd Hptr].
  pose proof Hnd as Hnd'. nodups Hnd. simpl in Hnin. rewrite !not_in_app, not_in_cons in Hnin.
  destruct Hnin as (Hnz & Hnl & Hna & _).
  rewrite (bind_Ok _ _ _ _ _ (set_right_run _ _ _ _ _ Ea)). cbn [rb_parent_color_ rb_left_].
  set (m1 := <[a := _]> m). assert (m1 !! node = Some (mkNode 0 0 0)) as En1.
  { unfold m1. by rewrite lookup_insert_ne. }
  rewrite (set_pc_run _ _ _ _ _ En1). cbn [rb_right_ rb_left_]. eexists. split; [done|].
  rewrite at_zip_fill. cbn [fill]. split.
  - simpl. apply repz_insert; [done|]. by apply repz_insert.
  - cbn [rep addr]. unfold m1. rewrite lookup_insert_ne, !lookup_insert_eq by done.
    split_and!; try done; [|by rewrite Z.lor_0_r]. by repeat apply rep_insert.
  - done.
  - assert (zaddrs z ++ inorder (N a b l (N node false E E)) ≡ₚ
      node :: zaddrs z ++ inorder (N a b l E)) as -> by (simpl; solve_Permutation).
    constructor; [|done]. simpl. rewrite !not_in_app, not_in_cons.
    split_and!; try done. by intros ?%elem_of_nil.
  - revert Hptr. simpl. rewrite !Forall_app, !Forall_cons. tauto.
Qed.

Lemma insert_descend_run fuel m r z t node :
  at_zip m r z t → t ≠ E → m !! node = Some (mkNode 0 0 0) → ptr node → node ≠ 0 →
  node ∉ zaddrs z ++ inorder t → ordered (inorder t) → belongs z node → (depth t < fuel)%nat →
  (∃ x, x ∈ inorder t ∧ same node x ∧
     insert_descend cmp fuel node (addr t) (mkTree m r) = Ok (false, mkTree m r)) ∨
  (∃ m' z', insert_descend cmp fuel node (addr t) (mkTree m r) = Ok (true, mkTree m' r) ∧
     at_zip m' r z' (N node false E E) ∧ z' ≠ [] ∧ plug z' E = plug z t ∧ belongs z' node).
Proof.
  revert z t. induction fuel as [|fuel IH]; intros z t Hat Ht En Hp H0 Hnin Ho Hbe Hf; [lia|].
  destruct t as [|a b l rt]; [done|]. cbn [insert_descend addr].
  pose proof Hat as [_ (Ea & _ & _) _ _ Hptr].
  assert (∀ x, x ∈ a :: inorder l ++ inorder rt → x ≠ 0) as Hne.
  { intros x Hx. rewrite Forall_forall in Hptr. apply Hptr. simpl. set_solver. }
  rewrite (proj2 (Z.eqb_neq a 0)) by (apply Hne; set_solver).
  pose proof (ordered_node _ _ _ _ Ho) as (Hol & Hor & Hl & Hr). cbn [depth] in Hf.
  destruct (cmp node a) eqn:E1; [|destruct (cmp a node) eqn:E2].
  - rewrite (bind_Ok _ _ _ _ _ (rb_left_run _ _ _ _ Ea)). cbn [rb_left_].
    assert (belongs (Lf a b rt :: z) node) as Hbe'.
    { destruct Hbe as [B1 B2]. split; [done|]. simpl.
      intros x [->|[Hx|Hx]%elem_of_app]%elem_of_cons; [done| |by apply B2]. eapply cmp_trans; eauto. }
    destruct l as [|x b' l' r'].
    + cbn [addr]. change (0 =? 0) with true. cbn [when].
      destruct (link_left m r z a b rt node Hat En Hp H0 Hnin) as (m' & E & Hat').
      rewrite (bind_Ok _ _ _ _ _ E). right. exists m', (Lf a b rt :: z). split; [|done].
      by destruct fuel; [lia|].
    + cbn [addr]. rewrite (proj2 (Z.eqb_neq x 0)) by (apply Hne; simpl; set_solver).
      erewrite bind_Ok by apply when_false_run.
      destruct (IH (Lf a b rt :: z) (N x b' l' r')) as [(y & Hy & Hs & E)|(m' & z' & E & ? & ? & ? & ?)];
        try done.
      * by rewrite at_zip_fill.
      * revert Hnin. simpl. clear. set_solver.
      * lia.
      * left. exists y. split; [simpl in *; set_solver|done].
      * right. by exists m', z'.
  - rewrite (bind_Ok _ _ _ _ _ (rb_right_run _ _ _ _ Ea)). cbn [rb_right_].
    assert (belongs (Rf a b l :: z) node) as Hbe'.
    { destruct Hbe as [B1 B2]. split; [|done]. simpl.
      intros x [Hx|[Hx| ->%list_elem_of_singleton]%elem_of_app]%elem_of_app; [by apply B1| |done].
      eapply cmp_trans; eauto. }
    destruct rt as [|x b' l' r'].
    + cbn [addr]. change (0 =? 0) with true. cbn [when].
      destruct (link_right m r z a b l node Hat En Hp H0 Hnin) as (m' & E & Hat').
      rewrite (bind_Ok _ _ _ _ _ E). right. exists m', (Rf a b l :: z). split; [|done].
      by destruct fuel; [lia|].
    + cbn [addr]. rewrite (proj2 (Z.eqb_neq x 0)) by (apply Hne; simpl; set_solver).
      erewrite bind_Ok by apply when_false_run.
      destruct (IH (Rf a b l :: z) (N x b' l' r')) as [(y & Hy & Hs & E)|(m' & z' & E & ? & ? & ? & ?)];
        try done.
      * by rewrite at_zip_fill.
      * revert Hnin. simpl. clear. set_solver.
      * lia.
      * left. exists y. split; [simpl in *; set_solver|done].
      * right. by exists m', z'.
  - left. exists a. split_and!; [set_solver|done|done].
Qed.

Lemma unplug z t n :
  rbal (plug z t) n → black_root (plug z t) → ∃ k, zbal z k ∧ rbal t k ∧ (black_root t ∨ zblack z).
Proof.
  revert t; induction z as [|f z IH]; intros t Ht Hb; simpl in *.
  { exists n. split_and!; [constructor|done|by left]. }
  destruct (IH _ Ht Hb) as (k & Hz & Hf & Hor). clear IH Ht Hb.
  destruct f as [a [] s|a [] s]; simpl in *; inversion Hf; subst.
  all: try (eexists; split; [apply zbal_black; try done|split; [done|by right]]; done).
  all: destruct Hor as [?|Hor]; [done|].
  all: exists k; split; [by apply zbal_red|split; [done|by left]].
Qed.

Lemma length_depth z t : (length z + depth t ≤ depth (plug z t))%nat.
Proof.
  revert t; induction z as [|f z IH]; intros t; simpl; [lia|]. specialize (IH (fill f t)).
  destruct f; simpl in *; lia.
Qed.

Lemma insert_reset m r p n : m !! p = Some n → ∀ A (K : M rbtree A),
  (set_left p 0;; set_right p 0;; set_pc p 0;; K) (mkTree m r) = K (mkTree (<[p := mkNode 0 0 0]> m) r).
Proof.
  intros E A K. rewrite (bind_Ok _ _ _ _ _ (set_left_run _ _ _ _ _ E)). cbn [rb_parent_color_ rb_right_].
  erewrite bind_Ok by (eapply set_right_run; apply lookup_insert_eq). cbn [rb_parent_color_ rb_left_].
  rewrite insert_insert_eq.
  erewrite bind_Ok by (eapply set_pc_run; apply lookup_insert_eq). cbn [rb_right_ rb_left_].
  by rewrite insert_insert_eq.
Qed.

Lemma rb_insert_run s t node :
  rb_tree s t → ordered (inorder t) → is_Some (rmem s !! node) → ptr node → node ≠ 0 →
  node ∉ inorder t →
  (∃ x s', x ∈ inorder t ∧ same node x ∧ rb_insert cmp node s = Ok (-1, s') ∧ rb_tree s' t) ∨
  (∃ s' t' l1 l2, rb_insert cmp node s = Ok (0, s') ∧ rb_tree s' t' ∧
     inorder t = l1 ++ l2 ∧ inorder t' = l1 ++ node :: l2 ∧ ordered (inorder t')).
Proof.
  intros [Hat (n & Hbal) Hbl] Ho [nd En] Hp H0 Hnin. destruct s as [m r]. simpl in *.
  unfold rb_insert. erewrite bind_Ok by apply gets_run. rewrite (insert_reset _ _ _ _ En).
  cbn [rroot]. set (m1 := <[node := mkNode 0 0 0]> m).
  assert (m1 !! node = Some (mkNode 0 0 0)) as En1 by apply lookup_insert_eq.
  assert (at_zip m1 r [] t) as Hat1.
  { destruct Hat as [_ R Hr Hnd Hptr]. split; try done. by apply rep_insert. }
  assert (r = addr t) as Hr by apply Hat.
  destruct (decide (t = E)) as [->|Hne].
  { right. simpl in Hr. subst r. erewrite bind_Ok by reflexivity. cbv iota.
    unfold rb_insert_fix, rb_red_parent. rewrite bind_assoc.
    rewrite (bind_Ok _ _ _ _ _ (rb_pc_run _ _ _ _ En1)). cbn [rb_parent_color_].
    erewrite bind_Ok.
    2: { unfold with_fuel. cbn [insert_fix_loop rmem]. change (0 =? 0) with true. cbv iota.
         unfold rb_set_parent_color. rewrite (bind_Ok _ _ _ _ _ (set_pc_run _ _ _ _ _ En1)). reflexivity. }
    rewrite mret_run. eexists _, (N node true E E), [], []. split; [reflexivity|]. split_and!; try done.
    - split; [|exists 1%nat; repeat constructor|done]. split; simpl; try done.
      + split; [|done]. by rewrite lookup_insert_eq.
      + apply NoDup_singleton.
      + constructor; [done|constructor].
    - repeat constructor. }
  rewrite Hr. unfold with_fuel at 1. cbn [rmem].
  destruct (insert_descend_run (S (size m1)) m1 r [] t node) as [(x & Hx & Hs & E)|(m2 & z & E & Hat2 & Hz & Hpl & Hbe)];
    try done.
  - by split; intros ? ?%elem_of_nil.
  - pose proof (at_zip_depth _ _ _ Hat1). lia.
  - left. rewrite Hr in E. erewrite bind_Ok by exact E. cbv iota. rewrite mret_run. exists x, (mkTree m1 (addr t)).
    split_and!; try done. split; [by rewrite <-Hr|by exists n|done].
  - right. rewrite Hr in E. erewrite bind_Ok by exact E. cbv iota. rewrite <-Hr.
    simpl in Hpl. rewrite <-Hpl in Hbal, Hbl, Ho.
    destruct (unplug _ _ _ Hbal Hbl) as (k & Hzb & Hk & _). inversion Hk; subst k.
    pose proof Hat2 as [_ (En2 & _) _ _ _]. pose proof (at_zip_zaddr _ _ _ _ Hat2) as [Hzp _].
    unfold rb_insert_fix, rb_red_parent. rewrite bind_assoc.
    rewrite (bind_Ok _ _ _ _ _ (rb_pc_run _ _ _ _ En2)). cbn [rb_parent_color_]. rewrite Z.lor_0_r.
    destruct (insert_fix_run (S (size m2)) m2 r z node RbtreeSpec.E RbtreeSpec.E 0 Hat2 Hzb) as (s' & t' & Ef & Ht' & Hi);
      try done; [|].
    { apply at_zip_plug in Hat2. pose proof (at_zip_depth _ _ _ Hat2).
      pose proof (length_depth z (N node false RbtreeSpec.E RbtreeSpec.E)). simpl in *. lia. }
    erewrite bind_Ok by exact Ef. rewrite mret_run.
    rewrite inorder_zip in Hi. simpl in Hi. rewrite inorder_zip in Ho. simpl in Ho.
    exists s', t', (zl z), (zr z). split_and!; try done.
    + by rewrite <-Hpl, inorder_zip.
    + rewrite Hi. apply ordered_app in Ho as (Ho1 & Ho2 & Ho3). destruct Hbe as [B1 B2].
      apply ordered_app. split_and!; [done| |].
      * constructor; [done|]. apply Forall_forall. auto.
      * intros x y Hx [->|Hy]%elem_of_cons; auto.
Qed.

(** C23: [_rb_insert] of a node that is not in the tree.  If the tree has a node equal to it under the
    comparison, -1 is returned and the tree is unchanged.  Otherwise 0 is returned and the
    node has been put at its place in the order, all other nodes keeping theirs; the pointers
    make up a tree again, no red node has a red child and all paths have the same number of
    black nodes. *)
Theorem rb_insert_correct s t node :
  rb_tree s t → ordered (inorder t) → is_Some (rmem s !! node) → ptr node → node ≠ 0 →
  node ∉ inorder t →
  (∃ x s', x ∈ inorder t ∧ same node x ∧ rb_insert cmp node s = Ok (-1, s') ∧ rb_tree s' t) ∨
  (∃ s' t' l1 l2, rb_insert cmp node s = Ok (0, s') ∧ rb_tree s' t' ∧
     inorder t = l1 ++ l2 ∧ inorder t' = l1 ++ node :: l2 ∧ ordered (inorder t')).
Proof. apply rb_insert_run. Qed.

(** [_rb_lookup] returns a node of the tree that the comparison cannot tell from the given one,
    or 0 when there is none, and changes nothing.  The loop makes at most
    2 log2(n + 1) + 1 rounds on a tree of n nodes. *)
Theorem rb_lookup_correct s t node :
  rb_tree s t → ordered (inorder t) →
  (∃ x, rb_lookup cmp node s = Ok (x, s) ∧
    ((x ∈ inorder t ∧ same node x) ∨ (x = 0 ∧ ∀ y, y ∈ inorder t → ¬ same node y))) ∧
  ∀ fuel, (2 * Nat.log2 (S (length (inorder t))) < fuel)%nat →
    ∃ x, lookup_loop cmp fuel node (rroot s) s = Ok (x, s).
Proof.
  intros [Hat (n & Hbal) Hbl] Ho. destruct s as [m r]. simpl in *.
  pose proof Hat as [_ R Hr _ Hptr]. simpl in *. subst r.
  assert (Forall (λ x, x ≠ 0) (inorder t)) as Hne by (eapply Forall_impl; [exact Hptr|]; naive_solver).
  split.
  - unfold rb_lookup. erewrite bind_Ok by apply gets_run. apply (rb_lookup_loop_run m _ t 0); try done.
    pose proof (at_zip_depth _ _ _ Hat). simpl. lia.
  - intros fuel Hf. destruct (rb_lookup_loop_run m (addr t) t 0 node fuel) as (x & E & _); try done.
    + destruct (rbal_depth t n Hbal) as [H1 H2]. apply Nat.log2_le_mono in H1.
      rewrite Nat.log2_pow2 in H1 by lia. destruct t as [|? [] ? ?]; simpl in *; (lia || done).
    + by exists x.
Qed.

End order.

(** [_rb_first] returns the first node in order, or 0 for an empty tree, and changes nothing. *)
Theorem rb_first_correct s t :
  rb_tree s t → rb_first s = Ok (match inorder t with [] => 0 | x :: _ => x end, s).
Proof.
  intros [Hat _ _]. destruct s as [m r]. pose proof Hat as [_ R Hr _ Hptr]. simpl in *. subst r.
  assert (Forall (λ x, x ≠ 0) (inorder t)) as Hne by (eapply Forall_impl; [exact Hptr|]; naive_solver).
  unfold rb_first. erewrite bind_Ok by apply gets_run. cbn [rroot].
  destruct t as [|a b l rt]; [done|].
  assert (a ≠ 0) as Ha. { rewrite Forall_forall in Hne. apply Hne. simpl. set_solver. }
  change (addr (N a b l rt)) with a. rewrite (proj2 (Z.eqb_neq _ _) Ha).
  destruct (first_loop_run m a (N a b l rt) 0 (S (size m)) R ltac:(done) Hne) as (x & q & Ei & E).
  { pose proof (at_zip_depth _ _ _ Hat). lia. }
  unfold with_fuel. cbn [rmem]. change (addr (N a b l rt)) with a in E. rewrite E, Ei. done.
Qed.

(** ** A concrete tree: node 16 with the left child 8, and a loose node 24 *)

Definition two_nodes : rbtree := mkTree
  {[8 := mkNode 16 0 0; 16 := mkNode 1 0 8; 24 := mkNode 99 1 2]} 16.
Definition two_tree : tree := N 16 true (N 8 false E E) E.

Lemma two_rb_tree : rb_tree two_nodes two_tree.
Proof.
  split; [|exists 1%nat; repeat constructor|done].
  split; simpl; [done|by split_and!|done|by_decision|].
  repeat constructor; done.
Qed.

Lemma ltb_trans x y z : (x <? y) = true → (y <? z) = true → (x <? z) = true.
Proof. rewrite !Z.ltb_lt. lia. Qed.

Lemma two_ordered : ordered Z.ltb (inorder two_tree).
Proof. repeat constructor. Qed.

Lemma rb_insert_correct_witness :
  ∃ s' t' l1 l2, rb_insert Z.ltb 24 two_nodes = Ok (0, s') ∧ rb_tree s' t' ∧
    [8; 16] = l1 ++ l2 ∧ inorder t' = l1 ++ 24 :: l2.
Proof.
  destruct (rb_insert_correct Z.ltb ltb_trans two_nodes two_tree 24 two_rb_tree two_ordered
    ltac:(by eexists) ltac:(done) ltac:(done) ltac:(by_decision))
    as [(x & s' & Hx & [H1 H2] & _)|(s' & t' & l1 & l2 & E & Ht & E1 & E2 & _)].
  - exfalso. rewrite Z.ltb_ge in H1, H2. assert (x = 24) as -> by lia. revert Hx. by_decision.
  - by exists s', t', l1, l2.
Defined.

Lemma rb_lookup_correct_witness :
  ∃ x, rb_lookup Z.ltb 8 two_nodes = Ok (x, two_nodes) ∧ x = 8.
Proof.
  destruct (proj1 (rb_lookup_correct Z.ltb ltb_trans two_nodes two_tree 8 two_rb_tree two_ordered))
    as (x & E & _).
  exists x. split; [exact E|]. vm_compute in E. by injection E.
Defined.

Lemma rb_first_correct_witness : rb_first two_nodes = Ok (8, two_nodes).
Proof. exact (rb_first_correct two_nodes two_tree two_rb_tree). Defined.
