(* ===== verification/RbtreeRotate.v ===== *)
(** * Red-black trees: the rotations of removal

    Straight-line pointer code is run by tactics that look the nodes up in a memory whose writes
    are known. *)

From Stdlib Require Import ZArith Lia Sorted.
From S2P Require Import Prelude Words Rbtree RbtreeSpec RbtreeInsert.

(** ** Automation for straight-line pointer code *)

(** Read a node in a memory of which the writes are known. *)
Ltac lk := cbn [addr]; repeat first [rewrite lookup_insert_eq | rewrite lookup_insert_ne by sep];
  first [eassumption | reflexivity].
(** a pointer read or written *)
Ltac rb1 := rewrite ?bind_assoc; first
  [ erewrite bind_Ok by (eapply rb_left_run; lk)
  | erewrite bind_Ok by (eapply rb_right_run; lk)
  | erewrite bind_Ok by (eapply set_left_run; lk)
  | erewrite bind_Ok by (eapply set_right_run; lk)
  | erewrite bind_Ok by (eapply rb_is_red_run; [lk|assumption])
  | erewrite bind_Ok by (eapply set_pc_black; lk)
  | erewrite bind_Ok by (eapply set_pc_red; lk)
  | erewrite bind_Ok by apply mret_run ];
  cbn [rb_left_ rb_right_ rb_parent_color_ addr].

(** A memory that has changed at other places only still holds a tree or a zipper. *)
Ltac keep := repeat first [eassumption | apply rep_insert; [sep|] | apply repz_insert; [sep|]].

Lemma rb_set_parent_run m r p q b x y v :
  m !! p = Some (mkNode (Z.lor q (cz b)) x y) → ptr q →
  rb_set_parent p v (mkTree m r) = Ok (tt, mkTree (<[p := mkNode (Z.lor v (cz b)) x y]> m) r).
Proof.
  intros E Hq. unfold rb_set_parent, rb_color. rewrite bind_assoc.
  rewrite (bind_Ok _ _ _ _ _ (rb_pc_run _ _ _ _ E)). cbn [rb_parent_color_].
  rewrite (bind_Ok _ _ _ _ _ (mret_run _ _)), rb_color_of_lor by done.
  rewrite (set_pc_run _ _ _ _ _ E). by rewrite Z.lor_comm.
Qed.

(** A part of a tree that [Hm] says is where it was before the rotation *)
Ltac kept Hm := first
  [ rewrite Hm by sep; lk
  | eapply rep_agree; [|eassumption]; let x := fresh "x" in let Hx := fresh "Hx" in
    intros x Hx; rewrite Hm by sep; rewrite ?lookup_insert_ne by sep; reflexivity ].

(** ** Rotations of the fix-up, the node being a left child *)

(** what every position in a tree knows *)
Ltac positions Hat :=
  let Hzp := fresh "Hzp" in let Hz0 := fresh "Hz0" in let Hsib := fresh "Hsib" in
  pose proof (at_zip_zaddr _ _ _ _ Hat) as [Hzp Hz0];
  pose proof (λ f z', at_zip_sib _ _ _ _ f z' Hat ltac:(done)) as Hsib.

Lemma erase_red_left_run m r z p t s a sl c sr :
  at_zip m r z (N p true t (N s false (N sl true a c) sr)) →
  ∃ m' r', erase_red_left p s (mkTree m r) = Ok (sl, mkTree m' r') ∧
    at_zip m' r' z (N s true (N p false t (N sl true a c)) sr).
Proof.
  intros Hat. positions Hat. destruct Hat as [Rz (Ep & Rt & Es & (El & Ra & Rc) & Rr) Hr Hnd Hptr].
  assert (zaddrs z ++ inorder (N s true (N p false t (N sl true a c)) sr) ≡ₚ
    zaddrs z ++ inorder (N p true t (N s false (N sl true a c) sr))) as Hperm.
  { simpl. solve_Permutation. }
  pose proof Hnd as Hnd'. rewrite <- Hperm in Hnd'. pose proof Hptr as Hptr'. rewrite <- Hperm in Hptr'.
  assert (ptr p ∧ p ≠ 0) as [Hp Hp0] by (rewrite Forall_forall in Hptr; apply Hptr; set_solver).
  nodups Hnd. unfold erase_red_left. rb1. cbn [negb]. do 4 rb1.
  match goal with |- context [mkTree ?m4 r] =>
    edestruct (rotate_run m4 r z p s RB_RED true) as (m5 & E5 & Rz5 & Es5 & Ep5 & Hm5) end;
    [lk|lk|sep|keep|done|done|done|done|sep|sep|sep|done|].
  rewrite (bind_Ok _ _ _ _ _ E5), mret_run. do 2 eexists. split; [done|].
  split; [done| |done|done|done].
  cbn [rep]. split_and!; [exact Es5|exact Ep5|kept Hm5..].
Qed.

(** [if (tmp) rb_set_parent(tmp, parent)] on the root of a subtree *)
Definition adopt (t : tree) (par : Z) (m : gmap Z rb_node_) : gmap Z rb_node_ :=
  match t with E => m | N a b _ _ => reparent t par b m end.

Lemma adopt_run m r t par v :
  rep m t par → ptr par → (addr t = 0 → t = E) →
  when_ptr (addr t) (rb_set_parent (addr t) v) (mkTree m r) = Ok (tt, mkTree (adopt t v m) r).
Proof.
  destruct t as [|a b l rt]; [done|]. cbn [rep addr]. intros (Ea & _) Hp Ht.
  unfold when_ptr. destruct (Z.eqb_spec a 0) as [Hz|Hz]; [by specialize (Ht Hz)|]. cbn [negb when].
  by rewrite (rb_set_parent_run _ _ _ _ _ _ _ _ Ea Hp).
Qed.

Lemma erase_outer_left_run m r z p b t s sl n bn a c :
  at_zip m r z (N p b t (N s true sl (N n bn a c))) →
  ∃ m' r', erase_outer_left p s n (mkTree m r) = Ok (tt, mkTree m' r') ∧
    at_zip m' r' z (N s b (N p true t sl) (N n true a c)).
Proof.
  intros Hat. positions Hat.
  pose proof (addr_E _ _ _ _ sl Hat ltac:(set_solver)) as HslE.
  destruct Hat as [Rz (Ep & Rt & Es & Rl & En & Ra & Rc) Hr Hnd Hptr].
  assert (zaddrs z ++ inorder (N s b (N p true t sl) (N n true a c)) ≡ₚ
    zaddrs z ++ inorder (N p b t (N s true sl (N n bn a c)))) as Hperm.
  { simpl. solve_Permutation. }
  pose proof Hnd as Hnd'. rewrite <- Hperm in Hnd'. pose proof Hptr as Hptr'. rewrite <- Hperm in Hptr'.
  assert (ptr p ∧ p ≠ 0) as [Hp Hp0] by (rewrite Forall_forall in Hptr; apply Hptr; set_solver).
  assert (ptr s ∧ s ≠ 0) as [Hs Hs0] by (rewrite Forall_forall in Hptr; apply Hptr; set_solver).
  pose proof Hnd as Hnd0. nodups Hnd. unfold erase_outer_left. do 2 rb1.
  erewrite bind_Ok by (eapply adopt_run; [keep|assumption|assumption]).
  destruct sl as [|y by_ yl yr]; nodups Hnd0; [|destruct Rl as (Ey & Ryl & Ryr)];
    cbn [adopt reparent addr]; do 2 rb1;
    (match goal with |- context [mkTree ?m4 r] =>
      edestruct (rotate_run m4 r z p s RB_BLACK b) as (m5 & E5 & Rz5 & Es5 & Ep5 & Hm5) end;
      [lk|lk|sep|keep|done|done|done|done|sep|sep|sep|done|]);
    (rewrite E5; do 2 eexists; split; [done|]; split; [done| |done|done|done]);
    cbn [rep addr]; (split_and!; [exact Es5|exact Ep5|try done; kept Hm5..]).
Qed.

Lemma erase_inner_left_run m r z p b t s n nl nr sr :
  at_zip m r z (N p b t (N s true (N n false nl nr) sr)) → black_root nr →
  ∃ m' r', ('(sibling, tmp1) ← erase_inner_left p s n; erase_outer_left p sibling tmp1) (mkTree m r) =
      Ok (tt, mkTree m' r') ∧
    at_zip m' r' z (N n b (N p true t nl) (N s true nr sr)).
Proof.
  intros Hat Hb. positions Hat.
  pose proof (addr_E _ _ _ _ nl Hat ltac:(set_solver)) as HlE.
  pose proof (addr_E _ _ _ _ nr Hat ltac:(set_solver)) as HrE.
  destruct Hat as [Rz (Ep & Rt & Es & (En & Rl & Rr) & Rs) Hr Hnd Hptr].
  assert (zaddrs z ++ inorder (N n b (N p true t nl) (N s true nr sr)) ≡ₚ
    zaddrs z ++ inorder (N p b t (N s true (N n false nl nr) sr))) as Hperm.
  { simpl. solve_Permutation. }
  pose proof Hnd as Hnd'. rewrite <- Hperm in Hnd'. pose proof Hptr as Hptr'. rewrite <- Hperm in Hptr'.
  assert (ptr p ∧ p ≠ 0) as [Hp Hp0] by (rewrite Forall_forall in Hptr; apply Hptr; set_solver).
  assert (ptr n ∧ n ≠ 0) as [Hn Hn0] by (rewrite Forall_forall in Hptr; apply Hptr; set_solver).
  pose proof Hnd as Hnd0. nodups Hnd. unfold erase_inner_left. do 2 rb1.
  rewrite ?bind_assoc. erewrite bind_Ok by (eapply reparent_run; [keep|assumption]).
  pose proof Hnd0 as Hnd1.
  destruct nr as [|y by_ yl yr]; nodups Hnd0; [|simpl in Hb; subst by_; destruct Rr as (Ey & Ryl & Ryr)];
    cbn [reparent addr]; do 3 rb1; cbv beta iota; unfold erase_outer_left; do 2 rb1;
    (rewrite ?bind_assoc; erewrite bind_Ok by (eapply adopt_run; [keep|assumption|assumption]));
    (destruct nl as [|w bw wl wr]; nodups Hnd1; [|destruct Rl as (Ew & Rwl & Rwr)];
    cbn [adopt reparent addr]; do 2 rb1;
    (match goal with |- context [mkTree ?m4 r] =>
      edestruct (rotate_run m4 r z p n RB_BLACK b) as (m5 & E5 & Rz5 & Es5 & Ep5 & Hm5) end;
      [lk|lk|sep|keep|done|done|done|done|sep|sep|sep|done|]);
    (rewrite E5; do 2 eexists; split; [done|]; split; [done| |done|done|done]);
    cbn [rep addr]; (split_and!; [exact Es5|exact Ep5|try done; kept Hm5..])).
Qed.

(** The same for a right child *)

Lemma erase_red_right_run m r z p t s a sl c sr :
  at_zip m r z (N p true (N s false sr (N sl true a c)) t) →
  ∃ m' r', erase_red_right p s (mkTree m r) = Ok (sl, mkTree m' r') ∧
    at_zip m' r' z (N s true sr (N p false (N sl true a c) t)).
Proof.
  intros Hat. positions Hat. destruct Hat as [Rz (Ep & (Es & Rr & (El & Ra & Rc)) & Rt) Hr Hnd Hptr].
  assert (zaddrs z ++ inorder (N s true sr (N p false (N sl true a c) t)) ≡ₚ
    zaddrs z ++ inorder (N p true (N s false sr (N sl true a c)) t)) as Hperm.
  { simpl. solve_Permutation. }
  pose proof Hnd as Hnd'. rewrite <- Hperm in Hnd'. pose proof Hptr as Hptr'. rewrite <- Hperm in Hptr'.
  assert (ptr p ∧ p ≠ 0) as [Hp Hp0] by (rewrite Forall_forall in Hptr; apply Hptr; set_solver).
  nodups Hnd. unfold erase_red_right. rb1. cbn [negb]. do 4 rb1.
  match goal with |- context [mkTree ?m4 r] =>
    edestruct (rotate_run m4 r z p s RB_RED true) as (m5 & E5 & Rz5 & Es5 & Ep5 & Hm5) end;
    [lk|lk|sep|keep|done|done|done|done|sep|sep|sep|done|].
  rewrite (bind_Ok _ _ _ _ _ E5), mret_run. do 2 eexists. split; [done|].
  split; [done| |done|done|done].
  cbn [rep]. split_and!; first [exact Es5 | exact Ep5 | exact I | kept Hm5].
Qed.

Lemma erase_outer_right_run m r z p b t s sl n bn a c :
  at_zip m r z (N p b (N s true (N n bn a c) sl) t) →
  ∃ m' r', erase_outer_right p s n (mkTree m r) = Ok (tt, mkTree m' r') ∧
    at_zip m' r' z (N s b (N n true a c) (N p true sl t)).
Proof.
  intros Hat. positions Hat.
  pose proof (addr_E _ _ _ _ sl Hat ltac:(set_solver)) as HslE.
  destruct Hat as [Rz (Ep & (Es & (En & Ra & Rc) & Rl) & Rt) Hr Hnd Hptr].
  assert (zaddrs z ++ inorder (N s b (N n true a c) (N p true sl t)) ≡ₚ
    zaddrs z ++ inorder (N p b (N s true (N n bn a c) sl) t)) as Hperm.
  { simpl. solve_Permutation. }
  pose proof Hnd as Hnd'. rewrite <- Hperm in Hnd'. pose proof Hptr as Hptr'. rewrite <- Hperm in Hptr'.
  assert (ptr p ∧ p ≠ 0) as [Hp Hp0] by (rewrite Forall_forall in Hptr; apply Hptr; set_solver).
  assert (ptr s ∧ s ≠ 0) as [Hs Hs0] by (rewrite Forall_forall in Hptr; apply Hptr; set_solver).
  pose proof Hnd as Hnd0. nodups Hnd. unfold erase_outer_right. do 2 rb1.
  erewrite bind_Ok by (eapply adopt_run; [keep|assumption|assumption]).
  destruct sl as [|y by_ yl yr]; nodups Hnd0; [|destruct Rl as (Ey & Ryl & Ryr)];
    cbn [adopt reparent addr]; do 2 rb1;
    (match goal with |- context [mkTree ?m4 r] =>
      edestruct (rotate_run m4 r z p s RB_BLACK b) as (m5 & E5 & Rz5 & Es5 & Ep5 & Hm5) end;
      [lk|lk|sep|keep|done|done|done|done|sep|sep|sep|done|]);
    (rewrite E5; do 2 eexists; split; [done|]; split; [done| |done|done|done]);
    cbn [rep addr]; (split_and!; first [exact Es5 | exact Ep5 | exact I | kept Hm5]).
Qed.

Lemma erase_inner_right_run m r z p b t s n nl nr sr :
  at_zip m r z (N p b (N s true sr (N n false nr nl)) t) → black_root nr →
  ∃ m' r', ('(sibling, tmp1) ← erase_inner_right p s n; erase_outer_right p sibling tmp1) (mkTree m r) =
      Ok (tt, mkTree m' r') ∧
    at_zip m' r' z (N n b (N s true sr nr) (N p true nl t)).
Proof.
  intros Hat Hb. positions Hat.
  pose proof (addr_E _ _ _ _ nl Hat ltac:(set_solver)) as HlE.
  pose proof (addr_E _ _ _ _ nr Hat ltac:(set_solver)) as HrE.
  destruct Hat as [Rz (Ep & (Es & Rs & (En & Rr & Rl)) & Rt) Hr Hnd Hptr].
  assert (zaddrs z ++ inorder (N n b (N s true sr nr) (N p true nl t)) ≡ₚ
    zaddrs z ++ inorder (N p b (N s true sr (N n false nr nl)) t)) as Hperm.
  { simpl. solve_Permutation. }
  pose proof Hnd as Hnd'. rewrite <- Hperm in Hnd'. pose proof Hptr as Hptr'. rewrite <- Hperm in Hptr'.
  assert (ptr p ∧ p ≠ 0) as [Hp Hp0] by (rewrite Forall_forall in Hptr; apply Hptr; set_solver).
  assert (ptr n ∧ n ≠ 0) as [Hn Hn0] by (rewrite Forall_forall in Hptr; apply Hptr; set_solver).
  pose proof Hnd as Hnd0. nodups Hnd. unfold erase_inner_right. do 2 rb1.
  rewrite ?bind_assoc. erewrite bind_Ok by (eapply reparent_run; [keep|assumption]).
  pose proof Hnd0 as Hnd1.
  destruct nr as [|y by_ yl yr]; nodups Hnd0; [|simpl in Hb; subst by_; destruct Rr as (Ey & Ryl & Ryr)];
    cbn [reparent addr]; do 3 rb1; cbv beta iota; unfold erase_outer_right; do 2 rb1;
    (rewrite ?bind_assoc; erewrite bind_Ok by (eapply adopt_run; [keep|assumption|assumption]));
    (destruct nl as [|w bw wl wr]; nodups Hnd1; [|destruct Rl as (Ew & Rwl & Rwr)];
    cbn [adopt reparent addr]; do 2 rb1;
    (match goal with |- context [mkTree ?m4 r] =>
      edestruct (rotate_run m4 r z p n RB_BLACK b) as (m5 & E5 & Rz5 & Es5 & Ep5 & Hm5) end;
      [lk|lk|sep|keep|done|done|done|done|sep|sep|sep|done|]);
    (rewrite E5; do 2 eexists; split; [done|]; split; [done| |done|done|done]);
    cbn [rep addr]; (split_and!; first [exact Es5 | exact Ep5 | exact I | kept Hm5])).
Qed.
