(* ===== verification/RbtreeErase.v ===== *)
(** * Red-black trees: removal

    [_rb_erase] takes one node out and keeps the order, the red-black invariants and the
    pointers. *)

From Stdlib Require Import ZArith Lia Sorted.
From S2P Require Import Prelude Words Rbtree RbtreeSpec RbtreeInsert RbtreeRotate.

(** ** Case 2 *)

Lemma erase_recolor_run m r p s q b x1 y1 x2 y2 :
  m !! p = Some (mkNode (Z.lor q (cz b)) x1 y1) → m !! s = Some (mkNode (Z.lor p (cz true)) x2 y2) →
  p ≠ s → ptr q →
  erase_recolor p s (mkTree m r) =
    Ok (if b then q else 0,
        mkTree (<[p := mkNode (Z.lor q (cz true)) x1 y1]> (<[s := mkNode (Z.lor p (cz false)) x2 y2]> m)) r).
Proof.
  intros Ep Es Hne Hq. unfold erase_recolor. rb1.
  assert (<[s := mkNode (Z.lor p (cz false)) x2 y2]> m !! p = Some (mkNode (Z.lor q (cz b)) x1 y1))
    as Ep1 by lk.
  rewrite (bind_Ok _ _ _ _ _ (rb_is_red_run _ _ _ _ _ _ _ Ep1 Hq)). destruct b; cbn [negb].
  - rewrite (rb_parent_run _ _ _ _ _ _ _ Ep1 Hq). by rewrite (insert_id _ _ _ Ep1).
  - unfold rb_set_black. rewrite bind_assoc, (bind_Ok _ _ _ _ _ (rb_pc_run _ _ _ _ Ep1)).
    cbn [rb_parent_color_]. rewrite (bind_Ok _ _ _ _ _ (set_pc_run _ _ _ _ _ Ep1)).
    rewrite mret_run. cbn [rb_left_ rb_right_]. by rewrite Z.lor_0_r.
Qed.

Lemma erase_recolor_at m r f z t s sl sr :
  at_zip m r (f :: z) t → fsib f = N s true sl sr →
  ∃ m', erase_recolor (faddr f) s (mkTree m r) =
      Ok (if fblack f then zaddr z else 0, mkTree m' r) ∧
    at_zip m' r z (fill (match f with Lf p _ _ => Lf p true | Rf p _ _ => Rf p true end
                           (N s false sl sr)) t).
Proof.
  intros Hat Ef. apply at_zip_fill in Hat. pose proof (at_zip_zaddr _ _ _ _ Hat) as [Hzp Hz0].
  destruct f as [p b s'|p b s']; simpl in Ef; subst s'; simpl fill in *;
    (destruct Hat as [Rz (Ep & R1 & R2) Hr Hnd Hptr]; simpl in Rz;
     pose proof Hnd as Hnd'; nodups Hnd').
  - destruct R2 as (Es & R3 & R4).
    eexists. split; [by eapply erase_recolor_run|].
    split; [keep| |done|done|done]. cbn [rep fill addr faddr]. split_and!; first [lk|keep].
  - destruct R1 as (Es & R3 & R4).
    eexists. split; [by eapply erase_recolor_run|].
    split; [keep| |done|done|done]. cbn [rep fill addr faddr]. split_and!; first [lk|keep].
Qed.

Definition broot (t : tree) : bool := match t with E => true | N _ b _ _ => b end.
Lemma broot_spec t : broot t = true ↔ black_root t.
Proof. by destruct t. Qed.

Lemma none_or_black_run m r t par :
  rep m t par → ptr par → (addr t = 0 → t = E) →
  none_or_black (addr t) (mkTree m r) = Ok (broot t, mkTree m r).
Proof.
  destruct t as [|a b l rt]; [done|]. cbn [rep addr broot]. intros (Ea & _) Hp Ha.
  unfold none_or_black. destruct (Z.eqb_spec a 0) as [Hz|]; [by specialize (Ha Hz)|].
  by rewrite (rb_is_black_run _ _ _ _ _ _ _ Ea Hp).
Qed.

Lemma fixed_intro' z t t' m' r' n :
  at_zip m' r' z t' → zbal z n → rbal t' n → black_root t' ∨ zblack z → inorder t' = inorder t →
  fixed z t (Ok (tt, mkTree m' r')).
Proof.
  intros Hat Hz Ht Hb Hi. exists (mkTree m' r'), (plug z t'). split; [done|].
  split; [by eapply rb_tree_plug|by apply inorder_plug_eq].
Qed.

(** what the zipper above wants of the tree that replaces [N p b ..] *)
Lemma zbal_inv f z k :
  zbal (f :: z) (S k) →
  rbal (fsib f) (S k) ∧ (if fblack f then zbal z (S (S k)) else zbal z (S k) ∧ zblack z ∧ black_root (fsib f)).
Proof. inversion 1 as [|? ? ? E|? ? ? E]; subst; rewrite E; done. Qed.

(** ** One round of the fix-up, the sibling being black *)

Section round.
Context (fuel : nat) (m : gmap Z rb_node_) (r : Z) (z : zipper) (p : Z) (b : bool) (t : tree).
Context (s : Z) (sl sr : tree) (k : nat).
Hypothesis (Ht : rbal t k) (Htb : black_root t) (Hl : rbal sl k) (Hr : rbal sr k).
Hypothesis Hz : if b then zbal z (S (S k)) else zbal z (S k) ∧ zblack z.
Definition round_left (sibling : Z) : M rbtree unit :=
  tmp1 ← rb_right sibling;
  black1 ← none_or_black tmp1;
  tmp2 ← rb_left sibling;
  black2 ← (if (black1 : bool) then none_or_black tmp2 else mret false);
  if (black2 : bool) then
    next ← erase_recolor p sibling;
    if next =? 0 then mret tt else erase_fix_loop fuel p next
  else
    '(sibling, tmp1) ←
      (if (black1 : bool) then erase_inner_left p sibling tmp2 else mret (sibling, tmp1));
    erase_outer_left p sibling tmp1.
Definition round_right (sibling : Z) : M rbtree unit :=
  tmp1 ← rb_left sibling;
  black1 ← none_or_black tmp1;
  tmp2 ← rb_right sibling;
  black2 ← (if (black1 : bool) then none_or_black tmp2 else mret false);
  if (black2 : bool) then
    next ← erase_recolor p sibling;
    if next =? 0 then mret tt else erase_fix_loop fuel p next
  else
    '(sibling, tmp1) ←
      (if (black1 : bool) then erase_inner_right p sibling tmp2 else mret (sibling, tmp1));
    erase_outer_right p sibling tmp1.

(** the balance of a tree that replaces the one at the hole of [z] *)
Lemma round_balance x l rt :
  rbal l (S k) → rbal rt (S k) → black_root l → black_root rt →
  ∃ n, zbal z n ∧ rbal (N x b l rt) n ∧ (black_root (N x b l rt) ∨ zblack z).
Proof using Hz.
  intros. destruct b; [exists (S (S k))|exists (S k); destruct Hz].
  - split; [done|]. split; [by constructor|by left].
  - split; [done|]. split; [by constructor|by right].
Qed.

(** going on one level up *)
Hypothesis Hrec : ∀ m' t', b = true → z ≠ [] → addr t' = p → rbal t' (S k) → black_root t' →
  at_zip m' r z t' → fixed z t' (erase_fix_loop fuel p (zaddr z) (mkTree m' r)).

(** case 2, on either side *)
Lemma round_recolor f m0 s1 s2 :
  at_zip m0 r (f :: z) t → faddr f = p → fblack f = b → fsib f = N s true s1 s2 →
  rbal s1 k → rbal s2 k → black_root s1 → black_root s2 →
  fixed z (fill f t)
    ((next ← erase_recolor p s; if next =? 0 then mret tt else erase_fix_loop fuel p next) (mkTree m0 r)).
Proof using Ht Htb Hz Hrec.
  intros Hat Ep Eb Es Hs1 Hs2 Hsl Hsr. destruct (erase_recolor_at _ _ _ _ _ _ _ _ Hat Es) as (m' & E & Hat').
  rewrite Ep, Eb in E. rewrite (bind_Ok _ _ _ _ _ E).
  set (t' := fill _ t) in Hat'.
  assert (rbal t' (S k) ∧ black_root t' ∧ addr t' = p ∧ inorder t' = inorder (fill f t)) as (Hb' & Hbr & Ha & Hi).
  { unfold t'. destruct f; simpl in *; subst; split_and!; try done; repeat constructor; done. }
  pose proof (at_zip_zaddr _ _ _ _ Hat') as [_ Hz0].
  assert (zaddr z = 0 → z = []) as Hnil by (destruct Hz0; [done|congruence]).
  destruct b eqn:Eb'; cbv beta iota; [destruct (Z.eqb_spec (zaddr z) 0) as [E0|E0]|].
  - rewrite (Hnil E0) in *. rewrite mret_run. eapply (fixed_intro' _ _ t'); [done|constructor|done|by left|done].
  - destruct (Hrec m' t') as (s' & t'' & E' & Hrb & Hin); try done.
    { intros ->. done. }
    exists s', t''. split; [done|]. split; [done|]. rewrite Hin. by apply inorder_plug_eq.
  - change (0 =? 0) with true. cbv iota. rewrite mret_run. destruct Hz. eapply (fixed_intro' _ _ t'); [done|done|done|by left|done].
Qed.

Lemma round_left_run :
  at_zip m r z (N p b t (N s true sl sr)) →
  fixed z (N p b t (N s true sl sr)) (round_left s (mkTree m r)).
Proof using Ht Htb Hl Hr Hz Hrec.
  intros Hat. pose proof (addr_E _ _ _ _ sl Hat ltac:(set_solver)) as HlE.
  pose proof (addr_E _ _ _ _ sr Hat ltac:(set_solver)) as HrE.
  pose proof Hat as [_ (_ & _ & Es & Rl & Rr) _ _ Hptr].
  assert (ptr s) as Hs by (rewrite Forall_forall in Hptr; apply Hptr; set_solver).
  unfold round_left. rb1. rewrite (bind_Ok _ _ _ _ _ (none_or_black_run _ _ _ _ Rr Hs HrE)). rb1.
  destruct (broot sr) eqn:Ebr.
  - apply broot_spec in Ebr. rewrite (bind_Ok _ _ _ _ _ (none_or_black_run _ _ _ _ Rl Hs HlE)).
    destruct (broot sl) eqn:Ebl.
    + apply broot_spec in Ebl. by apply (round_recolor (Lf p b (N s true sl sr)) m sl sr); [apply at_zip_fill|..].
    + destruct sl as [|n [] nl nr]; [done|done|]. apply rbal_red_inv in Hl as (Hnl & Hnr & Hnlb & Hnrb).
      destruct (erase_inner_left_run _ _ _ _ _ _ _ _ _ _ _ Hat Hnrb) as (m' & r' & E & Hat').
      cbn [addr]. rewrite E.
      destruct (round_balance n (N p true t nl) (N s true nr sr)) as (i & Hzi & Hbi & Hbr);
        [by constructor..|].
      eapply fixed_intro'; [exact Hat'|exact Hzi|exact Hbi|exact Hbr|app_order].
  - rewrite (bind_Ok _ _ _ _ _ (mret_run _ _)). cbv iota. rewrite (bind_Ok _ _ _ _ _ (mret_run _ _)). cbv iota.
    destruct sr as [|n [] nl nr]; [done|done|]. apply rbal_red_inv in Hr as (Hnl & Hnr & Hnlb & Hnrb).
    destruct (erase_outer_left_run _ _ _ _ _ _ _ _ _ _ _ _ Hat) as (m' & r' & E & Hat').
    cbn [addr]. rewrite E.
    destruct (round_balance s (N p true t sl) (N n true nl nr)) as (i & Hzi & Hbi & Hbr);
      [by constructor..|].
    eapply fixed_intro'; [exact Hat'|exact Hzi|exact Hbi|exact Hbr|app_order].
Qed.

Lemma round_right_run :
  at_zip m r z (N p b (N s true sr sl) t) →
  fixed z (N p b (N s true sr sl) t) (round_right s (mkTree m r)).
Proof using Ht Htb Hl Hr Hz Hrec.
  intros Hat. pose proof (addr_E _ _ _ _ sl Hat ltac:(set_solver)) as HlE.
  pose proof (addr_E _ _ _ _ sr Hat ltac:(set_solver)) as HrE.
  pose proof Hat as [_ (_ & (Es & Rr & Rl) & _) _ _ Hptr].
  assert (ptr s) as Hs by (rewrite Forall_forall in Hptr; apply Hptr; set_solver).
  unfold round_right. rb1. rewrite (bind_Ok _ _ _ _ _ (none_or_black_run _ _ _ _ Rr Hs HrE)). rb1.
  destruct (broot sr) eqn:Ebr.
  - apply broot_spec in Ebr. rewrite (bind_Ok _ _ _ _ _ (none_or_black_run _ _ _ _ Rl Hs HlE)).
    destruct (broot sl) eqn:Ebl.
    + apply broot_spec in Ebl. by apply (round_recolor (Rf p b (N s true sr sl)) m sr sl); [apply at_zip_fill|..].
    + destruct sl as [|n [] nr nl]; [done|done|]. apply rbal_red_inv in Hl as (Hnr & Hnl & Hnrb & Hnlb).
      destruct (erase_inner_right_run _ _ _ _ _ _ _ _ _ _ _ Hat Hnrb) as (m' & r' & E & Hat').
      cbn [addr]. rewrite E.
      destruct (round_balance n (N s true sr nr) (N p true nl t)) as (i & Hzi & Hbi & Hbr);
        [by constructor..|].
      eapply fixed_intro'; [exact Hat'|exact Hzi|exact Hbi|exact Hbr|app_order].
  - rewrite (bind_Ok _ _ _ _ _ (mret_run _ _)). cbv iota. rewrite (bind_Ok _ _ _ _ _ (mret_run _ _)). cbv iota.
    destruct sr as [|n [] nl nr]; [done|done|]. apply rbal_red_inv in Hr as (Hnl & Hnr & Hnlb & Hnrb).
    destruct (erase_outer_right_run _ _ _ _ _ _ _ _ _ _ _ _ Hat) as (m' & r' & E & Hat').
    cbn [addr]. rewrite E.
    destruct (round_balance s (N n true nl nr) (N p true sl t)) as (i & Hzi & Hbi & Hbr);
      [by constructor..|].
    eapply fixed_intro'; [exact Hat'|exact Hzi|exact Hbi|exact Hbr|app_order].
Qed.
End round.

(** ** The fix-up *)

Lemma rbal_S_inv t n : rbal t (S n) → t ≠ E.
Proof. intros H ->. inversion H. Qed.

Lemma fixed_fill f f' z t t' res :
  inorder (fill f' t') = inorder (fill f t) → fixed (f' :: z) t' res → fixed (f :: z) t res.
Proof.
  intros Hi (s' & t'' & E & Hrb & Hin). exists s', t''. split; [done|]. split; [done|].
  rewrite Hin. simpl. by apply inorder_plug_eq.
Qed.

Lemma erase_red_black_left m r p s q x y :
  m !! s = Some (mkNode (Z.lor q (cz true)) x y) → ptr q →
  erase_red_left p s (mkTree m r) = Ok (s, mkTree m r) ∧
  erase_red_right p s (mkTree m r) = Ok (s, mkTree m r).
Proof.
  intros Es Hq. unfold erase_red_left, erase_red_right. by rewrite !(bind_Ok _ _ _ _ _ (rb_is_red_run _ _ _ _ _ _ _ Es Hq)).
Qed.

Lemma erase_fix_run fuel : ∀ m r f z t k,
  at_zip m r (f :: z) t → rbal t k → black_root t → zbal (f :: z) (S k) → (length z < fuel)%nat →
  fixed (f :: z) t (erase_fix_loop fuel (addr t) (faddr f) (mkTree m r)).
Proof.
  induction fuel as [|fuel IH]; intros m r f z t k Hat Ht Htb Hz Hf; [lia|].
  apply zbal_inv in Hz as [Hs Hz]. pose proof Hat as Hat1. apply at_zip_fill in Hat1.
  assert (∀ m' r' t', fblack f = true → z ≠ [] → addr t' = faddr f → rbal t' (S k) → black_root t' →
    at_zip m' r' z t' → fixed z t' (erase_fix_loop fuel (faddr f) (zaddr z) (mkTree m' r'))) as Hrec.
  { intros m' r' t' Hb Hz0 <- Ht' Htb' Hat'. rewrite Hb in Hz. destruct z as [|f' z]; [done|].
    eapply IH; [done|exact Ht'|done|exact Hz|simpl in Hf; lia]. }
  assert (ptr (faddr f) ∧ faddr f ≠ 0) as [Hp Hp0].
  { destruct Hat as [_ _ _ _ Hptr]. simpl in Hptr. by apply Forall_cons in Hptr as [? _]. }
  assert (addr t ≠ addr (fsib f)) as Hne.
  { destruct (decide (t = E)) as [->|HtE].
    - intros E0. apply (rbal_S_inv _ _ Hs). symmetry in E0. simpl in E0.
      destruct (fsib f) as [|x bx lx rx] eqn:Ef; [done|]. simpl in E0. subst x. exfalso.
      destruct Hat as [_ _ _ _ Hptr]. simpl in Hptr. rewrite Ef in Hptr. simpl in Hptr.
      rewrite !Forall_cons, !Forall_app, Forall_cons in Hptr. naive_solver.
    - intros E0. by apply (at_zip_sib _ _ _ _ f z Hat HtE eq_refl). }
  pose proof Hat as [Rz0 _ _ _ _]. simpl in Rz0. destruct Rz0 as (Ep & Rs & _).
  destruct (fsib f) as [|s bs sl sr] eqn:Ef; [by apply rbal_S_inv in Hs|].
  cbn [addr] in Hne.
  cbn [erase_fix_loop]. destruct f as [p b s0|p b s0]; simpl in Ef, Ep, Hp, Hp0, Hz, Hat1, Hrec; subst s0;
    cbn [faddr]; rb1.
  - rewrite (proj2 (Z.eqb_neq _ _) Hne). cbn [negb].
    destruct bs.
    + destruct Rs as (Es & _ & _). rewrite (bind_Ok _ _ _ _ _ (proj1 (erase_red_black_left m r p s _ _ _ Es Hp))).
      inversion Hs; subst. apply (round_left_run fuel m r z p b t s sl sr k); try done.
      * by destruct b; [|destruct_and!].
      * intros m' t' Hb. by apply Hrec.
    + destruct b; [|by destruct Hz as (_ & _ & ?)].
      apply rbal_red_inv in Hs as (Hsl & Hsr & Hslb & Hsrb).
      destruct sl as [|a [] a1 a2]; [by apply rbal_S_inv in Hsl| |done]. inversion Hsl; subst.
      destruct (erase_red_left_run _ _ _ _ _ _ _ _ _ _ Hat1) as (m' & r' & E & Hat').
      rewrite (bind_Ok _ _ _ _ _ E).
      apply (fixed_fill _ (Lf s true sr) z _ (N p false t (N a true a1 a2))); [app_order|].
      apply (round_left_run fuel m' r' (Lf s true sr :: z) p false t a a1 a2 k); try done.
      * split; [by constructor|done].
      * by apply at_zip_fill.
  - rewrite Z.eqb_refl. cbn [negb]. rb1.
    destruct bs.
    + destruct Rs as (Es & _ & _). rewrite (bind_Ok _ _ _ _ _ (proj2 (erase_red_black_left m r p s _ _ _ Es Hp))).
      inversion Hs; subst. apply (round_right_run fuel m r z p b t s sr sl k); try done.
      * by destruct b; [|destruct_and!].
      * intros m' t' Hb. by apply Hrec.
    + destruct b; [|by destruct Hz as (_ & _ & ?)].
      apply rbal_red_inv in Hs as (Hsl & Hsr & Hslb & Hsrb).
      destruct sr as [|a [] a1 a2]; [by apply rbal_S_inv in Hsr| |done]. inversion Hsr; subst.
      destruct (erase_red_right_run _ _ _ _ _ _ _ _ _ _ Hat1) as (m' & r' & E & Hat').
      rewrite (bind_Ok _ _ _ _ _ E).
      apply (fixed_fill _ (Rf s true sl) z _ (N p false (N a true a1 a2) t)); [app_order|].
      apply (round_right_run fuel m' r' (Rf s true sl :: z) p false t a a2 a1 k); try done.
      * split; [by constructor|done].
      * by apply at_zip_fill.
Qed.

(** ** Parts of a zipper *)

(** the frames [zs] in memory, under the node [top] *)
Fixpoint repp (m : gmap Z rb_node_) (zs : zipper) (hole top : Z) : Prop :=
  match zs with
  | [] => True
  | f :: zs =>
      m !! faddr f = Some (mkNode (Z.lor (match zs with [] => top | g :: _ => faddr g end) (cz (fblack f)))
        (match f with Lf _ _ s => addr s | Rf _ _ _ => hole end)
        (match f with Lf _ _ _ => hole | Rf _ _ s => addr s end)) ∧
      rep m (fsib f) (faddr f) ∧ repp m zs (faddr f) top
  end.

Lemma zaddr_app zs f z : zaddr (zs ++ f :: z) = match zs with [] => faddr f | g :: _ => faddr g end.
Proof. by destruct zs. Qed.

Lemma repz_app m zs f z h :
  repz m (zs ++ f :: z) h ↔ repp m zs h (faddr f) ∧ repz m (f :: z) (zroot zs h).
Proof.
  revert h. induction zs as [|g zs IH]; intros h; [simpl; tauto|].
  cbn [app repz repp zroot]. rewrite IH, zaddr_app. destruct zs; simpl; tauto.
Qed.

Lemma zroot_app zs z h : zroot (zs ++ z) h = zroot z (zroot zs h).
Proof. revert h. induction zs as [|g zs IH]; intros h; simpl; [done|apply IH]. Qed.
Lemma plug_app zs z t : plug (zs ++ z) t = plug z (plug zs t).
Proof. revert t. induction zs as [|g zs IH]; intros t; simpl; [done|apply IH]. Qed.
Lemma zaddrs_app zs z : zaddrs (zs ++ z) = zaddrs zs ++ zaddrs z.
Proof. induction zs as [|g zs IH]; simpl; [done|]. by rewrite IH, <- app_assoc. Qed.

Lemma repp_insert m zs h top x n : x ∉ zaddrs zs → repp m zs h top → repp (<[x := n]> m) zs h top.
Proof.
  revert h; induction zs as [|f z IH]; intros h; cbn [repp zaddrs]; [done|].
  rewrite elem_of_cons, elem_of_app. intros Hx (E & Hs & Hz).
  split_and!; [rewrite lookup_insert_ne; [done|]; intros ->; tauto|apply rep_insert; tauto|apply IH; tauto].
Qed.

(** A new subtree in the hole of a left frame. *)
Lemma repp_hole m q b s zs h h' top n :
  repp m (Lf q b s :: zs) h top → q ∉ inorder s → q ∉ zaddrs zs → m !! q = Some n →
  repp (<[q := mkNode (rb_parent_color_ n) (rb_right_ n) h']> m) (Lf q b s :: zs) h' top.
Proof.
  cbn [repp faddr fblack fsib]. intros (E & Hs & Hz) Hqs Hqz Eq. simplify_eq. cbn [rb_parent_color_ rb_right_].
  split_and!; [by rewrite lookup_insert_eq|by apply rep_insert|by apply repp_insert].
Qed.

(** The uppermost frame *)
Lemma repp_top m zs y b s h top top' :
  repp m (zs ++ [Lf y b s]) h top → NoDup (zaddrs (zs ++ [Lf y b s])) →
  ∃ l, m !! y = Some (mkNode (Z.lor top (cz b)) (addr s) l) ∧
    repp (<[y := mkNode (Z.lor top' (cz b)) (addr s) l]> m) (zs ++ [Lf y b s]) h top'.
Proof.
  revert h. induction zs as [|f zs IH]; intros h.
  - cbn [app repp faddr fblack fsib zaddrs]. intros (E & Hs & _) Hnd. exists h. split; [done|].
    rewrite app_nil_r in Hnd. apply NoDup_cons in Hnd as [Hy _].
    split_and!; [by rewrite lookup_insert_eq|by apply rep_insert|done].
  - cbn [app repp zaddrs]. intros (E & Hs & Hz) Hnd. apply NoDup_cons in Hnd as [Hf Hnd].
    apply NoDup_app in Hnd as (_ & Hd & Hnd). destruct (IH _ Hz Hnd) as (l & El & Hl). exists l.
    split; [done|].
    assert (y ∈ zaddrs (zs ++ [Lf y b s])) as Hy.
    { rewrite zaddrs_app. simpl. set_solver. }
    split; [|split; [|done]].
    + rewrite lookup_insert_ne by (intros ->; apply Hf, elem_of_app; by right).
      destruct zs; done.
    + apply rep_insert; [|done]. intros Hin. by apply (Hd _ Hin).
Qed.

(** ** The successor *)

(** the way down to the leftmost node of a tree *)
Fixpoint leftmost (t : tree) : zipper :=
  match t with
  | E | N _ _ E _ => []
  | N a b l r => leftmost l ++ [Lf a b r]
  end.
Fixpoint leftmost_node (t : tree) : Z * bool * tree :=
  match t with
  | E => (0, true, E)
  | N a b E r => (a, b, r)
  | N _ _ l _ => leftmost_node l
  end.

Lemma leftmost_plug t :
  t ≠ E → plug (leftmost t) (let '(s, b, r) := leftmost_node t in N s b E r) = t.
Proof.
  induction t as [|a b l IHl r _]; [done|intros _]. simpl.
  destruct l as [|x bx lx rx]; [done|]. rewrite plug_app, IHl by done. done.
Qed.

Lemma leftmost_app a b l r : l ≠ E → leftmost (N a b l r) = leftmost l ++ [Lf a b r].
Proof. by destruct l. Qed.

Lemma successor_loop_run m r t par par0 fuel :
  rep m t par → t ≠ E → Forall (λ x, x ≠ 0) (inorder t) → (depth t < fuel)%nat →
  successor_loop fuel par0 (addr t) (mkTree m r) =
    Ok ((match leftmost t with [] => par0 | f :: _ => faddr f end, (leftmost_node t).1.1), mkTree m r).
Proof.
  revert t par par0. induction fuel as [|fuel IH]; intros t par par0 R Ht Hp Hf; [lia|].
  destruct t as [|a b l rt]; [done|]. cbn [successor_loop addr]. destruct R as (Ea & Rl & Rr).
  rewrite (bind_Ok _ _ _ _ _ (rb_left_run _ _ _ _ Ea)). cbn [rb_left_].
  cbn [inorder depth] in *. apply Forall_app in Hp as [Hpl _].
  destruct l as [|x b' l' r'].
  - done.
  - cbn [addr]. assert (x ≠ 0) as Hx.
    { rewrite Forall_forall in Hpl. apply Hpl. simpl. set_solver. }
    rewrite (proj2 (Z.eqb_neq _ _) Hx).
    pose proof (IH (N x b' l' r') a a Rl ltac:(done) Hpl ltac:(lia)) as E'. cbn [addr] in E'.
    rewrite E', (leftmost_app a b (N x b' l' r')) by done. cbn [leftmost_node].
    destruct (leftmost (N x b' l' r')); done.
Qed.

(** The replacement of what is at a position by its new address. *)
Lemma change_run m r z old new :
  repz m z old → r = zroot z old → old ≠ 0 → (z = [] ∨ zaddr z ≠ 0) → NoDup (zaddrs z) →
  old ∉ zaddrs z → (∀ f z', z = f :: z' → addr (fsib f) ≠ old) →
  ∃ m', rb_change_child old new (zaddr z) (mkTree m r) = Ok (tt, mkTree m' (zroot z new)) ∧
    repz m' z new ∧ (∀ x, x ∉ zaddrs z → m' !! x = m !! x).
Proof.
  intros Rz Hr H0 Hz Hnd Hin Hs.
  destruct (change_child_run m r z old new) as (m' & E & Rz' & Hm); try done.
  { by intros ->. }
  exists m'. split; [rewrite E; do 3 f_equal; by destruct z|]. split; [done|].
  intros x Hx. apply Hm. destruct z as [|f z]; [by left|right]. intros ->. apply Hx. by left.
Qed.

(** the node [x] with at most one child *)
Lemma erase_leaf_run m r z x b :
  at_zip m r z (N x b E E) →
  ∃ m' r', rb_erase_node x (mkTree m r) = Ok (if b then zaddr z else 0, mkTree m' r') ∧
    at_zip m' r' z E.
Proof.
  intros Hat. positions Hat. destruct Hat as [Rz (Ex & _) Hr Hnd Hptr].
  assert (x ≠ 0) as Hx0 by (rewrite Forall_forall in Hptr; apply Hptr; set_solver).
  nodups Hnd. destruct (change_run m r z x 0) as (m' & E & Rz' & Hm); try done.
  unfold rb_erase_node. do 2 rb1. change (0 =? 0) with true. cbv iota.
  rewrite (bind_Ok _ _ _ _ _ (rb_pc_run _ _ _ _ Ex)). cbn [rb_parent_color_].
  rewrite rb_parent_of_lor, rb_color_of_lor by done. rewrite (bind_Ok _ _ _ _ _ E). cbn [negb].
  rewrite mret_run. do 2 eexists. split; [by destruct b|].
  simpl in Hptr. rewrite Forall_app in Hptr. split; [done|done|done|by rewrite app_nil_r|].
  rewrite app_nil_r. apply Hptr.
Qed.

Lemma erase_right_only_run m r z x b y c d :
  at_zip m r z (N x b E (N y false c d)) →
  ∃ m' r', rb_erase_node x (mkTree m r) = Ok (0, mkTree m' r') ∧ at_zip m' r' z (N y b c d).
Proof.
  intros Hat. positions Hat. destruct Hat as [Rz (Ex & _ & Ey & Rc & Rd) Hr Hnd Hptr].
  assert (x ≠ 0 ∧ y ≠ 0) as [Hx0 Hy0].
  { rewrite Forall_forall in Hptr. split; apply Hptr; set_solver. }
  assert (NoDup (zaddrs z ++ inorder (N y b c d)) ∧
    Forall (λ x, ptr x ∧ x ≠ 0) (zaddrs z ++ inorder (N y b c d))) as [Hnd' Hptr'].
  { simpl in Hnd, Hptr |- *. apply NoDup_app in Hnd as (H1 & H2 & H3). apply NoDup_cons in H3 as [H3 H4].
    rewrite Forall_app, Forall_cons in Hptr. rewrite Forall_app. split; [|tauto].
    apply NoDup_app. split_and!; [done| |done]. intros w Hw Hin. apply (H2 w Hw). by right. }
  nodups Hnd. destruct (change_run m r z x y) as (m' & E & Rz' & Hm); try done.
  unfold rb_erase_node. do 2 rb1. change (0 =? 0) with true. cbv iota.
  rewrite (bind_Ok _ _ _ _ _ (rb_pc_run _ _ _ _ Ex)). cbn [rb_parent_color_].
  rewrite rb_parent_of_lor by done. rewrite (bind_Ok _ _ _ _ _ E).
  rewrite (proj2 (Z.eqb_neq _ _) Hy0). cbn [negb].
  erewrite bind_Ok by (eapply set_pc_run; rewrite Hm by sep; exact Ey). rewrite mret_run.
  do 2 eexists. split; [done|]. split; [keep| |done|done|done].
  cbn [rep rb_right_ rb_left_]. split_and!; [lk|..];
    (eapply rep_agree; [|eassumption]; intros w Hw; rewrite lookup_insert_ne by sep; by rewrite Hm by sep).
Qed.

Lemma erase_left_only_run m r z x b y c d :
  at_zip m r z (N x b (N y false c d) E) →
  ∃ m' r', rb_erase_node x (mkTree m r) = Ok (0, mkTree m' r') ∧ at_zip m' r' z (N y b c d).
Proof.
  intros Hat. positions Hat. destruct Hat as [Rz (Ex & (Ey & Rc & Rd) & _) Hr Hnd Hptr].
  assert (x ≠ 0 ∧ y ≠ 0) as [Hx0 Hy0].
  { rewrite Forall_forall in Hptr. split; apply Hptr; set_solver. }
  assert (zaddrs z ++ inorder (N x b (N y false c d) E) ≡ₚ x :: zaddrs z ++ inorder (N y b c d)) as Hperm.
  { simpl. solve_Permutation. }
  assert (NoDup (zaddrs z ++ inorder (N y b c d)) ∧
    Forall (λ x, ptr x ∧ x ≠ 0) (zaddrs z ++ inorder (N y b c d))) as [Hnd' Hptr'].
  { pose proof Hnd as H1. pose proof Hptr as H2. rewrite Hperm in H1, H2.
    apply NoDup_cons in H1 as [_ H1]. by apply Forall_cons in H2 as [_ H2]. }
  nodups Hnd. unfold rb_erase_node. do 2 rb1. rewrite (proj2 (Z.eqb_neq _ _) Hy0). change (0 =? 0) with true.
  cbv iota. rewrite (bind_Ok _ _ _ _ _ (rb_pc_run _ _ _ _ Ex)). cbn [rb_parent_color_].
  rewrite (bind_Ok _ _ _ _ _ (set_pc_run _ _ _ _ _ Ey)). cbn [rb_right_ rb_left_].
  rewrite rb_parent_of_lor by done. set (m1 := <[y := _]> m).
  destruct (change_run m1 r z x y) as (m' & E & Rz' & Hm); try done; [keep|].
  rewrite (bind_Ok _ _ _ _ _ E), mret_run.
  do 2 eexists. split; [done|]. split; [done| |done|done|done].
  cbn [rep]. split_and!; [rewrite Hm by sep; unfold m1; lk|..];
    (eapply rep_agree; [|eassumption]; intros w Hw; rewrite Hm by sep; unfold m1; by rewrite lookup_insert_ne by sep).
Qed.

(** ** Two children *)

Lemma rep_plug_p m zs t par :
  rep m (plug zs t) par ↔
  repp m zs (addr t) par ∧ rep m t (match zs with [] => par | f :: _ => faddr f end).
Proof.
  revert t. induction zs as [|f zs IH]; intros t; [simpl; tauto|].
  cbn [plug repp]. rewrite IH. destruct f as [a b s|a b s]; destruct zs; simpl; tauto.
Qed.

Lemma repp_agree m m' zs h top :
  (∀ x, x ∈ zaddrs zs → m' !! x = m !! x) → repp m zs h top → repp m' zs h top.
Proof.
  revert h. induction zs as [|f zs IH]; intros h Hm; [done|]. cbn [repp zaddrs] in *.
  intros (E & Hs & Hz). split_and!.
  - rewrite Hm; [done|by left].
  - eapply rep_agree; [|done]. intros x Hx. apply Hm. set_solver.
  - apply IH; [|done]. intros x Hx. apply Hm. set_solver.
Qed.

Lemma leftmost_frames t : Forall (λ f, ∃ a b s, f = Lf a b s) (leftmost t).
Proof.
  induction t as [|a b l IHl r _]; [constructor|]. destruct l as [|x bx lx rx]; [constructor|].
  rewrite leftmost_app by done. apply Forall_app. split; [done|]. constructor; [by eauto|constructor].
Qed.

Lemma leftmost_last t : t ≠ E → leftmost t = [] ∨ ∃ zs b r, leftmost t = zs ++ [Lf (addr t) b r].
Proof.
  destruct t as [|a b l r]; [done|intros _]. destruct l as [|x bx lx rx]; [by left|right].
  rewrite leftmost_app by done. by eexists _, _, _.
Qed.

Lemma erase_successor_run m r rt x s bs sr :
  rep m rt x → rt ≠ E → leftmost_node rt = (s, bs, sr) → ptr x →
  NoDup (inorder rt) → Forall (λ x, ptr x ∧ x ≠ 0) (inorder rt) → (depth rt ≤ size m)%nat →
  ∃ m1 q l, erase_successor (addr rt) (mkTree m r) =
      Ok ((match leftmost rt with [] => s | f :: _ => faddr f end, s, addr sr), mkTree m1 r) ∧
    repp m1 (leftmost rt) (addr sr) s ∧ rep m1 sr s ∧ ptr q ∧
    m1 !! s = Some (mkNode (Z.lor q (cz bs)) (zroot (leftmost rt) (addr sr)) l) ∧
    (∀ w, w ∉ inorder rt → m1 !! w = m !! w).
Proof.
  intros Rt Ht Es Hx Hnd Hp Hd. pose proof (leftmost_plug rt Ht) as Hpl. rewrite Es in Hpl.
  pose proof (leftmost_frames rt) as Hfr. pose proof (leftmost_last rt Ht) as Hlast.
  pose proof Rt as Rt'. rewrite <- Hpl in Rt'. apply rep_plug_p in Rt' as [Rzs (Ens & _ & Rsr)].
  assert (NoDup (zaddrs (leftmost rt) ++ inorder (N s bs E sr))) as Hnd1.
  { rewrite <- inorder_plug, Hpl. done. }
  assert (∀ w, w ∉ inorder rt → w ∉ zaddrs (leftmost rt) ∧ w ≠ s) as Hout.
  { intros w Hw. rewrite <- Hpl, inorder_plug, elem_of_app in Hw. set_solver. }
  unfold erase_successor. destruct Hlast as [E0|(zs & by_ & yr & E0)].
  - rewrite E0 in *. simpl in Hpl. subst rt. cbn [addr] in *. cbv zeta. rb1. change (0 =? 0) with true. cbv iota.
    rb1. rewrite mret_run. exists m, x, 0. split_and!; try done.
  - destruct rt as [|y by' yl yr']; [done|]. cbn [addr] in *.
    destruct (decide (yl = E)) as [->|Hyl]; [by destruct zs|].
    rewrite (leftmost_app y by' yl yr' Hyl) in *. clear E0.
    destruct Rt as (Ey & Rl & Rr). cbv zeta. rb1.
    assert (addr yl ≠ 0) as Hyl0.
    { destruct yl as [|w bw wl wr]; [done|]. simpl in Hp |- *. rewrite Forall_forall in Hp. apply Hp. set_solver. }
    rewrite (proj2 (Z.eqb_neq _ _) Hyl0). assert (Forall (λ x, x ≠ 0) (inorder yl)) as Hpl0.
    { simpl in Hp. apply Forall_app in Hp as [Hp _]. eapply Forall_impl; [exact Hp|]. naive_solver. }
    erewrite bind_Ok.
    2: { unfold with_fuel. cbn [rmem]. apply (successor_loop_run m r yl y y (S (size m))); try done. simpl in Hd. lia. }
    cbn [leftmost_node] in Es. assert (leftmost_node yl = (s, bs, sr)) as Es' by (by destruct yl).
    rewrite Es'. cbv beta iota. cbn [fst]. clear Es.
    set (zs' := leftmost yl ++ [Lf y by' yr']) in *.
    assert (match leftmost yl with [] => y | f :: _ => faddr f end = match zs' with [] => s | f :: _ => faddr f end)
      as -> by (unfold zs'; by destruct (leftmost yl)).
    destruct zs' as [|f zs1] eqn:Ezs; [by destruct (leftmost yl)|].
    apply Forall_cons in Hfr as [(q & bq & sq & ->) _]. cbn [faddr] in *.
    rb1. pose proof Rzs as (Eq & _). cbn [faddr fblack] in Eq.
    rewrite ?bind_assoc, (bind_Ok _ _ _ _ _ (set_left_run _ _ _ _ _ Eq)). cbn [rb_parent_color_ rb_right_].
    set (m1 := <[q := _]> m).
    pose proof Hnd1 as Hnd2. nodups Hnd2.
    assert (repp m1 (Lf q bq sq :: zs1) (addr sr) x) as Rzs1 by by exact (repp_hole m q bq sq zs1 s (addr sr) x _ Rzs ltac:(sep) ltac:(sep) Eq).
    assert (m1 !! s = Some (mkNode (Z.lor q (cz bs)) (addr sr) 0)) as Ens1 by (unfold m1; lk).
    rewrite ?bind_assoc, (bind_Ok _ _ _ _ _ (set_right_run _ _ _ _ _ Ens1)). cbn [rb_parent_color_ rb_left_].
    set (m2 := <[s := _]> m1).
    assert (repp m2 (Lf q bq sq :: zs1) (addr sr) x) as Rzs2.
    { apply repp_insert; [|done]. simpl. set_solver. }
    rewrite <- Ezs in Rzs2. destruct (repp_top _ _ _ _ _ _ _ s Rzs2) as (l & El & Rzs3).
    { fold zs'. rewrite Ezs. simpl. apply NoDup_app in Hnd1. apply Hnd1. }
    rewrite ?bind_assoc, (bind_Ok _ _ _ _ _ (rb_set_parent_run _ _ _ _ _ _ _ _ El Hx)), mret_run.
    fold zs' in Rzs3. rewrite Ezs in Rzs3.
    assert (y ≠ s ∧ y ∉ inorder sr) as [Hys Hysr].
    { assert (y ∈ zaddrs (Lf q bq sq :: zs1)) as Hin.
      { rewrite <- Ezs. unfold zs'. rewrite zaddrs_app. simpl. set_solver. }
      apply NoDup_app in Hnd1 as (_ & Hdd & _). specialize (Hdd _ Hin). simpl in Hdd. set_solver. }
    exists (<[y := mkNode (Z.lor s (cz by')) (addr yr') l]> m2), q, 0. split_and!; try done.
    + unfold m2, m1. apply rep_insert; [done|]. keep.
    + rewrite Forall_forall in Hp. apply (Hp q). 
      rewrite <- Hpl, inorder_plug. simpl. set_solver.
    + rewrite lookup_insert_ne by done. unfold m2. rewrite lookup_insert_eq. do 2 f_equal.
      assert (zroot (Lf q bq sq :: zs1) (addr sr) = y) as ->; [|done].
      rewrite <- Ezs. unfold zs'. by rewrite zroot_app.
    + intros w Hw. destruct (Hout w Hw) as [Hwz Hws]. simpl in Hw.
      rewrite lookup_insert_ne by set_solver. unfold m2, m1.
      rewrite !lookup_insert_ne; [done|simpl in Hwz; set_solver|done].
Qed.

Definition blacken (t : tree) : tree := match t with E => E | N a _ l r => N a true l r end.

Lemma inorder_blacken t : inorder (blacken t) = inorder t.
Proof. by destruct t. Qed.

Lemma repz_agree m m' z h : (∀ w, w ∈ zaddrs z → m' !! w = m !! w) → repz m z h → repz m' z h.
Proof.
  revert h. induction z as [|f z IH]; intros h Hm; [done|]. cbn [repz zaddrs] in *.
  intros (Ef & Hs & Hz). split_and!.
  - rewrite Hm; [done|by left].
  - eapply rep_agree; [|done]. intros x Hx. apply Hm. set_solver.
  - apply IH; [|done]. intros x Hx. apply Hm. set_solver.
Qed.

(** the nodes of the tree before and after *)
Lemma two_children_perm z x b lt rt s bs sr :
  rt ≠ E → leftmost_node rt = (s, bs, sr) →
  zaddrs z ++ inorder (N x b lt rt) ≡ₚ
  x :: zaddrs (leftmost rt ++ Rf s b lt :: z) ++ inorder (blacken sr).
Proof.
  intros Ht Es. pose proof (leftmost_plug rt Ht) as Hpl. rewrite Es in Hpl.
  pose proof (inorder_plug (leftmost rt) (N s bs E sr)) as Hp. rewrite Hpl in Hp.
  rewrite inorder_blacken, zaddrs_app. simpl in Hp |- *. rewrite Hp. solve_Permutation.
Qed.

Lemma erase_two_run m r z x b lt rt s bs sr :
  at_zip m r z (N x b lt rt) → lt ≠ E → rt ≠ E → leftmost_node rt = (s, bs, sr) →
  (depth rt ≤ size m)%nat →
  ∃ m' r', erase_two_children x (addr rt) (mkTree m r) =
      Ok (match sr with E => if bs then zaddr (leftmost rt ++ Rf s b lt :: z) else 0 | _ => 0 end, mkTree m' r') ∧
    at_zip m' r' (leftmost rt ++ Rf s b lt :: z) (blacken sr).
Proof.
  intros Hat Hlt Hrt Es Hd. positions Hat. destruct Hat as [Rz (Ex & Rl & Rr) Hr Hnd Hptr].
  pose proof (two_children_perm z x b lt rt s bs sr Hrt Es) as Hperm.
  pose proof Hnd as Hnd'. pose proof Hptr as Hptr'. rewrite Hperm in Hnd', Hptr'.
  apply NoDup_cons in Hnd' as [_ Hnd']. apply Forall_cons in Hptr' as [[Hx Hx0] Hptr'].
  assert (s ∈ inorder rt ∧ (∀ w, w ∈ inorder sr → w ∈ inorder rt) ∧
    (∀ w, w ∈ zaddrs (leftmost rt) → w ∈ inorder rt)) as (Hsin & Hsrin & Hzsin).
  { pose proof (leftmost_plug rt Hrt) as Hpl. rewrite Es in Hpl. 
    pose proof (inorder_plug (leftmost rt) (N s bs E sr)) as Hp. rewrite Hpl in Hp. simpl in Hp.
    split_and!; intros; rewrite Hp; set_solver. }
  assert (s ∉ zaddrs (leftmost rt) ∧ (∀ w, w ∈ inorder sr → w ∉ zaddrs (leftmost rt) ∧ w ≠ s) ∧ NoDup (inorder sr))
    as (Hszs & Hsrzs & Hsrnd).
  { rewrite zaddrs_app, inorder_blacken in Hnd'. simpl in Hnd'. nodups Hnd'.
    split; [done|]. split; [|done]. intros w Hw. split; [sep|intros ->; sep]. }
  simpl in Hnd. apply NoDup_app in Hnd as (Hndz & Hdz & Hnd). apply NoDup_app in Hnd as (Hndl & Hdl & Hnd).
  apply NoDup_cons in Hnd as [Hxr Hndr].
  assert (x ∉ zaddrs z ∧ x ∉ inorder lt) as [Hxz Hxl] by set_solver.
  assert (∀ w, w ∈ inorder rt → w ∉ zaddrs z ∧ w ∉ inorder lt ∧ w ≠ x) as Hrd by set_solver.
  assert (∀ w, w ∈ inorder lt → w ∉ zaddrs z) as Hld by set_solver.
  destruct (erase_successor_run m r rt x s bs sr Rr Hrt Es Hx Hndr) as (m1 & q & l & E1 & Rzs & Rsr & Hq & Ens & Hm1); [|done|].
  { rewrite Forall_app in Hptr. simpl in Hptr. rewrite Forall_app, Forall_cons in Hptr. tauto. }
  unfold erase_two_children. rewrite (bind_Ok _ _ _ _ _ E1). cbv beta iota.
  destruct lt as [|a ab al ar]; [done|]. cbn [addr] in *. destruct Rl as (Ea & Ral & Rar).
  assert (a ≠ s ∧ a ≠ x ∧ a ∉ zaddrs z ∧ a ∉ inorder sr ∧ a ∉ zaddrs (leftmost rt)) as (Has & Hax & Haz & Hasr & Hazs).
  { assert (a ∈ inorder (N a ab al ar)) as Ha by (simpl; set_solver). split_and!; try set_solver. }
  assert (a ∉ inorder rt) as Hart by (assert (a ∈ inorder (N a ab al ar)) as Ha by (simpl; set_solver); set_solver).
  assert (s ≠ x ∧ s ∉ zaddrs z) as [Hsx Hsz] by (split; [by apply Hrd|by apply Hrd]).
  assert (m1 !! x = m !! x) as Ex1 by by apply Hm1. rewrite Ex in Ex1.
  assert (m1 !! a = m !! a) as Ea1 by by apply Hm1. rewrite Ea in Ea1.
  do 2 rb1. erewrite bind_Ok by (eapply rb_set_parent_run; [lk|done]).
  erewrite bind_Ok by (eapply rb_pc_run; lk). cbn [rb_parent_color_]. rewrite rb_parent_of_lor by done.
  set (m3 := <[a := _]> _).
  assert (∀ w, w ∉ inorder rt → w ≠ a → m3 !! w = m !! w) as Hm3.
  { intros w Hw Hwa. unfold m3. rewrite lookup_insert_ne by done. rewrite lookup_insert_ne by (intros ->; done).
    by apply Hm1. }
  destruct (change_run m3 r z x s) as (m4 & E4 & Rz4 & Hm4); try done.
  { unfold m3. apply repz_insert; [done|]. apply repz_insert; [done|].
    apply (repz_agree m); [|done]. intros w Hw. apply Hm1. intros Hin. by destruct (Hrd w Hin). }
  rewrite (bind_Ok _ _ _ _ _ E4).
  assert (m4 !! s = Some (mkNode (Z.lor q (cz bs)) (zroot (leftmost rt) (addr sr)) a)) as Es4.
  { rewrite Hm4 by done. unfold m3. by lk. }
  (* what is where before the last writes *)
  assert (m4 !! a = Some (mkNode (Z.lor s (cz ab)) (addr ar) (addr al))) as Ea4.
  { rewrite Hm4 by done. unfold m3. by lk. }
  assert (∀ w, w ∉ zaddrs z → w ≠ a → w ≠ s → m4 !! w = m1 !! w) as H41.
  { intros w ???. rewrite Hm4 by done. unfold m3. by rewrite !lookup_insert_ne. }
  assert (∀ t par, (∀ w, w ∈ inorder t → w ∉ zaddrs z ∧ w ≠ a ∧ w ≠ s) → rep m1 t par → rep m4 t par) as Hrep4.
  { intros t par Ht. apply rep_agree. intros w Hw. destruct (Ht w Hw) as (? & ? & ?). by apply H41. }
  assert (repp m4 (leftmost rt) (addr sr) s) as Rzs4.
  { apply (repp_agree m1); [|done]. intros w Hw. pose proof (Hrd w (Hzsin w Hw)) as (? & ? & _).
    apply H41; [done|intros ->; done|intros ->; done]. }
  assert (rep m4 al a ∧ rep m4 ar a) as [Ral4 Rar4].
  { nodups Hndl. split; (apply Hrep4; [intros w Hw; split_and!; [apply Hld|intros ->; done|intros ->];
      first [simpl; set_solver|done]|]); (apply (rep_agree m); [|done]); intros w Hw; apply Hm1;
      intros Hin; apply (Hrd w Hin); simpl; set_solver. }
  assert (rep m4 sr s) as Rsr4.
  { apply Hrep4; [|done]. intros w Hw. pose proof (Hrd w (Hsrin w Hw)) as (? & ? & _).
    split_and!; [done|intros ->; done|by apply Hsrzs]. }
  assert (zroot z s = zroot (leftmost rt ++ Rf s b (N a ab al ar) :: z) (addr (blacken sr))) as Hroot.
  { rewrite zroot_app. done. }
  assert (s ∉ inorder al ∧ s ∉ inorder ar) as [Hsal Hsar].
  { pose proof (Hrd s Hsin) as (_ & Hsl & _). simpl in Hsl. set_solver. }
  (* the last writes *)
  destruct sr as [|y yb c d]; cbn [addr blacken] in *.
  - change (0 =? 0) with true. cbn [negb]. rewrite (bind_Ok _ _ _ _ _ (rb_pc_run _ _ _ _ Es4)).
    cbn [rb_parent_color_]. rewrite (bind_Ok _ _ _ _ _ (set_pc_run _ _ _ _ _ Es4)), mret_run.
    rewrite rb_color_of_lor by done. cbn [rb_right_ rb_left_].
    do 2 eexists. split; [by rewrite zaddr_app; destruct bs|]. rewrite Hroot.
    split; [|done|done|done|done]. apply repz_app. split; [by apply repp_insert|].
    cbn [repz faddr fblack fsib rep]. split_and!; [lk|lk|keep|keep|keep].
  - destruct Rsr4 as (Ey & Rc & Rd). pose proof (Hsrzs y ltac:(simpl; set_solver)) as [Hyz Hys].
    pose proof (Hrd y (Hsrin y ltac:(simpl; set_solver))) as (Hyzz & Hyl & Hyx).
    assert (y ≠ 0) as Hy0.
    { rewrite Forall_forall in Hptr'. apply Hptr'. simpl. set_solver. }
    rewrite (proj2 (Z.eqb_neq _ _) Hy0). cbn [negb]. assert (y ≠ a) as Hya by (intros ->; apply Hyl; simpl; set_solver).
    nodups Hsrnd. rewrite (bind_Ok _ _ _ _ _ (set_pc_run _ _ _ _ _ Es4)). cbn [rb_right_ rb_left_].
    erewrite bind_Ok by (eapply set_pc_black; lk). rewrite mret_run.
    do 2 eexists. split; [done|]. rewrite Hroot.
    assert (∀ w, w ∈ inorder c ∨ w ∈ inorder d → w ≠ s ∧ w ≠ y) as Hcd.
    { intros w Hw. split; [apply Hsrzs; simpl; set_solver|]. intros ->. destruct Hw; done. }
    assert (y ∉ inorder al ∧ y ∉ inorder ar) as [? ?] by (simpl in Hyl; set_solver).
    split; [|cbn [rep]|done|done|done].
    + apply repz_app. split; [by apply repp_insert, repp_insert|].
      cbn [repz faddr fblack fsib rep addr]. split_and!; [lk|lk|keep|keep|keep].
    + rewrite zaddr_app. split_and!; [lk|..].
      * apply rep_insert; [naive_solver|]. apply rep_insert; [naive_solver|done].
      * apply rep_insert; [naive_solver|]. apply rep_insert; [naive_solver|done].
Qed.

(** ** Removal *)

Lemma find_zip t x : x ∈ inorder t → ∃ z b l r, t = plug z (N x b l r).
Proof.
  induction t as [|a b l IHl r IHr]; simpl; [by intros ?%elem_of_nil|].
  rewrite elem_of_app, elem_of_cons. intros [Hx|[->|Hx]].
  - destruct (IHl Hx) as (z & b' & l' & r' & ->). exists (z ++ [Lf a b r]), b', l', r'. by rewrite plug_app.
  - by exists [], b, l, r.
  - destruct (IHr Hx) as (z & b' & l' & r' & ->). exists (z ++ [Rf a b l]), b', l', r'. by rewrite plug_app.
Qed.

(** a tree of height 0 is a red leaf, if anything *)
Lemma rbal_0_inv a b l r : rbal (N a b l r) 0 → b = false ∧ l = E ∧ r = E.
Proof.
  inversion 1 as [| |? ? ? ? Hl Hr Hbl Hbr]; subst. split; [done|].
  destruct l as [|? [] ? ?], r as [|? [] ? ?]; try done; by inversion Hl || by inversion Hr.
Qed.
Lemma rbal_one_child s b y yb c d k :
  rbal (N s b E (N y yb c d)) k ∨ rbal (N s b (N y yb c d) E) k → b = true ∧ yb = false ∧ rbal (N y true c d) k.
Proof.
  assert (∀ n, rbal (N y yb c d) n → rbal E n → n = 0%nat ∧ yb = false ∧ rbal (N y true c d) 1) as Hy.
  { intros n H HE. inversion HE; subst. apply rbal_0_inv in H as (-> & -> & ->). by repeat constructor. }
  intros [H|H]; inversion H as [|? ? ? n Hl Hr|? ? ? n Hl Hr Hbl Hbr]; subst.
  - by destruct (Hy _ Hr Hl) as (-> & -> & ?).
  - destruct (Hy _ Hr Hl) as (_ & -> & _). done.
  - by destruct (Hy _ Hl Hr) as (-> & -> & ?).
  - destruct (Hy _ Hl Hr) as (_ & -> & _). done.
Qed.
Lemma rbal_leaf s b k : rbal (N s b E E) k → k = if b then 1%nat else 0%nat.
Proof. by inversion 1 as [|? ? ? n Hl|? ? ? n Hl]; subst; inversion Hl. Qed.

Lemma zbal_rename zs x s b l z k : zbal (zs ++ Rf x b l :: z) k → zbal (zs ++ Rf s b l :: z) k.
Proof.
  revert k. induction zs as [|f zs IH]; intros k; cbn [app].
  - inversion 1; subst; [by apply zbal_black|by apply zbal_red].
  - inversion 1; subst; [apply zbal_black; auto|apply zbal_red; auto]. by destruct zs.
Qed.
Lemma zblack_rename zs x s b l z : zblack (zs ++ Rf x b l :: z) → zblack (zs ++ Rf s b l :: z).
Proof. by destruct zs. Qed.

(** what is left to do when the tree at the hole has gone *)
Lemma erase_finish_run m r z :
  at_zip m r z E → zbal z 1 →
  fixed z E ((if negb (zaddr z =? 0) then with_fuel (λ n, erase_fix_loop n 0 (zaddr z)) else mret tt) (mkTree m r)).
Proof.
  intros Hat Hz. pose proof (at_zip_zaddr _ _ _ _ Hat) as [_ Hz0]. destruct z as [|f z].
  - change (negb (zaddr [] =? 0)) with false. cbv iota. rewrite mret_run.
    eapply (fixed_intro' [] E E); [done|constructor|constructor|by left|done].
  - destruct Hz0 as [|Hz0]; [done|]. rewrite (proj2 (Z.eqb_neq _ _) Hz0). cbn [negb].
    unfold with_fuel. cbn [rmem zaddr]. apply (erase_fix_run _ m r f z E 0); [done|constructor|done|done|].
    apply at_zip_plug in Hat. pose proof (at_zip_depth _ _ _ Hat). pose proof (length_depth (f :: z) E).
    simpl in *. lia.
Qed.

Lemma zl_leftmost t : zl (leftmost t) = [].
Proof.
  induction t as [|a b l IHl r _]; [done|]. destruct l as [|x bx lx rx]; [done|].
  rewrite leftmost_app by done. generalize (leftmost_frames (N x bx lx rx)).
  induction (leftmost (N x bx lx rx)) as [|f zs IH]; [done|].
  intros [(a' & b' & s' & ->) Hf]%Forall_cons. simpl in *. by apply IH.
Qed.

Lemma inorder_two z x b s bs sr lt rt :
  rt ≠ E → leftmost_node rt = (s, bs, sr) →
  ∃ l1 l2, inorder (plug z (N x b lt rt)) = l1 ++ x :: l2 ∧
    inorder (plug (leftmost rt ++ Rf s b lt :: z) (blacken sr)) = l1 ++ l2.
Proof.
  intros Ht Es. pose proof (leftmost_plug rt Ht) as Hpl. rewrite Es in Hpl.
  exists (zl z ++ inorder lt), (inorder rt ++ zr z). split; [rewrite inorder_zip; app_order|].
  rewrite plug_app. simpl. rewrite inorder_zip. simpl. rewrite inorder_zip, zl_leftmost, inorder_blacken.
  rewrite <- Hpl at 2. rewrite inorder_zip, zl_leftmost. app_order.
Qed.

Definition erased (x : Z) (t : tree) (res : res (unit * rbtree)) : Prop :=
  ∃ s' t' l1 l2, res = Ok (tt, s') ∧ rb_tree s' t' ∧ inorder t = l1 ++ x :: l2 ∧ inorder t' = l1 ++ l2.

Lemma erased_fixed x t z t0 res l1 l2 :
  fixed z t0 res → inorder t = l1 ++ x :: l2 → inorder (plug z t0) = l1 ++ l2 → erased x t res.
Proof. intros (s' & t' & E & Hrb & Hi) H1 H2. exists s', t', l1, l2. by rewrite Hi. Qed.

Lemma rb_erase_run s t x : rb_tree s t → x ∈ inorder t → erased x t (rb_erase x s).
Proof.
  intros [Hat (n & Hbal) Hbl] Hx. destruct s as [m r]. simpl in Hat.
  pose proof (at_zip_depth _ _ _ Hat) as Hdep.
  destruct (find_zip t x Hx) as (z & b & l & rt & ->).
  apply at_zip_plug in Hat. destruct (unplug _ _ _ Hbal Hbl) as (k & Hz & Hk & Hor).
  pose proof (length_depth z (N x b l rt)) as Hd2. simpl in Hd2.
  unfold rb_erase. destruct l as [|y yb c d], rt as [|y2 yb2 c2 d2].
  - (* no child *)
    apply rbal_leaf in Hk as ->.
    destruct (erase_leaf_run _ _ _ _ _ Hat) as (m' & r' & E & Hat'). rewrite (bind_Ok _ _ _ _ _ E).
    apply (erased_fixed _ _ z RbtreeSpec.E _ (zl z) (zr z)); [|rewrite inorder_zip; app_order|rewrite inorder_zip; app_order].
    destruct b; [by apply erase_finish_run|]. change (negb (0 =? 0)) with false. cbv iota. rewrite mret_run.
    eapply fixed_intro'; [done|exact Hz|constructor|by left|done].
  - (* a right child *)
    destruct (rbal_one_child x b y2 yb2 c2 d2 k) as (-> & -> & Hk'); [by left|].
    destruct (erase_right_only_run _ _ _ _ _ _ _ _ Hat) as (m' & r' & E & Hat'). rewrite (bind_Ok _ _ _ _ _ E).
    change (negb (0 =? 0)) with false. cbv iota. rewrite mret_run.
    apply (erased_fixed _ _ z (N y2 true c2 d2) _ (zl z) (inorder (N y2 true c2 d2) ++ zr z));
      [|rewrite inorder_zip; app_order|rewrite inorder_zip; app_order].
    eapply fixed_intro'; [done|exact Hz|done|by left|done].
  - (* a left child *)
    destruct (rbal_one_child x b y yb c d k) as (-> & -> & Hk'); [by right|].
    destruct (erase_left_only_run _ _ _ _ _ _ _ _ Hat) as (m' & r' & E & Hat'). rewrite (bind_Ok _ _ _ _ _ E).
    change (negb (0 =? 0)) with false. cbv iota. rewrite mret_run.
    apply (erased_fixed _ _ z (N y true c d) _ (zl z ++ inorder (N y true c d)) (zr z));
      [|rewrite inorder_zip; app_order|rewrite inorder_zip; app_order].
    eapply fixed_intro'; [done|exact Hz|done|by left|done].
  - (* two children *)
    set (lt := N y yb c d) in *. set (rt := N y2 yb2 c2 d2) in *.
    destruct (leftmost_node rt) as [[s bs] sr] eqn:Es.
    destruct (erase_two_run _ _ _ _ _ lt rt s bs sr Hat ltac:(done) ltac:(done) Es) as (m' & r' & E & Hat').
    { simpl in *. lia. }
    pose proof Hat as [_ (Ex & (Ey & _) & _) _ _ Hptr]. cbn [addr] in *.
    assert (y ≠ 0 ∧ y2 ≠ 0) as [Hy0 Hy20].
    { rewrite Forall_forall in Hptr. split; apply Hptr; simpl; set_solver. }
    erewrite bind_Ok.
    2: { unfold rb_erase_node. do 2 rb1. rewrite (proj2 (Z.eqb_neq (addr lt) 0) Hy0), (proj2 (Z.eqb_neq (addr rt) 0) Hy20). exact E. }
    pose proof (leftmost_plug rt ltac:(done)) as Hpl. rewrite Es in Hpl.
    destruct (unplug (leftmost rt ++ Rf x b lt :: z) (N s bs RbtreeSpec.E sr) n) as (k2 & Hz2 & Hk2 & _).
    { rewrite plug_app. cbn [plug fill]. by rewrite Hpl. }
    { rewrite plug_app. cbn [plug fill]. by rewrite Hpl. }
    apply (zbal_rename _ _ s) in Hz2.
    destruct (inorder_two z x b s bs sr lt rt ltac:(done) Es) as (l1 & l2 & H1 & H2).
    apply (erased_fixed _ _ (leftmost rt ++ Rf s b lt :: z) (blacken sr) _ l1 l2); [|done|done].
    destruct sr as [|w wb wl wr]; cbn [blacken] in *.
    + apply rbal_leaf in Hk2 as ->. destruct bs; [by apply erase_finish_run|].
      change (negb (0 =? 0)) with false. cbv iota. rewrite mret_run.
      eapply fixed_intro'; [done|exact Hz2|constructor|by left|done].
    + destruct (rbal_one_child s bs w wb wl wr k2) as (-> & -> & Hk'); [by left|].
      change (negb (0 =? 0)) with false. cbv iota. rewrite mret_run.
      eapply fixed_intro'; [done|exact Hz2|done|by left|done].
Qed.

(** C38: [_rb_erase] takes exactly the given node out of the tree: the others keep their order, and
    what is left is again a red-black tree with all its parent pointers right. *)
Theorem rb_erase_correct s t node :
  rb_tree s t → node ∈ inorder t →
  ∃ s' t' l1 l2, rb_erase node s = Ok (tt, s') ∧ rb_tree s' t' ∧
    inorder t = l1 ++ node :: l2 ∧ inorder t' = l1 ++ l2.
Proof. apply rb_erase_run. Qed.

Lemma rb_erase_correct_witness :
  ∃ s' t' l1 l2, rb_erase 16 two_nodes = Ok (tt, s') ∧ rb_tree s' t' ∧
    inorder two_tree = l1 ++ 16 :: l2 ∧ inorder t' = l1 ++ l2.
Proof. apply (rb_erase_correct two_nodes two_tree 16 two_rb_tree). simpl. set_solver. Defined.
