(* ===== verification/Mmu.v ===== *)
(** * [aarch64/mmu.h]: addresses and page table entries

    The macros on kernel and physical addresses and the fields of page table entries, as
    functions on [u64] values. *)

From Stdlib Require Import ZArith Lia.
From S2P Require Import Prelude Words.

Definition PAGE_SIZE : Z := 4096.

Definition MT_DEVICE_nGnRnE : Z := 0x0.
Definition MT_NORMAL : Z := 0x1.
Definition MT_NORMAL_NC : Z := 0x2.
Definition SH_OUTER : Z := Z.shiftl 2 8.
Definition AF_USED : Z := Z.shiftl 1 10.

Definition PTE_NORMAL_NC : Z := Z.lor (Z.lor (Z.shiftl MT_NORMAL_NC 2) AF_USED) SH_OUTER.
Definition PTE_NORMAL : Z := Z.lor (Z.lor (Z.shiftl MT_NORMAL 2) AF_USED) SH_OUTER.
Definition PTE_DEVICE : Z := Z.lor (Z.shiftl MT_DEVICE_nGnRnE 2) AF_USED.

Definition PTE_VALID : Z := 0x1.
Definition PTE_TABLE : Z := 0x3.
Definition PTE_BLOCK : Z := 0x1.
Definition PTE_PAGE : Z := 0x3.
Definition PTE_KERNEL : Z := Z.shiftl 0 6.
Definition PTE_USER : Z := Z.shiftl 1 6.
Definition PTE_RO : Z := Z.shiftl 1 7.
Definition PTE_RW : Z := Z.shiftl 0 7.

Definition PTE_KERNEL_DATA : Z := Z.lor (Z.lor PTE_KERNEL PTE_NORMAL) PTE_BLOCK.
Definition PTE_KERNEL_DEVICE : Z := Z.lor (Z.lor PTE_KERNEL PTE_DEVICE) PTE_BLOCK.
Definition PTE_USER_DATA : Z := Z.lor (Z.lor PTE_USER PTE_NORMAL) PTE_PAGE.

Definition N_PTE_PER_TABLE : Z := 512.

Definition USERTOP : Z := 0x0001000000000000.
Definition KSPACE_MASK : Z := 0xffff000000000000.

Definition K2P (addr : Z) : Z := u64 (addr - KSPACE_MASK).
Definition P2K (addr : Z) : Z := u64 (addr + KSPACE_MASK).
Definition KSPACE (addr : Z) : Z := Z.lor addr KSPACE_MASK.
Definition PSPACE (addr : Z) : Z := Z.land addr (u64 (Z.lnot KSPACE_MASK)).

Definition VA_OFFSET (va : Z) : Z := Z.land va 0xFFF.
Definition PTE_ADDRESS (pte : Z) : Z := Z.land pte (u64 (Z.lnot 0xFFFF000000000FFF)).
Definition PTE_FLAGS (pte : Z) : Z := Z.land pte 0xFFFF000000000FFF.
Definition P2N (addr : Z) : Z := Z.shiftr addr 12.
Definition PAGE_BASE (addr : Z) : Z := Z.land addr (u64 (Z.lnot (PAGE_SIZE - 1))).

Definition VA_PART0 (va : Z) : Z := Z.shiftr (Z.land va 0xFF8000000000) 39.
Definition VA_PART1 (va : Z) : Z := Z.shiftr (Z.land va 0x7FC0000000) 30.
Definition VA_PART2 (va : Z) : Z := Z.shiftr (Z.land va 0x3FE00000) 21.
Definition VA_PART3 (va : Z) : Z := Z.shiftr (Z.land va 0x1FF000) 12.

(** [driver/memlayout.h] *)
Definition PHYSTOP : Z := 0x3f000000.

(** ** The masks as arithmetic *)

(** A field of [n] bits at bit [k], as a mask and as division and remainder. *)
Lemma land_field a k n :
  0 ≤ k → 0 ≤ n → Z.land a (Z.shiftl (Z.ones n) k) = Z.shiftl (Z.land (Z.shiftr a k) (Z.ones n)) k.
Proof.
  intros Hk Hn. apply Z.bits_inj'. intros i Hi.
  rewrite Z.land_spec, !Z.shiftl_spec by done.
  destruct (Z.ltb_spec i k) as [|Hik].
  - rewrite !(Z.testbit_neg_r _ (i - k)) by lia. by rewrite andb_false_r.
  - rewrite Z.land_spec, Z.shiftr_spec by lia. do 2 f_equal. lia.
Qed.

Lemma land_field_div a k n :
  0 ≤ k → 0 ≤ n → Z.land a (Z.shiftl (Z.ones n) k) = (a / 2 ^ k) mod 2 ^ n * 2 ^ k.
Proof.
  intros. by rewrite land_field, Z.shiftl_mul_pow2, Z.land_ones, Z.shiftr_div_pow2.
Qed.

Lemma shiftr_field a k n :
  0 ≤ k → 0 ≤ n → Z.shiftr (Z.land a (Z.shiftl (Z.ones n) k)) k = (a / 2 ^ k) mod 2 ^ n.
Proof.
  intros. rewrite land_field_div, Z.shiftr_div_pow2, Z.div_mul by lia. done.
Qed.

Lemma PAGE_BASE_eq a : 0 ≤ a < 2 ^ 64 → PAGE_BASE a = a - a mod 4096.
Proof.
  intros Ha. unfold PAGE_BASE.
  change (u64 (Z.lnot (PAGE_SIZE - 1))) with (Z.shiftl (Z.ones 52) 12).
  rewrite land_field_div by lia. change (2 ^ 52) with 4503599627370496.
  change (2 ^ 12) with 4096. change (2 ^ 64) with 18446744073709551616 in Ha. zmod.
Qed.

Lemma PTE_ADDRESS_eq a : PTE_ADDRESS a = (a / 4096) mod 2 ^ 36 * 4096.
Proof.
  unfold PTE_ADDRESS.
  change (u64 (Z.lnot 0xFFFF000000000FFF)) with (Z.shiftl (Z.ones 36) 12).
  by rewrite land_field_div.
Qed.

(** For addresses below 2^48 the flags of an entry are its low bits. *)
Lemma PTE_FLAGS_eq e : 0 ≤ e < 2 ^ 48 → PTE_FLAGS e = e mod 4096.
Proof.
  intros He. unfold PTE_FLAGS.
  change 0xFFFF000000000FFF with (Z.lor (Z.shiftl (Z.ones 16) 48) (Z.ones 12)).
  rewrite Z.land_lor_distr_r, land_field_div, Z.land_ones by lia.
  by rewrite (Z.div_small e (2 ^ 48)).
Qed.

Lemma VA_PART0_eq va : VA_PART0 va = (va / 2 ^ 39) mod 512.
Proof. apply (shiftr_field va 39 9); done. Qed.
Lemma VA_PART1_eq va : VA_PART1 va = (va / 2 ^ 30) mod 512.
Proof. apply (shiftr_field va 30 9); done. Qed.
Lemma VA_PART2_eq va : VA_PART2 va = (va / 2 ^ 21) mod 512.
Proof. apply (shiftr_field va 21 9); done. Qed.
Lemma VA_PART3_eq va : VA_PART3 va = (va / 2 ^ 12) mod 512.
Proof. apply (shiftr_field va 12 9); done. Qed.
Lemma VA_OFFSET_eq va : VA_OFFSET va = va mod 4096.
Proof. apply (Z.land_ones va 12). lia. Qed.

Lemma VA_PART_range va :
  0 ≤ VA_PART0 va < 512 ∧ 0 ≤ VA_PART1 va < 512 ∧ 0 ≤ VA_PART2 va < 512 ∧ 0 ≤ VA_PART3 va < 512.
Proof.
  rewrite VA_PART0_eq, VA_PART1_eq, VA_PART2_eq, VA_PART3_eq.
  repeat split; apply Z.mod_pos_bound; lia.
Qed.

(** Flags and address of an entry do not interfere. *)
Lemma lor_flags a f : a mod 4096 = 0 → 0 ≤ f < 4096 → Z.lor a f = a + f.
Proof.
  intros Ha Hf.
  assert (Z.land a f = 0) as Hd.
  { apply Z.bits_inj'. intros i Hi. rewrite Z.land_spec, Z.bits_0.
    destruct (Z.ltb_spec i 12) as [|Hi12].
    - replace a with (Z.shiftl (a / 4096) 12)
        by (rewrite Z.shiftl_mul_pow2 by lia; change (2 ^ 12) with 4096; zmod).
      by rewrite Z.shiftl_spec_low.
    - replace (Z.testbit f i) with false; [apply andb_false_r|]. symmetry.
      destruct (decide (f = 0)) as [->|]; [apply Z.bits_0|].
      apply Z.bits_above_log2; [lia|].
      assert (Z.log2 f < 12) by (apply Z.log2_lt_pow2; lia). lia. }
  pose proof (Z.add_lor_land a f). lia.
Qed.

Lemma PTE_ADDRESS_lor a f :
  a mod 4096 = 0 → 0 ≤ a < 2 ^ 48 → 0 ≤ f < 4096 → PTE_ADDRESS (Z.lor a f) = a.
Proof.
  intros Ha Hr Hf. rewrite lor_flags, PTE_ADDRESS_eq by done.
  change (2 ^ 36) with 68719476736. change (2 ^ 48) with 281474976710656 in Hr. zmod.
Qed.

Lemma K2P_P2K a : 0 ≤ a < 2 ^ 64 → K2P (P2K a) = a.
Proof.
  intros Ha. unfold K2P, P2K, u64, KSPACE_MASK. change (2 ^ 64) with 18446744073709551616 in *. zmod.
Qed.
Lemma P2K_K2P a : 0 ≤ a < 2 ^ 64 → P2K (K2P a) = a.
Proof.
  intros Ha. unfold K2P, P2K, u64, KSPACE_MASK. change (2 ^ 64) with 18446744073709551616 in *. zmod.
Qed.
