(* ===== verification/KernelPt.v ===== *)
(** * [aarch64/kernel_pt.c]: the kernel's page tables

    The three tables the CPU starts with, as the arrays of entries the source initialises,
    and the translation an ARMv8 page table walk (4 KiB granule, 48-bit addresses) makes of
    them: kernel addresses map to the physical address without [KSPACE_MASK], ordinary
    memory up to [PHYSTOP] and device memory above. *)

From Stdlib Require Import ZArith Lia.
From S2P Require Import Prelude Words Mmu.

(** An array of type [PTEntries]: what the initialiser leaves out is 0. *)
Definition PTEntries (l : list Z) : list Z := l ++ replicate (Z.to_nat N_PTE_PER_TABLE - length l) 0.

Infix "|||" := Z.lor (at level 50, left associativity, only parsing) : Z_scope.

Definition kernel_pt_level3 : list Z := PTEntries
  [0x0 ||| PTE_KERNEL_DATA; 0x200000 ||| PTE_KERNEL_DATA; 0x400000 ||| PTE_KERNEL_DATA;
   0x600000 ||| PTE_KERNEL_DATA; 0x800000 ||| PTE_KERNEL_DATA; 0xa00000 ||| PTE_KERNEL_DATA;
   0xc00000 ||| PTE_KERNEL_DATA; 0xe00000 ||| PTE_KERNEL_DATA; 0x1000000 ||| PTE_KERNEL_DATA;
   0x1200000 ||| PTE_KERNEL_DATA; 0x1400000 ||| PTE_KERNEL_DATA; 0x1600000 ||| PTE_KERNEL_DATA;
   0x1800000 ||| PTE_KERNEL_DATA; 0x1a00000 ||| PTE_KERNEL_DATA; 0x1c00000 ||| PTE_KERNEL_DATA;
   0x1e00000 ||| PTE_KERNEL_DATA; 0x2000000 ||| PTE_KERNEL_DATA; 0x2200000 ||| PTE_KERNEL_DATA;
   0x2400000 ||| PTE_KERNEL_DATA; 0x2600000 ||| PTE_KERNEL_DATA; 0x2800000 ||| PTE_KERNEL_DATA;
   0x2a00000 ||| PTE_KERNEL_DATA; 0x2c00000 ||| PTE_KERNEL_DATA; 0x2e00000 ||| PTE_KERNEL_DATA;
   0x3000000 ||| PTE_KERNEL_DATA; 0x3200000 ||| PTE_KERNEL_DATA; 0x3400000 ||| PTE_KERNEL_DATA;
   0x3600000 ||| PTE_KERNEL_DATA; 0x3800000 ||| PTE_KERNEL_DATA; 0x3a00000 ||| PTE_KERNEL_DATA;
   0x3c00000 ||| PTE_KERNEL_DATA; 0x3e00000 ||| PTE_KERNEL_DATA; 0x4000000 ||| PTE_KERNEL_DATA;
   0x4200000 ||| PTE_KERNEL_DATA; 0x4400000 ||| PTE_KERNEL_DATA; 0x4600000 ||| PTE_KERNEL_DATA;
   0x4800000 ||| PTE_KERNEL_DATA; 0x4a00000 ||| PTE_KERNEL_DATA; 0x4c00000 ||| PTE_KERNEL_DATA;
   0x4e00000 ||| PTE_KERNEL_DATA; 0x5000000 ||| PTE_KERNEL_DATA; 0x5200000 ||| PTE_KERNEL_DATA;
   0x5400000 ||| PTE_KERNEL_DATA; 0x5600000 ||| PTE_KERNEL_DATA; 0x5800000 ||| PTE_KERNEL_DATA;
   0x5a00000 ||| PTE_KERNEL_DATA; 0x5c00000 ||| PTE_KERNEL_DATA; 0x5e00000 ||| PTE_KERNEL_DATA;
   0x6000000 ||| PTE_KERNEL_DATA; 0x6200000 ||| PTE_KERNEL_DATA; 0x6400000 ||| PTE_KERNEL_DATA;
   0x6600000 ||| PTE_KERNEL_DATA; 0x6800000 ||| PTE_KERNEL_DATA; 0x6a00000 ||| PTE_KERNEL_DATA;
   0x6c00000 ||| PTE_KERNEL_DATA; 0x6e00000 ||| PTE_KERNEL_DATA; 0x7000000 ||| PTE_KERNEL_DATA;
   0x7200000 ||| PTE_KERNEL_DATA; 0x7400000 ||| PTE_KERNEL_DATA; 0x7600000 ||| PTE_KERNEL_DATA;
   0x7800000 ||| PTE_KERNEL_DATA; 0x7a00000 ||| PTE_KERNEL_DATA; 0x7c00000 ||| PTE_KERNEL_DATA;
   0x7e00000 ||| PTE_KERNEL_DATA; 0x8000000 ||| PTE_KERNEL_DATA; 0x8200000 ||| PTE_KERNEL_DATA;
   0x8400000 ||| PTE_KERNEL_DATA; 0x8600000 ||| PTE_KERNEL_DATA; 0x8800000 ||| PTE_KERNEL_DATA;
   0x8a00000 ||| PTE_KERNEL_DATA; 0x8c00000 ||| PTE_KERNEL_DATA; 0x8e00000 ||| PTE_KERNEL_DATA;
   0x9000000 ||| PTE_KERNEL_DATA; 0x9200000 ||| PTE_KERNEL_DATA; 0x9400000 ||| PTE_KERNEL_DATA;
   0x9600000 ||| PTE_KERNEL_DATA; 0x9800000 ||| PTE_KERNEL_DATA; 0x9a00000 ||| PTE_KERNEL_DATA;
   0x9c00000 ||| PTE_KERNEL_DATA; 0x9e00000 ||| PTE_KERNEL_DATA; 0xa000000 ||| PTE_KERNEL_DATA;
   0xa200000 ||| PTE_KERNEL_DATA; 0xa400000 ||| PTE_KERNEL_DATA; 0xa600000 ||| PTE_KERNEL_DATA;
   0xa800000 ||| PTE_KERNEL_DATA; 0xaa00000 ||| PTE_KERNEL_DATA; 0xac00000 ||| PTE_KERNEL_DATA;
   0xae00000 ||| PTE_KERNEL_DATA; 0xb000000 ||| PTE_KERNEL_DATA; 0xb200000 ||| PTE_KERNEL_DATA;
   0xb400000 ||| PTE_KERNEL_DATA; 0xb600000 ||| PTE_KERNEL_DATA; 0xb800000 ||| PTE_KERNEL_DATA;
   0xba00000 ||| PTE_KERNEL_DATA; 0xbc00000 ||| PTE_KERNEL_DATA; 0xbe00000 ||| PTE_KERNEL_DATA;
   0xc000000 ||| PTE_KERNEL_DATA; 0xc200000 ||| PTE_KERNEL_DATA; 0xc400000 ||| PTE_KERNEL_DATA;
   0xc600000 ||| PTE_KERNEL_DATA; 0xc800000 ||| PTE_KERNEL_DATA; 0xca00000 ||| PTE_KERNEL_DATA;
   0xcc00000 ||| PTE_KERNEL_DATA; 0xce00000 ||| PTE_KERNEL_DATA; 0xd000000 ||| PTE_KERNEL_DATA;
   0xd200000 ||| PTE_KERNEL_DATA; 0xd400000 ||| PTE_KERNEL_DATA; 0xd600000 ||| PTE_KERNEL_DATA;
   0xd800000 ||| PTE_KERNEL_DATA; 0xda00000 ||| PTE_KERNEL_DATA; 0xdc00000 ||| PTE_KERNEL_DATA;
   0xde00000 ||| PTE_KERNEL_DATA; 0xe000000 ||| PTE_KERNEL_DATA; 0xe200000 ||| PTE_KERNEL_DATA;
   0xe400000 ||| PTE_KERNEL_DATA; 0xe600000 ||| PTE_KERNEL_DATA; 0xe800000 ||| PTE_KERNEL_DATA;
   0xea00000 ||| PTE_KERNEL_DATA; 0xec00000 ||| PTE_KERNEL_DATA; 0xee00000 ||| PTE_KERNEL_DATA;
   0xf000000 ||| PTE_KERNEL_DATA; 0xf200000 ||| PTE_KERNEL_DATA; 0xf400000 ||| PTE_KERNEL_DATA;
   0xf600000 ||| PTE_KERNEL_DATA; 0xf800000 ||| PTE_KERNEL_DATA; 0xfa00000 ||| PTE_KERNEL_DATA;
   0xfc00000 ||| PTE_KERNEL_DATA; 0xfe00000 ||| PTE_KERNEL_DATA; 0x10000000 ||| PTE_KERNEL_DATA;
   0x10200000 ||| PTE_KERNEL_DATA; 0x10400000 ||| PTE_KERNEL_DATA; 0x10600000 ||| PTE_KERNEL_DATA;
   0x10800000 ||| PTE_KERNEL_DATA; 0x10a00000 ||| PTE_KERNEL_DATA; 0x10c00000 ||| PTE_KERNEL_DATA;
   0x10e00000 ||| PTE_KERNEL_DATA; 0x11000000 ||| PTE_KERNEL_DATA; 0x11200000 ||| PTE_KERNEL_DATA;
   0x11400000 ||| PTE_KERNEL_DATA; 0x11600000 ||| PTE_KERNEL_DATA; 0x11800000 ||| PTE_KERNEL_DATA;
   0x11a00000 ||| PTE_KERNEL_DATA; 0x11c00000 ||| PTE_KERNEL_DATA; 0x11e00000 ||| PTE_KERNEL_DATA;
   0x12000000 ||| PTE_KERNEL_DATA; 0x12200000 ||| PTE_KERNEL_DATA; 0x12400000 ||| PTE_KERNEL_DATA;
   0x12600000 ||| PTE_KERNEL_DATA; 0x12800000 ||| PTE_KERNEL_DATA; 0x12a00000 ||| PTE_KERNEL_DATA;
   0x12c00000 ||| PTE_KERNEL_DATA; 0x12e00000 ||| PTE_KERNEL_DATA; 0x13000000 ||| PTE_KERNEL_DATA;
   0x13200000 ||| PTE_KERNEL_DATA; 0x13400000 ||| PTE_KERNEL_DATA; 0x13600000 ||| PTE_KERNEL_DATA;
   0x13800000 ||| PTE_KERNEL_DATA; 0x13a00000 ||| PTE_KERNEL_DATA; 0x13c00000 ||| PTE_KERNEL_DATA;
   0x13e00000 ||| PTE_KERNEL_DATA; 0x14000000 ||| PTE_KERNEL_DATA; 0x14200000 ||| PTE_KERNEL_DATA;
   0x14400000 ||| PTE_KERNEL_DATA; 0x14600000 ||| PTE_KERNEL_DATA; 0x14800000 ||| PTE_KERNEL_DATA;
   0x14a00000 ||| PTE_KERNEL_DATA; 0x14c00000 ||| PTE_KERNEL_DATA; 0x14e00000 ||| PTE_KERNEL_DATA;
   0x15000000 ||| PTE_KERNEL_DATA; 0x15200000 ||| PTE_KERNEL_DATA; 0x15400000 ||| PTE_KERNEL_DATA;
   0x15600000 ||| PTE_KERNEL_DATA; 0x15800000 ||| PTE_KERNEL_DATA; 0x15a00000 ||| PTE_KERNEL_DATA;
   0x15c00000 ||| PTE_KERNEL_DATA; 0x15e00000 ||| PTE_KERNEL_DATA; 0x16000000 ||| PTE_KERNEL_DATA;
   0x16200000 ||| PTE_KERNEL_DATA; 0x16400000 ||| PTE_KERNEL_DATA; 0x16600000 ||| PTE_KERNEL_DATA;
   0x16800000 ||| PTE_KERNEL_DATA; 0x16a00000 ||| PTE_KERNEL_DATA; 0x16c00000 ||| PTE_KERNEL_DATA;
   0x16e00000 ||| PTE_KERNEL_DATA; 0x17000000 ||| PTE_KERNEL_DATA; 0x17200000 ||| PTE_KERNEL_DATA;
   0x17400000 ||| PTE_KERNEL_DATA; 0x17600000 ||| PTE_KERNEL_DATA; 0x17800000 ||| PTE_KERNEL_DATA;
   0x17a00000 ||| PTE_KERNEL_DATA; 0x17c00000 ||| PTE_KERNEL_DATA; 0x17e00000 ||| PTE_KERNEL_DATA;
   0x18000000 ||| PTE_KERNEL_DATA; 0x18200000 ||| PTE_KERNEL_DATA; 0x18400000 ||| PTE_KERNEL_DATA;
   0x18600000 ||| PTE_KERNEL_DATA; 0x18800000 ||| PTE_KERNEL_DATA; 0x18a00000 ||| PTE_KERNEL_DATA;
   0x18c00000 ||| PTE_KERNEL_DATA; 0x18e00000 ||| PTE_KERNEL_DATA; 0x19000000 ||| PTE_KERNEL_DATA;
   0x19200000 ||| PTE_KERNEL_DATA; 0x19400000 ||| PTE_KERNEL_DATA; 0x19600000 ||| PTE_KERNEL_DATA;
   0x19800000 ||| PTE_KERNEL_DATA; 0x19a00000 ||| PTE_KERNEL_DATA; 0x19c00000 ||| PTE_KERNEL_DATA;
   0x19e00000 ||| PTE_KERNEL_DATA; 0x1a000000 ||| PTE_KERNEL_DATA; 0x1a200000 ||| PTE_KERNEL_DATA;
   0x1a400000 ||| PTE_KERNEL_DATA; 0x1a600000 ||| PTE_KERNEL_DATA; 0x1a800000 ||| PTE_KERNEL_DATA;
   0x1aa00000 ||| PTE_KERNEL_DATA; 0x1ac00000 ||| PTE_KERNEL_DATA; 0x1ae00000 ||| PTE_KERNEL_DATA;
   0x1b000000 ||| PTE_KERNEL_DATA; 0x1b200000 ||| PTE_KERNEL_DATA; 0x1b400000 ||| PTE_KERNEL_DATA;
   0x1b600000 ||| PTE_KERNEL_DATA; 0x1b800000 ||| PTE_KERNEL_DATA; 0x1ba00000 ||| PTE_KERNEL_DATA;
   0x1bc00000 ||| PTE_KERNEL_DATA; 0x1be00000 ||| PTE_KERNEL_DATA; 0x1c000000 ||| PTE_KERNEL_DATA;
   0x1c200000 ||| PTE_KERNEL_DATA; 0x1c400000 ||| PTE_KERNEL_DATA; 0x1c600000 ||| PTE_KERNEL_DATA;
   0x1c800000 ||| PTE_KERNEL_DATA; 0x1ca00000 ||| PTE_KERNEL_DATA; 0x1cc00000 ||| PTE_KERNEL_DATA;
   0x1ce00000 ||| PTE_KERNEL_DATA; 0x1d000000 ||| PTE_KERNEL_DATA; 0x1d200000 ||| PTE_KERNEL_DATA;
   0x1d400000 ||| PTE_KERNEL_DATA; 0x1d600000 ||| PTE_KERNEL_DATA; 0x1d800000 ||| PTE_KERNEL_DATA;
   0x1da00000 ||| PTE_KERNEL_DATA; 0x1dc00000 ||| PTE_KERNEL_DATA; 0x1de00000 ||| PTE_KERNEL_DATA;
   0x1e000000 ||| PTE_KERNEL_DATA; 0x1e200000 ||| PTE_KERNEL_DATA; 0x1e400000 ||| PTE_KERNEL_DATA;
   0x1e600000 ||| PTE_KERNEL_DATA; 0x1e800000 ||| PTE_KERNEL_DATA; 0x1ea00000 ||| PTE_KERNEL_DATA;
   0x1ec00000 ||| PTE_KERNEL_DATA; 0x1ee00000 ||| PTE_KERNEL_DATA; 0x1f000000 ||| PTE_KERNEL_DATA;
   0x1f200000 ||| PTE_KERNEL_DATA; 0x1f400000 ||| PTE_KERNEL_DATA; 0x1f600000 ||| PTE_KERNEL_DATA;
   0x1f800000 ||| PTE_KERNEL_DATA; 0x1fa00000 ||| PTE_KERNEL_DATA; 0x1fc00000 ||| PTE_KERNEL_DATA;
   0x1fe00000 ||| PTE_KERNEL_DATA; 0x20000000 ||| PTE_KERNEL_DATA; 0x20200000 ||| PTE_KERNEL_DATA;
   0x20400000 ||| PTE_KERNEL_DATA; 0x20600000 ||| PTE_KERNEL_DATA; 0x20800000 ||| PTE_KERNEL_DATA;
   0x20a00000 ||| PTE_KERNEL_DATA; 0x20c00000 ||| PTE_KERNEL_DATA; 0x20e00000 ||| PTE_KERNEL_DATA;
   0x21000000 ||| PTE_KERNEL_DATA; 0x21200000 ||| PTE_KERNEL_DATA; 0x21400000 ||| PTE_KERNEL_DATA;
   0x21600000 ||| PTE_KERNEL_DATA; 0x21800000 ||| PTE_KERNEL_DATA; 0x21a00000 ||| PTE_KERNEL_DATA;
   0x21c00000 ||| PTE_KERNEL_DATA; 0x21e00000 ||| PTE_KERNEL_DATA; 0x22000000 ||| PTE_KERNEL_DATA;
   0x22200000 ||| PTE_KERNEL_DATA; 0x22400000 ||| PTE_KERNEL_DATA; 0x22600000 ||| PTE_KERNEL_DATA;
   0x22800000 ||| PTE_KERNEL_DATA; 0x22a00000 ||| PTE_KERNEL_DATA; 0x22c00000 ||| PTE_KERNEL_DATA;
   0x22e00000 ||| PTE_KERNEL_DATA; 0x23000000 ||| PTE_KERNEL_DATA; 0x23200000 ||| PTE_KERNEL_DATA;
   0x23400000 ||| PTE_KERNEL_DATA; 0x23600000 ||| PTE_KERNEL_DATA; 0x23800000 ||| PTE_KERNEL_DATA;
   0x23a00000 ||| PTE_KERNEL_DATA; 0x23c00000 ||| PTE_KERNEL_DATA; 0x23e00000 ||| PTE_KERNEL_DATA;
   0x24000000 ||| PTE_KERNEL_DATA; 0x24200000 ||| PTE_KERNEL_DATA; 0x24400000 ||| PTE_KERNEL_DATA;
   0x24600000 ||| PTE_KERNEL_DATA; 0x24800000 ||| PTE_KERNEL_DATA; 0x24a00000 ||| PTE_KERNEL_DATA;
   0x24c00000 ||| PTE_KERNEL_DATA; 0x24e00000 ||| PTE_KERNEL_DATA; 0x25000000 ||| PTE_KERNEL_DATA;
   0x25200000 ||| PTE_KERNEL_DATA; 0x25400000 ||| PTE_KERNEL_DATA; 0x25600000 ||| PTE_KERNEL_DATA;
   0x25800000 ||| PTE_KERNEL_DATA; 0x25a00000 ||| PTE_KERNEL_DATA; 0x25c00000 ||| PTE_KERNEL_DATA;
   0x25e00000 ||| PTE_KERNEL_DATA; 0x26000000 ||| PTE_KERNEL_DATA; 0x26200000 ||| PTE_KERNEL_DATA;
   0x26400000 ||| PTE_KERNEL_DATA; 0x26600000 ||| PTE_KERNEL_DATA; 0x26800000 ||| PTE_KERNEL_DATA;
   0x26a00000 ||| PTE_KERNEL_DATA; 0x26c00000 ||| PTE_KERNEL_DATA; 0x26e00000 ||| PTE_KERNEL_DATA;
   0x27000000 ||| PTE_KERNEL_DATA; 0x27200000 ||| PTE_KERNEL_DATA; 0x27400000 ||| PTE_KERNEL_DATA;
   0x27600000 ||| PTE_KERNEL_DATA; 0x27800000 ||| PTE_KERNEL_DATA; 0x27a00000 ||| PTE_KERNEL_DATA;
   0x27c00000 ||| PTE_KERNEL_DATA; 0x27e00000 ||| PTE_KERNEL_DATA; 0x28000000 ||| PTE_KERNEL_DATA;
   0x28200000 ||| PTE_KERNEL_DATA; 0x28400000 ||| PTE_KERNEL_DATA; 0x28600000 ||| PTE_KERNEL_DATA;
   0x28800000 ||| PTE_KERNEL_DATA; 0x28a00000 ||| PTE_KERNEL_DATA; 0x28c00000 ||| PTE_KERNEL_DATA;
   0x28e00000 ||| PTE_KERNEL_DATA; 0x29000000 ||| PTE_KERNEL_DATA; 0x29200000 ||| PTE_KERNEL_DATA;
   0x29400000 ||| PTE_KERNEL_DATA; 0x29600000 ||| PTE_KERNEL_DATA; 0x29800000 ||| PTE_KERNEL_DATA;
   0x29a00000 ||| PTE_KERNEL_DATA; 0x29c00000 ||| PTE_KERNEL_DATA; 0x29e00000 ||| PTE_KERNEL_DATA;
   0x2a000000 ||| PTE_KERNEL_DATA; 0x2a200000 ||| PTE_KERNEL_DATA; 0x2a400000 ||| PTE_KERNEL_DATA;
   0x2a600000 ||| PTE_KERNEL_DATA; 0x2a800000 ||| PTE_KERNEL_DATA; 0x2aa00000 ||| PTE_KERNEL_DATA;
   0x2ac00000 ||| PTE_KERNEL_DATA; 0x2ae00000 ||| PTE_KERNEL_DATA; 0x2b000000 ||| PTE_KERNEL_DATA;
   0x2b200000 ||| PTE_KERNEL_DATA; 0x2b400000 ||| PTE_KERNEL_DATA; 0x2b600000 ||| PTE_KERNEL_DATA;
   0x2b800000 ||| PTE_KERNEL_DATA; 0x2ba00000 ||| PTE_KERNEL_DATA; 0x2bc00000 ||| PTE_KERNEL_DATA;
   0x2be00000 ||| PTE_KERNEL_DATA; 0x2c000000 ||| PTE_KERNEL_DATA; 0x2c200000 ||| PTE_KERNEL_DATA;
   0x2c400000 ||| PTE_KERNEL_DATA; 0x2c600000 ||| PTE_KERNEL_DATA; 0x2c800000 ||| PTE_KERNEL_DATA;
   0x2ca00000 ||| PTE_KERNEL_DATA; 0x2cc00000 ||| PTE_KERNEL_DATA; 0x2ce00000 ||| PTE_KERNEL_DATA;
   0x2d000000 ||| PTE_KERNEL_DATA; 0x2d200000 ||| PTE_KERNEL_DATA; 0x2d400000 ||| PTE_KERNEL_DATA;
   0x2d600000 ||| PTE_KERNEL_DATA; 0x2d800000 ||| PTE_KERNEL_DATA; 0x2da00000 ||| PTE_KERNEL_DATA;
   0x2dc00000 ||| PTE_KERNEL_DATA; 0x2de00000 ||| PTE_KERNEL_DATA; 0x2e000000 ||| PTE_KERNEL_DATA;
   0x2e200000 ||| PTE_KERNEL_DATA; 0x2e400000 ||| PTE_KERNEL_DATA; 0x2e600000 ||| PTE_KERNEL_DATA;
   0x2e800000 ||| PTE_KERNEL_DATA; 0x2ea00000 ||| PTE_KERNEL_DATA; 0x2ec00000 ||| PTE_KERNEL_DATA;
   0x2ee00000 ||| PTE_KERNEL_DATA; 0x2f000000 ||| PTE_KERNEL_DATA; 0x2f200000 ||| PTE_KERNEL_DATA;
   0x2f400000 ||| PTE_KERNEL_DATA; 0x2f600000 ||| PTE_KERNEL_DATA; 0x2f800000 ||| PTE_KERNEL_DATA;
   0x2fa00000 ||| PTE_KERNEL_DATA; 0x2fc00000 ||| PTE_KERNEL_DATA; 0x2fe00000 ||| PTE_KERNEL_DATA;
   0x30000000 ||| PTE_KERNEL_DATA; 0x30200000 ||| PTE_KERNEL_DATA; 0x30400000 ||| PTE_KERNEL_DATA;
   0x30600000 ||| PTE_KERNEL_DATA; 0x30800000 ||| PTE_KERNEL_DATA; 0x30a00000 ||| PTE_KERNEL_DATA;
   0x30c00000 ||| PTE_KERNEL_DATA; 0x30e00000 ||| PTE_KERNEL_DATA; 0x31000000 ||| PTE_KERNEL_DATA;
   0x31200000 ||| PTE_KERNEL_DATA; 0x31400000 ||| PTE_KERNEL_DATA; 0x31600000 ||| PTE_KERNEL_DATA;
   0x31800000 ||| PTE_KERNEL_DATA; 0x31a00000 ||| PTE_KERNEL_DATA; 0x31c00000 ||| PTE_KERNEL_DATA;
   0x31e00000 ||| PTE_KERNEL_DATA; 0x32000000 ||| PTE_KERNEL_DATA; 0x32200000 ||| PTE_KERNEL_DATA;
   0x32400000 ||| PTE_KERNEL_DATA; 0x32600000 ||| PTE_KERNEL_DATA; 0x32800000 ||| PTE_KERNEL_DATA;
   0x32a00000 ||| PTE_KERNEL_DATA; 0x32c00000 ||| PTE_KERNEL_DATA; 0x32e00000 ||| PTE_KERNEL_DATA;
   0x33000000 ||| PTE_KERNEL_DATA; 0x33200000 ||| PTE_KERNEL_DATA; 0x33400000 ||| PTE_KERNEL_DATA;
   0x33600000 ||| PTE_KERNEL_DATA; 0x33800000 ||| PTE_KERNEL_DATA; 0x33a00000 ||| PTE_KERNEL_DATA;
   0x33c00000 ||| PTE_KERNEL_DATA; 0x33e00000 ||| PTE_KERNEL_DATA; 0x34000000 ||| PTE_KERNEL_DATA;
   0x34200000 ||| PTE_KERNEL_DATA; 0x34400000 ||| PTE_KERNEL_DATA; 0x34600000 ||| PTE_KERNEL_DATA;
   0x34800000 ||| PTE_KERNEL_DATA; 0x34a00000 ||| PTE_KERNEL_DATA; 0x34c00000 ||| PTE_KERNEL_DATA;
   0x34e00000 ||| PTE_KERNEL_DATA; 0x35000000 ||| PTE_KERNEL_DATA; 0x35200000 ||| PTE_KERNEL_DATA;
   0x35400000 ||| PTE_KERNEL_DATA; 0x35600000 ||| PTE_KERNEL_DATA; 0x35800000 ||| PTE_KERNEL_DATA;
   0x35a00000 ||| PTE_KERNEL_DATA; 0x35c00000 ||| PTE_KERNEL_DATA; 0x35e00000 ||| PTE_KERNEL_DATA;
   0x36000000 ||| PTE_KERNEL_DATA; 0x36200000 ||| PTE_KERNEL_DATA; 0x36400000 ||| PTE_KERNEL_DATA;
   0x36600000 ||| PTE_KERNEL_DATA; 0x36800000 ||| PTE_KERNEL_DATA; 0x36a00000 ||| PTE_KERNEL_DATA;
   0x36c00000 ||| PTE_KERNEL_DATA; 0x36e00000 ||| PTE_KERNEL_DATA; 0x37000000 ||| PTE_KERNEL_DATA;
   0x37200000 ||| PTE_KERNEL_DATA; 0x37400000 ||| PTE_KERNEL_DATA; 0x37600000 ||| PTE_KERNEL_DATA;
   0x37800000 ||| PTE_KERNEL_DATA; 0x37a00000 ||| PTE_KERNEL_DATA; 0x37c00000 ||| PTE_KERNEL_DATA;
   0x37e00000 ||| PTE_KERNEL_DATA; 0x38000000 ||| PTE_KERNEL_DATA; 0x38200000 ||| PTE_KERNEL_DATA;
   0x38400000 ||| PTE_KERNEL_DATA; 0x38600000 ||| PTE_KERNEL_DATA; 0x38800000 ||| PTE_KERNEL_DATA;
   0x38a00000 ||| PTE_KERNEL_DATA; 0x38c00000 ||| PTE_KERNEL_DATA; 0x38e00000 ||| PTE_KERNEL_DATA;
   0x39000000 ||| PTE_KERNEL_DATA; 0x39200000 ||| PTE_KERNEL_DATA; 0x39400000 ||| PTE_KERNEL_DATA;
   0x39600000 ||| PTE_KERNEL_DATA; 0x39800000 ||| PTE_KERNEL_DATA; 0x39a00000 ||| PTE_KERNEL_DATA;
   0x39c00000 ||| PTE_KERNEL_DATA; 0x39e00000 ||| PTE_KERNEL_DATA; 0x3a000000 ||| PTE_KERNEL_DATA;
   0x3a200000 ||| PTE_KERNEL_DATA; 0x3a400000 ||| PTE_KERNEL_DATA; 0x3a600000 ||| PTE_KERNEL_DATA;
   0x3a800000 ||| PTE_KERNEL_DATA; 0x3aa00000 ||| PTE_KERNEL_DATA; 0x3ac00000 ||| PTE_KERNEL_DATA;
   0x3ae00000 ||| PTE_KERNEL_DATA; 0x3b000000 ||| PTE_KERNEL_DATA; 0x3b200000 ||| PTE_KERNEL_DATA;
   0x3b400000 ||| PTE_KERNEL_DATA; 0x3b600000 ||| PTE_KERNEL_DATA; 0x3b800000 ||| PTE_KERNEL_DATA;
   0x3ba00000 ||| PTE_KERNEL_DATA; 0x3bc00000 ||| PTE_KERNEL_DATA; 0x3be00000 ||| PTE_KERNEL_DATA;
   0x3c000000 ||| PTE_KERNEL_DATA; 0x3c200000 ||| PTE_KERNEL_DATA; 0x3c400000 ||| PTE_KERNEL_DATA;
   0x3c600000 ||| PTE_KERNEL_DATA; 0x3c800000 ||| PTE_KERNEL_DATA; 0x3ca00000 ||| PTE_KERNEL_DATA;
   0x3cc00000 ||| PTE_KERNEL_DATA; 0x3ce00000 ||| PTE_KERNEL_DATA; 0x3d000000 ||| PTE_KERNEL_DATA;
   0x3d200000 ||| PTE_KERNEL_DATA; 0x3d400000 ||| PTE_KERNEL_DATA; 0x3d600000 ||| PTE_KERNEL_DATA;
   0x3d800000 ||| PTE_KERNEL_DATA; 0x3da00000 ||| PTE_KERNEL_DATA; 0x3dc00000 ||| PTE_KERNEL_DATA;
   0x3de00000 ||| PTE_KERNEL_DATA; 0x3e000000 ||| PTE_KERNEL_DATA; 0x3e200000 ||| PTE_KERNEL_DATA;
   0x3e400000 ||| PTE_KERNEL_DATA; 0x3e600000 ||| PTE_KERNEL_DATA; 0x3e800000 ||| PTE_KERNEL_DATA;
   0x3ea00000 ||| PTE_KERNEL_DATA; 0x3ec00000 ||| PTE_KERNEL_DATA; 0x3ee00000 ||| PTE_KERNEL_DATA;
   0x3f000000 ||| PTE_KERNEL_DEVICE; 0x3f200000 ||| PTE_KERNEL_DEVICE; 0x3f400000 ||| PTE_KERNEL_DEVICE;
   0x3f600000 ||| PTE_KERNEL_DEVICE; 0x3f800000 ||| PTE_KERNEL_DEVICE; 0x3fa00000 ||| PTE_KERNEL_DEVICE;
   0x3fc00000 ||| PTE_KERNEL_DEVICE; 0x3fe00000 ||| PTE_KERNEL_DEVICE].

(** The addresses the linker gives to the tables of the second and third level. *)
Section tables.
Context (level2 level3 : Z).

Definition kernel_pt_level2 : list Z := PTEntries
  [u64 (K2P level3 + PTE_TABLE);
   0x40000000 ||| PTE_KERNEL_DEVICE;
   0;
   0xC0000000 ||| PTE_KERNEL_DEVICE].

Definition kernel_pt : list Z := PTEntries [u64 (K2P level2 + PTE_TABLE)].

Definition invalid_pt : list Z := PTEntries [0].
End tables.

(** ** The page table walk of the hardware *)

(** [mem] gives the table at a physical address; [shifts] are the positions of the index
    fields of the remaining levels.  A block is allowed at 1 GiB and 2 MiB only. *)
Fixpoint walk (mem : Z → option (list Z)) (shifts : list Z) (table va : Z) : option (Z * Z) :=
  match shifts with
  | [] => None
  | k :: shifts =>
      t ← mem table;
      e ← t !! Z.to_nat ((va / 2 ^ k) mod 512);
      if e mod 4 =? 3 then
        if k =? 12 then Some (PTE_ADDRESS e + va mod 2 ^ k, PTE_FLAGS e)
        else walk mem shifts (PTE_ADDRESS e) va
      else if (e mod 4 =? 1) && ((k =? 30) || (k =? 21)) then
        Some (PTE_ADDRESS e / 2 ^ k * 2 ^ k + va mod 2 ^ k, PTE_FLAGS e)
      else None
  end.

(** the table base register holds the physical address [ttbr] *)
Definition translate (mem : Z → option (list Z)) (ttbr va : Z) : option (Z * Z) :=
  walk mem [39; 30; 21; 12] ttbr va.

(** The memory holding the three tables. *)
Definition boot_mem (level1 level2 level3 : Z) (p : Z) : option (list Z) :=
  if p =? K2P level1 then Some (kernel_pt level2)
  else if p =? K2P level2 then Some (kernel_pt_level2 level3)
  else if p =? K2P level3 then Some kernel_pt_level3
  else None.

(** The tables are page aligned and linked at kernel addresses. *)
Definition page_at (p : Z) : Prop := KSPACE_MASK ≤ p < 2 ^ 64 ∧ p mod 4096 = 0.

Lemma level3_entries i :
  0 ≤ i < 512 →
  kernel_pt_level3 !! Z.to_nat i =
    Some (i * 2 ^ 21 + (if i <? 504 then PTE_KERNEL_DATA else PTE_KERNEL_DEVICE)).
Proof.
  intros Hi.
  assert (kernel_pt_level3 =
    (λ i, i * 2 ^ 21 + (if i <? 504 then PTE_KERNEL_DATA else PTE_KERNEL_DEVICE)) <$> zseq 0 512)
    as -> by (vm_compute; reflexivity).
  rewrite list_lookup_fmap, lookup_zseq by lia. simpl. by rewrite Z2Nat.id by lia.
Qed.

Lemma PTEntries_lookup l i :
  0 ≤ i < 512 → (length l ≤ 512)%nat →
  PTEntries l !! Z.to_nat i = Some (default 0 (l !! Z.to_nat i)).
Proof.
  intros Hi Hl. unfold PTEntries. destruct (l !! Z.to_nat i) as [x|] eqn:E.
  - by apply lookup_app_l_Some.
  - apply lookup_ge_None in E. rewrite lookup_app_r by done.
    rewrite lookup_replicate_2 by (change (Z.to_nat N_PTE_PER_TABLE) with 512%nat; lia). done.
Qed.

Lemma table_entry p :
  page_at p → u64 (K2P p + PTE_TABLE) mod 4 = 3 ∧ PTE_ADDRESS (u64 (K2P p + PTE_TABLE)) = K2P p.
Proof.
  intros [Hp Ha]. rewrite PTE_ADDRESS_eq. unfold K2P, u64, KSPACE_MASK, PTE_TABLE in *.
  change (2 ^ 64) with 18446744073709551616 in *. change (2 ^ 36) with 68719476736. split; zmod.
Qed.

Lemma K2P_inj p q : page_at p → page_at q → K2P p = K2P q → p = q.
Proof.
  intros [Hp _] [Hq _]. unfold K2P, u64, KSPACE_MASK in *.
  change (2 ^ 64) with 18446744073709551616 in *. zmod.
Qed.

(** A 1 GiB or 2 MiB block or an unused entry. *)
Lemma block_entry k i f off :
  k ∈ [21; 30] → 0 ≤ i < 512 → f ∈ [PTE_KERNEL_DATA; PTE_KERNEL_DEVICE] → 0 ≤ off < 2 ^ k →
  let e := i * 2 ^ k + f in
  e mod 4 = 1 ∧ PTE_ADDRESS e / 2 ^ k * 2 ^ k + off = i * 2 ^ k + off ∧ PTE_FLAGS e = f.
Proof.
  intros Hk Hi Hf Hoff e.
  assert (0 ≤ f < 4096 ∧ f mod 4 = 1) as [Hf1 Hf2] by (set_unfold in Hf; destruct Hf as [->|[->|[]]]; done).
  assert (e mod 4096 = f ∧ 0 ≤ e < 2 ^ 48 ∧ e / 2 ^ k = i) as (E1 & E2 & E3).
  { unfold e. set_unfold in Hk. destruct Hk as [->|[->|[]]]; change (2 ^ 48) with 281474976710656;
      [change (2 ^ 21) with 2097152|change (2 ^ 30) with 1073741824]; zmod. }
  split; [clear -Hf2 E1; zmod|]. split.
  - rewrite PTE_ADDRESS_eq. rewrite (Z.mod_small (e / 4096)).
    2:{ change (2 ^ 36) with 68719476736. change (2 ^ 48) with 281474976710656 in E2. zmod. }
    assert (e / 4096 * 4096 = i * 2 ^ k) as -> by (unfold e in *; zmod).
    rewrite Z.div_mul by (apply Z.pow_nonzero; set_unfold in Hk; lia). done.
  - by rewrite PTE_FLAGS_eq.
Qed.

(** One level of the walk that reads a table entry. *)
Lemma walk_table mem k shifts table va t p :
  mem table = Some t → t !! Z.to_nat ((va / 2 ^ k) mod 512) = Some (u64 (K2P p + PTE_TABLE)) →
  page_at p → k ≠ 12 → walk mem (k :: shifts) table va = walk mem shifts (K2P p) va.
Proof.
  intros Et El Hp Hk. destruct (table_entry p Hp) as [E3 Ea].
  simpl. rewrite Et. cbn [mbind option_bind]. rewrite El. cbn [mbind option_bind].
  by rewrite E3, Ea, (proj2 (Z.eqb_neq _ _) Hk).
Qed.

(** One that reads a block entry. *)
Lemma walk_block mem k shifts table va t i f :
  mem table = Some t → t !! Z.to_nat ((va / 2 ^ k) mod 512) = Some (i * 2 ^ k + f) →
  k ∈ [21; 30] → 0 ≤ i < 512 → f ∈ [PTE_KERNEL_DATA; PTE_KERNEL_DEVICE] →
  walk mem (k :: shifts) table va = Some (i * 2 ^ k + va mod 2 ^ k, f).
Proof.
  intros Et El Hk Hi Hf.
  destruct (block_entry k i f (va mod 2 ^ k) Hk Hi Hf) as (E1 & E2 & E3).
  { apply Z.mod_pos_bound, Z.pow_pos_nonneg; set_unfold in Hk; lia. }
  simpl. rewrite Et. cbn [mbind option_bind]. rewrite El. cbn [mbind option_bind].
  rewrite E1, E2, E3. set_unfold in Hk. destruct Hk as [->|[->|[]]]; done.
Qed.

(** One that reads an unused entry. *)
Lemma walk_none mem k shifts table va t :
  mem table = Some t → t !! Z.to_nat ((va / 2 ^ k) mod 512) = Some 0 →
  walk mem (k :: shifts) table va = None.
Proof.
  intros Et El. simpl. rewrite Et. cbn [mbind option_bind]. rewrite El. done.
Qed.

(** the fields of a kernel address are those of the physical one *)
Lemma P2K_field pa k :
  0 ≤ pa < 2 ^ 48 → k ∈ [39; 30; 21] →
  (P2K pa / 2 ^ k) mod 512 = (pa / 2 ^ k) mod 512 ∧ P2K pa mod 2 ^ k = pa mod 2 ^ k.
Proof.
  intros Hpa Hk. change (2 ^ 48) with 281474976710656 in Hpa.
  assert (P2K pa = pa + KSPACE_MASK) as -> by (apply u64_id; unfold KSPACE_MASK; lia).
  unfold KSPACE_MASK.
  set_unfold in Hk. destruct Hk as [->|[->|[->|[]]]];
    [change (2 ^ 39) with 549755813888|change (2 ^ 30) with 1073741824
    |change (2 ^ 21) with 2097152]; zmod.
Qed.

(** the entries of the first two tables, as [walk_table] and [walk_block] want them *)
Lemma level1_entry level2 i :
  0 ≤ i < 512 →
  kernel_pt level2 !! Z.to_nat i = Some (if i =? 0 then u64 (K2P level2 + PTE_TABLE) else 0).
Proof.
  intros Hi. unfold kernel_pt. rewrite PTEntries_lookup by (simpl; lia). f_equal.
  destruct (Z.eqb_spec i 0) as [->|]; [done|].
  rewrite lookup_ge_None_2; [done|]. simpl. lia.
Qed.
Lemma level2_entry level3 i :
  0 ≤ i < 512 →
  kernel_pt_level2 level3 !! Z.to_nat i = Some
    (if i =? 0 then u64 (K2P level3 + PTE_TABLE)
     else if (i =? 1) || (i =? 3) then i * 2 ^ 30 + PTE_KERNEL_DEVICE else 0).
Proof.
  intros Hi. unfold kernel_pt_level2. rewrite PTEntries_lookup by (simpl; lia). f_equal.
  destruct (decide (i < 4)).
  - assert (i = 0 ∨ i = 1 ∨ i = 2 ∨ i = 3) as Hc by lia.
    by destruct Hc as [->|[->|[->| ->]]].
  - rewrite lookup_ge_None_2 by (simpl; lia).
    by rewrite !(proj2 (Z.eqb_neq _ _)) by lia.
Qed.

Section translation.
Context (level1 level2 level3 : Z).
Context (Hl1 : page_at level1) (Hl2 : page_at level2) (Hl3 : page_at level3).
Context (D12 : level1 ≠ level2) (D13 : level1 ≠ level3) (D23 : level2 ≠ level3).

Lemma boot_mem_1 : boot_mem level1 level2 level3 (K2P level1) = Some (kernel_pt level2).
Proof using. unfold boot_mem. by rewrite Z.eqb_refl. Qed.
Lemma boot_mem_2 : boot_mem level1 level2 level3 (K2P level2) = Some (kernel_pt_level2 level3).
Proof using Hl1 Hl2 D12.
  unfold boot_mem. rewrite Z.eqb_refl.
  rewrite (proj2 (Z.eqb_neq _ _)) by (intros E; apply D12; by apply K2P_inj). done.
Qed.
Lemma boot_mem_3 : boot_mem level1 level2 level3 (K2P level3) = Some kernel_pt_level3.
Proof using Hl1 Hl2 Hl3 D13 D23.
  unfold boot_mem. rewrite Z.eqb_refl.
  rewrite !(proj2 (Z.eqb_neq _ _)); [done| |]; intros E; [apply D23|apply D13]; by apply K2P_inj.
Qed.

(** Decide the comparisons of the statement. *)
Ltac cases := repeat match goal with
  | |- context [?a <? ?b] => destruct (Z.ltb_spec a b); try lia
  | |- context [?a <=? ?b] => destruct (Z.leb_spec a b); try lia
  end; done.

Lemma kernel_translation_run pa :
  0 ≤ pa < 2 ^ 48 →
  translate (boot_mem level1 level2 level3) (K2P level1) (P2K pa) =
    if pa <? PHYSTOP then Some (pa, PTE_KERNEL_DATA)
    else if (pa <? 0x80000000) || ((0xC0000000 <=? pa) && (pa <? 0x100000000))
    then Some (pa, PTE_KERNEL_DEVICE)
    else None.
Proof using Hl1 Hl2 Hl3 D12 D13 D23.
  intros Hpa. unfold translate, PHYSTOP.
  destruct (P2K_field pa 39 Hpa) as [F1 _]; [set_solver|].
  destruct (P2K_field pa 30 Hpa) as [F2 G2]; [set_solver|].
  destruct (P2K_field pa 21 Hpa) as [F3 G3]; [set_solver|].
  pose proof (Z.mod_pos_bound (pa / 2 ^ 39) 512 ltac:(lia)) as B1.
  pose proof (Z.mod_pos_bound (pa / 2 ^ 30) 512 ltac:(lia)) as B2.
  pose proof (Z.mod_pos_bound (pa / 2 ^ 21) 512 ltac:(lia)) as B3.
  set (q1 := (pa / 2 ^ 39) mod 512) in *. set (q2 := (pa / 2 ^ 30) mod 512) in *.
  set (q3 := (pa / 2 ^ 21) mod 512) in *.
  assert (E1 := level1_entry level2 q1 B1). rewrite <-F1 in E1 at 1.
  assert (E2 := level2_entry level3 q2 B2). rewrite <-F2 in E2 at 1.
  assert (E3 := level3_entries q3 B3). rewrite <-F3 in E3 at 1.
  assert (D1 : q1 = pa / 2 ^ 39).
  { apply Z.mod_small. change (2 ^ 48) with 281474976710656 in Hpa.
    change (2 ^ 39) with 549755813888. zmod. }
  change (2 ^ 39) with 549755813888 in D1. change (2 ^ 48) with 281474976710656 in Hpa.
  destruct (Z.eqb_spec q1 0) as [Hq1|Hq1].
  2:{ rewrite (walk_none _ _ _ _ _ _ boot_mem_1 E1).
      assert (549755813888 ≤ pa) by zmod. cases. }
  rewrite (walk_table _ _ _ _ _ _ _ boot_mem_1 E1 Hl2) by done.
  assert (D2 : q2 = pa / 1073741824).
  { apply Z.mod_small. change (2 ^ 30) with 1073741824. zmod. }
  assert (0 ≤ pa < 549755813888) as Hpa1 by zmod.
  destruct (Z.eqb_spec q2 0) as [Hq2|Hq2]; [|destruct ((q2 =? 1) || (q2 =? 3)) eqn:Hq].
  - rewrite (walk_table _ _ _ _ _ _ _ boot_mem_2 E2 Hl3) by done.
    assert (0 ≤ pa < 1073741824) as Hpa2 by zmod.
    assert (D3 : q3 = pa / 2097152).
    { apply Z.mod_small. change (2 ^ 21) with 2097152. zmod. }
    rewrite (walk_block _ _ _ _ _ _ _ _ boot_mem_3 E3 ltac:(set_solver) B3)
      by (destruct (q3 <? 504); set_solver).
    rewrite G3, D3. change (2 ^ 21) with 2097152.
    replace (pa / 2097152 * 2097152 + pa mod 2097152) with pa by zmod.
    destruct (Z.ltb_spec (pa / 2097152) 504).
    + assert (pa < 1056964608) by zmod. cases.
    + assert (1056964608 ≤ pa) by zmod. cases.
  - rewrite (walk_block _ _ _ _ _ _ _ _ boot_mem_2 E2 ltac:(set_solver) B2) by set_solver.
    rewrite G2, D2. change (2 ^ 30) with 1073741824.
    replace (pa / 1073741824 * 1073741824 + pa mod 1073741824) with pa by zmod.
    assert (1073741824 ≤ pa < 2147483648 ∨ 3221225472 ≤ pa < 4294967296) by zmod. cases.
  - rewrite (walk_none _ _ _ _ _ _ boot_mem_2 E2).
    assert (2147483648 ≤ pa < 3221225472 ∨ 4294967296 ≤ pa) by zmod. cases.
Qed.
End translation.

(** C29: with the tables of kernel_pt.c the page table walk maps each kernel address P2K(pa) to
    the physical address pa: below PHYSTOP as ordinary memory, in the ranges the board puts its
    devices in as device memory, and nothing else is mapped. *)
Theorem kernel_translation level1 level2 level3 pa :
  page_at level1 → page_at level2 → page_at level3 → NoDup [level1; level2; level3] →
  0 ≤ pa < 2 ^ 48 →
  translate (boot_mem level1 level2 level3) (K2P level1) (P2K pa) =
    if pa <? PHYSTOP then Some (pa, PTE_KERNEL_DATA)
    else if (pa <? 0x80000000) || ((0xC0000000 <=? pa) && (pa <? 0x100000000))
    then Some (pa, PTE_KERNEL_DEVICE)
    else None.
Proof.
  intros H1 H2 H3 Hnd Hpa. rewrite !NoDup_cons in Hnd.
  apply kernel_translation_run; set_solver.
Qed.

(** the address of the UART *)
Lemma kernel_translation_witness :
  translate (boot_mem 0xffff000000083000 0xffff000000082000 0xffff000000081000)
    (K2P 0xffff000000083000) (P2K 0x3f215040) = Some (0x3f215040, PTE_KERNEL_DEVICE).
Proof.
  refine (kernel_translation _ _ _ 0x3f215040 _ _ _ _ _); [by_decision..|]. split; lia.
Defined.
