(* ===== verification/Mem.v ===== *)
(** * [kernel/mem.c]: physical pages and the kernel heap

    Pages: the pool of unused pages and the reference count of each page frame.  Heap: on each
    CPU a chain of chunks, each a header [node] followed by the bytes it describes; headers
    are kept by address in [nodes].  The lock-free stack [pages] is a list, top first (see
    [Lists.lockfree_stack_sequential]). *)

From Stdlib Require Import ZArith Lia.
From S2P Require Import Prelude Words Sync Mmu Cache.

Record node := mkNode { next : Z; size : Z; free : Z }.
Definition sizeof_node : Z := 16.

Record mem := mkMem {
  alloc_page_cnt : Z;
  memlock : bool;
  refpage : gmap Z Z;
  zero_page : Z;
  pagenum : Z;
  pages : list Z;
  frees : list Z;
  nodes : gmap Z node }.

Definition upd_cnt (f : Z → Z) (m : mem) : mem :=
  mkMem (f (alloc_page_cnt m)) (memlock m) (refpage m) (zero_page m) (pagenum m) (pages m)
    (frees m) (nodes m).
Definition set_memlock (b : bool) (m : mem) : mem :=
  mkMem (alloc_page_cnt m) b (refpage m) (zero_page m) (pagenum m) (pages m) (frees m) (nodes m).
Definition upd_ref (f : gmap Z Z → gmap Z Z) (m : mem) : mem :=
  mkMem (alloc_page_cnt m) (memlock m) (f (refpage m)) (zero_page m) (pagenum m) (pages m)
    (frees m) (nodes m).
Definition set_zero (z : Z) (m : mem) : mem :=
  mkMem (alloc_page_cnt m) (memlock m) (refpage m) z (pagenum m) (pages m) (frees m) (nodes m).
Definition set_pagenum (n : Z) (m : mem) : mem :=
  mkMem (alloc_page_cnt m) (memlock m) (refpage m) (zero_page m) n (pages m) (frees m) (nodes m).
Definition upd_pages (f : list Z → list Z) (m : mem) : mem :=
  mkMem (alloc_page_cnt m) (memlock m) (refpage m) (zero_page m) (pagenum m) (f (pages m))
    (frees m) (nodes m).
Definition upd_frees (f : list Z → list Z) (m : mem) : mem :=
  mkMem (alloc_page_cnt m) (memlock m) (refpage m) (zero_page m) (pagenum m) (pages m)
    (f (frees m)) (nodes m).
Definition upd_nodes (f : gmap Z node → gmap Z node) (m : mem) : mem :=
  mkMem (alloc_page_cnt m) (memlock m) (refpage m) (zero_page m) (pagenum m) (pages m) (frees m)
    (f (nodes m)).

Notation K := (M mem).
Definition mem_lock : SpinLock mem := mkSpinLock memlock set_memlock.

(** ** Pages *)

(** [refpage[K2P(p)/PAGE_SIZE].ref]; the array is zero at the start *)
Definition ref_index (p : Z) : Z := K2P p / PAGE_SIZE.
Definition get_ref (p : Z) : K Z := getopt (λ m,
  if ref_index p <? PHYSTOP / PAGE_SIZE then Some (default 0 (refpage m !! ref_index p)) else None).
Definition set_ref (p v : Z) : K unit := modify (upd_ref <[ref_index p := v]>).

(** [add_to_queue(&pages, p)] *)
Definition add_page (p : Z) : K unit := modify (upd_pages (cons p)).
(** [fetch_from_queue(&pages)] *)
Definition fetch_page : K Z :=
  l ← gets pages;
  match l with
  | [] => mret 0
  | p :: l => modify (upd_pages (λ _, l));; mret p
  end.

Definition init_alloc_page_cnt : K unit :=
  modify (upd_cnt init_rc);; init_spinlock mem_lock.

(** The loop that fills the pool: [p] from [PAGE_BASE(end) + 2*PAGE_SIZE] below [P2K(PHYSTOP)]. *)
Fixpoint add_pages (fuel : nat) (p : Z) : K unit :=
  match fuel with
  | O => nofuel
  | S fuel =>
      if p <? P2K PHYSTOP then
        add_page p;;
        n ← gets pagenum;
        modify (set_pagenum (i32 (n + 1)));;
        add_pages fuel (u64 (p + PAGE_SIZE))
      else mret tt
  end.

(** [end_] is the address of the linker's symbol [end]; the zero page's bytes are kept with the
    page tables' *)
Definition init_pages (end_ : Z) : K unit :=
  add_pages (S (Z.to_nat (PHYSTOP / PAGE_SIZE))) (u64 (PAGE_BASE end_ + 2 * PAGE_SIZE));;
  let z := u64 (PAGE_BASE end_ + PAGE_SIZE) in
  modify (set_zero z);;
  get_ref z;;
  set_ref z 1.

Definition kalloc_page : K Z :=
  modify (upd_cnt increment_rc);;
  page ← fetch_page;
  r ← get_ref page;
  set_ref page (increment_rc r);;
  mret page.

Definition kfree_page (p : Z) : K unit :=
  r ← get_ref p;
  let r := (decrement_rc r).2 in
  set_ref p r;;
  if r =? 0 then
    modify (upd_cnt (λ c, (decrement_rc c).2));;
    add_page p
  else mret tt.

Definition left_page_cnt : K Z := gets (λ m, u64 (pagenum m - alloc_page_cnt m)).
Definition get_zero_page : K Z := gets zero_page.

(** ** The heap *)

Definition get_node (h : Z) : K node := getopt (λ m, nodes m !! h).
Definition set_node (h : Z) (n : node) : K unit := modify (upd_nodes <[h := n]>).

Definition merge (h : Z) : K unit :=
  n ← get_node h;
  let p := next n in
  if p =? 0 then mret tt
  else
    pn ← get_node p;
    let n' :=
      if (free pn =? 1) && (PAGE_BASE h =? PAGE_BASE p)
      then mkNode (next pn) (i32 (size n + u64 (size pn + sizeof_node))) (free n) else n in
    set_node h (mkNode (next n') (size n') 1).

(** the loop over the chain: the chunk found, or 0 *)
Fixpoint kalloc_loop (fuel : nat) (sz h : Z) : K Z :=
  match fuel with
  | O => nofuel
  | S fuel =>
      if h =? 0 then mret 0
      else
        n ← get_node h;
        if free n =? 1 then
          merge h;;
          n ← get_node h;
          if sz <=? size n then mret h else kalloc_loop fuel sz (next n)
        else kalloc_loop fuel sz (next n)
  end.

Section cpu.
Context (cpuid : nat).

Definition head : K Z := getopt (λ m, frees m !! cpuid).

(** a page for the heap, as one chunk in front of the chain *)
Definition kalloc_grow : K Z :=
  p ← kalloc_page;
  f ← head;
  set_node p (mkNode f (PAGE_SIZE - sizeof_node) 1);;
  modify (upd_frees <[cpuid := p]>);;
  mret p.

(** cut the chunk [h] to [sz] bytes *)
Definition kalloc_split (h sz : Z) : K unit :=
  n ← get_node h;
  nx ← (if sizeof_node <? u64 (size n - u64 sz) then
          let p := u64 (u64 (h + sizeof_node) + u64 sz) in
          set_node p (mkNode (next n) (i32 (u64 (u64 (size n - u64 sz) - sizeof_node))) 1);;
          mret p
        else mret (next n));
  set_node h (mkNode nx (i32 sz) 0).

Definition kalloc (size : Z) : K Z :=
  acquire_spinlock mem_lock;;
  let sz := i64 (i64 (Z.quot size 8 + (if Z.rem size 8 =? 0 then 0 else 1)) * 8) in
  f ← head;
  h ← (λ m, kalloc_loop (S (base.size (nodes m))) sz f m);
  h ← (if h =? 0 then kalloc_grow else mret h);
  kalloc_split h sz;;
  release_spinlock mem_lock;;
  mret (u64 (h + sizeof_node)).
End cpu.

Definition kfree (p : Z) : K unit :=
  acquire_spinlock mem_lock;;
  let h := u64 (p - sizeof_node) in
  merge h;;
  release_spinlock mem_lock.

(** ** Swapping *)

(** The page at [ka] is the list of its bytes. *)
Definition write_page_to_disk (page : list Z) : M cachest Z :=
  bno ← find_and_set_8_blocks;
  for_each (zseq 0 8) (λ i, device_write_raw (u32 (bno + i)) (sub (Z.to_nat (i * 512)) 512 page));;
  mret bno.

Fixpoint read_blocks (l : list Z) (bno : Z) : M cachest (list Z) :=
  match l with
  | [] => mret []
  | i :: l =>
      d ← gets disk;
      rest ← read_blocks l bno;
      mret (dread d (u32 (bno + i)) ++ rest)
  end.
Definition read_page_from_disk (bno : Z) : M cachest (list Z) := read_blocks (zseq 0 8) bno.
