(* ===== verification/MemSpec.v ===== *)
(** * The kernel heap is safe

    The invariant of [Mem]'s heap: the chains of the CPUs cover disjoint chunks inside pages of
    their own, in address order within a page.  [kalloc] hands out memory that overlaps nothing
    handed out before, [kfree] gives up one chunk only; swapping a page out and in again gives
    it back. *)

From Stdlib Require Import ZArith Lia.
From S2P Require Import Prelude Words Sync Mmu Cache Mem.

(** ** Ordered pairs of a list *)

Lemma FOP_app {A} (R : A → A → Prop) l1 l2 :
  ForallOrdPairs R (l1 ++ l2) ↔
  ForallOrdPairs R l1 ∧ ForallOrdPairs R l2 ∧ ∀ x y, x ∈ l1 → y ∈ l2 → R x y.
Proof.
  induction l1 as [|a l1 IH]; simpl.
  - split; [|by intros (_ & H & _)]. intros H. split; [apply FOP_nil|]. split; [done|].
    intros x y Hx. by apply not_elem_of_nil in Hx.
  - split.
    + intros H. inversion_clear H as [|?? Ha Hl]. apply IH in Hl as (H1 & H2 & H3).
      rewrite Forall_app, !Forall_forall in Ha.
      destruct Ha as [Ha1 Ha2].
      split; [constructor; [by apply Forall_forall|done]|]. split; [done|set_solver].
    + intros (H1 & H2 & H3). inversion_clear H1 as [|?? Ha Hl].
      constructor; [|apply IH; set_solver].
      rewrite Forall_app, !Forall_forall in *. set_solver.
Qed.

Lemma FOP_cons {A} (R : A → A → Prop) a l :
  ForallOrdPairs R (a :: l) ↔ (∀ y, y ∈ l → R a y) ∧ ForallOrdPairs R l.
Proof.
  split.
  - intros H. inversion_clear H as [|?? Ha Hl]. by rewrite Forall_forall in Ha.
  - intros [Ha Hl]. constructor; [by apply Forall_forall|done].
Qed.

Lemma FOP_impl {A} (R R' : A → A → Prop) l :
  (∀ x y, x ∈ l → y ∈ l → R x y → R' x y) → ForallOrdPairs R l → ForallOrdPairs R' l.
Proof.
  induction l as [|a l IH]; intros Hi Hl; [constructor|]. apply FOP_cons in Hl as [Ha Hl].
  apply FOP_cons. split; [|apply IH; set_solver]. set_solver.
Qed.

(** One list of a list of lists. *)
Lemma concat_lookup {A} (Ls : list (list A)) c l l' :
  Ls !! c = Some l →
  concat Ls = concat (take c Ls) ++ l ++ concat (drop (S c) Ls) ∧
  concat (<[c := l']> Ls) = concat (take c Ls) ++ l' ++ concat (drop (S c) Ls).
Proof.
  intros E. pose proof (lookup_lt_Some _ _ _ E) as Hc. split.
  - rewrite <-(take_drop_middle Ls c l E) at 1. by rewrite concat_app.
  - rewrite insert_take_drop by done. by rewrite concat_app.
Qed.

Lemma elem_of_concat {A} (Ls : list (list A)) i l a : Ls !! i = Some l → a ∈ l → a ∈ concat Ls.
Proof. intros E Ha. destruct (concat_lookup Ls i l [] E) as [-> _]. set_solver. Qed.

Lemma concat_member {A} (Ls : list (list A)) a :
  a ∈ concat Ls → ∃ c l1 l2, Ls !! c = Some (l1 ++ a :: l2).
Proof.
  induction Ls as [|l Ls IH]; simpl; [by intros ?%not_elem_of_nil|].
  rewrite elem_of_app. intros [Ha|Ha].
  - apply list_elem_of_split in Ha as (l1 & l2 & ->). by exists 0%nat, l1, l2.
  - destruct (IH Ha) as (c & l1 & l2 & E). by exists (S c), l1, l2.
Qed.

(** ** The invariant of the heap *)

(** the chain of headers from [h] has the addresses [l] *)
Fixpoint chain (ns : gmap Z node) (h : Z) (l : list Z) : Prop :=
  match l with
  | [] => h = 0
  | a :: l => h = a ∧ a ≠ 0 ∧ ∃ n, ns !! a = Some n ∧ chain ns (next n) l
  end.

(** a chunk lies in one page of the kernel's memory *)
Record chunk (a : Z) (n : node) : Prop := {
  ch_low : KSPACE_MASK ≤ a;
  ch_high : a < KSPACE_MASK + PHYSTOP;
  ch_align : a mod 8 = 0;
  ch_size : 0 ≤ size n;
  ch_size8 : size n mod 8 = 0;
  ch_page : a mod 4096 + 16 + size n ≤ 4096;
  ch_free : free n = 0 ∨ free n = 1 }.

Lemma chunk_bound a n : chunk a n → 0 ≤ size n ≤ 4080.
Proof. intros []. pose proof (Z.mod_pos_bound a 4096 ltac:(lia)). lia. Qed.

Definition chunk_at (ns : gmap Z node) (a : Z) : Prop := ∃ n, ns !! a = Some n ∧ chunk a n.

(** the chunk [a] ends before [b] starts, when both are in one page *)
Definition before (ns : gmap Z node) (a b : Z) : Prop :=
  ∀ n, ns !! a = Some n → a / 4096 = b / 4096 → a + 16 + size n ≤ b.

(** [l] lists the chunks of the heap *)
Record layout (ns : gmap Z node) (l : list Z) : Prop := {
  la_chunk : ∀ a, a ∈ l → chunk_at ns a;
  la_order : ForallOrdPairs (before ns) l }.

Record heap_inv (m : mem) (Ls : list (list Z)) : Prop := {
  hi_chain : Forall2 (chain (nodes m)) (frees m) Ls;
  hi_layout : layout (nodes m) (concat Ls) }.

(** the chunk with its header at [a], [k] bytes long, is handed out *)
Definition live (m : mem) (Ls : list (list Z)) (a k : Z) : Prop :=
  a ∈ concat Ls ∧ ∃ n, nodes m !! a = Some n ∧ free n = 0 ∧ size n = k.

(** *** Chains *)

Lemma chain_replace ns ns' x l1 h l2 l2' :
  chain ns x (l1 ++ h :: l2) → (∀ a, a ∈ l1 → ns' !! a = ns !! a) →
  chain ns' h (h :: l2') → chain ns' x (l1 ++ h :: l2').
Proof.
  revert x. induction l1 as [|a l1 IH]; intros x Hc Ha Hh; simpl in Hc |- *.
  - destruct Hc as (-> & _). apply Hh.
  - destruct Hc as (-> & Hn & n & E & Hc). split; [done|]. split; [done|].
    exists n. rewrite Ha by set_solver. split; [done|]. apply IH; set_solver.
Qed.

Lemma chain_agree ns ns' x l :
  chain ns x l → (∀ a, a ∈ l → ns' !! a = ns !! a) → chain ns' x l.
Proof.
  revert x. induction l as [|a l IH]; intros x Hc Ha; [done|].
  destruct Hc as (-> & Hn & n & E & Hc). split; [done|]. split; [done|].
  exists n. rewrite Ha by set_solver. split; [done|]. apply IH; set_solver.
Qed.

(** the rest of a chain from one of its members *)
Lemma chain_suffix ns x l1 h l2 :
  chain ns x (l1 ++ h :: l2) → chain ns h (h :: l2).
Proof.
  revert x. induction l1 as [|a l1 IH]; intros x Hc; simpl in Hc.
  - destruct Hc as (-> & Hc). done.
  - destruct Hc as (_ & _ & n & _ & Hc). by apply (IH (next n)).
Qed.

(** *** Layouts *)

Lemma layout_app ns l1 l2 :
  layout ns (l1 ++ l2) ↔ layout ns l1 ∧ layout ns l2 ∧ ∀ x y, x ∈ l1 → y ∈ l2 → before ns x y.
Proof.
  split.
  - intros [Hc Ho]. apply FOP_app in Ho as (H1 & H2 & H3).
    split; [|split]; [constructor; set_solver..|done].
  - intros ([C1 O1] & [C2 O2] & H). constructor; [set_solver|]. by apply FOP_app.
Qed.

Lemma layout_cons ns a l :
  layout ns (a :: l) ↔ chunk_at ns a ∧ layout ns l ∧ ∀ y, y ∈ l → before ns a y.
Proof.
  split.
  - intros [Hc Ho]. apply FOP_cons in Ho as [H1 H2].
    split; [set_solver|]. split; [constructor; set_solver|done].
  - intros (C1 & [C2 O2] & H). constructor; [set_solver|]. by apply FOP_cons.
Qed.

Lemma before_agree ns ns' a b : ns' !! a = ns !! a → before ns a b → before ns' a b.
Proof. unfold before. by intros ->. Qed.

Lemma layout_agree ns ns' l :
  layout ns l → (∀ a, a ∈ l → ns' !! a = ns !! a) → layout ns' l.
Proof.
  intros [Hc Ho] Ha. constructor.
  - intros a Hin. unfold chunk_at. rewrite Ha by done. by apply Hc.
  - eapply FOP_impl; [|exact Ho]. intros x y Hx _. by apply before_agree, Ha.
Qed.

(** Chunks in one page do not overlap, so a chunk occurs once. *)
Lemma layout_NoDup ns l : layout ns l → NoDup l.
Proof.
  induction l as [|a l IH]; intros Hl; [constructor|].
  apply layout_cons in Hl as ((n & E & Hn) & Hl & Ho). constructor; [|by apply IH].
  intros Hin. specialize (Ho a Hin n E eq_refl). destruct Hn. lia.
Qed.

Lemma layout_disjoint ns l a b na nb :
  layout ns l → a ∈ l → b ∈ l → a ≠ b → ns !! a = Some na → ns !! b = Some nb →
  a + 16 + size na ≤ b ∨ b + 16 + size nb ≤ a.
Proof.
  intros Hl Ha Hb Hne Ea Eb.
  assert (chunk a na) as Ca by (destruct (la_chunk _ _ Hl a Ha) as (? & ? & ?); by simplify_eq).
  assert (chunk b nb) as Cb by (destruct (la_chunk _ _ Hl b Hb) as (? & ? & ?); by simplify_eq).
  destruct (decide (a / 4096 = b / 4096)) as [Hp|Hp].
  2:{ destruct Ca, Cb. assert (a / 4096 < b / 4096 ∨ b / 4096 < a / 4096) as [|] by lia; zmod. }
  apply list_elem_of_split in Ha as (l1 & l2 & ->).
  apply layout_app in Hl as (_ & Hl & H1). apply layout_cons in Hl as (_ & _ & H2).
  set_unfold in Hb. destruct Hb as [Hb|[Hb|Hb]]; [|done|].
  - right. apply (H1 b a Hb ltac:(set_solver) nb Eb). done.
  - left. by apply (H2 b Hb na Ea).
Qed.

(** The three ways a chunk changes: it keeps its place and may get shorter, it takes in the
    chunk behind it, it is cut in two. *)
Section change.
Context (ns : gmap Z node) (A B : list Z) (h : Z) (n : node) (Hn : ns !! h = Some n).

Lemma layout_shrink n' :
  layout ns (A ++ h :: B) → chunk h n' → size n' ≤ size n →
  layout (<[h := n']> ns) (A ++ h :: B).
Proof using Hn.
  intros Hl Hc Hs. pose proof (layout_NoDup _ _ Hl) as Hnd.
  apply NoDup_app in Hnd as (_ & HA & HB). rewrite NoDup_cons in HB. destruct HB as [HB _].
  apply layout_app in Hl as (H1 & H2 & H3). apply layout_cons in H2 as (H4 & H5 & H6).
  apply layout_app. split; [|split].
  - eapply layout_agree; [done|]. intros a Ha. rewrite lookup_insert_ne; set_solver.
  - apply layout_cons. split; [|split].
    + exists n'. by rewrite lookup_insert_eq.
    + eapply layout_agree; [done|]. intros a Ha. rewrite lookup_insert_ne; set_solver.
    + intros y Hy n0. rewrite lookup_insert_eq. intros [= <-] Hp.
      specialize (H6 y Hy n Hn Hp). lia.
  - intros x y Hx Hy. eapply before_agree; [|by apply H3].
    rewrite lookup_insert_ne; set_solver.
Qed.

Lemma layout_merge p pn n' :
  layout ns (A ++ h :: p :: B) → ns !! p = Some pn → h / 4096 = p / 4096 →
  size n' = size n + size pn + 16 → free n' = 1 →
  layout (<[h := n']> ns) (A ++ h :: B).
Proof using Hn.
  intros Hl Hp Hpage Hs Hf. pose proof (layout_NoDup _ _ Hl) as Hnd.
  apply NoDup_app in Hnd as (_ & HA & HB). rewrite !NoDup_cons in HB. destruct HB as [HB [HB' _]].
  apply layout_app in Hl as (H1 & H2 & H3). apply layout_cons in H2 as (H4 & H5 & H6).
  apply layout_cons in H5 as (H7 & H8 & H9).
  destruct H4 as (n0 & E & C). rewrite Hn in E. injection E as <-.
  destruct H7 as (n1 & E & C1). rewrite Hp in E. injection E as <-.
  pose proof (H6 p ltac:(set_solver) n Hn Hpage) as Hhp. destruct C, C1.
  apply layout_app. split; [|split].
  - eapply layout_agree; [done|]. intros a Ha. rewrite lookup_insert_ne; set_solver.
  - apply layout_cons. split; [|split].
    + exists n'. rewrite lookup_insert_eq. split; [done|].
      constructor; [done|done|done|lia|zmod|zmod|by right].
    + eapply layout_agree; [done|]. intros a Ha. rewrite lookup_insert_ne; set_solver.
    + intros y Hy n0. rewrite lookup_insert_eq. intros [= <-] Hpy.
      specialize (H9 y Hy pn Hp ltac:(congruence)). lia.
  - intros x y Hx Hy. eapply before_agree; [|apply H3; set_solver].
    rewrite lookup_insert_ne; set_solver.
Qed.

Lemma layout_split sz pn n' :
  layout ns (A ++ h :: B) → 0 ≤ sz → sz mod 8 = 0 → 16 < size n - sz →
  size pn = size n - sz - 16 → free pn = 1 → size n' = sz → free n' = 0 →
  layout (<[h := n']> (<[h + 16 + sz := pn]> ns)) (A ++ h :: (h + 16 + sz) :: B) ∧
  h + 16 + sz ∉ A ++ h :: B.
Proof using Hn.
  intros Hl Hsz Hsz8 Hroom Hpn Hpf Hn' Hnf. set (p := h + 16 + sz).
  pose proof (layout_NoDup _ _ Hl) as Hnd.
  apply NoDup_app in Hnd as (_ & HA & HB). rewrite !NoDup_cons in HB. destruct HB as [HB _].
  apply layout_app in Hl as (H1 & H2 & H3). apply layout_cons in H2 as (H4 & H5 & H6).
  destruct H4 as (n0 & E & C). rewrite Hn in E. injection E as <-.
  assert (h / 4096 = p / 4096 ∧ p mod 4096 = h mod 4096 + 16 + sz) as [Hpage Hmod]
    by (destruct C; unfold p; zmod).
  assert (p ≠ h) as Hph by (unfold p; lia).
  assert (∀ x, x ∈ A → x / 4096 = p / 4096 → x < h) as HAlt.
  { intros x Hx Ex. destruct (la_chunk _ _ H1 x Hx) as (nx & Ex' & Cx).
    pose proof (H3 x h Hx ltac:(set_solver) nx Ex' ltac:(congruence)). destruct Cx. lia. }
  assert (p ∉ A ++ h :: B) as Hfresh.
  { intros Hin. set_unfold in Hin. destruct Hin as [Hin|[Hin|Hin]]; [|done|].
    - specialize (HAlt p Hin eq_refl). unfold p in HAlt. lia.
    - specialize (H6 p Hin n Hn Hpage). unfold p in H6. lia. }
  split; [|done]. destruct C.
  assert (∀ a, a ∈ A ++ B → <[h:=n']> (<[p:=pn]> ns) !! a = ns !! a) as Hag.
  { intros a Ha. rewrite !lookup_insert_ne; [done|set_solver|set_solver]. }
  apply layout_app. split; [|split].
  - eapply layout_agree; [done|]. set_solver.
  - apply layout_cons. split; [|split].
    + exists n'. rewrite lookup_insert_eq. split; [done|].
      constructor; [done|done|done|lia|by rewrite Hn'|lia|by left].
    + apply layout_cons. split; [|split].
      * exists pn. rewrite lookup_insert_ne, lookup_insert_eq by done. split; [done|].
        constructor; [unfold p; lia| |unfold p; zmod|lia|zmod|lia|by right].
        unfold p, KSPACE_MASK, PHYSTOP in *. zmod.
      * eapply layout_agree; [done|]. set_solver.
      * intros y Hy n0. rewrite lookup_insert_ne, lookup_insert_eq by done.
        intros [= <-] Hpy. specialize (H6 y Hy n Hn ltac:(congruence)). unfold p. lia.
    + intros y Hy n0. rewrite lookup_insert_eq. intros [= <-] Hpy.
      set_unfold in Hy. destruct Hy as [->|Hy]; [unfold p; lia|].
      specialize (H6 y Hy n Hn Hpy). lia.
  - intros x y Hx Hy. apply (before_agree ns); [apply Hag; set_solver|].
    set_unfold in Hy. destruct Hy as [->|[->|Hy]]; [apply H3; set_solver| |apply H3; set_solver].
    intros nx Ex Ep. specialize (H3 x h Hx ltac:(set_solver) nx Ex ltac:(congruence)).
    unfold p. lia.
Qed.
End change.

(** *** One chain of the heap *)

Definition set_nodes (ns : gmap Z node) : mem → mem := upd_nodes (λ _, ns).

Section one_chain.
Context (m : mem) (Ls : list (list Z)) (c : nat) (l1 : list Z) (h : Z) (l2 : list Z).
Context (HL : Ls !! c = Some (l1 ++ h :: l2)).

Definition pre : list Z := concat (take c Ls) ++ l1.
Definition post (l2 : list Z) : list Z := l2 ++ concat (drop (S c) Ls).

Lemma concat_chain : concat Ls = pre ++ h :: post l2.
Proof using HL.
  destruct (concat_lookup Ls c _ [] HL) as [-> _]. unfold pre, post.
  by rewrite <-!app_assoc.
Qed.

Lemma concat_set_chain l2' : concat (<[c := l1 ++ h :: l2']> Ls) = pre ++ h :: post l2'.
Proof using HL.
  destruct (concat_lookup Ls c _ (l1 ++ h :: l2') HL) as [_ ->]. unfold pre, post.
  by rewrite <-!app_assoc.
Qed.

Lemma chain_node : heap_inv m Ls → ∃ n, nodes m !! h = Some n ∧ chunk h n ∧ chain (nodes m) (next n) l2.
Proof using HL.
  intros [Hc Hl]. rewrite concat_chain in Hl.
  destruct (la_chunk _ _ Hl h ltac:(set_solver)) as (n & E & C). exists n. split; [done|].
  split; [done|]. destruct (Forall2_lookup_r _ _ _ _ _ Hc HL) as (x & Ex & Hch).
  apply chain_suffix in Hch as (_ & _ & n' & E' & Hch). by simplify_eq.
Qed.

Lemma heap_replace ns' l2' :
  heap_inv m Ls →
  (∀ a, a ∈ concat Ls → a ≠ h → ns' !! a = nodes m !! a) →
  chain ns' h (h :: l2') → layout ns' (pre ++ h :: post l2') →
  heap_inv (set_nodes ns' m) (<[c := l1 ++ h :: l2']> Ls).
Proof using HL.
  intros [Hc Hl] Hag Hch Hlay. constructor; [|by rewrite concat_set_chain].
  simpl. pose proof (layout_NoDup _ _ Hl) as Hnd. rewrite concat_chain in Hnd.
  apply Forall2_same_length_lookup.
  rewrite length_insert. split; [by eapply Forall2_length|].
  intros i x l Ex El. destruct (decide (i = c)) as [->|Hi].
  - rewrite list_lookup_insert_eq in El by (by eapply lookup_lt_Some). injection El as <-.
    pose proof (Forall2_lookup_lr _ _ _ _ _ _ Hc Ex HL) as Hx.
    eapply chain_replace; [exact Hx| |done]. intros a Ha. apply Hag.
    + rewrite concat_chain. unfold pre. set_solver.
    + intros ->. unfold pre in Hnd. rewrite <-app_assoc in Hnd.
      apply NoDup_app in Hnd as (_ & _ & Hnd). apply NoDup_app in Hnd as (_ & Hnd & _).
      apply (Hnd h Ha). set_solver.
  - rewrite list_lookup_insert_ne in El by done.
    pose proof (Forall2_lookup_lr _ _ _ _ _ _ Hc Ex El) as Hx.
    eapply chain_agree; [exact Hx|]. intros a Ha.
    assert (a ∈ concat (take c Ls) ++ concat (drop (S c) Ls)) as Hin.
    { apply elem_of_app. destruct (decide (i < c)%nat).
      - left. apply (elem_of_concat _ i l); [by rewrite lookup_take_lt|done].
      - right. apply (elem_of_concat _ (i - S c) l); [|done]. rewrite lookup_drop.
        replace (S c + (i - S c))%nat with i by lia. done. }
    apply Hag; [rewrite concat_chain; unfold pre, post; set_solver|].
    intros ->. unfold pre, post in Hnd. rewrite <-app_assoc in Hnd.
    apply NoDup_app in Hnd as (_ & H1 & Hnd). apply NoDup_app in Hnd as (_ & _ & Hnd).
    rewrite NoDup_cons in Hnd. destruct Hnd as [Hnd _].
    apply elem_of_app in Hin as [Hin|Hin]; [apply (H1 h Hin)|apply Hnd]; set_solver.
Qed.
End one_chain.

(** ** Running the operations *)

Lemma get_node_run h n m : nodes m !! h = Some n → get_node h m = Ok (n, m).
Proof. intros E. unfold get_node. by apply getopt_run. Qed.
Lemma set_node_run h n m : set_node h n m = Ok (tt, set_nodes (<[h := n]> (nodes m)) m).
Proof. done. Qed.

Lemma kernel_address a : KSPACE_MASK ≤ a < KSPACE_MASK + PHYSTOP → 0 ≤ a < 2 ^ 64.
Proof. unfold KSPACE_MASK, PHYSTOP. lia. Qed.

Lemma same_page a b :
  KSPACE_MASK ≤ a < KSPACE_MASK + PHYSTOP → KSPACE_MASK ≤ b < KSPACE_MASK + PHYSTOP →
  (PAGE_BASE a =? PAGE_BASE b) = bool_decide (a / 4096 = b / 4096).
Proof.
  intros Ha%kernel_address Hb%kernel_address. rewrite !PAGE_BASE_eq by done.
  destruct (Z.eqb_spec (a - a mod 4096) (b - b mod 4096)); case_bool_decide; try done; zmod.
Qed.

(** What [merge] does to the chunk [h] of a chain. *)
Record merged (m : mem) (Ls : list (list Z)) (c : nat) (l1 : list Z) (h : Z) (l2 : list Z)
    (m' : mem) (Ls' : list (list Z)) : Prop := {
  mg_run : merge h m = Ok (tt, m');
  mg_nodes : m' = set_nodes (nodes m') m;
  mg_inv : heap_inv m' Ls';
  mg_chain : ∃ l2', Ls' !! c = Some (l1 ++ h :: l2') ∧ (length l2' ≤ length l2)%nat;
  mg_other : ∀ a, a ≠ h → nodes m' !! a = nodes m !! a;
  mg_free : l2 ≠ [] → ∃ n, nodes m' !! h = Some n ∧ free n = 1;
  mg_last : l2 = [] → m' = m ∧ Ls' = Ls;
  mg_sub : ∀ a, a ∈ concat Ls' → a ∈ concat Ls;
  mg_gone : ∀ a, a ∈ concat Ls → a ∉ concat Ls' → ∃ n, nodes m !! a = Some n ∧ free n = 1;
  mg_length : length Ls' = length Ls }.

Lemma chain_head_notin m Ls c l1 h l2 : heap_inv m Ls → Ls !! c = Some (l1 ++ h :: l2) → h ∉ l2.
Proof.
  intros Hinv HL. pose proof (hi_layout _ _ Hinv) as Hlay. rewrite (concat_chain _ _ _ _ _ HL) in Hlay.
  apply layout_NoDup in Hlay. apply NoDup_app in Hlay as (_ & _ & Hlay).
  apply NoDup_cons in Hlay as [Hlay _]. unfold post in Hlay. set_solver.
Qed.

(** the next chunk is free and on the same page: both become one *)
Lemma merged_join m Ls c l1 h p l2 n pn :
  heap_inv m Ls → Ls !! c = Some (l1 ++ h :: p :: l2) → nodes m !! h = Some n → chunk h n → p ≠ 0 →
  nodes m !! p = Some pn → chain (nodes m) (next pn) l2 → chunk p pn → free pn = 1 → h / 4096 = p / 4096 →
  let ns := <[h := mkNode (next pn) (size n + size pn + 16) 1]> (nodes m) in
  merge h m = Ok (tt, set_nodes ns m) → ∃ m' Ls', merged m Ls c l1 h (p :: l2) m' Ls'.
Proof.
  intros Hinv HL E C Hp0 Ep Hch Cp Hpf Hpg ns Hrun. pose proof (hi_layout _ _ Hinv) as Hlay. rewrite (concat_chain _ _ _ _ _ HL) in Hlay.
  pose proof (lookup_lt_Some _ _ _ HL) as Hc. pose proof (chain_head_notin m Ls c l1 h (p :: l2) Hinv HL) as Hhl.
  assert (h ≠ 0) as Hh0 by (destruct C; unfold KSPACE_MASK in *; lia).
  assert (Hne : ∀ a, a ≠ h → ns !! a = nodes m !! a) by (intros; by apply lookup_insert_ne).
  exists (set_nodes ns m), (<[c := l1 ++ h :: l2]> Ls).
  assert (Hsub : concat (<[c := l1 ++ h :: l2]> Ls) = pre Ls c l1 ++ h :: post Ls c l2)
    by (by apply (concat_set_chain _ _ _ _ (p :: l2))).
  constructor; simpl; try done.
  - apply (heap_replace m Ls c l1 h (p :: l2)); [done|done|intros; by apply Hne| |].
    + split; [done|]. split; [done|]. eexists. split; [apply lookup_insert_eq|]. simpl.
      eapply chain_agree; [exact Hch|]. intros a Ha. apply Hne. set_solver.
    + apply (layout_merge _ _ _ h n E p pn); [|done|done|done|done].
      exact Hlay.
  - exists l2. rewrite list_lookup_insert_eq by done. split; [done|lia].
  - intros _. eexists. split; [apply lookup_insert_eq|done].
  - intros a. rewrite Hsub, (concat_chain _ _ _ _ _ HL). unfold pre, post. set_solver.
  - intros a. rewrite Hsub, (concat_chain _ _ _ _ _ HL). intros H1 H2.
    assert (a = p) as -> by (unfold pre, post in *; set_solver). by exists pn.
  - apply length_insert.
Qed.

(** otherwise the chunk is marked free *)
Lemma merged_keep m Ls c l1 h p l2 n pn :
  heap_inv m Ls → Ls !! c = Some (l1 ++ h :: p :: l2) → nodes m !! h = Some n → chunk h n → p ≠ 0 →
  nodes m !! p = Some pn → chain (nodes m) (next pn) l2 → next n = p →
  let ns := <[h := mkNode (next n) (size n) 1]> (nodes m) in
  merge h m = Ok (tt, set_nodes ns m) → ∃ m' Ls', merged m Ls c l1 h (p :: l2) m' Ls'.
Proof.
  intros Hinv HL E C Hp0 Ep Hch Hnp ns Hrun. pose proof (hi_layout _ _ Hinv) as Hlay. rewrite (concat_chain _ _ _ _ _ HL) in Hlay.
  pose proof (lookup_lt_Some _ _ _ HL) as Hc. pose proof (chain_head_notin m Ls c l1 h (p :: l2) Hinv HL) as Hhl.
  assert (h ≠ 0) as Hh0 by (destruct C; unfold KSPACE_MASK in *; lia).
  assert (Hne : ∀ a, a ≠ h → ns !! a = nodes m !! a) by (intros; by apply lookup_insert_ne).
  exists (set_nodes ns m), (<[c := l1 ++ h :: p :: l2]> Ls).
  assert (<[c := l1 ++ h :: p :: l2]> Ls = Ls) as HLs by (by apply list_insert_id).
  constructor; simpl; try done.
  - apply (heap_replace m Ls c l1 h (p :: l2)); [done|done|intros; by apply Hne| |].
    + split; [done|]. split; [done|]. eexists. split; [apply lookup_insert_eq|]. simpl.
      split; [done|]. split; [done|]. exists pn. split; [rewrite Hne; set_solver|].
      eapply chain_agree; [exact Hch|]. intros a Ha. apply Hne. set_solver.
    + apply (layout_shrink _ _ _ h n E); [done| |done].
      destruct C; constructor; simpl; auto.
  - exists (p :: l2). by rewrite HLs.
  - intros _. eexists. split; [apply lookup_insert_eq|done].
  - intros a. by rewrite HLs.
  - intros a. rewrite HLs. done.
  - apply length_insert.
Qed.

Lemma merge_run m Ls c l1 h l2 :
  heap_inv m Ls → Ls !! c = Some (l1 ++ h :: l2) → ∃ m' Ls', merged m Ls c l1 h l2 m' Ls'.
Proof.
  intros Hinv HL. destruct (chain_node m Ls c l1 h l2 HL Hinv) as (n & E & C & Hch).
  pose proof (hi_layout _ _ Hinv) as Hlay. rewrite (concat_chain _ _ _ _ _ HL) in Hlay.
  pose proof (lookup_lt_Some _ _ _ HL) as Hc.
  destruct l2 as [|p l2]; simpl in Hch.
  { exists m, Ls. constructor; try done.
    - unfold merge. by rewrite (bind_Ok _ _ _ _ _ (get_node_run h n m E)), Hch.
    - by destruct m.
    - exists []. done. }
  destruct Hch as (Hnp & Hp0 & pn & Ep & Hch).
  assert (chunk p pn) as Cp.
  { apply layout_app in Hlay as (_ & Hlay & _). apply layout_cons in Hlay as (_ & Hlay & _).
    destruct (la_chunk _ _ Hlay p) as (? & ? & ?); [unfold post; set_solver|]. by simplify_eq. }
  assert (h ≠ 0) as Hh0 by (destruct C; unfold KSPACE_MASK in *; lia).
  assert ((PAGE_BASE h =? PAGE_BASE p) = bool_decide (h / 4096 = p / 4096)) as Epg
    by (apply same_page; destruct C, Cp; lia).
  set (b := (free pn =? 1) && (PAGE_BASE h =? PAGE_BASE p)).
  set (n' := if b then mkNode (next pn) (i32 (size n + u64 (size pn + sizeof_node))) (free n) else n).
  assert (merge h m = Ok (tt, set_nodes (<[h := mkNode (next n') (size n') 1]> (nodes m)) m)) as Hrun.
  { unfold merge. rewrite (bind_Ok _ _ _ _ _ (get_node_run h n m E)), Hnp.
    rewrite (proj2 (Z.eqb_neq _ _) Hp0). by rewrite (bind_Ok _ _ _ _ _ (get_node_run p pn m Ep)). }
  set (ns := <[h := mkNode (next n') (size n') 1]> (nodes m)) in *.
  assert (Hsplit : (free pn = 1 ∧ h / 4096 = p / 4096 ∧
      n' = mkNode (next pn) (size n + size pn + 16) (free n)) ∨ n' = n).
  { destruct b eqn:Eb; [left|by right].
    apply andb_prop in Eb as [E1%Z.eqb_eq E2]. rewrite Epg in E2. apply bool_decide_eq_true in E2.
    split; [done|]. split; [done|]. unfold n'. f_equal. unfold sizeof_node.
    pose proof (chunk_bound _ _ C). pose proof (chunk_bound _ _ Cp). rewrite u64_id, i32_id; lia. }
  clearbody n'. clear b. destruct Hsplit as [(Hpf & Hpg & ->)| ->]; [by eapply merged_join|by eapply merged_keep].
Qed.

(** What a walk over the chain does: chunks nobody uses may be joined. *)
Record tidied (m : mem) (Ls : list (list Z)) (m' : mem) (Ls' : list (list Z)) : Prop := {
  ti_nodes : m' = set_nodes (nodes m') m;
  ti_inv : heap_inv m' Ls';
  ti_live : ∀ a k, live m' Ls' a k ↔ live m Ls a k;
  ti_sub : ∀ a, a ∈ concat Ls' → a ∈ concat Ls;
  ti_length : length Ls' = length Ls }.

Lemma tidied_refl m Ls : heap_inv m Ls → tidied m Ls m Ls.
Proof. intros H. constructor; try done. by destruct m. Qed.

Lemma tidied_trans m Ls m1 Ls1 m2 Ls2 :
  tidied m Ls m1 Ls1 → tidied m1 Ls1 m2 Ls2 → tidied m Ls m2 Ls2.
Proof.
  intros [N1 I1 L1 S1 T1] [N2 I2 L2 S2 T2]. constructor; [|done|..].
  - rewrite N2, N1. done.
  - intros a k. by rewrite L2.
  - auto.
  - congruence.
Qed.

(** Merging in use chunks: none, when [h] is not in use; else [h] itself is given up. *)
Lemma merged_live m Ls c l1 h l2 m' Ls' a k :
  merged m Ls c l1 h l2 m' Ls' → l2 ≠ [] → live m' Ls' a k ↔ live m Ls a k ∧ a ≠ h.
Proof.
  intros [_ _ _ _ Hne Hf _ Hsub Hgone _] Hl2. destruct (Hf Hl2) as (n & En & Hn).
  split.
  - intros (Hin & n0 & E & F & S). assert (a ≠ h) as Ha by (intros ->; simplify_eq; congruence).
    split; [|done]. split; [by apply Hsub|]. exists n0. by rewrite <-Hne.
  - intros [(Hin & n0 & E & F & S) Ha]. split.
    + destruct (decide (a ∈ concat Ls')) as [|Hni]; [done|].
      destruct (Hgone a Hin Hni) as (n1 & E1 & F1). simplify_eq. congruence.
    + exists n0. by rewrite Hne.
Qed.

Lemma merged_tidied m Ls c l1 h l2 m' Ls' n :
  merged m Ls c l1 h l2 m' Ls' → heap_inv m Ls → nodes m !! h = Some n → free n = 1 →
  tidied m Ls m' Ls' ∧ ∃ n', nodes m' !! h = Some n' ∧ free n' = 1.
Proof.
  intros Hm Hinv E F. destruct (decide (l2 = [])) as [Hl2|Hl2].
  - destruct (mg_last _ _ _ _ _ _ _ _ Hm Hl2) as [-> ->].
    split; [by apply tidied_refl|by exists n].
  - split; [|by apply (mg_free _ _ _ _ _ _ _ _ Hm)].
    constructor; [apply Hm|apply Hm| |apply Hm|apply Hm].
    intros a k. rewrite (merged_live _ _ _ _ _ _ _ _ _ _ Hm Hl2).
    split; [tauto|]. intros Hl. split; [done|]. intros ->.
    destruct Hl as (_ & n0 & E0 & F0 & _). simplify_eq. congruence.
Qed.

(** The chunk [kalloc_loop] stops at. *)
Definition fits (m : mem) (Ls : list (list Z)) (c : nat) (sz h : Z) : Prop :=
  ∃ l1 l2 n, Ls !! c = Some (l1 ++ h :: l2) ∧ nodes m !! h = Some n ∧ free n = 1 ∧ sz ≤ size n.

Lemma kalloc_loop_run fuel sz : ∀ m Ls c l1 l2 h,
  heap_inv m Ls → Ls !! c = Some (l1 ++ l2) → chain (nodes m) h l2 → (length l2 < fuel)%nat →
  ∃ r m' Ls', kalloc_loop fuel sz h m = Ok (r, m') ∧ tidied m Ls m' Ls' ∧
    (r = 0 ∨ r ≠ 0 ∧ fits m' Ls' c sz r).
Proof.
  induction fuel as [|fuel IH]; intros m Ls c l1 l2 h Hinv HL Hch Hf; [lia|].
  destruct l2 as [|a l2]; simpl in Hch |- *.
  { subst h. exists 0, m, Ls. split; [done|]. split; [by apply tidied_refl|by left]. }
  destruct Hch as (-> & Ha & n & En & Hch). rewrite (proj2 (Z.eqb_neq _ _) Ha).
  rewrite (bind_Ok _ _ _ _ _ (get_node_run a n m En)).
  assert (Hnext : ∀ m' Ls' l2' n', tidied m Ls m' Ls' → Ls' !! c = Some (l1 ++ a :: l2') →
    (length l2' ≤ length l2)%nat → nodes m' !! a = Some n' →
    ∃ r m'' Ls'', kalloc_loop fuel sz (next n') m' = Ok (r, m'') ∧ tidied m Ls m'' Ls'' ∧
      (r = 0 ∨ r ≠ 0 ∧ fits m'' Ls'' c sz r)).
  { intros m' Ls' l2' n' Ht HL' Hlen En'.
    destruct (chain_node m' Ls' c l1 a l2' HL' (ti_inv _ _ _ _ Ht)) as (n0 & E0 & _ & Hc0).
    rewrite E0 in En'. injection En' as <-.
    destruct (IH m' Ls' c (l1 ++ [a]) l2' (next n0)) as (r & m'' & Ls'' & E & Ht' & Hr).
    - apply Ht.
    - by rewrite <-app_assoc.
    - done.
    - simpl in Hf. lia.
    - exists r, m'', Ls''. split; [done|]. split; [by eapply tidied_trans|done]. }
  destruct (free n =? 1) eqn:Hfree.
  - apply Z.eqb_eq in Hfree.
    destruct (merge_run m Ls c l1 a l2 Hinv HL) as (m' & Ls' & Hm).
    destruct (merged_tidied _ _ _ _ _ _ _ _ n Hm Hinv En Hfree) as [Ht (n' & En' & Hf')].
    destruct (mg_chain _ _ _ _ _ _ _ _ Hm) as (l2' & HL' & Hlen).
    rewrite (bind_Ok _ _ _ _ _ (mg_run _ _ _ _ _ _ _ _ Hm)).
    rewrite (bind_Ok _ _ _ _ _ (get_node_run a n' m' En')).
    destruct (Z.leb_spec sz (size n')) as [Hsz|].
    + exists a, m', Ls'. split; [done|]. split; [done|]. right. split; [done|].
      by exists l1, l2', n'.
    + by apply (Hnext m' Ls' l2').
  - apply (Hnext m Ls l2); [by apply tidied_refl|done|lia|done].
Qed.

(** A chain is no longer than there are headers. *)
Lemma chain_length m Ls c l : heap_inv m Ls → Ls !! c = Some l → (length l ≤ base.size (nodes m))%nat.
Proof.
  intros Hinv HL. pose proof (layout_NoDup _ _ (hi_layout _ _ Hinv)) as Hnd.
  assert (NoDup l) as Hl.
  { rewrite (proj1 (concat_lookup Ls c l [] HL)) in Hnd.
    apply NoDup_app in Hnd as (_ & _ & Hnd). by apply NoDup_app in Hnd as (? & _ & _). }
  rewrite <-(size_list_to_set (C:=gset Z)) by done. rewrite <-(size_dom (D:=gset Z)).
  apply subseteq_size. intros a Ha%elem_of_list_to_set.
  destruct (la_chunk _ _ (hi_layout _ _ Hinv) a) as (n & E & _);
    [by apply (elem_of_concat Ls c l)|]. by apply elem_of_dom_2 in E.
Qed.

(** ** The pool of pages *)

Definition ref_of (m : mem) (p : Z) : Z := default 0 (refpage m !! ref_index p).

Record pool_inv (m : mem) (Ls : list (list Z)) : Prop := {
  po_nodup : NoDup (pages m);
  po_page : ∀ p, p ∈ pages m →
    KSPACE_MASK ≤ p < KSPACE_MASK + PHYSTOP ∧ p mod 4096 = 0 ∧ ref_of m p = 0;
  po_fresh : ∀ p a, p ∈ pages m → a ∈ concat Ls → a / 4096 ≠ p / 4096;
  po_count : alloc_page_cnt m + Z.of_nat (length (pages m)) = pagenum m;
  po_range : 0 ≤ alloc_page_cnt m ∧ pagenum m < 2 ^ 31 }.

(** The invariant of the whole state: [Ls] are the chains of the four CPUs. *)
Record mem_inv (m : mem) (Ls : list (list Z)) : Prop := {
  mi_heap : heap_inv m Ls;
  mi_pool : pool_inv m Ls;
  mi_cpus : length Ls = 4%nat }.

Lemma pool_inv_sub m Ls m' Ls' :
  pool_inv m Ls → m' = set_nodes (nodes m') m → (∀ a, a ∈ concat Ls' → a ∈ concat Ls) →
  pool_inv m' Ls'.
Proof. intros [P1 P2 P3 P4 P5] -> Hsub. constructor; simpl; auto. Qed.

Lemma ref_index_eq p :
  KSPACE_MASK ≤ p < KSPACE_MASK + PHYSTOP →
  ref_index p = (p - KSPACE_MASK) / 4096 ∧ (ref_index p <? PHYSTOP / PAGE_SIZE) = true.
Proof.
  intros Hp. unfold ref_index, K2P. rewrite u64_id by (unfold KSPACE_MASK, PHYSTOP in *; lia).
  split; [done|]. apply Z.ltb_lt. unfold PAGE_SIZE, PHYSTOP in *. zmod.
Qed.

Lemma get_ref_run m p :
  KSPACE_MASK ≤ p < KSPACE_MASK + PHYSTOP → get_ref p m = Ok (ref_of m p, m).
Proof. intros Hp. unfold get_ref. apply getopt_run. by rewrite (proj2 (ref_index_eq p Hp)). Qed.

(** The state after a page is taken from the pool. *)
Definition taken (m : mem) (p : Z) (l : list Z) : mem :=
  upd_ref <[ref_index p := 1]> (upd_pages (λ _, l) (upd_cnt increment_rc m)).

Lemma kalloc_page_run m Ls p l :
  pool_inv m Ls → pages m = p :: l → kalloc_page m = Ok (p, taken m p l).
Proof.
  intros Hp El. destruct (po_page _ _ Hp p) as (Hr & _ & H0); [rewrite El; left|].
  unfold kalloc_page. erewrite bind_Ok by apply modify_run.
  unfold fetch_page at 1. rewrite bind_assoc. erewrite bind_Ok by apply gets_run.
  simpl pages at 1. rewrite El. rewrite bind_assoc. erewrite bind_Ok by apply modify_run.
  erewrite bind_Ok by apply mret_run.
  rewrite (bind_Ok _ _ _ _ _ (get_ref_run _ p Hr)).
  change (ref_of _ p) with (ref_of m p). rewrite H0. done.
Qed.

Lemma taken_pool m Ls p l :
  pool_inv m Ls → pages m = p :: l →
  pool_inv (taken m p l) Ls ∧ p ∉ l ∧ ref_of (taken m p l) p = 1.
Proof.
  intros [P1 P2 P3 P4 P5] El. rewrite El in *. apply NoDup_cons in P1 as [Hpl Hl].
  destruct (P2 p ltac:(left)) as (Hpr & Hpa & _).
  split; [|split; [done|unfold ref_of; simpl; by rewrite lookup_insert_eq]].
  constructor; simpl; [done| | | |].
  - intros q Hq. destruct (P2 q ltac:(set_solver)) as (Hr & Ha & H0). split; [done|].
    split; [done|]. unfold ref_of. simpl. rewrite lookup_insert_ne; [done|].
    rewrite (proj1 (ref_index_eq p Hpr)), (proj1 (ref_index_eq q Hr)).
    intros E. assert (p = q) as -> by zmod. done.
  - intros q a Hq. apply P3. set_solver.
  - unfold increment_rc. simpl in P4. rewrite i64_id by lia. lia.
  - unfold increment_rc. simpl in P4. rewrite i64_id by lia. lia.
Qed.

Lemma layout_insert ns A B p n :
  layout ns (A ++ B) → chunk p n → (∀ a, a ∈ A ++ B → a / 4096 ≠ p / 4096) →
  layout (<[p := n]> ns) (A ++ p :: B).
Proof.
  intros Hl Hc Hp. assert (∀ a, a ∈ A ++ B → <[p:=n]> ns !! a = ns !! a) as Hag.
  { intros a Ha. apply lookup_insert_ne. intros ->. by apply (Hp a). }
  apply layout_app in Hl as (H1 & H2 & H3). apply layout_app. split; [|split].
  - eapply layout_agree; [done|]. set_solver.
  - apply layout_cons. split; [exists n; by rewrite lookup_insert_eq|]. split.
    + eapply layout_agree; [done|]. set_solver.
    + intros y Hy n0 _ E. destruct (Hp y); [set_solver|done].
  - intros x y Hx Hy. set_unfold in Hy. destruct Hy as [->|Hy].
    + intros n0 _ E. destruct (Hp x); [set_solver|done].
    + eapply before_agree; [apply Hag; set_solver|by apply H3].
Qed.

(** the headers [Ls'] lie on the pages of those of [Ls], or on the pages [l] *)
Definition on_pages (Ls : list (list Z)) (l : list Z) (Ls' : list (list Z)) : Prop :=
  ∀ a, a ∈ concat Ls' → ∃ b, (b ∈ concat Ls ∨ b ∈ l) ∧ a / 4096 = b / 4096.

Section cpu.
Context (cpuid : nat) (Hcpu : (cpuid < 4)%nat).

Lemma head_run m Ls :
  mem_inv m Ls → ∃ f l, frees m !! cpuid = Some f ∧ Ls !! cpuid = Some l ∧ chain (nodes m) f l ∧
    head cpuid m = Ok (f, m).
Proof using Hcpu.
  intros [[Hc _] _ H4]. destruct (lookup_lt_is_Some_2 Ls cpuid ltac:(lia)) as [l El].
  destruct (Forall2_lookup_r _ _ _ _ _ Hc El) as (f & Ef & Hch).
  exists f, l. split; [done|]. split; [done|]. split; [done|].
  unfold head. by apply getopt_run.
Qed.

(** A new page becomes one chunk in front of the chain. *)
Lemma kalloc_grow_run m Ls p l :
  mem_inv m Ls → pages m = p :: l →
  ∃ m' Ls', kalloc_grow cpuid m = Ok (p, m') ∧ mem_inv m' Ls' ∧ memlock m' = memlock m ∧
    (∀ a k, live m' Ls' a k ↔ live m Ls a k) ∧ p ≠ 0 ∧ fits m' Ls' cpuid 4080 p ∧ on_pages Ls (pages m) Ls'.
Proof using Hcpu.
  intros Hinv El. destruct (head_run m Ls Hinv) as (f & lc & Ef & Elc & Hch & _).
  pose proof Hinv as [[Hc Hlay] Hpool H4].
  destruct (po_page _ _ Hpool p) as (Hpr & Hpa & _); [rewrite El; left|].
  destruct (taken_pool m Ls p l Hpool El) as ([P1 P2 P3 P4 P5] & Hpl & _).
  assert (Hfresh : ∀ a, a ∈ concat Ls → a / 4096 ≠ p / 4096)
    by (intros a; apply (po_fresh _ _ Hpool); rewrite El; left).
  assert (p ∉ concat Ls) as Hpc by (intros Hin; by apply (Hfresh p Hin)).
  set (n := mkNode f 4080 1). set (Ls' := <[cpuid := p :: lc]> Ls).
  set (m' := upd_frees <[cpuid := p]> (set_nodes (<[p := n]> (nodes m)) (taken m p l))).
  assert (p ≠ 0) as Hp0 by (unfold KSPACE_MASK in *; lia).
  destruct (concat_lookup Ls cpuid lc (p :: lc) Elc) as [C1 C2].
  assert (∀ a, a ∈ concat Ls' ↔ a = p ∨ a ∈ concat Ls) as Hin.
  { intros a. unfold Ls'. rewrite C1, C2. set_solver. }
  exists m', Ls'. split; [|split; [|split; [done|split; [|split; [done|split; [|]]]]]].
  - unfold kalloc_grow. erewrite bind_Ok by (by eapply kalloc_page_run).
    erewrite bind_Ok by (unfold head; apply getopt_run; exact Ef).
    erewrite bind_Ok by apply set_node_run. by erewrite bind_Ok by apply modify_run.
  - constructor; [constructor| |unfold Ls'; by rewrite length_insert].
    + apply Forall2_insert; simpl.
      * apply Forall2_same_length_lookup. split; [by eapply Forall2_length|].
        intros i x li Ex Eli. eapply chain_agree; [by eapply (Forall2_lookup_lr _ _ _ _ _ _ Hc)|].
        intros a Ha. apply lookup_insert_ne. intros ->. apply Hpc. by eapply elem_of_concat.
      * split; [done|]. split; [done|]. exists n. rewrite lookup_insert_eq. split; [done|].
        eapply chain_agree; [exact Hch|]. intros a Ha. apply lookup_insert_ne.
        intros ->. apply Hpc. by eapply elem_of_concat.
    + unfold Ls'. rewrite C2. simpl. apply layout_insert.
      * by rewrite <-C1.
      * constructor; simpl; [lia|lia|zmod|done|done|lia|by right].
      * rewrite <-C1. exact Hfresh.
    + constructor; [done|done| |done|done].
      intros q a Hq [->|Ha]%Hin; [|by apply P3]. simpl in Hq.
      intros E. destruct (P2 q Hq) as (_ & Hqa & _).
      assert (p = q) as -> by zmod. done.
  - intros a k. unfold live. rewrite Hin. simpl. split.
    + intros ([->|Ha] & n0 & E & F & S).
      * rewrite lookup_insert_eq in E. by simplify_eq.
      * rewrite lookup_insert_ne in E by (intros ->; done). split; [done|]. by exists n0.
    + intros (Ha & n0 & E & F & S). split; [by right|]. exists n0.
      rewrite lookup_insert_ne by (intros ->; done). done.
  - exists [], lc, n. split; [unfold Ls'; rewrite list_lookup_insert_eq; [done|lia]|].
    simpl. rewrite lookup_insert_eq. done.
  - intros a [->|Ha]%Hin; [exists p|by exists a; auto]. split; [right; rewrite El; left|done].
Qed.

(** Cutting a chunk that is large enough. *)
(** what [kalloc_split] leaves: the chunk at [h] is taken, with [sz] bytes *)
Definition split_done m Ls sz h m' Ls' : Prop :=
  mem_inv m' Ls' ∧ memlock m' = memlock m ∧
  (∀ a k, live m' Ls' a k ↔ live m Ls a k ∨ (a = h ∧ k = sz)) ∧ chunk_at (nodes m') h ∧ on_pages Ls [] Ls'.

Lemma split_room_run m Ls sz l1 h l2 n0 :
  mem_inv m Ls → Ls !! cpuid = Some (l1 ++ h :: l2) → nodes m !! h = Some n0 → chunk h n0 → chain (nodes m) (next n0) l2 →
  free n0 = 1 → 0 ≤ sz ≤ size n0 → sz mod 8 = 0 → 16 < size n0 - sz →
  ∃ m' Ls', kalloc_split h sz m = Ok (tt, m') ∧ split_done m Ls sz h m' Ls'.
Proof using Hcpu.
  intros [Hheap Hpool H4] HL En C Hch Fn [Hsz0 Hsz] Hsz8 Hroom. pose proof (chunk_bound _ _ C) as Hb.
  pose proof (hi_layout _ _ Hheap) as Hlay. pose proof (concat_chain _ _ _ _ _ HL) as Hcc.
  rewrite Hcc in Hlay. pose proof (lookup_lt_Some _ _ _ HL) as Hcl.
  assert (h ≠ 0) as Hh0 by (destruct C; unfold KSPACE_MASK in *; lia).
  pose proof (chain_head_notin m Ls cpuid l1 h l2 Hheap HL) as Hhl.
  unfold kalloc_split. erewrite bind_Ok by (by apply get_node_run).
  rewrite (u64_id sz), (u64_id (size n0 - sz)) by lia. unfold sizeof_node in *. rewrite (proj2 (Z.ltb_lt _ _)) by lia.
  set (pn := mkNode (next n0) (i32 (u64 (size n0 - sz - 16))) 1).
  assert (u64 (u64 (h + 16) + sz) = h + 16 + sz) as Ep.
  { destruct C. unfold KSPACE_MASK, PHYSTOP in *. rewrite (u64_id (h + 16)), u64_id; lia. }
  assert (size pn = size n0 - sz - 16) as Hpn by (simpl; rewrite u64_id, i32_id; lia).
  rewrite Ep. set (p := h + 16 + sz) in *.
  set (n' := mkNode p (i32 sz) 0).
  assert (size n' = sz) as Hn' by (simpl; rewrite i32_id; lia).
  destruct (layout_split (nodes m) (pre Ls cpuid l1) (post Ls cpuid l2) h n0 En sz pn n')
    as [Hlay' Hfr]; try done.
  set (ns := <[h:=n']> (<[p:=pn]> (nodes m))).
  assert (p ≠ h) as Hph by (unfold p; lia).
  assert (concat (<[cpuid := l1 ++ h :: p :: l2]> Ls) = pre Ls cpuid l1 ++ h :: p :: post Ls cpuid l2)
    as Hcc' by apply (concat_set_chain _ _ _ _ _ HL (p :: l2)).
  exists (set_nodes ns m), (<[cpuid := l1 ++ h :: p :: l2]> Ls). split.
  { rewrite bind_assoc. erewrite bind_Ok by apply set_node_run. done. }
  split; [constructor|split; [done|split]].
  - apply (heap_replace m Ls cpuid l1 h l2); [done|done| | |exact Hlay'].
    + intros a Ha Hne. unfold ns. rewrite !lookup_insert_ne; [done| |done].
      intros <-. apply Hfr. by rewrite <-Hcc.
    + split; [done|]. split; [done|]. exists n'. split; [apply lookup_insert_eq|].
      split; [done|]. split; [destruct C; unfold p, KSPACE_MASK in *; lia|].
      exists pn. split; [unfold ns; by rewrite lookup_insert_ne, lookup_insert_eq|].
      eapply chain_agree; [exact Hch|]. intros a Ha. unfold ns.
      rewrite !lookup_insert_ne; [done| |]; intros <-; [|done].
      apply Hfr. unfold post. set_solver.
  - destruct Hpool as [P1 P2 P3 P4 P5]. constructor; simpl; try done.
    intros q a Hq. rewrite Hcc'. intros Ha.
    destruct (decide (a = p)) as [->|Hap].
    + replace (p / 4096) with (h / 4096) by (destruct C; unfold p; zmod).
      apply P3; [done|]. rewrite Hcc. set_solver.
    + apply P3; [done|]. rewrite Hcc. set_solver.
  - by rewrite length_insert.
  - intros a k. unfold live. rewrite Hcc', Hcc. simpl. unfold ns.
    destruct (decide (a = h)) as [->|Hah]; [|destruct (decide (a = p)) as [->|Hap]].
    + rewrite lookup_insert_eq. split.
      * intros (_ & x & [= <-] & _ & <-). by right.
      * intros [(_ & x & E & F & _)|[_ ->]]; [congruence|]. split; [set_solver|by exists n'].
    + rewrite lookup_insert_ne, lookup_insert_eq by done. split.
      * by intros (_ & x & [= <-] & F & _).
      * intros [(Hin & _)|[E _]]; [|by destruct (Hph E)].
         by destruct Hfr.
    + rewrite !lookup_insert_ne by done. set_solver.
  - split.
    { exists n'. split; [apply lookup_insert_eq|]. destruct C.
      constructor; try done; rewrite ?Hn'; try done; [lia|by left]. }
    intros a. rewrite Hcc'. intros Ha. destruct (decide (a = p)) as [->|Hap].
    + exists h. split; [left; rewrite Hcc; set_solver|]. destruct C. unfold p. zmod.
    + exists a. split; [left; rewrite Hcc; set_solver|done].
Qed.

Lemma split_whole_run m Ls sz l1 h l2 n0 :
  mem_inv m Ls → Ls !! cpuid = Some (l1 ++ h :: l2) → nodes m !! h = Some n0 → chunk h n0 → chain (nodes m) (next n0) l2 →
  free n0 = 1 → 0 ≤ sz ≤ size n0 → sz mod 8 = 0 → size n0 - sz ≤ 16 →
  ∃ m' Ls', kalloc_split h sz m = Ok (tt, m') ∧ split_done m Ls sz h m' Ls'.
Proof using Hcpu.
  intros [Hheap Hpool H4] HL En C Hch Fn [Hsz0 Hsz] Hsz8 Hroom. pose proof (chunk_bound _ _ C) as Hb.
  pose proof (hi_layout _ _ Hheap) as Hlay. pose proof (concat_chain _ _ _ _ _ HL) as Hcc.
  rewrite Hcc in Hlay. pose proof (lookup_lt_Some _ _ _ HL) as Hcl.
  assert (h ≠ 0) as Hh0 by (destruct C; unfold KSPACE_MASK in *; lia).
  pose proof (chain_head_notin m Ls cpuid l1 h l2 Hheap HL) as Hhl.
  unfold kalloc_split. erewrite bind_Ok by (by apply get_node_run).
  rewrite (u64_id sz), (u64_id (size n0 - sz)) by lia. unfold sizeof_node in *. rewrite (proj2 (Z.ltb_ge _ _)) by lia.
  set (n' := mkNode (next n0) (i32 sz) 0).
  assert (size n' = sz) as Hn' by (simpl; rewrite i32_id; lia).
  assert (chunk h n') as C'.
  { destruct C. constructor; try done; rewrite ?Hn'; try done; [lia|by left]. }
  set (ns := <[h:=n']> (nodes m)).
  assert (<[cpuid := l1 ++ h :: l2]> Ls = Ls) as HLs by (by apply list_insert_id).
  exists (set_nodes ns m), Ls. split.
  { erewrite bind_Ok by apply mret_run. done. }
  split; [constructor|split; [done|split]]; [|by eapply pool_inv_sub|done| |].
  - rewrite <-HLs. apply (heap_replace m Ls cpuid l1 h l2); [done|done| | |].
    + intros a Ha Hne. unfold ns. by rewrite lookup_insert_ne.
    + split; [done|]. split; [done|]. exists n'. split; [apply lookup_insert_eq|].
      eapply chain_agree; [exact Hch|]. intros a Ha. unfold ns.
      rewrite lookup_insert_ne; [done|]. by intros <-.
    + apply (layout_shrink _ _ _ h n0 En); [done|done|lia].
  - intros a k. unfold live. simpl. unfold ns. destruct (decide (a = h)) as [->|Hah].
    + rewrite lookup_insert_eq. split.
      * intros (_ & x & [= <-] & _ & <-). by right.
      * intros [(_ & x & E & F & _)|[_ ->]]; [congruence|].
         split; [rewrite Hcc; set_solver|by exists n'].
    + rewrite lookup_insert_ne by done. set_solver.
  - split; [exists n'; split; [apply lookup_insert_eq|done]|]. intros a Ha. exists a. auto.
Qed.

Lemma kalloc_split_run m Ls sz h :
  mem_inv m Ls → fits m Ls cpuid sz h → 0 ≤ sz → sz mod 8 = 0 →
  ∃ m' Ls', kalloc_split h sz m = Ok (tt, m') ∧ split_done m Ls sz h m' Ls'.
Proof using Hcpu.
  intros I (l1 & l2 & n & HL & En & Fn & Hsz) Hsz0 Hsz8.
  destruct (chain_node m Ls cpuid l1 h l2 HL (mi_heap _ _ I)) as (n0 & E0 & C & Hch). rewrite E0 in En. injection En as <-.
  destruct (Z.lt_ge_cases 16 (size n0 - sz)); [eapply split_room_run|eapply split_whole_run]; done || lia.
Qed.
End cpu.

(** ** Correctness of [kalloc] and [kfree] *)

(** sizes are rounded up to a multiple of 8 *)
Definition round8 (sz : Z) : Z := (sz + 7) / 8 * 8.

Lemma rounded_size sz :
  0 < sz ≤ 4080 →
  i64 (i64 (Z.quot sz 8 + (if Z.rem sz 8 =? 0 then 0 else 1)) * 8) = round8 sz ∧
  sz ≤ round8 sz ≤ 4080 ∧ round8 sz mod 8 = 0.
Proof.
  intros Hsz. unfold round8. rewrite Z.quot_div_nonneg, Z.rem_mod_nonneg by lia.
  assert (sz / 8 + (if sz mod 8 =? 0 then 0 else 1) = (sz + 7) / 8) as ->.
  { destruct (Z.eqb_spec (sz mod 8) 0); zmod. }
  rewrite (i64_id ((sz + 7) / 8)), i64_id by zmod. split; [done|]. split; zmod.
Qed.

Lemma mem_inv_lock b m Ls : mem_inv m Ls → mem_inv (set_memlock b m) Ls.
Proof.
  intros [[H1 H2] [P1 P2 P3 P4 P5] H4]. constructor; [by constructor| |done].
  by constructor.
Qed.

Lemma tidied_mem m Ls m' Ls' : tidied m Ls m' Ls' → mem_inv m Ls → mem_inv m' Ls'.
Proof.
  intros Ht [_ Hp H4]. constructor; [apply Ht| |].
  - eapply pool_inv_sub; [done|apply Ht|apply Ht].
  - by rewrite (ti_length _ _ _ _ Ht).
Qed.

(** [h] heads a chunk of [sz] bytes that was not in use and is in use now. *)
Lemma kalloc_run cpuid m Ls sz :
  (cpuid < 4)%nat → mem_inv m Ls → memlock m = false → 0 < sz ≤ 4080 → pages m ≠ [] →
  ∃ h m' Ls', kalloc cpuid sz m = Ok (h + 16, m') ∧ mem_inv m' Ls' ∧ memlock m' = false ∧
    (∀ a k, live m' Ls' a k ↔ live m Ls a k ∨ (a = h ∧ k = round8 sz)) ∧
    (∀ k, ¬ live m Ls h k) ∧ on_pages Ls (pages m) Ls'.
Proof.
  intros Hcpu Hinv Hlock Hsz Hpages. destruct (rounded_size sz Hsz) as (Er & Hr & Hr8).
  unfold kalloc. rewrite Er. set (m0 := set_memlock true m).
  assert (mem_inv m0 Ls) as Hinv0 by (by apply mem_inv_lock).
  rewrite (bind_Ok _ _ _ _ _ (acquire_spinlock_run mem_lock m Hlock)).
  change (set_locked mem_lock true m) with m0.
  destruct (head_run cpuid Hcpu m0 Ls Hinv0) as (f & l & Ef & El & Hch & Eh).
  rewrite (bind_Ok _ _ _ _ _ Eh).
  destruct (kalloc_loop_run (S (base.size (nodes m0))) (round8 sz) m0 Ls cpuid [] l f)
    as (r & m1 & Ls1 & E1 & Ht & Hfit); [apply Hinv0|done|done| |].
  { pose proof (chain_length m0 Ls cpuid l (mi_heap _ _ Hinv0) El). lia. }
  erewrite bind_Ok by exact E1. pose proof (tidied_mem _ _ _ _ Ht Hinv0) as Hinv1.
  assert (memlock m1 = true ∧ pages m1 = pages m) as [Hlk1 Hpg1] by (rewrite (ti_nodes _ _ _ _ Ht); done).
  assert (∃ h m2 Ls2, (if r =? 0 then kalloc_grow cpuid else mret r) m1 = Ok (h, m2) ∧
    mem_inv m2 Ls2 ∧ memlock m2 = true ∧ (∀ a k, live m2 Ls2 a k ↔ live m1 Ls1 a k) ∧
    fits m2 Ls2 cpuid (round8 sz) h ∧ on_pages Ls1 (pages m) Ls2) as (h & m2 & Ls2 & E2 & Hinv2 & Hlk2 & Hlive2 & Hfit2 & Hon2).
  { destruct Hfit as [->|[Hr0 Hfit]].
    - destruct (pages m) as [|p l'] eqn:Epg; [done|].
      destruct (kalloc_grow_run cpuid Hcpu m1 Ls1 p l' Hinv1 Hpg1)
        as (m2 & Ls2 & E2 & Hinv2 & Hlk2 & Hlive2 & _ & (l1 & l2 & n & F1 & F2 & F3 & F4) & Hon).
      exists p, m2, Ls2. split; [done|]. split; [done|]. split; [congruence|]. split; [done|].
      split; [|by rewrite Hpg1 in Hon]. exists l1, l2, n. repeat split; try done. lia.
    - rewrite (proj2 (Z.eqb_neq _ _) Hr0). exists r, m1, Ls1. split_and!; try done. intros a Ha. exists a. auto. }
  erewrite bind_Ok by exact E2.
  destruct (kalloc_split_run cpuid Hcpu m2 Ls2 (round8 sz) h Hinv2 Hfit2 ltac:(lia) Hr8)
    as (m3 & Ls3 & E3 & Hinv3 & Hlk3 & Hlive3 & Hc3 & Hon3).
  erewrite bind_Ok by exact E3. erewrite bind_Ok by apply release_spinlock_run.
  exists h, (set_memlock false m3), Ls3.
  assert (u64 (h + sizeof_node) = h + 16) as Eh16.
  { destruct Hc3 as (n & _ & []). apply u64_id. unfold KSPACE_MASK, PHYSTOP, sizeof_node in *. lia. }
  rewrite Eh16. split; [done|]. split; [by apply mem_inv_lock|]. split; [done|].
  split; [|split].
  - intros a k. change (live (set_memlock false m3) Ls3 a k) with (live m3 Ls3 a k).
    rewrite Hlive3, Hlive2, (ti_live _ _ _ _ Ht). done.
  - intros k Hk. change (live m Ls h k) with (live m0 Ls h k) in Hk.
    rewrite <-(ti_live _ _ _ _ Ht), <-Hlive2 in Hk.
    destruct Hk as (_ & n & E & F & _), Hfit2 as (_ & _ & n' & _ & E' & F' & _).
    simplify_eq. congruence.
  - intros a Ha. destruct (Hon3 a Ha) as (b & [Hb|Hb] & ->); [|by apply elem_of_nil in Hb].
    destruct (Hon2 b Hb) as (x & [Hx|Hx] & ->); exists x; (split; [|done]); [left|by right]. by apply (ti_sub _ _ _ _ Ht).
Qed.

(** Two chunks in use occupy disjoint memory, headers included. *)
Lemma live_disjoint m Ls a k b k' :
  mem_inv m Ls → live m Ls a k → live m Ls b k' → a ≠ b →
  a + 16 + k ≤ b ∨ b + 16 + k' ≤ a.
Proof.
  intros [[_ Hlay] _ _] (Ha & na & Ea & _ & <-) (Hb & nb & Eb & _ & <-) Hne.
  by apply (layout_disjoint (nodes m) (concat Ls)).
Qed.

(** Where a chunk in use can be. *)
Lemma live_chunk m Ls a k :
  mem_inv m Ls → live m Ls a k →
  KSPACE_MASK ≤ a ∧ a + 16 + k ≤ KSPACE_MASK + PHYSTOP ∧ a mod 8 = 0 ∧ a mod 4096 + 16 + k ≤ 4096.
Proof.
  intros [[_ Hlay] _ _] (Ha & n & E & _ & <-).
  destruct (la_chunk _ _ Hlay a Ha) as (n' & E' & []). simplify_eq.
  repeat split; try done. unfold KSPACE_MASK, PHYSTOP in *. zmod.
Qed.

(** C27: while pages are left, kalloc(size) with 0 < size <= 4080 succeeds, keeps the heap's
    invariant and gives out memory at a multiple of 8 that lies in one page and overlaps
    neither the bytes nor the header of anything handed out before; what was handed out
    before stays as it was. *)
Theorem kalloc_correct cpuid m Ls sz :
  (cpuid < 4)%nat → mem_inv m Ls → memlock m = false → 0 < sz ≤ 4080 → pages m ≠ [] →
  ∃ p m' Ls', kalloc cpuid sz m = Ok (p, m') ∧ mem_inv m' Ls' ∧ memlock m' = false ∧
    p mod 8 = 0 ∧ KSPACE_MASK < p ∧ p mod 4096 + sz ≤ 4096 ∧
    (∀ a k, live m Ls a k → a + 16 + k ≤ p - 16 ∨ p + sz ≤ a) ∧
    (∀ a k, live m' Ls' a k ↔ live m Ls a k ∨ (a = p - 16 ∧ k = round8 sz)).
Proof.
  intros Hcpu Hinv Hlock Hsz Hpages. destruct (rounded_size sz Hsz) as (_ & Hr & _).
  destruct (kalloc_run cpuid m Ls sz Hcpu Hinv Hlock Hsz Hpages)
    as (h & m' & Ls' & E & Hinv' & Hlk & Hlive & Hnew & _).
  exists (h + 16), m', Ls'. replace (h + 16 - 16) with h by lia.
  assert (live m' Ls' h (round8 sz)) as Hh by (apply Hlive; by right).
  destruct (live_chunk _ _ _ _ Hinv' Hh) as (C1 & _ & C2 & C3).
  split; [done|]. split; [done|]. split; [done|]. split; [zmod|]. split; [lia|].
  split; [zmod|]. split; [|done]. intros a k Ha.
  assert (a ≠ h) as Hah by (intros ->; by apply (Hnew k)).
  assert (live m' Ls' a k) as Ha' by (apply Hlive; by left).
  pose proof (live_disjoint m' Ls' a k h (round8 sz) Hinv' Ha' Hh Hah). lia.
Qed.

(** Kfree(p) of memory handed out by kalloc keeps the heap's invariant and the other chunks in
    use.  The chunk is given up exactly when it is not the last of its CPU's chain: merge
    returns before it marks a chunk without a successor as free. *)
Theorem kfree_correct m Ls p k :
  mem_inv m Ls → memlock m = false → live m Ls (p - 16) k →
  ∃ n m' Ls', nodes m !! (p - 16) = Some n ∧ kfree p m = Ok (tt, m') ∧
    mem_inv m' Ls' ∧ memlock m' = false ∧
    (∀ a k', live m' Ls' a k' ↔ live m Ls a k' ∧ (a = p - 16 → next n = 0)).
Proof.
  intros Hinv Hlock Hlive. destruct (live_chunk _ _ _ _ Hinv Hlive) as (B1 & B2 & _ & _).
  pose proof Hlive as (Hin & n & En & Fn & Sn). set (h := p - 16) in *.
  set (m0 := set_memlock true m).
  assert (mem_inv m0 Ls) as Hinv0 by (by apply mem_inv_lock).
  destruct (concat_member Ls h Hin) as (c & l1 & l2 & HL).
  destruct (merge_run m0 Ls c l1 h l2 (mi_heap _ _ Hinv0) HL) as (m1 & Ls1 & Hm).
  destruct (chain_node m0 Ls c l1 h l2 HL (mi_heap _ _ Hinv0)) as (n0 & E0 & C & Hch).
  change (nodes m0) with (nodes m) in *. rewrite E0 in En. injection En as <-.
  exists n0, (set_memlock false m1), Ls1. split; [done|]. split; [|split; [|split; [done|]]].
  - unfold kfree. rewrite (bind_Ok _ _ _ _ _ (acquire_spinlock_run mem_lock m Hlock)).
    change (set_locked mem_lock true m) with m0.
    assert (u64 (p - sizeof_node) = h) as ->.
    { unfold sizeof_node. apply u64_id. fold h. pose proof (live_chunk _ _ _ _ Hinv Hlive).
      destruct C. unfold KSPACE_MASK, PHYSTOP in *. lia. }
    by rewrite (bind_Ok _ _ _ _ _ (mg_run _ _ _ _ _ _ _ _ Hm)).
  - apply mem_inv_lock. destruct Hinv0 as [_ Hp H4]. constructor; [apply Hm| |].
    + eapply pool_inv_sub; [done|apply Hm|apply Hm].
    + by rewrite (mg_length _ _ _ _ _ _ _ _ Hm).
  - intros a k'. change (live (set_memlock false m1) Ls1 a k') with (live m1 Ls1 a k').
    change (live m Ls a k') with (live m0 Ls a k').
    destruct l2 as [|q l2].
    + destruct (mg_last _ _ _ _ _ _ _ _ Hm eq_refl) as [-> ->]. simpl in Hch. tauto.
    + rewrite (merged_live _ _ _ _ _ _ _ _ _ _ Hm) by done. destruct Hch as (-> & Hq & _). tauto.
Qed.

(** ** A concrete heap: CPU 0 has a chunk of 104 bytes in use and a free rest, one page is left *)

Definition P0 : Z := KSPACE_MASK + 0x100000.
Definition P1 : Z := KSPACE_MASK + 0x101000.
Definition small_heap : mem :=
  mkMem 1 false {[0x100 := 1]} 0 2 [P1] [P0; 0; 0; 0]
    {[P0 := mkNode (P0 + 120) 104 0; P0 + 120 := mkNode 0 3960 1]}.
Definition small_chains : list (list Z) := [[P0; P0 + 120]; []; []; []].

Lemma small_heap_inv : mem_inv small_heap small_chains.
Proof.
  assert (chunk P0 (mkNode (P0 + 120) 104 0)) as C0 by (constructor; simpl; by_decision).
  assert (chunk (P0 + 120) (mkNode 0 3960 1)) as C1 by (constructor; simpl; by_decision).
  constructor; [|constructor|done].
  - constructor.
    + unfold small_heap, small_chains. simpl.
      repeat constructor; [done|]. eexists. split; [reflexivity|]. simpl.
      repeat constructor; [done|]. eexists. split; reflexivity.
    + change (concat small_chains) with [P0; P0 + 120]. apply layout_cons. split; [|split].
      * eexists. split; [reflexivity|exact C0].
      * apply layout_cons. split; [|split].
        -- eexists. split; [reflexivity|exact C1].
        -- constructor; [intros a []%not_elem_of_nil|apply FOP_nil].
        -- intros y []%not_elem_of_nil.
      * intros y ->%list_elem_of_singleton n E _.
        assert (n = mkNode (P0 + 120) 104 0) as -> by (vm_compute in E; by injection E as <-).
        simpl. lia.
  - apply NoDup_singleton.
  - intros p ->%list_elem_of_singleton. by_decision.
  - intros p a ->%list_elem_of_singleton Ha. set_unfold in Ha. destruct Ha as [->|[->|[]]]; by_decision.
  - done.
  - by_decision.
Qed.

Lemma kalloc_correct_witness :
  ∃ p m' Ls', kalloc 1 40 small_heap = Ok (p, m') ∧ mem_inv m' Ls' ∧ p = P1 + 16.
Proof.
  destruct (kalloc_correct 1 small_heap small_chains 40) as (p & m' & Ls' & E & Hinv & _);
    [lia|exact small_heap_inv|done|lia|done|].
  exists p, m', Ls'. split; [exact E|]. split; [exact Hinv|].
  vm_compute in E. by injection E as <- _.
Defined.

Lemma kfree_correct_witness :
  ∃ m' Ls', kfree (P0 + 16) small_heap = Ok (tt, m') ∧ mem_inv m' Ls' ∧ ¬ live m' Ls' P0 104.
Proof.
  assert (live small_heap small_chains (P0 + 16 - 16) 104) as Hl.
  { split; [by_decision|]. by exists (mkNode (P0 + 120) 104 0). }
  destruct (kfree_correct small_heap small_chains (P0 + 16) 104 small_heap_inv eq_refl Hl)
    as (n & m' & Ls' & En & E & Hinv & _ & Hlive).
  exists m', Ls'. split; [exact E|]. split; [exact Hinv|].
  intros Hx. apply Hlive in Hx as [_ Hx].
  assert (next n ≠ 0) as Hn by (vm_compute in En; by injection En as <-).
  by apply Hn, Hx.
Defined.

(** ** Swapping a page out and in *)

Lemma swap_write_run page bno n : ∀ i (s : cachest),
  0 ≤ i → 0 ≤ bno → bno + i + Z.of_nat n ≤ 2 ^ 32 →
  ∃ s', for_each (zseq i n)
      (λ i, device_write_raw (u32 (bno + i)) (sub (Z.to_nat (i * 512)) 512 page)) s = Ok (tt, s') ∧
    ∀ j, disk s' !! j = if decide (bno + i ≤ j < bno + i + Z.of_nat n)
      then Some (sub (Z.to_nat ((j - bno) * 512)) 512 page) else disk s !! j.
Proof.
  induction n as [|n IH]; intros i s Hi Hb Hr; simpl.
  - exists s. split; [done|]. intros j. rewrite decide_False by lia. done.
  - erewrite bind_Ok by reflexivity.
    match goal with |- context [for_each _ _ ?x] => set (s1 := x) end.
    destruct (IH (i + 1) s1 ltac:(lia) Hb ltac:(lia)) as (s' & E & Hd). exists s'. split; [exact E|].
    intros j. rewrite Hd. unfold s1. cbn [disk upd_writes upd_disk].
    rewrite u32_id by lia. destruct (decide (j = bno + i)) as [->|Hj].
    + rewrite decide_False, decide_True, lookup_insert_eq by lia. do 2 f_equal. lia.
    + rewrite lookup_insert_ne by done. repeat case_decide; done || lia.
Qed.

Lemma swap_read_run page bno (s : cachest) n : ∀ i,
  0 ≤ i → 0 ≤ bno → bno + i + Z.of_nat n ≤ 2 ^ 32 →
  (∀ j, bno + i ≤ j < bno + i + Z.of_nat n →
     disk s !! j = Some (sub (Z.to_nat ((j - bno) * 512)) 512 page)) →
  read_blocks (zseq i n) bno s = Ok (sub (Z.to_nat (i * 512)) (n * 512) page, s).
Proof.
  induction n as [|n IH]; intros i Hi Hb Hr Hd; simpl.
  - by rewrite mret_run.
  - erewrite bind_Ok by apply gets_run. erewrite bind_Ok by (apply IH; [lia..|]; intros; apply Hd; lia).
    rewrite u32_id by lia. unfold dread. rewrite (Hd (bno + i)) by lia. simpl.
    replace ((bno + i - bno) * 512) with (i * 512) by lia.
    unfold mret, M_ret. do 2 f_equal. unfold sub.
    replace (Z.to_nat ((i + 1) * 512)) with (Z.to_nat (i * 512) + 512)%nat by lia.
    rewrite <-drop_drop. rewrite <-(take_drop 512 (drop (Z.to_nat (i * 512)) page)) at 3.
    rewrite (take_app (take 512 _)). rewrite (take_ge (take 512 _)).
    2:{ rewrite length_take. lia. }
    destruct (decide (512 ≤ length (drop (Z.to_nat (i * 512)) page))%nat) as [Hlen|Hlen].
    + rewrite length_take. do 2 f_equal. lia.
    + assert (drop 512 (drop (Z.to_nat (i * 512)) page) = []) as -> by (apply drop_ge; lia).
      by rewrite !take_nil.
Qed.

Theorem swap_page_roundtrip page (s : cachest) bno s1 :
  length page = 4096%nat → find_and_set_8_blocks s = Ok (bno, s1) → 0 ≤ bno → bno + 8 ≤ 2 ^ 32 →
  ∃ s2, write_page_to_disk page s = Ok (bno, s2) ∧ read_page_from_disk bno s2 = Ok (page, s2).
Proof.
  intros Hl E Hb Hr. unfold write_page_to_disk. rewrite (bind_Ok _ _ _ _ _ E).
  destruct (swap_write_run page bno 8 0 s1 ltac:(lia) Hb ltac:(lia)) as (s2 & E2 & Hd).
  erewrite bind_Ok by exact E2. exists s2. split; [done|].
  unfold read_page_from_disk. rewrite (swap_read_run page bno s2 8 0); [|lia..|].
  - unfold sub. simpl. rewrite drop_0, take_ge by lia. done.
  - intros j Hj. rewrite Hd, decide_True by lia. done.
Qed.
