(* ===== verification/Pt.v ===== *)
(** * [kernel/pt.c]: page tables of user address spaces

    Page directories are kept by address, page frames by the kernel address of the page, as
    their 4096 bytes; a page table is a frame read as 512 little-endian words.  The state has
    the allocator of [Mem] in it.  The translation look-aside buffer is not modelled, so
    invalidating it does nothing. *)

From Stdlib Require Import ZArith Lia.
From S2P Require Import Prelude Words Sync Mmu Mem.

(** [struct section] of [kernel/paging.h]; the fields for files are never used *)
Record section := mkSection { flags : Z; sleeplock : Semaphore; s_begin : Z; s_end : Z }.
Definition ST_HEAP : Z := Z.shiftl 1 3.

(** the sections on [section_head], first to last *)
Record pgdir := mkPgdir { pt : Z; plock : bool; section_head : list Z; online : bool }.
Definition sizeof_pgdir : Z := 40.
Definition sizeof_section : Z := 88.

Record vm := mkVm {
  kmem : mem;
  frames : gmap Z (list Z);
  pgdirs : gmap Z pgdir;
  sections : gmap Z section;
  ttbr0 : Z }.

Notation V := (M vm).

Definition put_kmem (k : mem) (s : vm) : vm :=
  mkVm k (frames s) (pgdirs s) (sections s) (ttbr0 s).
Definition upd_frames (f : gmap Z (list Z) → gmap Z (list Z)) (s : vm) : vm :=
  mkVm (kmem s) (f (frames s)) (pgdirs s) (sections s) (ttbr0 s).
Definition upd_pgdirs (f : gmap Z pgdir → gmap Z pgdir) (s : vm) : vm :=
  mkVm (kmem s) (frames s) (f (pgdirs s)) (sections s) (ttbr0 s).
Definition upd_sections (f : gmap Z section → gmap Z section) (s : vm) : vm :=
  mkVm (kmem s) (frames s) (pgdirs s) (f (sections s)) (ttbr0 s).
Definition set_ttbr0 (v : Z) (s : vm) : vm :=
  mkVm (kmem s) (frames s) (pgdirs s) (sections s) v.

Definition inmem {A} (m : M mem A) : V A := on kmem put_kmem m.

(** ** Memory accesses *)

Definition frame_at (p : Z) : V (list Z) := getopt (λ s, frames s !! p).
Definition set_frame (p : Z) (f : list Z) : V unit := modify (upd_frames <[p := f]>).

(** the [PTEntry] at a kernel address *)
Definition read_pte (a : Z) : V Z :=
  f ← frame_at (a - a mod 4096); mret (le_dec (sub (Z.to_nat (a mod 4096)) 8 f)).
Definition write_pte (a v : Z) : V unit :=
  f ← frame_at (a - a mod 4096);
  set_frame (a - a mod 4096) (splice (Z.to_nat (a mod 4096)) (le_enc 8 v) f).

(** [&p[i]] for a [PTEntriesPtr] *)
Definition slot (p i : Z) : Z := u64 (p + i * 8).

(** [memset(page, 0, PAGE_SIZE)] *)
Definition zero_frame (p : Z) : V unit := set_frame p (replicate 4096 0).

Definition kkalloc : V Z :=
  new_page ← inmem kalloc_page;
  zero_frame new_page;;
  mret new_page.

Definition get_pgdir (pd : Z) : V pgdir := getopt (λ s, pgdirs s !! pd).
Definition set_pgdir (pd : Z) (p : pgdir) : V unit := modify (upd_pgdirs <[pd := p]>).
Definition set_pt (v : Z) (p : pgdir) : pgdir := mkPgdir v (plock p) (section_head p) (online p).

(** ** Walking the tables *)

(** the table that entry [i] of the table [p] leads to; [None] when [get_pte] returns NULL *)
Definition next_table (alloc : bool) (p i : Z) : V (option Z) :=
  e ← read_pte (slot p i);
  if Z.land e PTE_VALID =? 0 then
    if alloc then
      t ← kkalloc;
      write_pte (slot p i) (Z.lor (K2P t) PTE_TABLE);;
      e ← read_pte (slot p i);
      mret (Some (P2K (PTE_ADDRESS e)))
    else mret None
  else mret (Some (P2K (PTE_ADDRESS e))).

Definition get_pte (pd va : Z) (alloc : bool) : V Z :=
  d ← get_pgdir pd;
  p0 ← (if pt d =? 0 then
          if alloc then
            p0 ← inmem kalloc_page;
            zero_frame p0;;
            set_pgdir pd (set_pt p0 d);;
            mret (Some p0)
          else mret None
        else mret (Some (pt d)));
  match p0 with None => mret 0 | Some p0 =>
  p1 ← next_table alloc p0 (VA_PART0 va);
  match p1 with None => mret 0 | Some p1 =>
  p2 ← next_table alloc p1 (VA_PART1 va);
  match p2 with None => mret 0 | Some p2 =>
  p3 ← next_table alloc p2 (VA_PART2 va);
  match p3 with None => mret 0 | Some p3 =>
  mret (slot p3 (VA_PART3 va))
  end end end end.

(** ** Page directories *)

(** [init_sections]: the heap section, put in front of the list *)
Definition init_sections (cpuid : nat) (pd : Z) : V unit :=
  sec ← inmem (kalloc cpuid sizeof_section);
  d ← get_pgdir pd;
  set_pgdir pd (mkPgdir (pt d) (plock d) (sec :: section_head d) (online d));;
  modify (upd_sections <[sec := mkSection ST_HEAP (init_sem 1) 0 0]>).

Definition init_pgdir (cpuid : nat) (pd : Z) : V unit :=
  p ← inmem kalloc_page;
  zero_frame p;;
  set_pgdir pd (mkPgdir p false [] false);;
  init_sections cpuid pd.

(** [freePTEntry(p, 3 - levels)] *)
Fixpoint freePTEntry (levels : nat) (p : Z) : V unit :=
  match levels with
  | O => inmem (kfree_page p)
  | S levels =>
      if p =? 0 then inmem (kfree_page p)
      else
        for_each (zseq 0 512) (λ i,
          e ← read_pte (slot p i);
          when (negb (e =? 0))
            (freePTEntry levels (P2K (PTE_ADDRESS e));; write_pte (slot p i) 0));;
        inmem (kfree_page p)
  end.

Definition free_pgdir (pd : Z) : V unit :=
  d ← get_pgdir pd;
  if pt d =? 0 then mret tt
  else
    freePTEntry 3 (pt d);;
    d ← get_pgdir pd;
    set_pgdir pd (set_pt 0 d).

Section invalid.
(** the address of the table [invalid_pt] *)
Context (invalid_pt : Z).

Definition attach_pgdir (pd : Z) : V unit :=
  d ← get_pgdir pd;
  modify (set_ttbr0 (if pt d =? 0 then K2P invalid_pt else K2P (pt d))).

Definition vmmap_without_changepd (pd va ka flags : Z) : V unit :=
  pte ← get_pte pd va true;
  write_pte pte (Z.lor (K2P ka) flags);;
  r ← inmem (get_ref ka);
  inmem (set_ref ka (increment_rc r)).

Definition vmmap (pd va ka flags : Z) : V unit :=
  pte ← get_pte pd va true;
  write_pte pte (Z.lor (K2P ka) flags);;
  r ← inmem (get_ref ka);
  inmem (set_ref ka (increment_rc r));;
  attach_pgdir pd.
End invalid.

(** ** Copying *)

(** [memmove(page + off, new, length new)] inside the page of a kernel address *)
Definition write_frame (p off : Z) (new : list Z) : V unit :=
  f ← frame_at p; set_frame p (splice (Z.to_nat off) new f).

(** the loop of [copyout]; [src] is [None] for a NULL [p], else the bytes left to copy *)
Fixpoint copyout_loop (fuel : nat) (pd va : Z) (src : option (list Z)) (len : Z) : V Z :=
  match fuel with
  | O => nofuel
  | S fuel =>
      if len =? 0 then mret 0
      else
        let pgoff := va mod PAGE_SIZE in
        pte ← get_pte pd va true;
        if pte =? 0 then mret (-1)
        else
          e ← read_pte pte;
          page ← (if negb (Z.land e PTE_VALID =? 0) then mret (P2K (PTE_ADDRESS e))
                  else
                    page ← inmem kalloc_page;
                    when (negb (page =? 0)) (write_pte pte (Z.lor (K2P page) PTE_USER_DATA));;
                    mret page);
          if page =? 0 then mret (-1)
          else
            let n := MIN (u64 (PAGE_SIZE - pgoff)) len in
            write_frame page pgoff
              (match src with Some l => take (Z.to_nat n) l | None => replicate (Z.to_nat n) 0 end);;
            copyout_loop fuel pd (u64 (va + n)) (drop (Z.to_nat n) <$> src) (u64 (len - n))
  end.

Definition copyout (pd va : Z) (src : option (list Z)) (len : Z) : V Z :=
  if USERTOP <? u64 (va + len) then mret (-1)
  else copyout_loop (S (Z.to_nat len)) pd va src len.

(** The entries of a table with [PTE_VALID], with their indices. *)
Definition for_entries (p : Z) (body : Z → Z → V unit) : V unit :=
  for_each (zseq 0 512) (λ i,
    e ← read_pte (slot p i);
    when (negb (Z.land e PTE_VALID =? 0)) (body i e)).

(** the body of the innermost loop of [vm_copy] *)
Definition copy_page (newpgdir i i1 i2 i3 e : Z) : V unit :=
  assert (negb (Z.land e PTE_PAGE =? 0));;
  assert (negb (Z.land e PTE_USER =? 0));;
  assert (negb (Z.land e PTE_NORMAL =? 0));;
  let va := Z.lor (Z.lor (Z.lor (Z.shiftl i 39) (Z.shiftl i1 30)) (Z.shiftl i2 21)) (Z.shiftl i3 12) in
  let pa := PTE_ADDRESS e in
  np ← inmem kalloc_page;
  assert (negb (np =? 0));;
  f ← frame_at (P2K pa);
  set_frame np f;;
  pte ← get_pte newpgdir va true;
  write_pte pte (Z.lor (K2P np) PTE_USER_DATA).

Definition vm_copy (cpuid : nat) (pd : Z) : V Z :=
  newpgdir ← inmem (kalloc cpuid sizeof_pgdir);
  init_pgdir cpuid newpgdir;;
  if newpgdir =? 0 then mret 0
  else
    d ← get_pgdir pd;
    for_entries (pt d) (λ i e,
      assert (negb (Z.land e PTE_TABLE =? 0));;
      for_entries (P2K (PTE_ADDRESS e)) (λ i1 e1,
        assert (negb (Z.land e1 PTE_TABLE =? 0));;
        for_entries (P2K (PTE_ADDRESS e1)) (λ i2 e2,
          assert (negb (Z.land e2 PTE_TABLE =? 0));;
          for_entries (P2K (PTE_ADDRESS e2)) (λ i3 e3, copy_page newpgdir i i1 i2 i3 e3))));;
    mret newpgdir.

(** the loop of [uvm_alloc] from address [a] *)
Fixpoint uvm_loop (fuel : nat) (pd a newsz : Z) : V unit :=
  match fuel with
  | O => nofuel
  | S fuel =>
      if a <? newsz then
        p ← inmem kalloc_page;
        assert (negb (p =? 0));;
        pte ← get_pte pd a true;
        write_pte pte (Z.lor (K2P p) PTE_USER_DATA);;
        uvm_loop fuel pd (u64 (a + PAGE_SIZE)) newsz
      else mret tt
  end.

(** the result is an [int] *)
Definition uvm_alloc (pd stksz oldsz newsz : Z) : V Z :=
  assert (stksz mod PAGE_SIZE =? 0);;
  let a := u64 (u64 (oldsz + PAGE_SIZE - 1) / PAGE_SIZE * PAGE_SIZE) in
  uvm_loop (S (Z.to_nat ((newsz - a) / PAGE_SIZE + 1))) pd a newsz;;
  mret (i32 newsz).
