(* ===== verification/PtSpec.v ===== *)
(** * Page tables of user address spaces are correct

    The tables of a page directory form a tree: [T] gives the table each sequence of indices
    leads to.  [get_pte] keeps the tree and every translation, and [vmmap] changes the
    translation of one page, as the page table walk of the hardware ([KernelPt.translate])
    sees it. *)

From Stdlib Require Import ZArith Lia.
From S2P Require Import Prelude Words Sync Mmu KernelPt Mem MemSpec Pt.

(** ** Tables in memory *)

Definition ram_page (p : Z) : Prop := KSPACE_MASK ≤ p < KSPACE_MASK + PHYSTOP ∧ p mod 4096 = 0.

Definition is_frame (fr : gmap Z (list Z)) (p : Z) (f : list Z) : Prop :=
  fr !! p = Some f ∧ length f = 4096%nat ∧ bytes f.

(** entry [i] of the table at [p] *)
Definition pte_of (fr : gmap Z (list Z)) (p i : Z) : option Z :=
  f ← fr !! p; dec_words 8 512 f !! Z.to_nat i.

Lemma slot_parts p i :
  ram_page p → 0 ≤ i < 512 →
  slot p i - slot p i mod 4096 = p ∧ slot p i mod 4096 = 8 * i ∧ slot p i ≠ 0.
Proof.
  intros [Hp Ha] Hi. unfold slot, KSPACE_MASK, PHYSTOP in *. rewrite u64_id by lia. split; [zmod|].
  split; [zmod|lia].
Qed.

Lemma pte_of_frame fr p f i :
  is_frame fr p f → 0 ≤ i < 512 → pte_of fr p i = Some (le_dec (sub (8 * Z.to_nat i) 8 f)).
Proof.
  intros (E & Hl & Hb) Hi. unfold pte_of. rewrite E. cbn [mbind option_bind].
  apply lookup_dec_words; lia.
Qed.

Lemma pte_of_word fr p f i e : is_frame fr p f → 0 ≤ i < 512 → pte_of fr p i = Some e → 0 ≤ e < 2 ^ 64.
Proof.
  intros Hf Hi He. rewrite (pte_of_frame fr p f) in He by done. injection He as <-.
  destruct Hf as (E & Hl & Hb).
  pose proof (le_dec_range (sub (8 * Z.to_nat i) 8 f) (bytes_sub _ _ _ Hb)) as H.
  rewrite length_sub in H by lia. exact H.
Qed.

Lemma read_pte_run s p f i e :
  ram_page p → is_frame (frames s) p f → 0 ≤ i < 512 → pte_of (frames s) p i = Some e →
  read_pte (slot p i) s = Ok (e, s).
Proof.
  intros Hp Hf Hi He. rewrite (pte_of_frame _ p f) in He by done. injection He as <-.
  destruct (slot_parts p i Hp Hi) as (E1 & E2 & _). unfold read_pte, frame_at. rewrite E1, E2.
  destruct Hf as (E & _). rewrite (bind_Ok _ _ s f s) by (by apply getopt_run).
  replace (Z.to_nat (8 * i)) with (8 * Z.to_nat i)%nat by lia. done.
Qed.

(** Storing an entry replaces it and nothing else. *)
Lemma write_pte_run s p f i v :
  ram_page p → is_frame (frames s) p f → 0 ≤ i < 512 → 0 ≤ v < 2 ^ 64 →
  ∃ f', write_pte (slot p i) v s = Ok (tt, upd_frames <[p := f']> s) ∧
    is_frame (<[p := f']> (frames s)) p f' ∧
    (∀ j, 0 ≤ j < 512 → pte_of (<[p := f']> (frames s)) p j =
       if decide (j = i) then Some v else pte_of (frames s) p j).
Proof.
  intros Hp (E & Hl & Hb) Hi Hv. destruct (slot_parts p i Hp Hi) as (E1 & E2 & _).
  exists (splice (8 * Z.to_nat i) (le_enc 8 v) f). split; [|split].
  - unfold write_pte, frame_at. rewrite E1, E2.
    rewrite (bind_Ok _ _ s f s) by (by apply getopt_run).
    replace (Z.to_nat (8 * i)) with (8 * Z.to_nat i)%nat by lia. done.
  - split; [apply lookup_insert_eq|]. split.
    + rewrite length_splice; rewrite ?length_le_enc; lia.
    + apply bytes_splice; [apply bytes_le_enc|done].
  - intros j Hj. unfold pte_of. rewrite lookup_insert_eq, E. cbn [mbind option_bind].
    rewrite dec_words_splice by (unfold word_ok; try lia; exact Hv).
    destruct (decide (j = i)) as [->|Hne].
    + apply list_lookup_insert_eq. rewrite length_dec_words. lia.
    + apply list_lookup_insert_ne. lia.
Qed.

Lemma zero_frame_spec fr p :
  is_frame (<[p := replicate 4096 0]> fr) p (replicate 4096 0) ∧
  ∀ i, 0 ≤ i < 512 → pte_of (<[p := replicate 4096 0]> fr) p i = Some 0.
Proof.
  assert (is_frame (<[p := replicate 4096 0]> fr) p (replicate 4096 0)) as Hf.
  { split; [apply lookup_insert_eq|]. split; [apply length_replicate|]. by_decision. }
  split; [done|]. intros i Hi. rewrite (pte_of_frame _ _ _ _ Hf Hi). unfold sub.
  rewrite drop_replicate, take_replicate. f_equal.
  replace (8 `min` (4096 - 8 * Z.to_nat i))%nat with 8%nat by lia. reflexivity.
Qed.

Lemma pte_of_ne fr p q f i : p ≠ q → pte_of (<[q := f]> fr) p i = pte_of fr p i.
Proof. intros Hne. unfold pte_of. by rewrite lookup_insert_ne by done. Qed.

Lemma is_frame_ne fr p q f f' : p ≠ q → is_frame (<[q := f']> fr) p f ↔ is_frame fr p f.
Proof. intros Hne. unfold is_frame. by rewrite lookup_insert_ne by done. Qed.

(** ** The tree of tables *)

Record tree_inv (s : vm) (root : Z) (T : gmap (list Z) Z) : Prop := {
  tr_root : T !! [] = Some root;
  tr_next : ∀ pre p i, T !! pre = Some p → (length pre < 3)%nat → 0 ≤ i < 512 →
    ∃ e, pte_of (frames s) p i = Some e ∧
      (e mod 2 = 0 ∧ T !! (pre ++ [i]) = None ∨
       e mod 4 = 3 ∧ T !! (pre ++ [i]) = Some (P2K (PTE_ADDRESS e)));
  tr_prefix : ∀ pre i p, T !! (pre ++ [i]) = Some p → ∃ q, T !! pre = Some q;
  tr_inj : ∀ pre pre' p, T !! pre = Some p → T !! pre' = Some p → pre = pre';
  tr_page : ∀ pre p, T !! pre = Some p →
    (length pre ≤ 3)%nat ∧ ram_page p ∧ p ∉ pages (kmem s) ∧ ∃ f, is_frame (frames s) p f }.

Definition path (va : Z) : list Z := [VA_PART0 va; VA_PART1 va; VA_PART2 va].

(** the last level entry for [va], when there is one *)
Definition leaf (s : vm) (T : gmap (list Z) Z) (va : Z) : option Z :=
  p ← T !! path va; pte_of (frames s) p (VA_PART3 va).

(** the last level entry for [va], when there is one and it maps a page *)
Definition xlate (s : vm) (T : gmap (list Z) Z) (va : Z) : option Z :=
  e ← leaf s T va; if e mod 4 =? 3 then Some e else None.

(** the heap, which page tables have nothing to do with *)
Definition same_heap (m' m : mem) : Prop :=
  frees m' = frees m ∧ nodes m' = nodes m ∧ memlock m' = memlock m.

(** What getting an entry may do: take up to [n] pages for new tables, whose entries are
    empty. *)
Record extends (Ls : list (list Z)) (n : nat) (s : vm) (T : gmap (list Z) Z)
    (s' : vm) (T' : gmap (list Z) Z) : Prop := {
  ex_sub : T ⊆ T';
  ex_new : ∀ pre p, T' !! pre = Some p → T !! pre = Some p ∨ p ∈ pages (kmem s);
  ex_pool : pool_inv (kmem s') Ls;
  ex_pages : ∃ k, (k ≤ n)%nat ∧ pages (kmem s') = drop k (pages (kmem s));
  ex_count : alloc_page_cnt (kmem s') ≤ alloc_page_cnt (kmem s) + Z.of_nat n ∧ pagenum (kmem s') = pagenum (kmem s);
  ex_zero : zero_page (kmem s') = zero_page (kmem s);
  ex_pgdirs : pgdirs s' = pgdirs s;
  ex_sections : sections s' = sections s;
  ex_frames : ∀ x, (∀ pre, T' !! pre ≠ Some x) → frames s' !! x = frames s !! x;
  ex_leaf : ∀ va, leaf s' T' va = leaf s T va ∨ leaf s T va = None ∧ leaf s' T' va = Some 0;
  ex_ttbr0 : ttbr0 s' = ttbr0 s;
  ex_refs : ∀ p, ram_page p → p ∉ pages (kmem s) → ref_of (kmem s') p = ref_of (kmem s) p;
  ex_heap : same_heap (kmem s') (kmem s) }.

Lemma ex_xlate Ls n s T s' T' : extends Ls n s T s' T' → ∀ va, xlate s' T' va = xlate s T va.
Proof.
  intros X va. unfold xlate. by destruct (ex_leaf _ _ _ _ _ _ X va) as [->|[-> ->]].
Qed.

Lemma extends_refl Ls n s T : pool_inv (kmem s) Ls → extends Ls n s T s T.
Proof.
  intros. constructor; try done; [by left|exists 0%nat; split; [lia|done]|split; [lia|done]|by left].
Qed.

Lemma drop_sub {A} k (l : list A) x : x ∈ drop k l → x ∈ l.
Proof. intros Hx. rewrite <-(take_drop k l), elem_of_app. by right. Qed.

Lemma extends_trans Ls n1 n2 s T s1 T1 s2 T2 :
  extends Ls n1 s T s1 T1 → extends Ls n2 s1 T1 s2 T2 → extends Ls (n1 + n2) s T s2 T2.
Proof.
  intros [S1 N1 P1 (k1 & K1 & D1) [C1 C1'] Z1 G1 E1 F1 X1 B1 R1 H1] [S2 N2 P2 (k2 & K2 & D2) [C2 C2'] Z2 G2 E2 F2 X2 B2 R2 H2].
  constructor; [|intros pre p Hp|done| |split; [lia|congruence]|congruence|congruence|congruence| | |congruence| |].
  - by trans T1.
  - destruct (N2 pre p Hp) as [Hp1|Hp1]; [by apply N1|right]. rewrite D1 in Hp1. by eapply drop_sub.
  - exists (k1 + k2)%nat. split; [lia|]. by rewrite D2, D1, drop_drop.
  - intros x Hx. rewrite F2, F1; [done| |done]. intros pre Hp. apply (Hx pre). by eapply lookup_weaken.
  - intros va. destruct (X2 va) as [->|[E ->]]; [apply X1|]. right. split; [|done].
    destruct (X1 va) as [Hx|[Hx _]]; congruence.
  - intros p Hp Hnp. rewrite R2, R1; [done|done|done|done|]. rewrite D1. intros H. by eapply Hnp, drop_sub.
  - destruct H1 as (? & ? & ?), H2 as (? & ? & ?). split_and!; congruence.
Qed.

Lemma extends_room Ls n s T s' T' :
  extends Ls n s T s' T' → (length (pages (kmem s)) - n ≤ length (pages (kmem s')))%nat.
Proof. intros X. destruct (ex_pages _ _ _ _ _ _ X) as (k & Hk & E). rewrite E, length_drop. lia. Qed.

Lemma land_valid e : Z.land e PTE_VALID = e mod 2.
Proof. apply (Z.land_ones e 1). lia. Qed.

Lemma ram_K2P p : ram_page p → K2P p = p - KSPACE_MASK ∧ K2P p mod 4096 = 0 ∧ 0 ≤ K2P p < 2 ^ 48 ∧ P2K (K2P p) = p.
Proof.
  intros [Hp Ha]. assert (K2P p = p - KSPACE_MASK) as E.
  { apply u64_id. unfold KSPACE_MASK, PHYSTOP in *. lia. }
  rewrite <-E. split; [done|]. rewrite E. unfold KSPACE_MASK, PHYSTOP in *. split; [zmod|].
  split; [lia|]. rewrite <-E. apply P2K_K2P. lia.
Qed.

(** the entry for the table [p], or for the page [p] with flags [f] *)
Lemma entry_of p f :
  ram_page p → 0 ≤ f < 4096 → f mod 4 = 3 →
  let e := Z.lor (K2P p) f in
  0 ≤ e < 2 ^ 64 ∧ e mod 4 = 3 ∧ PTE_ADDRESS e = K2P p.
Proof.
  intros Hp Hf Hf3 e. destruct (ram_K2P p Hp) as (E & Ea & Er & _).
  assert (e = K2P p + f) as Ee by (apply lor_flags; done).
  split; [rewrite Ee; lia|]. split; [rewrite Ee; zmod|]. by apply PTE_ADDRESS_lor.
Qed.

Lemma ref_index_inj p q : ram_page p → ram_page q → ref_index p = ref_index q → p = q.
Proof.
  intros [Hp Ep] [Hq Eq]. rewrite (proj1 (ref_index_eq p Hp)), (proj1 (ref_index_eq q Hq)).
  unfold KSPACE_MASK in *. intros. zmod.
Qed.

(** ** One level *)

(** The tree with a new empty table [q] at [pre ++ [i]], the entry [i] of [p] leading to it. *)
Section new_table.
Context (s s' : vm) (root : Z) (T : gmap (list Z) Z) (pre : list Z) (p i q e : Z).
Context (Hinv : tree_inv s root T) (Hp : T !! pre = Some p) (Hlen : (length pre < 3)%nat).
Context (Hi : 0 ≤ i < 512) (Hq : ram_page q) (Hfree : q ∈ pages (kmem s)).
Context (Hnone : T !! (pre ++ [i]) = None).
Context (He3 : e mod 4 = 3) (Hea : P2K (PTE_ADDRESS e) = q).
Context (Hqf : is_frame (frames s') q (replicate 4096 0)).
Context (Hpf : ∃ f, is_frame (frames s') p f).
Context (Hqz : ∀ j, 0 ≤ j < 512 → pte_of (frames s') q j = Some 0).
Context (Hpe : ∀ j, 0 ≤ j < 512 →
  pte_of (frames s') p j = if decide (j = i) then Some e else pte_of (frames s) p j).
Context (Hother : ∀ x, x ≠ p → x ≠ q → frames s' !! x = frames s !! x).
Context (Hpool : ∀ x, x ∈ pages (kmem s') → x ∈ pages (kmem s) ∧ x ≠ q).

Let T' := <[pre ++ [i] := q]> T.

Lemma fresh_table x pre' : T !! pre' = Some x → x ≠ q.
Proof using Hinv Hfree. intros E ->. by destruct (tr_page _ _ _ Hinv pre' q E) as (_ & _ & H & _). Qed.

Lemma same_entries x pre' j : T !! pre' = Some x → x ≠ p → pte_of (frames s') x j = pte_of (frames s) x j.
Proof using Hinv Hfree Hother.
  intros E Hx. unfold pte_of. rewrite Hother; [done|done|by eapply fresh_table].
Qed.

Lemma new_table_child pre' j :
  T' !! (pre' ++ [j]) = if decide (pre' = pre ∧ j = i) then Some q else T !! (pre' ++ [j]).
Proof using.
  unfold T'. destruct (decide (pre' = pre ∧ j = i)) as [[-> ->]|Hne].
  - by rewrite lookup_insert_eq.
  - rewrite lookup_insert_ne; [done|]. intros E. apply app_inj_tail in E as [E1 E2]. by destruct Hne.
Qed.

Lemma new_table_inv : tree_inv s' root T'.
Proof using Hinv Hp Hlen Hi Hq Hfree Hnone He3 Hea Hqf Hpf Hqz Hpe Hother Hpool.
  constructor.
  - unfold T'. rewrite lookup_insert_ne by (by destruct pre). apply Hinv.
  - intros pre' x j E Hl Hj. rewrite new_table_child.
    destruct (decide (pre' = pre ++ [i])) as [->|Hne].
    + unfold T' in E. rewrite lookup_insert_eq in E. injection E as <-.
      exists 0. split; [by apply Hqz|]. left. split; [done|].
      rewrite decide_False by (intros [E _]; apply (f_equal length) in E; rewrite length_app in E; simpl in E; lia).
      apply eq_None_not_Some. intros [y Ey].
      destruct (tr_prefix _ _ _ Hinv _ _ _ Ey) as [z Ez]. congruence.
    + unfold T' in E. rewrite lookup_insert_ne in E by done.
      destruct (tr_next _ _ _ Hinv pre' x j E Hl Hj) as (e' & E1 & E2).
      destruct (decide (x = p)) as [->|Hx].
      * assert (pre' = pre) as -> by (by eapply (tr_inj _ _ _ Hinv)).
        rewrite Hpe by done. destruct (decide (j = i)) as [->|Hji].
        -- rewrite decide_True by done. exists e. split; [done|]. right. by rewrite Hea.
        -- rewrite decide_False by tauto. by exists e'.
      * rewrite (same_entries x pre') by done.
        rewrite decide_False by (intros [-> ->]; congruence). by exists e'.
  - intros pre' j x. rewrite new_table_child. unfold T'.
    destruct (decide (pre' = pre ∧ j = i)) as [[-> ->]|_].
    + intros _. exists p. rewrite lookup_insert_ne; [done|].
      intros E. apply (f_equal length) in E. rewrite length_app in E. simpl in E. lia.
    + intros E. destruct (tr_prefix _ _ _ Hinv _ _ _ E) as [y Ey].
      destruct (decide (pre' = pre ++ [i])) as [->|]; [exists q; apply lookup_insert_eq|].
      exists y. by rewrite lookup_insert_ne.
  - intros pre1 pre2 x E1 E2. unfold T' in *.
    apply lookup_insert_Some in E1 as [[<- <-]|[N1 E1]], E2 as [[<- E2]|[N2 E2]]; try done.
    + by destruct (fresh_table _ _ E2).
    + subst x. by destruct (fresh_table _ _ E1).
    + by eapply (tr_inj _ _ _ Hinv).
  - intros pre' x E. unfold T' in E. apply lookup_insert_Some in E as [[<- <-]|[N1 E]].
    + split; [rewrite length_app; simpl; lia|]. split; [done|].
      split; [intros Hx; by destruct (Hpool q Hx)|]. by eexists.
    + destruct (tr_page _ _ _ Hinv pre' x E) as (H1 & H2 & H3 & f & H4).
      split; [done|]. split; [done|]. split; [intros Hx; by destruct (Hpool x Hx)|].
      destruct (decide (x = p)) as [->|Hx]; [done|]. exists f. unfold is_frame.
      rewrite Hother; [exact H4|done|by eapply fresh_table].
Qed.

Lemma new_table_leaf va : leaf s' T' va = leaf s T va ∨ leaf s T va = None ∧ leaf s' T' va = Some 0.
Proof using Hinv Hp Hlen Hfree Hnone Hqz Hother.
  unfold leaf. destruct (VA_PART_range va) as (_ & _ & _ & Hr). unfold T'.
  destruct (decide (pre ++ [i] = path va)) as [E|Hne].
  - right. rewrite <-E, lookup_insert_eq, Hnone. cbn [mbind option_bind]. split; [done|by apply Hqz].
  - left. rewrite lookup_insert_ne by done. destruct (T !! path va) as [x|] eqn:Ex; [|done].
    cbn [mbind option_bind]. apply (same_entries x (path va)); [done|].
    intros ->. assert (pre = path va) as -> by (by eapply (tr_inj _ _ _ Hinv)). simpl in Hlen. lia.
Qed.
End new_table.

Section get_pte.
Context (Ls : list (list Z)) (root : Z).

(** the entry is there already *)
Lemma next_table_found alloc s T pre p i t :
  tree_inv s root T → T !! pre = Some p → (length pre < 3)%nat → 0 ≤ i < 512 →
  T !! (pre ++ [i]) = Some t → next_table alloc p i s = Ok (Some t, s).
Proof using.
  intros Hinv Hp Hlen Hi Ht. destruct (tr_page _ _ _ Hinv pre p Hp) as (_ & Hr & _ & f & Hf).
  destruct (tr_next _ _ _ Hinv pre p i Hp Hlen Hi) as (e & Ee & [[_ E]|[E3 E]]); [congruence|].
  unfold next_table. rewrite (bind_Ok _ _ _ _ _ (read_pte_run s p f i e Hr Hf Hi Ee)).
  rewrite land_valid, (proj2 (Z.eqb_neq (e mod 2) 0)) by zmod.
  rewrite Ht in E. by injection E as ->.
Qed.

(** it is not, and none is to be made *)
Lemma next_table_none s T pre p i :
  tree_inv s root T → T !! pre = Some p → (length pre < 3)%nat → 0 ≤ i < 512 →
  T !! (pre ++ [i]) = None → next_table false p i s = Ok (None, s).
Proof using.
  intros Hinv Hp Hlen Hi Ht. destruct (tr_page _ _ _ Hinv pre p Hp) as (_ & Hr & _ & f & Hf).
  destruct (tr_next _ _ _ Hinv pre p i Hp Hlen Hi) as (e & Ee & [[E0 _]|[_ E]]); [|congruence].
  unfold next_table. rewrite (bind_Ok _ _ _ _ _ (read_pte_run s p f i e Hr Hf Hi Ee)).
  by rewrite land_valid, E0.
Qed.

Lemma kkalloc_run s q l :
  pool_inv (kmem s) Ls → pages (kmem s) = q :: l →
  kkalloc s = Ok (q, upd_frames <[q := replicate 4096 0]> (put_kmem (taken (kmem s) q l) s)).
Proof using.
  intros Hpool El. unfold kkalloc.
  erewrite bind_Ok by (apply on_run; by eapply kalloc_page_run).
  by erewrite bind_Ok by apply modify_run.
Qed.

Lemma next_table_run s T pre p i :
  tree_inv s root T → pool_inv (kmem s) Ls → pages (kmem s) ≠ [] →
  T !! pre = Some p → (length pre < 3)%nat → 0 ≤ i < 512 →
  ∃ s' T' t, next_table true p i s = Ok (Some t, s') ∧ tree_inv s' root T' ∧
    T' !! (pre ++ [i]) = Some t ∧ extends Ls 1 s T s' T'.
Proof using.
  intros Hinv Hpool Hpages Hp Hlen Hi.
  destruct (T !! (pre ++ [i])) as [t|] eqn:Ht.
  { exists s, T, t. split; [by eapply next_table_found|]. split; [done|]. split; [done|].
    by apply extends_refl. }
  destruct (pages (kmem s)) as [|q l] eqn:El; [done|].
  destruct (tr_page _ _ _ Hinv pre p Hp) as (_ & Hr & Hpq & f & Hf). rewrite El in Hpq.
  destruct (tr_next _ _ _ Hinv pre p i Hp Hlen Hi) as (e0 & Ee & [[E0 _]|[_ E]]); [|congruence].
  destruct (taken_pool (kmem s) Ls q l Hpool El) as (Hpool' & Hql & _).
  assert (ram_page q) as Hq.
  { destruct (po_page _ _ Hpool q) as (? & ? & _); [rewrite El; left|]. done. }
  assert (p ≠ q) as Hne by set_solver.
  set (s1 := upd_frames <[q := replicate 4096 0]> (put_kmem (taken (kmem s) q l) s)).
  set (e := Z.lor (K2P q) PTE_TABLE).
  destruct (entry_of q PTE_TABLE Hq ltac:(done) eq_refl) as (He & He3 & Hea). fold e in He, He3, Hea.
  assert (is_frame (frames s1) p f) as Hf1 by (by apply is_frame_ne).
  destruct (write_pte_run s1 p f i e Hr Hf1 Hi He) as (f' & Ew & Hf' & Hpe).
  set (s2 := upd_frames <[p := f']> s1).
  destruct (zero_frame_spec (frames s) q) as [Hz1 Hz2].
  assert (Hqx : P2K (PTE_ADDRESS e) = q) by (rewrite Hea; apply (ram_K2P q Hq)).
  assert (pte_of (frames s2) p i = Some e) as Ei.
  { etrans; [apply Hpe; done|]. by rewrite decide_True. }
  exists s2, (<[pre ++ [i] := q]> T), q. split; [|split; [|split; [apply lookup_insert_eq|]]].
  - unfold next_table. rewrite (bind_Ok _ _ _ _ _ (read_pte_run s p f i e0 Hr Hf Hi Ee)).
    rewrite land_valid, E0. cbn [Z.eqb]. rewrite (bind_Ok _ _ _ _ _ (kkalloc_run s q l Hpool El)).
    rewrite (bind_Ok _ _ _ _ _ Ew).
    rewrite (bind_Ok _ _ _ _ _ (read_pte_run s2 p f' i e Hr Hf' Hi Ei)). by rewrite Hqx.
  - apply (new_table_inv s s2 root T pre p i q e); try done.
    + rewrite El. left.
    + by apply is_frame_ne.
    + by exists f'.
    + intros j Hj. etrans; [apply pte_of_ne; done|by apply Hz2].
    + intros j Hj. etrans; [apply Hpe; done|]. by rewrite <-(pte_of_ne (frames s) p q (replicate 4096 0)).
    + intros x Hx Hxq. simpl. by rewrite !lookup_insert_ne.
    + simpl. rewrite El. intros x Hx. split; [by right|]. by intros ->.
  - constructor; [by apply insert_subseteq| |done| | |done|done|done| | |done| |done].
    + intros pre' x Hx. apply lookup_insert_Some in Hx as [[_ <-]|[_ Hx]]; [right; rewrite El; left|by left].
    + exists 1%nat. rewrite El. done.
    + split; [|done]. simpl. destruct (po_range _ _ Hpool). pose proof (po_count _ _ Hpool).
      unfold increment_rc. rewrite i64_id by lia. lia.
    + intros x Hx. simpl. rewrite !lookup_insert_ne; [done| |].
      * intros <-. apply (Hx (pre ++ [i])). apply lookup_insert_eq.
      * intros <-. apply (Hx pre). rewrite lookup_insert_ne; [done|]. intros E.
        apply (f_equal length) in E. rewrite length_app in E. simpl in E. lia.
    + intros va. apply (new_table_leaf s s2 root T pre p i q); try done.
      * rewrite El. left.
      * intros j Hj. etrans; [apply pte_of_ne; done|by apply Hz2].
      * intros x Hx Hxq. simpl. by rewrite !lookup_insert_ne.
    + intros x Hx Hnx. simpl. unfold ref_of. simpl. rewrite lookup_insert_ne; [done|]. intros E.
      rewrite El in Hnx. apply Hnx. rewrite (ref_index_inj q x Hq Hx E). left.
Qed.

(** [get_pte] on a page directory whose top table is [root]. *)
Lemma get_pte_run s T pd d va :
  tree_inv s root T → pool_inv (kmem s) Ls → (3 ≤ length (pages (kmem s)))%nat →
  pgdirs s !! pd = Some d → pt d = root →
  ∃ s' T' p, get_pte pd va true s = Ok (slot p (VA_PART3 va), s') ∧ tree_inv s' root T' ∧
    T' !! [VA_PART0 va; VA_PART1 va; VA_PART2 va] = Some p ∧ extends Ls 3 s T s' T'.
Proof using.
  intros Hinv Hpool Hroom Ed Er. destruct (VA_PART_range va) as (H0 & H1 & H2 & _).
  destruct (tr_page _ _ _ Hinv [] root (tr_root _ _ _ Hinv)) as (_ & [Hr _] & _).
  destruct (next_table_run s T [] root (VA_PART0 va) Hinv Hpool) as (s1 & T1 & p1 & E1 & I1 & L1 & X1);
    [intros E; rewrite E in Hroom; simpl in Hroom; lia|apply Hinv|simpl; lia|exact H0|].
  pose proof (extends_room _ _ _ _ _ _ X1) as R1.
  destruct (next_table_run s1 T1 [VA_PART0 va] p1 (VA_PART1 va) I1 (ex_pool _ _ _ _ _ _ X1))
    as (s2 & T2 & p2 & E2 & I2 & L2 & X2);
    [intros E; rewrite E in R1; simpl in R1; lia|done|simpl; lia|exact H1|].
  pose proof (extends_room _ _ _ _ _ _ X2) as R2.
  destruct (next_table_run s2 T2 [VA_PART0 va; VA_PART1 va] p2 (VA_PART2 va) I2 (ex_pool _ _ _ _ _ _ X2))
    as (s3 & T3 & p3 & E3 & I3 & L3 & X3);
    [intros E; rewrite E in R2; simpl in R2; lia|done|simpl; lia|exact H2|].
  exists s3, T3, p3. split; [|split; [done|split; [done|]]].
  - unfold get_pte, get_pgdir.
    rewrite (bind_Ok _ _ s d s) by (by apply getopt_run).
    rewrite Er, (proj2 (Z.eqb_neq root 0)) by (unfold KSPACE_MASK in *; lia).
    erewrite bind_Ok by apply mret_run. cbv beta iota.
    rewrite (bind_Ok _ _ _ _ _ E1). cbv beta iota. rewrite (bind_Ok _ _ _ _ _ E2). cbv beta iota.
    rewrite (bind_Ok _ _ _ _ _ E3). done.
  - apply (extends_trans Ls 1 2 _ _ _ _ _ _ X1). by apply (extends_trans Ls 1 1 _ _ s2 T2).
Qed.

(** Storing a last level entry changes the translation of its page only. *)
Lemma write_leaf_run s T va p e :
  tree_inv s root T → T !! [VA_PART0 va; VA_PART1 va; VA_PART2 va] = Some p → 0 ≤ e < 2 ^ 64 →
  ∃ f', write_pte (slot p (VA_PART3 va)) e s = Ok (tt, upd_frames <[p := f']> s) ∧
    tree_inv (upd_frames <[p := f']> s) root T ∧
    ∀ va', leaf (upd_frames <[p := f']> s) T va' =
      if decide (VA_PART0 va' = VA_PART0 va ∧ VA_PART1 va' = VA_PART1 va ∧
                 VA_PART2 va' = VA_PART2 va ∧ VA_PART3 va' = VA_PART3 va)
      then Some e else leaf s T va'.
Proof using.
  intros Hinv Hp He. destruct (VA_PART_range va) as (_ & _ & _ & Hi).
  destruct (tr_page _ _ _ Hinv _ p Hp) as (_ & Hr & _ & f & Hf).
  destruct (write_pte_run s p f _ e Hr Hf Hi He) as (f' & Ew & Hf' & Hpe).
  assert (Hsame : ∀ x pre i, T !! pre = Some x → (length pre < 3)%nat →
    pte_of (<[p:=f']> (frames s)) x i = pte_of (frames s) x i).
  { intros x pre i Ex Hl. apply pte_of_ne. intros ->.
    assert (pre = [VA_PART0 va; VA_PART1 va; VA_PART2 va]) as -> by (by eapply (tr_inj _ _ _ Hinv)).
    simpl in Hl. lia. }
  exists f'. split; [done|]. split.
  - constructor; [apply Hinv| |apply Hinv|apply Hinv|].
    + intros pre x i Ex Hl Hii. simpl. rewrite (Hsame x pre i Ex Hl). by apply (tr_next _ _ _ Hinv).
    + intros pre x Ex. destruct (tr_page _ _ _ Hinv pre x Ex) as (P1 & P2 & P3 & g & Hg).
      split; [done|]. split; [done|]. split; [done|].
      destruct (decide (x = p)) as [->|Hx]; [by exists f'|]. exists g. by apply is_frame_ne.
  - intros va'. unfold leaf, path. destruct (VA_PART_range va') as (_ & _ & _ & Hi').
    destruct (decide ([VA_PART0 va'; VA_PART1 va'; VA_PART2 va'] = [VA_PART0 va; VA_PART1 va; VA_PART2 va]))
      as [E|Hne].
    + rewrite E, Hp. cbn [mbind option_bind frames upd_frames]. rewrite Hpe by done.
      injection E as E0 E1 E2. destruct (decide (VA_PART3 va' = VA_PART3 va)) as [E3|N3].
      * by rewrite decide_True.
      * rewrite decide_False by tauto. done.
    + rewrite decide_False by (intros (E0 & E1 & E2 & _); apply Hne; congruence).
      destruct (T !! [VA_PART0 va'; VA_PART1 va'; VA_PART2 va']) as [x|] eqn:Ex; [|done].
      cbn [mbind option_bind frames upd_frames]. rewrite pte_of_ne; [done|].
      intros ->. apply Hne. by eapply (tr_inj _ _ _ Hinv).
Qed.
Lemma xlate_leaf s s' T T' va : leaf s' T' va = leaf s T va → xlate s' T' va = xlate s T va.
Proof using. unfold xlate. by intros ->. Qed.
End get_pte.

(** ** What the hardware sees *)

(** the table at a physical address *)
Definition phys (s : vm) (pa : Z) : option (list Z) := dec_words 8 512 <$> frames s !! P2K pa.

Section hardware.
Context (s : vm) (root : Z) (T : gmap (list Z) Z) (Hinv : tree_inv s root T).

Lemma phys_entry pre p i :
  T !! pre = Some p → (t ← phys s (K2P p); t !! Z.to_nat i) = pte_of (frames s) p i.
Proof using Hinv.
  intros Hp. destruct (tr_page _ _ _ Hinv pre p Hp) as (_ & Hr & _).
  destruct (ram_K2P p Hr) as (_ & _ & _ & E). unfold phys, pte_of. rewrite E.
  by destruct (frames s !! p).
Qed.

Lemma walk_unfold k ks p va pre :
  T !! pre = Some p →
  walk (phys s) (k :: ks) (K2P p) va =
    (e ← pte_of (frames s) p ((va / 2 ^ k) mod 512);
     if e mod 4 =? 3 then
       if k =? 12 then Some (PTE_ADDRESS e + va mod 2 ^ k, PTE_FLAGS e)
       else walk (phys s) ks (PTE_ADDRESS e) va
     else if (e mod 4 =? 1) && ((k =? 30) || (k =? 21)) then
       Some (PTE_ADDRESS e / 2 ^ k * 2 ^ k + va mod 2 ^ k, PTE_FLAGS e)
     else None).
Proof using Hinv.
  intros Hp. rewrite <-(phys_entry pre p _ Hp). cbn [walk]. by destruct (phys s (K2P p)).
Qed.

Lemma walk_level k ks p va pre :
  T !! pre = Some p → (length pre < 3)%nat → k ≠ 12 →
  walk (phys s) (k :: ks) (K2P p) va =
    match T !! (pre ++ [(va / 2 ^ k) mod 512]) with
    | Some t => walk (phys s) ks (K2P t) va
    | None => None
    end.
Proof using Hinv.
  intros Hp Hl Hk. rewrite (walk_unfold k ks p va pre Hp).
  destruct (tr_next _ _ _ Hinv pre p ((va / 2 ^ k) mod 512) Hp Hl) as (e & Ee & He);
    [apply Z.mod_pos_bound; lia|].
  rewrite Ee. cbn [mbind option_bind].
  destruct He as [[E0 ->]|[E3 ->]].
  - rewrite !(proj2 (Z.eqb_neq _ _)) by zmod. done.
  - rewrite E3, (proj2 (Z.eqb_neq _ _) Hk). simpl.
    rewrite K2P_P2K; [done|]. rewrite PTE_ADDRESS_eq. change (2 ^ 36) with 68719476736. zmod.
Qed.

Lemma translate_xlate va :
  translate (phys s) (K2P root) va =
    (λ e, (PTE_ADDRESS e + va mod 4096, PTE_FLAGS e)) <$> xlate s T va.
Proof using Hinv.
  unfold translate, xlate, leaf, path. rewrite VA_PART0_eq, VA_PART1_eq, VA_PART2_eq, VA_PART3_eq.
  rewrite (walk_level 39 _ _ va [] (tr_root _ _ _ Hinv)) by (simpl; lia). simpl app.
  destruct (T !! [(va / 2 ^ 39) mod 512]) as [p1|] eqn:E1.
  2:{ assert (T !! [(va / 2 ^ 39) mod 512; (va / 2 ^ 30) mod 512; (va / 2 ^ 21) mod 512] = None) as ->; [|done].
      apply eq_None_not_Some. intros [x Ex].
      apply (tr_prefix _ _ _ Hinv [_; _]) in Ex as [y Ey]. apply (tr_prefix _ _ _ Hinv [_]) in Ey as [z Ez].
      congruence. }
  rewrite (walk_level 30 _ p1 va _ E1) by (simpl; lia). simpl app.
  destruct (T !! [(va / 2 ^ 39) mod 512; (va / 2 ^ 30) mod 512]) as [p2|] eqn:E2.
  2:{ assert (T !! [(va / 2 ^ 39) mod 512; (va / 2 ^ 30) mod 512; (va / 2 ^ 21) mod 512] = None) as ->; [|done].
      apply eq_None_not_Some. intros [x Ex].
      apply (tr_prefix _ _ _ Hinv [_; _]) in Ex as [y Ey]. congruence. }
  rewrite (walk_level 21 _ p2 va _ E2) by (simpl; lia). simpl app.
  destruct (T !! [(va / 2 ^ 39) mod 512; (va / 2 ^ 30) mod 512; (va / 2 ^ 21) mod 512]) as [p3|] eqn:E3;
    [|done].
  rewrite (walk_unfold 12 [] p3 va _ E3). cbn [mbind option_bind].
  destruct (pte_of (frames s) p3 ((va / 2 ^ 12) mod 512)) as [e|]; [|done].
  cbn [mbind option_bind]. destruct (Z.eqb_spec (e mod 4) 3); [done|].
  by rewrite andb_false_r.
Qed.
End hardware.

(** Addresses below 2^48 with the same index fields are in the same page. *)
Lemma same_parts va va' :
  0 ≤ va < 2 ^ 48 → 0 ≤ va' < 2 ^ 48 →
  (VA_PART0 va' = VA_PART0 va ∧ VA_PART1 va' = VA_PART1 va ∧
   VA_PART2 va' = VA_PART2 va ∧ VA_PART3 va' = VA_PART3 va) ↔ va' / 4096 = va / 4096.
Proof.
  intros H H'. rewrite !VA_PART0_eq, !VA_PART1_eq, !VA_PART2_eq, !VA_PART3_eq.
  change (2 ^ 48) with 281474976710656 in *. change (2 ^ 39) with (4096 * 512 * 512 * 512).
  change (2 ^ 30) with (4096 * 512 * 512). change (2 ^ 21) with (4096 * 512). change (2 ^ 12) with 4096.
  rewrite <-!Z.div_div by lia.
  assert (0 ≤ va / 4096 < 68719476736) by zmod. assert (0 ≤ va' / 4096 < 68719476736) by zmod.
  generalize dependent (va / 4096). generalize dependent (va' / 4096). clear.
  intros a Ha b Hb. split; [|by intros ->]. intros (E0 & E1 & E2 & E3).
  pose proof (Z.div_mod a 512). pose proof (Z.div_mod b 512).
  pose proof (Z.div_mod (a / 512) 512). pose proof (Z.div_mod (b / 512) 512).
  pose proof (Z.div_mod (a / 512 / 512) 512). pose proof (Z.div_mod (b / 512 / 512) 512).
  rewrite !(Z.mod_small (_ / 512 / 512 / 512)) in E0 by zmod. lia.
Qed.

Lemma pool_inv_set_ref m Ls p v :
  pool_inv m Ls → ram_page p → p ∉ pages m → pool_inv (upd_ref <[ref_index p := v]> m) Ls.
Proof.
  intros [P1 P2 P3 P4 P5] [Hp Ha] Hni. constructor; try done. simpl.
  intros q Hq. destruct (P2 q Hq) as (Hr & Hqa & H0). split; [done|]. split; [done|].
  unfold ref_of. simpl. rewrite lookup_insert_ne; [done|].
  rewrite (proj1 (ref_index_eq p Hp)), (proj1 (ref_index_eq q Hr)).
  intros E. assert (p = q) as -> by zmod. done.
Qed.

(** C32: vmmap(pd, va, ka, flags) with three pages left for tables succeeds and loads the table
    base register with pd's tables; the page table walk of the hardware then takes each
    address of va's page to the page ka with the flags given, and takes every other user
    address where it took it before. *)
Theorem vmmap_correct invalid_pt s T Ls pd d va ka flags :
  tree_inv s (pt d) T → pool_inv (kmem s) Ls → (3 ≤ length (pages (kmem s)))%nat →
  pgdirs s !! pd = Some d →
  ram_page ka → ka ∉ pages (kmem s) → 0 ≤ va < 2 ^ 48 → 0 ≤ flags < 4096 → flags mod 4 = 3 →
  ∃ s' T', vmmap invalid_pt pd va ka flags s = Ok (tt, s') ∧
    tree_inv s' (pt d) T' ∧ pool_inv (kmem s') Ls ∧ pgdirs s' = pgdirs s ∧ ttbr0 s' = K2P (pt d) ∧
    ∀ va', 0 ≤ va' < 2 ^ 48 →
      translate (phys s') (ttbr0 s') va' =
        if decide (va' / 4096 = va / 4096) then Some (K2P ka + va' mod 4096, flags)
        else translate (phys s) (K2P (pt d)) va'.
Proof.
  intros Hinv Hpool Hroom Hd Hka Hkp Hva Hf Hf3.
  destruct (get_pte_run Ls (pt d) s T pd d va Hinv Hpool Hroom Hd eq_refl)
    as (s1 & T1 & p & E1 & I1 & L1 & X1).
  destruct (ram_K2P ka Hka) as (Ek & Eka & Ekr & _).
  assert (K2P ka + 4096 ≤ 2 ^ 48) as Ekt by (destruct Hka; unfold KSPACE_MASK, PHYSTOP in *; lia).
  destruct (entry_of ka flags Hka Hf Hf3) as (He & He3 & Hea). set (e := Z.lor (K2P ka) flags) in *.
  destruct (write_leaf_run (pt d) s1 T1 va p e I1 L1 He) as (f' & E2 & I2 & X2).
  set (s2 := upd_frames <[p := f']> s1) in *.
  set (s3 := put_kmem (upd_ref <[ref_index ka := increment_rc (ref_of (kmem s1) ka)]> (kmem s1)) s2).
  assert (tree_inv s3 (pt d) T1) as I3 by (destruct I2; by constructor).
  assert (ka ∉ pages (kmem s1)) as Hka1.
  { destruct (ex_pages _ _ _ _ _ _ X1) as (k & _ & ->). intros Hin. apply Hkp.
    rewrite <-(take_drop k (pages (kmem s))), elem_of_app. by right. }
  exists (set_ttbr0 (K2P (pt d)) s3), T1. split; [|split; [|split; [|split; [|split; [done|]]]]].
  - unfold vmmap. rewrite (bind_Ok _ _ _ _ _ E1), (bind_Ok _ _ _ _ _ E2).
    erewrite bind_Ok by (apply on_run, get_ref_run, Hka).
    erewrite bind_Ok by (apply on_run; reflexivity).
    unfold attach_pgdir, get_pgdir.
    match goal with |- _ ?x = _ => change x with s3 end.
    erewrite bind_Ok by (apply getopt_run; simpl; rewrite (ex_pgdirs _ _ _ _ _ _ X1); exact Hd).
    destruct (tr_page _ _ _ Hinv [] (pt d) (tr_root _ _ _ Hinv)) as (_ & [Hr _] & _).
    rewrite (proj2 (Z.eqb_neq (pt d) 0)) by (unfold KSPACE_MASK in *; lia). done.
  - destruct I3; by constructor.
  - apply pool_inv_set_ref; [apply X1|done|done].
  - apply X1.
  - intros va' Hva'. change (phys (set_ttbr0 (K2P (pt d)) s3)) with (phys s3).
    change (ttbr0 _) with (K2P (pt d)).
    rewrite (translate_xlate s3 (pt d) T1 I3), (translate_xlate s (pt d) T Hinv).
    change (xlate s3 T1 va') with (xlate s2 T1 va'). rewrite <-(ex_xlate _ _ _ _ _ _ X1).
    destruct (decide (va' / 4096 = va / 4096)) as [Hp|Hp].
    + unfold xlate. rewrite X2, decide_True by (by apply same_parts). cbn [mbind option_bind].
      rewrite He3. simpl. rewrite Hea.
      rewrite PTE_FLAGS_eq by (unfold e; rewrite lor_flags by done; lia).
      unfold e. rewrite lor_flags by done. do 2 f_equal. zmod.
    + f_equal. apply xlate_leaf. rewrite X2. by rewrite decide_False by (by rewrite same_parts).
Qed.

(** ** A concrete address space: an empty top table and three spare pages *)

Definition page_ (i : Z) : Z := KSPACE_MASK + 0x100000 + i * 4096.
Definition empty_space : vm :=
  mkVm (mkMem 2 false ∅ 0 5 [page_ 1; page_ 2; page_ 3] [0; 0; 0; 0] ∅)
    {[page_ 0 := replicate 4096 0]} {[8 := mkPgdir (page_ 0) false [] false]} ∅ 0.

Lemma empty_space_inv :
  tree_inv empty_space (page_ 0) {[[] := page_ 0]} ∧ pool_inv (kmem empty_space) [].
Proof.
  destruct (zero_frame_spec ∅ (page_ 0)) as [Hf Hz]. split.
  - constructor.
    + apply lookup_singleton_eq.
    + intros pre p i [<- <-]%lookup_singleton_Some _ Hi. exists 0.
      split; [by apply Hz|]. left. split; [done|]. by apply lookup_singleton_ne.
    + intros pre i p [E _]%lookup_singleton_Some. by destruct pre.
    + intros pre pre' p [<- _]%lookup_singleton_Some [<- _]%lookup_singleton_Some. done.
    + intros pre p [<- <-]%lookup_singleton_Some. split; [simpl; lia|].
      split; [by_decision|]. split; [by_decision|]. eexists. exact Hf.
  - constructor; [by_decision| | |done|by_decision].
    + intros p Hp. assert (Forall (λ p, KSPACE_MASK ≤ p < KSPACE_MASK + PHYSTOP ∧ p mod 4096 = 0 ∧
        ref_of (kmem empty_space) p = 0) (pages (kmem empty_space))) as H by by_decision.
      rewrite Forall_forall in H. by apply H.
    + intros p a _ Ha. by apply not_elem_of_nil in Ha.
Qed.

Lemma vmmap_correct_witness :
  ∃ s', vmmap 0 8 0x400000 (page_ 9) PTE_USER_DATA empty_space = Ok (tt, s') ∧
    translate (phys s') (ttbr0 s') 0x400123 = Some (0x109123, PTE_USER_DATA).
Proof.
  destruct empty_space_inv as [Ht Hp].
  destruct (vmmap_correct 0 empty_space {[[] := page_ 0]} [] 8 (mkPgdir (page_ 0) false [] false)
    0x400000 (page_ 9) PTE_USER_DATA) as (s' & T' & E & _ & _ & _ & _ & Hx);
    [exact Ht|exact Hp|simpl; lia|done|by_decision|by_decision|lia|by_decision|done|].
  exists s'. split; [exact E|]. rewrite (Hx 0x400123 ltac:(lia)). reflexivity.
Defined.
