(* ===== verification/Paging.v ===== *)
(** * [kernel/paging.c]: growing, faulting in and swapping user memory

    The state is the page tables with the page allocator ([Pt]) and the disk with the map of
    the swap area ([Cache]).  [cur] is the page directory of the running process; the address
    a fault reports ([arch_get_far]) is an argument. *)

From Stdlib Require Import ZArith Lia.
From S2P Require Import Prelude Words Sync Mmu Cache Mem Pt.

Record pg := mkPg { mm : vm; io : cachest }.
Notation P := (M pg).
Definition put_mm (v : vm) (s : pg) : pg := mkPg v (io s).
Definition put_io (c : cachest) (s : pg) : pg := mkPg (mm s) c.
Definition invm {A} (m : M vm A) : P A := on mm put_mm m.
Definition onio {A} (m : M cachest A) : P A := on io put_io m.

Definition ST_FILE : Z := 1.
Definition ST_SWAP : Z := Z.shiftl 1 1.
Definition REVERSED_PAGES : Z := 1024.

(** [addr & MASK] *)
Definition CLEAN (addr : Z) : Z := addr - addr mod 4096.

(** ** Sections *)

Definition get_section (st : Z) : P section := invm (getopt (λ s, sections s !! st)).
Definition set_section (st : Z) (f : section → section) : P unit :=
  x ← get_section st; invm (modify (upd_sections <[st := f x]>)).
Definition set_flags (v : Z) (x : section) : section := mkSection v (sleeplock x) (s_begin x) (s_end x).
Definition set_end (v : Z) (x : section) : section := mkSection (flags x) (sleeplock x) (s_begin x) v.
Definition set_sleeplock (l : Semaphore) (x : section) : section := mkSection (flags x) l (s_begin x) (s_end x).

(** [unalertable_wait_sem(&st->sleeplock)] *)
Definition section_wait (st : Z) : P unit :=
  x ← get_section st;
  '(r, l) ← run_sem wait_sem (sleeplock x);
  set_section st (set_sleeplock l);;
  assert r.
Definition section_post (st : Z) : P unit :=
  x ← get_section st;
  '(_, l) ← run_sem post_sem (sleeplock x);
  set_section st (set_sleeplock l).

(** ** Pages *)

Definition alloc_page_for_user : P Z :=
  n ← invm (inmem left_page_cnt);
  if n <=? REVERSED_PAGES then mret 0 else invm (inmem kalloc_page).

(** the bytes of the page at a kernel address, and storing them *)
Definition page_bytes (p : Z) : P (list Z) := invm (frame_at p).
Definition store_page (p : Z) (l : list Z) : P unit := if p =? 0 then fault else invm (set_frame p l).

Definition check_zero_page : P bool :=
  z ← invm (inmem get_zero_page);
  l ← page_bytes z;
  mret (forallb (Z.eqb 0) l).

Section paging.
Context (invalid_pt cur : Z).

(** [attach_pgdir(pd); arch_tlbi_vmalle1is()] *)
Definition reload (pd : Z) : P unit := invm (attach_pgdir invalid_pt pd).

(** one round of the loop of [sbrk]: the page at [va] is given back *)
Definition drop_page (pd va : Z) : P unit :=
  pte ← invm (get_pte pd va false);
  when (negb (pte =? 0))
    (e ← invm (read_pte pte);
     when (negb (e =? 0))
       (invm (inmem (kfree_page (P2K (CLEAN e))));;
        invm (write_pte pte 0))).

(** The product is the one the processor computes. *)
Definition sbrk (size : Z) : P Z :=
  d ← invm (get_pgdir cur);
  sec ← getopt (λ _, section_head d !! 0%nat);
  x ← get_section sec;
  let ans := s_end x in
  set_section sec (set_end (u64 (ans + size * PAGE_SIZE)));;
  when (size <? 0)
    (for_each (zseq 0 (Z.to_nat (- size))) (λ i,
       x ← get_section sec;
       drop_page cur (u64 (s_end x + i * PAGE_SIZE))));;
  reload cur;;
  mret ans.

(** [for (u64 i = begin; i < end; i += PAGE_SIZE)] with the body on the entry of [i], where
    there is a table for it *)
Definition for_ptes (pd begin end_ : Z) (body : Z → Z → P unit) : P unit :=
  for_each (zseq 0 (Z.to_nat ((end_ - begin + PAGE_SIZE - 1) / PAGE_SIZE))) (λ k,
    pte ← invm (get_pte pd (u64 (begin + k * PAGE_SIZE)) false);
    when (negb (pte =? 0)) (e ← invm (read_pte pte); body pte e)).

(** [*pte &= ~PTE_VALID] *)
Definition invalidate (pte e : Z) : P unit :=
  when (negb (e =? 0)) (invm (write_pte pte (Z.land e (Z.lnot PTE_VALID)))).

Definition page_out (pte e : Z) : P unit :=
  when (Z.land e PTE_VALID =? 0)
    (l ← page_bytes (P2K (CLEAN e));
     bno ← onio (write_page_to_disk l);
     invm (write_pte pte bno)).

Definition swapout (pd st : Z) : P unit :=
  set_section st (λ x, set_flags (Z.lor (flags x) ST_SWAP) x);;
  x ← get_section st;
  for_ptes pd (s_begin x) (s_end x) invalidate;;
  let begin := s_begin x in
  let end_ := s_end x in
  reload pd;;
  section_wait st;;
  d ← invm (get_pgdir pd);
  invm (set_pgdir pd (mkPgdir (pt d) false (section_head d) (online d)));;
  x ← get_section st;
  when (Z.land (flags x) ST_FILE =? 0) (for_ptes pd begin end_ page_out);;
  reload pd;;
  sbrk (i64 (u64 (- (end_ - begin)) / PAGE_SIZE));;
  set_section st (set_end end_);;
  section_post st.

Definition page_in (pte e : Z) : P unit :=
  when (negb (e =? 0))
    (let bno := u32 e in
     newpage ← alloc_page_for_user;
     l ← onio (read_page_from_disk bno);
     store_page newpage l;;
     invm (write_pte pte (Z.lor (K2P newpage) PTE_USER_DATA));;
     onio (release_8_blocks bno)).

Definition swapin (pd st : Z) : P unit :=
  x ← get_section st;
  assert (negb (Z.land (flags x) ST_SWAP =? 0));;
  section_wait st;;
  for_ptes pd (s_begin x) (s_end x) page_in;;
  reload pd;;
  set_section st (λ x, set_flags (Z.land (flags x) (Z.lnot ST_SWAP)) x);;
  section_post st.

(** the first section of the list that does not begin above [addr], or the last one *)
Fixpoint find_section (addr : Z) (l : list Z) (sec : option Z) : P (option Z) :=
  match l with
  | [] => mret sec
  | st :: l =>
      x ← get_section st;
      if s_begin x <=? addr then mret (Some st) else find_section addr l (Some st)
  end.

Definition pgfault (iss far : Z) : P Z :=
  d ← invm (get_pgdir cur);
  sec ← find_section far (section_head d) None;
  sec ← (match sec with Some sec => mret sec | None => panic end);
  x ← get_section sec;
  pte ← invm (get_pte cur far true);
  e ← invm (read_pte pte);
  (if e =? 0 then
     if negb (Z.land (flags x) ST_SWAP =? 0) then swapin cur sec
     else
       p ← alloc_page_for_user;
       invm (write_pte pte (Z.lor (K2P p) PTE_USER_DATA))
   else if negb (Z.land e PTE_RO =? 0) then
     p ← alloc_page_for_user;
     invm (inmem (kfree_page (P2K (PTE_ADDRESS e))));;
     l ← page_bytes (P2K (PTE_ADDRESS e));
     store_page p l;;
     assert (negb (p =? 0));;
     z ← check_zero_page;
     assert z;;
     invm (write_pte pte (Z.lor (K2P p) PTE_USER_DATA))
   else when ((Z.land e PTE_VALID =? 0) && negb (Z.land (flags x) ST_SWAP =? 0)) (swapin cur sec));;
  reload cur;;
  mret iss.
End paging.
