(* ===== verification/PagingSpec.v ===== *)
(** * User address spaces seen from above: pages and their entries

    [space s cur root T L]: the tables [T] of the page directory [cur] hold the entry [L v] for
    page number [v] of the address space ([None] where there is no table).  The operations of
    [Paging] are described by what they do to [L] and to the contents of pages. *)

From Stdlib Require Import ZArith Lia.
From S2P Require Import Prelude Words Sync Mmu KernelPt Mem MemSpec Pt PtSpec Cache CacheLog Paging.

Record space (s : vm) (cur root : Z) (T : gmap (list Z) Z) (L : Z → option Z) : Prop := {
  sp_tree : tree_inv s root T;
  sp_pd : ∃ d, pgdirs s !! cur = Some d ∧ pt d = root;
  sp_leaf : ∀ va, 0 ≤ va < 2 ^ 48 → leaf s T va = L (va / 4096) }.

(** not one of the tables *)
Definition apart (T : gmap (list Z) Z) (p : Z) : Prop := ∀ pre, T !! pre ≠ Some p.

Definition lset (L : Z → option Z) (v e : Z) : Z → option Z := λ x, if decide (x = v) then Some e else L x.

(** the address of the entry of [va], 0 when there is none *)
Definition pteaddr (T : gmap (list Z) Z) (va : Z) : Z :=
  match T !! path va with Some p => slot p (VA_PART3 va) | None => 0 end.

Section space.
Context (cur root : Z) (T : gmap (list Z) Z).
Implicit Types (s : vm) (L : Z → option Z).

Lemma space_root s L : space s cur root T L → root ≠ 0.
Proof using.
  intros [I _ _]. destruct (tr_page _ _ _ I [] root (tr_root _ _ _ I)) as (_ & [Hr _] & _).
  unfold KSPACE_MASK in *. lia.
Qed.

Lemma get_pte_find s L va : space s cur root T L → get_pte cur va false s = Ok (pteaddr T va, s).
Proof using.
  intros Sp. pose proof (space_root _ _ Sp) as Hr. destruct Sp as [I (d & Ed & Er) _].
  destruct (VA_PART_range va) as (H0 & H1 & H2 & _). unfold get_pte, get_pgdir.
  rewrite (bind_Ok _ _ s d s) by (by apply getopt_run). rewrite Er, (proj2 (Z.eqb_neq root 0)) by done.
  erewrite bind_Ok by apply mret_run. cbv beta iota. unfold pteaddr, path.
  assert (∀ pre p i, T !! pre = Some p → (length pre < 3)%nat → 0 ≤ i < 512 →
    next_table false p i s = Ok (T !! (pre ++ [i]), s)) as Hn.
  { intros pre p i Hp Hl Hi. destruct (T !! (pre ++ [i])) as [t|] eqn:Et.
    - by eapply next_table_found. - by eapply next_table_none. }
  rewrite (bind_Ok _ _ _ _ _ (Hn [] root _ (tr_root _ _ _ I) ltac:(simpl; lia) H0)). cbn [app].
  destruct (T !! [VA_PART0 va]) as [p1|] eqn:E1.
  2:{ destruct (T !! [VA_PART0 va; VA_PART1 va; VA_PART2 va]) as [x|] eqn:Ex; [|by rewrite ?E1, ?E2].
      apply (tr_prefix _ _ _ I [_; _]) in Ex as [y Ey]. apply (tr_prefix _ _ _ I [_]) in Ey as [z Ez]. congruence. }
  rewrite (bind_Ok _ _ _ _ _ (Hn [_] p1 _ E1 ltac:(simpl; lia) H1)). cbn [app].
  destruct (T !! [VA_PART0 va; VA_PART1 va]) as [p2|] eqn:E2.
  2:{ destruct (T !! [VA_PART0 va; VA_PART1 va; VA_PART2 va]) as [x|] eqn:Ex; [|by rewrite ?E1, ?E2].
      apply (tr_prefix _ _ _ I [_; _]) in Ex as [y Ey]. congruence. }
  rewrite (bind_Ok _ _ _ _ _ (Hn [_; _] p2 _ E2 ltac:(simpl; lia) H2)). cbn [app].
  by destruct (T !! [VA_PART0 va; VA_PART1 va; VA_PART2 va]).
Qed.

Lemma read_leaf s L va e :
  space s cur root T L → 0 ≤ va < 2 ^ 48 → L (va / 4096) = Some e →
  pteaddr T va ≠ 0 ∧ read_pte (pteaddr T va) s = Ok (e, s).
Proof using.
  intros [I _ Hl] Hva He. rewrite <-Hl in He by done. unfold leaf in He. unfold pteaddr.
  destruct (T !! path va) as [p|] eqn:Ep; [|done]. cbn [mbind option_bind] in He.
  destruct (tr_page _ _ _ I _ p Ep) as (_ & Hr & _ & f & Hf). destruct (VA_PART_range va) as (_ & _ & _ & H3).
  split; [by apply slot_parts|]. by apply (read_pte_run s p f).
Qed.

Lemma no_leaf s L va : space s cur root T L → 0 ≤ va < 2 ^ 48 → L (va / 4096) = None → pteaddr T va = 0.
Proof using.
  intros [I _ Hl] Hva He. rewrite <-Hl in He by done. unfold leaf in He. unfold pteaddr.
  destruct (T !! path va) as [p|] eqn:Ep; [|done]. cbn [mbind option_bind] in He.
  destruct (tr_page _ _ _ I _ p Ep) as (_ & Hr & _ & f & Hf). destruct (VA_PART_range va) as (_ & _ & _ & H3).
  by rewrite (pte_of_frame _ p f _ Hf H3) in He.
Qed.

Lemma write_leaf s L va e0 e :
  space s cur root T L → 0 ≤ va < 2 ^ 48 → L (va / 4096) = Some e0 → 0 ≤ e < 2 ^ 64 →
  ∃ p f, T !! path va = Some p ∧ write_pte (pteaddr T va) e s = Ok (tt, upd_frames <[p := f]> s) ∧
    space (upd_frames <[p := f]> s) cur root T (lset L (va / 4096) e).
Proof using.
  intros Sp Hva He0 He. pose proof Sp as [I Hpd Hl]. unfold pteaddr.
  destruct (T !! path va) as [p|] eqn:Ep.
  2:{ rewrite <-Hl in He0 by done. unfold leaf in He0. by rewrite Ep in He0. }
  destruct (write_leaf_run root s T va p e I Ep He) as (f & E & I' & Hx). exists p, f.
  split; [done|]. split; [done|]. split; [done|done|]. intros va' Hva'. rewrite Hx. unfold lset.
  destruct (decide (va' / 4096 = va / 4096)) as [Hv|Hv].
  - by rewrite decide_True by (by apply same_parts).
  - rewrite decide_False by (by rewrite same_parts). by apply Hl.
Qed.

(** what a space depends on *)
Lemma space_ext s s' L :
  space s cur root T L →
  (∀ pre p, T !! pre = Some p → frames s' !! p = frames s !! p ∧ p ∉ pages (kmem s')) →
  (∃ d, pgdirs s' !! cur = Some d ∧ pt d = root) → space s' cur root T L.
Proof using.
  intros [[I1 I2 I3 I4 I5] _ Hl] Hf Hd.
  assert (∀ pre p i, T !! pre = Some p → pte_of (frames s') p i = pte_of (frames s) p i) as Hp.
  { intros pre p i E. unfold pte_of. by destruct (Hf pre p E) as [-> _]. }
  split; [split; [done| |done|done|]|done|].
  - intros pre p i E Hlen Hi. rewrite (Hp pre) by done. by apply I2.
  - intros pre p E. destruct (I5 pre p E) as (? & ? & ? & f & Hfr). destruct (Hf pre p E) as [Ef Hnp].
    split; [done|]. split; [done|]. split; [done|]. exists f. unfold is_frame. by rewrite Ef.
  - intros va Hva. rewrite <-Hl by done. unfold leaf. destruct (T !! path va) as [p|] eqn:E; [|done].
    cbn [mbind option_bind]. by apply (Hp (path va)).
Qed.

Lemma space_lext s L L' : space s cur root T L → (∀ v, 0 ≤ v < 2 ^ 36 → L' v = L v) → space s cur root T L'.
Proof using.
  intros [I Hd Hl] E. split; [done|done|]. intros va Hva. rewrite Hl, E; [done| |done].
  change (2 ^ 36) with 68719476736. change (2 ^ 48) with 281474976710656 in Hva. zmod.
Qed.

Lemma space_not_pool s L pre p : space s cur root T L → T !! pre = Some p → p ∉ pages (kmem s).
Proof using. intros [I _ _] E. by destruct (tr_page _ _ _ I pre p E) as (_ & _ & H & _). Qed.
End space.

(** ** Contents of pages *)

(** the entry [e] maps the page [p], private or shared, with some flags *)
Record user_page (s : vm) (T : gmap (list Z) Z) (e p : Z) : Prop := {
  up_entry : ∃ fl, e = Z.lor (K2P p) fl ∧ 0 ≤ fl < 4096 ∧ fl mod 4 = 3;
  up_ram : ram_page p;
  up_used : p ∉ pages (kmem s);
  up_apart : apart T p;
  up_frame : ∃ f, is_frame (frames s) p f }.

Record uspace (s : vm) (cur root : Z) (T : gmap (list Z) Z) (L : Z → option Z) (Ls : list (list Z)) : Prop := {
  us_space : space s cur root T L;
  us_pool : pool_inv (kmem s) Ls;
  us_free : ∀ p, p ∈ pages (kmem s) → ∃ f, is_frame (frames s) p f;
  us_user : ∀ v e, 0 ≤ v < 2 ^ 36 → L v = Some e → e mod 2 = 1 → ∃ p, user_page s T e p }.

(** the contents of page [v] *)
Definition content (s : vm) (L : Z → option Z) (v : Z) : option (list Z) :=
  e ← L v; if e mod 4 =? 3 then frames s !! P2K (PTE_ADDRESS e) else None.

(** what the processor reads at an address *)
Definition user_byte (s : vm) (va : Z) : option Z :=
  '(pa, _) ← translate (phys s) (ttbr0 s) va;
  f ← frames s !! P2K (pa - pa mod 4096); f !! Z.to_nat (pa mod 4096).

Lemma user_entry s T e p : user_page s T e p →
  0 ≤ e < 2 ^ 48 ∧ e mod 4 = 3 ∧ PTE_ADDRESS e = K2P p ∧ P2K (PTE_ADDRESS e) = p.
Proof.
  intros [(fl & -> & Hfl & H3) Hr _ _ _]. destruct (entry_of p fl Hr Hfl H3) as (He & He3 & Ha).
  destruct (ram_K2P p Hr) as (Ek & Ea & Er & Epk). rewrite Ha. split; [|done]. rewrite lor_flags by done.
  destruct Hr. unfold KSPACE_MASK, PHYSTOP in *. lia.
Qed.

Lemma user_content s T L v e p : L v = Some e → user_page s T e p → content s L v = frames s !! p.
Proof.
  intros E U. destruct (user_entry _ _ _ _ U) as (_ & E3 & _ & Ep). unfold content. rewrite E.
  cbn [mbind option_bind]. by rewrite E3, Ep.
Qed.

Lemma user_byte_content s cur root T L Ls va :
  uspace s cur root T L Ls → ttbr0 s = K2P root → 0 ≤ va < 2 ^ 48 →
  user_byte s va = f ← content s L (va / 4096); f !! Z.to_nat (va mod 4096).
Proof.
  intros [Sp _ _ Hu] Et Hva. unfold user_byte. rewrite Et, (translate_xlate s root T (sp_tree _ _ _ _ _ Sp)).
  unfold xlate. rewrite (sp_leaf _ _ _ _ _ Sp) by done. unfold content.
  destruct (L (va / 4096)) as [e|] eqn:E; [|done]. cbn [mbind option_bind].
  destruct (Z.eqb_spec (e mod 4) 3) as [E3|]; [|done]. cbn [fmap option_fmap option_map].
  destruct (Hu (va / 4096) e) as [p U]; [|done|zmod|].
  { change (2 ^ 36) with 68719476736. change (2 ^ 48) with 281474976710656 in Hva. zmod. }
  destruct (user_entry _ _ _ _ U) as (_ & _ & Ea & Ep). destruct (ram_K2P p (up_ram _ _ _ _ U)) as (_ & Em & _).
  rewrite Ea. cbn [mbind option_bind]. replace ((K2P p + va mod 4096) mod 4096) with (va mod 4096) by zmod.
  replace (K2P p + va mod 4096 - va mod 4096) with (K2P p) by lia. by rewrite <-Ea.
Qed.

(** ** Steps of a user space *)

Section steps.
Context (cur root : Z) (Ls : list (list Z)).
Implicit Types (s : vm) (L : Z → option Z) (T : gmap (list Z) Z).

Lemma page_number va : 0 ≤ va < 2 ^ 48 → 0 ≤ va / 4096 < 2 ^ 36.
Proof using.
  change (2 ^ 36) with 68719476736. change (2 ^ 48) with 281474976710656. intros. zmod.
Qed.

Lemma leaf_page s T va : 0 ≤ va < 2 ^ 48 → leaf s T va = leaf s T (va / 4096 * 4096).
Proof using.
  intros Hva. destruct (same_parts (va / 4096 * 4096) va) as [_ H].
  { change (2 ^ 48) with 281474976710656 in *. zmod. }
  { done. }
  destruct H as (E0 & E1 & E2 & E3); [zmod|]. unfold leaf, path. by rewrite E0, E1, E2, E3.
Qed.

(** the frames of user pages are all a user space says about the contents of memory *)
Lemma content_ext s s' L v T e p :
  L v = Some e → user_page s T e p → frames s' !! p = frames s !! p → content s' L v = content s L v.
Proof using.
  intros E U Ef. unfold content. rewrite E. cbn [mbind option_bind].
  destruct (user_entry _ _ _ _ U) as (_ & E3 & _ & ->). by rewrite E3.
Qed.

Lemma content_same s s' T L :
  uspace s cur root T L Ls → (∀ p, apart T p → p ∉ pages (kmem s) → frames s' !! p = frames s !! p) →
  ∀ v, 0 ≤ v < 2 ^ 36 → content s' L v = content s L v.
Proof using.
  intros U Ef v Hv. destruct (L v) as [e|] eqn:E; [|unfold content; by rewrite E].
  destruct (decide (e mod 4 = 3)) as [E3|].
  - destruct (us_user _ _ _ _ _ _ U v e Hv E) as [p Up]; [zmod|].
    eapply content_ext; [done|exact Up|]. apply Ef; apply Up.
  - unfold content. rewrite E. cbn [mbind option_bind]. by rewrite (proj2 (Z.eqb_neq (e mod 4) 3)).
Qed.

Lemma user_page_ext s s' T T' e p :
  user_page s T e p → (∀ q, q ∈ pages (kmem s') → q ∈ pages (kmem s)) → frames s' !! p = frames s !! p →
  (∀ pre q, T' !! pre = Some q → T !! pre = Some q ∨ q ∈ pages (kmem s)) → user_page s' T' e p.
Proof using.
  intros [E R N A (f & F)] Hp Hf HT. split; [done|done| | |].
  - intros H. by apply N, Hp.
  - intros pre H. destruct (HT pre p H) as [?|?]; [by apply (A pre)|done].
  - exists f. unfold is_frame. by rewrite Hf.
Qed.

(** the entry of an address, with tables made as needed *)
Lemma get_pte_space s T L va :
  uspace s cur root T L Ls → 0 ≤ va < 2 ^ 48 → (3 ≤ length (pages (kmem s)))%nat →
  ∃ s' T' L', get_pte cur va true s = Ok (pteaddr T' va, s') ∧ uspace s' cur root T' L' Ls ∧
    extends Ls 3 s T s' T' ∧ L' (va / 4096) = Some (default 0 (L (va / 4096))) ∧
    (∀ v, 0 ≤ v < 2 ^ 36 → L' v = L v ∨ L v = None ∧ L' v = Some 0) ∧
    (∀ v, 0 ≤ v < 2 ^ 36 → content s' L' v = content s L v).
Proof using.
  intros U Hva Hroom. pose proof U as [[I (d & Ed & Er) Hl] Hpool Hfree Huser].
  destruct (get_pte_run Ls root s T cur d va I Hpool Hroom Ed Er) as (s' & T' & p & E & I' & Ep & X).
  set (L' := λ v, leaf s' T' (v * 4096)).
  assert (∀ v, 0 ≤ v < 2 ^ 36 → L' v = L v ∨ L v = None ∧ L' v = Some 0) as HL.
  { intros v Hv. unfold L'. assert (0 ≤ v * 4096 < 2 ^ 48) as Hv'.
    { change (2 ^ 36) with 68719476736 in Hv. change (2 ^ 48) with 281474976710656. lia. }
    pose proof (Hl _ Hv') as Hlv. rewrite Z.div_mul in Hlv by lia. rewrite <-Hlv. apply X. }
  assert (∀ q, apart T q → q ∉ pages (kmem s) → frames s' !! q = frames s !! q) as Hfr.
  { intros q Hq Hnp. apply X. intros pre H. destruct (ex_new _ _ _ _ _ _ X pre q H); [by apply (Hq pre)|done]. }
  destruct (ex_pages _ _ _ _ _ _ X) as (k & _ & Ek).
  assert (∀ q, q ∈ pages (kmem s') → q ∈ pages (kmem s)) as Hsub by (rewrite Ek; intros q; apply drop_sub).
  exists s', T', L'. split; [|split; [|split; [done|split; [|split; [done|]]]]].
  - rewrite E. unfold pteaddr. unfold path at 1. by rewrite Ep.
  - split.
    + split; [done|exists d; by rewrite (ex_pgdirs _ _ _ _ _ _ X)|]. intros va' Hva'. by apply leaf_page.
    + apply X.
    + intros q Hq. destruct (Hfree q (Hsub q Hq)) as (f & Hf). exists f. unfold is_frame.
      rewrite (ex_frames _ _ _ _ _ _ X); [done|]. intros pre H.
      by destruct (tr_page _ _ _ I' pre q H) as (_ & _ & ? & _).
    + intros v e Hv He H1. destruct (HL v Hv) as [EL|[_ EL]]; rewrite EL in He; [|injection He as <-; done].
      destruct (Huser v e Hv He H1) as (q & Uq). exists q.
      apply (user_page_ext s s' T T'); [done|done|apply Hfr; apply Uq|apply X].
  - pose proof (page_number va Hva) as Hv.
    assert (is_Some (L' (va / 4096))) as [e He].
    { unfold L'. rewrite <-leaf_page by done. unfold leaf, path. rewrite Ep. cbn [mbind option_bind].
      destruct (tr_page _ _ _ I' _ p Ep) as (_ & _ & _ & f & Hf). destruct (VA_PART_range va) as (_ & _ & _ & H3).
      rewrite (pte_of_frame _ p f _ Hf H3). by eexists. }
    destruct (HL _ Hv) as [EL|[EL EL']]; [rewrite EL in He |- *; by rewrite He|by rewrite EL, EL'].
  - intros v Hv. destruct (HL v Hv) as [EL|[EL EL']].
    + unfold content. rewrite EL. by apply (content_same s s' T L U Hfr v Hv).
    + unfold content. by rewrite EL, EL'.
Qed.

(** a page from the pool *)
Lemma take_page s T L p l :
  uspace s cur root T L Ls → pages (kmem s) = p :: l →
  inmem kalloc_page s = Ok (p, put_kmem (taken (kmem s) p l) s) ∧
  uspace (put_kmem (taken (kmem s) p l) s) cur root T L Ls ∧
  ram_page p ∧ p ∉ l ∧ apart T p ∧ ∃ f, is_frame (frames s) p f.
Proof using.
  intros [Sp Hpool Hfree Huser] El. destruct (taken_pool _ _ _ _ Hpool El) as (Hpool' & Hpl & _).
  assert (p ∈ pages (kmem s)) as Hp by (rewrite El; left).
  assert (apart T p) as Ha.
  { intros pre H. by apply (space_not_pool _ _ _ _ _ _ _ Sp H). }
  split; [by apply on_run, (kalloc_page_run _ Ls)|]. split.
  - split; [|done| |].
    + eapply space_ext; [exact Sp| |apply Sp]. intros pre q Hq. split; [done|]. simpl.
      intros H. apply (space_not_pool _ _ _ _ _ _ _ Sp Hq). rewrite El. by right.
    + intros q Hq. apply Hfree. simpl in Hq. rewrite El. by right.
    + intros v e Hv He H1. destruct (Huser v e Hv He H1) as (q & Uq). exists q.
      eapply user_page_ext; [exact Uq| |done|by left]. intros x Hx. rewrite El. by right.
  - destruct (po_page _ _ Hpool p Hp) as (? & ? & _). split; [done|]. by auto.
Qed.

(** storing the entry for a page *)
Lemma map_page s T L va e0 e p :
  uspace s cur root T L Ls → 0 ≤ va < 2 ^ 48 → L (va / 4096) = Some e0 → user_page s T e p →
  ∃ t f, T !! path va = Some t ∧ write_pte (pteaddr T va) e s = Ok (tt, upd_frames <[t := f]> s) ∧
    uspace (upd_frames <[t := f]> s) cur root T (lset L (va / 4096) e) Ls.
Proof using.
  intros [Sp Hpool Hfree Huser] Hva He0 Up. destruct (user_entry _ _ _ _ Up) as (He & _ & _ & _).
  destruct (write_leaf _ _ _ _ _ _ _ e Sp Hva He0) as (t & f & Et & Ew & Sp').
  { change (2 ^ 48) with 281474976710656 in He. change (2 ^ 64) with 18446744073709551616. lia. }
  exists t, f. split; [done|]. split; [done|].
  assert (∀ q, apart T q → frames (upd_frames <[t := f]> s) !! q = frames s !! q) as Hfr.
  { intros q Hq. simpl. apply lookup_insert_ne. intros ->. by apply (Hq (path va)). }
  split; [done|done| |].
  - intros q Hq. destruct (Hfree q Hq) as (g & Hg). exists g. unfold is_frame. rewrite Hfr; [done|].
    intros pre H. by apply (space_not_pool _ _ _ _ _ _ _ Sp H).
  - intros v x Hv Hx H1. unfold lset in Hx. case_decide as Hvv.
    + injection Hx as <-. exists p. eapply user_page_ext; [exact Up|done|apply Hfr, Up|by left].
    + destruct (Huser v x Hv Hx H1) as (q & Uq). exists q.
      eapply user_page_ext; [exact Uq|done|apply Hfr, Uq|by left].
Qed.
End steps.

(** ** Giving a page back *)

Record private (s : vm) (Ls : list (list Z)) (p : Z) : Prop := {
  pv_ref : 1 ≤ ref_of (kmem s) p < 2 ^ 62;
  pv_heap : ∀ a, a ∈ concat Ls → a / 4096 ≠ p / 4096 }.

Definition dropped (m : mem) (p : Z) : mem :=
  let r := ref_of m p - 1 in
  let m' := upd_ref <[ref_index p := r]> m in
  if r =? 0 then upd_pages (cons p) (upd_cnt (λ c, c - 1) m') else m'.

Lemma kfree_page_run m Ls p :
  pool_inv m Ls → ram_page p → p ∉ pages m → 1 ≤ ref_of m p < 2 ^ 62 →
  (∀ a, a ∈ concat Ls → a / 4096 ≠ p / 4096) → 0 < alloc_page_cnt m →
  kfree_page p m = Ok (tt, dropped m p) ∧ pool_inv (dropped m p) Ls.
Proof.
  intros Hpool Hr Hp Href Hh Hcnt. pose proof Hr as [Hrp Ha]. split.
  - unfold kfree_page. rewrite (bind_Ok _ _ _ _ _ (get_ref_run m p Hrp)). cbn [snd decrement_rc].
    rewrite i64_id by (change (2 ^ 63) with 9223372036854775808; change (2 ^ 62) with 4611686018427387904 in *; lia).
    unfold dropped. set (r := ref_of m p - 1). erewrite bind_Ok by reflexivity.
    destruct (r =? 0); [|done]. erewrite bind_Ok by apply modify_run. unfold add_page. rewrite modify_run.
    do 3 f_equal. destruct m. unfold upd_cnt, decrement_rc. simpl in *. f_equal. apply i64_id.
    destruct (po_range _ _ Hpool) as [? ?]. pose proof (po_count _ _ Hpool). simpl in *.
    change (2 ^ 63) with 9223372036854775808. change (2 ^ 31) with 2147483648 in *. lia.
  - unfold dropped. pose proof (pool_inv_set_ref m Ls p (ref_of m p - 1) Hpool Hr Hp) as [P1 P2 P3 P4 P5].
    destruct (Z.eqb_spec (ref_of m p - 1) 0) as [E0|]; [|done]. rewrite E0 in *. split; simpl.
    + by apply NoDup_cons.
    + intros q Hq. apply elem_of_cons in Hq as [->|Hq]; [|by apply P2]. split; [done|]. split; [done|].
      unfold ref_of. simpl. by rewrite lookup_insert_eq.
    + intros q a Hq Ha'. apply elem_of_cons in Hq as [->|Hq]; [by apply Hh|by apply P3].
    + simpl in P4. lia.
    + simpl in P5. lia.
Qed.

(** the page is not mapped any more *)
Lemma drop_space cur root Ls s T L p :
  uspace s cur root T L Ls → ram_page p → p ∉ pages (kmem s) → apart T p → private s Ls p →
  (∃ f, is_frame (frames s) p f) → 0 < alloc_page_cnt (kmem s) →
  (∀ v e, 0 ≤ v < 2 ^ 36 → L v = Some e → e mod 2 = 1 → ref_of (kmem s) p = 1 → PTE_ADDRESS e ≠ K2P p) →
  inmem (kfree_page p) s = Ok (tt, put_kmem (dropped (kmem s) p) s) ∧
  uspace (put_kmem (dropped (kmem s) p) s) cur root T L Ls.
Proof.
  intros [Sp Hpool Hfree Huser] Hr Hp Ha [Href Hheap] Hf Hcnt Huniq.
  destruct (kfree_page_run _ Ls p Hpool Hr Hp Href Hheap Hcnt) as [E Hpool'].
  assert (∀ q, q ∈ pages (dropped (kmem s) p) → q ∈ pages (kmem s) ∨ q = p ∧ ref_of (kmem s) p = 1) as Hin.
  { intros q. unfold dropped. destruct (Z.eqb_spec (ref_of (kmem s) p - 1) 0); simpl; [|by left].
    intros [->|Hq]%elem_of_cons; [right; split; [done|lia]|by left]. }
  split; [by apply on_run|]. split; [|done| |].
  - eapply space_ext; [exact Sp| |apply Sp]. intros pre q Hq. split; [done|]. intros H.
    destruct (Hin q H) as [H'|[-> _]]; [by apply (space_not_pool _ _ _ _ _ _ _ Sp Hq)|by apply (Ha pre)].
  - intros q Hq. destruct (Hin q Hq) as [?|[-> _]]; [by apply Hfree|done].
  - intros v e Hv He H1. destruct (Huser v e Hv He H1) as (q & Uq). exists q.
    destruct Uq as [E1 R1 N1 A1 F1]. split; [done|done| |done|done]. intros H.
    destruct (Hin q H) as [?|[-> H']]; [done|]. apply (Huniq v e Hv He H1 H').
    destruct E1 as (fl & -> & Hfl & H3). by destruct (entry_of p fl Hr Hfl H3) as (_ & _ & ->).
Qed.

(** ** The fault handler *)

(** [find_section] without the state *)
Fixpoint section_for (secs : gmap Z section) (addr : Z) (l : list Z) (sec : option Z) : option Z :=
  match l with
  | [] => sec
  | st :: l =>
      x ← secs !! st;
      if s_begin x <=? addr then Some st else section_for secs addr l (Some st)
  end.

Lemma invm_run {A} (m : M vm A) s a v : m (mm s) = Ok (a, v) → invm m s = Ok (a, put_mm v s).
Proof. intros E. by apply on_run. Qed.
Lemma put_mm_id s : put_mm (mm s) s = s.
Proof. by destruct s. Qed.
Lemma invm_read {A} (m : M vm A) s a : m (mm s) = Ok (a, mm s) → invm m s = Ok (a, s).
Proof. intros E. rewrite (invm_run _ _ _ _ E). by rewrite put_mm_id. Qed.

Lemma get_section_run st s x : sections (mm s) !! st = Some x → get_section st s = Ok (x, s).
Proof. intros E. by apply invm_read, getopt_run. Qed.

Lemma find_section_run addr l sec st s :
  section_for (sections (mm s)) addr l sec = Some st → find_section addr l sec s = Ok (Some st, s).
Proof.
  revert sec. induction l as [|a l IH]; intros sec E; simpl in *; [by rewrite E|].
  destruct (sections (mm s) !! a) as [x|] eqn:Ex; [|done]. cbn [mbind option_bind] in E.
  rewrite (bind_Ok _ _ _ _ _ (get_section_run _ _ _ Ex)). destruct (s_begin x <=? addr); [by rewrite E|by apply IH].
Qed.

Lemma left_pages m Ls : pool_inv m Ls → left_page_cnt m = Ok (Z.of_nat (length (pages m)), m).
Proof.
  intros P. unfold left_page_cnt. rewrite gets_run. destruct (po_range _ _ P). pose proof (po_count _ _ P) as E.
  rewrite u64_id; [do 3 f_equal; lia|]. change (2 ^ 64) with 18446744073709551616. change (2 ^ 31) with 2147483648 in *. lia.
Qed.

Lemma left_read s Ls :
  pool_inv (kmem (mm s)) Ls → invm (inmem left_page_cnt) s = Ok (Z.of_nat (length (pages (kmem (mm s)))), s).
Proof.
  intros P. apply invm_read. unfold inmem. rewrite (on_run _ _ _ _ _ _ (left_pages _ Ls P)). by destruct (mm s).
Qed.

(** a page for the user: the first of the pool *)
Lemma alloc_page_run cur root Ls s T L :
  uspace (mm s) cur root T L Ls → 1024 < Z.of_nat (length (pages (kmem (mm s)))) →
  ∃ p l, pages (kmem (mm s)) = p :: l ∧ ram_page p ∧ p ∉ l ∧ apart T p ∧ (∃ f, is_frame (frames (mm s)) p f) ∧
    let v := put_kmem (taken (kmem (mm s)) p l) (mm s) in
    alloc_page_for_user s = Ok (p, put_mm v s) ∧ uspace v cur root T L Ls.
Proof.
  intros U Hn. destruct (pages (kmem (mm s))) as [|p l] eqn:El; [simpl in Hn; lia|].
  destruct (take_page cur root Ls (mm s) T L p l U El) as (E & U' & Hr & Hp & Ha & Hf).
  exists p, l. cbv zeta. split_and!; try done. unfold alloc_page_for_user.
  rewrite (bind_Ok _ _ _ _ _ (left_read s Ls (us_pool _ _ _ _ _ _ U))), El.
  unfold REVERSED_PAGES. rewrite (proj2 (Z.leb_gt _ 1024)) by done. by apply invm_run.
Qed.

Lemma reload_run cur root Ls s T L ip :
  uspace (mm s) cur root T L Ls →
  reload ip cur s = Ok (tt, put_mm (set_ttbr0 (K2P root) (mm s)) s).
Proof.
  intros [Sp _ _ _]. pose proof (space_root _ _ _ _ _ Sp) as Hr. destruct (sp_pd _ _ _ _ _ Sp) as (d & Ed & Er).
  apply invm_run. unfold attach_pgdir, get_pgdir. erewrite bind_Ok by (apply getopt_run; exact Ed).
  by rewrite Er, (proj2 (Z.eqb_neq root 0)).
Qed.

Lemma uspace_ttbr0 cur root Ls s T L v : uspace s cur root T L Ls → uspace (set_ttbr0 v s) cur root T L Ls.
Proof.
  intros [Sp Hp Hf Hu]. split; [|done|done|].
  - eapply space_ext; [exact Sp| |apply Sp]. intros pre p Hpp. split; [done|]. by apply (space_not_pool _ _ _ _ _ _ _ Sp Hpp).
  - intros x e Hx He H1. destruct (Hu x e Hx He H1) as (p & []). by exists p.
Qed.

Definition UD (p : Z) : Z := Z.lor (K2P p) PTE_USER_DATA.

Lemma fresh_user s T p f :
  ram_page p → p ∉ pages (kmem s) → apart T p → is_frame (frames s) p f → user_page s T (UD p) p.
Proof.
  intros. split; [|done|done|done|by exists f]. exists PTE_USER_DATA. split; [done|]. by_decision.
Qed.

Lemma uspace_store cur root Ls s T L p f :
  uspace s cur root T L Ls → apart T p → length f = 4096%nat → bytes f →
  uspace (upd_frames <[p := f]> s) cur root T L Ls.
Proof.
  intros [Sp Hpool Hfree Huser] Ha Hl Hb.
  assert (∀ q, (∃ g, is_frame (frames s) q g) → ∃ g, is_frame (frames (upd_frames <[p := f]> s)) q g) as Hfr.
  { intros q (g & Hg). destruct (decide (q = p)) as [->|Hne].
    - exists f. split; [apply lookup_insert_eq|done].
    - exists g. by apply is_frame_ne. }
  split; [|done| |].
  - eapply space_ext; [exact Sp| |apply Sp]. intros pre q Hq. split; [|by apply (space_not_pool _ _ _ _ _ _ _ Sp Hq)].
    simpl. apply lookup_insert_ne. intros ->. by apply (Ha pre).
  - intros q Hq. by apply Hfr, Hfree.
  - intros v e Hv He H1. destruct (Huser v e Hv He H1) as (q & [? ? ? ? ?]). exists q. split; try done. by apply Hfr.
Qed.

Lemma content_set s L v v' e : v' ≠ v → content s (lset L v e) v' = content s L v'.
Proof. intros Hne. unfold content, lset. by rewrite decide_False. Qed.

Section blocks.
Context (cur root : Z) (Ls : list (list Z)) (T : gmap (list Z) Z).

(** what handling the fault of page [v] comes to *)
Record faulted (s : pg) (L : Z → option Z) (v : Z) (s' : pg) (p : Z) : Prop := {
  fa_space : uspace (mm s') cur root T (lset L v (UD p)) Ls;
  fa_page : ram_page p ∧ p ∈ pages (kmem (mm s)) ∧ apart T p;
  fa_io : io s' = io s ∧ sections (mm s') = sections (mm s) ∧ pgdirs (mm s') = pgdirs (mm s);
  fa_room : (length (pages (kmem (mm s))) ≤ length (pages (kmem (mm s'))) + 1)%nat;
  fa_rest : ∀ v', 0 ≤ v' < 2 ^ 36 → v' ≠ v → content (mm s') (lset L v (UD p)) v' = content (mm s) L v' }.

Lemma lazy_run s L va e0 :
  uspace (mm s) cur root T L Ls → 0 ≤ va < 2 ^ 48 → L (va / 4096) = Some e0 →
  1024 < Z.of_nat (length (pages (kmem (mm s)))) →
  ∃ s' p, (p ← alloc_page_for_user; invm (write_pte (pteaddr T va) (Z.lor (K2P p) PTE_USER_DATA))) s = Ok (tt, s') ∧
    faulted s L (va / 4096) s' p.
Proof using.
  intros U Hva He0 Hn. destruct (alloc_page_run _ _ _ _ _ _ U Hn) as (p & l & El & Hr & Hp & Ha & (f & Hf) & Ea & U1).
  rewrite (bind_Ok _ _ _ _ _ Ea). set (v1 := put_kmem _ _) in *.
  destruct (map_page _ _ _ v1 T L va e0 (UD p) p U1 Hva He0) as (t & g & Et & Ew & U2); [by eapply fresh_user|].
  exists (put_mm (upd_frames <[t := g]> v1) (put_mm v1 s)), p.
  split; [by apply (invm_run _ (put_mm v1 s))|]. split; [done| |done| |].
  - rewrite El. split_and!; [done|left|done].
  - rewrite El. simpl. lia.
  - intros v' Hv' Hne. rewrite content_set by done.
    apply (content_same cur root Ls (mm s) _ T L U); [|done]. intros q Hq Hnp. simpl.
    rewrite lookup_insert_ne; [done|]. intros ->. by apply (Hq (path va)).
Qed.

Definition zero_ok (s : vm) : Prop :=
  let z := zero_page (kmem s) in
  frames s !! z = Some (replicate 4096 0) ∧ apart T z ∧ z ∉ pages (kmem s).

Lemma check_zero_run s :
  frames (mm s) !! zero_page (kmem (mm s)) = Some (replicate 4096 0) → check_zero_page s = Ok (true, s).
Proof using.
  intros Hz. unfold check_zero_page.
  rewrite (bind_Ok _ _ s (zero_page (kmem (mm s))) s) by (destruct s as [[] ?]; done).
  unfold page_bytes. erewrite bind_Ok by by apply invm_read, getopt_run.
  rewrite mret_run. by replace (forallb _ _) with true by (vm_compute; reflexivity).
Qed.

(** storing an entry does not look at the allocator *)
Lemma write_pte_kmem a e v v' F k :
  write_pte a e v = Ok (tt, upd_frames F v) → v' = put_kmem k v →
  write_pte a e v' = Ok (tt, upd_frames F v').
Proof using.
  intros E ->. unfold write_pte, frame_at in *. cbn [mbind M_bind getopt] in *. unfold mbind, M_bind, getopt in *.
  simpl in *. destruct (frames v !! _) as [f|]; [|done]. unfold set_frame, modify, upd_frames, put_kmem in *.
  simpl in *. injection E as E. by rewrite E.
Qed.

(** the copy of a page that is shared, or not any more *)
Lemma cow_run s L va e q :
  uspace (mm s) cur root T L Ls → 0 ≤ va < 2 ^ 48 → L (va / 4096) = Some e →
  1024 < Z.of_nat (length (pages (kmem (mm s)))) → user_page (mm s) T e q → private (mm s) Ls q →
  (ref_of (kmem (mm s)) q = 1 → ∀ v' e', 0 ≤ v' < 2 ^ 36 → v' ≠ va / 4096 → L v' = Some e' → e' mod 2 = 1 →
    PTE_ADDRESS e' ≠ K2P q) → zero_ok (mm s) →
  ∃ s' p,
    (p ← alloc_page_for_user;
     invm (inmem (kfree_page (P2K (PTE_ADDRESS e))));;
     l ← page_bytes (P2K (PTE_ADDRESS e));
     store_page p l;;
     assert (negb (p =? 0));;
     z ← check_zero_page;
     assert z;;
     invm (write_pte (pteaddr T va) (Z.lor (K2P p) PTE_USER_DATA))) s = Ok (tt, s') ∧
    faulted s L (va / 4096) s' p ∧
    content (mm s') (lset L (va / 4096) (UD p)) (va / 4096) = content (mm s) L (va / 4096).
Proof using.
  intros U Hva He Hn Uq Pq Huniq (Hz & Hza & Hzp).
  destruct (alloc_page_run _ _ _ _ _ _ U Hn) as (p & l & El & Hr & Hp & Ha & (f0 & Hf0) & Ea & U1).
  rewrite (bind_Ok _ _ _ _ _ Ea). set (v1 := put_kmem _ _) in *. set (s1 := put_mm v1 s).
  destruct (user_entry _ _ _ _ Uq) as (_ & E3 & Ead & ->).
  assert (p ∈ pages (kmem (mm s))) as Hpin by (rewrite El; left).
  assert (p ≠ q) as Hpq by (intros ->; by apply (up_used _ _ _ _ Uq)).
  assert (p ≠ zero_page (kmem (mm s))) as Hpz by (intros ->; done).
  destruct (up_frame _ _ _ _ Uq) as (c & Hc).
  assert (user_page v1 T e q) as Uq1.
  { eapply user_page_ext; [exact Uq|intros x Hx; rewrite El; by right|done|by left]. }
  assert (ref_of (kmem v1) q = ref_of (kmem (mm s)) q) as Href.
  { unfold ref_of. simpl. rewrite lookup_insert_ne; [done|]. destruct Hr as [Hr _], (up_ram _ _ _ _ Uq) as [Hrq _].
    rewrite (proj1 (ref_index_eq p Hr)), (proj1 (ref_index_eq q Hrq)). intros E. apply Hpq.
    destruct (po_page _ _ (us_pool _ _ _ _ _ _ U) p Hpin) as (_ & ? & _).
    destruct (up_ram _ _ _ _ Uq) as [_ ?]. zmod. }
  assert (private v1 Ls q) as Pq1 by (split; [rewrite Href|]; apply Pq).
  assert (0 < alloc_page_cnt (kmem v1)) as Hcnt.
  { pose proof (us_pool _ _ _ _ _ _ U) as P. destruct (po_range _ _ P) as [? ?]. pose proof (po_count _ _ P).
    simpl. unfold increment_rc. change (2 ^ 31) with 2147483648 in *.
    rewrite i64_id by (change (2 ^ 63) with 9223372036854775808; lia). lia. }
  destruct (kfree_page_run _ Ls q (us_pool _ _ _ _ _ _ U1) (up_ram _ _ _ _ Uq) (up_used _ _ _ _ Uq1)
    (pv_ref _ _ _ Pq1) (pv_heap _ _ _ Pq1) Hcnt) as [Ek _].
  set (k := dropped (kmem v1) q) in *.
  erewrite bind_Ok by (apply (invm_run _ s1), on_run; exact Ek).
  erewrite bind_Ok by (apply invm_read, getopt_run; exact (proj1 Hc)).
  unfold store_page. rewrite (proj2 (Z.eqb_neq p 0)) by (destruct Hr; unfold KSPACE_MASK in *; lia).
  erewrite bind_Ok by by apply invm_run. erewrite bind_Ok by by apply assert_run. cbn [mm put_mm].
  set (v2 := upd_frames <[p := c]> v1). set (s3 := put_mm _ (put_mm _ s1)).
  assert (mm s3 = put_kmem k v2) as Es3 by done.
  assert (zero_page k = zero_page (kmem (mm s))) as Ekz by (unfold k, dropped; by destruct (_ =? 0)).
  erewrite bind_Ok. 2:{ apply check_zero_run. rewrite Es3. simpl. rewrite Ekz. by rewrite lookup_insert_ne. }
  erewrite bind_Ok by by apply assert_run.
  (* the same state, with the old page given back last *)
  destruct Hc as (Hc & Hcl & Hcb). pose proof (uspace_store _ _ _ _ _ _ p c U1 Ha Hcl Hcb) as U2. fold v2 in U2.
  assert (user_page v2 T (UD p) p) as Up.
  { apply (fresh_user v2 T p c); [done|done|done|]. split; [apply lookup_insert_eq|done]. }
  destruct (map_page _ _ _ v2 T L va e (UD p) p U2 Hva He Up) as (t & g & Et & Ew & U3).
  set (v3 := upd_frames <[t := g]> v2) in *.
  exists (put_mm (put_kmem k v3) s3), p.
  destruct (drop_space cur root Ls v3 T _ q U3 (up_ram _ _ _ _ Uq)) as [_ U4].
  { exact (up_used _ _ _ _ Uq1). } { apply Uq. } { by destruct Pq1. } 
  { destruct (decide (q = t)) as [->|Hqt]; [exfalso; by apply (up_apart _ _ _ _ Uq (path va))|].
    exists c. split; [|done]. simpl. by rewrite !lookup_insert_ne. }
  { done. }
  { intros v' e' Hv' He' H1 Hone. unfold lset in He'. case_decide as Hvv.
    - injection He' as <-. destruct (user_entry _ _ _ _ Up) as (_ & _ & -> & _). intros Ekk. apply Hpq.
      destruct (ram_K2P p Hr) as (_ & _ & _ & <-), (ram_K2P q (up_ram _ _ _ _ Uq)) as (_ & _ & _ & <-). by rewrite Ekk.
    - apply (Huniq ltac:(by rewrite <-Href) v'); done. }
  assert (∀ x, apart T x → x ≠ p → frames v3 !! x = frames (mm s) !! x) as Hfr.
  { intros x Hx Hxp. simpl. rewrite !lookup_insert_ne; [done|done|]. intros ->. by apply (Hx (path va)). }
  split; [|split].
  - apply (invm_run _ s3). exact (write_pte_kmem _ _ v2 _ <[t := g]> k Ew eq_refl).
  - split; [exact U4| |done| |].
    + rewrite El. split_and!; [done|left|done].
    + rewrite El. change (pages (kmem (mm (put_mm (put_kmem k v3) s3)))) with (pages k). unfold k, dropped.
      destruct (_ =? 0); simpl; lia.
    + intros v' Hv' Hne. rewrite content_set by done. apply (content_same cur root Ls (mm s) _ T L U); [|done].
      intros x Hx Hxn. apply Hfr; [done|]. by intros ->.
  - rewrite (user_content _ _ _ _ _ _ He Uq), Hc. unfold content, lset. rewrite decide_True by done.
    cbn [mbind option_bind]. destruct (user_entry _ _ _ _ Up) as (_ & -> & _ & ->). simpl.
    rewrite lookup_insert_ne; [apply lookup_insert_eq|]. intros ->. by apply (Ha (path va)).
Qed.
End blocks.

Lemma get_pte_there cur root T s L va e alloc :
  space s cur root T L → 0 ≤ va < 2 ^ 48 → L (va / 4096) = Some e →
  get_pte cur va alloc s = Ok (pteaddr T va, s).
Proof.
  intros Sp Hva He. pose proof (space_root _ _ _ _ _ Sp) as Hr. pose proof Sp as [I (d & Ed & Er) Hl].
  destruct (VA_PART_range va) as (H0 & H1 & H2 & _). rewrite <-Hl in He by done. unfold leaf, path in He.
  destruct (T !! [VA_PART0 va; VA_PART1 va; VA_PART2 va]) as [p3|] eqn:E3; [|done].
  destruct (tr_prefix _ _ _ I [VA_PART0 va; VA_PART1 va] _ _ E3) as [p2 E2].
  destruct (tr_prefix _ _ _ I [VA_PART0 va] _ _ E2) as [p1 E1].
  unfold get_pte, get_pgdir. rewrite (bind_Ok _ _ s d s) by (by apply getopt_run).
  rewrite Er, (proj2 (Z.eqb_neq root 0)) by done. erewrite bind_Ok by apply mret_run. cbv beta iota.
  rewrite (bind_Ok _ _ _ _ _ (next_table_found root alloc s T [] root _ p1 I (tr_root _ _ _ I) ltac:(simpl; lia) H0 E1)).
  cbv beta iota.
  rewrite (bind_Ok _ _ _ _ _ (next_table_found root alloc s T [_] p1 _ p2 I E1 ltac:(simpl; lia) H1 E2)). cbv beta iota.
  rewrite (bind_Ok _ _ _ _ _ (next_table_found root alloc s T [_; _] p2 _ p3 I E2 ltac:(simpl; lia) H2 E3)). cbv beta iota.
  unfold pteaddr, path. by rewrite E3.
Qed.

Record cow_fault (s : vm) (T : gmap (list Z) Z) (L : Z → option Z) (Ls : list (list Z)) (v e q : Z) : Prop := {
  cf_entry : L v = Some e ∧ e ≠ 0 ∧ Z.land e PTE_RO ≠ 0;
  cf_page : user_page s T e q;
  cf_private : private s Ls q;
  cf_alone : ref_of (kmem s) q = 1 → ∀ v' e', 0 ≤ v' < 2 ^ 36 → v' ≠ v → L v' = Some e' → e' mod 2 = 1 →
    PTE_ADDRESS e' ≠ K2P q;
  cf_zero : zero_ok T s }.

Definition lazy_fault (L : Z → option Z) (v : Z) : Prop := default 0 (L v) = 0.

(** what the handler leaves *)
Record fault_done (cur root : Z) (Ls : list (list Z)) (s : pg) (L : Z → option Z) (v : Z) (s' : pg)
    (T' : gmap (list Z) Z) (L' : Z → option Z) (p : Z) : Prop := {
  fd_space : uspace (mm s') cur root T' L' Ls;
  fd_ttbr0 : ttbr0 (mm s') = K2P root;
  fd_page : p ∈ pages (kmem (mm s)) ∧ ram_page p;
  fd_entry : L' v = Some (UD p);
  fd_rest : ∀ v', 0 ≤ v' < 2 ^ 36 → v' ≠ v → content (mm s') L' v' = content (mm s) L v';
  fd_same : io s' = io s ∧ sections (mm s') = sections (mm s) ∧ pgdirs (mm s') = pgdirs (mm s);
  fd_room : (length (pages (kmem (mm s))) ≤ length (pages (kmem (mm s'))) + 4)%nat }.

Lemma fault_done_translate cur root Ls s0 L0 v s T L p va :
  fault_done cur root Ls s0 L0 v s T L p → 0 ≤ va < 2 ^ 48 → va / 4096 = v →
  translate (phys (mm s)) (ttbr0 (mm s)) va = Some (K2P p + va mod 4096, PTE_USER_DATA).
Proof.
  intros [U Et [_ Hr] EL _ _ _] Hva Hv. rewrite Et.
  rewrite (translate_xlate _ root T (sp_tree _ _ _ _ _ (us_space _ _ _ _ _ _ U))).
  unfold xlate. rewrite (sp_leaf _ _ _ _ _ (us_space _ _ _ _ _ _ U)), Hv, EL by done.
  destruct (entry_of p PTE_USER_DATA Hr) as (He & H3 & Ha); [by_decision|done|].
  destruct (ram_K2P p Hr) as (Ek & Em & Er & _). cbn [mbind option_bind]. change (Z.lor _ _) with (UD p) in *.
  rewrite H3. simpl. rewrite Ha. do 2 f_equal. assert (UD p = K2P p + PTE_USER_DATA) as E.
  { apply lor_flags; [done|]. by_decision. }
  assert (0 ≤ PTE_USER_DATA < 4096) as Hu by by_decision.
  rewrite PTE_FLAGS_eq, E; [zmod|]. rewrite E, Ek. destruct Hr. unfold KSPACE_MASK, PHYSTOP in *. lia.
Qed.

Section pgfault.
Context (ip iss far : Z) (s : pg) (T : gmap (list Z) Z) (L : Z → option Z) (Ls : list (list Z)).
Context (cur root : Z) (d : pgdir) (st : Z) (x : section).
Context (U : uspace (mm s) cur root T L Ls) (Hfar : 0 ≤ far < 2 ^ 48).
Context (Ed : pgdirs (mm s) !! cur = Some d).
Context (Est : section_for (sections (mm s)) far (section_head d) None = Some st).
Context (Ex : sections (mm s) !! st = Some x) (Hsw : Z.land (flags x) ST_SWAP = 0).
Context (Hn : 1027 < Z.of_nat (length (pages (kmem (mm s))))).

Lemma pgfault_lazy_run :
  lazy_fault L (far / 4096) →
  ∃ s' T' L' p, pgfault ip cur iss far s = Ok (iss, s') ∧ fault_done cur root Ls s L (far / 4096) s' T' L' p.
Proof using All.
  intros Hlazy. unfold pgfault.
  erewrite bind_Ok by (apply invm_read, getopt_run; exact Ed).
  rewrite (bind_Ok _ _ _ _ _ (find_section_run _ _ _ _ _ Est)). erewrite bind_Ok by apply mret_run.
  rewrite (bind_Ok _ _ _ _ _ (get_section_run _ _ _ Ex)). rewrite Hsw. change (0 =? 0) with true. cbn [negb].
  destruct (get_pte_space cur root Ls (mm s) T L far U Hfar ltac:(lia))
    as (v1 & T1 & L1 & E1 & U1 & X & HL1 & _ & Hc1).
  rewrite Hlazy in HL1. rewrite (bind_Ok _ _ _ _ _ (invm_run _ _ _ _ E1)). set (s1 := put_mm v1 s).
  destruct (read_leaf _ _ _ v1 L1 far 0 (us_space _ _ _ _ _ _ U1) Hfar HL1) as [_ Er].
  erewrite bind_Ok by (apply (invm_read _ s1); exact Er). change (0 =? 0) with true. cbv iota.
  pose proof (extends_room _ _ _ _ _ _ X) as Hroom.
  destruct (lazy_run cur root Ls T1 s1 L1 far 0 U1 Hfar HL1) as (s2 & p & E2 & F); [simpl; lia|].
  rewrite (bind_Ok _ _ _ _ _ E2). erewrite bind_Ok by (eapply reload_run, F). rewrite mret_run.
  destruct F as [U2 (Hr & Hp & _) (F1 & F2 & F3) F4 F5].
  eexists _, T1, _, p. split; [done|]. split.
  - apply uspace_ttbr0. exact U2.
  - done.
  - split; [|done]. simpl in Hp. destruct (ex_pages _ _ _ _ _ _ X) as (k & _ & Ek). rewrite Ek in Hp. by eapply drop_sub.
  - unfold lset. by rewrite decide_True.
  - intros v' Hv' Hne. rewrite <-Hc1 by done. by apply F5.
  - simpl. split; [exact F1|]. rewrite F2, F3. split; [apply X|apply X].
  - simpl in F4 |- *. lia.
Qed.

Lemma pgfault_cow_run e q :
  cow_fault (mm s) T L Ls (far / 4096) e q →
  ∃ s' L' p, pgfault ip cur iss far s = Ok (iss, s') ∧ fault_done cur root Ls s L (far / 4096) s' T L' p ∧
    content (mm s') L' (far / 4096) = content (mm s) L (far / 4096).
Proof using All.
  intros [(He & He0 & Hro) Uq Pq Hone Hz]. unfold pgfault.
  erewrite bind_Ok by (apply invm_read, getopt_run; exact Ed).
  rewrite (bind_Ok _ _ _ _ _ (find_section_run _ _ _ _ _ Est)). erewrite bind_Ok by apply mret_run.
  rewrite (bind_Ok _ _ _ _ _ (get_section_run _ _ _ Ex)). rewrite Hsw. change (0 =? 0) with true. cbn [negb].
  pose proof (us_space _ _ _ _ _ _ U) as Sp.
  erewrite bind_Ok by (apply invm_read; eapply get_pte_there; done).
  destruct (read_leaf _ _ _ _ _ far e Sp Hfar He) as [_ Er]. erewrite bind_Ok by (apply invm_read; exact Er).
  rewrite (proj2 (Z.eqb_neq e 0)), (proj2 (Z.eqb_neq (Z.land e PTE_RO) 0)) by done. cbn [negb].
  destruct (cow_run cur root Ls T s L far e q U Hfar He ltac:(lia) Uq Pq Hone Hz) as (s2 & p & E2 & F & Hsame).
  rewrite (bind_Ok _ _ _ _ _ E2). erewrite bind_Ok by (eapply reload_run, F). rewrite mret_run.
  destruct F as [U2 (Hr & Hp & _) F1 F4 F5].
  eexists _, _, p. split; [done|]. split; [split|exact Hsame].
  - apply uspace_ttbr0. exact U2.
  - done.
  - done.
  - unfold lset. by rewrite decide_True.
  - exact F5.
  - exact F1.
  - simpl. lia.
Qed.
End pgfault.


(** ** Moving the end of the heap *)

(** storing an entry that maps nothing *)
Lemma unmap_page cur root Ls s T L va e0 e :
  uspace s cur root T L Ls → 0 ≤ va < 2 ^ 48 → L (va / 4096) = Some e0 → 0 ≤ e < 2 ^ 64 → e mod 2 = 0 →
  ∃ t f, T !! path va = Some t ∧ write_pte (pteaddr T va) e s = Ok (tt, upd_frames <[t := f]> s) ∧
    uspace (upd_frames <[t := f]> s) cur root T (lset L (va / 4096) e) Ls.
Proof.
  intros [Sp Hpool Hfree Huser] Hva He0 He H0.
  destruct (write_leaf _ _ _ _ _ _ _ e Sp Hva He0 He) as (t & f & Et & Ew & Sp').
  exists t, f. split; [done|]. split; [done|].
  assert (∀ q, apart T q → frames (upd_frames <[t := f]> s) !! q = frames s !! q) as Hfr.
  { intros q Hq. simpl. apply lookup_insert_ne. intros ->. by apply (Hq (path va)). }
  split; [done|done| |].
  - intros q Hq. destruct (Hfree q Hq) as (g & Hg). exists g. unfold is_frame. rewrite Hfr; [done|].
    intros pre H. by apply (space_not_pool _ _ _ _ _ _ _ Sp H).
  - intros v x Hv Hx H1. unfold lset in Hx. case_decide as Hvv; [injection Hx as <-; zmod|].
    destruct (Huser v x Hv Hx H1) as (q & Uq). exists q.
    eapply user_page_ext; [exact Uq|done|apply Hfr, Uq|by left].
Qed.

Lemma CLEAN_user s T e p : user_page s T e p → CLEAN e = K2P p.
Proof.
  intros [(fl & -> & Hfl & _) Hr _ _ _]. destruct (ram_K2P p Hr) as (_ & Em & _).
  unfold CLEAN. rewrite lor_flags by done. zmod.
Qed.

(** a page of the heap that may be given back: never touched, or mapped by nobody else *)
Record own_page (s : vm) (T : gmap (list Z) Z) (L : Z → option Z) (Ls : list (list Z)) (v e q : Z) : Prop := {
  op_page : user_page s T e q;
  op_ref : ref_of (kmem s) q = 1;
  op_heap : ∀ a, a ∈ concat Ls → a / 4096 ≠ q / 4096;
  op_alone : ∀ v' e', 0 ≤ v' < 2 ^ 36 → v' ≠ v → L v' = Some e' → e' mod 2 = 1 → PTE_ADDRESS e' ≠ K2P q }.

Definition droppable (s : vm) (T : gmap (list Z) Z) (L : Z → option Z) (Ls : list (list Z)) (v : Z) : Prop :=
  lazy_fault L v ∨ ∃ e q, L v = Some e ∧ own_page s T L Ls v e q.

(** [v] without its page *)
Definition ldrop (L : Z → option Z) (v : Z) : Z → option Z := λ x, if decide (x = v) then (λ _, 0) <$> L v else L x.

(** the pages that are back in the pool *)
Definition freed (L : Z → option Z) (v : Z) : list Z :=
  match L v with Some e => if e =? 0 then [] else [P2K (CLEAN e)] | None => [] end.

Lemma drop_page_run cur root Ls s T L va :
  uspace (mm s) cur root T L Ls → 0 ≤ va < 2 ^ 48 → droppable (mm s) T L Ls (va / 4096) →
  0 < alloc_page_cnt (kmem (mm s)) →
  ∃ s', drop_page cur va s = Ok (tt, s') ∧ uspace (mm s') cur root T (ldrop L (va / 4096)) Ls ∧
    sections (mm s') = sections (mm s) ∧ io s' = io s ∧ ttbr0 (mm s') = ttbr0 (mm s) ∧ pgdirs (mm s') = pgdirs (mm s) ∧
    alloc_page_cnt (kmem (mm s)) - 1 ≤ alloc_page_cnt (kmem (mm s')) ∧
    pages (kmem (mm s')) = freed L (va / 4096) ++ pages (kmem (mm s)) ∧
    (∀ x, apart T x → frames (mm s') !! x = frames (mm s) !! x) ∧
    ∀ q, ram_page q → q ∉ freed L (va / 4096) → ref_of (kmem (mm s')) q = ref_of (kmem (mm s)) q.
Proof.
  intros U Hva Hd Hcnt. pose proof (us_space _ _ _ _ _ _ U) as Sp. unfold drop_page, freed.
  erewrite bind_Ok by (apply invm_read; by eapply get_pte_find).
  assert (∀ e, L (va / 4096) = e → default 0 e = 0 → uspace (mm s) cur root T (ldrop L (va / 4096)) Ls) as Hsame.
  { intros e He H0. assert (∀ v, ldrop L (va / 4096) v = L v) as E.
    { intros v. unfold ldrop. case_decide as Hv; [|done]. subst v. rewrite He in *. destruct e as [e|]; [|done].
      simpl in *. by subst. }
    destruct U as [_ U2 U3 U4]. split; [by eapply space_lext|done|done|]. intros v x. rewrite E. apply U4. }
  destruct (L (va / 4096)) as [e|] eqn:He.
  2:{ rewrite (no_leaf _ _ _ _ _ _ Sp Hva He). cbn [Z.eqb negb when].
      exists s. split; [done|]. split; [exact (Hsame _ eq_refl eq_refl)|]. split_and!; try done. lia. }
  destruct (read_leaf _ _ _ _ _ _ _ Sp Hva He) as [Ha Er].
  rewrite (proj2 (Z.eqb_neq _ 0)) by done. cbn [negb when].
  erewrite bind_Ok by (apply invm_read; exact Er). destruct (Z.eqb_spec e 0) as [->|He0].
  { cbn [negb when]. exists s. split; [done|]. split; [exact (Hsame _ eq_refl eq_refl)|]. split_and!; try done. lia. }
  cbn [negb when]. destruct Hd as [Hd|(e' & q & He' & [Uq H1 Hh Hone])].
  { unfold lazy_fault in Hd. by rewrite He in Hd. }
  rewrite He in He'. injection He' as <-.
  rewrite (CLEAN_user _ _ _ _ Uq). destruct (ram_K2P q (up_ram _ _ _ _ Uq)) as (_ & _ & _ & ->).
  assert (private (mm s) Ls q) as Pq by (split; [rewrite H1; change (2 ^ 62) with 4611686018427387904; lia|done]).
  destruct (kfree_page_run _ Ls q (us_pool _ _ _ _ _ _ U) (up_ram _ _ _ _ Uq) (up_used _ _ _ _ Uq)
    (pv_ref _ _ _ Pq) Hh Hcnt) as [Ek _].
  set (k := dropped (kmem (mm s)) q) in *. set (s1 := put_mm (put_kmem k (mm s)) s).
  rewrite (bind_Ok _ _ s tt s1) by (by apply invm_run, on_run).
  destruct (unmap_page cur root Ls (mm s) T L va e 0 U Hva He ltac:(lia) eq_refl) as (t & g & Et & Ew & U2).
  set (v2 := upd_frames <[t := g]> (mm s)) in *.
  assert (q ≠ t) as Hqt by (intros ->; by apply (up_apart _ _ _ _ Uq (path va))).
  destruct (drop_space cur root Ls v2 T _ q U2 (up_ram _ _ _ _ Uq) (up_used _ _ _ _ Uq) (up_apart _ _ _ _ Uq)) as [_ U3].
  { by destruct Pq. }
  { destruct (up_frame _ _ _ _ Uq) as (c & Hc). exists c. by apply is_frame_ne. }
  { done. }
  { intros v' e' Hv' He' Hm1 _. unfold lset in He'. case_decide as Hvv; [injection He' as <-; done|]. by apply (Hone v'). }
  exists (put_mm (put_kmem k v2) s1). split.
  { apply (invm_run _ s1). exact (write_pte_kmem _ _ (mm s) _ <[t := g]> k Ew eq_refl). }
  assert (pages k = q :: pages (kmem (mm s)) ∧ alloc_page_cnt k = alloc_page_cnt (kmem (mm s)) - 1 ∧
    refpage k = <[ref_index q := 0]> (refpage (kmem (mm s)))) as (Epk & Eck & Erk).
  { unfold k, dropped. rewrite H1. done. }
  split.
  { destruct U3 as [U31 U32 U33 U34]. split; [|done|done|].
    - eapply space_lext; [exact U31|]. intros v _. unfold ldrop, lset. rewrite He. by case_decide.
    - intros v x. unfold ldrop. rewrite He. intros Hv Hx. apply (U34 v); [done|]. unfold lset.
      by case_decide. }
  split_and!; try done.
  - simpl. lia.
  - intros x Hx. simpl. apply lookup_insert_ne. intros ->. by apply (Hx (path va)).
  - intros x Hx Hnx. unfold ref_of. simpl. rewrite Erk. rewrite lookup_insert_ne; [done|]. intros Ei.
    apply Hnx. destruct Hx as [Hx Hxa], (up_ram _ _ _ _ Uq) as [Hq Hqa].
    rewrite (proj1 (ref_index_eq q Hq)), (proj1 (ref_index_eq x Hx)) in Ei.
    assert (x = q) as -> by zmod. left.
Qed.

(** the entries of the pages from [a] up to [b] cleared *)
Definition lcut (L : Z → option Z) (a b : Z) : Z → option Z :=
  λ v, if decide (a ≤ v < b) then (λ _, 0) <$> L v else L v.

Lemma freed_own s T L Ls v x :
  droppable s T L Ls v → x ∈ freed L v → ∃ e, L v = Some e ∧ own_page s T L Ls v e x.
Proof.
  unfold freed, droppable, lazy_fault. intros Hd. destruct (L v) as [e|]; [|by intros ?%not_elem_of_nil].
  destruct (Z.eqb_spec e 0) as [->|He0]; [by intros ?%not_elem_of_nil|]. intros ->%list_elem_of_singleton.
  destruct Hd as [?|(e' & q & [= <-] & Hown)]; [done|]. exists e. split; [done|].
  rewrite (CLEAN_user _ _ _ _ (op_page _ _ _ _ _ _ _ Hown)).
  by destruct (ram_K2P q (up_ram _ _ _ _ (op_page _ _ _ _ _ _ _ Hown))) as (_ & _ & _ & ->).
Qed.

(** after the pages from [a] up to [b] are gone *)
Record shrunk (s : pg) (cur root : Z) (T : gmap (list Z) Z) (L : Z → option Z) (Ls : list (list Z)) (a b : Z) (s' : pg) : Prop := {
  sk_space : uspace (mm s') cur root T (lcut L a b) Ls;
  sk_same : sections (mm s') = sections (mm s) ∧ io s' = io s ∧ ttbr0 (mm s') = ttbr0 (mm s) ∧ pgdirs (mm s') = pgdirs (mm s);
  sk_count : alloc_page_cnt (kmem (mm s)) - (b - a) ≤ alloc_page_cnt (kmem (mm s'));
  sk_pages : ∀ q, q ∈ pages (kmem (mm s')) ↔ q ∈ pages (kmem (mm s)) ∨ ∃ v, a ≤ v < b ∧ q ∈ freed L v;
  sk_frames : ∀ x, apart T x → frames (mm s') !! x = frames (mm s) !! x;
  sk_ref : ∀ q, ram_page q → (∀ v, a ≤ v < b → q ∉ freed L v) → ref_of (kmem (mm s')) q = ref_of (kmem (mm s)) q }.

(** what is still to be given back *)
Lemma shrunk_droppable s cur root T L Ls a b s' v :
  shrunk s cur root T L Ls a b s' → 0 ≤ a ≤ b → b ≤ v < 2 ^ 36 →
  (∀ v', a ≤ v' ≤ v → droppable (mm s) T L Ls v') → droppable (mm s') T (lcut L a b) Ls v.
Proof.
  intros [U _ _ Hp Hf Hr] Ha Hv Hd. unfold droppable, lazy_fault. unfold lcut at 1 2. rewrite decide_False by lia.
  destruct (Hd v ltac:(lia)) as [?|(e & q & He & Hown)]; [by left|right]. exists e, q. split; [done|].
  destruct Hown as [Uq H1 Hh Hone].
  assert (∀ v', a ≤ v' < b → q ∉ freed L v') as Hnf.
  { intros v' Hv' Hin. destruct (freed_own _ _ _ _ _ _ (Hd v' ltac:(lia)) Hin) as (e' & He' & [Uq' _ _ _]).
    destruct (user_entry _ _ _ _ Uq') as (_ & H3 & Ea & _). apply (Hone v' e'); [lia|lia|done|zmod|done]. }
  split.
  - destruct Uq as [E R N A (f & F)]. split; [done|done| |done|exists f; unfold is_frame; by rewrite Hf].
    rewrite Hp. intros [?|(v' & Hv' & Hin)]; [done|by apply (Hnf v')].
  - rewrite Hr; [done|apply Uq|done].
  - done.
  - intros v' e' Hv' Hne He' H2. unfold lcut in He'. case_decide; [|by apply (Hone v')].
    destruct (L v'); [|done]. injection He' as <-. done.
Qed.

Lemma uspace_lext s cur root T L L' Ls :
  uspace s cur root T L Ls → (∀ v, L' v = L v) → uspace s cur root T L' Ls.
Proof.
  intros [U1 U2 U3 U4] E. split; [|done|done|].
  - eapply space_lext; [exact U1|]. intros; apply E.
  - intros v e. rewrite E. apply U4.
Qed.

Lemma shrunk_none s cur root T L Ls a : uspace (mm s) cur root T L Ls → shrunk s cur root T L Ls a a s.
Proof.
  intros U. split; try done.
  - eapply uspace_lext; [exact U|]. intros v. unfold lcut. by rewrite decide_False by lia.
  - lia.
  - intros q. split; [by left|intros [?|(v & ? & _)]; [done|lia]].
Qed.

(** one page more *)
Lemma shrunk_step s cur root T L Ls a b s' va :
  shrunk s cur root T L Ls a b s' → 0 ≤ a ≤ b → 0 ≤ va < 2 ^ 48 → va / 4096 = b →
  (∀ v', a ≤ v' ≤ b → droppable (mm s) T L Ls v') → b - a < alloc_page_cnt (kmem (mm s)) →
  ∃ s2, drop_page cur va s' = Ok (tt, s2) ∧ shrunk s cur root T L Ls a (b + 1) s2.
Proof.
  intros H Ha Hva Hb Hd Hc. pose proof (page_number va Hva) as Hv. rewrite Hb in Hv.
  pose proof H as [U (E1 & E2 & E3 & E4) Hcnt Hp Hf Hr].
  assert (lcut L a b b = L b) as HLb by (unfold lcut; by rewrite decide_False by lia).
  assert (freed (lcut L a b) b = freed L b) as Hfb by (unfold freed; by rewrite HLb).
  destruct (drop_page_run cur root Ls s' T (lcut L a b) va U Hva)
    as (s2 & E & U2 & F1 & F2 & F3 & F4 & F5 & F6 & F7 & F8); [|lia|].
  { rewrite Hb. eapply shrunk_droppable; [exact H|done|lia|done]. }
  rewrite Hb, Hfb in *. exists s2. split; [done|]. split.
  - eapply uspace_lext; [exact U2|]. intros v. unfold ldrop. case_decide as Hvb.
    + subst v. rewrite HLb. unfold lcut. by rewrite decide_True by lia.
    + unfold lcut. repeat case_decide; try done; lia.
  - split_and!; congruence.
  - lia.
  - intros q. rewrite F6, elem_of_app, Hp. split.
    + intros [Hq|[Hq|(v & Hvr & Hq)]]; [right; exists b; split; [lia|done]|by left|right; exists v; split; [lia|done]].
    + intros [Hq|(v & Hvr & Hq)]; [by right; left|]. destruct (decide (v = b)) as [->|]; [by left|].
      right; right. exists v. split; [lia|done].
  - intros x Hx. rewrite F7, Hf; done.
  - intros q Hq Hn. rewrite F8, Hr; [done|done| |done|]; intros; apply Hn; lia.
Qed.

Lemma set_section_run st f s x :
  sections (mm s) !! st = Some x →
  set_section st f s = Ok (tt, put_mm (upd_sections <[st := f x]> (mm s)) s).
Proof.
  intros E. unfold set_section. rewrite (bind_Ok _ _ _ _ _ (get_section_run _ _ _ E)). by apply invm_run.
Qed.

Lemma uspace_sections cur root Ls s T L f : uspace s cur root T L Ls → uspace (upd_sections f s) cur root T L Ls.
Proof.
  intros [Sp Hp Hf Hu]. split; [|done|done|].
  - eapply space_ext; [exact Sp| |apply Sp]. intros pre p Hpp. split; [done|]. by apply (space_not_pool _ _ _ _ _ _ _ Sp Hpp).
  - intros x e Hx He H1. destruct (Hu x e Hx He H1) as (p & []). by exists p.
Qed.

(** the loop of [sbrk] *)
Lemma sbrk_loop cur root T L Ls st x s n :
  uspace (mm s) cur root T L Ls → sections (mm s) !! st = Some x →
  s_end x mod 4096 = 0 → 0 ≤ s_end x → s_end x + Z.of_nat n * 4096 ≤ 2 ^ 48 →
  (∀ v, s_end x / 4096 ≤ v < s_end x / 4096 + Z.of_nat n → droppable (mm s) T L Ls v) →
  Z.of_nat n ≤ alloc_page_cnt (kmem (mm s)) →
  ∃ s', for_each (zseq 0 n) (λ i,
       x ← get_section st;
       drop_page cur (u64 (s_end x + i * PAGE_SIZE))) s = Ok (tt, s') ∧
    shrunk s cur root T L Ls (s_end x / 4096) (s_end x / 4096 + Z.of_nat n) s'.
Proof.
  intros U Ex Hal H0 Hmax Hd Hc. set (a := s_end x / 4096) in *. change (2 ^ 48) with 281474976710656 in Hmax.
  match goal with |- ∃ s', for_each _ ?body _ = _ ∧ _ =>
    destruct (for_each_invariant (λ done s', shrunk s cur root T L Ls a (a + Z.of_nat (length done)) s') body (zseq 0 n))
      with (s := s) as (s' & E & H) end.
  - intros pre k todo s1 El H. apply zseq_split in El as (_ & -> & Hlt).
    destruct (sk_same _ _ _ _ _ _ _ _ _ H) as (E1 & _). rewrite Z.add_0_l.
    erewrite bind_Ok by (apply get_section_run; rewrite E1; exact Ex). change PAGE_SIZE with 4096.
    rewrite length_app. simpl. set (k := Z.of_nat (length pre)) in *.
    rewrite u64_id by (change (2 ^ 64) with 18446744073709551616; lia).
    destruct (shrunk_step s cur root T L Ls a (a + k) s1 (s_end x + k * 4096) H) as (s2 & E2 & H2).
    + unfold a. zmod.
    + change (2 ^ 48) with 281474976710656. lia.
    + unfold a. zmod.
    + intros v Hv. apply Hd. lia.
    + lia.
    + exists s2. split; [done|]. replace (a + Z.of_nat (length pre + 1)) with (a + k + 1) by lia. done.
  - rewrite Z.add_0_r. by apply shrunk_none.
  - exists s'. split; [done|]. by rewrite length_zseq in H.
Qed.

(** C30: [sbrk] moves the end of the heap by whole pages and returns where it was.  Growing
    touches nothing else.  Shrinking gives exactly the pages mapped in the part given up back
    to the pool, and they are not mapped any more; pages never touched cost nothing, and every
    other user address reads as before. *)
Theorem sbrk_correct ip size s T L Ls cur root d st secs x :
  uspace (mm s) cur root T L Ls → ttbr0 (mm s) = K2P root →
  pgdirs (mm s) !! cur = Some d → section_head d = st :: secs → sections (mm s) !! st = Some x →
  s_end x mod 4096 = 0 → 0 ≤ s_end x ≤ 2 ^ 48 → let e := s_end x + size * 4096 in 0 ≤ e ≤ 2 ^ 48 →
  (∀ v, e / 4096 ≤ v < s_end x / 4096 → droppable (mm s) T L Ls v) → - size ≤ alloc_page_cnt (kmem (mm s)) →
  ∃ s', sbrk ip cur size s = Ok (s_end x, s') ∧
    uspace (mm s') cur root T (lcut L (e / 4096) (s_end x / 4096)) Ls ∧
    sections (mm s') = <[st := set_end e x]> (sections (mm s)) ∧
    (∀ q, q ∈ pages (kmem (mm s')) ↔
      q ∈ pages (kmem (mm s)) ∨ ∃ v, e / 4096 ≤ v < s_end x / 4096 ∧ q ∈ freed L v) ∧
    ∀ va, 0 ≤ va < 2 ^ 48 →
      if decide (e / 4096 ≤ va / 4096 < s_end x / 4096) then translate (phys (mm s')) (ttbr0 (mm s')) va = None
      else user_byte (mm s') va = user_byte (mm s) va.
Proof.
  intros U Et Ed Esec Ex Hal Hend e He Hd Hc. change (2 ^ 48) with 281474976710656 in *. unfold sbrk.
  erewrite bind_Ok by (apply invm_read, getopt_run; exact Ed). rewrite Esec.
  erewrite bind_Ok by by apply getopt_run. rewrite (bind_Ok _ _ _ _ _ (get_section_run _ _ _ Ex)). cbv zeta.
  change (s_end x + size * PAGE_SIZE) with e. rewrite u64_id by (change (2 ^ 64) with 18446744073709551616; lia).
  rewrite (bind_Ok _ _ _ _ _ (set_section_run _ _ _ _ Ex)).
  set (s1 := put_mm _ s). assert (uspace (mm s1) cur root T L Ls) as U1 by by apply uspace_sections.
  assert (∃ s2, when (size <? 0) (for_each (zseq 0 (Z.to_nat (- size))) (λ i,
       x ← get_section st; drop_page cur (u64 (s_end x + i * PAGE_SIZE)))) s1 = Ok (tt, s2) ∧
    shrunk s1 cur root T L Ls (e / 4096) (Z.max (e / 4096) (s_end x / 4096)) s2) as (s2 & E2 & H2).
  { destruct (Z.ltb_spec size 0) as [Hs|Hs]; cbn [when].
    - destruct (sbrk_loop cur root T L Ls st (set_end e x) s1 (Z.to_nat (- size)) U1) as (s2 & E2 & H2).
      + apply lookup_insert_eq.
      + simpl. unfold e. zmod.
      + simpl. lia.
      + simpl. change (2 ^ 48) with 281474976710656. lia.
      + simpl. intros v Hv. destruct (Hd v) as [?|(e1 & q & He1 & [Uq H1 Hh Hone])]; [unfold e in *; zmod|by left|].
        right. exists e1, q. split; [done|]. split; try done. by destruct Uq.
      + simpl. lia.
      + exists s2. split; [done|]. simpl in H2.
        replace (Z.max _ _) with (e / 4096 + Z.of_nat (Z.to_nat (- size))) by (unfold e; zmod). done.
    - exists s1. split; [done|]. rewrite Z.max_l by (unfold e; zmod). by apply shrunk_none. }
  rewrite (bind_Ok _ _ _ _ _ E2). destruct H2 as [U2 (F1 & F2 & F3 & F4) _ Hp Hf _].
  erewrite bind_Ok by (eapply reload_run; exact U2). rewrite mret_run.
  assert (∀ v, lcut L (e / 4096) (s_end x / 4096) v = lcut L (e / 4096) (Z.max (e / 4096) (s_end x / 4096)) v) as EL.
  { intros v. unfold lcut. repeat case_decide; try done; lia. }
  assert (uspace (set_ttbr0 (K2P root) (mm s2)) cur root T (lcut L (e / 4096) (s_end x / 4096)) Ls) as U3.
  { eapply uspace_lext; [by apply uspace_ttbr0, U2|done]. }
  eexists. split; [done|]. split; [exact U3|]. split; [exact F1|]. split.
  { intros q. etransitivity; [apply Hp|]. split; (intros [?|(v & Hv & Hq)]; [by left|right; exists v; split; [lia|done]]). }
  intros va Hva. case_decide as Hr.
  - simpl. rewrite (translate_xlate _ root T (sp_tree _ _ _ _ _ (us_space _ _ _ _ _ _ U3))).
    unfold xlate. rewrite (sp_leaf _ _ _ _ _ (us_space _ _ _ _ _ _ U3)) by done. unfold lcut.
    rewrite decide_True by done. by destruct (L (va / 4096)).
  - cbn [mm put_mm]. rewrite (user_byte_content _ _ _ _ _ _ va U Et) by done.
    rewrite (user_byte_content _ _ _ _ _ _ va U3 eq_refl) by done. f_equal.
    pose proof (page_number va Hva) as Hv. rewrite <-(content_same cur root Ls (mm s) (mm s2) T L U); [| |done].
    + unfold content, lcut. by rewrite decide_False.
    + intros p Hp' _. by apply Hf.
Qed.

(** ** A process with an empty heap of two pages and 1100 pages of memory to spare *)

Definition spare : list Z := map page_ (zseq 1 1100).
Definition zero4096 : list Z := replicate 4096 0.
Definition demo_frames : gmap Z (list Z) :=
  list_to_map (map (λ i, (page_ i, zero4096)) (0 :: 2000 :: zseq 1 1100)).
Definition demo_section : section := mkSection ST_HEAP (init_sem 1) 0 8192.
Definition demo_pgdir : pgdir := mkPgdir (page_ 0) false [16] false.
Definition demo_vm : vm :=
  mkVm (mkMem 2 false ∅ (page_ 2000) 1102 spare [0; 0; 0; 0] ∅) demo_frames {[8 := demo_pgdir]}
    {[16 := demo_section]} (K2P (page_ 0)).
Definition demo (c : cachest) : pg := mkPg demo_vm c.
Definition demo_tables : gmap (list Z) Z := {[[] := page_ 0]}.

Lemma page_inj i j : page_ i = page_ j → i = j.
Proof. unfold page_. lia. Qed.

Lemma demo_frame i : i = 0 ∨ i = 2000 ∨ 1 ≤ i < 1101 → is_frame demo_frames (page_ i) zero4096.
Proof.
  intros Hi. split; [|split; [done|apply bytes_replicate; by unfold is_byte]].
  apply elem_of_list_to_map.
  - rewrite <-list_fmap_compose. change (NoDup (map page_ (0 :: 2000 :: zseq 1 1100))).
    apply (NoDup_fmap_2_strong page_); [intros ? ? _ _; apply page_inj|]. by_decision.
  - apply list_elem_of_fmap. exists i. split; [done|]. rewrite !elem_of_cons, elem_of_zseq. lia.
Qed.

#[local] Opaque demo_frames zero4096.

Lemma demo_uspace : uspace demo_vm 8 (page_ 0) demo_tables (λ _, None) [].
Proof.
  destruct (demo_frame 0 ltac:(lia)) as (F1 & F2 & F3).
  assert (∀ p, p ∈ spare → ∃ i, 1 ≤ i < 1101 ∧ p = page_ i) as Hsp.
  { intros p Hp. apply list_elem_of_fmap in Hp as (i & -> & Hi). apply elem_of_zseq in Hi. exists i. split; [lia|done]. }
  assert (page_ 0 ∉ spare) as H0.
  { intros Hp. destruct (Hsp _ Hp) as (i & Hi & E). apply page_inj in E. lia. }
  split; [split| | |done].
  - unfold demo_tables. constructor.
    + apply lookup_singleton_eq.
    + intros pre p i [<- <-]%lookup_singleton_Some _ Hi. exists 0. split; [|left; split; [done|by apply lookup_singleton_ne]].
      change (frames demo_vm) with demo_frames.
      rewrite (pte_of_frame demo_frames (page_ 0) zero4096 i (conj F1 (conj F2 F3)) Hi). unfold sub. change zero4096 with (replicate 4096 0).
      rewrite drop_replicate, take_replicate. f_equal.
      replace (8 `min` (4096 - 8 * Z.to_nat i))%nat with 8%nat by lia. reflexivity.
    + intros pre i p [E _]%lookup_singleton_Some. by destruct pre.
    + intros pre pre' p [<- _]%lookup_singleton_Some [<- _]%lookup_singleton_Some. done.
    + intros pre p [<- <-]%lookup_singleton_Some. split; [simpl; lia|]. split; [by_decision|]. split; [done|].
      exists zero4096. exact (conj F1 (conj F2 F3)).
  - exists demo_pgdir. split; [apply lookup_singleton_eq|done].
  - intros va _. unfold leaf, demo_tables. by rewrite lookup_singleton_ne.
  - constructor.
    + apply (NoDup_fmap_2_strong page_); [intros ? ? _ _; apply page_inj|]. by_decision.
    + intros p Hp. destruct (Hsp p Hp) as (i & Hi & ->). unfold page_, KSPACE_MASK, PHYSTOP.
      split; [lia|]. split; [zmod|]. reflexivity.
    + intros p a _ Ha. exfalso. exact (not_elem_of_nil _ Ha).
    + vm_compute. reflexivity.
    + change (0 ≤ 2 ∧ 1102 < 2 ^ 31). lia.
  - intros p Hp. destruct (Hsp p Hp) as (i & Hi & ->). exists zero4096. apply demo_frame. lia.
Qed.


(** the heap shrinks by a page that was never touched *)
Lemma sbrk_correct_witness :
  ∃ s', sbrk 0 8 (-1) (demo (boot ∅)) = Ok (8192, s') ∧
    translate (phys (mm s')) (ttbr0 (mm s')) 5000 = None.
Proof.
  destruct (sbrk_correct 0 (-1) (demo (boot ∅)) demo_tables (λ _, None) [] 8 (page_ 0) demo_pgdir 16 [] demo_section)
    as (s' & E & _ & _ & _ & Ht);
    [exact demo_uspace|reflexivity|reflexivity|reflexivity|reflexivity|reflexivity|by_decision|by_decision|
     intros v _; left; reflexivity|by_decision|].
  exists s'. split; [exact E|]. exact (Ht 5000 ltac:(lia)).
Defined.
