(* ===== verification/Swap.v ===== *)
(** * Swapping a section out and in again

    The slots of the swap area that hold pages, the three loops over the entries of a section,
    and the round trip: after [swapout] and [swapin] every user address reads as before. *)

From Stdlib Require Import ZArith Lia.
From S2P Require Import Prelude Words Sync Mmu KernelPt Mem MemSpec Pt PtSpec Cache CacheSpec CacheLog CacheAlloc.
From S2P Require Import Paging PagingSpec.

(** ** Slots of the swap area *)

Definition covers (b j : Z) : Prop := b - SWAP_START ≤ j < b - SWAP_START + 8.
#[global] Instance covers_dec b j : Decision (covers b j).
Proof. unfold covers. apply _. Defined.

(** the pages [bs] are in the swap area, in slots that were free in the map [l0] *)
Record slots (c : cachest) (l0 : list bool) (bs : list (Z * list Z)) : Prop := {
  sl_page : Forall (λ '(b, page), SWAP_START ≤ b < SWAP_START + 192 ∧ length page = 4096%nat ∧
    ∀ i, 0 ≤ i < 8 → dread (disk c) (b + i) = sub (Z.to_nat (i * 512)) 512 page) bs;
  sl_apart : ∀ j k x y, j ≠ k → bs !! j = Some x → bs !! k = Some y → x.1 + 8 ≤ y.1 ∨ y.1 + 8 ≤ x.1;
  sl_len : length l0 = 200%nat ∧ length (inuse c) = 200%nat;
  sl_inuse : ∀ j, (∀ x, x ∈ bs → ¬ covers x.1 (Z.of_nat j)) → inuse c !! j = l0 !! j;
  sl_used : ∀ j x, x ∈ bs → covers x.1 (Z.of_nat j) → inuse c !! j = Some true ∧ l0 !! j = Some false }.

(** [n] pages find slots, at even numbers *)
Fixpoint swap_room (n : nat) (l : list bool) : bool :=
  match n with
  | O => true
  | S n =>
      match List.find (free8 l) (zseq 0 192) with
      | Some i => Z.even i && swap_room n (mark8 true l i)
      | None => false
      end
  end.

Lemma mark8_lookup v l i j :
  length l = 200%nat → 0 ≤ i < 192 → mark8 v l i !! j = if decide (i ≤ Z.of_nat j < i + 8) then Some v else l !! j.
Proof. intros Hl Hi. unfold mark8. rewrite mark_lookup by lia. repeat case_decide; try done; lia. Qed.
Lemma mark8_length v l i : length (mark8 v l i) = length l.
Proof.
  unfold mark8. assert (∀ n k l, length (fold_left (λ (l : list bool) j, <[Z.to_nat (i + j) := v]> l) (zseq k n) l)
    = length l) as H; [|apply H]. induction n as [|n IH]; intros k l'; simpl; [done|]. by rewrite IH, length_insert.
Qed.

(** the eight writes of a page *)
Lemma write_page_run page c i :
  length (inuse c) = 200%nat → List.find (free8 (inuse c)) (zseq 0 192) = Some i →
  ∃ c', write_page_to_disk page c = Ok (SWAP_START + i, c') ∧ inuse c' = mark8 true (inuse c) i ∧
    ∀ x, dread (disk c') x =
      if decide (SWAP_START + i ≤ x < SWAP_START + i + 8)
      then sub (Z.to_nat ((x - (SWAP_START + i)) * 512)) 512 page else dread (disk c) x.
Proof.
  intros Hl Ef. apply List.find_some in Ef as Hi. destruct Hi as [Hi _].
  rewrite <-list_elem_of_In, elem_of_zseq in Hi. set (b := SWAP_START + i).
  unfold write_page_to_disk, find_and_set_8_blocks. rewrite bind_assoc. erewrite bind_Ok by apply gets_run.
  change (Z.to_nat (SWAP_END - SWAP_START - 8)) with 192%nat. rewrite Ef. rewrite bind_assoc.
  erewrite bind_Ok by apply modify_run. erewrite bind_Ok by apply mret_run. fold b.
  set (c1 := upd_inuse _ c).
  destruct (for_each_invariant (λ done c', inuse c' = inuse c1 ∧ ∀ x, dread (disk c') x =
      if decide (b ≤ x < b + Z.of_nat (length done)) then sub (Z.to_nat ((x - b) * 512)) 512 page else dread (disk c) x)
    (λ k, device_write_raw (u32 (b + k)) (sub (Z.to_nat (k * 512)) 512 page)) (zseq 0 8)) with (s := c1) as (c2 & E & Hin & Hd).
  - intros pre k todo c' El [Hin Hd]. apply zseq_split in El as (_ & -> & Hlt). eexists. split; [apply modify_run|].
    split; [done|]. intros x. rewrite length_app. simpl.
    rewrite u32_id by (unfold b, SWAP_START; change (2 ^ 32) with 4294967296; lia).
    rewrite dread_insert. case_decide as Hx.
    + subst x. rewrite decide_True by lia. do 2 f_equal. lia.
    + rewrite Hd. repeat case_decide; try done; lia.
  - split; [done|]. intros x. rewrite decide_False; [done|simpl; lia].
  - exists c2. rewrite (bind_Ok _ _ _ _ _ E), mret_run. split; [done|]. split; [by rewrite Hin|].
    intros x. rewrite Hd. done.
Qed.

Lemma slots_out c l0 bs page i :
  slots c l0 bs → length page = 4096%nat → List.find (free8 (inuse c)) (zseq 0 192) = Some i →
  ∃ c', write_page_to_disk page c = Ok (SWAP_START + i, c') ∧ inuse c' = mark8 true (inuse c) i ∧
    slots c' l0 (bs ++ [(SWAP_START + i, page)]).
Proof.
  intros [S1 S2 [S3 S3'] S4 S5] Hp Ef. destruct (write_page_run page c i S3' Ef) as (c' & E & Hin & Hd).
  exists c'. split; [done|]. split; [done|]. apply List.find_some in Ef as [Hi Hf].
  rewrite <-list_elem_of_In, elem_of_zseq in Hi. rewrite free8_spec in Hf by lia.
  assert (∀ x, x ∈ bs → x.1 + 8 ≤ SWAP_START + i ∨ SWAP_START + i + 8 ≤ x.1) as Hap.
  { intros x Hx. rewrite Forall_forall in S1. specialize (S1 x Hx). destruct x as [b pg']. simpl. destruct S1 as (Hb & _).
    destruct (decide (b + 8 ≤ SWAP_START + i)); [by left|]. destruct (decide (SWAP_START + i + 8 ≤ b)); [by right|].
    exfalso. set (j := Z.to_nat (Z.max i (b - SWAP_START))).
    destruct (S5 j (b, pg') Hx) as [Hu _]; [unfold covers; simpl; lia|].
    rewrite Hf in Hu by lia. done. }
  assert (∀ j, covers (SWAP_START + i) (Z.of_nat j) ↔ i ≤ Z.of_nat j < i + 8) as Hcov by (unfold covers; lia).
  assert (∀ j x, x ∈ bs → covers x.1 (Z.of_nat j) → ¬ i ≤ Z.of_nat j < i + 8) as Hdis.
  { intros j x Hx Hc. destruct (Hap x Hx); unfold covers in Hc; lia. }
  split.
  - apply Forall_app. split; [|apply Forall_singleton].
    + rewrite Forall_forall in *. intros [b pg'] Hx. destruct (S1 _ Hx) as (Hb & Hl & Hr). split; [done|]. split; [done|].
      intros k Hk. rewrite Hd, decide_False; [by apply Hr|]. destruct (Hap _ Hx); simpl in *; lia.
    + split; [lia|]. split; [done|]. intros k Hk. rewrite Hd, decide_True by lia. do 2 f_equal. lia.
  - intros j k x y Hjk Hx Hy. apply lookup_app_Some in Hx as [Hx|[Hjl Hx]], Hy as [Hy|[Hkl Hy]].
    + by eapply S2.
    + apply list_lookup_singleton_Some in Hy as [_ <-]. apply Hap. by eapply list_elem_of_lookup_2.
    + apply list_lookup_singleton_Some in Hx as [_ <-]. simpl. destruct (Hap y); [by eapply list_elem_of_lookup_2|lia|lia].
    + apply list_lookup_singleton_Some in Hx as [Hx _], Hy as [Hy _]. lia.
  - split; [done|]. by rewrite Hin, mark8_length.
  - intros j Hj. rewrite Hin, mark8_lookup by done. rewrite decide_False.
    + apply S4. intros x Hx. apply Hj. apply elem_of_app. by left.
    + rewrite <-Hcov. apply (Hj (SWAP_START + i, page)). apply elem_of_app. right. by left.
  - intros j x Hx Hc. rewrite Hin, mark8_lookup by done. apply elem_of_app in Hx as [Hx|Hx%list_elem_of_singleton]; [|subst x].
    + rewrite decide_False by (by eapply Hdis). by apply (S5 j x).
    + simpl in Hc. rewrite Hcov in Hc. rewrite decide_True by done. split; [done|].
      rewrite <-S4; [by apply Hf|]. intros x Hx Hc'. by apply (Hdis j x Hx Hc').
Qed.

Lemma read_page_run b page c :
  0 ≤ b → b + 8 ≤ 2 ^ 32 → length page = 4096%nat →
  (∀ i, 0 ≤ i < 8 → dread (disk c) (b + i) = sub (Z.to_nat (i * 512)) 512 page) →
  read_page_from_disk b c = Ok (page, c).
Proof.
  intros Hb Hb8 Hl Hr. unfold read_page_from_disk.
  assert (∀ n k, k + Z.of_nat n = 8 → 0 ≤ k → read_blocks (zseq k n) b c = Ok (drop (Z.to_nat (k * 512)) page, c)) as H.
  { induction n as [|n IH]; intros k Hk H0; cbn [zseq read_blocks].
    - rewrite mret_run. by rewrite drop_ge by lia.
    - erewrite bind_Ok by apply gets_run. rewrite (bind_Ok _ _ _ _ _ (IH (k + 1) ltac:(lia) ltac:(lia))), mret_run.
      do 2 f_equal. rewrite u32_id by lia. rewrite Hr by lia. unfold sub.
      replace (Z.to_nat ((k + 1) * 512)) with (Z.to_nat (k * 512) + 512)%nat by lia.
      rewrite <-drop_drop. apply take_drop. }
  apply (H 8%nat 0); lia.
Qed.

Lemma slots_in c l0 b page bs :
  slots c l0 ((b, page) :: bs) →
  read_page_from_disk b c = Ok (page, c) ∧
  ∃ c', release_8_blocks b c = Ok (tt, c') ∧ slots c' l0 bs.
Proof.
  intros [S1 S2 [S3 S3'] S4 S5]. apply Forall_cons in S1 as [(Hb & Hl & Hr) S1]. unfold SWAP_START in Hb. split.
  - apply read_page_run; [lia|change (2 ^ 32) with 4294967296; lia|done|done].
  - eexists. split; [apply modify_run|].
    assert (u32 (b - SWAP_START) = b - SWAP_START) as Eu.
    { apply u32_id. unfold SWAP_START. change (2 ^ 32) with 4294967296. lia. }
    assert (∀ j, covers b (Z.of_nat j) ↔ b - SWAP_START ≤ Z.of_nat j < b - SWAP_START + 8) as Hcov by done.
    assert (∀ x, x ∈ bs → x.1 + 8 ≤ b ∨ b + 8 ≤ x.1) as Hap.
    { intros x Hx. apply list_elem_of_lookup in Hx as [k Hk]. destruct (S2 0%nat (S k) (b, page) x) as [H|H];
        [done|done|done|right|left]; simpl in H; lia. }
    split; [done| | | |].
    + intros j k x y Hjk Hx Hy. apply (S2 (S j) (S k)); [lia|done|done].
    + split; [done|]. simpl. by rewrite mark8_length.
    + intros j Hj. simpl. rewrite Eu, mark8_lookup by (unfold SWAP_START; lia || done). case_decide as Hc.
      * symmetry. by apply (S5 j (b, page)); [left|].
      * apply S4. intros x [->|Hx]%elem_of_cons; [done|by apply Hj].
    + intros j x Hx Hc. simpl. rewrite Eu, mark8_lookup by (unfold SWAP_START; lia || done). rewrite decide_False.
      * apply (S5 j x); [by right|done].
      * destruct (Hap x Hx); unfold covers in Hc; lia.
Qed.

Lemma slots_none c : length (inuse c) = 200%nat → slots c (inuse c) [].
Proof. intros. split; [constructor|done|done|done|]. intros j x ?%not_elem_of_nil. done. Qed.
Lemma slots_empty c l0 : slots c l0 [] → inuse c = l0.
Proof. intros H. apply list_eq. intros j. apply (sl_inuse _ _ _ H). intros x ?%not_elem_of_nil. done. Qed.

(** ** The loops over the entries of a section *)

Section loops.
Context (cur root : Z) (Ls : list (list Z)) (T : gmap (list Z) Z).

(** a loop over pages [a], ..., all of which have an entry *)
Lemma for_ptes_run (I : nat → pg → Prop) a n body s :
  0 ≤ a → (a + Z.of_nat n) * 4096 ≤ 2 ^ 48 →
  (∀ k s, (k < n)%nat → I k s →
    let va := (a + Z.of_nat k) * 4096 in
    ∃ L e s', space (mm s) cur root T L ∧ L (a + Z.of_nat k) = Some e ∧
      body (pteaddr T va) e s = Ok (tt, s') ∧ I (S k) s') →
  I 0%nat s →
  ∃ s', for_ptes cur (a * 4096) ((a + Z.of_nat n) * 4096) body s = Ok (tt, s') ∧ I n s'.
Proof using.
  intros Ha Hmax Hstep H0. change (2 ^ 48) with 281474976710656 in Hmax. unfold for_ptes.
  change PAGE_SIZE with 4096. replace (Z.to_nat _) with n by zmod.
  match goal with |- ∃ s', for_each _ ?b _ = _ ∧ _ =>
    destruct (for_each_invariant (λ done s', I (length done) s') b (zseq 0 n)) with (s := s) as (s' & E & H) end.
  - intros pre k todo s1 El HI. apply zseq_split in El as (_ & -> & Hlt). rewrite Z.add_0_l.
    destruct (Hstep _ s1 Hlt HI) as (L & e & s2 & Sp & He & E2 & HI2). set (va := (a + Z.of_nat (length pre)) * 4096) in *.
    replace (a * 4096 + Z.of_nat (length pre) * 4096) with va by (unfold va; lia).
    assert (0 ≤ va < 2 ^ 48) as Hva by (unfold va; change (2 ^ 48) with 281474976710656; lia).
    assert (L (va / 4096) = Some e) as He' by (unfold va; by rewrite Z.div_mul by lia).
    rewrite u64_id by (change (2 ^ 64) with 18446744073709551616; change (2 ^ 48) with 281474976710656 in Hva; lia).
    destruct (read_leaf _ _ _ _ _ _ _ Sp Hva He') as [Hne Er].
    exists s2. split; [|by rewrite length_app, Nat.add_comm].
    erewrite bind_Ok by (apply invm_read; by eapply get_pte_find).
    rewrite (proj2 (Z.eqb_neq _ 0)) by done. cbn [negb when]. by erewrite bind_Ok by (apply invm_read; exact Er).
  - exact H0.
  - exists s'. split; [done|]. by rewrite length_zseq in H.
Qed.

Context (s0 : pg) (L0 : Z → option Z) (U0 : uspace (mm s0) cur root T L0 Ls).
Context (a : Z) (cs : list (list Z)).
Local Notation n := (length cs).
Context (Ha : 0 ≤ a) (Hmax : (a + Z.of_nat n) * 4096 ≤ 2 ^ 48).
(** every page of the section is mapped, and holds [cs] *)
Context (Hcs : ∀ k c, cs !! k = Some c → content (mm s0) L0 (a + Z.of_nat k) = Some c).

Lemma page_range k : (k < n)%nat → 0 ≤ a + Z.of_nat k < 2 ^ 36.
Proof using Ha Hmax.
  intros Hk. change (2 ^ 36) with 68719476736. change (2 ^ 48) with 281474976710656 in Hmax. lia.
Qed.

(** the entries of the section in [s0] *)
Lemma entry_at k : (k < n)%nat →
  ∃ e p c, L0 (a + Z.of_nat k) = Some e ∧ user_page (mm s0) T e p ∧ cs !! k = Some c ∧
    frames (mm s0) !! p = Some c ∧ length c = 4096%nat ∧ bytes c.
Proof using U0 Ha Hmax Hcs.
  intros Hk. destruct (lookup_lt_is_Some_2 cs k Hk) as [c Ec]. pose proof (Hcs k c Ec) as Hc.
  unfold content in Hc. destruct (L0 (a + Z.of_nat k)) as [e|] eqn:Ee; [|done]. cbn [mbind option_bind] in Hc.
  destruct (Z.eqb_spec (e mod 4) 3) as [E3|]; [|done].
  destruct (us_user _ _ _ _ _ _ U0 _ e (page_range k Hk) Ee) as (p & Up); [zmod|].
  destruct (user_entry _ _ _ _ Up) as (_ & _ & _ & Ep). rewrite Ep in Hc.
  destruct (up_frame _ _ _ _ Up) as (f & Hf & Hl & Hb). assert (f = c) as -> by congruence. by exists e, p, c.
Qed.

(** the state as [s0] but for the tables *)
Record same_data (s : pg) : Prop := {
  sd_kmem : kmem (mm s) = kmem (mm s0);
  sd_frames : ∀ x, apart T x → frames (mm s) !! x = frames (mm s0) !! x;
  sd_ttbr0 : ttbr0 (mm s) = ttbr0 (mm s0) }.

(** the entries of the pages from [a] on: those of [0], ..., [k - 1] from [f], the others from [g] *)
Definition Lsplit (k : nat) (f g : Z → option Z) : Z → option Z :=
  λ v, if decide (a ≤ v < a + Z.of_nat k) then f v
       else if decide (a ≤ v < a + Z.of_nat n) then g v else L0 v.
Definition Linvalid : Z → option Z := λ v, (λ e, e - 1) <$> L0 v.
Definition Lslots (bs : list (Z * list Z)) : Z → option Z := λ v, fst <$> bs !! Z.to_nat (v - a).

Lemma Lsplit_here k f g : (k < n)%nat → Lsplit k f g (a + Z.of_nat k) = g (a + Z.of_nat k).
Proof using a cs L0. intros Hk. unfold Lsplit. rewrite decide_False, decide_True by lia. done. Qed.

Lemma Lsplit_next k f f' g e : (k < n)%nat → f' (a + Z.of_nat k) = Some e →
  (∀ v, a ≤ v < a + Z.of_nat k → f' v = f v) →
  ∀ v, Lsplit (S k) f' g v = lset (Lsplit k f g) (a + Z.of_nat k) e v.
Proof using a cs L0.
  intros Hk He Hf v. unfold Lsplit, lset. destruct (decide (v = a + Z.of_nat k)) as [->|Hne].
  - by rewrite decide_True by lia.
  - destruct (decide (a ≤ v < a + Z.of_nat k)).
    + rewrite decide_True by lia. by apply Hf.
    + by rewrite decide_False by lia.
Qed.

Lemma land_invalid e : 0 ≤ e → e mod 2 = 1 → Z.land e (Z.lnot PTE_VALID) = e - 1.
Proof using a cs L0.
  intros He H1. rewrite <-Z.ldiff_land. change PTE_VALID with (Z.ones 1).
  rewrite Z.ldiff_ones_r, Z.shiftl_mul_pow2, Z.shiftr_div_pow2 by lia. change (2 ^ 1) with 2. zmod.
Qed.

(** the loop that clears the valid bits *)
Lemma invalidate_loop s :
  uspace (mm s) cur root T L0 Ls → same_data s →
  ∃ s', for_ptes cur (a * 4096) ((a + Z.of_nat n) * 4096) invalidate s = Ok (tt, s') ∧
    uspace (mm s') cur root T (Lsplit n Linvalid L0) Ls ∧ same_data s' ∧
    sections (mm s') = sections (mm s) ∧ io s' = io s ∧ pgdirs (mm s') = pgdirs (mm s).
Proof using U0 Ha Hmax Hcs.
  intros U D.
  destruct (for_ptes_run (λ k s', uspace (mm s') cur root T (Lsplit k Linvalid L0) Ls ∧ same_data s' ∧
    sections (mm s') = sections (mm s) ∧ io s' = io s ∧ pgdirs (mm s') = pgdirs (mm s)) a n invalidate s Ha Hmax)
    as (s' & E & H); [| |by exists s'].
  - intros k s1 Hk (U1 & [D1 D2 D3] & E1 & E2 & E3). cbv zeta. set (v := a + Z.of_nat k).
    destruct (entry_at k Hk) as (e & p & c & Ee & Up & _). fold v in Ee.
    destruct (user_entry _ _ _ _ Up) as (He & H3 & _).
    assert (Lsplit k Linvalid L0 (v * 4096 / 4096) = Some e) as EL by (rewrite Z.div_mul by lia; by rewrite Lsplit_here).
    destruct (unmap_page cur root Ls (mm s1) T _ (v * 4096) e (e - 1) U1) as (t & f & Et & Ew & U2).
    { unfold v. change (2 ^ 48) with 281474976710656 in *. lia. }
    { done. }
    { change (2 ^ 48) with 281474976710656 in He. change (2 ^ 64) with 18446744073709551616. zmod. }
    { zmod. }
    eexists _, e, _. split; [apply U1|]. split; [unfold v; by rewrite Lsplit_here|]. split.
    { unfold invalidate. rewrite (proj2 (Z.eqb_neq e 0)) by zmod. cbn [negb when]. rewrite land_invalid by zmod.
      apply (invm_run _ s1). exact Ew. }
    rewrite Z.div_mul in U2 by lia. split; [|split; [|done]].
    + eapply uspace_lext; [exact U2|]. apply Lsplit_next; [done| |done]. unfold Linvalid. fold v. by rewrite Ee.
    + split; [done| |done]. intros x Hx. simpl. rewrite lookup_insert_ne; [by apply D2|].
      intros ->. by apply (Hx (path (v * 4096))).
  - split; [|done]. eapply uspace_lext; [exact U|]. intros v. unfold Lsplit. repeat case_decide; try done; lia.
Qed.

(** the loop that writes the pages to the swap area *)
Record out_to (k : nat) (l0 : list bool) (bs : list (Z * list Z)) (s1 s : pg) : Prop := {
  ou_slots : slots (io s) l0 bs;
  ou_pages : map snd bs = take k cs;
  ou_even : Forall (λ x, x.1 mod 2 = 0) bs;
  ou_space : uspace (mm s) cur root T (Lsplit k (Lslots bs) Linvalid) Ls;
  ou_data : same_data s;
  ou_same : sections (mm s) = sections (mm s1) ∧ pgdirs (mm s) = pgdirs (mm s1) }.

Lemma page_out_loop s :
  uspace (mm s) cur root T (Lsplit n Linvalid L0) Ls → same_data s →
  length (inuse (io s)) = 200%nat → swap_room n (inuse (io s)) = true →
  ∃ s' bs, for_ptes cur (a * 4096) ((a + Z.of_nat n) * 4096) page_out s = Ok (tt, s') ∧
    out_to n (inuse (io s)) bs s s'.
Proof using U0 Ha Hmax Hcs.
  intros U D Hl Hroom.
  destruct (for_ptes_run (λ k s', ∃ bs, out_to k (inuse (io s)) bs s s' ∧ swap_room (n - k) (inuse (io s')) = true)
    a n page_out s Ha Hmax) as (s' & E & bs & H & _); [| |by exists s', bs].
  - intros k s1 Hk (bs & [S1 P1 E1 U1 [D1 D2 D3] [F1 F2]] & R1). cbv zeta. set (v := a + Z.of_nat k).
    assert (length bs = k) as Hbl by (rewrite <-(length_map snd), P1, length_take; lia).
    destruct (entry_at k Hk) as (e & p & c & Ee & Up & Ec & Hf & Hcl & Hcb). fold v in Ee.
    destruct (user_entry _ _ _ _ Up) as (He & H3 & _).
    assert (Linvalid v = Some (e - 1)) as EI by (unfold Linvalid; by rewrite Ee).
    assert (Lsplit k (Lslots bs) Linvalid (v * 4096 / 4096) = Some (e - 1)) as EL
      by (rewrite Z.div_mul by lia; unfold v; by rewrite Lsplit_here).
    replace (n - k)%nat with (S (n - S k)) in R1 by lia. cbn [swap_room] in R1.
    destruct (List.find _ _) as [i|] eqn:Ef; [|done]. apply andb_true_iff in R1 as [Hev R2].
    destruct (slots_out _ _ _ c i S1 Hcl Ef) as (c' & Ew & Hin & S2). set (b := SWAP_START + i) in *.
    assert (0 ≤ b < 2 ^ 32) as Hb.
    { apply List.find_some in Ef as [Hi _]. rewrite <-list_elem_of_In, elem_of_zseq in Hi.
      unfold b, SWAP_START. change (2 ^ 32) with 4294967296. lia. }
    assert (b mod 2 = 0) as Hb2.
    { apply Zeven_bool_iff in Hev. unfold b, SWAP_START. destruct (Zeven_ex _ Hev) as [m ->]. zmod. }
    destruct (unmap_page cur root Ls (mm s1) T _ (v * 4096) (e - 1) b U1) as (t & f & Et & Ewp & U2).
    { unfold v. change (2 ^ 48) with 281474976710656 in *. lia. }
    { done. }
    { change (2 ^ 32) with 4294967296 in Hb. change (2 ^ 64) with 18446744073709551616. lia. }
    { done. }
    set (s2 := put_io c' s1). exists (Lsplit k (Lslots bs) Linvalid), (e - 1), (put_mm (upd_frames <[t := f]> (mm s2)) s2).
    split; [apply U1|]. split; [unfold v; by rewrite Lsplit_here|]. split.
    { unfold page_out. rewrite land_valid. rewrite (proj2 (Z.eqb_eq _ 0)) by zmod. cbn [when].
      assert (P2K (CLEAN (e - 1)) = p) as ->.
      { destruct Up as [(fl & -> & Hfl & Hf3) Hr _ _ _]. destruct (ram_K2P p Hr) as (_ & Em & _ & Ep).
        rewrite lor_flags by done. assert (CLEAN (K2P p + fl - 1) = K2P p) as -> by (unfold CLEAN; zmod). done. }
      erewrite bind_Ok by (apply invm_read, getopt_run; rewrite D2 by apply Up; exact Hf).
      rewrite (bind_Ok _ _ s1 b s2) by by apply on_run.
      apply (invm_run _ s2). exact Ewp. }
    rewrite Z.div_mul in U2 by lia. exists (bs ++ [(b, c)]). split; [|by rewrite <-Hin in R2].
    split.
    + exact S2.
    + by rewrite map_app, P1, (take_S_r _ _ _ Ec).
    + apply Forall_app. split; [done|]. by apply Forall_singleton.
    + eapply uspace_lext; [exact U2|]. apply Lsplit_next; [done| |].
      * unfold Lslots. replace (Z.to_nat _) with (length bs) by lia. by rewrite lookup_app_r, Nat.sub_diag.
      * intros v' Hv'. unfold Lslots. by rewrite lookup_app_l by lia.
    + split; [done| |done]. intros x Hx. simpl. rewrite lookup_insert_ne; [by apply D2|].
      intros ->. by apply (Hx (path (v * 4096))).
    + done.
  - exists []. rewrite Nat.sub_0_r. split; [|done]. split; try done.
    + by apply slots_none.
    + eapply uspace_lext; [exact U|]. intros v. unfold Lsplit. repeat case_decide; try done; lia.
Qed.

(** the loop that reads them back *)
Record in_to (k : nat) (l0 : list bool) (bs : list (Z * list Z)) (f : Z → option Z) (s1 s : pg) : Prop := {
  in_slots : slots (io s) l0 (drop k bs);
  in_space : uspace (mm s) cur root T (Lsplit k f (Lslots bs)) Ls;
  in_content : ∀ j c, (j < k)%nat → cs !! j = Some c →
    content (mm s) (Lsplit k f (Lslots bs)) (a + Z.of_nat j) = Some c;
  in_pages : pages (kmem (mm s)) = drop k (pages (kmem (mm s0)));
  in_frames : ∀ x, apart T x → x ∉ pages (kmem (mm s0)) → frames (mm s) !! x = frames (mm s0) !! x;
  in_same : sections (mm s) = sections (mm s1) ∧ pgdirs (mm s) = pgdirs (mm s1) ∧ ttbr0 (mm s) = ttbr0 (mm s1) }.

Lemma page_in_loop l0 bs s :
  slots (io s) l0 bs → map snd bs = cs → Forall (λ x, x.1 mod 2 = 0) bs →
  uspace (mm s) cur root T (Lsplit n (Lslots bs) Linvalid) Ls → same_data s →
  1024 + Z.of_nat n ≤ Z.of_nat (length (pages (kmem (mm s0)))) →
  ∃ s' f, for_ptes cur (a * 4096) ((a + Z.of_nat n) * 4096) page_in s = Ok (tt, s') ∧ in_to n l0 bs f s s'.
Proof using U0 Ha Hmax Hcs.
  intros Sl Hbs Hev U [D1 D2 D3] Hn. assert (length bs = n) as Hbl by (by rewrite <-Hbs, length_map).
  destruct (for_ptes_run (λ k s', ∃ f, in_to k l0 bs f s s') a n page_in s Ha Hmax)
    as (s' & E & f & H); [| |by exists s', f].
  - intros k s1 Hk (f & [S1 U1 C1 P1 F1 (G1 & G2 & G3)]). cbv zeta. set (v := a + Z.of_nat k).
    destruct (lookup_lt_is_Some_2 bs k ltac:(lia)) as [[b c] Eb].
    assert (cs !! k = Some c) as Ec by (rewrite <-Hbs, list_lookup_fmap, Eb; done).
    rewrite (drop_S _ _ _ Eb) in S1. pose proof (sl_page _ _ _ S1) as Hp. apply Forall_cons in Hp as [(Hb & Hcl & _) _].
    unfold SWAP_START in Hb.
    assert (Lslots bs v = Some b) as Lb.
    { unfold Lslots. replace (Z.to_nat (v - a)) with k by (unfold v; lia). by rewrite Eb. }
    assert (Lsplit k f (Lslots bs) (v * 4096 / 4096) = Some b) as EL
      by (rewrite Z.div_mul by lia; unfold v; by rewrite Lsplit_here).
    destruct (alloc_page_run _ _ _ _ _ _ U1) as (p & l & El & Hr & Hpl & Hap & Hfr & Ea & U2).
    { rewrite P1, length_drop. lia. }
    set (v1 := put_kmem _ _) in *. set (s2 := put_mm v1 s1).
    destruct (slots_in _ _ _ _ _ S1) as [Erd (c' & Erl & S2)].
    destruct (entry_at k Hk) as (e0 & p0 & c0 & _ & _ & Ec0 & _ & _ & Hcb). rewrite Ec in Ec0. injection Ec0 as <-.
    pose proof (uspace_store _ _ _ _ _ _ p c U2 Hap Hcl Hcb) as U3. set (v2 := upd_frames <[p := c]> v1) in *.
    assert (user_page v2 T (UD p) p) as Up.
    { apply (fresh_user v2 T p c); [done|done|done|]. split; [apply lookup_insert_eq|done]. }
    destruct (map_page cur root Ls v2 T _ (v * 4096) b (UD p) p U3) as (t & g & Et & Ew & U4).
    { unfold v. change (2 ^ 48) with 281474976710656 in *. lia. } { done. } { done. }
    rewrite Z.div_mul in U4 by lia. set (v3 := upd_frames <[t := g]> v2) in *.
    assert (p ∈ pages (kmem (mm s1))) as Hpin by (rewrite El; left).
    assert (∀ x, apart T x → x ∉ pages (kmem (mm s1)) → frames v3 !! x = frames (mm s1) !! x) as Hfx.
    { intros x Hx Hxn. simpl. rewrite !lookup_insert_ne; [done|by intros ->|]. intros ->. by apply (Hx (path (v * 4096))). }
    set (f' := lset f v (UD p)).
    assert (∀ x, Lsplit (S k) f' (Lslots bs) x = lset (Lsplit k f (Lslots bs)) v (UD p) x) as HL.
    { apply Lsplit_next; [done|unfold f', lset; by rewrite decide_True|].
      intros x Hx. unfold f', lset. by rewrite decide_False by (unfold v; lia). }
    eexists (Lsplit k f (Lslots bs)), b, (put_io c' (put_mm v3 s2)).
    split; [apply U1|]. split; [unfold v; by rewrite Lsplit_here|]. split.
    { unfold page_in. rewrite (proj2 (Z.eqb_neq b 0)) by lia. cbn [negb when].
      rewrite u32_id by (change (2 ^ 32) with 4294967296; lia). rewrite (bind_Ok _ _ _ _ _ Ea).
      rewrite (bind_Ok _ _ s2 c s2) by (unfold onio; rewrite (on_run _ _ _ s2 _ _ Erd); by destruct s1).
      unfold store_page. rewrite (proj2 (Z.eqb_neq p 0)) by (destruct Hr; unfold KSPACE_MASK in *; lia).
      rewrite (bind_Ok _ _ s2 tt (put_mm v2 s2)) by by apply invm_run.
      rewrite (bind_Ok _ _ (put_mm v2 s2) tt (put_mm v3 s2)) by (apply (invm_run _ (put_mm v2 s2)); exact Ew).
      apply (on_run _ _ _ (put_mm v3 s2)). exact Erl. }
    exists f'. split.
    + exact S2.
    + eapply uspace_lext; [exact U4|exact HL].
    + intros j x Hj Ex. destruct (decide (j = k)) as [->|Hne].
      * fold v. unfold content. rewrite HL. unfold lset. rewrite decide_True by done. cbn [mbind option_bind].
        destruct (user_entry _ _ _ _ Up) as (_ & -> & _ & ->). simpl. rewrite Ec in Ex. injection Ex as <-.
        rewrite lookup_insert_ne; [apply lookup_insert_eq|]. intros ->. by apply (Hap (path (v * 4096))).
      * rewrite <-(C1 j x) by (lia || done). unfold content at 1. rewrite HL.
        change (content v3 (lset (Lsplit k f (Lslots bs)) v (UD p)) (a + Z.of_nat j) =
          content (mm s1) (Lsplit k f (Lslots bs)) (a + Z.of_nat j)).
        rewrite content_set by (unfold v; lia). apply (content_same cur root Ls (mm s1) v3 T _ U1 Hfx).
        apply page_range. lia.
    + change (pages (kmem (mm (put_io c' (put_mm v3 s2))))) with l.
      rewrite P1 in El. by rewrite <-Nat.add_1_r, <-drop_drop, El.
    + intros x Hx Hxn. change (frames v3 !! x = frames (mm s0) !! x). rewrite Hfx; [by apply F1|done|].
      rewrite P1. intros Hin. apply Hxn. by eapply drop_sub.
    + done.
  - exists (λ _, None). split; try done.
    + eapply uspace_lext; [exact U|]. intros v. unfold Lsplit. repeat case_decide; try done; lia.
    + intros j c Hj. lia.
    + by rewrite D1.
    + intros x Hx _. by apply D2.
Qed.
End loops.

(** ** The round trip *)

Lemma uspace_eq cur root T L Ls s s' :
  uspace s cur root T L Ls → kmem s' = kmem s → frames s' = frames s →
  (∃ d, pgdirs s' !! cur = Some d ∧ pt d = root) → uspace s' cur root T L Ls.
Proof.
  intros [Sp Hp Hf Hu] Ek Ef Hd. split.
  - eapply space_ext; [exact Sp| |done]. intros pre p Hpp. rewrite Ef, Ek. split; [done|].
    by apply (space_not_pool _ _ _ _ _ _ _ Sp Hpp).
  - by rewrite Ek.
  - intros p. rewrite Ek, Ef. apply Hf.
  - intros x e Hx He H1. destruct (Hu x e Hx He H1) as (p & [U1 U2 U3 U4 U5]). exists p.
    split; [done|done|by rewrite Ek|done|by rewrite Ef].
Qed.

(** the state with the section [st] replaced *)
Definition with_section (st : Z) (x : section) (s : pg) : pg := put_mm (upd_sections <[st := x]> (mm s)) s.

Lemma section_wait_run st s x v :
  sections (mm s) !! st = Some x → sleeplock x = mkSem v [] → 0 < v →
  section_wait st s = Ok (tt, with_section st (set_sleeplock (mkSem (v - 1) []) x) s).
Proof.
  intros Ex El Hv. unfold section_wait. rewrite (bind_Ok _ _ _ _ _ (get_section_run _ _ _ Ex)), El.
  rewrite (bind_Ok _ _ _ _ _ (run_wait_free v s Hv)). by rewrite (bind_Ok _ _ _ _ _ (set_section_run _ _ _ _ Ex)).
Qed.
Lemma section_post_run st s x v :
  sections (mm s) !! st = Some x → sleeplock x = mkSem v [] → 0 ≤ v →
  section_post st s = Ok (tt, with_section st (set_sleeplock (mkSem (v + 1) []) x) s).
Proof.
  intros Ex El Hv. unfold section_post. rewrite (bind_Ok _ _ _ _ _ (get_section_run _ _ _ Ex)), El.
  rewrite (bind_Ok _ _ _ _ _ (run_post v s Hv)). by rewrite (set_section_run _ _ _ _ Ex).
Qed.

Lemma with_section_lookup st x s : sections (mm (with_section st x s)) !! st = Some x.
Proof. apply lookup_insert_eq. Qed.

(** growing: only the end moves *)
Lemma sbrk_up ip cur root T L Ls size s d st secs x :
  uspace (mm s) cur root T L Ls → 0 ≤ size → pgdirs (mm s) !! cur = Some d → section_head d = st :: secs →
  sections (mm s) !! st = Some x →
  sbrk ip cur size s = Ok (s_end x,
    put_mm (set_ttbr0 (K2P root) (mm (with_section st (set_end (u64 (s_end x + size * PAGE_SIZE)) x) s)))
      (with_section st (set_end (u64 (s_end x + size * PAGE_SIZE)) x) s)).
Proof.
  intros U Hs Ed Esec Ex. unfold sbrk. erewrite bind_Ok by (apply invm_read, getopt_run; exact Ed).
  rewrite Esec. erewrite bind_Ok by by apply getopt_run. rewrite (bind_Ok _ _ _ _ _ (get_section_run _ _ _ Ex)).
  cbv zeta. rewrite (bind_Ok _ _ _ _ _ (set_section_run _ _ _ _ Ex)). rewrite (proj2 (Z.ltb_ge size 0)) by done.
  cbn [when]. erewrite bind_Ok by apply mret_run.
  erewrite bind_Ok by (eapply reload_run; by apply uspace_sections). done.
Qed.

(** the argument [swapout] gives [sbrk] is never negative: the length of the section is
    subtracted from 2^64 before it is divided *)
Lemma swapout_size_pos n : 0 ≤ n ≤ 2 ^ 36 → 0 ≤ i64 (u64 (- (n * 4096)) / PAGE_SIZE).
Proof.
  intros Hn. change PAGE_SIZE with 4096. change (2 ^ 36) with 68719476736 in Hn. unfold u64.
  change (2 ^ 64) with 18446744073709551616. rewrite i64_id; [zmod|]. change (2 ^ 63) with 9223372036854775808. zmod.
Qed.

Section roundtrip.
Context (ip cur root : Z) (Ls : list (list Z)) (T : gmap (list Z) Z).
Context (s : pg) (L : Z → option Z) (U : uspace (mm s) cur root T L Ls) (Ht : ttbr0 (mm s) = K2P root).
Context (d : pgdir) (st : Z) (secs : list Z) (x : section) (a : Z) (cs : list (list Z)).
Local Notation n := (length cs).
Context (Hd : pgdirs (mm s) !! cur = Some d) (Hsec : section_head d = st :: secs).
Context (Hx : sections (mm s) !! st = Some x) (Hlock : sleeplock x = init_sem 1).
Context (Hflags : Z.land (flags x) ST_FILE = 0).
Context (Hbegin : s_begin x = a * 4096) (Hend : s_end x = (a + Z.of_nat n) * 4096).
Context (Ha : 0 ≤ a) (Hmax : (a + Z.of_nat n) * 4096 ≤ 2 ^ 48).
Context (Hcs : ∀ k c, cs !! k = Some c → content (mm s) L (a + Z.of_nat k) = Some c).
Context (Hin : length (inuse (io s)) = 200%nat) (Hroom : swap_room n (inuse (io s)) = true).

(** what [swapout] leaves *)
Record swapped (s' : pg) (bs : list (Z * list Z)) : Prop := {
  sw_slots : slots (io s') (inuse (io s)) bs;
  sw_pages : map snd bs = cs;
  sw_even : Forall (λ x, x.1 mod 2 = 0) bs;
  sw_space : uspace (mm s') cur root T (Lsplit L a cs n (Lslots a bs) (Linvalid L)) Ls;
  sw_data : same_data T s s';
  sw_section : sections (mm s') !! st = Some (set_flags (Z.lor (flags x) ST_SWAP) x);
  sw_pgdir : ∃ d', pgdirs (mm s') !! cur = Some d' ∧ section_head d' = st :: secs }.

Lemma swapout_run : ∃ s' bs, swapout ip cur cur st s = Ok (tt, s') ∧ swapped s' bs.
Proof using All.
  unfold swapout. rewrite (bind_Ok _ _ _ _ _ (set_section_run _ _ _ _ Hx)). set (x1 := set_flags _ x).
  set (s1 := put_mm _ s). assert (root = pt d) as Er.
  { destruct (sp_pd _ _ _ _ _ (us_space _ _ _ _ _ _ U)) as (d' & Ed & <-). congruence. }
  rewrite (bind_Ok _ _ s1 x1 s1) by (apply get_section_run, lookup_insert_eq).
  assert (uspace (mm s1) cur root T L Ls) as U1 by by apply uspace_sections.
  change (s_begin x1) with (s_begin x). change (s_end x1) with (s_end x). rewrite Hbegin, Hend.
  destruct (invalidate_loop cur root Ls T s L U a cs Ha Hmax Hcs s1 U1) as (s2 & E2 & U2 & D2 & F2 & G2 & H2).
  { by split. }
  rewrite (bind_Ok _ _ _ _ _ E2). cbv zeta. erewrite bind_Ok by (eapply reload_run; exact U2).
  set (s3 := put_mm _ s2). assert (sections (mm s3) !! st = Some x1) as X3.
  { simpl. rewrite F2. apply lookup_insert_eq. }
  rewrite (bind_Ok _ _ _ _ _ (section_wait_run st s3 x1 1 X3 Hlock ltac:(lia))).
  set (s4 := with_section st (set_sleeplock (mkSem (1 - 1) []) x1) s3). assert (pgdirs (mm s4) !! cur = Some d) as Ed4 by (simpl; by rewrite H2).
  erewrite bind_Ok by (apply invm_read, getopt_run; exact Ed4).
  set (d' := mkPgdir (pt d) false (section_head d) (online d)).
  set (s5 := put_mm (upd_pgdirs <[cur := d']> (mm s4)) s4). rewrite (bind_Ok _ _ s4 tt s5) by by apply invm_run.
  set (x4 := set_sleeplock (mkSem (1 - 1) []) x1). assert (sections (mm s5) !! st = Some x4) as X5 by apply lookup_insert_eq.
  rewrite (bind_Ok _ _ _ _ _ (get_section_run _ _ _ X5)). change (flags x4) with (Z.lor (flags x) ST_SWAP).
  rewrite Z.land_lor_distr_l, Hflags. change (Z.lor 0 (Z.land ST_SWAP ST_FILE) =? 0) with true. cbn [when].
  assert (∃ d', pgdirs (mm s5) !! cur = Some d' ∧ pt d' = root) as Hd5.
  { exists d'. split; [apply lookup_insert_eq|done]. }
  assert (uspace (mm s5) cur root T (Lsplit L a cs n (Linvalid L) L) Ls) as U5 by by eapply uspace_eq.
  assert (same_data T s s5) as D5.
  { destruct D2 as [D1 D2' D3]. split; [exact D1|exact D2'|by rewrite Ht]. }
  destruct (page_out_loop cur root Ls T s L U a cs Ha Hmax Hcs s5 U5 D5) as (s6 & bs & E6 & [S6 P6 V6 U6 D6 [F6 H6]]).
  { simpl. by rewrite G2. } { simpl. by rewrite G2. }
  rewrite (bind_Ok _ _ _ _ _ E6). erewrite bind_Ok by (eapply reload_run; exact U6).
  set (s7 := put_mm _ s6). assert (uspace (mm s7) cur root T (Lsplit L a cs n (Lslots a bs) (Linvalid L)) Ls) as U7
    by by apply uspace_ttbr0.
  replace (- ((a + Z.of_nat n) * 4096 - a * 4096)) with (- (Z.of_nat n * 4096)) by lia.
  assert (0 ≤ Z.of_nat n ≤ 2 ^ 36) as Hn.
  { change (2 ^ 36) with 68719476736. change (2 ^ 48) with 281474976710656 in Hmax. lia. }
  assert (sections (mm s7) !! st = Some x4) as X7 by (simpl; by rewrite F6).
  assert (pgdirs (mm s7) !! cur = Some d') as Ed7 by (simpl; rewrite H6; apply lookup_insert_eq).
  rewrite (bind_Ok _ _ _ _ _ (sbrk_up ip cur root T _ Ls _ s7 d' st secs x4 U7 (swapout_size_pos _ Hn) Ed7 Hsec X7)).
  set (x8 := set_end _ x4). set (s8 := put_mm _ (with_section st x8 s7)).
  assert (sections (mm s8) !! st = Some x8) as X8 by apply lookup_insert_eq.
  rewrite (bind_Ok _ _ _ _ _ (set_section_run _ (set_end ((a + Z.of_nat n) * 4096)) _ _ X8)).
  set (x9 := set_end _ x8). set (s9 := put_mm _ s8).
  rewrite (section_post_run st s9 x9 0) by (done || apply lookup_insert_eq).
  eexists _, bs. split; [done|]. split.
  - simpl in S6. by rewrite G2 in S6.
  - by rewrite P6, take_ge.
  - done.
  - eapply uspace_eq; [exact U7|done|done|]. exists d'. done.
  - destruct D6 as [D61 D62 D63]. split; [exact D61|exact D62|by rewrite Ht].
  - rewrite with_section_lookup. f_equal. unfold x9, x8, x4, x1, set_end, set_sleeplock, set_flags. simpl.
    destruct x as [fl lk be en]. simpl in *. by rewrite Hlock, Hend.
  - exists d'. done.
Qed.

Context (Hpages : 1024 + Z.of_nat n ≤ Z.of_nat (length (pages (kmem (mm s))))).

Lemma swapin_run s1 bs :
  swapped s1 bs →
  ∃ s' L', swapin ip cur st s1 = Ok (tt, s') ∧ inuse (io s') = inuse (io s) ∧ ttbr0 (mm s') = K2P root ∧
    uspace (mm s') cur root T L' Ls ∧ pages (kmem (mm s')) = drop n (pages (kmem (mm s))) ∧
    ∀ v, 0 ≤ v < 2 ^ 36 → content (mm s') L' v = content (mm s) L v.
Proof using All.
  intros [S1 P1 E1 U1 D1 X1 (d' & Ed & _)]. unfold swapin. set (x1 := set_flags _ x) in *.
  rewrite (bind_Ok _ _ _ _ _ (get_section_run _ _ _ X1)).
  erewrite bind_Ok. 2:{ apply assert_run. change (flags x1) with (Z.lor (flags x) ST_SWAP).
    apply negb_true_iff, Z.eqb_neq. intros H. apply (f_equal (λ z, Z.testbit z 1)) in H.
    rewrite Z.land_spec, Z.lor_spec, Z.bits_0 in H. change (Z.testbit ST_SWAP 1) with true in H.
    by rewrite orb_true_r in H. }
  rewrite (bind_Ok _ _ _ _ _ (section_wait_run st s1 x1 1 X1 Hlock ltac:(lia))).
  set (s2 := with_section st _ s1). change (s_begin x1) with (s_begin x). change (s_end x1) with (s_end x).
  rewrite Hbegin, Hend.
  assert (∃ d, pgdirs (mm s1) !! cur = Some d ∧ pt d = root) as Hpd.
  { exact (sp_pd _ _ _ _ _ (us_space _ _ _ _ _ _ U1)). }
  assert (uspace (mm s2) cur root T (Lsplit L a cs n (Lslots a bs) (Linvalid L)) Ls) as U2 by by eapply uspace_eq.
  assert (same_data T s s2) as D2 by by destruct D1.
  destruct (page_in_loop cur root Ls T s L U a cs Ha Hmax Hcs (inuse (io s)) bs s2 S1 P1 E1 U2 D2 Hpages)
    as (s3 & f & E3 & [S3 U3 C3 Pg3 F3 (G3 & H3 & I3)]).
  rewrite (bind_Ok _ _ _ _ _ E3). erewrite bind_Ok by (eapply reload_run; exact U3). set (s4 := put_mm _ s3).
  set (x2 := set_sleeplock (mkSem (1 - 1) []) x1).
  assert (sections (mm s4) !! st = Some x2) as X4 by (simpl; rewrite G3; apply lookup_insert_eq).
  rewrite (bind_Ok _ _ _ _ _ (set_section_run _ _ _ _ X4)). set (s5 := put_mm _ s4).
  rewrite (section_post_run st s5 (set_flags (Z.land (flags x2) (Z.lnot ST_SWAP)) x2) 0)
    by (done || apply lookup_insert_eq).
  eexists _, (Lsplit L a cs n f (Lslots a bs)). split; [done|]. split; [|split; [done|split; [|split]]].
  - apply slots_empty. rewrite drop_ge in S3 by (by rewrite <-P1, length_map). exact S3.
  - eapply uspace_eq; [exact U3|done|done|]. exact (sp_pd _ _ _ _ _ (us_space _ _ _ _ _ _ U3)).
  - exact Pg3.
  - intros v Hv. change (content (mm s3) (Lsplit L a cs n f (Lslots a bs)) v = content (mm s) L v).
    destruct (decide (a ≤ v < a + Z.of_nat n)) as [Hr|Hr].
    + destruct (lookup_lt_is_Some_2 cs (Z.to_nat (v - a)) ltac:(lia)) as [c Ec].
      replace v with (a + Z.of_nat (Z.to_nat (v - a))) by lia. rewrite (C3 _ c) by (lia || done). symmetry. by apply Hcs.
    + rewrite <-(content_same cur root Ls (mm s) (mm s3) T L U F3 v Hv). unfold content, Lsplit.
      by rewrite !decide_False.
Qed.
End roundtrip.

(** C10: Swapping the heap out and in again.  When all pages of the section are mapped, the
    swap area has room for them and the pool has pages to spare, [swapout] and then [swapin]
    succeed; in between none of the pages is mapped, no page has come back to the pool, and
    afterwards every user address reads as before and the swap area is as before.  (The pages
    [swapin] takes are new ones: [swapout] gives none back.) *)
Theorem swap_roundtrip ip cur root Ls T s L d st secs x a cs :
  uspace (mm s) cur root T L Ls → ttbr0 (mm s) = K2P root →
  pgdirs (mm s) !! cur = Some d → section_head d = st :: secs →
  sections (mm s) !! st = Some x → sleeplock x = init_sem 1 → Z.land (flags x) ST_FILE = 0 →
  s_begin x = a * 4096 → s_end x = (a + Z.of_nat (length cs)) * 4096 → 0 ≤ a → s_end x ≤ 2 ^ 48 →
  (∀ k c, cs !! k = Some c → content (mm s) L (a + Z.of_nat k) = Some c) →
  length (inuse (io s)) = 200%nat → swap_room (length cs) (inuse (io s)) = true →
  1024 + Z.of_nat (length cs) ≤ Z.of_nat (length (pages (kmem (mm s)))) →
  ∃ s1 s2, swapout ip cur cur st s = Ok (tt, s1) ∧ swapin ip cur st s1 = Ok (tt, s2) ∧
    (∀ va, s_begin x ≤ va < s_end x → translate (phys (mm s1)) (ttbr0 (mm s1)) va = None) ∧
    pages (kmem (mm s1)) = pages (kmem (mm s)) ∧
    (∀ va, 0 ≤ va < 2 ^ 48 → user_byte (mm s2) va = user_byte (mm s) va) ∧
    inuse (io s2) = inuse (io s) ∧ pages (kmem (mm s2)) = drop (length cs) (pages (kmem (mm s))).
Proof.
  intros U Ht Hd Hsec Hx Hlock Hf Hb He Ha Hmax Hcs Hin Hroom Hpg. rewrite He in Hmax.
  destruct (swapout_run ip cur root Ls T s L U Ht d st secs x a cs Hd Hsec Hx Hlock Hf Hb He Ha Hmax Hcs Hin Hroom)
    as (s1 & bs & E1 & W).
  destruct (swapin_run ip cur root Ls T s L U Ht d st secs x a cs Hd Hsec Hx Hlock Hf Hb He Ha Hmax Hcs Hin Hroom Hpg
    s1 bs W) as (s2 & L2 & E2 & Hin2 & Ht2 & U2 & Hp2 & Hc2).
  exists s1, s2. split; [done|]. split; [done|]. split; [|split; [|split; [|done]]].
  - intros va Hva. destruct W as [_ P1 V1 U1 D1 _ _]. rewrite (sd_ttbr0 _ _ _ D1), Ht.
    rewrite (translate_xlate _ root T (sp_tree _ _ _ _ _ (us_space _ _ _ _ _ _ U1))).
    unfold xlate. rewrite Hb, He in Hva. assert (0 ≤ va < 2 ^ 48) as Hva' by lia.
    rewrite (sp_leaf _ _ _ _ _ (us_space _ _ _ _ _ _ U1)) by done.
    unfold Lsplit. rewrite decide_True by zmod. unfold Lslots.
    destruct (bs !! _) as [[b c]|] eqn:Eb; [|done]. simpl.
    pose proof (Forall_lookup_1 _ _ _ _ V1 Eb) as H2. simpl in H2. by rewrite (proj2 (Z.eqb_neq (b mod 4) 3)) by zmod.
  - by rewrite (sd_kmem _ _ _ (sw_data _ _ _ _ _ _ _ _ _ _ _ _ _ W)).
  - intros va Hva. rewrite (user_byte_content _ _ _ _ _ _ _ U Ht Hva), (user_byte_content _ _ _ _ _ _ _ U2 Ht2 Hva).
    by rewrite Hc2 by (by apply page_number).
Qed.

(** ** A concrete round trip, and the slots it does not work for *)

(** the heap with [n] pages *)
Definition heap_demo (n : Z) : pg :=
  put_mm (upd_frames <[KSPACE_MASK := replicate 4096 9]>
    (upd_sections <[16 := set_end (n * 4096) demo_section]> demo_vm)) (demo (boot ∅)).

(** touch [n] pages, swap out, and fault at the last of them *)
Definition last_page (n : Z) : option (option Z * option Z) :=
  match (for_each (zseq 0 (Z.to_nat n)) (λ k, pgfault 0 8 7 (k * 4096);; mret tt)) (heap_demo n) with
  | Ok (_, s) =>
      match (swapout 0 8 8 16;; pgfault 0 8 7 ((n - 1) * 4096)) s with
      | Ok (_, s') => Some (user_byte (mm s) ((n - 1) * 4096), user_byte (mm s') ((n - 1) * 4096))
      | _ => None
      end
  | _ => None
  end.

(** The first twelve pages come back.  The slot of the thirteenth is 896, which has the bit that
    marks a read-only page: [pgfault] takes the entry for a page to be copied on a write, and
    the process gets a copy of physical page 0 (full of 9 here). *)
Example thirteenth_page_lost :
  last_page 1 = Some (Some 0, Some 0) ∧ last_page 12 = Some (Some 0, Some 0) ∧
  last_page 13 = Some (Some 0, Some 9).
Proof. split_and!; vm_compute; reflexivity. Qed.

#[local] Opaque demo_frames zero4096.

Lemma one_page_uspace :
  uspace (upd_sections <[16 := set_end 4096 demo_section]> demo_vm) 8 (page_ 0) demo_tables (λ _, None) [].
Proof. apply uspace_sections, demo_uspace. Qed.

Lemma swap_roundtrip_witness :
  ∃ s s1 s2, pgfault 0 8 7 100 (put_mm (upd_sections <[16 := set_end 4096 demo_section]> demo_vm) (demo (boot ∅))) = Ok (7, s) ∧
    swapout 0 8 8 16 s = Ok (tt, s1) ∧ swapin 0 8 16 s1 = Ok (tt, s2) ∧
    translate (phys (mm s1)) (ttbr0 (mm s1)) 100 = None ∧ user_byte (mm s2) 100 = user_byte (mm s) 100.
Proof.
  set (s0 := put_mm _ _).
  destruct (pgfault_lazy_run 0 7 100 s0 demo_tables (λ _, None) [] 8 (page_ 0) demo_pgdir 16 (set_end 4096 demo_section)
    one_page_uspace) as (s & T & L & p & E & [U Et _ EL _ (F1 & F2 & F3) Fr]);
    [lia|reflexivity|reflexivity|reflexivity|reflexivity|vm_compute; reflexivity|reflexivity|].
  destruct (us_user _ _ _ _ _ _ U (100 / 4096) (UD p)) as (q & Uq); [by_decision|exact EL| |].
  { unfold UD. rewrite <-Z.bit0_mod, Z.lor_spec. change (Z.testbit PTE_USER_DATA 0) with true. by rewrite orb_true_r. }
  destruct (up_frame _ _ _ _ Uq) as (f & Hf & _).
  destruct (swap_roundtrip 0 8 (page_ 0) [] T s L demo_pgdir 16 [] (set_end 4096 demo_section) 0 [f])
    as (s1 & s2 & E1 & E2 & Hout & _ & Hin & _).
  - exact U.
  - exact Et.
  - rewrite F3. reflexivity.
  - reflexivity.
  - rewrite F2. reflexivity.
  - reflexivity.
  - reflexivity.
  - reflexivity.
  - reflexivity.
  - lia.
  - by_decision.
  - intros [|k] c [= <-]. rewrite <-Hf. exact (user_content _ _ _ _ _ _ EL Uq).
  - rewrite F1. reflexivity.
  - rewrite F1. vm_compute. reflexivity.
  - assert (length (pages (kmem (mm s0))) = 1100%nat) as El by (vm_compute; reflexivity). rewrite El in Fr.
    simpl length. lia.
  - exists s, s1, s2. split; [exact E|]. split; [exact E1|]. split; [exact E2|].
    split; [apply Hout; simpl; lia|apply Hin; lia].
Defined.
