(* ===== verification/Sched.v ===== *)
(** * [kernel/sched.c]: the scheduler

    Processes and containers are kept by address.  A run queue is the sequence of its entries,
    first to last: processes and groups (containers); inserting behind the list head puts an
    entry first, inserting behind [head->prev] puts it last (see [Lists.list_is_sequence]).
    [swtch] saves one kernel context and loads another; the code that runs on afterwards is
    the end of the [simple_sched] or [proc_entry] of the process switched to, which releases
    the lock, so [simple_sched] here stands for the whole step from one process to the next. *)

From Stdlib Require Import ZArith Lia.
From S2P Require Import Prelude Words Sync.

Inductive procstate := UNUSED | RUNNABLE | RUNNING | SLEEPING | DEEPSLEEPING | ZOMBIE.
#[export] Instance procstate_eq_dec : EqDecision procstate.
Proof. solve_decision. Defined.

Definition NOFILE : Z := 16.
Definition NCPU : nat := 4.

(** [struct proc] without the page directory, which is kept with the page tables.  [children]
    are the processes on the list of that name; [openfile] is what [oftable] points to; of the
    saved registers there are those proc.c looks at: [elr] of the user context, and [x0] and
    [x1] of the kernel context in [entry]. *)
Record proc := mkProc {
  killed : bool;
  idle : bool;
  pid : Z;
  localpid : Z;
  exitcode : Z;
  state : procstate;
  childexit : Semaphore;
  children : list Z;
  parent : Z;
  container_ : Z;
  kstack : Z;
  kcontext : Z;
  ucontext : Z;
  oftable : Z;
  openfile : list Z;
  cwd : Z;
  elr : Z;
  entry : Z * Z }.

(** an entry of a run queue: a [schinfo] embedded in a process or in a container *)
Inductive entity := EProc (p : Z) | EGroup (c : Z).
#[export] Instance entity_eq_dec : EqDecision entity.
Proof. solve_decision. Defined.

(** the nodes on [freep], each with its address and its [pid] *)
Record PIDManager := mkPids { max : Z; freep : list (Z * Z) }.

Record container := mkCont {
  c_parent : Z;
  rootproc : Z;
  schqueue : list entity;
  localpids : PIDManager }.

(** [struct sched] of a CPU *)
Record cpu := mkCpu { thisproc_ : Z; idle_ : Z }.

Record kernel := mkKernel {
  rqlock : bool;
  plock : bool;
  globalpids : PIDManager;
  procs : gmap Z proc;
  conts : gmap Z container;
  cpus : list cpu;
  panic_flag : bool;
  timers : list bool }.

Notation S_ := (M kernel).

Definition set_rqlock (b : bool) (s : kernel) : kernel :=
  mkKernel b (plock s) (globalpids s) (procs s) (conts s) (cpus s) (panic_flag s) (timers s).
Definition upd_procs (f : gmap Z proc → gmap Z proc) (s : kernel) : kernel :=
  mkKernel (rqlock s) (plock s) (globalpids s) (f (procs s)) (conts s) (cpus s) (panic_flag s) (timers s).
Definition upd_conts (f : gmap Z container → gmap Z container) (s : kernel) : kernel :=
  mkKernel (rqlock s) (plock s) (globalpids s) (procs s) (f (conts s)) (cpus s) (panic_flag s) (timers s).
Definition upd_cpus (f : list cpu → list cpu) (s : kernel) : kernel :=
  mkKernel (rqlock s) (plock s) (globalpids s) (procs s) (conts s) (f (cpus s)) (panic_flag s) (timers s).
Definition upd_timers (f : list bool → list bool) (s : kernel) : kernel :=
  mkKernel (rqlock s) (plock s) (globalpids s) (procs s) (conts s) (cpus s) (panic_flag s) (f (timers s)).

Definition set_state (v : procstate) (p : proc) : proc :=
  mkProc (killed p) (idle p) (pid p) (localpid p) (exitcode p) v (childexit p) (children p)
    (parent p) (container_ p) (kstack p) (kcontext p) (ucontext p) (oftable p) (openfile p) (cwd p)
    (elr p) (entry p).
Definition set_schqueue (l : list entity) (c : container) : container :=
  mkCont (c_parent c) (rootproc c) l (localpids c).

Definition get_proc (p : Z) : S_ proc := getopt (λ s, procs s !! p).
Definition upd_proc (p : Z) (f : proc → proc) : S_ unit :=
  x ← get_proc p; modify (upd_procs <[p := f x]>).
Definition get_cont (c : Z) : S_ container := getopt (λ s, conts s !! c).
Definition upd_cont (c : Z) (f : container → container) : S_ unit :=
  x ← get_cont c; modify (upd_conts <[c := f x]>).

(** ** Run queues *)

Definition rq_lock : SpinLock kernel := mkSpinLock rqlock set_rqlock.
Definition acquire_sched_lock : S_ unit := acquire_spinlock rq_lock.
Definition release_sched_lock : S_ unit := release_spinlock rq_lock.

(** [_insert_into_list(&c->schqueue.rq, e)] and [_insert_into_list(c->schqueue.rq.prev, e)] *)
Definition insert_first (c : Z) (e : entity) : S_ unit :=
  upd_cont c (λ x, set_schqueue (e :: schqueue x) x).
Definition insert_last (c : Z) (e : entity) : S_ unit :=
  upd_cont c (λ x, set_schqueue (schqueue x ++ [e]) x).
(** [_detach_from_list(&e->rq)]: the entry leaves the queue it is in *)
Definition detach_entity (e : entity) : S_ unit :=
  modify (upd_conts (fmap (λ x, set_schqueue (filter (λ e', e' ≠ e) (schqueue x)) x))).

(** [init_schqueue]; [init_schinfo] makes an entry that is in no queue *)
Definition init_schqueue : list entity := [].
Definition init_schinfo (p : Z) (group : bool) : entity := if group then EGroup p else EProc p.

Definition is_zombie (p : Z) : S_ bool :=
  acquire_sched_lock;; x ← get_proc p; release_sched_lock;;
  mret (bool_decide (state x = ZOMBIE)).
Definition is_unused (p : Z) : S_ bool :=
  acquire_sched_lock;; x ← get_proc p; release_sched_lock;;
  mret (bool_decide (state x = UNUSED)).

Definition activate_proc_ (p : Z) (onalert : bool) : S_ bool :=
  acquire_sched_lock;;
  x ← get_proc p;
  match state x with
  | RUNNING | RUNNABLE | ZOMBIE => release_sched_lock;; mret false
  | DEEPSLEEPING =>
      if onalert then release_sched_lock;; mret false
      else
        upd_proc p (set_state RUNNABLE);;
        insert_first (container_ x) (EProc p);;
        release_sched_lock;;
        mret true
  | SLEEPING | UNUSED =>
      upd_proc p (set_state RUNNABLE);;
      insert_first (container_ x) (EProc p);;
      release_sched_lock;;
      mret true
  end.

Definition activate_group (group : Z) : S_ unit :=
  acquire_sched_lock;;
  g ← get_cont group;
  insert_first (c_parent g) (EGroup group);;
  release_sched_lock.

(** ** Choosing the next process *)

(** the scan of a run queue; [sub] searches a group *)
Fixpoint scan_queue (sub : Z → S_ Z) (head : Z) (l : list entity) : S_ Z :=
  match l with
  | [] => mret 0
  | EGroup g :: l =>
      nxt ← sub g;
      if negb (nxt =? 0) then
        detach_entity (EGroup g);;
        insert_last head (EGroup g);;
        mret nxt
      else scan_queue sub head l
  | EProc p :: l =>
      x ← get_proc p;
      if decide (state x = RUNNABLE) then mret p else scan_queue sub head l
  end.

(** [find_proc(&head->schqueue.rq)]; the groups are a tree, [fuel] bounds its depth *)
Fixpoint find_proc (fuel : nat) (head : Z) : S_ Z :=
  match fuel with
  | O => nofuel
  | S fuel => c ← get_cont head; scan_queue (find_proc fuel) head (schqueue c)
  end.

Section cpu.
(** the CPU that runs, and [root_container] *)
Context (cpuid : nat) (root_container : Z).

Definition this_cpu : S_ cpu := getopt (λ s, cpus s !! cpuid).
Definition thisproc : S_ Z := c ← this_cpu; mret (thisproc_ c).

Definition update_this_state (new_state : procstate) : S_ unit :=
  c ← this_cpu;
  let this := thisproc_ c in
  x ← get_proc this;
  when (bool_decide (this ≠ idle_ c ∧ (state x = RUNNING ∨ state x = RUNNABLE)))
    (detach_entity (EProc this));;
  upd_proc this (set_state new_state);;
  when (bool_decide (this ≠ idle_ c ∧ (new_state = RUNNABLE ∨ new_state = RUNNING)))
    (insert_last (container_ x) (EProc this)).

Definition pick_next : S_ Z :=
  c ← this_cpu;
  panic ← gets panic_flag;
  if (panic : bool) then mret (idle_ c)
  else
    nxt ← ((λ s, find_proc (S (size (conts s))) root_container s) : S_ Z);
    if negb (nxt =? 0) then mret nxt else mret (idle_ c).

(** [sched_timer[cpuid].triggered] is cleared by [set_cpu_timer]; a pending timer is cancelled
    first *)
Definition update_this_proc (p : Z) : S_ unit :=
  modify (upd_cpus (alter (λ c, mkCpu p (idle_ c)) cpuid));;
  modify (upd_timers <[cpuid := false]>).

Definition simple_sched (new_state : procstate) : S_ unit :=
  this ← thisproc;
  x ← get_proc this;
  assert (bool_decide (state x = RUNNING));;
  if killed x && negb (bool_decide (new_state = ZOMBIE)) then release_sched_lock
  else
    update_this_state new_state;;
    next ← pick_next;
    update_this_proc next;;
    y ← get_proc next;
    assert (bool_decide (state y = RUNNABLE));;
    upd_proc next (set_state RUNNING);;
    release_sched_lock.

(** [yield()], and the handler of the scheduler's timer *)
Definition yield : S_ unit := acquire_sched_lock;; simple_sched RUNNABLE.
Definition sched_timer_handler : S_ unit := acquire_sched_lock;; simple_sched RUNNABLE.
End cpu.

(** ** Start of the scheduler *)

Definition init_rq : S_ unit :=
  init_spinlock rq_lock;; modify (upd_timers (λ _, replicate NCPU true)).

(** The idle process of a CPU, at the address [p] that [kalloc] gave. *)
Definition idle_proc (root_container : Z) (p : proc) : proc :=
  mkProc (killed p) true (pid p) (localpid p) (exitcode p) RUNNING (childexit p) (children p)
    (parent p) root_container (kstack p) (kcontext p) (ucontext p) (oftable p) (openfile p) (cwd p)
    (elr p) (entry p).
Definition init_sched (root_container : Z) (fresh : list (Z * proc)) : S_ unit :=
  modify (upd_cpus (λ _, []));;
  for_each fresh (λ '(p, x),
    modify (upd_procs <[p := idle_proc root_container x]>);;
    modify (upd_cpus (λ l, l ++ [mkCpu p p]))).
