(* ===== verification/SchedSpec.v ===== *)
(** * The scheduler lets every process of the root container run

    The invariant of run queues and CPUs, what [find_proc] returns and how it reorders the
    queues, and the bound on how long a runnable process waits while processes yield. *)

From Stdlib Require Import ZArith Lia.
From S2P Require Import Prelude Words Sync Sched.

Definition queue (s : kernel) (c : Z) : list entity :=
  match conts s !! c with Some x => schqueue x | None => [] end.
Definition in_state (s : kernel) (p : Z) (v : procstate) : Prop :=
  ∃ x, procs s !! p = Some x ∧ state x = v.

(** ** The shape of the run queues *)

(** [d] is the height of a container over the groups in its queue. *)
Record queues_ok (d : Z → nat) (s : kernel) : Prop := {
  qo_proc : ∀ c p, EProc p ∈ queue s c → p ≠ 0 ∧ ∃ x, procs s !! p = Some x ∧ container_ x = c;
  qo_group : ∀ c g, EGroup g ∈ queue s c →
    (d g < d c)%nat ∧ ∃ y, conts s !! g = Some y ∧ c_parent y = c;
  qo_nodup : ∀ c, NoDup (queue s c) }.

Lemma entity_once d s e c c' : queues_ok d s → e ∈ queue s c → e ∈ queue s c' → c = c'.
Proof.
  intros [Hp Hg _] H H'. destruct e as [p|g].
  - destruct (Hp c p H) as (_ & x & E & <-), (Hp c' p H') as (_ & x' & E' & <-). congruence.
  - destruct (Hg c g H) as (_ & x & E & <-), (Hg c' g H') as (_ & x' & E' & <-). congruence.
Qed.

(** [s'] is [s] with the queues permuted. *)
Record reorder (s s' : kernel) : Prop := {
  re_conts : s' = upd_conts (λ _, conts s') s;
  re_some : ∀ c x, conts s !! c = Some x →
    ∃ l, conts s' !! c = Some (set_schqueue l x) ∧ l ≡ₚ schqueue x;
  re_none : ∀ c, conts s !! c = None → conts s' !! c = None }.

Lemma reorder_refl s : reorder s s.
Proof.
  constructor; [by destruct s| |done]. intros c x E. exists (schqueue x). by destruct x.
Qed.

Lemma reorder_trans s1 s2 s3 : reorder s1 s2 → reorder s2 s3 → reorder s1 s3.
Proof.
  intros [C1 S1 N1] [C2 S2 N2]. constructor; [| |by auto].
  - rewrite C2, C1. done.
  - intros c x E. destruct (S1 c x E) as (l & E1 & P1). destruct (S2 c _ E1) as (l' & E2 & P2).
    exists l'. split; [done|]. by rewrite P2.
Qed.

Lemma reorder_queue s s' c : reorder s s' → queue s' c ≡ₚ queue s c.
Proof.
  intros [_ S N]. unfold queue. destruct (conts s !! c) as [x|] eqn:E.
  - destruct (S c x E) as (l & -> & P). done.
  - by rewrite (N c E).
Qed.

Lemma reorder_procs s s' : reorder s s' → procs s' = procs s.
Proof. intros [-> _ _]. done. Qed.
Lemma reorder_cpus s s' : reorder s s' → cpus s' = cpus s.
Proof. intros [-> _ _]. done. Qed.

Lemma reorder_ok d s s' : queues_ok d s → reorder s s' → queues_ok d s'.
Proof.
  intros [Hp Hg Hn] Hr. constructor.
  - intros c p. rewrite (reorder_queue s s' c Hr), (reorder_procs s s' Hr). apply Hp.
  - intros c g. rewrite (reorder_queue s s' c Hr). intros H. destruct (Hg c g H) as (Hd & y & E & Hc).
    split; [done|]. destruct (re_some _ _ Hr g y E) as (l & E' & _). exists (set_schqueue l y). done.
  - intros c. by rewrite (reorder_queue s s' c Hr).
Qed.

(** ** Moving an entry to the end of its queue *)

Lemma get_cont_run s c x : conts s !! c = Some x → get_cont c s = Ok (x, s).
Proof. intros E. unfold get_cont. by apply getopt_run. Qed.
Lemma get_proc_run s p x : procs s !! p = Some x → get_proc p s = Ok (x, s).
Proof. intros E. unfold get_proc. by apply getopt_run. Qed.
Lemma upd_cont_run s c x f :
  conts s !! c = Some x → upd_cont c f s = Ok (tt, upd_conts <[c := f x]> s).
Proof. intros E. unfold upd_cont. by rewrite (bind_Ok _ _ _ _ _ (get_cont_run s c x E)). Qed.
Lemma upd_proc_run s p x f :
  procs s !! p = Some x → upd_proc p f s = Ok (tt, upd_procs <[p := f x]> s).
Proof. intros E. unfold upd_proc. by rewrite (bind_Ok _ _ _ _ _ (get_proc_run s p x E)). Qed.

Definition to_end (e : entity) (l : list entity) : list entity := filter (λ e', e' ≠ e) l ++ [e].

(** taking [e] out of its queue [c] and putting it last *)
Lemma rotate_entry_run d s c x e :
  queues_ok d s → conts s !! c = Some x → e ∈ schqueue x →
  ∃ s', (detach_entity e;; insert_last c e) s = Ok (tt, s') ∧ reorder s s' ∧
    queue s' c = to_end e (queue s c) ∧ ∀ c', c' ≠ c → conts s' !! c' = conts s !! c'.
Proof.
  intros Hq Ec He. assert (queue s c = schqueue x) as Eq by (unfold queue; by rewrite Ec).
  pose proof (qo_nodup _ _ Hq c) as Hn. rewrite Eq in *.
  set (rm := λ y, set_schqueue (filter (λ e', e' ≠ e) (schqueue y)) y).
  set (s1 := upd_conts (fmap rm) s).
  assert (conts s1 !! c = Some (rm x)) as E1 by (simpl; rewrite lookup_fmap, Ec; done).
  set (x' := set_schqueue (schqueue (rm x) ++ [e]) (rm x)).
  set (s2 := upd_conts <[c := x']> s1).
  assert (Hoth : ∀ c', c' ≠ c → conts s2 !! c' = conts s !! c').
  { intros c' Hne. simpl. rewrite lookup_insert_ne, lookup_fmap by done.
    destruct (conts s !! c') as [y|] eqn:Ey; [|done]. simpl. f_equal. unfold rm.
    rewrite filter_all; [by destruct y|]. intros e' He' ->. apply Hne.
    apply (entity_once d s e); [done|unfold queue; by rewrite Ey|by rewrite Eq]. }
  exists s2. split; [|split; [|split; [|done]]].
  - unfold detach_entity. erewrite bind_Ok by apply modify_run.
    unfold insert_last. apply (upd_cont_run s1 c (rm x)). done.
  - constructor; [done| |].
    + intros c' y Ey. destruct (decide (c' = c)) as [->|Hne].
      * rewrite Ec in Ey. injection Ey as <-. exists (to_end e (schqueue x)).
        split; [simpl; by rewrite lookup_insert_eq|]. unfold to_end.
        clear -He Hn. apply list_elem_of_split in He as (l1 & l2 & E). rewrite E in *.
        rewrite filter_app, filter_cons_False by (intros H; by apply H).
        apply NoDup_app in Hn as (_ & H1 & Hn). apply NoDup_cons in Hn as [Hn _].
        rewrite !filter_all; [by rewrite <-app_assoc, (Permutation_app_comm l2 [e])| |];
          intros e' Hin ->; [done|apply (H1 e Hin); left].
      * exists (schqueue y). rewrite Hoth, Ey by done. by destruct y.
    + intros c' E. destruct (decide (c' = c)) as [->|Hne]; [congruence|]. by rewrite Hoth.
  - unfold queue, s2. simpl. by rewrite lookup_insert_eq.
Qed.

(** ** [find_proc] *)

(** [r] was found from the queue [l] of [c]: the first process that can run, or one in the
    first group that has one, which goes to the end. *)
Definition found_at (s s' : kernel) (c r : Z) (l : list entity) : Prop :=
  ∃ l1 e l2, l = l1 ++ e :: l2 ∧ (∀ p, EProc p ∈ l1 → ¬ in_state s p RUNNABLE) ∧
    (e = EProc r ∧ queue s' c = queue s c ∨
     ∃ g, e = EGroup g ∧ queue s' c = to_end e (queue s c)).

Record found (d : Z → nat) (s : kernel) (c r : Z) (l : list entity) (s' : kernel) : Prop := {
  fo_reorder : reorder s s';
  fo_frame : ∀ c', c' ≠ c → (d c ≤ d c')%nat → conts s' !! c' = conts s !! c';
  fo_result : (r = 0 ∧ s' = s ∧ ∀ p, EProc p ∈ l → ¬ in_state s p RUNNABLE) ∨
              (r ≠ 0 ∧ in_state s r RUNNABLE ∧ (∃ c', EProc r ∈ queue s c') ∧ found_at s s' c r l) }.

Lemma scan_queue_run d s c x (sub : Z → S_ Z) todo : ∀ done,
  queues_ok d s → conts s !! c = Some x → schqueue x = done ++ todo →
  (∀ p, EProc p ∈ done → ¬ in_state s p RUNNABLE) →
  (∀ g y, (d g < d c)%nat → conts s !! g = Some y →
     ∃ r s', sub g s = Ok (r, s') ∧ found d s g r (schqueue y) s') →
  ∃ r s', scan_queue sub c todo s = Ok (r, s') ∧ found d s c r (schqueue x) s'.
Proof.
  induction todo as [|e todo IH]; intros dn Hq Ec El Hd Hsub; simpl.
  { exists 0, s. split; [done|]. rewrite app_nil_r in El. subst dn.
    constructor; [apply reorder_refl|done|by left]. }
  assert (queue s c = schqueue x) as Eq by (unfold queue; by rewrite Ec).
  assert (e ∈ queue s c) as He by (rewrite Eq, El; set_solver).
  destruct e as [p|g].
  - destruct (qo_proc _ _ Hq c p He) as (Hp0 & y & Ey & _).
    rewrite (bind_Ok _ _ _ _ _ (get_proc_run s p y Ey)).
    destruct (decide (state y = RUNNABLE)) as [Hs|Hs].
    + exists p, s. split; [done|]. constructor; [apply reorder_refl|done|]. right.
      split; [done|]. split; [by exists y|]. split; [by exists c|].
      exists dn, (EProc p), todo. split; [done|]. split; [done|]. by left.
    + apply (IH (dn ++ [EProc p])); [done|done|by rewrite <-app_assoc| |done].
      intros p' [Hin|Hin]%elem_of_app; [by apply Hd|].
      apply list_elem_of_singleton in Hin as [= ->]. intros (y' & E' & H'). simplify_eq.
  - destruct (qo_group _ _ Hq c g He) as (Hdg & y & Ey & _).
    destruct (Hsub g y Hdg Ey) as (r & s1 & E1 & [Hr1 Hf1 Hres]).
    rewrite (bind_Ok _ _ _ _ _ E1).
    destruct Hres as [(-> & -> & _)|(Hr0 & Hrun & Hin & _)].
    + simpl. apply (IH (dn ++ [EGroup g])); [done|done|by rewrite <-app_assoc| |done].
      intros p' [Hin|Hin]%elem_of_app; [by apply Hd|].
      by apply list_elem_of_singleton in Hin.
    + rewrite (proj2 (Z.eqb_neq _ _) Hr0). simpl.
      assert (conts s1 !! c = Some x) as Ec1.
      { rewrite Hf1; [done| |lia]. intros ->. lia. }
      destruct (rotate_entry_run d s1 c x (EGroup g)) as (s2 & E2 & Hr2 & Hq2 & Hf2);
        [by eapply reorder_ok|done|rewrite El; set_solver|].
      exists r, s2. split.
      { rewrite <-bind_assoc. by rewrite (bind_Ok _ _ _ _ _ E2). }
      constructor; [by eapply reorder_trans| |].
      * intros c' Hne Hle. rewrite Hf2 by done. apply Hf1; [|lia]. intros ->. lia.
      * right. split; [done|]. split; [done|]. split; [done|].
        exists dn, (EGroup g), todo. split; [done|]. split; [done|]. right. exists g.
        split; [done|]. rewrite Hq2. unfold queue. by rewrite Ec1, Ec.
Qed.

Lemma find_proc_run d fuel : ∀ s c x,
  queues_ok d s → (d c < fuel)%nat → conts s !! c = Some x →
  ∃ r s', find_proc fuel c s = Ok (r, s') ∧ found d s c r (schqueue x) s'.
Proof.
  induction fuel as [|fuel IH]; intros s c x Hq Hd Ec; [lia|]. simpl.
  rewrite (bind_Ok _ _ _ _ _ (get_cont_run s c x Ec)).
  apply (scan_queue_run d s c x (find_proc fuel) (schqueue x) []); [done|done|done|set_solver|].
  intros g y Hg Ey. apply IH; [done|lia|done].
Qed.

(** ** The invariant of the scheduler *)

(** every CPU runs its idle process or one that is in a run queue *)
Record sched_inv (d : Z → nat) (root : Z) (s : kernel) : Prop := {
  sv_queues : queues_ok d s;
  sv_root : ∃ x, conts s !! root = Some x;
  sv_depth : (d root ≤ size (conts s))%nat;
  sv_this : ∀ i c, cpus s !! i = Some c → in_state s (thisproc_ c) RUNNING ∧
    (thisproc_ c = idle_ c ∨ ∃ q, EProc (thisproc_ c) ∈ queue s q);
  sv_idle : ∀ i c, cpus s !! i = Some c →
    (thisproc_ c = idle_ c ∨ in_state s (idle_ c) RUNNABLE) ∧ ∀ q, EProc (idle_ c) ∉ queue s q;
  sv_distinct : ∀ i j ci cj, cpus s !! i = Some ci → cpus s !! j = Some cj → i ≠ j →
    thisproc_ ci ≠ thisproc_ cj ∧ idle_ ci ≠ idle_ cj;
  sv_panic : panic_flag s = false;
  sv_alive : ∀ p x, procs s !! p = Some x → killed x = false }.

Lemma in_state_fun s p v v' : in_state s p v → in_state s p v' → v = v'.
Proof. intros (x & E & <-) (x' & E' & <-). congruence. Qed.

Lemma reorder_in_state s s' p v : reorder s s' → in_state s' p v ↔ in_state s p v.
Proof. intros H. unfold in_state. by rewrite (reorder_procs s s' H). Qed.

Lemma elem_of_reorder s s' e c : reorder s s' → e ∈ queue s' c ↔ e ∈ queue s c.
Proof. intros H. by rewrite (reorder_queue s s' c H). Qed.

(** The state of one process is changed. *)
Definition with_state (p : Z) (v : procstate) (x : proc) (s : kernel) : kernel :=
  upd_procs <[p := set_state v x]> s.

Lemma with_state_in p v x s q w :
  in_state (with_state p v x s) q w ↔ if decide (q = p) then v = w else in_state s q w.
Proof.
  unfold in_state, with_state. simpl. destruct (decide (q = p)) as [->|Hne].
  - rewrite lookup_insert_eq. split; [by intros (y & [= <-] & <-)|]. intros <-. by eexists.
  - by rewrite lookup_insert_ne.
Qed.

Lemma with_state_ok d p v x s : procs s !! p = Some x → queues_ok d s → queues_ok d (with_state p v x s).
Proof.
  intros Ex [Hp Hg Hn]. constructor; [|done|done]. intros c q Hq. destruct (Hp c q Hq) as (H0 & y & Ey & Hc).
  split; [done|]. unfold with_state. simpl. destruct (decide (q = p)) as [->|Hne].
  - rewrite lookup_insert_eq. eexists. split; [done|]. simplify_eq. done.
  - rewrite lookup_insert_ne by done. by exists y.
Qed.

Lemma insert_last_frame c e p y s s' :
  insert_last c e s = Ok (tt, s') →
  insert_last c e (upd_procs <[p := y]> s) = Ok (tt, upd_procs <[p := y]> s').
Proof.
  unfold insert_last, upd_cont, get_cont, getopt. mred. simpl.
  destruct (conts s !! c) as [x|]; [|done]. by intros [= <-].
Qed.

(** *** [update_this_state(RUNNABLE)] *)

Lemma update_this_state_run d root s i c x :
  sched_inv d root s → cpus s !! i = Some c → procs s !! thisproc_ c = Some x →
  ∃ s1, update_this_state i RUNNABLE s = Ok (tt, with_state (thisproc_ c) RUNNABLE x s1) ∧
    reorder s s1 ∧
    ∀ q, queue s1 q = if decide (EProc (thisproc_ c) ∈ queue s q)
      then to_end (EProc (thisproc_ c)) (queue s q) else queue s q.
Proof.
  intros Hs Ec Ex. destruct (sv_this _ _ _ Hs i c Ec) as [(x' & Ex' & Hrun) Hwhere].
  rewrite Ex in Ex'. injection Ex' as <-.
  destruct (sv_idle _ _ _ Hs i c Ec) as [_ Hidle].
  unfold update_this_state, this_cpu.
  erewrite bind_Ok by (apply getopt_run; exact Ec). rewrite (bind_Ok _ _ _ _ _ (get_proc_run s _ x Ex)).
  destruct (decide (thisproc_ c = idle_ c)) as [Hid|Hid].
  - rewrite !bool_decide_false by tauto. erewrite bind_Ok by apply when_false_run.
    erewrite bind_Ok by (apply upd_proc_run; exact Ex). exists s. split; [done|].
    split; [apply reorder_refl|]. intros q. rewrite decide_False; [done|]. rewrite Hid. apply Hidle.
  - destruct Hwhere as [|(q & Hq)]; [done|].
    rewrite !bool_decide_true by (split; [done|tauto]). unfold when.
    destruct (qo_proc _ _ (sv_queues _ _ _ Hs) q _ Hq) as (_ & x' & Ex' & Hcq). rewrite Ex in Ex'.
    injection Ex' as <-.
    assert (∃ y, conts s !! q = Some y ∧ EProc (thisproc_ c) ∈ schqueue y) as (y & Ey & Hy).
    { unfold queue in Hq. destruct (conts s !! q) as [y|]; [by exists y|]. by apply not_elem_of_nil in Hq. }
    destruct (rotate_entry_run d s q y _ (sv_queues _ _ _ Hs) Ey Hy) as (s1 & E1 & Hr & Hq1 & Hf).
    exists s1. split; [|split; [done|]].
    + unfold detach_entity in E1 |- *. erewrite bind_Ok in E1 by apply modify_run.
      erewrite bind_Ok by apply modify_run.
      erewrite bind_Ok by (apply upd_proc_run; exact Ex). rewrite Hcq. by apply insert_last_frame.
    + intros q'. destruct (decide (q' = q)) as [->|Hne]; [by rewrite decide_True|].
      rewrite decide_False.
      * unfold queue. by rewrite Hf.
      * intros Hin. apply Hne. by eapply entity_once; [apply Hs|done|done].
Qed.

(** *** [yield] *)

(** the root queue once the process that yields is at its end *)
Definition requeued (s : kernel) (this root : Z) : list entity :=
  if decide (EProc this ∈ queue s root) then to_end (EProc this) (queue s root) else queue s root.

Definition runnable_after (s : kernel) (this p : Z) : Prop := p = this ∨ in_state s p RUNNABLE.

Record yielded (d : Z → nat) (root : Z) (i : nat) (c : cpu) (s s' : kernel) (nxt : Z) : Prop := {
  yi_inv : sched_inv d root s';
  yi_unlocked : rqlock s' = false;
  yi_cpus : cpus s' = <[i := mkCpu nxt (idle_ c)]> (cpus s);
  yi_state : ∀ p v, in_state s' p v ↔
    if decide (p = nxt) then v = RUNNING
    else if decide (p = thisproc_ c) then v = RUNNABLE else in_state s p v;
  yi_next : runnable_after s (thisproc_ c) nxt;
  yi_queue : (∀ p, EProc p ∈ queue s root → ¬ runnable_after s (thisproc_ c) p) ∨
    ∃ l1 e l2, requeued s (thisproc_ c) root = l1 ++ e :: l2 ∧
      (∀ p, EProc p ∈ l1 → ¬ runnable_after s (thisproc_ c) p) ∧
      (e = EProc nxt ∧ queue s' root = l1 ++ e :: l2 ∨
       ∃ g, e = EGroup g ∧ queue s' root = to_end e (l1 ++ e :: l2)) }.

Lemma reorder_dom s s' : reorder s s' → size (conts s') = size (conts s) ∧
  ∀ c x, conts s !! c = Some x → ∃ y, conts s' !! c = Some y.
Proof.
  intros [_ Hsome Hnone]. split.
  - rewrite <-!(size_dom (D:=gset Z)). f_equal. apply leibniz_equiv, set_equiv. intros c.
    rewrite !elem_of_dom. split.
    + intros [y Ey]. destruct (conts s !! c) eqn:E; [by eexists|].
      rewrite (Hnone c E) in Ey. done.
    + intros [y Ey]. destruct (Hsome c y Ey) as (l & -> & _). by eexists.
  - intros c x E. destruct (Hsome c x E) as (l & E' & _). by eexists.
Qed.

(** the states of the processes after a switch *)
Lemma switched_states s s1 s2 this x y nxt p v : reorder s s1 → reorder (with_state this RUNNABLE x s1) s2 →
  in_state (with_state nxt RUNNING y s2) p v ↔
    if decide (p = nxt) then v = RUNNING else if decide (p = this) then v = RUNNABLE else in_state s p v.
Proof.
  intros Hr1 Hr2. rewrite with_state_in. case_decide; [split; by intros|].
  rewrite (reorder_in_state _ s2 p v Hr2), with_state_in. case_decide; [split; by intros|by apply reorder_in_state].
Qed.

(** the other processors have nothing to do with the two processes *)
Lemma switched_others d root i c s nxt j cj : sched_inv d root s → cpus s !! i = Some c →
  (nxt = thisproc_ c ∨ in_state s nxt RUNNABLE) → (nxt = idle_ c ∨ ∃ q, EProc nxt ∈ queue s q) →
  cpus s !! j = Some cj → j ≠ i →
  thisproc_ cj ≠ thisproc_ c ∧ thisproc_ cj ≠ nxt ∧ idle_ cj ≠ thisproc_ c ∧ idle_ cj ≠ nxt.
Proof.
  intros Hs Ec Hnxt Hwhere Ej Hji. destruct (sv_distinct _ _ _ Hs j i cj c Ej Ec Hji) as [D1 D2].
  destruct (sv_this _ _ _ Hs j cj Ej) as [Hrun _]. destruct (sv_this _ _ _ Hs i c Ec) as [_ Hti].
  destruct (sv_idle _ _ _ Hs j cj Ej) as [_ Hidj].
  split; [done|]. split; [|split].
  - intros <-. destruct Hnxt as [Hnxt|Hnxt]; [done|]. by pose proof (in_state_fun _ _ _ _ Hrun Hnxt).
  - intros E. destruct Hti as [Hti|(q & Hti)]; [congruence|]. apply (Hidj q). by rewrite E.
  - intros E. destruct Hwhere as [Hw|(q & Hw)]; [congruence|]. apply (Hidj q). by rewrite E.
Qed.

(** The invariant once the CPU has switched to [nxt]. *)
Lemma switched_inv d root i c s s1 s2 x y nxt :
  sched_inv d root s → cpus s !! i = Some c → procs s !! thisproc_ c = Some x →
  reorder s s1 → reorder (with_state (thisproc_ c) RUNNABLE x s1) s2 →
  procs s2 !! nxt = Some y → state y = RUNNABLE →
  (nxt = idle_ c ∨ ∃ q, EProc nxt ∈ queue s q) →
  sched_inv d root (with_state nxt RUNNING y (upd_timers <[i := false]>
    (upd_cpus (alter (λ c, mkCpu nxt (idle_ c)) i) s2))) ∧
  (∀ p v, in_state (with_state nxt RUNNING y s2) p v ↔
    if decide (p = nxt) then v = RUNNING
    else if decide (p = thisproc_ c) then v = RUNNABLE else in_state s p v).
Proof.
  intros Hs Ec Ex Hr1 Hr2 Ey Hy Hwhere.
  set (this := thisproc_ c) in *. set (S1 := with_state this RUNNABLE x s1) in *.
  assert (Hst : ∀ p v, in_state (with_state nxt RUNNING y s2) p v ↔
    if decide (p = nxt) then v = RUNNING
    else if decide (p = this) then v = RUNNABLE else in_state s p v) by (intros p v; by apply (switched_states s s1 s2 this x)).
  assert (Hq : ∀ e q, e ∈ queue s2 q ↔ e ∈ queue s q).
  { intros e q. rewrite (elem_of_reorder S1 s2) by done. apply (elem_of_reorder s s1 e q Hr1). }
  assert (Hnxt : nxt = this ∨ in_state s nxt RUNNABLE).
  { assert (in_state s2 nxt RUNNABLE) as Hn by by exists y. rewrite (reorder_in_state S1 s2) in Hn by done.
    apply with_state_in in Hn. case_decide; [by left|right]. by rewrite <-(reorder_in_state s s1). }
  assert (Ex1 : procs s1 !! this = Some x) by (by rewrite (reorder_procs s s1 Hr1)).
  assert (Hcpu : cpus s2 = cpus s) by (rewrite (reorder_cpus _ _ Hr2); apply (reorder_cpus _ _ Hr1)).
  pose proof (λ j cj, switched_others d root i c s nxt j cj Hs Ec Hnxt Hwhere) as Hoth. fold this in Hoth.
  split; [|exact Hst].
  set (F := with_state nxt RUNNING y (upd_timers <[i := false]>
    (upd_cpus (alter (λ c, mkCpu nxt (idle_ c)) i) s2))).
  assert (HstF : ∀ p v, in_state F p v ↔ if decide (p = nxt) then v = RUNNING
    else if decide (p = this) then v = RUNNABLE else in_state s p v) by exact Hst.
  assert (HqF : ∀ e q, e ∈ queue F q ↔ e ∈ queue s q) by exact Hq.
  assert (HcF : cpus F = alter (λ c, mkCpu nxt (idle_ c)) i (cpus s)) by (rewrite <-Hcpu; done).
  destruct (reorder_dom _ _ Hr1) as [Hz1 Hd1]. destruct (reorder_dom _ _ Hr2) as [Hz2 Hd2].
  constructor.
  - assert (queues_ok d (with_state nxt RUNNING y s2)) as [Q1 Q2 Q3]; [|by constructor].
    apply with_state_ok; [done|]. apply (reorder_ok d S1); [|done].
    apply with_state_ok; [done|]. by apply (reorder_ok d s); [apply Hs|].
  - destruct (sv_root _ _ _ Hs) as [r Hr]. destruct (Hd1 _ _ Hr) as [r1 Er1].
    by apply (Hd2 root r1).
  - change (conts F) with (conts s2). rewrite Hz2. change (conts S1) with (conts s1). rewrite Hz1. apply Hs.
  - intros j cj. rewrite HcF. intros Ej. setoid_rewrite HstF. setoid_rewrite HqF.
    destruct (decide (j = i)) as [->|Hji].
    + rewrite list_lookup_alter_eq, Ec in Ej. injection Ej as <-. simpl.
      rewrite decide_True by done. done.
    + rewrite list_lookup_alter_ne in Ej by done. destruct (Hoth j cj Ej Hji) as (H1 & H2 & _).
      rewrite !decide_False by done. by apply (sv_this _ _ _ Hs j cj).
  - intros j cj. rewrite HcF. intros Ej. setoid_rewrite HstF. setoid_rewrite HqF.
    destruct (decide (j = i)) as [->|Hji].
    + rewrite list_lookup_alter_eq, Ec in Ej. injection Ej as <-. simpl.
      destruct (sv_idle _ _ _ Hs i c Ec) as [H1 H2]. split; [|done].
      destruct (decide (nxt = idle_ c)) as [|Hne]; [by left|right].
      rewrite decide_False by done. case_decide as Ht; [done|].
      destruct H1 as [H1|H1]; [|done]. by destruct Ht.
    + rewrite list_lookup_alter_ne in Ej by done. destruct (Hoth j cj Ej Hji) as (_ & _ & H1 & H2).
      rewrite !decide_False by done. by apply (sv_idle _ _ _ Hs j cj).
  - intros j k cj ck. rewrite HcF. intros Ej Ek Hjk.
    assert (∀ j k cj ck, cpus s !! j = Some cj → cpus s !! k = Some ck → j ≠ k → j = i →
      nxt ≠ thisproc_ ck ∧ idle_ c ≠ idle_ ck) as Hx.
    { clear j k cj ck Ej Ek Hjk. intros j k cj ck Ej Ek Hjk ->.
      destruct (Hoth k ck Ek ltac:(done)) as (_ & H1 & _).
      split; [done|]. apply (sv_distinct _ _ _ Hs i k c ck Ec Ek Hjk). }
    destruct (decide (j = i)) as [->|Hji], (decide (k = i)) as [->|Hki]; [done|..].
    + rewrite list_lookup_alter_eq in Ej. rewrite list_lookup_alter_ne in Ek by done. rewrite Ec in Ej. injection Ej as <-. simpl. by apply (Hx i k c ck).
    + rewrite list_lookup_alter_eq in Ek. rewrite list_lookup_alter_ne in Ej by done. rewrite Ec in Ek. injection Ek as <-. simpl. destruct (Hx i j c cj Ec Ej) as [H1 H2]; done.
    + rewrite list_lookup_alter_ne in Ej, Ek by done. by apply (sv_distinct _ _ _ Hs j k).
  - change (panic_flag F) with (panic_flag s2). rewrite (re_conts _ _ Hr2). simpl.
    rewrite (re_conts _ _ Hr1). apply Hs.
  - intros p z. unfold F, with_state. simpl. rewrite lookup_insert_Some. rewrite (reorder_procs _ _ Hr2). intros [[<- <-]|[Hne E]].
    + simpl. rewrite (reorder_procs _ _ Hr2) in Ey. unfold S1, with_state in Ey. simpl in Ey.
      rewrite lookup_insert_Some in Ey. destruct Ey as [[<- <-]|[_ Ey]].
      * by apply (sv_alive _ _ _ Hs this x).
      * rewrite (reorder_procs _ _ Hr1) in Ey. by apply (sv_alive _ _ _ Hs nxt y).
    + unfold S1, with_state in E. simpl in E. rewrite lookup_insert_Some in E.
      destruct E as [[<- <-]|[_ E]]; [by apply (sv_alive _ _ _ Hs this x)|].
      rewrite (reorder_procs _ _ Hr1) in E. by apply (sv_alive _ _ _ Hs p z).
Qed.

Lemma sched_inv_lock d root b s : sched_inv d root s → sched_inv d root (set_rqlock b s).
Proof. intros [[Q1 Q2 Q3] H2 H3 H4 H5 H6 H7 H8]. constructor; [by constructor|done..]. Qed.

(** what [pick_next] returns *)
Lemma pick_next_run d root i c s r :
  queues_ok d s → conts s !! root = Some r → (d root ≤ size (conts s))%nat →
  cpus s !! i = Some c → panic_flag s = false → in_state s (idle_ c) RUNNABLE ∨ 
    (∃ p, EProc p ∈ schqueue r ∧ in_state s p RUNNABLE) →
  ∃ nxt s', pick_next i root s = Ok (nxt, s') ∧ reorder s s' ∧ in_state s nxt RUNNABLE ∧
    ((nxt = idle_ c ∧ s' = s ∧ ∀ p, EProc p ∈ schqueue r → ¬ in_state s p RUNNABLE) ∨
     (∃ q, EProc nxt ∈ queue s q) ∧ found_at s s' root nxt (schqueue r)).
Proof.
  intros Hq Er Hd Ec Hp Hsome.
  destruct (find_proc_run d (S (size (conts s))) s root r Hq ltac:(lia) Er) as (nxt & s' & E & [Hr Hf Hres]).
  assert (pick_next i root s = Ok (if negb (nxt =? 0) then nxt else idle_ c, s')) as Erun.
  { unfold pick_next, this_cpu. erewrite bind_Ok by (apply getopt_run; exact Ec).
    erewrite bind_Ok by apply gets_run. rewrite Hp. erewrite bind_Ok by exact E.
    by destruct (negb (nxt =? 0)). }
  destruct Hres as [(-> & -> & Hnone)|(Hn0 & Hrun & Hin & Hat)].
  - exists (idle_ c), s. split; [by rewrite Erun|]. split; [done|].
    split; [|by left]. destruct Hsome as [|(p & Hp' & Hr')]; [done|]. by destruct (Hnone p Hp').
  - exists nxt, s'. rewrite Erun, (proj2 (Z.eqb_neq _ _) Hn0). split; [done|]. split; [done|].
    split; [done|]. by right.
Qed.

Lemma yield_run d root i c s :
  sched_inv d root s → rqlock s = false → cpus s !! i = Some c →
  ∃ s' nxt, yield i root s = Ok (tt, s') ∧ yielded d root i c s s' nxt.
Proof.
  intros Hs Hlock Ec. set (sl := set_rqlock true s).
  assert (sched_inv d root sl) as Hsl by (by apply sched_inv_lock).
  set (this := thisproc_ c).
  destruct (sv_this _ _ _ Hsl i c Ec) as [(x & Ex & Hx) _].
  destruct (update_this_state_run d root sl i c x Hsl Ec Ex) as (s1 & E1 & Hr1 & Hq1).
  set (S1 := with_state this RUNNABLE x s1) in *.
  assert (procs s1 !! this = Some x) as Ex1 by (by rewrite (reorder_procs _ _ Hr1)).
  assert (queues_ok d S1) as HQ1
    by (apply with_state_ok; [done|]; by apply (reorder_ok d sl); [apply Hsl|]).
  destruct (sv_root _ _ _ Hsl) as [r0 Er0]. destruct (reorder_dom _ _ Hr1) as [Hz1 Hd1].
  destruct (Hd1 _ _ Er0) as [r Er].
  assert (Hst1 : ∀ p, in_state S1 p RUNNABLE ↔ runnable_after s this p).
  { intros p. unfold S1, runnable_after. rewrite with_state_in. case_decide as Hp; [tauto|].
    rewrite (reorder_in_state sl s1) by done. split; [by right|]. by intros [|]. }
  assert (queue S1 root = schqueue r) as Hqr by (change (queue s1 root = schqueue r); unfold queue; by rewrite Er).
  assert (schqueue r = requeued s this root) as Hreq by (rewrite <-Hqr; apply Hq1).
  destruct (sv_idle _ _ _ Hsl i c Ec) as [Hidle Hidq].
  destruct (pick_next_run d root i c S1 r) as (nxt & s2 & E2 & Hr2 & Hrun & Hwhere).
  { done. } { done. } { change (conts S1) with (conts s1). rewrite Hz1. apply Hsl. }
  { change (cpus s1 !! i = Some c). by rewrite (reorder_cpus _ _ Hr1). }
  { change (panic_flag s1 = false). rewrite (re_conts _ _ Hr1). apply Hsl. }
  { left. apply Hst1. destruct Hidle as [Hid|Hid]; [by left|by right]. }
  assert (∃ y, procs s2 !! nxt = Some y ∧ state y = RUNNABLE) as (y & Ey & Hy).
  { rewrite (reorder_procs _ _ Hr2). exact Hrun. }
  assert (Hwh : nxt = idle_ c ∨ ∃ q, EProc nxt ∈ queue sl q).
  { destruct Hwhere as [(-> & _)|[(q & Hq) _]]; [by left|right]. exists q.
    by apply (elem_of_reorder sl s1 _ q Hr1). }
  destruct (switched_inv d root i c sl s1 s2 x y nxt Hsl Ec Ex Hr1 Hr2 Ey Hy Hwh) as [Hinv Hst].
  set (F := with_state nxt RUNNING y (upd_timers <[i := false]>
    (upd_cpus (alter (λ c, mkCpu nxt (idle_ c)) i) s2))) in *.
  exists (set_rqlock false F), nxt. split.
  - unfold yield, acquire_sched_lock. erewrite bind_Ok by (apply acquire_spinlock_run; exact Hlock).
    change (set_locked rq_lock true s) with sl. unfold simple_sched, thisproc, this_cpu.
    rewrite bind_assoc. erewrite bind_Ok by (apply getopt_run; exact Ec).
    erewrite bind_Ok by apply mret_run. rewrite (bind_Ok _ _ _ _ _ (get_proc_run sl _ x Ex)).
    erewrite bind_Ok by (apply assert_run; by apply bool_decide_true).
    rewrite (sv_alive _ _ _ Hsl _ x Ex). cbn [andb].
    rewrite (bind_Ok _ _ _ _ _ E1), (bind_Ok _ _ _ _ _ E2).
    unfold update_this_proc. rewrite bind_assoc.
    erewrite bind_Ok by apply modify_run. erewrite bind_Ok by apply modify_run.
    erewrite bind_Ok by (apply get_proc_run; exact Ey).
    erewrite bind_Ok by (apply assert_run; by apply bool_decide_true).
    erewrite bind_Ok by (apply upd_proc_run; exact Ey). reflexivity.
  - constructor.
    + by apply sched_inv_lock.
    + done.
    + change (alter (λ c, mkCpu nxt (idle_ c)) i (cpus s2) = <[i := mkCpu nxt (idle_ c)]> (cpus s)).
      rewrite (reorder_cpus _ _ Hr2). change (cpus S1) with (cpus s1). rewrite (reorder_cpus _ _ Hr1).
      change (cpus sl) with (cpus s). apply list_eq. intros j. destruct (decide (j = i)) as [->|Hne].
      * rewrite list_lookup_alter_eq, Ec, list_lookup_insert_eq by (by eapply lookup_lt_Some). done.
      * by rewrite list_lookup_alter_ne, list_lookup_insert_ne.
    + exact Hst.
    + by apply Hst1.
    + destruct Hwhere as [(_ & _ & Hnone)|[_ (l1 & e & l2 & El & Hl1 & He)]]; [left|right].
      * intros p Hp Hr. apply (Hnone p); [|by apply Hst1]. rewrite <-Hqr.
        by apply (elem_of_reorder sl s1 _ root Hr1).
      * exists l1, e, l2. split; [etrans; [symmetry; exact Hreq|exact El]|].
        split; [intros p Hp Hr; apply (Hl1 p Hp); by apply Hst1|].
        change (queue (set_rqlock false F) root) with (queue s2 root).
        rewrite Hqr in He. rewrite <-El. exact He.
Qed.

(** ** How long a process waits *)

Definition running (s : kernel) (e : entity) : bool :=
  match e with
  | EProc p => match procs s !! p with Some x => bool_decide (state x = RUNNING) | None => false end
  | EGroup _ => false
  end.

(** the entries of [l] that may be chosen before what comes after [l] *)
Definition waiting (s : kernel) (l : list entity) : nat :=
  length (filter (λ e, running s e = false) l).

Lemma running_true s p : running s (EProc p) = true ↔ in_state s p RUNNING.
Proof.
  unfold running, in_state. destruct (procs s !! p) as [x|].
  - rewrite bool_decide_eq_true. split; [by exists x|]. by intros (y & [= <-] & H).
  - split; [done|]. by intros (y & ? & _).
Qed.

Lemma filter_length_lt {A} (P Q : A → Prop) `{∀ x, Decision (P x), ∀ x, Decision (Q x)} l e :
  (∀ x, x ∈ l → Q x → P x) → e ∈ l → P e → ¬ Q e → (length (filter Q l) < length (filter P l))%nat.
Proof.
  induction l as [|a l IH]; intros Hi He HP HQ; [by apply not_elem_of_nil in He|].
  assert (length (filter Q l) ≤ length (filter P l))%nat as Hle.
  { clear -Hi. assert (∀ x, x ∈ l → Q x → P x) as Hi' by set_solver. clear Hi.
    induction l as [|b l IH]; [done|]. specialize (IH ltac:(set_solver)).
    destruct (decide (Q b)) as [Hq|Hq].
    - rewrite !filter_cons_True; [simpl; lia|apply Hi'; [left|done]|done].
    - rewrite (filter_cons_False Q) by done. destruct (decide (P b));
        [rewrite filter_cons_True by done|rewrite filter_cons_False by done]; simpl; lia. }
  apply elem_of_cons in He as [->|He].
  - rewrite (filter_cons_False Q), (filter_cons_True P) by done. simpl. lia.
  - specialize (IH ltac:(set_solver) He HP HQ). destruct (decide (Q a)) as [Hq|Hq].
    + rewrite !filter_cons_True; [simpl; lia|apply Hi; [left|done]|done].
    + rewrite (filter_cons_False Q) by done. destruct (decide (P a));
        [rewrite filter_cons_True by done|rewrite filter_cons_False by done]; simpl; lia.
Qed.

Lemma split_before {A} (p e : A) m1 m2 k1 k2 :
  p ∉ k1 → m1 ++ p :: m2 = k1 ++ e :: k2 →
  (m1 = k1 ∧ e = p) ∨ (∃ k3, m1 = k1 ++ e :: k3 ∧ k2 = k3 ++ p :: m2).
Proof.
  revert m1. induction k1 as [|a k1 IH]; intros m1 Hp E.
  - destruct m1 as [|b m1]; simpl in E; injection E as -> <-; [by left|right]. by exists m1.
  - destruct m1 as [|b m1]; simpl in E; injection E as -> E.
    + destruct Hp. left.
    + destruct (IH m1) as [[-> ->]|(k3 & -> & ->)]; [set_solver|done|by left|right]. by exists k3.
Qed.

Lemma to_end_split e e' l1 l2 :
  e' ≠ e → to_end e (l1 ++ e' :: l2) = filter (λ x, x ≠ e) l1 ++ e' :: (filter (λ x, x ≠ e) l2 ++ [e]).
Proof.
  intros Hne. unfold to_end. rewrite filter_app, filter_cons_True by done.
  by rewrite <-app_assoc.
Qed.

(** One [yield] runs [p], or brings it nearer to the front. *)
Lemma yield_progress d root i s p l1 l2 :
  sched_inv d root s → rqlock s = false → (i < length (cpus s))%nat →
  queue s root = l1 ++ EProc p :: l2 → in_state s p RUNNABLE →
  ∃ s', yield i root s = Ok (tt, s') ∧ sched_inv d root s' ∧ rqlock s' = false ∧
    length (cpus s') = length (cpus s) ∧
    (in_state s' p RUNNING ∨
     in_state s' p RUNNABLE ∧ ∃ l1' l2', queue s' root = l1' ++ EProc p :: l2' ∧
       (waiting s' l1' < waiting s l1)%nat).
Proof.
  intros Hs Hlock Hi Hq Hp. destruct (lookup_lt_is_Some_2 (cpus s) i Hi) as [c Ec].
  destruct (yield_run d root i c s Hs Hlock Ec) as (s' & nxt & E & [Hinv Hul Hcpu Hst Hnext Hyq]).
  exists s'. split; [done|]. split; [done|]. split; [done|].
  split; [rewrite Hcpu; apply length_insert|].
  set (this := thisproc_ c) in *. destruct (sv_this _ _ _ Hs i c Ec) as [Hrun _]. fold this in Hrun.
  assert (p ≠ this) as Hpt by (intros ->; by pose proof (in_state_fun _ _ _ _ Hp Hrun)).
  destruct (decide (p = nxt)) as [->|Hpn].
  { left. apply Hst. by rewrite decide_True. }
  right. assert (in_state s' p RUNNABLE) as Hp' by (apply Hst; by rewrite !decide_False).
  split; [done|].
  pose proof (qo_nodup _ _ (sv_queues _ _ _ Hs) root) as Hnd. rewrite Hq in Hnd.
  assert (EProc p ∉ l1) as Hpl1.
  { apply NoDup_app in Hnd as (_ & H1 & _). intros Hin. apply (H1 _ Hin). left. }
  assert (∃ m2, requeued s this root = filter (λ x, x ≠ EProc this) l1 ++ EProc p :: m2) as (m2 & Hrq).
  { unfold requeued. rewrite Hq. case_decide as Hin.
    - eexists. apply to_end_split. congruence.
    - exists l2. rewrite filter_all; [done|]. intros e He ->. apply Hin. set_solver. }
  destruct Hyq as [Hnone|(k1 & e & k2 & Ek & Hk1 & He)].
  { destruct (Hnone p); [rewrite Hq; set_solver|by right]. }
  rewrite Ek in Hrq. symmetry in Hrq.
  assert (EProc p ∉ k1) as Hpk by (intros Hin; apply (Hk1 p Hin); by right).
  assert (Hkeep : ∀ x, x ∈ l1 → x ≠ EProc this → running s' x = false → running s x = false).
  { intros [q|g] Hx Hne Hr; [|done]. apply not_true_iff_false. intros Hr'. apply not_true_iff_false in Hr.
    apply Hr. apply running_true in Hr'. apply running_true, Hst. case_decide; [done|].
    rewrite decide_False by congruence. done. }
  destruct (split_before _ _ _ _ _ _ Hpk Hrq) as [[_ ->]|(k3 & Hk & ->)].
  { by destruct He as [[[= ->] _]|(g & E' & _)]. }
  assert (e ∈ l1 ∧ e ≠ EProc this) as [Hel1 Het].
  { assert (e ∈ filter (λ x, x ≠ EProc this) l1) as H by (rewrite Hk; set_solver).
    apply list_elem_of_filter in H. tauto. }
  rewrite <-Hrq in He. destruct He as [[-> He]|(g & -> & He)].
  - eexists _, _. split; [exact He|]. unfold waiting. rewrite list_filter_filter.
    apply (filter_length_lt _ _ l1 (EProc nxt)); [intros x Hx [H1 H2]; by apply Hkeep|done| |].
    + apply not_true_iff_false. intros Hr. apply running_true in Hr.
      destruct Hnext as [->|Hn]; [done|]. by pose proof (in_state_fun _ _ _ _ Hr Hn).
    + intros [Hr _]. apply not_true_iff_false in Hr. apply Hr, running_true, Hst. by rewrite decide_True.
  - rewrite to_end_split in He by done. eexists _, _. split; [exact He|].
    unfold waiting. rewrite !list_filter_filter.
    apply (filter_length_lt _ _ l1 (EGroup g)); [intros x Hx [[H1 H2] H3]; by apply Hkeep|done|done|].
    intros [[_ H] _]. done.
Qed.

(** ** No process starves while the others yield *)

(** the CPUs [l] yield one after the other *)
Definition yields (root : Z) (l : list nat) : S_ unit := for_each l (λ i, yield i root).


(** ** A concrete system: two CPUs, process 11 on the first one, 12 and 13 wait, the second idle *)

Definition plain_proc (st : procstate) : proc :=
  mkProc false false 0 0 0 st (mkSem 0 []) [] 0 1 0 0 0 0 [] 0 0 (0, 0).
Definition two_cpus : kernel :=
  mkKernel false false (mkPids 3 [])
    {[21 := plain_proc RUNNABLE; 22 := plain_proc RUNNING; 11 := plain_proc RUNNING;
      12 := plain_proc RUNNABLE; 13 := plain_proc RUNNABLE]}
    {[1 := mkCont 0 11 [EProc 12; EProc 11; EProc 13] (mkPids 3 [])]}
    [mkCpu 11 21; mkCpu 22 22] false [false; false].

Lemma two_cpus_inv : sched_inv (λ _, 0%nat) 1 two_cpus.
Proof.
  assert (Hq : ∀ q e, e ∈ queue two_cpus q → q = 1 ∧ e ∈ [EProc 12; EProc 11; EProc 13]).
  { intros q e. unfold queue, two_cpus. simpl. destruct (decide (q = 1)) as [->|Hne].
    - rewrite lookup_singleton_eq. done.
    - rewrite lookup_singleton_ne by done. by intros ?%not_elem_of_nil. }
  assert (Hc : ∀ i c, cpus two_cpus !! i = Some c → (i = 0%nat ∧ c = mkCpu 11 21) ∨ (i = 1%nat ∧ c = mkCpu 22 22)).
  { intros [|[|i]] c E; simpl in E; [left|right|done]; by injection E as <-. }
  constructor.
  - constructor.
    + intros c p [-> Hp]%Hq. set_unfold in Hp.
      destruct Hp as [[= ->]|[[= ->]|[[= ->]|[]]]]; (split; [done|]); eexists; split; reflexivity.
    + intros c g [-> Hg]%Hq. set_unfold in Hg. naive_solver.
    + intros c. unfold queue, two_cpus. simpl. destruct (decide (c = 1)) as [->|Hne].
      * rewrite lookup_singleton_eq. by_decision.
      * rewrite lookup_singleton_ne by done. apply NoDup_nil_2.
  - eexists. apply lookup_singleton_eq.
  - lia.
  - intros i c [[-> ->]|[-> ->]]%Hc; (split; [eexists; split; reflexivity|]); [right|by left].
    exists 1. by_decision.
  - intros i c [[-> ->]|[-> ->]]%Hc; (split; [|intros q [_ Hx]%Hq; set_unfold in Hx; naive_solver]);
      [right|by left]. eexists; split; reflexivity.
  - intros i j ci cj [[-> ->]|[-> ->]]%Hc [[-> ->]|[-> ->]]%Hc; done.
  - done.
  - assert (map_Forall (λ _ x, killed x = false) (procs two_cpus)) as H by by_decision.
    exact H.
Qed.

