(* ===== verification/Proc.v ===== *)
(** * [kernel/proc.c], [kernel/container.c]: processes

    The life of processes: pids, the process tree, fork, exit, wait and kill, and containers.
    What these functions call in other parts of the kernel is the interface [proc_env] over a
    state of its own. *)

From Stdlib Require Import ZArith Lia.
From S2P Require Import Prelude Words Sync Mmu Sched.

(** ** Pids *)

Definition set_max (v : Z) (m : PIDManager) : PIDManager := mkPids v (freep m).
Definition set_freep (l : list (Z * Z)) (m : PIDManager) : PIDManager := mkPids (max m) l.

Definition init_pidmanager : PIDManager := mkPids 0 [].

(** [node] is the address [kalloc] gives for the [PIDNode] *)
Definition reuse_pid_ (node p : Z) (m : PIDManager) : PIDManager :=
  set_freep ((node, p) :: freep m) m.

(** the pid, the node to be freed (if any) and the manager afterwards *)
Definition getpid_ (m : PIDManager) : Z * option Z * PIDManager :=
  match freep m with
  | [] => let v := i32 (max m + 1) in (v, None, set_max v m)
  | (node, p) :: l => (p, Some node, set_freep l m)
  end.

(** ** What processes need of the rest of the kernel *)

Class proc_env (X : Type) := {
  pe_kalloc : Z → M X Z;
  pe_kfree : Z → M X unit;
  pe_kalloc_page : M X Z;
  pe_kfree_page : Z → M X unit;
  pe_fileclose : Z → M X unit;
  pe_filedup : Z → M X Z;
  pe_inodes_put : Z → M X unit;
  pe_inodes_share : Z → M X Z;
  (** the page directory in the process at an address *)
  pe_init_pgdir : Z → M X unit;
  pe_free_pgdir : Z → M X unit;
  pe_vm_copy : Z → M X Z;
  pe_assign_pgdir : Z → Z → M X unit;
  (** [memmove] of a user context, and a store to its [x[0]] *)
  pe_copy_ucontext : Z → Z → M X unit;
  pe_set_x0 : Z → Z → M X unit }.

(** The scheduler's state, the [WaitData] of processes asleep in [wait], the rest. *)
Record pstate (X : Type) := mkPs { kern : kernel; pwaits : gmap Z WaitData; out : X }.
Arguments mkPs {X} _ _ _.
Arguments kern {X} _.
Arguments pwaits {X} _.
Arguments out {X} _.

Definition sizeof_proc : Z := 200.
Definition sizeof_container : Z := 88.
Definition sizeof_oftable : Z := 128.
Definition sizeof_PIDNode : Z := 24.
Definition sizeof_UserContext : Z := 320.
Definition sizeof_KernelContext : Z := 112.

Section proc.
Context {X : Type} `{proc_env X}.
(** the CPU that runs; [root_proc], [root_container] and the code that starts a process *)
Context (cpuid : nat) (root_proc root_container : Z) (trap_return : Z).

Notation P := (M (pstate X)).

Definition put_kern (k : kernel) (s : pstate X) : pstate X := mkPs k (pwaits s) (out s).
Definition put_out (o : X) (s : pstate X) : pstate X := mkPs (kern s) (pwaits s) o.
Definition sched_ {A} (m : M kernel A) : P A := on kern put_kern m.
Definition env {A} (m : M X A) : P A := on out put_out m.

Definition set_plock (b : bool) (s : kernel) : kernel :=
  mkKernel (rqlock s) b (globalpids s) (procs s) (conts s) (cpus s) (panic_flag s) (timers s).
Definition set_globalpids (m : PIDManager) (s : kernel) : kernel :=
  mkKernel (rqlock s) (plock s) m (procs s) (conts s) (cpus s) (panic_flag s) (timers s).
Definition plock_ : SpinLock kernel := mkSpinLock plock set_plock.
Definition lock_p : P unit := sched_ (acquire_spinlock plock_).
Definition unlock_p : P unit := sched_ (release_spinlock plock_).
Definition lock_rq : P unit := sched_ acquire_sched_lock.
Definition unlock_rq : P unit := sched_ release_sched_lock.

Definition proc_at (p : Z) : P proc := sched_ (get_proc p).
Definition set_proc (p : Z) (f : proc → proc) : P unit := sched_ (upd_proc p f).
Definition cont_at (c : Z) : P container := sched_ (get_cont c).
Definition this : P Z := sched_ (thisproc cpuid).

(** a pid manager: the global one or that of a container *)
Definition get_pids (c : option Z) : P PIDManager :=
  match c with
  | None => gets (λ s, globalpids (kern s))
  | Some c => x ← cont_at c; mret (localpids x)
  end.
Definition put_pids (c : option Z) (m : PIDManager) : P unit :=
  match c with
  | None => modify (λ s, put_kern (set_globalpids m (kern s)) s)
  | Some c => sched_ (upd_cont c (λ x, mkCont (c_parent x) (rootproc x) (schqueue x) m))
  end.

Definition reuse_pid (c : option Z) (p : Z) : P unit :=
  node ← env (pe_kalloc sizeof_PIDNode);
  m ← get_pids c;
  put_pids c (reuse_pid_ node p m).

Definition getpid (c : option Z) : P Z :=
  m ← get_pids c;
  let '(v, node, m) := getpid_ m in
  put_pids c m;;
  (match node with None => mret tt | Some node => env (pe_kfree node) end);;
  mret v.

(** ** Fields *)

Definition set_killed (x : proc) : proc :=
  mkProc true (idle x) (pid x) (localpid x) (exitcode x) (state x) (childexit x) (children x)
    (parent x) (container_ x) (kstack x) (kcontext x) (ucontext x) (oftable x) (openfile x) (cwd x)
    (elr x) (entry x).
Definition set_localpid (v : Z) (x : proc) : proc :=
  mkProc (killed x) (idle x) (pid x) v (exitcode x) (state x) (childexit x) (children x)
    (parent x) (container_ x) (kstack x) (kcontext x) (ucontext x) (oftable x) (openfile x) (cwd x)
    (elr x) (entry x).
Definition set_exitcode (v : Z) (x : proc) : proc :=
  mkProc (killed x) (idle x) (pid x) (localpid x) v (state x) (childexit x) (children x)
    (parent x) (container_ x) (kstack x) (kcontext x) (ucontext x) (oftable x) (openfile x) (cwd x)
    (elr x) (entry x).
Definition set_childexit (v : Semaphore) (x : proc) : proc :=
  mkProc (killed x) (idle x) (pid x) (localpid x) (exitcode x) (state x) v (children x)
    (parent x) (container_ x) (kstack x) (kcontext x) (ucontext x) (oftable x) (openfile x) (cwd x)
    (elr x) (entry x).
Definition set_children (l : list Z) (x : proc) : proc :=
  mkProc (killed x) (idle x) (pid x) (localpid x) (exitcode x) (state x) (childexit x) l
    (parent x) (container_ x) (kstack x) (kcontext x) (ucontext x) (oftable x) (openfile x) (cwd x)
    (elr x) (entry x).
Definition set_parent (v : Z) (x : proc) : proc :=
  mkProc (killed x) (idle x) (pid x) (localpid x) (exitcode x) (state x) (childexit x) (children x)
    v (container_ x) (kstack x) (kcontext x) (ucontext x) (oftable x) (openfile x) (cwd x)
    (elr x) (entry x).
Definition set_container (v : Z) (x : proc) : proc :=
  mkProc (killed x) (idle x) (pid x) (localpid x) (exitcode x) (state x) (childexit x) (children x)
    (parent x) v (kstack x) (kcontext x) (ucontext x) (oftable x) (openfile x) (cwd x)
    (elr x) (entry x).
Definition set_openfile (l : list Z) (x : proc) : proc :=
  mkProc (killed x) (idle x) (pid x) (localpid x) (exitcode x) (state x) (childexit x) (children x)
    (parent x) (container_ x) (kstack x) (kcontext x) (ucontext x) (oftable x) l (cwd x)
    (elr x) (entry x).
Definition set_cwd (v : Z) (x : proc) : proc :=
  mkProc (killed x) (idle x) (pid x) (localpid x) (exitcode x) (state x) (childexit x) (children x)
    (parent x) (container_ x) (kstack x) (kcontext x) (ucontext x) (oftable x) (openfile x) v
    (elr x) (entry x).
Definition set_entry (e a : Z) (x : proc) : proc :=
  mkProc (killed x) (idle x) (pid x) (localpid x) (exitcode x) (state x) (childexit x) (children x)
    (parent x) (container_ x) (kstack x) (kcontext x) (ucontext x) (oftable x) (openfile x) (cwd x)
    (elr x) (e, a).

(** ** Making processes *)

Definition set_parent_to_this (p : Z) : P unit :=
  lock_p;;
  x ← proc_at p;
  assert (parent x =? 0);;
  t ← this;
  set_proc p (set_parent t);;
  set_proc t (λ y, set_children (p :: children y) y);;
  unlock_p.

(** The process as [init_proc] leaves it: [memset] to 0, then the fields it sets. *)
Definition blank_proc (id kst oft : Z) : proc :=
  mkProc false false id 0 0 UNUSED (init_sem 0) [] 0 root_container kst
    (u64 (kst + PAGE_SIZE - 16 - sizeof_KernelContext - sizeof_UserContext))
    (u64 (kst + PAGE_SIZE - 16 - sizeof_UserContext))
    oft (replicate (Z.to_nat NOFILE) 0) 0 0 (0, 0).

Definition init_proc (p : Z) : P unit :=
  lock_p;;
  id ← getpid None;
  env (pe_init_pgdir p);;
  kst ← env pe_kalloc_page;
  oft ← env (pe_kalloc sizeof_oftable);
  sched_ (modify (upd_procs <[p := blank_proc id kst oft]>));;
  unlock_p.

Definition create_proc : P Z :=
  p ← env (pe_kalloc sizeof_proc);
  init_proc p;;
  mret p.

Definition start_proc (p ent arg : Z) : P Z :=
  lock_p;;
  x ← proc_at p;
  when (parent x =? 0)
    (set_proc p (set_parent root_proc);;
     set_proc root_proc (λ y, set_children (p :: children y) y));;
  id ← getpid (Some (container_ x));
  set_proc p (set_localpid id);;
  unlock_p;;
  set_proc p (set_entry ent arg);;
  sched_ (activate_proc_ p false);;
  mret id.

Definition init_root_proc (kernel_entry : Z) : P unit :=
  init_proc root_proc;;
  set_proc root_proc (set_parent root_proc);;
  start_proc root_proc kernel_entry 123456;;
  mret tt.

(** the loop that duplicates the open files, index by index *)
Fixpoint dup_files (l : list Z) : P (list Z) :=
  match l with
  | [] => mret []
  | f :: l =>
      g ← (if f =? 0 then mret 0 else env (pe_filedup f));
      rest ← dup_files l;
      mret (g :: rest)
  end.

Definition fork : P Z :=
  cp ← this;
  np ← create_proc;
  if np =? 0 then mret (-1)
  else
    temp ← env (pe_vm_copy cp);
    if temp =? 0 then
      x ← proc_at np;
      env (pe_kfree (kstack x));;
      lock_p;;
      set_proc np (set_state UNUSED);;
      unlock_p;;
      mret (-1)
    else
      env (pe_assign_pgdir np temp);;
      c ← proc_at cp;
      n ← proc_at np;
      set_proc np (set_container (container_ c));;
      set_proc np (set_parent cp);;
      env (pe_copy_ucontext (ucontext n) (ucontext c));;
      env (pe_set_x0 (ucontext n) 0);;
      fs ← dup_files (openfile c);
      set_proc np (set_openfile fs);;
      cwd' ← env (pe_inodes_share (cwd c));
      set_proc np (set_cwd cwd');;
      lock_p;;
      set_proc cp (λ y, set_children (np :: children y) y);;
      unlock_p;;
      start_proc np trap_return 0;;
      mret (pid n).

(** ** Semaphores of processes *)

(** [post_sem(&p->childexit)]: the sleeper it lets go is activated *)
Definition post_childexit (p : Z) : P unit :=
  x ← proc_at p;
  w ← gets pwaits;
  match post_sem (mkSemst (childexit x) w []) with
  | Ok (_, r) =>
      set_proc p (set_childexit (sem r));;
      modify (λ s, mkPs (kern s) (waits r) (out s));;
      for_each (activated r) (λ q, sched_ (activate_proc_ q false);; mret tt)
  | Panic => panic | Fault => fault | Sleep => sleeping | Spin => spin | NoFuel => nofuel
  end.

Fixpoint post_times (n : nat) (p : Z) : P unit :=
  match n with O => mret tt | S n => post_childexit p;; post_times n p end.

(** ** exit *)

(** the loop that hands the children on; it counts the zombies *)
Fixpoint reparent (me : Z) (l : list Z) : P nat :=
  match l with
  | [] => mret 0%nat
  | c :: l =>
      x ← proc_at c;
      assert (parent x =? me);;
      set_proc c (set_parent root_proc);;
      n ← reparent me l;
      mret (if decide (state x = ZOMBIE) then S n else n)
  end.

(** the loop that closes the files: entry [i] and the [n] after it *)
Fixpoint close_files (me : Z) (i : nat) (n : nat) : P unit :=
  match n with
  | O => mret tt
  | S n =>
      x ← proc_at me;
      f ← getopt (λ _, openfile x !! i);
      when (negb (f =? 0))
        (unlock_rq;; unlock_p;;
         env (pe_fileclose f);;
         lock_p;; lock_rq;;
         set_proc me (λ x, set_openfile (<[i := 0]> (openfile x)) x));;
      close_files me (S i) n
  end.

(** [exit] up to the switch to another process, from which it never comes back *)
Definition exit_ (code : Z) : P unit :=
  lock_p;;
  lock_rq;;
  me ← this;
  x ← proc_at me;
  c ← cont_at (container_ x);
  assert (negb (me =? rootproc c) && negb (idle x));;
  assert (negb (me =? root_proc));;
  set_proc me (set_exitcode code);;
  times ← reparent me (children x);
  (if bool_decide (children x = []) then mret tt
   else
     set_proc (rootproc c) (λ y, set_children (children x ++ children y) y);;
     set_proc me (set_children []);;
     unlock_rq;;
     post_times times (rootproc c);;
     lock_rq);;
  close_files me 0 (Z.to_nat NOFILE);;
  env (pe_kfree (oftable x));;
  unlock_rq;;
  unlock_p;;
  when (negb (cwd x =? 0)) (env (pe_inodes_put (cwd x)));;
  lock_p;;
  lock_rq;;
  env (pe_free_pgdir me);;
  unlock_rq;;
  y ← proc_at me;
  post_childexit (parent y);;
  lock_rq;;
  unlock_p;;
  sched_ (simple_sched cpuid root_container ZOMBIE).

(** ** wait *)

(** the scan for a zombie, or 0 *)
Fixpoint find_zombie (me : Z) (l : list Z) : P Z :=
  match l with
  | [] => mret 0
  | c :: l =>
      x ← proc_at c;
      assert (parent x =? me);;
      if decide (state x = ZOMBIE) then mret c else find_zombie me l
  end.

(** [wait] after [wait_sem] has succeeded: the result, [*exitcode] and [*pid] *)
Definition reap (me : Z) : P (Z * option (Z * Z)) :=
  lock_p;;
  lock_rq;;
  t ← proc_at me;
  z ← find_zombie me (children t);
  if negb (z =? 0) then
    x ← proc_at z;
    assert (bool_decide (state x = ZOMBIE));;
    set_proc me (λ y, set_children (filter (λ c, c ≠ z) (children y)) y);;
    sched_ (detach_entity (EProc z));;
    env (pe_kfree_page (kstack x));;
    reuse_pid None (pid x);;
    reuse_pid (Some (container_ x)) (localpid x);;
    env (pe_kfree z);;
    sched_ (modify (upd_procs (delete z)));;
    unlock_rq;;
    unlock_p;;
    mret (localpid x, Some (exitcode x, pid x))
  else
    unlock_rq;;
    unlock_p;;
    mret (-1, None).

(** What the first part of [wait] leads to: its result, or the process sleeps on the [WaitData]
    at [w]. *)
Inductive wait_result := WaitDone (r : Z * option (Z * Z)) | WaitAsleep.

Definition wait (w : Z) : P wait_result :=
  me ← this;
  lock_p;;
  t ← proc_at me;
  if bool_decide (children t = []) then unlock_p;; mret (WaitDone (-1, None))
  else
    unlock_p;;
    ws ← gets pwaits;
    match wait_sem_begin w me (mkSemst (childexit t) ws []) with
    | Ok (b, r) =>
        set_proc me (set_childexit (sem r));;
        modify (λ s, mkPs (kern s) (waits r) (out s));;
        if (b : bool) then r ← reap me; mret (WaitDone r)
        else
          lock_rq;;
          sched_ (simple_sched cpuid root_container SLEEPING);;
          mret WaitAsleep
    | _ => fault
    end.

(** [wait] of the process [me] when it runs again *)
Definition wait_resume (w me : Z) : P (Z * option (Z * Z)) :=
  t ← proc_at me;
  ws ← gets pwaits;
  match wait_sem_end w (mkSemst (childexit t) ws []) with
  | Ok (b, r) =>
      set_proc me (set_childexit (sem r));;
      modify (λ s, mkPs (kern s) (waits r) (out s));;
      if (b : bool) then reap me else mret (-1, None)
  | Panic => panic
  | _ => fault
  end.

(** ** kill *)

(** [find_proc] of proc.c: the process [pid_] at or below [now], marked as killed, or 0 *)
Fixpoint find_pid (fuel : nat) (pid_ now : Z) : P Z :=
  match fuel with
  | O => nofuel
  | S fuel =>
      x ← proc_at now;
      unused ← (if pid x =? pid_ then sched_ (is_unused now) else mret true);
      if negb unused then set_proc now set_killed;; mret now
      else
        (fix scan (l : list Z) : P Z :=
           match l with
           | [] => mret 0
           | c :: l =>
               t ← find_pid fuel pid_ c;
               if negb (t =? 0) then mret t else scan l
           end) (children x)
  end.

Definition kill (pid_ : Z) : P Z :=
  lock_p;;
  p ← ((λ s, find_pid (S (size (procs (kern s)))) pid_ root_proc s) : P Z);
  unlock_p;;
  if negb (p =? 0) then
    x ← proc_at p;
    if Z.shiftr (elr x) 48 =? 0 then
      sched_ (activate_proc_ p true);;
      mret 0
    else mret (-1)
  else mret (-1).

(** ** Containers *)

Definition init_container : container := mkCont 0 0 init_schqueue init_pidmanager.

Definition set_container_to_this (p : Z) : P unit :=
  t ← this;
  x ← proc_at t;
  set_proc p (set_container (container_ x)).

Definition upd_container (c : Z) (f : container → container) : P unit := sched_ (upd_cont c f).

(** under [containerlock], which only this function takes *)
Definition create_container (root_entry arg : Z) : P Z :=
  ans ← env (pe_kalloc sizeof_container);
  sched_ (modify (upd_conts <[ans := init_container]>));;
  rp ← env (pe_kalloc sizeof_proc);
  upd_container ans (λ c, mkCont (c_parent c) rp (schqueue c) (localpids c));;
  init_proc rp;;
  set_parent_to_this rp;;
  set_proc rp (set_container ans);;
  t ← this;
  x ← proc_at t;
  upd_container ans (λ c, mkCont (container_ x) (rootproc c) (schqueue c) (localpids c));;
  start_proc rp root_entry arg;;
  sched_ (activate_group ans);;
  mret ans.

Definition init_root_container : P unit :=
  sched_ (modify (upd_conts <[root_container :=
    mkCont 0 root_proc init_schqueue init_pidmanager]>)).
End proc.
