(* ===== verification/ProcSpec.v ===== *)
(** * Pids are unique

    Whatever sequence of [getpid] and [reuse_pid] a pid manager goes through, the pids in use
    are distinct, and with those on the free list they are 1 .. [max]. *)

From Stdlib Require Import ZArith Lia.
From S2P Require Import Prelude Words Sync Sched Proc.

(** The states of a manager and the pids then in use: a pid is given back once, by whoever got
    it, and there are fewer than 2^31 of them. *)
Inductive pid_run : PIDManager → gset Z → Prop :=
  | pid_init : pid_run init_pidmanager ∅
  | pid_get m u v n m' :
      pid_run m u → max m < 2 ^ 31 - 1 → getpid_ m = (v, n, m') → pid_run m' ({[v]} ∪ u)
  | pid_reuse m u node p :
      pid_run m u → p ∈ u → pid_run (reuse_pid_ node p m) (u ∖ {[p]}).

Record pid_inv (m : PIDManager) (u : gset Z) : Prop := {
  pi_nodup : NoDup (freep m).*2;
  pi_disjoint : ∀ p, p ∈ (freep m).*2 → p ∉ u;
  pi_all : ∀ p, 1 ≤ p ≤ max m ↔ p ∈ (freep m).*2 ∨ p ∈ u;
  pi_max : 0 ≤ max m }.

Lemma getpid_inv m u v n m' :
  pid_inv m u → max m < 2 ^ 31 - 1 → getpid_ m = (v, n, m') →
  pid_inv m' ({[v]} ∪ u) ∧ v ∉ u ∧ 1 ≤ v ∧ (freep m = [] → v = max m + 1).
Proof.
  intros [N D A M] Hm. unfold getpid_. destruct (freep m) as [|[node p] l] eqn:El.
  - rewrite i32_id by lia. intros [= <- <- <-]. simpl in *.
    assert (max m + 1 ∉ u) as Hu by (intros H; assert (1 ≤ max m + 1 ≤ max m) by (apply A; by right); lia).
    split; [|split; [done|split; [lia|done]]].
    constructor; simpl; rewrite ?El; simpl; [done| | |lia].
    + intros p Hp. by apply not_elem_of_nil in Hp.
    + intros p. rewrite elem_of_union, elem_of_singleton. specialize (A p).
      split; [|intros [H|[->|H]]; [by apply not_elem_of_nil in H|lia|]].
      * intros Hp. destruct (decide (p = max m + 1)) as [->|]; [tauto|]. right. right.
        assert (1 ≤ p ≤ max m) as Hp' by lia. apply A in Hp' as [H|H]; [by apply not_elem_of_nil in H|done].
      * assert (1 ≤ p ≤ max m) by (apply A; by right). lia.
  - intros [= <- <- <-]. simpl in *. apply NoDup_cons in N as [Hp N].
    assert (p ∉ u) as Hu by (apply D; left).
    assert (1 ≤ p ≤ max m) as Hr by (apply A; left; left).
    split; [|split; [done|split; [lia|done]]].
    constructor; simpl; [done| | |done].
    + intros q Hq. rewrite elem_of_union, elem_of_singleton. intros [->|Hq']; [done|].
      apply (D q); [by right|done].
    + intros q. rewrite A, elem_of_cons, elem_of_union, elem_of_singleton. tauto.
Qed.

Lemma reuse_pid_inv m u node p : pid_inv m u → p ∈ u → pid_inv (reuse_pid_ node p m) (u ∖ {[p]}).
Proof.
  intros [N D A M] Hp. constructor; simpl; [| | |done].
  - apply NoDup_cons. split; [|done]. intros H. by apply (D p).
  - intros q [->|Hq]%elem_of_cons; [set_solver|]. specialize (D q Hq). set_solver.
  - intros q. rewrite A, elem_of_cons, elem_of_difference, elem_of_singleton.
    destruct (decide (q = p)) as [->|]; tauto.
Qed.

Lemma pid_run_inv m u : pid_run m u → pid_inv m u.
Proof.
  induction 1 as [|m u v n m' _ IH Hm E|m u node p _ IH Hp].
  - constructor; simpl; [by apply NoDup_nil|by intros p Hp%not_elem_of_nil| |lia].
    intros p. split; [lia|]. intros [H|H]; [by apply not_elem_of_nil in H|set_solver].
  - by eapply getpid_inv.
  - by apply reuse_pid_inv.
Qed.

(** C34: getpid never returns a pid that is in use: it returns one that was given back, or the next
    number when none was; the pids in use and the free ones are exactly 1 .. max. *)
Theorem getpid_fresh m u v n m' :
  pid_run m u → max m < 2 ^ 31 - 1 → getpid_ m = (v, n, m') →
  v ∉ u ∧ 1 ≤ v ≤ max m' ∧ (freep m = [] → v = max m + 1) ∧
  ∀ p, 1 ≤ p ≤ max m' ↔ p ∈ (freep m').*2 ∨ p = v ∨ p ∈ u.
Proof.
  intros Hr Hm E. destruct (getpid_inv m u v n m' (pid_run_inv m u Hr) Hm E) as ([_ _ A _] & Hu & Hv & Hn).
  assert (∀ p, 1 ≤ p ≤ max m' ↔ p ∈ (freep m').*2 ∨ p = v ∨ p ∈ u) as A' by set_solver.
  split; [done|]. split; [apply A'; tauto|done].
Qed.

(** Three processes, the second is gone: the next one gets its pid. *)
Lemma getpid_fresh_witness :
  ∃ m u, pid_run m u ∧ u = {[1; 3]} ∧ getpid_ m = (2, Some 64, mkPids 3 []) ∧ 2 ∉ u.
Proof.
  assert (pid_run (mkPids 3 [(64, 2)]) (({[3]} ∪ ({[2]} ∪ ({[1]} ∪ ∅))) ∖ {[2]})) as Hr.
  { apply (pid_reuse (mkPids 3 []) _ 64 2); [|by_decision].
    apply (pid_get (mkPids 2 []) _ 3 None); [|simpl; lia|reflexivity].
    apply (pid_get (mkPids 1 []) _ 2 None); [|simpl; lia|reflexivity].
    apply (pid_get (mkPids 0 []) _ 1 None); [apply pid_init|simpl; lia|reflexivity]. }
  eexists _, _. split; [exact Hr|]. split; [by_decision|]. split; [reflexivity|].
  apply (getpid_fresh _ _ 2 (Some 64) (mkPids 3 []) Hr); [simpl; lia|reflexivity].
Defined.
