(* ===== verification/Sh.v ===== *)
(** * [user/sh/main.c]: the shell

    The parser works on a NUL-terminated line [buf]; [char] pointers are positions in it.  A
    command is a tree; the [execcmd] whose arguments [parseexec] is still filling in, inside
    the redirections already wrapped around it, is put together with them at the end.  The
    C library's [exit(1)] after an error message is [Panic].  Running a command is the system
    calls it makes. *)

From Stdlib Require Import ZArith Lia.
From stdpp Require Import strings.
From S2P Require Import Prelude Words Format.

Definition MAXARGS : nat := 10.
Definition MAXN : Z := 10000.

Definition O_RDONLY : Z := 0.
Definition O_WRONLY : Z := 1.
Definition O_RDWR : Z := 2.
Definition O_CREAT : Z := 0x40.

(** a counted string: [q] and [eq] *)
Definition str : Type := nat * nat.

Inductive cmd :=
  | ExecCmd (argv : list str)
  | RedirCmd (c : cmd) (file : str) (mode fd : Z)
  | PipeCmd (left right : cmd)
  | ListCmd (left right : cmd)
  | BackCmd (c : cmd).

(** the line, [*ps], the bytes [malloc1] has given out *)
Record parser := mkParser { buf : list Z; ps : nat; used : Z }.
Notation P := (M parser).

Definition set_ps (v : nat) : P unit := modify (λ p, mkParser (buf p) v (used p)).
Definition char_at (s : nat) : P Z := getopt (λ p, buf p !! s).
Definition put_char (s : nat) (c : Z) : P unit :=
  char_at s;; modify (λ p, mkParser (<[s := c]> (buf p)) (ps p) (used p)).

Definition malloc1 (sz : Z) : P unit :=
  p ← gets id;
  let i := used p + sz in
  if MAXN <? i then panic else modify (λ p, mkParser (buf p) (ps p) i).

(** the constructors, for their use of memory *)
Definition execcmd : P unit := malloc1 168.
Definition redircmd (c : cmd) (file : str) (mode fd : Z) : P cmd :=
  malloc1 40;; mret (RedirCmd c file mode fd).
Definition pipecmd (l r : cmd) : P cmd := malloc1 24;; mret (PipeCmd l r).
Definition listcmd (l r : cmd) : P cmd := malloc1 24;; mret (ListCmd l r).
Definition backcmd (c : cmd) : P cmd := malloc1 16;; mret (BackCmd c).

(** ** Characters *)

Definition c_tab : Z := 9.
Definition c_nl : Z := 10.
Definition c_vt : Z := 11.
Definition c_cr : Z := 13.
Definition c_space : Z := 32.
Definition c_amp : Z := 38.
Definition c_open : Z := 40.
Definition c_close : Z := 41.
Definition c_plus : Z := 43.
Definition c_semi : Z := 59.
Definition c_lt : Z := 60.
Definition c_gt : Z := 62.
Definition c_a : Z := 97.
Definition c_bar : Z := 124.

Definition whitespace : list Z := [c_space; c_tab; c_cr; c_nl; c_vt].
Definition symbols : list Z := [c_lt; c_bar; c_gt; c_amp; c_semi; c_open; c_close].

(** [strchr(l, c) != NULL]: the terminator of [l] counts *)
Definition strchr (l : list Z) (c : Z) : bool := bool_decide (c ∈ l ++ [0]).

(** ** The parser *)

Section parser.
(** the end of the line *)
Context (es : nat).

(** [while (s < es && p( *s)) s++;] *)
Fixpoint skip (fuel : nat) (p : Z → bool) (s : nat) : P nat :=
  match fuel with
  | O => nofuel
  | S fuel =>
      if (s <? es)%nat then
        c ← char_at s;
        if p c then skip fuel p (S s) else mret s
      else mret s
  end.
Definition skip_space (s : nat) : P nat := skip (S es) (strchr whitespace) s.

(** the token's kind (0 at the end, [c_a] for a word, [c_plus] for [>>]) and its extent *)
Definition gettoken : P (Z * str) :=
  p ← gets id;
  s ← skip_space (ps p);
  let q := s in
  c ← char_at s;
  '(ret, s) ←
    (if c =? 0 then mret (c, s)
     else if bool_decide (c ∈ [c_bar; c_open; c_close; c_semi; c_amp; c_lt]) then mret (c, S s)
     else if c =? c_gt then
       d ← char_at (S s);
       mret (if d =? c_gt then (c_plus, S (S s)) else (c, S s))
     else
       s ← skip (S es) (λ c, negb (strchr whitespace c) && negb (strchr symbols c)) s;
       mret (c_a, s));
  let eq := s in
  s ← skip_space s;
  set_ps s;;
  mret (ret, (q, eq)).

Definition peek (toks : list Z) : P bool :=
  p ← gets id;
  s ← skip_space (ps p);
  set_ps s;;
  c ← char_at s;
  mret (negb (c =? 0) && strchr toks c).

Definition redir_of (tok : Z) : option (Z * Z) :=
  if tok =? c_lt then Some (O_RDONLY, 0)
  else if tok =? c_gt then Some (Z.lor O_WRONLY O_CREAT, 1)
  else if tok =? c_plus then Some (Z.lor O_WRONLY O_CREAT, 1)
  else None.

(** The redirections [parseredirs] wraps around its command, innermost first. *)
Fixpoint parseredirs (fuel : nat) : P (list (str * (Z * Z))) :=
  match fuel with
  | O => nofuel
  | S fuel =>
      b ← peek [c_lt; c_gt];
      if (b : bool) then
        '(tok, _) ← gettoken;
        '(tok2, file) ← gettoken;
        if negb (tok2 =? c_a) then panic
        else
          match redir_of tok with
          | Some r => malloc1 40;; l ← parseredirs fuel; mret ((file, r) :: l)
          | None => parseredirs fuel
          end
      else mret []
  end.

Definition wrap (c : cmd) (l : list (str * (Z * Z))) : cmd :=
  fold_left (λ c '(file, (mode, fd)), RedirCmd c file mode fd) l c.

(** the loop of [parseexec]: the arguments and redirections after the first [argc] arguments *)
Fixpoint exec_args (fuel : nat) (argc : nat) : P (list str * list (str * (Z * Z))) :=
  match fuel with
  | O => nofuel
  | S fuel =>
      b ← peek [c_bar; c_close; c_amp; c_semi];
      if (b : bool) then mret ([], [])
      else
        '(tok, word) ← gettoken;
        if tok =? 0 then mret ([], [])
        else if negb (tok =? c_a) then panic
        else if (MAXARGS <=? S argc)%nat then panic
        else
          l ← parseredirs (S es);
          '(args, l') ← exec_args fuel (S argc);
          mret (word :: args, l ++ l')
  end.

Section block.
Context (parseline : P cmd).

Definition parseblock : P cmd :=
  b ← peek [c_open];
  if negb b then panic
  else
    gettoken;;
    c ← parseline;
    b ← peek [c_close];
    if negb b then panic
    else
      gettoken;;
      l ← parseredirs (S es);
      mret (wrap c l).

Definition parseexec : P cmd :=
  b ← peek [c_open];
  if (b : bool) then parseblock
  else
    execcmd;;
    l ← parseredirs (S es);
    '(args, l') ← exec_args (S es) 0;
    mret (wrap (ExecCmd args) (l ++ l')).

Fixpoint parsepipe (fuel : nat) : P cmd :=
  match fuel with
  | O => nofuel
  | S fuel =>
      c ← parseexec;
      b ← peek [c_bar];
      if (b : bool) then gettoken;; r ← parsepipe fuel; pipecmd c r else mret c
  end.
End block.

(** [while (peek(ps, es, "&")) ..] *)
Fixpoint back_loop (fuel : nat) (c : cmd) : P cmd :=
  match fuel with
  | O => nofuel
  | S fuel =>
      b ← peek [c_amp];
      if (b : bool) then gettoken;; c ← backcmd c; back_loop fuel c else mret c
  end.

Fixpoint parseline (fuel : nat) : P cmd :=
  match fuel with
  | O => nofuel
  | S fuel =>
      c ← parsepipe (parseline fuel) (S es);
      c ← back_loop (S es) c;
      b ← peek [c_semi];
      if (b : bool) then gettoken;; r ← parseline fuel; listcmd c r else mret c
  end.
End parser.

(** NUL-terminate the counted strings. *)
Fixpoint nulterminate (c : cmd) : P unit :=
  match c with
  | ExecCmd argv => for_each argv (λ a, put_char a.2 0)
  | RedirCmd c file _ _ => nulterminate c;; put_char file.2 0
  | PipeCmd l r | ListCmd l r => nulterminate l;; nulterminate r
  | BackCmd c => nulterminate c
  end.

(** [es] is [s + strlen(s)] for [s] the start of the line *)
Definition parsecmd (es : nat) : P cmd :=
  c ← parseline es (S es);
  peek es [];;
  p ← gets id;
  if negb (ps p =? es)%nat then panic
  else nulterminate c;; mret c.

(** A line without NUL in a buffer, parsed from the start. *)
Definition parse (line : list Z) : res (cmd * parser) :=
  parsecmd (length line) (mkParser (line ++ [0]) 0 0).

(** ** Running commands

    A process is the tree of the system calls it makes; each node holds what the process does
    with the result.  [fork] returns in two processes.  [execv] goes on when it fails only;
    [Fault] stands for a state the parser never hands over. *)
Inductive proc :=
  | Exit (code : Z)
  | Put (fd : Z) (msg : list Z) (k : proc)
  | Execv (path : list Z) (argv : list (list Z)) (k : proc)
  | Close (fd : Z) (k : proc)
  | Open (path : list Z) (mode : Z) (k : Z → proc)
  | Dup (fd : Z) (k : proc)
  | Pipe (k : option (Z * Z) → proc)
  | Fork (k : Z → proc)
  | Wait (k : proc)
  | Chdir (path : list Z) (k : Z → proc)
  | Fault.

Definition PANIC (s : string) : proc := Put 2 (chars s ++ [c_nl]) (Exit 1).

Definition fork1 (k : Z → proc) : proc :=
  Fork (λ pid, if pid =? -1 then PANIC "fork" else k pid).

(** the string at position [s] *)
Fixpoint until_nul (l : list Z) : list Z :=
  match l with
  | [] => []
  | c :: l => if c =? 0 then [] else c :: until_nul l
  end.
Definition string_at (b : list Z) (s : nat) : list Z := until_nul (drop s b).

Fixpoint runcmd (b : list Z) (c : cmd) : proc :=
  match c with
  | ExecCmd argv =>
      match argv with
      | [] => Exit 0
      | a :: _ =>
          let path := string_at b a.1 in
          Execv path (map (λ a, string_at b a.1) argv)
            (Put 2 (chars "exec " ++ path ++ chars " failed" ++ [c_nl]) (Exit 0))
      end
  | RedirCmd c file mode fd =>
      Close fd (Open (string_at b file.1) mode (λ r,
        if r <? 0 then
          Put 2 (chars "open " ++ string_at b file.1 ++ chars " failed" ++ [c_nl]) (Exit 1)
        else runcmd b c))
  | ListCmd l r =>
      fork1 (λ pid, if pid =? 0 then runcmd b l else Wait (runcmd b r))
  | PipeCmd l r =>
      Pipe (λ p,
        match p with
        | None => PANIC "pipe"
        | Some (p0, p1) =>
            fork1 (λ pid,
              if pid =? 0 then Close 1 (Dup p1 (Close p0 (Close p1 (runcmd b l))))
              else fork1 (λ pid,
                if pid =? 0 then Close 0 (Dup p0 (Close p0 (Close p1 (runcmd b r))))
                else Close p0 (Close p1 (Wait (Wait (Exit 0))))))
        end)
  | BackCmd c => fork1 (λ pid, if pid =? 0 then runcmd b c else Exit 0)
  end.

(** [runcmd(parsecmd(buf))], in the child; after an error message (not modelled here) the
    parser exits with 1 *)
Definition run_line (line : list Z) : proc :=
  match parse line with
  | Ok (c, p) => runcmd (buf p) c
  | Panic => Exit 1
  | _ => Fault
  end.

(** ** [main]

    [lines] is what [fgets] puts into [buf] each time, up to the end of the input. *)
Fixpoint read_loop (lines : list (list Z)) : proc :=
  match lines with
  | [] => Put 2 (chars "$ ") (Exit 0)
  | line :: lines =>
      Put 2 (chars "$ ")
        (if bool_decide (take 3 line = chars "cd ") then
           let line := take (length line - 1) line in
           Chdir (drop 3 line) (λ r,
             if r <? 0 then
               Put 2 (chars "cannot cd " ++ drop 3 line ++ [c_nl]) (read_loop lines)
             else read_loop lines)
         else fork1 (λ pid, if pid =? 0 then run_line line else Wait (read_loop lines)))
  end.

(** [while ((fd = open("console", O_RDWR)) >= 0) ..]: at most four files are opened *)
Fixpoint open_std (fuel : nat) (k : proc) : proc :=
  match fuel with
  | O => Fault
  | S fuel =>
      Open (chars "console") O_RDWR (λ fd,
        if fd <? 0 then k else if 3 <=? fd then Close fd k else open_std fuel k)
  end.

(** [greeting]: the lines the C library's [printf] makes of the arguments and of [TEST_ENV] *)
Definition main (greeting : list Z) (lines : list (list Z)) : proc :=
  Put 1 greeting (open_std 4 (read_loop lines)).
