(* ===== verification/ShSpec.v ===== *)
(** * The shell's parser is safe on every line

    Parsing ends for every line, reads and writes inside the buffer only, and gives a command
    or stops with an error message. *)

From Stdlib Require Import ZArith Lia.
From S2P Require Import Prelude Words Sh.

Section total.
Context (es : nat).

(** a line of [es] characters, then NUL; the parser stands at or before the NUL *)
Record line_ok (p : parser) : Prop := {
  lo_length : length (buf p) = S es;
  lo_chars : ∀ i c, (i < es)%nat → buf p !! i = Some c → c ≠ 0;
  lo_end : buf p !! es = Some 0;
  lo_ps : (ps p ≤ es)%nat }.

Definition str_ok (w : str) : Prop := (w.2 ≤ es)%nat.
Fixpoint cmd_ok (c : cmd) : Prop :=
  match c with
  | ExecCmd argv => Forall str_ok argv
  | RedirCmd c file _ fd => cmd_ok c ∧ str_ok file ∧ (fd = 0 ∨ fd = 1)
  | PipeCmd l r | ListCmd l r => cmd_ok l ∧ cmd_ok r
  | BackCmd c => cmd_ok c
  end.

(** [m] runs to an end: with a result [Q] holds of, having moved on by at least [n], or with an
    error message. *)
Definition runs {A} (m : P A) (p : parser) (n : nat) (Q : A → parser → Prop) : Prop :=
  match m p with
  | Ok (a, p') => line_ok p' ∧ buf p' = buf p ∧ (ps p + n ≤ ps p')%nat ∧ Q a p'
  | Panic => True
  | _ => False
  end.

Lemma runs_ret {A} (a : A) p (Q : A → parser → Prop) : line_ok p → Q a p → runs (mret a) p 0 Q.
Proof. intros. unfold runs, mret, M_ret. split_and!; try done. lia. Qed.

Lemma runs_weaken {A} (m : P A) p n n' (Q Q' : A → parser → Prop) :
  runs m p n Q → (n' ≤ n)%nat →
  (∀ a p', line_ok p' → (ps p + n ≤ ps p')%nat → Q a p' → Q' a p') → runs m p n' Q'.
Proof.
  unfold runs. destruct (m p) as [[a p']| | | | |]; try done.
  intros (H1 & H2 & H3 & H4) Hn HQ. split_and!; try done; [lia|auto].
Qed.

Lemma runs_bind {A B} (m : P A) (k : A → P B) p n1 n2 Q1 Q2 :
  runs m p n1 Q1 →
  (∀ a p', line_ok p' → (ps p + n1 ≤ ps p')%nat → Q1 a p' → runs (k a) p' n2 Q2) →
  runs (m ≫= k) p (n1 + n2) Q2.
Proof.
  unfold runs, mbind, M_bind. destruct (m p) as [[a p1]| | | | |]; try done.
  intros (H1 & H2 & H3 & H4) Hk. specialize (Hk a p1 H1 H3 H4).
  destruct (k a p1) as [[b p2]| | | | |]; try done.
  destruct Hk as (K1 & K2 & K3 & K4). split_and!; try done; [congruence|lia].
Qed.

Lemma runs_panic {A} p n (Q : A → parser → Prop) : runs panic p n Q.
Proof. done. Qed.

(** ** Characters and tokens *)

Lemma char_lt p i : line_ok p → (i ≤ es)%nat → ∃ c, buf p !! i = Some c ∧ ((i < es)%nat → c ≠ 0).
Proof.
  intros Hp Hi. destruct (lookup_lt_is_Some_2 (buf p) i) as [c Ec].
  { rewrite (lo_length _ Hp). lia. }
  exists c. split; [done|]. intros Hlt. by apply (lo_chars _ Hp i).
Qed.

Lemma skip_run pr fuel p s :
  line_ok p → (s ≤ es)%nat → (es - s < fuel)%nat →
  ∃ s', skip es fuel pr s p = Ok (s', p) ∧ (s ≤ s' ≤ es)%nat ∧
    (s' = es ∨ ∃ c, buf p !! s' = Some c ∧ pr c = false) ∧
    ((s < es)%nat → (∃ c, buf p !! s = Some c ∧ pr c = true) → (s < s')%nat).
Proof.
  intros Hp. revert s. induction fuel as [|fuel IH]; intros s Hs Hf; [lia|]. simpl.
  destruct (Nat.ltb_spec s es) as [Hlt|Hge].
  - destruct (char_lt p s Hp Hs) as (c & Ec & _). unfold char_at.
    erewrite bind_Ok by (apply getopt_run; exact Ec). destruct (pr c) eqn:Epr.
    + destruct (IH (S s)) as (s' & E & Hr & Hst & _); [lia|lia|]. exists s'. split; [done|].
      split; [lia|]. split; [done|]. intros _ _. lia.
    + exists s. split; [done|]. split; [lia|]. split; [right; by exists c|].
      intros _ (c' & Ec' & Ep). simplify_eq. congruence.
  - exists s. split; [done|]. split; [lia|]. split; [left; lia|]. lia.
Qed.

(** The parser stands at a character that is no blank, or at the end. *)
Definition at_token (p : parser) : Prop :=
  ∃ c, buf p !! ps p = Some c ∧ (c = 0 ∨ strchr whitespace c = false).

Lemma skip_space_run p s :
  line_ok p → (s ≤ es)%nat →
  ∃ s' c, skip_space es s p = Ok (s', p) ∧ (s ≤ s' ≤ es)%nat ∧ buf p !! s' = Some c ∧
    (s' = es ∧ c = 0 ∨ (s' < es)%nat ∧ c ≠ 0 ∧ strchr whitespace c = false).
Proof.
  intros Hp Hs. destruct (skip_run (strchr whitespace) (S es) p s Hp Hs ltac:(lia))
    as (s' & E & Hr & Hst & _).
  destruct (char_lt p s' Hp ltac:(lia)) as (c & Ec & Hc). exists s', c.
  split; [done|]. split; [done|]. split; [done|].
  destruct (decide (s' = es)) as [->|Hne].
  - left. split; [done|]. pose proof (lo_end _ Hp). congruence.
  - right. split; [lia|]. split; [apply Hc; lia|]. destruct Hst as [|(c' & Ec' & Ep)]; [done|].
    by simplify_eq.
Qed.

Lemma set_ps_ok p s : line_ok p → (s ≤ es)%nat → line_ok (mkParser (buf p) s (used p)).
Proof. intros [] Hs. by constructor. Qed.

Lemma peek_runs toks p :
  line_ok p →
  runs (peek es toks) p 0 (λ b p', b = true → ∃ c, buf p' !! ps p' = Some c ∧ c ∈ toks ∧ c ≠ 0).
Proof.
  intros Hp. unfold peek, runs. erewrite bind_Ok by apply gets_run.
  destruct (skip_space_run p (ps p) Hp (lo_ps _ Hp)) as (s & c & E & Hr & Ec & _).
  change (id p) with p. rewrite (bind_Ok _ _ _ _ _ E).
  unfold set_ps. erewrite bind_Ok by apply modify_run.
  unfold char_at. erewrite bind_Ok by (apply getopt_run; exact Ec). rewrite mret_run.
  split; [by apply set_ps_ok; [|lia]|]. split; [done|]. split; [simpl; lia|].
  intros [Hc0 Hc]%andb_prop. exists c. simpl. split; [done|].
  apply negb_true_iff, Z.eqb_neq in Hc0. apply bool_decide_eq_true in Hc.
  split; [|done]. apply elem_of_app in Hc as [|Hc]; [done|].
  by apply list_elem_of_singleton in Hc.
Qed.

(** [gettoken] moves on unless the line is at its end. *)
Lemma gettoken_runs p :
  line_ok p → runs (gettoken es) p 0 (λ r p', str_ok r.2 ∧ ((ps p < es)%nat ∨ r.1 ≠ 0 → (ps p < ps p')%nat)).
Proof.
  intros Hp. unfold gettoken, runs. erewrite bind_Ok by apply gets_run.
  destruct (skip_space_run p (ps p) Hp (lo_ps _ Hp)) as (s & c & E & Hr & Ec & Hc).
  change (id p) with p. rewrite (bind_Ok _ _ _ _ _ E).
  unfold char_at at 1. erewrite bind_Ok by (apply getopt_run; exact Ec).
  match goal with |- context [mbind ?k ?x p] => assert (∃ ret s', x p = Ok ((ret, s'), p) ∧
    (s ≤ s' ≤ es)%nat ∧ ((s < es)%nat ∨ ret ≠ 0 → (s < s')%nat)) as (ret & s' & Ex & Hs' & Hret) end.
  { destruct (Z.eqb_spec c 0) as [->|Hc0]; [exists 0, s; split; [done|]; split; [lia|destruct Hc as [[-> _]|(_ & Hc & _)]; [lia|done]]|].
    destruct Hc as [[_ ->]|(Hlt & _ & Hw)]; [done|].
    case_bool_decide; [exists c, (S s); split; [done|]; split; [lia|lia]|].
    destruct (Z.eqb_spec c c_gt) as [->|Hgt].
    - destruct (char_lt p (S s) Hp ltac:(lia)) as (d & Ed & Hd). unfold char_at.
      erewrite bind_Ok by (apply getopt_run; exact Ed). destruct (Z.eqb_spec d c_gt) as [->|].
      + exists c_plus, (S (S s)). split; [done|]. split; [|lia].
        destruct (decide (S s = es)) as [Hse|]; [|lia].
        rewrite Hse, (lo_end _ Hp) in Ed. done.
      + exists c_gt, (S s). split; [done|]. split; [lia|lia].
    - destruct (skip_run (λ c, negb (strchr whitespace c) && negb (strchr symbols c)) (S es) p s Hp)
        as (s' & E' & Hr' & _ & Hadv); [lia|lia|].
      rewrite (bind_Ok _ _ _ _ _ E'). exists c_a, s'. split; [done|]. split; [lia|].
      intros _. apply Hadv; [done|]. exists c. split; [done|]. rewrite Hw. simpl.
      apply negb_true_iff, bool_decide_eq_false. intros Hin.
      apply elem_of_app in Hin as [Hin|Hin]; [|by apply list_elem_of_singleton in Hin].
      unfold symbols in Hin. set_unfold in Hin. set_unfold. naive_solver. }
  rewrite (bind_Ok _ _ _ _ _ Ex). cbv beta iota.
  destruct (skip_space_run p s' Hp ltac:(lia)) as (s2 & c2 & E2 & Hr2 & _).
  rewrite (bind_Ok _ _ _ _ _ E2). unfold set_ps. erewrite bind_Ok by apply modify_run.
  rewrite mret_run. split; [by apply set_ps_ok; [|lia]|]. split; [done|]. split; [simpl; lia|].
  unfold str_ok. simpl. split; [lia|].
  intros [Hlt|H0]; [|specialize (Hret (or_intror H0)); lia].
  destruct (decide (s < es)%nat); [specialize (Hret (or_introl l)); lia|lia].
Qed.

Lemma malloc1_runs sz p : line_ok p → runs (malloc1 sz) p 0 (λ _ _, True).
Proof.
  intros Hp. unfold malloc1, runs. erewrite bind_Ok by apply gets_run. change (id p) with p.
  destruct (MAXN <? used p + sz); [done|]. rewrite modify_run. split_and!; [destruct Hp; by constructor|done|simpl; lia|done].
Qed.

(** ** The functions of the parser *)

Lemma nonzero_lt p c : line_ok p → buf p !! ps p = Some c → c ≠ 0 → (ps p < es)%nat.
Proof.
  intros Hp Ec Hc. destruct (decide (ps p = es)) as [E|]; [|pose proof (lo_ps _ Hp); lia].
  rewrite E, (lo_end _ Hp) in Ec. congruence.
Qed.

(** [peek] for some token, then [gettoken] *)
Lemma peek_gettoken_runs {A} toks p (k : P A) (j : Z * str → P A) Q n :
  line_ok p →
  (∀ p', line_ok p' → (ps p ≤ ps p')%nat → runs k p' n Q) →
  (∀ r p', line_ok p' → (ps p < ps p')%nat → runs (j r) p' n Q) →
  runs (b ← peek es toks; if (b : bool) then (gettoken es ≫= j) else k) p n Q.
Proof.
  intros Hp Hk Hj. change n with (0 + n)%nat.
  eapply runs_bind; [by apply peek_runs|]. intros b p1 H1 Hle Hb. destruct b.
  - destruct (Hb eq_refl) as (c & Ec & _ & Hc0). change n with (0 + n)%nat.
    eapply runs_bind; [by apply gettoken_runs|]. intros r p2 H2 Hle2 [Hr Hadv].
    apply Hj; [done|]. specialize (Hadv (or_introl (nonzero_lt p1 c H1 Ec Hc0))). lia.
  - apply Hk; [done|lia].
Qed.

Definition redirs_ok (l : list (str * (Z * Z))) : Prop :=
  Forall (λ r, str_ok r.1 ∧ (r.2.2 = 0 ∨ r.2.2 = 1)) l.

Lemma redir_of_fd tok m d : redir_of tok = Some (m, d) → d = 0 ∨ d = 1.
Proof. unfold redir_of. repeat case_match; intros; simplify_eq; auto. Qed.

Lemma wrap_ok c l : cmd_ok c → redirs_ok l → cmd_ok (wrap c l).
Proof.
  unfold wrap. revert c. induction l as [|[f [m d]] l IH]; intros c Hc Hl; [done|].
  apply Forall_cons in Hl as [[Hf Hd] Hl]. by apply IH.
Qed.

(** The position stays within the line. *)
Ltac pos :=
  repeat match goal with H : line_ok ?p |- _ => pose proof (lo_ps _ H); clear H end; lia.

Lemma parseredirs_runs fuel : ∀ p,
  line_ok p → (es - ps p < fuel)%nat → runs (parseredirs es fuel) p 0 (λ l _, redirs_ok l).
Proof.
  induction fuel as [|fuel IH]; intros p Hp Hf; [lia|]. simpl.
  apply peek_gettoken_runs; [done|intros; apply runs_ret; [done|by constructor]|].
  intros [tok w] p1 H1 Hlt. change 0%nat with (0 + 0)%nat.
  eapply runs_bind; [by apply gettoken_runs|]. intros [tok2 file] p2 H2 Hle2 [Hfile _].
  destruct (negb (tok2 =? c_a)); [apply runs_panic|].
  destruct (redir_of tok) as [[m d]|] eqn:Er; [|apply IH; [done|pos]].
  change 0%nat with (0 + 0)%nat. eapply runs_bind; [by apply malloc1_runs|].
  intros [] p3 H3 Hle3 _. change 0%nat with (0 + 0)%nat.
  eapply runs_bind; [apply IH; [done|pos]|]. intros l p4 H4 _ Hl.
  apply runs_ret; [done|]. constructor; [|done]. split; [done|by eapply redir_of_fd].
Qed.

Lemma exec_args_runs fuel : ∀ argc p,
  line_ok p → (es - ps p < fuel)%nat →
  runs (exec_args es fuel argc) p 0 (λ r _, Forall str_ok r.1 ∧ redirs_ok r.2).
Proof.
  induction fuel as [|fuel IH]; intros argc p Hp Hf; [lia|]. cbn [exec_args].
  assert (∀ p' : parser, line_ok p' → runs (mret ([], [])) p' 0
    (λ (r : list str * list (str * (Z * Z))) _, Forall str_ok r.1 ∧ redirs_ok r.2)) as Hend
    by (intros; apply runs_ret; [done|split; constructor]).
  change 0%nat with (0 + 0)%nat. eapply runs_bind; [by apply peek_runs|]. intros b p1 H1 Hle1 _.
  destruct b; [by apply Hend|]. change 0%nat with (0 + 0)%nat.
  eapply runs_bind; [by apply gettoken_runs|]. intros [tok w] p2 H2 Hle2 [Hw Hadv].
  destruct (Z.eqb_spec tok 0) as [->|Ht]; [by apply Hend|]. specialize (Hadv (or_intror Ht)).
  destruct (negb (tok =? c_a)); [apply runs_panic|].
  destruct (MAXARGS <=? S argc)%nat; [apply runs_panic|].
  change 0%nat with (0 + 0)%nat.
  eapply runs_bind; [apply parseredirs_runs; [done|pos]|]. intros l p3 H3 Hle3 Hl.
  change 0%nat with (0 + 0)%nat.
  eapply runs_bind; [apply IH; [done|pos]|]. intros [args l'] p4 H4 _ [Ha Hl'].
  apply runs_ret; [done|]. split; [by constructor|by apply Forall_app].
Qed.

Section line.
(** [parseline] at a later position *)
Context (line : P cmd) (bound : nat).
Context (Hline : ∀ p, line_ok p → (es - ps p < bound)%nat → runs line p 0 (λ c _, cmd_ok c)).

Lemma parseexec_runs p :
  line_ok p → (es - ps p < S bound)%nat → runs (parseexec es line) p 0 (λ c _, cmd_ok c).
Proof using Hline.
  intros Hp Hb. unfold parseexec, parseblock. change 0%nat with (0 + 0)%nat.
  eapply runs_bind; [by apply peek_runs|]. intros b p1 H1 Hle1 Hb1. destruct b.
  - destruct (Hb1 eq_refl) as (c & Ec & _ & Hc0). change 0%nat with (0 + 0)%nat.
    eapply runs_bind; [by apply peek_runs|]. intros b p2 H2 Hle2 Hb2.
    destruct b; [|apply runs_panic]. destruct (Hb2 eq_refl) as (c2 & Ec2 & _ & Hc2).
    cbv beta iota delta [negb]. change 0%nat with (0 + 0)%nat.
    eapply runs_bind; [by apply gettoken_runs|]. intros r p3 H3 Hle3 [_ Hadv].
    specialize (Hadv (or_introl (nonzero_lt _ _ H2 Ec2 Hc2))).
    change 0%nat with (0 + 0)%nat.
    eapply runs_bind; [apply Hline; [done|pos]|]. intros cm p4 H4 Hle4 Hcm.
    change 0%nat with (0 + 0)%nat.
    eapply runs_bind; [by apply peek_runs|]. intros b p5 H5 Hle5 _.
    destruct b; [|apply runs_panic]. cbv beta iota delta [negb]. change 0%nat with (0 + 0)%nat.
    eapply runs_bind; [by apply gettoken_runs|]. intros r6 p6 H6 Hle6 _.
    change 0%nat with (0 + 0)%nat.
    eapply runs_bind; [apply parseredirs_runs; [done|pos]|]. intros l p7 H7 _ Hl.
    apply runs_ret; [done|by apply wrap_ok].
  - change 0%nat with (0 + 0)%nat.
    eapply runs_bind; [by apply malloc1_runs|]. intros [] p2 H2 Hle2 _.
    change 0%nat with (0 + 0)%nat.
    eapply runs_bind; [apply parseredirs_runs; [done|pos]|]. intros l p3 H3 Hle3 Hl.
    change 0%nat with (0 + 0)%nat.
    eapply runs_bind; [apply exec_args_runs; [done|pos]|]. intros [args l'] p4 H4 _ [Ha Hl'].
    apply runs_ret; [done|]. apply wrap_ok; [done|by apply Forall_app].
Qed.

Lemma parsepipe_runs fuel : ∀ p,
  line_ok p → (es - ps p < fuel)%nat → (es - ps p < S bound)%nat →
  runs (parsepipe es line fuel) p 0 (λ c _, cmd_ok c).
Proof using Hline.
  induction fuel as [|fuel IH]; intros p Hp Hf Hb; [lia|]. cbn [parsepipe].
  change 0%nat with (0 + 0)%nat.
  eapply runs_bind; [by apply parseexec_runs|]. intros c p1 H1 Hle1 Hc.
  apply peek_gettoken_runs; [done|intros; by apply runs_ret|].
  intros _ p2 H2 Hlt. change 0%nat with (0 + 0)%nat.
  eapply runs_bind; [apply IH; [done|pos|pos]|]. intros r p3 H3 Hle3 Hr.
  unfold pipecmd. change 0%nat with (0 + 0)%nat.
  eapply runs_bind; [by apply malloc1_runs|]. intros [] p4 H4 _ _. by apply runs_ret.
Qed.
End line.

Lemma back_loop_runs fuel : ∀ c p,
  line_ok p → (es - ps p < fuel)%nat → cmd_ok c → runs (back_loop es fuel c) p 0 (λ c _, cmd_ok c).
Proof.
  induction fuel as [|fuel IH]; intros c p Hp Hf Hc; [lia|]. cbn [back_loop].
  apply peek_gettoken_runs; [done|intros; by apply runs_ret|].
  intros _ p2 H2 Hlt. unfold backcmd. change 0%nat with (0 + 0)%nat.
  eapply (runs_bind _ _ _ 0 0 (λ c _, cmd_ok c)).
  - change 0%nat with (0 + 0)%nat. eapply runs_bind; [by apply malloc1_runs|].
    intros [] p4 H4 _ _. by apply runs_ret.
  - intros c' p3 H3 Hle3 Hc'. apply IH; [done|pos|done].
Qed.

Lemma parseline_runs fuel : ∀ p,
  line_ok p → (es - ps p < fuel)%nat → runs (parseline es fuel) p 0 (λ c _, cmd_ok c).
Proof.
  induction fuel as [|fuel IH]; intros p Hp Hf; [lia|]. cbn [parseline].
  change 0%nat with (0 + 0)%nat.
  eapply runs_bind; [apply (parsepipe_runs _ fuel IH); [done|pos|pos]|]. intros c p1 H1 Hle1 Hc.
  change 0%nat with (0 + 0)%nat.
  eapply runs_bind; [apply back_loop_runs; [done|pos|done]|]. intros c2 p2 H2 Hle2 Hc2.
  apply peek_gettoken_runs; [done|intros; by apply runs_ret|].
  intros _ p3 H3 Hlt. change 0%nat with (0 + 0)%nat.
  eapply runs_bind; [apply IH; [done|pos]|]. intros r p4 H4 Hle4 Hr.
  unfold listcmd. change 0%nat with (0 + 0)%nat.
  eapply runs_bind; [by apply malloc1_runs|]. intros [] p5 H5 _ _. by apply runs_ret.
Qed.

(** ** Terminating the strings *)

Lemma store_char_run s c p :
  length (buf p) = S es → (s ≤ es)%nat →
  ∃ p', put_char s c p = Ok (tt, p') ∧ length (buf p') = S es.
Proof.
  intros Hl Hs. destruct (lookup_lt_is_Some_2 (buf p) s ltac:(lia)) as [d Ed].
  eexists. unfold put_char, char_at. split.
  - erewrite bind_Ok by (apply getopt_run; exact Ed). apply modify_run.
  - simpl. by rewrite length_insert.
Qed.

Lemma nulterminate_run c : ∀ p,
  length (buf p) = S es → cmd_ok c → ∃ p', nulterminate c p = Ok (tt, p') ∧ length (buf p') = S es.
Proof.
  induction c as [argv|c IH file m d|l IHl r IHr|l IHl r IHr|c IH]; intros p Hl Hc; simpl in Hc |- *.
  - revert p Hl. induction Hc as [|a argv Ha _ IHa]; intros p Hl; simpl; [by exists p|].
    destruct (store_char_run a.2 0 p Hl Ha) as (p1 & E1 & L1). rewrite (bind_Ok _ _ _ _ _ E1).
    by apply IHa.
  - destruct Hc as (Hc & Hf & _). destruct (IH p Hl Hc) as (p1 & E1 & L1).
    rewrite (bind_Ok _ _ _ _ _ E1). by apply store_char_run.
  - destruct Hc as [H1 H2]. destruct (IHl p Hl H1) as (p1 & E1 & L1).
    rewrite (bind_Ok _ _ _ _ _ E1). by apply IHr.
  - destruct Hc as [H1 H2]. destruct (IHl p Hl H1) as (p1 & E1 & L1).
    rewrite (bind_Ok _ _ _ _ _ E1). by apply IHr.
  - by apply IH.
Qed.
End total.

Lemma parse_run line :
  0 ∉ line →
  (∃ c p, parse line = Ok (c, p) ∧ length (buf p) = S (length line) ∧ cmd_ok (length line) c) ∨
  parse line = Panic.
Proof.
  intros H0. set (es := length line). set (p := mkParser (line ++ [0]) 0 0).
  assert (line_ok es p) as Hp.
  { constructor; simpl.
    - rewrite length_app. simpl. unfold es. lia.
    - intros i c Hi E ->. apply H0. rewrite lookup_app_l in E by done. by eapply list_elem_of_lookup_2.
    - rewrite lookup_app_r by done. unfold es. by rewrite Nat.sub_diag.
    - lia. }
  unfold parse, parsecmd. fold es p.
  pose proof (parseline_runs es (S es) p Hp ltac:(lia)) as H1. unfold runs in H1.
  destruct (parseline es (S es) p) as [[c p1]| | | | |] eqn:E1; try done; [|right; by apply bind_Panic].
  rewrite (bind_Ok _ _ _ _ _ E1).
  destruct H1 as (Hp1 & _ & _ & Hc).
  pose proof (peek_runs es [] p1 Hp1) as H2. unfold runs in H2.
  destruct (peek es [] p1) as [[b p2]| | | | |] eqn:E2; try done; [|right; by apply bind_Panic].
  rewrite (bind_Ok _ _ _ _ _ E2).
  destruct H2 as (Hp2 & _). erewrite bind_Ok by apply gets_run. change (id p2) with p2.
  destruct (negb (ps p2 =? es)%nat); [by right|left].
  destruct (nulterminate_run es c p2 (lo_length _ _ Hp2) Hc) as (p3 & E3 & L3).
  rewrite (bind_Ok _ _ _ _ _ E3). exists c, p3. by split_and!.
Qed.

(** C35: for every line parsecmd comes to an end without reading or writing outside the line and its
    NUL: it returns a command or stops with an error message. *)
Theorem parsecmd_total line :
  0 ∉ line → (∃ c p, parse line = Ok (c, p) ∧ length (buf p) = S (length line)) ∨ parse line = Panic.
Proof.
  intros H0. destruct (parse_run line H0) as [(c & p & E & L & _)|E]; [left; by exists c, p|by right].
Qed.

(** [a;b] and a line with a syntax error *)
Lemma parsecmd_total_witness :
  ((∃ c p, parse [97; 59; 98] = Ok (c, p) ∧ length (buf p) = 4%nat) ∨ parse [97; 59; 98] = Panic) ∧
  parse [97; 59; 98] =
    Ok (ListCmd (ExecCmd [(0, 1)%nat]) (ExecCmd [(2, 3)%nat]), mkParser [97; 0; 98; 0] 3 360) ∧
  parse [40; 97] = Panic.
Proof.
  split; [apply (parsecmd_total [97; 59; 98])|split; by vm_compute].
  apply (bool_decide_unpack (0 ∉ [97; 59; 98])). by vm_compute.
Defined.
