(* ===== verification/ShRun.v ===== *)
(** * The shell runs what the command line asks for

    System calls get their POSIX meaning on tables of file descriptors, all of them
    succeeding; [run] collects the programs a process and its children turn into, with the files
    they start with.  [spec] says which programs a command stands for. *)

From Stdlib Require Import ZArith Lia.
From stdpp Require Import strings.
From S2P Require Import Prelude Words Format Sh ShSpec.

(** what a descriptor refers to; pipes are numbered *)
Inductive obj :=
  | Inherited (n : Z)
  | FileObj (path : list Z) (mode : Z)
  | PipeRd (id : positive)
  | PipeWr (id : positive).
#[export] Instance obj_eq : EqDecision obj.
Proof. solve_decision. Defined.

Notation fds := (gmap Z obj).

(** the least descriptor from [n] on that is not in use *)
Fixpoint lowest_from (fuel : nat) (n : Z) (f : fds) : Z :=
  match fuel with
  | O => n
  | S fuel => if f !! n then lowest_from fuel (n + 1) f else n
  end.
Definition lowest (f : fds) : Z := lowest_from (size f) 0 f.

(** [dup(fd)] *)
Definition dup_to (fd : Z) (f : fds) : fds :=
  match f !! fd with Some o => <[lowest f := o]> f | None => f end.

(** a program that starts: its path, its arguments, its files *)
Notation start := (list Z * list (list Z) * fds)%type.

(** All programs started from a process with the files [f]; [id] names its next pipe.  [None]
    if it comes to [Fault]. *)
Fixpoint run (id : positive) (f : fds) (t : proc) : option (list start) :=
  match t with
  | Exit _ => Some []
  | Put _ _ k => run id f k
  | Execv path argv _ => Some [(path, argv, f)]
  | Close fd k => run id (delete fd f) k
  | Open path mode k => let n := lowest f in run id (<[n := FileObj path mode]> f) (k n)
  | Dup fd k => run id (dup_to fd f) k
  | Pipe k =>
      let i := lowest f in
      let f := <[i := PipeRd id]> f in
      let j := lowest f in
      run (id~0)%positive (<[j := PipeWr id]> f) (k (Some (i, j)))
  | Fork k =>
      l ← run (id~0)%positive f (k 0); r ← run (id~1)%positive f (k (Zpos id)); Some (l ++ r)
  | Wait k => run id f k
  | Chdir _ k => run id f (k 0)
  | Fault => None
  end.

(** ** What a command stands for *)
Fixpoint spec (b : list Z) (id : positive) (f : fds) (c : cmd) : list start :=
  match c with
  | ExecCmd [] => []
  | ExecCmd (a :: argv) => [(string_at b a.1, map (λ a, string_at b a.1) (a :: argv), f)]
  | RedirCmd c file mode fd => spec b id (<[fd := FileObj (string_at b file.1) mode]> f) c
  | ListCmd l r => spec b id~0 f l ++ spec b id~1 f r
  | PipeCmd l r =>
      spec b id~0~0 (<[1 := PipeWr id]> f) l ++ spec b id~0~1~0 (<[0 := PipeRd id]> f) r
  | BackCmd c => spec b id~0 f c
  end.

Definition spec_line (id : positive) (f : fds) (line : list Z) : list start :=
  match parse line with Ok (c, p) => spec (buf p) id f c | _ => [] end.

Fixpoint spec_lines (id : positive) (f : fds) (lines : list (list Z)) : list start :=
  match lines with
  | [] => []
  | line :: lines =>
      if bool_decide (take 3 line = chars "cd ") then spec_lines id f lines
      else spec_line id~0 f line ++ spec_lines id~1 f lines
  end.

(** ** Descriptors *)

Lemma lowest_from_spec fuel n f :
  let m := lowest_from fuel n f in
  n ≤ m ∧ (∀ i, n ≤ i < m → is_Some (f !! i)) ∧
  (f !! m = None ∨ m = n + Z.of_nat fuel).
Proof.
  revert n. induction fuel as [|fuel IH]; intros n; simpl.
  - split; [lia|]. split; [lia|right; lia].
  - destruct (f !! n) eqn:En; [|split; [lia|]; split; [lia|by left]].
    destruct (IH (n + 1)) as (H1 & H2 & H3). split; [lia|]. split; [|destruct H3; [by left|right; lia]].
    intros i Hi. destruct (decide (i = n)) as [->|]; [by rewrite En|apply H2; lia].
Qed.

Lemma lowest_spec f :
  0 ≤ lowest f ∧ (∀ i, 0 ≤ i < lowest f → is_Some (f !! i)) ∧ f !! lowest f = None.
Proof.
  destruct (lowest_from_spec (size f) 0 f) as (H1 & H2 & H3). fold (lowest f) in *.
  split; [done|]. split; [done|]. destruct H3 as [|E]; [done|].
  destruct (f !! lowest f) eqn:Ef; [exfalso|done].
  (* more descriptors in use than there are *)
  assert (list_to_set (seqZ 0 (Z.of_nat (size f) + 1)) ⊆ dom f) as Hsub.
  { intros i Hi. apply elem_of_list_to_set, elem_of_seqZ in Hi. apply elem_of_dom.
    destruct (decide (i = lowest f)) as [->|]; [by rewrite Ef|apply H2; lia]. }
  apply subseteq_size in Hsub. rewrite size_dom, size_list_to_set in Hsub by apply NoDup_seqZ.
  rewrite length_seqZ in Hsub. lia.
Qed.

(** the descriptor a free place gets when all below are in use *)
Lemma lowest_delete f n : 0 ≤ n → (∀ i, 0 ≤ i < n → is_Some (f !! i)) → lowest (delete n f) = n.
Proof.
  intros Hn Hb. destruct (lowest_spec (delete n f)) as (H1 & H2 & H3).
  destruct (Z.lt_trichotomy (lowest (delete n f)) n) as [Hlt|[|Hgt]]; [|done|].
  - rewrite lookup_delete_ne in H3 by lia. destruct (Hb _ (conj H1 Hlt)). congruence.
  - destruct (H2 n ltac:(lia)) as [o Ho]. by rewrite lookup_delete_eq in Ho.
Qed.

(** standard input and output are open *)
Definition std (f : fds) : Prop := is_Some (f !! 0) ∧ is_Some (f !! 1).

Lemma std_below f n : std f → n = 0 ∨ n = 1 → ∀ i, 0 ≤ i < n → is_Some (f !! i).
Proof. intros [H0 H1] [-> | ->] i Hi; [lia|]. by replace i with 0 by lia. Qed.

Lemma std_insert f n o : std f → std (<[n := o]> f).
Proof. intros [H0 H1]. split; by apply lookup_insert_is_Some'; right. Qed.

(** [close(fd); open(..)] *)
Lemma reopen f n o :
  std f → n = 0 ∨ n = 1 → <[lowest (delete n f) := o]> (delete n f) = <[n := o]> f.
Proof.
  intros Hf Hn. rewrite lowest_delete; [apply insert_delete_eq|lia|by apply std_below].
Qed.

(** [pipe(p)], then in the child [close(n); dup(q); close(p[0]); close(p[1]);] with [q] one of
    the two ends: [n] becomes that end, and the child has no other descriptor of the pipe. *)
Lemma pipe_end f n i j q o or ow :
  i = lowest f → j = lowest (<[i := or]> f) →
  std f → n = 0 ∨ n = 1 → (q = i ∧ o = or) ∨ (q = j ∧ o = ow) →
  delete j (delete i (dup_to q (delete n (<[j := ow]> (<[i := or]> f))))) = <[n := o]> f.
Proof.
  intros Ei Ej Hf Hn Hq. set (f1 := <[i := or]> f) in *. set (f2 := <[j := ow]> f1).
  destruct (lowest_spec f) as (_ & _ & Hi). rewrite <- Ei in Hi.
  destruct (lowest_spec f1) as (_ & _ & Hj). rewrite <- Ej in Hj.
  assert (j ≠ i) as Hji by (intros E; unfold f1 in Hj; by rewrite E, lookup_insert_eq in Hj).
  unfold f1 in Hj. rewrite lookup_insert_ne in Hj by done.
  assert (i ≠ n ∧ j ≠ n) as [Hin Hjn].
  { destruct Hf as [[x H0] [y H1]]. split; intros ->; destruct Hn; congruence. }
  assert (std f2) as Hf2 by (by apply std_insert, std_insert).
  unfold dup_to. assert (delete n f2 !! q = Some o) as ->.
  { unfold f2, f1. destruct Hq as [[-> ->] | [-> ->]].
    - by rewrite lookup_delete_ne, lookup_insert_ne, lookup_insert_eq.
    - by rewrite lookup_delete_ne, lookup_insert_eq. }
  rewrite reopen by done. apply map_eq. intros k. unfold f2, f1.
  destruct (decide (k = j)) as [->|Hkj].
  { by rewrite lookup_delete_eq, lookup_insert_ne by done. }
  rewrite lookup_delete_ne by done. destruct (decide (k = i)) as [->|Hki].
  { by rewrite lookup_delete_eq, lookup_insert_ne by done. }
  rewrite lookup_delete_ne by done. destruct (decide (k = n)) as [->|Hkn].
  { by rewrite !lookup_insert_eq. }
  by rewrite !lookup_insert_ne by done.
Qed.

(** ** Commands *)

(** A successful [fork1] runs both sides. *)
Lemma fork1_run id f (k1 k2 : proc) :
  run id f (fork1 (λ pid, if pid =? 0 then k1 else k2)) =
  (l ← run id~0 f k1; r ← run id~1 f k2; Some (l ++ r)).
Proof. done. Qed.

Lemma lowest_nonneg f : (lowest f <? 0) = false.
Proof. apply Z.ltb_ge, lowest_spec. Qed.

Lemma runcmd_run es b c : ∀ id f,
  cmd_ok es c → std f → run id f (runcmd b c) = Some (spec b id f c).
Proof.
  induction c as [argv|c IH file m d|l IHl r IHr|l IHl r IHr|c IH]; intros id f Hc Hf.
  - by destruct argv.
  - destruct Hc as (Hc & _ & Hd). cbn [runcmd run spec]. rewrite lowest_nonneg, reopen by done.
    by apply IH, std_insert.
  - destruct Hc as [Hl Hr]. cbn [runcmd run spec]. rewrite fork1_run. cbn [run].
    rewrite fork1_run. cbn [run].
    rewrite (pipe_end f 1 _ _ _ (PipeWr id)) by tauto.
    rewrite (pipe_end f 0 _ _ _ (PipeRd id)) by tauto.
    rewrite IHl, IHr by (done || by apply std_insert). cbn [mbind option_bind].
    by rewrite app_nil_r.
  - destruct Hc as [Hl Hr]. cbn [runcmd spec]. rewrite fork1_run. cbn [run].
    by rewrite IHl, IHr.
  - cbn [runcmd spec]. rewrite fork1_run. cbn [run]. rewrite IH by done.
    cbn [mbind option_bind]. by rewrite app_nil_r.
Qed.

Lemma run_line_run id f line :
  0 ∉ line → std f → run id f (run_line line) = Some (spec_line id f line).
Proof.
  intros H0 Hf. unfold run_line, spec_line.
  destruct (parse_run line H0) as [(c & p & E & _ & Hc)|E]; rewrite E; [|done].
  by eapply runcmd_run.
Qed.

Lemma shell_loop_run lines : ∀ id f,
  Forall (λ line, 0 ∉ line) lines → std f →
  run id f (read_loop lines) = Some (spec_lines id f lines).
Proof.
  induction lines as [|line lines IH]; intros id f Hl Hf; [done|].
  apply Forall_cons in Hl as [H0 Hl]. cbn [read_loop run spec_lines].
  case_bool_decide; [by apply IH|]. rewrite fork1_run. cbn [run].
  by rewrite run_line_run, IH.
Qed.

(** The [console] is opened until descriptors 0, 1 and 2 are in use. *)
Lemma open_std_run fuel : ∀ id f k,
  (∀ i, 0 ≤ i < 4 - Z.of_nat fuel → is_Some (f !! i)) → (0 < fuel ≤ 4)%nat →
  ∃ f', run id f (open_std fuel k) = run id f' k ∧ std f' ∧ is_Some (f' !! 2) ∧
    (∀ i o, f !! i = Some o → f' !! i = Some o).
Proof.
  induction fuel as [|fuel IH]; intros id f k Hb Hfuel; [lia|].
  cbn [open_std run]. rewrite lowest_nonneg.
  destruct (lowest_spec f) as (Hn & Hlow & Hfree).
  set (n := lowest f) in *. set (o := FileObj _ _).
  assert (Z.of_nat 4 - Z.of_nat (S fuel) ≤ n) as Hge.
  { destruct (decide (Z.of_nat 4 - Z.of_nat (S fuel) ≤ n)) as [|Hlt]; [done|].
    destruct (Hb n ltac:(lia)). congruence. }
  destruct (Z.leb_spec 3 n) as [H3|H3].
  - exists f. cbn [run]. rewrite delete_insert_id by done.
    split; [done|]. split; [split; apply Hlow; lia|]. split; [apply Hlow; lia|done].
  - destruct (IH id (<[n := o]> f) k) as (f' & E & Hs & H2 & Hk).
    + intros i Hi. destruct (decide (i = n)) as [->|]; [rewrite lookup_insert_eq; by eexists|].
      rewrite lookup_insert_ne by done. destruct (decide (i < n)); [apply Hlow; lia|].
      apply Hb. lia.
    + lia.
    + exists f'. split; [done|]. split; [done|]. split; [done|]. intros i x Hx. apply Hk.
      rewrite lookup_insert_ne; [done|congruence].
Qed.


