(* ===== verification/User.v ===== *)
(** * [user/cat], [user/echo], [user/ls] and [user/mkdir]

    The programs are clients of the C library and of the system calls: the class [posix] has
    the calls they make, over a world [W].  [exit(c)] ends [main] like [return c].  Their loops
    read until the file ends, so they run on fuel.  What a terminal shows of the bytes a
    program writes one at a time or in pieces is the same, so a stream is its bytes. *)

From Stdlib Require Import ZArith Lia.
From stdpp Require Import strings.
From S2P Require Import Prelude Words Format Layout Inode Sh.

Class posix (W : Type) := {
  u_open : list Z → Z → M W Z;
  u_read : Z → Z → M W (Z * list Z);             (* the result and the bytes it put in the buffer *)
  u_close : Z → M W unit;
  u_fstat : Z → M W (option stat);               (* [None] for a negative result *)
  u_stat : list Z → M W (option stat);
  u_mkdirat : list Z → Z → M W Z;
  u_fgets : Z → M W (option (list Z));           (* of standard input *)
  u_put : Z → list Z → M W unit;                 (* bytes to a stream *)
  show_stat : stat → list Z }.                   (* ["%x %ld %ld"] of mode, inode and size *)

(** [<sys/stat.h>] *)
Definition S_IFMT : Z := 0xF000.
Definition S_ISREG (m : Z) : bool := Z.land m S_IFMT =? S_IFREG.
Definition S_ISDIR (m : Z) : bool := Z.land m S_IFMT =? S_IFDIR.

Definition DIRSIZ : Z := FILE_NAME_MAX_LENGTH.
Definition sizeof_DirEntry : Z := 16.

(** ** [fmtname]: paths are lists of characters, their end is the NUL *)

(** [p + 1] for the [p] the loop stops at, when it starts below position [n] *)
Fixpoint after_slash (path : list Z) (n : nat) : nat :=
  match n with
  | O => O
  | S i => if bool_decide (path !! i = Some SLASH) then n else after_slash path i
  end.
Definition fmtname (path : list Z) : list Z :=
  let p := drop (after_slash path (length path)) path in
  if DIRSIZ <=? Z.of_nat (length p) then p
  else p ++ replicate (Z.to_nat (DIRSIZ - Z.of_nat (length p))) c_space.

Section programs.
Context {W : Type} `{posix W}.

(** ** [cat] *)

Fixpoint cat_loop (fuel : nat) (fd : Z) : M W unit :=
  match fuel with
  | O => nofuel
  | S fuel =>
      '(n, buf) ← u_read fd 512;
      if 0 <? n then for_each (take (Z.to_nat n) buf) (λ c, u_put 1 [c]);; cat_loop fuel fd
      else mret tt
  end.

Definition cat_file (fuel : nat) (path : list Z) : M W unit :=
  fd ← u_open path O_RDONLY;
  if fd <? 0 then mret tt else cat_loop fuel fd;; u_close fd.

Definition cat_main (fuel : nat) (argv : list (list Z)) : M W Z :=
  for_each (drop 1 argv) (cat_file fuel);;
  when (length argv =? 1)%nat (cat_loop fuel 0);;
  mret 0.

(** ** [echo] *)

Fixpoint echo_input (fuel : nat) : M W unit :=
  match fuel with
  | O => nofuel
  | S fuel =>
      s ← u_fgets 512;
      match s with None => mret tt | Some s => u_put 1 s;; echo_input fuel end
  end.

Fixpoint echo_args (argv : list (list Z)) : M W unit :=
  match argv with
  | [] => mret tt
  | a :: argv => u_put 1 a;; when (negb (bool_decide (argv = []))) (u_put 1 [c_space]);; echo_args argv
  end.

Definition echo_main (fuel : nat) (argv : list (list Z)) : M W Z :=
  if (length argv =? 1)%nat then echo_input fuel;; mret 0
  else
    let argv := drop 1 argv in
    let nflag := bool_decide (argv !! 0%nat = Some (chars "-n")) in
    let argv := if nflag then drop 1 argv else argv in
    echo_args argv;;
    when (negb nflag) (u_put 1 [c_nl]);;
    mret 0.

(** ** [mkdir] *)

Definition mkdir_main (argv : list (list Z)) : M W Z :=
  if (length argv <? 2)%nat then u_put 1 (chars "give at least 2 args" ++ [c_nl]);; mret 1
  else
    for_each (drop 1 argv) (λ a,
      r ← u_mkdirat a 0;
      when (r <? 0) (u_put 1 (a ++ chars " failed" ++ [c_nl])));;
    mret 0.

(** ** [ls] *)

Definition ls_line (path : list Z) (st : stat) : list Z :=
  fmtname path ++ [c_space] ++ show_stat st ++ [c_nl].

Definition ls_entry (path : list Z) (de : DirEntry) : M W unit :=
  if inode_no de =? 0 then mret tt
  else
    let buf := path ++ [SLASH] ++ until_nul (name de) in
    st ← u_stat buf;
    match st with
    | None => u_put 2 (chars "ls: cannot stat " ++ buf ++ [c_nl])
    | Some st => u_put 1 (ls_line buf st)
    end.

Fixpoint ls_loop (fuel : nat) (fd : Z) (path : list Z) : M W unit :=
  match fuel with
  | O => nofuel
  | S fuel =>
      '(n, b) ← u_read fd sizeof_DirEntry;
      if n =? sizeof_DirEntry then ls_entry path (dec_dirent b);; ls_loop fuel fd path
      else mret tt
  end.

Definition ls (fuel : nat) (path : list Z) : M W unit :=
  fd ← u_open path O_RDONLY;
  if fd <? 0 then u_put 2 (chars "ls: cannot open " ++ path ++ [c_nl])
  else
    st ← u_fstat fd;
    match st with
    | None => u_put 2 (chars "ls: cannot stat " ++ path ++ [c_nl]);; u_close fd
    | Some st =>
        (if S_ISREG (st_mode st) then u_put 1 (ls_line path st)
         else if S_ISDIR (st_mode st) then
           if 512 <? Z.of_nat (length path) + 1 + DIRSIZ + 1 then u_put 2 (chars "ls: path too long" ++ [c_nl])
           else ls_loop fuel fd path
         else mret tt);;
        u_close fd
    end.

Definition ls_main (fuel : nat) (argv : list (list Z)) : M W Z :=
  (if (length argv <? 2)%nat then ls fuel (chars ".") else for_each (drop 1 argv) (ls fuel));;
  mret 0.
End programs.
