(* ===== verification/UserSpec.v ===== *)
(** * What [cat], [echo] and [ls] print *)

From Stdlib Require Import ZArith Lia.
From stdpp Require Import strings pretty.
From S2P Require Import Prelude Words Format Layout Inode Sh User.

(** ** What the programs rely on *)

(** The files that can be opened, what is left to read of the open ones, and what went to
    standard output and to standard error. *)
Record view := mkView {
  v_files : gmap (list Z) (stat * list Z);
  v_fds : gmap Z (stat * list Z);
  v_out : list Z;
  v_err : list Z }.
Definition set_fds (f : gmap Z (stat * list Z) → gmap Z (stat * list Z)) (v : view) : view :=
  mkView (v_files v) (f (v_fds v)) (v_out v) (v_err v).
Definition add_out (l : list Z) (v : view) : view := mkView (v_files v) (v_fds v) (v_out v ++ l) (v_err v).
Definition add_err (l : list Z) (v : view) : view := mkView (v_files v) (v_fds v) (v_out v) (v_err v ++ l).

(** [m] returns [a] and leaves the view [v] *)
Definition does {W A} (look : W → view) (m : M W A) (w : W) (v : view) (a : A) : Prop :=
  ∃ w', m w = Ok (a, w') ∧ look w' = v.

Class posix_laws (W : Type) `{posix W} := {
  u_view : W → view;
  u_nofile : nat;
  open_law p w : (size (v_fds (u_view w)) < u_nofile)%nat →
    match v_files (u_view w) !! p with
    | Some x => ∃ fd, 0 ≤ fd ∧ v_fds (u_view w) !! fd = None ∧
        does u_view (u_open p O_RDONLY) w (set_fds <[fd := x]> (u_view w)) fd
    | None => ∃ r, r < 0 ∧ does u_view (u_open p O_RDONLY) w (u_view w) r
    end;
  read_law fd n st l w : v_fds (u_view w) !! fd = Some (st, l) →
    does u_view (u_read fd n) w (set_fds <[fd := (st, drop (Z.to_nat n) l)]> (u_view w))
      (Z.of_nat (length (take (Z.to_nat n) l)), take (Z.to_nat n) l);
  close_law fd w : is_Some (v_fds (u_view w) !! fd) → does u_view (u_close fd) w (set_fds (delete fd) (u_view w)) tt;
  fstat_law fd st l w : v_fds (u_view w) !! fd = Some (st, l) → does u_view (u_fstat fd) w (u_view w) (Some st);
  stat_law p w : does u_view (u_stat p) w (u_view w) (fst <$> v_files (u_view w) !! p);
  put_law l w : does u_view (u_put 1 l) w (add_out l (u_view w)) tt;
  put_err_law l w : does u_view (u_put 2 l) w (add_err l (u_view w)) tt }.

(** ** [fmtname] *)

Lemma after_slash_skip path i n : (∀ k, (i ≤ k < i + n)%nat → path !! k ≠ Some SLASH) →
  after_slash path (i + n) = after_slash path i.
Proof.
  induction n as [|n IH]; intros Hn; [by rewrite Nat.add_0_r|]. rewrite Nat.add_succ_r. simpl.
  rewrite bool_decide_false by (apply Hn; lia). apply IH. intros k Hk. apply Hn. lia.
Qed.

Definition padded (nm : list Z) : list Z := nm ++ replicate (14 - length nm) c_space.

Lemma fmtname_tail path nm i : SLASH ∉ nm → length path = (i + length nm)%nat → drop i path = nm →
  after_slash path i = i → fmtname path = padded nm.
Proof.
  intros Hn Hl Hd Ha. unfold fmtname, padded. rewrite Hl, after_slash_skip, Ha, Hd.
  - change DIRSIZ with 14. destruct (Z.leb_spec 14 (Z.of_nat (length nm))).
    + replace (14 - length nm)%nat with 0%nat by lia. by rewrite app_nil_r.
    + do 2 f_equal. lia.
  - intros k Hk E. apply Hn. apply list_elem_of_lookup. exists (k - i)%nat. rewrite <-Hd, lookup_drop, <-E. f_equal. lia.
Qed.

(** [fmtname] gives what follows the last slash, with blanks up to the length of a name *)
Theorem fmtname_correct dir nm : SLASH ∉ nm →
  fmtname (dir ++ SLASH :: nm) = padded nm ∧ fmtname nm = padded nm.
Proof.
  intros Hn. split.
  - apply (fmtname_tail _ nm (S (length dir)) Hn).
    + rewrite length_app. simpl. lia.
    + rewrite drop_app_ge by lia. by replace (S (length dir) - length dir)%nat with 1%nat by lia.
    + simpl. rewrite bool_decide_true; [done|]. by rewrite lookup_app_r, Nat.sub_diag by lia.
  - by apply (fmtname_tail nm nm 0).
Qed.

Section run.
Context {W : Type} `{posix_laws W}.
Implicit Types (w : W) (v : view).
Notation dos := (does u_view).

Lemma does_bind {A B} (m : M W A) (k : A → M W B) w v v' a b :
  dos m w v a → (∀ w', u_view w' = v → dos (k a) w' v' b) → dos (m ≫= k) w v' b.
Proof. intros (w1 & E1 & Hv) Hk. destruct (Hk w1 Hv) as (w2 & E2 & Hv2). exists w2. split; [by rewrite (bind_Ok _ _ _ _ _ E1)|done]. Qed.

Lemma does_ret {A} (a : A) w : dos (mret a) w (u_view w) a.
Proof. by exists w. Qed.

Lemma put_each l : ∀ w, dos (for_each l (λ c, u_put 1 [c])) w (add_out l (u_view w)) tt.
Proof.
  induction l as [|c l IH]; intros w; simpl.
  - exists w. split; [done|]. unfold add_out. rewrite app_nil_r. by destruct (u_view w).
  - eapply does_bind; [apply put_law|]. intros w' Hw. destruct (IH w') as (w2 & E2 & Hv). exists w2. split; [done|].
    rewrite Hv, Hw. unfold add_out. simpl. by rewrite <-app_assoc.
Qed.

(** ** [cat] *)

Lemma cat_loop_run fuel fd st : ∀ l w, (length l < fuel)%nat → v_fds (u_view w) !! fd = Some (st, l) →
  dos (cat_loop fuel fd) w (add_out l (set_fds <[fd := (st, [])]> (u_view w))) tt.
Proof.
  induction fuel as [|fuel IH]; intros l w Hf Hl; [lia|]. cbn [cat_loop].
  eapply does_bind; [by apply read_law|]. intros w1 Hw1. cbv beta iota. change (Z.to_nat 512) with 512%nat in *.
  destruct (Z.ltb_spec 0 (Z.of_nat (length (take 512 l)))) as [Hlt|Hge].
  - eapply does_bind; [apply put_each|]. intros w2 Hw2. rewrite Nat2Z.id, firstn_all in Hw2.
    assert (v_fds (u_view w2) !! fd = Some (st, drop 512 l)) as Hl2 by (rewrite Hw2, Hw1; apply lookup_insert_eq).
    rewrite length_take in Hlt. destruct (IH (drop 512 l) w2) as (w3 & E3 & Hv); [rewrite length_drop; lia|done|].
    exists w3. split; [done|]. rewrite Hv, Hw2, Hw1. unfold add_out, set_fds. simpl.
    by rewrite insert_insert_eq, <-app_assoc, take_drop.
  - assert (l = []) as -> by (destruct l; [done|rewrite length_take in Hge; simpl in Hge; lia]).
    exists w1. split; [done|]. rewrite Hw1. unfold add_out, set_fds. simpl. by rewrite app_nil_r.
Qed.

Definition contents (v : view) (p : list Z) : list Z :=
  match v_files v !! p with Some (_, l) => l | None => [] end.

Lemma view_eta v : mkView (v_files v) (v_fds v) (v_out v) (v_err v) = v.
Proof. by destruct v. Qed.

Lemma cat_file_run fuel p w : (size (v_fds (u_view w)) < u_nofile)%nat → (length (contents (u_view w) p) < fuel)%nat →
  dos (cat_file fuel p) w (add_out (contents (u_view w) p) (u_view w)) tt.
Proof.
  intros Hs Hf. pose proof (open_law p w Hs) as Ho. unfold contents in *. unfold cat_file.
  destruct (v_files (u_view w) !! p) as [[st l]|].
  - destruct Ho as (fd & Hfd0 & Hfd & Ho). eapply does_bind; [exact Ho|]. intros w1 Hw1. rewrite (proj2 (Z.ltb_ge fd 0)) by lia.
    eapply does_bind; [apply (cat_loop_run fuel fd st l w1 Hf); rewrite Hw1; apply lookup_insert_eq|]. intros w2 Hw2.
    destruct (close_law fd w2) as (w3 & E3 & Hv); [rewrite Hw2; simpl; rewrite lookup_insert_eq; by eexists|].
    exists w3. split; [done|]. rewrite Hv, Hw2, Hw1. unfold add_out, set_fds. simpl.
    by rewrite insert_insert_eq, delete_insert_id by done.
  - destruct Ho as (r & Hr & Ho). eapply does_bind; [exact Ho|]. intros w1 Hw1. rewrite (proj2 (Z.ltb_lt r 0)) by lia.
    exists w1. split; [done|]. rewrite Hw1. unfold add_out. by rewrite app_nil_r, view_eta.
Qed.

(** [cat] prints the files it is given, one after the other, without those it cannot open, and
    closes what it opens; without arguments it copies its standard input. *)
Theorem cat_correct fuel prog args w :
  (size (v_fds (u_view w)) < u_nofile)%nat → Forall (λ p, length (contents (u_view w) p) < fuel)%nat args →
  match args with
  | [] => ∀ st l, v_fds (u_view w) !! 0 = Some (st, l) → (length l < fuel)%nat →
      dos (cat_main fuel [prog]) w (add_out l (set_fds <[0 := (st, [])]> (u_view w))) 0
  | _ => dos (cat_main fuel (prog :: args)) w (add_out (concat (map (contents (u_view w)) args)) (u_view w)) 0
  end.
Proof.
  intros Hs Hf. destruct args as [|p args].
  - intros st l Hl Hlen. unfold cat_main. simpl. eapply does_bind; [apply does_ret|]. intros w1 Hw1.
    eapply does_bind; [apply (cat_loop_run fuel 0 st l); [done|by rewrite Hw1]|]. intros w2 Hw2. exists w2. by rewrite Hw2, Hw1.
  - cut (∀ w', (∃ x, u_view w' = add_out x (u_view w)) →
      dos (for_each (p :: args) (cat_file fuel)) w' (add_out (concat (map (contents (u_view w)) (p :: args))) (u_view w')) tt).
    { intros Hc. unfold cat_main. change (drop 1 (prog :: p :: args)) with (p :: args).
      eapply does_bind; [apply Hc; exists []; unfold add_out; by rewrite app_nil_r, view_eta|]. intros w1 Hw1. simpl.
      eapply does_bind; [apply does_ret|]. intros w2 Hw2. exists w2. by rewrite Hw2, Hw1. }
    revert Hf. generalize (p :: args) as l. induction l as [|q l IH]; intros Hf w' [x Hx]; simpl.
    + exists w'. split; [done|]. unfold add_out. by rewrite app_nil_r, view_eta.
    + apply Forall_cons in Hf as [Hq Hf]. assert (contents (u_view w') q = contents (u_view w) q) as Eq by by rewrite Hx.
      eapply does_bind; [apply (cat_file_run fuel q w'); [by rewrite Hx|rewrite Eq; exact Hq]|]. intros w1 Hw1.
      destruct (IH Hf w1) as (w2 & E2 & Hv); [exists (x ++ contents (u_view w) q); rewrite Hw1, Eq, Hx; unfold add_out; simpl; by rewrite app_assoc|].
      exists w2. split; [done|]. rewrite Hv, Hw1, Eq. unfold add_out. simpl. by rewrite <-app_assoc.
Qed.

(** ** [ls] *)

(** the entries of a directory: a rest that is no whole entry does not count *)
Fixpoint dirents (n : nat) (l : list Z) : list DirEntry :=
  match n with O => [] | S n => dec_dirent (take 16 l) :: dirents n (drop 16 l) end.
Definition entries_of (l : list Z) : list DirEntry := dirents (length l / 16) l.

(** what [ls] writes about an entry, to its output or to standard error *)
Definition entry_path (path : list Z) (de : DirEntry) : list Z := path ++ [SLASH] ++ until_nul (name de).
Definition entry_out (v : view) (path : list Z) (de : DirEntry) : list Z :=
  if inode_no de =? 0 then [] else
  match v_files v !! entry_path path de with Some (st, _) => ls_line (entry_path path de) st | None => [] end.
Definition entry_err (v : view) (path : list Z) (de : DirEntry) : list Z :=
  if inode_no de =? 0 then [] else
  match v_files v !! entry_path path de with
  | Some _ => []
  | None => chars "ls: cannot stat " ++ entry_path path de ++ [c_nl]
  end.

Definition said (out err : list Z) (v : view) : view := add_err err (add_out out v).

Lemma said_nil v : said [] [] v = v.
Proof. unfold said, add_err, add_out. simpl. by rewrite !app_nil_r, view_eta. Qed.

Lemma said_said o e o' e' v : said o' e' (said o e v) = said (o ++ o') (e ++ e') v.
Proof. unfold said, add_err, add_out. simpl. by rewrite <-!app_assoc. Qed.

Lemma said_fds o e f v : set_fds f (said o e v) = said o e (set_fds f v).
Proof. done. Qed.

Lemma ls_entry_run path de w :
  dos (ls_entry path de) w (said (entry_out (u_view w) path de) (entry_err (u_view w) path de) (u_view w)) tt.
Proof.
  unfold ls_entry, entry_out, entry_err. destruct (inode_no de =? 0); [rewrite said_nil; apply does_ret|].
  fold (entry_path path de). eapply does_bind; [apply stat_law|]. intros w1 Hw1.
  destruct (v_files (u_view w) !! entry_path path de) as [[st l]|]; cbn [fmap option_fmap option_map fst].
  - destruct (put_law (ls_line (entry_path path de) st) w1) as (w2 & E & Hv). exists w2. split; [done|].
    rewrite Hv, Hw1. unfold said, add_err, add_out. simpl. by rewrite app_nil_r.
  - destruct (put_err_law (chars "ls: cannot stat " ++ entry_path path de ++ [c_nl]) w1) as (w2 & E & Hv). exists w2. split; [done|].
    rewrite Hv, Hw1. unfold said, add_err, add_out. simpl. by rewrite app_nil_r.
Qed.

Lemma ls_loop_run fuel fd path st : ∀ l w, (length l < fuel)%nat → v_fds (u_view w) !! fd = Some (st, l) →
  ∃ r, dos (ls_loop fuel fd path) w (said (concat (map (entry_out (u_view w) path) (entries_of l)))
    (concat (map (entry_err (u_view w) path) (entries_of l))) (set_fds <[fd := (st, r)]> (u_view w))) tt.
Proof.
  induction fuel as [|fuel IH]; intros l w Hf Hl; [lia|]. cbn [ls_loop]. unfold entries_of.
  pose proof (read_law fd sizeof_DirEntry st l w Hl) as Hr. change (Z.to_nat sizeof_DirEntry) with 16%nat in Hr.
  destruct (decide (16 ≤ length l)%nat) as [Hle|Hlt].
  - assert (length l / 16 = S (length (drop 16 l) / 16))%nat as ->.
    { rewrite length_drop. replace (length l) with (length l - 16 + 1 * 16)%nat at 1 by lia. rewrite Nat.div_add by done. lia. }
    cbn [dirents map concat].
    destruct Hr as (w1 & E1 & Hw1). destruct (ls_entry_run path (dec_dirent (take 16 l)) w1) as (w2 & E2 & Hw2).
    destruct (IH (drop 16 l) w2) as (r & w3 & E3 & Hv).
    { rewrite length_drop. lia. }
    { rewrite Hw2, Hw1. apply lookup_insert_eq. }
    exists r, w3. split.
    + rewrite (bind_Ok _ _ _ _ _ E1). rewrite length_take_le by done. change (Z.of_nat 16 =? sizeof_DirEntry) with true. cbv iota beta.
      by rewrite (bind_Ok _ _ _ _ _ E2).
    + rewrite Hv, Hw2, Hw1. unfold said, add_err, add_out, set_fds. simpl. by rewrite insert_insert_eq, <-!app_assoc.
  - exists (drop 16 l). destruct Hr as (w1 & E1 & Hw1). exists w1. split.
    + rewrite (bind_Ok _ _ _ _ _ E1). rewrite take_ge by lia. by rewrite (proj2 (Z.eqb_neq _ _)) by (unfold sizeof_DirEntry; lia).
    + rewrite Hw1, (Nat.div_small (length l) 16) by lia. simpl. by rewrite said_nil.
Qed.

(** what [ls] writes about a path *)
Definition listing (v : view) (path : list Z) : list Z * list Z :=
  match v_files v !! path with
  | None => ([], chars "ls: cannot open " ++ path ++ [c_nl])
  | Some (st, l) =>
      if S_ISREG (st_mode st) then (ls_line path st, [])
      else if S_ISDIR (st_mode st) then
        if 512 <? Z.of_nat (length path) + 16 then ([], chars "ls: path too long" ++ [c_nl])
        else (concat (map (entry_out v path) (entries_of l)), concat (map (entry_err v path) (entries_of l)))
      else ([], [])
  end.

Lemma ls_run fuel p w : (size (v_fds (u_view w)) < u_nofile)%nat → (length (contents (u_view w) p) < fuel)%nat →
  dos (ls fuel p) w (said (listing (u_view w) p).1 (listing (u_view w) p).2 (u_view w)) tt.
Proof.
  intros Hs Hf. pose proof (open_law p w Hs) as Ho. unfold contents, listing in *. unfold ls.
  destruct (v_files (u_view w) !! p) as [[st l]|].
  - destruct Ho as (fd & Hfd0 & Hfd & Ho). eapply does_bind; [exact Ho|]. intros w1 Hw1. rewrite (proj2 (Z.ltb_ge fd 0)) by lia.
    assert (v_fds (u_view w1) !! fd = Some (st, l)) as Hl1 by (rewrite Hw1; apply lookup_insert_eq).
    eapply does_bind; [by apply (fstat_law fd st l)|]. intros w2 Hw2. rewrite <-Hw2 in Hl1.
    assert (∀ o e r w', u_view w' = said o e (set_fds <[fd := (st, r)]> (u_view w2)) → dos (u_close fd) w' (said o e (u_view w)) tt) as Hclose.
    { intros o e r w' Hw'. destruct (close_law fd w') as (w3 & E3 & Hv); [rewrite Hw'; simpl; rewrite lookup_insert_eq; by eexists|].
      exists w3. split; [done|]. rewrite Hv, Hw', Hw2, Hw1. unfold said, add_err, add_out, set_fds. simpl.
      by rewrite insert_insert_eq, delete_insert_id. }
    assert (set_fds <[fd := (st, l)]> (u_view w2) = u_view w2) as Eid.
    { unfold set_fds. rewrite insert_id by done. apply view_eta. }
    assert (∀ m o e, dos m w2 (said o e (u_view w2)) tt → dos (m;; u_close fd) w2 (said o e (u_view w)) tt) as Hthen.
    { intros m o e Hm. eapply does_bind; [exact Hm|]. intros w3 Hw3. apply (Hclose o e l). by rewrite Hw3, Eid. }
    change DIRSIZ with 14. replace (Z.of_nat (length p) + 1 + 14 + 1) with (Z.of_nat (length p) + 16) by lia.
    assert (∀ o, add_out o (u_view w2) = said o [] (u_view w2)) as Eo.
    { intros o. unfold said, add_err, add_out. simpl. by rewrite app_nil_r. }
    assert (∀ e, add_err e (u_view w2) = said [] e (u_view w2)) as Ee.
    { intros e. unfold said, add_err, add_out. simpl. by rewrite app_nil_r. }
    destruct (S_ISREG (st_mode st)); [apply Hthen; rewrite <-Eo; apply put_law|].
    destruct (S_ISDIR (st_mode st)); [|apply Hthen; rewrite said_nil; apply does_ret].
    destruct (512 <? Z.of_nat (length p) + 16); [apply Hthen; rewrite <-Ee; apply put_err_law|].
    destruct (ls_loop_run fuel fd p st l w2 Hf Hl1) as (r & Hr).
    assert (u_view w2 = set_fds <[fd := (st, l)]> (u_view w)) as Hw by by rewrite Hw2.
    eapply does_bind; [exact Hr|]. intros w3 Hw3. cbn [fst snd].
    assert (entry_out (u_view w) p = entry_out (u_view w2) p) as -> by by rewrite Hw.
    assert (entry_err (u_view w) p = entry_err (u_view w2) p) as -> by by rewrite Hw.
    by apply (Hclose _ _ r).
  - destruct Ho as (r & Hr & Ho). eapply does_bind; [exact Ho|]. intros w1 Hw1. rewrite (proj2 (Z.ltb_lt r 0)) by lia.
    destruct (put_err_law (chars "ls: cannot open " ++ p ++ [c_nl]) w1) as (w2 & E & Hv). exists w2. split; [done|].
    rewrite Hv, Hw1. unfold said, add_err, add_out. cbn [fst snd v_files v_fds v_out v_err]. by rewrite app_nil_r.
Qed.

(** [ls] lists each of its arguments in turn, the working directory without any: a line for a
    file, a line for every entry in use of a directory whose file can be found, a complaint
    for the others; nothing stays open. *)
Theorem ls_correct fuel prog args w :
  let paths := match args with [] => [chars "."] | _ => args end in
  (size (v_fds (u_view w)) < u_nofile)%nat → Forall (λ p, length (contents (u_view w) p) < fuel)%nat paths →
  dos (ls_main fuel (prog :: args)) w
    (said (concat (map (λ p, (listing (u_view w) p).1) paths)) (concat (map (λ p, (listing (u_view w) p).2) paths)) (u_view w)) 0.
Proof.
  intros paths Hs Hf.
  cut (dos (for_each paths (ls fuel)) w
    (said (concat (map (λ p, (listing (u_view w) p).1) paths)) (concat (map (λ p, (listing (u_view w) p).2) paths)) (u_view w)) tt).
  { intros (w1 & E1 & Hw1). exists w1. split; [|done]. unfold ls_main. destruct args as [|a args]; simpl; simpl in E1.
    - unfold paths in E1. simpl in E1. apply bind_inv in E1 as ([] & w2 & E & [= ->]). by rewrite (bind_Ok _ _ _ _ _ E).
    - by rewrite (bind_Ok _ _ _ _ _ E1). }
  clearbody paths. revert Hf.
  cut (∀ w', (∃ o e, u_view w' = said o e (u_view w)) → Forall (λ p, length (contents (u_view w) p) < fuel)%nat paths →
    dos (for_each paths (ls fuel)) w' (said (concat (map (λ p, (listing (u_view w) p).1) paths))
      (concat (map (λ p, (listing (u_view w) p).2) paths)) (u_view w')) tt).
  { intros Hc. apply Hc. exists [], []. by rewrite said_nil. }
  induction paths as [|p paths IH]; intros w' (o & e & Hw') Hf; simpl.
  { rewrite said_nil. by exists w'. }
  apply Forall_cons in Hf as [Hp Hf]. assert (listing (u_view w') p = listing (u_view w) p) as Eq by by rewrite Hw'.
  eapply does_bind; [apply (ls_run fuel p w'); [by rewrite Hw'|]|].
  { replace (contents (u_view w') p) with (contents (u_view w) p) by by rewrite Hw'. exact Hp. }
  intros w1 Hw1. rewrite Eq in Hw1. destruct (IH w1) as (w2 & E2 & Hv); [|done|].
  - rewrite Hw', said_said in Hw1. by do 2 eexists.
  - exists w2. split; [done|]. rewrite Hv, Hw1. apply said_said.
Qed.

(** ** [echo] *)

Fixpoint spaced (l : list (list Z)) : list Z :=
  match l with [] => [] | [a] => a | a :: l => a ++ [c_space] ++ spaced l end.

Lemma echo_args_run l : ∀ w, dos (echo_args l) w (add_out (spaced l) (u_view w)) tt.
Proof.
  induction l as [|a l IH]; intros w; cbn [echo_args].
  { exists w. split; [done|]. unfold add_out. simpl. by rewrite app_nil_r, view_eta. }
  eapply does_bind; [apply put_law|]. intros w1 Hw1. destruct l as [|b l].
  - rewrite bool_decide_true by done. cbn [negb]. eapply does_bind; [apply does_ret|]. intros w2 Hw2.
    exists w2. by rewrite Hw2, Hw1.
  - rewrite bool_decide_false by done. cbn [negb]. eapply does_bind; [apply put_law|]. intros w2 Hw2.
    destruct (IH w2) as (w3 & E3 & Hv). exists w3. split; [done|]. rewrite Hv, Hw2, Hw1.
    unfold add_out. simpl. by rewrite <-!app_assoc.
Qed.

(** [echo] prints its arguments with blanks between them, and a newline unless the first
    argument is [-n], which is not printed. *)
Theorem echo_correct fuel prog args w : args ≠ [] →
  dos (echo_main fuel (prog :: args)) w
    (add_out (if bool_decide (head args = Some (chars "-n")) then spaced (tail args) else spaced args ++ [c_nl]) (u_view w)) 0.
Proof.
  intros Hne. unfold echo_main. destruct args as [|a args]; [done|]. cbn [length Nat.eqb drop lookup list_lookup head hd_error tail tl].
  destruct (bool_decide (Some a = Some (chars "-n"))); cbn [negb when].
  - eapply does_bind; [apply echo_args_run|]. intros w1 Hw1. eapply does_bind; [apply does_ret|]. intros w2 Hw2.
    exists w2. by rewrite Hw2, Hw1.
  - eapply does_bind; [apply echo_args_run|]. intros w1 Hw1. eapply does_bind; [apply put_law|]. intros w2 Hw2.
    exists w2. split; [done|]. rewrite Hw2, Hw1. unfold add_out. simpl. by rewrite <-app_assoc.
Qed.
End run.

(** ** A simulated world with those laws *)

Definition next_fd (v : view) : Z := 1 + foldr Z.max 0 (map fst (map_to_list (v_fds v))).

#[local] Instance sim_posix : posix view := {|
  u_open p _ v := match v_files v !! p with
    | Some x => if (size (v_fds v) <? 16)%nat then Ok (next_fd v, set_fds <[next_fd v := x]> v) else Ok (-1, v)
    | None => Ok (-1, v)
    end;
  u_read fd n v := match v_fds v !! fd with
    | Some (st, l) => let b := take (Z.to_nat n) l in
        Ok ((Z.of_nat (length b), b), set_fds <[fd := (st, drop (Z.to_nat n) l)]> v)
    | None => Ok ((-1, []), v)
    end;
  u_close fd v := Ok (tt, set_fds (delete fd) v);
  u_fstat fd v := Ok (fst <$> v_fds v !! fd, v);
  u_stat p v := Ok (fst <$> v_files v !! p, v);
  u_mkdirat p _ v := Ok (-1, v);
  u_fgets _ v := Ok (None, v);
  u_put fd l v := Ok (tt, if fd =? 1 then add_out l v else add_err l v);
  show_stat st := chars (pretty (st_size st)) |}.

Lemma next_fd_fresh v : 0 ≤ next_fd v ∧ v_fds v !! next_fd v = None.
Proof.
  assert (∀ k l, k ∈ l → k ≤ foldr Z.max 0 l) as Hm.
  { intros k l. induction l as [|x l IH]; [by intros ?%elem_of_nil|]. simpl. intros [->|Hk]%elem_of_cons; [lia|]. specialize (IH Hk). lia. }
  assert (∀ l, 0 ≤ foldr Z.max 0 l) as H0 by (intros l; induction l; simpl; lia).
  unfold next_fd. split; [pose proof (H0 (map fst (map_to_list (v_fds v)))); lia|].
  destruct (v_fds v !! _) as [x|] eqn:E; [|done]. exfalso. apply elem_of_map_to_list in E.
  set (m := map fst (map_to_list (v_fds v))) in *. assert (1 + foldr Z.max 0 m ∈ m) as Hin; [|pose proof (Hm _ _ Hin); lia].
  apply list_elem_of_fmap. eexists. by split; [|exact E].
Qed.

#[local] Program Instance sim_laws : posix_laws view := {| u_view v := v; u_nofile := 16 |}.
Next Obligation.
  intros p v Hs. unfold u_open, sim_posix. destruct (v_files v !! p) as [x|] eqn:E.
  - exists (next_fd v). destruct (next_fd_fresh v) as [? ?]. split_and!; [done|done|].
    eexists. split; [|done]. rewrite E. by rewrite (proj2 (Nat.ltb_lt _ _)).
  - exists (-1). split; [done|]. exists v. by rewrite E.
Qed.
Next Obligation. intros fd n st l v E. eexists. split; [|done]. simpl. by rewrite E. Qed.
Next Obligation. intros fd v E. by eexists. Qed.
Next Obligation. intros fd st l v E. eexists. split; [|done]. simpl. by rewrite E. Qed.
Next Obligation. intros p v. by eexists. Qed.
Next Obligation. intros l v. by eexists. Qed.
Next Obligation. intros l v. by eexists. Qed.

(** a file [a] of three bytes in a directory with an entry for it, one out of use and one
    that leads nowhere *)
Definition demo_entry (ino : Z) (c : Z) : list Z := enc_dirent (mkDirEntry ino (c :: replicate 13 0)).
Definition demo_dir : list Z := demo_entry 2 97 ++ demo_entry 0 98 ++ demo_entry 3 99.
Definition demo_world : view :=
  mkView {[chars "a" := (mkStat 1 2 1 3 S_IFREG, chars "xyz"); chars "d/a" := (mkStat 1 2 1 3 S_IFREG, chars "xyz");
    chars "d" := (mkStat 1 4 1 48 S_IFDIR, demo_dir)]} ∅ [] [].

Lemma cat_correct_witness :
  ∃ v, cat_main 100 [chars "cat"; chars "a"; chars "b"; chars "a"] demo_world = Ok (0, v) ∧ v_out v = chars "xyzxyz" ∧ v_fds v = ∅.
Proof.
  destruct (cat_correct 100 (chars "cat") [chars "a"; chars "b"; chars "a"] demo_world) as (v & E & Hv).
  - by_decision.
  - by_decision.
  - exists v. split; [exact E|]. change (u_view v) with v in Hv. by rewrite Hv.
Defined.

Lemma ls_correct_witness :
  ∃ v, ls_main 100 [chars "ls"; chars "d"] demo_world = Ok (0, v) ∧ v_fds v = ∅ ∧
    v_out v = chars "a              3" ++ [c_nl] ∧ v_err v = chars "ls: cannot stat d/c" ++ [c_nl].
Proof.
  destruct (ls_correct 100 (chars "ls") [chars "d"] demo_world) as (v & E & Hv).
  - by_decision.
  - by_decision.
  - exists v. split; [exact E|]. change (u_view v) with v in Hv. rewrite Hv. split_and!; vm_compute; reflexivity.
Defined.

Lemma echo_correct_witness :
  ∃ v, echo_main 0 [chars "echo"; chars "hello"; chars "world"] demo_world = Ok (0, v) ∧ v_out v = chars "hello world" ++ [c_nl].
Proof.
  destruct (echo_correct 0 (chars "echo") [chars "hello"; chars "world"] demo_world) as (v & E & Hv); [done|].
  exists v. split; [exact E|]. change (u_view v) with v in Hv. by rewrite Hv.
Defined.

Lemma fmtname_correct_witness : SLASH ∉ chars "a" ∧ fmtname (chars "d/a") = chars "a             ".
Proof.
  assert (SLASH ∉ chars "a") as Hn by by_decision. split; [exact Hn|].
  exact (proj1 (fmtname_correct (chars "d") (chars "a") Hn)).
Defined.
