(* ===== verification/Ipc.v ===== *)
(** * [common/ipc.c]: message queues

    Queues, messages and the nodes of sleeping receivers are found by their addresses; the
    circular lists are the sequences they stand for, from the head on.  A message is its first
    page and the chain of its segments, each a page.  [sys_msgsnd] and [sys_msgrcv] end in
    a result or in the call of [_sched(SLEEPING)], after which [msgsnd_retry] and
    [msgrcv_resume] are the rest of their bodies.  [alloc n live] is the address the [n]-th
    allocation gives, 0 when it fails. *)

From Stdlib Require Import ZArith Lia.
From S2P Require Import Prelude Words Sync.

Definition ENOMEM : Z := -1.
Definition ENOSEQ : Z := -2.
Definition ENOENT : Z := -3.
Definition EEXIST : Z := -4.
Definition EINVAL : Z := -5.
Definition EAGAIN : Z := -6.
Definition EIDRM : Z := -7.
Definition E2BIG : Z := -8.
Definition ENOMSG : Z := -9.
Definition IPC_RMID : Z := 0.
Definition SEQ_MULTIPLIER : Z := 16.
Definition IPC_PRIVATE : Z := 0.
Definition IPC_CREATE : Z := 2.
Definition IPC_EXCL : Z := 1.
Definition IPC_NOWAIT : Z := 1.
Definition MSG_MSGSZ : Z := 4096 - 32.
Definition MSG_MSGSEGSZ : Z := 4096 - 8.
Definition MAX_MSGNUM : Z := 256.

(** [segs]: the pages of the chain [nxt] and their data *)
Record msg_msg := mkMsg { mtype : Z; size : Z; data : list Z; segs : list (Z * list Z) }.
Record msg_queue := mkQue {
  key : Z; seq : Z; max_msg : Z; sum_msg : Z;
  q_message : list Z; q_sender : list Z; q_receiver : list Z }.
(** [r_msg] is [None] as long as it is not written to. *)
Record msg_receiver := mkRcv { r_mtype : Z; r_size : Z; r_msg : option Z }.

(** [msg_ids], and what the pointers in it lead to; senders and receivers on the stack of a
    process have its address; [live] is the memory that is not given back, [woken] the
    processes activated so far *)
Record ipc := mkIpc {
  in_use : Z; ids_seq : Z; ids_lock : bool; entries : list Z;
  ques : gmap Z msg_queue; msgs : gmap Z msg_msg; rcvs : gmap Z msg_receiver;
  nalloc : nat; live : gset Z; woken : list Z }.
Notation I := (M ipc).

Definition set_ids (u sq : Z) (e : list Z) (s : ipc) : ipc :=
  mkIpc u sq (ids_lock s) e (ques s) (msgs s) (rcvs s) (nalloc s) (live s) (woken s).
Definition set_lock (b : bool) (s : ipc) : ipc :=
  mkIpc (in_use s) (ids_seq s) b (entries s) (ques s) (msgs s) (rcvs s) (nalloc s) (live s) (woken s).
Definition set_ques (q : gmap Z msg_queue) (s : ipc) : ipc :=
  mkIpc (in_use s) (ids_seq s) (ids_lock s) (entries s) q (msgs s) (rcvs s) (nalloc s) (live s) (woken s).
Definition set_msgs (m : gmap Z msg_msg) (s : ipc) : ipc :=
  mkIpc (in_use s) (ids_seq s) (ids_lock s) (entries s) (ques s) m (rcvs s) (nalloc s) (live s) (woken s).
Definition set_rcvs (r : gmap Z msg_receiver) (s : ipc) : ipc :=
  mkIpc (in_use s) (ids_seq s) (ids_lock s) (entries s) (ques s) (msgs s) r (nalloc s) (live s) (woken s).
Definition set_live (n : nat) (l : gset Z) (s : ipc) : ipc :=
  mkIpc (in_use s) (ids_seq s) (ids_lock s) (entries s) (ques s) (msgs s) (rcvs s) n l (woken s).
Definition set_woken (w : list Z) (s : ipc) : ipc :=
  mkIpc (in_use s) (ids_seq s) (ids_lock s) (entries s) (ques s) (msgs s) (rcvs s) (nalloc s) (live s) w.

Definition msg_lock : SpinLock ipc := mkSpinLock ids_lock set_lock.
Definition que (q : Z) : I msg_queue := getopt (λ s, ques s !! q).
Definition upd_que (q : Z) (f : msg_queue → msg_queue) : I unit :=
  x ← que q; modify (λ s, set_ques (<[q := f x]> (ques s)) s).
Definition msg_at (m : Z) : I msg_msg := getopt (λ s, msgs s !! m).
Definition upd_msg (m : Z) (f : msg_msg → msg_msg) : I unit :=
  x ← msg_at m; modify (λ s, set_msgs (<[m := f x]> (msgs s)) s).
Definition set_r_msg (r : Z) (v : Z) : I unit :=
  x ← getopt (λ s, rcvs s !! r);
  modify (λ s, set_rcvs (<[r := mkRcv (r_mtype x) (r_size x) (Some v)]> (rcvs s)) s).
Definition activate_proc (p : Z) : I unit := modify (λ s, set_woken (woken s ++ [p]) s).

Definition set_messages (l : list Z) (n : Z) (q : msg_queue) : msg_queue :=
  mkQue (key q) (seq q) (max_msg q) n l (q_sender q) (q_receiver q).
Definition set_senders (l : list Z) (q : msg_queue) : msg_queue :=
  mkQue (key q) (seq q) (max_msg q) (sum_msg q) (q_message q) l (q_receiver q).
Definition set_receivers (l : list Z) (q : msg_queue) : msg_queue :=
  mkQue (key q) (seq q) (max_msg q) (sum_msg q) (q_message q) (q_sender q) l.
(** [_detach_from_list] of a node of the list, or of one that is in none *)
Definition detach (x : Z) (l : list Z) : list Z := filter (λ y, y ≠ x) l.

Definition init_ipc (s : ipc) : ipc := set_ids 0 0 (replicate 16 0) (set_lock false s).
Definition msg_ids_size : nat := 16.

Section ipc.
Context (alloc : nat → gset Z → Z).

(** [kalloc] and [kalloc_page], [kfree] and [kfree_page] *)
Definition kalloc : I Z :=
  s ← gets id;
  let a := alloc (nalloc s) (live s) in
  modify (set_live (S (nalloc s)) (if a =? 0 then live s else {[a]} ∪ live s));;
  mret a.
Definition kfree (a : Z) : I unit :=
  s ← gets id;
  if bool_decide (a ∈ live s) then modify (set_live (nalloc s) (live s ∖ {[a]})) else fault.

(** ** Queues and their ids *)

(** the least free index *)
Definition free_id (l : list Z) : option nat := fst <$> list_find (λ a, a = 0) l.

Definition ipc_addid (q : Z) : I Z :=
  s ← gets id;
  match free_id (entries s) with
  | None => mret (-1)
  | Some i =>
      modify (set_ids (i32 (in_use s + 1)) (u16 (ids_seq s + 1)) (<[i := q]> (entries s)));;
      upd_que q (λ x, mkQue (key x) (ids_seq s) (max_msg x) (sum_msg x) (q_message x)
                        (q_sender x) (q_receiver x));;
      mret (Z.of_nat i)
  end.

Definition ipc_buildin (i sq : Z) : Z := sq * SEQ_MULTIPLIER + i.

Definition newque (k : Z) : I Z :=
  q ← kalloc;
  if q =? 0 then mret ENOMEM
  else
    modify (λ s, set_ques (<[q := mkQue 0 0 0 0 [] [] []]> (ques s)) s);;
    i ← ipc_addid q;
    if i <? 0 then
      kfree q;; modify (λ s, set_ques (delete q (ques s)) s);; mret ENOSEQ
    else
      upd_que q (λ x, mkQue k (seq x) MAX_MSGNUM 0 [] [] []);;
      x ← que q;
      mret (ipc_buildin i (seq x)).

(** the loop from the entry [i] on *)
Fixpoint findkey_loop (k i : Z) (l : list Z) : I Z :=
  match l with
  | [] => mret (-1)
  | q :: l =>
      if q =? 0 then findkey_loop k (i + 1) l
      else x ← que q; if key x =? k then mret i else findkey_loop k (i + 1) l
  end.
Definition ipc_findkey (k : Z) : I Z := l ← gets entries; findkey_loop k 0 l.

Definition entry (i : Z) : I Z :=
  if i <? 0 then fault else getopt (λ s, entries s !! Z.to_nat i).

Definition sys_msgget (k msgflg : Z) : I Z :=
  acquire_spinlock msg_lock;;
  ret ←
    (if k =? IPC_PRIVATE then newque k
     else
       i ← ipc_findkey k;
       if i =? -1 then
         if negb (Z.land msgflg IPC_CREATE =? 0) then newque k else mret ENOENT
       else if negb (Z.land msgflg IPC_EXCL =? 0) then mret EEXIST
       else q ← entry i; x ← que q; mret (ipc_buildin i (seq x)));
  release_spinlock msg_lock;;
  mret ret.

(** 0 for [NULL]; [%] and [/] of C *)
Definition get_msgq (msgid : Z) : I Z :=
  let i := Z.rem msgid SEQ_MULTIPLIER in
  if Z.of_nat msg_ids_size <=? i then mret 0
  else
    q ← entry i;
    if q =? 0 then mret 0
    else x ← que q; mret (if Z.quot msgid SEQ_MULTIPLIER =? seq x then q else 0).

(** ** Messages *)

Definition free_msg (m : Z) : I unit :=
  x ← msg_at m;
  for_each (segs x) (λ p, kfree p.1);;
  kfree m;;
  modify (λ s, set_msgs (delete m (msgs s)) s).

(** [memcpy] of [n] bytes from the offset [off] of the caller's buffer *)
Definition copy_from (src : list Z) (off n : Z) : I (list Z) :=
  getopt (λ _, if off + n <=? Z.of_nat (length src) then Some (sub (Z.to_nat off) (Z.to_nat n) src) else None).

Fixpoint load_loop (fuel : nat) (m : Z) (src : list Z) (off len : Z) : I Z :=
  match fuel with
  | O => nofuel
  | S fuel =>
      if 0 <? len then
        p ← kalloc;
        if p =? 0 then free_msg m;; mret 0
        else
          d ← copy_from src off (MIN MSG_MSGSEGSZ len);
          upd_msg m (λ x, mkMsg (mtype x) (size x) (data x) (segs x ++ [(p, d)]));;
          let len := len - MIN MSG_MSGSEGSZ len in
          load_loop fuel m src (off + MIN MSG_MSGSEGSZ len) len
      else mret m
  end.

Definition load_msg (src : list Z) (len : Z) : I Z :=
  m ← kalloc;
  if m =? 0 then mret 0
  else
    d ← copy_from src 0 (MIN MSG_MSGSZ len);
    modify (λ s, set_msgs (<[m := mkMsg 0 0 d []]> (msgs s)) s);;
    let len := len - MIN MSG_MSGSZ len in
    load_loop (S (Z.to_nat len)) m src (MIN MSG_MSGSZ len) len.

(** [memcpy] of [n] bytes of a page to the offset [off] of the caller's buffer *)
Definition copy_to (dst : list Z) (off n : Z) (d : list Z) : I (list Z) :=
  getopt (λ _, if off + n <=? Z.of_nat (length dst)
               then Some (splice (Z.to_nat off) (take (Z.to_nat n) d) dst) else None).

(** the caller's buffer afterwards *)
Fixpoint store_loop (sg : list (Z * list Z)) (fuel : nat) (dst : list Z) (off len : Z) : I (list Z) :=
  match fuel with
  | O => nofuel
  | S fuel =>
      if 0 <? len then
        match sg with
        | [] => fault
        | (_, d) :: sg =>
            let n := MIN len MSG_MSGSEGSZ in
            dst ← copy_to dst off n d;
            let len := len - n in
            store_loop sg fuel dst (off + MIN len MSG_MSGSEGSZ) len
        end
      else mret dst
  end.

Definition store_msg (dst : list Z) (m : Z) (len : Z) : I (Z * list Z) :=
  x ← msg_at m;
  dst ← copy_to dst 0 (MIN len MSG_MSGSZ) (data x);
  let len := len - MIN MSG_MSGSZ len in
  dst ← store_loop (segs x) (S (Z.to_nat len)) dst (MIN MSG_MSGSZ len) len;
  mret (mtype x, dst).

Definition testmsg (rqtype type : Z) : bool :=
  if rqtype =? 0 then true
  else if rqtype <? 0 then rqtype + type <=? 0
  else rqtype =? type.

(** ** Sending *)

(** [_for_in_list(node, &msgq->q_receiver)] from the node at the head of [nodes] on.  A node
    that is detached while the loop stands at it is its own successor. *)
Fixpoint pipeline_loop (fuel : nat) (q m : Z) (nodes : list Z) : I Z :=
  match fuel with
  | O => nofuel
  | S fuel =>
      match nodes with
      | [] => mret 0
      | r :: rest =>
          rcver ← getopt (λ s, rcvs s !! r);
          msg ← msg_at m;
          if testmsg (r_mtype rcver) (mtype msg) then
            upd_que q (λ x, set_receivers (detach r (q_receiver x)) x);;
            if r_size rcver <? size msg then
              set_r_msg r 0;;
              activate_proc r;;
              pipeline_loop fuel q m [r]
            else
              set_r_msg r m;;
              activate_proc r;;
              mret 1
          else pipeline_loop fuel q m rest
      end
  end.
Definition pipeline_send (q m : Z) : I Z :=
  x ← que q; pipeline_loop (S (length (q_receiver x))) q m (q_receiver x).

(** how a call comes to rest: it returns, or sleeps holding on to its message *)
Inductive snd_end := SndRet (err : Z) | SndSleep (msg : Z).

(** [free_obj:] *)
Definition snd_free (m err : Z) : I snd_end :=
  release_spinlock msg_lock;;
  free_msg m;;
  mret (SndRet err).

(** from [retry:] on, in the process [me] *)
Definition msgsnd_retry (me msgid msgflg m : Z) : I snd_end :=
  acquire_spinlock msg_lock;;
  q ← get_msgq msgid;
  if q =? 0 then snd_free m EIDRM
  else
    x ← que q;
    if max_msg x <? i32 (sum_msg x + 1) then
      if negb (Z.land msgflg IPC_NOWAIT =? 0) then snd_free m EAGAIN
      else
        upd_que q (λ x, set_senders (q_sender x ++ [me]) x);;
        release_spinlock msg_lock;;
        mret (SndSleep m)
    else
      sent ← pipeline_send q m;
      when (sent =? 0)
        (upd_que q (λ x, set_messages (q_message x ++ [m]) (i32 (sum_msg x + 1)) x));;
      release_spinlock msg_lock;;
      mret (SndRet 0).

(** [msgp] is [None] for the null pointer, otherwise the type and the bytes behind it *)
Definition sys_msgsnd (me msgid : Z) (msgp : option (Z * list Z)) (msgsz msgflg : Z) : I snd_end :=
  match msgp with
  | None => mret (SndRet EINVAL)
  | Some (ty, bytes) =>
      if (msgsz <? 0) || (ty <? 1) then mret (SndRet EINVAL)
      else
        m ← load_msg bytes msgsz;
        if m =? 0 then mret (SndRet ENOMEM)
        else
          upd_msg m (λ x, mkMsg ty msgsz (data x) (segs x));;
          msgsnd_retry me msgid msgflg m
  end.

(** ** Receiving *)

(** Wake everybody up; the nodes are found anew each time. *)
Definition ss_wakeup (l : list Z) : I unit := for_each l activate_proc.

(** the loop over the messages: the one chosen, if any *)
Fixpoint find_msg (mt : Z) (found : Z) (l : list Z) : I Z :=
  match l with
  | [] => mret found
  | m :: l =>
      x ← msg_at m;
      if testmsg mt (mtype x) then
        if mt <? -1 then find_msg (i32 (mt + 1)) m l else mret m
      else find_msg mt found l
  end.

(** a result with the type and bytes handed over, an error, or sleep *)
Inductive rcv_end := RcvRet (n ty : Z) (bytes : list Z) | RcvErr (err : Z) | RcvSleep.

Definition rcv_out (err : Z) : I rcv_end := release_spinlock msg_lock;; mret (RcvErr err).

Definition deliver (m : Z) (buf : list Z) (msgsz : Z) : I rcv_end :=
  x ← msg_at m;
  let n := MIN msgsz (size x) in
  '(ty, bytes) ← store_msg buf m n;
  free_msg m;;
  mret (RcvRet n ty bytes).

(** [buf] is what is in the caller's buffer before *)
Definition sys_msgrcv (me msgid : Z) (msgp : option (list Z)) (msgsz mt msgflg : Z) : I rcv_end :=
  match msgp with
  | None => mret (RcvErr EINVAL)
  | Some buf =>
      if msgsz <? 0 then mret (RcvErr EINVAL)
      else
        acquire_spinlock msg_lock;;
        q ← get_msgq msgid;
        if q =? 0 then rcv_out EIDRM
        else
          x ← que q;
          m ← find_msg mt 0 (q_message x);
          if negb (m =? 0) then
            y ← msg_at m;
            if msgsz <? size y then rcv_out E2BIG
            else
              upd_que q (λ x, set_messages (detach m (q_message x)) (i32 (sum_msg x - 1)) x);;
              ss_wakeup (q_sender x);;
              upd_que q (set_senders []);;
              release_spinlock msg_lock;;
              deliver m buf msgsz
          else if negb (Z.land msgflg IPC_NOWAIT =? 0) then rcv_out ENOMSG
          else
            modify (λ s, set_rcvs (<[me := mkRcv mt msgsz None]> (rcvs s)) s);;
            upd_que q (λ x, set_receivers (q_receiver x ++ [me]) x);;
            release_spinlock msg_lock;;
            mret RcvSleep
  end.

(** what is left to do when the process [me] wakes up *)
Definition msgrcv_resume (me : Z) (buf : list Z) (msgsz : Z) : I rcv_end :=
  r ← getopt (λ s, rcvs s !! me);
  m ← getopt (λ _, r_msg r);
  modify (λ s, set_rcvs (delete me (rcvs s)) s);;
  if m =? 0 then mret (RcvErr E2BIG) else deliver m buf msgsz.

(** ** Removal *)

Definition expunge_all (l : list Z) : I unit := for_each l (λ r, set_r_msg r 0;; activate_proc r).

(** [ss_wakeup] takes the receivers off their list, so [expunge_all] finds none. *)
Definition freeque (msgid : Z) : I unit :=
  acquire_spinlock msg_lock;;
  q ← get_msgq msgid;
  when (negb (q =? 0))
    (x ← que q;
     modify (λ s, set_ids (in_use s) (ids_seq s)
       (<[Z.to_nat (Z.rem msgid SEQ_MULTIPLIER) := 0]> (entries s)) s);;
     ss_wakeup (q_receiver x);;
     upd_que q (set_receivers []);;
     x ← que q;
     expunge_all (q_receiver x);;
     for_each (q_message x) free_msg;;
     modify (λ s, set_ids (i32 (in_use s - 1)) (ids_seq s) (entries s) s);;
     kfree q;;
     modify (λ s, set_ques (delete q (ques s)) s));;
  release_spinlock msg_lock.

Definition sys_msgctl (msgid cmd : Z) : I Z :=
  if cmd =? IPC_RMID then freeque msgid;; mret 0 else mret EINVAL.
End ipc.
