(* ===== verification/IpcSpec.v ===== *)
(** * Message queues are mailboxes

    For messages that fit one page and calls that do not wait, any sequence of [sys_msgsnd]
    and [sys_msgrcv] on any queues gives what a family of mailboxes gives; receivers that
    wait, and messages of more than a page, are where the code goes wrong. *)

From Stdlib Require Import ZArith Lia.
From S2P Require Import Prelude Words Sync Ipc.

(** a message as its receiver sees it: type and bytes *)
Notation mail := (Z * list Z)%type.

(** ** The specification *)

(** The message a request of type [mt] takes, as its place in the mailbox. *)
Fixpoint select (mt : Z) (i : nat) (found : option nat) (l : list mail) : option nat :=
  match l with
  | [] => found
  | (ty, _) :: l =>
      if testmsg mt ty then
        if mt <? -1 then select (mt + 1) (S i) (Some i) l else Some i
      else select mt (S i) found l
  end.

Inductive op :=
  | Send (msgid ty : Z) (bytes : list Z) (n : Z)
  | Recv (msgid mt : Z) (buf : list Z) (n : Z).
Inductive answer := Sent (err : Z) | Received (r : rcv_end).

Section spec.
(** the queue an identifier leads to, 0 if none *)
Context (nm : Z → Z).
Definition step (B : gmap Z (list mail)) (o : op) : gmap Z (list mail) * answer :=
  match o with
  | Send i ty bytes n =>
      match B !! nm i with
      | None => (B, Sent EIDRM)
      | Some l =>
          if MAX_MSGNUM <=? Z.of_nat (length l) then (B, Sent EAGAIN)
          else (<[nm i := l ++ [(ty, take (Z.to_nat n) bytes)]]> B, Sent 0)
      end
  | Recv i mt buf n =>
      match B !! nm i with
      | None => (B, Received (RcvErr EIDRM))
      | Some l =>
          match select mt 0 None l with
          | None => (B, Received (RcvErr ENOMSG))
          | Some k =>
              let '(ty, b) := nth k l (0, []) in
              if n <? Z.of_nat (length b) then (B, Received (RcvErr E2BIG))
              else (<[nm i := take k l ++ drop (S k) l]> B,
                    Received (RcvRet (Z.of_nat (length b)) ty (splice 0 b buf)))
          end
      end
  end.
Fixpoint steps (B : gmap Z (list mail)) (os : list op) : gmap Z (list mail) * list answer :=
  match os with
  | [] => (B, [])
  | o :: os => let '(B, a) := step B o in let '(B, l) := steps B os in (B, a :: l)
  end.
End spec.

(** ** The representation *)

Definition holds (s : ipc) (m : Z) (x : mail) : Prop :=
  msgs s !! m = Some (mkMsg x.1 (Z.of_nat (length x.2)) x.2 []) ∧ m ≠ 0 ∧ m ∈ live s ∧
  Z.of_nat (length x.2) ≤ MSG_MSGSZ.

Record box (s : ipc) (x : msg_queue) (l : list mail) : Prop := {
  box_msgs : Forall2 (holds s) (q_message x) l;
  box_nodup : NoDup (q_message x);
  box_sum : sum_msg x = Z.of_nat (length l);
  box_max : max_msg x = MAX_MSGNUM;
  box_le : Z.of_nat (length l) ≤ MAX_MSGNUM;
  box_rcv : q_receiver x = [] }.

Record boxes (nm : Z → Z) (s : ipc) (B : gmap Z (list mail)) : Prop := {
  bx_lock : ids_lock s = false;
  bx_box : ∀ q l, B !! q = Some l → ∃ x, ques s !! q = Some x ∧ box s x l;
  bx_disj : ∀ q1 q2 x1 x2 m, is_Some (B !! q1) → is_Some (B !! q2) →
    ques s !! q1 = Some x1 → ques s !! q2 = Some x2 →
    m ∈ q_message x1 → m ∈ q_message x2 → q1 = q2;
  bx_zero : B !! 0 = None;
  bx_ids : ∀ i, 0 ≤ i → get_msgq i s = Ok (nm i, s) ∧ (nm i ≠ 0 → is_Some (B !! nm i)) }.

(** the calls, not waiting *)
Definition run_op (alloc : nat → gset Z → Z) (o : op) : M ipc answer :=
  match o with
  | Send i ty bytes n =>
      r ← sys_msgsnd alloc 1 i (Some (ty, bytes)) n IPC_NOWAIT;
      match r with SndRet e => mret (Sent e) | SndSleep _ => sleeping end
  | Recv i mt buf n =>
      r ← sys_msgrcv 1 i (Some buf) n mt IPC_NOWAIT;
      match r with RcvSleep => sleeping | _ => mret (Received r) end
  end.
Fixpoint run_ops (alloc : nat → gset Z → Z) (os : list op) : M ipc (list answer) :=
  match os with
  | [] => mret []
  | o :: os => a ← run_op alloc o; l ← run_ops alloc os; mret (a :: l)
  end.

(** an identifier as [sys_msgget] gives it, a type of at least 1, at most a page, buffers as
    large as the caller says *)
Definition op_ok (o : op) : Prop :=
  match o with
  | Send i ty bytes n => 0 ≤ i ∧ 1 ≤ ty ∧ 0 ≤ n ≤ MSG_MSGSZ ∧ n ≤ Z.of_nat (length bytes)
  | Recv i mt buf n => 0 ≤ i ∧ - 2 ^ 31 ≤ mt < 2 ^ 31 ∧ 0 ≤ n ≤ Z.of_nat (length buf)
  end.

(** ** Identifiers *)

Lemma get_msgq_agree s s' i q :
  entries s' = entries s → (∀ q, seq <$> ques s' !! q = seq <$> ques s !! q) →
  get_msgq i s = Ok (q, s) → get_msgq i s' = Ok (q, s').
Proof.
  intros He Hq. unfold get_msgq, entry, que. case_match; [by intros [= <-]|].
  case_match; [done|]. mred. cbv beta. rewrite He.
  destruct (entries s !! _) as [a|]; [|done]. case_match; [by intros [= <-]|].
  specialize (Hq a). destruct (ques s !! a) as [x|], (ques s' !! a) as [x'|]; try done.
  simpl in Hq. injection Hq as ->. by intros [= <-].
Qed.

(** ** Messages of one page *)

Section ops.
Context (alloc : nat → gset Z → Z).
(** allocation succeeds and gives out what is not in use *)
Context (alloc_fresh : ∀ n L, alloc n L ≠ 0 ∧ alloc n L ∉ L).

Lemma page_alloc_run s :
  let a := alloc (nalloc s) (live s) in
  kalloc alloc s = Ok (a, set_live (S (nalloc s)) ({[a]} ∪ live s) s).
Proof using alloc_fresh.
  intros a. unfold kalloc. mred. simpl. rewrite (proj2 (Z.eqb_neq _ _)); [done|].
  apply alloc_fresh.
Qed.

Lemma load_msg_run s bytes n :
  0 ≤ n ≤ MSG_MSGSZ → n ≤ Z.of_nat (length bytes) →
  let a := alloc (nalloc s) (live s) in
  load_msg alloc bytes n s =
    Ok (a, set_msgs (<[a := mkMsg 0 0 (take (Z.to_nat n) bytes) []]> (msgs s))
             (set_live (S (nalloc s)) ({[a]} ∪ live s) s)).
Proof using alloc_fresh.
  intros Hn Hl a. unfold load_msg. rewrite (bind_Ok _ _ _ _ _ (page_alloc_run s)). fold a.
  rewrite (proj2 (Z.eqb_neq _ _)) by apply alloc_fresh.
  assert (MIN MSG_MSGSZ n = n) as -> by (unfold MIN, MSG_MSGSZ in *; case_match; lia).
  unfold copy_from. erewrite bind_Ok; [|apply getopt_run; rewrite (proj2 (Z.leb_le _ _)) by lia; done].
  erewrite bind_Ok by apply modify_run. cbv zeta. rewrite Z.sub_diag. done.
Qed.
End ops.

Lemma msg_at_run s m x : msgs s !! m = Some x → msg_at m s = Ok (x, s).
Proof. intros E. by apply getopt_run. Qed.
Lemma que_run s q x : ques s !! q = Some x → que q s = Ok (x, s).
Proof. intros E. by apply getopt_run. Qed.
Lemma upd_que_run s q f x :
  ques s !! q = Some x → upd_que q f s = Ok (tt, set_ques (<[q := f x]> (ques s)) s).
Proof. intros E. unfold upd_que. by rewrite (bind_Ok _ _ _ _ _ (que_run _ _ _ E)). Qed.

Lemma free_msg_run s m x :
  msgs s !! m = Some x → segs x = [] → m ∈ live s →
  free_msg m s = Ok (tt, set_msgs (delete m (msgs s)) (set_live (nalloc s) (live s ∖ {[m]}) s)).
Proof.
  intros E Hs Hl. unfold free_msg. rewrite (bind_Ok _ _ _ _ _ (msg_at_run _ _ _ E)).
  rewrite Hs. simpl. unfold kfree. mred. simpl. by rewrite bool_decide_eq_true_2.
Qed.

Lemma deliver_run s m x buf n :
  holds s m x → Z.of_nat (length x.2) ≤ n → n ≤ Z.of_nat (length buf) →
  deliver m buf n s =
    Ok (RcvRet (Z.of_nat (length x.2)) x.1 (splice 0 x.2 buf),
        set_msgs (delete m (msgs s)) (set_live (nalloc s) (live s ∖ {[m]}) s)).
Proof.
  intros (E & _ & Hl & Hz) Hn Hb. unfold deliver.
  rewrite (bind_Ok _ _ _ _ _ (msg_at_run _ _ _ E)). cbn [size].
  assert (MIN n (Z.of_nat (length x.2)) = Z.of_nat (length x.2)) as ->.
  { unfold MIN. case_match; lia. }
  unfold store_msg. rewrite !bind_assoc, (bind_Ok _ _ _ _ _ (msg_at_run _ _ _ E)).
  cbn [data segs mtype].
  assert (MIN (Z.of_nat (length x.2)) MSG_MSGSZ = Z.of_nat (length x.2)) as ->.
  { unfold MIN. case_match; lia. }
  assert (MIN MSG_MSGSZ (Z.of_nat (length x.2)) = Z.of_nat (length x.2)) as ->.
  { unfold MIN. case_match; lia. }
  unfold copy_to. rewrite bind_assoc. erewrite bind_Ok; [|apply getopt_run; rewrite (proj2 (Z.leb_le _ _)) by lia; done].
  rewrite Z.sub_diag. rewrite Nat2Z.id, firstn_all. cbn [store_loop Z.ltb Z.compare].
  rewrite bind_assoc. erewrite bind_Ok by apply mret_run. erewrite bind_Ok by apply mret_run.
  cbv beta iota. erewrite bind_Ok; [|by apply (free_msg_run s m _ E)]. done.
Qed.

(** ** Choosing a message *)

Lemma select_lt mt i fo l k :
  select mt i fo l = Some k → fo = Some k ∨ (i ≤ k < i + length l)%nat.
Proof.
  revert mt i fo. induction l as [|[ty b] l IH]; intros mt i fo; simpl; [by left|].
  case_match; [case_match|].
  - intros [[= ->]|]%IH; right; lia.
  - intros [= ->]. right. lia.
  - intros [->|]%IH; [by left|right; lia].
Qed.

Lemma find_msg_run s all mt i fo l :
  Forall2 (holds s) (drop i all) l → - 2 ^ 31 ≤ mt < 2 ^ 31 →
  find_msg mt (from_option (λ k, nth k all 0) 0 fo) (drop i all) s =
    Ok (from_option (λ k, nth k all 0) 0 (select mt i fo l), s).
Proof.
  revert mt i fo. induction l as [|[ty b] l IH]; intros mt i fo Hl Hmt.
  - by apply Forall2_nil_inv_r in Hl as ->.
  - apply Forall2_cons_inv_r in Hl as (m & ms & (E & _) & Hl & Ed). rewrite Ed.
    assert (drop (S i) all = ms) as Eds by (by rewrite <- Nat.add_1_r, <- drop_drop, Ed). subst ms.
    assert (nth i all 0 = m) as En.
    { apply nth_lookup_Some. rewrite <- (Nat.add_0_r i), <- lookup_drop. by rewrite Ed. }
    cbn [find_msg select]. rewrite (bind_Ok _ _ _ _ _ (msg_at_run _ _ _ E)). cbn [mtype fst].
    destruct (testmsg mt ty).
    + destruct (Z.ltb_spec mt (-1)).
      * assert (i32 (mt + 1) = mt + 1) as ->. { unfold i32. zmod. }
        rewrite <- En. apply (IH (mt + 1) (S i) (Some i)); [done|lia].
      * by rewrite mret_run, <- En.
    + by apply IH.
Qed.

(** ** The representation after an operation *)

Lemma holds_agree s s' m x :
  holds s m x → msgs s' !! m = msgs s !! m → m ∈ live s' → holds s' m x.
Proof. intros (E & H0 & _ & Hz) Em Hl. split; [by rewrite Em|done]. Qed.

Lemma holds_agree_all s s' ms l :
  Forall2 (holds s) ms l → (∀ m, m ∈ ms → msgs s' !! m = msgs s !! m ∧ m ∈ live s') →
  Forall2 (holds s') ms l.
Proof.
  induction 1 as [|m x ms l Hm _ IH]; intros Hs; constructor.
  - apply (holds_agree s); [done|apply Hs; by left..].
  - apply IH. intros m' Hm'. apply Hs. by right.
Qed.

Lemma holds_live s ms l : Forall2 (holds s) ms l → ∀ m, m ∈ ms → m ∈ live s.
Proof.
  intros Hl m Hm. apply list_elem_of_lookup in Hm as [i Hm].
  by destruct (Forall2_lookup_l _ _ _ _ _ Hl Hm) as (y & _ & _ & _ & ? & _).
Qed.

Lemma boxes_update nm s s' B q x x' l l' :
  boxes nm s B → B !! q = Some l → ques s !! q = Some x →
  ids_lock s' = false → entries s' = entries s → ques s' = <[q := x']> (ques s) →
  seq x' = seq x → box s' x' l' →
  (∀ m, m ∈ q_message x' → m ∈ q_message x ∨ m ∉ live s) →
  (∀ m, m ∈ live s → m ∉ q_message x → msgs s' !! m = msgs s !! m ∧ m ∈ live s') →
  boxes nm s' (<[q := l']> B).
Proof.
  intros HB Eq Ex Hlk He Hq Hseq Hbox Hnew Hold.
  assert (∀ q' l0 x0 m, q' ≠ q → B !! q' = Some l0 → ques s !! q' = Some x0 →
    m ∈ q_message x0 → m ∈ live s ∧ m ∉ q_message x) as Hoth.
  { intros q' l0 x0 m Hne Eq' Ex' Hm. destruct (bx_box _ _ _ HB _ _ Eq') as (x1 & E1 & Hb1).
    simplify_eq. split; [by eapply holds_live; [apply (box_msgs _ _ _ Hb1)|]|].
    intros Hm'. apply Hne. by eapply (bx_disj _ _ _ HB q' q). }
  split; [done| | | |].
  - intros q' l0 Eq'. destruct (decide (q' = q)) as [->|Hne].
    + rewrite lookup_insert_eq in Eq'. simplify_eq. exists x'. by rewrite Hq, lookup_insert_eq.
    + rewrite lookup_insert_ne in Eq' by done. destruct (bx_box _ _ _ HB _ _ Eq') as (x0 & E0 & Hb0).
      exists x0. rewrite Hq, lookup_insert_ne by done. split; [done|].
      destruct Hb0 as [Hm ? ? ? ? ?]. split; try done.
      eapply holds_agree_all; [exact Hm|]. intros m Hin.
      destruct (Hoth _ _ _ _ Hne Eq' E0 Hin) as [Hl Hx]. by apply Hold.
  - intros q1 q2 x1 x2 m H1 H2 E1 E2 Hm1 Hm2. rewrite Hq in E1, E2.
    destruct (decide (q1 = q)) as [->|N1], (decide (q2 = q)) as [->|N2]; [done|..].
    + rewrite lookup_insert_eq in E1. rewrite lookup_insert_ne in E2 by done; rewrite lookup_insert_ne in H2 by done. exfalso.
      simplify_eq. destruct H2 as [l2 H2].
      destruct (Hoth _ _ _ _ N2 H2 E2 Hm2) as [Hl Hx]. by destruct (Hnew m Hm1).
    + rewrite lookup_insert_eq in E2. rewrite lookup_insert_ne in E1 by done; rewrite lookup_insert_ne in H1 by done. exfalso.
      simplify_eq. destruct H1 as [l1 H1].
      destruct (Hoth _ _ _ _ N1 H1 E1 Hm1) as [Hl Hx]. by destruct (Hnew m Hm2).
    + rewrite lookup_insert_ne in E1 by done; rewrite lookup_insert_ne in H1 by done. rewrite lookup_insert_ne in E2 by done; rewrite lookup_insert_ne in H2 by done.
      by eapply (bx_disj _ _ _ HB q1 q2).
  - rewrite lookup_insert_ne; [apply (bx_zero _ _ _ HB)|]. intros ->.
    pose proof (bx_zero _ _ _ HB). congruence.
  - intros i Hi. destruct (bx_ids _ _ _ HB i Hi) as [E Hn]. split.
    + eapply get_msgq_agree; [done| |done]. intros q'. rewrite Hq.
      destruct (decide (q' = q)) as [->|]; [by rewrite lookup_insert_eq, Ex; simpl; f_equal|].
      by rewrite lookup_insert_ne.
    + intros H0. apply lookup_insert_is_Some'. right. by apply Hn.
Qed.

Lemma boxes_agree nm s s' B :
  boxes nm s B → ids_lock s' = false → entries s' = entries s → ques s' = ques s →
  (∀ m, m ∈ live s → msgs s' !! m = msgs s !! m ∧ m ∈ live s') → boxes nm s' B.
Proof.
  intros HB Hlk He Hq Hold. split; [done| | |apply HB|].
  - intros q l Eq. destruct (bx_box _ _ _ HB _ _ Eq) as (x & E & Hb). exists x.
    rewrite Hq. split; [done|]. destruct Hb as [Hm ? ? ? ? ?]. split; try done.
    eapply holds_agree_all; [exact Hm|]. intros m Hin. apply Hold. by eapply holds_live.
  - intros q1 q2 x1 x2 m. rewrite Hq. apply (bx_disj _ _ _ HB).
  - intros i Hi. destruct (bx_ids _ _ _ HB i Hi) as [E Hn]. split; [|done].
    eapply get_msgq_agree; [done| |done]. intros q. by rewrite Hq.
Qed.

Lemma box_update s s' x x' l :
  box s x l → q_message x' = q_message x → sum_msg x' = sum_msg x → max_msg x' = max_msg x →
  q_receiver x' = q_receiver x →
  (∀ m, m ∈ q_message x → msgs s' !! m = msgs s !! m ∧ m ∈ live s') → box s' x' l.
Proof.
  intros [Hm ? ? ? ? ?] E1 E2 E3 E4 Hs. split; rewrite ?E1, ?E2, ?E3, ?E4; try done.
  by eapply holds_agree_all.
Qed.

(** ** One call *)

Section calls.
Context (alloc : nat → gset Z → Z) (alloc_fresh : ∀ n L, alloc n L ≠ 0 ∧ alloc n L ∉ L).
Context (nm : Z → Z).

(** what [snd_free] leaves *)
Lemma snd_free_run s B m e :
  boxes nm s B → m ∉ live s → ∀ s1 x,
  entries s1 = entries s → ques s1 = ques s → msgs s1 = <[m := x]> (msgs s) → segs x = [] →
  live s1 = {[m]} ∪ live s →
  ∃ s', snd_free m e s1 = Ok (SndRet e, s') ∧ boxes nm s' B.
Proof.
  intros HB Hm s1 x He Hq Hms Hx Hl. unfold snd_free.
  erewrite bind_Ok by apply release_spinlock_run.
  erewrite bind_Ok; [|apply (free_msg_run _ m x); [simpl; by rewrite Hms, lookup_insert_eq|done|simpl; set_solver]].
  eexists. split; [by rewrite mret_run|]. eapply boxes_agree; try done.
  intros y Hy. simpl. assert (y ≠ m) by set_solver. rewrite Hms, Hl, lookup_delete_ne by done.
  rewrite lookup_insert_ne by done. split; [done|set_solver].
Qed.

Lemma send_run s B i ty bytes n :
  boxes nm s B → op_ok (Send i ty bytes n) →
  ∃ s', run_op alloc (Send i ty bytes n) s = Ok ((step nm B (Send i ty bytes n)).2, s') ∧
    boxes nm s' (step nm B (Send i ty bytes n)).1.
Proof using alloc_fresh.
  intros HB (Hi & Hty & Hn & Hlen). cbn [run_op step].
  cut (∃ s', sys_msgsnd alloc 1 i (Some (ty, bytes)) n IPC_NOWAIT s =
      Ok (SndRet (match B !! nm i with None => EIDRM | Some l =>
        if MAX_MSGNUM <=? Z.of_nat (length l) then EAGAIN else 0 end), s') ∧
      boxes nm s' (step nm B (Send i ty bytes n)).1).
  { intros (s' & E & Hs). exists s'. rewrite (bind_Ok _ _ _ _ _ E), mret_run.
    cbn [step] in Hs. by repeat case_match. }
  unfold sys_msgsnd. rewrite (proj2 (Z.ltb_ge n 0)), (proj2 (Z.ltb_ge ty 1)) by lia. cbn [orb].
  rewrite (bind_Ok _ _ _ _ _ (load_msg_run alloc alloc_fresh s bytes n Hn Hlen)).
  set (a := alloc _ _). destruct (alloc_fresh (nalloc s) (live s)) as [Ha0 Ha]. fold a in Ha0, Ha.
  rewrite (proj2 (Z.eqb_neq _ _) Ha0). set (s0 := set_msgs _ _).
  unfold upd_msg. rewrite bind_assoc.
  erewrite bind_Ok by (apply msg_at_run; unfold s0; simpl; by rewrite lookup_insert_eq).
  erewrite bind_Ok by apply modify_run. cbn [data segs].
  set (d := take (Z.to_nat n) bytes). set (s1 := set_msgs _ s0).
  assert (msgs s1 = <[a := mkMsg ty n d []]> (msgs s)) as Ems by (unfold s1, s0; simpl; by rewrite insert_insert_eq).
  assert (entries s1 = entries s ∧ ques s1 = ques s ∧ live s1 = {[a]} ∪ live s ∧ ids_lock s1 = false)
    as (Ee & Eq & El & Elk) by (split_and!; try done; apply (bx_lock _ _ _ HB)).
  clearbody s1. clear s0. unfold msgsnd_retry.
  erewrite bind_Ok by by apply acquire_spinlock_run.
  destruct (bx_ids _ _ _ HB i Hi) as [Hid Hsome].
  erewrite bind_Ok; [|eapply (get_msgq_agree s); [exact Ee|intros q; simpl; by rewrite Eq|exact Hid]].
  destruct (Z.eqb_spec (nm i) 0) as [H0|H0].
  { cbn [step]. rewrite H0, (bx_zero _ _ _ HB). by eapply snd_free_run. }
  destruct (Hsome H0) as [l El']. cbn [step]. rewrite El'.
  destruct (bx_box _ _ _ HB _ _ El') as (x & Ex & Hb). pose proof Hb as [Hm Hnd Hsum Hmax Hle Hrcv].
  erewrite bind_Ok by (apply que_run; simpl; by rewrite Eq, Ex).
  rewrite Hmax, Hsum. assert (i32 (Z.of_nat (length l) + 1) = Z.of_nat (length l) + 1) as ->.
  { unfold i32, MAX_MSGNUM in *. zmod. }
  destruct (Z.leb_spec MAX_MSGNUM (Z.of_nat (length l))).
  { rewrite (proj2 (Z.ltb_lt _ _)) by lia. by eapply snd_free_run. }
  rewrite (proj2 (Z.ltb_ge _ _)) by lia. unfold pipeline_send. rewrite bind_assoc.
  erewrite bind_Ok by (apply que_run; simpl; by rewrite Eq, Ex). rewrite Hrcv. cbn [pipeline_loop].
  erewrite bind_Ok by apply mret_run. change (0 =? 0) with true. cbn [when].
  erewrite bind_Ok by (apply upd_que_run; simpl; by rewrite Eq, Ex).
  erewrite bind_Ok by apply release_spinlock_run. rewrite mret_run. eexists. split; [done|].
  assert (∀ m, m ∈ live s → msgs s1 !! m = msgs s !! m ∧ m ∈ live s1) as Hold.
  { intros m Hml. rewrite Ems, El, lookup_insert_ne by set_solver. set_solver. }
  eapply (boxes_update nm s); [done|exact El'|exact Ex|done|done|simpl; by rewrite Eq|done| | |].
  - split; simpl.
    + apply Forall2_app.
      * eapply holds_agree_all; [exact Hm|]. intros m Hml. apply Hold. by eapply holds_live.
      * constructor; [|constructor]. split; [simpl; rewrite Ems, lookup_insert_eq|].
        { unfold d. rewrite length_take, Nat.min_l by lia. by rewrite Z2Nat.id by lia. }
        simpl. split; [done|]. unfold d. rewrite length_take. split; [set_solver|lia].
    + apply NoDup_app. split; [done|]. split; [|apply NoDup_singleton].
      intros m Hml%(holds_live _ _ _ Hm) ->%list_elem_of_singleton. done.
    + rewrite Hsum, length_app. simpl. unfold i32, MAX_MSGNUM in *. zmod.
    + done.
    + rewrite length_app. simpl. lia.
    + done.
  - simpl. intros m [Hml| ->%list_elem_of_singleton]%elem_of_app; [by left|by right].
  - intros m Hml _. by apply Hold.
Qed.

(** what [rcv_out] leaves *)
Lemma rcv_out_run s B e :
  boxes nm s B → ∃ s', rcv_out e (set_lock true s) = Ok (RcvErr e, s') ∧ boxes nm s' B.
Proof.
  intros HB. eexists. split; [done|]. by eapply boxes_agree.
Qed.

Lemma detach_nth (l : list Z) k m :
  NoDup l → l !! k = Some m → detach m l = take k l ++ drop (S k) l.
Proof.
  revert k. induction l as [|y l IH]; intros [|k]; [done|done|..]; intros [Hy Hl]%NoDup_cons; simpl.
  - intros [= ->]. unfold detach. rewrite filter_cons_False by auto.
    apply filter_all. intros x Hx ->. done.
  - intros Hm. unfold detach. rewrite filter_cons_True; [simpl; f_equal; by apply IH|].
    intros ->. apply Hy. by eapply list_elem_of_lookup_2.
Qed.

Lemma ss_wakeup_run l s : ss_wakeup l s = Ok (tt, set_woken (woken s ++ l) s).
Proof.
  revert s. induction l as [|p l IH]; intros s; simpl.
  - rewrite app_nil_r. by destruct s.
  - unfold ss_wakeup in *. cbn [for_each]. unfold activate_proc at 1.
    erewrite bind_Ok by apply modify_run. rewrite IH. simpl. by rewrite <- app_assoc.
Qed.

Lemma recv_run s B i mt buf n :
  boxes nm s B → op_ok (Recv i mt buf n) →
  ∃ s', run_op alloc (Recv i mt buf n) s = Ok ((step nm B (Recv i mt buf n)).2, s') ∧
    boxes nm s' (step nm B (Recv i mt buf n)).1.
Proof.
  intros HB (Hi & Hmt & Hn & Hlen).
  cut (∃ r s', sys_msgrcv 1 i (Some buf) n mt IPC_NOWAIT s = Ok (r, s') ∧
      (step nm B (Recv i mt buf n)).2 = Received r ∧ r ≠ RcvSleep ∧
      boxes nm s' (step nm B (Recv i mt buf n)).1).
  { intros (r & s' & E & Er & Hr & Hs). exists s'. cbn [run_op].
    rewrite (bind_Ok _ _ _ _ _ E), Er. by destruct r. }
  unfold sys_msgrcv. rewrite (proj2 (Z.ltb_ge n 0)) by lia.
  erewrite bind_Ok by (apply acquire_spinlock_run; apply (bx_lock _ _ _ HB)).
  destruct (bx_ids _ _ _ HB i Hi) as [Hid Hsome].
  erewrite bind_Ok; [|by eapply (get_msgq_agree s)]. cbn [set_locked msg_lock step].
  destruct (Z.eqb_spec (nm i) 0) as [H0|H0].
  { rewrite H0, (bx_zero _ _ _ HB). destruct (rcv_out_run s B EIDRM HB) as (s' & E & Hs).
    by exists (RcvErr EIDRM), s'. }
  destruct (Hsome H0) as [l El]. rewrite El.
  destruct (bx_box _ _ _ HB _ _ El) as (x & Ex & Hb). pose proof Hb as [Hm Hnd Hsum Hmax Hle Hrcv].
  erewrite bind_Ok by by apply que_run.
  pose proof (find_msg_run (set_lock true s) (q_message x) mt 0 None l) as Ef.
  rewrite drop_0 in Ef. simpl in Ef. erewrite bind_Ok by by apply Ef. clear Ef.
  destruct (select mt 0 None l) as [k|] eqn:Esel.
  2: { simpl. destruct (rcv_out_run s B ENOMSG HB) as (s' & E & Hs). by exists (RcvErr ENOMSG), s'. }
  apply select_lt in Esel as [|Hk]; [done|]. simpl in Hk.
  destruct (lookup_lt_is_Some_2 l k) as [[ty b] Ek]; [lia|].
  destruct (Forall2_lookup_r _ _ _ _ _ Hm Ek) as (m & Em & Hh). pose proof Hh as (E & Hm0 & Hml & Hsz).
  cbv beta iota delta [from_option]. rewrite (nth_lookup_Some _ _ _ _ Em), (nth_lookup_Some _ _ _ _ Ek).
  rewrite (proj2 (Z.eqb_neq _ _) Hm0). cbn [negb].
  erewrite bind_Ok by by apply msg_at_run. cbn [size fst snd]. simpl in E, Hsz.
  destruct (Z.ltb_spec n (Z.of_nat (length b))).
  { destruct (rcv_out_run s B E2BIG HB) as (s' & E' & Hs). by exists (RcvErr E2BIG), s'. }
  erewrite bind_Ok by by apply upd_que_run.
  erewrite bind_Ok by apply ss_wakeup_run.
  erewrite bind_Ok by (apply upd_que_run; simpl; by rewrite lookup_insert_eq).
  erewrite bind_Ok by apply release_spinlock_run.
  rewrite (deliver_run _ m (ty, b)) by (simpl; done || lia). eexists _, _.
  split; [done|]. split; [done|]. split; [done|].
  eapply (boxes_update nm s); [done|exact El|exact Ex|done|done|simpl; by rewrite insert_insert_eq|done| | |].
  - rewrite Hsum. rewrite (detach_nth _ k m Hnd Em).
    split; simpl.
    + apply (holds_agree_all s).
      * apply Forall2_app; [by apply Forall2_take|by apply Forall2_drop].
      * intros y Hy. simpl. assert (y ≠ m ∧ y ∈ q_message x) as [Hne Hin].
        { rewrite <- (detach_nth _ k m Hnd Em) in Hy. unfold detach in Hy.
          by apply list_elem_of_filter in Hy. }
        rewrite lookup_delete_ne by done. split; [done|].
        pose proof (holds_live _ _ _ Hm y Hin). set_solver.
    + rewrite <- (detach_nth _ k m Hnd Em). by apply NoDup_filter.
    + rewrite length_app, length_take, length_drop. unfold i32, MAX_MSGNUM in *.
      rewrite Nat.min_l by lia. zmod.
    + done.
    + rewrite length_app, length_take, length_drop. lia.
    + done.
  - simpl. intros y Hy. left. unfold detach in Hy. by apply list_elem_of_filter in Hy as [_ Hy].
  - intros y Hy Hyx. simpl. assert (y ≠ m).
    { intros ->. apply Hyx. by eapply list_elem_of_lookup_2. }
    rewrite lookup_delete_ne by done. split; [done|set_solver].
Qed.
End calls.


(** ** Small runs *)

Definition alloc_ex (_ : nat) (L : gset Z) : Z := fresh ({[0]} ∪ L).
Lemma alloc_ex_fresh n L : alloc_ex n L ≠ 0 ∧ alloc_ex n L ∉ L.
Proof. pose proof (is_fresh ({[0]} ∪ L)). unfold alloc_ex. set_solver. Qed.

(** one empty queue with the identifier 0 *)
Definition one_queue : ipc :=
  mkIpc 1 1 false (1 :: replicate 15 0) {[1 := mkQue 5 0 256 0 [] [] []]} ∅ ∅ 1 {[1]} [].

Lemma one_queue_boxes : boxes (λ i, if i =? 0 then 1 else 0) one_queue {[1 := []]}.
Proof.
  split; [done| | |done|].
  - intros q l [<- <-]%lookup_singleton_Some. eexists. split; [apply lookup_singleton_eq|].
    by repeat constructor.
  - intros q1 q2 x1 x2 m [l1 [<- _]%lookup_singleton_Some] [l2 [<- _]%lookup_singleton_Some]. done.
  - intros i Hi. split; [|by case_match].
    unfold get_msgq, entry, que. change SEQ_MULTIPLIER with 16.
    pose proof (Z.rem_bound_pos i 16 ltac:(lia) ltac:(lia)). pose proof (Z.quot_rem' i 16).
    change (Z.of_nat msg_ids_size) with 16. rewrite (proj2 (Z.leb_gt _ _)) by lia.
    rewrite (proj2 (Z.ltb_ge _ _)) by lia. destruct (decide (Z.rem i 16 = 0)) as [E|E].
    + rewrite E. erewrite bind_Ok by by apply getopt_run. change (1 =? 0) with false. cbv iota.
      erewrite bind_Ok by by apply getopt_run. rewrite mret_run. cbn [seq].
      destruct (Z.eqb_spec (Z.quot i 16) 0), (Z.eqb_spec i 0); try done; lia.
    + rewrite (proj2 (Z.eqb_neq i 0)) by (intros ->; by apply E).
      assert (entries one_queue !! Z.to_nat (Z.rem i 16) = Some 0) as El.
      { simpl. replace (Z.to_nat (Z.rem i 16)) with (S (Z.to_nat (Z.rem i 16) - 1)) by lia.
        simpl. apply (lookup_replicate_2 15 0). lia. }
      by rewrite (bind_Ok _ _ _ _ _ (getopt_run (λ s, entries s !! Z.to_nat (Z.rem i 16)) _ _ El)).
Qed.


(** With messages of types 1 and 2 queued, a request for the lowest type up to 3 takes type 2. *)
Example select_not_lowest : select (-3) 0 None [(1, []); (2, [])] = Some 1%nat.
Proof. done. Qed.

(** A send to a waiting receiver with a buffer that is too small never comes to an end. *)
Lemma pipeline_loop_diverges q m r x y fuel : ∀ s,
  ques s !! q = Some x → msgs s !! m = Some y → testmsg (r_mtype (default (mkRcv 0 0 None) (rcvs s !! r))) (mtype y) = true →
  is_Some (rcvs s !! r) → r_size (default (mkRcv 0 0 None) (rcvs s !! r)) < size y →
  pipeline_loop fuel q m [r] s = NoFuel.
Proof.
  revert x. induction fuel as [|fuel IH]; intros x s Ex Ey Ht [z Ez] Hs; [done|].
  cbn [pipeline_loop]. rewrite Ez in Ht, Hs. simpl in Ht, Hs.
  rewrite (bind_Ok _ _ _ _ _ (getopt_run (λ s, rcvs s !! r) _ _ Ez)), (bind_Ok _ _ _ _ _ (msg_at_run _ _ _ Ey)).
  rewrite Ht. rewrite (bind_Ok _ _ _ _ _ (upd_que_run _ _ _ _ Ex)).
  rewrite (proj2 (Z.ltb_lt _ _) Hs). unfold set_r_msg. rewrite bind_assoc.
  erewrite bind_Ok by (apply (getopt_run (λ s, rcvs s !! r)); exact Ez).
  erewrite bind_Ok by apply modify_run. unfold activate_proc. erewrite bind_Ok by apply modify_run.
  eapply IH; simpl; rewrite ?lookup_insert_eq; try done.
Qed.

(** A receiver whose queue is removed while it waits wakes up to a result nobody has written. *)
Example freeque_receiver_fault :
  (sys_msgrcv 9 0 (Some [0]) 1 0 0;; sys_msgctl 0 IPC_RMID;; msgrcv_resume 9 [0] 1) one_queue = Fault.
Proof. by vm_compute. Qed.

(** The second page of a message starts where the rest would end if it began at the start. *)
Lemma load_second_page s bytes n :
  MSG_MSGSZ < n ≤ MSG_MSGSZ + MSG_MSGSEGSZ → n ≤ Z.of_nat (length bytes) →
  ∃ m s' x p, load_msg alloc_ex bytes n s = Ok (m, s') ∧ msgs s' !! m = Some x ∧
    data x = sub 0 (Z.to_nat MSG_MSGSZ) bytes ∧
    segs x = [(p, sub (Z.to_nat (MIN MSG_MSGSZ (n - MSG_MSGSZ))) (Z.to_nat (n - MSG_MSGSZ)) bytes)].
Proof.
  intros Hn Hl. unfold load_msg.
  rewrite (bind_Ok _ _ _ _ _ (page_alloc_run alloc_ex alloc_ex_fresh s)).
  set (a := alloc_ex _ _). rewrite (proj2 (Z.eqb_neq a 0)) by apply alloc_ex_fresh.
  assert (MIN MSG_MSGSZ n = MSG_MSGSZ) as -> by (unfold MIN, MSG_MSGSZ in *; case_match; lia).
  unfold copy_from at 1.
  erewrite bind_Ok; [|apply getopt_run; rewrite (proj2 (Z.leb_le _ _)) by lia; done].
  erewrite bind_Ok by apply modify_run. cbv zeta.
  remember (Z.to_nat (n - MSG_MSGSZ)) as k eqn:Hk. cbn [load_loop].
  rewrite (proj2 (Z.ltb_lt _ _)) by lia.
  rewrite (bind_Ok _ _ _ _ _ (page_alloc_run alloc_ex alloc_ex_fresh _)).
  set (p := alloc_ex _ _). rewrite (proj2 (Z.eqb_neq p 0)) by apply alloc_ex_fresh.
  assert (MIN MSG_MSGSEGSZ (n - MSG_MSGSZ) = n - MSG_MSGSZ) as ->.
  { unfold MIN, MSG_MSGSZ, MSG_MSGSEGSZ in *; case_match; lia. }
  unfold copy_from. erewrite bind_Ok; [|apply getopt_run; rewrite (proj2 (Z.leb_le _ _)); [done|]].
  2: { unfold MIN, MSG_MSGSZ, MSG_MSGSEGSZ in *. case_match; lia. }
  unfold upd_msg. rewrite bind_assoc.
  erewrite bind_Ok by (apply msg_at_run; simpl; apply lookup_insert_eq).
  erewrite bind_Ok by apply modify_run. cbv zeta. rewrite Z.sub_diag.
  destruct k as [|k]; [unfold MSG_MSGSZ in *; lia|]. cbn [load_loop]. change (0 <? 0) with false. cbv iota.
  rewrite mret_run. eexists a, _, _, p. split; [done|]. simpl. split; [apply lookup_insert_eq|].
  rewrite Hk. done.
Qed.

(** ** Making a queue and finding it again *)

Lemma findkey_none s k i l :
  (∀ e, e ∈ l → e ≠ 0 → ∃ x, ques s !! e = Some x ∧ key x ≠ k) → findkey_loop k i l s = Ok (-1, s).
Proof.
  revert i. induction l as [|e l IH]; intros i Hl; [done|]. cbn [findkey_loop].
  assert (∀ e, e ∈ l → e ≠ 0 → ∃ x, ques s !! e = Some x ∧ key x ≠ k) as Hl'.
  { intros e' He. apply Hl. by right. }
  destruct (Z.eqb_spec e 0) as [|He]; [by apply IH|].
  destruct (Hl e) as (x & Ex & Hk); [by left|done|]. erewrite bind_Ok by by apply que_run.
  rewrite (proj2 (Z.eqb_neq _ _) Hk). by apply IH.
Qed.

Lemma findkey_at s k i l1 q x l2 :
  (∀ e, e ∈ l1 → e ≠ 0 → ∃ x, ques s !! e = Some x ∧ key x ≠ k) →
  q ≠ 0 → ques s !! q = Some x → key x = k →
  findkey_loop k i (l1 ++ q :: l2) s = Ok (i + Z.of_nat (length l1), s).
Proof.
  revert i. induction l1 as [|e l1 IH]; intros i Hl Hq Ex Hk; cbn [app findkey_loop].
  - rewrite (proj2 (Z.eqb_neq _ _) Hq). erewrite bind_Ok by by apply que_run.
    rewrite (proj2 (Z.eqb_eq _ _) Hk), mret_run. simpl. by rewrite Z.add_0_r.
  - assert (∀ e, e ∈ l1 → e ≠ 0 → ∃ x, ques s !! e = Some x ∧ key x ≠ k) as Hl'.
    { intros e' He. apply Hl. by right. }
    assert (i + Z.of_nat (length (e :: l1)) = i + 1 + Z.of_nat (length l1)) as -> by (simpl; lia).
    destruct (Z.eqb_spec e 0) as [|He]; [by apply IH|].
    destruct (Hl e) as (y & Ey & Hky); [by left|done|]. erewrite bind_Ok by by apply que_run.
    rewrite (proj2 (Z.eqb_neq _ _) Hky). by apply IH.
Qed.

(** the table of queues, no queue with the key [k] *)
Record table_ok (k : Z) (s : ipc) : Prop := {
  to_lock : ids_lock s = false;
  to_len : length (entries s) = msg_ids_size;
  to_seq : 0 ≤ ids_seq s < 2 ^ 16;
  to_keys : ∀ e, e ∈ entries s → e ≠ 0 →
    e ∈ live s ∧ ∃ x, ques s !! e = Some x ∧ key x ≠ k }.

Lemma get_msgq_at s i q x :
  entries s !! i = Some q → (i < 16)%nat → q ≠ 0 → ques s !! q = Some x → 0 ≤ seq x →
  get_msgq (ipc_buildin (Z.of_nat i) (seq x)) s = Ok (q, s).
Proof.
  intros Ei Hi Hq Ex Hs. unfold get_msgq, ipc_buildin, entry. change SEQ_MULTIPLIER with 16.
  assert (Z.rem (seq x * 16 + Z.of_nat i) 16 = Z.of_nat i) as ->.
  { rewrite Z.rem_mod_nonneg by lia. zmod. }
  assert (Z.quot (seq x * 16 + Z.of_nat i) 16 = seq x) as ->.
  { rewrite Z.quot_div_nonneg by lia. zmod. }
  rewrite (proj2 (Z.leb_gt _ _)) by (unfold msg_ids_size; lia).
  rewrite (proj2 (Z.ltb_ge _ _)) by lia. rewrite Nat2Z.id.
  rewrite (bind_Ok _ _ _ _ _ (getopt_run (λ s, entries s !! i) _ _ Ei)).
  rewrite (proj2 (Z.eqb_neq _ _) Hq). erewrite bind_Ok by by apply que_run.
  by rewrite Z.eqb_refl, mret_run.
Qed.

(** what [newque] does when it does not fail *)
Lemma newque_run alloc k s i s' :
  newque alloc k s = Ok (i, s') → 0 ≤ i → 0 ≤ ids_seq s →
  (∀ n L, alloc n L = 0 ∨ alloc n L ∉ L) →
  ∃ q j, q ≠ 0 ∧ q ∉ live s ∧ free_id (entries s) = Some j ∧
    i = ipc_buildin (Z.of_nat j) (ids_seq s) ∧ entries s' = <[j := q]> (entries s) ∧
    ids_lock s' = ids_lock s ∧
    ques s' = <[q := mkQue k (ids_seq s) MAX_MSGNUM 0 [] [] []]> (ques s).
Proof.
  intros E Hi Hseq Ha. unfold newque, kalloc in E. rewrite !bind_assoc in E.
  rewrite (bind_Ok _ _ _ _ _ (gets_run id s)) in E. cbv zeta in E. change (id s) with s in E.
  rewrite bind_assoc in E. rewrite (bind_Ok _ _ _ _ _ (modify_run _ _)) in E.
  rewrite (bind_Ok _ _ _ _ _ (mret_run _ _)) in E.
  set (q := alloc (nalloc s) (live s)) in *. destruct (Z.eqb_spec q 0) as [Hq|Hq].
  { injection E as <- _. unfold ENOMEM in Hi. lia. }
  rewrite (bind_Ok _ _ _ _ _ (modify_run _ _)) in E. set (s1 := set_ques _ _) in E.
  unfold ipc_addid in E. rewrite !bind_assoc in E.
  rewrite (bind_Ok _ _ _ _ _ (gets_run id s1)) in E. change (id s1) with s1 in E.
  change (entries s1) with (entries s) in E.
  destruct (free_id (entries s)) as [j|] eqn:Ej.
  2: { rewrite (bind_Ok _ _ _ _ _ (mret_run _ _)) in E. change (-1 <? 0) with true in E.
       minv E. minv R0. injection R2 as <- _. unfold ENOSEQ in Hi. lia. }
  rewrite !bind_assoc in E. rewrite (bind_Ok _ _ _ _ _ (modify_run _ _)) in E.
  rewrite !bind_assoc in E.
  erewrite bind_Ok in E by (apply upd_que_run; simpl; apply lookup_insert_eq).
  rewrite (bind_Ok _ _ _ _ _ (mret_run _ _)) in E. rewrite (proj2 (Z.ltb_ge _ _)) in E by lia.
  erewrite bind_Ok in E by (apply upd_que_run; simpl; apply lookup_insert_eq).
  erewrite bind_Ok in E by (apply que_run; simpl; apply lookup_insert_eq).
  rewrite mret_run in E. injection E as <- <-. exists q, j.
  split; [done|]. split; [by destruct (Ha (nalloc s) (live s))|]. split; [done|]. split; [done|].
  split; [done|]. split; [done|]. simpl. by rewrite !insert_insert_eq.
Qed.

(** [sys_msgget] for a key that is there *)
Lemma msgget_existing alloc k flg s l1 q x l2 :
  ids_lock s = false → k ≠ IPC_PRIVATE → entries s = l1 ++ q :: l2 →
  (∀ e, e ∈ l1 → e ≠ 0 → ∃ x, ques s !! e = Some x ∧ key x ≠ k) →
  q ≠ 0 → ques s !! q = Some x → key x = k →
  sys_msgget alloc k flg s =
    Ok (if Z.land flg IPC_EXCL =? 0 then ipc_buildin (Z.of_nat (length l1)) (seq x) else EEXIST, s).
Proof.
  intros Hlk Hk He Hl1 Hq Ex Hx. unfold sys_msgget.
  rewrite (bind_Ok _ _ _ _ _ (acquire_spinlock_run msg_lock s Hlk)). cbn [set_locked msg_lock].
  rewrite (proj2 (Z.eqb_neq _ _) Hk). unfold ipc_findkey. rewrite !bind_assoc.
  erewrite bind_Ok by apply gets_run. simpl entries. rewrite He.
  rewrite (bind_Ok _ _ _ _ _ (findkey_at (set_lock true s) k 0 l1 q x l2 Hl1 Hq Ex Hx)).
  rewrite (proj2 (Z.eqb_neq _ _)) by lia.
  assert (set_lock false (set_lock true s) = s) as Hback by (destruct s; simpl in *; by rewrite Hlk).
  destruct (Z.land flg IPC_EXCL =? 0); cbn [negb].
  - unfold entry. rewrite (proj2 (Z.ltb_ge _ _)) by lia. rewrite Z.add_0_l, Nat2Z.id, bind_assoc.
    erewrite bind_Ok.
    2: { apply getopt_run. simpl. rewrite He. by apply list_lookup_middle. }
    rewrite bind_assoc. erewrite bind_Ok by (apply que_run; exact Ex).
    erewrite bind_Ok by apply mret_run. erewrite bind_Ok by apply release_spinlock_run.
    by rewrite mret_run; simpl; rewrite Hback.
  - erewrite bind_Ok by apply mret_run. erewrite bind_Ok by apply release_spinlock_run.
    by rewrite mret_run; simpl; rewrite Hback.
Qed.

(** A queue that [sys_msgget] has made for a new key is an empty queue, the identifier it gave
    leads to that queue, and asking for the key again gives the same identifier. *)
Theorem msgget_roundtrip alloc k s i s' :
  (∀ n L, alloc n L = 0 ∨ alloc n L ∉ L) → table_ok k s → k ≠ IPC_PRIVATE →
  sys_msgget alloc k IPC_CREATE s = Ok (i, s') → 0 ≤ i →
  ∃ q, get_msgq i s' = Ok (q, s') ∧ q ≠ 0 ∧ q ∉ live s ∧
    ques s' !! q = Some (mkQue k (ids_seq s) MAX_MSGNUM 0 [] [] []) ∧
    sys_msgget alloc k 0 s' = Ok (i, s') ∧
    sys_msgget alloc k IPC_EXCL s' = Ok (EEXIST, s').
Proof.
  intros Ha [Hlk Hlen Hseq Hkeys] Hk E Hi. unfold sys_msgget in E.
  rewrite (bind_Ok _ _ _ _ _ (acquire_spinlock_run msg_lock s Hlk)) in E.
  cbn [set_locked msg_lock] in E.
  rewrite (proj2 (Z.eqb_neq _ _) Hk) in E. unfold ipc_findkey in E. rewrite !bind_assoc in E.
  rewrite (bind_Ok _ _ _ _ _ (gets_run _ _)) in E. simpl entries in E.
  rewrite (bind_Ok _ _ _ _ _ (findkey_none (set_lock true s) k 0 (entries s) ltac:(intros; by apply Hkeys))) in E.
  change (-1 =? -1) with true in E. change (Z.land IPC_CREATE IPC_CREATE =? 0) with false in E.
  cbn [negb] in E. minv E. minv R0. injection R1 as <-. injection R2 as <- <-.
  apply newque_run in R as (q & j & Hq & Hql & Ej & -> & He & Hl & Hqs); [|done|simpl; lia|done].
  simpl in Ej, He, Hqs, Hql. unfold free_id in Ej.
  destruct (list_find _ (entries s)) as [[j' e]|] eqn:Ef; [|done]. simpl in Ej. simplify_eq.
  apply list_find_Some in Ef as (Eje & -> & Hbefore).
  assert (j < 16)%nat as Hj. { apply lookup_lt_Some in Eje. unfold msg_ids_size in *. lia. }
  simpl in Hi. cbn [ids_seq set_lock]. set (s2 := set_lock false s0).
  assert (ids_lock s2 = false ∧ entries s2 = <[j := q]> (entries s)) as [Hlk2 He2] by done.
  assert (ques s2 !! q = Some (mkQue k (ids_seq s) MAX_MSGNUM 0 [] [] [])) as Eq.
  { change (ques s2) with (ques s0). by rewrite Hqs, lookup_insert_eq. }
  assert (∀ e, e ∈ take j (entries s) → e ≠ 0 → ∃ x, ques s2 !! e = Some x ∧ key x ≠ k) as Hk2.
  { intros e Hin He0. destruct (Hkeys e) as (Hlive & x & Ex & Hx); [|done|].
    { by eapply elem_of_take in Hin as (? & ? & _); eapply list_elem_of_lookup_2. }
    exists x. split; [|done]. change (ques s2) with (ques s0). rewrite Hqs.
    rewrite lookup_insert_ne; [done|]. intros ->. done. }
  assert (entries s2 = take j (entries s) ++ q :: drop (S j) (entries s)) as Hsplit.
  { rewrite He2, insert_take_drop; [done|]. rewrite Hlen. done. }
  assert (length (take j (entries s)) = j) as Hlj by (rewrite length_take, Hlen; unfold msg_ids_size; lia).
  exists q. split_and!; try done.
  - apply (get_msgq_at s2 j q (mkQue k (ids_seq s) MAX_MSGNUM 0 [] [] [])); try done.
    + rewrite He2. apply list_lookup_insert_eq. rewrite Hlen. done.
    + simpl. lia.
  - by erewrite msgget_existing, Hlj by (done || exact Hk2).
  - by erewrite msgget_existing by (done || exact Hk2).
Qed.

Lemma msgget_roundtrip_witness :
  let s := mkIpc 1 7 false (1 :: replicate 15 0) {[1 := mkQue 5 0 256 0 [] [] []]} ∅ ∅ 1 {[1]} [] in
  ∃ s', sys_msgget alloc_ex 6 IPC_CREATE s = Ok (113, s') ∧
  ∃ q, get_msgq 113 s' = Ok (q, s') ∧ q ≠ 0 ∧ q ∉ live s ∧
    ques s' !! q = Some (mkQue 6 7 MAX_MSGNUM 0 [] [] []) ∧
    sys_msgget alloc_ex 6 0 s' = Ok (113, s') ∧
    sys_msgget alloc_ex 6 IPC_EXCL s' = Ok (EEXIST, s').
Proof.
  intros s. eexists. split; [by vm_compute|].
  apply (msgget_roundtrip alloc_ex 6 s 113); [|split|done|by vm_compute|lia].
  - intros n L. right. apply alloc_ex_fresh.
  - done.
  - done.
  - done.
  - intros e He He0. simpl in He. apply elem_of_cons in He as [->|He].
    + split; [set_solver|]. exists (mkQue 5 0 256 0 [] [] []). by vm_compute.
    + exfalso. set_unfold in He. naive_solver.
Defined.
