(* ===== verification/Timer.v ===== *)
(** * [kernel/cpu.c], [driver/clock.c]: timers

    Each CPU keeps its timers in a red-black tree ordered by the time at which they are due, and
    programs its clock for the first of them.  A timer is named by the address of its node.
    The handler of a timer is a parameter; the counter that [get_timestamp] reads is an
    arbitrary sequence of values, one for each reading. *)

From Stdlib Require Import ZArith Lia.
From S2P Require Import Prelude Words Rbtree.

Record timer := mkTimer { triggered : bool; elapse : Z; key : Z; data : Z }.

(** one CPU: [cpus[cpuid()]], the timers in memory, [clock], the countdown register and how
    often the counter has been read *)
Record cpu := mkCpu {
  online : bool; tree : rbtree; timers : gmap Z timer;
  one_ms : Z; clock_handler : bool; tval : Z; reads : nat }.
Notation C := (M cpu).

Definition put_tree (t : rbtree) (s : cpu) : cpu :=
  mkCpu (online s) t (timers s) (one_ms s) (clock_handler s) (tval s) (reads s).
Definition put_timers (l : gmap Z timer) (s : cpu) : cpu :=
  mkCpu (online s) (tree s) l (one_ms s) (clock_handler s) (tval s) (reads s).
Definition put_online (b : bool) (s : cpu) : cpu :=
  mkCpu b (tree s) (timers s) (one_ms s) (clock_handler s) (tval s) (reads s).
Definition put_clock (ms : Z) (h : bool) (v : Z) (s : cpu) : cpu :=
  mkCpu (online s) (tree s) (timers s) ms h v (reads s).
Definition read_counter (s : cpu) : cpu :=
  mkCpu (online s) (tree s) (timers s) (one_ms s) (clock_handler s) (tval s) (S (reads s)).

Definition rb {A} (m : M rbtree A) : C A := on tree put_tree m.
Definition timer_at (t : Z) : C timer := getopt (λ s, timers s !! t).
Definition upd_timer (t : Z) (f : timer → timer) : C unit :=
  x ← timer_at t; modify (λ s, put_timers (<[t := f x]> (timers s)) s).
Definition set_triggered (b : bool) (x : timer) : timer := mkTimer b (elapse x) (key x) (data x).
Definition set_key (k : Z) (x : timer) : timer := mkTimer (triggered x) (elapse x) k (data x).

Section timer.
(** [get_timestamp()] at each reading, [get_clock_frequency()], [timer->handler] *)
Context (counter : nat → Z) (frequency : Z) (handler : Z → C unit).

(** ** The clock *)

Definition reset_clock (countdown_ms : Z) : C unit :=
  s ← gets id;
  let t := u64 (countdown_ms * one_ms s) in
  assert (t <=? 0x7fffffff);;
  modify (put_clock (one_ms s) (clock_handler s) t).

Definition init_clock : C unit :=
  s ← gets id;
  modify (put_clock (frequency / 1000) (clock_handler s) (tval s));;
  reset_clock 1000.

Definition get_timestamp_ms : C Z :=
  s ← gets id;
  modify read_counter;;
  mret (counter (reads s) / one_ms s).

(** [h]: the handler is not null *)
Definition set_clock_handler (h : bool) : C unit :=
  s ← gets id; modify (put_clock (one_ms s) h (tval s)).

(** ** Timers *)

(** the comparison of two nodes, for timers with the contents [l] *)
Definition timer_cmp (l : gmap Z timer) (x y : Z) : bool :=
  match l !! x, l !! y with
  | Some a, Some b =>
      let d := i64 (u64 (key a - key b)) in
      if d <? 0 then true else if d =? 0 then x <? y else false
  | _, _ => false
  end.

Definition timer_set_clock : C unit :=
  node ← rb rb_first;
  if node =? 0 then reset_clock 1000
  else
    t1 ← timer_at node;
    t0 ← get_timestamp_ms;
    if key t1 <=? t0 then reset_clock 0 else reset_clock (key t1 - t0).

Definition set_cpu_timer (t : Z) : C unit :=
  upd_timer t (set_triggered false);;
  now ← get_timestamp_ms;
  x ← timer_at t;
  upd_timer t (set_key (u64 (now + elapse x)));;
  l ← gets timers;
  r ← rb (rb_insert (timer_cmp l) t);
  assert (r =? 0);;
  timer_set_clock.

Definition cancel_cpu_timer (t : Z) : C unit :=
  x ← timer_at t;
  assert (negb (triggered x));;
  rb (rb_erase t);;
  timer_set_clock.

(** [while (1)]: [fuel] bounds the timers that go off *)
Fixpoint handler_loop (fuel : nat) : C unit :=
  match fuel with
  | O => nofuel
  | S fuel =>
      node ← rb rb_first;
      if node =? 0 then mret tt
      else
        now ← get_timestamp_ms;
        x ← timer_at node;
        if now <? key x then mret tt
        else
          cancel_cpu_timer node;;
          upd_timer node (set_triggered true);;
          handler node;;
          handler_loop fuel
  end.
Definition timer_clock_handler (fuel : nat) : C unit := reset_clock 1000;; handler_loop fuel.

(** [clock.handler] is [timer_clock_handler] once it is set *)
Definition invoke_clock_handler (fuel : nat) : C unit :=
  s ← gets id;
  if negb (clock_handler s) then panic else timer_clock_handler fuel.

(** ** Bringing the CPU up *)

(** [hello], the handler of the timer [t]; it sets itself again *)
Definition hello (t : Z) : C unit :=
  upd_timer t (λ x, mkTimer (triggered x) (elapse x) (key x) (u64 (data x + 1)));;
  set_cpu_timer t.

(** [hello_timer] is this CPU's timer of that name *)
Definition set_cpu_on (hello_timer : Z) : C unit :=
  init_clock;;
  modify (put_online true);;
  upd_timer hello_timer (λ x, mkTimer (triggered x) 5000 (key x) (data x));;
  set_cpu_timer hello_timer.

Definition set_cpu_off : C unit := modify (put_online false).
End timer.
