(* ===== verification/TimerSpec.v ===== *)
(** * Timers go off when they are due, and the clock is set for the first of them *)

From Stdlib Require Import ZArith Lia Sorted.
From S2P Require Import Prelude Triple Words Rbtree RbtreeSpec RbtreeInsert RbtreeErase Timer.

(** ** The tree operations lose no node of the memory *)

(** the nodes of [s] are still there *)
Definition grown (s s' : rbtree) : Prop := ∀ x, is_Some (rmem s !! x) → is_Some (rmem s' !! x).
Local Notation grows m := (∀ s0, keeps (grown s0) m).

Lemma grows_set_node s0 p f : keeps (grown s0) (set_node p f).
Proof.
  apply keeps_bind; [apply keeps_getopt|]. intros n. apply keeps_modify.
  intros s Hs x Hx. simpl. apply lookup_insert_is_Some'. right. by apply Hs.
Qed.
Lemma grows_set_root s0 v : keeps (grown s0) (set_root v).
Proof. by apply keeps_modify. Qed.
Lemma keeps_with_fuel {A} P (f : nat → M rbtree A) : (∀ n, keeps P (f n)) → keeps P (with_fuel f).
Proof. intros Hf s a s' HP E. by eapply Hf. Qed.
#[local] Hint Resolve grows_set_node grows_set_root : keeps.

Ltac grow := repeat first
  [ progress intros
  | solve [auto with keeps]
  | progress keep
  | apply keeps_with_fuel
  | match goal with
    | |- keeps _ ?m => progress unfold rb_left, rb_right, rb_pc, set_left, set_right, set_pc, rb_parent,
        rb_color, rb_is_red, rb_is_black, rb_set_black, rb_red_parent, rb_set_parent, rb_set_parent_color,
        rb_change_child, rb_rotate_set_parents, and_red, none_or_black, when_ptr, node_at
    end ].

Lemma grows_insert_fix s0 n : ∀ x y, keeps (grown s0) (insert_fix_loop n x y).
Proof.
  induction n as [|n IH]; intros x y; cbn [insert_fix_loop]; [apply keeps_nofuel|].
  unfold insert_recolor, insert_rotate_left, insert_rotate_right. grow.
Qed.
Lemma grows_descend s0 cmp n : ∀ x y, keeps (grown s0) (insert_descend cmp n x y).
Proof. induction n as [|n IH]; intros x y; cbn [insert_descend]; [apply keeps_nofuel|]. grow. Qed.
#[local] Hint Resolve grows_insert_fix grows_descend : keeps.
Lemma grows_rb_insert cmp x : grows (rb_insert cmp x).
Proof. unfold rb_insert, rb_insert_fix. grow. Qed.

Lemma grows_successor s0 n : ∀ x y, keeps (grown s0) (successor_loop n x y).
Proof. induction n as [|n IH]; intros x y; cbn [successor_loop]; [apply keeps_nofuel|]. grow. Qed.
Lemma grows_erase_fix s0 n : ∀ x y, keeps (grown s0) (erase_fix_loop n x y).
Proof.
  induction n as [|n IH]; intros x y; cbn [erase_fix_loop]; [apply keeps_nofuel|].
  unfold erase_red_left, erase_red_right, erase_recolor, erase_inner_left, erase_inner_right,
    erase_outer_left, erase_outer_right. grow.
Qed.
#[local] Hint Resolve grows_successor grows_erase_fix : keeps.
Lemma grows_rb_erase x : grows (rb_erase x).
Proof. unfold rb_erase, rb_erase_node, erase_two_children, erase_successor. grow. Qed.

(** ** The order of timers *)

Definition keys_ok (l : gmap Z timer) : Prop := ∀ x a, l !! x = Some a → 0 ≤ key a < 2 ^ 63.

Lemma timer_cmp_spec l x y :
  keys_ok l → timer_cmp l x y = true ↔
  ∃ a b, l !! x = Some a ∧ l !! y = Some b ∧ (key a < key b ∨ key a = key b ∧ x < y).
Proof.
  intros Hk. unfold timer_cmp. destruct (l !! x) as [a|] eqn:Ea; [|naive_solver].
  destruct (l !! y) as [b|] eqn:Eb; [|naive_solver].
  pose proof (Hk _ _ Ea) as Ha. pose proof (Hk _ _ Eb) as Hb.
  assert (i64 (u64 (key a - key b)) = key a - key b) as -> by (unfold i64, u64; zmod).
  destruct (Z.ltb_spec (key a - key b) 0) as [H1|H1].
  { split; [|done]. intros _. exists a, b. split_and!; [done|done|]. left. lia. }
  destruct (Z.eqb_spec (key a - key b) 0) as [H2|H2].
  - rewrite Z.ltb_lt. split.
    + intros H3. exists a, b. split_and!; [done|done|]. right. lia.
    + intros (a' & b' & Ha' & Hb' & Hor). simplify_eq. lia.
  - split; [done|]. intros (a' & b' & Ha' & Hb' & Hor). simplify_eq. lia.
Qed.

Lemma timer_cmp_trans l :
  keys_ok l → ∀ x y z, timer_cmp l x y = true → timer_cmp l y z = true → timer_cmp l x z = true.
Proof.
  intros Hk x y z. rewrite !timer_cmp_spec by done.
  intros (a & b & Ea & Eb & H1) (b' & c & Eb' & Ec & H2). simplify_eq. exists a, c.
  split_and!; [done|done|lia].
Qed.

(** no two timers are the same to the comparison *)
Lemma timer_cmp_total l x y :
  keys_ok l → is_Some (l !! x) → is_Some (l !! y) → same (timer_cmp l) x y → x = y.
Proof.
  intros Hk [a Ea] [b Eb] [H1 H2]. destruct (decide (x = y)) as [|Hne]; [done|exfalso].
  destruct (decide (key a < key b ∨ key a = key b ∧ x < y)) as [Hc|Hc].
  - assert (timer_cmp l x y = true) as Ht; [|congruence]. apply timer_cmp_spec; [done|]. by exists a, b.
  - assert (timer_cmp l y x = true) as Ht; [|congruence]. apply timer_cmp_spec; [done|].
    exists b, a. split_and!; [done|done|lia].
Qed.

Lemma ordered_agree l l' q :
  (∀ x, x ∈ q → key <$> l' !! x = key <$> l !! x) →
  ordered (timer_cmp l) q → ordered (timer_cmp l') q.
Proof.
  intros Hk. unfold ordered. induction 1 as [|x q Hq IH Hx]; constructor.
  - apply IH. intros y Hy. apply Hk. by right.
  - rewrite Forall_forall in Hx |- *. intros y Hy. specialize (Hx y Hy).
    pose proof (Hk x ltac:(by left)) as Ex. pose proof (Hk y ltac:(by right)) as Ey.
    revert Hx. unfold timer_cmp.
    destruct (l !! x), (l !! y), (l' !! x), (l' !! y); simpl in Ex, Ey; try done.
    injection Ex as ->. injection Ey as ->. done.
Qed.

(** ** The state of a CPU's timers *)

Section spec.
Context (counter : nat → Z) (frequency : Z).
Hypothesis counter_mono : ∀ i, 0 ≤ counter i ≤ counter (S i).

(** the time at the next reading *)
Definition now (s : cpu) : Z := counter (reads s) / one_ms s.
Definition far : Z := 0x7fffffff.

(** The timers in [l] are set, in this order. *)
Record timers_ok (s : cpu) (l : list Z) : Prop := {
  tk_tree : ∃ t, rb_tree (tree s) t ∧ inorder t = l;
  tk_order : ordered (timer_cmp (timers s)) l;
  tk_keys : keys_ok (timers s);
  tk_nodes : ∀ x, is_Some (timers s !! x) → is_Some (rmem (tree s) !! x) ∧ ptr x ∧ x ≠ 0;
  tk_set : ∀ x, x ∈ l → ∃ a, timers s !! x = Some a ∧ triggered a = false ∧
    (key a - now s) * one_ms s ≤ far;
  tk_ms : 0 < one_ms s;
  tk_1000 : 1000 * one_ms s ≤ far }.

(** the clock is set for the first of [l], counted from the time [t0] *)
Definition clock_for (s : cpu) (l : list Z) (t0 : Z) : Prop :=
  match l with
  | [] => tval s = 1000 * one_ms s
  | x :: _ => ∃ a, timers s !! x = Some a ∧
      tval s = (if key a <=? t0 then 0 else (key a - t0) * one_ms s)
  end.

Lemma rb_run {A} (m : M rbtree A) s a t : m (tree s) = Ok (a, t) → rb m s = Ok (a, put_tree t s).
Proof. intros E. unfold rb. by apply on_run. Qed.

Lemma timer_at_run s t a : timers s !! t = Some a → timer_at t s = Ok (a, s).
Proof. intros E. by apply getopt_run. Qed.
Lemma upd_timer_run s t f a :
  timers s !! t = Some a → upd_timer t f s = Ok (tt, put_timers (<[t := f a]> (timers s)) s).
Proof. intros E. unfold upd_timer. by rewrite (bind_Ok _ _ _ _ _ (timer_at_run _ _ _ E)). Qed.

Lemma reset_clock_run s c :
  0 ≤ c → 0 < one_ms s → c * one_ms s ≤ far →
  reset_clock c s = Ok (tt, put_clock (one_ms s) (clock_handler s) (c * one_ms s) s).
Proof.
  intros Hc Hm Hf. unfold reset_clock. mstep. change (id s) with s.
  assert (u64 (c * one_ms s) = c * one_ms s) as -> by (unfold u64, far in *; zmod).
  rewrite (bind_Ok _ _ _ _ _ (assert_run _ _ (proj2 (Z.leb_le _ _) Hf))). done.
Qed.

Lemma first_run s l :
  timers_ok s l → rb rb_first s = Ok (match l with [] => 0 | x :: _ => x end, s).
Proof using.
  intros [(t & Ht & <-) _ _ _ _ _ _]. rewrite (rb_run _ s _ _ (rb_first_correct _ _ Ht)).
  by destruct s.
Qed.

(** time goes by *)
Lemma read_ok s l : timers_ok s l → timers_ok (read_counter s) l.
Proof using counter_mono.
  intros [H1 H2 H3 H4 H5 H6 H7]. split; try done. intros x Hx. destruct (H5 x Hx) as (a & E & Ht & Hn).
  exists a. split; [done|]. split; [done|]. unfold now in *. simpl.
  assert (counter (reads s) / one_ms s ≤ counter (S (reads s)) / one_ms s).
  { apply Z.div_le_mono; [done|apply counter_mono]. }
  nia.
Qed.

Lemma tick_ok s l v : timers_ok s l → timers_ok (put_clock (one_ms s) (clock_handler s) v s) l.
Proof using. by intros []. Qed.

Lemma set_clock_run s l :
  timers_ok s l → ∃ s', timer_set_clock counter s = Ok (tt, s') ∧ timers_ok s' l ∧
    clock_for s' l (now s) ∧ timers s' = timers s ∧ tree s' = tree s ∧ one_ms s' = one_ms s ∧
    (reads s ≤ reads s' ≤ S (reads s))%nat.
Proof using counter_mono.
  intros Hs. unfold timer_set_clock. rewrite (bind_Ok _ _ _ _ _ (first_run _ _ Hs)).
  pose proof Hs as [_ _ _ Hn Hset Hms H1000]. destruct l as [|x l].
  - change (0 =? 0) with true. cbv iota. rewrite reset_clock_run by (done || lia).
    eexists. split; [done|]. split; [by apply tick_ok|]. simpl. split_and!; (done || lia).
  - destruct (Hset x ltac:(by left)) as (a & Ea & Htr & Hfar).
    destruct (Hn x ltac:(by eexists)) as (_ & _ & Hx0). rewrite (proj2 (Z.eqb_neq _ _) Hx0).
    rewrite (bind_Ok _ _ _ _ _ (timer_at_run _ _ _ Ea)). unfold get_timestamp_ms. rewrite bind_assoc.
    erewrite bind_Ok by apply gets_run. rewrite bind_assoc. erewrite bind_Ok by apply modify_run.
    erewrite bind_Ok by apply mret_run. change (id s) with s. fold (now s).
    assert (timers_ok (read_counter s) (x :: l)) as Hs' by by apply read_ok.
    destruct (Z.leb_spec (key a) (now s)) as [Hle|Hgt].
    + rewrite reset_clock_run by (simpl; unfold far; lia).
      eexists. split; [done|]. split; [by apply (tick_ok (read_counter s))|]. split_and!; try done; [|simpl; lia..].
      exists a. split; [done|]. by rewrite (proj2 (Z.leb_le _ _) Hle).
    + rewrite reset_clock_run by (simpl; lia).
      eexists. split; [done|]. split; [by apply (tick_ok (read_counter s))|]. split_and!; try done; [|simpl; lia..].
      exists a. split; [done|]. by rewrite (proj2 (Z.leb_gt _ _) Hgt).
Qed.

Lemma timestamp_run s : get_timestamp_ms counter s = Ok (now s, read_counter s).
Proof. done. Qed.

Lemma now_mono s s' :
  one_ms s' = one_ms s → 0 < one_ms s → (reads s ≤ reads s')%nat → now s ≤ now s'.
Proof using counter_mono.
  intros Em Hm Hr. unfold now. rewrite Em. apply Z.div_le_mono; [done|].
  induction Hr as [|n Hn IH]; [done|]. pose proof (counter_mono n). lia.
Qed.

(** ** Setting a timer *)

Lemma set_cpu_timer_run s l t x :
  timers_ok s l → timers s !! t = Some x → t ∉ l → 0 ≤ elapse x → now s + elapse x < 2 ^ 63 →
  elapse x * one_ms s ≤ far →
  ∃ s' l1 l2 t0, set_cpu_timer counter t s = Ok (tt, s') ∧ l = l1 ++ l2 ∧ timers_ok s' (l1 ++ t :: l2) ∧
    timers s' = <[t := mkTimer false (elapse x) (now s + elapse x) (data x)]> (timers s) ∧
    now s ≤ t0 ≤ now s' ∧ clock_for s' (l1 ++ t :: l2) t0.
Proof using counter_mono.
  intros Hs Ex Hin He Hk Hf. pose proof Hs as [(tr & Htr & Hl) Ho Hkeys Hn Hset Hms H1000].
  destruct (Hn t ltac:(by eexists)) as (Hnode & Hp & H0).
  assert (0 ≤ now s) as Hnow. { unfold now. apply Z.div_pos; [apply counter_mono|done]. }
  unfold set_cpu_timer. rewrite (bind_Ok _ _ _ _ _ (upd_timer_run _ _ _ _ Ex)).
  rewrite (bind_Ok _ _ _ _ _ (timestamp_run _)).
  erewrite bind_Ok by (apply timer_at_run; simpl; apply lookup_insert_eq).
  erewrite bind_Ok by (apply upd_timer_run; simpl; apply lookup_insert_eq).
  erewrite bind_Ok by apply gets_run. unfold set_key, set_triggered. cbn [triggered elapse data].
  assert (now (put_timers (<[t := mkTimer false (elapse x) (key x) (data x)]> (timers s)) s) = now s) as -> by done.
  assert (u64 (now s + elapse x) = now s + elapse x) as -> by (unfold u64; zmod).
  set (y := mkTimer false (elapse x) (now s + elapse x) (data x)).
  set (s3 := put_timers _ (read_counter _)).
  assert (timers s3 = <[t := y]> (timers s) ∧ tree s3 = tree s ∧ one_ms s3 = one_ms s ∧ reads s3 = S (reads s))
    as (Et & Etr & Ems & Erd) by (unfold s3; simpl; by rewrite insert_insert_eq).
  clearbody s3. rewrite Et.
  assert (keys_ok (<[t := y]> (timers s))) as Hkeys3.
  { intros w a. destruct (decide (w = t)) as [->|]; [|rewrite lookup_insert_ne by done; apply Hkeys].
    rewrite lookup_insert_eq. intros [= <-]. simpl. lia. }
  assert (ordered (timer_cmp (<[t := y]> (timers s))) l) as Ho3.
  { eapply ordered_agree; [|exact Ho]. intros w Hw. by rewrite lookup_insert_ne by (intros ->; done). }
  destruct (rb_insert_run (timer_cmp (<[t := y]> (timers s))) (timer_cmp_trans _ Hkeys3) (tree s3) tr t)
    as [(w & q & Hw & Hsame & _)|(q & tr' & l1 & l2 & E & Htr' & El & El' & Ho')];
    rewrite ?Etr, ?Hl; try done.
  { exfalso. rewrite Hl in Hw. apply Hin. rewrite (timer_cmp_total _ t w Hkeys3); [done| | |done].
    - rewrite lookup_insert_eq. by eexists.
    - rewrite lookup_insert_ne by (intros ->; done). destruct (Hset w Hw) as (a & -> & _). by eexists. }
  rewrite Hl in El. rewrite El' in Ho'. rewrite (bind_Ok _ _ _ _ _ (rb_run _ s3 _ _ E)).
  erewrite bind_Ok by by apply assert_run.
  assert (now s ≤ now s3) as Hmono by (apply now_mono; [done|done|rewrite Erd; lia]).
  assert (timers_ok (put_tree q s3) (l1 ++ t :: l2)) as Hs4.
  { split; simpl; rewrite ?Et, ?Ems; try done.
    - by exists tr'.
    - intros w Hw. assert (is_Some (timers s !! w)) as Hw'.
      { destruct (decide (w = t)) as [->|]; [by eexists|]. by rewrite lookup_insert_ne in Hw. }
      destruct (Hn w Hw') as (? & ? & ?). split; [|done]. apply (grows_rb_insert _ _ (tree s3) (tree s3) _ _ (λ x Hx, Hx) E). by rewrite Etr.
    - intros w Hw. destruct (decide (w = t)) as [->|Hwt].
      + rewrite lookup_insert_eq. exists y. split; [done|]. split; [done|]. simpl.
        change (now (put_tree q s3)) with (now s3). nia.
      + rewrite lookup_insert_ne by done. destruct (Hset w) as (a & Ea & Hta & Hfa).
        { rewrite El. set_solver. }
        exists a. split; [done|]. split; [done|]. change (now (put_tree q s3)) with (now s3). nia. }
  destruct (set_clock_run _ _ Hs4) as (s5 & E5 & Hs5 & Hc & Et5 & _ & Em5 & Hr5).
  exists s5, l1, l2, (now s3). rewrite E5. split_and!; try done.
  - rewrite Et5. simpl. by rewrite Et.
  - apply now_mono; [by rewrite Em5|simpl; by rewrite Ems|simpl in Hr5; lia].
Qed.

(** ** Cancelling one *)

Lemma ordered_delete l1 x l2 cmp : ordered cmp (l1 ++ x :: l2) → ordered cmp (l1 ++ l2).
Proof.
  intros (H1 & H2 & H3)%ordered_app. apply ordered_app. inversion H2; subst. split_and!; [done|done|].
  intros y z Hy Hz. apply H3; [done|by right].
Qed.

Lemma cancel_cpu_timer_run s l t :
  timers_ok s l → t ∈ l →
  ∃ s' l1 l2, cancel_cpu_timer counter t s = Ok (tt, s') ∧ l = l1 ++ t :: l2 ∧ timers_ok s' (l1 ++ l2) ∧
    timers s' = timers s ∧ one_ms s' = one_ms s ∧ (reads s ≤ reads s')%nat ∧ clock_for s' (l1 ++ l2) (now s).
Proof using counter_mono.
  intros Hs Hin. pose proof Hs as [(tr & Htr & Hl) Ho Hkeys Hn Hset Hms H1000].
  destruct (Hset t Hin) as (x & Ex & Hx & _). unfold cancel_cpu_timer.
  rewrite (bind_Ok _ _ _ _ _ (timer_at_run _ _ _ Ex)), Hx. erewrite bind_Ok by by apply assert_run.
  destruct (rb_erase_run (tree s) tr t Htr) as (q & tr' & l1 & l2 & E & Htr' & El & El'); [by rewrite Hl|].
  rewrite (bind_Ok _ _ _ _ _ (rb_run _ s _ _ E)). rewrite Hl in El.
  assert (timers_ok (put_tree q s) (l1 ++ l2)) as Hs4.
  { split; simpl; try done.
    - by exists tr'.
    - rewrite El in Ho. by eapply ordered_delete.
    - intros w Hw. destruct (Hn w Hw) as (? & ? & ?). split; [|done]. by apply (grows_rb_erase _ (tree s) (tree s) _ _ (λ x Hx, Hx) E).
    - intros w Hw. apply Hset. rewrite El. set_solver. }
  destruct (set_clock_run _ _ Hs4) as (s5 & E5 & Hs5 & Hc & Et5 & _ & Em5 & Hr5).
  exists s5, l1, l2. rewrite E5. split_and!; try done. apply Hr5.
Qed.

(** ** The clock interrupt *)

(** same key and same flag *)
Definition sig (s : cpu) (x : Z) : option (Z * bool) := (λ a, (key a, triggered a)) <$> timers s !! x.

Lemma clock_agree s s' l t0 :
  (∀ x, x ∈ l → sig s' x = sig s x) → one_ms s' = one_ms s → tval s' = tval s →
  clock_for s l t0 → clock_for s' l t0.
Proof.
  intros Hs Em Ev. destruct l as [|x l]; simpl; rewrite Em, Ev; [done|].
  intros (a & Ea & Hv). specialize (Hs x ltac:(by left)). unfold sig in Hs. rewrite Ea in Hs.
  destruct (timers s' !! x) as [a'|]; [|done]. injection Hs as Hk _. exists a'. by rewrite Hk.
Qed.

Lemma trigger_ok s l t a :
  timers_ok s l → t ∉ l → timers s !! t = Some a →
  timers_ok (put_timers (<[t := set_triggered true a]> (timers s)) s) l.
Proof.
  intros [H1 H2 H3 H4 H5 H6 H7] Hin Ea. split; simpl; try done.
  - eapply ordered_agree; [|exact H2]. intros x Hx. by rewrite lookup_insert_ne by (intros ->; done).
  - intros x b. destruct (decide (x = t)) as [->|]; [|rewrite lookup_insert_ne by done; apply H3].
    rewrite lookup_insert_eq. intros [= <-]. exact (H3 t a Ea).
  - intros x Hx. apply H4. destruct (decide (x = t)) as [->|]; [by eexists|].
    by rewrite lookup_insert_ne in Hx.
  - intros x Hx. rewrite lookup_insert_ne by (intros ->; done). by apply H5.
Qed.

Lemma ordered_head s l l1 x l2 :
  timers_ok s (x :: l) → x :: l = l1 ++ x :: l2 → l1 = [] ∧ l2 = l.
Proof.
  intros Hs El. destruct l1 as [|y l1]; [by injection El|]. exfalso. injection El as <- El.
  pose proof (tk_order _ _ Hs) as Ho. rewrite El in Ho. inversion Ho as [|? ? _ Hx]; subst.
  rewrite Forall_forall in Hx. specialize (Hx x ltac:(set_solver)).
  apply timer_cmp_spec in Hx as (a & b & Ea & Eb & Hor); [|apply Hs]. simplify_eq. lia.
Qed.

Context (handler : Z → M cpu unit).
(** handlers that leave the timers alone *)
Hypothesis handler_ok : ∀ t s l, timers_ok s l →
  ∃ s', handler t s = Ok (tt, s') ∧ timers_ok s' l ∧ (∀ x, sig s' x = sig s x) ∧
    one_ms s' = one_ms s ∧ tval s' = tval s ∧ (reads s ≤ reads s')%nat.

Lemma handler_loop_run l : ∀ fuel s,
  timers_ok s l → (length l < fuel)%nat →
  ∃ fired rest s', handler_loop counter handler fuel s = Ok (tt, s') ∧ l = fired ++ rest ∧
    timers_ok s' rest ∧ now s ≤ now s' ∧ one_ms s' = one_ms s ∧
    (∀ x, key <$> timers s' !! x = key <$> timers s !! x) ∧
    (∀ x, x ∉ fired → sig s' x = sig s x) ∧
    (∀ x, x ∈ fired → ∃ k, sig s' x = Some (k, true) ∧ k ≤ now s') ∧
    (∀ x, head rest = Some x → ∃ k n, sig s' x = Some (k, false) ∧ now s ≤ n ≤ now s' ∧ n < k) ∧
    (fired = [] ∧ tval s' = tval s ∨ ∃ t0, clock_for s' rest t0 ∧ now s ≤ t0 ≤ now s').
Proof using counter_mono handler_ok.
  induction l as [|x l IH]; intros fuel s Hs Hf; (destruct fuel as [|fuel]; [simpl in Hf; lia|]);
    cbn [handler_loop]; rewrite (bind_Ok _ _ _ _ _ (first_run _ _ Hs)).
  - change (0 =? 0) with true. cbv iota. rewrite mret_run. exists [], [], s. split_and!; try done.
    + by intros x Hx%elem_of_nil.
    + by left.
  - pose proof Hs as [_ _ _ Hn Hset Hms _]. destruct (Hset x ltac:(by left)) as (a & Ea & Hta & _).
    destruct (Hn x ltac:(by eexists)) as (_ & _ & Hx0). rewrite (proj2 (Z.eqb_neq _ _) Hx0).
    rewrite (bind_Ok _ _ _ _ _ (timestamp_run _)).
    rewrite (bind_Ok _ _ _ _ _ (timer_at_run (read_counter s) x a Ea)).
    assert (now s ≤ now (read_counter s)) as Hn1 by (apply now_mono; [done|done|simpl; lia]).
    destruct (Z.ltb_spec (now s) (key a)) as [Hlt|Hge].
    { rewrite mret_run. exists [], (x :: l), (read_counter s). split_and!; try done.
      - by apply read_ok.
      - by intros y Hy%elem_of_nil.
      - intros y [= <-]. exists (key a), (now s). unfold sig. simpl. rewrite Ea. simpl. rewrite Hta.
        split; [done|]. lia.
      - by left. }
    destruct (cancel_cpu_timer_run (read_counter s) (x :: l) x) as (s1 & l1 & l2 & E1 & El & Hs1 & Et1 & Em1 & Hr1 & Hc1);
      [by apply read_ok|by left|].
    rewrite (bind_Ok _ _ _ _ _ E1). destruct (ordered_head s l l1 x l2 Hs El) as [-> ->]. simpl in Hs1, Hc1.
    assert (timers s1 !! x = Some a) as Ea1 by (by rewrite Et1).
    rewrite (bind_Ok _ _ _ _ _ (upd_timer_run _ _ _ _ Ea1)).
    assert (x ∉ l) as Hxl.
    { destruct (tk_tree _ _ Hs) as (tr & Htr & Hl). pose proof (az_nodup _ _ _ _ (rt_at _ _ Htr)) as Hnd.
      simpl in Hnd. rewrite Hl in Hnd. by apply NoDup_cons in Hnd as [? _]. }
    pose proof (trigger_ok _ _ _ _ Hs1 Hxl Ea1) as Hs2. set (s2 := put_timers _ s1) in *.
    destruct (handler_ok x s2 l Hs2) as (s3 & E3 & Hs3 & Hsig & Em3 & Ev3 & Hr3).
    rewrite (bind_Ok _ _ _ _ _ E3).
    destruct (IH fuel s3 Hs3) as (fired & rest & s4 & E4 & -> & Hs4 & Hn4 & Em4 & Hk4 & Hsig4 & Hfired & Hrest & Hor);
      [simpl in Hf; lia|].
    assert (now (read_counter s) ≤ now s3) as Hn3.
    { apply now_mono; [by rewrite Em3; simpl; rewrite Em1|done|]. simpl in *. lia. }
    assert (∀ y, key <$> timers s3 !! y = key <$> timers s !! y) as Hk3.
    { intros y. assert (key <$> timers s2 !! y = key <$> timers s !! y) as <-.
      { simpl. rewrite Et1. destruct (decide (y = x)) as [->|]; [by rewrite lookup_insert_eq, Ea|].
        by rewrite lookup_insert_ne. }
      specialize (Hsig y). unfold sig in Hsig. destruct (timers s3 !! y), (timers s2 !! y); simplify_eq/=; congruence. }
    assert (∀ y, y ≠ x → sig s3 y = sig s y) as Hsig3.
    { intros y Hy. rewrite Hsig. unfold sig. simpl. by rewrite lookup_insert_ne, Et1. }
    exists (x :: fired), rest, s4. rewrite E4. split_and!; try done; [lia|by rewrite Em4, Em3; simpl; rewrite Em1| | | | |].
    + intros y. by rewrite Hk4.
    + intros y [Hy1 Hy2]%not_elem_of_cons. by rewrite Hsig4, Hsig3.
    + intros y [->|Hy]%elem_of_cons; [|by apply Hfired].
      exists (key a). split; [|lia]. rewrite Hsig4; [|intros Hy; apply Hxl; set_solver].
      rewrite Hsig. unfold sig. simpl. by rewrite lookup_insert_eq.
    + intros y Hy. destruct (Hrest y Hy) as (k & n & ? & ? & ?). exists k, n. split; [done|]. lia.
    + right. destruct Hor as [[-> Hv]|(t0 & Hc & Ht0)]; [|exists t0; split; [done|lia]].
      exists (now (read_counter s)). split; [|lia]. simpl in Hc1, Hs4, Hsig4.
      apply (clock_agree s1).
      * intros y Hy. rewrite Hsig4 by set_solver. rewrite Hsig3 by (intros ->; done).
        unfold sig. by rewrite Et1.
      * rewrite Em4, Em3. done.
      * rewrite Hv, Ev3. done.
      * done.
Qed.
End spec.

(** ** Properties *)

(** Setting a timer that is not set makes it due after its [elapse], puts it in its place among
    the timers by the time they are due and changes no other timer; the clock is then
    programmed for exactly the time left until the first of all timers. *)
Theorem set_cpu_timer_correct counter s l t x :
  (∀ i, 0 ≤ counter i ≤ counter (S i)) →
  timers_ok counter s l → timers s !! t = Some x → t ∉ l →
  0 ≤ elapse x → now counter s + elapse x < 2 ^ 63 → elapse x * one_ms s ≤ far →
  ∃ s' l1 l2 t0, set_cpu_timer counter t s = Ok (tt, s') ∧ l = l1 ++ l2 ∧
    timers_ok counter s' (l1 ++ t :: l2) ∧
    timers s' = <[t := mkTimer false (elapse x) (now counter s + elapse x) (data x)]> (timers s) ∧
    now counter s ≤ t0 ≤ now counter s' ∧ clock_for s' (l1 ++ t :: l2) t0.
Proof. intros Hc. by apply set_cpu_timer_run. Qed.


(** two timers set, due at 5 and 9, and one that is not; the time is always 7 *)
Definition cpu_ex : cpu := mkCpu true two_nodes
  {[8 := mkTimer false 5 5 0; 16 := mkTimer false 9 9 0; 24 := mkTimer true 1 0 0]} 1 true 1000 0.
Lemma cpu_ex_ok : timers_ok (λ _, 7) cpu_ex [8; 16].
Proof.
  split.
  - exists two_tree. split; [apply two_rb_tree|done].
  - repeat constructor.
  - intros x a Hx. simpl in Hx. repeat (apply lookup_insert_Some in Hx as [[_ <-]|[_ Hx]]; [simpl; lia|]).
    apply lookup_singleton_Some in Hx as [_ <-]. simpl. lia.
  - intros x [a Hx]. simpl in Hx.
    repeat (apply lookup_insert_Some in Hx as [[<- _]|[_ Hx]]; [split; [by eexists|done]|]).
    apply lookup_singleton_Some in Hx as [<- _]. split; [by eexists|done].
  - intros x Hx. repeat (apply elem_of_cons in Hx as [->|Hx]; [by eexists|]). by inversion Hx.
  - done.
  - done.
Qed.

Lemma set_cpu_timer_correct_witness :
  ∃ s' l1 l2 t0, set_cpu_timer (λ _, 7) 24 cpu_ex = Ok (tt, s') ∧ [8; 16] = l1 ++ l2 ∧
    timers_ok (λ _, 7) s' (l1 ++ 24 :: l2) ∧
    timers s' = <[24 := mkTimer false 1 (7 + 1) 0]> (timers cpu_ex) ∧
    7 ≤ t0 ≤ now (λ _, 7) s' ∧ clock_for s' (l1 ++ 24 :: l2) t0.
Proof.
  apply (set_cpu_timer_correct (λ _, 7) cpu_ex [8; 16] 24 (mkTimer true 1 0 0)).
  - intros; lia.
  - apply cpu_ex_ok.
  - done.
  - apply (bool_decide_unpack (24 ∉ _)). by vm_compute.
  - done.
  - done.
  - done.
Defined.

