(* ===== verification/Device.v ===== *)
(** * Device registers: [driver/base.h], [driver/uart.c], [driver/mbox.c], the accesses of
      [aarch64/intrinsic.h]

    A device is whatever answers to reads and writes of its 32-bit registers, each of which may
    change it, and lets time pass during a delay.  Drivers run on the state of the device; what
    a proof needs of a device is a hypothesis of its own, and many need nothing. *)

From Stdlib Require Import ZArith Lia.
From S2P Require Import Prelude Words Mmu.

Class device (D : Type) := {
  dev_read : Z → D → Z * D;
  dev_write : Z → Z → D → D;
  (** [delay_us(n)], and [delay(n)] *)
  dev_delay_us : Z → D → D;
  dev_delay : Z → D → D;
  (** what the device has made of the buffer it was given the physical address of *)
  dev_buffer : Z → list Z → D → list Z }.

Definition KERNEL_BASE : Z := 0xffff000000000000.
Definition MMIO_BASE : Z := KERNEL_BASE + 0x3F000000.
Definition LOCAL_BASE : Z := KERNEL_BASE + 0x40000000.

Section access.
Context {D : Type} `{device D}.

Definition device_get_u32 (addr : Z) : M D Z := λ d, let '(v, d) := dev_read addr d in Ok (u32 v, d).
Definition device_put_u32 (addr value : Z) : M D unit := modify (dev_write addr (u32 value)).
Definition delay_us (n : Z) : M D unit := modify (dev_delay_us n).
Definition delay (n : Z) : M D unit := modify (dev_delay n).

(** [while (cond) ;] on registers: [fuel] bounds the rounds *)
Fixpoint spin_while (cond : M D bool) (fuel : nat) : M D unit :=
  match fuel with
  | O => nofuel
  | S fuel => b ← cond; if (b : bool) then spin_while cond fuel else mret tt
  end.
End access.

(** ** The serial port *)

Definition GPIO_BASE : Z := MMIO_BASE + 0x200000.
Definition GPFSEL4 : Z := GPIO_BASE + 0x10.
Definition GPFSEL5 : Z := GPIO_BASE + 0x14.
Definition GPEDS1 : Z := GPIO_BASE + 0x44.
Definition GPHEN1 : Z := GPIO_BASE + 0x68.
Definition GPPUD : Z := GPIO_BASE + 0x94.
Definition GPPUDCLK0 : Z := GPIO_BASE + 0x98.
Definition GPPUDCLK1 : Z := GPIO_BASE + 0x9C.
Definition AUX_BASE : Z := MMIO_BASE + 0x215000.
Definition AUX_ENABLES : Z := AUX_BASE + 0x04.
Definition AUX_MU_IO_REG : Z := AUX_BASE + 0x40.
Definition AUX_MU_IER_REG : Z := AUX_BASE + 0x44.
Definition AUX_MU_IIR_REG : Z := AUX_BASE + 0x48.
Definition AUX_MU_LCR_REG : Z := AUX_BASE + 0x4C.
Definition AUX_MU_MCR_REG : Z := AUX_BASE + 0x50.
Definition AUX_MU_LSR_REG : Z := AUX_BASE + 0x54.
Definition AUX_MU_CNTL_REG : Z := AUX_BASE + 0x60.
Definition AUX_MU_BAUD_REG : Z := AUX_BASE + 0x68.
Definition AUX_UART_CLOCK : Z := 250000000.
Definition AUX_MU_BAUD (baudrate : Z) : Z := AUX_UART_CLOCK / (baudrate * 8) - 1.

Section uart.
Context {D : Type} `{device D}.

(** [define_early_init(uart)] *)
Definition uart_init : M D unit :=
  device_put_u32 GPPUD 0;;
  delay_us 5;;
  device_put_u32 GPPUDCLK0 (Z.lor (Z.shiftl 1 14) (Z.shiftl 1 15));;
  delay_us 5;;
  device_put_u32 GPPUDCLK0 0;;
  device_put_u32 AUX_ENABLES 1;;
  device_put_u32 AUX_MU_CNTL_REG 0;;
  device_put_u32 AUX_MU_IER_REG (Z.lor (Z.shiftl 3 2) 1);;
  device_put_u32 AUX_MU_LCR_REG 3;;
  device_put_u32 AUX_MU_MCR_REG 0;;
  device_put_u32 AUX_MU_BAUD_REG (AUX_MU_BAUD 115200);;
  device_put_u32 AUX_MU_IIR_REG 6;;
  device_put_u32 AUX_MU_CNTL_REG 3.

Definition uart_get_char : M D Z :=
  state ← device_get_u32 AUX_MU_IIR_REG;
  if negb (Z.land state 1 =? 0) || negb (Z.land state 6 =? 4) then mret (u8 (-1))
  else c ← device_get_u32 AUX_MU_IO_REG; mret (Z.land c 0xff).

(** the body of [uart_put_char]; a newline is followed by a carriage return *)
Definition put_one (fuel : nat) (c : Z) : M D unit :=
  spin_while (v ← device_get_u32 AUX_MU_LSR_REG; mret (Z.land v 0x20 =? 0)) fuel;;
  device_put_u32 AUX_MU_IO_REG c.
Definition uart_put_char (fuel : nat) (c : Z) : M D unit :=
  put_one fuel c;;
  when (c =? 10) (put_one fuel 13).

(** a transmitter that becomes ready [n] reads from now *)
Inductive ready_in : nat → D → D → Prop :=
  | ready_now d v d' : dev_read AUX_MU_LSR_REG d = (v, d') → Z.land (u32 v) 0x20 ≠ 0 → ready_in 0 d d'
  | ready_later n d v d1 d2 : dev_read AUX_MU_LSR_REG d = (v, d1) → Z.land (u32 v) 0x20 = 0 →
      ready_in n d1 d2 → ready_in (S n) d d2.

Lemma put_one_run n c d d' fuel :
  ready_in n d d' → (n < fuel)%nat → put_one fuel c d = Ok (tt, dev_write AUX_MU_IO_REG (u32 c) d').
Proof.
  intros Hr Hn. unfold put_one.
  rewrite (bind_Ok _ _ d tt d'); [done|]. revert n d Hr Hn.
  induction fuel as [|fuel IH]; intros n d Hr Hn; [lia|]. cbn [spin_while].
  destruct Hr as [d v d' E Hv|n d v d1 d2 E Hv Hr].
  - rewrite (bind_Ok _ _ d false d'); [done|]. unfold device_get_u32. unfold mbind, M_bind. rewrite E.
    cbv iota. by rewrite (proj2 (Z.eqb_neq _ 0) Hv).
  - rewrite (bind_Ok _ _ d true d1); [|unfold device_get_u32; unfold mbind, M_bind; rewrite E; cbv iota; by rewrite Hv].
    cbv iota. apply (IH n); [done|lia].
Qed.

(** Every character goes out, a newline with a carriage return behind it. *)
Lemma uart_put_char_run n1 n2 c d d1 d2 fuel :
  ready_in n1 d d1 → ready_in n2 (dev_write AUX_MU_IO_REG (u32 c) d1) d2 → (n1 < fuel)%nat → (n2 < fuel)%nat →
  uart_put_char fuel c d =
    Ok (tt, if c =? 10 then dev_write AUX_MU_IO_REG 13 d2 else dev_write AUX_MU_IO_REG (u32 c) d1).
Proof.
  intros H1 H2 Hf1 Hf2. unfold uart_put_char. rewrite (bind_Ok _ _ _ _ _ (put_one_run n1 c d d1 fuel H1 Hf1)).
  destruct (c =? 10); [|done]. cbn [when]. by rewrite (put_one_run n2 13 _ d2 fuel H2 Hf2).
Qed.
End uart.

(** ** The mailbox of the firmware *)

Definition VIDEOCORE_MBOX : Z := MMIO_BASE + 0x0000B880.
Definition MBOX_READ : Z := VIDEOCORE_MBOX + 0x00.
Definition MBOX_STATUS : Z := VIDEOCORE_MBOX + 0x18.
Definition MBOX_WRITE : Z := VIDEOCORE_MBOX + 0x20.
Definition MBOX_FULL : Z := 0x80000000.
Definition MBOX_EMPTY : Z := 0x40000000.
Definition MBOX_TAG_GET_ARM_MEMORY : Z := 0x00010005.
Definition MBOX_TAG_GET_CLOCK_RATE : Z := 0x00030002.
Definition MBOX_TAG_END : Z := 0x0.

Section mbox.
Context {D : Type} `{device D}.
(** bounds the rounds of every loop below *)
Context (fuel : nat).

Fixpoint mbox_read_loop (n : nat) (chan : Z) : M D Z :=
  match n with
  | O => nofuel
  | S n =>
      spin_while (v ← device_get_u32 MBOX_STATUS; mret (negb (Z.land v MBOX_EMPTY =? 0))) fuel;;
      r ← device_get_u32 MBOX_READ;
      if Z.land r 0xF =? chan then mret (i32 (Z.shiftr r 4)) else mbox_read_loop n chan
  end.
Definition mbox_read (chan : Z) : M D Z := mbox_read_loop fuel chan.

Definition mbox_write (buf chan : Z) : M D unit :=
  assert ((Z.land buf 0xF =? 0) && (Z.land chan (Z.lnot 0xF) =? 0));;
  spin_while (v ← device_get_u32 MBOX_STATUS; mret (negb (Z.land v MBOX_FULL =? 0))) fuel;;
  device_put_u32 MBOX_WRITE (Z.lor (Z.land buf (u32 (Z.lnot 0xF))) chan).

(** a request in the buffer [buf] on the stack, and the buffer after the answer *)
Definition mbox_call (buf : Z) (words : list Z) : M D (list Z) :=
  assert (Z.land (K2P buf) 0xF =? 0);;
  mbox_write (u32 (K2P buf)) 8;;
  mbox_read 8;;
  gets (dev_buffer (K2P buf) words).

Definition mbox_get_arm_memory (buf : Z) : M D Z :=
  buf ← mbox_call buf [36; 0; MBOX_TAG_GET_ARM_MEMORY; 8; 0; 0; 0; MBOX_TAG_END];
  assert (nth 5 buf 0 =? 0);;
  assert (negb (nth 6 buf 0 =? 0));;
  mret (i32 (nth 6 buf 0)).

Definition mbox_get_clock_rate (buf : Z) : M D Z :=
  buf ← mbox_call buf [36; 0; MBOX_TAG_GET_CLOCK_RATE; 8; 0; 1; 0; MBOX_TAG_END];
  mret (i32 (nth 6 buf 0)).
End mbox.
