(* ===== verification/Emmc.v ===== *)
(** * The controller of the SD card: [driver/sddef.h]

    Setting the card up and sending it commands, over the registers of the EMMC controller.
    [printk] is left out, but the registers its arguments read are read.  An [int] that holds the
    contents of a register is its two's complement value where its sign is looked at. *)

From Stdlib Require Import ZArith Lia String.
From S2P Require Import Prelude Words Mmu Device.

(** ** Registers, flags and commands *)

Definition SD_OK : Z := 0.
Definition SD_ERROR : Z := 1.
Definition SD_TIMEOUT : Z := 2.
Definition SD_BUSY : Z := 3.
Definition SD_ERROR_RESET : Z := 6.
Definition SD_ERROR_CLOCK : Z := 7.
Definition SD_ERROR_VOLTAGE : Z := 8.
Definition SD_ERROR_APP_CMD : Z := 9.
Definition SD_CARD_CHANGED : Z := 10.
Definition SD_CARD_REINSERTED : Z := 12.

Definition EMMC_BLKSIZECNT : Z := MMIO_BASE + 0x00300004.
Definition EMMC_ARG1 : Z := MMIO_BASE + 0x00300008.
Definition EMMC_CMDTM : Z := MMIO_BASE + 0x0030000C.
Definition EMMC_RESP0 : Z := MMIO_BASE + 0x00300010.
Definition EMMC_RESP1 : Z := MMIO_BASE + 0x00300014.
Definition EMMC_RESP2 : Z := MMIO_BASE + 0x00300018.
Definition EMMC_RESP3 : Z := MMIO_BASE + 0x0030001C.
Definition EMMC_DATA : Z := MMIO_BASE + 0x00300020.
Definition EMMC_STATUS : Z := MMIO_BASE + 0x00300024.
Definition EMMC_CONTROL0 : Z := MMIO_BASE + 0x00300028.
Definition EMMC_CONTROL1 : Z := MMIO_BASE + 0x0030002C.
Definition EMMC_INTERRUPT : Z := MMIO_BASE + 0x00300030.
Definition EMMC_IRPT_MASK : Z := MMIO_BASE + 0x00300034.
Definition EMMC_IRPT_EN : Z := MMIO_BASE + 0x00300038.
Definition EMMC_SLOTISR_VER : Z := MMIO_BASE + 0x003000fc.
Definition CMD_IS_DATA : Z := 0x00200000.
Definition CMD_RSPNS_NO : Z := 0x00000000.
Definition CMD_RSPNS_136 : Z := 0x00010000.
Definition CMD_RSPNS_48 : Z := 0x00020000.
Definition CMD_RSPNS_48B : Z := 0x00030000.
Definition TM_MULTI_BLOCK : Z := 0x00000020.
Definition TM_DAT_DIR_HC : Z := 0x00000000.
Definition TM_DAT_DIR_CH : Z := 0x00000010.
Definition TM_BLKCNT_EN : Z := 0x00000002.
Definition TM_MULTI_DATA : Z := Z.lor CMD_IS_DATA (Z.lor TM_MULTI_BLOCK TM_BLKCNT_EN).
Definition INT_AUTO_ERROR : Z := 0x01000000.
Definition INT_DATA_END_ERR : Z := 0x00400000.
Definition INT_DATA_CRC_ERR : Z := 0x00200000.
Definition INT_DATA_TIMEOUT : Z := 0x00100000.
Definition INT_INDEX_ERROR : Z := 0x00080000.
Definition INT_END_ERROR : Z := 0x00040000.
Definition INT_CRC_ERROR : Z := 0x00020000.
Definition INT_CMD_TIMEOUT : Z := 0x00010000.
Definition INT_ERR : Z := 0x00008000.
Definition INT_READ_RDY : Z := 0x00000020.
Definition INT_WRITE_RDY : Z := 0x00000010.
Definition INT_DATA_DONE : Z := 0x00000002.
Definition INT_CMD_DONE : Z := 0x00000001.
Definition INT_ERROR_MASK : Z := Z.lor INT_CRC_ERROR (Z.lor INT_END_ERROR (Z.lor INT_INDEX_ERROR (Z.lor INT_DATA_TIMEOUT (Z.lor INT_DATA_CRC_ERR (Z.lor INT_DATA_END_ERR (Z.lor INT_ERR INT_AUTO_ERROR)))))).
Definition C0_HCTL_DWITDH : Z := 0x00000002.
Definition C1_SRST_HC : Z := 0x01000000.
Definition C1_TOUNIT_MAX : Z := 0x000e0000.
Definition C1_CLK_EN : Z := 0x00000004.
Definition C1_CLK_STABLE : Z := 0x00000002.
Definition C1_CLK_INTLEN : Z := 0x00000001.
Definition FREQ_SETUP : Z := 400000.
Definition FREQ_NORMAL : Z := 25000000.
Definition HOST_SPEC_NUM : Z := 0x00ff0000.
Definition HOST_SPEC_NUM_SHIFT : Z := 16.
Definition HOST_SPEC_V2 : Z := 1.
Definition SR_READ_AVAILABLE : Z := 0x00000800.
Definition SR_DAT_INHIBIT : Z := 0x00000002.
Definition SR_CMD_INHIBIT : Z := 0x00000001.
Definition ACMD41_HCS : Z := 0x40000000.
Definition ACMD41_SDXC_POWER : Z := 0x10000000.
Definition ACMD41_S18R : Z := 0x01000000.
Definition ACMD41_VOLTAGE : Z := 0x00ff8000.
Definition ACMD41_ARG_HC : Z := Z.lor ACMD41_HCS (Z.lor ACMD41_SDXC_POWER (Z.lor ACMD41_VOLTAGE ACMD41_S18R)).
Definition ACMD41_ARG_SC : Z := Z.lor ACMD41_VOLTAGE ACMD41_S18R.
Definition ST_CARD_STATE : Z := 0x00001e00.
Definition ST_APP_CMD : Z := 0x00000020.
Definition R1_CARD_STATE_SHIFT : Z := 9.
Definition R1_ERRORS_MASK : Z := 0xfff9c004.
Definition R3_COMPLETE : Z := 0x80000000.
Definition R3_CCS : Z := 0x40000000.
Definition R3_S18A : Z := 0x01000000.
Definition R6_RCA_MASK : Z := 0xffff0000.
Definition RESP_NO : Z := 0.
Definition RESP_R1 : Z := 1.
Definition RESP_R1b : Z := 11.
Definition RESP_R2I : Z := 2.
Definition RESP_R2S : Z := 12.
Definition RESP_R3 : Z := 3.
Definition RESP_R6 : Z := 6.
Definition RESP_R7 : Z := 7.
Definition RCA_NO : Z := 1.
Definition RCA_YES : Z := 2.
Definition IX_GO_IDLE_STATE : Z := 0.
Definition IX_ALL_SEND_CID : Z := 1.
Definition IX_SEND_REL_ADDR : Z := 2.
Definition IX_CARD_SELECT : Z := 5.
Definition IX_SEND_IF_COND : Z := 6.
Definition IX_SEND_CSD : Z := 7.
Definition IX_SET_BLOCKLEN : Z := 13.
Definition IX_READ_SINGLE : Z := 14.
Definition IX_WRITE_SINGLE : Z := 19.
Definition IX_APP_CMD : Z := 29.
Definition IX_APP_CMD_RCA : Z := 30.
Definition IX_APP_CMD_START : Z := 32.
Definition IX_SET_BUS_WIDTH : Z := 32.
Definition IX_APP_SEND_OP_COND : Z := 36.
Definition IX_SEND_SCR : Z := 38.
Definition CSD0_VERSION : Z := 0x00c00000.
Definition CSD0_V1 : Z := 0x00000000.
Definition CSD1VN_READ_BL_LEN : Z := 0x00000f00.
Definition CSD1VN_READ_BL_LEN_SHIFT : Z := 8.
Definition CSD3VN_FILE_FORMAT : Z := 0x0000000c.
Definition CSD3VN_FILE_FORMAT_HDD : Z := 0x00000000.
Definition CSD3VN_FILE_FORMAT_DOSFAT : Z := 0x00000004.
Definition CSD1V1_C_SIZEH : Z := 0x00000003.
Definition CSD1V1_C_SIZEH_SHIFT : Z := 10.
Definition CSD2V1_C_SIZEL : Z := 0xffc00000.
Definition CSD2V1_C_SIZEL_SHIFT : Z := 22.
Definition CSD2V1_C_SIZE_MULT : Z := 0x00000380.
Definition CSD2V1_C_SIZE_MULT_SHIFT : Z := 7.
Definition CSD2V2_C_SIZE : Z := 0x3fffff00.
Definition CSD2V2_C_SIZE_SHIFT : Z := 8.
Definition SCR_SD_BUS_WIDTH_1 : Z := 0x00000100.
Definition SCR_SD_BUS_WIDTH_4 : Z := 0x00000400.
Definition SCR_CMD_SUPP_SET_BLKCNT : Z := 0x02000000.
Definition SCR_CMD_SUPP_SPEED_CLASS : Z := 0x01000000.
Definition SD_TYPE_1 : Z := 2.
Definition SD_TYPE_2_SC : Z := 3.
Definition SD_TYPE_2_HC : Z := 4.
Definition SD_SUPP_SET_BLOCK_COUNT : Z := 0x80000000.
Definition SD_SUPP_SPEED_CLASS : Z := 0x40000000.
Definition SD_SUPP_BUS_WIDTH_4 : Z := 0x20000000.
Definition SD_SUPP_BUS_WIDTH_1 : Z := 0x10000000.

(** ** The card and its driver *)

Record EMMCCommand := mkCommand { name : string; code : Z; resp : Z; rca_ : Z; delay_ : Z }.

Definition sdCommandTable : list EMMCCommand :=
  [mkCommand "GO_IDLE_STATE" (Z.lor 0x00000000 CMD_RSPNS_NO) RESP_NO RCA_NO 0;
   mkCommand "ALL_SEND_CID" (Z.lor 0x02000000 CMD_RSPNS_136) RESP_R2I RCA_NO 0;
   mkCommand "SEND_REL_ADDR" (Z.lor 0x03000000 CMD_RSPNS_48) RESP_R6 RCA_NO 0;
   mkCommand "SET_DSR" (Z.lor 0x04000000 CMD_RSPNS_NO) RESP_NO RCA_NO 0;
   mkCommand "SWITCH_FUNC" (Z.lor 0x06000000 CMD_RSPNS_48) RESP_R1 RCA_NO 0;
   mkCommand "CARD_SELECT" (Z.lor 0x07000000 CMD_RSPNS_48B) RESP_R1b RCA_YES 0;
   mkCommand "SEND_IF_COND" (Z.lor 0x08000000 CMD_RSPNS_48) RESP_R7 RCA_NO 100;
   mkCommand "SEND_CSD" (Z.lor 0x09000000 CMD_RSPNS_136) RESP_R2S RCA_YES 0;
   mkCommand "SEND_CID" (Z.lor 0x0A000000 CMD_RSPNS_136) RESP_R2I RCA_YES 0;
   mkCommand "VOLT_SWITCH" (Z.lor 0x0B000000 CMD_RSPNS_48) RESP_R1 RCA_NO 0;
   mkCommand "STOP_TRANS" (Z.lor 0x0C000000 CMD_RSPNS_48B) RESP_R1b RCA_NO 0;
   mkCommand "SEND_STATUS" (Z.lor 0x0D000000 CMD_RSPNS_48) RESP_R1 RCA_YES 0;
   mkCommand "GO_INACTIVE" (Z.lor 0x0F000000 CMD_RSPNS_NO) RESP_NO RCA_YES 0;
   mkCommand "SET_BLOCKLEN" (Z.lor 0x10000000 CMD_RSPNS_48) RESP_R1 RCA_NO 0;
   mkCommand "READ_SINGLE" (Z.lor 0x11000000 (Z.lor CMD_RSPNS_48 (Z.lor CMD_IS_DATA TM_DAT_DIR_CH))) RESP_R1 RCA_NO 0;
   mkCommand "READ_MULTI" (Z.lor 0x12000000 (Z.lor CMD_RSPNS_48 (Z.lor TM_MULTI_DATA TM_DAT_DIR_CH))) RESP_R1 RCA_NO 0;
   mkCommand "SEND_TUNING" (Z.lor 0x13000000 CMD_RSPNS_48) RESP_R1 RCA_NO 0;
   mkCommand "SPEED_CLASS" (Z.lor 0x14000000 CMD_RSPNS_48B) RESP_R1b RCA_NO 0;
   mkCommand "SET_BLOCKCNT" (Z.lor 0x17000000 CMD_RSPNS_48) RESP_R1 RCA_NO 0;
   mkCommand "WRITE_SINGLE" (Z.lor 0x18000000 (Z.lor CMD_RSPNS_48 (Z.lor CMD_IS_DATA TM_DAT_DIR_HC))) RESP_R1 RCA_NO 0;
   mkCommand "WRITE_MULTI" (Z.lor 0x19000000 (Z.lor CMD_RSPNS_48 (Z.lor TM_MULTI_DATA TM_DAT_DIR_HC))) RESP_R1 RCA_NO 0;
   mkCommand "PROGRAM_CSD" (Z.lor 0x1B000000 CMD_RSPNS_48) RESP_R1 RCA_NO 0;
   mkCommand "SET_WRITE_PR" (Z.lor 0x1C000000 CMD_RSPNS_48B) RESP_R1b RCA_NO 0;
   mkCommand "CLR_WRITE_PR" (Z.lor 0x1D000000 CMD_RSPNS_48B) RESP_R1b RCA_NO 0;
   mkCommand "SND_WRITE_PR" (Z.lor 0x1E000000 CMD_RSPNS_48) RESP_R1 RCA_NO 0;
   mkCommand "ERASE_WR_ST" (Z.lor 0x20000000 CMD_RSPNS_48) RESP_R1 RCA_NO 0;
   mkCommand "ERASE_WR_END" (Z.lor 0x21000000 CMD_RSPNS_48) RESP_R1 RCA_NO 0;
   mkCommand "ERASE" (Z.lor 0x26000000 CMD_RSPNS_48B) RESP_R1b RCA_NO 0;
   mkCommand "LOCK_UNLOCK" (Z.lor 0x2A000000 CMD_RSPNS_48) RESP_R1 RCA_NO 0;
   mkCommand "APP_CMD" (Z.lor 0x37000000 CMD_RSPNS_NO) RESP_NO RCA_NO 100;
   mkCommand "APP_CMD" (Z.lor 0x37000000 CMD_RSPNS_48) RESP_R1 RCA_YES 0;
   mkCommand "GEN_CMD" (Z.lor 0x38000000 CMD_RSPNS_48) RESP_R1 RCA_NO 0;
   mkCommand "SET_BUS_WIDTH" (Z.lor 0x06000000 CMD_RSPNS_48) RESP_R1 RCA_NO 0;
   mkCommand "SD_STATUS" (Z.lor 0x0D000000 CMD_RSPNS_48) RESP_R1 RCA_YES 0;
   mkCommand "SEND_NUM_WRBL" (Z.lor 0x16000000 CMD_RSPNS_48) RESP_R1 RCA_NO 0;
   mkCommand "SEND_NUM_ERS" (Z.lor 0x17000000 CMD_RSPNS_48) RESP_R1 RCA_NO 0;
   mkCommand "SD_SENDOPCOND" (Z.lor 0x29000000 CMD_RSPNS_48) RESP_R3 RCA_NO 1000;
   mkCommand "SET_CLR_DET" (Z.lor 0x2A000000 CMD_RSPNS_48) RESP_R1 RCA_NO 0;
   mkCommand "SEND_SCR" (Z.lor 0x33000000 (Z.lor CMD_RSPNS_48 (Z.lor CMD_IS_DATA TM_DAT_DIR_CH))) RESP_R1 RCA_NO 0].

(** [lastCmd] is the index of a command in the table, [type] is [ctype] and [init] is [cinit] *)
Record SDDescriptor := mkCard {
  capacity : Z;
  cid : list Z;
  csd : list Z;
  scr : list Z;
  ocr : Z;
  support : Z;
  fileFormat : Z;
  ctype : Z;
  uhsi : Z;
  cinit : Z;
  absent : Z;
  rca : Z;
  cardState : Z;
  status : Z;
  lastCmd : option Z;
  lastArg : Z }.
Definition set_capacity (v : Z) (c : SDDescriptor) : SDDescriptor := mkCard v (cid c) (csd c) (scr c) (ocr c) (support c) (fileFormat c) (ctype c) (uhsi c) (cinit c) (absent c) (rca c) (cardState c) (status c) (lastCmd c) (lastArg c).
Definition set_cid (v : list Z) (c : SDDescriptor) : SDDescriptor := mkCard (capacity c) v (csd c) (scr c) (ocr c) (support c) (fileFormat c) (ctype c) (uhsi c) (cinit c) (absent c) (rca c) (cardState c) (status c) (lastCmd c) (lastArg c).
Definition set_csd (v : list Z) (c : SDDescriptor) : SDDescriptor := mkCard (capacity c) (cid c) v (scr c) (ocr c) (support c) (fileFormat c) (ctype c) (uhsi c) (cinit c) (absent c) (rca c) (cardState c) (status c) (lastCmd c) (lastArg c).
Definition set_scr (v : list Z) (c : SDDescriptor) : SDDescriptor := mkCard (capacity c) (cid c) (csd c) v (ocr c) (support c) (fileFormat c) (ctype c) (uhsi c) (cinit c) (absent c) (rca c) (cardState c) (status c) (lastCmd c) (lastArg c).
Definition set_ocr (v : Z) (c : SDDescriptor) : SDDescriptor := mkCard (capacity c) (cid c) (csd c) (scr c) v (support c) (fileFormat c) (ctype c) (uhsi c) (cinit c) (absent c) (rca c) (cardState c) (status c) (lastCmd c) (lastArg c).
Definition set_support (v : Z) (c : SDDescriptor) : SDDescriptor := mkCard (capacity c) (cid c) (csd c) (scr c) (ocr c) v (fileFormat c) (ctype c) (uhsi c) (cinit c) (absent c) (rca c) (cardState c) (status c) (lastCmd c) (lastArg c).
Definition set_fileFormat (v : Z) (c : SDDescriptor) : SDDescriptor := mkCard (capacity c) (cid c) (csd c) (scr c) (ocr c) (support c) v (ctype c) (uhsi c) (cinit c) (absent c) (rca c) (cardState c) (status c) (lastCmd c) (lastArg c).
Definition set_ctype (v : Z) (c : SDDescriptor) : SDDescriptor := mkCard (capacity c) (cid c) (csd c) (scr c) (ocr c) (support c) (fileFormat c) v (uhsi c) (cinit c) (absent c) (rca c) (cardState c) (status c) (lastCmd c) (lastArg c).
Definition set_uhsi (v : Z) (c : SDDescriptor) : SDDescriptor := mkCard (capacity c) (cid c) (csd c) (scr c) (ocr c) (support c) (fileFormat c) (ctype c) v (cinit c) (absent c) (rca c) (cardState c) (status c) (lastCmd c) (lastArg c).
Definition set_cinit (v : Z) (c : SDDescriptor) : SDDescriptor := mkCard (capacity c) (cid c) (csd c) (scr c) (ocr c) (support c) (fileFormat c) (ctype c) (uhsi c) v (absent c) (rca c) (cardState c) (status c) (lastCmd c) (lastArg c).
Definition set_absent (v : Z) (c : SDDescriptor) : SDDescriptor := mkCard (capacity c) (cid c) (csd c) (scr c) (ocr c) (support c) (fileFormat c) (ctype c) (uhsi c) (cinit c) v (rca c) (cardState c) (status c) (lastCmd c) (lastArg c).
Definition set_rca (v : Z) (c : SDDescriptor) : SDDescriptor := mkCard (capacity c) (cid c) (csd c) (scr c) (ocr c) (support c) (fileFormat c) (ctype c) (uhsi c) (cinit c) (absent c) v (cardState c) (status c) (lastCmd c) (lastArg c).
Definition set_cardState (v : Z) (c : SDDescriptor) : SDDescriptor := mkCard (capacity c) (cid c) (csd c) (scr c) (ocr c) (support c) (fileFormat c) (ctype c) (uhsi c) (cinit c) (absent c) (rca c) v (status c) (lastCmd c) (lastArg c).
Definition set_status (v : Z) (c : SDDescriptor) : SDDescriptor := mkCard (capacity c) (cid c) (csd c) (scr c) (ocr c) (support c) (fileFormat c) (ctype c) (uhsi c) (cinit c) (absent c) (rca c) (cardState c) v (lastCmd c) (lastArg c).
Definition set_lastCmd (v : option Z) (c : SDDescriptor) : SDDescriptor := mkCard (capacity c) (cid c) (csd c) (scr c) (ocr c) (support c) (fileFormat c) (ctype c) (uhsi c) (cinit c) (absent c) (rca c) (cardState c) (status c) v (lastArg c).
Definition set_lastArg (v : Z) (c : SDDescriptor) : SDDescriptor := mkCard (capacity c) (cid c) (csd c) (scr c) (ocr c) (support c) (fileFormat c) (ctype c) (uhsi c) (cinit c) (absent c) (rca c) (cardState c) (status c) (lastCmd c) v.

(** [sdCard], [sdHostVer], [sdBaseClock] and the controller; [sdDebug] is always 0 *)
Record sdst (D : Type) := mkSd { card : SDDescriptor; sdHostVer : Z; sdBaseClock : Z; dev : D }.
Arguments mkSd {D} _ _ _ _.
Arguments card {D} _.
Arguments sdHostVer {D} _.
Arguments sdBaseClock {D} _.
Arguments dev {D} _.

(** ** Arithmetic *)

Definition fls_long (x : Z) : Z :=
  if x =? 0 then 0
  else
    let '(x, r) := (x, 32) in
    let '(x, r) := if Z.land x 0xffff0000 =? 0 then (u64 (Z.shiftl x 16), r - 16) else (x, r) in
    let '(x, r) := if Z.land x 0xff000000 =? 0 then (u64 (Z.shiftl x 8), r - 8) else (x, r) in
    let '(x, r) := if Z.land x 0xf0000000 =? 0 then (u64 (Z.shiftl x 4), r - 4) else (x, r) in
    let '(x, r) := if Z.land x 0xc0000000 =? 0 then (u64 (Z.shiftl x 2), r - 2) else (x, r) in
    let '(x, r) := if Z.land x 0x80000000 =? 0 then (u64 (Z.shiftl x 1), r - 1) else (x, r) in
    r.

Definition roundup_pow_of_two (x : Z) : Z := u64 (Z.shiftl 1 (fls_long (u64 (x - 1)))).

(** [freq] is not 0 *)
Definition sdGetClockDivider (hostver freq : Z) : Z :=
  let closest := 41666666 / freq in
  let shiftcount := fls_long (u32 (closest - 1)) in
  let shiftcount := if shiftcount >? 0 then shiftcount - 1 else shiftcount in
  let shiftcount := if shiftcount >? 7 then 7 else shiftcount in
  let divisor := if hostver >? HOST_SPEC_V2 then closest else u32 (Z.shiftl 1 shiftcount) in
  let divisor := if divisor <=? 2 then 2 else divisor in
  let hi := if hostver >? HOST_SPEC_V2 then Z.shiftr (Z.land divisor 0x300) 2 else 0 in
  let lo := Z.land divisor 0x0ff in
  u32 (Z.shiftl lo 8 + hi).

(** what is printed of the CID: type, megabytes, [uhsi], manufacturer, application, name, revision,
    month, year, serial number, address *)
Definition sdParseCID (c : SDDescriptor) : Z * Z * Z * Z * list Z * list Z * (Z * Z) * (Z * Z) * Z * Z :=
  let cid i := nth i (cid c) 0 in
  let manId := Z.shiftr (Z.land (cid 0%nat) 0x00ff0000) 16 in
  let appId := [u8 (Z.shiftr (Z.land (cid 0%nat) 0x0000ff00) 8); u8 (Z.land (cid 0%nat) 0x000000ff); 0] in
  let name := [u8 (Z.shiftr (Z.land (cid 1%nat) 0xff000000) 24); u8 (Z.shiftr (Z.land (cid 1%nat) 0x00ff0000) 16);
    u8 (Z.shiftr (Z.land (cid 1%nat) 0x0000ff00) 8); u8 (Z.land (cid 1%nat) 0x000000ff);
    u8 (Z.shiftr (Z.land (cid 2%nat) 0xff000000) 24); 0] in
  let revH := Z.shiftr (Z.land (cid 2%nat) 0x00f00000) 20 in
  let revL := Z.shiftr (Z.land (cid 2%nat) 0x000f0000) 16 in
  let serial := i32 (u32 (u32 (Z.shiftl (Z.land (cid 2%nat) 0x0000ffff) 16) + Z.shiftr (Z.land (cid 3%nat) 0xffff0000) 16)) in
  let dateY := Z.shiftr (Z.land (cid 3%nat) 0x00000ff0) 4 + 2000 in
  let dateM := Z.land (cid 3%nat) 0x0000000f in
  (ctype c, i32 (Z.shiftr (capacity c) 20), uhsi c, manId, appId, name, (revH, revL), (dateM, dateY), serial, Z.shiftr (rca c) 16).

Definition sdParseCSD (c : SDDescriptor) : SDDescriptor :=
  let csd i := nth i (csd c) 0 in
  let csdVersion := Z.land (csd 0%nat) CSD0_VERSION in
  let capacity :=
    if csdVersion =? CSD0_V1 then
      let csize := i32 (Z.shiftl (Z.land (csd 1%nat) CSD1V1_C_SIZEH) CSD1V1_C_SIZEH_SHIFT
                        + Z.shiftr (Z.land (csd 2%nat) CSD2V1_C_SIZEL) CSD2V1_C_SIZEL_SHIFT) in
      let mult := i32 (Z.shiftl 1 (Z.shiftr (Z.land (csd 2%nat) CSD2V1_C_SIZE_MULT) CSD2V1_C_SIZE_MULT_SHIFT + 2)) in
      let blockSize := i32 (Z.shiftl 1 (Z.shiftr (Z.land (csd 1%nat) CSD1VN_READ_BL_LEN) CSD1VN_READ_BL_LEN_SHIFT)) in
      let numBlocks := i64 ((csize + 1) * mult) in
      u64 (i64 (numBlocks * blockSize))
    else
      let csize := Z.shiftr (Z.land (csd 2%nat) CSD2V2_C_SIZE) CSD2V2_C_SIZE_SHIFT in
      u64 (i64 ((csize + 1) * 512 * 1024)) in
  set_fileFormat (Z.land (csd 3%nat) CSD3VN_FILE_FORMAT) (set_capacity capacity c).

(** ** Loops that wait for the controller *)

Section emmc.
Context {D : Type} `{device D}.
Local Notation E := (M (sdst D)).

Definition put_card (c : SDDescriptor) (s : sdst D) : sdst D := mkSd c (sdHostVer s) (sdBaseClock s) (dev s).
Definition put_dev (d : D) (s : sdst D) : sdst D := mkSd (card s) (sdHostVer s) (sdBaseClock s) d.
Definition hw {A} (m : M D A) : E A := on dev put_dev m.
Definition rd (a : Z) : E Z := hw (device_get_u32 a).
Definition wr (a v : Z) : E unit := hw (device_put_u32 a v).
Definition upd_card (f : SDDescriptor → SDDescriptor) : E unit := modify (λ s, put_card (f (card s)) s).

(** a message that shows these registers reads them *)
Definition show (regs : list Z) : E unit := for_each regs (λ a, rd a;; mret tt).
(** [*a & mask] *)
Definition bits (a mask : Z) : E bool := v ← rd a; mret (negb (Z.land v mask =? 0)).

(** [while (cond && count--) body;] and the count it leaves *)
Fixpoint poll (cond : E bool) (body : E unit) (count : nat) : E Z :=
  b ← cond;
  if (b : bool) then
    match count with
    | O => mret (-1)
    | S c => body;; poll cond body c
    end
  else mret (Z.of_nat count).

(** [while (cond && --count) body;] for a positive count *)
Fixpoint poll_pre (cond : E bool) (body : E unit) (count : nat) : E Z :=
  b ← cond;
  if (b : bool) then
    match count with
    | S (S _ as c) => body;; poll_pre cond body c
    | _ => mret 0
    end
  else mret (Z.of_nat count).

(** [cond1 && !cond2] of two registers, the second read only when needed *)
Definition busy (a1 m1 a2 m2 : Z) : E bool :=
  b ← bits a1 m1; if (b : bool) then e ← bits a2 m2; mret (negb e) else mret false.

Definition sd_delayus (c : Z) : E unit := hw (delay_us (u32 (c * 3))).

Definition sdDebugResponse (resp : Z) : E Z :=
  getopt (λ s, lastCmd (card s));;
  show [EMMC_RESP3; EMMC_RESP2; EMMC_RESP1; EMMC_RESP0];;
  show [EMMC_STATUS; EMMC_CONTROL1; EMMC_INTERRUPT];;
  mret resp.

Definition sdWaitForInterrupt (mask : Z) : E Z :=
  let waitMask := Z.lor mask INT_ERROR_MASK in
  count ← poll (b ← bits EMMC_INTERRUPT waitMask; mret (negb b)) (sd_delayus 1) (Z.to_nat 1000000);
  ival ← rd EMMC_INTERRUPT;
  if (count <=? 0) || negb (Z.land ival INT_CMD_TIMEOUT =? 0) || negb (Z.land ival INT_DATA_TIMEOUT =? 0) then
    wr EMMC_INTERRUPT ival;; mret SD_TIMEOUT
  else if negb (Z.land ival INT_ERROR_MASK =? 0) then
    show [EMMC_STATUS; EMMC_RESP0];;
    wr EMMC_INTERRUPT ival;; mret SD_ERROR
  else wr EMMC_INTERRUPT mask;; mret SD_OK.

Definition sdWaitForCommand : E Z :=
  count ← poll (busy EMMC_STATUS SR_CMD_INHIBIT EMMC_INTERRUPT INT_ERROR_MASK) (sd_delayus 1) (Z.to_nat 1000000);
  failed ← (if count <=? 0 then mret true else bits EMMC_INTERRUPT INT_ERROR_MASK);
  if (failed : bool) then show [EMMC_STATUS; EMMC_INTERRUPT; EMMC_RESP0];; mret SD_BUSY
  else mret SD_OK.

(** the count of the C code runs upwards: [500000 - left] *)
Definition sdWaitForData : E Z :=
  left ← poll_pre (busy EMMC_STATUS SR_DAT_INHIBIT EMMC_INTERRUPT INT_ERROR_MASK) (sd_delayus 1) (Z.to_nat 500000);
  failed ← (if 500000 - left >=? 500000 then mret true else bits EMMC_INTERRUPT INT_ERROR_MASK);
  if (failed : bool) then show [EMMC_STATUS; EMMC_INTERRUPT; EMMC_RESP0];; mret SD_BUSY
  else mret SD_OK.

(** ** Commands *)

(** the card's state in a status word *)
Definition card_state (resp0 : Z) : Z := Z.shiftr (Z.land resp0 ST_CARD_STATE) R1_CARD_STATE_SHIFT.

(** [switch (cmd->resp)] *)
Definition response (r arg resp0 : Z) : E Z :=
  if r =? RESP_NO then mret SD_OK
  else if (r =? RESP_R1) || (r =? RESP_R1b) then
    upd_card (set_status (u32 resp0));;
    upd_card (set_cardState (card_state resp0));;
    mret (Z.land resp0 (i32 R1_ERRORS_MASK))
  else if (r =? RESP_R2I) || (r =? RESP_R2S) then
    upd_card (set_status 0);;
    d0 ← rd EMMC_RESP3;
    d1 ← rd EMMC_RESP2;
    d2 ← rd EMMC_RESP1;
    upd_card ((if r =? RESP_R2I then set_cid else set_csd) [d0; d1; d2; u32 resp0]);;
    mret SD_OK
  else if r =? RESP_R3 then
    upd_card (set_status 0);; upd_card (set_ocr (u32 resp0));; mret SD_OK
  else if r =? RESP_R6 then
    upd_card (set_rca (Z.land (u32 resp0) R6_RCA_MASK));;
    let st := Z.lor (Z.land resp0 0x00001fff) (Z.lor (Z.shiftl (Z.land resp0 0x00002000) 6)
                (Z.lor (Z.shiftl (Z.land resp0 0x00004000) 8) (Z.shiftl (Z.land resp0 0x00008000) 8))) in
    upd_card (set_status st);;
    upd_card (set_cardState (card_state resp0));;
    mret (i32 (Z.land st R1_ERRORS_MASK))
  else if r =? RESP_R7 then
    upd_card (set_status 0);; mret (if resp0 =? arg then SD_OK else SD_ERROR)
  else panic.

Definition sdSendCommandP (index arg : Z) : E Z :=
  cmd ← getopt (λ _, sdCommandTable !! Z.to_nat index);
  w ← sdWaitForCommand;
  if negb (w =? 0) then mret SD_BUSY
  else
    upd_card (set_lastCmd (Some index));;
    upd_card (set_lastArg (u32 arg));;
    v ← rd EMMC_INTERRUPT;
    wr EMMC_INTERRUPT v;;
    wr EMMC_ARG1 (u32 arg);;
    wr EMMC_CMDTM (code cmd);;
    when (negb (delay_ cmd =? 0)) (sd_delayus (u32 (delay_ cmd)));;
    result ← sdWaitForInterrupt INT_CMD_DONE;
    if negb (result =? 0) then mret result
    else
      r0 ← rd EMMC_RESP0;
      response (resp cmd) arg (i32 r0).

Definition sdSendAppCommand : E Z :=
  c ← gets card;
  if rca c =? 0 then sdSendCommandP IX_APP_CMD 0;; mret SD_OK
  else
    r ← sdSendCommandP IX_APP_CMD_RCA (i32 (rca c));
    if negb (r =? 0) then sdDebugResponse r
    else
      c ← gets card;
      if Z.land (status c) ST_APP_CMD =? 0 then mret SD_ERROR else mret SD_OK.

(** what [sdSendCommand] and [sdSendCommandA] have in common: [arg] is looked up when the command
    is sent *)
Definition send_with (index : Z) (arg : E Z) : E Z :=
  r ← (if index >=? IX_APP_CMD_START then sdSendAppCommand else mret 0);
  if negb (r =? 0) then sdDebugResponse r
  else
    arg ← arg;
    r ← sdSendCommandP index arg;
    if negb (r =? 0) then mret r
    else
      c ← gets card;
      if (index >=? IX_APP_CMD_START) && negb (rca c =? 0) && (Z.land (status c) ST_APP_CMD =? 0)
      then mret SD_ERROR_APP_CMD else mret r.

Definition sdSendCommand (index : Z) : E Z :=
  send_with index
    (cmd ← getopt (λ _, sdCommandTable !! Z.to_nat index);
     c ← gets card;
     mret (if rca_ cmd =? RCA_YES then i32 (rca c) else 0)).
Definition sdSendCommandA (index arg : Z) : E Z := send_with index (mret arg).

(** ** Setting the card up *)

(** [if ((resp = m)) return resp;], without and with the debug message *)
Definition bail (m k : E Z) : E Z := r ← m; if negb (r =? 0) then mret r else k.
Definition bail_debug (m k : E Z) : E Z := r ← m; if negb (r =? 0) then sdDebugResponse r else k.

(** the words read, and whether they are two *)
Fixpoint scr_loop (fuel : nat) (numRead count : Z) : E Z :=
  match fuel with
  | O => nofuel
  | S fuel =>
      if numRead <? 2 then
        b ← bits EMMC_STATUS SR_READ_AVAILABLE;
        if (b : bool) then
          v ← rd EMMC_DATA;
          upd_card (λ c, set_scr (<[Z.to_nat numRead := v]> (scr c)) c);;
          scr_loop fuel (numRead + 1) count
        else
          sd_delayus 1;;
          if count - 1 =? 0 then mret numRead else scr_loop fuel numRead (count - 1)
      else mret numRead
  end.

(** what the SCR says the card supports *)
Definition scr_support (c : SDDescriptor) : SDDescriptor :=
  let scr0 := nth 0 (scr c) 0 in
  let add mask flag s := if negb (Z.land scr0 mask =? 0) then Z.lor s flag else s in
  set_support (add SCR_CMD_SUPP_SPEED_CLASS SD_SUPP_SPEED_CLASS
    (add SCR_CMD_SUPP_SET_BLKCNT SD_SUPP_SET_BLOCK_COUNT
      (add SCR_SD_BUS_WIDTH_1 SD_SUPP_BUS_WIDTH_1
        (add SCR_SD_BUS_WIDTH_4 SD_SUPP_BUS_WIDTH_4 (support c))))) c.

Definition sdReadSCR : E Z :=
  w ← sdWaitForData;
  if negb (w =? 0) then mret SD_TIMEOUT
  else
    wr EMMC_BLKSIZECNT (Z.lor (Z.shiftl 1 16) 8);;
    bail_debug (sdSendCommand IX_SEND_SCR)
      (bail_debug (sdWaitForInterrupt INT_READ_RDY)
        (numRead ← scr_loop (Z.to_nat 100003) 0 100000;
         if negb (numRead =? 2) then
           show [EMMC_STATUS; EMMC_INTERRUPT; EMMC_RESP0];; mret SD_TIMEOUT
         else upd_card scr_support;; mret SD_OK)).

Definition sdSetClock (freq : Z) : E Z :=
  count ← poll_pre (bits EMMC_STATUS (Z.lor SR_CMD_INHIBIT SR_DAT_INHIBIT)) (sd_delayus 1) (Z.to_nat 100000);
  if count <=? 0 then show [EMMC_STATUS];; mret SD_ERROR_CLOCK
  else
    v ← rd EMMC_CONTROL1;
    wr EMMC_CONTROL1 (Z.land v (u32 (Z.lnot C1_CLK_EN)));;
    sd_delayus 10;;
    ver ← gets sdHostVer;
    let cdiv := i32 (sdGetClockDivider ver (u32 freq)) in
    v ← rd EMMC_CONTROL1;
    wr EMMC_CONTROL1 (Z.lor (Z.land v 0xffff003f) (u32 cdiv));;
    sd_delayus 10;;
    v ← rd EMMC_CONTROL1;
    wr EMMC_CONTROL1 (Z.lor v C1_CLK_EN);;
    sd_delayus 10;;
    count ← poll (b ← bits EMMC_CONTROL1 C1_CLK_STABLE; mret (negb b)) (sd_delayus 10) (Z.to_nat 10000);
    if count <=? 0 then mret SD_ERROR_CLOCK
    else show [EMMC_STATUS; EMMC_CONTROL1];; mret SD_OK.

Definition reset_registers (c : SDDescriptor) : SDDescriptor :=
  set_uhsi 0 (set_ctype 0 (set_status 0 (set_lastCmd None (set_lastArg 0 (set_ocr 0 (set_rca 0 c)))))).

Definition sdResetCard (resetType : Z) : E Z :=
  wr EMMC_CONTROL0 0;;
  v ← rd EMMC_CONTROL1;
  wr EMMC_CONTROL1 (Z.lor v (u32 resetType));;
  sd_delayus 10;;
  count ← poll (bits EMMC_CONTROL1 (u32 resetType)) (sd_delayus 10) (Z.to_nat 10000);
  if count <=? 0 then mret SD_ERROR_RESET
  else
    v ← rd EMMC_CONTROL1;
    wr EMMC_CONTROL1 (Z.lor v (Z.lor C1_CLK_INTLEN C1_TOUNIT_MAX));;
    sd_delayus 10;;
    bail (sdSetClock FREQ_SETUP)
      (wr EMMC_IRPT_EN (Z.land 0xffffffff (Z.land (u32 (Z.lnot INT_CMD_DONE)) (u32 (Z.lnot INT_WRITE_RDY))));;
       wr EMMC_IRPT_MASK 0xffffffff;;
       upd_card reset_registers;;
       sdSendCommand IX_GO_IDLE_STATE).

(** sending the command until the card is no longer busy: [Some] for an error to return *)
Fixpoint opcond_loop (arg : Z) (count : nat) : E (option Z) :=
  c ← gets card;
  if Z.land (ocr c) R3_COMPLETE =? 0 then
    match count with
    | O => mret None
    | S n =>
        show [EMMC_STATUS];;
        hw (delay 50000);;
        r ← sdSendCommandA IX_APP_SEND_OP_COND arg;
        if negb (r =? 0) && negb (r =? SD_TIMEOUT) then mret (Some r) else opcond_loop arg n
    end
  else mret None.

Definition sdAppSendOpCond (arg : Z) : E Z :=
  show [EMMC_STATUS];;
  r ← sdSendCommandA IX_APP_SEND_OP_COND arg;
  if negb (r =? 0) && negb (r =? SD_TIMEOUT) then mret r
  else
    x ← opcond_loop arg 6;
    match x with
    | Some r => mret r
    | None =>
        c ← gets card;
        mret (if Z.land (ocr c) R3_COMPLETE =? 0 then SD_TIMEOUT
              else if Z.land (ocr c) ACMD41_VOLTAGE =? 0 then SD_ERROR_VOLTAGE else SD_OK)
    end.

Definition sdSwitchVoltage : E Z := mret SD_OK.

(** pull-ups for the pins [pins] of the second bank *)
Definition pull_up (pins : Z) : E unit :=
  wr GPPUD 2;; hw (delay 150);; wr GPPUDCLK1 pins;; hw (delay 150);; wr GPPUD 0;; wr GPPUDCLK1 0.

Definition sdInitGPIO : E unit :=
  r ← rd GPFSEL4;
  wr GPFSEL4 (Z.land r (u32 (Z.lnot (Z.shiftl 7 (7 * 3)))));;
  pull_up (Z.shiftl 1 15);;
  r ← rd GPHEN1;
  wr GPHEN1 (Z.lor r (Z.shiftl 1 15));;
  r ← rd GPFSEL4;
  wr GPFSEL4 (Z.lor r (Z.lor (Z.shiftl 7 (8 * 3)) (Z.shiftl 7 (9 * 3))));;
  pull_up (Z.lor (Z.shiftl 1 16) (Z.shiftl 1 17));;
  r ← rd GPFSEL5;
  wr GPFSEL5 (Z.lor r (Z.lor (Z.shiftl 7 (0 * 3)) (Z.lor (Z.shiftl 7 (1 * 3)) (Z.lor (Z.shiftl 7 (2 * 3)) (Z.shiftl 7 (3 * 3))))));;
  pull_up (Z.lor (Z.shiftl 1 18) (Z.lor (Z.shiftl 1 19) (Z.lor (Z.shiftl 1 20) (Z.shiftl 1 21)))).

(** [fuel] bounds the waits for the mailbox; [buf] is the address of the request on the stack *)
Context (fuel : nat) (buf : Z).

Definition sdGetBaseClock : E Z :=
  r ← hw (mbox_get_clock_rate fuel buf);
  modify (λ s, mkSd (card s) (sdHostVer s) r (dev s));;
  mret (if r =? -1 then SD_ERROR else SD_OK).

(** the first part of [sdInit]: the kind of card *)
Definition sd_kind (k : E Z) : E Z :=
  r ← sdSendCommandA IX_SEND_IF_COND 0x000001AA;
  if r =? SD_OK then
    hw (delay 50);;
    bail_debug (sdAppSendOpCond ACMD41_ARG_HC)
      (upd_card (λ c, set_ctype (if negb (Z.land (ocr c) R3_CCS =? 0) then SD_TYPE_2_HC else SD_TYPE_2_SC) c);; k)
  else if r =? SD_BUSY then mret r
  else
    bail (b ← bits EMMC_STATUS SR_CMD_INHIBIT; if (b : bool) then sdResetCard C1_SRST_HC else mret 0)
      (bail_debug (sdAppSendOpCond ACMD41_ARG_SC) (upd_card (set_ctype SD_TYPE_1);; k)).

(** the second part: from the voltage switch to the block length *)
Definition sd_identify (k : E Z) : E Z :=
  bail (c ← gets card; if negb (Z.land (ocr c) R3_S18A =? 0) then sdSwitchVoltage else mret 0)
  (bail_debug (sdSendCommand IX_ALL_SEND_CID)
  (bail_debug (sdSendCommand IX_SEND_REL_ADDR)
  (bail_debug (sdSendCommand IX_SEND_CSD)
  (upd_card sdParseCSD;;
   c ← gets card;
   if negb (fileFormat c =? CSD3VN_FILE_FORMAT_DOSFAT) && negb (fileFormat c =? CSD3VN_FILE_FORMAT_HDD)
   then mret SD_ERROR
   else
   (bail_debug (sdSetClock FREQ_NORMAL)
   (bail_debug (sdSendCommand IX_CARD_SELECT)
   (bail_debug sdReadSCR
   (bail_debug
      (c ← gets card;
       if negb (Z.land (support c) SD_SUPP_BUS_WIDTH_4 =? 0) then
         r ← sdSendCommandA IX_SET_BUS_WIDTH (Z.lor (i32 (rca c)) 2);
         if negb (r =? 0) then mret r
         else v ← rd EMMC_CONTROL0; wr EMMC_CONTROL0 (Z.lor v C0_HCTL_DWITDH);; mret 0
       else mret 0)
   (bail_debug (sdSendCommandA IX_SET_BLOCKLEN 512) k))))))))).

Definition sdInit : E Z :=
  c ← gets card;
  when (cinit c =? 0) sdInitGPIO;;
  cardEjected ← bits GPEDS1 (Z.shiftl 1 (47 - 32));
  upd_card (set_absent 0);;
  c ← gets card;
  let oldCID := if cardEjected && negb (cinit c =? 0) then cid c else [0; 0; 0; 0] in
  when (cardEjected && negb (cinit c =? 0)) (upd_card (set_cinit 0));;
  c ← gets card;
  if negb (cinit c =? 0) then mret SD_OK
  else
    v ← rd EMMC_SLOTISR_VER;
    modify (λ s, mkSd (card s) (Z.shiftr (Z.land v HOST_SPEC_NUM) HOST_SPEC_NUM_SHIFT) (sdBaseClock s) (dev s));;
    bail sdGetBaseClock
    (bail (sdResetCard C1_SRST_HC)
    (sd_kind (sd_identify
      (gets (λ s, sdParseCID (card s));;
       upd_card (set_cinit 1);;
       c ← gets card;
       mret (if decide (oldCID = cid c) then SD_CARD_REINSERTED else SD_CARD_CHANGED))))).
End emmc.
