(* ===== verification/EmmcSpec.v ===== *)
(** * What the set-up of the SD card promises

    The arithmetic of the driver against definitions by arithmetic, and that setting a card up
    comes to an end whatever the controller does. *)

From Stdlib Require Import ZArith Lia.
From S2P Require Import Prelude Total Words Mmu Device Emmc.

(** ** [fls_long] is the position of the highest bit *)

Lemma land_high x k : 0 ≤ k ≤ 32 → 0 ≤ x < 2 ^ 32 → (Z.land x (2 ^ 32 - 2 ^ k) =? 0) = (x <? 2 ^ k).
Proof.
  intros Hk Hx. pose proof (Z.pow_pos_nonneg 2 k ltac:(lia) ltac:(lia)) as Hp.
  assert (2 ^ 32 - 2 ^ k = Z.shiftl (Z.ones (32 - k)) k) as ->.
  { rewrite Z.ones_equiv, Z.shiftl_mul_pow2, Z.mul_pred_l, <-Z.pow_add_r by lia. f_equal; f_equal; lia. }
  assert (Z.land x (Z.shiftl (Z.ones (32 - k)) k) = Z.shiftl (x / 2 ^ k) k) as ->.
  { rewrite <-(Z.mod_small (x / 2 ^ k) (2 ^ (32 - k))).
    2:{ split; [apply Z.div_pos; lia|]. apply Z.div_lt_upper_bound; [lia|].
        rewrite <-Z.pow_add_r by lia. replace (k + (32 - k)) with 32 by lia. lia. }
    rewrite <-Z.land_ones, <-Z.shiftr_div_pow2 by lia. apply Z.bits_inj'. intros i Hi.
    rewrite Z.land_spec. destruct (Z.lt_ge_cases i k) as [H|H].
    - by rewrite !Z.shiftl_spec_low, andb_false_r by done.
    - rewrite !Z.shiftl_spec_high, Z.land_spec, Z.shiftr_spec by lia. by replace (i - k + k) with i by lia. }
  rewrite Z.shiftl_mul_pow2 by lia.
  destruct (Z.ltb_spec x (2 ^ k)) as [H|H].
  - by rewrite Z.div_small by lia.
  - apply Z.eqb_neq. pose proof (Z.div_le_lower_bound x (2 ^ k) 1 Hp ltac:(lia)). nia.
Qed.

(** one of the five tests *)
Definition fls_step (s mask : Z) (p : Z * Z) : Z * Z :=
  if Z.land p.1 mask =? 0 then (u64 (Z.shiftl p.1 s), p.2 - s) else p.

Lemma fls_step_run s x r :
  0 < s → 2 * s ≤ 32 → 2 ^ (32 - 2 * s) ≤ x < 2 ^ 32 →
  let p := fls_step s (2 ^ 32 - 2 ^ (32 - s)) (x, r) in
  2 ^ (32 - s) ≤ p.1 < 2 ^ 32 ∧ Z.log2 p.1 + p.2 = Z.log2 x + r.
Proof.
  intros Hs Hs2 Hx. unfold fls_step. cbn [fst snd].
  pose proof (Z.pow_pos_nonneg 2 (32 - 2 * s) ltac:(lia) ltac:(lia)) as H0.
  rewrite land_high by lia. destruct (Z.ltb_spec x (2 ^ (32 - s))) as [H|H]; cbn [fst snd]; [|lia].
  assert (x * 2 ^ s < 2 ^ 32) as Hlt.
  { replace 32 with ((32 - s) + s) by lia. rewrite Z.pow_add_r by lia.
    apply Z.mul_lt_mono_pos_r; [by apply Z.pow_pos_nonneg; lia|done]. }
  assert (2 ^ (32 - s) ≤ x * 2 ^ s) as Hle.
  { replace (32 - s) with ((32 - 2 * s) + s) by lia. rewrite Z.pow_add_r by lia. nia. }
  rewrite Z.shiftl_mul_pow2 by lia. rewrite u64_id by (change (2 ^ 64) with (2 ^ 32 * 2 ^ 32); lia).
  split; [done|]. rewrite Z.log2_mul_pow2 by lia. lia.
Qed.

Lemma fls_long_run x : 0 < x < 2 ^ 32 → fls_long x = Z.log2 x + 1.
Proof.
  intros Hx.
  assert (fls_long x = (fls_step 1 0x80000000 (fls_step 2 0xc0000000 (fls_step 4 0xf0000000
    (fls_step 8 0xff000000 (fls_step 16 0xffff0000 (x, 32)))))).2) as ->.
  { unfold fls_long. rewrite (proj2 (Z.eqb_neq x 0)) by lia. unfold fls_step. cbn [fst snd].
    by repeat match goal with |- context [if ?b then _ else _] => destruct b eqn:?; cbn [fst snd] end. }
  destruct (fls_step_run 16 x 32 ltac:(lia) ltac:(lia) ltac:(change (2 ^ (32 - 2 * 16)) with 1; lia)) as [B1 E1].
  change (2 ^ 32 - 2 ^ (32 - 16)) with 0xffff0000 in *.
  destruct (fls_step 16 0xffff0000 (x, 32)) as [x1 r1]. cbn [fst snd] in *.
  destruct (fls_step_run 8 x1 r1 ltac:(lia) ltac:(lia) B1) as [B2 E2].
  change (2 ^ 32 - 2 ^ (32 - 8)) with 0xff000000 in *.
  destruct (fls_step 8 0xff000000 (x1, r1)) as [x2 r2]. cbn [fst snd] in *.
  destruct (fls_step_run 4 x2 r2 ltac:(lia) ltac:(lia) B2) as [B3 E3].
  change (2 ^ 32 - 2 ^ (32 - 4)) with 0xf0000000 in *.
  destruct (fls_step 4 0xf0000000 (x2, r2)) as [x3 r3]. cbn [fst snd] in *.
  destruct (fls_step_run 2 x3 r3 ltac:(lia) ltac:(lia) B3) as [B4 E4].
  change (2 ^ 32 - 2 ^ (32 - 2)) with 0xc0000000 in *.
  destruct (fls_step 2 0xc0000000 (x3, r3)) as [x4 r4]. cbn [fst snd] in *.
  destruct (fls_step_run 1 x4 r4 ltac:(lia) ltac:(lia) B4) as [B5 E5].
  change (2 ^ 32 - 2 ^ (32 - 1)) with 0x80000000 in *.
  destruct (fls_step 1 0x80000000 (x4, r4)) as [x5 r5]. cbn [fst snd] in *.
  assert (Z.log2 x5 = 31) by (apply Z.log2_unique; lia). lia.
Qed.

Lemma roundup_pow_of_two_run x : 1 < x ≤ 2 ^ 31 → roundup_pow_of_two x = 2 ^ Z.log2_up x.
Proof.
  intros Hx. change (2 ^ 31) with 2147483648 in Hx. unfold roundup_pow_of_two.
  rewrite (u64_id (x - 1)) by (change (2 ^ 64) with 18446744073709551616; lia).
  rewrite fls_long_run by (change (2 ^ 32) with 4294967296; lia).
  assert (Z.log2_up x = Z.log2 (x - 1) + 1) as ->.
  { unfold Z.log2_up. rewrite (proj2 (Z.compare_lt_iff 1 x)) by lia. by rewrite <-Z.sub_1_r, Z.add_1_r. }
  rewrite Z.shiftl_1_l. apply u64_id. split; [apply Z.pow_nonneg; lia|].
  apply Z.pow_lt_mono_r; [lia..|]. pose proof (Z.log2_le_mono (x - 1) (2 ^ 31) ltac:(lia)) as H.
  rewrite Z.log2_pow2 in H by lia. lia.
Qed.

(** ** The clock *)

Definition BASE_CLOCK : Z := 41666666.

(** the divisor a version 3 controller reads in its clock bits *)
Definition divisor_v3 (cdiv : Z) : Z := cdiv / 2 ^ 8 + (cdiv / 2 ^ 6) mod 4 * 2 ^ 8.

(** the divisor before it is put into the clock bits, for a version 2 controller *)
Lemma divisor_v2 freq :
  0 < freq → BASE_CLOCK < 257 * freq →
  let c := BASE_CLOCK / freq in
  let s := fls_long (u32 (c - 1)) in
  let s := if s >? 0 then s - 1 else s in
  let s := if s >? 7 then 7 else s in
  let d := u32 (Z.shiftl 1 s) in
  ∃ k, 1 ≤ k ≤ 7 ∧ (if d <=? 2 then 2 else d) = 2 ^ k ∧
    (0 < c → c ≤ 2 ^ (k + 1) ∧ (1 < k → 2 ^ k < c)).
Proof.
  intros Hf Hb c. assert (0 ≤ c ≤ 256) as Hc.
  { subst c. split; [by apply Z.div_pos; unfold BASE_CLOCK; lia|].
    apply Z.lt_succ_r. apply Z.div_lt_upper_bound; lia. }
  assert (∀ n, 0 ≤ n ≤ 255 → let s := fls_long n in
    ∃ k, 1 ≤ k ≤ 7 ∧
      (let s := if s >? 0 then s - 1 else s in let s := if s >? 7 then 7 else s in
       (if u32 (Z.shiftl 1 s) <=? 2 then 2 else u32 (Z.shiftl 1 s)) = 2 ^ k) ∧
      n < 2 ^ (k + 1) ∧ (1 < k → 2 ^ k ≤ n)) as Hn.
  { intros n Hr. destruct (decide (n = 0)) as [->|H0].
    { exists 1. split; [lia|]. split; [by vm_compute|]. split; [done|lia]. }
    cbv zeta. rewrite fls_long_run by (change (2 ^ 32) with 4294967296; lia).
    destruct (Z.log2_spec n ltac:(lia)) as [L1 L2]. pose proof (Z.log2_nonneg n) as L0.
    assert (Z.log2 n < 8) as L8 by (apply Z.log2_lt_pow2; [lia|change (2 ^ 8) with 256; lia]).
    rewrite (proj2 (Z.gtb_lt (Z.log2 n + 1) 0)) by lia. replace (Z.log2 n + 1 - 1) with (Z.log2 n) by lia.
    assert (Z.log2 n >? 7 = false) as -> by (rewrite Z.gtb_ltb; apply Z.ltb_ge; lia).
    exists (Z.max 1 (Z.log2 n)). split; [lia|].
    assert (Z.log2 n = 0 ∨ 1 ≤ Z.log2 n) as [E|E] by lia.
    - rewrite E in *. split; [by vm_compute|]. split; [|lia]. change (2 ^ Z.succ 0) with 2 in L2.
      change (2 ^ (Z.max 1 0 + 1)) with 4. lia.
    - rewrite Z.max_r by done. rewrite Z.shiftl_1_l.
      pose proof (Z.pow_le_mono_r 2 (Z.log2 n) 7 ltac:(lia) ltac:(lia)) as P1. change (2 ^ 7) with 128 in P1.
      pose proof (Z.pow_le_mono_r 2 1 (Z.log2 n) ltac:(lia) ltac:(lia)) as P2. change (2 ^ 1) with 2 in P2.
      rewrite u32_id by (change (2 ^ 32) with 4294967296; lia).
      split; [|split; [by rewrite Z.add_1_r|done]].
      destruct (Z.leb_spec (2 ^ Z.log2 n) 2); lia. }
  destruct (decide (c = 0)) as [->|H0].
  { exists 7. split; [lia|]. split; [by vm_compute|]. lia. }
  destruct (Hn (c - 1) ltac:(lia)) as (k & K1 & K2 & K3 & K4). cbv zeta in K2.
  rewrite u32_id by (change (2 ^ 32) with 4294967296; lia).
  exists k. split; [done|]. split; [exact K2|]. intros _. split; [lia|]. intros K. specialize (K4 K). lia.
Qed.

Lemma land_bits x k n : 0 ≤ k → 0 ≤ n → 0 ≤ x →
  Z.land x (Z.shiftl (Z.ones n) k) = (x / 2 ^ k) mod 2 ^ n * 2 ^ k.
Proof.
  intros Hk Hn Hx. rewrite <-Z.land_ones, <-Z.shiftr_div_pow2, <-Z.shiftl_mul_pow2 by done.
  apply Z.bits_inj'. intros i Hi. rewrite Z.land_spec. destruct (Z.lt_ge_cases i k) as [H|H].
  - by rewrite !Z.shiftl_spec_low, andb_false_r by done.
  - rewrite !Z.shiftl_spec_high, Z.land_spec, Z.shiftr_spec by lia. by replace (i - k + k) with i by lia.
Qed.

(** C39: The clock bits [sdGetClockDivider] computes stay within bits 6 to 15 of the register, for
    every frequency and controller.  On a version 2 controller, which divides by twice a power
    of two, the clock exceeds the frequency asked for by less than what rounding the ratio of the
    clocks loses, and the next faster divisor would exceed it; on a version 3 controller the bits
    hold the ratio itself. *)
Theorem sdGetClockDivider_correct hostver freq :
  0 < freq < 2 ^ 32 →
  let cdiv := sdGetClockDivider hostver freq in
  (0 ≤ cdiv < 2 ^ 16 ∧ cdiv mod 2 ^ 6 = 0) ∧
  (hostver ≤ HOST_SPEC_V2 → BASE_CLOCK < 257 * freq →
     ∃ k, 1 ≤ k ≤ 7 ∧ cdiv = 2 ^ k * 2 ^ 8 ∧ BASE_CLOCK < freq * (2 ^ (k + 1) + 1) ∧
       (1 < k → freq ≤ BASE_CLOCK → freq * 2 ^ k < BASE_CLOCK)) ∧
  (HOST_SPEC_V2 < hostver → 2 ≤ BASE_CLOCK / freq < 1024 → divisor_v3 cdiv = BASE_CLOCK / freq).
Proof.
  intros Hf. change (2 ^ 32) with 4294967296 in Hf. unfold sdGetClockDivider. cbv zeta.
  change 41666666 with BASE_CLOCK.
  set (c := BASE_CLOCK / freq). set (s := if (if _ >? 0 then _ else _) >? 7 then 7 else _).
  assert (0 ≤ c < 4294967296) as Hc.
  { subst c. split; [by apply Z.div_pos; unfold BASE_CLOCK; lia|]. apply Z.div_lt_upper_bound; unfold BASE_CLOCK; lia. }
  set (d := if _ <=? 2 then 2 else _).
  assert (0 ≤ d) as Hd.
  { subst d. match goal with |- 0 ≤ (if ?x <=? 2 then _ else _) => destruct (Z.leb_spec x 2); lia end. }
  change 0x300 with (Z.shiftl (Z.ones 2) 8). change 0xff with (Z.ones 8).
  rewrite land_bits, Z.land_ones, !Z.shiftr_div_pow2, Z.shiftl_mul_pow2 by lia.
  change (2 ^ 8) with 256. change (2 ^ 2) with 4. change (2 ^ 16) with 65536. change (2 ^ 6) with 64.
  set (hi := if hostver >? HOST_SPEC_V2 then _ else 0). assert (hi = 0 ∨ hi = 64 ∨ hi = 128 ∨ hi = 192) as Hhi.
  { subst hi. clearbody d. destruct (hostver >? HOST_SPEC_V2); [|by left]. zmod. }
  rewrite u32_id by (change (2 ^ 32) with 4294967296; zmod).
  split; [zmod|]. split.
  - intros Hv Hb. assert (hostver >? HOST_SPEC_V2 = false) as Ev
      by (rewrite Z.gtb_ltb; apply Z.ltb_ge; done).
    destruct (divisor_v2 freq ltac:(lia) Hb) as (k & K1 & K2 & K3). cbv zeta in K2. fold c s in K2.
    assert (d = 2 ^ k) as Ed by (subst d; rewrite Ev; exact K2).
    assert (hi = 0) as -> by (subst hi; by rewrite Ev).
    pose proof (Z.pow_le_mono_r 2 k 7 ltac:(lia) ltac:(lia)) as P1. change (2 ^ 7) with 128 in P1.
    pose proof (Z.mul_succ_div_gt BASE_CLOCK freq ltac:(lia)) as B1. fold c in B1.
    pose proof (Z.mul_div_le BASE_CLOCK freq ltac:(lia)) as B2. fold c in B2.
    exists k. split; [done|]. rewrite Ed. split; [rewrite Z.mod_small by lia; lia|].
    destruct (decide (c = 0)) as [E0|E0].
    + split; [|intros _ Hle; exfalso; rewrite E0 in B1; lia].
      pose proof (Z.pow_pos_nonneg 2 (k + 1) ltac:(lia) ltac:(lia)). rewrite E0 in B1. nia.
    + destruct (K3 ltac:(lia)) as [K4 K5]. split; [nia|]. intros Hk _. specialize (K5 Hk). nia.
  - intros Hv Hr. assert (hostver >? HOST_SPEC_V2 = true) as Ev by (apply Z.gtb_lt; done).
    subst hi d. rewrite Ev. fold c in Hr. unfold divisor_v3. change (2 ^ 8) with 256. change (2 ^ 6) with 64.
    destruct (Z.leb_spec c 2); [assert (c = 2) as -> by lia; by vm_compute|]. zmod.
Qed.

Lemma sdGetClockDivider_correct_witness :
  let cdiv := sdGetClockDivider 1 400000 in
  (0 ≤ cdiv < 2 ^ 16 ∧ cdiv mod 2 ^ 6 = 0) ∧
  ∃ k, 1 ≤ k ≤ 7 ∧ cdiv = 2 ^ k * 2 ^ 8 ∧ BASE_CLOCK < 400000 * (2 ^ (k + 1) + 1).
Proof.
  destruct (sdGetClockDivider_correct 1 400000 ltac:(split; reflexivity)) as (H1 & H2 & _).
  destruct H2 as (k & K1 & K2 & K3 & _); [reflexivity|reflexivity|].
  split; [exact H1|]. exists k. split; [exact K1|]. split; [exact K2|exact K3].
Defined.

(** ** The size of the card *)

(** bits [hi] to [lo] of the CSD register, as the SD specification names them *)
Definition csd_field (R hi lo : Z) : Z := (R / 2 ^ lo) mod 2 ^ (hi - lo + 1).

(** [RESP3] to [RESP0]: the register without its checksum, which is its last byte *)
Definition csd_words (R : Z) : list Z := map (λ i, (R / 2 ^ (8 + 32 * i)) mod 2 ^ 32) [3; 2; 1; 0].

(** the size of a card in bytes, in the two versions of the register *)
Definition csd_capacity (R : Z) : Z :=
  if csd_field R 127 126 =? 0 then
    (csd_field R 73 62 + 1) * 2 ^ (csd_field R 49 47 + 2) * 2 ^ csd_field R 83 80
  else (csd_field R 69 48 + 1) * (512 * 1024).

Lemma csd_field_range R hi lo : lo ≤ hi → 0 ≤ csd_field R hi lo < 2 ^ (hi - lo + 1).
Proof. intros H. apply Z.mod_pos_bound. apply Z.pow_pos_nonneg; lia. Qed.

Lemma mod_mod_pow a m n : 0 ≤ n ≤ m → (a mod 2 ^ m) mod 2 ^ n = a mod 2 ^ n.
Proof.
  intros H. symmetry. apply Znumtheory.Zmod_div_mod.
  - apply Z.pow_pos_nonneg; lia. - apply Z.pow_pos_nonneg; lia.
  - exists (2 ^ (m - n)). rewrite <-Z.pow_add_r by lia. f_equal. lia.
Qed.

Lemma div_mod_pow a m k : 0 ≤ k ≤ m → (a mod 2 ^ m) / 2 ^ k = (a / 2 ^ k) mod 2 ^ (m - k).
Proof.
  intros H. rewrite <-!Z.shiftr_div_pow2, <-!Z.land_ones by lia. apply Z.bits_inj'. intros i Hi.
  rewrite Z.shiftr_spec, !Z.land_spec, Z.shiftr_spec by lia. f_equal.
  destruct (Z.lt_ge_cases i (m - k)).
  - rewrite !Z.ones_spec_low by lia. done. - rewrite !Z.ones_spec_high by lia. done.
Qed.

(** a field inside one word *)
Lemma word_field R i k n mask : 0 ≤ R → 0 ≤ i → 0 ≤ k → 0 ≤ n → k + n ≤ 32 → mask = Z.shiftl (Z.ones n) k →
  Z.shiftr (Z.land ((R / 2 ^ (8 + 32 * i)) mod 2 ^ 32) mask) k = (R / 2 ^ (8 + 32 * i + k)) mod 2 ^ n.
Proof.
  intros HR Hi Hk Hn Hs ->.
  assert (0 ≤ (R / 2 ^ (8 + 32 * i)) mod 2 ^ 32) by (apply Z.mod_pos_bound; done).
  rewrite land_bits, Z.shiftr_div_pow2, Z.div_mul by (first [done | apply Z.pow_nonzero; lia]).
  rewrite div_mod_pow, Z.div_div, <-Z.pow_add_r by (first [lia | apply Z.pow_pos_nonneg; lia | apply Z.pow_nonzero; lia]).
  apply mod_mod_pow. lia.
Qed.

Lemma mask_zero x k n : 0 ≤ x → 0 ≤ k → 0 ≤ n →
  (Z.land x (Z.shiftl (Z.ones n) k) =? 0) = (Z.shiftr (Z.land x (Z.shiftl (Z.ones n) k)) k =? 0).
Proof.
  intros Hx Hk Hn. rewrite land_bits, Z.shiftr_div_pow2, Z.div_mul by (first [done | apply Z.pow_nonzero; lia]).
  pose proof (Z.pow_pos_nonneg 2 k ltac:(lia) Hk). set (y := _ mod _).
  destruct (Z.eqb_spec y 0) as [->|Hy]; [done|]. apply Z.eqb_neq. nia.
Qed.

Lemma join_fields a m n : 0 ≤ m → 0 ≤ n → (a / 2 ^ m) mod 2 ^ n * 2 ^ m + a mod 2 ^ m = a mod 2 ^ (m + n).
Proof.
  intros Hm Hn. rewrite Z.pow_add_r by done.
  rewrite (Z.rem_mul_r a (2 ^ m) (2 ^ n)) by (first [apply Z.pow_nonzero; lia | apply Z.pow_pos_nonneg; lia]). lia.
Qed.

Lemma pow_small e m : 0 ≤ e ≤ m → 1 ≤ 2 ^ e ≤ 2 ^ m.
Proof. intros H. split; [|apply Z.pow_le_mono_r; lia]. pose proof (Z.pow_pos_nonneg 2 e). lia. Qed.

(** C28: The driver takes the size of the card out of the four response registers with masks and
    shifts; the result is what the SD specification computes from the fields of the 128-bit CSD
    register, in both of its versions, without overflow, and the file format is the field of
    that name. *)
Theorem sdParseCSD_correct R c :
  0 ≤ R < 2 ^ 128 → csd c = csd_words R →
  capacity (sdParseCSD c) = csd_capacity R ∧ fileFormat (sdParseCSD c) = csd_field R 11 10 * 2 ^ 2.
Proof.
  intros [HR _] Hc. unfold sdParseCSD. rewrite Hc. cbn [csd_words map nth].
  set (w3 := (R / 2 ^ (8 + 32 * 3)) mod _). set (w2 := (R / 2 ^ (8 + 32 * 2)) mod _).
  set (w1 := (R / 2 ^ (8 + 32 * 1)) mod _). set (w0 := (R / 2 ^ (8 + 32 * 0)) mod _).
  cbn [capacity fileFormat set_fileFormat set_capacity].
  assert (0 ≤ w0 ∧ 0 ≤ w3) as [H0 H3] by (split; apply Z.mod_pos_bound; done).
  assert (Z.shiftr (Z.land w3 CSD0_VERSION) 22 = csd_field R 127 126) as E1 by (by apply word_field).
  assert (Z.shiftr (Z.land w2 CSD1VN_READ_BL_LEN) CSD1VN_READ_BL_LEN_SHIFT = csd_field R 83 80) as E2
    by (by apply word_field).
  assert (Z.shiftr (Z.land w1 CSD2V1_C_SIZE_MULT) CSD2V1_C_SIZE_MULT_SHIFT = csd_field R 49 47) as E3
    by (by apply word_field).
  assert (Z.shiftr (Z.land w1 CSD2V2_C_SIZE) CSD2V2_C_SIZE_SHIFT = csd_field R 69 48) as E4
    by (by apply word_field).
  assert (Z.shiftr (Z.land w1 CSD2V1_C_SIZEL) CSD2V1_C_SIZEL_SHIFT = (R / 2 ^ 62) mod 2 ^ 10) as E5
    by (by apply word_field).
  assert (Z.shiftr (Z.land w2 CSD1V1_C_SIZEH) 0 = (R / 2 ^ 72) mod 2 ^ 2) as E6 by (by apply word_field).
  rewrite Z.shiftr_0_r in E6. split.
  2:{ change CSD3VN_FILE_FORMAT with (Z.shiftl (Z.ones 2) 2). rewrite land_bits by done. f_equal.
      unfold w0. rewrite div_mod_pow, Z.div_div, <-Z.pow_add_r by done. by apply mod_mod_pow. }
  unfold csd_capacity, CSD0_V1. rewrite <-E1. change CSD0_VERSION with (Z.shiftl (Z.ones 2) 22).
  rewrite (mask_zero w3 22 2) by done. destruct (_ =? 0).
  - rewrite E2, E3, E5, E6. unfold CSD1V1_C_SIZEH_SHIFT. rewrite Z.shiftl_mul_pow2, !Z.shiftl_1_l by done.
    assert (R / 2 ^ 72 = R / 2 ^ 62 / 2 ^ 10) as -> by (by rewrite Z.div_div, <-Z.pow_add_r).
    rewrite join_fields by done. change ((R / 2 ^ 62) mod 2 ^ (10 + 2)) with (csd_field R 73 62).
    pose proof (csd_field_range R 73 62 ltac:(lia)) as R1. change (2 ^ (73 - 62 + 1)) with 4096 in R1.
    pose proof (csd_field_range R 49 47 ltac:(lia)) as R2. change (2 ^ (49 - 47 + 1)) with 8 in R2.
    pose proof (csd_field_range R 83 80 ltac:(lia)) as R3. change (2 ^ (83 - 80 + 1)) with 16 in R3.
    pose proof (pow_small (csd_field R 49 47 + 2) 9 ltac:(lia)) as P1. change (2 ^ 9) with 512 in P1.
    pose proof (pow_small (csd_field R 83 80) 15 ltac:(lia)) as P2. change (2 ^ 15) with 32768 in P2.
    set (m := 2 ^ (_ + 2)) in *. set (b := 2 ^ csd_field R 83 80) in *. set (z := csd_field R 73 62) in *.
    assert (0 ≤ (z + 1) * m ≤ 4096 * 512) by nia. assert (0 ≤ (z + 1) * m * b ≤ 4096 * 512 * 32768) by nia.
    rewrite !i32_id by (change (2 ^ 31) with 2147483648; lia).
    rewrite (i64_id ((z + 1) * m)) by (change (2 ^ 63) with 9223372036854775808; lia).
    rewrite i64_id by (change (2 ^ 63) with 9223372036854775808; lia).
    apply u64_id. change (2 ^ 64) with 18446744073709551616. lia.
  - rewrite E4. pose proof (csd_field_range R 69 48 ltac:(lia)) as R1.
    change (2 ^ (69 - 48 + 1)) with 4194304 in R1.
    rewrite i64_id, u64_id; change (2 ^ 63) with 9223372036854775808; change (2 ^ 64) with 18446744073709551616; lia.
Qed.

(** an 8 GB card: version 2 with [C_SIZE] 15159 *)
Definition csd_ex : Z := 2 ^ 126 + 15159 * 2 ^ 48.
Definition card_ex : SDDescriptor :=
  mkCard 0 [] (csd_words csd_ex) [] 0 0 0 0 0 0 0 0 0 0 None 0.
Lemma sdParseCSD_correct_witness :
  capacity (sdParseCSD card_ex) = 15160 * 512 * 1024 ∧ fileFormat (sdParseCSD card_ex) = 0.
Proof.
  destruct (sdParseCSD_correct csd_ex card_ex ltac:(split; [discriminate|reflexivity]) eq_refl) as [E1 E2].
  split; [rewrite E1; reflexivity|rewrite E2; reflexivity].
Defined.

(** ** Setting a card up ends *)

Section total.
Context {D : Type} `{device D}.
Local Notation E := (M (sdst D)).
Implicit Types (Pc : SDDescriptor → Prop).

(** an assertion on the card descriptor: what the controller does is arbitrary *)
Definition at_card Pc (s : sdst D) : Prop := Pc (card s).
(** the card is not marked as initialised; and there is a last command to show in the debug
    messages *)
Definition fresh (c : SDDescriptor) : Prop := cinit c = 0.
Definition sent (c : SDDescriptor) : Prop := is_Some (lastCmd c) ∧ fresh c.

Lemma stable_hw {A} Pc (m : M D A) : (∀ d, ∃ a d', m d = Ok (a, d')) → stable (at_card Pc) (hw m).
Proof. intros Hm. by apply stable_on. Qed.
Lemma stable_rd Pc a : stable (at_card Pc) (rd a).
Proof. apply stable_hw. intros d. unfold device_get_u32. destruct (dev_read a d). eauto. Qed.
Lemma stable_wr Pc a v : stable (at_card Pc) (wr a v).
Proof. apply stable_hw. intros d. unfold device_put_u32. rewrite modify_run. eauto. Qed.
Lemma stable_delayus Pc n : stable (at_card Pc) (sd_delayus n).
Proof. apply stable_hw. intros d. unfold delay_us. rewrite modify_run. eauto. Qed.
Lemma stable_delay Pc n : stable (at_card Pc) (hw (delay n)).
Proof. apply stable_hw. intros d. unfold delay. rewrite modify_run. eauto. Qed.
Lemma stable_upd Pc (f : SDDescriptor → SDDescriptor) : (∀ c, Pc c → Pc (f c)) → stable (at_card Pc) (upd_card f).
Proof. intros Hf. apply stable_modify. intros s. apply Hf. Qed.
#[local] Hint Resolve stable_rd stable_wr stable_delayus stable_delay : stable.

Lemma stable_bits Pc a m : stable (at_card Pc) (bits a m).
Proof. unfold bits. stay. Qed.
#[local] Hint Resolve stable_bits : stable.
Lemma stable_show Pc l : stable (at_card Pc) (show l).
Proof. unfold show. stay. Qed.
#[local] Hint Resolve stable_show : stable.
Lemma stable_busy Pc a1 m1 a2 m2 : stable (at_card Pc) (busy a1 m1 a2 m2).
Proof. unfold busy. stay. Qed.
#[local] Hint Resolve stable_busy : stable.

Lemma stable_poll Pc cond body n :
  stable (at_card Pc) cond → stable (at_card Pc) body → stable (at_card Pc) (poll cond body n).
Proof. intros Hc Hb. induction n; cbn [poll]; stay. Qed.
Lemma stable_poll_pre Pc cond body n :
  stable (at_card Pc) cond → stable (at_card Pc) body → stable (at_card Pc) (poll_pre cond body n).
Proof.
  intros Hc Hb. induction n as [|n IH]; cbn [poll_pre]; [stay|]. apply stable_bind; [done|].
  intros []; [|stay]. destruct n; stay.
Qed.

Lemma stable_wait Pc mask : stable (at_card Pc) (sdWaitForInterrupt mask).
Proof.
  unfold sdWaitForInterrupt. apply stable_bind; [apply stable_poll; stay|]. stay.
Qed.
Lemma stable_wait_command Pc : stable (at_card Pc) sdWaitForCommand.
Proof. unfold sdWaitForCommand. apply stable_bind; [apply stable_poll; stay|]. stay. Qed.
Lemma stable_wait_data Pc : stable (at_card Pc) sdWaitForData.
Proof. unfold sdWaitForData. apply stable_bind; [apply stable_poll_pre; stay|]. stay. Qed.
#[local] Hint Resolve stable_wait stable_wait_command stable_wait_data : stable.

Lemma debug_returns r : stable (at_card sent) (sdDebugResponse r).
Proof.
  unfold sdDebugResponse. apply (returns_bind _ _ _ (λ _, at_card sent)).
  { apply returns_getopt. intros s [[i Hi] Hf]. exists i. split; [done|]. split; [by exists i|done]. }
  intros i. stay.
Qed.
#[local] Hint Resolve debug_returns : stable.

Definition responses : list Z := [RESP_NO; RESP_R1; RESP_R1b; RESP_R2I; RESP_R2S; RESP_R3; RESP_R6; RESP_R7].
Lemma table_responses : Forall (λ c, resp c ∈ responses) sdCommandTable.
Proof. by_decision. Qed.

(** the changes to the descriptor that keep the last command *)
Ltac stay_sent :=
  repeat first
    [ match goal with |- returns _ (upd_card _) _ => apply stable_upd; intros ? [[? ?] ?]; split; [eexists; eassumption|assumption] end
    | progress stay ].

Lemma response_sent r arg resp0 : r ∈ responses → stable (at_card sent) (response r arg resp0).
Proof.
  intros Hr. unfold responses in Hr. unfold response.
  repeat (apply elem_of_cons in Hr as [->|Hr]); [..|by apply elem_of_nil in Hr];
    repeat match goal with |- context [if ?b then _ else _] =>
      match b with context [RESP_NO] => idtac | context [RESP_R1] => idtac | context [RESP_R2I] => idtac
        | context [RESP_R3] => idtac | context [RESP_R6] => idtac | context [RESP_R7] => idtac end;
      let v := eval vm_compute in b in change b with v; cbv iota end; stay_sent.
Qed.

Lemma set_last_sent i : returns (at_card fresh) (upd_card (set_lastCmd (Some i))) (λ _, at_card sent).
Proof. apply returns_modify. intros s Hs. split; [by exists i|done]. Qed.

(** A command leaves itself behind as the last one, unless the controller was busy. *)
Lemma sdSendCommandP_sent index arg :
  0 ≤ index < 39 →
  returns (at_card fresh) (sdSendCommandP index arg) (λ r s, at_card sent s ∨ r = SD_BUSY ∧ at_card fresh s) ∧
  stable (at_card sent) (sdSendCommandP index arg).
Proof.
  intros Hi. destruct (lookup_lt_is_Some_2 sdCommandTable (Z.to_nat index)) as [cmd Ec]; [vm_compute length; lia|].
  pose proof (proj1 (Forall_lookup _ _) table_responses _ _ Ec) as Hr. cbv beta in Hr.
  assert (∀ P Q, returns P (w ← sdWaitForCommand; if negb (w =? 0) then mret SD_BUSY else
      upd_card (set_lastCmd (Some index));; upd_card (set_lastArg (u32 arg));;
      v ← rd EMMC_INTERRUPT; wr EMMC_INTERRUPT v;; wr EMMC_ARG1 (u32 arg);; wr EMMC_CMDTM (code cmd);;
      when (negb (delay_ cmd =? 0)) (sd_delayus (u32 (delay_ cmd)));;
      result ← sdWaitForInterrupt INT_CMD_DONE;
      if negb (result =? 0) then mret result else r0 ← rd EMMC_RESP0; response (resp cmd) arg (i32 r0)) Q →
    returns P (sdSendCommandP index arg) Q) as Hcmd.
  { intros P Q HR s Hs. unfold sdSendCommandP. rewrite (bind_Ok _ _ s cmd s) by (by apply getopt_run).
    by apply HR. }
  assert (stable (at_card sent) (upd_card (set_lastArg (u32 arg));;
      v ← rd EMMC_INTERRUPT; wr EMMC_INTERRUPT v;; wr EMMC_ARG1 (u32 arg);; wr EMMC_CMDTM (code cmd);;
      when (negb (delay_ cmd =? 0)) (sd_delayus (u32 (delay_ cmd)));;
      result ← sdWaitForInterrupt INT_CMD_DONE;
      if negb (result =? 0) then mret result else r0 ← rd EMMC_RESP0; response (resp cmd) arg (i32 r0))) as Htail.
  { stay_sent. by apply response_sent. }
  split; apply Hcmd.
  - apply (returns_bind _ _ _ (λ _, at_card fresh)); [stay|].
    intros w. destruct (negb (w =? 0)); [apply returns_ret; by right|].
    eapply returns_bind; [apply set_last_sent|]. intros [].
    eapply returns_post; [exact Htail|]. intros a s Ha. by left.
  - apply stable_bind; [stay|]. intros w. destruct (negb (w =? 0)); [stay|].
    apply stable_bind; [|intros; exact Htail].
    apply stable_upd. intros c [_ Hf]. split; [by exists index|done].
Qed.

Lemma sent_fresh s : at_card sent s → at_card fresh s.
Proof. by intros [_ Hf]. Qed.

Lemma stable_command index arg : 0 ≤ index < 39 → stable (at_card sent) (sdSendCommandP index arg).
Proof. apply sdSendCommandP_sent. Qed.
#[local] Hint Extern 1 (returns _ (sdSendCommandP _ _) _) =>
  apply stable_command; unfold IX_APP_CMD, IX_APP_CMD_RCA; lia : stable.

Lemma app_command_sent : stable (at_card sent) sdSendAppCommand.
Proof. unfold sdSendAppCommand. stay_sent. Qed.
#[local] Hint Resolve app_command_sent : stable.

Lemma send_sent index arg : 0 ≤ index < 39 → stable (at_card sent) arg → stable (at_card sent) (send_with index arg).
Proof. intros Hi Ha. unfold send_with. stay_sent. Qed.

Lemma sendA_sent index arg : 0 ≤ index < 39 → stable (at_card sent) (sdSendCommandA index arg).
Proof. intros Hi. apply send_sent; [done|stay]. Qed.

Lemma rca_arg Pc index : 0 ≤ index < 39 → stable (at_card Pc)
  (cmd ← getopt (λ _ : sdst D, sdCommandTable !! Z.to_nat index);
   c ← gets card; mret (if rca_ cmd =? RCA_YES then i32 (rca c) else 0)).
Proof.
  intros Hi. destruct (lookup_lt_is_Some_2 sdCommandTable (Z.to_nat index)) as [cmd Ec]; [vm_compute length; lia|].
  apply (returns_bind _ _ _ (λ _, at_card Pc)); [|stay].
  apply returns_getopt. intros s Hs. by exists cmd.
Qed.

Lemma send_command_sent index : 0 ≤ index < 39 → stable (at_card sent) (sdSendCommand index).
Proof. intros Hi. apply send_sent; [done|by apply rca_arg]. Qed.

#[local] Hint Extern 1 (returns _ (sdSendCommand _) _) => apply send_command_sent; split; [discriminate|reflexivity] : stable.
#[local] Hint Extern 1 (returns _ (sdSendCommandA _ _) _) => apply sendA_sent; split; [discriminate|reflexivity] : stable.

(** A command that needs no APP_CMD before it can be the first one. *)
Lemma first_command index :
  0 ≤ index < IX_APP_CMD_START → returns (at_card fresh) (sdSendCommand index)
    (λ r s, at_card fresh s ∧ (r = 0 → at_card sent s)).
Proof.
  unfold IX_APP_CMD_START. intros Hi. unfold sdSendCommand, send_with.
  assert (index >=? IX_APP_CMD_START = false) as -> by (rewrite Z.geb_leb; apply Z.leb_gt; unfold IX_APP_CMD_START; lia).
  apply (returns_bind _ _ _ (λ r s, r = 0 ∧ at_card fresh s)); [by apply returns_ret|].
  intros r. apply returns_fact. intros ->. cbn [Z.eqb negb].
  apply (returns_bind _ _ _ (λ _, at_card fresh)); [apply rca_arg; lia|]. intros arg.
  eapply returns_bind; [apply sdSendCommandP_sent; lia|]. intros r. cbn [andb].
  intros s Hs. assert (at_card fresh s) as Hf by (destruct Hs as [Hs|[_ Hs]]; [by apply sent_fresh|done]).
  exists r, s. split; [by destruct (negb (r =? 0))|]. split; [done|].
  intros ->. by destruct Hs as [?|[[=] _]].
Qed.

Lemma stable_bail Pc m k : stable (at_card Pc) m → stable (at_card Pc) k → stable (at_card Pc) (bail m k).
Proof. intros Hm Hk. unfold bail. stay. Qed.

(** an early return of an error, with the end [Q] of what follows *)
Lemma bail_debug_returns (m k : E Z) Q :
  stable (at_card sent) m → (∀ r s, at_card sent s → Q r s) → returns (at_card sent) k Q →
  returns (at_card sent) (bail_debug m k) Q.
Proof.
  intros Hm HQ Hk. unfold bail_debug. eapply returns_bind; [exact Hm|]. intros r. cbv beta.
  destruct (negb (r =? 0)); [|exact Hk]. eapply returns_post; [apply debug_returns|]. exact HQ.
Qed.
Lemma bail_returns P (m k : E Z) R Q :
  returns P m R → (∀ r s, R r s → r ≠ 0 → Q r s) → returns (R 0) k Q → returns P (bail m k) Q.
Proof.
  intros Hm HQ Hk. unfold bail. eapply returns_bind; [exact Hm|]. intros r.
  destruct (Z.eqb_spec r 0) as [->|Hr]; cbn [negb]; [exact Hk|]. apply returns_ret. intros s Hs. by apply HQ.
Qed.

(** *** The loops of the set-up *)

Lemma scr_loop_sent fuel : ∀ n c, 0 ≤ n ≤ 2 → 0 < c → 2 - n + c < Z.of_nat fuel →
  stable (at_card sent) (scr_loop fuel n c).
Proof.
  induction fuel as [|fuel IH]; intros n c Hn Hc Hf; [lia|]. cbn [scr_loop].
  destruct (Z.ltb_spec n 2); [|stay]. apply stable_bind; [stay|]. intros [].
  - apply stable_bind; [stay|]. intros v. apply stable_bind; [stay_sent|]. intros _. apply IH; lia.
  - apply stable_bind; [stay|]. intros _. destruct (Z.eqb_spec (c - 1) 0); [stay|]. apply IH; lia.
Qed.

Lemma sdReadSCR_sent : stable (at_card sent) sdReadSCR.
Proof.
  unfold sdReadSCR. apply stable_bind; [stay|]. intros w. destruct (negb (w =? 0)); [stay|].
  apply stable_bind; [stay|]. intros _.
  apply bail_debug_returns; [stay|done|]. apply bail_debug_returns; [stay|done|].
  apply stable_bind; [|intros n; stay_sent]. apply scr_loop_sent; [lia|lia|].
  rewrite Z2Nat.id by lia. lia.
Qed.

Lemma sdSetClock_stable Pc freq : stable (at_card Pc) (sdSetClock freq).
Proof.
  unfold sdSetClock. apply stable_bind; [apply stable_poll_pre; stay|]. intros count.
  destruct (count <=? 0); [stay|].
  do 10 (apply stable_bind; [stay|]; intros ?).
  apply stable_bind; [apply stable_poll; stay|]. stay.
Qed.

Lemma sdResetCard_sent resetType :
  returns (at_card fresh) (sdResetCard resetType) (λ r s, at_card fresh s ∧ (r = 0 → at_card sent s)).
Proof.
  unfold sdResetCard.
  do 4 (apply (returns_bind _ _ _ (λ _, at_card fresh)); [stay|]; intros ?).
  apply (returns_bind _ _ _ (λ _, at_card fresh)); [apply stable_poll; stay|]. intros count.
  destruct (count <=? 0); [by apply returns_ret|].
  do 3 (apply (returns_bind _ _ _ (λ _, at_card fresh)); [stay|]; intros ?).
  apply (bail_returns _ _ _ (λ _, at_card fresh)); [apply sdSetClock_stable|done|].
  do 3 (apply (returns_bind _ _ _ (λ _, at_card fresh)); [first [by apply stable_upd | stay]|]; intros ?).
  by apply first_command.
Qed.

Lemma opcond_sent arg n : stable (at_card sent) (opcond_loop arg n).
Proof. induction n; cbn [opcond_loop]; stay. Qed.
Lemma sdAppSendOpCond_sent arg : stable (at_card sent) (sdAppSendOpCond arg).
Proof.
  unfold sdAppSendOpCond. do 2 (apply stable_bind; [stay|]; intros ?).
  destruct (negb _ && negb _); [stay|]. apply stable_bind; [apply opcond_sent|]. stay.
Qed.

Lemma sdInitGPIO_stable Pc : stable (at_card Pc) sdInitGPIO.
Proof. unfold sdInitGPIO, pull_up. stay. Qed.

Section parts.
(** what is to hold in the end, which returning early with an error satisfies *)
Context (Q : Z → sdst D → Prop) (HQ : ∀ r s, at_card fresh s → Q r s).

Lemma early_sent r s : at_card sent s → Q r s.
Proof using HQ. intros Hs. by apply HQ, sent_fresh. Qed.

Lemma bail_debug_sent (m k : E Z) :
  stable (at_card sent) m → returns (at_card sent) k Q → returns (at_card sent) (bail_debug m k) Q.
Proof using HQ. intros Hm Hk. apply bail_debug_returns; [done|apply early_sent|done]. Qed.

(** an early return of something that may have reset the card *)
Lemma bail_reset P (m k : E Z) :
  returns P m (λ r s, at_card fresh s ∧ (r = 0 → at_card sent s)) → returns (at_card sent) k Q →
  returns P (bail m k) Q.
Proof using HQ.
  intros Hm Hk. eapply bail_returns; [exact Hm|intros r s [Hf _] _; by apply HQ|].
  eapply returns_pre, Hk. intros s [_ Hs]. by apply Hs.
Qed.

Lemma stable_reset (m : E Z) :
  stable (at_card sent) m → returns (at_card sent) m (λ r s, at_card fresh s ∧ (r = 0 → at_card sent s)).
Proof using. intros Hm. eapply returns_post; [exact Hm|]. intros r s Hs. split; [by apply sent_fresh|done]. Qed.

Lemma sd_kind_returns k : returns (at_card sent) k Q → returns (at_card sent) (sd_kind k) Q.
Proof using HQ.
  intros Hk. unfold sd_kind. apply (returns_bind _ _ _ (λ _, at_card sent)); [stay|]. intros r.
  destruct (r =? SD_OK).
  { apply (returns_bind _ _ _ (λ _, at_card sent)); [stay|]. intros _.
    apply bail_debug_sent; [apply sdAppSendOpCond_sent|].
    apply (returns_bind _ _ _ (λ _, at_card sent)); [stay_sent|]. intros _. exact Hk. }
  destruct (r =? SD_BUSY); [apply returns_ret, early_sent|].
  apply bail_reset.
  { apply (returns_bind _ _ _ (λ _, at_card sent)); [stay|]. intros [].
    - eapply returns_pre; [apply sent_fresh|apply sdResetCard_sent].
    - apply stable_reset. stay. }
  apply bail_debug_sent; [apply sdAppSendOpCond_sent|].
  apply (returns_bind _ _ _ (λ _, at_card sent)); [stay_sent|]. intros _. exact Hk.
Qed.

Lemma sd_identify_returns k : returns (at_card sent) k Q → returns (at_card sent) (sd_identify k) Q.
Proof using HQ.
  intros Hk. unfold sd_identify. apply bail_reset; [apply stable_reset; unfold sdSwitchVoltage; stay|].
  do 3 (apply bail_debug_sent; [stay|]).
  apply (returns_bind _ _ _ (λ _, at_card sent)); [stay_sent|]. intros _.
  apply (returns_bind _ _ _ (λ _, at_card sent)); [stay|]. intros c.
  destruct (_ && _); [apply returns_ret, early_sent|].
  apply bail_debug_sent; [apply sdSetClock_stable|].
  apply bail_debug_sent; [stay|].
  apply bail_debug_sent; [apply sdReadSCR_sent|].
  apply bail_debug_sent; [stay|].
  apply bail_debug_sent; [stay|exact Hk].
Qed.
End parts.

(** how setting up can end *)
Definition init_end (s : sdst D) (r : Z) (s' : sdst D) : Prop :=
  cinit (card s) ≠ 0 ∧ r = SD_OK ∧ cinit (card s') ≠ 0 ∨
  (r = SD_CARD_CHANGED ∨ r = SD_CARD_REINSERTED) ∧ cinit (card s') = 1 ∨
  cinit (card s') = 0.

(** C26: Setting the card up ends, whatever the controller answers: no register value makes the
    driver loop for ever, send a command it has not got, or look at the last command before
    there is one, provided the firmware answers the mailbox.  The card is marked as initialised
    only when every step has succeeded. *)
Theorem sdInit_total fuel buf :
  (∀ d : D, ∃ r d', mbox_get_clock_rate fuel buf d = Ok (r, d')) →
  ∀ s : sdst D, ∃ r s', sdInit fuel buf s = Ok (r, s') ∧ init_end s r s'.
Proof.
  intros Hmbox s0.
  assert (∀ r s, at_card fresh s → init_end s0 r s) as HQ by (intros r s Hs; right; right; exact Hs).
  cut (returns (λ s, s = s0) (sdInit fuel buf) (init_end s0)); [intros Hr; by apply Hr|].
  unfold sdInit. eapply returns_bind; [apply returns_gets|]. intros c. cbv beta.
  eapply (returns_pre (λ s, c = card s0 ∧ s = s0)); [by intros s [-> ->]|]. apply returns_fact. intros ->.
  apply (returns_bind _ _ _ (λ _, at_card (λ c, cinit c = cinit (card s0)))).
  { eapply (returns_pre (at_card (λ c, cinit c = cinit (card s0)))); [by intros s ->|].
    apply stable_when, sdInitGPIO_stable. }
  intros _. apply (returns_bind _ _ _ (λ _, at_card (λ c, cinit c = cinit (card s0)))); [stay|].
  intros ej. apply (returns_bind _ _ _ (λ _, at_card (λ c, cinit c = cinit (card s0)))); [by apply stable_upd|].
  intros _. eapply returns_bind; [apply returns_gets|]. intros c. cbv beta.
  set (old := if ej && _ then cid c else _).
  apply (returns_bind _ _ _ (λ _, at_card (λ c, cinit c = 0 ∨ cinit (card s0) ≠ 0 ∧ cinit c ≠ 0))).
  { destruct (ej && negb (cinit c =? 0)); cbn [when].
    - apply returns_modify. intros s _. by left.
    - apply returns_ret. intros s [_ Hs]. unfold at_card in *. destruct (decide (cinit (card s) = 0)); [by left|].
      right. by rewrite <-Hs. }
  intros _. eapply returns_bind; [apply returns_gets|]. intros c'. cbv beta.
  destruct (Z.eqb_spec (cinit c') 0) as [E0|E0]; cbn [negb].
  2:{ apply returns_ret. intros s [-> [Hs|[H1 H2]]]; [done|]. left. done. }
  apply (returns_pre (at_card fresh)); [by intros s [-> _]|].
  apply (returns_bind _ _ _ (λ _, at_card fresh)); [stay|]. intros v.
  apply (returns_bind _ _ _ (λ _, at_card fresh)); [by apply stable_modify|]. intros _.
  apply (bail_returns _ _ _ (λ _, at_card fresh)); [|intros r s Hs _; by apply HQ|].
  { unfold sdGetBaseClock. apply stable_bind; [by apply stable_hw|]. intros r.
    apply stable_bind; [by apply stable_modify|]. stay. }
  apply bail_reset; [done|apply sdResetCard_sent|].
  apply sd_kind_returns; [done|]. apply sd_identify_returns; [done|].
  apply (returns_bind _ _ _ (λ _, at_card sent)); [stay|]. intros _.
  apply (returns_bind _ _ _ (λ _, at_card (λ c, cinit c = 1))); [by apply returns_modify|]. intros _.
  eapply returns_bind; [apply returns_gets|]. intros c2. apply returns_ret. intros s [_ Hs].
  right; left. split; [|exact Hs]. destruct (decide _); [by right|by left].
Qed.
End total.

(** a controller that never does anything, beside a firmware that answers *)
#[local] Instance dead : device unit :=
  {| dev_read := λ a d, (if a =? MBOX_READ then 8 else 0, d); dev_write := λ _ _ d, d; dev_delay_us := λ _ d, d; dev_delay := λ _ d, d;
     dev_buffer := λ _ l _, l |}.
Lemma sdInit_total_witness :
  ∃ r s', sdInit 16 (KSPACE_MASK + 0x100000) (mkSd card_ex 0 0 tt) = Ok (r, s') ∧
    init_end (mkSd card_ex 0 0 tt) r s'.
Proof.
  apply (sdInit_total 16 (KSPACE_MASK + 0x100000)). intros []. eexists _, _. vm_compute. reflexivity.
Defined.
