(* ===== verification/Sd.v ===== *)
(** * The request queue of the SD card: [driver/sd.c], [fs/block_device.c]

    Requests wait in a list; the first one is the one the controller works on, and its interrupt
    finishes it, wakes whoever asked, and starts the next.  A [buf] is named by its address. *)

From Stdlib Require Import ZArith Lia.
From S2P Require Import Prelude Words Sync Layout Device Emmc.

Definition B_VALID : Z := 0x2.
Definition B_DIRTY : Z := 0x4.

Record buf := mkBuf { flags : Z; blockno : Z; data : list Z; bufsem : Semaphore }.
Definition set_flags (v : Z) (x : buf) : buf := mkBuf v (blockno x) (data x) (bufsem x).
Definition set_data (v : list Z) (x : buf) : buf := mkBuf (flags x) (blockno x) v (bufsem x).
Definition set_bufsem (v : Semaphore) (x : buf) : buf := mkBuf (flags x) (blockno x) (data x) v.

(** the controller, [sdlock], [buflist], the buffers in memory, the [WaitData] of threads asleep
    on one of them and the processes woken, latest first *)
Record drv (D : Type) := mkDrv {
  emmc : sdst D; sdlock : bool; buflist : list Z; bufs : gmap Z buf;
  bwaits : gmap Z WaitData; woken : list Z }.
Arguments mkDrv {D} _ _ _ _ _ _.
Arguments emmc {D} _.
Arguments sdlock {D} _.
Arguments buflist {D} _.
Arguments bufs {D} _.
Arguments bwaits {D} _.
Arguments woken {D} _.

Section sd.
Context {D : Type} `{device D}.
Local Notation Q := (M (drv D)).

Definition put_emmc (e : sdst D) (s : drv D) : drv D := mkDrv e (sdlock s) (buflist s) (bufs s) (bwaits s) (woken s).
Definition put_sdlock (b : bool) (s : drv D) : drv D := mkDrv (emmc s) b (buflist s) (bufs s) (bwaits s) (woken s).
Definition put_buflist (l : list Z) (s : drv D) : drv D := mkDrv (emmc s) (sdlock s) l (bufs s) (bwaits s) (woken s).
Definition put_bufs (l : gmap Z buf) (s : drv D) : drv D := mkDrv (emmc s) (sdlock s) (buflist s) l (bwaits s) (woken s).
Definition put_waits (w : gmap Z WaitData) (l : list Z) (s : drv D) : drv D :=
  mkDrv (emmc s) (sdlock s) (buflist s) (bufs s) w l.

Definition ctl {A} (m : M (sdst D) A) : Q A := on emmc put_emmc m.
Definition sdlock_ : SpinLock (drv D) := mkSpinLock sdlock put_sdlock.
Definition buf_at (b : Z) : Q buf := getopt (λ s, bufs s !! b).
Definition set_buf (b : Z) (f : buf → buf) : Q unit :=
  x ← buf_at b; modify (λ s, put_bufs (<[b := f x]> (bufs s)) s).

(** an operation on the semaphore of the buffer at [b] *)
Definition buf_sem {A} (b : Z) (m : M semst A) : Q A := λ s,
  match bufs s !! b with
  | None => Fault
  | Some x =>
      match m (mkSemst (bufsem x) (bwaits s) (woken s)) with
      | Ok (a, r) => Ok (a, put_waits (waits r) (activated r) (put_bufs (<[b := set_bufsem (sem r) x]> (bufs s)) s))
      | Panic => Panic | Fault => Fault | Sleep => Sleep | Spin => Spin | NoFuel => NoFuel
      end
  end.

(** [sdInit] is given what bounds the waits for the mailbox, and the address of its request; the
    handlers are set through [set_handlers] *)
Definition sd_init (fuel : nat) (mbuf : Z) (set_handlers : Q unit) : Q unit :=
  ctl (sdInit fuel mbuf);;
  modify (put_sdlock false);;
  modify (put_buflist []);;
  set_handlers.

(** what the card is given as the address of a block *)
Definition card_address (type blockno : Z) : Z :=
  if type =? SD_TYPE_2_HC then i32 blockno else i32 (Z.shiftl (i32 blockno) 9).

(** the address of [b->data] *)
Definition data_of (b : Z) : Z := b + 8.

Definition sd_start (b : Z) : Q unit :=
  x ← buf_at b;
  c ← ctl (gets card);
  let bno := card_address (ctype c) (blockno x) in
  let write := Z.land (flags x) B_DIRTY in
  v ← ctl (rd EMMC_INTERRUPT);
  assert (v =? 0);;
  let cmd := if negb (write =? 0) then IX_WRITE_SINGLE else IX_READ_SINGLE in
  ctl (wr EMMC_BLKSIZECNT 512);;
  resp ← ctl (sdSendCommandA cmd bno);
  assert (resp =? 0);;
  assert (Z.land (data_of b) 0x03 =? 0);;
  when (negb (write =? 0))
    (resp ← ctl (sdWaitForInterrupt INT_WRITE_RDY);
     assert (resp =? 0);;
     v ← ctl (rd EMMC_INTERRUPT);
     assert (v =? 0);;
     for_each (zseq 0 128) (λ done,
       x ← buf_at b;
       ctl (wr EMMC_DATA (le_dec (sub (4 * Z.to_nat done) 4 (data x)))))).

Definition sd_intr : Q unit :=
  acquire_spinlock sdlock_;;
  l ← gets buflist;
  t ← getopt (λ _, l !! 0%nat);
  x ← buf_at t;
  (if negb (Z.land (flags x) B_DIRTY =? 0) then ctl (sdWaitForInterrupt INT_DATA_DONE);; mret tt
   else when (Z.land (flags x) B_VALID =? 0)
     (resp ← ctl (sdWaitForInterrupt INT_READ_RDY);
      assert (resp =? 0);;
      v ← ctl (rd EMMC_INTERRUPT);
      assert (v =? 0);;
      for_each (zseq 0 128) (λ done,
        v ← ctl (rd EMMC_DATA);
        set_buf t (λ x, set_data (splice (4 * Z.to_nat done) (le_enc 4 v) (data x)) x));;
      ctl (sdWaitForInterrupt INT_DATA_DONE);; mret tt));;
  modify (λ s, put_buflist (filter (λ b, b ≠ t) (buflist s)) s);;
  set_buf t (set_flags B_VALID);;
  buf_sem t post_sem;;
  l ← gets buflist;
  (match l with [] => mret tt | next :: _ => sd_start next end);;
  release_spinlock sdlock_.

(** [sdrw] up to its loop *)
Definition sdrw_begin (b : Z) : Q unit :=
  acquire_spinlock sdlock_;;
  set_buf b (set_bufsem (init_sem 0));;
  modify (λ s, put_buflist (buflist s ++ [b]) s);;
  l ← gets buflist;
  t ← getopt (λ _, l !! 0%nat);
  when (t =? b) (sd_start t);;
  release_spinlock sdlock_.

(** A thread asleep with the [WaitData] [w]: nothing runs but the card's interrupts, until it is
    woken up. *)
Fixpoint asleep (fuel : nat) (w : Z) : Q unit :=
  match fuel with
  | O => nofuel
  | S fuel =>
      wd ← getopt (λ s, bwaits s !! w);
      if up wd then mret tt else sd_intr;; asleep fuel w
  end.

(** [while ((b->flags & (B_VALID | B_DIRTY)) != B_VALID) unalertable_wait_sem(&b->bufsem)], by the
    process [me], with [w] for its [WaitData] *)
Fixpoint sdrw_wait (fuel : nat) (w me b : Z) : Q unit :=
  match fuel with
  | O => nofuel
  | S fuel =>
      x ← buf_at b;
      if Z.land (flags x) (Z.lor B_VALID B_DIRTY) =? B_VALID then mret tt
      else
        got ← buf_sem b (wait_sem_begin w me);
        (if (got : bool) then mret tt else asleep fuel w;; buf_sem b (wait_sem_end w);; mret tt);;
        sdrw_wait fuel w me b
  end.

Definition sdrw (w me b : Z) : Q unit :=
  sdrw_begin b;;
  n ← gets (λ s, length (buflist s));
  sdrw_wait (n + 3) w me b.

(** ** The block device *)

Definition BLOCKNO_OFFSET : Z := 0x20800.

(** [b] is the address of the [buf] on the stack, [junk] what is in the array *)
Definition sd_read (w me b : Z) (junk : list Z) (block_no : Z) : Q (list Z) :=
  modify (λ s, put_bufs (<[b := mkBuf 0 (u32 (u32 block_no + BLOCKNO_OFFSET)) junk (mkSem 0 [])]> (bufs s)) s);;
  sdrw w me b;;
  x ← buf_at b;
  mret (take (Z.to_nat BLOCK_SIZE) (data x)).

Definition sd_write (w me b : Z) (junk : list Z) (block_no : Z) (buffer : list Z) : Q unit :=
  modify (λ s, put_bufs (<[b := mkBuf (Z.lor B_DIRTY B_VALID) (u32 (u32 block_no + BLOCKNO_OFFSET))
    (splice 0 (take (Z.to_nat BLOCK_SIZE) buffer) junk) (mkSem 0 [])]> (bufs s)) s);;
  sdrw w me b.

(** the super block, which [get_super_block] gives a pointer to *)
Definition init_block_device (fuel : nat) (mbuf : Z) (set_handlers console_init : Q unit) (w me b : Z)
    (junk : list Z) : Q SuperBlock :=
  sd_init fuel mbuf set_handlers;;
  sblock_data ← sd_read w me b junk 1;
  console_init;;
  mret (dec_super sblock_data).
End sd.
