(* ===== verification/SdSpec.v ===== *)
(** * The SD card as an array of blocks, served first come, first served

    [sd_controller] states what the driver relies on in the controller and the card behind it: a
    command runs through the phases below, and the controller sets the interrupt bit that ends a
    phase within the second the driver waits for it.  [SdSim] has a controller that keeps these
    laws. *)

From Stdlib Require Import ZArith Lia.
From S2P Require Import Prelude Total Words Sync Layout Device Emmc EmmcSpec Sd.

(** ** The controller *)

(** what a controller is doing: nothing, with the argument register at [a]; a command that reads
    or writes ([wr]) the block at address [a] is under way, accepted, moving its words (those to
    deliver, or those received), or about to end *)
Inductive phase :=
  | Idle (a : Z)
  | Command (wr : bool) (a : Z)
  | Ready (wr : bool) (a : Z)
  | Moving (wr : bool) (a : Z) (words : list Z)
  | Finishing (a : Z).

(** the blocks of the card by address, the phase, and whether the interrupt bit that ends it has
    been seen *)
Record cardst := mkCardst { blocks : Z → list Z; ph : phase; seen : bool }.

(** the bit that ends a phase *)
Definition event (p : phase) : Z :=
  match p with
  | Idle _ | Moving _ _ _ => 0
  | Command _ _ => INT_CMD_DONE
  | Ready false _ => INT_READ_RDY
  | Ready true _ => INT_WRITE_RDY
  | Finishing _ => INT_DATA_DONE
  end.

(** the phase after the bit is acknowledged *)
Definition advance (c : cardst) : cardst :=
  mkCardst (blocks c)
    (match ph c with
     | Command wr a => Ready wr a
     | Ready false a => Moving false a (dec_words 4 128 (blocks c a))
     | Ready true a => Moving true a []
     | Finishing a => Idle a
     | p => p
     end) false.

Definition put_block (a : Z) (v : list Z) (f : Z → list Z) : Z → list Z := λ x, if decide (x = a) then v else f x.

(** reading the interrupt register every time [sd_delayus(1)] has passed, [n] times in vain *)
Inductive settles {D} `{device D} (e : Z) : nat → D → D → Prop :=
  | settles_now d d' : dev_read EMMC_INTERRUPT d = (e, d') → settles e 0 d d'
  | settles_later n d d1 d2 : dev_read EMMC_INTERRUPT d = (0, d1) →
      settles e n (dev_delay_us 3 d1) d2 → settles e (S n) d d2.

Definition command (wr : bool) : Z := if wr then 0x18220000 else 0x11220010.

Class sd_controller (D : Type) `{device D} := {
  holds : D → cardst → Prop;
  ctl_blocks d c a : holds d c → length (blocks c a) = 512%nat ∧ bytes (blocks c a);
  ctl_quiet d c : holds d c → event (ph c) = 0 →
    ∃ d', dev_read EMMC_INTERRUPT d = (0, d') ∧ holds d' c;
  ctl_wait d f p : holds d (mkCardst f p false) → event p ≠ 0 →
    ∃ n d', Z.of_nat n < 1000000 ∧ settles (event p) n d d' ∧ holds d' (mkCardst f p true);
  ctl_seen d f p : holds d (mkCardst f p true) →
    ∃ d', dev_read EMMC_INTERRUPT d = (event p, d') ∧ holds d' (mkCardst f p true);
  ctl_clear d f p : holds d (mkCardst f p true) →
    holds (dev_write EMMC_INTERRUPT (event p) d) (advance (mkCardst f p true));
  ctl_clear_none d f a : holds d (mkCardst f (Idle a) false) →
    holds (dev_write EMMC_INTERRUPT 0 d) (mkCardst f (Idle a) false);
  ctl_status d f a : holds d (mkCardst f (Idle a) false) →
    ∃ v d', dev_read EMMC_STATUS d = (v, d') ∧ Z.land (u32 v) SR_CMD_INHIBIT = 0 ∧
      holds d' (mkCardst f (Idle a) false);
  ctl_size d f a : holds d (mkCardst f (Idle a) false) →
    holds (dev_write EMMC_BLKSIZECNT 512 d) (mkCardst f (Idle a) false);
  ctl_arg d f a a' : holds d (mkCardst f (Idle a) false) → 0 ≤ a' < 2 ^ 32 →
    holds (dev_write EMMC_ARG1 a' d) (mkCardst f (Idle a') false);
  ctl_command d f a wr : holds d (mkCardst f (Idle a) false) →
    holds (dev_write EMMC_CMDTM (command wr) d) (mkCardst f (Command wr a) false);
  ctl_response d f wr a : holds d (mkCardst f (Ready wr a) false) →
    ∃ v d', dev_read EMMC_RESP0 d = (v, d') ∧ 0 ≤ v < 2 ^ 31 ∧ Z.land v R1_ERRORS_MASK = 0 ∧
      holds d' (mkCardst f (Ready wr a) false);
  ctl_fetch d f a w l : holds d (mkCardst f (Moving false a (w :: l)) false) →
    ∃ d', dev_read EMMC_DATA d = (w, d') ∧
      holds d' (mkCardst f (if decide (l = []) then Finishing a else Moving false a l) false);
  ctl_store d f a l w : holds d (mkCardst f (Moving true a l) false) → 0 ≤ w < 2 ^ 32 → (length l < 128)%nat →
    holds (dev_write EMMC_DATA w d)
      (if decide (length l = 127%nat) then mkCardst (put_block a (enc_words 4 (l ++ [w])) f) (Finishing a) false
       else mkCardst f (Moving true a (l ++ [w])) false) }.

(** ** Commands *)

Section commands.
Context {D : Type} `{sd_controller D}.
Local Notation E := (M (sdst D)).
Implicit Types (f : Z → list Z) (p : phase).

(** the controller is in the state [c], and the card is of type [ty] *)
Definition at_ctl (ty : Z) (c : cardst) (s : sdst D) : Prop := holds (dev s) c ∧ ctype (card s) = ty.

Lemma rd_at ty c a v c' :
  (∀ d, holds d c → ∃ d', dev_read a d = (v, d') ∧ holds d' c') → 0 ≤ v < 2 ^ 32 →
  returns (at_ctl ty c) (rd a) (λ r s, r = v ∧ at_ctl ty c' s).
Proof.
  intros Hr Hv s [Hs Ht]. destruct (Hr _ Hs) as (d' & E & Hd). exists v, (put_dev d' s).
  split; [|split; [done|by split]]. unfold rd, hw. apply on_run. unfold device_get_u32. rewrite E.
  by rewrite u32_id.
Qed.

Lemma wr_at ty c a v c' :
  0 ≤ v < 2 ^ 32 → (∀ d, holds d c → holds (dev_write a v d) c') →
  returns (at_ctl ty c) (wr a v) (λ _, at_ctl ty c').
Proof.
  intros Hv Hw s [Hs Ht]. exists tt, (put_dev (dev_write a v (dev s)) s). split; [|split; [by apply Hw|done]].
  unfold wr, hw. apply on_run. unfold device_put_u32. by rewrite modify_run, u32_id.
Qed.

Lemma event_small p : 0 ≤ event p < 2 ^ 32.
Proof. destruct p as [|?|[]|?|]; by vm_compute. Qed.

Lemma quiet_at ty c : event (ph c) = 0 → returns (at_ctl ty c) (rd EMMC_INTERRUPT) (λ r s, r = 0 ∧ at_ctl ty c s).
Proof. intros He. apply rd_at; [|done]. intros d Hd. by apply ctl_quiet. Qed.

(** the bits of an event, as the driver tests them *)
Lemma event_bits p : event p ≠ 0 →
  Z.land (event p) (Z.lor (event p) INT_ERROR_MASK) = event p ∧ Z.land (event p) INT_CMD_TIMEOUT = 0 ∧
  Z.land (event p) INT_DATA_TIMEOUT = 0 ∧ Z.land (event p) INT_ERROR_MASK = 0.
Proof. destruct p as [|?|[]|?|]; intros He; try done; by vm_compute. Qed.

Lemma poll_settles ty f p : event p ≠ 0 →
  returns (at_ctl ty (mkCardst f p false))
    (poll (b ← bits EMMC_INTERRUPT (Z.lor (event p) INT_ERROR_MASK); mret (negb b)) (sd_delayus 1) (Z.to_nat 1000000))
    (λ r s, 0 < r ∧ at_ctl ty (mkCardst f p true) s).
Proof.
  intros He s [Hs Ht]. destruct (ctl_wait _ _ _ Hs He) as (n & d' & Hn & St & Hd).
  destruct (event_bits p He) as (B1 & _).
  cut (∀ m n s, settles (event p) n (dev s) d' → (n < m)%nat →
    poll (b ← bits EMMC_INTERRUPT (Z.lor (event p) INT_ERROR_MASK); mret (negb b)) (sd_delayus 1) m s =
    Ok (Z.of_nat (m - n), put_dev d' s)).
  { intros Hp. exists (Z.of_nat (Z.to_nat 1000000 - n)), (put_dev d' s).
    split; [apply Hp; [done|]|]; [rewrite Nat2Z.inj_lt, Z2Nat.id; lia|]. split; [|by split].
    rewrite Nat2Z.inj_sub, Z2Nat.id by (rewrite ?Nat2Z.inj_le, ?Z2Nat.id; lia). lia. }
  clear s Hs Ht St Hd Hn n. induction m as [|m IH]; intros n s Hs Hm; [lia|].
  cbn [poll]. inversion Hs as [d0 d1 E|n' d0 d1 d2 E Hl]; subst.
  - rewrite (bind_Ok _ _ s false (put_dev d' s)).
    2:{ unfold bits. rewrite !bind_assoc. rewrite (bind_Ok _ _ s (event p) (put_dev d' s)).
        2:{ unfold rd, hw. apply on_run. unfold device_get_u32. rewrite E. by rewrite u32_id by apply event_small. }
        rewrite (bind_Ok _ _ _ _ _ (mret_run _ _)), B1. by rewrite (proj2 (Z.eqb_neq _ 0) He). }
    rewrite Nat.sub_0_r. done.
  - rewrite (bind_Ok _ _ s true (put_dev d1 s)).
    2:{ unfold bits. rewrite !bind_assoc. rewrite (bind_Ok _ _ s 0 (put_dev d1 s)).
        2:{ unfold rd, hw. apply on_run. unfold device_get_u32. by rewrite E. }
        by rewrite (bind_Ok _ _ _ _ _ (mret_run _ _)), Z.land_0_l. }
    rewrite (bind_Ok _ _ _ tt (put_dev (dev_delay_us 3 d1) s)) by done.
    rewrite (IH n'); [done|done|lia].
Qed.

Lemma wait_at ty f p : event p ≠ 0 →
  returns (at_ctl ty (mkCardst f p false)) (sdWaitForInterrupt (event p))
    (λ r s, r = SD_OK ∧ at_ctl ty (advance (mkCardst f p true)) s).
Proof.
  intros He. destruct (event_bits p He) as (_ & B2 & B3 & B4). unfold sdWaitForInterrupt.
  eapply returns_bind; [by apply poll_settles|]. intros r. apply returns_fact. intros Hr.
  eapply returns_bind; [apply (rd_at _ _ _ (event p) (mkCardst f p true)); [intros d; apply ctl_seen|apply event_small]|].
  intros v. apply returns_fact. intros ->. rewrite B2, B3, B4.
  assert (r <=? 0 = false) as -> by (by apply Z.leb_gt). cbn [orb negb Z.eqb].
  eapply returns_bind; [apply wr_at; [apply event_small|intros d; apply ctl_clear]|]. intros []. by apply returns_ret.
Qed.

Lemma wait_command_at ty f a :
  returns (at_ctl ty (mkCardst f (Idle a) false)) sdWaitForCommand
    (λ r s, r = SD_OK ∧ at_ctl ty (mkCardst f (Idle a) false) s).
Proof.
  unfold sdWaitForCommand. set (c := mkCardst f (Idle a) false).
  apply (returns_bind _ _ _ (λ r s, r = 1000000 ∧ at_ctl ty c s)).
  - intros s [Hs Ht]. destruct (ctl_status _ _ _ Hs) as (v & d' & E & Hv & Hd).
    exists 1000000, (put_dev d' s). split; [|by split].
    assert (busy EMMC_STATUS SR_CMD_INHIBIT EMMC_INTERRUPT INT_ERROR_MASK s = Ok (false, put_dev d' s)) as Eb.
    { unfold busy, bits. rewrite !bind_assoc. rewrite (bind_Ok _ _ s (u32 v) (put_dev d' s)).
      2:{ unfold rd, hw. apply on_run. unfold device_get_u32. by rewrite E. }
      by rewrite (bind_Ok _ _ _ _ _ (mret_run _ _)), Hv. }
    assert (Z.of_nat (Z.to_nat 1000000) = 1000000) as Ez by (by apply Z2Nat.id).
    destruct (Z.to_nat 1000000) as [|n]; [done|]. cbn [poll]. rewrite (bind_Ok _ _ _ _ _ Eb).
    cbv iota. rewrite mret_run. do 2 f_equal. exact Ez.
  - intros r. apply returns_fact. intros ->. change (1000000 <=? 0) with false. cbv iota.
    apply (returns_bind _ _ _ (λ b s, b = false ∧ at_ctl ty c s)).
    { unfold bits. eapply returns_bind; [by apply quiet_at|]. intros v. apply returns_fact. intros ->.
      by apply returns_ret. }
    intros b. apply returns_fact. intros ->. by apply returns_ret.
Qed.

Lemma upd_at ty c (g : SDDescriptor → SDDescriptor) :
  (∀ x, ctype (g x) = ctype x) → returns (at_ctl ty c) (upd_card g) (λ _, at_ctl ty c).
Proof. intros Hg. apply returns_modify. intros s [Hs Ht]. split; [done|]. cbn. by rewrite Hg. Qed.

Lemma i32_mask v : 0 ≤ v < 2 ^ 31 → Z.land v R1_ERRORS_MASK = 0 → Z.land v (i32 R1_ERRORS_MASK) = 0.
Proof.
  intros Hv E. assert (i32 R1_ERRORS_MASK mod 2 ^ 32 = R1_ERRORS_MASK) as Em by (by vm_compute).
  apply Z.bits_inj'. intros i Hi. rewrite Z.land_spec, Z.bits_0. destruct (Z.lt_ge_cases i 32).
  - rewrite <-(Z.mod_pow2_bits_low (i32 R1_ERRORS_MASK) 32 i), Em, <-Z.land_spec, E by done. apply Z.bits_0.
  - rewrite <-(Z.mod_small v (2 ^ 32)), Z.mod_pow2_bits_high; [done|lia|].
    change (2 ^ 31) with 2147483648 in Hv. change (2 ^ 32) with 4294967296. lia.
Qed.

(** A read or write command on an idle controller is accepted. *)
Lemma send_at ty f a (wr : bool) arg : - 2 ^ 31 ≤ arg < 2 ^ 31 →
  returns (at_ctl ty (mkCardst f (Idle a) false))
    (sdSendCommandA (if wr then IX_WRITE_SINGLE else IX_READ_SINGLE) arg)
    (λ r s, r = 0 ∧ at_ctl ty (mkCardst f (Ready wr (u32 arg)) false) s).
Proof.
  intros Ha. unfold sdSendCommandA, send_with.
  assert ((if wr then IX_WRITE_SINGLE else IX_READ_SINGLE) >=? IX_APP_CMD_START = false) as -> by (by destruct wr).
  set (c := mkCardst f (Idle a) false). set (c1 := mkCardst f (Idle (u32 arg)) false).
  apply (returns_bind _ _ _ (λ r s, r = 0 ∧ at_ctl ty c s)); [by apply returns_ret|].
  intros r. apply returns_fact. intros ->. cbn [Z.eqb negb andb].
  apply (returns_bind _ _ _ (λ r s, r = arg ∧ at_ctl ty c s)); [by apply returns_ret|].
  intros r. apply returns_fact. intros ->.
  apply (returns_bind _ _ _ (λ r s, r = 0 ∧ at_ctl ty (mkCardst f (Ready wr (u32 arg)) false) s)).
  2:{ intros r. apply returns_fact. intros ->. cbn [Z.eqb negb].
      eapply returns_bind; [apply returns_gets|]. intros x. apply returns_ret. by intros s [_ Hs]. }
  unfold sdSendCommandP.
  apply (returns_bind _ _ _ (λ cmd s, code cmd = command wr ∧ delay_ cmd = 0 ∧ resp cmd = RESP_R1 ∧ at_ctl ty c s)).
  { apply returns_getopt. intros s Hs. destruct wr; eexists; split; [reflexivity|done|reflexivity|done]. }
  intros cmd. do 3 (apply returns_fact; intros ?).
  eapply returns_bind; [apply wait_command_at|]. intros r. apply returns_fact. intros ->. cbn [Z.eqb negb].
  do 2 (eapply returns_bind; [by apply upd_at|]; intros []).
  eapply returns_bind; [by apply quiet_at|]. intros v. apply returns_fact. intros ->.
  eapply returns_bind; [apply (wr_at _ _ _ _ c); [done|intros d; apply ctl_clear_none]|]. intros [].
  eapply returns_bind; [apply (wr_at _ _ _ _ c1); [apply u32_range|]|].
  { intros d Hd. eapply ctl_arg; [exact Hd|apply u32_range]. }
  intros []. rewrite H1. eapply returns_bind; [apply wr_at; [by destruct wr|intros d; apply ctl_command]|]. intros [].
  rewrite H2. cbn [Z.eqb negb when]. apply (returns_bind _ _ _ (λ _, at_ctl ty (mkCardst f (Command wr (u32 arg)) false))); [by apply returns_ret|]. intros [].
  eapply returns_bind; [apply (wait_at ty f (Command wr (u32 arg))); done|]. intros r. apply returns_fact. intros ->.
  cbn [Z.eqb negb SD_OK].
  intros s [Hs Ht]. destruct (ctl_response _ _ _ _ Hs) as (v & d' & Er & Hv & Hm & Hd).
  rewrite (bind_Ok _ _ s v (put_dev d' s)).
  2:{ unfold rd, hw. apply on_run. unfold device_get_u32. rewrite Er, u32_id; [done|].
      change (2 ^ 31) with 2147483648 in Hv. change (2 ^ 32) with 4294967296. lia. }
  rewrite H3, i32_id by (change (2 ^ 31) with 2147483648 in *; lia).
  change (response RESP_R1 arg v) with
    (upd_card (set_status (u32 v));; upd_card (set_cardState (card_state v));;
     (mret (Z.land v (i32 R1_ERRORS_MASK)) : M (sdst D) Z)).
  rewrite i32_mask by done. eexists 0, _. split; [reflexivity|]. split; [done|]. by split.
Qed.
End commands.

(** ** Requests *)

Definition is_write (x : buf) : bool := negb (Z.land (flags x) B_DIRTY =? 0).
Definition addr (ty : Z) (x : buf) : Z := u32 (card_address ty (blockno x)).

(** a buffer [sdrw] may be called with: it asks for something, and its array has 512 bytes *)
Record request (x : buf) : Prop := {
  rq_flags : is_write x = true ∨ Z.land (flags x) B_VALID = 0;
  rq_length : length (data x) = 512%nat;
  rq_bytes : bytes (data x) }.

(** the controller once [sd_start] has returned; the words of a write have gone to the card *)
Definition started (ty : Z) (x : buf) (f : Z → list Z) : cardst :=
  if is_write x then mkCardst (put_block (addr ty x) (data x) f) (Finishing (addr ty x)) false
  else mkCardst f (Ready false (addr ty x)) false.

(** the card and the contents of the buffer when the request is done *)
Definition serve_disk (ty : Z) (x : buf) (f : Z → list Z) : Z → list Z :=
  if is_write x then put_block (addr ty x) (data x) f else f.
Definition serve_data (ty : Z) (x : buf) (f : Z → list Z) : list Z := if is_write x then data x else f (addr ty x).

Section queue.
Context {D : Type} `{sd_controller D}.
Implicit Types (f : Z → list Z) (q : list Z) (mem : gmap Z buf).

(** the state of the driver in full, but for what the controller and the card descriptor hold *)
Definition drv_at (ty : Z) (c : cardst) (lk : bool) q mem (w : gmap Z WaitData) (wk : list Z) (s : drv D) : Prop :=
  ∃ e, s = mkDrv e lk q mem w wk ∧ at_ctl ty c e.

Lemma ctl_at {A} ty c c' (φ : A → Prop) (m : M (sdst D) A) lk q mem w wk :
  returns (at_ctl ty c) m (λ a s, φ a ∧ at_ctl ty c' s) →
  returns (drv_at ty c lk q mem w wk) (ctl m) (λ a s, φ a ∧ drv_at ty c' lk q mem w wk s).
Proof.
  intros Hm s (e & -> & He). destruct (Hm e He) as (a & e' & E & Ha & He').
  exists a, (mkDrv e' lk q mem w wk). split; [exact (on_run emmc put_emmc m (mkDrv e lk q mem w wk) a e' E)|]. split; [done|]. by exists e'.
Qed.

Lemma ctl_tt ty c c' (m : M (sdst D) unit) lk q mem w wk :
  returns (at_ctl ty c) m (λ _, at_ctl ty c') →
  returns (drv_at ty c lk q mem w wk) (ctl m) (λ _, drv_at ty c' lk q mem w wk).
Proof.
  intros Hm. eapply returns_post; [apply (ctl_at _ _ c' (λ _, True)); eapply returns_post; [exact Hm|by intros]|].
  by intros a s [_ Hs].
Qed.

Lemma buf_run ty c lk q mem w wk b x : mem !! b = Some x →
  returns (drv_at ty c lk q mem w wk) (buf_at b) (λ y s, y = x ∧ drv_at ty c lk q mem w wk s).
Proof. intros E. apply returns_getopt. intros s (e & -> & He). exists x. split; [done|]. split; [done|]. by exists e. Qed.

Lemma set_buf_run ty c lk q mem w wk b x (g : buf → buf) : mem !! b = Some x →
  returns (drv_at ty c lk q mem w wk) (set_buf b g) (λ _, drv_at ty c lk q (<[b := g x]> mem) w wk).
Proof.
  intros E. unfold set_buf. eapply returns_bind; [by apply buf_run|]. intros y. apply returns_fact. intros ->.
  apply returns_modify. intros s (e & -> & He). by exists e.
Qed.

Lemma quiet_drv ty c lk q mem w wk : event (ph c) = 0 →
  returns (drv_at ty c lk q mem w wk) (ctl (rd EMMC_INTERRUPT)) (λ v s, v = 0 ∧ drv_at ty c lk q mem w wk s).
Proof. intros He. by apply ctl_at, quiet_at. Qed.

Lemma wait_drv ty f p lk q mem w wk : event p ≠ 0 →
  returns (drv_at ty (mkCardst f p false) lk q mem w wk) (ctl (sdWaitForInterrupt (event p)))
    (λ r s, r = SD_OK ∧ drv_at ty (advance (mkCardst f p true)) lk q mem w wk s).
Proof. intros He. by apply ctl_at, wait_at. Qed.

Lemma assert_drv P (s0 : drv D → Prop) (b : bool) : b = true → (∀ s, P s → s0 s) →
  returns P (assert b) (λ _, s0).
Proof. intros -> Hs. by apply returns_ret. Qed.

Lemma card_address_range ty n : - 2 ^ 31 ≤ card_address ty n < 2 ^ 31.
Proof.
  assert (∀ z, - 2 ^ 31 ≤ i32 z < 2 ^ 31) as Hi.
  { intros z. unfold i32. pose proof (Z.mod_pos_bound (z + 2 ^ 31) (2 ^ 32) ltac:(done)).
    change (2 ^ 31) with 2147483648 in *. change (2 ^ 32) with 4294967296 in *. lia. }
  unfold card_address. destruct (ty =? _); apply Hi.
Qed.

(** *** Storing the words of a block *)

Section store.
Context (ty a : Z) (f : Z → list Z) (lk : bool) (q : list Z) (mem : gmap Z buf) (w : gmap Z WaitData) (wk : list Z) (b : Z) (x : buf).
Context (Hb : mem !! b = Some x) (Hx : request x).
Let words : list Z := dec_words 4 128 (data x).

Definition storing (k : Z) : drv D → Prop :=
  drv_at ty (if k <? 128 then mkCardst f (Moving true a (take (Z.to_nat k) words)) false
             else mkCardst (put_block a (data x) f) (Finishing a) false) lk q mem w wk.

Lemma store_loop :
  returns (storing 0)
    (for_each (zseq 0 128) (λ done, x ← buf_at b; ctl (wr EMMC_DATA (le_dec (sub (4 * Z.to_nat done) 4 (data x))))))
    (λ _, storing 128).
Proof using Hb Hx.
  apply (returns_for_zseq storing _ 128 0). intros k Hk. unfold storing.
  destruct (Z.ltb_spec k 128) as [_|]; [|lia].
  eapply returns_bind; [by apply buf_run|]. intros y. apply returns_fact. intros ->.
  destruct Hx as [_ Hl Hby]. set (j := Z.to_nat k).
  pose proof (lookup_dec_words 4 128 (data x) j ltac:(subst j; lia) Hl) as Hw. fold words in Hw.
  set (v := le_dec _) in *.
  assert (word_ok 4 v) as Hv by (eapply (Forall_lookup_1 _ words); [by apply dec_words_ok|exact Hw]).
  change (word_ok 4 v) with (0 ≤ v < 4294967296) in Hv.
  apply ctl_tt, wr_at; [done|]. intros d Hd.
  pose proof (ctl_store d f a (take j words) v Hd Hv) as Hs.
  assert (length words = 128%nat) as Hlw by apply length_dec_words.
  rewrite length_take, Hlw, Nat.min_l in Hs by (subst j; lia). specialize (Hs ltac:(subst j; lia)).
  rewrite <-(take_S_r words j v Hw) in Hs. destruct (decide (j = 127%nat)) as [Ej|Ej].
  - rewrite Ej, take_ge in Hs by (rewrite Hlw; lia). unfold words in Hs. rewrite enc_dec_words in Hs by done.
    by destruct (Z.ltb_spec (k + 1) 128); [subst j; lia|].
  - destruct (Z.ltb_spec (k + 1) 128); [|subst j; lia].
    by replace (Z.to_nat (k + 1)) with (Datatypes.S j) by (subst j; lia).
Qed.
End store.

(** *** Fetching the words of a block *)

Lemma splice_words (k : nat) (blk old : list Z) : length blk = 512%nat → length old = 512%nat → bytes blk →
  (k < 128)%nat →
  splice (4 * k) (le_enc 4 (le_dec (sub (4 * k) 4 blk))) (take (4 * k) blk ++ drop (4 * k) old) =
  take (4 * S k) blk ++ drop (4 * S k) old.
Proof.
  intros Hb Ho Hby Hk.
  assert (length (sub (4 * k) 4 blk) = 4%nat) as Hs by (apply length_sub; lia).
  pose proof (le_enc_dec (sub (4 * k) 4 blk) ltac:(by apply bytes_sub)) as E. rewrite Hs in E.
  rewrite E. unfold splice. rewrite Hs.
  rewrite take_app_length' by (rewrite length_take; lia).
  rewrite drop_app_ge by (rewrite length_take; lia). rewrite length_take, Nat.min_l by lia.
  rewrite drop_drop. replace (4 * k + (4 * k + 4 - 4 * k))%nat with (4 * S k)%nat by lia.
  rewrite app_assoc. f_equal. unfold sub. replace (4 * S k)%nat with (4 * k + 4)%nat by lia.
  by rewrite take_take_drop.
Qed.

Section fetch.
Context (ty a : Z) (f : Z → list Z) (lk : bool) (q : list Z) (mem : gmap Z buf) (w : gmap Z WaitData) (wk : list Z) (b : Z) (x : buf).
Context (Hb : mem !! b = Some x) (Hx : length (data x) = 512%nat).
Context (Hf : length (f a) = 512%nat ∧ bytes (f a)).
Let words : list Z := dec_words 4 128 (f a).

Definition fetching (k : Z) : drv D → Prop :=
  drv_at ty (if k <? 128 then mkCardst f (Moving false a (drop (Z.to_nat k) words)) false
             else mkCardst f (Finishing a) false) lk q
    (<[b := set_data (take (4 * Z.to_nat k) (f a) ++ drop (4 * Z.to_nat k) (data x)) x]> mem) w wk.

Lemma fetch_loop :
  returns (fetching 0)
    (for_each (zseq 0 128) (λ done, v ← ctl (rd EMMC_DATA);
       set_buf b (λ x, set_data (splice (4 * Z.to_nat done) (le_enc 4 v) (data x)) x)))
    (λ _, fetching 128).
Proof using Hb Hx Hf.
  apply (returns_for_zseq fetching _ 128 0). intros k Hk. unfold fetching.
  destruct (Z.ltb_spec k 128) as [_|]; [|lia]. set (j := Z.to_nat k). destruct Hf as [Hl Hby].
  pose proof (lookup_dec_words 4 128 (f a) j ltac:(subst j; lia) Hl) as Hw. fold words in Hw.
  set (v := le_dec _) in *.
  assert (word_ok 4 v) as Hv by (eapply (Forall_lookup_1 _ words); [by apply dec_words_ok|exact Hw]).
  change (word_ok 4 v) with (0 ≤ v < 4294967296) in Hv.
  assert (length words = 128%nat) as Hlw by apply length_dec_words.
  rewrite (drop_S words v j Hw).
  apply (returns_bind _ _ _ (λ r s, r = v ∧ drv_at ty (if k + 1 <? 128 then
      mkCardst f (Moving false a (drop (Datatypes.S j) words)) false else mkCardst f (Finishing a) false) lk q
      (<[b := set_data (take (4 * j) (f a) ++ drop (4 * j) (data x)) x]> mem) w wk s)).
  - apply ctl_at, rd_at; [|done]. intros d Hd. destruct (ctl_fetch _ _ _ _ _ Hd) as (d' & E & Hd').
    exists d'. split; [done|]. destruct (Z.ltb_spec (k + 1) 128).
    + rewrite decide_False in Hd'; [done|]. intros En. apply (f_equal length) in En.
      rewrite length_drop, Hlw in En. cbn in En. subst j. lia.
    + rewrite decide_True in Hd'; [done|]. apply drop_ge. rewrite Hlw. subst j. lia.
  - intros r. apply returns_fact. intros ->.
    eapply returns_post; [by apply set_buf_run, lookup_insert_eq|]. intros [] s.
    rewrite insert_insert_eq. cbn [set_data data flags blockno bufsem].
    pose proof (splice_words j (f a) (data x) Hl Hx Hby ltac:(subst j; lia)) as Es. fold v in Es. rewrite Es.
    by replace (Z.to_nat (k + 1)) with (Datatypes.S j) by (subst j; lia).
Qed.
End fetch.

(** *** Starting and finishing a request *)

Lemma sd_start_at ty f a lk q mem w wk b x :
  mem !! b = Some x → request x → b mod 4 = 0 →
  returns (drv_at ty (mkCardst f (Idle a) false) lk q mem w wk) (sd_start b)
    (λ _, drv_at ty (started ty x f) lk q mem w wk).
Proof.
  intros Hb Hx Hal. unfold sd_start. set (c := mkCardst f (Idle a) false).
  eapply returns_bind; [by apply buf_run|]. intros y. apply returns_fact. intros ->.
  apply (returns_bind _ _ _ (λ cd s, ctype cd = ty ∧ drv_at ty c lk q mem w wk s)).
  { apply ctl_at. intros e He. exists (card e), e. split; [done|]. split; [apply He|done]. }
  intros cd. apply returns_fact. intros ->.
  eapply returns_bind; [by apply quiet_drv|]. intros v. apply returns_fact. intros ->.
  eapply returns_bind; [by apply (assert_drv _ (drv_at ty c lk q mem w wk))|]. intros [].
  eapply returns_bind; [apply (ctl_tt ty c c), wr_at; [done|intros d; apply ctl_size]|]. intros [].
  fold (is_write x).
  eapply returns_bind; [apply ctl_at, send_at, card_address_range|]. intros r. apply returns_fact. intros ->.
  fold (addr ty x). set (c1 := mkCardst f (Ready (is_write x) (addr ty x)) false).
  eapply returns_bind; [by apply (assert_drv _ (drv_at ty c1 lk q mem w wk))|]. intros [].
  eapply returns_bind; [apply (assert_drv _ (drv_at ty c1 lk q mem w wk)); [|done]|].
  { apply Z.eqb_eq. change 0x03 with (Z.ones 2). rewrite Z.land_ones by done. unfold data_of.
    change (2 ^ 2) with 4. zmod. }
  intros []. unfold started. destruct (is_write x) eqn:Ew; cbn [when]; [|by apply returns_ret].
  eapply returns_bind; [by apply (wait_drv ty f (Ready true (addr ty x)))|]. intros r. apply returns_fact. intros ->.
  set (c2 := mkCardst f (Moving true (addr ty x) []) false).
  eapply returns_bind; [by apply (assert_drv _ (drv_at ty c2 lk q mem w wk))|]. intros [].
  eapply returns_bind; [by apply quiet_drv|]. intros v. apply returns_fact. intros ->.
  eapply returns_bind; [by apply (assert_drv _ (drv_at ty c2 lk q mem w wk))|]. intros [].
  exact (store_loop ty (addr ty x) f lk q mem w wk b x Hb Hx).
Qed.

(** the buffer when its request is done, with the semaphore [sm] *)
Definition served (ty : Z) (x : buf) f (sm : Semaphore) : buf := mkBuf B_VALID (blockno x) (serve_data ty x f) sm.

(** the controller between two requests *)
Definition waiting (ty : Z) (q : list Z) mem f (c : cardst) : Prop :=
  match q with
  | [] => ∃ a, c = mkCardst f (Idle a) false
  | b :: _ => ∃ x, mem !! b = Some x ∧ c = started ty x f
  end.

Definition next_state (ty : Z) (q : list Z) mem f (w : gmap Z WaitData) (wk : list Z) (s : drv D) : Prop :=
  ∃ c, waiting ty q mem f c ∧ drv_at ty c false q mem w wk s.

(** the state of the driver between calls *)
Record queue_ok (q : list Z) mem : Prop := {
  qk_nodup : NoDup q;
  qk_request : ∀ b, b ∈ q → b mod 4 = 0 ∧ ∃ x, mem !! b = Some x ∧ request x }.

Lemma is_write_flags x : is_write x = negb (Z.land (flags x) B_DIRTY =? 0).
Proof. done. Qed.

(** the part of [sd_intr] that talks to the controller *)
Lemma transfer_at ty f lk q mem w wk b x : mem !! b = Some x → request x →
  (∀ y, length (f y) = 512%nat ∧ bytes (f y)) →
  returns (drv_at ty (started ty x f) lk q mem w wk)
    (if negb (Z.land (flags x) B_DIRTY =? 0) then ctl (sdWaitForInterrupt INT_DATA_DONE);; mret tt
     else when (Z.land (flags x) B_VALID =? 0)
       (resp ← ctl (sdWaitForInterrupt INT_READ_RDY);
        assert (resp =? 0);;
        v ← ctl (rd EMMC_INTERRUPT);
        assert (v =? 0);;
        for_each (zseq 0 128) (λ done,
          v ← ctl (rd EMMC_DATA);
          set_buf b (λ x, set_data (splice (4 * Z.to_nat done) (le_enc 4 v) (data x)) x));;
        ctl (sdWaitForInterrupt INT_DATA_DONE);; mret tt))
    (λ _, drv_at ty (mkCardst (serve_disk ty x f) (Idle (addr ty x)) false) lk q
            (<[b := set_data (serve_data ty x f) x]> mem) w wk).
Proof.
  intros Hb Hx Hf. rewrite <-is_write_flags. unfold started, serve_disk, serve_data.
  destruct (is_write x) eqn:Ew.
  - eapply returns_bind; [by apply (wait_drv ty _ (Finishing (addr ty x)))|]. intros r. apply returns_fact. intros ->.
    apply returns_ret. intros s Hs. rewrite insert_id; [exact Hs|]. rewrite Hb. f_equal. by destruct x.
  - destruct (rq_flags _ Hx) as [|Hv]; [congruence|]. rewrite Hv. cbn [Z.eqb when].
    eapply returns_bind; [by apply (wait_drv ty f (Ready false (addr ty x)))|]. intros r. apply returns_fact. intros ->.
    set (c2 := mkCardst f (Moving false (addr ty x) (dec_words 4 128 (f (addr ty x)))) false).
    eapply returns_bind; [by apply (assert_drv _ (drv_at ty c2 lk q mem w wk))|]. intros [].
    eapply returns_bind; [by apply quiet_drv|]. intros v. apply returns_fact. intros ->.
    eapply returns_bind; [by apply (assert_drv _ (drv_at ty c2 lk q mem w wk))|]. intros [].
    eapply returns_bind.
    { eapply returns_pre; [|apply (fetch_loop ty (addr ty x) f lk q mem w wk b x Hb (rq_length _ Hx) (Hf _))].
      intros s Hs. unfold fetching. cbn [Z.ltb Z.compare]. change (4 * Z.to_nat 0)%nat with 0%nat.
      rewrite take_0, !drop_0. cbn [app]. rewrite insert_id; [exact Hs|]. rewrite Hb. f_equal. by destruct x. }
    intros []. unfold fetching. change (128 <? 128) with false. change (4 * Z.to_nat 128)%nat with 512%nat. cbv iota.
    rewrite take_ge, drop_ge, app_nil_r by (rewrite ?(proj1 (Hf _)), ?(rq_length _ Hx); lia).
    eapply returns_bind; [by apply (wait_drv ty f (Finishing (addr ty x)))|]. intros r. apply returns_fact. intros ->.
    by apply returns_ret.
Qed.

(** An interrupt serves the first request and starts the next one. *)
Lemma sd_intr_at ty f b q mem w wk x r :
  queue_ok (b :: q) mem → mem !! b = Some x → (∀ y, length (f y) = 512%nat ∧ bytes (f y)) →
  post_sem (mkSemst (bufsem x) w wk) = Ok (tt, r) →
  returns (next_state ty (b :: q) mem f w wk) sd_intr
    (λ _, next_state ty q (<[b := served ty x f (sem r)]> mem) (serve_disk ty x f) (waits r) (activated r)).
Proof.
  intros [Hn Hq] Hb Hf Hpost. apply NoDup_cons in Hn as [Hnb Hn].
  destruct (Hq b (list_elem_of_here _ _)) as (Hal & x' & E & Hx). rewrite Hb in E. injection E as <-.
  intros s (c & (x' & E & ->) & e & -> & He). rewrite Hb in E. injection E as <-. unfold sd_intr.
  rewrite (bind_Ok _ _ _ tt (mkDrv e true (b :: q) mem w wk)) by done.
  rewrite (bind_Ok _ _ _ (b :: q) (mkDrv e true (b :: q) mem w wk)) by done.
  rewrite (bind_Ok _ _ _ b (mkDrv e true (b :: q) mem w wk)) by done.
  rewrite (bind_Ok _ _ _ x (mkDrv e true (b :: q) mem w wk)) by (by apply getopt_run).
  destruct (transfer_at ty f true (b :: q) mem w wk b x Hb Hx Hf (mkDrv e true (b :: q) mem w wk)) as ([] & s' & Et & e' & -> & He');
    [by exists e|].
  rewrite (bind_Ok _ _ _ _ _ Et). clear Et e He.
  set (mem1 := <[b := _]> mem). set (mem2 := <[b := served ty x f (sem r)]> mem).
  rewrite (bind_Ok _ _ _ tt (mkDrv e' true q mem1 w wk)).
  2:{ rewrite modify_run. do 2 f_equal. unfold put_buflist. cbn [emmc sdlock buflist bufs bwaits woken]. f_equal.
      rewrite filter_cons_False by (by intros ?). apply filter_all. intros y Hy ->. done. }
  rewrite (bind_Ok _ _ _ tt (mkDrv e' true q (<[b := set_flags B_VALID (set_data (serve_data ty x f) x)]> mem) w wk)).
  2:{ unfold set_buf. rewrite (bind_Ok _ _ _ (set_data (serve_data ty x f) x) (mkDrv e' true q mem1 w wk))
        by (apply getopt_run; exact (lookup_insert_eq _ _ _)).
      rewrite modify_run. unfold put_bufs. cbn [emmc sdlock buflist bufs bwaits woken]. subst mem1. by rewrite insert_insert_eq. }
  rewrite (bind_Ok _ _ _ tt (mkDrv e' true q mem2 (waits r) (activated r))).
  2:{ unfold buf_sem. cbn [bufs bwaits woken]. rewrite lookup_insert_eq. cbn [set_flags set_data bufsem].
      rewrite Hpost. unfold put_waits, put_bufs. cbn [emmc sdlock buflist bufs bwaits woken]. by rewrite insert_insert_eq. }
  rewrite (bind_Ok _ _ _ q (mkDrv e' true q mem2 (waits r) (activated r))) by done.
  destruct q as [|b2 q'].
  - rewrite (bind_Ok _ _ _ tt (mkDrv e' true [] mem2 (waits r) (activated r))) by done.
    exists tt, (mkDrv e' false [] mem2 (waits r) (activated r)). split; [done|].
    eexists. split; [by exists (addr ty x)|]. by exists e'.
  - destruct (Hq b2 ltac:(by right; left)) as (Hal2 & x2 & Hb2 & Hx2).
    assert (mem2 !! b2 = Some x2) as Hm2.
    { subst mem2. rewrite lookup_insert_ne; [done|]. intros ->. apply Hnb. left. }
    destruct (sd_start_at ty (serve_disk ty x f) (addr ty x) true (b2 :: q') mem2 (waits r) (activated r) b2 x2 Hm2 Hx2 Hal2
      (mkDrv e' true (b2 :: q') mem2 (waits r) (activated r))) as ([] & s2 & Es & e2 & -> & He2); [by exists e'|].
    rewrite (bind_Ok _ _ _ _ _ Es). exists tt, (mkDrv e2 false (b2 :: q') mem2 (waits r) (activated r)).
    split; [done|]. exists (started ty x2 (serve_disk ty x f)). split; [by exists x2|]. by exists e2.
Qed.

(** A call puts the request at the end, and starts it when it is alone. *)
Lemma sdrw_begin_at ty f b q mem w wk x :
  queue_ok q mem → b ∉ q → mem !! b = Some x → request x → b mod 4 = 0 →
  returns (next_state ty q mem f w wk) (sdrw_begin b)
    (λ _, next_state ty (q ++ [b]) (<[b := set_bufsem (init_sem 0) x]> mem) f w wk).
Proof.
  intros [Hn Hq] Hnb Hb Hx Hal s (c & Hc & e & -> & He). unfold sdrw_begin.
  set (y := set_bufsem (init_sem 0) x). set (mem' := <[b := y]> mem).
  rewrite (bind_Ok _ _ _ tt (mkDrv e true q mem w wk)) by done.
  destruct (set_buf_run ty c true q mem w wk b x (set_bufsem (init_sem 0)) Hb (mkDrv e true q mem w wk))
    as ([] & s1 & E1 & e1 & -> & He1); [by exists e|]. rewrite (bind_Ok _ _ _ _ _ E1). fold y mem'. clear E1 e He.
  rewrite (bind_Ok _ _ _ tt (mkDrv e1 true (q ++ [b]) mem' w wk)) by done.
  rewrite (bind_Ok _ _ _ (q ++ [b]) (mkDrv e1 true (q ++ [b]) mem' w wk)) by done.
  assert (mem' !! b = Some y) as Hb' by apply lookup_insert_eq.
  destruct q as [|b0 q'].
  - rewrite (bind_Ok _ _ _ b (mkDrv e1 true [b] mem' w wk)) by done. rewrite Z.eqb_refl. cbn [when].
    destruct Hc as [a ->].
    destruct (sd_start_at ty f a true [b] mem' w wk b y Hb' ltac:(by destruct Hx) Hal (mkDrv e1 true [b] mem' w wk))
      as ([] & s2 & Es & e2 & -> & He2); [by exists e1|]. rewrite (bind_Ok _ _ _ _ _ Es).
    exists tt, (mkDrv e2 false [b] mem' w wk). split; [done|]. exists (started ty y f). split; [by exists y|]. by exists e2.
  - cbn [app]. rewrite (bind_Ok _ _ _ b0 (mkDrv e1 true (b0 :: q' ++ [b]) mem' w wk)) by done.
    assert (b0 ≠ b) as Hne by (intros ->; apply Hnb; left).
    rewrite (proj2 (Z.eqb_neq b0 b) Hne). cbn [when].
    rewrite (bind_Ok _ _ _ tt (mkDrv e1 true (b0 :: q' ++ [b]) mem' w wk)) by done.
    exists tt, (mkDrv e1 false (b0 :: q' ++ [b]) mem' w wk). split; [done|]. exists c. split; [|by exists e1].
    destruct Hc as (x0 & Hx0 & ->). exists x0. split; [|done]. subst mem'. by rewrite lookup_insert_ne.
Qed.

(** ** The queue as a specification sees it *)

(** a call of [sdrw] with the buffer [x] at [b], or an interrupt of the card *)
Inductive sd_event := Call (b : Z) (x : buf) | Interrupt.

Definition sd_event_run (e : sd_event) : M (drv D) unit :=
  match e with
  | Call b x => modify (λ s, put_bufs (<[b := x]> (bufs s)) s);; sdrw_begin b
  | Interrupt => sd_intr
  end.
End queue.

(** the requests in the order of their calls, the buffers, and the blocks of the card *)
Record sd_abs := mkAbs { a_queue : list Z; a_mem : gmap Z buf; a_disk : Z → list Z }.

(** a request is served at once and as a whole; its semaphore is posted once *)
Definition sd_abs_step (ty : Z) (a : sd_abs) (e : sd_event) : sd_abs :=
  match e with
  | Call b x => mkAbs (a_queue a ++ [b]) (<[b := set_bufsem (init_sem 0) x]> (a_mem a)) (a_disk a)
  | Interrupt =>
      match a_queue a with
      | b :: q =>
          match a_mem a !! b with
          | Some x => mkAbs q (<[b := served ty x (a_disk a) (mkSem 1 [])]> (a_mem a)) (serve_disk ty x (a_disk a))
          | None => a
          end
      | [] => a
      end
  end.
Definition sd_abs_run (ty : Z) (evs : list sd_event) (a : sd_abs) : sd_abs := fold_left (sd_abs_step ty) evs a.

(** a buffer is in one call at a time; the card raises an interrupt only for a request *)
Definition legal (a : sd_abs) (e : sd_event) : Prop :=
  match e with
  | Call b x => b ∉ a_queue a ∧ b mod 4 = 0 ∧ request x
  | Interrupt => a_queue a ≠ []
  end.
Fixpoint legal_run (ty : Z) (evs : list sd_event) (a : sd_abs) : Prop :=
  match evs with
  | [] => True
  | e :: evs => legal a e ∧ legal_run ty evs (sd_abs_step ty a e)
  end.

Definition disk_ok (f : Z → list Z) : Prop := ∀ a, length (f a) = 512%nat ∧ bytes (f a).

Lemma serve_disk_ok ty x f : request x → disk_ok f → disk_ok (serve_disk ty x f).
Proof.
  intros Hx Hf a. unfold serve_disk, put_block. destruct (is_write x); [|apply Hf].
  destruct (decide _); [by destruct Hx|apply Hf].
Qed.
Lemma served_length ty x f : request x → disk_ok f → length (serve_data ty x f) = 512%nat ∧ bytes (serve_data ty x f).
Proof. intros Hx Hf. unfold serve_data. destruct (is_write x); [by destruct Hx|apply Hf]. Qed.

Section refine.
Context {D : Type} `{sd_controller D}.

Record sd_rel (ty : Z) (a : sd_abs) (s : drv D) : Prop := {
  sr_queue : queue_ok (a_queue a) (a_mem a);
  sr_sem : ∀ b x, b ∈ a_queue a → a_mem a !! b = Some x → bufsem x = init_sem 0;
  sr_disk : disk_ok (a_disk a);
  sr_state : next_state ty (a_queue a) (a_mem a) (a_disk a) ∅ [] s }.

Lemma queue_ok_insert q mem b y : b ∉ q → queue_ok q mem → queue_ok q (<[b := y]> mem).
Proof.
  intros Hb [Hn Hq]. split; [done|]. intros b' Hb'. rewrite lookup_insert_ne by (intros ->; done). by apply Hq.
Qed.

Lemma waiting_insert ty q mem f c b y : b ∉ q → waiting ty q mem f c → waiting ty q (<[b := y]> mem) f c.
Proof.
  intros Hb. destruct q as [|b0 q]; [done|]. intros (x & Hx & ->). exists x. split; [|done].
  rewrite lookup_insert_ne; [done|]. intros ->. apply Hb. left.
Qed.

Lemma sd_call_refines ty a s b x : sd_rel ty a s → legal a (Call b x) →
  ∃ s', sd_event_run (Call b x) s = Ok (tt, s') ∧ sd_rel ty (sd_abs_step ty a (Call b x)) s'.
Proof.
  intros [Hq Hsem Hf (c & Hc & e & -> & He)] (Hb & Hal & Hx). cbn [sd_event_run sd_abs_step].
  set (q := a_queue a) in *. set (f := a_disk a) in *.
  rewrite (bind_Ok _ _ _ tt (mkDrv e false q (<[b := x]> (a_mem a)) ∅ [])) by done.
  destruct (sdrw_begin_at ty f b q (<[b := x]> (a_mem a)) ∅ [] x (queue_ok_insert _ _ _ _ Hb Hq) Hb
    (lookup_insert_eq _ _ _) Hx Hal (mkDrv e false q (<[b := x]> (a_mem a)) ∅ [])) as ([] & s' & E & Hs').
  { exists c. split; [by apply waiting_insert|]. by exists e. }
  rewrite insert_insert_eq in Hs'. exists s'. split; [exact E|]. destruct Hq as [Hn Hq]. split; cbn [a_queue a_mem a_disk].
  - split; [apply NoDup_app; split; [done|]; split; [intros y Hy ->%list_elem_of_singleton; done|apply NoDup_singleton]|].
    intros b' [Hb'|Hb']%elem_of_app.
    + rewrite lookup_insert_ne by (intros ->; done). by apply Hq.
    + apply list_elem_of_singleton in Hb' as ->. split; [done|]. eexists. rewrite lookup_insert_eq. split; [done|]. by destruct Hx.
  - intros b' x' [Hb'|Hb']%elem_of_app.
    + rewrite lookup_insert_ne by (intros ->; done). by apply Hsem.
    + apply list_elem_of_singleton in Hb' as ->. rewrite lookup_insert_eq. by intros [= <-].
  - exact Hf.
  - exact Hs'.
Qed.

Lemma sd_interrupt_refines ty a s : sd_rel ty a s → legal a Interrupt →
  ∃ s', sd_event_run Interrupt s = Ok (tt, s') ∧ sd_rel ty (sd_abs_step ty a Interrupt) s'.
Proof.
  destruct a as [q mem f]. intros [Hq Hsem Hf Hs] Hl. cbn [sd_event_run sd_abs_step a_queue a_mem a_disk] in *.
  destruct q as [|b q]; [done|].
  destruct (qk_request _ _ Hq b (list_elem_of_here _ _)) as (Hal & x & Hb & Hx). rewrite Hb.
  destruct (sd_intr_at ty f b q mem ∅ [] x (mkSemst (mkSem 1 []) ∅ []) Hq Hb Hf) with (s := s) as ([] & s' & E & Hs').
  { by rewrite (Hsem b x (list_elem_of_here _ _) Hb). }
  { exact Hs. }
  exists s'. split; [exact E|]. destruct Hq as [[Hnb Hn]%NoDup_cons Hq]. split; cbn [a_queue a_mem a_disk].
  - apply queue_ok_insert; [done|]. split; [done|]. intros b' Hb'. apply Hq. by right.
  - intros b' x' Hb'. rewrite lookup_insert_ne by (intros ->; done). apply Hsem. by right.
  - by apply serve_disk_ok.
  - exact Hs'.
Qed.

(** C7: Whatever the order of calls of [sdrw] and of interrupts, the driver never panics, spins or
    hangs, and serves the requests one by one in the order of their calls: each takes effect on
    the card as a whole, a read fills its buffer with the block as the requests before it left
    it, the buffer is marked as done and its semaphore is posted exactly once. *)
Theorem sd_refines_queue ty evs : ∀ a s, sd_rel ty a s → legal_run ty evs a →
  ∃ s', for_each evs sd_event_run s = Ok (tt, s') ∧ sd_rel ty (sd_abs_run ty evs a) s'.
Proof.
  induction evs as [|e evs IH]; intros a s Hr Hl; [by exists s|]. destruct Hl as [He Hl]. cbn [for_each].
  assert (∃ s1, sd_event_run e s = Ok (tt, s1) ∧ sd_rel ty (sd_abs_step ty a e) s1) as (s1 & E1 & Hr1)
    by (destruct e; [by apply sd_call_refines|by apply sd_interrupt_refines]).
  destruct (IH _ _ Hr1 Hl) as (s2 & E2 & Hr2). exists s2. by rewrite (bind_Ok _ _ _ _ _ E1).
Qed.

(** ** The block device *)

(** nothing is queued, and the card holds the blocks [f] *)
Definition drv_idle (ty : Z) (f : Z → list Z) (s : drv D) : Prop :=
  disk_ok f ∧ ∃ mem w wk, next_state ty [] mem f w wk s.

(** where the block [n] of the file system is on the card *)
Definition block_addr (ty n : Z) : Z := u32 (card_address ty (u32 (u32 n + BLOCKNO_OFFSET))).

Lemma block_addr_inj ty n m : 0 ≤ n < 2 ^ 22 - BLOCKNO_OFFSET → 0 ≤ m < 2 ^ 22 - BLOCKNO_OFFSET →
  block_addr ty n = block_addr ty m → n = m.
Proof.
  change (2 ^ 22 - BLOCKNO_OFFSET) with 4061184.
  assert (∀ k, 0 ≤ k < 4061184 → block_addr ty k = (k + 133120) * (if ty =? SD_TYPE_2_HC then 1 else 512)) as Ha.
  { intros k Hk. unfold block_addr, card_address, BLOCKNO_OFFSET.
    rewrite (u32_id k) by (change (2 ^ 32) with 4294967296; lia).
    rewrite (u32_id (k + 0x20800)) by (change (2 ^ 32) with 4294967296; lia).
    rewrite i32_id by (change (2 ^ 31) with 2147483648; lia).
    destruct (ty =? SD_TYPE_2_HC).
    - rewrite u32_id; change (2 ^ 32) with 4294967296; lia.
    - rewrite Z.shiftl_mul_pow2 by done. change (2 ^ 9) with 512.
      rewrite i32_id by (change (2 ^ 31) with 2147483648; lia).
      rewrite u32_id; change (2 ^ 32) with 4294967296; lia. }
  intros Hn Hm. rewrite !Ha by done. destruct (ty =? SD_TYPE_2_HC); lia.
Qed.

Lemma not_done x : request x → Z.land (flags x) (Z.lor B_VALID B_DIRTY) =? B_VALID = false.
Proof.
  intros Hx. apply Z.eqb_neq. intros E. destruct (rq_flags _ Hx) as [Hw|Hv].
  - unfold is_write in Hw. apply negb_true_iff, Z.eqb_neq in Hw. apply Hw.
    apply (f_equal (λ z, Z.land z B_DIRTY)) in E. rewrite <-Z.land_assoc in E. exact E.
  - apply (f_equal (λ z, Z.land z B_VALID)) in E. rewrite <-Z.land_assoc in E.
    change (Z.land (Z.lor B_VALID B_DIRTY) B_VALID) with B_VALID in E. rewrite Hv in E. done.
Qed.

Lemma wait_end_woken w me sm ws ak : ws !! w = Some (mkWaitData true me) →
  wait_sem_end w (mkSemst sm ws ak) = Ok (true, mkSemst sm (delete w ws) ak).
Proof. intros E. unfold wait_sem_end, set_waits. mred. cbn. rewrite E. cbn. rewrite E. done. Qed.

(** A call of [sdrw] on an idle driver, up to its return. *)
Lemma sdrw_run ty f mem ws wk w me b x s :
  disk_ok f → next_state ty [] mem f ws wk s → mem !! b = Some x → request x → b mod 4 = 0 →
  ∃ s' mem' ws' wk', sdrw w me b s = Ok (tt, s') ∧ next_state ty [] mem' (serve_disk ty x f) ws' wk' s' ∧
    (data <$> mem' !! b) = Some (serve_data ty x f).
Proof.
  intros Hf Hs Hb Hx Hal. unfold sdrw.
  assert (queue_ok [] mem) as Hq by (split; [apply NoDup_nil_2|by intros b' ?%elem_of_nil]).
  destruct (sdrw_begin_at ty f b [] mem ws wk x Hq ltac:(by intros ?%elem_of_nil) Hb Hx Hal s Hs) as ([] & s1 & E1 & Hs1).
  rewrite (bind_Ok _ _ _ _ _ E1). clear E1 Hs s. set (x1 := set_bufsem (init_sem 0) x) in *.
  destruct Hs1 as (c & Hc & e & -> & He). cbn [app] in *. set (mem1 := <[b := x1]> mem) in *.
  assert (mem1 !! b = Some x1) as Hb1 by apply lookup_insert_eq.
  rewrite (bind_Ok _ _ _ 1%nat (mkDrv e false [b] mem1 ws wk)) by done. cbn [Nat.add].
  cbn [sdrw_wait]. rewrite (bind_Ok _ _ _ x1 (mkDrv e false [b] mem1 ws wk)) by (by apply getopt_run).
  rewrite not_done by (by destruct Hx).
  set (x2 := set_bufsem (mkSem (-1) [w]) x). set (mem2 := <[b := x2]> mem).
  set (ws2 := <[w := mkWaitData false me]> ws).
  rewrite (bind_Ok _ _ _ false (mkDrv e false [b] mem2 ws2 wk)).
  2:{ unfold buf_sem. cbn [bufs bwaits woken]. rewrite Hb1.
      change (wait_sem_begin w me (mkSemst (bufsem x1) ws wk)) with
        (Ok (false, mkSemst (mkSem (-1) [w]) ws2 wk) : res (bool * semst)).
      unfold put_waits, put_bufs. cbn. do 2 f_equal. subst mem1 mem2. by rewrite insert_insert_eq. }
  assert (mem2 !! b = Some x2) as Hb2 by apply lookup_insert_eq.
  set (r := mkSemst (mkSem 0 []) (<[w := mkWaitData true me]> ws2) (me :: wk)).
  assert (post_sem (mkSemst (bufsem x2) ws2 wk) = Ok (tt, r)) as Hpost.
  { unfold post_sem, set_sem, set_waits, activate_proc. mred. cbn. rewrite decide_True by lia. cbn. unfold ws2 at 1.
    rewrite lookup_insert_eq. cbn.
    by rewrite decide_False by (by intros ?). }
  destruct (sd_intr_at ty f b [] mem2 ws2 wk x2 r) with (s := mkDrv e false [b] mem2 ws2 wk) as ([] & s3 & E3 & Hs3).
  - split; [apply NoDup_singleton|]. intros b' ->%list_elem_of_singleton. split; [done|]. exists x2. split; [done|]. by destruct Hx.
  - done.
  - exact Hf.
  - exact Hpost.
  - exists c. split; [|by exists e]. destruct Hc as (x' & Hx' & ->). exists x2. split; [done|].
    rewrite Hb1 in Hx'. injection Hx' as <-. done.
  - destruct Hs3 as (c3 & Hc3 & e3 & -> & He3).
    set (mem3 := <[b := served ty x2 f (sem r)]> mem2) in *. set (s3 := mkDrv e3 false [] mem3 (waits r) (activated r)) in *.
    assert (mem3 !! b = Some (served ty x2 f (sem r))) as Hb3 by apply lookup_insert_eq.
    set (s4 := mkDrv e3 false [] mem3 (delete w (waits r)) (activated r)).
    rewrite (bind_Ok _ _ _ tt s4).
    2:{ cbn [asleep]. rewrite bind_assoc.
        rewrite (bind_Ok _ _ _ (mkWaitData false me) (mkDrv e false [b] mem2 ws2 wk)) by (apply getopt_run; apply lookup_insert_eq).
        cbn [up]. rewrite bind_assoc, (bind_Ok _ _ _ _ _ E3), bind_assoc.
        rewrite (bind_Ok _ _ _ (mkWaitData true me) s3) by (apply getopt_run; apply lookup_insert_eq).
        cbn [up]. rewrite (bind_Ok _ _ _ tt s3) by done.
        rewrite (bind_Ok _ _ _ true s4); [done|]. unfold buf_sem. cbn [s3 bufs bwaits woken]. rewrite Hb3.
        rewrite (wait_end_woken w me) by apply lookup_insert_eq.
        unfold put_waits, put_bufs, s4. cbn [bufs emmc sdlock buflist bwaits woken waits activated sem]. do 3 f_equal.
        subst mem3. by rewrite insert_insert_eq. }
    cbn [sdrw_wait]. rewrite (bind_Ok _ _ _ (served ty x2 f (sem r)) s4) by (by apply getopt_run).
    change (Z.land (flags (served ty x2 f (sem r))) (Z.lor B_VALID B_DIRTY) =? B_VALID) with true. cbv iota.
    exists s4, mem3, (delete w (waits r)), (activated r). split; [done|]. split; [|by rewrite Hb3].
    exists c3. split; [done|]. by exists e3.
Qed.

Lemma sd_read_run ty f s w me b junk n :
  drv_idle ty f s → b mod 4 = 0 → length junk = 512%nat → bytes junk →
  ∃ s', sd_read w me b junk n s = Ok (f (block_addr ty n), s') ∧ drv_idle ty f s'.
Proof.
  intros (Hf & mem & ws & wk & c & Hc & e & -> & He) Hal Hl Hby. unfold sd_read.
  set (x := mkBuf 0 _ junk (mkSem 0 [])). set (mem1 := <[b := x]> mem).
  rewrite (bind_Ok _ _ _ tt (mkDrv e false [] mem1 ws wk)) by done.
  destruct (sdrw_run ty f mem1 ws wk w me b x (mkDrv e false [] mem1 ws wk)) as (s' & mem' & ws' & wk' & E & Hs' & Hd);
    [done|by exists c; split; [|exists e]|apply lookup_insert_eq|split; [by right|done..]|done|].
  rewrite (bind_Ok _ _ _ _ _ E). destruct (mem' !! b) as [y|] eqn:Ey; [|done]. injection Hd as Hd.
  change (serve_data ty x f) with (f (block_addr ty n)) in Hd.
  exists s'. destruct Hs' as (c' & Hc' & e' & -> & He'). rewrite (bind_Ok _ _ _ y (mkDrv e' false [] mem' ws' wk'))
    by (by apply getopt_run).
  rewrite mret_run, Hd, take_ge by (rewrite (proj1 (Hf _)); done). split; [done|].
  split; [done|]. exists mem', ws', wk', c'. split; [done|]. by exists e'.
Qed.

Lemma sd_write_run ty f s w me b junk n v :
  drv_idle ty f s → b mod 4 = 0 → length junk = 512%nat → length v = 512%nat → bytes v →
  ∃ s', sd_write w me b junk n v s = Ok (tt, s') ∧ drv_idle ty (put_block (block_addr ty n) v f) s'.
Proof.
  intros (Hf & mem & ws & wk & c & Hc & e & -> & He) Hal Hl Hv Hby. unfold sd_write.
  rewrite take_ge by (rewrite Hv; done). unfold splice. rewrite take_0, Hv. cbn [app Nat.add].
  rewrite drop_ge, app_nil_r by lia.
  set (x := mkBuf _ _ v (mkSem 0 [])). set (mem1 := <[b := x]> mem).
  rewrite (bind_Ok _ _ _ tt (mkDrv e false [] mem1 ws wk)) by done.
  assert (request x) as Hx by (split; [by left|done..]).
  destruct (sdrw_run ty f mem1 ws wk w me b x (mkDrv e false [] mem1 ws wk)) as (s' & mem' & ws' & wk' & E & Hs' & _);
    [done|by exists c; split; [|exists e]|apply lookup_insert_eq|done|done|].
  exists s'. split; [exact E|].
  change (put_block (block_addr ty n) v f) with (serve_disk ty x f). split; [by apply serve_disk_ok|].
  by exists mem', ws', wk'.
Qed.

(** C8: On an idle driver [sd_read] and [sd_write] return, woken by the card's interrupt, and make
    the card an array of blocks: a read gives the block, a write changes that block and no other
    block of the file system, and the driver is idle again. *)
Theorem block_device_correct ty f s w me b junk n v :
  drv_idle ty f s → b mod 4 = 0 → length junk = 512%nat → bytes junk → length v = 512%nat → bytes v →
  (∃ s', sd_read w me b junk n s = Ok (f (block_addr ty n), s') ∧ drv_idle ty f s') ∧
  (∃ s', sd_write w me b junk n v s = Ok (tt, s') ∧
     ∃ f', drv_idle ty f' s' ∧ f' (block_addr ty n) = v ∧
       ∀ m, 0 ≤ n < 2 ^ 22 - BLOCKNO_OFFSET → 0 ≤ m < 2 ^ 22 - BLOCKNO_OFFSET → m ≠ n →
         f' (block_addr ty m) = f (block_addr ty m)).
Proof.
  intros Hs Hal Hl Hjb Hv Hvb. split; [by apply sd_read_run|].
  destruct (sd_write_run ty f s w me b junk n v) as (s' & E & Hs'); [done..|].
  exists s'. split; [exact E|]. exists (put_block (block_addr ty n) v f). split; [exact Hs'|].
  unfold put_block. split; [by rewrite decide_True|]. intros m Hn Hm Hne. rewrite decide_False; [done|].
  intros Ea. apply Hne. by apply (block_addr_inj ty).
Qed.
End refine.
