(* ===== verification/SdSim.v ===== *)
(** * A controller that keeps the laws of [sd_controller]

    Every event takes two microsecond delays to show; the card answers every command without an
    error.  The theorems of [SdSpec] are run on it. *)

From Stdlib Require Import ZArith Lia.
From S2P Require Import Prelude Words Sync Layout Device Emmc EmmcSpec Sd SdSpec.

Record sim := mkSim { s_blocks : Z → list Z; s_ph : phase; s_seen : bool; s_lat : nat }.

Definition sim_read (a : Z) (d : sim) : Z * sim :=
  if a =? EMMC_INTERRUPT then
    if event (s_ph d) =? 0 then (0, d)
    else if s_seen d then (event (s_ph d), d)
    else match s_lat d with
         | O => (event (s_ph d), mkSim (s_blocks d) (s_ph d) true 0)
         | S _ => (0, d)
         end
  else if a =? EMMC_RESP0 then (0x900, d)
  else if a =? EMMC_DATA then
    match s_ph d with
    | Moving false a (w :: l) =>
        (w, mkSim (s_blocks d) (if decide (l = []) then Finishing a else Moving false a l) false 2)
    | _ => (0, d)
    end
  else (0, d).

Definition sim_write (a v : Z) (d : sim) : sim :=
  if a =? EMMC_INTERRUPT then
    if s_seen d && (v =? event (s_ph d)) then
      let c := advance (mkCardst (s_blocks d) (s_ph d) true) in mkSim (blocks c) (ph c) false 2
    else d
  else if a =? EMMC_ARG1 then
    match s_ph d with Idle _ => mkSim (s_blocks d) (Idle v) false 2 | _ => d end
  else if a =? EMMC_CMDTM then
    match s_ph d with Idle a => mkSim (s_blocks d) (Command (v =? command true) a) false 2 | _ => d end
  else if a =? EMMC_DATA then
    match s_ph d with
    | Moving true a l =>
        if decide (length l = 127%nat)
        then mkSim (put_block a (enc_words 4 (l ++ [v])) (s_blocks d)) (Finishing a) false 2
        else mkSim (s_blocks d) (Moving true a (l ++ [v])) false 2
    | _ => d
    end
  else d.

#[export] Instance sim_device : device sim :=
  {| dev_read := sim_read; dev_write := sim_write;
     dev_delay_us := λ _ d, mkSim (s_blocks d) (s_ph d) (s_seen d) (pred (s_lat d));
     dev_delay := λ _ d, d; dev_buffer := λ _ l _, l |}.

Definition sim_holds (d : sim) (c : cardst) : Prop :=
  s_blocks d = blocks c ∧ s_ph d = ph c ∧ s_seen d = seen c ∧ disk_ok (s_blocks d).

Lemma sim_settles f p n : event p ≠ 0 →
  settles (event p) n (mkSim f p false n) (mkSim f p true 0).
Proof.
  intros He. induction n as [|n IH].
  - constructor. cbn. unfold sim_read. cbn [Z.eqb s_ph s_seen s_lat]. rewrite Z.eqb_refl.
    by rewrite (proj2 (Z.eqb_neq _ 0) He).
  - apply (settles_later _ _ _ (mkSim f p false (S n))); [|exact IH]. cbn. unfold sim_read. rewrite Z.eqb_refl. cbn [s_ph s_seen s_lat].
    by rewrite (proj2 (Z.eqb_neq _ 0) He).
Qed.

Ltac sim_ok := split; [split; [done|split; [done|split; [done|done]]]|cbn; lia].

#[export] Instance sim_controller : sd_controller sim.
Proof.
  refine {| holds := λ d c, sim_holds d c ∧ (s_lat d ≤ 2)%nat |}.
  - intros d c a [(Eb & _ & _ & Hb) _]. rewrite <-Eb. apply Hb.
  - intros [f p sn lat] [f' p' sn'] [(Eb & Ep & Es & Hb) Hl] He. cbn in *. subst.
    exists (mkSim f' p' sn' lat). split; [|sim_ok]. unfold sim_read. rewrite Z.eqb_refl. cbn [s_ph]. by rewrite He.
  - intros [f p sn lat] f' p' [(Eb & Ep & Es & Hb) Hl] He. cbn in *. subst.
    exists lat, (mkSim f' p' true 0). split; [lia|]. split; [by apply sim_settles|]. sim_ok.
  - intros [f p sn lat] f' p' [(Eb & Ep & Es & Hb) Hl]. cbn in *. subst.
    exists (mkSim f' p' true lat). split; [|sim_ok]. unfold sim_read. rewrite Z.eqb_refl. cbn [s_ph s_seen].
    destruct (Z.eqb_spec (event p') 0) as [E|E]; [by rewrite E|done].
  - intros [f p sn lat] f' p' [(Eb & Ep & Es & Hb) Hl]. cbn in *. subst. unfold sim_write. rewrite Z.eqb_refl.
    cbn [s_seen s_ph s_blocks]. rewrite Z.eqb_refl. cbn [andb]. sim_ok.
  - intros [f p sn lat] f' a [(Eb & Ep & Es & Hb) Hl]. cbn in *. subst. unfold sim_write. rewrite Z.eqb_refl. cbn. sim_ok.
  - intros [f p sn lat] f' a [(Eb & Ep & Es & Hb) Hl]. cbn in *. subst. eexists 0, _. split; [reflexivity|]. split; [done|]. sim_ok.
  - intros [f p sn lat] f' a [(Eb & Ep & Es & Hb) Hl]. cbn in *. subst.
    change (sim_write EMMC_BLKSIZECNT 512 ?d) with d. sim_ok.
  - intros [f p sn lat] f' a a' [(Eb & Ep & Es & Hb) Hl] Ha. cbn in *. subst.
    change (sim_write EMMC_ARG1 a' (mkSim f' (Idle a) false lat)) with (mkSim f' (Idle a') false 2). sim_ok.
  - intros [f p sn lat] f' a wr [(Eb & Ep & Es & Hb) Hl]. cbn in *. subst.
    change (sim_write EMMC_CMDTM (command wr) (mkSim f' (Idle a) false lat))
      with (mkSim f' (Command (command wr =? command true) a) false 2). destruct wr; sim_ok.
  - intros [f p sn lat] f' wr a [(Eb & Ep & Es & Hb) Hl]. cbn in *. subst.
    exists 0x900, (mkSim f' (Ready wr a) false lat). split; [reflexivity|]. split; [lia|]. split; [reflexivity|]. sim_ok.
  - intros [f p sn lat] f' a w l [(Eb & Ep & Es & Hb) Hl]. cbn in *. subst.
    exists (mkSim f' (if decide (l = []) then Finishing a else Moving false a l) false 2). split; [reflexivity|].
    destruct (decide (l = [])); sim_ok.
  - intros [f p sn lat] f' a l w [(Eb & Ep & Es & Hb) Hl] Hw Hlen. cbn in *. subst.
    change (sim_write EMMC_DATA w (mkSim f' (Moving true a l) false lat)) with
      (if decide (length l = 127%nat) then mkSim (put_block a (enc_words 4 (l ++ [w])) f') (Finishing a) false 2
       else mkSim f' (Moving true a (l ++ [w])) false 2).
    destruct (decide (length l = 127%nat)) as [E|E]; [|sim_ok].
    split; [|cbn; lia]. split; [done|]. split; [done|]. split; [done|]. intros x. cbn. unfold put_block.
    destruct (decide (x = a)); [|apply Hb]. split; [|apply bytes_enc_words].
    rewrite length_enc_words, length_app, E. done.
Defined.

(** ** Runs *)

Definition zeros : list Z := replicate 512 0.
Definition ones : list Z := replicate 512 1.
Lemma zeros_ok : length zeros = 512%nat ∧ bytes zeros.
Proof. split; [done|]. by_decision. Qed.
Lemma ones_ok : length ones = 512%nat ∧ bytes ones.
Proof. split; [done|]. by_decision. Qed.

(** a card of high capacity, empty, and a driver with nothing to do *)
Definition blank : Z → list Z := λ _, zeros.
Definition sim_idle : sim := mkSim blank (Idle 0) false 0.
Definition hc_card : SDDescriptor := mkCard 0 [] [] [] 0 0 0 SD_TYPE_2_HC 0 1 0 0 0 0 None 0.
Definition drv_ex : drv sim := mkDrv (mkSd hc_card 1 0 sim_idle) false [] ∅ ∅ [].

Lemma blank_ok : disk_ok blank.
Proof. intros a. apply zeros_ok. Qed.

Lemma drv_ex_next : next_state SD_TYPE_2_HC [] ∅ blank ∅ [] drv_ex.
Proof.
  exists (mkCardst blank (Idle 0) false). split; [by exists 0|]. eexists. split; [reflexivity|].
  split; [|reflexivity]. split; [|cbn; lia]. split; [done|]. split; [done|]. split; [done|exact blank_ok].
Qed.

Definition read_req (n : Z) : buf := mkBuf 0 n zeros (mkSem 0 []).
Definition write_req (n : Z) (v : list Z) : buf := mkBuf (Z.lor B_DIRTY B_VALID) n v (mkSem 0 []).

(** a read, a write and a read of the same block, all three queued before the card finishes one *)
Definition events_ex : list sd_event :=
  [Call 16 (read_req 7); Call 32 (write_req 7 ones); Call 48 (read_req 7); Interrupt; Interrupt; Interrupt].

Lemma sd_refines_queue_witness :
  ∃ s', for_each events_ex sd_event_run drv_ex = Ok (tt, s') ∧
    data <$> bufs s' !! 16 = Some zeros ∧ data <$> bufs s' !! 48 = Some ones.
Proof.
  destruct (sd_refines_queue SD_TYPE_2_HC events_ex (mkAbs [] ∅ blank) drv_ex) as (s' & E & R).
  - split; [split; [apply NoDup_nil_2|intros b Hb; by apply elem_of_nil in Hb]|intros b x Hb; by apply elem_of_nil in Hb
      |exact blank_ok|exact drv_ex_next].
  - assert (request (read_req 7)) as R1 by (split; [by right|apply zeros_ok..]).
    assert (request (write_req 7 ones)) as R2 by (split; [by left|apply ones_ok..]).
    cbn [legal_run events_ex]. repeat split; try done; by_decision.
  - exists s'. split; [exact E|]. destruct R as [_ _ _ (c & _ & e & -> & _)]. split; reflexivity.
Defined.

Lemma block_device_correct_witness :
  ∃ s', sd_write 8 9 16 zeros 5 ones drv_ex = Ok (tt, s') ∧ ∃ f', f' (block_addr SD_TYPE_2_HC 5) = ones ∧
    f' (block_addr SD_TYPE_2_HC 6) = zeros.
Proof.
  destruct (block_device_correct SD_TYPE_2_HC blank drv_ex 8 9 16 zeros 5 ones) as (_ & s' & E & f' & _ & E1 & E2);
    [split; [exact blank_ok|exists ∅, ∅, []; exact drv_ex_next]|reflexivity|apply zeros_ok|apply zeros_ok|apply ones_ok|apply ones_ok|].
  exists s'. split; [exact E|]. exists f'. split; [exact E1|]. apply (E2 6); by_decision.
Defined.

(** The run itself, without the theorem. *)
Example sim_runs :
  match (sd_write 8 9 16 zeros 5 ones;; sd_read 8 9 32 zeros 5) drv_ex with
  | Ok (v, s) => v = ones ∧ buflist s = [] ∧ woken s = [9; 9]
  | _ => False
  end.
Proof. vm_compute. repeat split. Qed.
