(* ===== verification/Trap.v ===== *)
(** * System calls and exceptions: [kernel/syscall.c], [kernel/sysproc.c], [aarch64/trap.c],
      [driver/interrupt.c]

    [kst] joins the processes, the memory, one CPU's timers, the trap frames and the table of
    interrupt handlers.  Handlers are function pointers, numbers with 0 for NULL; [call_sys] and
    [call_int] are the calls through them, because the tables are filled by initialisers all
    over the kernel.  Device registers are read and written through [device_get_u32] and
    [device_put_u32]; what they hold is up to the devices. *)

From Stdlib Require Import ZArith Lia.
From S2P Require Import Prelude Words Sync Mmu Layout Device Mem Pt Cache Paging Sched Proc.
From S2P Require Timer.

(** ** Checking user memory *)

Definition user_readable (start size : Z) : bool := true.

(** the loop of [user_writeable]: every 512 bytes, from the address [i] *)
Fixpoint writeable_loop (fuel : nat) (pd i end_ : Z) : V bool :=
  match fuel with
  | O => nofuel
  | S fuel =>
      if i <? end_ then
        pte ← get_pte pd i false;
        if pte =? 0 then mret false
        else
          e ← read_pte pte;
          if negb (Z.land e PTE_RO =? 0) then mret false
          else writeable_loop fuel pd (u64 ((i / BLOCK_SIZE + 1) * BLOCK_SIZE)) end_
      else mret true
  end.
Definition user_writeable (pd start size : Z) : V bool :=
  writeable_loop (Z.to_nat (size / BLOCK_SIZE) + 3) pd start (u64 (start + size)).

Section strlen.
Context {S : Type}.
(** a load from user memory, with the page faults it takes *)
Context (load_user : Z → M S Z).

Fixpoint strlen_loop (str i : Z) (n : nat) : M S Z :=
  match n with
  | O => mret 0
  | Datatypes.S n =>
      if user_readable (str + i) 1 then
        c ← load_user (str + i);
        if c =? 0 then mret (i + 1) else strlen_loop str (i + 1) n
      else mret 0
  end.
Definition user_strlen (str maxlen : Z) : M S Z := strlen_loop str 0 (Z.to_nat maxlen).
End strlen.

(** ** System calls on processes *)

(** the result of a function that returns [int], as the [u64] in [x0] *)
Definition ret_int (v : Z) : Z := u64 (i32 v).

Section sysproc.
Context {X : Type} `{proc_env X}.
Context (cpuid : nat) (root_proc root_container : Z) (trap_return : Z).
Local Notation PR := (M (pstate X)).

Definition sys_gettid : PR Z := me ← this cpuid; t ← proc_at me; mret (ret_int (localpid t)).
Definition sys_set_tid_address (tidptr : Z) : PR Z :=
  me ← this cpuid; t ← proc_at me; mret (ret_int (localpid t)).
Definition sys_sigprocmask : PR Z := mret 0.
Definition sys_rt_sigprocmask : PR Z := mret 0.
Definition sys_myyield : PR Z := sched_ (yield cpuid root_container);; mret 0.
Definition sys_clone (flag childstk : Z) : PR Z :=
  if negb (flag =? 17) then mret (ret_int (-1))
  else r ← fork cpuid root_proc root_container trap_return; mret (ret_int r).
(** these three never come back, and their result is never seen *)
Definition sys_myexit (n : Z) : PR Z := exit_ cpuid root_proc root_container n;; mret 0.
Definition sys_exit (n : Z) : PR Z := exit_ cpuid root_proc root_container n;; mret 0.
Definition sys_exit_group (n : Z) : PR Z := exit_ cpuid root_proc root_container n;; mret 0.
(** [w] is where [wait] keeps its [WaitData]; [while (1)] for what is not supported *)
Definition sys_wait4 (w pid_ options wstatus rusage : Z) : PR wait_result :=
  if negb (pid_ =? -1) || negb (wstatus =? 0) || negb (options =? 0) || negb (rusage =? 0) then spin
  else wait cpuid root_container w.
End sysproc.

Definition sys_pstat : Paging.P Z := invm (inmem left_page_cnt).
Definition sys_sbrk (invalid_pt cur size : Z) : Paging.P Z := sbrk invalid_pt cur size.

(** ** The state an exception finds *)

(** the trap frame, with [x] as the list of its 32 registers *)
Record UserContext := mkUctx {
  q00 : Z; q01 : Z; tpidr : Z; useless : Z; u_spsr : Z; u_elr : Z; u_lr : Z; u_sp : Z; x_ : list Z }.
Definition set_x (i : nat) (v : Z) (u : UserContext) : UserContext :=
  mkUctx (q00 u) (q01 u) (tpidr u) (useless u) (u_spsr u) (u_elr u) (u_lr u) (u_sp u) (<[i := v]> (x_ u)).

Record kst (X : Type) := mkKst {
  ps : pstate X; vmem : pg; clk : Timer.cpu; frames_ : gmap Z UserContext;
  syscall_table : list Z; int_handler : list Z }.
Arguments mkKst {X} _ _ _ _ _ _.
Arguments ps {X} _.
Arguments vmem {X} _.
Arguments clk {X} _.
Arguments frames_ {X} _.
Arguments syscall_table {X} _.
Arguments int_handler {X} _.

Definition NR_SYSCALL : Z := 512.
Definition NUM_IRQ_TYPES : Z := 64.
Definition IRQ_PENDING_1 : Z := MMIO_BASE + 0xB204.
Definition IRQ_PENDING_2 : Z := MMIO_BASE + 0xB208.
Definition ENABLE_IRQS_1 : Z := MMIO_BASE + 0xB210.
Definition GPU_INT_ROUTE : Z := LOCAL_BASE + 0xC.
Definition GPU_IRQ2CORE (i : Z) : Z := i.
Definition IRQ_SRC_CORE (i : Z) : Z := LOCAL_BASE + 0x60 + 4 * i.
Definition IRQ_SRC_GPU : Z := Z.shiftl 1 8.
Definition IRQ_SRC_CNTPNSIRQ : Z := Z.shiftl 1 1.
Definition ESR_EC_SHIFT : Z := 26.
Definition ESR_ISS_MASK : Z := 0xFFFFFF.
Definition ESR_IR_MASK : Z := Z.shiftl 1 25.
Definition ESR_EC_UNKNOWN : Z := 0x00.
Definition ESR_EC_SVC64 : Z := 0x15.
Definition ESR_EC_IABORT_EL0 : Z := 0x20.
Definition ESR_EC_IABORT_EL1 : Z := 0x21.
Definition ESR_EC_DABORT_EL0 : Z := 0x24.
Definition ESR_EC_DABORT_EL1 : Z := 0x25.

Section trap.
Context {X : Type} `{proc_env X}.
Context (cpuid : nat) (root_proc root_container : Z) (trap_return : Z).
Context (counter : nat → Z) (frequency : Z) (timer_handler : Z → M Timer.cpu unit).
Local Notation K := (M (kst X)).
Context (call_sys : Z → Z → Z → Z → Z → Z → Z → K Z) (call_int : Z → K unit).
Context (device_get_u32 : Z → K Z) (device_put_u32 : Z → Z → K unit).
Context (invalid_pt : Z).

Definition put_ps (p : pstate X) (s : kst X) : kst X :=
  mkKst p (vmem s) (clk s) (frames_ s) (syscall_table s) (int_handler s).
Definition put_vmem (v : pg) (s : kst X) : kst X :=
  mkKst (ps s) v (clk s) (frames_ s) (syscall_table s) (int_handler s).
Definition put_clk (c : Timer.cpu) (s : kst X) : kst X :=
  mkKst (ps s) (vmem s) c (frames_ s) (syscall_table s) (int_handler s).
Definition put_frames (f : gmap Z UserContext) (s : kst X) : kst X :=
  mkKst (ps s) (vmem s) (clk s) f (syscall_table s) (int_handler s).
Definition put_handlers (l : list Z) (s : kst X) : kst X :=
  mkKst (ps s) (vmem s) (clk s) (frames_ s) (syscall_table s) l.
Definition inproc {A} (m : M (pstate X) A) : K A := on ps put_ps m.
Definition context_at (c : Z) : K UserContext := getopt (λ s, frames_ s !! c).

Definition syscall_entry (context : Z) : K unit :=
  c ← context_at context;
  let x i := nth i (x_ c) 0 in
  let id := x 8%nat in
  table ← gets syscall_table;
  let f := nth (Z.to_nat id) table 0 in
  when ((id <? NR_SYSCALL) && negb (f =? 0))
    (ret ← call_sys f (x 0%nat) (x 1%nat) (x 2%nat) (x 3%nat) (x 4%nat) (x 5%nat);
     c ← context_at context;
     modify (λ s, put_frames (<[context := set_x 0 ret c]> (frames_ s)) s)).

(** ** Interrupts *)

(** [define_early_init(interrupt)] *)
Definition init_interrupt : K unit :=
  modify (put_handlers (replicate (Z.to_nat NUM_IRQ_TYPES) 0));;
  device_put_u32 GPU_INT_ROUTE (GPU_IRQ2CORE 0).

Definition set_interrupt_handler (type handler : Z) : K unit :=
  device_put_u32 (ENABLE_IRQS_1 + 4 * (type / 32)) (u32 (Z.shiftl 1 (type mod 32)));;
  l ← gets int_handler;
  modify (put_handlers (<[Z.to_nat type := handler]> l)).

Definition pending (map i : Z) : bool := negb (Z.land (Z.shiftr map i) 1 =? 0).

(** one round of the loop over the lines *)
Definition dispatch (map i : Z) : K unit :=
  when (pending map i)
    (l ← gets int_handler;
     let h := nth (Z.to_nat i) l 0 in
     if negb (h =? 0) then call_int h else panic).

Definition interrupt_global_handler (fuel : nat) : K unit :=
  source ← device_get_u32 (IRQ_SRC_CORE (Z.of_nat cpuid));
  source ← (if negb (Z.land source IRQ_SRC_CNTPNSIRQ =? 0) then
      on clk put_clk (Timer.invoke_clock_handler counter timer_handler fuel);;
      mret (Z.lxor source IRQ_SRC_CNTPNSIRQ)
    else mret source);
  source ← (if negb (Z.land source IRQ_SRC_GPU =? 0) then
      lo ← device_get_u32 IRQ_PENDING_1;
      hi ← device_get_u32 IRQ_PENDING_2;
      for_each (zseq 0 (Z.to_nat NUM_IRQ_TYPES)) (dispatch (Z.lor lo (Z.shiftl hi 32)));;
      mret (Z.lxor source IRQ_SRC_GPU)
    else mret source);
  assert (source =? 0).

(** ** Exceptions *)

(** [t->ucontext = context]; the record of a process has the [elr] of its context *)
Definition set_ucontext (context e : Z) (t : proc) : proc :=
  mkProc (killed t) (idle t) (pid t) (localpid t) (exitcode t) (state t) (childexit t) (children t)
    (parent t) (container_ t) (kstack t) (kcontext t) context (oftable t) (openfile t) (cwd t) e (entry t).

(** [esr] and [far] are what [arch_get_esr] and [arch_get_far] read.  The page directory of a
    process is found by the address of the process. *)
Definition trap_global_handler (fuel : nat) (context esr far : Z) : K unit :=
  me ← inproc (this cpuid);
  c ← context_at context;
  inproc (set_proc me (set_ucontext context (u_elr c)));;
  let ec := Z.shiftr esr ESR_EC_SHIFT in
  let iss := Z.land esr ESR_ISS_MASK in
  let ir := Z.land esr ESR_IR_MASK in
  (if ec =? ESR_EC_UNKNOWN then
     if negb (ir =? 0) then panic else interrupt_global_handler fuel
   else if ec =? ESR_EC_SVC64 then syscall_entry context
   else if (ec =? ESR_EC_IABORT_EL0) || (ec =? ESR_EC_IABORT_EL1)
        || (ec =? ESR_EC_DABORT_EL0) || (ec =? ESR_EC_DABORT_EL1) then
     on vmem put_vmem (pgfault invalid_pt me iss far);; mret tt
   else panic);;
  me ← inproc (this cpuid);
  t ← inproc (proc_at me);
  c ← context_at context;
  when (killed t && (Z.shiftr (u_elr c) 48 =? 0)) (inproc (exit_ cpuid root_proc root_container (-1))).

Definition trap_error_handler (type : Z) : K unit := panic.
End trap.
