(* ===== verification/TrapSpec.v ===== *)
(** * What the checks of user memory and the interrupt dispatcher promise *)

From Stdlib Require Import ZArith Lia.
From S2P Require Import Prelude Words Sync Mmu Layout KernelPt Mem MemSpec Pt PtSpec Cache CacheLog Paging PagingSpec Sched Proc Trap.
From S2P Require Timer Rbtree.

(** ** [user_writeable] *)

(** the page of [va] has an entry, and it is not marked read-only *)
Definition writable_entry (L : Z → option Z) (va : Z) : Prop :=
  ∃ e, L (va / 4096) = Some e ∧ Z.land e PTE_RO = 0.

Lemma same_step i va : i ≤ va < (i / BLOCK_SIZE + 1) * BLOCK_SIZE → va / 4096 = i / 4096.
Proof. unfold BLOCK_SIZE. intros H. zmod. Qed.

Lemma writeable_loop_run cur root T L s end_ :
  space s cur root T L → end_ ≤ 2 ^ 48 → ∀ fuel i, 0 ≤ i → fuel ≠ O →
  (end_ + 511) / 512 < Z.of_nat fuel + i / 512 →
  ∃ b : bool, writeable_loop fuel cur i end_ s = Ok (b, s) ∧
    (b = true ↔ ∀ va, i ≤ va < end_ → writable_entry L va).
Proof.
  intros Sp Hend. change (2 ^ 48) with 281474976710656 in Hend.
  induction fuel as [|fuel IH]; intros i Hi Hn Hf; [done|]. cbn [writeable_loop].
  destruct (Z.ltb_spec i end_) as [Hlt|Hge].
  2:{ exists true. split; [done|]. split; [|done]. intros _ va Hva. lia. }
  assert (Hva : 0 ≤ i < 2 ^ 48) by (change (2 ^ 48) with 281474976710656; lia).
  rewrite (bind_Ok _ _ _ _ _ (get_pte_find cur root T s L i Sp)).
  destruct (L (i / 4096)) as [e|] eqn:El.
  2:{ rewrite (no_leaf cur root T s L i Sp Hva El). exists false. split; [done|]. split; [done|].
      intros H. destruct (H i ltac:(lia)) as (e & E & _). congruence. }
  destruct (read_leaf cur root T s L i e Sp Hva El) as [Hp Er].
  rewrite (proj2 (Z.eqb_neq _ 0) Hp), (bind_Ok _ _ _ _ _ Er).
  destruct (Z.eqb_spec (Z.land e PTE_RO) 0) as [Hro|Hro]; cbn [negb].
  2:{ exists false. split; [done|]. split; [done|].
      intros H. destruct (H i ltac:(lia)) as (e' & E & ?). congruence. }
  set (i' := (i / BLOCK_SIZE + 1) * BLOCK_SIZE). unfold BLOCK_SIZE in i'.
  assert (u64 i' = i') as -> by (apply Z.mod_small; change (2 ^ 64) with 18446744073709551616; subst i'; zmod).
  destruct (IH i') as (b & E & Hb); [subst i'; zmod|destruct fuel; [zmod|done]|subst i'; zmod|].
  exists b. split; [done|]. rewrite Hb. split; intros H va Hv.
  - destruct (Z.lt_ge_cases va i') as [Hs|Hs]; [|apply H; lia].
    exists e. rewrite (same_step i va) by (unfold BLOCK_SIZE; subst i'; lia). by split.
  - apply H. subst i'. zmod.
Qed.

(** C31: [user_writeable] walks the buffer in steps of 512 bytes, yet its answer is the one of the
    byte by byte definition: it returns, changes nothing, and says yes exactly when the page of
    every address of the buffer has a page table entry that is not read-only. *)
Theorem user_writeable_correct cur root T L s start size :
  space s cur root T L → 0 ≤ start → 0 ≤ size → start + size ≤ 2 ^ 48 →
  ∃ b : bool, user_writeable cur start size s = Ok (b, s) ∧
    (b = true ↔ ∀ va, start ≤ va < start + size → writable_entry L va).
Proof.
  intros Sp H1 H2 H3. unfold user_writeable. change (2 ^ 48) with 281474976710656 in H3.
  assert (u64 (start + size) = start + size) as ->
    by (apply Z.mod_small; change (2 ^ 64) with 18446744073709551616; lia).
  eapply writeable_loop_run; [done|change (2 ^ 48) with 281474976710656; lia|done|lia|].
  unfold BLOCK_SIZE. rewrite Nat2Z.inj_add, Z2Nat.id by zmod. zmod.
Qed.

Lemma user_writeable_correct_witness :
  ∃ b : bool, user_writeable 8 4000 1000 demo_vm = Ok (b, demo_vm) ∧
    (b = true ↔ ∀ va, 4000 ≤ va < 4000 + 1000 → writable_entry (λ _, None) va).
Proof.
  apply (user_writeable_correct 8 (page_ 0) demo_tables (λ _, None) demo_vm 4000 1000);
    [exact (us_space _ _ _ _ _ _ demo_uspace)|lia|lia|by_decision].
Defined.

(** An entry that maps nothing is taken for a writable page. *)
Lemma user_writeable_unmapped cur root T L s start :
  space s cur root T L → 0 ≤ start < 2 ^ 48 → L (start / 4096) = Some 0 →
  user_writeable cur start 1 s = Ok (true, s).
Proof.
  intros Sp H0 Hl. change (2 ^ 48) with 281474976710656 in H0.
  destruct (writeable_loop_run cur root T L s (start + 1) Sp ltac:(change (2 ^ 48) with 281474976710656; lia)
    3 start ltac:(lia) ltac:(done) ltac:(zmod)) as (b & E & Hb).
  unfold user_writeable.
  assert (u64 (start + 1) = start + 1) as ->
    by (apply Z.mod_small; change (2 ^ 64) with 18446744073709551616; lia).
  change (Z.to_nat (1 / BLOCK_SIZE) + 3)%nat with 3%nat. rewrite E. do 2 f_equal. apply Hb.
  intros va Hva. replace va with start by lia. by exists 0.
Qed.

(** A buffer that ends beyond the last address is never looked at. *)
Lemma user_writeable_wraps cur s start size :
  0 ≤ start < 2 ^ 64 → start + size = 2 ^ 64 → user_writeable cur start size s = Ok (true, s).
Proof.
  intros H0 H. unfold user_writeable. rewrite H.
  replace (Z.to_nat (size / BLOCK_SIZE) + 3)%nat with (S (Z.to_nat (size / BLOCK_SIZE) + 2))%nat by lia.
  cbn [writeable_loop]. change (u64 (2 ^ 64)) with 0. by rewrite (proj2 (Z.ltb_ge start 0)) by lia.
Qed.

(** ** [user_strlen] *)

(** The length with the terminator, if one comes before the limit. *)
Lemma user_strlen_run {S} (load : Z → M S Z) (byte : Z → Z) s str n :
  (∀ a, load a s = Ok (byte a, s)) → 0 ≤ n → (∀ i, 0 ≤ i < n → byte (str + i) ≠ 0) → byte (str + n) = 0 →
  ∀ maxlen, 0 ≤ maxlen → user_strlen load str maxlen s = Ok (if n <? maxlen then n + 1 else 0, s).
Proof.
  intros Hl Hn Hb H0 maxlen Hm. unfold user_strlen.
  cut (∀ k i, 0 ≤ i ≤ n → strlen_loop load str i k s = Ok (if n <? i + Z.of_nat k then n + 1 else 0, s)).
  { intros H. rewrite H by lia. by rewrite Z2Nat.id by lia. }
  induction k as [|k IH]; intros i Hi; cbn [strlen_loop].
  { by rewrite (proj2 (Z.ltb_ge n (i + Z.of_nat 0))) by lia. }
  change (user_readable (str + i) 1) with true. cbv iota. rewrite (bind_Ok _ _ _ _ _ (Hl _)).
  destruct (decide (i = n)) as [->|Hne].
  - rewrite H0. cbn [Z.eqb]. by rewrite (proj2 (Z.ltb_lt n (n + Z.of_nat (Datatypes.S k)))) by lia.
  - rewrite (proj2 (Z.eqb_neq _ 0)) by (apply Hb; lia). rewrite IH by lia.
    by replace (i + 1 + Z.of_nat k) with (i + Z.of_nat (Datatypes.S k)) by lia.
Qed.

(** ** Interrupts *)

Lemma land_pow2 s k : 0 ≤ k → negb (Z.land s (Z.shiftl 1 k) =? 0) = Z.testbit s k.
Proof.
  intros Hk. rewrite Z.shiftl_1_l. destruct (Z.testbit s k) eqn:E.
  - apply negb_true_iff, Z.eqb_neq. intros H. apply (f_equal (λ z, Z.testbit z k)) in H.
    rewrite Z.land_spec, E, Z.pow2_bits_true, Z.bits_0 in H by done. done.
  - apply negb_false_iff, Z.eqb_eq. apply Z.bits_inj'. intros j Hj. rewrite Z.land_spec, Z.bits_0.
    destruct (decide (j = k)) as [->|Hne]; [by rewrite E|].
    by rewrite Z.pow2_bits_false, andb_false_r by done.
Qed.

Lemma clear_bit s k : 0 ≤ k →
  (if Z.testbit s k then Z.lxor s (Z.shiftl 1 k) else s) = Z.ldiff s (Z.shiftl 1 k).
Proof.
  intros Hk. rewrite Z.shiftl_1_l. apply Z.bits_inj'. intros j Hj. rewrite Z.ldiff_spec.
  destruct (decide (j = k)) as [->|Hne].
  - rewrite Z.pow2_bits_true by done. destruct (Z.testbit s k) eqn:E.
    + by rewrite Z.lxor_spec, E, Z.pow2_bits_true. + by rewrite E.
  - rewrite Z.pow2_bits_false, andb_true_r by done. destruct (Z.testbit s k); [|done].
    by rewrite Z.lxor_spec, Z.pow2_bits_false, xorb_false_r.
Qed.

Lemma bind_ext {S A B} (m : M S A) (k1 k2 : A → M S B) s :
  (∀ a s', k1 a s' = k2 a s') → (m ≫= k1) s = (m ≫= k2) s.
Proof. intros H. unfold mbind, M_bind. destruct (m s) as [[a s']| | | | |]; auto. Qed.

Section interrupts.
Context {X : Type} (cpuid : nat) (counter : nat → Z) (timer_handler : Z → M Timer.cpu unit).
Local Notation K := (M (kst X)).
Context (call_int : Z → K unit) (reg : Z → Z) (device_get_u32 : Z → K Z).
(** reading a register gives what it holds; handlers return and leave the table alone *)
Context (Hreg : ∀ a s, device_get_u32 a s = Ok (reg a, s)).
Context (Hint : ∀ h s, ∃ s', call_int h s = Ok (tt, s') ∧ int_handler s' = int_handler s).

Definition lines (map : Z) : list Z := List.filter (pending map) (zseq 0 64).
Definition serve (table : list Z) (i : Z) : K unit := call_int (nth (Z.to_nat i) table 0).
Definition unhandled (table : list Z) (l : list Z) : bool :=
  existsb (λ i, nth (Z.to_nat i) table 0 =? 0) l.

Lemma dispatch_loop map l : ∀ s,
  for_each l (dispatch call_int map) s =
  if unhandled (int_handler s) (List.filter (pending map) l) then Panic
  else for_each (List.filter (pending map) l) (serve (int_handler s)) s.
Proof using Hint.
  induction l as [|i l IH]; intros s; [done|]. cbn [for_each List.filter].
  destruct (pending map i) eqn:Ep.
  2:{ rewrite (bind_Ok _ _ s tt s); [apply IH|]. unfold dispatch. by rewrite Ep. }
  assert (dispatch call_int map i s = (if negb (nth (Z.to_nat i) (int_handler s) 0 =? 0)
    then call_int (nth (Z.to_nat i) (int_handler s) 0) else panic) s) as Ed by (unfold dispatch; by rewrite Ep).
  unfold mbind at 1, M_bind at 1. rewrite Ed. clear Ed. cbn [unhandled existsb for_each].
  destruct (Z.eqb_spec (nth (Z.to_nat i) (int_handler s) 0) 0) as [E|E]; cbn [negb orb]; [done|].
  destruct (Hint (nth (Z.to_nat i) (int_handler s) 0) s) as (s1 & E1 & Ht).
  rewrite E1, IH, Ht.
  fold (unhandled (int_handler s) (List.filter (pending map) l)).
  destruct (unhandled (int_handler s) _); [done|]. by rewrite (bind_Ok _ _ _ _ _ E1).
Qed.

Lemma dispatch_lines map s :
  for_each (zseq 0 64) (dispatch call_int map) s =
  if unhandled (int_handler s) (lines map) then Panic else for_each (lines map) (serve (int_handler s)) s.
Proof using Hint. exact (dispatch_loop map (zseq 0 64) s). Qed.

Lemma serve_all table l : ∀ s, ∃ s', for_each l (serve table) s = Ok (tt, s').
Proof using Hint.
  induction l as [|i l IH]; intros s; [by exists s|]. cbn [for_each].
  destruct (Hint (nth (Z.to_nat i) table 0) s) as (s1 & E1 & _). destruct (IH s1) as [s2 E2].
  exists s2. by rewrite (bind_Ok _ _ s tt s1 E1).
Qed.

(** what the dispatcher is for: the timers first, then the handler of each pending line, lowest
    line first *)
Definition serve_interrupts (fuel : nat) (source map : Z) : K unit :=
  when (Z.testbit source 1) (on clk put_clk (Timer.invoke_clock_handler counter timer_handler fuel));;
  table ← gets int_handler;
  if negb (Z.ldiff (Z.ldiff source 2) 256 =? 0) || Z.testbit source 8 && unhandled table (lines map)
  then panic
  else when (Z.testbit source 8) (for_each (lines map) (serve table)).

End interrupts.

(** lines 29 (the serial port) and 62 (the card) are pending *)
Definition reg_ex (a : Z) : Z :=
  if a =? IRQ_SRC_CORE 0 then 256 else if a =? IRQ_PENDING_1 then 2 ^ 29
  else if a =? IRQ_PENDING_2 then 2 ^ 30 else 0.
Definition table_ex : list Z := <[62%nat := 9]> (<[29%nat := 7]> (replicate 64 0)).
Definition kst_ex : kst unit :=
  mkKst (mkPs (mkKernel false false (mkPids 0 []) ∅ ∅ [] false []) ∅ tt) (demo (boot ∅))
    (Timer.mkCpu true (Rbtree.mkTree ∅ 0) ∅ 0 false 0 0) ∅ [] table_ex.
Definition frame_ex (h : Z) : UserContext := mkUctx 0 0 0 0 0 h 0 0 [].
(** a handler that leaves a trace *)
Definition trace_int (h : Z) : M (kst unit) unit :=
  modify (λ s, put_frames (<[Z.of_nat (base.size (frames_ s)) := frame_ex h]> (frames_ s)) s).

