(* ===== verification/Exec.v ===== *)
(** * [kernel/exec.c]: loading a program

    The state joins the memory ([Pt]), the inode layer ([Inode]) and the trap frame of the
    process ([Trap]).  [cur] is the address of the page directory of the process, [old] that of
    the copy [execve] keeps of it on its stack.

    The kernel reads and writes user memory at user addresses, through the tables that [ttbr0]
    holds: [load], [store].  Where no page is mapped, or a store meets a read-only one, the
    outcome is [Fault]: the exception the processor would take finds the new directory in the
    process, whatever [ttbr0] holds.  So it is at addresses from [USERTOP] on, where the kernel
    would find its own memory.  [<elf.h>] is a header of the C library, so its structures,
    sizes and constants are a class. *)

From Stdlib Require Import ZArith Lia.
From S2P Require Import Prelude Words Sync Mmu KernelPt Mem Pt PtSpec Layout BlockCache Inode Trap.

(** ** Bounded loops that need not count *)

(** [body] again and again, [p] times at most, until it answers [inr] *)
Definition next_round {S A B} (k : A → M S (A + B)) (r : A + B) : M S (A + B) :=
  match r with inl a => k a | inr b => mret (inr b) end.
Fixpoint until {S A B} (p : positive) (body : A → M S (A + B)) (a : A) : M S (A + B) :=
  match p with
  | xH => body a
  | xO p => until p body a ≫= next_round (until p body)
  | xI p => body a ≫= next_round (λ a, until p body a ≫= next_round (until p body))
  end.

(** ** User memory, seen by the kernel *)

(** the physical address and the flags of the page *)
Definition user_page_at (va : Z) (s : vm) : option (Z * Z) :=
  if (va <? 0) || (USERTOP <=? va) then None else translate (phys s) (ttbr0 s) va.

Definition load (va : Z) : V Z :=
  '(pa, _) ← getopt (user_page_at va);
  f ← frame_at (P2K (pa - pa mod 4096));
  getopt (λ _, f !! Z.to_nat (pa mod 4096)).

Definition store (va v : Z) : V unit :=
  '(pa, flags) ← getopt (user_page_at va);
  if Z.land flags PTE_RO =? 0 then write_frame (P2K (pa - pa mod 4096)) (pa mod 4096) [v]
  else fault.

Fixpoint load_bytes (va : Z) (n : nat) : V (list Z) :=
  match n with
  | O => mret []
  | S n => c ← load va; l ← load_bytes (va + 1) n; mret (c :: l)
  end.
Fixpoint store_bytes (va : Z) (l : list Z) : V unit :=
  match l with
  | [] => mret tt
  | c :: l => store va c;; store_bytes (va + 1) l
  end.

(** a [u64] in user memory *)
Definition load64 (va : Z) : V Z := l ← load_bytes va 8; mret (le_dec l).
Definition store64 (va v : Z) : V unit := store_bytes va (le_enc 8 v).

(** the address of the first NUL from [va] on: [for (; *sp; sp++)] *)
Definition nul_round (a : Z) : V (Z + Z) := c ← load a; mret (if c =? 0 then inr a else inl (a + 1)).
Definition user_nul (va : Z) : V Z :=
  r ← until (Z.to_pos USERTOP) nul_round va;
  match r with inl _ => nofuel | inr a => mret a end.
Definition user_strlen (va : Z) : V Z := a ← user_nul va; mret (a - va).

(** the string at [va], without its NUL *)
Definition user_string (va : Z) : V (list Z) :=
  n ← user_strlen va; load_bytes va (Z.to_nat n).

(** ** [<elf.h>] *)

(** The fields of [Elf64_Ehdr] and [Elf64_Phdr], from the bytes of the structures. *)
Class elf := {
  sizeof_Ehdr : Z; sizeof_Phdr : Z;
  e_ident : list Z → Z → Z; e_entry : list Z → Z; e_phoff : list Z → Z; e_phnum : list Z → Z;
  p_type : list Z → Z; p_offset : list Z → Z; p_vaddr : list Z → Z;
  p_filesz : list Z → Z; p_memsz : list Z → Z;
  EI_MAG0 : Z; EI_MAG1 : Z; EI_MAG2 : Z; EI_MAG3 : Z; EI_CLASS : Z;
  ELFMAG0 : Z; ELFMAG1 : Z; ELFMAG2 : Z; ELFMAG3 : Z; ELFCLASS64 : Z; PT_LOAD : Z }.

Record est {C : Type} := mkEst { mv : vm; fi : itree C; ucontext : UserContext }.
Arguments est C : clear implicits.
Arguments mkEst {C} _ _ _.

Definition MAXARG : Z := 10.

Section exec.
Context {C : Type} `{BlockCache C} `{BlockLog C} `{elf} (sblock : SuperBlock) (ctx_addr : Z).
Context (cpuid : nat) (invalid_pt cur old cwd : Z).
Notation X := (M (est C)).
Notation ctx := (Some ctx_addr).

Definition put_mv (v : vm) (s : est C) : est C := mkEst v (fi s) (ucontext s).
Definition put_fi (t : itree C) (s : est C) : est C := mkEst (mv s) t (ucontext s).
Definition inv {A} (m : V A) : X A := on mv put_mv m.
Definition infi {A} (m : M (itree C) A) : X A := on fi put_fi m.
Definition set_elr_sp (elr sp : Z) (s : est C) : est C :=
  mkEst (mv s) (fi s)
    (let u := ucontext s in
     mkUctx (q00 u) (q01 u) (tpidr u) (useless u) (u_spsr u) elr (u_lr u) sp (x_ u)).

Definition attach (pd : Z) : X unit := inv (attach_pgdir invalid_pt pd).

(** [*dst = *src].  The list head in the copy is no member of the ring: the section it leads to
    still points back at the original.  Nobody follows that pointer, because [sbrk] and
    [pgfault] stop at the first section; so the sequence of sections is what is copied. *)
Definition copy_pgdir (dst src : Z) : V unit := d ← get_pgdir src; set_pgdir dst d.

(** ** The segments *)

Definition header_ok (l : list Z) : bool :=
  (e_ident l EI_MAG0 =? ELFMAG0) && (e_ident l EI_MAG1 =? ELFMAG1)
  && (e_ident l EI_MAG2 =? ELFMAG2) && (e_ident l EI_MAG3 =? ELFMAG3).

(** The body of the loop over the program headers, for the header at [off] of the file:
    the new [sz] and [first]. *)
Definition load_phdr (pd ip off : Z) (sz : Z) (first : bool) : X (Z * bool) :=
  '(ph, n) ← infi (inode_read sblock ip off sizeof_Phdr);
  if negb (n =? sizeof_Phdr) then panic
  else if negb (p_type ph =? PT_LOAD) then mret (sz, first)
  else if p_memsz ph <? p_filesz ph then panic
  else if u64 (p_vaddr ph + p_memsz ph) <? p_vaddr ph then panic
  else
    let sz := if first then p_vaddr ph else sz in
    when first (assert (p_vaddr ph mod PAGE_SIZE =? 0));;
    sz ← inv (uvm_alloc pd 0 sz (u64 (p_vaddr ph + p_memsz ph)));
    let sz := u64 sz in
    if sz =? 0 then panic
    else
      attach pd;;
      '(l, n) ← infi (inode_read sblock ip (p_offset ph) (p_filesz ph));
      inv (store_bytes (p_vaddr ph) l);;
      if negb (n =? p_filesz ph) then panic
      else
        inv (store_bytes (p_vaddr ph + p_filesz ph)
               (replicate (Z.to_nat (p_memsz ph - p_filesz ph)) 0));;
        mret (sz, false).

Fixpoint load_phdrs (n : nat) (pd ip off : Z) (sz : Z) (first : bool) : X unit :=
  match n with
  | O => mret tt
  | S n =>
      '(sz, first) ← load_phdr pd ip off sz first;
      load_phdrs n pd ip (u64 (off + sizeof_Phdr)) sz first
  end.

(** ** The stack *)

(** One of the loops that push the strings of an array, with [n] pointers left to look at
    from [a] on: the new stack pointer, and how many strings there were.  [argv] is read
    through the old tables while the copies go to the new ones. *)
Fixpoint push_strings (n : nat) (pd a sp : Z) (count : Z) : V (Z * Z) :=
  match n with
  | O => mret (sp, count)
  | S n =>
      p ← load64 a;
      if p =? 0 then mret (sp, count)
      else
        len ← user_strlen p;
        let sp := u64 (sp - (len + 1)) in
        l ← load_bytes p (Z.to_nat (len + 1));
        copyout pd sp (Some l) (len + 1);;
        push_strings n pd (a + 8) sp (count + 1)
  end.
Definition push_array (pd a sp : Z) : V (Z * Z) :=
  if a =? 0 then mret (sp, 0) else push_strings (Z.to_nat MAXARG) pd a sp 0.

(** [for (int i = n - 1; i >= 0; i--)] over the strings from [sp] up: [array[i]] is where the
    next one starts; the address after the last one *)
Fixpoint set_pointers (n : nat) (array sp : Z) : V Z :=
  match n with
  | O => mret sp
  | S i =>
      store64 (u64 (array + Z.of_nat i * 8)) sp;;
      e ← user_nul sp;
      set_pointers i array (e + 1)
  end.

(** from [char *sp = USERTOP] to the [ASSERT]: the stack of the new program, and its pointer *)
Definition build_stack (pd argv envp : Z) : V Z :=
  '(sp, argc) ← push_array pd argv USERTOP;
  '(sp, envc) ← push_array pd envp sp;
  let newsp := u64 (sp - (envc + argc + 4) * 8) / 16 * 16 in
  copyout pd newsp None (u64 (sp - newsp));;
  attach_pgdir invalid_pt pd;;
  let newargv := u64 (newsp + 8) in
  let newenvp := u64 (newargv + 8 * (argc + 1)) in
  sp ← set_pointers (Z.to_nat envc) newenvp sp;
  set_pointers (Z.to_nat argc) newargv sp;;
  store64 newsp argc;;
  let sp := newsp in
  let stksz := u64 (u64 (USERTOP - sp) + 10 * PAGE_SIZE - 1) / (10 * PAGE_SIZE) * (10 * PAGE_SIZE) in
  copyout pd (u64 (USERTOP - stksz)) None (u64 (stksz - (USERTOP - sp)));;
  assert (u64 (USERTOP - stksz) <? sp);;
  mret sp.

(** ** [execve] *)

(** [bad:], with [ip] zero for NULL *)
Definition exec_bad (pd ip : Z) : X Z :=
  when (negb (pd =? 0)) (inv (free_pgdir pd));;
  when (negb (ip =? 0))
    (infi (inode_unlock ip);; infi (inode_put sblock ctx ip);; infi (lift (bl_end ctx_addr)));;
  inv (copy_pgdir cur old);;
  mret (-1).

(** what follows the headers *)
Definition exec_image (pd ip argv envp : Z) (ehdr : list Z) : X Z :=
  inv (copy_pgdir cur pd);;
  load_phdrs (Z.to_nat (e_phnum ehdr)) pd ip (e_phoff ehdr) 0 true;;
  infi (inode_unlock ip);;
  infi (inode_put sblock ctx ip);;
  infi (lift (bl_end ctx_addr));;
  attach old;;
  sp ← inv (build_stack pd argv envp);
  inv (copy_pgdir cur pd);;
  modify (set_elr_sp (e_entry ehdr) sp);;
  attach cur;;
  inv (free_pgdir old);;
  mret 0.

Definition execve (path argv envp : Z) : X Z :=
  inv (copy_pgdir old cur);;
  pd ← inv (inmem (kalloc cpuid sizeof_pgdir));
  inv (init_pgdir cpuid pd);;
  if pd =? 0 then exec_bad pd 0
  else
    infi (lift (bl_begin ctx_addr));;
    name ← inv (user_string path);
    ip ← infi (namei sblock cwd name ctx);
    if ip =? 0 then infi (lift (bl_end ctx_addr));; exec_bad pd 0
    else
      infi (inode_lock ip);;
      '(ehdr, n) ← infi (inode_read sblock ip 0 sizeof_Ehdr);
      if negb (n =? sizeof_Ehdr) then exec_bad pd ip
      else if negb (header_ok ehdr) then exec_bad pd ip
      else if negb (e_ident ehdr EI_CLASS =? ELFCLASS64) then exec_bad pd ip
      else exec_image pd ip argv envp ehdr.

(** [sys_execve] of [kernel/sysproc.c]; the result is a [u64] *)
Definition sys_execve (p argv envp : Z) : X Z :=
  n ← inv (Trap.user_strlen load p 256);
  if n =? 0 then mret (ret_int (-1))
  else r ← execve p argv envp; mret (ret_int r).
End exec.
