(* ===== verification/Image.v ===== *)
(** * Address spaces under construction: what [execve] does to user memory

    First what the kernel reads through the tables in force, as a function from addresses to
    bytes; then [image], an address space whose pages nobody else uses, and what mapping a
    page, [copyout], [uvm_alloc] and stores do to its bytes. *)

From Stdlib Require Import ZArith Lia.
From S2P Require Import Prelude Words Sync Mmu KernelPt Mem MemSpec Pt PtSpec Cache CacheLog Paging PagingSpec.
From S2P Require Import Layout BlockCache Inode Trap Exec.

(** ** Bounded loops *)

Fixpoint iter {S A B} (n : nat) (body : A → M S (A + B)) (a : A) : M S (A + B) :=
  match n with O => mret (inl a) | Datatypes.S n => body a ≫= next_round (iter n body) end.

Lemma iter_add {S A B} n k (body : A → M S (A + B)) : ∀ a s,
  iter (n + k) body a s = (iter n body a ≫= next_round (iter k body)) s.
Proof.
  induction n as [|n IH]; intros a s; [done|]. cbn [iter Nat.add]. rewrite bind_assoc.
  unfold mbind, M_bind. destruct (body a s) as [[[a'|b] s']| | | | |]; [apply IH|done..].
Qed.

Lemma until_iter {S A B} p (body : A → M S (A + B)) : ∀ a s,
  until p body a s = iter (Pos.to_nat p) body a s.
Proof.
  assert (∀ a s, body a s = iter 1 body a s) as H1.
  { intros a s. cbn [iter]. unfold mbind, M_bind. by destruct (body a s) as [[[a'|b] s']| | | | |]. }
  assert (∀ q, (∀ a s, until q body a s = iter (Pos.to_nat q) body a s) → ∀ a s,
    (until q body a ≫= next_round (until q body)) s = iter (Pos.to_nat q + Pos.to_nat q) body a s) as H2.
  { intros q IH a s. rewrite iter_add. unfold mbind, M_bind. rewrite IH.
    destruct (iter _ _ _ _) as [[[a'|b] s']| | | | |]; [apply IH|done..]. }
  induction p as [p IH|p IH|]; intros a s; cbn [until]; [| |apply H1].
  - replace (Pos.to_nat p~1) with (1 + (Pos.to_nat p + Pos.to_nat p))%nat by lia. cbn [iter Nat.add].
    unfold mbind at 1 3, M_bind. destruct (body a s) as [[[a'|b] s']| | | | |]; [by apply H2|done..].
  - replace (Pos.to_nat p~0) with (Pos.to_nat p + Pos.to_nat p)%nat by lia. by apply H2.
Qed.

Lemma iter_done {S A B} n k (body : A → M S (A + B)) a s b s' :
  iter n body a s = Ok (inr b, s') → (n ≤ k)%nat → iter k body a s = Ok (inr b, s').
Proof. intros E Hk. replace k with (n + (k - n))%nat by lia. by rewrite iter_add, (bind_Ok _ _ _ _ _ E). Qed.

(** ** Bytes at user addresses *)

Definition bytes_at (m : Z → option Z) (a : Z) (l : list Z) : Prop :=
  ∀ i c, l !! i = Some c → m (a + Z.of_nat i) = Some c.
Definition word_at (m : Z → option Z) (a v : Z) : Prop := bytes_at m a (le_enc 8 v).
(** the string [str] with its NUL *)
Definition string_at (m : Z → option Z) (a : Z) (str : list Z) : Prop :=
  0 ≤ a ∧ a + Z.of_nat (length str) < USERTOP ∧ Forall (λ c, c ≠ 0) str ∧ bytes_at m a (str ++ [0]).

Lemma bytes_at_app m a l1 l2 :
  bytes_at m a (l1 ++ l2) ↔ bytes_at m a l1 ∧ bytes_at m (a + Z.of_nat (length l1)) l2.
Proof.
  split.
  - intros H. split; intros i c E; [apply H; by apply lookup_app_l_Some|].
    rewrite <-Z.add_assoc, <-Nat2Z.inj_add. apply H.
    by rewrite lookup_app_r, Nat.add_comm, Nat.add_sub by lia.
  - intros [H1 H2] i c [E|[Hi E]]%lookup_app_Some; [by apply H1|]. apply H2 in E.
    by replace (a + Z.of_nat i) with (a + Z.of_nat (length l1) + Z.of_nat (i - length l1)) by lia.
Qed.

Lemma bytes_at_cons m a c l : bytes_at m a (c :: l) ↔ m a = Some c ∧ bytes_at m (a + 1) l.
Proof.
  change (c :: l) with ([c] ++ l). rewrite bytes_at_app. simpl length. split; intros [H1 H2]; (split; [|done]).
  - rewrite <-(Z.add_0_r a). by apply (H1 0%nat).
  - intros [|i] x; [|done]. intros [= <-]. by rewrite Z.add_0_r.
Qed.

Lemma bytes_at_mono (m m' : Z → option Z) a l :
  (∀ x, a ≤ x < a + Z.of_nat (length l) → m' x = m x) → bytes_at m a l → bytes_at m' a l.
Proof. intros H Hb i c E. rewrite H; [by apply Hb|]. apply lookup_lt_Some in E. lia. Qed.

(** ** Loads *)

Definition user_range (a : Z) (n : nat) : Prop := 0 ≤ a ∧ a + Z.of_nat n ≤ USERTOP.

Lemma load_byte_run s a c : 0 ≤ a < USERTOP → user_byte s a = Some c → load a s = Ok (c, s).
Proof.
  intros Ha. unfold user_byte, load, user_page_at, frame_at.
  destruct (translate (phys s) (ttbr0 s) a) as [[pa fl]|] eqn:Et; [|done]. cbn [mbind option_bind].
  destruct (frames s !! _) as [f|] eqn:Ef; [|done]. cbn [mbind option_bind]. intros Ec.
  rewrite (bind_Ok _ _ s (pa, fl) s).
  2:{ apply getopt_run. destruct (Z.ltb_spec a 0); [lia|]. destruct (Z.leb_spec USERTOP a); [lia|done]. }
  rewrite (bind_Ok _ _ s f s) by by apply getopt_run. by apply getopt_run.
Qed.

Lemma load_bytes_run s l : ∀ a, user_range a (length l) → bytes_at (user_byte s) a l →
  load_bytes a (length l) s = Ok (l, s).
Proof.
  induction l as [|c l IH]; intros a [Ha Hb] H; [done|]. apply bytes_at_cons in H as [H1 H2].
  simpl length in *. cbn [load_bytes].
  rewrite (bind_Ok _ _ _ _ _ (load_byte_run s a c ltac:(lia) H1)).
  by rewrite (bind_Ok _ _ _ _ _ (IH (a + 1) ltac:(split; lia) H2)).
Qed.

Lemma load64_run s a v : user_range a 8 → word_at (user_byte s) a v → 0 ≤ v < 2 ^ 64 → load64 a s = Ok (v, s).
Proof.
  intros Ha Hw Hv. unfold load64. rewrite (bind_Ok _ _ s (le_enc 8 v) s).
  - by rewrite le_dec_enc.
  - by apply (load_bytes_run s (le_enc 8 v) a).
Qed.

Lemma user_nul_run s a str : string_at (user_byte s) a str →
  user_nul a s = Ok (a + Z.of_nat (length str), s).
Proof.
  intros (Ha & Hl & Hn & Hb). unfold user_nul.
  assert (∀ a c, 0 ≤ a < USERTOP → user_byte s a = Some c →
    nul_round a s = Ok (if c =? 0 then inr a else inl (a + 1), s)) as Hr.
  { intros x c Hx Hc. unfold nul_round. by rewrite (bind_Ok _ _ _ _ _ (load_byte_run s x c Hx Hc)). }
  assert (iter (S (length str)) nul_round a s = Ok (inr (a + Z.of_nat (length str)), s)) as E.
  { revert a Ha Hl Hb. induction str as [|c str IH]; intros a Ha Hl Hb; simpl length in Hl;
      apply bytes_at_cons in Hb as [Hb1 Hb].
    - cbn [iter length]. rewrite (bind_Ok _ _ _ _ _ (Hr a 0 ltac:(lia) Hb1)).
      simpl. by rewrite Z.add_0_r.
    - inversion Hn; subst.  cbn [length]. remember (S (length str)) as n eqn:En. cbn [iter].
      rewrite (bind_Ok _ _ _ _ _ (Hr a c ltac:(lia) Hb1)), (proj2 (Z.eqb_neq c 0)) by done.
      cbn [next_round]. rewrite IH; [|done|lia|lia|done]. do 3 f_equal. lia. }
  rewrite (bind_Ok _ _ s (inr (a + Z.of_nat (length str))) s); [done|].
  rewrite until_iter. apply (iter_done _ _ _ _ _ _ _ E). unfold USERTOP in *. lia.
Qed.

Lemma user_length_run s a str : string_at (user_byte s) a str →
  Exec.user_strlen a s = Ok (Z.of_nat (length str), s).
Proof.
  intros H. unfold Exec.user_strlen. rewrite (bind_Ok _ _ _ _ _ (user_nul_run s a str H)).
  rewrite mret_run. do 2 f_equal. lia.
Qed.

Lemma user_string_run s a str : string_at (user_byte s) a str → user_string a s = Ok (str, s).
Proof.
  intros H. unfold user_string. rewrite (bind_Ok _ _ _ _ _ (user_length_run s a str H)), Nat2Z.id.
  destruct H as (Ha & Hl & _ & Hb). apply bytes_at_app in Hb as [Hb _].
  apply load_bytes_run; [split; lia|done].
Qed.

(** ** An address space nobody else uses *)

Section image.
Context (pd root : Z) (Ls : list (list Z)).
(** pages of others, which must stay as they are *)
Context (F : Z → Prop) (HF : ∀ p, F p → ram_page p).
Implicit Types (s : vm) (L : Z → option Z) (T : gmap (list Z) Z).

(** Every page is mapped for reading and writing, and once. *)
Record image s T L : Prop := {
  im_space : uspace s pd root T L Ls;
  im_entry : ∀ v e, 0 ≤ v < 2 ^ 36 → L v = Some e → e mod 2 = 1 → e = UD (P2K (PTE_ADDRESS e));
  im_inj : ∀ v v' e, 0 ≤ v < 2 ^ 36 → 0 ≤ v' < 2 ^ 36 → L v = Some e → L v' = Some e → e mod 2 = 1 → v = v';
  im_foreign : ∀ p, F p → p ∉ pages (kmem s) ∧ apart T p ∧ ∀ v, 0 ≤ v < 2 ^ 36 → L v ≠ Some (UD p) }.

(** what a step of at most [n] new pages leaves alone *)
Record grown (n : nat) s s' : Prop := {
  gr_frames : ∀ p, F p → frames s' !! p = frames s !! p;
  gr_refs : ∀ p, F p → ref_of (kmem s') p = ref_of (kmem s) p;
  gr_regs : pgdirs s' = pgdirs s ∧ sections s' = sections s ∧ ttbr0 s' = ttbr0 s;
  gr_heap : same_heap (kmem s') (kmem s) ∧ pagenum (kmem s') = pagenum (kmem s);
  gr_sub : ∀ p, p ∈ pages (kmem s') → p ∈ pages (kmem s);
  gr_room : (length (pages (kmem s)) ≤ length (pages (kmem s')) + n)%nat }.

Lemma space_grown_refl s : grown 0 s s.
Proof using. split; try done; lia. Qed.

Lemma space_grown_trans n1 n2 n s s1 s2 : grown n1 s s1 → grown n2 s1 s2 → (n1 + n2 ≤ n)%nat → grown n s s2.
Proof using.
  intros [F1 R1 (A1 & A2 & A3) ((B1 & B2 & B3) & B4) C1 D1] [F2 R2 (A1' & A2' & A3') ((B1' & B2' & B3') & B4') C2 D2] Hn.
  split; [intros; by rewrite F2, F1|intros; by rewrite R2, R1|split_and!; congruence|..].
  - split; [split_and!; congruence|congruence].
  - eauto.
  - lia.
Qed.

Lemma grown_le n n' s s' : grown n s s' → (n ≤ n')%nat → grown n' s s'.
Proof using. intros G ?. eapply space_grown_trans; [apply space_grown_refl|exact G|lia]. Qed.

(** the byte at an address of this space, whether or not it is in force *)
Definition byte s L (a : Z) : option Z := f ← content s L (a / 4096); f !! Z.to_nat (a mod 4096).

Lemma UD_inj p q : ram_page p → ram_page q → UD p = UD q → p = q.
Proof using.
  intros Hp Hq E. destruct (entry_of p PTE_USER_DATA Hp ltac:(done) eq_refl) as (_ & _ & Ep).
  destruct (entry_of q PTE_USER_DATA Hq ltac:(done) eq_refl) as (_ & _ & Eq).
  fold (UD p) in Ep. fold (UD q) in Eq. rewrite E, Eq in Ep.
  destruct (ram_K2P p Hp) as (_ & _ & _ & <-). destruct (ram_K2P q Hq) as (_ & _ & _ & <-). by rewrite Ep.
Qed.

Lemma image_page s T L v e : image s T L → 0 ≤ v < 2 ^ 36 → L v = Some e → e mod 2 = 1 →
  ∃ p, e = UD p ∧ user_page s T e p.
Proof using.
  intros I Hv E H1. destruct (us_user _ _ _ _ _ _ (im_space _ _ _ I) v e Hv E H1) as [p U].
  exists p. split; [|done]. destruct (user_entry _ _ _ _ U) as (_ & _ & _ & Ep).
  by rewrite (im_entry _ _ _ I v e Hv E H1), Ep.
Qed.

Lemma UD_odd p : ram_page p → UD p mod 2 = 1 ∧ UD p mod 4 = 3 ∧ P2K (PTE_ADDRESS (UD p)) = p.
Proof using.
  intros Hp. destruct (entry_of p PTE_USER_DATA Hp ltac:(done) eq_refl) as (_ & E3 & Ea). fold (UD p) in E3, Ea.
  rewrite Ea. destruct (ram_K2P p Hp) as (_ & _ & _ & ->). split_and!; [zmod|done|done].
Qed.

(** [get_pte(pd, va, true)] *)
Lemma image_get_pte s T L va : image s T L → 0 ≤ va < 2 ^ 48 → (3 ≤ length (pages (kmem s)))%nat →
  ∃ s' T' L', get_pte pd va true s = Ok (pteaddr T' va, s') ∧ pteaddr T' va ≠ 0 ∧
    L' (va / 4096) = Some (default 0 (L (va / 4096))) ∧
    read_pte (pteaddr T' va) s' = Ok (default 0 (L (va / 4096)), s') ∧
    image s' T' L' ∧ grown 3 s s' ∧ (∀ v, 0 ≤ v < 2 ^ 36 → content s' L' v = content s L v).
Proof using HF.
  intros I Hva Hn. destruct (get_pte_space pd root Ls s T L va (im_space _ _ _ I) Hva Hn)
    as (s' & T' & L' & E & U' & X & Ev & HL & Hc).
  destruct (read_leaf pd root T' s' L' va _ (us_space _ _ _ _ _ _ U') Hva Ev) as [Hnz Er].
  destruct (ex_pages _ _ _ _ _ _ X) as (k & _ & Ek).
  assert (∀ q, q ∈ pages (kmem s') → q ∈ pages (kmem s)) as Hsub by (rewrite Ek; intros q; apply drop_sub).
  assert (∀ p, F p → apart T' p) as Hap.
  { intros p Hp pre Et. destruct (im_foreign _ _ _ I p Hp) as (Hnp & Ha & _).
    destruct (ex_new _ _ _ _ _ _ X pre p Et) as [Ht|Ht]; [by apply (Ha pre)|done]. }
  exists s', T', L'. split_and!; [done|done|done|done| | |done].
  - split; [done| | |].
    + intros v e Hv He H1. destruct (HL v Hv) as [El|[_ El]]; rewrite El in He; [by eapply (im_entry _ _ _ I)|].
      by injection He as <-.
    + intros v v' e Hv Hv' He He' H1. destruct (HL v Hv) as [El|[_ El]]; rewrite El in He; [|by injection He as <-].
      destruct (HL v' Hv') as [El'|[_ El']]; rewrite El' in He'; [|by injection He' as <-].
      by eapply (im_inj _ _ _ I).
    + intros p Hp. destruct (im_foreign _ _ _ I p Hp) as (Hnp & _ & Hl). split; [auto|]. split; [auto|].
      intros v Hv. destruct (HL v Hv) as [->|[_ ->]]; [by apply Hl|].
      unfold UD, PTE_USER_DATA. intros [= Ez]. symmetry in Ez. apply Z.lor_eq_0_iff in Ez as [_ ?]. done.
  - pose proof (extends_room _ _ _ _ _ _ X). split; [| |split_and!; apply X|split; [|apply X]; apply X|done|lia].
    + intros p Hp. apply (ex_frames _ _ _ _ _ _ X). by apply Hap.
    + intros p Hp. apply (ex_refs _ _ _ _ _ _ X); [by apply HF|]. by apply (im_foreign _ _ _ I).
Qed.

(** a fresh page for the page of [va], whatever was there *)
Lemma image_take s T L : image s T L → pages (kmem s) ≠ [] →
  ∃ p s', inmem kalloc_page s = Ok (p, s') ∧ image s' T L ∧ grown 1 s s' ∧ ram_page p ∧ frames s' = frames s ∧
    p ∉ pages (kmem s') ∧ apart T p ∧ ¬ F p ∧ (∃ f, is_frame (frames s') p f) ∧
    ∀ v, 0 ≤ v < 2 ^ 36 → L v ≠ Some (UD p).
Proof using HF.
  intros I Hn. destruct (pages (kmem s)) as [|p l] eqn:El; [done|].
  destruct (take_page pd root Ls s T L p l (im_space _ _ _ I) El) as (E & U & Hr & Hpl & Ha & Hf).
  assert (p ∈ pages (kmem s)) as Hp by (rewrite El; left).
  assert (∀ v, 0 ≤ v < 2 ^ 36 → L v ≠ Some (UD p)) as Hnew.
  { intros v Hv Ev. destruct (UD_odd p Hr) as (H1 & _ & _).
    destruct (image_page s T L v _ I Hv Ev H1) as (q & Eq & Uq). apply UD_inj in Eq as ->; [|done|apply Uq].
    by apply (up_used _ _ _ _ Uq). }
  exists p, (put_kmem (taken (kmem s) p l) s). split_and!; try done.
  - split; [done|apply I|apply I|]. intros q Hq. destruct (im_foreign _ _ _ I q Hq) as (H1 & H2 & H3).
    split; [|done]. simpl. intros H. apply H1. rewrite El. by right.
  - split; [done| |done|done| |simpl; rewrite El; simpl; lia].
    + intros q Hq. simpl. unfold ref_of. simpl. rewrite lookup_insert_ne; [done|]. intros E'.
      apply (ref_index_inj p q Hr (HF q Hq)) in E' as ->. by apply (im_foreign _ _ _ I q).
    + simpl. rewrite El. intros q Hq. by right.
  - intros HFp. by destruct (im_foreign _ _ _ I p HFp).
Qed.

Lemma image_map s T L va e0 p : image s T L → 0 ≤ va < 2 ^ 48 → L (va / 4096) = Some e0 →
  ram_page p → p ∉ pages (kmem s) → apart T p → ¬ F p → (∃ f, is_frame (frames s) p f) →
  (∀ v, 0 ≤ v < 2 ^ 36 → L v ≠ Some (UD p)) →
  ∃ s', write_pte (pteaddr T va) (UD p) s = Ok (tt, s') ∧ image s' T (lset L (va / 4096) (UD p)) ∧ grown 0 s s' ∧
    (∀ v, 0 ≤ v < 2 ^ 36 → v ≠ va / 4096 → content s' (lset L (va / 4096) (UD p)) v = content s L v).
Proof using HF.
  intros I Hva He Hr Hnp Ha HnF (f & Hf) Hnew. pose proof (im_space _ _ _ I) as U.
  destruct (map_page pd root Ls s T L va e0 (UD p) p U Hva He) as (t & g & Et & Ew & U'); [by eapply fresh_user|].
  assert (∀ q, apart T q → frames (upd_frames <[t := g]> s) !! q = frames s !! q) as Hfr.
  { intros q Hq. simpl. apply lookup_insert_ne. intros ->. by apply (Hq (path va)). }
  exists (upd_frames <[t := g]> s). split_and!; [done| | |].
  - split; [done| | |].
    + intros v e Hv Hl H1. unfold lset in Hl. case_decide; [|by eapply (im_entry _ _ _ I)].
      injection Hl as <-. by destruct (UD_odd p Hr) as (_ & _ & ->).
    + intros v v' e Hv Hv' Hl Hl' H1. unfold lset in *. destruct (decide (v = va / 4096)), (decide (v' = va / 4096)); [congruence| | |].
      * by destruct (Hnew v' Hv'); congruence.
      * by destruct (Hnew v Hv); congruence.
      * by eapply (im_inj _ _ _ I).
    + intros q Hq. destruct (im_foreign _ _ _ I q Hq) as (H1 & H2 & H3). split_and!; [done|done|].
      intros v Hv. unfold lset. case_decide; [|by apply H3]. intros [= E].
      apply (UD_inj _ _ Hr (HF q Hq)) in E as ->. done.
  - split; [|done|done|done|done|simpl; lia]. intros q Hq. apply Hfr. by apply (im_foreign _ _ _ I).
  - intros v Hv Hne. rewrite content_set by done. apply (content_same pd root Ls s _ T L U); [|done]. auto.
Qed.

(** The page of [va], mapped to begin with or a fresh one: the first half of a round of [copyout]. *)
Lemma image_page_for s T L va : image s T L → 0 ≤ va < 2 ^ 48 → (4 ≤ length (pages (kmem s)))%nat →
  ∃ pte e s1 p s' T' L', get_pte pd va true s = Ok (pte, s1) ∧ pte ≠ 0 ∧ read_pte pte s1 = Ok (e, s1) ∧
    (if negb (Z.land e PTE_VALID =? 0) then mret (P2K (PTE_ADDRESS e))
     else (page ← inmem kalloc_page;
           when (negb (page =? 0)) (write_pte pte (Z.lor (K2P page) PTE_USER_DATA));;
           mret page)) s1 = Ok (p, s') ∧ ram_page p ∧
    image s' T' L' ∧ grown 4 s s' ∧ L' (va / 4096) = Some (UD p) ∧
    (∀ v, 0 ≤ v < 2 ^ 36 → v ≠ va / 4096 → content s' L' v = content s L v) ∧
    (∀ f, content s L (va / 4096) = Some f → content s' L' (va / 4096) = Some f).
Proof using HF.
  intros I Hva Hn. destruct (image_get_pte s T L va I Hva ltac:(lia))
    as (s1 & T1 & L1 & E1 & Hz & El & Er & I1 & G1 & Hc).
  pose proof (page_number va Hva) as Hv. set (e := default 0 (L (va / 4096))) in *.
  exists (pteaddr T1 va), e, s1.
  assert (e mod 2 = 0 ∨ e mod 2 = 1) as [H0|H1] by zmod.
  - assert (content s L (va / 4096) = None) as Hnone.
    { rewrite <-Hc by done. unfold content. rewrite El. cbn [mbind option_bind]. destruct (Z.eqb_spec (e mod 4) 3); [zmod|done]. }
    destruct (image_take s1 T1 L1 I1) as (p & s2 & E2 & I2 & G2 & Hr & Efr & Hnp & Ha & HnF & Hf & Hnew).
    { pose proof (gr_room _ _ _ G1). intros Ez. rewrite Ez in *. simpl in *. lia. }
    destruct (image_map s2 T1 L1 va e p I2 Hva El Hr Hnp Ha HnF Hf Hnew) as (s3 & E3 & I3 & G3 & Hc3).
    assert (p ≠ 0) as Hp0 by (destruct Hr; unfold KSPACE_MASK in *; lia).
    exists p, s3, T1, (lset L1 (va / 4096) (UD p)). split_and!; [done|done|done| |done|done| | | |].
    + rewrite land_valid, H0. cbn [Z.eqb negb]. rewrite (bind_Ok _ _ _ _ _ E2), (proj2 (Z.eqb_neq p 0)) by done.
      cbn [negb when]. by rewrite (bind_Ok _ _ _ _ _ E3).
    + apply (space_grown_trans 4 0 4 s s2 s3); [by apply (space_grown_trans 3 1 4 s s1 s2)|done|lia].
    + unfold lset. by rewrite decide_True.
    + intros v Hvv Hne. rewrite Hc3 by done. rewrite <-Hc by done. unfold content. by rewrite Efr.
    + intros f. by rewrite Hnone.
  - destruct (image_page s1 T1 L1 _ e I1 Hv El H1) as (p & Ep & Up). pose proof (up_ram _ _ _ _ Up) as Hr.
    exists p, s1, T1, L1. split_and!; [done|done|done| |done|done|by eapply grown_le; [exact G1|lia]| | |].
    + rewrite land_valid, H1. cbn [Z.eqb negb]. destruct (user_entry _ _ _ _ Up) as (_ & _ & _ & ->). done.
    + by rewrite El, Ep.
    + intros v Hvv _. by apply Hc.
    + intros f Ef. by rewrite Hc.
Qed.

(** writing in a mapped page *)
Lemma image_write s T L v p off new : image s T L → 0 ≤ v < 2 ^ 36 → L v = Some (UD p) → ram_page p →
  0 ≤ off → off + Z.of_nat (length new) ≤ 4096 → bytes new →
  ∃ f s', content s L v = Some f ∧ length f = 4096%nat ∧ write_frame p off new s = Ok (tt, s') ∧ image s' T L ∧ grown 0 s s' ∧
    content s' L v = Some (splice (Z.to_nat off) new f) ∧
    (∀ v', 0 ≤ v' < 2 ^ 36 → v' ≠ v → content s' L v' = content s L v').
Proof using HF.
  intros I Hv El Hr Ho Hl Hb. destruct (UD_odd p Hr) as (H1 & H3 & Ea).
  destruct (image_page s T L v _ I Hv El H1) as (q & Eq & Uq). apply UD_inj in Eq as <-; [|done|apply Uq].
  destruct (up_frame _ _ _ _ Uq) as (f & Ef & Hlf & Hbf). set (g := splice (Z.to_nat off) new f).
  assert (length g = 4096%nat) as Hlg by (unfold g; rewrite length_splice; lia).
  exists f, (upd_frames <[p := g]> s). split_and!.
  - by rewrite (user_content _ _ _ _ _ _ El Uq).
  - done.
  - unfold write_frame, frame_at, set_frame. by rewrite (bind_Ok _ _ s f s) by by apply getopt_run.
  - split; [|apply I|apply I|apply I]. apply uspace_store; [apply I|apply Uq|done|by apply bytes_splice].
  - split; try done; [|simpl; lia]. intros q Hq. simpl. apply lookup_insert_ne. intros <-.
    destruct (im_foreign _ _ _ I p Hq) as (_ & _ & H). by apply (H v).
  - unfold content. rewrite El. cbn [mbind option_bind]. rewrite H3, Ea. simpl. apply lookup_insert_eq.
  - intros v' Hv' Hne. unfold content. destruct (L v') as [e'|] eqn:El'; [|done]. cbn [mbind option_bind].
    destruct (Z.eqb_spec (e' mod 4) 3); [|done]. simpl. apply lookup_insert_ne. intros Ep. apply Hne.
    assert (e' mod 2 = 1) as He' by zmod.
    pose proof (im_entry _ _ _ I v' e' Hv' El' He') as Ee. rewrite <-Ep in Ee. rewrite Ee in El'.
    by eapply (im_inj _ _ _ I).
Qed.

(** From pages to bytes: the bytes [l] are stored at [a], and every other address that was
    mapped keeps its byte. *)
Record written s L s' L' (a : Z) (l : list Z) : Prop := {
  wr_new : bytes_at (byte s' L') a l;
  wr_old : ∀ x c, 0 ≤ x < USERTOP → x < a ∨ a + Z.of_nat (length l) ≤ x →
    byte s L x = Some c → byte s' L' x = Some c }.

Lemma bytes_written_nil s L s' L' a :
  (∀ x c, 0 ≤ x < USERTOP → byte s L x = Some c → byte s' L' x = Some c) → written s L s' L' a [].
Proof using. intros H. split; [by intros i c|]. eauto. Qed.

Lemma bytes_written_app s L s1 L1 s2 L2 a l1 l2 : 0 ≤ a → a + Z.of_nat (length l1) ≤ USERTOP →
  written s L s1 L1 a l1 → written s1 L1 s2 L2 (a + Z.of_nat (length l1)) l2 → written s L s2 L2 a (l1 ++ l2).
Proof using.
  intros Ha Hb [N1 O1] [N2 O2]. split.
  - apply bytes_at_app. split; [|done]. intros i c E. pose proof (lookup_lt_Some _ _ _ E).
    apply O2; [lia|lia|]. by apply N1.
  - intros x c Hx Ho E. rewrite length_app in Ho. apply O2; [done|lia|]. apply O1; [done|lia|done].
Qed.

Lemma page_written s L s' L' a l f : 0 ≤ a → a mod 4096 + Z.of_nat (length l) ≤ 4096 → length f = 4096%nat →
  (∀ v, 0 ≤ v < 2 ^ 36 → v ≠ a / 4096 → content s' L' v = content s L v) →
  (∀ g, content s L (a / 4096) = Some g → g = f) →
  content s' L' (a / 4096) = Some (splice (Z.to_nat (a mod 4096)) l f) → written s L s' L' a l.
Proof using.
  intros Ha Hl Hf Hother Hold Hnew. split.
  - intros i c E. pose proof (lookup_lt_Some _ _ _ E) as Hi. unfold byte.
    replace ((a + Z.of_nat i) / 4096) with (a / 4096) by zmod. rewrite Hnew. cbn [mbind option_bind].
    rewrite lookup_splice by zmod. rewrite decide_True by zmod.
    replace (Z.to_nat ((a + Z.of_nat i) mod 4096) - Z.to_nat (a mod 4096))%nat with i by zmod. done.
  - intros x c Hx Ho. unfold byte. destruct (decide (x / 4096 = a / 4096)) as [E|Hne].
    + rewrite E, Hnew. destruct (content s L (a / 4096)) as [g|] eqn:Eg; [|done]. rewrite (Hold g eq_refl).
      cbn [mbind option_bind]. intros Ec. rewrite lookup_splice by zmod. rewrite decide_False by zmod. done.
    + rewrite Hother; [done| |done]. apply page_number. done.
Qed.

(** ** [copyout] *)

(** the pages the [n] bytes from [a] on touch *)
Definition pages_of (a n : Z) : Z := if n =? 0 then 0 else (a mod 4096 + n + 4095) / 4096.

Lemma pages_of_next a n k : 0 ≤ a → n = Z.min (4096 - a mod 4096) k → 0 < k →
  0 ≤ pages_of (a + n) (k - n) ≤ pages_of a k - 1.
Proof using.
  intros Ha -> Hk. pose proof (Z.mod_pos_bound a 4096 ltac:(lia)). unfold pages_of. rewrite (proj2 (Z.eqb_neq k 0)) by lia.
  destruct (Z.eqb_spec (k - Z.min (4096 - a mod 4096) k) 0); [split; zmod|].
  assert ((a + Z.min (4096 - a mod 4096) k) mod 4096 = 0) as -> by zmod. split; zmod.
Qed.

Definition source (src : option (list Z)) (len : Z) : list Z := default (replicate (Z.to_nat len) 0) src.
Definition source_ok (src : option (list Z)) (len : Z) : Prop :=
  match src with Some l => Z.of_nat (length l) = len ∧ bytes l | None => True end.

Lemma source_split src len n : source_ok src len → 0 ≤ n ≤ len →
  let piece := match src with Some l => take (Z.to_nat n) l | None => replicate (Z.to_nat n) 0 end in
  Z.of_nat (length piece) = n ∧ bytes piece ∧ source_ok (drop (Z.to_nat n) <$> src) (len - n) ∧
  source src len = piece ++ source (drop (Z.to_nat n) <$> src) (len - n).
Proof using.
  intros Hs Hn. destruct src as [l|]; simpl in *.
  - destruct Hs as [Hl Hb]. rewrite length_take, length_drop. split_and!; [lia|by apply bytes_take|lia|by apply bytes_drop|].
    unfold source. simpl. by rewrite take_drop.
  - rewrite length_replicate. split_and!; [lia|by apply bytes_replicate|done|]. unfold source. simpl.
    rewrite <-replicate_add. f_equal. lia.
Qed.

Lemma copyout_loop_run fuel : ∀ s T L va src len, image s T L → 0 ≤ va → 0 ≤ len → va + len ≤ USERTOP →
  source_ok src len → len < Z.of_nat fuel → 4 * pages_of va len ≤ Z.of_nat (length (pages (kmem s))) →
  ∃ s' T' L', copyout_loop fuel pd va src len s = Ok (0, s') ∧ image s' T' L' ∧
    grown (4 * Z.to_nat (pages_of va len)) s s' ∧ written s L s' L' va (source src len).
Proof using HF.
  induction fuel as [|fuel IH]; intros s T L va src len I Hva Hlen Htop Hsrc Hfuel Hroom; [lia|].
  cbn [copyout_loop]. destruct (Z.eqb_spec len 0) as [->|Hne].
  { exists s, T, L. split_and!; [done|done|eapply grown_le; [apply space_grown_refl|lia]|].
    assert (source src 0 = []) as ->; [|by apply bytes_written_nil].
    destruct src as [[|]|]; [done| |done]. destruct Hsrc as [? _]. simpl in *. lia. }
  change USERTOP with 281474976710656 in *.
  assert (0 ≤ va < 2 ^ 48) as Hva' by (change (2 ^ 48) with 281474976710656; lia).
  destruct (image_page_for s T L va I Hva') as (pte & e & s1 & p & s2 & T2 & L2 & E1 & Hz & Er & E2 & Hr & I2 & G2 & El & Ho & Hf);
    [unfold pages_of in Hroom; rewrite (proj2 (Z.eqb_neq len 0)) in Hroom by done; zmod|]. pose proof (page_number va Hva') as Hv.
  rewrite (bind_Ok _ _ _ _ _ E1), (proj2 (Z.eqb_neq pte 0)) by done. rewrite (bind_Ok _ _ _ _ _ Er), (bind_Ok _ _ _ _ _ E2).
  rewrite (proj2 (Z.eqb_neq p 0)) by (destruct Hr; unfold KSPACE_MASK in *; lia). change PAGE_SIZE with 4096.
  pose proof (Z.mod_pos_bound va 4096 ltac:(lia)) as Hoff.
  rewrite (u64_id (4096 - va mod 4096)) by lia. set (n := MIN (4096 - va mod 4096) len).
  assert (n = Z.min (4096 - va mod 4096) len) as En by (unfold n, MIN; destruct (Z.leb_spec (4096 - va mod 4096) len); lia).
  destruct (source_split src len n Hsrc ltac:(lia)) as (Hpl & Hpb & Hsrc' & Hs). cbv zeta in Hpl, Hpb, Hs.
  set (piece := match src with Some l => _ | None => _ end) in *.
  destruct (image_write s2 T2 L2 (va / 4096) p (va mod 4096) piece I2 Hv El Hr) as (f & s3 & Hc & Hlf & E3 & I3 & G3 & Hc3 & Ho3);
    [lia|lia|done|].
  rewrite (bind_Ok _ _ _ _ _ E3). rewrite (u64_id (va + n)), (u64_id (len - n)) by lia.
  pose proof (pages_of_next va n len ltac:(lia) En ltac:(lia)) as Hpg. pose proof (gr_room _ _ _ G2) as R2. pose proof (gr_room _ _ _ G3) as R3.
  destruct (IH s3 T2 L2 (va + n) (drop (Z.to_nat n) <$> src) (len - n) I3) as (s4 & T4 & L4 & E4 & I4 & G4 & W4);
    [lia|lia|lia|done|lia|lia|].
  exists s4, T4, L4. split_and!; [done|done| |].
  - apply (space_grown_trans 4 (4 * Z.to_nat (pages_of (va + n) (len - n))) _ s s3 s4); [|done|lia].
    by apply (space_grown_trans 4 0 4 s s2 s3).
  - rewrite Hs. apply (bytes_written_app s L s3 L2); [lia|change USERTOP with 281474976710656; lia| |by rewrite Hpl].
    apply (page_written s L s3 L2 va piece f); [lia|lia|done| |intros g Hg; specialize (Hf g Hg); congruence|done].
    intros v Hvv Hne'. by rewrite Ho3, Ho.
Qed.

Lemma copyout_run s T L va src len : image s T L → 0 ≤ va → 0 ≤ len → va + len ≤ USERTOP →
  source_ok src len → 4 * pages_of va len ≤ Z.of_nat (length (pages (kmem s))) →
  ∃ s' T' L', copyout pd va src len s = Ok (0, s') ∧ image s' T' L' ∧
    grown (4 * Z.to_nat (pages_of va len)) s s' ∧ written s L s' L' va (source src len).
Proof using HF.
  intros I Hva Hlen Htop Hsrc Hroom. unfold copyout. rewrite u64_id by (unfold USERTOP in *; lia).
  destruct (Z.ltb_spec USERTOP (va + len)); [lia|]. by apply (copyout_loop_run _ s T); try lia.
Qed.

(** ** Stores through the tables in force *)

Definition mapped_range s L (a : Z) (n : nat) : Prop := ∀ x, a ≤ x < a + Z.of_nat n → is_Some (byte s L x).

Lemma user_byte_byte s T L a : image s T L → ttbr0 s = K2P root → 0 ≤ a < USERTOP → user_byte s a = byte s L a.
Proof using. intros I Et Ha. by rewrite (user_byte_content s pd root T L Ls a (im_space _ _ _ I) Et Ha). Qed.

Lemma byte_page s T L a : image s T L → 0 ≤ a < USERTOP → is_Some (byte s L a) →
  ∃ p, L (a / 4096) = Some (UD p) ∧ ram_page p.
Proof using.
  intros I Ha [c Hc]. pose proof (page_number a Ha) as Hv. unfold byte, content in Hc.
  destruct (L (a / 4096)) as [e|] eqn:El; [|done]. cbn [mbind option_bind] in Hc.
  destruct (Z.eqb_spec (e mod 4) 3); [|done].
  destruct (image_page s T L _ e I Hv El ltac:(zmod)) as (p & -> & U). exists p. split; [done|apply U].
Qed.

Lemma user_page_run s T L a p : image s T L → ttbr0 s = K2P root → 0 ≤ a < USERTOP →
  L (a / 4096) = Some (UD p) → ram_page p → user_page_at a s = Some (K2P p + a mod 4096, PTE_USER_DATA).
Proof using.
  intros I Et Ha El Hr. destruct (UD_odd p Hr) as (_ & H3 & _).
  destruct (entry_of p PTE_USER_DATA Hr ltac:(done) eq_refl) as (_ & _ & Hadd). fold (UD p) in Hadd.
  unfold user_page_at. rewrite (proj2 (Z.ltb_ge a 0)), (proj2 (Z.leb_gt USERTOP a)) by lia. cbn [orb].
  destruct (im_space _ _ _ I) as [Sp _ _ _].
  rewrite Et, (translate_xlate s root T (sp_tree _ _ _ _ _ Sp)). unfold xlate.
  rewrite (sp_leaf _ _ _ _ _ Sp) by done. rewrite El. cbn [mbind option_bind].
  rewrite H3. cbn [Z.eqb Pos.eqb fmap option_fmap option_map]. rewrite Hadd.
  destruct (ram_K2P p Hr) as (_ & Ep & Ek & _).
  assert (UD p = K2P p + PTE_USER_DATA) as Eu by by apply lor_flags.
  rewrite PTE_FLAGS_eq; change (2 ^ 48) with 281474976710656 in *;
    change PTE_USER_DATA with 1607 in *.
  - do 2 f_equal. zmod.
  - zmod.
Qed.

Lemma store_byte_run s T L a c : image s T L → ttbr0 s = K2P root → 0 ≤ a < USERTOP → is_Some (byte s L a) → is_byte c →
  ∃ s', store a c s = Ok (tt, s') ∧ image s' T L ∧ grown 0 s s' ∧ written s L s' L a [c].
Proof using HF.
  intros I Et Ha Hm Hc. destruct (byte_page s T L a I Ha Hm) as (p & El & Hr).
  destruct (ram_K2P p Hr) as (_ & Em & _ & Ek). pose proof (page_number a Ha) as Hv.
  destruct (image_write s T L (a / 4096) p (a mod 4096) [c] I Hv El Hr) as (f & s' & Ef & Hlf & Ew & I' & G & Hn & Ho);
    [zmod|simpl; zmod|by constructor|].
  exists s'. split_and!; [|done|done|].
  - unfold store. rewrite (bind_Ok _ _ s (K2P p + a mod 4096, PTE_USER_DATA) s)
      by by eapply getopt_run, user_page_run. cbv beta iota.
    replace (Z.land PTE_USER_DATA PTE_RO =? 0) with true by (vm_compute; reflexivity).
    replace ((K2P p + a mod 4096) mod 4096) with (a mod 4096) by zmod.
    replace (K2P p + a mod 4096 - a mod 4096) with (K2P p) by lia. by rewrite Ek.
  - apply (page_written s L s' L a [c] f); [lia|simpl; zmod|done|done|intros g Hg; congruence|done].
Qed.

Lemma written_mapped s L s' L' a l x : 0 ≤ x < USERTOP → written s L s' L' a l →
  is_Some (byte s L x) → is_Some (byte s' L' x).
Proof using.
  intros Hx [N O] [c Hc]. destruct (decide (a ≤ x < a + Z.of_nat (length l))) as [Hin|].
  - destruct (lookup_lt_is_Some_2 l (Z.to_nat (x - a)) ltac:(lia)) as [d Ed]. exists d.
    apply N in Ed. by replace (a + Z.of_nat (Z.to_nat (x - a))) with x in Ed by lia.
  - exists c. apply O; [done|lia|done].
Qed.

Lemma store_bytes_run l : ∀ s T L a, image s T L → ttbr0 s = K2P root → user_range a (length l) →
  mapped_range s L a (length l) → bytes l →
  ∃ s', store_bytes a l s = Ok (tt, s') ∧ image s' T L ∧ grown 0 s s' ∧ written s L s' L a l.
Proof using HF.
  induction l as [|c l IH]; intros s T L a I Et [Ha Hb] Hm Hby.
  { exists s. split_and!; [done|done|apply space_grown_refl|by apply bytes_written_nil]. }
  inversion Hby; subst. simpl length in *.
  destruct (store_byte_run s T L a c I Et) as (s1 & E1 & I1 & G1 & W1); [lia|apply Hm; lia|done|].
  destruct (IH s1 T L (a + 1) I1) as (s2 & E2 & I2 & G2 & W2); [|split; lia| |done|].
  { by rewrite (proj2 (proj2 (gr_regs _ _ _ G1))). }
  { intros x Hx. eapply written_mapped; [lia|exact W1|]. apply Hm. lia. }
  exists s2. split_and!; [|done|by apply (space_grown_trans 0 0 0 s s1 s2)|].
  - cbn [store_bytes]. by rewrite (bind_Ok _ _ _ _ _ E1).
  - apply (bytes_written_app s L s1 L s2 L a [c] l); [lia|simpl; lia|done|done].
Qed.

(** the later piece below the earlier one *)
Lemma written_below s L s1 L1 s2 L2 a l1 l2 : 0 ≤ a → a + Z.of_nat (length l2) + Z.of_nat (length l1) ≤ USERTOP →
  written s L s1 L1 (a + Z.of_nat (length l2)) l1 → written s1 L1 s2 L2 a l2 → written s L s2 L2 a (l2 ++ l1).
Proof using.
  intros Ha Hb [N1 O1] [N2 O2]. split.
  - apply bytes_at_app. split; [done|]. intros i c E. pose proof (lookup_lt_Some _ _ _ E).
    apply O2; [lia|lia|]. by apply N1.
  - intros x c Hx Ho E. rewrite length_app in Ho. apply O2; [done|lia|]. apply O1; [done|lia|done].
Qed.

(** writing inside what was written *)
Lemma written_over s L s1 L1 s2 L2 a b l1 l2 :
  0 ≤ a → a + Z.of_nat (length l1) ≤ USERTOP → a ≤ b → b + Z.of_nat (length l2) ≤ a + Z.of_nat (length l1) →
  written s L s1 L1 a l1 → written s1 L1 s2 L2 b l2 →
  written s L s2 L2 a (splice (Z.to_nat (b - a)) l2 l1).
Proof using.
  intros Ha Hb Hab Hin [N1 O1] [N2 O2]. split.
  - intros i c. rewrite lookup_splice by lia. case_decide as Hd; intros E.
    + apply N2 in E. by replace (a + Z.of_nat i) with (b + Z.of_nat (i - Z.to_nat (b - a))) by lia.
    + pose proof (lookup_lt_Some _ _ _ E). apply O2; [lia|lia|]. by apply N1.
  - intros x c Hx. rewrite length_splice by lia. intros Ho E. apply O2; [done|lia|]. by apply O1.
Qed.

End image.

(** ** [uvm_alloc] *)

Section uvm.
Context (pd root : Z) (Ls : list (list Z)) (F : Z → Prop) (HF : ∀ p, F p → ram_page p).
Local Notation img := (image pd root Ls).

Lemma image_foreign_le (F' : Z → Prop) s T L :
  (∀ p, F p → F' p) → img F' s T L → img F s T L.
Proof using. intros H [A B D E]. split; auto. Qed.
Lemma grown_foreign_le (F' : Z → Prop) n s s' : (∀ p, F p → F' p) → grown F' n s s' → grown F n s s'.
Proof using. intros H [A B D E G1 G2]. split; auto. Qed.

(** a fresh page is mapped at page [v]: a round of the loop *)
Lemma uvm_page_run s T L v : img F s T L → 0 ≤ v < 2 ^ 36 → content s L v = None →
  (4 ≤ length (pages (kmem s)))%nat →
  ∃ p s1 s2 s' T' L', inmem kalloc_page s = Ok (p, s1) ∧ p ≠ 0 ∧
    get_pte pd (v * 4096) true s1 = Ok (pteaddr T' (v * 4096), s2) ∧
    write_pte (pteaddr T' (v * 4096)) (Z.lor (K2P p) PTE_USER_DATA) s2 = Ok (tt, s') ∧
    img F s' T' L' ∧ grown F 4 s s' ∧ is_Some (content s' L' v) ∧
    (∀ u, 0 ≤ u < 2 ^ 36 → u ≠ v → content s' L' u = content s L u).
Proof using HF.
  intros I Hv Hnone Hn.
  assert (0 ≤ v * 4096 < 2 ^ 48) as Hva by (change (2 ^ 36) with 68719476736 in *; change (2 ^ 48) with 281474976710656; lia).
  destruct (image_take pd root Ls F HF s T L I) as (p & s1 & E1 & I1 & G1 & Hr & Efr & Hnp & Ha & HnF & (f & Hf) & Hnew).
  { intros Ez. rewrite Ez in Hn. simpl in Hn. lia. }
  set (F' := λ q, F q ∨ q = p). assert (∀ q, F' q → ram_page q) as HF' by (intros q [Hq| ->]; auto).
  assert (img F' s1 T L) as I1'.
  { split; [apply I1|apply I1|apply I1|]. intros q [Hq| ->]; [by apply (im_foreign _ _ _ _ _ _ _ I1)|done]. }
  pose proof (gr_room _ _ _ _ G1) as R1.
  destruct (image_get_pte pd root Ls F' HF' s1 T L (v * 4096) I1' Hva ltac:(lia))
    as (s2 & T2 & L2 & E2 & Hz & El & Er & I2 & G2 & Hc2).
  rewrite Z.div_mul in El by lia.
  destruct (im_foreign _ _ _ _ _ _ _ I2 p ltac:(by right)) as (Hnp2 & Ha2 & Hnew2).
  assert (is_frame (frames s2) p f) as Hf2.
  { unfold is_frame. rewrite (gr_frames _ _ _ _ G2); [done|by right]. }
  assert (∀ q, F q → F' q) as Hle by (intros q; by left).
  apply (image_foreign_le F') in I2; [|done]. apply (grown_foreign_le F') in G2; [|done].
  rewrite <-(Z.div_mul v 4096) in El by lia.
  destruct (image_map pd root Ls F HF s2 T2 L2 (v * 4096) _ p I2 Hva El Hr Hnp2 Ha2 HnF ltac:(by eexists) Hnew2)
    as (s3 & E3 & I3 & G3 & Hc3). rewrite Z.div_mul in * by lia.
  exists p, s1, s2, s3, T2, (lset L2 v (UD p)). split_and!; [done| |done|done|done| | |].
  - destruct Hr. unfold KSPACE_MASK in *. lia.
  - apply (space_grown_trans F 4 0 4 s s2 s3); [by apply (space_grown_trans F 1 3 4 s s1 s2)|done|lia].
  - assert (lset L2 v (UD p) v = Some (UD p)) as Ev by (unfold lset; by rewrite decide_True).
    destruct (UD_odd p Hr) as (H1 & H3 & Ep).
    destruct (image_page pd root Ls F s3 T2 _ v _ I3 Hv Ev H1) as (q & Eq & Uq).
    rewrite (user_content _ _ _ _ _ _ Ev Uq). destruct (up_frame _ _ _ _ Uq) as (g & Hg & _). by eexists.
  - intros u Hu Hne. rewrite Hc3, Hc2 by done. unfold content. by rewrite Efr.
Qed.

Lemma uvm_loop_run fuel : ∀ s T L v newsz, img F s T L → 0 ≤ v → v * 4096 ≤ USERTOP → newsz ≤ USERTOP →
  Z.max 0 ((newsz - v * 4096) / 4096 + 1) < Z.of_nat fuel →
  (∀ u, v ≤ u → u * 4096 < newsz → content s L u = None) →
  4 * ((newsz - v * 4096 + 4095) / 4096) ≤ Z.of_nat (length (pages (kmem s))) →
  ∃ s' T' L', uvm_loop fuel pd (v * 4096) newsz s = Ok (tt, s') ∧ img F s' T' L' ∧
    grown F (Z.to_nat (4 * ((newsz - v * 4096 + 4095) / 4096))) s s' ∧
    (∀ u, 0 ≤ u < 2 ^ 36 → u < v ∨ newsz ≤ u * 4096 → content s' L' u = content s L u) ∧
    (∀ u, v ≤ u → u * 4096 < newsz → is_Some (content s' L' u)).
Proof using HF.
  induction fuel as [|fuel IH]; intros s T L v newsz I Hv Hv' Htop Hfuel Hnone Hroom; [lia|].
  cbn [uvm_loop]. destruct (Z.ltb_spec (v * 4096) newsz) as [Hlt|Hge].
  2:{ exists s, T, L. split_and!; [done|done|eapply grown_le; [apply space_grown_refl|lia]|done|lia]. }
  change USERTOP with 281474976710656 in *. set (k := (newsz - v * 4096 + 4095) / 4096) in *.
  assert (1 ≤ k ∧ (newsz - (v + 1) * 4096 + 4095) / 4096 = k - 1) as [Hk Hk'] by (unfold k; split; zmod).
  destruct (uvm_page_run s T L v I) as (p & s1 & s2 & s3 & T3 & L3 & E1 & Hp & E2 & E3 & I3 & G3 & Hm & Ho);
    [change (2 ^ 36) with 68719476736; lia|by apply Hnone; lia|lia|].
  rewrite (bind_Ok _ _ _ _ _ E1), (proj2 (Z.eqb_neq p 0)) by done. rewrite (bind_Ok _ _ s1 tt s1) by done.
  rewrite (bind_Ok _ _ _ _ _ E2), (bind_Ok _ _ _ _ _ E3). pose proof (gr_room _ _ _ _ G3) as R3.
  change PAGE_SIZE with 4096. rewrite u64_id by lia. replace (v * 4096 + 4096) with ((v + 1) * 4096) by lia.
  destruct (IH s3 T3 L3 (v + 1) newsz I3) as (s4 & T4 & L4 & E4 & I4 & G4 & Ho4 & Hm4); [lia|lia|lia|zmod| |lia|].
  { intros u Hu Hu'. rewrite Ho; [by apply Hnone; lia|change (2 ^ 36) with 68719476736; lia|lia]. }
  rewrite Hk' in G4. exists s4, T4, L4. split_and!; [done|done| | |].
  - apply (space_grown_trans F 4 (Z.to_nat (4 * (k - 1))) _ s s3 s4); [done|done|lia].
  - intros u Hu Hout. rewrite Ho4, Ho; [done|done|lia|done|lia].
  - intros u Hu Hu'. destruct (decide (u = v)) as [->|]; [|apply Hm4; lia].
    rewrite Ho4; [done|change (2 ^ 36) with 68719476736; lia|lia].
Qed.

(** The pages from the first boundary after [oldsz] up to [newsz] get mapped; the result is an
    [int]. *)
Lemma uvm_alloc_run s T L oldsz newsz : img F s T L → 0 ≤ oldsz ≤ USERTOP → 0 ≤ newsz ≤ USERTOP →
  (∀ u, oldsz ≤ u * 4096 → u * 4096 < newsz → content s L u = None) →
  4 * ((newsz - oldsz + 8190) / 4096) ≤ Z.of_nat (length (pages (kmem s))) →
  ∃ s' T' L', uvm_alloc pd 0 oldsz newsz s = Ok (i32 newsz, s') ∧ img F s' T' L' ∧
    grown F (Z.to_nat (4 * ((newsz - oldsz + 8190) / 4096))) s s' ∧
    (∀ u, 0 ≤ u < 2 ^ 36 → u * 4096 < oldsz ∨ newsz ≤ u * 4096 → content s' L' u = content s L u) ∧
    (∀ u, oldsz ≤ u * 4096 → u * 4096 < newsz → is_Some (content s' L' u)).
Proof using HF.
  intros I Ho Hn Hnone Hroom. change USERTOP with 281474976710656 in *. unfold uvm_alloc.
  rewrite (bind_Ok _ _ s tt s) by done. change PAGE_SIZE with 4096.
  rewrite (u64_id (oldsz + 4096 - 1)) by lia. rewrite u64_id by zmod.
  set (v := (oldsz + 4096 - 1) / 4096). assert (0 ≤ v ∧ v * 4096 ≤ 281474976710656) as [Hv Hv'] by (unfold v; split; zmod).
  assert (∀ u, oldsz ≤ u * 4096 ↔ v ≤ u) as Hvu by (intros; unfold v; zmod).
  destruct (uvm_loop_run (S (Z.to_nat ((newsz - v * 4096) / 4096 + 1))) s T L v newsz I)
    as (s' & T' & L' & E & I' & G & Hold & Hnew); [done|done|change USERTOP with 281474976710656; lia|lia| | |].
  - intros u Hu. apply Hnone. by apply Hvu.
  - unfold v. zmod.
  - exists s', T', L'. split_and!; [|done| | |].
    + by rewrite (bind_Ok _ _ _ _ _ E).
    + eapply grown_le; [exact G|]. unfold v. zmod.
    + intros u Hu Hout. apply Hold; [done|]. destruct Hout as [Hlt|]; [left|by right].
      destruct (decide (u < v)); [done|]. assert (oldsz ≤ u * 4096) by (apply Hvu; lia). lia.
    + intros u Hu. apply Hnew. by apply Hvu.
Qed.
End uvm.
