(* ===== verification/Stack.v ===== *)
(** * The stack a new program finds: [build_stack] of [Exec] *)

From Stdlib Require Import ZArith Lia.
From S2P Require Import Prelude Words Sync Mmu KernelPt Mem MemSpec Pt PtSpec Cache CacheLog Paging PagingSpec.
From S2P Require Import Layout BlockCache Inode Trap Exec Image.

(** ** Arrays of strings *)

(** the array of pointers at [a], closed by a null pointer *)
Record string_array (m : Z → option Z) (a : Z) (ps : list Z) (strs : list (list Z)) : Prop := {
  sa_range : user_range a (8 * (length ps + 1));
  sa_strings : Forall2 (λ p str, 0 < p ∧ string_at m p str) ps strs;
  sa_pointers : ∀ i p, ps !! i = Some p → word_at m (a + 8 * Z.of_nat i) p;
  sa_null : word_at m (a + 8 * Z.of_nat (length ps)) 0 }.

(** what [execve] is given: no array, or one with the strings *)
Definition argument (m : Z → option Z) (a : Z) (strs : list (list Z)) : Prop :=
  a = 0 ∧ strs = [] ∨ a ≠ 0 ∧ ∃ ps, string_array m a ps strs.

(** ** The layout *)

Definition total (strs : list (list Z)) : Z := foldr (λ l n, Z.of_nat (length l) + 1 + n) 0 strs.

(** the strings from the lowest address up: the last one first *)
Fixpoint strings (strs : list (list Z)) : list Z :=
  match strs with [] => [] | str :: strs => strings strs ++ str ++ [0] end.
(** their addresses, the first below [top] *)
Fixpoint addresses (top : Z) (strs : list (list Z)) : list Z :=
  match strs with
  | [] => []
  | str :: strs => let a := top - (Z.of_nat (length str) + 1) in a :: addresses a strs
  end.
(** pages that may be needed to copy them *)
Fixpoint cost (strs : list (list Z)) : Z :=
  match strs with [] => 0 | str :: strs => 4 * ((Z.of_nat (length str) + 1) / 4096 + 2) + cost strs end.

Lemma length_strings strs : Z.of_nat (length (strings strs)) = total strs.
Proof. induction strs as [|str strs IH]; [done|]. simpl. rewrite !length_app. simpl. fold total. lia. Qed.

Lemma total_pos strs : 0 ≤ total strs.
Proof. rewrite <-length_strings. lia. Qed.

Lemma total_strings_app l1 l2 : total (l1 ++ l2) = total l1 + total l2.
Proof. induction l1 as [|str l1 IH]; [done|]. simpl. fold total. rewrite IH. lia. Qed.

Lemma total_take n strs : total (take n strs) ≤ total strs.
Proof.
  rewrite <-(take_drop n strs) at 2. rewrite total_strings_app. pose proof (total_pos (drop n strs)). lia.
Qed.

Lemma strings_app l1 l2 : strings (l1 ++ l2) = strings l2 ++ strings l1.
Proof. induction l1 as [|str l1 IH]; cbn [app strings]; [by rewrite app_nil_r|]. by rewrite IH, <-!app_assoc. Qed.

Lemma addresses_app top l1 l2 : addresses top (l1 ++ l2) = addresses top l1 ++ addresses (top - total l1) l2.
Proof.
  revert top. induction l1 as [|str l1 IH]; intros top; simpl; [by rewrite Z.sub_0_r|].
  rewrite IH. f_equal. f_equal. f_equal. fold total. lia.
Qed.

Lemma length_addresses top strs : length (addresses top strs) = length strs.
Proof. revert top. induction strs as [|str strs IH]; intros top; simpl; [done|]. f_equal. apply IH. Qed.

Lemma cost_pos strs : 0 ≤ cost strs.
Proof. induction strs as [|str strs IH]; simpl; [done|]. zmod. Qed.

Lemma pages_of_le a n : 0 ≤ n → pages_of a n ≤ n / 4096 + 2.
Proof. intros Hn. unfold pages_of. destruct (n =? 0); zmod. Qed.

Lemma bytes_string m a str : string_at m a str → (∀ x c, 0 ≤ x < USERTOP → m x = Some c → is_byte c) → bytes (str ++ [0]).
Proof.
  intros (Ha & Hl & _ & Hb) Hm. apply Forall_lookup. intros i c Hc. pose proof (lookup_lt_Some _ _ _ Hc) as Hi.
  rewrite length_app in Hi. simpl in Hi. eapply (Hm (a + Z.of_nat i)); [lia|by apply Hb].
Qed.

Lemma string_array_ext m m' a ps strs : (∀ x c, 0 ≤ x < USERTOP → m x = Some c → m' x = Some c) →
  string_array m a ps strs → string_array m' a ps strs.
Proof.
  intros Hm [R S P N].
  assert (∀ b l, user_range b (length l) → bytes_at m b l → bytes_at m' b l) as Hb.
  { intros b l [Hb1 Hb2] Hb i c E. pose proof (lookup_lt_Some _ _ _ E). apply Hm; [lia|]. by apply Hb. }
  pose proof R as [R1 R2]. split; [done| | |].
  - clear P N R R2. induction S as [|p str ps strs (H0 & Hr1 & Hr2 & Hn & Hs) S IH]; [constructor|].
    constructor; [|done]. split; [done|]. split_and!; try done. apply Hb; [|done].
    split; [lia|]. rewrite length_app. simpl. lia.
  - intros i p Ei. pose proof (lookup_lt_Some _ _ _ Ei). apply (Hb _ (le_enc 8 p)); [split; [lia|simpl; lia]|by apply P].
  - apply (Hb _ (le_enc 8 0)); [split; [lia|simpl; lia]|done].
Qed.

Lemma argument_ext m m' a strs : (∀ x c, 0 ≤ x < USERTOP → m x = Some c → m' x = Some c) →
  argument m a strs → argument m' a strs.
Proof.
  intros Hm [H|[Ha [ps Hs]]]; [by left|right]. split; [done|]. exists ps. by eapply string_array_ext.
Qed.

Section stack.
Context (pd root : Z) (Ls : list (list Z)) (F : Z → Prop) (HF : ∀ p, F p → ram_page p).
Local Notation img := (image pd root Ls F).
Local Notation grw := (grown F).
Implicit Types (s : vm) (L : Z → option Z) (T : gmap (list Z) Z).

(** What the kernel reads through the tables in force is [m], and stays so while the space [pd]
    is built. *)
Definition view s (m : Z → option Z) : Prop :=
  ∀ n s' T' L', img s' T' L' → grw n s s' → ∀ x c, 0 ≤ x < USERTOP → m x = Some c → user_byte s' x = Some c.

Lemma view_grown n s s1 m : view s m → grw n s s1 → view s1 m.
Proof using. intros V G k s2 T L I G'. apply (V (n + k)%nat s2 T L I). by eapply space_grown_trans. Qed.

Lemma view_bytes n s s' T' L' m a l : view s m → img s' T' L' → grw n s s' → user_range a (length l) →
  bytes_at m a l → bytes_at (user_byte s') a l.
Proof using.
  intros V I G [Ha Hb] Hm i c E. pose proof (lookup_lt_Some _ _ _ E). eapply V; [exact I|exact G|lia|by apply Hm].
Qed.

Lemma view_string s T L m a str : view s m → img s T L → string_at m a str → string_at (user_byte s) a str.
Proof using.
  intros V I (Ha & Hl & Hn & Hb). split_and!; try done.
  eapply view_bytes; [exact V|exact I|apply space_grown_refl| |done]. split; [done|]. rewrite length_app. simpl. lia.
Qed.

(** ** Pushing the strings *)

Lemma push_strings_run n : ∀ s T L m a sp count ps strs,
  img s T L → view s m → (∀ x c, 0 ≤ x < USERTOP → m x = Some c → is_byte c) → string_array m a ps strs →
  total (take n strs) ≤ sp ≤ USERTOP → cost (take n strs) ≤ Z.of_nat (length (pages (kmem s))) →
  ∃ s' T' L', push_strings n pd a sp count s =
      Ok ((sp - total (take n strs), count + Z.of_nat (length (take n strs))), s') ∧
    img s' T' L' ∧ grw (Z.to_nat (cost (take n strs))) s s' ∧
    written s L s' L' (sp - total (take n strs)) (strings (take n strs)).
Proof using HF.
  assert (∀ sp count s T L, img s T L → ∃ s' T' L', Ok (sp, count, s) = Ok (sp - 0, count + 0, s') ∧ img s' T' L' ∧
    grw 0 s s' ∧ written s L s' L' (sp - 0) []) as Hstop.
  { intros sp count s T L I. exists s, T, L. rewrite Z.sub_0_r, Z.add_0_r.
    split_and!; [done|done|apply space_grown_refl|by apply bytes_written_nil]. }
  induction n as [|n IH]; intros s T L m a sp count ps strs I V Hby [Hr Hs Hp H0] Hsp Hc.
  { by apply (Hstop sp count s T L). }
  destruct Hs as [|p str ps strs [Hp0 Hstr] Hs].
  { cbn [push_strings]. rewrite (bind_Ok _ _ s 0 s); [by apply (Hstop sp count s T L)|].
    rewrite Z.add_0_r in H0. destruct Hr as [Hr1 Hr2]. simpl in Hr2.
    apply load64_run; [split; [lia|simpl; lia]|eapply view_bytes; [exact V|exact I|apply space_grown_refl|split; simpl; lia|exact H0]|lia]. }
  destruct Hr as [Hr1 Hr2]. simpl length in *. change USERTOP with 281474976710656 in *. cbn [push_strings].
  assert (p < 281474976710656) as Hplt by (destruct Hstr as (_ & Hpl & _); unfold USERTOP in Hpl; lia).
  rewrite (bind_Ok _ _ s p s).
  2:{ apply load64_run; [split; [lia|unfold USERTOP; simpl; lia]| |change (2 ^ 64) with 18446744073709551616; lia].
      eapply view_bytes; [exact V|exact I|apply space_grown_refl|split; [lia|unfold USERTOP; simpl; lia]|].
      rewrite <-(Z.add_0_r a). apply (Hp 0%nat). done. }
  rewrite (proj2 (Z.eqb_neq p 0)) by lia. cbn [take] in *. cbn [total strings cost foldr length] in *. fold (total (take n strs)) in *.
  pose proof (view_string s T L m p str V I Hstr) as Hstr'.
  rewrite (bind_Ok _ _ _ _ _ (user_length_run s p str Hstr')).
  pose proof (total_pos (take n strs)) as Ht. pose proof (cost_pos (take n strs)) as Hct.
  set (k := Z.of_nat (length str) + 1) in *. assert (0 < k) by (unfold k; lia). rewrite (u64_id (sp - k)) by lia.
  rewrite (bind_Ok _ _ s (str ++ [0]) s).
  2:{ replace (Z.to_nat k) with (length (str ++ [0])) by (rewrite length_app; simpl; lia).
      apply load_bytes_run; [|apply Hstr']. destruct Hstr as (? & ? & _). split; [done|].
      rewrite length_app. unfold USERTOP in *. simpl. lia. }
  pose proof (pages_of_le (sp - k) k ltac:(lia)) as Hpg.
  destruct (copyout_run pd root Ls F HF s T L (sp - k) (Some (str ++ [0])) k I) as (s1 & T1 & L1 & E1 & I1 & G1 & W1);
    [lia|lia|unfold USERTOP; lia| |lia|].
  { split; [rewrite length_app; simpl; lia|eapply bytes_string; [exact Hstr|exact Hby]]. }
  rewrite (bind_Ok _ _ _ _ _ E1). pose proof (gr_room _ _ _ _ G1) as R1.
  assert (0 ≤ pages_of (sp - k) k) as Hpg0 by (unfold pages_of; destruct (k =? 0); zmod).
  destruct (IH s1 T1 L1 m (a + 8) (sp - k) (count + 1) ps strs I1) as (s2 & T2 & L2 & E2 & I2 & G2 & W2).
  - by eapply view_grown.
  - done.
  - split; [split; [lia|unfold USERTOP; lia]|done| |].
    + intros i q Ei. replace (a + 8 + 8 * Z.of_nat i) with (a + 8 * Z.of_nat (S i)) by lia. by apply Hp.
    + by replace (a + 8 + 8 * Z.of_nat (length ps)) with (a + 8 * Z.of_nat (S (length ps))) by lia.
  - unfold USERTOP. lia.
  - lia.
  - exists s2, T2, L2. rewrite E2. split_and!; [|done| |].
    + do 3 f_equal; lia.
    + eapply space_grown_trans; [exact G1|exact G2|lia].
    + replace (sp - (k + total (take n strs))) with (sp - k - total (take n strs)) by lia.
      pose proof (length_strings (take n strs)) as Hls.
      apply (written_below s L s1 L1 s2 L2).
      * lia.
      * rewrite length_app. simpl. unfold USERTOP. lia.
      * by replace (sp - k - total (take n strs) + Z.of_nat (length (strings (take n strs)))) with (sp - k) by lia.
      * done.
Qed.

(** ** Storing the pointers *)

Lemma set_pointers_run strs : ∀ s T L array sp,
  img s T L → ttbr0 s = K2P root →
  Forall (Forall (λ c, c ≠ 0)) strs → bytes_at (byte s L) sp (strings strs) →
  0 ≤ array → array + 8 * Z.of_nat (length strs) ≤ sp → sp + total strs ≤ USERTOP →
  mapped_range s L array (8 * length strs) →
  ∃ s', set_pointers (length strs) array sp s = Ok (sp + total strs, s') ∧ img s' T L ∧ grw 0 s s' ∧
    written s L s' L array (concat (le_enc 8 <$> addresses (sp + total strs) strs)).
Proof using HF.
  induction strs as [|str strs IH] using rev_ind; intros s T L array sp I Et Hn Hb Ha Hsp Htop Hm.
  { exists s. simpl. rewrite Z.add_0_r. split_and!; [done|done|apply space_grown_refl|by apply bytes_written_nil]. }
  rewrite length_app, Nat.add_comm in *. cbn [length Nat.add set_pointers] in *.
  rewrite total_strings_app, strings_app in *. cbn [total strings foldr] in *. rewrite Z.add_0_r in *.
  pose proof (total_pos strs) as Ht. set (i := length strs) in *. change USERTOP with 281474976710656 in *.
  apply Forall_app in Hn as [Hn Hns]. inversion Hns as [|? ? Hstr _]; subst.
  apply bytes_at_app in Hb as [Hb1 Hb2]. rewrite length_app in Hb2. cbn [length app] in Hb1, Hb2.
  rewrite (u64_id (array + Z.of_nat i * 8)) by lia.
  destruct (store_bytes_run pd root Ls F HF (le_enc 8 sp) s T L (array + Z.of_nat i * 8) I Et) as (s1 & E1 & I1 & G1 & W1).
  { split; [lia|unfold USERTOP; simpl; lia]. }
  { intros x Hx. apply Hm. simpl in Hx. lia. }
  { apply bytes_le_enc. }
  unfold store64. rewrite (bind_Ok _ _ _ _ _ E1).
  assert (∀ x c, sp ≤ x < USERTOP → byte s L x = Some c → byte s1 L x = Some c) as Hkeep.
  { intros x c Hx Hc. apply (wr_old _ _ _ _ _ _ W1); [lia| |done]. simpl. lia. }
  assert (ttbr0 s1 = K2P root) as Et1 by by rewrite (proj2 (proj2 (gr_regs _ _ _ _ G1))).
  assert (string_at (user_byte s1) sp str) as Hstr1.
  { split_and!; [lia|unfold USERTOP; lia|done|]. intros j c Ej. pose proof (lookup_lt_Some _ _ _ Ej) as Hj.
    rewrite length_app in Hj. simpl in Hj.
    rewrite (user_byte_byte pd root Ls F s1 T L) by (done || (unfold USERTOP; lia)). apply Hkeep; [unfold USERTOP; lia|by apply Hb1]. }
  rewrite (bind_Ok _ _ _ _ _ (user_nul_run s1 sp str Hstr1)).
  destruct (IH s1 T L array (sp + Z.of_nat (length str) + 1) I1 Et1 Hn) as (s2 & E2 & I2 & G2 & W2); [|done|lia|unfold USERTOP; lia| |].
  { intros j c Ej. pose proof (lookup_lt_Some _ _ _ Ej) as Hj. pose proof (length_strings strs).
    apply Hkeep; [unfold USERTOP; lia|].
    apply Hb2 in Ej. rewrite <-Ej. f_equal. rewrite ?length_app. simpl. rewrite ?length_app. simpl. lia. }
  { intros x Hx. eapply written_mapped; [unfold USERTOP; lia|exact W1|]. apply Hm. fold i in Hx. lia. }
  exists s2. split_and!; [|done|by apply (space_grown_trans F 0 0 0 s s1 s2)|].
  - fold i in E2. rewrite E2. do 2 f_equal. lia.
  - rewrite addresses_app, fmap_app, concat_app. cbn [addresses fmap list_fmap concat]. rewrite app_nil_r.
    replace (sp + (total strs + (Z.of_nat (length str) + 1))) with (sp + Z.of_nat (length str) + 1 + total strs) by lia.
    replace (sp + Z.of_nat (length str) + 1 + total strs - total strs - (Z.of_nat (length str) + 1)) with sp by lia.
    assert (Z.of_nat (length (concat (le_enc 8 <$> addresses (sp + Z.of_nat (length str) + 1 + total strs) strs))) = 8 * Z.of_nat i) as El.
    { unfold i. rewrite <-(length_addresses (sp + Z.of_nat (length str) + 1 + total strs) strs).
      generalize (addresses (sp + Z.of_nat (length str) + 1 + total strs) strs). intros l.
      induction l as [|x l IHl]; [done|]. cbn [fmap list_fmap concat]. rewrite length_app. simpl length at 1 3. lia. }
    apply (written_below s L s1 L s2 L).
    + lia.
    + rewrite El. unfold USERTOP. simpl. lia.
    + by replace (array + Z.of_nat (length (concat _))) with (array + Z.of_nat i * 8) by lia.
    + done.
Qed.

(** ** The whole stack *)

Lemma push_array_run s T L m a sp strs : img s T L → view s m → (∀ x c, 0 ≤ x < USERTOP → m x = Some c → is_byte c) →
  argument m a strs → let l := take (Z.to_nat MAXARG) strs in
  total l ≤ sp ≤ USERTOP → cost l ≤ Z.of_nat (length (pages (kmem s))) →
  ∃ s' T' L', push_array pd a sp s = Ok ((sp - total l, Z.of_nat (length l)), s') ∧ img s' T' L' ∧
    grw (Z.to_nat (cost l)) s s' ∧ written s L s' L' (sp - total l) (strings l).
Proof using HF.
  intros I V Hby [[-> ->]|[Ha [ps Hps]]] l Hsp Hc; unfold push_array.
  - exists s, T, L. simpl. rewrite Z.sub_0_r. split_and!; [done|done|apply space_grown_refl|by apply bytes_written_nil].
  - rewrite (proj2 (Z.eqb_neq a 0)) by done.
    destruct (push_strings_run (Z.to_nat MAXARG) s T L m a sp 0 ps strs I V Hby Hps Hsp Hc) as (s' & T' & L' & E & R).
    exists s', T', L'. by rewrite E.
Qed.

Lemma written_keeps s L s' L' a l b l' : written s L s' L' a l → user_range b (length l') →
  b + Z.of_nat (length l') ≤ a ∨ a + Z.of_nat (length l) ≤ b → bytes_at (byte s L) b l' → bytes_at (byte s' L') b l'.
Proof using.
  intros [_ O] [Hb1 Hb2] Hd Hb i c E. pose proof (lookup_lt_Some _ _ _ E). apply O; [lia|lia|]. by apply Hb.
Qed.

Lemma zeros_sub m a n b k : bytes_at m a (replicate n 0) → a ≤ b → b + Z.of_nat k ≤ a + Z.of_nat n →
  bytes_at m b (replicate k 0).
Proof using.
  intros H Ha Hb i c [-> Hi]%lookup_replicate. replace (b + Z.of_nat i) with (a + Z.of_nat (Z.to_nat (b + Z.of_nat i - a))) by lia.
  apply H, lookup_replicate. split; [done|lia].
Qed.

Lemma strings_at m strs : ∀ top, 0 < top - total strs → top ≤ USERTOP → Forall (Forall (λ c, c ≠ 0)) strs →
  bytes_at m (top - total strs) (strings strs) →
  Forall2 (λ p str, 0 < p ∧ string_at m p str) (addresses top strs) strs.
Proof using.
  induction strs as [|str strs IH]; intros top H0 Ht Hn Hb; [constructor|]. cbn [addresses strings total foldr] in *.
  fold (total strs) in *. inversion Hn; subst. pose proof (total_pos strs). set (k := Z.of_nat (length str) + 1) in *.
  replace (top - (k + total strs)) with (top - k - total strs) in * by lia.
  apply bytes_at_app in Hb as [Hb1 Hb2]. constructor; [|apply IH; [done|lia|done|done]].
  split; [lia|]. split_and!; [lia|lia|done|].
  rewrite length_strings in Hb2. by replace (top - k - total strs + total strs) with (top - k) in Hb2 by lia.
Qed.

Lemma words_at m a l i v : bytes_at m a (concat (le_enc 8 <$> l)) → l !! i = Some v → word_at m (a + 8 * Z.of_nat i) v.
Proof using.
  revert a i. induction l as [|x l IH]; intros a i Hb Hi; [done|].
  cbn [fmap list_fmap concat] in Hb. apply bytes_at_app in Hb as [Hb1 Hb2].
  destruct i as [|i]; [injection Hi as ->; by rewrite Z.add_0_r|].
  replace (a + 8 * Z.of_nat (S i)) with (a + 8 + 8 * Z.of_nat i) by lia. apply IH; [|done].
  rewrite length_le_enc in Hb2. done.
Qed.

Lemma argument_nonzero m a strs : argument m a strs → Forall (Forall (λ c, c ≠ 0)) strs.
Proof using.
  intros [[_ ->]|[_ [ps [_ Hs _ _]]]]; [constructor|]. induction Hs as [|p str ps strs [_ (_ & _ & Hn & _)] _ IH]; by constructor.
Qed.

Definition stack_pointer (args envs : list (list Z)) : Z :=
  (USERTOP - total args - total envs - (Z.of_nat (length envs) + Z.of_nat (length args) + 4) * 8) / 16 * 16.
(** whole pieces of ten pages *)
Definition stack_size (args envs : list (list Z)) : Z :=
  (USERTOP - stack_pointer args envs + 40959) / 40960 * 40960.

Lemma stack_bounds args envs : total args + total envs ≤ 2 ^ 31 → (length args ≤ 10)%nat → (length envs ≤ 10)%nat →
  let sp := stack_pointer args envs in let top := USERTOP - total args - total envs in
  let need := (Z.of_nat (length envs) + Z.of_nat (length args) + 4) * 8 in
  USERTOP - 2 ^ 32 ≤ sp ∧ sp + need ≤ top ≤ USERTOP ∧ top - sp < need + 16 ∧ sp mod 16 = 0 ∧
  USERTOP - sp ≤ stack_size args envs < USERTOP - sp + 40960.
Proof using.
  intros Ht Ha He. pose proof (total_pos args). pose proof (total_pos envs). unfold stack_size, stack_pointer.
  change USERTOP with 281474976710656 in *. change (2 ^ 31) with 2147483648 in *. change (2 ^ 32) with 4294967296.
  split_and!; zmod.
Qed.

Lemma image_ttbr0 s T L v : img s T L → img (set_ttbr0 v s) T L.
Proof using. intros [A B D E]. split; [by apply uspace_ttbr0|done..]. Qed.

Lemma grown_ttbr0 n s s' v : grw n s s' → grw n (set_ttbr0 v s) (set_ttbr0 v s').
Proof using. intros [A B (D & E & _) G H I]. by split. Qed.

Lemma attach_run ip s T L : img s T L → attach_pgdir ip pd s = Ok (tt, set_ttbr0 (K2P root) s).
Proof using.
  intros I. destruct (im_space _ _ _ _ _ _ _ I) as [Sp _ _ _]. pose proof (space_root _ _ _ _ _ Sp) as Hr.
  destruct (sp_pd _ _ _ _ _ Sp) as (d & Ed & Er). unfold attach_pgdir, get_pgdir.
  rewrite (bind_Ok _ _ s d s) by by apply getopt_run. by rewrite Er, (proj2 (Z.eqb_neq root 0)).
Qed.

(** the strings, and below them the room for the pointers, zeroed *)
Lemma push_all_run s T L m argv envp args envs : img s T L → view s m → (∀ x c, 0 ≤ x < USERTOP → m x = Some c → is_byte c) →
  argument m argv args → argument m envp envs →
  let A := take (Z.to_nat MAXARG) args in let E := take (Z.to_nat MAXARG) envs in
  total A + total E ≤ 2 ^ 31 → cost A + cost E + 8 ≤ Z.of_nat (length (pages (kmem s))) →
  let sp := stack_pointer A E in let top := USERTOP - total A - total E in
  ∃ s1 s2 s3 T3 L3, push_array pd argv USERTOP s = Ok ((USERTOP - total A, Z.of_nat (length A)), s1) ∧
    push_array pd envp (USERTOP - total A) s1 = Ok ((top, Z.of_nat (length E)), s2) ∧
    copyout pd sp None (top - sp) s2 = Ok (0, s3) ∧ img s3 T3 L3 ∧
    grw (Z.to_nat (cost A + cost E + 8)) s s3 ∧
    bytes_at (byte s3 L3) (USERTOP - total A) (strings A) ∧ bytes_at (byte s3 L3) top (strings E) ∧
    bytes_at (byte s3 L3) sp (replicate (Z.to_nat (top - sp)) 0) ∧
    (∀ x c, 0 ≤ x < sp → byte s L x = Some c → byte s3 L3 x = Some c).
Proof using HF.
  intros I V Hby Ha He A E Htot Hcost sp top.
  assert (length A ≤ 10 ∧ length E ≤ 10)%nat as [HA HE] by (unfold A, E; rewrite !length_take; change (Z.to_nat MAXARG) with 10%nat; lia).
  pose proof (total_pos A) as HtA. pose proof (total_pos E) as HtE. pose proof (cost_pos A) as HcA. pose proof (cost_pos E) as HcE.
  destruct (stack_bounds A E Htot HA HE) as (Hsp & [Hneed Htop] & Hgap & _ & _). fold sp top in Hsp, Hneed, Htop, Hgap.
  change (2 ^ 31) with 2147483648 in *. change (2 ^ 32) with 4294967296 in *.
  destruct (push_array_run s T L m argv USERTOP args I V Hby Ha) as (s1 & T1 & L1 & E1 & I1 & G1 & W1);
    [fold A; unfold USERTOP; lia|fold A; lia|]. fold A in E1, G1, W1. pose proof (gr_room _ _ _ _ G1) as R1.
  destruct (push_array_run s1 T1 L1 m envp (USERTOP - total A) envs I1 (view_grown _ _ _ _ V G1) Hby He)
    as (s2 & T2 & L2 & E2 & I2 & G2 & W2); [fold E; unfold USERTOP; lia|fold E; lia|].
  fold E in E2, G2, W2. fold top in E2, W2. pose proof (gr_room _ _ _ _ G2) as R2.
  assert (0 ≤ pages_of sp (top - sp) ≤ 2) as Hpg.
  { pose proof (pages_of_le sp (top - sp)). unfold pages_of in *. destruct (top - sp =? 0); zmod. }
  change USERTOP with 281474976710656 in *.
  destruct (copyout_run pd root Ls F HF s2 T2 L2 sp None (top - sp) I2) as (s3 & T3 & L3 & E3 & I3 & G3 & W3);
    [lia|lia|unfold USERTOP; lia|done|lia|]. change (source None (top - sp)) with (replicate (Z.to_nat (top - sp)) 0) in W3.
  pose proof (length_strings A) as HlA. pose proof (length_strings E) as HlE.
  exists s1, s2, s3, T3, L3. split_and!; [done|done|done|done| | | | |].
  - apply (space_grown_trans F (Z.to_nat (cost A + cost E)) (4 * Z.to_nat (pages_of sp (top - sp))) _ s s2 s3); [|done|lia].
    apply (space_grown_trans F _ _ _ s s1 s2 G1 G2). lia.
  - eapply written_keeps; [exact W3|split; [lia|unfold USERTOP; lia]|rewrite length_replicate; lia|].
    eapply written_keeps; [exact W2|split; [lia|unfold USERTOP; lia]|lia|apply W1].
  - eapply written_keeps; [exact W3|split; [lia|unfold USERTOP; lia]|rewrite length_replicate; lia|apply W2].
  - apply W3.
  - intros x c Hx Hc. apply (wr_old _ _ _ _ _ _ W3); [unfold USERTOP; lia|lia|].
    apply (wr_old _ _ _ _ _ _ W2); [unfold USERTOP; lia|lia|]. apply (wr_old _ _ _ _ _ _ W1); [unfold USERTOP; lia|lia|done].
Qed.

(** the words: [argc] and the two arrays *)
Lemma set_words_run s T L args envs : img s T L → ttbr0 s = K2P root →
  Forall (Forall (λ c, c ≠ 0)) args → Forall (Forall (λ c, c ≠ 0)) envs →
  total args + total envs ≤ 2 ^ 31 → (length args ≤ 10)%nat → (length envs ≤ 10)%nat →
  let sp := stack_pointer args envs in let top := USERTOP - total args - total envs in
  let newargv := sp + 8 in let newenvp := sp + 8 + 8 * (Z.of_nat (length args) + 1) in
  bytes_at (byte s L) (USERTOP - total args) (strings args) → bytes_at (byte s L) top (strings envs) →
  bytes_at (byte s L) sp (replicate (Z.to_nat (top - sp)) 0) →
  ∃ s1 s2 s3, set_pointers (length envs) newenvp top s = Ok (USERTOP - total args, s1) ∧
    set_pointers (length args) newargv (USERTOP - total args) s1 = Ok (USERTOP, s2) ∧
    store64 sp (Z.of_nat (length args)) s2 = Ok (tt, s3) ∧ img s3 T L ∧ grw 0 s s3 ∧
    word_at (byte s3 L) sp (Z.of_nat (length args)) ∧
    string_array (byte s3 L) newargv (addresses USERTOP args) args ∧
    string_array (byte s3 L) newenvp (addresses (USERTOP - total args) envs) envs ∧
    (∀ x c, 0 ≤ x < USERTOP → x < sp → byte s L x = Some c → byte s3 L x = Some c) ∧
    (∀ x, 0 ≤ x < USERTOP → is_Some (byte s L x) → is_Some (byte s3 L x)).
Proof using HF.
  intros I Et HnA HnE Htot HA HE sp top newargv newenvp BA BE BZ.
  pose proof (total_pos args) as HtA. pose proof (total_pos envs) as HtE.
  destruct (stack_bounds args envs Htot HA HE) as (Hsp & [Hneed Htop] & Hgap & _ & _). fold sp top in Hsp, Hneed, Htop, Hgap.
  change (2 ^ 31) with 2147483648 in *. change (2 ^ 32) with 4294967296 in *. change USERTOP with 281474976710656 in *.
  set (na := Z.of_nat (length args)) in *. set (ne := Z.of_nat (length envs)) in *.
  assert (0 ≤ na ≤ 10 ∧ 0 ≤ ne ≤ 10) as [Hna Hne] by lia.
  assert (∀ x, sp ≤ x < top → is_Some (byte s L x)) as Hmap.
  { intros x Hx. exists 0. replace x with (sp + Z.of_nat (Z.to_nat (x - sp))) by lia. apply BZ, lookup_replicate. split; [done|lia]. }
  assert (Z.of_nat (length (concat (le_enc 8 <$> addresses 281474976710656 args))) = 8 * na ∧
    Z.of_nat (length (concat (le_enc 8 <$> addresses (281474976710656 - total args) envs))) = 8 * ne) as [HlA HlE].
  { assert (∀ l, Z.of_nat (length (concat (le_enc 8 <$> l))) = 8 * Z.of_nat (length l)) as Hl.
    { intros l. induction l as [|x l IHl]; [done|]. cbn [fmap list_fmap concat]. rewrite length_app. simpl length at 1 3. lia. }
    by rewrite !Hl, !length_addresses. }
  pose proof (length_strings args) as HsA. pose proof (length_strings envs) as HsE.
  destruct (set_pointers_run envs s T L newenvp top I Et HnE BE) as (s1 & E1 & I1 & G1 & W1);
    [unfold newenvp; lia|unfold newenvp; lia|unfold USERTOP; lia|intros x Hx; apply Hmap; unfold newenvp in *; lia|].
  replace (top + total envs) with (281474976710656 - total args) in * by (unfold top; lia).
  assert (ttbr0 s1 = K2P root) as Et1 by by rewrite (proj2 (proj2 (gr_regs _ _ _ _ G1))).
  destruct (set_pointers_run args s1 T L newargv (281474976710656 - total args) I1 Et1 HnA) as (s2 & E2 & I2 & G2 & W2).
  { eapply written_keeps; [exact W1|split; [lia|unfold USERTOP; lia]|unfold newenvp; lia|done]. }
  { unfold newargv. lia. } { unfold newargv. lia. } { unfold USERTOP. lia. }
  { intros x Hx. eapply written_mapped; [unfold USERTOP, newargv in *; lia|exact W1|]. apply Hmap. unfold newargv in *. lia. }
  replace (281474976710656 - total args + total args) with 281474976710656 in * by lia.
  assert (ttbr0 s2 = K2P root) as Et2 by by rewrite (proj2 (proj2 (gr_regs _ _ _ _ G2))).
  destruct (store_bytes_run pd root Ls F HF (le_enc 8 na) s2 T L sp I2 Et2) as (s3 & E3 & I3 & G3 & W3).
  { split; [lia|unfold USERTOP; simpl; lia]. }
  { intros x Hx. simpl in Hx. eapply written_mapped; [unfold USERTOP; lia|exact W2|].
    eapply written_mapped; [unfold USERTOP; lia|exact W1|]. apply Hmap. lia. }
  { apply bytes_le_enc. }
  assert (∀ b l, user_range b (length l) → b + Z.of_nat (length l) ≤ newenvp ∨ newenvp + 8 * ne ≤ b →
    b + Z.of_nat (length l) ≤ newargv ∨ newargv + 8 * na ≤ b → b + Z.of_nat (length l) ≤ sp ∨ sp + 8 ≤ b →
    bytes_at (byte s L) b l → bytes_at (byte s3 L) b l) as Hkeep.
  { intros b l Hr H1 H2 H3 Hb. eapply written_keeps; [exact W3|done|simpl; lia|].
    eapply written_keeps; [exact W2|done|lia|]. eapply written_keeps; [exact W1|done|lia|done]. }
  assert (∀ b, sp + 8 ≤ b → b + 8 ≤ newenvp ∨ newenvp + 8 * ne ≤ b → b + 8 ≤ newargv ∨ newargv + 8 * na ≤ b → b + 8 ≤ top →
    word_at (byte s3 L) b 0) as Hnull.
  { intros b H1 H2 H3 H4. apply (Hkeep b (replicate 8 0)); [split; [lia|simpl; unfold USERTOP; lia]|simpl; lia..|].
    eapply zeros_sub; [exact BZ|lia|lia]. }
  exists s1, s2, s3. unfold newargv, newenvp in *. split_and!; [done|done|done|done| |apply W3| | | |].
  - apply (space_grown_trans F 0 0 0 s s2 s3); [by apply (space_grown_trans F 0 0 0 s s1 s2)|done|lia].
  - split.
    + rewrite length_addresses. split; [lia|unfold USERTOP; lia].
    + apply strings_at; [unfold USERTOP; lia|done|done|]. apply Hkeep; [split; [unfold USERTOP; lia|unfold USERTOP; lia]|unfold USERTOP; lia..|exact BA].
    + intros i p Hi. eapply words_at; [|exact Hi]. eapply written_keeps; [exact W3|split; [lia|unfold USERTOP; lia]|simpl; lia|apply W2].
    + rewrite length_addresses. apply Hnull; lia.
  - split.
    + rewrite length_addresses. split; [lia|unfold USERTOP; lia].
    + apply strings_at; [lia|unfold USERTOP; lia|done|]. apply Hkeep; [split; [lia|unfold USERTOP; lia]|lia..|exact BE].
    + intros i p Hi. eapply words_at; [|exact Hi]. eapply written_keeps; [exact W3|split; [lia|unfold USERTOP; lia]|simpl; lia|].
      eapply written_keeps; [exact W2|split; [lia|unfold USERTOP; lia]|lia|apply W1].
    + rewrite length_addresses. apply Hnull; lia.
  - intros x c Hx Hlt Hc. apply (wr_old _ _ _ _ _ _ W3); [done|lia|]. apply (wr_old _ _ _ _ _ _ W2); [done|lia|].
    apply (wr_old _ _ _ _ _ _ W1); [done|lia|done].
  - intros x Hx Hc. eapply written_mapped; [done|exact W3|]. eapply written_mapped; [done|exact W2|]. by eapply written_mapped.
Qed.

(** What a program finds: [sp] points to [argc], the arrays follow. *)
Record stack_ready s (sp : Z) (args envs : list (list Z)) : Prop := {
  sr_argc : word_at (user_byte s) sp (Z.of_nat (length args));
  sr_argv : string_array (user_byte s) (sp + 8) (addresses USERTOP args) args;
  sr_envp : string_array (user_byte s) (sp + 8 + 8 * (Z.of_nat (length args) + 1))
    (addresses (USERTOP - total args) envs) envs;
  sr_room : ∀ x, USERTOP - stack_size args envs ≤ x < USERTOP → is_Some (user_byte s x) }.

Lemma string_array_mono m m' a ps strs : (∀ x c, 0 ≤ x < USERTOP → a ≤ x → m x = Some c → m' x = Some c) →
  Forall (λ p, a ≤ p) ps → string_array m a ps strs → string_array m' a ps strs.
Proof using.
  intros Hm Hp [R S P N]. destruct R as [R1 R2].
  assert (∀ b l, user_range b (length l) → a ≤ b → bytes_at m b l → bytes_at m' b l) as Hb.
  { intros b l [Hb1 Hb2] Hab Hb i c E. pose proof (lookup_lt_Some _ _ _ E). apply Hm; [lia|lia|]. by apply Hb. }
  split; [done| | |].
  - clear P N R2. induction S as [|p str ps strs (H0 & Hr1 & Hr2 & Hn & Hs) S IH]; [constructor|]. inversion Hp; subst.
    constructor; [|by apply IH]. split; [done|]. split_and!; try done. apply Hb; [|done|done].
    split; [lia|]. rewrite length_app. simpl. lia.
  - intros i p Ei. pose proof (lookup_lt_Some _ _ _ Ei). apply (Hb _ (le_enc 8 p)); [split; [lia|simpl; lia]|lia|by apply P].
  - apply (Hb _ (le_enc 8 0)); [split; [lia|simpl; lia]|lia|done].
Qed.

Lemma addresses_above b strs : ∀ top, b ≤ top - total strs → Forall (λ p, b ≤ p) (addresses top strs).
Proof using.
  induction strs as [|str strs IH]; intros top Hb; [constructor|]. cbn [addresses total foldr] in *. fold (total strs) in *.
  pose proof (total_pos strs). constructor; [lia|]. apply IH. lia.
Qed.

Lemma bytes_at_some m a l x : bytes_at m a l → a ≤ x < a + Z.of_nat (length l) → is_Some (m x).
Proof using.
  intros Hb Hx. destruct (lookup_lt_is_Some_2 l (Z.to_nat (x - a)) ltac:(lia)) as [c Ec]. exists c.
  apply Hb in Ec. by replace (a + Z.of_nat (Z.to_nat (x - a))) with x in Ec by lia.
Qed.

(** the steps of [build_stack] in a row *)
Lemma build_stack_steps ip argv envp A E s s1 s2 s3 s5 s6 s7 s8 T L :
  let sp := stack_pointer A E in let top := USERTOP - total A - total E in
  let na := Z.of_nat (length A) in let ne := Z.of_nat (length E) in let bottom := USERTOP - stack_size A E in
  total A + total E ≤ 2 ^ 31 → (length A ≤ 10)%nat → (length E ≤ 10)%nat →
  push_array pd argv USERTOP s = Ok ((USERTOP - total A, na), s1) →
  push_array pd envp (USERTOP - total A) s1 = Ok ((top, ne), s2) →
  copyout pd sp None (top - sp) s2 = Ok (0, s3) → img s3 T L →
  set_pointers (length E) (sp + 8 + 8 * (na + 1)) top (set_ttbr0 (K2P root) s3) = Ok (USERTOP - total A, s5) →
  set_pointers (length A) (sp + 8) (USERTOP - total A) s5 = Ok (USERTOP, s6) →
  store64 sp na s6 = Ok (tt, s7) →
  copyout pd bottom None (stack_size A E - (USERTOP - sp)) s7 = Ok (0, s8) →
  build_stack ip pd argv envp s = (assert (bottom <? sp);; mret sp) s8.
Proof using.
  intros sp top na ne bottom Htot HA HE E1 E2 E3 I3 E5 E6 E7 E8. pose proof (total_pos A) as HtA. pose proof (total_pos E) as HtE.
  destruct (stack_bounds A E Htot HA HE) as (Hsp & [Hneed Htop] & Hgap & Hal & Hsz). fold sp in Hsp, Hneed, Htop, Hgap, Hal, Hsz. cbv zeta in Hneed, Htop, Hgap.
  assert (0 ≤ na ≤ 10 ∧ 0 ≤ ne ≤ 10) as [Hna Hne] by (unfold na, ne; lia).
  change (2 ^ 31) with 2147483648 in *. change (2 ^ 32) with 4294967296 in *. set (size := stack_size A E) in *. fold top na ne in Hsz, Hneed, Htop, Hgap.
  unfold build_stack. rewrite (bind_Ok _ _ _ _ _ E1). cbv beta iota. rewrite (bind_Ok _ _ _ _ _ E2). cbv beta iota.
  assert (u64 (top - (ne + na + 4) * 8) / 16 * 16 = sp) as ->.
  { rewrite u64_id by (unfold USERTOP in *; lia). unfold sp, stack_pointer. fold top na ne. done. }
  cbv zeta. change USERTOP with 281474976710656 in *. rewrite (u64_id (top - sp)) by lia.
  rewrite (bind_Ok _ _ _ _ _ E3), (bind_Ok _ _ _ _ _ (attach_run ip s3 T L I3)).
  rewrite (u64_id (sp + 8)) by lia. rewrite (u64_id (sp + 8 + 8 * (na + 1))) by lia.
  replace (Z.to_nat ne) with (length E) by lia. replace (Z.to_nat na) with (length A) by lia.
  rewrite (bind_Ok _ _ _ _ _ E5), (bind_Ok _ _ _ _ _ E6), (bind_Ok _ _ _ _ _ E7).
  change PAGE_SIZE with 4096. rewrite (u64_id (281474976710656 - sp)) by lia.
  rewrite (u64_id (_ + _ - 1)) by lia.
  assert ((281474976710656 - sp + 10 * 4096 - 1) / (10 * 4096) * (10 * 4096) = size) as ->.
  { unfold size, stack_size. fold sp. change (10 * 4096) with 40960. do 2 f_equal. unfold USERTOP. lia. }
  rewrite (u64_id (281474976710656 - size)) by lia. rewrite (u64_id (size - _)) by lia.
  by rewrite (bind_Ok _ _ _ _ _ E8).
Qed.

Lemma build_stack_run ip s T L m argv envp args envs : img s T L → view s m → (∀ x c, 0 ≤ x < USERTOP → m x = Some c → is_byte c) →
  argument m argv args → argument m envp envs →
  let A := take (Z.to_nat MAXARG) args in let E := take (Z.to_nat MAXARG) envs in
  total A + total E ≤ 2 ^ 31 → cost A + cost E + 56 ≤ Z.of_nat (length (pages (kmem s))) →
  let sp := stack_pointer A E in let bottom := USERTOP - stack_size A E in
  ∃ s' T' L', build_stack ip pd argv envp s = (assert (bottom <? sp);; mret sp) s' ∧
    img s' T' L' ∧ ttbr0 s' = K2P root ∧
    grw (Z.to_nat (cost A + cost E + 56)) s (set_ttbr0 (ttbr0 s) s') ∧ stack_ready s' sp A E ∧
    (∀ x c, 0 ≤ x < bottom → byte s L x = Some c → user_byte s' x = Some c).
Proof using HF.
  intros I V Hby Ha He A E Htot Hcost sp bottom.
  assert (length A ≤ 10 ∧ length E ≤ 10)%nat as [HA HE] by (unfold A, E; rewrite !length_take; change (Z.to_nat MAXARG) with 10%nat; lia).
  pose proof (total_pos A) as HtA. pose proof (total_pos E) as HtE. pose proof (cost_pos A) as HcA. pose proof (cost_pos E) as HcE.
  pose proof (argument_nonzero m argv args Ha) as HnA. pose proof (argument_nonzero m envp envs He) as HnE.
  apply (Forall_take _ (Z.to_nat MAXARG)) in HnA, HnE. fold A in HnA. fold E in HnE.
  destruct (push_all_run s T L m argv envp args envs I V Hby Ha He Htot) as (s1 & s2 & s3 & T3 & L3 & E1 & E2 & E3 & I3 & G3 & BA & BE & BZ & O3);
    [fold A E; lia|]. fold A E in E1, E2, E3, G3, BA, BE, BZ, O3. fold sp in E3, BZ, O3. cbv zeta in E1, E2, E3, BE, BZ.
  set (s4 := set_ttbr0 (K2P root) s3). assert (img s4 T3 L3) as I4 by by apply image_ttbr0.
  destruct (set_words_run s4 T3 L3 A E I4 eq_refl HnA HnE Htot HA HE BA BE BZ)
    as (s5 & s6 & s7 & E5 & E6 & E7 & I7 & G7 & Hargc & Hargv & Henvp & O7 & M7). fold sp in E5, E6, E7, Hargc, Hargv, Henvp, O7.
  cbv zeta in E5, E6.
  destruct (stack_bounds A E Htot HA HE) as (Hsp & [Hneed Htop] & Hgap & Hal & Hsz). fold sp in Hsp, Hneed, Htop, Hgap, Hal, Hsz. cbv zeta in Hneed, Htop, Hgap.
  pose proof (gr_room _ _ _ _ G3) as R3. pose proof (gr_room _ _ _ _ G7) as R7. change (length (pages (kmem s4))) with (length (pages (kmem s3))) in R7.
  set (na := Z.of_nat (length A)) in *. set (ne := Z.of_nat (length E)) in *. assert (0 ≤ na ≤ 10 ∧ 0 ≤ ne ≤ 10) as [Hna Hne] by (unfold na, ne; lia).
  change (2 ^ 31) with 2147483648 in *. change (2 ^ 32) with 4294967296 in *. set (size := stack_size A E) in *.
  set (low := size - (USERTOP - sp)).
  assert (0 ≤ pages_of bottom low ≤ 12) as Hpg.
  { assert (0 ≤ low < 40960) by (unfold low; lia). pose proof (pages_of_le bottom low). unfold pages_of in *. destruct (low =? 0); zmod. }
  destruct (copyout_run pd root Ls F HF s7 T3 L3 bottom None low I7) as (s8 & T8 & L8 & E8 & I8 & G8 & W8);
    [unfold bottom, USERTOP in *; lia|unfold low; lia|unfold low, bottom; lia|done|lia|].
  change (source None low) with (replicate (Z.to_nat low) 0) in W8.
  assert (bottom + Z.of_nat (length (replicate (Z.to_nat low) 0)) = sp) as Hlow by (rewrite length_replicate; unfold bottom, low; lia).
  assert (ttbr0 s8 = K2P root) as Et8.
  { rewrite (proj2 (proj2 (gr_regs _ _ _ _ G8))), (proj2 (proj2 (gr_regs _ _ _ _ G7))). done. }
  assert (∀ x c, 0 ≤ x < USERTOP → sp ≤ x → byte s7 L3 x = Some c → user_byte s8 x = Some c) as Hup.
  { intros x c Hx Hsx Hc. rewrite (user_byte_byte pd root Ls F s8 T8 L8) by done. apply (wr_old _ _ _ _ _ _ W8); [done|lia|done]. }
  exists s8, T8, L8. split_and!; [|done|done| | |].
  - apply (build_stack_steps ip argv envp A E s s1 s2 s3 s5 s6 s7 s8 T3 L3); done.
  - assert (grw 0 s3 (set_ttbr0 (ttbr0 s3) s7)) as G7'.
    { apply (grown_ttbr0 0 s4 s7 (ttbr0 s3)) in G7. destruct s3. exact G7. }
    assert (grw (4 * Z.to_nat (pages_of bottom low)) (set_ttbr0 (ttbr0 s3) s7) (set_ttbr0 (ttbr0 s3) s8)) as G8' by by apply grown_ttbr0.
    rewrite <-(proj2 (proj2 (gr_regs _ _ _ _ G3))).
    eapply (space_grown_trans F _ _ _ _ _ _ (space_grown_trans F _ 0 _ _ _ _ G3 G7' (le_n _)) G8'). lia.
  - split.
    + intros i c Ei. pose proof (lookup_lt_Some _ _ _ Ei) as Hi. simpl in Hi. rewrite ?length_le_enc in Hi. apply Hup; [unfold USERTOP in *; lia|lia|by apply Hargc].
    + eapply string_array_mono; [|apply addresses_above; lia|exact Hargv]. intros x c Hx Hsx. apply Hup; [done|lia].
    + eapply string_array_mono; [|apply addresses_above; lia|exact Henvp]. intros x c Hx Hsx. apply Hup; [done|lia].
    + intros x Hx. fold size in Hx. fold bottom in Hx. assert (0 ≤ bottom) by (unfold bottom, USERTOP in *; lia). destruct (decide (x < sp)) as [Hlt|Hge].
      * exists 0. rewrite (user_byte_byte pd root Ls F s8 T8 L8) by (try done; unfold bottom, USERTOP in *; lia).
        replace x with (bottom + Z.of_nat (Z.to_nat (x - bottom))) by (unfold bottom; lia).
        apply W8, lookup_replicate. split; [done|]. unfold bottom, low in *. lia.
      * assert (is_Some (byte s7 L3 x)) as [c Hc]; [|exists c; apply Hup; [lia|lia|done]].
        apply M7; [lia|]. change (is_Some (byte s3 L3 x)).
        pose proof (length_strings A). pose proof (length_strings E).
        destruct (decide (x < USERTOP - total A - total E)); [eapply bytes_at_some; [exact BZ|rewrite length_replicate; lia]|].
        destruct (decide (x < USERTOP - total A)); [eapply bytes_at_some; [exact BE|lia]|eapply bytes_at_some; [exact BA|lia]].
  - intros x c Hx Hc. rewrite (user_byte_byte pd root Ls F s8 T8 L8) by (try done; unfold bottom, USERTOP in *; lia).
    assert (x < sp) by (unfold bottom in *; lia). apply (wr_old _ _ _ _ _ _ W8); [unfold USERTOP in *; lia|lia|].
    apply O7; [unfold USERTOP in *; lia|done|]. apply O3; [lia|done].
Qed.
End stack.

(** ** The address space in force while the new one is built *)

(** the pages an address space uses *)
Definition used (T : gmap (list Z) Z) (L : Z → option Z) (p : Z) : Prop :=
  (∃ pre, T !! pre = Some p) ∨
  ∃ v e, 0 ≤ v < 2 ^ 36 ∧ L v = Some e ∧ e mod 2 = 1 ∧ P2K (PTE_ADDRESS e) = p.

Section old_space.
Context (old root0 : Z) (T0 : gmap (list Z) Z) (L0 : Z → option Z) (Ls : list (list Z)).

Lemma used_ram s p : uspace s old root0 T0 L0 Ls → used T0 L0 p → ram_page p ∧ p ∉ pages (kmem s).
Proof using.
  intros [[I _ _] _ _ Hu] [(pre & E)|(v & e & Hv & E & H1 & <-)].
  - destruct (tr_page _ _ _ I pre p E) as (_ & ? & ? & _). done.
  - destruct (Hu v e Hv E H1) as [q U]. destruct (user_entry _ _ _ _ U) as (_ & _ & _ & ->). split; apply U.
Qed.

Context (pd root : Z).
Local Notation img := (image pd root Ls (used T0 L0)).

Lemma old_kept n s s' T L : uspace s old root0 T0 L0 Ls → img s' T L → grown (used T0 L0) n s s' →
  uspace s' old root0 T0 L0 Ls ∧ ∀ v, 0 ≤ v < 2 ^ 36 → content s' L0 v = content s L0 v.
Proof using.
  intros U I G. pose proof U as [Sp Hpool Hfree Hu].
  assert (∀ v e p, 0 ≤ v < 2 ^ 36 → L0 v = Some e → user_page s T0 e p → used T0 L0 p) as Hused.
  { intros v e p Hv E Up. destruct (user_entry _ _ _ _ Up) as (_ & H3 & _ & Ep). right. exists v, e.
    split_and!; [lia|lia|done|zmod|done]. }
  split.
  - split; [|apply I|apply I|].
    + eapply space_ext; [exact Sp| |].
      * intros pre p E. split; [apply G; left; by exists pre|]. apply (im_foreign _ _ _ _ _ _ _ I). left. by exists pre.
      * rewrite (proj1 (gr_regs _ _ _ _ G)). apply Sp.
    + intros v e Hv E H1. destruct (Hu v e Hv E H1) as [p Up]. exists p.
      eapply user_page_ext; [exact Up|apply G|apply G; by eapply Hused|by left].
  - intros v Hv. destruct (L0 v) as [e|] eqn:E; [|unfold content; by rewrite E].
    destruct (decide (e mod 4 = 3)) as [H3|].
    + destruct (Hu v e Hv E ltac:(zmod)) as [p Up]. eapply content_ext; [done|exact Up|]. apply G. by eapply Hused.
    + unfold content. rewrite E. cbn [mbind option_bind]. by rewrite (proj2 (Z.eqb_neq (e mod 4) 3)).
Qed.

Lemma old_view s : uspace s old root0 T0 L0 Ls → ttbr0 s = K2P root0 →
  view pd root Ls (used T0 L0) s (user_byte s).
Proof using.
  intros U Et n s' T L I G x c Hx Hc. destruct (old_kept n s s' T L U I G) as [U' Hcont].
  rewrite (user_byte_content s old root0 T0 L0 Ls x U Et Hx) in Hc.
  rewrite (user_byte_content s' old root0 T0 L0 Ls x U'); [|by rewrite (proj2 (proj2 (gr_regs _ _ _ _ G)))|done].
  by rewrite Hcont by by apply page_number.
Qed.

Lemma user_byte_is_byte s x c : uspace s old root0 T0 L0 Ls → ttbr0 s = K2P root0 → 0 ≤ x < USERTOP →
  user_byte s x = Some c → is_byte c.
Proof using.
  intros U Et Hx. rewrite (user_byte_content s old root0 T0 L0 Ls x U Et Hx). pose proof (page_number x Hx) as Hv.
  destruct (content s L0 (x / 4096)) as [f|] eqn:Ef; [|done]. cbn [mbind option_bind]. intros Ec.
  unfold content in Ef. destruct (L0 (x / 4096)) as [e|] eqn:E; [|done]. cbn [mbind option_bind] in Ef.
  destruct (Z.eqb_spec (e mod 4) 3); [|done]. destruct (us_user _ _ _ _ _ _ U _ e Hv E ltac:(zmod)) as [p Up].
  destruct (user_entry _ _ _ _ Up) as (_ & _ & _ & Ep). rewrite Ep in Ef.
  destruct (up_frame _ _ _ _ Up) as (g & Eg & _ & Hg). rewrite Ef in Eg. injection Eg as ->. by eapply bytes_lookup.
Qed.
End old_space.

(** The new program's stack.  A process with the address space [old] in force calls [execve]
    with arrays of strings at [argv] and [envp] (or null pointers) while [pd] is the address
    space under construction: the strings, ten of each at most, end up at the top of it, with
    [argc], a null-terminated array of pointers to the argument strings and one to the
    environment strings at the stack pointer, which is a multiple of 16; the pages below the
    stack pointer, down to a multiple of ten pages, are mapped; nothing that was mapped below
    changes, and the memory of the old program does not either.  When the stack comes to exactly
    a multiple of ten pages, the kernel panics. *)
Theorem build_stack_correct ip s old root0 T0 L0 Ls pd root T L argv envp args envs :
  uspace s old root0 T0 L0 Ls → ttbr0 s = K2P root0 → image pd root Ls (used T0 L0) s T L →
  argument (user_byte s) argv args → argument (user_byte s) envp envs →
  let A := take 10 args in let E := take 10 envs in
  total A + total E ≤ 2 ^ 31 → cost A + cost E + 56 ≤ Z.of_nat (length (pages (kmem s))) →
  let sp := stack_pointer A E in
  if (USERTOP - sp) mod 40960 =? 0 then build_stack ip pd argv envp s = Panic
  else ∃ s' T' L', build_stack ip pd argv envp s = Ok (sp, s') ∧
    sp mod 16 = 0 ∧ stack_ready s' sp A E ∧
    image pd root Ls (used T0 L0) s' T' L' ∧ ttbr0 s' = K2P root ∧
    (∀ x c, 0 ≤ x < USERTOP - stack_size A E → byte s L x = Some c → user_byte s' x = Some c) ∧
    (∀ x, 0 ≤ x < USERTOP → user_byte (set_ttbr0 (K2P root0) s') x = user_byte s x).
Proof.
  intros U Et I Ha He A E Htot Hcost sp.
  assert (∀ p, used T0 L0 p → ram_page p) as HF by (intros p Hp; by eapply used_ram).
  destruct (build_stack_run pd root Ls (used T0 L0) HF ip s T L (user_byte s) argv envp args envs I
    (old_view _ _ _ _ _ _ _ s U Et)) as (s' & T' & L' & Er & I' & Et' & G & R & O);
    [intros x c; by eapply user_byte_is_byte|done|done|done|done|].
  change (take (Z.to_nat MAXARG)) with (@take (list Z) 10) in *. fold A E in Er, G, R, O. fold sp in Er, R. rewrite Er.
  assert (length A ≤ 10 ∧ length E ≤ 10)%nat as [HA HE] by (unfold A, E; rewrite !length_take; lia).
  destruct (stack_bounds A E Htot HA HE) as (_ & _ & _ & Hal & Hsz). fold sp in Hal, Hsz. cbv zeta in Hal, Hsz.
  destruct (Z.eqb_spec ((USERTOP - sp) mod 40960) 0) as [Hz|Hnz].
  - erewrite bind_Panic; [done|]. apply assert_fail, Z.ltb_ge. unfold stack_size in *. fold sp in Hsz |- *. zmod.
  - exists s', T', L'. split_and!; [|done|done|done|done|done|].
    + erewrite bind_Ok; [done|]. apply assert_run, Z.ltb_lt. unfold stack_size in *. fold sp in Hsz |- *. zmod.
    + intros x Hx. rewrite Et in G. apply image_ttbr0 with (v := K2P root0) in I'.
      destruct (old_kept old root0 T0 L0 Ls pd root _ s _ T' L' U I' G) as [U' Hc].
      rewrite (user_byte_content _ old root0 T0 L0 Ls x U' eq_refl Hx), (user_byte_content s old root0 T0 L0 Ls x U Et Hx).
      by rewrite Hc by by apply page_number.
Qed.
