(* ===== verification/Spaces.v ===== *)
(** * Making and freeing address spaces: [init_pgdir] and [free_pgdir] *)

From Stdlib Require Import ZArith Lia.
From S2P Require Import Prelude Triple Words Sync Mmu KernelPt Mem MemSpec Pt PtSpec Cache CacheLog Paging PagingSpec.
From S2P Require Import Layout BlockCache Inode Trap Exec Image Stack.

(** ** [free_pgdir] gives back the tables *)

Section free.
Context (s0 : vm) (root : Z) (T : gmap (list Z) Z) (Ls : list (list Z)).
Context (I0 : tree_inv s0 root T).
(** the tables belong to the address space alone, and hold nothing but tables above the last level *)
Context (Hown : ∀ pre p, T !! pre = Some p → ref_of (kmem s0) p = 1 ∧ ∀ a, a ∈ concat Ls → a / 4096 ≠ p / 4096).
Context (Hzero : ∀ pre p i, T !! pre = Some p → (length pre < 3)%nat → 0 ≤ i < 512 →
  T !! (pre ++ [i]) = None → pte_of (frames s0) p i = Some 0).
Context (Hrange : ∀ pre i p, T !! (pre ++ [i]) = Some p → 0 ≤ i < 512).
Context (Hcount : Z.of_nat (base.size T) ≤ alloc_page_cnt (kmem s0)).

Definition below (pre : list Z) (q : Z) : Prop := ∃ pre', T !! (pre ++ pre') = Some q.

(** the tables [l] have been given back *)
Record freed (l : list Z) (s : vm) : Prop := {
  fd_pages : pages (kmem s) = l ++ pages (kmem s0);
  fd_count : alloc_page_cnt (kmem s) = alloc_page_cnt (kmem s0) - Z.of_nat (length l);
  fd_pool : pool_inv (kmem s) Ls;
  fd_heap : same_heap (kmem s) (kmem s0) ∧ zero_page (kmem s) = zero_page (kmem s0);
  fd_tables : ∀ q, q ∈ l → below [] q;
  fd_refs : ∀ q, ram_page q → q ∉ l → ref_of (kmem s) q = ref_of (kmem s0) q;
  fd_frames : ∀ q, ¬ below [] q → frames s !! q = frames s0 !! q;
  fd_there : ∀ q f, is_frame (frames s0) q f → ∃ g, is_frame (frames s) q g;
  fd_regs : pgdirs s = pgdirs s0 ∧ sections s = sections s0 ∧ ttbr0 s = ttbr0 s0 }.

(** none of the tables from [pre] down has been touched *)
Definition untouched (pre : list Z) (l : list Z) (s : vm) : Prop :=
  ∀ q, below pre q → q ∉ l ∧ frames s !! q = frames s0 !! q.

Lemma freed_room l s p : freed l s → below [] p → p ∉ l → 0 < alloc_page_cnt (kmem s).
Proof using Hcount.
  intros Fd Hp Hl. rewrite (fd_count _ _ Fd).
  assert (NoDup (p :: l)) as Hnd.
  { apply NoDup_cons. split; [done|]. pose proof (po_nodup _ _ (fd_pool _ _ Fd)) as Hn.
    rewrite (fd_pages _ _ Fd) in Hn. by apply NoDup_app in Hn as [? _]. }
  assert (p :: l ⊆+ (map_to_list T).*2) as Hsub.
  { apply NoDup_submseteq; [done|]. intros q Hq.
    assert (below [] q) as [pre Hpre] by (apply elem_of_cons in Hq as [->|Hq]; [done|by apply (fd_tables _ _ Fd)]).
    apply list_elem_of_fmap. exists ([] ++ pre, q). split; [done|]. by apply elem_of_map_to_list. }
  apply submseteq_length in Hsub. rewrite length_fmap, length_map_to_list in Hsub. simpl in Hsub. lia.
Qed.

(** giving one table back *)
Lemma free_one l s p pre : freed l s → T !! pre = Some p → p ∉ l →
  inmem (kfree_page p) s = Ok (tt, put_kmem (dropped (kmem s) p) s) ∧
  freed (p :: l) (put_kmem (dropped (kmem s) p) s).
Proof using I0 Hown Hcount.
  intros Fd Hp Hl. destruct (tr_page _ _ _ I0 pre p Hp) as (_ & Hr & Hnp & f & Hf).
  destruct (Hown pre p Hp) as [Href Hheap]. assert (below [] p) as Hb by (by exists pre).
  pose proof (freed_room l s p Fd Hb Hl) as Hc.
  assert (ref_of (kmem s) p = 1) as Hr1 by (by rewrite (fd_refs _ _ Fd)).
  assert (p ∉ pages (kmem s)) as Hnp' by (rewrite (fd_pages _ _ Fd), elem_of_app; tauto).
  destruct (kfree_page_run (kmem s) Ls p (fd_pool _ _ Fd) Hr Hnp' ltac:(lia) Hheap Hc) as [E Hpool].
  split; [by apply on_run|].
  assert (dropped (kmem s) p = upd_pages (Datatypes.cons p) (upd_cnt (λ c, c - 1) (upd_ref <[ref_index p := 0]> (kmem s)))) as Ed.
  { unfold dropped. by rewrite Hr1. }
  destruct Fd as [F1 F2 F3 [F4 F4'] F5 F6 F7 F8 F9]. split; simpl; try done.
  - rewrite Ed. simpl. by rewrite F1.
  - rewrite Ed. simpl. lia.
  - rewrite Ed. done.
  - intros q [->|Hq]%elem_of_cons; [done|by apply F5].
  - intros q Hrq Hq. apply not_elem_of_cons in Hq as [Hqp Hq]. rewrite Ed. unfold ref_of. simpl.
    rewrite lookup_insert_ne; [by apply F6|]. intros Ei. by apply Hqp, (ref_index_inj q p).
Qed.

Lemma below_child pre i q : below (pre ++ [i]) q → below pre q.
Proof using. intros [pre' H]. exists (i :: pre'). by rewrite <-app_assoc in H. Qed.

Lemma below_root pre q : below pre q → below [] q.
Proof using. intros [pre' H]. by exists (pre ++ pre'). Qed.

Lemma below_there pre q : below pre q → is_Some (T !! pre).
Proof using I0.
  intros [pre' H]. revert q H. induction pre' as [|i pre' IH] using rev_ind; intros q H.
  - rewrite app_nil_r in H. by eexists.
  - rewrite app_assoc in H. apply (tr_prefix _ _ _ I0) in H as [x Hx]. by eapply IH.
Qed.

(** the tables below [pre]: its own and those of its children *)
Lemma below_split pre p q : T !! pre = Some p → below pre q ↔ q = p ∨ ∃ i, below (pre ++ [i]) q.
Proof using.
  intros Hp. split.
  - intros [[|i pre'] H]; [rewrite app_nil_r in H; left; congruence|]. right. exists i, pre'. by rewrite <-app_assoc.
  - intros [->|[i H]]; [exists []; by rewrite app_nil_r|by eapply below_child].
Qed.

(** tables of different children are different, and different from the parent *)
Lemma below_disjoint pre p i j q : T !! pre = Some p → below (pre ++ [i]) q →
  q ≠ p ∧ (i ≠ j → ¬ below (pre ++ [j]) q).
Proof using I0.
  intros Hp [pi Hi]. split.
  - intros ->. pose proof (tr_inj _ _ _ I0 _ _ _ Hp Hi) as E. apply (f_equal length) in E.
    rewrite !length_app in E. simpl in E. lia.
  - intros Hne [pj Hj]. pose proof (tr_inj _ _ _ I0 _ _ _ Hi Hj) as E.
    rewrite <-!app_assoc in E. apply app_inv_head in E. by injection E.
Qed.

Lemma freed_write l s p f : freed l s → below [] p → length f = 4096%nat → bytes f →
  freed l (upd_frames <[p := f]> s).
Proof using.
  intros [F1 F2 F3 F4 F5 F6 F7 F8 F9] Hp Hl Hb. split; try done.
  - intros q Hq. simpl. rewrite lookup_insert_ne; [by apply F7|]. by intros <-.
  - intros q g Hg. destruct (decide (q = p)) as [->|Hne].
    + exists f. split; [apply lookup_insert_eq|done].
    + destruct (F8 q g Hg) as [h Hh]. exists h. by apply is_frame_ne.
Qed.

Section level.
Context (k : nat) (pre : list Z) (p : Z) (Hp : T !! pre = Some p) (Hk : (length pre + S k = 3)%nat).
(** children are freed as they should *)
Context (IH : ∀ i t s l, T !! (pre ++ [i]) = Some t → freed l s → untouched (pre ++ [i]) l s →
  ∃ l' s', freePTEntry k t s = Ok (tt, s') ∧ freed (l' ++ l) s' ∧ (∀ q, q ∈ l' ↔ below (pre ++ [i]) q) ∧
    (∀ q, ¬ below (pre ++ [i]) q → frames s' !! q = frames s !! q)).

Definition entries_from (i : Z) (s : vm) : Prop :=
  ∃ f, is_frame (frames s) p f ∧ ∀ j, i ≤ j < 512 → pte_of (frames s) p j = pte_of (frames s0) p j.

(** the body of the loop for entry [i] *)
Lemma free_entry i s l : 0 ≤ i < 512 → freed l s → untouched (pre ++ [i]) l s → entries_from i s →
  ∃ l' s', (e ← read_pte (slot p i);
            when (negb (e =? 0)) (freePTEntry k (P2K (PTE_ADDRESS e));; write_pte (slot p i) 0)) s = Ok (tt, s') ∧
    freed (l' ++ l) s' ∧ (∀ q, q ∈ l' ↔ below (pre ++ [i]) q) ∧ entries_from (i + 1) s' ∧
    (∀ q, q ≠ p → ¬ below (pre ++ [i]) q → frames s' !! q = frames s !! q).
Proof using I0 Hzero Hp Hk IH.
  intros Hi Fd Hu (f & Hf & He). destruct (tr_page _ _ _ I0 pre p Hp) as (_ & Hr & _).
  destruct (tr_next _ _ _ I0 pre p i Hp ltac:(lia) Hi) as (e & Ee & Hcase). rewrite <-He in Ee by lia.
  rewrite (bind_Ok _ _ _ _ _ (read_pte_run s p f i e Hr Hf Hi Ee)).
  destruct (T !! (pre ++ [i])) as [t|] eqn:Et.
  - destruct Hcase as [[_ ?]|[H3 [= ->]]]; [done|]. rewrite (proj2 (Z.eqb_neq e 0)) by (intros ->; done). cbn [negb when].
    destruct (IH i _ s l Et Fd Hu) as (l' & s1 & E1 & Fd1 & Hl' & Hfr1). rewrite (bind_Ok _ _ _ _ _ E1).
    assert (¬ below (pre ++ [i]) p) as Hnb by (intros Hb; by destruct (below_disjoint pre p i i p Hp Hb)).
    assert (is_frame (frames s1) p f) as Hf1 by (unfold is_frame; by rewrite Hfr1).
    destruct (write_pte_run s1 p f i 0 Hr Hf1 Hi ltac:(lia)) as (f' & Ew & (Hf'1 & Hf'2 & Hf'3) & Hpe).
    exists l', (upd_frames <[p := f']> s1). split_and!; [done| |done| |].
    + apply freed_write; [done|by exists pre|done|done].
    + exists f'. split; [done|]. intros j Hj. simpl. rewrite Hpe by lia. rewrite decide_False by lia.
      rewrite <-He by lia. unfold pte_of. by rewrite Hfr1.
    + intros q Hq Hnq. simpl. rewrite lookup_insert_ne by done. by apply Hfr1.
  - rewrite He in Ee by lia.
    rewrite (Hzero pre p i Hp ltac:(lia) Hi Et) in Ee. injection Ee as <-. cbn [Z.eqb negb when].
    exists [], s. split_and!; [done|done| |exists f; split; [done|intros; apply He; lia]|done].
    intros q. split; [by intros ?%elem_of_nil|]. intros Hb. apply below_there in Hb as [x Hx]. congruence.
Qed.
End level.

Section level.
Context (k : nat) (pre : list Z) (p : Z) (Hp : T !! pre = Some p) (Hk : (length pre + S k = 3)%nat).
Context (IH : ∀ i t s l, T !! (pre ++ [i]) = Some t → freed l s → untouched (pre ++ [i]) l s →
  ∃ l' s', freePTEntry k t s = Ok (tt, s') ∧ freed (l' ++ l) s' ∧ (∀ q, q ∈ l' ↔ below (pre ++ [i]) q) ∧
    (∀ q, ¬ below (pre ++ [i]) q → frames s' !! q = frames s !! q)).

Lemma free_entries n : ∀ i s l, 0 ≤ i → i + Z.of_nat n = 512 → freed l s → entries_from p i s →
  (∀ j, i ≤ j < 512 → untouched (pre ++ [j]) l s) →
  ∃ l' s', for_each (zseq i n) (λ i, e ← read_pte (slot p i);
      when (negb (e =? 0)) (freePTEntry k (P2K (PTE_ADDRESS e));; write_pte (slot p i) 0)) s = Ok (tt, s') ∧
    freed (l' ++ l) s' ∧ (∀ q, q ∈ l' ↔ ∃ j, i ≤ j < 512 ∧ below (pre ++ [j]) q) ∧
    (∀ q, q ≠ p → (∀ j, i ≤ j < 512 → ¬ below (pre ++ [j]) q) → frames s' !! q = frames s !! q).
Proof using I0 Hzero Hp Hk IH.
  induction n as [|n IHn]; intros i s l Hi Hn Fd He Hu.
  { exists [], s. split_and!; [done|done| |done]. intros q. split; [by intros ?%elem_of_nil|]. intros (j & Hj & _). lia. }
  cbn [zseq for_each].
  destruct (free_entry k pre p Hp Hk IH i s l ltac:(lia) Fd ltac:(apply Hu; lia) He) as (l1 & s1 & E1 & Fd1 & Hl1 & He1 & Hfr1).
  rewrite (bind_Ok _ _ _ _ _ E1).
  destruct (IHn (i + 1) s1 (l1 ++ l) ltac:(lia) ltac:(lia) Fd1 He1) as (l2 & s2 & E2 & Fd2 & Hl2 & Hfr2).
  { intros j Hj q Hq. destruct (below_disjoint pre p j i q Hp Hq) as [Hqp Hqi]. specialize (Hqi ltac:(lia)).
    destruct (Hu j ltac:(lia) q Hq) as [Hql Hqf]. split; [|by rewrite Hfr1].
    intros [Hq1|?]%elem_of_app; [|done]. by apply Hqi, Hl1. }
  exists (l2 ++ l1), s2. rewrite <-app_assoc. split_and!; [done|done| |].
  - intros q. rewrite elem_of_app, Hl1, Hl2. split.
    + intros [(j & Hj & Hb)|Hb]; [exists j; split; [lia|done]|exists i; split; [lia|done]].
    + intros (j & Hj & Hb). destruct (decide (j = i)) as [->|]; [by right|]. left. exists j. split; [lia|done].
  - intros q Hqp Hq. rewrite Hfr2, Hfr1; [done|done|apply Hq; lia|done|]. intros j Hj. apply Hq. lia.
Qed.
End level.

(** [freePTEntry] frees the tables below a table, and nothing else *)
Lemma free_sub k : ∀ pre p s l, T !! pre = Some p → (length pre + k = 3)%nat → freed l s → untouched pre l s →
  ∃ l' s', freePTEntry k p s = Ok (tt, s') ∧ freed (l' ++ l) s' ∧ (∀ q, q ∈ l' ↔ below pre q) ∧
    (∀ q, ¬ below pre q → frames s' !! q = frames s !! q).
Proof using I0 Hown Hzero Hrange Hcount.
  induction k as [|k IH]; intros pre p s l Hp Hk Fd Hu.
  - destruct (Hu p) as [Hl _]; [by exists []; rewrite app_nil_r|].
    destruct (free_one l s p pre Fd Hp Hl) as [E Fd']. exists [p], (put_kmem (dropped (kmem s) p) s).
    split_and!; [done|done| |done]. intros q. rewrite list_elem_of_singleton, (below_split pre p q Hp). split; [by left|].
    intros [->|(i & pre' & H)]; [done|]. destruct (tr_page _ _ _ I0 _ _ H) as [Hlen _]. rewrite !length_app in Hlen. simpl in Hlen. lia.
  - cbn [freePTEntry]. destruct (tr_page _ _ _ I0 pre p Hp) as (_ & Hr & _ & f & Hf).
    rewrite (proj2 (Z.eqb_neq p 0)) by (destruct Hr; unfold KSPACE_MASK in *; lia).
    assert (below pre p) as Hbp by (exists []; by rewrite app_nil_r). destruct (Hu p Hbp) as [Hl Hfp].
    destruct (free_entries k pre p Hp ltac:(lia)) with (n := 512%nat) (i := 0) (s := s) (l := l) as (l1 & s1 & E1 & Fd1 & Hl1 & Hfr1).
    + intros i t s' l' Ht Fd' Hu'. apply IH; [done| |done|done]. rewrite length_app. simpl. lia.
    + lia.
    + done.
    + done.
    + exists f. split; [unfold is_frame; by rewrite Hfp|]. intros j _. unfold pte_of. by rewrite Hfp.
    + intros j Hj q Hq. apply Hu. by eapply below_child.
    + rewrite (bind_Ok _ _ _ _ _ E1).
      assert (p ∉ l1 ++ l) as Hpl.
      { intros [H|?]%elem_of_app; [|done]. apply Hl1 in H as (j & _ & Hb). by destruct (below_disjoint pre p j j p Hp Hb). }
      destruct (free_one (l1 ++ l) s1 p pre Fd1 Hp Hpl) as [E2 Fd2]. exists (p :: l1), (put_kmem (dropped (kmem s1) p) s1).
      split_and!; [done|done| |].
      * intros q. rewrite elem_of_cons, Hl1, (below_split pre p q Hp). split; intros [?|(j & H)]; [by left|right; exists j; apply H|by left|].
        right. exists j. split; [|done].
        apply below_there in H as [x Hx]. by eapply Hrange.
      * intros q Hq. simpl. apply Hfr1; [intros ->; by apply Hq|]. intros j Hj Hb. apply Hq. by eapply below_child.
Qed.

Lemma free_pgdir_run pd d : pgdirs s0 !! pd = Some d → pt d = root → pool_inv (kmem s0) Ls →
  ∃ l s, free_pgdir pd s0 = Ok (tt, upd_pgdirs <[pd := set_pt 0 d]> s) ∧ freed l s ∧ (∀ q, q ∈ l ↔ below [] q).
Proof using I0 Hown Hzero Hrange Hcount.
  intros Ed Er Hpool. destruct (tr_page _ _ _ I0 [] root (tr_root _ _ _ I0)) as (_ & Hr & _).
  assert (freed [] s0) as Fd.
  { split; try done; [simpl; lia|by intros q ?%elem_of_nil|]. intros q f Hf. by exists f. }
  destruct (free_sub 3 [] root s0 [] (tr_root _ _ _ I0) eq_refl Fd) as (l & s & E & Fd' & Hl & _).
  { intros q _. split; [apply not_elem_of_nil|done]. }
  rewrite app_nil_r in Fd'. exists l, s. split; [|done]. unfold free_pgdir, get_pgdir, set_pgdir.
  rewrite (bind_Ok _ _ s0 d s0) by by apply getopt_run.
  rewrite Er, (proj2 (Z.eqb_neq root 0)) by (destruct Hr; unfold KSPACE_MASK in *; lia).
  rewrite (bind_Ok _ _ _ _ _ E), (bind_Ok _ _ s d s); [done|]. apply getopt_run. by rewrite (proj1 (fd_regs _ _ Fd')).
Qed.
End free.

(** ** What [kalloc] does to the pool of pages *)

Definition same_pool (m m0 : mem) : Prop :=
  pages m = pages m0 ∧ refpage m = refpage m0 ∧ zero_page m = zero_page m0 ∧ pagenum m = pagenum m0.

(** at most [n] pages were taken *)
Record pool_less (n : nat) (m m0 : mem) : Prop := {
  pl_sub : ∀ p, p ∈ pages m → p ∈ pages m0;
  pl_room : (length (pages m0) ≤ length (pages m) + n)%nat;
  pl_refs : ∀ q, ram_page q → q ∉ pages m0 → ref_of m q = ref_of m0 q;
  pl_zero : Mem.zero_page m = Mem.zero_page m0 ∧ pagenum m = pagenum m0 }.

Lemma pool_less_trans n1 n2 m m1 m2 : pool_less n1 m1 m → pool_less n2 m2 m1 → pool_less (n1 + n2) m2 m.
Proof.
  intros [A1 B1 C1 [D1 E1]] [A2 B2 C2 [D2 E2]]. split; [auto|lia| |split; congruence].
  intros q Hr Hq. rewrite C2, C1; auto.
Qed.

Lemma pool_less_le n n' m m0 : pool_less n m m0 → (n ≤ n')%nat → pool_less n' m m0.
Proof. intros [A B C D] ?. split; auto; lia. Qed.

(** A state predicate that looks at the pool only. *)
Definition pool_only (P : mem → Prop) : Prop := ∀ m m', same_pool m' m → P m → P m'.

Lemma pool_only_same m0 : pool_only (λ m, same_pool m m0).
Proof. intros m m' (A & B & C & D) (A' & B' & C' & D'). split_and!; congruence. Qed.
Lemma pool_only_less n m0 : pool_only (λ m, pool_less n m m0).
Proof.
  intros m m' (A & B & C & D) [E F G [H I]]. split; [by rewrite A|by rewrite A| |by rewrite C, D].
  intros q Hr Hq. unfold ref_of. rewrite B. by apply G.
Qed.

Section pool_only.
Context (P : mem → Prop) (HP : pool_only P).

Lemma keeps_same (f : mem → mem) : (∀ m, same_pool (f m) m) → keeps P (modify f).
Proof using HP. intros Hf. apply keeps_modify. intros m. by apply HP. Qed.

Lemma keeps_set_node h n : keeps P (set_node h n).
Proof using HP. apply keeps_same. done. Qed.
Lemma keeps_mem_unlock : keeps P (release_spinlock mem_lock).
Proof using HP. apply keeps_same. done. Qed.
Lemma keeps_mem_lock : keeps P (acquire_spinlock mem_lock).
Proof using HP.
  unfold acquire_spinlock, try_acquire_spinlock. repeat apply keeps_bind; try apply keeps_gets.
  - intros []; [apply keeps_ret|]. apply keeps_bind; [apply keeps_same; done|]. intros []. apply keeps_ret.
  - intros []; [apply keeps_ret|]. by intros m a m' _ [=].
Qed.
Lemma keeps_merge h : keeps P (merge h).
Proof using HP.
  unfold merge, get_node. apply keeps_bind; [apply keeps_getopt|]. intros n.
  destruct (Mem.next n =? 0); [apply keeps_ret|]. apply keeps_bind; [apply keeps_getopt|]. intros pn. apply keeps_set_node.
Qed.
Lemma keeps_kalloc_loop fuel sz : ∀ h, keeps P (kalloc_loop fuel sz h).
Proof using HP.
  induction fuel as [|fuel IH]; intros h; cbn [kalloc_loop]; [apply keeps_nofuel|]. unfold get_node.
  destruct (h =? 0); [apply keeps_ret|]. apply keeps_bind; [apply keeps_getopt|]. intros n.
  destruct (Mem.free n =? 1); [|apply IH]. apply keeps_bind; [apply keeps_merge|]. intros [].
  apply keeps_bind; [apply keeps_getopt|]. intros n'. destruct (sz <=? Mem.size n'); [apply keeps_ret|apply IH].
Qed.
Lemma keeps_kalloc_split h sz : keeps P (kalloc_split h sz).
Proof using HP.
  unfold kalloc_split, get_node. apply keeps_bind; [apply keeps_getopt|]. intros n.
  apply keeps_bind; [|intros nx; apply keeps_set_node].
  destruct (sizeof_node <? _); [|apply keeps_ret]. apply keeps_bind; [apply keeps_set_node|]. intros []. apply keeps_ret.
Qed.
End pool_only.

Lemma kalloc_page_eq m p l : ram_page p → pages m = p :: l →
  kalloc_page m = Ok (p, upd_ref <[ref_index p := increment_rc (ref_of m p)]> (upd_pages (λ _, l) (upd_cnt increment_rc m))).
Proof.
  intros [Hr _] El. unfold kalloc_page. erewrite bind_Ok by apply modify_run.
  unfold fetch_page at 1. rewrite bind_assoc. erewrite bind_Ok by apply gets_run.
  cbn [Mem.pages upd_cnt]. rewrite El. rewrite bind_assoc. erewrite bind_Ok by apply modify_run.
  erewrite bind_Ok by apply mret_run. by rewrite (bind_Ok _ _ _ _ _ (get_ref_run _ p Hr)).
Qed.

Lemma kalloc_page_pool m m' p l r : ram_page p → pages m = p :: l → kalloc_page m = Ok (r, m') → pool_less 1 m' m.
Proof.
  intros Hr El. rewrite (kalloc_page_eq m p l Hr El). intros [= _ <-].
  split; simpl; [rewrite El; by right|rewrite El; simpl; lia| |done].
  intros q Hq Hnq. unfold ref_of. simpl. rewrite lookup_insert_ne; [done|]. intros Ei. apply Hnq.
  rewrite El, (ref_index_inj p q Hr Hq Ei). left.
Qed.

Lemma kalloc_pool cpuid sz m m' r : (∀ q, q ∈ pages m → ram_page q) → pages m ≠ [] →
  kalloc cpuid sz m = Ok (r, m') → pool_less 1 m' m.
Proof.
  intros Hram Hne. destruct (pages m) as [|p l] eqn:El; [done|].
  assert (same_pool m m) as Hsame by done. revert Hsame.
  assert (triple (λ x, same_pool x m) (kalloc cpuid sz) (λ _ x, pool_less 1 x m)) as Ht; [|intros Hs; by apply Ht].
  pose proof (pool_only_same m) as Hb. pose proof (pool_only_less 1 m) as Ha.
  assert (∀ x, same_pool x m → pool_less 1 x m) as Hle.
  { intros x Hx. apply (Ha m x Hx). split; try done. lia. }
  unfold kalloc. eapply triple_bind; [by apply keeps_mem_lock|]. intros []. unfold Mem.head at 1.
  eapply triple_bind; [apply keeps_getopt|]. intros f.
  eapply triple_bind with (R := λ _ x, same_pool x m).
  { intros s a s' Hs Es. by eapply (keeps_kalloc_loop _ Hb). }
  intros h. eapply triple_bind with (R := λ _ x, pool_less 1 x m).
  - destruct (h =? 0); [|apply triple_ret; apply Hle]. unfold kalloc_grow, Mem.head.
    eapply triple_bind with (R := λ _ x, pool_less 1 x m).
    + intros x a x' Hx Ex. assert (same_pool m x) as Hx' by (destruct Hx as (? & ? & ? & ?); by split_and!).
      apply kalloc_page_pool with (p := p) (l := l) in Ex; [|apply Hram; left|by rewrite (proj1 Hx)].
      destruct Ex as [A B C [D E]], Hx as (X1 & X2 & X3 & X4).
      split; [by rewrite <-X1|by rewrite <-X1| |by rewrite D, E].
      intros q Hq Hnq. rewrite C; [unfold ref_of; by rewrite X2|done|by rewrite X1].
    + intros q. eapply triple_bind; [apply keeps_getopt|]. intros f'.
      eapply triple_bind; [by apply keeps_set_node|]. intros []. eapply triple_bind; [by apply keeps_same|]. intros []. by apply triple_ret.
  - intros h'. eapply triple_bind; [by apply keeps_kalloc_split|]. intros [].
    eapply triple_bind; [by apply keeps_mem_unlock|]. intros []. by apply triple_ret.
Qed.

(** ** Address spaces survive what others do *)

Lemma uspace_kept s s' c c' root T L Ls Ls' :
  uspace s c root T L Ls → pool_inv (kmem s') Ls' →
  (∀ q, used T L q → frames s' !! q = frames s !! q ∧ q ∉ pages (kmem s')) →
  (∀ q, q ∈ pages (kmem s') → ∃ f, is_frame (frames s') q f) →
  (∃ d, pgdirs s' !! c' = Some d ∧ pt d = root) → uspace s' c' root T L Ls'.
Proof.
  intros [Sp _ _ Hu] Hpool Hkept Hfree Hpd. split; [|done|done|].
  - destruct Sp as [A B D]. assert (space s' c' root T L) as [A' _ D']; [|by split].
    eapply (space_ext c' root T (upd_pgdirs (λ _, pgdirs s') s)); [split; [|done|exact D]| |done].
    { destruct A. by constructor. } intros pre p E. apply Hkept. left. by exists pre.
  - intros v e Hv E H1. destruct (Hu v e Hv E H1) as [p U]. exists p.
    destruct (user_entry _ _ _ _ U) as (_ & _ & _ & Ep).
    destruct (Hkept p) as [Ef Hnp]; [right; exists v, e; done|].
    destruct U as [A B D E' (f & Hf)]. split; try done. exists f. unfold is_frame. by rewrite Ef.
Qed.

Lemma content_kept s s' c root T L Ls v : uspace s c root T L Ls → 0 ≤ v < 2 ^ 36 →
  (∀ q, used T L q → frames s' !! q = frames s !! q) → content s' L v = content s L v.
Proof.
  intros U Hv Hk. destruct (L v) as [e|] eqn:E; [|unfold content; by rewrite E].
  destruct (decide (e mod 4 = 3)) as [H3|H3].
  - destruct (us_user _ _ _ _ _ _ U v e Hv E ltac:(zmod)) as [p Up]. eapply content_ext; [done|exact Up|].
    destruct (user_entry _ _ _ _ Up) as (_ & _ & _ & Ep). apply Hk. right. exists v, e. split_and!; [lia|lia|done|zmod|done].
  - unfold content. rewrite E. cbn [mbind option_bind]. by rewrite (proj2 (Z.eqb_neq (e mod 4) 3)).
Qed.

(** ** [init_pgdir] *)

(** the pages of the pool are frames, and the heap is in order *)
Record memory_ok (s : vm) (Ls : list (list Z)) : Prop := {
  mo_inv : mem_inv (kmem s) Ls;
  mo_lock : memlock (kmem s) = false;
  mo_frames : ∀ q, q ∈ pages (kmem s) → ∃ f, is_frame (frames s) q f }.

Lemma pool_ram s Ls q : memory_ok s Ls → q ∈ pages (kmem s) → ram_page q.
Proof. intros [I _ _] Hq. destruct (po_page _ _ (mi_pool _ _ I) q Hq) as (? & ? & _). done. Qed.

(** [kalloc] in a state with page tables *)
Lemma vm_kalloc s Ls cpuid sz : memory_ok s Ls → (cpuid < 4)%nat → 0 < sz ≤ 4080 → pages (kmem s) ≠ [] →
  ∃ a m Ls', inmem (kalloc cpuid sz) s = Ok (a, put_kmem m s) ∧ kalloc cpuid sz (kmem s) = Ok (a, m) ∧ a ≠ 0 ∧
    memory_ok (put_kmem m s) Ls' ∧ pool_less 1 m (kmem s) ∧ on_pages Ls (pages (kmem s)) Ls'.
Proof.
  intros Hok Hcpu Hsz Hne. pose proof Hok as [I Hl Hf].
  destruct (kalloc_run cpuid (kmem s) Ls sz Hcpu I Hl Hsz Hne) as (h & m & Ls' & E & I' & Hl' & Hlive & _ & Hon).
  exists (h + 16), m, Ls'. split; [by apply on_run|]. split; [done|].
  assert (pool_less 1 m (kmem s)) as Hp.
  { eapply kalloc_pool; [|exact Hne|exact E]. intros q. by eapply pool_ram. }
  split; [|split; [|done]].
  - assert (live m Ls' h (round8 sz)) as Hh by (apply Hlive; by right).
    destruct (live_chunk _ _ _ _ I' Hh) as (Hk & _). unfold KSPACE_MASK in *. lia.
  - split; [done|done|]. intros q Hq. apply Hf. by apply Hp.
Qed.

(** the entries of a zeroed top table *)
Lemma empty_tree s root : is_frame (frames s) root (replicate 4096 0) → ram_page root → root ∉ pages (kmem s) →
  tree_inv s root {[[] := root]} ∧ ∀ va, leaf s {[[] := root]} va = None.
Proof.
  intros Hf Hr Hnp. destruct (zero_frame_spec (frames s) root) as [_ Hz]. destruct Hf as [Hf1 Hf2].
  rewrite insert_id in Hz by done. split.
  - constructor.
    + apply lookup_singleton_eq.
    + intros pre p i [<- <-]%lookup_singleton_Some _ Hi. exists 0.
      split; [by apply Hz|]. left. split; [done|]. by apply lookup_singleton_ne.
    + intros pre i p [E _]%lookup_singleton_Some. by destruct pre.
    + intros pre pre' p [<- _]%lookup_singleton_Some [<- _]%lookup_singleton_Some. done.
    + intros pre p [<- <-]%lookup_singleton_Some. split; [simpl; lia|]. split; [done|]. split; [done|]. by eexists.
  - intros va. unfold leaf. by rewrite lookup_singleton_ne.
Qed.

(** the tables belong to this address space alone; the entries above the last level are tables
    or empty *)
Record own_tables (s : vm) (T : gmap (list Z) Z) (Ls : list (list Z)) : Prop := {
  ot_own : ∀ pre p, T !! pre = Some p → ref_of (kmem s) p = 1 ∧ ∀ a, a ∈ concat Ls → a / 4096 ≠ p / 4096;
  ot_zero : ∀ pre p i, T !! pre = Some p → (length pre < 3)%nat → 0 ≤ i < 512 →
    T !! (pre ++ [i]) = None → pte_of (frames s) p i = Some 0;
  ot_range : ∀ pre i p, T !! (pre ++ [i]) = Some p → 0 ≤ i < 512;
  ot_count : Z.of_nat (base.size T) ≤ alloc_page_cnt (kmem s) }.

Lemma init_pgdir_run s Ls cpuid pd (F : Z → Prop) : memory_ok s Ls → (cpuid < 4)%nat →
  (2 ≤ length (pages (kmem s)))%nat → (∀ p, F p → ram_page p ∧ p ∉ pages (kmem s)) →
  ∃ s' root Ls', init_pgdir cpuid pd s = Ok (tt, s') ∧ memory_ok s' Ls' ∧
    pool_less 2 (kmem s') (kmem s) ∧ image pd root Ls' F s' {[[] := root]} (λ _, None) ∧
    root ∈ pages (kmem s) ∧ (∀ q, q ∉ pages (kmem s) → frames s' !! q = frames s !! q) ∧
    (∀ c, c ≠ pd → pgdirs s' !! c = pgdirs s !! c) ∧ ttbr0 s' = ttbr0 s ∧ on_pages Ls (pages (kmem s)) Ls' ∧
    own_tables s' {[[] := root]} Ls'.
Proof.
  intros Hok Hcpu Hn HF. pose proof Hok as [I Hl Hf]. destruct (pages (kmem s)) as [|p l] eqn:El; [simpl in Hn; lia|].
  pose proof (mi_pool _ _ I) as Hpool. destruct (taken_pool _ _ _ _ Hpool El) as (Hpool' & Hpl & _).
  assert (p ∈ pages (kmem s)) as Hp by (rewrite El; left). assert (ram_page p) as Hr by by eapply pool_ram.
  pose proof (kalloc_page_run (kmem s) Ls p l Hpool El) as Ek.
  destruct (kalloc_page_pool (kmem s) _ p l p Hr El Ek) as [Hsub Hroom Hrefs Hz].
  set (s1 := put_kmem (taken (kmem s) p l) s).
  set (s2 := upd_pgdirs <[pd := mkPgdir p false [] false]> (upd_frames <[p := replicate 4096 0]> s1)).
  assert (memory_ok s2 Ls) as Hok2.
  { split; [|done|].
    - destruct I as [[I1 I2] _ I4]. by split.
    - simpl. intros q Hq. destruct (decide (q = p)) as [->|Hne]; [done|]. destruct (Hf q) as [f Hq']; [by right|].
      exists f. by apply is_frame_ne. }
  assert (pages (kmem s2) = l) as Epg by done.
  destruct (vm_kalloc s2 Ls cpuid sizeof_section Hok2 Hcpu ltac:(unfold sizeof_section; lia)) as (sec & m & Ls' & E3 & _ & _ & Hok3 & Hless & Hon);
    [rewrite Epg; intros ->; simpl in Hn; lia|].
  set (s3 := put_kmem m s2). fold s3 in Hok3.
  set (s4 := upd_sections <[sec := mkSection ST_HEAP (init_sem 1) 0 0]>
    (upd_pgdirs <[pd := mkPgdir p false [sec] false]> s3)).
  assert (pool_less 2 (kmem s4) (kmem s)) as Hless4.
  { apply (pool_less_trans 1 1 _ (taken (kmem s) p l)); [by split|]. done. }
  assert (is_frame (frames s4) p (replicate 4096 0)) as Hf4.
  { destruct (zero_frame_spec (frames s) p) as [Hzf _]. exact Hzf. }
  assert (p ∉ pages (kmem s4)) as Hnp4 by (intros Hin; by apply Hpl, (pl_sub _ _ _ Hless)).
  destruct (empty_tree s4 p Hf4 Hr Hnp4) as [It Hleaf].
  exists s4, p, Ls'. split; [|split; [|split; [done|split; [|split; [left|split; [|split; [|split; [done|split]]]]]]]].
  - unfold init_pgdir, init_sections, get_pgdir, set_pgdir, zero_frame, set_frame.
    erewrite bind_Ok by (apply on_run; exact Ek). fold s1.
    erewrite bind_Ok by apply modify_run. erewrite bind_Ok by apply modify_run. fold s2.
    rewrite (bind_Ok _ _ _ _ _ E3). fold s3.
    rewrite (bind_Ok _ _ s3 (mkPgdir p false [] false) s3) by (apply getopt_run; simpl; by rewrite lookup_insert_eq).
    erewrite bind_Ok by apply modify_run. rewrite modify_run. unfold s4. simpl. unfold upd_pgdirs. simpl.
    by rewrite insert_insert_eq.
  - destruct Hok3 as [A B D]. by split.
  - split; [|done|done|].
    + split; [split; [done| |done]|apply Hok3| |done].
      * exists (mkPgdir p false [sec] false). split; [apply lookup_insert_eq|done].
      * intros q Hq. apply Hok3. done.
    + intros q Hq. destruct (HF q Hq) as [Hqr Hqn]. split_and!; [|..|done].
      * intros Hin. apply Hqn. rewrite <-El. by apply Hless4.
      * intros pre [_ <-]%lookup_singleton_Some. by apply Hqn; left.
  - intros q Hq. simpl. rewrite lookup_insert_ne; [done|]. intros <-. by apply Hq; left.
  - intros c Hc. simpl. by rewrite !lookup_insert_ne.
  - intros a Ha. destruct (Hon a Ha) as (b & [Hb|Hb] & ->); exists b; (split; [|done]); [by left|right]. by right.
  - assert (pool_inv (kmem s4) Ls') as Hpool4 by apply Hok3. split.
    + intros pre q [_ <-]%lookup_singleton_Some. split.
      * change (kmem s4) with m. rewrite (pl_refs _ _ _ Hless p Hr Hpl). unfold ref_of. simpl. by rewrite lookup_insert_eq.
      * intros a Ha. destruct (Hon a Ha) as (b & [Hb|Hb] & ->); [by apply (po_fresh _ _ Hpool); [rewrite El; left|]|].
        change (b ∈ l) in Hb. destruct (po_page _ _ Hpool b) as (_ & Hb0 & _); [rewrite El; by right|].
        intros Eb. apply Hpl. destruct Hr as [_ Hp0]. replace p with b by zmod. done.
    + intros pre q i [_ <-]%lookup_singleton_Some _ Hi _. destruct (zero_frame_spec (frames s) p) as [_ Hzz]. by apply Hzz.
    + intros pre i q [E _]%lookup_singleton_Some. by destruct pre.
    + rewrite map_size_singleton. pose proof (po_count _ _ Hpool4). pose proof (po_count _ _ Hpool).
      destruct (po_range _ _ Hpool). pose proof (po_nodup _ _ Hpool4) as Hnd.
      assert (length (pages (kmem s4)) ≤ length l)%nat.
      { apply submseteq_length, NoDup_submseteq; [done|]. intros x Hx. by apply (pl_sub _ _ _ Hless). }
      rewrite El in *. simpl length in *. destruct (pl_zero _ _ _ Hless4) as [_ Hpn]. lia.
Qed.

Lemma on_pages_trans Ls l Ls1 l1 Ls2 : on_pages Ls l Ls1 → on_pages Ls1 l1 Ls2 → (∀ q, q ∈ l1 → q ∈ l) → on_pages Ls l Ls2.
Proof.
  intros H1 H2 Hl a Ha. destruct (H2 a Ha) as (b & [Hb|Hb] & ->); [by apply H1|]. exists b. auto.
Qed.
