(* ===== verification/Segments.v ===== *)
(** * The segments of a program: [load_phdrs] of [Exec] *)

From Stdlib Require Import ZArith Lia.
From S2P Require Import Prelude Words Sync Mmu KernelPt Mem MemSpec Pt PtSpec Cache CacheLog Paging PagingSpec.
From S2P Require Import Layout BlockCache Inode InodeSpec Trap Exec Image Stack.

Section segments.
Context {C : Type} `{BlockCacheLaws C} `{BlockLog C} `{elf} (sblock : SuperBlock).
Context (ip_ : Z) (pd root : Z) (Ls : list (list Z)) (F : Z → Prop) (HF : ∀ p, F p → ram_page p).
Local Notation img := (image pd root Ls F).
Local Notation grw := (grown F).
(** the file: inode [a] of the tree [t], with the blocks [V] *)
Context (V : Z → list Z) (a : Z) (i : Inode).
Context (Htype : type (entry i) ≠ INODE_DEVICE) (Hcov : covered V (entry i)).
Context (Hph : 0 < sizeof_Phdr < 2 ^ 32).
Notation e := (entry i).
Notation file o n := (file_bytes V e o (Z.to_nat n)).

(** ** What is asked of the headers *)

(** a segment of the file that can follow one that ends at [sz] *)
Record segment_ok (sz : Z) (first : bool) (ph : list Z) : Prop := {
  so_size : 0 ≤ p_filesz ph ≤ p_memsz ph;
  so_offset : 0 ≤ p_offset ph ∧ p_offset ph + p_filesz ph ≤ num_bytes e;
  so_address : 0 ≤ p_vaddr ph ∧ 0 < p_vaddr ph + p_memsz ph < 2 ^ 31;
  so_order : if first then p_vaddr ph mod 4096 = 0 else sz ≤ p_vaddr ph }.

(** the headers in turn; [sz] is the end of what is loaded *)
Fixpoint headers_ok (sz : Z) (first : bool) (hs : list (list Z)) : Prop :=
  match hs with
  | [] => True
  | ph :: hs =>
      if p_type ph =? PT_LOAD then segment_ok sz first ph ∧ headers_ok (p_vaddr ph + p_memsz ph) false hs
      else headers_ok sz first hs
  end.

(** the pages to load them, with those for tables *)
Fixpoint segments_cost (sz : Z) (first : bool) (hs : list (list Z)) : Z :=
  match hs with
  | [] => 0
  | ph :: hs =>
      if p_type ph =? PT_LOAD then
        let from := if first then p_vaddr ph else sz in
        4 * ((p_vaddr ph + p_memsz ph - from + 8190) / 4096) + segments_cost (p_vaddr ph + p_memsz ph) false hs
      else segments_cost sz first hs
  end.

(** what a segment puts in memory *)
Definition segment_bytes (ph : list Z) : list Z :=
  file (p_offset ph) (p_filesz ph) ++ replicate (Z.to_nat (p_memsz ph - p_filesz ph)) 0.

(** ** The memory while it is loaded *)

(** the pages from [base] to [sz] are mapped, none from [sz] on *)
Record loading (base sz : Z) (s : vm) (L : Z → option Z) : Prop := {
  ld_base : 0 ≤ base ≤ sz ∧ base mod 4096 = 0;
  ld_end : sz < 2 ^ 31;
  ld_mapped : ∀ u, base ≤ u * 4096 → u * 4096 < sz → is_Some (content s L u);
  ld_free : ∀ u, 0 ≤ u < 2 ^ 36 → sz ≤ u * 4096 → content s L u = None }.

Lemma read_header t off : bc_rep V ∅ (cst t) → imem t !! a = Some i → 0 ≤ off → off + sizeof_Phdr ≤ num_bytes e →
  ∃ c, inode_read sblock a off sizeof_Phdr t = Ok ((file off sizeof_Phdr, sizeof_Phdr), with_cache c t) ∧
    bc_rep V ∅ c ∧ (∀ ctx X k, bc_room (cst t) ctx X k → bc_room c ctx X k).
Proof using Htype Hcov Hph.
  intros R Ei Ho Hn. destruct (inode_read_run sblock V t a i off sizeof_Phdr R Ei Htype Hcov) as [Hr _].
  { destruct Hcov as [_ [_ Hm _ _]]. change INODE_MAX_BLOCKS with 140 in Hm. change (2 ^ 32) with 4294967296. zmod. }
  { lia. }
  destruct Hr as (c & E & R' & Hroom); [lia|]. rewrite Z.min_l in E by lia. eauto.
Qed.

Lemma bytes_file t o n : bc_rep V ∅ (cst t) → bytes (file_bytes V e o n).
Proof using.
  intros R. apply Forall_forall. intros x Hx. unfold file_bytes in Hx.
  apply list_elem_of_In, in_map_iff in Hx as (y & <- & _). unfold file_byte.
  destruct (bc_rep_data V ∅ (cst t) (block_of V e (y / BLOCK_SIZE)) R) as [Hb _].
  destruct (nth_in_or_default (Z.to_nat (y mod BLOCK_SIZE)) (V (block_of V e (y / BLOCK_SIZE))) 0) as [Hin| ->]; [|done].
  unfold bytes in Hb. rewrite Forall_forall in Hb. apply Hb. by apply list_elem_of_In.
Qed.

Lemma content_frame s T L v f : img s T L → 0 ≤ v < 2 ^ 36 → content s L v = Some f → length f = 4096%nat.
Proof using.
  intros I Hv. unfold content. destruct (L v) as [x|] eqn:E; [|done]. cbn [mbind option_bind].
  destruct (Z.eqb_spec (x mod 4) 3); [|done].
  destruct (image_page pd root Ls F s T L v x I Hv E ltac:(zmod)) as (p & -> & U).
  destruct (user_entry _ _ _ _ U) as (_ & _ & _ & ->). destruct (up_frame _ _ _ _ U) as (g & Eg & Hl & _). congruence.
Qed.

Lemma loading_mapped base sz s T L x : img s T L → loading base sz s L → base ≤ x < sz → is_Some (byte s L x).
Proof using.
  intros I [[Hb Ha] He Hm _] Hx. change (2 ^ 31) with 2147483648 in *.
  destruct (Hm (x / 4096)) as [f Hf]; [zmod|zmod|]. unfold byte. rewrite Hf. cbn [mbind option_bind].
  apply lookup_lt_is_Some. rewrite (content_frame s T L (x / 4096) f I); [zmod| |done].
  change (2 ^ 36) with 68719476736. zmod.
Qed.

(** stores change bytes, not which pages are mapped *)
Lemma loading_step base sz s s' T L : img s T L → img s' T L →
  (∀ v, 0 ≤ v < 2 ^ 36 → is_Some (content s L v) → is_Some (content s' L v)) →
  (∀ v, 0 ≤ v < 2 ^ 36 → content s L v = None → content s' L v = None) →
  loading base sz s L → loading base sz s' L.
Proof using.
  intros I I' K1 K2 [[Hb Ha] He Hm Hf]. change (2 ^ 31) with 2147483648 in *. change (2 ^ 36) with 68719476736 in *.
  split; [done|done| |].
  - intros u Hu Hu'. apply K1; [lia|]. by apply Hm.
  - intros u Hu Hu'. apply K2; [lia|]. by apply Hf.
Qed.

(** the pages an address space maps do not depend on the memory *)
Lemma content_mapped s T s' T' L v : img s T L → img s' T' L → 0 ≤ v < 2 ^ 36 →
  is_Some (content s L v) → is_Some (content s' L v).
Proof using.
  intros I I' Hv [f Hf]. unfold content in *. destruct (L v) as [x|] eqn:E; [|done]. cbn [mbind option_bind] in *.
  destruct (Z.eqb_spec (x mod 4) 3); [|done].
  destruct (image_page pd root Ls F s' T' L v x I' Hv E ltac:(zmod)) as (p & -> & U).
  destruct (user_entry _ _ _ _ U) as (_ & _ & _ & ->). destruct (up_frame _ _ _ _ U) as (g & Eg & _). by eexists.
Qed.

Lemma loading_image base sz s s' T L : img s T L → img s' T L → loading base sz s L → loading base sz s' L.
Proof using.
  intros I I' Hl. apply (loading_step base sz s s' T L I I'); [| |done].
  - intros v Hv. by eapply content_mapped.
  - intros v Hv Hc. destruct (content s' L v) as [g|] eqn:E; [|done].
    destruct (content_mapped s' T s T L v I' I Hv) as [x Hx]; [by eexists|congruence].
Qed.

(** ** One segment *)

(** mapping and filling the segment *)
Lemma fill_run base from v T L t ph ip0 : img v T L → loading base from v L →
  bc_rep V ∅ (cst t) → imem t !! a = Some i →
  0 ≤ p_filesz ph ≤ p_memsz ph → 0 ≤ p_offset ph → p_offset ph + p_filesz ph ≤ num_bytes e →
  0 < p_vaddr ph + p_memsz ph < 2 ^ 31 → from ≤ p_vaddr ph →
  let end_ := p_vaddr ph + p_memsz ph in
  4 * ((end_ - from + 8190) / 4096) ≤ Z.of_nat (length (pages (kmem v))) →
  ∃ v1 v2 v3 T' L' c, uvm_alloc pd 0 from (u64 end_) v = Ok (end_, v1) ∧
    attach_pgdir ip0 pd v1 = Ok (tt, set_ttbr0 (K2P root) v1) ∧
    inode_read sblock a (p_offset ph) (p_filesz ph) t =
      Ok ((file (p_offset ph) (p_filesz ph), p_filesz ph), with_cache c t) ∧ bc_rep V ∅ c ∧
    (∀ ctx X k, bc_room (cst t) ctx X k → bc_room c ctx X k) ∧
    store_bytes (p_vaddr ph) (file (p_offset ph) (p_filesz ph)) (set_ttbr0 (K2P root) v1) = Ok (tt, v2) ∧
    store_bytes (u64 (p_vaddr ph + p_filesz ph)) (replicate (Z.to_nat (p_memsz ph - p_filesz ph)) 0) v2 = Ok (tt, v3) ∧
    img v3 T' L' ∧ ttbr0 v3 = K2P root ∧
    grw (Z.to_nat (4 * ((end_ - from + 8190) / 4096))) v (set_ttbr0 (ttbr0 v) v3) ∧
    loading base end_ v3 L' ∧ bytes_at (byte v3 L') (p_vaddr ph) (segment_bytes ph) ∧
    (∀ x c, 0 ≤ x < p_vaddr ph → byte v L x = Some c → byte v3 L' x = Some c).
Proof using HF Htype Hcov.
  intros I Hl R Ei Hsz Ho Ho2 Hend Hfrom end_ Hroom. fold end_ in Hend. pose proof Hl as [[Hb Ha] He Hm Hfree].
  change (2 ^ 31) with 2147483648 in *. assert (num_bytes e ≤ 71680) as Hnb.
  { destruct Hcov as [_ [_ Hmm _ _]]. change INODE_MAX_BLOCKS with 140 in Hmm. zmod. }
  destruct (uvm_alloc_run pd root Ls F HF v T L from end_ I) as (v1 & T1 & L1 & E1 & I1 & G1 & Hold & Hnew);
    [unfold USERTOP; lia|unfold USERTOP; lia| |done|].
  { intros u Hu Hu'. apply Hfree; [change (2 ^ 36) with 68719476736; lia|done]. }
  rewrite i32_id in E1 by (change (2 ^ 31) with 2147483648; lia).
  assert (loading base end_ v1 L1) as Hl1.
  { split; [lia|change (2 ^ 31) with 2147483648; lia| |].
    - intros u Hu Hu'. destruct (decide (from ≤ u * 4096)); [by apply Hnew|].
      rewrite Hold; [apply Hm; lia|change (2 ^ 36) with 68719476736; lia|lia].
    - intros u Hu Hu'. rewrite Hold; [apply Hfree; [done|lia]|done|by right]. }
  set (v1' := set_ttbr0 (K2P root) v1). assert (img v1' T1 L1) as I1' by by apply image_ttbr0.
  assert (loading base end_ v1' L1) as Hl1' by by apply (loading_image base end_ v1 v1' T1 L1).
  destruct (inode_read_run sblock V t a i (p_offset ph) (p_filesz ph) R Ei Htype Hcov) as [Hr _];
    [change (2 ^ 32) with 4294967296; lia|change (2 ^ 32) with 4294967296; lia|].
  destruct Hr as (c & Er & R' & Hc); [lia|]. rewrite Z.min_l in Er by lia.
  set (l := file (p_offset ph) (p_filesz ph)) in *.
  assert (Z.of_nat (length l) = p_filesz ph) as Hll by (unfold l; rewrite length_file_bytes; lia).
  assert (∀ s, img s T1 L1 → loading base end_ s L1 → ∀ x n, p_vaddr ph ≤ x → x + Z.of_nat n ≤ end_ → mapped_range s L1 x n) as Hmr.
  { intros s Is Hls x n Hx Hx' y Hy. apply (loading_mapped base end_ s T1 L1 y Is Hls). lia. }
  destruct (store_bytes_run pd root Ls F HF l v1' T1 L1 (p_vaddr ph) I1' eq_refl) as (v2 & E2 & I2 & G2 & W2).
  { split; [lia|unfold USERTOP; lia]. }
  { apply Hmr; [done|done|lia|unfold end_; lia]. }
  { by eapply bytes_file. }
  assert (ttbr0 v2 = K2P root) as Et2 by by rewrite (proj2 (proj2 (gr_regs _ _ _ _ G2))).
  assert (loading base end_ v2 L1) as Hl2 by by apply (loading_image base end_ v1' v2 T1 L1 I1' I2).
  set (z := replicate (Z.to_nat (p_memsz ph - p_filesz ph)) 0).
  assert (Z.of_nat (length z) = p_memsz ph - p_filesz ph) as Hlz by (unfold z; rewrite length_replicate; lia).
  destruct (store_bytes_run pd root Ls F HF z v2 T1 L1 (p_vaddr ph + p_filesz ph) I2 Et2) as (v3 & E3 & I3 & G3 & W3).
  { split; [lia|unfold USERTOP, end_ in *; lia]. }
  { apply Hmr; [done|done|lia|unfold end_; lia]. }
  { by apply bytes_replicate. }
  exists v1, v2, v3, T1, L1, c. rewrite (u64_id end_), (u64_id (p_vaddr ph + p_filesz ph)) by (unfold end_ in *; lia).
  split_and!; try done.
  - by apply (attach_run pd root Ls F ip0 v1 T1 L1).
  - by rewrite (proj2 (proj2 (gr_regs _ _ _ _ G3))).
  - assert (grw 0 v1' v3) as G23 by by apply (space_grown_trans F 0 0 0 v1' v2 v3).
    apply (grown_ttbr0 F 0 v1' v3 (ttbr0 v1)) in G23.
    rewrite <-(proj2 (proj2 (gr_regs _ _ _ _ G1))). eapply (space_grown_trans F _ 0); [exact G1| |lia]. destruct v1. exact G23.
  - by apply (loading_image base end_ v2 v3 T1 L1 I2 I3).
  - apply bytes_at_app. fold l z. split; [|rewrite Hll; apply W3].
    eapply written_keeps; [exact W3|split; [lia|unfold USERTOP, end_ in *; lia]|lia|apply W2].
  - intros x b Hx Hbx. apply (wr_old _ _ _ _ _ _ W3); [unfold USERTOP, end_ in *; lia|lia|].
    apply (wr_old _ _ _ _ _ _ W2); [unfold USERTOP, end_ in *; lia|lia|].
    unfold byte in Hbx |- *. change (content v1' L1 (x / 4096)) with (content v1 L1 (x / 4096)).
    destruct (content v L (x / 4096)) as [f|] eqn:Ef; [|done].
    rewrite Hold; [by rewrite Ef|change (2 ^ 36) with 68719476736; zmod|].
    destruct (decide (x / 4096 * 4096 < from)); [by left|]. exfalso. rewrite Hfree in Ef; [done| |lia].
    change (2 ^ 36) with 68719476736. zmod.
Qed.

(** ** The loop *)

(** the program headers: [n] from [off] on *)
Fixpoint headers (n : nat) (off : Z) : list (list Z) :=
  match n with O => [] | S n => file off sizeof_Phdr :: headers n (off + sizeof_Phdr) end.

Definition progress (base sz : Z) (first : bool) (v : vm) (L : Z → option Z) : Prop :=
  if first then ∀ u, 0 ≤ u < 2 ^ 36 → content v L u = None else loading base sz v L.

Lemma infi_run {A} (m : M (itree C) A) (s : est C) x t' : m (fi s) = Ok (x, t') → infi m s = Ok (x, put_fi t' s).
Proof using. apply on_run. Qed.
Lemma inv_run {A} (m : M vm A) (s : est C) x v' : m (mv s) = Ok (x, v') → inv m s = Ok (x, put_mv v' s).
Proof using. apply on_run. Qed.

Lemma load_phdr_run ip0 (s : est C) T L base sz first off : let v := mv s in let t := fi s in
  let ph := file off sizeof_Phdr in let end_ := p_vaddr ph + p_memsz ph in
  img v T L → progress base sz first v L → bc_rep V ∅ (cst t) → imem t !! a = Some i →
  0 ≤ off → off + sizeof_Phdr ≤ num_bytes e → p_type ph = PT_LOAD → segment_ok sz first ph →
  segments_cost sz first [ph] ≤ Z.of_nat (length (pages (kmem v))) →
  ∃ v' T' L' c base', load_phdr sblock ip0 pd a off sz first s =
      Ok ((end_, false), mkEst v' (with_cache c t) (ucontext s)) ∧
    img v' T' L' ∧ grw (Z.to_nat (segments_cost sz first [ph])) v (set_ttbr0 (ttbr0 v) v') ∧
    bc_rep V ∅ c ∧ (∀ ctx X k, bc_room (cst t) ctx X k → bc_room c ctx X k) ∧
    loading base' end_ v' L' ∧ bytes_at (byte v' L') (p_vaddr ph) (segment_bytes ph) ∧
    (first = false → ∀ x b, 0 ≤ x < sz → byte v L x = Some b → byte v' L' x = Some b).
Proof using HF Htype Hcov Hph.
  intros v t ph end_ I Hp R Ei Ho Hn Hty [[Hs1 Hs2] [Hof1 Hof2] [Ha1 Ha2] Hord] Hroom.
  fold end_ in Ha2. cbn [segments_cost] in *. rewrite Hty, Z.eqb_refl in *. fold end_ in Hroom |- *.
  set (from := if first then p_vaddr ph else sz) in *. set (base' := if first then p_vaddr ph else base).
  change (2 ^ 31) with 2147483648 in *.
  assert (loading base' from v L) as Hl.
  { unfold base', from, progress in *. destruct first; [|done]. split; [split; [lia|done]|change (2 ^ 31) with 2147483648; unfold end_ in *; lia|lia|].
    intros u Hu _. by apply Hp. }
  assert (from ≤ p_vaddr ph) as Hfrom by (unfold from; destruct first; [lia|done]).
  destruct (read_header t off R Ei Ho Hn) as (c1 & E1 & R1 & Hc1). fold ph in E1.
  destruct (fill_run base' from v T L (with_cache c1 t) ph ip0 I Hl R1 Ei)
    as (v1 & v2 & v3 & T3 & L3 & c2 & E2 & E3 & E4 & R2 & Hc2 & E5 & E6 & I3 & Et3 & G3 & Hl3 & B3 & O3);
    [lia|lia|lia|fold end_; lia|done|fold end_; lia|]. fold end_ in E2, G3, Hl3.
  exists v3, T3, L3, c2, base'. split_and!; [|done| |done| |done|done|].
  - unfold load_phdr. rewrite (bind_Ok _ _ _ _ _ (infi_run _ s _ _ E1)). cbv beta iota.
    rewrite Z.eqb_refl. cbn [negb]. rewrite Hty, Z.eqb_refl. cbn [negb].
    rewrite (proj2 (Z.ltb_ge (p_memsz ph) (p_filesz ph))) by lia. fold end_.
    rewrite (u64_id end_) by lia. rewrite (proj2 (Z.ltb_ge end_ (p_vaddr ph))) by (unfold end_; lia).
    cbv zeta. fold from. set (s1 := put_fi _ s).
    rewrite (bind_Ok _ _ s1 tt s1).
    2:{ destruct first; [|done]. apply assert_run, Z.eqb_eq. exact Hord. }
    rewrite (u64_id end_) in E2 by lia.
    rewrite (bind_Ok _ _ _ _ _ (inv_run _ s1 _ _ E2)). rewrite (u64_id end_), (proj2 (Z.eqb_neq end_ 0)) by lia.
    rewrite (bind_Ok _ _ _ _ _ (inv_run _ (put_mv v1 s1) _ _ E3)).
    rewrite (bind_Ok _ _ _ _ _ (infi_run _ (put_mv (set_ttbr0 (K2P root) v1) (put_mv v1 s1)) _ _ E4)). cbv beta iota.
    erewrite bind_Ok by (apply inv_run; exact E5). rewrite Z.eqb_refl. cbn [negb].
    rewrite (u64_id (p_vaddr ph + p_filesz ph)) in E6 by (unfold end_ in *; lia).
    erewrite bind_Ok by (apply inv_run; exact E6). done.
  - eapply grown_le; [exact G3|lia].
  - intros ctx X k Hr. by apply Hc2, Hc1.
  - intros Hfirst x b Hx. apply O3. unfold from in Hfrom. rewrite Hfirst in Hfrom. lia.
Qed.

(** the cost of one header, and of the rest *)
Definition segment_cost (sz : Z) (first : bool) (ph : list Z) : Z :=
  4 * ((p_vaddr ph + p_memsz ph - (if first then p_vaddr ph else sz) + 8190) / 4096).

Lemma segment_cost_pos sz first ph : segment_ok sz first ph → 0 ≤ segment_cost sz first ph.
Proof using. intros [Hs _ _ Ho]. unfold segment_cost. destruct first; [|assert (sz ≤ p_vaddr ph) by done]; zmod. Qed.

Lemma segments_cost_pos hs : ∀ sz first, headers_ok sz first hs → 0 ≤ segments_cost sz first hs.
Proof using.
  induction hs as [|ph hs IH]; intros sz first Hok; [done|]. cbn [headers_ok segments_cost] in *.
  destruct (p_type ph =? PT_LOAD); [|by apply IH]. destruct Hok as [Hs Hok].
  pose proof (segment_cost_pos _ _ _ Hs) as Hp. unfold segment_cost in Hp. pose proof (IH _ _ Hok). lia.
Qed.

Lemma load_phdrs_run ip0 n : ∀ (s : est C) T L base sz first off,
  img (mv s) T L → progress base sz first (mv s) L → bc_rep V ∅ (cst (fi s)) → imem (fi s) !! a = Some i →
  0 ≤ off → off + Z.of_nat n * sizeof_Phdr ≤ num_bytes e → headers_ok sz first (headers n off) →
  segments_cost sz first (headers n off) ≤ Z.of_nat (length (pages (kmem (mv s)))) →
  ∃ v' T' L' c base' sz' first', load_phdrs sblock ip0 n pd a off sz first s =
      Ok (tt, mkEst v' (with_cache c (fi s)) (ucontext s)) ∧
    img v' T' L' ∧ grw (Z.to_nat (segments_cost sz first (headers n off))) (mv s) (set_ttbr0 (ttbr0 (mv s)) v') ∧
    bc_rep V ∅ c ∧ (∀ ctx X k, bc_room (cst (fi s)) ctx X k → bc_room c ctx X k) ∧
    progress base' sz' first' v' L' ∧
    Forall (λ ph, p_type ph = PT_LOAD → (p_vaddr ph + p_memsz ph < 2 ^ 31 ∧ 0 ≤ p_vaddr ph ∧ 0 ≤ p_filesz ph ≤ p_memsz ph) ∧
      bytes_at (byte v' L') (p_vaddr ph) (segment_bytes ph)) (headers n off) ∧
    (first = false → ∀ x b, 0 ≤ x < sz → byte (mv s) L x = Some b → byte v' L' x = Some b).
Proof using HF Htype Hcov Hph.
  induction n as [|n IH]; intros s T L base sz first off I Hp R Ei Ho Hn Hok Hroom.
  { exists (mv s), T, L, (cst (fi s)), base, sz, first. rewrite with_cache_cst. split_and!; try done; [by destruct s|].
    eapply grown_le; [destruct (mv s); apply space_grown_refl|lia]. }
  cbn [headers headers_ok segments_cost load_phdrs] in *. set (ph := file off sizeof_Phdr) in *.
  assert (num_bytes e ≤ 71680) as Hnb.
  { destruct Hcov as [_ [_ Hmm _ _]]. change INODE_MAX_BLOCKS with 140 in Hmm. zmod. }
  destruct (Z.eqb_spec (p_type ph) PT_LOAD) as [Hty|Hty].
  - destruct Hok as [Hseg Hok].
    pose proof (segments_cost_pos _ _ _ Hok) as Hc0. pose proof (segment_cost_pos _ _ _ Hseg) as Hc.
    fold (segment_cost sz first ph) in *.
    destruct (load_phdr_run ip0 s T L base sz first off I Hp R Ei Ho ltac:(nia) Hty Hseg)
      as (v1 & T1 & L1 & c1 & base1 & E1 & I1 & G1 & R1 & Hc1 & Hl1 & B1 & O1).
    { cbn [segments_cost]. fold ph (segment_cost sz first ph). rewrite Hty, Z.eqb_refl. lia. }
    cbn [segments_cost] in G1. fold ph in E1, G1, Hl1, B1. rewrite Hty, Z.eqb_refl in G1. fold (segment_cost sz first ph) in G1.
    rewrite (bind_Ok _ _ _ _ _ E1). cbv beta iota.
    rewrite (u64_id (off + sizeof_Phdr)) by (change (2 ^ 32) with 4294967296 in *; nia).
    pose proof (gr_room _ _ _ _ G1) as Rm1. cbn [kmem set_ttbr0] in Rm1.
    destruct (IH (mkEst v1 (with_cache c1 (fi s)) (ucontext s)) T1 L1 base1 (p_vaddr ph + p_memsz ph) false (off + sizeof_Phdr))
      as (v2 & T2 & L2 & c2 & base2 & sz2 & first2 & E2 & I2 & G2 & R2 & Hc2 & Hp2 & B2 & O2);
      [done|done|done|done|lia|nia|done|cbn [mv]; lia|]. cbn [mv fi ucontext] in *.
    exists v2, T2, L2, c2, base2, sz2, first2. split_and!; [done|done| |done|by intros; apply Hc2, Hc1|done| |].
    + apply (grown_ttbr0 F _ _ _ (ttbr0 (mv s))) in G2. eapply (space_grown_trans F _ _ _ _ _ _ G1); [by destruct v1|lia].
    + constructor; [|done]. intros _. destruct Hseg as [[Hs1 Hs2] _ [Ha1 Ha2] _]. split; [lia|].
      intros k b Hk. pose proof (lookup_lt_Some _ _ _ Hk) as Hlt. apply (O2 eq_refl); [|by apply B1].
      unfold segment_bytes in Hlt. rewrite length_app, length_replicate, length_file_bytes in Hlt. lia.
    + intros Hf x b Hx Hb. subst first. apply (O2 eq_refl); [|by apply O1]. destruct Hseg as [[? ?] _ _ Hord]. lia.
  - destruct (read_header (fi s) off R Ei Ho ltac:(nia)) as (c1 & E1 & R1 & Hc1). fold ph in E1.
    assert (load_phdr sblock ip0 pd a off sz first s = Ok ((sz, first), put_fi (with_cache c1 (fi s)) s)) as E.
    { unfold load_phdr. rewrite (bind_Ok _ _ _ _ _ (infi_run _ s _ _ E1)). cbv beta iota.
      rewrite Z.eqb_refl. cbn [negb]. by rewrite (proj2 (Z.eqb_neq _ _) Hty). }
    rewrite (bind_Ok _ _ _ _ _ E). cbv beta iota.
    rewrite (u64_id (off + sizeof_Phdr)) by (change (2 ^ 32) with 4294967296 in *; nia).
    destruct (IH (put_fi (with_cache c1 (fi s)) s) T L base sz first (off + sizeof_Phdr))
      as (v2 & T2 & L2 & c2 & base2 & sz2 & first2 & E2 & I2 & G2 & R2 & Hc2 & Hp2 & B2 & O2);
      [done|done|done|done|lia|nia|done|done|]. cbn [mv fi ucontext put_fi] in *.
    exists v2, T2, L2, c2, base2, sz2, first2. split_and!; [done|done|done|done|by intros; apply Hc2, Hc1|done| |done].
    by constructor.
Qed.
End segments.
