(* ===== verification/ExecSpec.v ===== *)
(** * [execve] replaces the program of a process *)

From Stdlib Require Import ZArith Lia.
From S2P Require Import Prelude Triple Words Sync Mmu KernelPt Mem MemSpec Pt PtSpec Cache CacheSpec CacheLog Paging PagingSpec.
From S2P Require Import Layout BlockCache Inode InodeSpec File FileSpec Trap Exec Image Stack Spaces Segments.

(** ** Address spaces under another directory *)

Lemma uspace_dir s c c' root T L Ls :
  uspace s c root T L Ls → (∃ d, pgdirs s !! c' = Some d ∧ pt d = root) → uspace s c' root T L Ls.
Proof. intros [[A _ B] D E F] Hd. split; [by split|done..]. Qed.

Lemma image_dir s c c' root T L Ls F :
  image c root Ls F s T L → (∃ d, pgdirs s !! c' = Some d ∧ pt d = root) → image c' root Ls F s T L.
Proof. intros [A B D E] Hd. split; [by eapply uspace_dir|done..]. Qed.

(** what the kernel does elsewhere leaves the tables alone *)
Lemma own_tables_kept s s' T Ls Ls' : own_tables s T Ls →
  pool_inv (kmem s) Ls → pool_inv (kmem s') Ls' → pagenum (kmem s') = pagenum (kmem s) →
  (∀ q, q ∈ pages (kmem s') → q ∈ pages (kmem s)) → on_pages Ls (pages (kmem s)) Ls' →
  (∀ pre p, T !! pre = Some p → ram_page p ∧ p ∉ pages (kmem s) ∧ ref_of (kmem s') p = ref_of (kmem s) p ∧
     frames s' !! p = frames s !! p) → own_tables s' T Ls'.
Proof.
  intros [A B D E] P P' Hn Hsub Hon HT. split; [| |done|].
  - intros pre p Hp. destruct (HT pre p Hp) as (Hr & Hnp & -> & _). destruct (A pre p Hp) as [A1 A2].
    split; [done|]. intros a Ha. destruct (Hon a Ha) as (b & [Hb|Hb] & ->); [by apply A2|].
    destruct (po_page _ _ P b Hb) as (Hbr & Hb0 & _). intros Eb. apply Hnp. destruct Hr as [_ Hp0].
    replace p with b by zmod. done.
  - intros pre p i Hp Hl Hi Ht. destruct (HT pre p Hp) as (_ & _ & _ & Ef). unfold pte_of. rewrite Ef. by apply (B pre).
  - pose proof (po_count _ _ P). pose proof (po_count _ _ P'). pose proof (po_nodup _ _ P') as Hnd.
    assert (length (pages (kmem s')) ≤ length (pages (kmem s)))%nat; [|lia].
    apply submseteq_length, NoDup_submseteq; done.
Qed.

(** ** After [free_pgdir] *)

Lemma freed_space s0 root0 T0 L0 Ls l s pd root T L : tree_inv s0 root0 T0 → freed s0 T0 Ls l s → image pd root Ls (used T0 L0) s0 T L →
  uspace s pd root T L Ls ∧ ∀ v, 0 ≤ v < 2 ^ 36 → content s L v = content s0 L v.
Proof.
  intros I0 Fd I. pose proof (im_space _ _ _ _ _ _ _ I) as U.
  assert (∀ q, used T L q → (¬ below T0 [] q) ∧ q ∉ pages (kmem s0)) as Hu.
  { intros q Hq. destruct (used_ram pd root T L Ls s0 q U Hq) as [Hr Hnp]. split; [|done]. intros [pre Hpre].
    destruct (im_foreign _ _ _ _ _ _ _ I q) as (_ & Ha & Hl); [left; by exists pre|].
    destruct Hq as [[pre' E]|(v & e & Hv & E & H1 & Ep)]; [by apply (Ha pre')|].
    apply (Hl v Hv). rewrite E. f_equal. rewrite <-Ep. by apply (im_entry _ _ _ _ _ _ _ I v). }
  assert (∀ q, used T L q → frames s !! q = frames s0 !! q) as Hf by (intros q Hq; by apply (fd_frames _ _ _ _ _ Fd), Hu).
  split.
  - eapply (uspace_kept s0 s pd pd); [exact U|apply Fd| | |].
    + intros q Hq. split; [by apply Hf|]. rewrite (fd_pages _ _ _ _ _ Fd). intros [Hin|Hin]%elem_of_app; [|by apply (Hu q Hq)].
      by apply (proj1 (Hu q Hq)), (fd_tables _ _ _ _ _ Fd).
    + intros q. rewrite (fd_pages _ _ _ _ _ Fd). intros [Hin|Hin]%elem_of_app.
      * apply (fd_tables _ _ _ _ _ Fd) in Hin as [pre Hpre].
        destruct (tr_page _ _ _ I0 pre q Hpre) as (_ & _ & _ & f & Hq). by eapply (fd_there _ _ _ _ _ Fd).
      * destruct (us_free _ _ _ _ _ _ U q Hin) as [f Hq]. by eapply (fd_there _ _ _ _ _ Fd).
    + rewrite (proj1 (fd_regs _ _ _ _ _ Fd)). apply U.
  - intros v Hv. by eapply content_kept.
Qed.

Section setup.
Context (cpuid : nat) (cur old : Z).
Context (v : vm) (root0 : Z) (T0 : gmap (list Z) Z) (L0 : Z → option Z) (Ls : list (list Z)).

(** the process that calls [execve], on a machine with its heap and pool in order *)
Record caller : Prop := {
  ca_cpu : (cpuid < 4)%nat;
  ca_mem : memory_ok v Ls;
  ca_space : uspace v cur root0 T0 L0 Ls;
  ca_force : ttbr0 v = K2P root0;
  ca_tables : own_tables v T0 Ls;
  ca_old : old ≠ cur;
  ca_pd : ∀ pd m, kalloc cpuid sizeof_pgdir (kmem v) = Ok (pd, m) → pd ≠ cur ∧ pd ≠ old }.

Lemma used_user q : caller → used T0 L0 q → ram_page q ∧ q ∉ pages (kmem v).
Proof using. intros Ca. eapply used_ram, Ca. Qed.

(** the copy of the directory, and the new one *)
Lemma setup_run : caller → (3 ≤ length (pages (kmem v)))%nat →
  ∃ v1 pd v2 v3 root Ls', copy_pgdir old cur v = Ok (tt, v1) ∧ inmem (kalloc cpuid sizeof_pgdir) v1 = Ok (pd, v2) ∧
    init_pgdir cpuid pd v2 = Ok (tt, v3) ∧ pd ≠ 0 ∧ pd ≠ cur ∧ pd ≠ old ∧
    image pd root Ls' (used T0 L0) v3 {[[] := root]} (λ _, None) ∧
    uspace v3 old root0 T0 L0 Ls' ∧ own_tables v3 T0 Ls' ∧ own_tables v3 {[[] := root]} Ls' ∧
    (length (pages (kmem v)) ≤ length (pages (kmem v3)) + 3)%nat ∧ ttbr0 v3 = ttbr0 v ∧
    (∃ d, pgdirs v3 !! old = Some d ∧ pt d = root0) ∧ is_Some (pgdirs v3 !! cur) ∧
    (∀ x, 0 ≤ x < USERTOP → user_byte v3 x = user_byte v x).
Proof using.
  intros Ca Hn. pose proof Ca as [Hcpu Hok U Et Hot Hoc Hpd]. destruct (sp_pd _ _ _ _ _ (us_space _ _ _ _ _ _ U)) as (d & Ed & Er).
  set (v1 := upd_pgdirs <[old := d]> v).
  assert (memory_ok v1 Ls) as Hok1 by (destruct Hok as [A B D]; by split).
  destruct (vm_kalloc v1 Ls cpuid sizeof_pgdir Hok1 Hcpu ltac:(unfold sizeof_pgdir; lia)) as (pd & m & Ls1 & E1 & Ek & Hpd0 & Hok2 & Hless1 & Hon1).
  { change (pages (kmem v1)) with (pages (kmem v)). intros Ez. rewrite Ez in Hn. simpl in Hn. lia. }
  destruct (Hpd pd m Ek) as [Hpc Hpo]. set (v2 := put_kmem m v1) in *. change (kmem v1) with (kmem v) in *.
  pose proof (pl_room _ _ _ Hless1) as Rm1.
  destruct (init_pgdir_run v2 Ls1 cpuid pd (used T0 L0) Hok2 Hcpu) as (v3 & root & Ls2 & E3 & Hok3 & Hless3 & I3 & _ & Hf3 & Hp3 & Ht3 & Hon3 & Hown3).
  { change (kmem v2) with m. lia. }
  { intros p Hp. destruct (used_user p Ca Hp) as [Hr Hnp]. split; [done|]. intros Hin. by apply Hnp, Hless1. }
  pose proof (pl_room _ _ _ Hless3) as Rm3. change (kmem v2) with m in *.
  assert (pool_less 3 (kmem v3) (kmem v)) as Hless by by apply (pool_less_trans 1 2 _ m).
  assert (∀ q, used T0 L0 q → frames v3 !! q = frames v !! q) as Hfr.
  { intros q Hq. destruct (used_user q Ca Hq) as [_ Hnp]. apply Hf3. intros Hin. by apply Hnp, Hless1. }
  assert (pgdirs v3 !! old = Some d) as Eo.
  { rewrite Hp3 by done. simpl. apply lookup_insert_eq. }
  assert (uspace v3 old root0 T0 L0 Ls2) as U3.
  { eapply uspace_kept; [exact U|apply Hok3| |apply Hok3|by exists d].
    intros q Hq. split; [by apply Hfr|]. destruct (used_user q Ca Hq) as [_ Hnp]. intros Hin. by apply Hnp, Hless. }
  assert (ttbr0 v3 = K2P root0) as Et3 by by rewrite Ht3.
  exists v1, pd, v2, v3, root, Ls2. split_and!; try done.
  - unfold copy_pgdir, get_pgdir, set_pgdir. by rewrite (bind_Ok _ _ v d v) by by apply getopt_run.
  - apply (own_tables_kept v v3 T0 Ls Ls2 Hot); [apply Hok|apply Hok3|apply Hless|apply Hless| |].
    + eapply on_pages_trans; [exact Hon1|exact Hon3|apply Hless1].
    + intros pre p Hp. assert (used T0 L0 p) as Hup by (left; by exists pre). destruct (used_user p Ca Hup) as [Hr Hnp].
      split_and!; [done|done|by apply Hless|by apply Hfr].
  - lia.
  - by exists d.
  - rewrite Hp3 by done. simpl. rewrite lookup_insert_ne by done. by eexists.
  - intros x Hx. rewrite (user_byte_content v3 old root0 T0 L0 Ls2 x U3 Et3 Hx), (user_byte_content v cur root0 T0 L0 Ls x U Et Hx).
    by rewrite (content_kept v v3 cur root0 T0 L0 Ls _ U (page_number x Hx) Hfr).
Qed.
End setup.

(** ** The segments and the stack *)

Section image_run.
Context {C : Type} `{BlockLogLaws C} `{elf} (sblock : SuperBlock).
Context (ip0 cur old pd root root0 : Z) (T0 : gmap (list Z) Z) (L0 : Z → option Z) (Ls : list (list Z)).
Context (V : Z → list Z) (a : Z) (i : Inode).
Context (Htype : type (entry i) ≠ INODE_DEVICE) (Hcov : covered V (entry i)) (Hph : 0 < sizeof_Phdr < 2 ^ 32).
Notation F := (used T0 L0).
Notation hs n off := (headers V i n off).

Lemma old_space_grown n s s' T L w : uspace s old root0 T0 L0 Ls → image pd root Ls F s' T L →
  grown F n s (set_ttbr0 (ttbr0 s) s') → uspace (set_ttbr0 w s') old root0 T0 L0 Ls ∧
  ∀ x, 0 ≤ x < 2 ^ 36 → content (set_ttbr0 w s') L0 x = content s L0 x.
Proof using.
  intros U I G. apply (image_ttbr0 pd root Ls F s' T L (ttbr0 s)) in I.
  destruct (old_kept old root0 T0 L0 Ls pd root n s _ T L U I G) as [U' Hc].
  split; [|done]. by apply (uspace_ttbr0 _ _ _ (set_ttbr0 (ttbr0 s) s')).
Qed.

(** both, from the new directory to the new stack *)
Lemma program_run (s : est C) T L n off argv envp args envs m :
  image pd root Ls F (mv s) T L → (∀ u, 0 ≤ u < 2 ^ 36 → content (mv s) L u = None) →
  uspace (mv s) old root0 T0 L0 Ls → ttbr0 (mv s) = K2P root0 →
  bc_rep V ∅ (cst (fi s)) → imem (fi s) !! a = Some i →
  0 ≤ off → off + Z.of_nat n * sizeof_Phdr ≤ num_bytes (entry i) → headers_ok i 0 true (hs n off) →
  (∀ x, 0 ≤ x < USERTOP → m x = user_byte (mv s) x) → argument m argv args → argument m envp envs →
  let A := take (Z.to_nat MAXARG) args in let E := take (Z.to_nat MAXARG) envs in
  total A + total E ≤ 2 ^ 31 →
  segments_cost 0 true (hs n off) + cost A + cost E + 56 ≤ Z.of_nat (length (pages (kmem (mv s)))) →
  let sp := stack_pointer A E in
  ∃ v1 c v2 T' L', load_phdrs sblock ip0 n pd a off 0 true s = Ok (tt, mkEst v1 (with_cache c (fi s)) (ucontext s)) ∧
    bc_rep V ∅ c ∧ (∀ ctx X k, bc_room (cst (fi s)) ctx X k → bc_room c ctx X k) ∧
    attach_pgdir ip0 old v1 = Ok (tt, set_ttbr0 (K2P root0) v1) ∧
    build_stack ip0 pd argv envp (set_ttbr0 (K2P root0) v1) = (assert (USERTOP - stack_size A E <? sp);; mret sp) v2 ∧
    image pd root Ls F v2 T' L' ∧ ttbr0 v2 = K2P root ∧
    (∃ k, grown F k (mv s) (set_ttbr0 (ttbr0 (mv s)) v2)) ∧ stack_ready v2 sp A E ∧
    Forall (λ ph, p_type ph = PT_LOAD → user_range (p_vaddr ph) (length (segment_bytes V i ph)) ∧
      bytes_at (user_byte v2) (p_vaddr ph) (segment_bytes V i ph)) (hs n off).
Proof using Htype Hcov Hph.
  intros I Hnone U Et R Ei Ho Hn Hok Hm Ha He A E Htot Hroom sp.
  assert (∀ p, F p → ram_page p) as HF by (intros p Hp; by eapply used_ram).
  pose proof (segments_cost_pos i _ _ _ Hok) as Hc0. pose proof (cost_pos A). pose proof (cost_pos E).
  destruct (load_phdrs_run sblock pd root Ls F HF V a i Htype Hcov Hph ip0 n s T L 0 0 true off I Hnone R Ei Ho Hn Hok ltac:(lia))
    as (v1 & T1 & L1 & c & base & sz & first & E1 & I1 & G1 & R1 & Hc1 & _ & B1 & _).
  destruct (old_space_grown _ (mv s) v1 T1 L1 (K2P root0) U I1 G1) as [U1 Hcont1].
  set (v1' := set_ttbr0 (K2P root0) v1) in *. assert (image pd root Ls F v1' T1 L1) as I1' by by apply image_ttbr0.
  assert (∀ x, 0 ≤ x < USERTOP → user_byte v1' x = m x) as Hm1.
  { intros x Hx. rewrite Hm by done. rewrite (user_byte_content v1' old root0 T0 L0 Ls x U1 eq_refl Hx).
    rewrite (user_byte_content (mv s) old root0 T0 L0 Ls x U Et Hx). by rewrite Hcont1 by by apply page_number. }
  set (m1 := λ x, if decide (0 ≤ x < USERTOP) then m x else None).
  assert (view pd root Ls F v1' m1) as Vw.
  { intros k s' T' L' I' G' x b Hx. unfold m1. rewrite decide_True by done. rewrite <-Hm1 by done.
    by apply (old_view old root0 T0 L0 Ls pd root v1' U1 eq_refl k s' T' L'). }
  assert (∀ x b, 0 ≤ x < USERTOP → m1 x = Some b → is_byte b) as Hby.
  { intros x b Hx. unfold m1. rewrite decide_True, <-Hm1 by done. by apply (user_byte_is_byte old root0 T0 L0 Ls). }
  assert (∀ p strs, argument m p strs → argument m1 p strs) as Hag.
  { intros p strs. apply argument_ext. intros x b Hx Hb. unfold m1. by rewrite decide_True. }
  pose proof (gr_room _ _ _ _ G1) as Rm1. cbn [kmem set_ttbr0] in Rm1.
  destruct (build_stack_run pd root Ls F HF ip0 v1' T1 L1 m1 argv envp args envs I1' Vw Hby (Hag _ _ Ha) (Hag _ _ He) Htot)
    as (v2 & T2 & L2 & E2 & I2 & Et2 & G2 & Rd & O2); [fold A E; cbn [kmem v1' set_ttbr0]; lia|]. fold A E in E2, G2, Rd, O2.
  exists v1, c, v2, T2, L2. split_and!; try done.
  - destruct (sp_pd _ _ _ _ _ (us_space _ _ _ _ _ _ U1)) as (d & Ed & Er). unfold attach_pgdir, get_pgdir.
    rewrite (bind_Ok _ _ v1 d v1) by (by apply getopt_run). pose proof (space_root _ _ _ _ _ (us_space _ _ _ _ _ _ U1)).
    by rewrite Er, (proj2 (Z.eqb_neq root0 0)).
  - eexists. eapply space_grown_trans; [exact G1| |reflexivity]. rewrite Et. exact G2.
  - eapply Forall_impl; [exact B1|]. intros ph Hseg Hload. destruct (Hseg Hload) as ((Hlt & Hv0 & Hfs) & Hb).
    assert (Z.of_nat (length (segment_bytes V i ph)) = p_memsz ph) as Hlen.
    { unfold segment_bytes. rewrite length_app, length_replicate, length_file_bytes. lia. }
    assert (length A ≤ 10 ∧ length E ≤ 10)%nat as [HA HE] by (unfold A, E; rewrite !length_take; change (Z.to_nat MAXARG) with 10%nat; lia).
    destruct (stack_bounds A E Htot HA HE) as (Hsp & _ & _ & _ & Hsz).
    change (2 ^ 31) with 2147483648 in *. change (2 ^ 32) with 4294967296 in *.
    split; [split; [done|unfold USERTOP in *; lia]|]. intros k b Hk. pose proof (lookup_lt_Some _ _ _ Hk) as Hkl.
    apply O2; [unfold USERTOP in *; lia|by apply Hb].
Qed.
End image_run.

(** ** The old address space is given up *)

Lemma uspace_pgdirs s c c' root T L Ls f : uspace s c root T L Ls →
  (∃ d, f (pgdirs s) !! c' = Some d ∧ pt d = root) → uspace (upd_pgdirs f s) c' root T L Ls.
Proof.
  intros U Hd. apply (uspace_kept s _ c c' root T L Ls Ls U); [apply U| |apply U|done].
  intros q Hq. split; [done|]. by destruct (used_ram c root T L Ls s q U Hq).
Qed.

Lemma image_pgdirs s c c' root T L Ls F f : image c root Ls F s T L →
  (∃ d, f (pgdirs s) !! c' = Some d ∧ pt d = root) → image c' root Ls F (upd_pgdirs f s) T L.
Proof. intros [A B D E] Hd. split; [by eapply uspace_pgdirs|done..]. Qed.

Lemma copy_pgdir_run dst src d s : pgdirs s !! src = Some d →
  copy_pgdir dst src s = Ok (tt, upd_pgdirs <[dst := d]> s).
Proof. intros E. unfold copy_pgdir, get_pgdir. by rewrite (bind_Ok _ _ s d s) by by apply getopt_run. Qed.

(** The new directory becomes that of the process, the old one is freed. *)
Lemma replace_run ip0 cur old pd root root0 T0 L0 Ls v T L dpd d0 :
  image pd root Ls (used T0 L0) v T L → ttbr0 v = K2P root →
  uspace v old root0 T0 L0 Ls → own_tables v T0 Ls →
  pgdirs v !! pd = Some dpd → pgdirs v !! old = Some d0 → pt d0 = root0 → old ≠ cur → pd ≠ cur →
  ∃ v1 v2 v3, copy_pgdir cur pd v = Ok (tt, v1) ∧ attach_pgdir ip0 cur v1 = Ok (tt, v2) ∧
    free_pgdir old v2 = Ok (tt, v3) ∧ uspace v3 cur root T L Ls ∧ ttbr0 v3 = K2P root ∧
    (∀ x, 0 ≤ x < USERTOP → user_byte v3 x = user_byte v x) ∧
    (∀ pre p, T0 !! pre = Some p → p ∈ pages (kmem v3)).
Proof.
  intros I Et U O Epd Eold Er Hoc Hpc. pose proof (im_space _ _ _ _ _ _ _ I) as Un.
  assert (pt dpd = root) as Erp by (destruct (sp_pd _ _ _ _ _ (us_space _ _ _ _ _ _ Un)) as (x & Ex & <-); congruence).
  set (v1 := upd_pgdirs <[cur := dpd]> v). set (v2 := set_ttbr0 (K2P root) v1).
  assert (image pd root Ls (used T0 L0) v2 T L) as I2.
  { apply (image_ttbr0 pd root Ls (used T0 L0) v1). apply (image_pgdirs v pd pd); [done|].
    exists dpd. split; [by rewrite lookup_insert_ne|done]. }
  assert (uspace v2 old root0 T0 L0 Ls) as U2.
  { apply (uspace_ttbr0 _ _ _ v1). apply (uspace_pgdirs v old old); [done|].
    exists d0. split; [by rewrite lookup_insert_ne|done]. }
  assert (tree_inv v2 root0 T0) as It by apply U2.
  destruct O as [O1 O2 O3 O4].
  destruct (free_pgdir_run v2 root0 T0 Ls It O1 O2 O3 O4 old d0) as (l & v3 & Ef & Fd & Hl);
    [by simpl; rewrite lookup_insert_ne|done|apply U2|].
  destruct (freed_space v2 root0 T0 L0 Ls l v3 pd root T L It Fd I2) as [U3 Hc3].
  assert (ttbr0 v3 = K2P root) as Et3 by by rewrite (proj2 (proj2 (fd_regs _ _ _ _ _ Fd))).
  set (v4 := upd_pgdirs <[old := set_pt 0 d0]> v3).
  assert (uspace v4 cur root T L Ls) as U4.
  { apply (uspace_pgdirs v3 pd cur); [done|]. exists dpd. split; [|done].
    rewrite lookup_insert_ne, (proj1 (fd_regs _ _ _ _ _ Fd)) by done. apply lookup_insert_eq. }
  exists v1, v2, v4. split_and!; [by apply copy_pgdir_run| |done|done|done| |].
  - unfold attach_pgdir, get_pgdir. rewrite (bind_Ok _ _ v1 dpd v1) by (apply getopt_run, lookup_insert_eq).
    pose proof (space_root _ _ _ _ _ (us_space _ _ _ _ _ _ Un)). by rewrite Erp, (proj2 (Z.eqb_neq root 0)).
  - intros x Hx. rewrite (user_byte_content v4 cur root T L Ls x U4 Et3 Hx), (user_byte_content v pd root T L Ls x Un Et Hx).
    change (content v4 L (x / 4096)) with (content v3 L (x / 4096)). by rewrite Hc3 by by apply page_number.
  - intros pre p Hp. change (p ∈ pages (kmem v3)). rewrite (fd_pages _ _ _ _ _ Fd), elem_of_app. left. apply Hl. by exists pre.
Qed.

(** The new address space, still empty, is given up; the process keeps its own. *)
Lemma discard_run cur old pd root root0 T0 L0 Ls v d0 :
  image pd root Ls (used T0 L0) v {[[] := root]} (λ _, None) → uspace v old root0 T0 L0 Ls → ttbr0 v = K2P root0 →
  own_tables v {[[] := root]} Ls → pgdirs v !! old = Some d0 → pt d0 = root0 → pd ≠ old →
  ∃ v1 v2, free_pgdir pd v = Ok (tt, v1) ∧ copy_pgdir cur old v1 = Ok (tt, v2) ∧
    uspace v2 cur root0 T0 L0 Ls ∧ ttbr0 v2 = K2P root0 ∧
    (∀ x, 0 ≤ x < USERTOP → user_byte v2 x = user_byte v x) ∧ (∀ q, q ∈ pages (kmem v2) ↔ q = root ∨ q ∈ pages (kmem v)).
Proof.
  intros I U Et [O1 O2 O3 O4] Eold Er Hpo.
  destruct (im_space _ _ _ _ _ _ _ I) as [[It (dpd & Edpd & Erpd) _] Hpool Hfree _].
  destruct (free_pgdir_run v root _ Ls It O1 O2 O3 O4 pd dpd Edpd Erpd Hpool) as (l & v1 & Ef & Fd & Hl).
  assert (∀ q, q ∈ l ↔ q = root) as Hlr.
  { intros q. rewrite Hl. split; [|intros ->; by exists []; rewrite lookup_singleton_eq].
    by intros [pre [_ <-]%lookup_singleton_Some]. }
  assert (∀ q, used T0 L0 q → q ≠ root) as Hne.
  { intros q Hq ->. destruct (im_foreign _ _ _ _ _ _ _ I root Hq) as (_ & Ha & _). apply (Ha []), lookup_singleton_eq. }
  assert (∀ q, used T0 L0 q → frames v1 !! q = frames v !! q) as Hf.
  { intros q Hq. apply (fd_frames _ _ _ _ _ Fd). rewrite <-Hl, Hlr. by apply Hne. }
  assert (∀ q, q ∈ pages (kmem v1) ↔ q = root ∨ q ∈ pages (kmem v)) as Hpg.
  { intros q. by rewrite (fd_pages _ _ _ _ _ Fd), elem_of_app, Hlr. }
  set (v2 := upd_pgdirs <[pd := set_pt 0 dpd]> v1). set (v3 := upd_pgdirs <[cur := d0]> v2).
  assert (uspace v3 cur root0 T0 L0 Ls) as U3.
  { eapply (uspace_kept v v3 old cur); [exact U|apply Fd| | |].
    - intros q Hq. split; [by apply Hf|]. change (kmem v3) with (kmem v1). rewrite Hpg.
      destruct (used_ram old root0 T0 L0 Ls v q U Hq). intros [?|?]; [by apply (Hne q)|done].
    - intros q. change (kmem v3) with (kmem v1). rewrite Hpg. intros [->|Hq].
      + destruct (tr_page _ _ _ It [] root (tr_root _ _ _ It)) as (_ & _ & _ & f & Hfr). by eapply (fd_there _ _ _ _ _ Fd).
      + destruct (Hfree q Hq) as [f Hfr]. by eapply (fd_there _ _ _ _ _ Fd).
    - exists d0. split; [apply lookup_insert_eq|done]. }
  assert (ttbr0 v3 = K2P root0) as Et3 by by rewrite <-Et, <-(proj2 (proj2 (fd_regs _ _ _ _ _ Fd))).
  exists v2, v3. split_and!; [done| |done|done| |exact Hpg].
  - apply copy_pgdir_run. simpl. rewrite lookup_insert_ne by done. by rewrite (proj1 (fd_regs _ _ _ _ _ Fd)).
  - intros x Hx. rewrite (user_byte_content v3 cur root0 T0 L0 Ls x U3 Et3 Hx), (user_byte_content v old root0 T0 L0 Ls x U Et Hx).
    by rewrite (content_kept v v3 old root0 T0 L0 Ls _ U (page_number x Hx) Hf).
Qed.

(** ** The inode of the program *)

Section inode.
Context {C : Type} `{BlockLogLaws C} (sblock : SuperBlock).

Lemma upd_imem_twice a x y (t : itree C) : upd_imem <[a := x]> (upd_imem <[a := y]> t) = upd_imem <[a := x]> t.
Proof. destruct t. unfold upd_imem. simpl. by rewrite insert_insert_eq. Qed.

Lemma set_ilock_same i : lock i = mkSem 1 [] → set_ilock (mkSem 1 []) i = i.
Proof. destruct i. simpl. by intros ->. Qed.

(** giving back a reference of a file that has a name *)
Lemma inode_put_run ctx a i (t : itree C) :
  imem t !! a = Some i → lock i = mkSem 1 [] → num_links (entry i) ≠ 0 →
  inode_put sblock ctx a t = Ok (tt, upd_imem <[a := set_rc (snd (decrement_rc (rc i))) i]> t).
Proof.
  intros Ei El Hn. set (i1 := set_ilock (mkSem 0 []) i). set (i2 := set_rc (snd (decrement_rc (rc i))) i1).
  assert (∀ (x : Inode) (s : itree C), imem (upd_imem <[a := x]> s) !! a = Some x) as Hl by (intros x s; apply lookup_insert_eq).
  unfold inode_put.
  assert (sem_wait a t = Ok (tt, upd_imem <[a := i1]> t)) as Ew.
  { unfold sem_wait. rewrite (bind_Ok _ _ _ _ _ (ip_run _ _ _ Ei)), El.
    rewrite (bind_Ok _ _ _ _ _ (run_wait_free 1 t ltac:(lia))). cbv beta iota.
    by rewrite (bind_Ok _ _ _ _ _ (set_ip_run _ _ _ _ Ei)). }
  rewrite (bind_Ok _ _ _ _ _ Ew), (bind_Ok _ _ _ _ _ (set_ip_run _ _ _ _ (Hl i1 t))).
  change (set_rc _ i1) with i2. rewrite upd_imem_twice, (bind_Ok _ _ _ _ _ (ip_run _ _ _ (Hl i2 t))).
  change (num_links (entry i2)) with (num_links (entry i)). rewrite (proj2 (Z.eqb_neq _ 0) Hn), andb_false_r.
  unfold sem_post. rewrite (bind_Ok _ _ _ _ _ (ip_run _ _ _ (Hl i2 t))). change (lock i2) with (mkSem 0 []).
  rewrite (bind_Ok _ _ _ _ _ (run_post 0 _ ltac:(lia))). cbv beta iota.
  rewrite (set_ip_run _ _ _ _ (Hl i2 t)), upd_imem_twice. do 4 f_equal. destruct i. simpl in *. by rewrite El.
Qed.

(** what is asked of the headers depends on the entry only *)
Lemma headers_ok_entry `{elf} i i' hs : entry i' = entry i → ∀ sz first, headers_ok i sz first hs → headers_ok i' sz first hs.
Proof.
  intros E. induction hs as [|ph hs IH]; intros sz first; [done|]. cbn [headers_ok].
  destruct (p_type ph =? PT_LOAD); [|apply IH]. intros [[A B D F] Hok]. split; [|by apply IH]. split; try done. by rewrite E.
Qed.

(** from the open file to the end of the operation *)
Lemma close_run V ctx_addr a i (t : itree C) X k c :
  imem t !! a = Some i → 0 < rc i → lock i = mkSem 1 [] → num_links (entry i) ≠ 0 →
  let t' := with_cache c (upd_imem <[a := set_ilock (mkSem 0 []) i]> t) in
  bc_rep V ∅ c → bc_room c (Some ctx_addr) X k →
  ∃ t1 t2 t3 V', inode_unlock a t' = Ok (tt, t1) ∧ inode_put sblock (Some ctx_addr) a t1 = Ok (tt, t2) ∧
    lift (bl_end ctx_addr) t2 = Ok (tt, t3) ∧ bc_rep V' ∅ (cst t3) ∧ bl_idle (cst t3) ∧
    (∀ b, bc_block b → V' b = V b) ∧ imem t3 !! a = Some (set_rc (snd (decrement_rc (rc i))) i).
Proof.
  intros Ei Hr El Hn t' R Hrm. set (i1 := set_ilock (mkSem 0 []) i).
  assert (imem t' !! a = Some i1) as E1 by apply lookup_insert_eq.
  pose proof (inode_unlock_run a i1 t' E1 Hr eq_refl) as Eu.
  assert (set_ilock (mkSem 1 []) i1 = i) as Ei1 by (destruct i; simpl in *; by rewrite El). rewrite Ei1 in Eu.
  set (t1 := upd_imem <[a := i]> t') in *. assert (imem t1 !! a = Some i) as E2 by apply lookup_insert_eq.
  pose proof (inode_put_run (Some ctx_addr) a i t1 E2 El Hn) as Ep. set (i3 := set_rc _ i) in *. set (t2 := upd_imem <[a := i3]> t1) in *.
  destruct (bl_end_ok V c ctx_addr X k R Hrm) as (c3 & V' & Ee & R' & Hid & HV).
  exists t1, t2, (with_cache c3 t2), V'. split_and!; [done|done| |done|done| |].
  - by apply lift_run.
  - intros b Hb. by apply HV.
  - simpl. apply lookup_insert_eq.
Qed.
End inode.

(** ** [execve] *)

Section execve.
Context {C : Type} `{BlockLogLaws C} `{elf} (sblock : SuperBlock) (ctx_addr : Z).
Context (cpuid : nat) (ip0 cur old cwd : Z).
Notation st := (est C).

(** the path leads to the inode [a], a file with the blocks [V] *)
Record program (s : st) (name : list Z) (V : Z → list Z) (a : Z) (i : Inode) : Prop := {
  pr_cache : bc_rep V ∅ (cst (fi s)) ∧ bl_idle (cst (fi s));
  pr_name : ∀ c, bl_begin ctx_addr (cst (fi s)) = Ok (tt, c) → ∃ t,
    namei sblock cwd name (Some ctx_addr) (with_cache c (fi s)) = Ok (a, t) ∧ imem t !! a = Some i ∧
    bc_rep V ∅ (cst t) ∧ ∃ X k, bc_room (cst t) (Some ctx_addr) X k;
  pr_there : a ≠ 0 ∧ 0 < rc i ∧ lock i = mkSem 1 [] ∧ num_links (entry i) ≠ 0;
  pr_file : type (entry i) ≠ INODE_DEVICE ∧ covered V (entry i) }.

(** it is an executable file *)
Record executable (V : Z → list Z) (i : Inode) (ehdr : list Z) (hs : list (list Z)) : Prop := {
  ex_sizes : 0 ≤ sizeof_Ehdr < 2 ^ 32 ∧ 0 < sizeof_Phdr < 2 ^ 32;
  ex_ehdr : sizeof_Ehdr ≤ num_bytes (entry i) ∧ ehdr = file_bytes V (entry i) 0 (Z.to_nat sizeof_Ehdr);
  ex_magic : header_ok ehdr = true ∧ e_ident ehdr EI_CLASS = ELFCLASS64;
  ex_table : 0 ≤ e_phnum ehdr ∧ 0 ≤ e_phoff ehdr ∧ e_phoff ehdr + e_phnum ehdr * sizeof_Phdr ≤ num_bytes (entry i);
  ex_phdrs : hs = headers V i (Z.to_nat (e_phnum ehdr)) (e_phoff ehdr);
  ex_headers : headers_ok i 0 true hs }.

(** up to the ELF header, in the locked file *)
Lemma open_run s name V a i ehdr hs : program s name V a i → executable V i ehdr hs →
  ∃ c t t' c', lift (bl_begin ctx_addr) (fi s) = Ok (tt, with_cache c (fi s)) ∧
    namei sblock cwd name (Some ctx_addr) (with_cache c (fi s)) = Ok (a, t) ∧
    inode_lock a t = Ok (tt, t') ∧ t' = upd_imem <[a := set_ilock (mkSem 0 []) i]> t ∧ imem t !! a = Some i ∧
    inode_read sblock a 0 sizeof_Ehdr t' = Ok ((ehdr, sizeof_Ehdr), with_cache c' t') ∧
    bc_rep V ∅ c' ∧ (∃ X k, bc_room c' (Some ctx_addr) X k).
Proof.
  intros [[R Hid] Hname (Ha0 & Hrc & Hlk & Hln) [Hty Hcov]] [[[He0 He] _] [Hsz ->] _ _ _ _].
  destruct (bl_begin_ok V (cst (fi s)) ctx_addr R Hid) as (c & Eb & _). destruct (Hname c Eb) as (t & En & Ei & Rt & X & k & Hroom).
  pose proof (inode_lock_run a i t Ei Hrc Hlk) as El. set (i1 := set_ilock (mkSem 0 []) i) in *.
  assert (imem (upd_imem <[a := i1]> t) !! a = Some i1) as E1 by apply lookup_insert_eq.
  destruct (inode_read_run sblock V (upd_imem <[a := i1]> t) a i1 0 sizeof_Ehdr Rt E1 Hty Hcov) as [Hrd _]; [done|done|].
  destruct Hrd as (c' & Er & R' & Hc'); [change (entry i1) with (entry i); lia|]. change (entry i1) with (entry i) in Er.
  rewrite Z.min_l in Er by lia. exists c, t, (upd_imem <[a := i1]> t), c'. split_and!; [by apply lift_run|done|exact El|done|done|exact Er|done|].
  exists X, k. by apply Hc'.
Qed.

Lemma stack_ready_ext s s' sp A E : (∀ x, 0 ≤ x < USERTOP → user_byte s' x = user_byte s x) →
  total A + total E ≤ 2 ^ 31 → (length A ≤ 10)%nat → (length E ≤ 10)%nat → sp = stack_pointer A E →
  stack_ready s sp A E → stack_ready s' sp A E.
Proof using.
  intros Hx Ht HA HE -> [R1 R2 R3 R4]. destruct (stack_bounds A E Ht HA HE) as (Hsp & [Hn Htop] & _ & _ & Hsz).
  pose proof (total_pos A). pose proof (total_pos E). change (2 ^ 31) with 2147483648 in *. change (2 ^ 32) with 4294967296 in *.
  assert (∀ b ps strs, string_array (user_byte s) b ps strs → string_array (user_byte s') b ps strs) as Hs.
  { intros b ps strs. apply string_array_ext. intros x c Hxr. by rewrite Hx. }
  split.
  - intros k c Hk. pose proof (lookup_lt_Some _ _ _ Hk). rewrite length_le_enc in *. rewrite Hx; [by apply R1|unfold USERTOP in *; lia].
  - by apply Hs.
  - by apply Hs.
  - intros x Hxx. rewrite Hx; [by apply R4|unfold USERTOP in *; lia].
Qed.

(** the path leads nowhere ([a] is 0), or to a file that is no executable *)
Record no_program (s : st) (name : list Z) (V : Z → list Z) (a : Z) (i : Inode) : Prop := {
  np_cache : bc_rep V ∅ (cst (fi s)) ∧ bl_idle (cst (fi s));
  np_sizes : 0 ≤ sizeof_Ehdr < 2 ^ 32;
  np_name : ∀ c, bl_begin ctx_addr (cst (fi s)) = Ok (tt, c) → ∃ t,
    namei sblock cwd name (Some ctx_addr) (with_cache c (fi s)) = Ok (a, t) ∧ (a ≠ 0 → imem t !! a = Some i) ∧
    bc_rep V ∅ (cst t) ∧ ∃ X k, bc_room (cst t) (Some ctx_addr) X k;
  np_file : a ≠ 0 → 0 < rc i ∧ lock i = mkSem 1 [] ∧ num_links (entry i) ≠ 0 ∧
    type (entry i) ≠ INODE_DEVICE ∧ covered V (entry i);
  np_bad : a ≠ 0 → let ehdr := file_bytes V (entry i) 0 (Z.to_nat sizeof_Ehdr) in
    num_bytes (entry i) < sizeof_Ehdr ∨ header_ok ehdr = false ∨ e_ident ehdr EI_CLASS ≠ ELFCLASS64 }.

(** what [exec_bad] does once its parts are known *)
Lemma bad_run pd x v v1 v2 (t t' : itree C) u : pd ≠ 0 →
  free_pgdir pd v = Ok (tt, v1) → copy_pgdir cur old v1 = Ok (tt, v2) →
  (x = 0 → t' = t) → (x ≠ 0 → ∃ t1 t2, inode_unlock x t = Ok (tt, t1) ∧
    inode_put sblock (Some ctx_addr) x t1 = Ok (tt, t2) ∧ lift (bl_end ctx_addr) t2 = Ok (tt, t')) →
  exec_bad sblock ctx_addr cur old pd x (mkEst v t u) = Ok (-1, mkEst v2 t' u).
Proof using.
  intros Hpd E1 E2 Hx0 Hx. unfold exec_bad. rewrite (proj2 (Z.eqb_neq pd 0)) by done. cbn [negb when].
  rewrite (bind_Ok _ _ _ _ _ (inv_run _ (mkEst v t u) _ _ E1)). destruct (Z.eqb_spec x 0) as [->|Hne]; cbn [negb when].
  - rewrite (bind_Ok _ _ _ tt (mkEst v1 t u)) by done.
    rewrite (bind_Ok _ _ _ _ _ (inv_run _ (mkEst v1 t u) _ _ E2)). by rewrite Hx0.
  - destruct (Hx Hne) as (t1 & t2 & K1 & K2 & K3). rewrite !bind_assoc.
    rewrite (bind_Ok _ _ _ _ _ (infi_run _ (put_mv v1 (mkEst v t u)) _ _ K1)), bind_assoc.
    rewrite (bind_Ok _ _ _ _ _ (infi_run _ (mkEst v1 t1 u) _ _ K2)).
    rewrite (bind_Ok _ _ _ _ _ (infi_run _ (mkEst v1 t2 u) _ _ K3)).
    by rewrite (bind_Ok _ _ _ _ _ (inv_run _ (mkEst v1 t' u) _ _ E2)).
Qed.

(** the outcome of the file operation *)
Definition operation_over V a i (t : itree C) : Prop :=
  ∃ V', bc_rep V' ∅ (cst t) ∧ bl_idle (cst t) ∧ (∀ b, bc_block b → V' b = V b) ∧
    (a ≠ 0 → imem t !! a = Some (set_rc (snd (decrement_rc (rc i))) i)).

(** up to [bad:] *)
Lemma reject_run s v3 name V a i path pd v4 v5 argv envp : no_program s name V a i →
  string_at (user_byte v3) path name → pd ≠ 0 → free_pgdir pd v3 = Ok (tt, v4) → copy_pgdir cur old v4 = Ok (tt, v5) →
  ∃ t', (infi (lift (bl_begin ctx_addr));;
     name ← inv (user_string path);
     ip ← infi (namei sblock cwd name (Some ctx_addr));
     if (ip =? 0 : bool) then infi (lift (bl_end ctx_addr));; exec_bad sblock ctx_addr cur old pd 0
     else
       infi (inode_lock ip);;
       '(ehdr, n) ← infi (inode_read sblock ip 0 sizeof_Ehdr);
       if (negb (n =? sizeof_Ehdr) : bool) then exec_bad sblock ctx_addr cur old pd ip
       else if (negb (header_ok ehdr) : bool) then exec_bad sblock ctx_addr cur old pd ip
       else if (negb (e_ident ehdr EI_CLASS =? ELFCLASS64) : bool) then exec_bad sblock ctx_addr cur old pd ip
       else exec_image sblock ctx_addr ip0 cur old pd ip argv envp ehdr) (mkEst v3 (fi s) (ucontext s)) =
      Ok (-1, mkEst v5 t' (ucontext s)) ∧ operation_over V a i t'.
Proof using.
  intros [[R Hid] [Hs0 Hs] Hname Hfile Hbad] Hpath Hpd E4 E5.
  destruct (bl_begin_ok V (cst (fi s)) ctx_addr R Hid) as (c & Eb & _).
  destruct (Hname c Eb) as (t & En & Ei & Rt & X & k & Hroom). set (u := ucontext s).
  pose proof (lift_run (bl_begin ctx_addr) (fi s) tt c Eb) as Fb.
  rewrite (bind_Ok _ _ _ _ _ (infi_run _ (mkEst v3 (fi s) u) _ _ Fb)). set (t1 := with_cache c (fi s)) in *.
  rewrite (bind_Ok _ _ _ _ _ (inv_run _ (mkEst v3 t1 u) _ _ (user_string_run v3 path name Hpath))).
  rewrite (bind_Ok _ _ _ _ _ (infi_run _ (mkEst v3 t1 u) _ _ En)). destruct (Z.eqb_spec a 0) as [->|Ha].
  - destruct (bl_end_ok V (cst t) ctx_addr X k Rt Hroom) as (c2 & V' & Ee & R' & Hid' & HV).
    pose proof (lift_run (bl_end ctx_addr) t tt c2 Ee) as Fe.
    rewrite (bind_Ok _ _ _ _ _ (infi_run _ (mkEst v3 t u) _ _ Fe)). exists (with_cache c2 t). split.
    + by apply (bad_run pd 0 v3 v4 v5).
    + exists V'. split_and!; [done|done| |done]. intros b Hb. by apply HV.
  - destruct (Hfile Ha) as (Hrc & Hlk & Hln & Hty & Hcov). specialize (Ei Ha). specialize (Hbad Ha). cbv zeta in Hbad.
    pose proof (inode_lock_run a i t Ei Hrc Hlk) as El. set (i1 := set_ilock (mkSem 0 []) i) in *. set (t2 := upd_imem <[a := i1]> t) in *.
    assert (imem t2 !! a = Some i1) as Ei1 by apply lookup_insert_eq.
    destruct (inode_read_run sblock V t2 a i1 0 sizeof_Ehdr Rt Ei1 Hty Hcov) as [Hrd _]; [done|done|].
    destruct Hrd as (c' & Er & R' & Hc'); [apply Hcov|]. change (entry i1) with (entry i) in Er. rewrite Z.sub_0_r in Er.
    rewrite (bind_Ok _ _ _ _ _ (infi_run _ (mkEst v3 t u) _ _ El)).
    rewrite (bind_Ok _ _ _ _ _ (infi_run _ (mkEst v3 t2 u) _ _ Er)). cbv beta iota.
    destruct (close_run sblock V ctx_addr a i t X k c' Ei Hrc Hlk Hln R' (Hc' _ _ _ Hroom)) as (t6 & t7 & t8 & V' & J1 & J2 & J3 & J4 & J5 & J6 & J7).
    exists t8. split; [|by exists V'].
    assert (exec_bad sblock ctx_addr cur old pd a (mkEst v3 (with_cache c' t2) u) = Ok (-1, mkEst v5 t8 u)) as Eb'.
    { apply (bad_run pd a v3 v4 v5); [done|done|done|done|]. intros _. by exists t6, t7. }
    change (put_fi (with_cache c' t2) (mkEst v3 t2 u)) with (mkEst v3 (with_cache c' t2) u).
    destruct (Z.eqb_spec (Z.min sizeof_Ehdr (num_bytes (entry i))) sizeof_Ehdr) as [Hm|Hm]; cbn [negb]; [|exact Eb'].
    rewrite Hm. destruct (header_ok _) eqn:Eh; cbn [negb]; [|exact Eb'].
    destruct (Z.eqb_spec (e_ident (file_bytes V (entry i) 0 (Z.to_nat sizeof_Ehdr)) EI_CLASS) ELFCLASS64) as [Ec|Ec];
      cbn [negb]; [|exact Eb'].
    destruct Hbad as [Hlt|[Hh|Hc]]; [lia|congruence|done].
Qed.

(** C25: a call of [execve] whose path leads nowhere, or to a file that is too short for an ELF
    header or does not start with one for 64 bits, returns -1 and leaves the process its program:
    the same memory, the same registers; the operation on the file system is over, and the
    reference to the file is given back with its lock. *)
Theorem execve_rejects s root0 T0 L0 Ls name V a i path argv envp :
  caller cpuid cur old (mv s) root0 T0 L0 Ls → (3 ≤ length (pages (kmem (mv s))))%nat →
  string_at (user_byte (mv s)) path name → no_program s name V a i →
  ∃ s' Ls', execve sblock ctx_addr cpuid ip0 cur old cwd path argv envp s = Ok (-1, s') ∧
    ucontext s' = ucontext s ∧ uspace (mv s') cur root0 T0 L0 Ls' ∧ ttbr0 (mv s') = K2P root0 ∧
    (∀ x, 0 ≤ x < USERTOP → user_byte (mv s') x = user_byte (mv s) x) ∧
    operation_over V a i (fi s').
Proof using.
  intros Ca Hn Hpath Hnp.
  destruct (setup_run cpuid cur old (mv s) root0 T0 L0 Ls Ca Hn)
    as (v1 & pd & v2 & v3 & root & Ls2 & E1 & E2 & E3 & Hpd0 & Hpc & Hpo & I3 & U3 & _ & On3 & _ & Et3 & (d0 & Ed0 & Er0) & _ & Hb3).
  assert (ttbr0 v3 = K2P root0) as Et by (rewrite Et3; apply Ca).
  destruct (discard_run cur old pd root root0 T0 L0 Ls2 v3 d0 I3 U3 Et On3 Ed0 Er0 Hpo) as (v4 & v5 & E4 & E5 & U5 & Et5 & Hb5 & _).
  assert (string_at (user_byte v3) path name) as Hpath3.
  { destruct Hpath as (P1 & P2 & P3 & P4). split_and!; try done. eapply bytes_at_mono; [|exact P4].
    intros x. rewrite length_app. simpl. intros Hx. apply Hb3. lia. }
  destruct (reject_run s v3 name V a i path pd v4 v5 argv envp Hnp Hpath3 Hpd0 E4 E5) as (t' & Er & Hop).
  exists (mkEst v5 t' (ucontext s)), Ls2. split_and!; [|done|done|done| |done].
  - unfold execve. rewrite (bind_Ok _ _ _ _ _ (inv_run _ s _ _ E1)), (bind_Ok _ _ _ _ _ (inv_run _ (put_mv v1 s) _ _ E2)).
    rewrite (bind_Ok _ _ _ _ _ (inv_run _ (put_mv v2 (put_mv v1 s)) _ _ E3)). rewrite (proj2 (Z.eqb_neq pd 0)) by done. exact Er.
  - intros x Hx. by rewrite Hb5, Hb3.
Qed.

(** everything up to the stack: what is left to run, and what it will find *)
Lemma loaded_run s root0 T0 L0 Ls name V a i ehdr hs path argv envp args envs :
  caller cpuid cur old (mv s) root0 T0 L0 Ls →
  string_at (user_byte (mv s)) path name → program s name V a i → executable V i ehdr hs →
  argument (user_byte (mv s)) argv args → argument (user_byte (mv s)) envp envs →
  let A := take 10 args in let E := take 10 envs in
  total A + total E ≤ 2 ^ 31 →
  segments_cost 0 true hs + cost A + cost E + 59 ≤ Z.of_nat (length (pages (kmem (mv s)))) →
  let sp := stack_pointer A E in
  ∃ pd root dpd d0 T L Ls' v5 v7 t8,
    execve sblock ctx_addr cpuid ip0 cur old cwd path argv envp s =
      (sp ← inv (build_stack ip0 pd argv envp); inv (copy_pgdir cur pd);; modify (set_elr_sp (e_entry ehdr) sp);;
       attach ip0 cur;; inv (free_pgdir old);; mret 0) (mkEst v5 t8 (ucontext s)) ∧
    build_stack ip0 pd argv envp v5 = (assert (USERTOP - stack_size A E <? sp);; mret sp) v7 ∧
    image pd root Ls' (used T0 L0) v7 T L ∧ ttbr0 v7 = K2P root ∧ uspace v7 old root0 T0 L0 Ls' ∧ own_tables v7 T0 Ls' ∧
    (pgdirs v7 !! pd = Some dpd ∧ pt dpd = root ∧ pgdirs v7 !! old = Some d0 ∧ pt d0 = root0 ∧ pd ≠ cur) ∧
    stack_ready v7 sp A E ∧
    Forall (λ ph, p_type ph = PT_LOAD → user_range (p_vaddr ph) (length (segment_bytes V i ph)) ∧
      bytes_at (user_byte v7) (p_vaddr ph) (segment_bytes V i ph)) hs ∧
    operation_over V a i t8.
Proof.
  intros Ca Hpath Hpr Hex Ha He A E Htot Hroom sp.
  pose proof Hpr as [_ _ (Ha0 & Hrc & Hlk & Hln) [Hty Hcov]]. pose proof Hex as [[_ Hph] _ [Hmag Hcls] (Hpn0 & Hpo0 & Hpt) Hhs Hok].
  pose proof (segments_cost_pos i _ _ _ Hok) as Hc0. pose proof (cost_pos A). pose proof (cost_pos E).
  destruct (setup_run cpuid cur old (mv s) root0 T0 L0 Ls Ca ltac:(lia))
    as (v1 & pd & v2 & v3 & root & Ls2 & E1 & E2 & E3 & Hpd0 & Hpc & Hpo & I3 & U3 & O3 & _ & Rm3 & Et3 & (d0 & Ed0 & Er0) & Hcur3 & Hb3).
  destruct (open_run s name V a i ehdr hs Hpr Hex) as (c1 & t2 & t3 & c4 & F1 & F2 & F3 & -> & Ei & F4 & R4 & X & k & Hr4).
  set (i1 := set_ilock (mkSem 0 []) i) in *. set (t3 := upd_imem <[a := i1]> t2) in *.
  destruct (im_space _ _ _ _ _ _ _ I3) as [[_ (dpd & Edpd & Erpd) _] _ _ _].
  (* the directory of the process becomes a copy of the new one *)
  set (v4 := upd_pgdirs <[cur := dpd]> v3).
  set (s4 := mkEst v4 (with_cache c4 t3) (ucontext s)).
  assert (pgdirs v4 !! pd = Some dpd) as Edpd4 by (simpl; by rewrite lookup_insert_ne).
  assert (pgdirs v4 !! old = Some d0) as Eold4 by (simpl; by rewrite lookup_insert_ne by (intros ->; by destruct Ca)).
  assert (image pd root Ls2 (used T0 L0) v4 {[[] := root]} (λ _, None)) as I4 by (apply (image_pgdirs v3 pd pd); eauto).
  assert (uspace v4 old root0 T0 L0 Ls2) as U4 by (apply (uspace_pgdirs v3 old old); eauto).
  assert (∀ x, 0 ≤ x < USERTOP → user_byte (mv s) x = user_byte v4 x) as Hm4 by (intros x Hx; by rewrite <-Hb3).
  assert (ttbr0 v4 = K2P root0) as Et4 by (change (ttbr0 v4) with (ttbr0 v3); rewrite Et3; apply Ca).
  subst hs.
  destruct (program_run sblock ip0 old pd root root0 T0 L0 Ls2 V a i1 Hty Hcov Hph s4 _ (λ _, None)
    (Z.to_nat (e_phnum ehdr)) (e_phoff ehdr) argv envp args envs (user_byte (mv s)) I4 ltac:(done) U4 Et4 R4)
    as (v5 & c5 & v7 & T7 & L7 & G1 & R5 & Hr5 & G2 & G3 & I7 & Et7 & (kk & Gr7) & Rd7 & Sg7);
    [apply lookup_insert_eq|done|change (entry i1) with (entry i); lia|by apply (headers_ok_entry i i1)|done|done|done|done| |].
  { change (kmem (mv s4)) with (kmem v3). change (headers V i1) with (headers V i). change (Z.to_nat MAXARG) with 10%nat. fold A E. lia. }
  change (Z.to_nat MAXARG) with 10%nat in G3, Rd7. fold A E in G3, Rd7. fold sp in G3, Rd7. change (mv s4) with v4 in Gr7.
  change (headers V i1) with (headers V i) in Sg7. change (segment_bytes V i1) with (segment_bytes V i) in Sg7.
  destruct (close_run sblock V ctx_addr a i t2 X k c5 Ei Hrc Hlk Hln R5 (Hr5 _ _ _ Hr4))
    as (t6 & t7 & t8 & V' & J1 & J2 & J3 & J4 & J5 & J6 & J7). fold i1 in J1. fold t3 in J1.
  set (s5 := mkEst v5 (with_cache c5 (fi s4)) (ucontext s)). set (s6 := mkEst (set_ttbr0 (K2P root0) v5) t8 (ucontext s)).
  (* the run, as far as the stack *)
  assert (execve sblock ctx_addr cpuid ip0 cur old cwd path argv envp s =
    (sp ← inv (build_stack ip0 pd argv envp); inv (copy_pgdir cur pd);; modify (set_elr_sp (e_entry ehdr) sp);;
     attach ip0 cur;; inv (free_pgdir old);; mret 0) s6) as Erun.
  { unfold execve. rewrite (bind_Ok _ _ _ _ _ (inv_run _ s _ _ E1)).
    rewrite (bind_Ok _ _ _ _ _ (inv_run _ (put_mv v1 s) _ _ E2)).
    rewrite (bind_Ok _ _ _ _ _ (inv_run _ (put_mv v2 (put_mv v1 s)) _ _ E3)). rewrite (proj2 (Z.eqb_neq pd 0)) by done.
    set (s3 := put_mv v3 _). rewrite (bind_Ok _ _ _ _ _ (infi_run _ s3 _ _ F1)). set (s3' := put_fi _ s3).
    assert (string_at (user_byte v3) path name) as Hpath3.
    { destruct Hpath as (P1 & P2 & P3 & P4). split_and!; try done. eapply bytes_at_mono; [|exact P4].
      intros x. rewrite length_app. simpl. intros Hx. apply Hb3. lia. }
    rewrite (bind_Ok _ _ _ _ _ (inv_run _ s3' _ _ (user_string_run v3 path name Hpath3))).
    rewrite (bind_Ok _ _ _ _ _ (infi_run _ (put_mv v3 s3') _ _ F2)). rewrite (proj2 (Z.eqb_neq a 0)) by done.
    erewrite bind_Ok by (apply infi_run; exact F3). erewrite bind_Ok by (apply infi_run; exact F4). cbv beta iota.
    rewrite Z.eqb_refl, Hmag, Hcls, Z.eqb_refl. cbn [negb]. unfold exec_image.
    erewrite bind_Ok by (apply inv_run, (copy_pgdir_run cur pd dpd v3 Edpd)).
    rewrite (bind_Ok _ _ s4 tt s5) by exact G1.
    rewrite (bind_Ok _ _ _ _ _ (infi_run _ s5 _ _ J1)). rewrite (bind_Ok _ _ _ _ _ (infi_run _ (put_fi t6 s5) _ _ J2)).
    rewrite (bind_Ok _ _ _ _ _ (infi_run _ (put_fi t7 (put_fi t6 s5)) _ _ J3)).
    by rewrite (bind_Ok _ _ _ _ _ (inv_run _ (put_fi t8 (put_fi t7 (put_fi t6 s5))) _ _ G2)). }
  destruct (gr_regs _ _ _ _ Gr7) as (Gp & _ & _). change (pgdirs (set_ttbr0 _ v7)) with (pgdirs v7) in Gp.
  destruct (old_space_grown old pd root root0 T0 L0 Ls2 kk v4 v7 T7 L7 (K2P root) U4 I7 Gr7) as [U7 _].
  assert (set_ttbr0 (K2P root) v7 = v7) as E7 by (rewrite <-Et7; by destruct v7). rewrite E7 in U7.
  assert (own_tables v7 T0 Ls2) as O7.
  { apply (own_tables_kept v3 v7 T0 Ls2 Ls2 O3); [apply U3|apply U7|apply Gr7|apply Gr7| |].
    - intros x Hx. exists x. auto.
    - intros pre p Hp. assert (used T0 L0 p) as Hu by (left; by exists pre).
      destruct (used_ram old root0 T0 L0 Ls2 v3 p U3 Hu) as [? ?]. split_and!; [done|done|by apply (gr_refs _ _ _ _ Gr7)|by apply (gr_frames _ _ _ _ Gr7)]. }
  exists pd, root, dpd, d0, T7, L7, Ls2, (set_ttbr0 (K2P root0) v5), v7, t8. rewrite Gp.
  split_and!; first [done|exact Erun|exact G3|by exists V'|apply Ca].
Qed.

(** C4: [execve] replaces the program.  A process calls it with the path of an executable: a file
    with an ELF header and a table of program headers, whose segments to load follow each other
    in memory, below 2^31 and within the file, the first at a page boundary; there are pages
    enough.  The call returns 0; the process has a new address space in force, in which every
    segment is there byte for byte with zeros up to its size in memory; the stack holds [argc],
    the argument strings and the environment (ten of each at most) as [build_stack_correct] says;
    the trap frame continues at the entry point with that stack pointer; the tables of the old
    address space are back in the pool; the file system operation is over with the same disk
    blocks, and the reference to the file is given back with its lock.  If the stack comes to
    exactly a multiple of ten pages, the call panics instead. *)
Theorem execve_correct s root0 T0 L0 Ls name V a i ehdr hs path argv envp args envs :
  caller cpuid cur old (mv s) root0 T0 L0 Ls →
  string_at (user_byte (mv s)) path name → program s name V a i → executable V i ehdr hs →
  argument (user_byte (mv s)) argv args → argument (user_byte (mv s)) envp envs →
  let A := take 10 args in let E := take 10 envs in
  total A + total E ≤ 2 ^ 31 →
  segments_cost 0 true hs + cost A + cost E + 59 ≤ Z.of_nat (length (pages (kmem (mv s)))) →
  let sp := stack_pointer A E in
  if (USERTOP - sp) mod 40960 =? 0 then execve sblock ctx_addr cpuid ip0 cur old cwd path argv envp s = Panic
  else ∃ s' root T L Ls', execve sblock ctx_addr cpuid ip0 cur old cwd path argv envp s = Ok (0, s') ∧
    u_elr (ucontext s') = e_entry ehdr ∧ u_sp (ucontext s') = sp ∧
    uspace (mv s') cur root T L Ls' ∧ ttbr0 (mv s') = K2P root ∧
    Forall (λ ph, p_type ph = PT_LOAD → bytes_at (user_byte (mv s')) (p_vaddr ph) (segment_bytes V i ph)) hs ∧
    stack_ready (mv s') sp A E ∧
    (∀ pre p, T0 !! pre = Some p → p ∈ pages (kmem (mv s'))) ∧
    operation_over V a i (fi s').
Proof.
  intros Ca Hpath Hpr Hex Ha He A E Htot Hroom sp.
  destruct (loaded_run s root0 T0 L0 Ls name V a i ehdr hs path argv envp args envs Ca Hpath Hpr Hex Ha He Htot Hroom)
    as (pd & root & dpd & d0 & T7 & L7 & Ls2 & v5 & v7 & t8 & Erun & G3 & I7 & Et7 & U7 & O7 & (Epd & Hpd & Eold & Hold & Hne) & Rd7 & Sg7 & Hop).
  fold A E in G3, Rd7. fold sp in G3, Rd7. set (s6 := mkEst v5 t8 (ucontext s)) in *.
  rewrite Erun. assert (length A ≤ 10 ∧ length E ≤ 10)%nat as [HA HE] by (unfold A, E; rewrite !length_take; lia).
  destruct (stack_bounds A E Htot HA HE) as (_ & _ & _ & _ & Hsz). fold sp in Hsz. cbv zeta in Hsz.
  destruct (Z.eqb_spec ((USERTOP - sp) mod 40960) 0) as [Hz|Hnz].
  { assert (build_stack ip0 pd argv envp (mv s6) = Panic) as Ep.
    { etrans; [exact G3|]. erewrite bind_Panic; [done|]. apply assert_fail, Z.ltb_ge. unfold stack_size in *. fold sp in Hsz |- *. zmod. }
    erewrite bind_Panic; [done|]. unfold inv, on. by rewrite Ep. }
  assert (build_stack ip0 pd argv envp (mv s6) = Ok (sp, v7)) as Es.
  { etrans; [exact G3|]. erewrite bind_Ok; [done|]. apply assert_run, Z.ltb_lt. unfold stack_size in *. fold sp in Hsz |- *. zmod. }
  destruct (replace_run ip0 cur old pd root root0 T0 L0 Ls2 v7 T7 L7 dpd d0 I7 Et7 U7 O7) as (v8 & v9 & v10 & K1 & K2 & K3 & U10 & Et10 & Hb10 & Hfree);
    [done|done|done|apply Ca|done|].
  exists (set_elr_sp (e_entry ehdr) sp (mkEst v10 t8 (ucontext s))), root, T7, L7, Ls2. split_and!; [|done|done|done|done| | |exact Hfree|].
  - rewrite (bind_Ok _ _ _ _ _ (inv_run _ s6 _ _ Es)). erewrite bind_Ok by (apply inv_run; exact K1).
    erewrite bind_Ok by apply modify_run. unfold attach. erewrite bind_Ok by (apply inv_run; exact K2).
    by erewrite bind_Ok by (apply inv_run; exact K3).
  - eapply Forall_impl; [exact Sg7|]. intros ph Hseg Hload. destruct (Hseg Hload) as [[Hr1 Hr2] Hb].
    eapply bytes_at_mono; [|exact Hb]. intros x Hx. apply Hb10. lia.
  - by apply (stack_ready_ext v7).
  - exact Hop.
Qed.
End execve.
