(* ===== verification/ExecDemo.v ===== *)
(** * A concrete process that calls [execve], and the witnesses of [Stack] and [ExecSpec] *)

From Stdlib Require Import ZArith Lia.
From S2P Require Import Prelude Triple Words Sync Mmu KernelPt Mem MemSpec Pt PtSpec.
From S2P Require Import Cache CacheSpec CacheLog CacheAlloc CacheOps Paging PagingSpec.
From S2P Require Import Layout BlockCache Inode InodeSpec InodeWrite File FileSpec Trap Exec Image Stack Spaces Segments ExecSpec.

(** ** The memory: one page of user memory, mapped at 0 *)

(** It holds the path ["/"] at 0, and the string ["a"] at 32 with an array of one pointer to it
    at 16. *)
Definition user_frame : list Z :=
  [47] ++ replicate 15 0 ++ le_enc 8 32 ++ le_enc 8 0 ++ [97] ++ replicate 4063 0.

(** a table with the first entry *)
Definition table (e : Z) : list Z := le_enc 8 e ++ replicate 4088 0.
Definition link (i : Z) : Z := Z.lor (K2P (page_ i)) PTE_TABLE.

Definition demo_list : list (list Z * Z) :=
  [([], page_ 0); ([0], page_ 2001); ([0; 0], page_ 2002); ([0; 0; 0], page_ 2003)].
(** the tables with their first entries *)
Definition proc_entries : list (Z * Z) :=
  [(0, link 2001); (2001, link 2002); (2002, link 2003); (2003, UD (page_ 2004))].
Definition proc_tables : gmap (list Z) Z := list_to_map demo_list.
Definition proc_frames : gmap Z (list Z) :=
  <[page_ 0 := table (link 2001)]> (<[page_ 2001 := table (link 2002)]> (<[page_ 2002 := table (link 2003)]>
    (<[page_ 2003 := table (UD (page_ 2004))]> (<[page_ 2004 := user_frame]> demo_frames)))).
Definition proc_refs : gmap Z Z := list_to_map (map (λ i, (ref_index (page_ i), 1)) [0; 2001; 2002; 2003; 2004]).
Definition proc_mem : mem := mkMem 6 false proc_refs (page_ 2000) 1106 spare [0; 0; 0; 0] ∅.
Definition proc_vm : vm :=
  mkVm proc_mem proc_frames {[8 := demo_pgdir]} {[16 := demo_section]} (K2P (page_ 0)).
Definition proc_entry (v : Z) : option Z :=
  if decide (0 ≤ v < 512) then Some (if v =? 0 then UD (page_ 2004) else 0) else None.
Definition no_chunks : list (list Z) := [[]; []; []; []].

Lemma table_frame e : 0 ≤ e < 2 ^ 64 → length (table e) = 4096%nat ∧ bytes (table e).
Proof.
  intros He. unfold table. rewrite length_app, length_le_enc, length_replicate. split; [done|].
  apply bytes_app. split; [apply bytes_le_enc|apply bytes_replicate; by unfold is_byte].
Qed.

Lemma first_entry fr p e i : is_frame fr p (table e) → 0 ≤ e < 2 ^ 64 → 0 ≤ i < 512 →
  pte_of fr p i = Some (if i =? 0 then e else 0).
Proof.
  intros Hf He Hi. rewrite (pte_of_frame fr p (table e) i Hf Hi). f_equal. unfold table, sub.
  destruct (Z.eqb_spec i 0) as [->|Hn].
  - rewrite drop_0, take_app_le by done. rewrite take_ge by by rewrite length_le_enc. by apply le_dec_enc.
  - rewrite drop_app_ge by (rewrite length_le_enc; lia). rewrite length_le_enc, drop_replicate, take_replicate.
    replace (8 `min` (4088 - (8 * Z.to_nat i - 8)))%nat with 8%nat by lia. reflexivity.
Qed.

Lemma proc_table k e : (k, e) ∈ proc_entries →
  is_frame proc_frames (page_ k) (table e) ∧ 0 ≤ e < 2 ^ 64.
Proof.
  unfold proc_entries. intros Hk. assert (0 ≤ e < 2 ^ 64) as He by (set_unfold in Hk; destruct_or! Hk; simplify_eq; by_decision).
  split; [|done]. split; [|by apply table_frame]. unfold proc_frames.
  set_unfold in Hk. destruct_or! Hk; simplify_eq; repeat (rewrite lookup_insert_ne by done); apply lookup_insert_eq.
Qed.

#[local] Opaque demo_frames zero4096 table user_frame.

Lemma user_frame_ok : is_frame proc_frames (page_ 2004) user_frame.
Proof.
  split; [|split; [vm_compute; reflexivity|by_decision]].
  unfold proc_frames. repeat (rewrite lookup_insert_ne by done). apply lookup_insert_eq.
Qed.

Lemma proc_path pre p : proc_tables !! pre = Some p ↔ (pre, p) ∈ demo_list.
Proof. symmetry. apply elem_of_list_to_map. by_decision. Qed.

Lemma proc_table_at pre p : proc_tables !! pre = Some p → ∃ k e, p = page_ k ∧ (k, e) ∈ proc_entries ∧ (length pre ≤ 3)%nat ∧
  ((length pre < 3)%nat → e mod 4 = 3 ∧ proc_tables !! (pre ++ [0]) = Some (P2K (PTE_ADDRESS e))).
Proof.
  intros Hp%proc_path. unfold demo_list in Hp. rewrite !elem_of_cons in Hp.
  destruct_or! Hp; [| | | |by apply elem_of_nil in Hp]; injection Hp as -> ->.
  - exists 0, (link 2001). split_and!; [done|left|simpl; lia|]. intros _. split; [by_decision|vm_compute; reflexivity].
  - exists 2001, (link 2002). split_and!; [done|right; left|simpl; lia|]. intros _. split; [by_decision|vm_compute; reflexivity].
  - exists 2002, (link 2003). split_and!; [done|do 2 right; left|simpl; lia|]. intros _. split; [by_decision|vm_compute; reflexivity].
  - exists 2003, (UD (page_ 2004)). split_and!; [done|do 3 right; left|simpl; lia|simpl; lia].
Qed.

Lemma proc_page k e : (k, e) ∈ proc_entries → k ∈ [0; 2001; 2002; 2003; 2004].
Proof. unfold proc_entries. set_solver. Qed.

Lemma spare_frame p : p ∈ spare → ∃ f, is_frame proc_frames p f.
Proof.
  intros (i & -> & Hi)%list_elem_of_fmap. apply elem_of_zseq in Hi. exists zero4096.
  destruct (demo_frame i ltac:(lia)) as (F1 & F2). split; [|done]. unfold proc_frames.
  repeat (rewrite lookup_insert_ne by (intros E%page_inj; lia)). exact F1.
Qed.

Lemma spare_ram i : i ∈ [0; 2001; 2002; 2003; 2004] → ram_page (page_ i) ∧ page_ i ∉ spare ∧ ref_of proc_mem (page_ i) = 1.
Proof.
  intros Hi. split; [|split].
  - set_unfold in Hi. destruct_or! Hi; subst; split; by_decision.
  - intros (j & E%page_inj & Hj%elem_of_zseq)%list_elem_of_fmap. set_unfold in Hi. lia.
  - set_unfold in Hi. destruct_or! Hi; subst; vm_compute; reflexivity.
Qed.

Lemma proc_tree : tree_inv proc_vm (page_ 0) proc_tables.
Proof.
  split.
  - by apply proc_path; left.
  - intros pre p i Hp Hl Hi. destruct (proc_table_at pre p Hp) as (k & e & -> & Hk & _ & Hx). destruct (Hx Hl) as [He Hn].
    destruct (proc_table k e Hk) as [Hf Heb]. exists (if i =? 0 then e else 0).
    split; [by apply first_entry|]. destruct (Z.eqb_spec i 0) as [->|Hi0]; [by right|left].
    split; [done|]. apply not_elem_of_list_to_map_1. change (demo_list.*1) with [[]; [0]; [0; 0]; [0; 0; 0]].
    clear -Hi0. rewrite !elem_of_cons. intros [E|[E|[E|[E|E]]]]; [by destruct pre| | | |by apply elem_of_nil in E].
    + apply (f_equal last) in E. rewrite last_snoc in E. by simplify_eq/=.
    + apply (f_equal last) in E. rewrite last_snoc in E. by simplify_eq/=.
    + apply (f_equal last) in E. rewrite last_snoc in E. by simplify_eq/=.
  - intros pre i p Hp%proc_path. unfold demo_list in Hp. rewrite !elem_of_cons in Hp.
    destruct_or! Hp; [| | | |by apply elem_of_nil in Hp]; injection Hp as Hp _;
      [by destruct pre|apply (app_inj_tail _ []) in Hp as [-> _]|apply (app_inj_tail _ [0]) in Hp as [-> _]|apply (app_inj_tail _ [0; 0]) in Hp as [-> _]];
      eexists; vm_compute; reflexivity.
  - intros pre pre' p Hp%proc_path Hp'%proc_path. unfold demo_list in *. rewrite !elem_of_cons in *.
    destruct_or! Hp; try (by apply elem_of_nil in Hp); destruct_or! Hp'; try (by apply elem_of_nil in Hp'); simplify_eq; done.
  - intros pre p Hp. destruct (proc_table_at pre p Hp) as (k & e & -> & Hk & Hl & _).
    destruct (spare_ram k (proc_page k e Hk)) as (Hr & Hs & _). split_and!; [done|done|done|].
    exists (table e). by apply proc_table.
Qed.

Lemma proc_pool : pool_inv proc_mem no_chunks.
Proof.
  pose proof (us_pool _ _ _ _ _ _ demo_uspace) as [P1 P2 P3 P4 P5]. split.
  - exact P1.
  - intros p Hp. destruct (P2 p Hp) as (R1 & R2 & _). split; [done|]. split; [done|].
    unfold ref_of. replace (refpage proc_mem !! ref_index p) with (@None Z); [done|]. symmetry. apply not_elem_of_list_to_map_1.
    intros Hin. rewrite <-list_fmap_compose in Hin. apply list_elem_of_fmap in Hin as (i & Ei & Hi).
    destruct (spare_ram i Hi) as (Hr & Hn & _). simpl in Ei. apply (ref_index_inj p (page_ i)) in Ei; [by subst|by split|done].
  - intros p a _ Ha. by apply elem_of_nil in Ha.
  - vm_compute. reflexivity.
  - by_decision.
Qed.

Lemma proc_uspace : uspace proc_vm 8 (page_ 0) proc_tables proc_entry no_chunks.
Proof.
  split; [split|exact proc_pool|exact spare_frame|].
  - exact proc_tree.
  - exists demo_pgdir. split; [apply lookup_singleton_eq|done].
  - intros va Hva. unfold leaf, proc_entry, path. rewrite VA_PART0_eq, VA_PART1_eq, VA_PART2_eq, VA_PART3_eq.
    change (2 ^ 48) with 281474976710656 in Hva. change (2 ^ 39) with 549755813888. change (2 ^ 30) with 1073741824.
    change (2 ^ 21) with 2097152. change (2 ^ 12) with 4096. destruct (decide _) as [Hv|Hv].
    + replace ((va / 549755813888) mod 512) with 0 by zmod. replace ((va / 1073741824) mod 512) with 0 by zmod.
      replace ((va / 2097152) mod 512) with 0 by zmod. replace ((va / 4096) mod 512) with (va / 4096) by zmod.
      rewrite (proj2 (proc_path _ (page_ 2003))) by by (do 3 right; left).
      destruct (proc_table 2003 (UD (page_ 2004))) as [Hf He]; [set_solver|]. by apply first_entry.
    + destruct (proc_tables !! _) as [p|] eqn:E; [|done]. exfalso. apply proc_path in E. unfold demo_list in E.
      rewrite !elem_of_cons in E. destruct_or! E; try done; [|by apply elem_of_nil in E]. injection E as E0 E1 E2 _. apply Hv. zmod.
  - intros v e Hv. unfold proc_entry. destruct (decide _); [|done]. destruct (Z.eqb_spec v 0); intros [= <-]; [|done].
    intros _. exists (page_ 2004). destruct (spare_ram 2004 ltac:(set_solver)) as (Hr & Hs & _).
    eapply fresh_user; [exact Hr|exact Hs| |exact user_frame_ok].
    intros pre Hp%proc_path. unfold demo_list in Hp. rewrite !elem_of_cons in Hp.
    destruct_or! Hp; try by apply elem_of_nil in Hp. all: apply (f_equal snd), page_inj in Hp; done.
Qed.

Lemma proc_byte x : 0 ≤ x < 4096 → user_byte proc_vm x = user_frame !! Z.to_nat x.
Proof.
  intros Hx. rewrite (user_byte_content proc_vm 8 (page_ 0) proc_tables proc_entry no_chunks x proc_uspace eq_refl ltac:(lia)).
  rewrite Z.div_small, Z.mod_small by done. unfold content. change (proc_entry 0) with (Some (UD (page_ 2004))).
  cbn [mbind option_bind]. change (UD (page_ 2004) mod 4 =? 3) with true.
  replace (P2K (PTE_ADDRESS (UD (page_ 2004)))) with (page_ 2004) by (vm_compute; reflexivity).
  change (frames proc_vm) with proc_frames. by rewrite (proj1 user_frame_ok).
Qed.

Lemma proc_bytes a l : 0 ≤ a → a + Z.of_nat (length l) ≤ 4096 → take (length l) (drop (Z.to_nat a) user_frame) = l →
  bytes_at (user_byte proc_vm) a l.
Proof.
  intros Ha Hl E i c Hi. pose proof (lookup_lt_Some _ _ _ Hi). rewrite proc_byte by lia.
  rewrite <-E in Hi. rewrite lookup_take_lt, lookup_drop in Hi by done. rewrite <-Hi. f_equal. lia.
Qed.

Lemma proc_name : string_at (user_byte proc_vm) 0 [47].
Proof. split_and!; [lia|by_decision|by_decision|]. apply proc_bytes; [lia|simpl; lia|vm_compute; reflexivity]. Qed.

Lemma proc_argv : argument (user_byte proc_vm) 16 [[97]].
Proof.
  right. split; [done|]. exists [32]. split.
  - by_decision.
  - constructor; [|constructor]. split; [lia|]. split_and!; [lia|by_decision|by_decision|].
    apply proc_bytes; [lia|simpl; lia|vm_compute; reflexivity].
  - intros [|k] p E; [|done]. injection E as <-. apply proc_bytes; [lia|rewrite length_le_enc; lia|vm_compute; reflexivity].
  - apply proc_bytes; [simpl; lia|rewrite length_le_enc; simpl; lia|vm_compute; reflexivity].
Qed.

Lemma proc_mem_ok : memory_ok proc_vm no_chunks.
Proof.
  split; [split; [|exact proc_pool|done]|done|exact spare_frame]. split; [by repeat constructor|].
  split; [intros a []%not_elem_of_nil|apply FOP_nil].
Qed.

Lemma proc_own : own_tables proc_vm proc_tables no_chunks.
Proof.
  split.
  - intros pre p Hp. destruct (proc_table_at pre p Hp) as (k & e & -> & Hk & _).
    split; [by apply (spare_ram k), (proc_page k e)|intros a Ha; by apply elem_of_nil in Ha].
  - intros pre p i Hp Hl Hi Hn. destruct (proc_table_at pre p Hp) as (k & e & -> & Hk & _ & Hx). destruct (Hx Hl) as [_ Hs].
    destruct (proc_table k e Hk) as [Hf He]. change (frames proc_vm) with proc_frames. rewrite (first_entry _ _ e) by done.
    destruct (Z.eqb_spec i 0) as [->|]; [congruence|done].
  - intros pre i p Hp%proc_path. unfold demo_list in Hp. rewrite !elem_of_cons in Hp.
    destruct_or! Hp; [| | | |by apply elem_of_nil in Hp]; injection Hp as Hp _;
      [by destruct pre|apply (app_inj_tail _ []) in Hp as [_ ->]|apply (app_inj_tail _ [0]) in Hp as [_ ->]|apply (app_inj_tail _ [0; 0]) in Hp as [_ ->]]; lia.
  - by_decision.
Qed.

Lemma proc_caller : caller 0 8 24 proc_vm (page_ 0) proc_tables proc_entry no_chunks.
Proof.
  split; [lia|exact proc_mem_ok|exact proc_uspace|done|exact proc_own|done|].
  assert (match kalloc 0 sizeof_pgdir proc_mem with Ok (pd, _) => negb (pd =? 8) && negb (pd =? 24) | _ => true end = true) as Hk
    by (vm_compute; reflexivity).
  intros pd m E. change (kmem proc_vm) with proc_mem in E. rewrite E in Hk. apply andb_true_iff in Hk as [H1%negb_true_iff%Z.eqb_neq H2%negb_true_iff%Z.eqb_neq]. done.
Qed.

(** ** The file: one segment of 8 bytes, 16 bytes in memory, at 0x400000 *)

(** the fields as the AArch64 C library lays them out *)
Definition elf64 : elf := {|
  sizeof_Ehdr := 64; sizeof_Phdr := 56;
  e_ident l k := nth (Z.to_nat k) l 0; e_entry l := le_dec (sub 24 8 l); e_phoff l := le_dec (sub 32 8 l);
  e_phnum l := le_dec (sub 56 2 l);
  p_type l := le_dec (sub 0 4 l); p_offset l := le_dec (sub 8 8 l); p_vaddr l := le_dec (sub 16 8 l);
  p_filesz l := le_dec (sub 32 8 l); p_memsz l := le_dec (sub 40 8 l);
  EI_MAG0 := 0; EI_MAG1 := 1; EI_MAG2 := 2; EI_MAG3 := 3; EI_CLASS := 4;
  ELFMAG0 := 0x7f; ELFMAG1 := 69; ELFMAG2 := 76; ELFMAG3 := 70; ELFCLASS64 := 2; PT_LOAD := 1 |}.

Definition demo_ehdr : list Z :=
  [0x7f; 69; 76; 70; 2; 1; 1] ++ replicate 9 0 ++ le_enc 2 2 ++ le_enc 2 183 ++ le_enc 4 1 ++ le_enc 8 0x400000
  ++ le_enc 8 64 ++ le_enc 8 0 ++ le_enc 4 0 ++ le_enc 2 64 ++ le_enc 2 56 ++ le_enc 2 1 ++ replicate 6 0.
Definition demo_phdr : list Z :=
  le_enc 4 1 ++ le_enc 4 5 ++ le_enc 8 120 ++ le_enc 8 0x400000 ++ le_enc 8 0x400000 ++ le_enc 8 8 ++ le_enc 8 16 ++ le_enc 8 4096.
(** [nop; b .] *)
Definition demo_text : list Z := [0x1f; 0x20; 0x03; 0xd5; 0; 0; 0; 0x14].
Definition demo_file : list Z := demo_ehdr ++ demo_phdr ++ demo_text ++ replicate 384 0.

Definition demo_ctx : UserContext := mkUctx 0 0 0 0 0 0x1000 0 0x2000 (replicate 31 0).
Definition demo_est (nb : Z) (d : list Z) : est cachest := mkEst proc_vm (one_tree INODE_REGULAR nb d) demo_ctx.
(** the inode with the reference that [execve] holds *)
Definition held (nb : Z) : Inode := set_rc 2 (one_inode INODE_REGULAR nb).

Lemma demo_namei nb d c : let t := one_tree INODE_REGULAR nb d in
  @namei _ (cache_ops small_sb) small_sb 1 [47] (Some 7) (with_cache c t) = Ok (1, with_cache c (upd_imem <[1 := held nb]> t)).
Proof. reflexivity. Qed.

Lemma demo_idle nb d : 0 ≤ nb < 2 ^ 32 → block_ok d →
  @bc_rep _ (cache_ops small_sb) (cache_laws small_sb) (one_V INODE_REGULAR nb d) ∅ (boot (one_disk INODE_REGULAR nb d)) ∧
  @bl_idle _ (cache_ops small_sb) (cache_laws small_sb) (log_ops small_sb) (log_laws small_sb) (boot (one_disk INODE_REGULAR nb d)).
Proof.
  intros Hnb Hd. split; [exact (conj (one_rep INODE_REGULAR nb d ltac:(done) Hnb Hd) eq_refl)|].
  split; [|done]. split; first [done | by_decision | by exists 0].
Qed.

(** the path leads to the file *)
Lemma demo_found nb d c : 0 ≤ nb < 2 ^ 32 → block_ok d →
  @bl_begin _ (log_ops small_sb) 7 (boot (one_disk INODE_REGULAR nb d)) = Ok (tt, c) → ∃ t,
    @namei _ (cache_ops small_sb) small_sb 1 [47] (Some 7) (with_cache c (one_tree INODE_REGULAR nb d)) = Ok (1, t) ∧
    imem t !! 1 = Some (held nb) ∧
    @bc_rep _ (cache_ops small_sb) (cache_laws small_sb) (one_V INODE_REGULAR nb d) ∅ (cst t) ∧
    ∃ X k, @bc_room _ (cache_ops small_sb) (cache_laws small_sb) (cst t) (Some 7) X k.
Proof.
  intros Hnb Hd E. destruct (demo_idle nb d Hnb Hd) as [R Hid].
  destruct (@bl_begin_ok _ (cache_ops small_sb) (cache_laws small_sb) (log_ops small_sb) (log_laws small_sb) _ _ 7 R Hid) as (c' & E' & R' & Hr).
  rewrite E in E'. injection E' as <-. eexists. split; [apply demo_namei|]. split_and!; [apply lookup_insert_eq|exact R'|].
  exists ∅, 0%nat. apply Hr. rewrite size_empty. lia.
Qed.

Lemma demo_room : (length (pages proc_mem) = 1100)%nat.
Proof. vm_compute. reflexivity. Qed.

Lemma demo_program nb d : 0 ≤ nb ≤ 512 → block_ok d →
  @program _ (cache_ops small_sb) (cache_laws small_sb) (log_ops small_sb) (log_laws small_sb) small_sb 7 1
    (demo_est nb d) [47] (one_V INODE_REGULAR nb d) 1 (held nb).
Proof.
  intros Hnb Hd. assert (0 ≤ nb < 2 ^ 32) as Hnb' by lia. split.
  - exact (demo_idle nb d Hnb' Hd).
  - intros c E. exact (demo_found nb d c Hnb' Hd E).
  - split_and!; done.
  - split; [done|]. exact (one_covered INODE_REGULAR nb d Hnb).
Qed.

Lemma demo_not_program nb d : 0 ≤ nb ≤ 512 → block_ok d → @header_ok elf64 (file_bytes (one_V INODE_REGULAR nb d) (one_entry INODE_REGULAR nb) 0 64) = false →
  @no_program _ (cache_ops small_sb) (cache_laws small_sb) (log_ops small_sb) (log_laws small_sb) elf64 small_sb 7 1
    (demo_est nb d) [47] (one_V INODE_REGULAR nb d) 1 (held nb).
Proof.
  intros Hnb Hd Hm. destruct (demo_program nb d Hnb Hd) as [R Hf Hh [Ht Hc]]. split.
  - exact R.
  - by_decision.
  - intros c E. destruct (Hf c E) as (t & ? & ? & ? & ?). by exists t.
  - intros _. destruct Hh as (_ & ? & ? & ?). by split_and!.
  - intros _. right. left. exact Hm.
Qed.

Lemma demo_executable : @executable elf64 (one_V INODE_REGULAR 128 demo_file) (held 128) demo_ehdr [demo_phdr].
Proof.
  split.
  - by_decision.
  - split; [by_decision|vm_compute; reflexivity].
  - split; vm_compute; reflexivity.
  - by_decision.
  - vm_compute. reflexivity.
  - cbn [headers_ok]. change (p_type demo_phdr =? PT_LOAD) with true. cbn iota. split; [|done]. split; by_decision.
Qed.

Lemma execve_correct_witness :
  ∃ s' : est cachest, @execve _ (cache_ops small_sb) (log_ops small_sb) elf64 small_sb 7 0 0 8 24 1 0 16 0 (demo_est 128 demo_file) = Ok (0, s') ∧
    u_elr (ucontext s') = 0x400000 ∧ bytes_at (user_byte (mv s')) 0x400000 (demo_text ++ replicate 8 0) ∧
    word_at (user_byte (mv s')) (u_sp (ucontext s')) 1.
Proof.
  pose proof (@execve_correct _ (cache_ops small_sb) (cache_laws small_sb) (log_ops small_sb) (log_laws small_sb) elf64
    small_sb 7 0 0 8 24 1 (demo_est 128 demo_file) (page_ 0) proc_tables proc_entry no_chunks [47]
    (one_V INODE_REGULAR 128 demo_file) 1 (held 128) demo_ehdr [demo_phdr] 0 16 0 [[97]] []
    proc_caller proc_name (demo_program 128 demo_file ltac:(lia) ltac:(by_decision)) demo_executable
    proc_argv (or_introl (conj eq_refl eq_refl))) as Hx.
  cbv zeta in Hx. change (_ =? 0) with false in Hx. cbn iota in Hx.
  destruct Hx as (s' & root & T & L & Ls & E & He & Hs & _ & _ & Hseg & Hst & _).
  { by_decision. }
  { change (kmem (mv (demo_est 128 demo_file))) with proc_mem. rewrite demo_room. by_decision. }
  exists s'. split; [exact E|]. split; [rewrite He; vm_compute; reflexivity|]. split.
  - apply Forall_cons in Hseg as [Hseg _]. specialize (Hseg eq_refl).
    change (@p_vaddr elf64 demo_phdr) with 0x400000 in Hseg.
    replace (@segment_bytes elf64 _ _ demo_phdr) with (demo_text ++ replicate 8 0) in Hseg by (vm_compute; reflexivity). exact Hseg.
  - rewrite Hs. apply Hst.
Defined.

Lemma execve_rejects_witness :
  ∃ s' : est cachest, @execve _ (cache_ops small_sb) (log_ops small_sb) elf64 small_sb 7 0 0 8 24 1 0 16 0 (demo_est 128 hello_block) = Ok (-1, s') ∧
    ucontext s' = demo_ctx ∧ user_byte (mv s') 32 = Some 97.
Proof.
  destruct (@execve_rejects _ (cache_ops small_sb) (cache_laws small_sb) (log_ops small_sb) (log_laws small_sb) elf64
    small_sb 7 0 0 8 24 1 (demo_est 128 hello_block) (page_ 0) proc_tables proc_entry no_chunks [47]
    (one_V INODE_REGULAR 128 hello_block) 1 (held 128) 0 16 0 proc_caller)
    as (s' & Ls & E & Hu & _ & _ & Hm & _).
  - change (kmem (mv (demo_est 128 hello_block))) with proc_mem. rewrite demo_room. lia.
  - exact proc_name.
  - apply demo_not_program; [lia|by_decision|vm_compute; reflexivity].
  - exists s'. split; [exact E|]. split; [exact Hu|]. rewrite Hm by by_decision.
    change (mv (demo_est 128 hello_block)) with proc_vm. rewrite proc_byte by lia. vm_compute. reflexivity.
Defined.

Lemma build_stack_correct_witness :
  ∃ v pd v', inmem (kalloc 0 sizeof_pgdir) (upd_pgdirs <[24 := demo_pgdir]> proc_vm) = Ok (pd, v) ∧
    (init_pgdir 0 pd;; build_stack 0 pd 16 0) v = Ok (stack_pointer [[97]] [], v') ∧
    word_at (user_byte v') (stack_pointer [[97]] []) 1 ∧
    string_at (user_byte v') (USERTOP - 2) [97].
Proof.
  destruct (setup_run 0 8 24 proc_vm (page_ 0) proc_tables proc_entry no_chunks proc_caller)
    as (v1 & pd & v2 & v3 & root & Ls & E1 & E2 & E3 & _ & _ & _ & I & U & _ & _ & Hr & Et & _ & _ & Hm).
  { change (kmem proc_vm) with proc_mem. rewrite demo_room. lia. }
  pose proof (build_stack_correct 0 v3 24 (page_ 0) proc_tables proc_entry Ls pd root {[[] := root]} (λ _, None) 16 0 [[97]] []
    U Et I) as Hx. cbv zeta in Hx. change (_ =? 0) with false in Hx. cbn iota in Hx.
  destruct Hx as (v' & T & L & E & _ & Hst & _).
  - eapply argument_ext; [|exact proc_argv]. intros x b Hx Hb. by rewrite Hm.
  - by left.
  - by_decision.
  - change (kmem proc_vm) with proc_mem in Hr. rewrite demo_room in Hr. assert (cost (take 10 [[97]]) + cost (take 10 []) ≤ 100) by by_decision. lia.
  - exists v2, pd, v'. split; [|split; [|split]].
    + rewrite (copy_pgdir_run 24 8 demo_pgdir proc_vm (lookup_singleton_eq _ _)) in E1. injection E1 as <-. exact E2.
    + rewrite (bind_Ok _ _ _ _ _ E3). exact E.
    + apply Hst.
    + destruct (sr_argv _ _ _ _ Hst) as [_ Hf _ _]. by inversion Hf as [|? ? ? ? [_ Hs]].
Defined.
